(* ===== verification/_CoqProject ===== *)
-Q . S2P
Prelude.v
Layout.v
Mem.v
Kstring.v
Kalloc.v
Heap.v
Kmalloc.v
Vm.v
Uvm.v
Fork.v
Pagefault.v
Space.v
Spaceio.v
Umalloc.v
Ring.v
Block.v
Blockio.v
Bio.v
Ide.v
Log.v
Logops.v
Fs.v
Fsblock.v
Fsfile.v
Fsinode.v
Fstrunc.v
Fsdir.v
Spinlock.v
Proc.v
Sched.v
Procsys.v
Pipe.v
Linkedlist.v
File.v
Bytefile.v
Filesim.v
Swapfile.v
Swap.v
Swapspec.v
Digits.v
Printf.v
Console.v
Syscall.v
Sysfile.v
Fdspec.v
Exec.v
Execspec.v
Execrun.v
Names.v
Nametree.v
Namewf.v
Namespec.v
Namesys.v
Mkfs.v
Mkfsspec.v
Grep.v
Sh.v
Shprint.v
