(* ===== verification/Prelude.v ===== *)
(** * A verification library for the xv6-mem kernel

    The program is a small Unix for 32-bit x86: the xv6 teaching kernel with
    demand paging added (lazy allocation, copy-on-write fork, swapping to a
    file, a kernel heap), and its user programs.  Its parts call each other
    from the bottom up: physical pages and the kernel heap; page tables and
    user address spaces over them; disk driver, buffer cache, log and file
    system; locks, processes and the scheduler; pipes, open files and
    descriptors; swapping, which joins the page tables with the file system;
    console and system calls; and, in user space, an allocator, printf, a
    shell and grep.

    ** How the code is represented

    - C integers are elements of [Z] kept in range by explicit wrap-around
      ([u32], [s32], [u16], [u8], [s8] of this file).
    - A function with effects is an element of [M S A]: from a state of type
      [S] it returns ([Ok]), panics ([Panic], the calls of panic()), does what
      C leaves undefined ([Fault], such as a null pointer), sleeps ([Block]),
      or has no turns of a loop left ([NoFuel]).  [wp c Q s] says that [c]
      returns from [s] in a state with [Q]; it excludes the other four, so a
      theorem stated with it is one of total correctness.  [wpe c Q E s] allows
      in addition the panics and sleeps that satisfy [E].
    - A component that runs inside a larger state is lifted along [Sub]; the
      locks of a component are a set of names in its state ([HasLocks]), and
      acquiring a held lock or releasing a free one panics.
    - A pointer into an array of structures is an index, a pointer into raw
      memory an address of the byte memory of [Mem].
    - Where the order of events matters (CPUs, interrupts, processes that
      sleep) the system is a step relation, whose steps run the operations,
      and the theorems hold in all reachable states.
    - Loops that are not structural take fuel.  It is the length of the
      structure that the loop walks (a list of free blocks, the entries of a
      table, the bytes of a request), and the theorems show that it suffices:
      [NoFuel] is excluded by [wp], or the result is stated as [Ok].

    ** The files

    Memory:
    - [Layout]: the macros of memlayout.h and mmu.h; the linker's symbols are
      the class [KernelImage].
    - [Mem], [Kstring]: byte memory, and string.c over it.
    - [Kalloc]: kalloc.c, the page allocator with reference counts.
    - [Heap], [Kmalloc], [Umalloc]: the Kernighan-Ritchie allocator, as used by
      kmalloc and kmallocfree (kalloc.c) over kalloc, and by malloc and free
      (umalloc.c) over sbrk (sysproc.c).
    - [Vm], [Uvm], [Fork], [Pagefault]: vm.c, from walkpgdir to copyuvm, and the
      page-fault handler.
    - [Space], [Spaceio]: an address space under construction, and the
      operations that grow it, read and write it.
    - [Exec], [Execspec], [Execrun]: exec.c with loaduvm; the image of a
      program, and the call as a whole.
    - [Linkedlist], [Swapfile], [Swap], [Swapspec]: LinkedList.c,
      unordered_map.c, the swap file of fs.c, and swapping of pages, with the
      iterator over the entries that share a page.

    Disk:
    - [Ring], [Block]: doubly linked rings and the bytes of a block.
    - [Bio], [Ide]: bio.c, and ide.c with its queue and interrupts.
    - [Log], [Logops]: log.c for one operation, with crashes, and for any
      number of concurrent operations.
    - [Blockio]: the class by which fs.c uses the layers below; [Log]
      implements it.
    - [Fs] and its theorems in [Fsblock], [Fsfile], [Fsinode], [Fstrunc], [Fsdir]:
      fs.c.

    Processes:
    - [Spinlock]: spinlock.c on several CPUs.
    - [Proc], [Sched], [Procsys]: proc.c, the operations, the steps of the CPUs,
      and the invariants.
    - [Pipe]: pipe.c.
    - [File], [Bytefile], [Filesim]: file.c, over any inodes ([InodeIO]), over
      one file of bytes, and over any inode layer that acts as one or stops.
    - [Syscall], [Sysfile], [Fdspec]: the arguments of system calls
      (syscall.c), the calls on descriptors (sysfile.c), and the reference
      counts of open files.
    - [Names], [Nametree], [Namewf], [Namespec], [Namesys]: the calls on names
      of sysfile.c (link, unlink, mkdir, mknod, create, chdir) over the class
      [NameFs]; the tree of inodes and directories that the inode layer stands
      for, and the invariants of the names in it.

    Console and user programs:
    - [Digits], [Printf], [Console]: printf.c and ulib.c, console.c and the output
      of uart.c.
    - [Grep], [Sh], [Shprint]: grep.c, the parser of sh.c.
    - [Mkfs], [Mkfsspec]: mkfs.c, which builds the disk image on the host.

    ** What the theorems show

    - Allocators: a block that kmalloc or malloc returns is disjoint from all
      live blocks, free terminates and frees exactly its block, kfree keeps
      shared pages.
    - Address spaces: fork gives the child what the parent reads; a store
      after a copy-on-write fault is not seen by the other process; demand
      paging changes no byte a process can read; a page comes back from the
      swap file with its content and its flags; exec leaves the process as it
      was or running exactly the program that the file describes.
    - Disk: whatever write a crash follows, recovery leaves all of a
      transaction or none; end_op makes it durable; concurrent operations
      never overflow the log; the cache recycles only unused clean buffers;
      the driver serves requests in order.
    - Files: what writei wrote readi reads, and no other file changes; a large
      write is one write; names entered in a directory are found; freeing a
      file frees its blocks and no others; what mkfs stores the kernel reads.
    - Names: the calls on names keep directories a tree whose entries name
      linked inodes, with exact link counts, and each changes exactly the
      names it should.
    - Concurrency: spin locks exclude; the process tree, the binding of CPUs
      and the handshake of exit and wait are invariants; a runnable process
      is dispatched within a bounded number of turns; a pipe is a bounded
      queue that loses no byte and no wakeup; descriptors are counted.
    - Console and programs: lines are delivered as edited, the screen shows
      what was printed; printf prints its directives; the shell's parser ends
      on every line and reads back what a printer writes; grep's matcher
      decides the language of its pattern.
    - Where the code does not do what it means to, a lemma shows it on a
      concrete state: a negative argument of sleep, a path in page zero, a
      write to a page that is not writable, and the like.

    ** Assumptions

    The classes state what one layer promises the next: [KernelImage] (the
    linker places the kernel in memory), [BlockIO] with [BlockLaws] (implemented
    by [Log]), [InodeIO] (implemented, with a file of bytes, in
    [Bytefile]), [ByteInode] (an inode layer that acts as a file of bytes or
    sleeps or stops, with the messages of [FsStops]), [NameIO] with [InodeLaws]
    (inodes and path names below the calls on descriptors, whose calls may
    also sleep or stop), [NameFs] (inodes and directories below the calls on
    names; implemented by [Fs] and by the tree of [Nametree]), [ExecLaws] (the
    file system below exec, whose calls return), [SwapOps] (implemented by
    [Swap]), [NodeAlloc] (the addresses of the nodes of the swap map, which
    are kept apart from the memory of the kernel), [FileOps] (files as seen by
    fork and exit).  The theorems on pages that are swapped ([Swapspec]) and on
    a large write ([Bytefile]) run over a file of bytes that does not run out
    of disk.  The theorems on names are about calls whose relative paths start
    in a directory that still has a name, that take no link count to its
    limit, and links whose new name is not the . of a directory; what happens
    otherwise is shown by [link_dot_deadlocks] and [orphan_dotdot_panics].  Interrupt handlers and the hardware of disk and display
    are steps of the systems that contain them.

    ** Not modelled

    Assembly and the registers of the processor (boot loader, context switch,
    trap entry, segment tables), the interrupt controllers and the tables of
    the BIOS, the keyboard's port, the memory disk, which is built only into
    another kernel image, the build scripts, the older swap area on raw
    blocks, the listings of processes, and the user programs that only make
    system calls and print.  Messages of cprintf inside other functions
    are left out.  A system call that sleeps in the middle is followed to the
    point where it sleeps; its continuation is modelled where it matters, in
    [Pipe], [Procsys], [Ide] and [Console]. *)

From Stdlib Require Export ZArith Lia Bool.
From stdpp Require Export base gmap list strings numbers sets fin_maps option.

#[global] Open Scope Z_scope.

(** ** Machine integers

    C integers are mathematical integers kept in range by explicit
    wrap-around: [uint]/[size_t]/pointers are in [0, 2^32), [int] is in
    [-2^31, 2^31), [uchar] in [0, 256), [char] in [-128, 128). *)

Definition u32 (x : Z) : Z := x mod 2 ^ 32.
Definition s32 (x : Z) : Z :=
  if x mod 2 ^ 32 <? 2 ^ 31 then x mod 2 ^ 32 else x mod 2 ^ 32 - 2 ^ 32.
Definition u16 (x : Z) : Z := x mod 2 ^ 16.
Definition s16 (x : Z) : Z :=
  if x mod 2 ^ 16 <? 2 ^ 15 then x mod 2 ^ 16 else x mod 2 ^ 16 - 2 ^ 16.
Definition u8 (x : Z) : Z := x mod 2 ^ 8.
Definition s8 (x : Z) : Z :=
  if x mod 2 ^ 8 <? 2 ^ 7 then x mod 2 ^ 8 else x mod 2 ^ 8 - 2 ^ 8.

(** C truth values. *)
Definition NULL : Z := 0.
Definition bool2Z (b : bool) : Z := if b then 1 else 0.

(** ** The kernel monad

    Kernel code is modelled as functions from a state to an [outcome].
    [Ok] is a normal return; [Panic] a call of [panic()], which never
    returns; [Fault] an access the C program has no right to make (a null
    or dangling pointer, an index out of range); [Block] a call that would
    put the thread to sleep and for which no other thread runs;
    [NoFuel] a loop whose bound was exhausted. *)

Inductive outcome (S A : Type) : Type :=
| Ok (a : A) (s : S)
| Panic (msg : string)
| Fault (why : string)
| Block (chan : string)
| NoFuel.
Arguments Ok {S A} a s.
Arguments Panic {S A} msg.
Arguments Fault {S A} why.
Arguments Block {S A} chan.
Arguments NoFuel {S A}.

Definition M (S A : Type) : Type := S -> outcome S A.

Definition kret {S A} (a : A) : M S A := fun s => Ok a s.

Definition kbind {S A B} (c : M S A) (f : A -> M S B) : M S B := fun s =>
  match c s with
  | Ok a s' => f a s'
  | Panic m => Panic m
  | Fault m => Fault m
  | Block c => Block c
  | NoFuel => NoFuel
  end.

Definition panic {S A} (msg : string) : M S A := fun _ => Panic msg.
Definition fault {S A} (why : string) : M S A := fun _ => Fault why.
Definition block {S A} (chan : string) : M S A := fun _ => Block chan.
Definition nofuel {S A} : M S A := fun _ => NoFuel.
Definition kget {S} : M S S := fun s => Ok s s.
Definition kput {S} (s : S) : M S unit := fun _ => Ok tt s.
Definition gets {S A} (f : S -> A) : M S A := fun s => Ok (f s) s.
Definition modify {S} (f : S -> S) : M S unit := fun s => Ok tt (f s).

(** A pointer or table access that the program may only make in range. *)
Definition deref {S A} (o : option A) : M S A :=
  match o with
  | Some a => kret a
  | None => fault "deref"
  end.

Declare Scope kernel_scope.
Delimit Scope kernel_scope with kernel.

Notation "x <- c ;; k" := (kbind c (fun x => k))
  (at level 100, c at next level, right associativity) : kernel_scope.
Notation "c ;;; k" := (kbind c (fun _ => k))
  (at level 100, right associativity) : kernel_scope.
Notation "'when' b 'do' c" := (if b then c else kret tt)
  (at level 99, c at level 99) : kernel_scope.

#[global] Open Scope kernel_scope.

(** ** Total correctness

    [wp c Q s]: run from [s], [c] returns normally, and the value and the
    final state satisfy [Q].  A [wp] therefore excludes panics, faults,
    sleeping and exhausted fuel. *)

Definition wp {S A} (c : M S A) (Q : A -> S -> Prop) (s : S) : Prop :=
  match c s with
  | Ok a s' => Q a s'
  | _ => False
  end.

Section Wp.
Context {S A B : Type}.
Implicit Types (c : M S A) (f : A -> M S B) (s : S).

Lemma wp_ret (a : A) (Q : A -> S -> Prop) s : Q a s -> wp (kret a) Q s.
Proof. done. Qed.

Lemma wp_bind c f (Q : B -> S -> Prop) s :
  wp c (fun a s' => wp (f a) Q s') s -> wp (kbind c f) Q s.
Proof. unfold wp, kbind. by destruct (c s). Qed.

Lemma wp_bind_inv c f (Q : B -> S -> Prop) s :
  wp (kbind c f) Q s -> wp c (fun a s' => wp (f a) Q s') s.
Proof. unfold wp, kbind. by destruct (c s). Qed.

Lemma wp_mono c (P Q : A -> S -> Prop) s :
  wp c P s -> (forall a s', P a s' -> Q a s') -> wp c Q s.
Proof. unfold wp. destruct (c s); naive_solver. Qed.

Lemma wp_ok c (Q : A -> S -> Prop) s :
  wp c Q s <-> exists a s', c s = Ok a s' /\ Q a s'.
Proof. unfold wp. destruct (c s); naive_solver. Qed.

Lemma wp_elim c (Q : A -> S -> Prop) s :
  wp c Q s -> exists a s', c s = Ok a s' /\ Q a s'.
Proof. apply wp_ok. Qed.

Lemma wp_eq c (Q : A -> S -> Prop) s a s' : c s = Ok a s' -> Q a s' -> wp c Q s.
Proof. unfold wp. by intros ->. Qed.

Lemma wp_run c c' (Q : A -> S -> Prop) s s' : c s = c' s' -> wp c' Q s' -> wp c Q s.
Proof. unfold wp. by intros ->. Qed.

Lemma wp_and c (P Q : A -> S -> Prop) s :
  wp c P s -> wp c Q s -> wp c (fun a s' => P a s' /\ Q a s') s.
Proof. unfold wp. destruct (c s); naive_solver. Qed.

Lemma wp_gets (f : S -> A) (Q : A -> S -> Prop) s : Q (f s) s -> wp (gets f) Q s.
Proof. done. Qed.

Lemma wp_get (Q : S -> S -> Prop) s : Q s s -> wp kget Q s.
Proof. done. Qed.

Lemma wp_modify (f : S -> S) (Q : unit -> S -> Prop) s : Q tt (f s) -> wp (modify f) Q s.
Proof. done. Qed.

Lemma wp_deref (o : option A) (a : A) (Q : A -> S -> Prop) s :
  o = Some a -> Q a s -> wp (deref o) Q s.
Proof. by intros ->. Qed.

Lemma kbind_ok c f s a s' : c s = Ok a s' -> kbind c f s = f a s'.
Proof. unfold kbind. by intros ->. Qed.

Lemma kbind_ok_inv c f s b s'' :
  kbind c f s = Ok b s'' -> exists a s', c s = Ok a s' /\ f a s' = Ok b s''.
Proof. unfold kbind. destruct (c s); naive_solver. Qed.

End Wp.

(** ** Runs that may stop

    [wpe c Q E s]: [c] returns normally and [Q] holds, or it panics or goes
    to sleep in a way [E] allows.  Faults and exhausted fuel are excluded. *)

Inductive stop := Panics (msg : string) | Blocks (chan : string).

Definition wpe {S A} (c : M S A) (Q : A -> S -> Prop) (E : stop -> Prop) (s : S) : Prop :=
  match c s with
  | Ok a s' => Q a s'
  | Panic m => E (Panics m)
  | Block ch => E (Blocks ch)
  | _ => False
  end.

Section Wpe.
Context {S A B : Type}.
Implicit Types (c : M S A) (f : A -> M S B) (s : S) (E : stop -> Prop).

Lemma wpe_wp c (Q : A -> S -> Prop) E s : wp c Q s -> wpe c Q E s.
Proof. unfold wp, wpe. by destruct (c s). Qed.

Lemma wpe_bind c f (Q : B -> S -> Prop) E s :
  wpe c (fun a s' => wpe (f a) Q E s') E s -> wpe (kbind c f) Q E s.
Proof. unfold wpe, kbind. by destruct (c s). Qed.

Lemma wpe_mono c (P Q : A -> S -> Prop) (E E' : stop -> Prop) s :
  wpe c P E s -> (forall a s', P a s' -> Q a s') -> (forall e, E e -> E' e) -> wpe c Q E' s.
Proof. unfold wpe. destruct (c s); naive_solver. Qed.

Lemma wpe_run c c' (Q : A -> S -> Prop) E s s' : c s = c' s' -> wpe c' Q E s' -> wpe c Q E s.
Proof. unfold wpe. by intros ->. Qed.

(** A part that returns normally. *)
Lemma wpe_bind_wp c f (P : A -> S -> Prop) (Q : B -> S -> Prop) E s :
  wp c P s -> (forall a s', P a s' -> wpe (f a) Q E s') -> wpe (kbind c f) Q E s.
Proof. unfold wp, wpe, kbind. destruct (c s); naive_solver. Qed.

Lemma wpe_bind_eq c f (Q : B -> S -> Prop) E s a s' :
  c s = Ok a s' -> wpe (f a) Q E s' -> wpe (kbind c f) Q E s.
Proof. unfold wpe, kbind. by intros ->. Qed.

End Wpe.

Lemma kbind_assoc {S A B C} (c : M S A) (f : A -> M S B) (g : B -> M S C) (s : S) :
  kbind (kbind c f) g s = kbind c (fun a => kbind (f a) g) s.
Proof. unfold kbind. by destruct (c s). Qed.

Create HintDb kernel.

(** Symbolic execution of a [wp] goal over the monad's primitives. *)
Ltac wp_step :=
  lazymatch goal with
  | |- wp (kbind _ _) _ _ => apply wp_bind
  | |- wp (kret _) _ _ => apply wp_ret
  | |- wp (gets _) _ _ => apply wp_gets
  | |- wp kget _ _ => apply wp_get
  | |- wp (modify _) _ _ => apply wp_modify
  end; cbv beta.
Ltac wp_steps := repeat (wp_step; simpl).

(** Case analysis on the boolean comparisons and conditionals of the code. *)
Ltac case_cond :=
  match goal with
  | |- context [if ?b then _ else _] => destruct b eqn:?
  end.

(** Decide a closed decidable statement by evaluation. *)
Ltac compute_done := apply bool_decide_unpack; vm_compute; exact I.

(** Turn boolean tests in hypotheses into propositions. *)
Ltac boolify :=
  repeat match goal with
  | H : (_ <? _) = true |- _ => apply Z.ltb_lt in H
  | H : (_ <? _) = false |- _ => apply Z.ltb_ge in H
  | H : (_ <=? _) = true |- _ => apply Z.leb_le in H
  | H : (_ <=? _) = false |- _ => apply Z.leb_gt in H
  | H : (_ =? _) = true |- _ => apply Z.eqb_eq in H
  | H : (_ =? _) = false |- _ => apply Z.eqb_neq in H
  | H : (_ && _) = true |- _ => apply andb_true_iff in H; destruct H
  | H : (_ && _) = false |- _ => apply andb_false_iff in H
  | H : (_ || _) = true |- _ => apply orb_true_iff in H
  | H : (_ || _) = false |- _ => apply orb_false_iff in H; destruct H
  | H : negb _ = true |- _ => apply negb_true_iff in H
  | H : negb _ = false |- _ => apply negb_false_iff in H
  | H : bool_decide _ = true |- _ => apply bool_decide_eq_true in H
  | H : bool_decide _ = false |- _ => apply bool_decide_eq_false in H
  end.

(** ** State embedding

    A component's operations act on the component's own state; a client
    embeds that state in a larger one and lifts the operations. *)

Class Sub (S T : Type) := {
  sub_get : T -> S;
  sub_put : S -> T -> T;
  sub_get_put : forall s t, sub_get (sub_put s t) = s;
  sub_put_put : forall s s' t, sub_put s (sub_put s' t) = sub_put s t;
  sub_put_get : forall t, sub_put (sub_get t) t = t
}.

Definition lift {S T A} `{Sub S T} (c : M S A) : M T A := fun t =>
  match c (sub_get t) with
  | Ok a s => Ok a (sub_put s t)
  | Panic m => Panic m
  | Fault m => Fault m
  | Block c => Block c
  | NoFuel => NoFuel
  end.

Lemma wp_lift {S T A} `{Sub S T} (c : M S A) (Q : A -> T -> Prop) (t : T) :
  wp c (fun a s => Q a (sub_put s t)) (sub_get t) -> wp (lift c) Q t.
Proof. unfold wp, lift. by destruct (c (sub_get t)). Qed.

Lemma wpe_lift {S T A} `{Sub S T} (c : M S A) (Q : A -> T -> Prop) E (t : T) :
  wpe c (fun a s => Q a (sub_put s t)) E (sub_get t) -> wpe (lift c) Q E t.
Proof. unfold wpe, lift. by destruct (c (sub_get t)). Qed.

(** Every state embeds in itself. *)
Program Definition sub_refl (S : Type) : Sub S S := {| sub_get := fun s => s; sub_put := fun s _ => s |}.
Solve All Obligations with done.

(** ** Arithmetic shared by the components *)

Lemma u32_id x : 0 <= x < 2 ^ 32 -> u32 x = x.
Proof. intros. unfold u32. by rewrite Z.mod_small. Qed.

Lemma u32_range x : 0 <= u32 x < 2 ^ 32.
Proof. unfold u32. apply Z.mod_pos_bound. lia. Qed.

Lemma u32_add_l x y : u32 (u32 x + y) = u32 (x + y).
Proof. unfold u32. by rewrite Zplus_mod_idemp_l. Qed.

Lemma u32_add_r x y : u32 (x + u32 y) = u32 (x + y).
Proof. unfold u32. by rewrite Zplus_mod_idemp_r. Qed.

Lemma u32_sub_l x y : u32 (u32 x - y) = u32 (x - y).
Proof. unfold u32. by rewrite Zminus_mod_idemp_l. Qed.

Lemma u32_sub_r x y : u32 (x - u32 y) = u32 (x - y).
Proof. unfold u32. by rewrite Zminus_mod_idemp_r. Qed.

(** A number is its low byte and the rest. *)
Lemma lor_low_byte x : Z.lor (Z.shiftl (Z.shiftr x 8) 8) (x mod 2 ^ 8) = x.
Proof.
  apply Z.bits_inj'. intros n Hn. rewrite Z.lor_spec, Z.shiftl_spec by done. destruct (Z.lt_ge_cases n 8).
  - rewrite Z.testbit_neg_r, Z.mod_pow2_bits_low by lia. done.
  - rewrite Z.shiftr_spec, Z.sub_add, Z.mod_pow2_bits_high by lia. apply orb_false_r.
Qed.

Lemma s32_range x : - 2 ^ 31 <= s32 x < 2 ^ 31.
Proof. unfold s32. pose proof (Z.mod_pos_bound x (2 ^ 32)). destruct (Z.ltb_spec (x mod 2 ^ 32) (2 ^ 31)); lia. Qed.

Lemma s32_id x : - 2 ^ 31 <= x < 2 ^ 31 -> s32 x = x.
Proof.
  intros. unfold s32.
  destruct (Z.le_gt_cases 0 x).
  - rewrite Z.mod_small by lia. case_cond; boolify; lia.
  - assert (x mod 2 ^ 32 = x + 2 ^ 32) as ->.
    { symmetry. apply Z.mod_unique with (-1); lia. }
    case_cond; boolify; lia.
Qed.

#[export] Hint Resolve u32_range : kernel.
