(* ===== verification/Layout.v ===== *)
(** * Memory layout and x86 paging constants (memlayout.h, mmu.h, param.h)

    The macros of the headers as functions on 32-bit values, the linker's
    symbols as a class, and spin locks as the other components see them. *)

From S2P Require Import Prelude.

(** memlayout.h *)
Definition EXTMEM : Z := 0x100000.
Definition PHYSTOP : Z := 0xE000000.
Definition DEVSPACE : Z := 0xFE000000.
Definition KERNBASE : Z := 0x80000000.
Definition KERNLINK : Z := KERNBASE + EXTMEM.
Definition V2P (a : Z) : Z := u32 (a - KERNBASE).
Definition P2V (a : Z) : Z := u32 (a + KERNBASE).

(** mmu.h *)
Definition NPDENTRIES : Z := 1024.
Definition NPTENTRIES : Z := 1024.
Definition PGSIZE : Z := 4096.
Definition PTXSHIFT : Z := 12.
Definition PDXSHIFT : Z := 22.
Definition PDX (va : Z) : Z := Z.land (Z.shiftr va PDXSHIFT) 0x3FF.
Definition PTX (va : Z) : Z := Z.land (Z.shiftr va PTXSHIFT) 0x3FF.
Definition PGADDR (d t o : Z) : Z :=
  u32 (Z.lor (Z.lor (Z.shiftl d PDXSHIFT) (Z.shiftl t PTXSHIFT)) o).
Definition PGROUNDUP (sz : Z) : Z := Z.land (u32 (sz + PGSIZE - 1)) (u32 (Z.lnot (PGSIZE - 1))).
Definition PGROUNDDOWN (a : Z) : Z := Z.land (u32 a) (u32 (Z.lnot (PGSIZE - 1))).
Definition PTE_P : Z := 0x001.
Definition PTE_W : Z := 0x002.
Definition PTE_U : Z := 0x004.
Definition PTE_PS : Z := 0x080.
Definition PTE_A : Z := 0x020.
Definition PTE_S : Z := 0x400.
Definition PTE_C : Z := 0x200.
Definition PTE_ADDR (pte : Z) : Z := Z.land pte (u32 (Z.lnot 0xFFF)).
Definition PTE_FLAGS (pte : Z) : Z := Z.land pte 0xFFF.

(** Tests and updates of flag bits: [v & f], [v &= ~f]. *)
Definition flag (f v : Z) : bool := negb (Z.land v f =? 0).
Definition clear_flag (f v : Z) : Z := Z.land v (u32 (Z.lnot f)).

(** The symbols the linker script defines: [end], the first address after
    the kernel image, and [data], the start of its writable part, which
    follows the text and is page aligned (kernel.ld). *)
Class KernelImage := {
  kend : Z;
  kdata : Z;
  kimage_ok : KERNLINK <= kdata <= kend /\ kend < KERNBASE + PHYSTOP;
  kdata_ok : KERNLINK < kdata /\ kdata mod PGSIZE = 0
}.

(** ** Spin locks, as their clients see them

    A kernel thread that already holds a lock panics when it acquires it
    again, and panics when it releases a lock it does not hold
    (spinlock.c; the full model, with contention between CPUs, is
    [Spinlock]).  A component's state carries the set of locks held. *)

Class HasLocks (S : Type) := {
  held : S -> gset string;
  set_held : gset string -> S -> S;
  held_set_held : forall h s, held (set_held h s) = h;
  set_held_held : forall s, set_held (held s) s = s;
  set_held_twice : forall h h' s, set_held h (set_held h' s) = set_held h s
}.

Definition acquire {S} `{HasLocks S} (name : string) : M S unit := fun s =>
  if decide (name ∈ held s) then Panic "acquire"
  else Ok tt (set_held ({[name]} ∪ held s) s).

Definition release {S} `{HasLocks S} (name : string) : M S unit := fun s =>
  if decide (name ∈ held s) then Ok tt (set_held (held s ∖ {[name]}) s)
  else Panic "release".

Section Locks.
Context {S : Type} `{HasLocks S}.

Lemma wp_acquire name (Q : unit -> S -> Prop) s :
  name ∉ held s -> Q tt (set_held ({[name]} ∪ held s) s) -> wp (acquire name) Q s.
Proof. intros. unfold wp, acquire. by rewrite decide_False. Qed.

Lemma wp_release name (Q : unit -> S -> Prop) s :
  name ∈ held s -> Q tt (set_held (held s ∖ {[name]}) s) -> wp (release name) Q s.
Proof. intros. unfold wp, release. by rewrite decide_True. Qed.

Lemma held_cycle name (h : gset string) : name ∉ h -> ({[name]} ∪ h) ∖ {[name]} = h.
Proof. set_solver. Qed.

End Locks.

(** ** Page arithmetic *)

Lemma land_high_mask j a : 0 <= j <= 32 -> 0 <= a < 2 ^ 32 -> Z.land a (Z.shiftl (Z.ones (32 - j)) j) = a / 2 ^ j * 2 ^ j.
Proof.
  intros Hj Ha. rewrite <- Z.shiftr_div_pow2, <- Z.shiftl_mul_pow2 by lia.
  apply Z.bits_inj'. intros n Hn. rewrite Z.land_spec.
  destruct (Z.lt_ge_cases n j).
  - rewrite !Z.shiftl_spec_low by lia. by rewrite andb_false_r.
  - rewrite !Z.shiftl_spec, Z.shiftr_spec by lia. replace (n - j + j) with n by lia.
    rewrite Z.testbit_ones_nonneg by lia.
    destruct (n - j <? 32 - j) eqn:E; boolify; [by rewrite andb_true_r|].
    rewrite andb_false_r. symmetry. destruct (decide (a = 0)) as [->|]; [apply Z.bits_0|].
    apply Z.bits_above_log2; [lia|]. apply Z.log2_lt_pow2; [lia|].
    apply Z.lt_le_trans with (2 ^ 32); [lia|]. apply Z.pow_le_mono_r; lia.
Qed.

Lemma land_page_mask a :
  0 <= a < 2 ^ 32 -> Z.land a (u32 (Z.lnot (PGSIZE - 1))) = a / PGSIZE * PGSIZE.
Proof. by apply (land_high_mask 12 a). Qed.

(** Rounding down to a word. *)
Lemma land_word_mask a : 0 <= a < 2 ^ 32 -> Z.land a (u32 (Z.lnot 3)) = a / 4 * 4.
Proof. by apply (land_high_mask 2 a). Qed.

Lemma PGROUNDDOWN_spec a : 0 <= a < 2 ^ 32 -> PGROUNDDOWN a = a / PGSIZE * PGSIZE.
Proof. intros. unfold PGROUNDDOWN. rewrite u32_id by done. by apply land_page_mask. Qed.

Lemma PGROUNDUP_spec a :
  0 <= a <= 2 ^ 32 - PGSIZE -> PGROUNDUP a = (a + PGSIZE - 1) / PGSIZE * PGSIZE.
Proof.
  intros. unfold PGROUNDUP. unfold PGSIZE in *. rewrite u32_id by lia.
  apply land_page_mask. lia.
Qed.

Lemma V2P_val v : KERNBASE <= v < 2 ^ 32 -> V2P v = v - KERNBASE.
Proof. intros. unfold V2P. apply u32_id. unfold KERNBASE in *. lia. Qed.

Lemma P2V_val a : 0 <= a < 2 ^ 32 - KERNBASE -> P2V a = a + KERNBASE.
Proof. intros. unfold P2V. apply u32_id. unfold KERNBASE in *. lia. Qed.

Lemma P2V_V2P v : KERNBASE <= v < 2 ^ 32 -> P2V (V2P v) = v.
Proof. intros. rewrite V2P_val, P2V_val by (unfold KERNBASE in *; lia). lia. Qed.

Lemma PDX_val va : 0 <= va < 2 ^ 32 -> PDX va = va / 2 ^ 22.
Proof.
  intros. unfold PDX, PDXSHIFT. rewrite Z.shiftr_div_pow2 by lia.
  change 0x3FF with (Z.ones 10). rewrite Z.land_ones by lia.
  apply Z.mod_small. split; [apply Z.div_pos; lia|]. apply Z.div_lt_upper_bound; lia.
Qed.

Lemma PTX_val va : 0 <= va < 2 ^ 32 -> PTX va = va / 2 ^ 12 mod 2 ^ 10.
Proof.
  intros. unfold PTX, PTXSHIFT. rewrite Z.shiftr_div_pow2 by lia.
  change 0x3FF with (Z.ones 10). by rewrite Z.land_ones by lia.
Qed.

(** ** Page-table entries: an aligned address and flags below [PGSIZE] *)

Lemma land_aligned pa g : pa mod PGSIZE = 0 -> 0 <= g < PGSIZE -> Z.land pa g = 0.
Proof.
  intros Hpa Hg. unfold PGSIZE in *. apply Z.bits_inj'. intros n Hn.
  rewrite Z.land_spec, Z.bits_0. destruct (Z.lt_ge_cases n 12).
  - assert (pa = pa / 2 ^ 12 * 2 ^ 12) as -> by (Z.div_mod_to_equations; lia).
    by rewrite Z.mul_pow2_bits_low.
  - rewrite (Z.bits_above_log2 g); [apply andb_false_r|lia|].
    destruct (decide (g = 0)) as [->|]; [simpl; lia|].
    apply Z.log2_lt_pow2; [lia|]. apply Z.lt_le_trans with (2 ^ 12); [lia|]. apply Z.pow_le_mono_r; lia.
Qed.

Lemma lor_aligned pa g : pa mod PGSIZE = 0 -> 0 <= g < PGSIZE -> Z.lor pa g = pa + g.
Proof.
  intros Hpa Hg. pose proof (Z.add_lor_land pa g) as E. rewrite land_aligned in E by done. lia.
Qed.

Lemma land_entry pa f g :
  pa mod PGSIZE = 0 -> 0 <= f < PGSIZE -> 0 <= g < PGSIZE -> Z.land (pa + f) g = Z.land f g.
Proof.
  intros Hpa Hf Hg. rewrite <- lor_aligned by done. by rewrite Z.land_lor_distr_l, land_aligned.
Qed.

Lemma PTE_ADDR_entry pa f :
  0 <= pa < 2 ^ 32 -> pa mod PGSIZE = 0 -> 0 <= f < PGSIZE -> PTE_ADDR (pa + f) = pa.
Proof.
  intros Hr Hpa Hf. unfold PTE_ADDR.
  assert (pa + f < 2 ^ 32) by (unfold PGSIZE in *; Z.div_mod_to_equations; lia).
  change 0xFFF with (PGSIZE - 1). rewrite land_page_mask by lia.
  unfold PGSIZE in *. Z.div_mod_to_equations. lia.
Qed.

Lemma PTE_FLAGS_entry pa f :
  pa mod PGSIZE = 0 -> 0 <= f < PGSIZE -> PTE_FLAGS (pa + f) = f.
Proof.
  intros Hpa Hf. unfold PTE_FLAGS. rewrite land_entry by (unfold PGSIZE in *; lia).
  change 0xFFF with (Z.ones 12). rewrite Z.land_ones by lia. apply Z.mod_small. unfold PGSIZE in *. lia.
Qed.

Lemma lor_range a b n : 0 <= n -> 0 <= a < 2 ^ n -> 0 <= b < 2 ^ n -> 0 <= Z.lor a b < 2 ^ n.
Proof.
  intros Hn Ha Hb. split; [apply Z.lor_nonneg; lia|].
  destruct (decide (Z.lor a b = 0)) as [->|Hne]; [lia|].
  apply Z.log2_lt_pow2.
  - assert (0 <= Z.lor a b) by (apply Z.lor_nonneg; lia). lia.
  - rewrite Z.log2_lor by lia. apply Z.max_lub_lt.
    + destruct (decide (a = 0)) as [->|]; [|apply Z.log2_lt_pow2; lia].
      destruct (decide (n = 0)) as [->|]; [|simpl; lia].
      assert (b = 0) as -> by lia. done.
    + destruct (decide (b = 0)) as [->|]; [|apply Z.log2_lt_pow2; lia].
      destruct (decide (n = 0)) as [->|]; [|simpl; lia].
      assert (a = 0) as -> by lia. done.
Qed.

(** Every entry is an aligned address plus flags. *)
Lemma entry_split v : 0 <= v < 2 ^ 32 ->
  v = PTE_ADDR v + PTE_FLAGS v /\ PTE_ADDR v mod PGSIZE = 0 /\ 0 <= PTE_ADDR v < 2 ^ 32 /\
  0 <= PTE_FLAGS v < PGSIZE.
Proof.
  intros Hv.
  assert (PTE_ADDR v = v / PGSIZE * PGSIZE) as -> by (by apply land_page_mask).
  assert (PTE_FLAGS v = v mod PGSIZE) as ->.
  { unfold PTE_FLAGS. change 0xFFF with (Z.ones 12). by rewrite Z.land_ones by lia. }
  split; [unfold PGSIZE; Z.div_mod_to_equations; lia|].
  split; [apply Z.mod_mul; unfold PGSIZE; lia|].
  unfold PGSIZE. split; Z.div_mod_to_equations; lia.
Qed.

Lemma land_le_l x y : 0 <= x -> 0 <= Z.land x y <= x.
Proof.
  intros Hx. assert (0 <= Z.land x y) by (apply Z.land_nonneg; lia).
  assert (0 <= Z.ldiff x y) by (apply Z.ldiff_nonneg; lia).
  pose proof (Z.add_lor_land (Z.ldiff x y) (Z.land x y)) as E.
  rewrite Z.lor_ldiff_and, (Z.land_comm x y), Z.land_assoc, Z.land_ldiff, Z.land_0_l in E.
  rewrite (Z.land_comm y x) in E. lia.
Qed.

(** Clearing a flag leaves the address alone. *)
Lemma clear_entry pa x f :
  0 <= pa < 2 ^ 32 -> pa mod PGSIZE = 0 -> 0 <= x < PGSIZE -> 0 <= f < PGSIZE ->
  Z.land (pa + x) (u32 (Z.lnot f)) = pa + Z.land x (u32 (Z.lnot f)).
Proof.
  intros Hr Hpa Hx Hf. rewrite <- lor_aligned at 1 by done. rewrite Z.land_lor_distr_l.
  assert (Z.land pa (u32 (Z.lnot f)) = pa) as ->.
  { unfold u32. rewrite <- Z.land_ones by lia. rewrite (Z.land_comm (Z.lnot f)), Z.land_assoc.
    rewrite (Z.land_ones pa) by lia. rewrite Z.mod_small, <- Z.ldiff_land by lia.
    rewrite <- (Z.lor_ldiff_and pa f) at 2. by rewrite land_aligned, Z.lor_0_r. }
  apply lor_aligned; [done|]. pose proof (land_le_l x (u32 (Z.lnot f))). lia.
Qed.
