(* ===== verification/Mem.v ===== *)
(** * Physical memory

    The memory the kernel addresses, as a finite map from byte addresses
    (kernel virtual addresses) to bytes, with the byte and 32-bit
    little-endian word accesses the C code compiles to.  [Kstring] models
    string.c over it; the page allocator, the kernel heap and the page
    tables all live in it. *)

From S2P Require Import Prelude.

Abbreviation mem := (gmap Z Z).

(** Uninitialised bytes read as zero (the kernel's bss; RAM contents before
    the first write are irrelevant to every theorem below). *)
Definition ld8 (m : mem) (a : Z) : Z := u8 (default 0 (m !! a)).
Definition st8 (a v : Z) (m : mem) : mem := <[a := u8 v]> m.

Definition ld32 (m : mem) (a : Z) : Z :=
  ld8 m a + 2 ^ 8 * ld8 m (a + 1) + 2 ^ 16 * ld8 m (a + 2) + 2 ^ 24 * ld8 m (a + 3).
Definition st32 (a v : Z) (m : mem) : mem :=
  st8 (a + 3) (v / 2 ^ 24) (st8 (a + 2) (v / 2 ^ 16) (st8 (a + 1) (v / 2 ^ 8) (st8 a v m))).

(** [rep stosb] and [rep stosl] (x86.h). *)
Fixpoint stosb (addr data : Z) (cnt : nat) (m : mem) : mem :=
  match cnt with
  | O => m
  | S cnt' => stosb (addr + 1) data cnt' (st8 addr data m)
  end.

Fixpoint stosl (addr data : Z) (cnt : nat) (m : mem) : mem :=
  match cnt with
  | O => m
  | S cnt' => stosl (addr + 4) data cnt' (st32 addr data m)
  end.

(** Storing the bytes [bs] from [v] on. *)
Fixpoint store_bytes (v : Z) (bs : list Z) (m : mem) : mem :=
  match bs with
  | [] => m
  | x :: bs' => store_bytes (v + 1) bs' (st8 v x m)
  end.

(** ** Access lemmas *)

Lemma u8_range x : 0 <= u8 x < 256.
Proof. unfold u8. apply Z.mod_pos_bound. lia. Qed.

Lemma u8_u8 x : u8 (u8 x) = u8 x.
Proof. unfold u8. by rewrite Z.mod_mod. Qed.

Lemma ld8_range m a : 0 <= ld8 m a < 256.
Proof. apply u8_range. Qed.

Lemma ld8_st8 m a b v : ld8 (st8 b v m) a = if decide (a = b) then u8 v else ld8 m a.
Proof.
  unfold ld8, st8. case_decide as E.
  - subst. rewrite lookup_insert_eq. apply u8_u8.
  - by rewrite lookup_insert_ne.
Qed.

Lemma ld8_st8_eq m a v : ld8 (st8 a v m) a = u8 v.
Proof. rewrite ld8_st8. by case_decide. Qed.

Lemma ld8_st8_ne m a b v : a <> b -> ld8 (st8 b v m) a = ld8 m a.
Proof. intros. rewrite ld8_st8. by case_decide. Qed.

Lemma ld32_range m a : 0 <= ld32 m a < 2 ^ 32.
Proof.
  unfold ld32.
  pose proof (ld8_range m a). pose proof (ld8_range m (a + 1)).
  pose proof (ld8_range m (a + 2)). pose proof (ld8_range m (a + 3)). lia.
Qed.

(** A word store is visible at its four bytes and nowhere else. *)
Lemma ld8_st32 m a b v :
  ld8 (st32 b v m) a =
  if decide (b <= a < b + 4) then u8 (v / 2 ^ (8 * (a - b))) else ld8 m a.
Proof.
  unfold st32. rewrite !ld8_st8.
  destruct (decide (b <= a < b + 4)) as [Hin|Hout].
  - assert (a = b \/ a = b + 1 \/ a = b + 2 \/ a = b + 3) as [E|[E|[E|E]]] by lia; subst.
    + repeat (rewrite decide_False by lia). rewrite decide_True by done.
      by rewrite Z.sub_diag, Z.div_1_r.
    + repeat (rewrite decide_False by lia). rewrite decide_True by done.
      by replace (8 * (b + 1 - b)) with 8 by lia.
    + rewrite decide_False by lia. rewrite decide_True by done.
      by replace (8 * (b + 2 - b)) with 16 by lia.
    + rewrite decide_True by done.
      by replace (8 * (b + 3 - b)) with 24 by lia.
  - by repeat (rewrite decide_False by lia).
Qed.

Lemma ld32_st32_eq m a v : ld32 (st32 a v m) a = u32 v.
Proof.
  unfold ld32. rewrite !ld8_st32.
  repeat (rewrite decide_True by lia).
  replace (8 * (a - a)) with 0 by lia. replace (8 * (a + 1 - a)) with 8 by lia.
  replace (8 * (a + 2 - a)) with 16 by lia. replace (8 * (a + 3 - a)) with 24 by lia.
  unfold u8, u32. change (2 ^ 0) with 1. rewrite Z.div_1_r.
  change (2 ^ 8) with 256. change (2 ^ 16) with 65536.
  change (2 ^ 24) with 16777216. change (2 ^ 32) with 4294967296.
  Z.div_mod_to_equations. lia.
Qed.

Lemma ld32_st32_ne m a b v :
  a + 4 <= b \/ b + 4 <= a -> ld32 (st32 b v m) a = ld32 m a.
Proof.
  intros. unfold ld32. rewrite !ld8_st32.
  by repeat (rewrite decide_False by lia).
Qed.

Lemma ld32_ext m1 m2 a :
  (forall b, a <= b < a + 4 -> ld8 m1 b = ld8 m2 b) -> ld32 m1 a = ld32 m2 a.
Proof. intros H. unfold ld32. rewrite !H by lia. done. Qed.

Lemma ld8_store_bytes bs v m a :
  ld8 (store_bytes v bs m) a = if decide (v <= a < v + Z.of_nat (length bs)) then u8 (bs !!! Z.to_nat (a - v)) else ld8 m a.
Proof.
  revert v m. induction bs as [|x bs IH]; intros v m; cbn [store_bytes length].
  - by rewrite decide_False by lia.
  - rewrite IH. destruct (decide (v + 1 <= a < v + 1 + Z.of_nat (length bs))) as [H1|H1].
    + rewrite decide_True by lia. by replace (Z.to_nat (a - v)) with (S (Z.to_nat (a - (v + 1)))) by lia.
    + rewrite ld8_st8. destruct (decide (a = v)) as [->|Hne].
      * rewrite decide_True by lia. by rewrite Z.sub_diag.
      * by rewrite decide_False by lia.
Qed.

Lemma ld8_stosb m a addr data cnt :
  ld8 (stosb addr data cnt m) a =
  if decide (addr <= a < addr + Z.of_nat cnt) then u8 data else ld8 m a.
Proof.
  revert addr m. induction cnt as [|cnt IH]; intros addr m; cbn [stosb].
  - by rewrite decide_False by lia.
  - rewrite IH, ld8_st8. repeat case_decide; try done; lia.
Qed.

Lemma ld8_stosl m a addr data cnt :
  ld8 (stosl addr data cnt m) a =
  if decide (addr <= a < addr + 4 * Z.of_nat cnt)
  then u8 (data / 2 ^ (8 * ((a - addr) mod 4))) else ld8 m a.
Proof.
  revert addr m. induction cnt as [|cnt IH]; intros addr m; cbn [stosl].
  - by rewrite decide_False by lia.
  - rewrite IH, ld8_st32.
    destruct (decide (addr + 4 <= a < addr + 4 + 4 * Z.of_nat cnt)).
    + rewrite decide_True by lia. do 4 f_equal.
      replace (a - addr) with (a - (addr + 4) + 1 * 4) by lia.
      by rewrite Z.mod_add by lia.
    + destruct (decide (addr <= a < addr + 4)).
      * rewrite decide_True by lia. by rewrite Z.mod_small by lia.
      * by rewrite decide_False by lia.
Qed.

Arguments ld32 : simpl never.
Arguments st32 : simpl never.
Arguments ld8 : simpl never.
Arguments st8 : simpl never.
