(* ===== verification/Kstring.v ===== *)
(** * string.c: the kernel's byte-string routines

    Every routine is a function of the memory it reads and writes.  The C
    functions that return their destination pointer return it unchanged;
    only the resulting memory is given here. *)

From S2P Require Import Prelude Mem.

(** [memset]: words at a time when address and length allow it. *)
Definition memset (dst c n : Z) (m : mem) : mem :=
  if (Z.rem (s32 dst) 4 =? 0) && (n mod 4 =? 0) then
    let c := Z.land c 0xFF in
    stosl dst
      (Z.lor (Z.lor (Z.lor (Z.shiftl c 24) (Z.shiftl c 16)) (Z.shiftl c 8)) c)
      (Z.to_nat (n / 4)) m
  else
    stosb dst c (Z.to_nat n) m.

Fixpoint memcmp_loop (s1 s2 : Z) (n : nat) (m : mem) : Z :=
  match n with
  | O => 0
  | S n' =>
      if negb (ld8 m s1 =? ld8 m s2) then ld8 m s1 - ld8 m s2
      else memcmp_loop (s1 + 1) (s2 + 1) n' m
  end.
Definition memcmp (v1 v2 n : Z) (m : mem) : Z := memcmp_loop v1 v2 (Z.to_nat n) m.

(** The two copying loops of [memmove]: [*--d = *--s] and [*d++ = *s++]. *)
Fixpoint memmove_back (d s : Z) (n : nat) (m : mem) : mem :=
  match n with
  | O => m
  | S n' => memmove_back (d - 1) (s - 1) n' (st8 (d - 1) (ld8 m (s - 1)) m)
  end.
Fixpoint memmove_fwd (d s : Z) (n : nat) (m : mem) : mem :=
  match n with
  | O => m
  | S n' => memmove_fwd (d + 1) (s + 1) n' (st8 d (ld8 m s) m)
  end.
Definition memmove (dst src n : Z) (m : mem) : mem :=
  if (src <? dst) && (dst <? src + n)
  then memmove_back (dst + n) (src + n) (Z.to_nat n) m
  else memmove_fwd dst src (Z.to_nat n) m.

Definition memcpy (dst src n : Z) (m : mem) : mem := memmove dst src n m.

Fixpoint strncmp_loop (p q : Z) (n : nat) (m : mem) : Z :=
  match n with
  | O => 0
  | S n' =>
      if negb (ld8 m p =? 0) && (ld8 m p =? ld8 m q)
      then strncmp_loop (p + 1) (q + 1) n' m
      else ld8 m p - ld8 m q
  end.
Definition strncmp (p q n : Z) (m : mem) : Z := strncmp_loop p q (Z.to_nat n) m.

(** [strncpy]: copy up to and including a NUL, then pad with NULs. *)
Fixpoint strncpy_loop (s t : Z) (n : nat) (m : mem) : mem :=
  match n with
  | O => m
  | S n' =>
      let m' := st8 s (ld8 m t) m in
      if ld8 m t =? 0 then stosb (s + 1) 0 n' m'
      else strncpy_loop (s + 1) (t + 1) n' m'
  end.
Definition strncpy (s t n : Z) (m : mem) : mem := strncpy_loop s t (Z.to_nat n) m.

(** [while(--n > 0 && (star s++ = star t++) != 0); star s = 0]; the counter is the number
    of further iterations the test [--n > 0] allows. *)
Fixpoint safestrcpy_loop (s t : Z) (n : nat) (m : mem) : mem :=
  match n with
  | O => st8 s 0 m
  | S n' =>
      let m' := st8 s (ld8 m t) m in
      if ld8 m t =? 0 then st8 (s + 1) 0 m'
      else safestrcpy_loop (s + 1) (t + 1) n' m'
  end.
Definition safestrcpy (s t n : Z) (m : mem) : mem :=
  if n <=? 0 then m else safestrcpy_loop s t (Z.to_nat (n - 1)) m.

(** [strlen] scans for a NUL; [None] when there is none within the fuel. *)
Fixpoint strlen_loop (s : Z) (fuel : nat) (n : Z) (m : mem) : option Z :=
  match fuel with
  | O => None
  | S fuel' => if ld8 m (s + n) =? 0 then Some n else strlen_loop s fuel' (n + 1) m
  end.
Definition strlen (fuel : nat) (s : Z) (m : mem) : option Z := strlen_loop s fuel 0 m.

(** ** What the routines compute *)

Definition memset_word (c : Z) : Z :=
  Z.lor (Z.lor (Z.lor (Z.shiftl c 24) (Z.shiftl c 16)) (Z.shiftl c 8)) c.

Lemma memset_word_bytes c k :
  0 <= c < 256 -> 0 <= k < 4 -> u8 (memset_word c / 2 ^ (8 * k)) = c.
Proof.
  intros Hc Hk.
  assert (forallb (fun c => forallb (fun k =>
      u8 (memset_word (Z.of_nat c) / 2 ^ (8 * Z.of_nat k)) =? Z.of_nat c)
      (seq 0 4)) (seq 0 256) = true) as H by (vm_compute; reflexivity).
  rewrite forallb_forall in H. specialize (H (Z.to_nat c)).
  rewrite forallb_forall in H by (apply in_seq; lia). specialize (H ltac:(apply in_seq; lia) (Z.to_nat k)).
  rewrite !Z2Nat.id, Z.eqb_eq in H by lia. apply H, in_seq. lia.
Qed.

Lemma land_255 c : Z.land c 0xFF = u8 c.
Proof. change 0xFF with (Z.ones 8). by rewrite Z.land_ones by lia. Qed.

Lemma ld8_memset dst c n m a :
  0 <= n ->
  ld8 (memset dst c n m) a = if decide (dst <= a < dst + n) then u8 c else ld8 m a.
Proof.
  intros Hn. unfold memset. case_cond; boolify.
  - rewrite ld8_stosl. change (Z.lor _ _) with (memset_word (Z.land c 0xFF)).
    rewrite Z2Nat.id by (apply Z.div_pos; lia).
    replace (4 * (n / 4)) with n by (pose proof (Z.div_mod n 4); lia).
    case_decide; [|done].
    rewrite land_255, memset_word_bytes; [done|apply u8_range|apply Z.mod_pos_bound; lia].
  - rewrite ld8_stosb, Z2Nat.id by done. done.
Qed.

Lemma ld8_memmove_fwd n : forall d s m a,
  d <= s \/ s + Z.of_nat n <= d ->
  ld8 (memmove_fwd d s n m) a =
  if decide (d <= a < d + Z.of_nat n) then ld8 m (s + (a - d)) else ld8 m a.
Proof.
  induction n as [|n IH]; intros d s m a Hd; cbn [memmove_fwd].
  - by rewrite decide_False by lia.
  - rewrite IH by lia. rewrite !ld8_st8.
    destruct (decide (d + 1 <= a < d + 1 + Z.of_nat n)).
    + rewrite decide_False by lia. rewrite decide_True by lia. f_equal. lia.
    + destruct (decide (a = d)) as [->|].
      * rewrite decide_True by lia. unfold ld8. rewrite u8_u8. by rewrite Z.sub_diag, Z.add_0_r.
      * by rewrite decide_False by lia.
Qed.

Lemma ld8_memmove_back n : forall d s m a,
  s <= d ->
  ld8 (memmove_back d s n m) a =
  if decide (d - Z.of_nat n <= a < d) then ld8 m (s + (a - d)) else ld8 m a.
Proof.
  induction n as [|n IH]; intros d s m a Hd; cbn [memmove_back].
  - by rewrite decide_False by lia.
  - rewrite IH by lia. rewrite !ld8_st8.
    destruct (decide (d - 1 - Z.of_nat n <= a < d - 1)).
    + rewrite decide_False by lia. rewrite decide_True by lia. f_equal. lia.
    + destruct (decide (a = d - 1)) as [->|].
      * rewrite decide_True by lia. unfold ld8. rewrite u8_u8. do 3 f_equal. lia.
      * by rewrite decide_False by lia.
Qed.

Lemma ld8_memmove dst src n m a :
  0 <= n ->
  ld8 (memmove dst src n m) a =
  if decide (dst <= a < dst + n) then ld8 m (src + (a - dst)) else ld8 m a.
Proof.
  intros Hn. unfold memmove. case_cond; boolify.
  - rewrite ld8_memmove_back, Z2Nat.id by lia.
    replace (dst + n - n) with dst by lia. case_decide; [f_equal; lia|done].
  - rewrite ld8_memmove_fwd, Z2Nat.id by (rewrite ?Z2Nat.id; lia). done.
Qed.

(** C: [memmove] copies correctly even when the two regions overlap: every
    byte of the destination range holds what the source byte held before the
    call, and no other byte changes. *)
Theorem memmove_overlap_safe dst src n m a :
  0 <= n ->
  ld8 (memmove dst src n m) a =
  if decide (dst <= a < dst + n) then ld8 m (src + (a - dst)) else ld8 m a.
Proof. apply ld8_memmove. Qed.

Lemma memcmp_loop_zero n : forall s1 s2 m,
  memcmp_loop s1 s2 n m = 0 <->
  (forall i, 0 <= i < Z.of_nat n -> ld8 m (s1 + i) = ld8 m (s2 + i)).
Proof.
  induction n as [|n IH]; intros s1 s2 m; cbn [memcmp_loop].
  - split; [intros; lia|done].
  - case_cond; boolify.
    + split; [lia|]. intros H. specialize (H 0 ltac:(lia)). rewrite !Z.add_0_r in H. lia.
    + rewrite IH. split; intros H i Hi.
      * destruct (decide (i = 0)) as [->|]; [by rewrite !Z.add_0_r|].
        specialize (H (i - 1) ltac:(lia)).
        by replace (s1 + i) with (s1 + 1 + (i - 1)) by lia;
           replace (s2 + i) with (s2 + 1 + (i - 1)) by lia.
      * specialize (H (i + 1) ltac:(lia)).
        by replace (s1 + 1 + i) with (s1 + (i + 1)) by lia;
           replace (s2 + 1 + i) with (s2 + (i + 1)) by lia.
Qed.

Lemma memcmp_zero v1 v2 n m :
  0 <= n ->
  memcmp v1 v2 n m = 0 <-> (forall i, 0 <= i < n -> ld8 m (v1 + i) = ld8 m (v2 + i)).
Proof. intros. unfold memcmp. rewrite memcmp_loop_zero, Z2Nat.id; done. Qed.

(** [strncmp] is zero exactly when the strings agree up to and including
    the first NUL, or on all [n] bytes. *)
Lemma strncmp_loop_zero n : forall p q m,
  strncmp_loop p q n m = 0 <->
  (exists k, 0 <= k <= Z.of_nat n /\
     (forall i, 0 <= i < k -> ld8 m (p + i) = ld8 m (q + i) /\ ld8 m (p + i) <> 0) /\
     (k = Z.of_nat n \/ (ld8 m (p + k) = 0 /\ ld8 m (q + k) = 0))).
Proof.
  induction n as [|n IH]; intros p q m; cbn [strncmp_loop].
  - split; [|done]. intros _. exists 0. split; [lia|]. split; [intros; lia|]. left. lia.
  - destruct (ld8 m p =? 0) eqn:E0; cbn [negb andb]; boolify.
    + split.
      * intros Hq. exists 0. split; [lia|]. split; [intros; lia|]. right. rewrite !Z.add_0_r. lia.
      * intros (k & Hk & Hpre & Hend).
        destruct (decide (k = 0)) as [->|Hk0].
        -- destruct Hend as [|[Hp Hq]]; [lia|]. rewrite !Z.add_0_r in *. lia.
        -- destruct (Hpre 0 ltac:(lia)) as [_ Hne]. rewrite Z.add_0_r in Hne. lia.
    + destruct (ld8 m p =? ld8 m q) eqn:E; boolify.
      * rewrite IH. split.
        -- intros (k & Hk & Hpre & Hend). exists (k + 1). split; [lia|]. split.
           ++ intros i Hi. destruct (decide (i = 0)) as [->|]; [by rewrite !Z.add_0_r|].
              replace (p + i) with (p + 1 + (i - 1)) by lia.
              replace (q + i) with (q + 1 + (i - 1)) by lia. apply Hpre. lia.
           ++ destruct Hend as [|Hend]; [left; lia|right].
              by replace (p + (k + 1)) with (p + 1 + k) by lia;
                 replace (q + (k + 1)) with (q + 1 + k) by lia.
        -- intros (k & Hk & Hpre & Hend).
           destruct (decide (k = 0)) as [->|Hk0].
           { destruct Hend as [|[Hp _]]; [lia|]. rewrite Z.add_0_r in Hp. lia. }
           exists (k - 1). split; [lia|]. split.
           ++ intros i Hi. specialize (Hpre (i + 1) ltac:(lia)).
              by replace (p + 1 + i) with (p + (i + 1)) by lia;
                 replace (q + 1 + i) with (q + (i + 1)) by lia.
           ++ destruct Hend as [|Hend]; [left; lia|right].
              by replace (p + 1 + (k - 1)) with (p + k) by lia;
                 replace (q + 1 + (k - 1)) with (q + k) by lia.
      * split; [lia|]. intros (k & Hk & Hpre & Hend).
        destruct (decide (k = 0)) as [->|Hk0].
        -- destruct Hend as [|[Hp _]]; [lia|]. rewrite Z.add_0_r in Hp. lia.
        -- destruct (Hpre 0 ltac:(lia)) as [He _]. rewrite !Z.add_0_r in He. lia.
Qed.

(** [safestrcpy] writes only inside its buffer and leaves a NUL in it. *)
Lemma safestrcpy_loop_frame n : forall s t m a,
  ~ s <= a < s + Z.of_nat n + 1 -> ld8 (safestrcpy_loop s t n m) a = ld8 m a.
Proof.
  induction n as [|n IH]; intros s t m a Ha; cbn [safestrcpy_loop].
  - apply ld8_st8_ne. lia.
  - case_cond.
    + rewrite !ld8_st8_ne by lia. done.
    + rewrite IH by lia. apply ld8_st8_ne. lia.
Qed.

Lemma safestrcpy_loop_nul n : forall s t m,
  exists k, 0 <= k <= Z.of_nat n /\ ld8 (safestrcpy_loop s t n m) (s + k) = 0.
Proof.
  induction n as [|n IH]; intros s t m; cbn [safestrcpy_loop].
  - exists 0. split; [lia|]. by rewrite Z.add_0_r, ld8_st8_eq.
  - case_cond; boolify.
    + exists 1. split; [lia|]. by rewrite ld8_st8_eq.
    + destruct (IH (s + 1) (t + 1) (st8 s (ld8 m t) m)) as (k & Hk & E).
      exists (k + 1). split; [lia|]. by replace (s + (k + 1)) with (s + 1 + k) by lia.
Qed.
