(* ===== verification/Kalloc.v ===== *)
(** * kalloc.c: the physical page allocator with reference counts

    The free pages form a linked list threaded through their own first
    words ([struct run]); [phys_page_data] holds, per physical page, the
    number of page-table references (copy-on-write sharing) and the
    logical address the page was last mapped at.

    The invariant [kinv l s] says the list in memory is exactly [l], that
    its pages are distinct, well-formed and unreferenced; [kalloc_correct],
    [kfree_shared], [kfree_last] and [freerange_correct] show that every
    operation preserves it and what it does to the counts and to memory. *)

From S2P Require Import Prelude Layout Mem Kstring.

Definition NPDATAMAP : Z := PHYSTOP / PGSIZE.

Record page_data := mk_page_data { ref_count : Z; la : Z }.

Record kmem := mk_kmem {
  memory : mem;                       (* all of physical memory *)
  freelist : Z;                       (* kmem.freelist *)
  kmem_use_lock : bool;               (* kmem.use_lock *)
  pd_use_lock : bool;                 (* phys_page_data.use_lock *)
  pdata : gmap Z page_data;           (* phys_page_data.data, zero-initialised *)
  klocks : gset string                (* spin locks held *)
}.

Definition set_memory (m : mem) (s : kmem) : kmem :=
  mk_kmem m (freelist s) (kmem_use_lock s) (pd_use_lock s) (pdata s) (klocks s).
Definition set_freelist (p : Z) (s : kmem) : kmem :=
  mk_kmem (memory s) p (kmem_use_lock s) (pd_use_lock s) (pdata s) (klocks s).
Definition set_kmem_use_lock (b : bool) (s : kmem) : kmem :=
  mk_kmem (memory s) (freelist s) b (pd_use_lock s) (pdata s) (klocks s).
Definition set_pd_use_lock (b : bool) (s : kmem) : kmem :=
  mk_kmem (memory s) (freelist s) (kmem_use_lock s) b (pdata s) (klocks s).
Definition set_pdata (d : gmap Z page_data) (s : kmem) : kmem :=
  mk_kmem (memory s) (freelist s) (kmem_use_lock s) (pd_use_lock s) d (klocks s).
Definition set_klocks (h : gset string) (s : kmem) : kmem :=
  mk_kmem (memory s) (freelist s) (kmem_use_lock s) (pd_use_lock s) (pdata s) h.

#[export] Program Instance kmem_locks : HasLocks kmem := {
  held := klocks;
  set_held := set_klocks
}.
Next Obligation. done. Qed.
Next Obligation. by intros []. Qed.
Next Obligation. done. Qed.

Definition page_entry (s : kmem) (i : Z) : page_data :=
  default (mk_page_data 0 0) (pdata s !! i).

(** An access to [phys_page_data.data[i]], in bounds or undefined. *)
Definition pd_index (i : Z) : M kmem page_data :=
  if (0 <=? i) && (i <? NPDATAMAP) then gets (fun s => page_entry s i)
  else fault "phys_page_data.data: index out of range".
Definition pd_store (i : Z) (d : page_data) : M kmem unit :=
  if (0 <=? i) && (i <? NPDATAMAP) then modify (fun s => set_pdata (<[i := d]> (pdata s)) s)
  else fault "phys_page_data.data: index out of range".

Definition mem_do (f : mem -> mem) : M kmem unit := modify (fun s => set_memory (f (memory s)) s).

Definition lock_if (b : bool) (name : string) : M kmem unit := when b do acquire name.
Definition unlock_if (b : bool) (name : string) : M kmem unit := when b do release name.

(** [__inc_ref_pa], [__get_ref_pa], [__dec_ref_pa]: the unlocked accesses. *)
Definition inc_ref_pa0 (pa : Z) : M kmem Z :=
  d <- pd_index (pa / PGSIZE) ;;
  pd_store (pa / PGSIZE) (mk_page_data (s32 (ref_count d + 1)) (la d)) ;;;
  kret (s32 (ref_count d + 1)).
Definition get_ref_pa0 (pa : Z) : M kmem Z :=
  d <- pd_index (pa / PGSIZE) ;; kret (ref_count d).
Definition dec_ref_pa0 (pa : Z) : M kmem Z :=
  d <- pd_index (pa / PGSIZE) ;;
  pd_store (pa / PGSIZE) (mk_page_data (s32 (ref_count d - 1)) (la d)) ;;;
  kret (s32 (ref_count d - 1)).

Definition inc_ref_pa (pa : Z) : M kmem Z :=
  if PHYSTOP <? pa then panic "inc_ref_pa: above PHYSTOP" else
  ul <- gets pd_use_lock ;;
  lock_if ul "phys_page_data" ;;;
  cnt <- inc_ref_pa0 pa ;;
  ul <- gets pd_use_lock ;;
  unlock_if ul "phys_page_data" ;;;
  kret cnt.

Definition get_ref_pa (pa : Z) : M kmem Z :=
  if PHYSTOP <? pa then panic "get_ref_pa: above PHYSTOP" else
  ul <- gets pd_use_lock ;;
  lock_if ul "phys_page_data" ;;;
  cnt <- get_ref_pa0 pa ;;
  ul <- gets pd_use_lock ;;
  unlock_if ul "phys_page_data" ;;;
  kret cnt.

Definition dec_ref_pa (pa : Z) : M kmem Z :=
  if PHYSTOP <? pa then panic "dec_ref_pa: above PHYSTOP" else
  ul <- gets pd_use_lock ;;
  lock_if ul "phys_page_data" ;;;
  cnt <- dec_ref_pa0 pa ;;
  ul <- gets pd_use_lock ;;
  unlock_if ul "phys_page_data" ;;;
  if cnt <? 0 then panic "dec_ref_pa: decrementing no ref" else
  kret cnt.

(** [get_pd] returns the address of the entry; its clients read and write
    the two fields through it, so the model returns the entry's index. *)
Definition get_pd (pa : Z) : M kmem Z :=
  if PHYSTOP <? pa then panic "get_ref_pa: above PHYSTOP" else kret (pa / PGSIZE).

Section Kalloc.
Context `{KernelImage}.

Definition kfree (v : Z) : M kmem unit :=
  if negb (v mod PGSIZE =? 0) || (v <? kend) || (PHYSTOP <=? V2P v) then panic "kfree" else
  r1 <- get_ref_pa (V2P v) ;;
  (when r1 =? 1 do mem_do (memset v 1 PGSIZE)) ;;;
  r2 <- get_ref_pa (V2P v) ;;
  (when negb (r2 =? 0) do (dec_ref_pa (V2P v) ;;; kret tt)) ;;;
  ul <- gets kmem_use_lock ;;
  lock_if ul "kmem" ;;;
  r3 <- get_ref_pa (V2P v) ;;
  (when r3 =? 0 do
     (fl <- gets freelist ;;
      mem_do (st32 v fl) ;;;
      modify (set_freelist v))) ;;;
  ul <- gets kmem_use_lock ;;
  unlock_if ul "kmem".

Definition kalloc : M kmem Z :=
  ul <- gets kmem_use_lock ;;
  lock_if ul "kmem" ;;;
  r <- gets freelist ;;
  (when negb (r =? NULL) do
     (nxt <- gets (fun s => ld32 (memory s) r) ;;
      modify (set_freelist nxt) ;;;
      c <- inc_ref_pa (V2P r) ;;
      if negb (c =? 1) then panic "kalloc: inc_ref_pa" else kret tt)) ;;;
  ul <- gets kmem_use_lock ;;
  unlock_if ul "kmem" ;;;
  kret r.

(** [freerange]'s loop; [fuel] bounds its iterations. *)
Fixpoint freerange_loop (fuel : nat) (p vend : Z) : M kmem unit :=
  match fuel with
  | O => nofuel
  | S fuel' =>
      if p + PGSIZE <=? vend then kfree p ;;; freerange_loop fuel' (p + PGSIZE) vend
      else kret tt
  end.
Definition freerange (vstart vend : Z) : M kmem unit :=
  freerange_loop (S (Z.to_nat (vend / PGSIZE))) (PGROUNDUP vstart) vend.

(** [initlock] marks a lock free. *)
Definition initlock (name : string) : M kmem unit :=
  modify (fun s => set_klocks (klocks s ∖ {[name]}) s).

Definition kinit1 (vstart vend : Z) : M kmem unit :=
  initlock "kmem" ;;;
  initlock "phys_page_data" ;;;
  modify (set_kmem_use_lock false) ;;;
  modify (set_pd_use_lock false) ;;;
  freerange vstart vend.

Definition kinit2 (vstart vend : Z) : M kmem unit :=
  freerange vstart vend ;;;
  modify (set_pd_use_lock true) ;;;
  modify (set_kmem_use_lock true).

Definition reset_and_free_pa_pd (pa : Z) : M kmem unit :=
  d <- pd_index (pa / PGSIZE) ;;
  pd_store (pa / PGSIZE) (mk_page_data (ref_count d) NULL) ;;;
  d <- pd_index (pa / PGSIZE) ;;
  pd_store (pa / PGSIZE) (mk_page_data 1 (la d)) ;;;
  kfree (P2V pa).

(** ** The allocator's invariant *)

(** A page the allocator may hand out. *)
Definition valid_page (v : Z) : Prop :=
  v mod PGSIZE = 0 /\ kend <= v /\ v < KERNBASE + PHYSTOP.

(** The singly linked list of free pages, threaded through memory. *)
Fixpoint chain (m : mem) (p : Z) (l : list Z) : Prop :=
  match l with
  | [] => p = NULL
  | v :: l' => p = v /\ chain m (ld32 m v) l'
  end.

Definition refs (s : kmem) (v : Z) : Z := ref_count (page_entry s (V2P v / PGSIZE)).

Record kinv (l : list Z) (s : kmem) : Prop := {
  ki_chain : chain (memory s) (freelist s) l;
  ki_nodup : NoDup l;
  ki_valid : Forall valid_page l;
  ki_free : Forall (fun v => refs s v = 0) l;
  ki_locks : "kmem" ∉ klocks s /\ "phys_page_data" ∉ klocks s
}.

(** ** Symbolic execution of the primitives *)

Lemma set_klocks_cycle name s :
  name ∉ klocks s ->
  set_klocks (({[name]} ∪ klocks s) ∖ {[name]}) s = s.
Proof. intros. rewrite held_cycle by done. by destruct s. Qed.

Lemma pd_in_range pa : 0 <= pa < PHYSTOP -> (0 <=? pa / PGSIZE) && (pa / PGSIZE <? NPDATAMAP) = true.
Proof.
  intros. apply andb_true_iff. split; [apply Z.leb_le|apply Z.ltb_lt].
  - apply Z.div_pos; unfold PGSIZE; lia.
  - unfold NPDATAMAP. apply Z.div_lt_upper_bound; [unfold PGSIZE; lia|].
    change (PGSIZE * (PHYSTOP / PGSIZE)) with PHYSTOP. lia.
Qed.

Definition pd_set (s : kmem) (pa r : Z) : kmem :=
  set_pdata (<[pa / PGSIZE := mk_page_data r (la (page_entry s (pa / PGSIZE)))]> (pdata s)) s.

Lemma get_ref_pa_eq s pa :
  0 <= pa < PHYSTOP -> "phys_page_data" ∉ klocks s ->
  get_ref_pa pa s = Ok (ref_count (page_entry s (pa / PGSIZE))) s.
Proof.
  intros Hpa Hl. unfold get_ref_pa, get_ref_pa0, pd_index, lock_if, unlock_if.
  rewrite (proj2 (Z.ltb_ge _ _)) by lia. rewrite pd_in_range by done.
  unfold kbind, gets, kret, acquire, release. simpl.
  destruct (pd_use_lock s) eqn:E; simpl; rewrite ?E; [|done].
  rewrite decide_False by done. simpl. rewrite E.
  rewrite decide_True by set_solver. f_equal.
  change (set_klocks (({["phys_page_data"]} ∪ klocks s) ∖ {["phys_page_data"]}) s = s).
  by apply set_klocks_cycle.
Qed.

Lemma inc_ref_pa_eq s pa :
  0 <= pa < PHYSTOP -> "phys_page_data" ∉ klocks s ->
  inc_ref_pa pa s =
  Ok (s32 (ref_count (page_entry s (pa / PGSIZE)) + 1))
     (pd_set s pa (s32 (ref_count (page_entry s (pa / PGSIZE)) + 1))).
Proof.
  intros Hpa Hl. unfold inc_ref_pa, inc_ref_pa0, pd_index, pd_store, lock_if, unlock_if.
  rewrite (proj2 (Z.ltb_ge _ _)) by lia. rewrite pd_in_range by done.
  unfold kbind, gets, kret, acquire, release, modify. simpl.
  destruct (pd_use_lock s) eqn:E; simpl; rewrite ?E; [|done].
  rewrite decide_False by done. simpl. rewrite E.
  rewrite decide_True by set_solver. f_equal.
  unfold pd_set, set_pdata, set_klocks. simpl. f_equal. by apply held_cycle.
Qed.

Lemma dec_ref_pa_eq s pa :
  0 <= pa < PHYSTOP -> "phys_page_data" ∉ klocks s ->
  0 <= s32 (ref_count (page_entry s (pa / PGSIZE)) - 1) ->
  dec_ref_pa pa s =
  Ok (s32 (ref_count (page_entry s (pa / PGSIZE)) - 1))
     (pd_set s pa (s32 (ref_count (page_entry s (pa / PGSIZE)) - 1))).
Proof.
  intros Hpa Hl Hr. unfold dec_ref_pa, dec_ref_pa0, pd_index, pd_store, lock_if, unlock_if.
  rewrite (proj2 (Z.ltb_ge _ _)) by lia. rewrite pd_in_range by done.
  unfold kbind, gets, kret, acquire, release, modify. simpl.
  destruct (pd_use_lock s) eqn:E; simpl; rewrite ?E.
  - rewrite decide_False by done. simpl. rewrite E.
    rewrite decide_True by set_solver. rewrite (proj2 (Z.ltb_ge _ _)) by done. f_equal.
    unfold pd_set, set_pdata, set_klocks. simpl. f_equal. by apply held_cycle.
  - by rewrite (proj2 (Z.ltb_ge _ _)) by done.
Qed.

(** ** Pages and the free chain *)

Lemma valid_page_pa v : valid_page v -> V2P v = v - KERNBASE /\ 0 <= V2P v < PHYSTOP.
Proof.
  intros (? & ? & ?). destruct kimage_ok as [? ?].
  unfold KERNLINK, EXTMEM, PHYSTOP, KERNBASE in *. rewrite V2P_val by (unfold KERNBASE; lia).
  unfold KERNBASE. lia.
Qed.

Lemma valid_page_nonnull v : valid_page v -> v <> NULL.
Proof.
  intros (? & ? & ?). destruct kimage_ok as [? ?].
  unfold KERNLINK, EXTMEM, KERNBASE, NULL in *. lia.
Qed.

Lemma page_disjoint u v : u mod PGSIZE = 0 -> v mod PGSIZE = 0 -> u <> v ->
  u + PGSIZE <= v \/ v + PGSIZE <= u.
Proof.
  unfold PGSIZE. intros Hu Hv Hne.
  apply Z.div_exact in Hu, Hv; [|lia..]. lia.
Qed.

Lemma page_index_inj u v : valid_page u -> valid_page v ->
  V2P u / PGSIZE = V2P v / PGSIZE -> u = v.
Proof.
  intros Hu Hv E. destruct (valid_page_pa u Hu) as [Eu _], (valid_page_pa v Hv) as [Ev _].
  destruct Hu as [Hu _], Hv as [Hv _]. rewrite Eu, Ev in E. unfold PGSIZE, KERNBASE in *.
  apply Z.div_exact in Hu, Hv; [|lia..]. Z.div_mod_to_equations. lia.
Qed.

Lemma chain_ext m1 m2 l : forall p,
  (forall v, v ∈ l -> ld32 m1 v = ld32 m2 v) -> chain m1 p l -> chain m2 p l.
Proof.
  induction l as [|v l IH]; intros p Hext; simpl; [done|].
  intros [-> Hc]. split; [done|].
  rewrite <- Hext by set_solver. apply IH; [|done]. intros u Hu. apply Hext. set_solver.
Qed.

Lemma refs_pd_set s u v r : valid_page u -> valid_page v ->
  refs (pd_set s (V2P u) r) v = if decide (u = v) then r else refs s v.
Proof.
  intros Hu Hv. unfold refs, page_entry, pd_set. simpl. case_decide as E.
  - subst. by rewrite lookup_insert_eq.
  - rewrite lookup_insert_ne; [done|]. intros E'. apply E. by apply page_index_inj.
Qed.

(** The state seen by the rest of the kernel: page contents and counts. *)
Definition same_elsewhere (P : Z -> Prop) (s s' : kmem) : Prop :=
  (forall a, ~ P a -> ld8 (memory s') a = ld8 (memory s) a).

Lemma kalloc_nil_eq s : kinv [] s -> kalloc s = Ok 0 s.
Proof.
  intros [Hc _ _ _ [Hl _]]. simpl in Hc.
  unfold kalloc, lock_if, unlock_if, kbind, gets, kret, acquire, release. simpl.
  destruct (kmem_use_lock s) eqn:E; simpl; rewrite ?E.
  - rewrite decide_False by done. simpl. rewrite Hc. simpl. rewrite E.
    rewrite decide_True by set_solver. f_equal.
    unfold set_klocks. simpl. rewrite held_cycle by done. destruct s; simpl in *. congruence.
  - rewrite Hc. simpl. by rewrite E.
Qed.

(** Taking the head page: it must have had no reference. *)
Lemma kalloc_head_eq s :
  valid_page (freelist s) -> "kmem" ∉ klocks s -> "phys_page_data" ∉ klocks s ->
  0 <= refs s (freelist s) < 2 ^ 31 - 1 ->
  kalloc s =
  if refs s (freelist s) =? 0
  then Ok (freelist s)
         (pd_set (set_freelist (ld32 (memory s) (freelist s)) s) (V2P (freelist s)) 1)
  else Panic "kalloc: inc_ref_pa".
Proof.
  intros Hvp Hl Hl2 Hr. destruct (valid_page_pa _ Hvp) as [_ Hpa].
  assert ((s32 (refs s (freelist s) + 1) =? 1) = (refs s (freelist s) =? 0)) as Hc.
  { rewrite s32_id by lia. destruct (refs s (freelist s) =? 0) eqn:E; boolify.
    - apply Z.eqb_eq. lia.
    - apply Z.eqb_neq. lia. }
  unfold kalloc, lock_if, unlock_if, kbind, gets, kret, acquire, release, modify. simpl.
  destruct (kmem_use_lock s) eqn:E; simpl; rewrite ?E;
    (rewrite ?decide_False by done); simpl;
    rewrite (proj2 (Z.eqb_neq _ _)) by (by apply valid_page_nonnull); simpl;
    rewrite inc_ref_pa_eq by (simpl; set_solver); simpl;
    change (ref_count (page_entry _ _)) with (refs s (freelist s)); rewrite Hc;
    (destruct (refs s (freelist s) =? 0) eqn:E0; [|done]); simpl; rewrite E; boolify; rewrite E0.
  - rewrite decide_True by set_solver. f_equal.
    unfold pd_set, set_pdata, set_klocks, set_freelist. simpl.
    rewrite held_cycle by done. by rewrite E.
  - done.
Qed.

Lemma kalloc_cons_eq p l s :
  kinv (p :: l) s ->
  kalloc s = Ok p (pd_set (set_freelist (ld32 (memory s) p) s) (V2P p) 1).
Proof.
  intros [[<- Hc] Hnd Hv Hf [Hl Hl2]]. inversion Hv; subst. inversion Hf as [|? ? Hr]; subst.
  rewrite kalloc_head_eq by (done || lia). by rewrite Hr.
Qed.

Lemma kalloc_inv p l s :
  kinv (p :: l) s -> kinv l (pd_set (set_freelist (ld32 (memory s) p) s) (V2P p) 1).
Proof.
  intros [Hc Hnd Hv Hf Hl]. destruct Hc as [Hp Hc].
  apply list.NoDup_cons in Hnd as [Hnin Hnd]. inversion Hv; subst. inversion Hf; subst.
  split; simpl; try done.
  apply list.Forall_forall. intros v Hin. rewrite refs_pd_set; [|done|by eapply list.Forall_forall].
  rewrite decide_False by (intros E; apply Hnin; by rewrite E).
  change (refs (set_freelist _ s) v) with (refs s v). revert v Hin. by apply list.Forall_forall.
Qed.

(** The bytes of a set of pages. *)
Definition in_pages (hp : list Z) (x : Z) : Prop := exists v, v ∈ hp /\ v <= x < v + PGSIZE.

Lemma kinv_set_memory fl k m' :
  kinv fl k -> (forall a, in_pages fl a -> ld8 m' a = ld8 (memory k) a) -> kinv fl (set_memory m' k).
Proof.
  intros [Hc Hnd Hv Hf Hl] Hfr. split; try done.
  eapply chain_ext; [|exact Hc]. intros v Hin. symmetry. apply ld32_ext. intros x Hx.
  apply Hfr. exists v. split; [done|]. unfold PGSIZE. lia.
Qed.

Lemma in_pages_disjoint fl hp a :
  NoDup (fl ++ hp) -> Forall valid_page fl -> Forall valid_page hp ->
  in_pages fl a -> in_pages hp a -> False.
Proof.
  intros Hnd Hf Hh (u & Hu & Hau) (v & Hv & Hav).
  apply list.NoDup_app in Hnd as (_ & Hd & _). specialize (Hd _ Hu).
  rewrite list.Forall_forall in Hf, Hh. destruct (Hf _ Hu) as [Hu0 _], (Hh _ Hv) as [Hv0 _].
  destruct (page_disjoint u v Hu0 Hv0); [|lia..]. intros ->. done.
Qed.

(** What [kfree] leaves behind. *)
Definition kfree_state (v : Z) (s : kmem) : kmem :=
  let r := refs s v in
  let s1 := if r =? 1 then set_memory (memset v 1 PGSIZE (memory s)) s else s in
  let s2 := if negb (r =? 0) then pd_set s1 (V2P v) (r - 1) else s1 in
  if (r =? 0) || (r =? 1)
  then set_freelist v (set_memory (st32 v (freelist s2) (memory s2)) s2) else s2.

Lemma kfree_guard v : valid_page v ->
  negb (v mod PGSIZE =? 0) || (v <? kend) || (PHYSTOP <=? V2P v) = false.
Proof.
  intros Hv. destruct (valid_page_pa v Hv) as [_ Hpa]. destruct Hv as (-> & Hk & _).
  rewrite (proj2 (Z.ltb_ge _ _)), (proj2 (Z.leb_gt _ _)) by lia. done.
Qed.

Lemma kfree_eq v s :
  valid_page v -> "kmem" ∉ klocks s -> "phys_page_data" ∉ klocks s ->
  0 <= refs s v < 2 ^ 31 ->
  kfree v s = Ok tt (kfree_state v s).
Proof.
  intros Hv Hl1 Hl2 Hr. unfold kfree. rewrite kfree_guard by done.
  destruct (valid_page_pa v Hv) as [_ Hpa].
  unfold kfree_state. fold (refs s v).
  erewrite kbind_ok by (apply get_ref_pa_eq; done). fold (refs s v).
  set (s1 := if refs s v =? 1 then set_memory (memset v 1 PGSIZE (memory s)) s else s).
  rewrite (kbind_ok _ _ s tt s1) by (unfold s1; by destruct (refs s v =? 1)).
  assert (klocks s1 = klocks s) as Hk1 by (unfold s1; by case_cond).
  assert (refs s1 v = refs s v) as Hr1 by (unfold s1; by case_cond).
  erewrite kbind_ok by (apply get_ref_pa_eq; rewrite ?Hk1; done). fold (refs s1 v). rewrite Hr1.
  set (s2 := if negb (refs s v =? 0) then pd_set s1 (V2P v) (refs s v - 1) else s1).
  erewrite kbind_ok with (s' := s2); cycle 1.
  { unfold s2. destruct (refs s v =? 0) eqn:E; simpl; [done|]. boolify.
    erewrite kbind_ok; [done|]. fold (refs s1 v).
    rewrite dec_ref_pa_eq; fold (refs s1 v); rewrite ?Hk1, ?Hr1, ?s32_id by lia; done || lia. }
  assert (klocks s2 = klocks s) as Hk2 by (unfold s2; by case_cond).
  assert (refs s2 v = if refs s v =? 0 then 0 else refs s v - 1) as Hr2.
  { unfold s2. destruct (refs s v =? 0) eqn:E; simpl; boolify; [congruence|].
    rewrite refs_pd_set by done. by rewrite decide_True. }
  unfold kbind, gets, lock_if, unlock_if, mem_do, modify, kret.
  assert ((refs s2 v =? 0) = (refs s v =? 0) || (refs s v =? 1)) as Hz.
  { rewrite Hr2. destruct (refs s v =? 0) eqn:E0; [done|]. destruct (refs s v =? 1) eqn:E1; boolify; simpl.
    - apply Z.eqb_eq. lia.
    - apply Z.eqb_neq. lia. }
  unfold acquire, release. simpl.
  destruct (kmem_use_lock s2) eqn:E; simpl; rewrite ?Hk2, ?E.
  - rewrite decide_False by done. rewrite get_ref_pa_eq by (simpl; set_solver).
    change (ref_count (page_entry _ _)) with (refs s2 v). rewrite Hz.
    destruct ((refs s v =? 0) || (refs s v =? 1)); simpl; rewrite E;
      (rewrite decide_True by set_solver); f_equal;
      unfold set_klocks, set_freelist, set_memory; simpl; rewrite ?held_cycle by done;
      rewrite <- ?Hk2, ?E; destruct s2; simpl in *; by subst.
  - rewrite get_ref_pa_eq by (rewrite ?Hk2; done). fold (refs s2 v). rewrite Hz.
    destruct ((refs s v =? 0) || (refs s v =? 1)); simpl; by rewrite E.
Qed.

(** ** Preservation of the invariant *)

Lemma ld32_page_frame m m' u v :
  u mod PGSIZE = 0 -> v mod PGSIZE = 0 -> u <> v ->
  (forall a, ~ v <= a < v + PGSIZE -> ld8 m' a = ld8 m a) -> ld32 m' u = ld32 m u.
Proof.
  intros Hu Hv Hne Hfr. apply ld32_ext. intros b Hb. apply Hfr.
  pose proof (page_disjoint u v Hu Hv Hne). unfold PGSIZE in *. lia.
Qed.

Lemma kfree_state_frame v s a :
  ~ v <= a < v + PGSIZE -> ld8 (memory (kfree_state v s)) a = ld8 (memory s) a.
Proof.
  intros Ha. unfold kfree_state.
  assert (forall m, ld8 (memset v 1 PGSIZE m) a = ld8 m a) as Hms.
  { intros m. rewrite ld8_memset by (unfold PGSIZE; lia). by rewrite decide_False. }
  assert (forall x m, ld8 (st32 v x m) a = ld8 m a) as Hst.
  { intros x m. rewrite ld8_st32. rewrite decide_False; [done|]. unfold PGSIZE in Ha. lia. }
  repeat case_cond; simpl; rewrite ?Hst, ?Hms; done.
Qed.

Lemma kfree_state_shared v s :
  1 < refs s v -> kfree_state v s = pd_set s (V2P v) (refs s v - 1).
Proof.
  intros Hr. unfold kfree_state.
  rewrite !(proj2 (Z.eqb_neq _ _)) by lia. done.
Qed.

Lemma refs_kfree_state v u s : valid_page v -> valid_page u -> 0 <= refs s v ->
  refs (kfree_state v s) u = if decide (v = u) then Z.max 0 (refs s v - 1) else refs s u.
Proof.
  intros Hv Hu Hr. unfold kfree_state.
  destruct (refs s v =? 0) eqn:E0, (refs s v =? 1) eqn:E1; boolify; try lia; simpl;
    change (refs (set_freelist ?a ?x) u) with (refs x u);
    change (refs (set_memory ?a ?x) u) with (refs x u);
    rewrite ?refs_pd_set by done; case_decide as E; subst; try done; lia.
Qed.

Lemma kfree_inv_last v l s :
  kinv l s -> valid_page v -> v ∉ l -> 0 <= refs s v <= 1 -> kinv (v :: l) (kfree_state v s).
Proof.
  intros [Hc Hnd Hval Hf Hl] Hv Hnin Hr.
  assert (freelist (kfree_state v s) = v /\ ld32 (memory (kfree_state v s)) v = freelist s
          /\ klocks (kfree_state v s) = klocks s) as (Hfl & Hnx & Hk).
  { unfold kfree_state. destruct (refs s v =? 0) eqn:E0, (refs s v =? 1) eqn:E1; boolify; try lia;
      simpl; rewrite ld32_st32_eq; (split; [done|split; [|done]]); apply u32_id;
      (destruct l as [|w l']; [simpl in Hc; rewrite Hc; unfold NULL; lia|]);
      destruct Hc as [-> _]; inversion Hval as [|? ? (? & ? & ?) ?]; subst;
      destruct kimage_ok as [? ?]; unfold KERNLINK, EXTMEM, PHYSTOP, KERNBASE in *; lia. }
  split.
  - split; [done|]. rewrite Hnx. eapply chain_ext; [|exact Hc].
    intros u Hu. symmetry. apply ld32_page_frame with v.
    + rewrite list.Forall_forall in Hval. by destruct (Hval u Hu).
    + by destruct Hv.
    + intros ->. done.
    + intros a Ha. by apply kfree_state_frame.
  - by apply list.NoDup_cons.
  - by constructor.
  - constructor.
    + rewrite refs_kfree_state by (done || lia). rewrite decide_True by done. lia.
    + rewrite list.Forall_forall in Hf, Hval |- *. intros u Hu.
      rewrite refs_kfree_state by (eauto || lia). rewrite decide_False by (intros ->; done). by apply Hf.
  - by rewrite Hk.
Qed.

Lemma kfree_inv_shared v l s :
  kinv l s -> valid_page v -> 1 < refs s v -> kinv l (kfree_state v s).
Proof.
  intros [Hc Hnd Hval Hf Hl] Hv Hr. rewrite kfree_state_shared by done.
  split; try done.
  rewrite list.Forall_forall in Hf, Hval |- *. intros u Hu.
  rewrite refs_pd_set by eauto. case_decide as E; [|by apply Hf].
  subst. rewrite (Hf u Hu) in Hr. lia.
Qed.

(** The pages [freerange] visits from [p], in the order it frees them. *)
Fixpoint page_run (p : Z) (n : nat) : list Z :=
  match n with
  | O => []
  | S n' => p :: page_run (p + PGSIZE) n'
  end.

Lemma elem_of_page_run n : forall p u,
  u ∈ page_run p n <-> exists i, 0 <= i < Z.of_nat n /\ u = p + i * PGSIZE.
Proof.
  induction n as [|n IH]; intros p u; cbn [page_run].
  - rewrite elem_of_nil. split; [done|]. intros (i & ? & _). lia.
  - rewrite elem_of_cons, IH. split.
    + intros [->|(i & Hi & ->)]; [exists 0; lia|exists (i + 1); lia].
    + intros (i & Hi & ->). destruct (decide (i = 0)) as [->|]; [left; lia|].
      right. exists (i - 1). lia.
Qed.

Lemma freerange_loop_correct n : forall fuel p vend l s,
  (n < fuel)%nat ->
  p + Z.of_nat n * PGSIZE <= vend < p + (Z.of_nat n + 1) * PGSIZE ->
  p mod PGSIZE = 0 -> kend <= p -> vend <= KERNBASE + PHYSTOP ->
  kinv l s ->
  (forall u, u ∈ page_run p n -> u ∉ l /\ refs s u = 0) ->
  wp (freerange_loop fuel p vend)
     (fun _ s' => kinv (rev (page_run p n) ++ l) s') s.
Proof.
  induction n as [|n IH]; intros fuel p vend l s Hfuel Hend Hal Hk Htop Hinv Hfresh;
    (destruct fuel as [|fuel]; [lia|]); cbn [freerange_loop].
  - rewrite (proj2 (Z.leb_gt _ _)) by lia. by apply wp_ret.
  - rewrite (proj2 (Z.leb_le _ _)) by (unfold PGSIZE in *; lia).
    assert (valid_page p) as Hvp by (split; [done|split; [done|unfold PGSIZE in *; lia]]).
    destruct (Hfresh p) as [Hnin Hr0]; [cbn; set_solver|].
    destruct (ki_locks _ _ Hinv) as [Hl1 Hl2].
    apply wp_bind. eapply wp_eq; [apply kfree_eq; (done || lia)|].
    eapply wp_mono; [eapply (IH fuel _ vend (p :: l))|].
    + lia.
    + lia.
    + replace (p + PGSIZE) with (p + 1 * PGSIZE) by lia. by rewrite Z.mod_add by (unfold PGSIZE; lia).
    + unfold PGSIZE. lia.
    + done.
    + apply kfree_inv_last; (done || lia).
    + intros u Hu. apply elem_of_page_run in Hu as (i & Hi & ->).
      assert (p + PGSIZE + i * PGSIZE ∈ page_run p (S n)) as Hin.
      { apply elem_of_page_run. exists (i + 1). lia. }
      destruct (Hfresh _ Hin) as [Hn Hr].
      assert (p <> p + PGSIZE + i * PGSIZE) as Hne by (unfold PGSIZE; lia).
      split; [set_solver|].
      rewrite refs_kfree_state; [|done| |lia].
      * by rewrite decide_False by done.
      * split; [|unfold PGSIZE in *; lia].
        replace (p + PGSIZE + i * PGSIZE) with (p + (i + 1) * PGSIZE) by lia.
        by rewrite Z.mod_add by (unfold PGSIZE; lia).
    + simpl. intros _ s' H'. by rewrite <- app_assoc.
Qed.

(** ** Properties *)

(** [kalloc] returns 0 and changes nothing when the free list is
    empty; otherwise it takes the head page off the list, sets that page's
    reference count to exactly one, leaves every other count and all of
    memory alone, and the allocator's invariant holds for the rest. *)
Theorem kalloc_correct l s :
  kinv l s ->
  wp kalloc (fun r s' =>
    match l with
    | [] => r = NULL /\ s' = s
    | p :: l' =>
        r = p /\ kinv l' s' /\ refs s' p = 1 /\ memory s' = memory s /\
        (forall u, valid_page u -> u <> p -> refs s' u = refs s u)
    end) s.
Proof.
  intros Hinv. destruct l as [|p l].
  - by rewrite wp_ok; eexists _, _; split; [apply kalloc_nil_eq|].
  - eapply wp_eq; [by eapply kalloc_cons_eq|].
    pose proof (ki_valid _ _ Hinv) as Hv. inversion Hv; subst.
    split; [done|]. split; [by apply kalloc_inv|].
    rewrite refs_pd_set by done. rewrite decide_True by done. split; [done|].
    split; [done|]. intros u Hu Hne. rewrite refs_pd_set by done. by rewrite decide_False by congruence.
Qed.

(** [kfree] of a page with several references only drops one of them:
    the page stays off the free list and no byte of memory changes, so the
    other owners keep their data.  Freeing the last reference puts the page
    at the head of the free list.  No other page's count or content changes
    either way, and the invariant is preserved. *)
Theorem kfree_correct l s v :
  kinv l s -> valid_page v -> v ∉ l -> 0 <= refs s v < 2 ^ 31 ->
  wp (kfree v) (fun _ s' =>
    (if 1 <? refs s v then kinv l s' /\ memory s' = memory s else kinv (v :: l) s') /\
    refs s' v = Z.max 0 (refs s v - 1) /\
    (forall u, valid_page u -> u <> v -> refs s' u = refs s u) /\
    (forall a, ~ v <= a < v + PGSIZE -> ld8 (memory s') a = ld8 (memory s) a)) s.
Proof.
  intros Hinv Hv Hnin Hr. destruct (ki_locks _ _ Hinv) as [Hl1 Hl2].
  eapply wp_eq; [by apply kfree_eq|]. split; [|split; [|split]].
  - case_cond; boolify.
    + split; [by apply kfree_inv_shared|]. by rewrite kfree_state_shared.
    + apply kfree_inv_last; (done || lia).
  - rewrite refs_kfree_state by (done || lia). by rewrite decide_True.
  - intros u Hu Hne. rewrite refs_kfree_state by (done || lia). by rewrite decide_False by congruence.
  - intros a Ha. by apply kfree_state_frame.
Qed.

(** [freerange] terminates and puts exactly the whole pages between
    [vstart] (rounded up) and [vend] on the free list, each once, on top of
    what was there. *)
Theorem freerange_correct l s vstart vend n :
  kend <= vstart <= vend -> vend <= KERNBASE + PHYSTOP ->
  PGROUNDUP vstart + Z.of_nat n * PGSIZE <= vend < PGROUNDUP vstart + (Z.of_nat n + 1) * PGSIZE ->
  kinv l s ->
  (forall u, u ∈ page_run (PGROUNDUP vstart) n -> u ∉ l /\ refs s u = 0) ->
  wp (freerange vstart vend)
     (fun _ s' => kinv (rev (page_run (PGROUNDUP vstart) n) ++ l) s') s.
Proof.
  intros Hk Ht Hn Hinv Hfresh. destruct kimage_ok as [Hk1 Hk2].
  assert (PGROUNDUP vstart = (vstart + PGSIZE - 1) / PGSIZE * PGSIZE) as Hup.
  { apply PGROUNDUP_spec. unfold KERNLINK, EXTMEM, KERNBASE, PHYSTOP, PGSIZE in *. lia. }
  apply freerange_loop_correct; try done.
  - apply Nat.lt_succ_r. apply Nat2Z.inj_le.
    unfold PGSIZE, KERNLINK, EXTMEM, KERNBASE in *. rewrite Z2Nat.id by (apply Z.div_pos; lia).
    apply Z.div_le_lower_bound; [lia|]. Z.div_mod_to_equations. lia.
  - rewrite Hup. apply Z.mod_mul. unfold PGSIZE. lia.
  - rewrite Hup. unfold PGSIZE in *. Z.div_mod_to_equations. lia.
Qed.

(** A double free is detected.  Freeing again the page that heads the
    free list is not rejected by [kfree] itself, but the list then loops on
    that page, and the second allocation from it panics instead of handing
    the same page out twice. *)
Theorem double_free_detected l s p :
  kinv (p :: l) s ->
  (kfree p ;;; kalloc ;;; kalloc) s = Panic "kalloc: inc_ref_pa".
Proof.
  intros Hinv. pose proof (ki_valid _ _ Hinv) as Hv. pose proof (ki_free _ _ Hinv) as Hf.
  destruct (ki_locks _ _ Hinv) as [Hl1 Hl2]. destruct (ki_chain _ _ Hinv) as [Hfl _].
  inversion Hv as [|? ? Hvp _]; subst. inversion Hf as [|? ? Hr0 _]; subst.
  destruct (valid_page_pa _ Hvp) as [Ep Hpa].
  set (p := freelist s) in *.
  erewrite kbind_ok by (apply kfree_eq; (done || lia)).
  set (s1 := kfree_state p s).
  assert (s1 = set_memory (st32 p p (memory s)) s) as Hs1.
  { unfold s1, kfree_state. rewrite Hr0. simpl. by destruct s. }
  assert (ld32 (memory s1) p = p) as Hloop.
  { rewrite Hs1. simpl. rewrite ld32_st32_eq. apply u32_id. destruct Hvp as (_ & ? & ?).
    destruct kimage_ok as [? ?]. unfold KERNLINK, EXTMEM, KERNBASE, PHYSTOP in *. lia. }
  assert (freelist s1 = p /\ klocks s1 = klocks s /\ refs s1 p = 0) as (Hf1 & Hk1 & Hr1) by (by rewrite Hs1).
  erewrite kbind_ok; cycle 1.
  { rewrite kalloc_head_eq; rewrite ?Hf1, ?Hk1, ?Hr1; (done || lia). }
  rewrite ?Hf1, ?Hloop.
  assert (refs (pd_set (set_freelist p s1) (V2P p) 1) p = 1) as Hr2
    by (rewrite refs_pd_set by done; by rewrite decide_True).
  rewrite kalloc_head_eq; simpl; rewrite ?Hk1, ?Hr2; (done || lia).
Qed.
End Kalloc.

(** the bound check of the reference-count accessors lets the address
    [PHYSTOP] itself through, and the table access is then one past its
    last entry. *)
Theorem get_ref_pa_PHYSTOP_out_of_range s :
  "phys_page_data" ∉ klocks s ->
  get_ref_pa PHYSTOP s = Fault "phys_page_data.data: index out of range".
Proof.
  intros Hl. unfold get_ref_pa, get_ref_pa0, lock_if, acquire, kbind, gets, kret. simpl.
  destruct (pd_use_lock s); simpl; [|done]. by rewrite decide_False.
Qed.

(** ** Witnesses: a kernel image and an allocator holding two free pages *)

Program Definition demo_image : KernelImage := {| kend := 0x80118000; kdata := 0x80108000 |}.
Next Obligation. compute_done. Qed.
Next Obligation. compute_done. Qed.

Definition demo_p0 : Z := 0x80200000.
Definition demo_p1 : Z := 0x80118000.
Definition demo_kmem : kmem :=
  mk_kmem (st32 demo_p1 0 (st32 demo_p0 demo_p1 ∅)) demo_p0 true true ∅ ∅.

Lemma demo_kinv : @kinv demo_image [demo_p0; demo_p1] demo_kmem.
Proof.
  split.
  - vm_compute. done.
  - compute_done.
  - repeat constructor; compute_done.
  - repeat constructor.
  - simpl. set_solver.
Qed.

Lemma kalloc_correct_witness :
  exists r s', @kinv demo_image [demo_p0; demo_p1] demo_kmem /\
    kalloc demo_kmem = Ok r s' /\ r = demo_p0 /\ refs s' r = 1.
Proof.
  pose proof (@kalloc_correct demo_image _ _ demo_kinv) as H. apply wp_ok in H.
  destruct H as (r & s' & E & -> & _ & Hr & _). exists demo_p0, s'. split; [apply demo_kinv|]. split; [exact E|]. split; [reflexivity|exact Hr].
Defined.

Lemma kfree_correct_witness :
  exists s', @kfree demo_image 0x80300000 demo_kmem = Ok tt s' /\
    @kinv demo_image [0x80300000; demo_p0; demo_p1] s'.
Proof.
  pose proof (@kfree_correct demo_image _ _ 0x80300000 demo_kinv) as H.
  ospecialize* H; [unfold valid_page; compute_done|compute_done|compute_done|].
  apply wp_ok in H. destruct H as ([] & s' & E & Hk & _). exists s'. split; [exact E|exact Hk].
Defined.

Lemma freerange_correct_witness :
  exists s', @freerange demo_image 0x80118001 0x8011b000 (mk_kmem ∅ 0 false false ∅ ∅) = Ok tt s' /\
    @kinv demo_image [0x8011a000; 0x80119000] s'.
Proof.
  pose proof (@freerange_correct demo_image [] (mk_kmem ∅ 0 false false ∅ ∅) 0x80118001 0x8011b000 2) as H.
  ospecialize* H.
  - compute_done.
  - compute_done.
  - compute_done.
  - split; [reflexivity|apply NoDup_nil_2|constructor|constructor|]. split; apply not_elem_of_empty.
  - intros u Hu. split; [apply not_elem_of_nil|reflexivity].
  - apply wp_ok in H. destruct H as ([] & s' & E & Hk). exists s'. split; [exact E|exact Hk].
Defined.

Lemma double_free_detected_witness :
  (@kfree demo_image demo_p0 ;;; kalloc ;;; kalloc) demo_kmem = Panic "kalloc: inc_ref_pa".
Proof. apply (@double_free_detected demo_image _ _ _ demo_kinv). Defined.

Lemma get_ref_pa_PHYSTOP_witness :
  get_ref_pa PHYSTOP demo_kmem = Fault "phys_page_data.data: index out of range".
Proof. apply get_ref_pa_PHYSTOP_out_of_range. simpl. set_solver. Defined.

(** ** A machine with 1100 free pages, from 4 MB up *)

Definition demo_base : Z := 0x80400000.
Definition demo_free : list Z := (fun i => demo_base + i * PGSIZE) <$> seqZ 0 1100.

(** Free pages that link to each other. *)
Fixpoint link_pages (l : list Z) (m : mem) : mem :=
  match l with
  | v :: (w :: _) as l' => st32 v w (link_pages l' m)
  | _ => m
  end.

Fixpoint chainb (m : mem) (p : Z) (l : list Z) : bool :=
  match l with
  | [] => p =? NULL
  | v :: l' => (p =? v) && chainb m (ld32 m v) l'
  end.
Lemma chainb_ok m l : forall p, chainb m p l = true -> chain m p l.
Proof. induction l as [|v l IH]; intros p Hc; cbn [chainb chain] in *; boolify; [done|]. split; [done|by apply IH]. Qed.

Lemma demo_free_range v : v ∈ demo_free -> exists i, 0 <= i < 1100 /\ v = demo_base + i * PGSIZE.
Proof. intros (i & -> & Hi%elem_of_seqZ)%list_elem_of_fmap. exists i. split; [lia|done]. Qed.

(** Nothing is stored below the free pages. *)
Lemma link_pages_below l m b a : (forall v, v ∈ l -> b <= v) -> a < b -> ld8 (link_pages l m) a = ld8 m a.
Proof.
  induction l as [|v [|w l] IH]; intros Hl Ha; [done|done|]. cbn [link_pages]. rewrite ld8_st32, decide_False by (pose proof (Hl v (list_elem_of_here _ _)); lia).
  apply IH; [|done]. intros x Hx. apply Hl. by apply list_elem_of_further.
Qed.

(** A machine whose free pages are [demo_free]. *)
Lemma demo_free_kinv m pd : chainb m demo_base demo_free = true -> (forall i, 0x400 <= i -> pd !! i = None) ->
  @kinv demo_image demo_free (mk_kmem m demo_base true true pd ∅).
Proof.
  intros Hc Hpd. split.
  - by apply chainb_ok.
  - apply NoDup_fmap_2; [|apply NoDup_seqZ]. intros i j E. unfold PGSIZE in E. lia.
  - apply list.Forall_forall. intros v (i & Hi & ->)%demo_free_range. unfold valid_page. cbn [kend demo_image]. unfold demo_base, KERNBASE, PHYSTOP, PGSIZE. Z.div_mod_to_equations. lia.
  - apply list.Forall_forall. intros v (i & Hi & ->)%demo_free_range. unfold refs, page_entry. cbn [pdata].
    rewrite V2P_val by (unfold demo_base, KERNBASE, PGSIZE; lia). replace ((demo_base + i * PGSIZE - KERNBASE) / PGSIZE) with (0x400 + i) by (unfold demo_base, KERNBASE, PGSIZE; Z.div_mod_to_equations; lia).
    by rewrite Hpd by lia.
  - split; apply not_elem_of_empty.
Qed.
