(* ===== verification/Heap.v ===== *)
(** * The Kernighan-Ritchie storage allocator

    kalloc.c (kmalloc, kmallocfree) and umalloc.c (malloc, free) contain the
    same allocator: a circular list of free blocks in address order, each
    with an eight-byte header [{ptr; size}] in front of it, sizes counted
    in header units.  This file models the list manipulation on memory and
    proves it correct against a sorted list of disjoint blocks; [Kmalloc]
    adds the kernel's page source. *)

From S2P Require Import Prelude Mem.

(** sizeof(Header) *)
Definition HDR : Z := 8.

Definition hptr (m : mem) (p : Z) : Z := ld32 m p.
Definition hsize (m : mem) (p : Z) : Z := ld32 m (p + 4).
Definition set_hptr (p q : Z) (m : mem) : mem := st32 p q m.
Definition set_hsize (p n : Z) (m : mem) : mem := st32 (p + 4) n m.

(** The search of [free]: the first [p], from [freep] on, with [bp] between
    [p] and its successor, or at the end of the list with [bp] outside. *)
Definition free_stop (m : mem) (bp p : Z) : bool :=
  ((p <? bp) && (bp <? hptr m p)) ||
  ((hptr m p <=? p) && ((p <? bp) || (bp <? hptr m p))).
Fixpoint free_find (fuel : nat) (bp p : Z) (m : mem) : option Z :=
  match fuel with
  | O => None
  | S fuel' => if free_stop m bp p then Some p else free_find fuel' bp (hptr m p) m
  end.

(** Linking [bp] after [p], merging with the successor, then with [p]. *)
Definition free_insert (bp p : Z) (m : mem) : mem :=
  let m1 :=
    if u32 (bp + HDR * hsize m bp) =? hptr m p then
      let m' := set_hsize bp (hsize m bp + hsize m (hptr m p)) m in
      set_hptr bp (hptr m' (hptr m' p)) m'
    else set_hptr bp (hptr m p) m in
  if u32 (p + HDR * hsize m1 p) =? bp then
    let m' := set_hsize p (hsize m1 p + hsize m1 bp) m1 in
    set_hptr p (hptr m' bp) m'
  else set_hptr p bp m1.

(** Taking [nunits] from block [p] (which is large enough): the whole block
    is unlinked, or its tail is split off.  Returns the block and memory. *)
Definition take_block (prevp p nunits : Z) (m : mem) : Z * mem :=
  if hsize m p =? nunits then (p, set_hptr prevp (hptr m p) m)
  else
    let m1 := set_hsize p (hsize m p - nunits) m in
    let p' := u32 (p + HDR * hsize m1 p) in
    (p', set_hsize p' nunits m1).

(** nunits = (nbytes + sizeof(Header) - 1)/sizeof(Header) + 1, in [uint]. *)
Definition nunits_of (nbytes : Z) : Z := u32 (u32 (nbytes + HDR - 1) / HDR + 1).

(** ** The allocator over a program state

    The state holds the memory and the variable [freep]; [morecore] is the
    program's source of fresh blocks. *)

Class HeapState (S : Type) := {
  hs_mem : S -> mem;
  hs_put_mem : mem -> S -> S;
  hs_freep : S -> Z;
  hs_put_freep : Z -> S -> S;
  hs_mem_mem : forall m s, hs_mem (hs_put_mem m s) = m;
  hs_mem_freep : forall p s, hs_mem (hs_put_freep p s) = hs_mem s;
  hs_freep_mem : forall m s, hs_freep (hs_put_mem m s) = hs_freep s;
  hs_freep_freep : forall p s, hs_freep (hs_put_freep p s) = p
}.

Section Ops.
Context {S : Type} `{HeapState S} (base : Z) (morecore : Z -> M S Z).

(** [free(ap)]; [fuel] bounds the walk along the list. *)
Definition heap_free (fuel : nat) (ap : Z) : M S unit :=
  let bp := u32 (ap - HDR) in
  freep <- gets hs_freep ;;
  m <- gets hs_mem ;;
  match free_find fuel bp freep m with
  | None => nofuel
  | Some p =>
      modify (hs_put_mem (free_insert bp p m)) ;;;
      modify (hs_put_freep p)
  end.

(** The loop of [malloc]. *)
Fixpoint malloc_loop (fuel : nat) (nunits prevp p : Z) : M S Z :=
  match fuel with
  | O => nofuel
  | Datatypes.S fuel' =>
      m <- gets hs_mem ;;
      if nunits <=? hsize m p then
        let '(r, m') := take_block prevp p nunits m in
        modify (hs_put_mem m') ;;;
        modify (hs_put_freep prevp) ;;;
        kret (u32 (r + HDR))
      else
        freep <- gets hs_freep ;;
        if p =? freep then
          p' <- morecore nunits ;;
          if p' =? NULL then kret NULL
          else m' <- gets hs_mem ;; malloc_loop fuel' nunits p' (hptr m' p')
        else malloc_loop fuel' nunits p (hptr m p)
  end.

Definition heap_malloc (fuel : nat) (nbytes : Z) : M S Z :=
  let nunits := nunits_of nbytes in
  freep <- gets hs_freep ;;
  (when freep =? NULL do
     (m <- gets hs_mem ;;
      modify (hs_put_mem (set_hsize base 0 (set_hptr base base m))) ;;;
      modify (hs_put_freep base))) ;;;
  prevp <- gets hs_freep ;;
  m <- gets hs_mem ;;
  malloc_loop fuel nunits prevp (hptr m prevp).
End Ops.

(** ** The list of free blocks *)

(** [lseg m p l q]: following [ptr] from [p] visits the blocks [l] and
    arrives at [q]. *)
Fixpoint lseg (m : mem) (p : Z) (l : list (Z * Z)) (q : Z) : Prop :=
  match l with
  | [] => p = q
  | (a, sz) :: l' => p = a /\ hsize m a = sz /\ lseg m (hptr m a) l' q
  end.

(** Blocks in strictly increasing order, none touching the next, all below
    the top of the address space. *)
Fixpoint blocks_ok (lo : Z) (l : list (Z * Z)) : Prop :=
  match l with
  | [] => lo <= 2 ^ 32
  | (a, sz) :: l' => lo < a /\ 1 <= sz /\ blocks_ok (a + HDR * sz) l'
  end.

Fixpoint bend (lo : Z) (l : list (Z * Z)) : Z :=
  match l with
  | [] => lo
  | (a, sz) :: l' => bend (a + HDR * sz) l'
  end.

Definition in_free (l : list (Z * Z)) (x : Z) : Prop :=
  exists a sz, (a, sz) ∈ l /\ a <= x < a + HDR * sz.

(** *** Facts about block lists *)

Lemma lseg_app m p l1 l2 q :
  lseg m p (l1 ++ l2) q <-> exists r, lseg m p l1 r /\ lseg m r l2 q.
Proof.
  revert p. induction l1 as [|[a sz] l1 IH]; intros p; simpl.
  - split; [by exists p|]. by intros (r & -> & ?).
  - rewrite IH. naive_solver.
Qed.

Lemma blocks_ok_app lo l1 l2 :
  blocks_ok lo (l1 ++ l2) <-> blocks_ok lo l1 /\ blocks_ok (bend lo l1) l2.
Proof.
  revert lo. induction l1 as [|[a sz] l1 IH]; intros lo; simpl.
  - split; [|by intros [_ ?]]. intros H. split; [|done]. revert lo H.
    induction l2 as [|[b k] l2 IH2]; intros lo; simpl; [done|].
    intros (? & ? & H). apply IH2 in H. unfold HDR in *. lia.
  - rewrite IH. naive_solver.
Qed.

Lemma blocks_ok_lo lo l : blocks_ok lo l -> lo <= 2 ^ 32.
Proof.
  revert lo. induction l as [|[a sz] l IH]; intros lo; simpl; [done|].
  intros (? & ? & H). apply IH in H. unfold HDR in *. lia.
Qed.

Lemma bend_le lo l : blocks_ok lo l -> lo <= bend lo l <= 2 ^ 32.
Proof.
  revert lo. induction l as [|[a sz] l IH]; intros lo; simpl; [lia|].
  intros (? & ? & H). apply IH in H. unfold HDR in *. lia.
Qed.

Lemma blocks_ok_elem lo l a sz :
  blocks_ok lo l -> (a, sz) ∈ l -> lo < a /\ 1 <= sz /\ a + HDR * sz <= bend lo l.
Proof.
  revert lo. induction l as [|[b k] l IH]; intros lo; simpl; [set_solver|].
  intros (? & ? & H). rewrite elem_of_cons. intros [[= -> ->]|Hin].
  - apply bend_le in H. lia.
  - destruct (IH _ H Hin) as (? & ? & ?). unfold HDR in *. lia.
Qed.

Lemma blocks_ok_mono lo lo' l : lo' <= lo -> blocks_ok lo l -> blocks_ok lo' l.
Proof. intros Hle. destruct l as [|[a sz] l]; simpl; [lia|]. intros (? & ? & ?). split; [lia|done]. Qed.

Lemma bend_app lo l1 l2 : bend lo (l1 ++ l2) = bend (bend lo l1) l2.
Proof. revert lo. by induction l1 as [|[a sz] l1 IH]; intros lo; simpl. Qed.

Lemma in_free_cons a sz l x : in_free ((a, sz) :: l) x <-> a <= x < a + HDR * sz \/ in_free l x.
Proof.
  unfold in_free. split.
  - intros (b & k & Hin & Hx). apply elem_of_cons in Hin as [[= -> ->]|Hin]; [by left|right; eauto].
  - intros [Hx|(b & k & Hin & Hx)]; [exists a, sz|exists b, k]; (split; [set_solver|done]).
Qed.

Lemma in_free_nil x : in_free [] x <-> False.
Proof. unfold in_free. split; [|done]. intros (? & ? & Hin & _). by apply elem_of_nil in Hin. Qed.

Lemma in_free_app l1 l2 x : in_free (l1 ++ l2) x <-> in_free l1 x \/ in_free l2 x.
Proof.
  induction l1 as [|[a sz] l1 IH]; simpl.
  - rewrite in_free_nil. tauto.
  - rewrite !in_free_cons, IH. tauto.
Qed.

Lemma in_free_bounds lo l x : blocks_ok lo l -> in_free l x -> lo < x < bend lo l.
Proof.
  intros Hok (a & sz & Hin & Hx). destruct (blocks_ok_elem _ _ _ _ Hok Hin) as (? & ? & ?). lia.
Qed.

(** *** Memory updates away from the headers of a segment *)

Lemma lseg_frame m m' p l q :
  (forall a sz, (a, sz) ∈ l -> hptr m' a = hptr m a /\ hsize m' a = hsize m a) ->
  lseg m p l q -> lseg m' p l q.
Proof.
  revert p. induction l as [|[a sz] l IH]; intros p Hfr; simpl; [done|].
  intros (-> & <- & Hl). destruct (Hfr a (hsize m a)) as [Ep Es]; [set_solver|].
  split; [done|]. split; [done|]. rewrite Ep. apply IH; [|done]. intros. apply (Hfr a0 sz). set_solver.
Qed.

Lemma hptr_set_hptr m p q : 0 <= q < 2 ^ 32 -> hptr (set_hptr p q m) p = q.
Proof. intros. unfold hptr, set_hptr. rewrite ld32_st32_eq. by apply u32_id. Qed.
Lemma hsize_set_hsize m p n : 0 <= n < 2 ^ 32 -> hsize (set_hsize p n m) p = n.
Proof. intros. unfold hsize, set_hsize. rewrite ld32_st32_eq. by apply u32_id. Qed.
Lemma hptr_set_hsize m p n : hptr (set_hsize p n m) p = hptr m p.
Proof. unfold hptr, set_hsize. apply ld32_st32_ne. lia. Qed.
Lemma hsize_set_hptr m p q : hsize (set_hptr p q m) p = hsize m p.
Proof. unfold hsize, set_hptr. apply ld32_st32_ne. lia. Qed.
Lemma hptr_set_hptr_ne m p q a : a + HDR <= p \/ p + HDR <= a -> hptr (set_hptr p q m) a = hptr m a.
Proof. unfold hptr, set_hptr, HDR. intros. apply ld32_st32_ne. lia. Qed.
Lemma hsize_set_hptr_ne m p q a : a + HDR <= p \/ p + HDR <= a -> hsize (set_hptr p q m) a = hsize m a.
Proof. unfold hsize, set_hptr, HDR. intros. apply ld32_st32_ne. lia. Qed.
Lemma hptr_set_hsize_ne m p n a : a + HDR <= p \/ p + HDR <= a -> hptr (set_hsize p n m) a = hptr m a.
Proof. unfold hptr, set_hsize, HDR. intros. apply ld32_st32_ne. lia. Qed.
Lemma hsize_set_hsize_ne m p n a : a + HDR <= p \/ p + HDR <= a -> hsize (set_hsize p n m) a = hsize m a.
Proof. unfold hsize, set_hsize, HDR. intros. apply ld32_st32_ne. lia. Qed.


Lemma split_blocks lo l bp n :
  blocks_ok lo l -> lo <= bp -> 1 <= n ->
  (forall a sz, (a, sz) ∈ l -> a + HDR * sz <= bp \/ bp + HDR * n <= a) ->
  exists l1 l2, l = l1 ++ l2 /\ bend lo l1 <= bp /\
    (forall a sz, (a, sz) ∈ l2 -> bp + HDR * n <= a).
Proof.
  intros Hok Hlo Hn. revert lo Hok Hlo. induction l as [|[a sz] l IH]; intros lo; simpl.
  - intros _ Hlo _. exists [], []. split; [done|]. split; [done|]. set_solver.
  - intros (Hla & Hsz & Hok) Hlo Hdis.
    destruct (Hdis a sz) as [Hle|Hge]; [set_solver| |].
    + destruct (IH _ Hok Hle) as (l1 & l2 & -> & Hb & Hh).
      { intros b k Hb. apply Hdis. set_solver. }
      exists ((a, sz) :: l1), l2. done.
    + exists [], ((a, sz) :: l). split; [done|]. split; [done|].
      intros b k. rewrite elem_of_cons. intros [[= -> ->]|Hb]; [done|].
      destruct (blocks_ok_elem _ _ _ _ Hok Hb). unfold HDR in *. lia.
Qed.

Lemma lseg_map m p xs q : lseg m p xs q -> p :: ((hptr m) <$> xs.*1) = xs.*1 ++ [q].
Proof.
  revert p. induction xs as [|[a sz] xs IH]; intros p; simpl; [by intros ->|].
  intros (-> & _ & Hs). f_equal. by apply IH.
Qed.

Lemma blocks_nodup lo l : blocks_ok lo l -> NoDup (l.*1) /\ (forall a, a ∈ l.*1 -> lo < a).
Proof.
  revert lo. induction l as [|[a sz] l IH]; intros lo; simpl.
  - intros _. split; [apply NoDup_nil_2|set_solver].
  - intros (Hla & Hsz & Hok). destruct (IH _ Hok) as [Hnd Hlt]. split.
    + apply list.NoDup_cons. split; [|done]. intros Hin. apply Hlt in Hin. unfold HDR in *. lia.
    + intros b. rewrite elem_of_cons. intros [->|Hb]; [done|]. apply Hlt in Hb. unfold HDR in *. lia.
Qed.

Lemma last_cons {A} (l : list A) : forall a b, List.last (b :: l) a = List.last l b.
Proof.
  induction l as [|c l IH]; intros a b; [done|].
  change (List.last (b :: c :: l) a) with (List.last (c :: l) a). by rewrite !IH.
Qed.

Lemma lseg_last m p xs q a : lseg m p xs q -> hptr m a = p -> hptr m (List.last xs.*1 a) = q.
Proof.
  revert p a. induction xs as [|[b k] xs IH]; intros p a; [by intros ->|].
  cbn [lseg]. intros (-> & _ & Hs) Ha. cbn [fmap list_fmap fst]. rewrite last_cons. by apply (IH (hptr m b)).
Qed.

Lemma first_fit (n : Z) (xs : list (Z * Z)) :
  Forall (fun b => b.2 < n) xs \/
  exists ys q sz zs, xs = ys ++ (q, sz) :: zs /\ n <= sz /\ Forall (fun b => b.2 < n) ys.
Proof.
  induction xs as [|[a sz] xs IH]; [by left; constructor|].
  destruct (Z.le_gt_cases n sz).
  - right. exists [], a, sz, xs. split; [done|]. split; [done|constructor].
  - destruct IH as [IH|(ys & q & k & zs & -> & ? & ?)].
    + left. by constructor.
    + right. exists ((a, sz) :: ys), q, k, zs. split; [done|]. split; [done|]. by constructor.
Qed.

(** Blocks never touch, so a run of free bytes lies in one block. *)
Lemma blocks_sep lo l a sz b k :
  blocks_ok lo l -> (a, sz) ∈ l -> (b, k) ∈ l ->
  (a, sz) = (b, k) \/ a + HDR * sz < b \/ b + HDR * k < a.
Proof.
  revert lo. induction l as [|[c n] l IH]; intros lo; simpl; [set_solver|].
  intros (_ & _ & Hok). rewrite !elem_of_cons. intros [[= -> ->]|Ha] [[= -> ->]|Hb].
  - by left.
  - right. left. by destruct (blocks_ok_elem _ _ _ _ Hok Hb).
  - right. right. by destruct (blocks_ok_elem _ _ _ _ Hok Ha).
  - by eapply IH.
Qed.

Lemma free_run lo l p n :
  blocks_ok lo l -> 1 <= n -> (forall x, p <= x < p + HDR * n -> in_free l x) ->
  exists a sz, (a, sz) ∈ l /\ n <= sz.
Proof.
  intros Hok Hn Hrun. destruct (Hrun p) as (a & sz & Ha & Hp); [unfold HDR; lia|].
  exists a, sz. split; [done|]. destruct (Z.le_gt_cases n sz) as [|Hlt]; [done|].
  destruct (Hrun (a + HDR * sz)) as (b & k & Hb & Hx); [unfold HDR in *; lia|].
  destruct (blocks_sep _ _ _ _ _ _ Hok Ha Hb) as [[= -> ->]|[?|?]]; unfold HDR in *; lia.
Qed.

Section Heap.
(** [base]: the address of the static, empty first block. *)
Context (base : Z) (base_pos : 0 < base).

Record heap_inv (m : mem) (freep : Z) (l : list (Z * Z)) : Prop := {
  hi_ring : lseg m base ((base, 0) :: l) base;
  hi_blocks : blocks_ok (base + HDR - 1) l;
  hi_freep : freep ∈ base :: l.*1
}.

(** *** The search of [free] *)

Lemma lseg_next m p xs q lo a sz :
  lseg m p xs q -> blocks_ok lo xs -> (a, sz) ∈ xs ->
  hptr m a = q \/ exists b k, (b, k) ∈ xs /\ hptr m a = b /\ a + HDR * sz < b.
Proof.
  revert p lo. induction xs as [|[c k] xs IH]; intros p lo; simpl; [set_solver|].
  intros (-> & <- & Hs) (Hlo & Hk & Hok). rewrite elem_of_cons. intros [[= -> ->]|Hin].
  - destruct xs as [|[b kb] xs]; simpl in *; [by left|].
    destruct Hs as (Hb & _ & _), Hok as (Hlt & _ & _). right. exists b, kb. split; [set_solver|done].
  - destruct (IH _ _ Hs Hok Hin) as [|(b & kb & Hb & ? & ?)]; [by left|right].
    exists b, kb. split; [set_solver|done].
Qed.

Lemma free_find_walk m bp p xs q f :
  lseg m p xs q ->
  (forall a sz, (a, sz) ∈ xs -> free_stop m bp a = false) ->
  free_find (length xs + f) bp p m = free_find f bp q m.
Proof.
  revert p. induction xs as [|[a sz] xs IH]; intros p; simpl; [by intros ->|].
  intros (-> & _ & Hs) Hns. rewrite (Hns a sz) by set_solver. apply IH; [done|].
  intros b k Hb. apply (Hns b k). set_solver.
Qed.

Lemma free_find_more fuel fuel' bp p m r :
  free_find fuel bp p m = Some r -> (fuel <= fuel')%nat -> free_find fuel' bp p m = Some r.
Proof.
  revert fuel' p. induction fuel as [|fuel IH]; intros fuel' p; simpl; [done|].
  destruct fuel' as [|fuel']; [lia|]. simpl. case_cond; [done|]. intros. apply IH; [done|lia].
Qed.

(** The last block below [bp], or [base]. *)
Definition pred_of (l1 : list (Z * Z)) : Z := List.last (base :: l1.*1) base.
Definition pred_size (l1 : list (Z * Z)) : Z := List.last (0 :: l1.*2) 0.

Lemma pred_split l1 :
  exists pre, (base, 0) :: l1 = pre ++ [(pred_of l1, pred_size l1)].
Proof.
  unfold pred_of, pred_size. destruct l1 as [|[a sz] l1] using rev_ind.
  - by exists [].
  - exists ((base, 0) :: l1). rewrite !fmap_app, !app_comm_cons.
    cbn [fmap list_fmap fst snd]. by rewrite !List.last_last.
Qed.

Section Search.
Context (m : mem) (l l1 l2 : list (Z * Z)) (bp n : Z).
Context (Hring : lseg m base ((base, 0) :: l) base).
Context (Hok : blocks_ok (base + HDR - 1) l).
Context (Hl : l = l1 ++ l2).
Context (Hbp : base + HDR <= bp) (Hn : 1 <= n).
Context (Hlow : bend (base + HDR - 1) l1 <= bp).
Context (Hhigh : forall a sz, (a, sz) ∈ l2 -> bp + HDR * n <= a).

Lemma l1_low a sz : (a, sz) ∈ l1 -> base + HDR <= a /\ 1 <= sz /\ a + HDR * sz <= bp.
Proof.
  intros Hin. rewrite Hl in Hok. apply blocks_ok_app in Hok as [H1 _].
  destruct (blocks_ok_elem _ _ _ _ H1 Hin) as (? & ? & ?). lia.
Qed.

Lemma l2_ok : blocks_ok (base + HDR - 1) l2.
Proof.
  rewrite Hl in Hok. apply blocks_ok_app in Hok as [H1 H2].
  eapply blocks_ok_mono; [|exact H2]. by destruct (bend_le _ _ H1).
Qed.

Lemma ring_split : exists q,
  lseg m base ((base, 0) :: l1) q /\ lseg m q l2 base.
Proof.
  rewrite Hl in Hring. change ((base, 0) :: l1 ++ l2) with (((base, 0) :: l1) ++ l2) in Hring.
  by apply lseg_app in Hring.
Qed.

Lemma low_nodes a sz : (a, sz) ∈ (base, 0) :: l1 -> base <= a /\ a + HDR <= bp \/ a = base.
Proof.
  rewrite elem_of_cons. intros [[= -> ->]|Hin]; [by right|].
  destruct (l1_low _ _ Hin) as (? & ? & ?). left. unfold HDR in *. lia.
Qed.

Lemma nostop_high a sz : (a, sz) ∈ l2 -> free_stop m bp a = false.
Proof.
  intros Hin. destruct ring_split as (q & _ & H2).
  pose proof (Hhigh _ _ Hin). unfold free_stop.
  rewrite (proj2 (Z.ltb_ge a bp)) by (unfold HDR in *; lia). simpl.
  destruct (blocks_ok_elem _ _ _ _ l2_ok Hin) as (? & ? & ?).
  destruct (lseg_next _ _ _ _ _ _ _ H2 l2_ok Hin) as [->|(b & k & _ & -> & Hb)].
  - rewrite (proj2 (Z.ltb_ge bp base)) by (unfold HDR in *; lia). apply andb_false_r.
  - rewrite (proj2 (Z.leb_gt _ _)) by (unfold HDR in *; lia). done.
Qed.

(** A block that is followed by one still below [bp] is passed over. *)
Lemma nostop_low pre p ps a sz :
  (base, 0) :: l1 = pre ++ [(p, ps)] -> (a, sz) ∈ pre -> free_stop m bp a = false.
Proof.
  intros Hpre Hin. destruct ring_split as (q & H1 & _).
  assert (exists b, hptr m a = b /\ a < b < bp) as (b & Eb & Hb).
  { assert (p + HDR <= bp) as Hp.
    { assert ((p, ps) ∈ (base, 0) :: l1) as Hpin by (rewrite Hpre; set_solver).
      destruct (low_nodes _ _ Hpin) as [|]; unfold HDR in *; lia. }
    assert (blocks_ok (base + HDR - 1) l1) as Hok1 by (rewrite Hl in Hok; by apply blocks_ok_app in Hok as [? _]).
    destruct pre as [|x pre]; [set_solver|]. simpl in Hpre. injection Hpre as <- Hl1.
    apply elem_of_cons in Hin as [[= -> ->]|Hin].
    - pose proof l1_low as Hll. remember l1 as l1c eqn:El1.
      destruct l1c as [|[c k] l1']; [by destruct pre|].
      simpl in H1. destruct H1 as (_ & _ & Hc & _). exists c. split; [done|].
      destruct (Hll c k) as (? & ? & ?); [set_solver|]. unfold HDR in *. lia.
    - rewrite Hl1 in H1. destruct H1 as (_ & _ & H1). apply lseg_app in H1 as (r & Hpre & Hlast).
      simpl in Hlast. destruct Hlast as (-> & _).
      rewrite Hl1 in Hok1. apply blocks_ok_app in Hok1 as [Hokp (Hpp & _)].
      destruct (blocks_ok_elem _ _ _ _ Hokp Hin) as (? & ? & ?).
      destruct (lseg_next _ _ _ _ _ _ _ Hpre Hokp Hin) as [->|(b & k & Hb & -> & ?)].
      + exists p. split; [done|]. unfold HDR in *. lia.
      + exists b. split; [done|]. destruct (blocks_ok_elem _ _ _ _ Hokp Hb) as (? & ? & ?). unfold HDR in *. lia. }
  unfold free_stop. rewrite Eb.
  rewrite (proj2 (Z.ltb_ge bp b)), (proj2 (Z.leb_gt b a)) by lia. by rewrite andb_false_r.
Qed.

Lemma stop_pred : free_stop m bp (pred_of l1) = true.
Proof.
  destruct (pred_split l1) as [pre Hpre]. destruct ring_split as (q & H1 & H2).
  rewrite Hpre in H1. apply lseg_app in H1 as (r & _ & (-> & _ & Hq)). simpl in Hq.
  assert (pred_of l1 + HDR <= bp) as Hp.
  { assert ((pred_of l1, pred_size l1) ∈ (base, 0) :: l1) as Hpin by (rewrite Hpre; set_solver).
    destruct (low_nodes _ _ Hpin) as [|]; unfold HDR in *; lia. }
  assert (base <= pred_of l1) as Hge.
  { assert ((pred_of l1, pred_size l1) ∈ (base, 0) :: l1) as Hpin by (rewrite Hpre; set_solver).
    destruct (low_nodes _ _ Hpin) as [|]; lia. }
  unfold free_stop. rewrite Hq. rewrite (proj2 (Z.ltb_lt (pred_of l1) bp)) by (unfold HDR in *; lia).
  pose proof Hhigh as Hh. destruct l2 as [|[c k] l2'].
  - simpl in H2. subst q. rewrite H2. rewrite (proj2 (Z.leb_le base _)) by done. by rewrite orb_true_r.
  - destruct H2 as (-> & _). pose proof (Hh c k ltac:(set_solver)).
    by rewrite (proj2 (Z.ltb_lt bp c)) by (unfold HDR in *; lia).
Qed.

Lemma free_find_low A c sz B :
  (base, 0) :: l1 = A ++ (c, sz) :: B ->
  free_find (S (length B)) bp c m = Some (pred_of l1).
Proof.
  intros Hsplit. destruct (pred_split l1) as [pre Hpre]. destruct ring_split as (q & H1 & _).
  assert (exists C, (c, sz) :: B = C ++ [(pred_of l1, pred_size l1)] /\ pre = A ++ C) as (C & HC & HpreC).
  { destruct (exists_last (l := (c, sz) :: B) ltac:(done)) as (C & x & HC). exists C.
    rewrite Hsplit, HC, app_assoc in Hpre. apply app_inj_tail in Hpre as [<- <-]. done. }
  rewrite Hsplit in H1. apply lseg_app in H1 as (r & _ & Hc). rewrite HC in Hc.
  assert (r = c) as -> by (rewrite <- HC in Hc; by destruct Hc).
  apply lseg_app in Hc as (r' & Hwalk & (-> & _)).
  assert (S (length B) = length C + 1)%nat as ->.
  { apply (f_equal length) in HC. rewrite length_app in HC. simpl in HC. lia. }
  rewrite (free_find_walk _ _ _ _ _ _ Hwalk); [simpl; by rewrite stop_pred|].
  intros a k Hin. eapply (nostop_low _ _ _ a k); [exact Hpre|]. rewrite HpreC. set_solver.
Qed.

Lemma free_find_correct freep fuel :
  freep ∈ base :: l.*1 -> (length l + 1 < fuel)%nat ->
  free_find fuel bp freep m = Some (pred_of l1).
Proof.
  intros Hfp Hfuel.
  assert (freep ∈ ((base, 0) :: l1).*1 \/ freep ∈ l2.*1) as [Hin|Hin].
  { rewrite Hl, fmap_app in Hfp. set_solver. }
  - apply list_elem_of_fmap in Hin as ([c sz] & -> & Hin).
    apply list_elem_of_split in Hin as (A & B & Hsplit).
    eapply free_find_more; [by eapply free_find_low|].
    apply (f_equal length) in Hsplit. rewrite length_app in Hsplit. simpl in Hsplit.
    rewrite Hl, length_app in Hfuel. lia.
  - apply list_elem_of_fmap in Hin as ([c sz] & -> & Hin). simpl.
    apply list_elem_of_split in Hin as (A & B & Hsplit).
    destruct ring_split as (q & _ & H2). rewrite Hsplit in H2.
    apply lseg_app in H2 as (r & _ & Hc).
    assert (r = c) as -> by (by destruct Hc).
    eapply free_find_more with (length ((c, sz) :: B) + S (length l1))%nat.
    + rewrite (free_find_walk _ _ _ _ _ _ Hc).
      * by apply (free_find_low [] base 0 l1).
      * intros a k Ha. apply (nostop_high a k). rewrite Hsplit. set_solver.
    + apply (f_equal length) in Hsplit. rewrite length_app in Hsplit. simpl in *.
      rewrite Hl, length_app in Hfuel. lia.
Qed.

(** *** Linking the block in *)

Definition insert_right (bp p : Z) (m : mem) : mem :=
  if u32 (bp + HDR * hsize m bp) =? hptr m p then
    let m' := set_hsize bp (hsize m bp + hsize m (hptr m p)) m in
    set_hptr bp (hptr m' (hptr m' p)) m'
  else set_hptr bp (hptr m p) m.

Definition insert_left (bp p : Z) (m1 : mem) : mem :=
  if u32 (p + HDR * hsize m1 p) =? bp then
    let m' := set_hsize p (hsize m1 p + hsize m1 bp) m1 in
    set_hptr p (hptr m' bp) m'
  else set_hptr p bp m1.

Lemma free_insert_stages p' m' : free_insert bp p' m' = insert_left bp p' (insert_right bp p' m').
Proof. done. Qed.

(** Agreement of two memories outside the header at [h]. *)
Definition same_but (h : Z) (m1 m2 : mem) : Prop :=
  forall a, ~ h <= a < h + HDR -> ld8 m2 a = ld8 m1 a.

Lemma same_but_hdr h m1 m2 a :
  same_but h m1 m2 -> a + HDR <= h \/ h + HDR <= a ->
  hptr m2 a = hptr m1 a /\ hsize m2 a = hsize m1 a.
Proof.
  unfold HDR. intros Hs Ha. split; apply ld32_ext; intros b Hb; apply Hs; unfold HDR; lia.
Qed.

Lemma same_but_set_hptr h q m' : same_but h m' (set_hptr h q m').
Proof. intros a Ha. unfold set_hptr. rewrite ld8_st32, decide_False; [done|]. unfold HDR in *. lia. Qed.
Lemma same_but_set_hsize h q m' : same_but h m' (set_hsize h q m').
Proof. intros a Ha. unfold set_hsize. rewrite ld8_st32, decide_False; [done|]. unfold HDR in *. lia. Qed.
Lemma same_but_trans h m1 m2 m3 : same_but h m1 m2 -> same_but h m2 m3 -> same_but h m1 m3.
Proof. intros H1 H2 a Ha. by rewrite H2, H1. Qed.

Context (Hsz : hsize m bp = n) (Htop : bp + HDR * n <= 2 ^ 32).

Lemma insert_right_correct :
  exists rn r2,
    hsize (insert_right bp (pred_of l1) m) bp = rn /\
    lseg m (hptr (insert_right bp (pred_of l1) m) bp) r2 base /\
    n <= rn /\ bp + HDR * rn <= 2 ^ 32 /\ blocks_ok (bp + HDR * rn) r2 /\
    (forall x, (bp <= x < bp + HDR * rn) \/ in_free r2 x <->
               (bp <= x < bp + HDR * n) \/ in_free l2 x) /\
    (forall a sz, (a, sz) ∈ r2 -> (a, sz) ∈ l2) /\
    (length r2 <= length l2)%nat /\
    same_but bp m (insert_right bp (pred_of l1) m).
Proof.
  destruct (pred_split l1) as [pre Hpre]. destruct ring_split as (q & H1 & H2).
  rewrite Hpre in H1. apply lseg_app in H1 as (r & _ & (-> & _ & Hq)). simpl in Hq.
  assert (pred_of l1 + HDR <= bp) as Hp.
  { assert ((pred_of l1, pred_size l1) ∈ (base, 0) :: l1) as Hpin by (rewrite Hpre; set_solver).
    destruct (low_nodes _ _ Hpin) as [|]; unfold HDR in *; lia. }
  pose proof l2_ok as Hok2. unfold insert_right. rewrite Hq, Hsz.
  destruct (u32 (bp + HDR * n) =? q) eqn:Em; boolify.
  - (* the successor starts where the block ends *)
    pose proof Hhigh as Hh.
    destruct l2 as [|[c k] l2'].
    { exfalso. simpl in H2. subst q. revert Em. destruct (decide (bp + HDR * n = 2 ^ 32)) as [E|].
      - rewrite E. change (u32 (2 ^ 32)) with 0. lia.
      - rewrite u32_id by (unfold HDR in *; lia). unfold HDR in *. lia. }
    destruct H2 as (-> & Hck & H2). destruct Hok2 as (Hcl & Hk & Hok2).
    assert (bp + HDR * n <= c) as Hc by (apply (Hh c k); set_solver).
    pose proof (blocks_ok_lo _ _ Hok2) as Htop2.
    assert (c = bp + HDR * n) as Ec.
    { destruct (decide (bp + HDR * n = 2 ^ 32)); [unfold HDR in *; lia|].
      rewrite u32_id in Em by (unfold HDR in *; lia). done. }
    set (m' := set_hsize bp (n + hsize m c) m).
    assert (hptr m' (pred_of l1) = c) as Ep'.
    { unfold m'. rewrite hptr_set_hsize_ne by (unfold HDR in *; lia). done. }
    rewrite Ep'.
    assert (hptr m' c = hptr m c) as Ec'.
    { unfold m'. apply hptr_set_hsize_ne. unfold HDR in *. lia. }
    exists (n + k), l2'. rewrite hsize_set_hptr, Ec'.
    rewrite hptr_set_hptr by apply ld32_range. unfold m' at 1.
    rewrite hsize_set_hsize by (rewrite Hck; unfold HDR in *; lia).
    split; [lia|]. split; [done|]. split; [lia|]. split; [unfold HDR in *; lia|].
    split. { by replace (bp + HDR * (n + k)) with (c + HDR * k) by (unfold HDR in *; lia). }
    split.
    { intros x. rewrite in_free_cons. unfold HDR in *. split.
      - intros [Hx|?]; [|tauto]. destruct (decide (x < c)); [left; lia|right; left; lia].
      - intros [?|[?|?]]; [left; lia|left; lia|tauto]. }
    split; [set_solver|]. split; [simpl; lia|].
    eapply same_but_trans; [apply same_but_set_hsize|apply same_but_set_hptr].
  - exists n, l2. rewrite hsize_set_hptr.
    assert (0 <= q < 2 ^ 32) as Hqr by (rewrite <- Hq; apply ld32_range).
    rewrite hptr_set_hptr by done.
    split; [done|]. split; [done|]. split; [lia|]. split; [done|].
    split; [|split; [done|split; [done|split; [lia|apply same_but_set_hptr]]]].
    pose proof Hhigh as Hh. destruct l2 as [|[c k] l2']; [done|].
    destruct H2 as (-> & _ & _). destruct Hok2 as (_ & Hk & Hok2).
    pose proof (blocks_ok_lo _ _ Hok2).
    pose proof (Hh c k ltac:(set_solver)). split; [|done].
    rewrite u32_id in Em by (unfold HDR in *; lia). unfold HDR in *. lia.
Qed.

Lemma free_insert_correct :
  exists l',
    heap_inv (free_insert bp (pred_of l1) m) (pred_of l1) l' /\
    (forall x, in_free l' x <-> in_free l x \/ bp <= x < bp + HDR * n) /\
    (length l' <= S (length l))%nat /\
    (forall a, ~ pred_of l1 <= a < pred_of l1 + HDR -> ~ bp <= a < bp + HDR ->
       ld8 (free_insert bp (pred_of l1) m) a = ld8 m a).
Proof.
  destruct insert_right_correct as (rn & r2 & Hrn & Hseg2 & Hge & Htopr & Hokr & Hfr & Hsub & Hlen & Hsame).
  rewrite free_insert_stages. set (m1 := insert_right bp (pred_of l1) m) in *.
  destruct (pred_split l1) as [pre Hpre]. destruct ring_split as (q & H1 & _).
  set (p := pred_of l1) in *. set (ps := pred_size l1) in *.
  assert ((p, ps) ∈ (base, 0) :: l1) as Hpin by (rewrite Hpre; set_solver).
  assert (p + HDR <= bp /\ p + HDR * ps <= bp) as [Hp Hps].
  { apply elem_of_cons in Hpin as [[= Ep Es]|Hin]; [rewrite Ep, Es; unfold HDR in *; lia|].
    destruct (l1_low _ _ Hin) as (? & ? & ?). unfold HDR in *. lia. }
  clearbody p ps. rewrite Hpre in H1. apply lseg_app in H1 as (r & Hsegpre & (-> & Hpsz & _)).
  assert (0 <= ps) as Hps0 by (rewrite <- Hpsz; apply ld32_range).
  assert (0 < p) as Hp0 by (destruct (low_nodes _ _ Hpin); lia).
  assert (hsize m1 p = ps) as Hpsz1.
  { destruct (same_but_hdr _ _ _ p Hsame) as [_ ->]; [by left|done]. }
  assert (blocks_ok (base + HDR - 1) l1) as Hok1 by (rewrite Hl in Hok; by apply blocks_ok_app in Hok as [? _]).
  assert (forall a sz, (a, sz) ∈ pre -> a + HDR <= p) as Hprelow.
  { intros a sz Ha. destruct pre as [|x pre]; [set_solver|]. simpl in Hpre. injection Hpre as <- Hl1.
    rewrite Hl1 in Hok1. apply blocks_ok_app in Hok1 as [Hokp (Hpp & _)].
    apply elem_of_cons in Ha as [[= -> ->]|Ha].
    - destruct (bend_le _ _ Hokp). unfold HDR in *. lia.
    - destruct (blocks_ok_elem _ _ _ _ Hokp Ha) as (? & ? & ?). unfold HDR in *. lia. }
  assert (forall a sz, (a, sz) ∈ r2 -> bp + HDR <= a) as Hr2high.
  { intros a sz Ha. apply Hsub in Ha. apply Hhigh in Ha. unfold HDR in *. lia. }
  assert (forall m2, same_but p m1 m2 -> lseg m2 base pre p /\ lseg m2 (hptr m1 bp) r2 base) as Hframe.
  { intros m2 Hs2. split.
    - eapply lseg_frame; [|exact Hsegpre]. intros a sz Ha. specialize (Hprelow _ _ Ha).
      destruct (same_but_hdr _ _ _ a Hs2) as [-> ->]; [by left|].
      apply same_but_hdr with bp; [done|]. lia.
    - eapply lseg_frame; [|exact Hseg2]. intros a sz Ha. specialize (Hr2high _ _ Ha).
      destruct (same_but_hdr _ _ _ a Hs2) as [-> ->]; [lia|].
      apply same_but_hdr with bp; [done|]. lia. }
  unfold insert_left. rewrite Hpsz1.
  destruct (u32 (p + HDR * ps) =? bp) eqn:Em; boolify.
  - (* merge with the predecessor *)
    rewrite u32_id in Em by (pose proof (ld32_range m (p + 4)); unfold hsize, HDR in *;
      destruct (low_nodes _ _ Hpin); lia).
    destruct pre as [|x pre].
    { exfalso. simpl in Hpre. injection Hpre as E1 E2 _. unfold HDR in *. lia. }
    simpl in Hpre. injection Hpre as <- Hl1.
    set (m' := set_hsize p (ps + hsize m1 bp) m1).
    assert (hptr m' bp = hptr m1 bp) as Ebp by (apply hptr_set_hsize_ne; lia).
    assert (same_but p m1 (set_hptr p (hptr m' bp) m')) as Hs2.
    { eapply same_but_trans; [apply same_but_set_hsize|apply same_but_set_hptr]. }
    destruct (Hframe _ Hs2) as [Hf1 Hf2].
    exists (pre ++ (p, ps + rn) :: r2). split; [|split; [|split]].
    + split.
      * change (lseg (set_hptr p (hptr m' bp) m') base (((base, 0) :: pre) ++ (p, ps + rn) :: r2) base).
        apply lseg_app. exists p. split; [exact Hf1|]. simpl. split; [done|].
        rewrite hsize_set_hptr. unfold m' at 1. rewrite Hrn, hsize_set_hsize by (unfold HDR in *; lia).
        split; [done|]. rewrite hptr_set_hptr by apply ld32_range. rewrite <- Ebp in Hf2. exact Hf2.
      * rewrite Hl1 in Hok1. apply blocks_ok_app in Hok1 as [Hokp (Hpp & Hps1 & _)].
        apply blocks_ok_app. split; [done|]. simpl. split; [done|]. split; [lia|].
        by replace (p + HDR * (ps + rn)) with (bp + HDR * rn) by (unfold HDR in *; lia).
      * rewrite fmap_app. set_solver.
    + intros x. rewrite Hl, Hl1, !in_free_app, !in_free_cons, in_free_nil. specialize (Hfr x).
      assert (p <= x < p + HDR * (ps + rn) <->
              p <= x < p + HDR * ps \/ bp <= x < bp + HDR * rn) as Hm by (unfold HDR in *; lia).
      tauto.
    + rewrite Hl, Hl1, !length_app. simpl. lia.
    + intros a Ha1 Ha2. by rewrite (Hs2 a Ha1), (Hsame a Ha2).
  - (* keep the predecessor and the block apart *)
    destruct (Hframe _ (same_but_set_hptr p bp m1)) as [Hf1 Hf2].
    exists (l1 ++ (bp, rn) :: r2). split; [|split; [|split]].
    + split.
      * change (lseg (set_hptr p bp m1) base (((base, 0) :: l1) ++ (bp, rn) :: r2) base).
        rewrite Hpre. apply lseg_app. exists bp. split.
        -- apply lseg_app. exists p. split; [done|]. simpl. split; [done|].
           rewrite hsize_set_hptr. split; [done|]. apply hptr_set_hptr. unfold HDR in *. lia.
        -- simpl. split; [done|]. rewrite hsize_set_hptr_ne by lia. split; [done|].
           by rewrite hptr_set_hptr_ne by lia.
      * apply blocks_ok_app. split; [done|]. simpl. split; [|split; [lia|done]].
        destruct pre as [|x pre].
        { simpl in Hpre. injection Hpre as _ _ E1. rewrite E1. simpl. unfold HDR in *. lia. }
        simpl in Hpre. injection Hpre as <- Hl1.
        assert (bend (base + HDR - 1) l1 = p + HDR * ps) as -> by (by rewrite Hl1, bend_app).
        rewrite u32_id in Em by (pose proof (bend_le _ _ Hok1) as Hb; rewrite Hl1, bend_app in Hb;
          simpl in Hb; unfold HDR in *; lia). unfold HDR in *. lia.
      * assert (p ∈ ((base, 0) :: l1).*1) as Hin by (rewrite Hpre, fmap_app; set_solver).
        rewrite fmap_app. set_solver.
    + intros x. rewrite Hl, !in_free_app, !in_free_cons. specialize (Hfr x). tauto.
    + rewrite Hl, !length_app. simpl. lia.
    + intros a Ha1 Ha2. by rewrite (same_but_set_hptr p bp m1 a Ha1), (Hsame a Ha2).
Qed.
End Search.

Lemma pred_header l1 : pred_of l1 = base \/ exists sz, (pred_of l1, sz) ∈ l1.
Proof.
  destruct (pred_split l1) as [pre Hpre].
  assert ((pred_of l1, pred_size l1) ∈ (base, 0) :: l1) as Hin by (rewrite Hpre; set_solver).
  apply elem_of_cons in Hin as [[= -> _]|Hin]; [by left|right; eauto].
Qed.

(** [free] finds the place of the block and returns it to the free list. *)
Lemma heap_free_correct m freep l bp n fuel :
  heap_inv m freep l -> base + HDR <= bp -> 1 <= n -> hsize m bp = n ->
  bp + HDR * n <= 2 ^ 32 ->
  (forall a sz, (a, sz) ∈ l -> a + HDR * sz <= bp \/ bp + HDR * n <= a) ->
  (length l + 1 < fuel)%nat ->
  exists p l',
    free_find fuel bp freep m = Some p /\
    heap_inv (free_insert bp p m) p l' /\
    (forall x, in_free l' x <-> in_free l x \/ bp <= x < bp + HDR * n) /\
    (length l' <= S (length l))%nat /\
    (forall a, ~ base <= a < base + HDR -> ~ in_free l a -> ~ bp <= a < bp + HDR ->
       ld8 (free_insert bp p m) a = ld8 m a).
Proof.
  intros [Hring Hok Hfp] Hbp Hn Hsz Htop Hdis Hfuel.
  assert (base + HDR - 1 <= bp) as Hlo by lia.
  destruct (split_blocks _ _ _ _ Hok Hlo Hn Hdis) as (l1 & l2 & Hl & Hlow & Hhigh).
  destruct (free_insert_correct m l l1 l2 bp n) as (l' & Hinv & Hfree & Hlen & Hfr); try done.
  exists (pred_of l1), l'. split; [by eapply free_find_correct|].
  split; [done|]. split; [done|]. split; [done|]. intros a Ha1 Ha2 Ha3. apply Hfr; [|done].
  destruct (pred_header l1) as [->|[sz Hin]]; [done|]. intros Hx. apply Ha2.
  exists (pred_of l1), sz. rewrite Hl. split; [set_solver|].
  assert ((pred_of l1, sz) ∈ l) as Hin' by (rewrite Hl; set_solver).
  destruct (blocks_ok_elem _ _ _ _ Hok Hin') as (? & ? & ?). unfold HDR in *. lia.
Qed.

(** *** Taking a block off the list *)

(** What [malloc] promises of the block [r] of [n] units it takes from the
    free blocks [l]: the free blocks are afterwards [l'], which together
    with the block make up [l]. *)
Record taken (m m' : mem) (l l' : list (Z * Z)) (q r n : Z) : Prop := {
  tk_inv : heap_inv m' q l';
  tk_size : hsize m' r = n;
  tk_low : base + HDR <= r;
  tk_top : r + HDR * n <= 2 ^ 32;
  tk_free : forall x, in_free l x <-> in_free l' x \/ r <= x < r + HDR * n;
  tk_disjoint : forall x, in_free l' x -> ~ r <= x < r + HDR * n;
  tk_length : (length l' <= length l)%nat;
  tk_frame : forall a, ~ base <= a < base + HDR -> ~ in_free l a -> ld8 m' a = ld8 m a
}.

Section Take.
Context (m : mem) (freep : Z) (l l1 l2 : list (Z * Z)) (p sz n : Z).
Context (Hinv : heap_inv m freep l) (Hl : l = l1 ++ (p, sz) :: l2) (Hn : 1 <= n <= sz).
Notation q := (pred_of l1).

Lemma take_blocks :
  blocks_ok (base + HDR - 1) l1 /\ bend (base + HDR - 1) l1 < p /\ blocks_ok (p + HDR * sz) l2.
Proof.
  destruct Hinv as [_ Hok _]. rewrite Hl in Hok.
  apply blocks_ok_app in Hok as (? & ? & ? & ?). done.
Qed.

Lemma take_pred : base <= q /\ q + HDR <= p /\ base + HDR <= p /\ p + HDR * sz <= 2 ^ 32.
Proof.
  destruct take_blocks as (Hok1 & Hp & Hok2). destruct (bend_le _ _ Hok1).
  pose proof (blocks_ok_lo _ _ Hok2).
  destruct (pred_header l1) as [->|[k Hk]]; [lia|].
  destruct (blocks_ok_elem _ _ _ _ Hok1 Hk) as (? & ? & ?). unfold HDR in *. lia.
Qed.

(** The nodes before the predecessor, the predecessor, the block, the rest. *)
Lemma take_ring : exists pre,
  (base, 0) :: l1 = pre ++ [(q, pred_size l1)] /\ lseg m base pre q /\
  hsize m q = pred_size l1 /\ hptr m q = p /\ hsize m p = sz /\ lseg m (hptr m p) l2 base /\
  (forall a k, (a, k) ∈ pre -> a + HDR <= q).
Proof.
  destruct (pred_split l1) as [pre Hpre]. exists pre.
  destruct take_blocks as (Hok1 & _ & _). destruct Hinv as [Hring _ _].
  rewrite Hl, app_comm_cons, Hpre in Hring.
  apply lseg_app in Hring as (r & Hring & (-> & Hpsz & Hseg2)).
  apply lseg_app in Hring as (r & Hsegpre & (-> & Hqs & Hqp)). simpl in Hqp.
  repeat (split; [done|]). intros a k Ha.
  destruct pre as [|x pre]; [set_solver|]. simpl in Hpre. injection Hpre as <- Hl1.
  rewrite Hl1 in Hok1. apply blocks_ok_app in Hok1 as [Hokp (Hpp & _)].
  apply elem_of_cons in Ha as [[= -> ->]|Ha].
  - destruct (bend_le _ _ Hokp). unfold HDR in *. lia.
  - destruct (blocks_ok_elem _ _ _ _ Hokp Ha) as (? & ? & ?). unfold HDR in *. lia.
Qed.

(** Addresses of the headers after the block. *)
Lemma take_above a k : (a, k) ∈ l2 -> p + HDR * sz < a.
Proof. destruct take_blocks as (_ & _ & Hok2). intros Ha. by destruct (blocks_ok_elem _ _ _ _ Hok2 Ha). Qed.

(** The rest of the free list is disjoint from the block. *)
Lemma take_rest_disjoint x : in_free (l1 ++ l2) x -> ~ p <= x < p + HDR * sz.
Proof.
  destruct take_blocks as (Hok1 & Hp & Hok2). rewrite in_free_app. intros [Hx|Hx] Hin.
  - pose proof (in_free_bounds _ _ _ Hok1 Hx). lia.
  - pose proof (in_free_bounds _ _ _ Hok2 Hx). lia.
Qed.

Lemma take_pred_free a :
  ~ base <= a < base + HDR -> ~ in_free l a -> ~ q <= a < q + HDR.
Proof.
  destruct take_blocks as (Hok1 & _ & _).
  destruct (pred_header l1) as [->|[k Hk]]; [done|]. intros _ Hf Hx. apply Hf.
  exists q, k. split; [rewrite Hl; set_solver|].
  destruct (blocks_ok_elem _ _ _ _ Hok1 Hk) as (? & ? & ?). unfold HDR in *. lia.
Qed.

Lemma take_whole : n = sz -> taken m (set_hptr q (hptr m p) m) l (l1 ++ l2) q p n.
Proof.
  intros En. destruct take_blocks as (Hok1 & Hp & Hok2).
  destruct take_pred as (Hqb & Hqp & Hbp & Htop).
  destruct take_ring as (pre & Hpre & Hsegpre & Hqs & Hq & Hpsz & Hseg2 & Hlow).
  split; rewrite ?En; try done.
  - split.
    + rewrite app_comm_cons, Hpre. apply lseg_app. exists (hptr m p). split.
      * apply lseg_app. exists q. split.
        -- eapply lseg_frame; [|exact Hsegpre]. intros a k Ha. specialize (Hlow _ _ Ha).
           by rewrite hptr_set_hptr_ne, hsize_set_hptr_ne by lia.
        -- simpl. split; [done|]. rewrite hsize_set_hptr. split; [done|]. apply hptr_set_hptr, ld32_range.
      * eapply lseg_frame; [|exact Hseg2]. intros a k Ha. apply take_above in Ha.
        rewrite hptr_set_hptr_ne, hsize_set_hptr_ne; [done|unfold HDR in *; lia..].
    + apply blocks_ok_app. split; [done|]. eapply blocks_ok_mono; [|exact Hok2]. unfold HDR in *; lia.
    + destruct (pred_header l1) as [->|[k Hk]]; [set_solver|].
      apply list_elem_of_further, list_elem_of_fmap. exists (q, k). set_solver.
  - by rewrite hsize_set_hptr_ne by lia.
  - intros x. rewrite Hl, !in_free_app, in_free_cons. tauto.
  - apply take_rest_disjoint.
  - rewrite Hl, !length_app. simpl. lia.
  - intros a Ha1 Ha2. unfold set_hptr. rewrite ld8_st32, decide_False; [done|].
    pose proof (take_pred_free a Ha1 Ha2). unfold HDR in *. lia.
Qed.

(** Splitting the tail off changes the two size fields only. *)
Definition split_mem (r : Z) : mem := set_hsize r n (set_hsize p (sz - n) m).

Lemma take_split r :
  n < sz -> r = p + HDR * (sz - n) -> taken m (split_mem r) l (l1 ++ (p, sz - n) :: l2) q r n.
Proof.
  intros Hlt Hr. destruct take_blocks as (Hok1 & Hp & Hok2).
  destruct take_pred as (Hqb & Hqp & Hbp & Htop).
  destruct take_ring as (pre & Hpre & Hsegpre & Hqs & Hq & Hpsz & Hseg2 & Hlow).
  assert (forall a, a + HDR <= p \/ p + HDR * sz <= a ->
            hptr (split_mem r) a = hptr m a /\ hsize (split_mem r) a = hsize m a) as Hfr.
  { intros a Ha. unfold split_mem.
    rewrite !hptr_set_hsize_ne, !hsize_set_hsize_ne; [done|unfold HDR in *; lia..]. }
  split; try (unfold HDR in *; lia).
  - split.
    + rewrite app_comm_cons, Hpre. apply lseg_app. exists p. split.
      * apply lseg_app. exists q. split.
        -- eapply lseg_frame; [|exact Hsegpre]. intros a k Ha. specialize (Hlow _ _ Ha).
           apply Hfr. unfold HDR in *. lia.
        -- simpl. by destruct (Hfr q) as [-> ->]; [lia|].
      * simpl. split; [done|]. unfold split_mem. split.
        -- rewrite hsize_set_hsize_ne by (unfold HDR in *; lia). apply hsize_set_hsize. unfold HDR in *. lia.
        -- rewrite hptr_set_hsize_ne, hptr_set_hsize by (unfold HDR in *; lia).
           eapply lseg_frame; [|exact Hseg2]. intros a k Ha. apply take_above in Ha. apply Hfr. lia.
    + apply blocks_ok_app. split; [done|]. simpl. split; [done|]. split; [lia|].
      eapply blocks_ok_mono; [|exact Hok2]. unfold HDR in *; lia.
    + destruct (pred_header l1) as [->|[k Hk]]; [set_solver|].
      apply list_elem_of_further, list_elem_of_fmap. exists (q, k). set_solver.
  - apply hsize_set_hsize. unfold HDR in *. lia.
  - intros x. rewrite Hl, !in_free_app, !in_free_cons. unfold HDR in *. split; [|intros]; intuition lia.
  - intros x. rewrite in_free_app, in_free_cons. intros Hx Hin.
    apply (take_rest_disjoint x); [rewrite in_free_app|]; unfold HDR in *; intuition lia.
  - rewrite Hl, !length_app. simpl. lia.
  - intros a Ha1 Ha2. assert (~ p <= a < p + HDR * sz) as Hap.
    { intros Hx. apply Ha2. exists p, sz. split; [rewrite Hl; set_solver|done]. }
    unfold split_mem, set_hsize. rewrite !ld8_st32, !decide_False; [done|unfold HDR in *; lia..].
Qed.

Lemma take_block_correct : exists r m' l',
  take_block q p n m = (r, m') /\ taken m m' l l' q r n.
Proof.
  destruct take_pred as (Hqb & Hqp & Hbp & Htop).
  destruct take_ring as (_ & _ & _ & _ & _ & Hpsz & _).
  unfold take_block. rewrite Hpsz. destruct (sz =? n) eqn:En; boolify.
  - eexists _, _, _. split; [done|]. by apply take_whole.
  - rewrite hsize_set_hsize, u32_id by (unfold HDR in *; lia).
    eexists _, _, _. split; [done|]. apply take_split; [lia|done].
Qed.
End Take.

(** *** The ring as a permutation *)

Lemma hptr_inj m freep l a b :
  heap_inv m freep l -> a ∈ base :: l.*1 -> b ∈ base :: l.*1 -> hptr m a = hptr m b -> a = b.
Proof.
  intros [Hring Hok _] Ha Hb E.
  apply lseg_map in Hring. cbn [fmap list_fmap fst] in Hring. injection Hring as Hmap.
  destruct (blocks_nodup _ _ Hok) as [Hnd Hlt].
  assert (NoDup (hptr m <$> (base :: l.*1))) as Hnd2.
  { cbn [fmap list_fmap]. rewrite Hmap. apply list.NoDup_app. split; [done|]. split; [|apply NoDup_singleton].
    intros x Hx. rewrite list_elem_of_singleton. intros ->. apply Hlt in Hx. unfold HDR in *. lia. }
  apply list_elem_of_lookup in Ha as [i Hi], Hb as [j Hj].
  assert ((hptr m <$> (base :: l.*1)) !! i = Some (hptr m a)) as Hi' by (by rewrite list_lookup_fmap, Hi).
  assert ((hptr m <$> (base :: l.*1)) !! j = Some (hptr m b)) as Hj' by (by rewrite list_lookup_fmap, Hj).
  rewrite E in Hi'. pose proof (NoDup_lookup _ _ _ _ Hnd2 Hi' Hj'). subst. congruence.
Qed.

(** Walking from [freep] visits every block once and comes back to it. *)
Lemma ring_rotate m freep l :
  heap_inv m freep l ->
  exists xs, lseg m (hptr m freep) xs freep /\
    xs ++ [(freep, hsize m freep)] ≡ₚ (base, 0) :: l.
Proof.
  intros [Hring Hok Hfp].
  change (base :: l.*1) with (((base, 0) :: l).*1) in Hfp.
  apply list_elem_of_fmap in Hfp as ([c sz] & -> & Hin). simpl.
  apply list_elem_of_split in Hin as (A & B & Hsplit). rewrite Hsplit in Hring |- *.
  apply lseg_app in Hring as (r & HA & (-> & <- & HB)).
  exists (B ++ A). split; [apply lseg_app; eauto|].
  rewrite <- app_assoc, (Permutation_app_comm B), <- app_assoc. done.
Qed.

Lemma next_pred m freep l a q sz :
  heap_inv m freep l -> a ∈ base :: l.*1 -> hptr m a = q -> (q, sz) ∈ l ->
  exists l1 l2, l = l1 ++ (q, sz) :: l2 /\ a = pred_of l1.
Proof.
  intros Hinv Ha Hq Hin. apply list_elem_of_split in Hin as (l1 & l2 & Hl).
  exists l1, l2. split; [done|].
  destruct (pred_split l1) as [pre Hpre].
  apply (hptr_inj m freep l); [done|done| |].
  - destruct (pred_header l1) as [->|[k Hk]]; [set_solver|].
    apply list_elem_of_further, list_elem_of_fmap. exists (pred_of l1, k). split; [done|]. rewrite Hl. set_solver.
  - destruct Hinv as [Hring _ _]. rewrite Hl, app_comm_cons, Hpre in Hring.
    apply lseg_app in Hring as (r & Hring & (-> & _)).
    apply lseg_app in Hring as (r & _ & (-> & _ & Hqp)). simpl in Hqp. congruence.
Qed.

End Heap.

(** ** The loop of malloc *)

Section Loop.
Context {S : Type} `{HeapState S} (base : Z) (base_pos : 0 < base) (morecore : Z -> M S Z).
Notation mloop := (malloc_loop morecore).

(** Blocks that are too small are passed over. *)
Lemma malloc_loop_skip s n xs : forall fuel prevp p q,
  lseg (hs_mem s) p xs q -> Forall (fun b => b.2 < n) xs -> hs_freep s ∉ xs.*1 ->
  mloop (length xs + fuel) n prevp p s = mloop fuel n (List.last xs.*1 prevp) q s.
Proof.
  induction xs as [|[a sz] xs IH]; intros fuel prevp p q; [by intros -> _ _|].
  cbn [lseg]. intros (-> & Hsz & Hs) Hall Hfp. inversion Hall as [|? ? Ha Hall']; subst. simpl in Ha.
  cbn [length Nat.add malloc_loop]. unfold kbind at 1. cbn [gets].
  rewrite (proj2 (Z.leb_gt _ _) Ha). unfold kbind at 1. cbn [gets].
  assert (a <> hs_freep s) as Hne by (intros ->; apply Hfp; set_solver).
  rewrite (proj2 (Z.eqb_neq _ _) Hne), (IH _ _ _ q); [|done|done|set_solver].
  cbn [fmap list_fmap fst]. by rewrite last_cons.
Qed.

Lemma rotation s l :
  heap_inv base (hs_mem s) (hs_freep s) l ->
  exists xs, lseg (hs_mem s) (hptr (hs_mem s) (hs_freep s)) xs (hs_freep s) /\
    xs ++ [(hs_freep s, hsize (hs_mem s) (hs_freep s))] ≡ₚ (base, 0) :: l /\
    hs_freep s ∉ xs.*1 /\ length xs = length l.
Proof.
  intros Hinv. destruct (ring_rotate base _ _ _ Hinv) as (xs & Hseg & Hperm).
  exists xs. split; [done|]. split; [done|]. split.
  - destruct Hinv as [_ Hok _]. destruct (blocks_nodup _ _ Hok) as [Hnd Hlt].
    assert (NoDup ((xs ++ [(hs_freep s, hsize (hs_mem s) (hs_freep s))]).*1)) as Hnd2.
    { rewrite Hperm. cbn [fmap list_fmap fst]. apply list.NoDup_cons. split; [|done].
      intros Hin. apply Hlt in Hin. unfold HDR in *. lia. }
    rewrite fmap_app in Hnd2. apply list.NoDup_app in Hnd2 as (_ & Hd & _).
    intros Hin. apply (Hd _ Hin). set_solver.
  - apply Permutation_length in Hperm. rewrite length_app in Hperm. simpl in Hperm. lia.
Qed.

(** A block that is large enough is found within one round. *)
Lemma malloc_loop_hit s l n fuel :
  heap_inv base (hs_mem s) (hs_freep s) l -> 1 <= n ->
  (exists a sz, (a, sz) ∈ l /\ n <= sz) -> (length l < fuel)%nat ->
  exists r m' l' q,
    mloop fuel n (hs_freep s) (hptr (hs_mem s) (hs_freep s)) s
      = Ok (u32 (r + HDR)) (hs_put_freep q (hs_put_mem m' s)) /\
    taken base (hs_mem s) m' l l' q r n.
Proof.
  intros Hinv Hn (a & sz & Hin & Hsz) Hfuel.
  destruct (rotation s l Hinv) as (xs & Hseg & Hperm & Hfp & Hlen).
  set (fp := hs_freep s) in *. set (m := hs_mem s) in *.
  assert (lseg m (hptr m fp) (xs ++ [(fp, hsize m fp)]) (hptr m fp)) as Hround
    by (apply lseg_app; exists fp; split; [done|by simpl]).
  destruct (first_fit n (xs ++ [(fp, hsize m fp)])) as [Hall|(ys & q & k & zs & Hsplit & Hk & Hys)].
  { rewrite Hperm in Hall. exfalso. inversion Hall as [|? ? _ Hall']; subst.
    rewrite list.Forall_forall in Hall'. specialize (Hall' _ Hin). simpl in Hall'. lia. }
  assert ((q, k) ∈ l) as Hq.
  { assert ((q, k) ∈ (base, 0) :: l) as Hq' by (rewrite <- Hperm, Hsplit; set_solver).
    apply elem_of_cons in Hq' as [[= -> ->]|]; [lia|done]. }
  assert (fp ∉ ys.*1 /\ (forall x, x ∈ ys -> x ∈ (base, 0) :: l)) as [Hfpy Hysl].
  { split; [|intros x Hx; rewrite <- Hperm, Hsplit; set_solver].
    intros Hf. apply Hfp. apply list_elem_of_fmap in Hf as (y & -> & Hy).
    apply list_elem_of_fmap. exists y. split; [done|].
    destruct zs as [|z zs _] using rev_ind.
    - apply app_inj_tail in Hsplit as [-> _]. done.
    - rewrite app_comm_cons, app_assoc in Hsplit. apply app_inj_tail in Hsplit as [-> _]. set_solver. }
  rewrite Hsplit in Hround. apply lseg_app in Hround as (q' & Hsegy & (-> & Hqk & _)).
  pose proof (lseg_last _ _ _ _ fp Hsegy eq_refl) as Hlast.
  destruct (next_pred base base_pos m fp l (List.last ys.*1 fp) q k Hinv) as (l1 & l2 & Hl & Hpred); try done.
  { destruct ys as [|y ys _] using rev_ind; [by destruct Hinv|].
    rewrite fmap_app. cbn [fmap list_fmap]. rewrite List.last_last. change (base :: l.*1) with (((base, 0) :: l).*1).
    apply list_elem_of_fmap. exists y. split; [done|]. apply Hysl. set_solver. }
  destruct (take_block_correct base base_pos m fp l l1 l2 q k n Hinv Hl ltac:(lia)) as (r & m' & l' & Htake & Htaken).
  exists r, m', l', (pred_of base l1). split; [|done].
  assert (length ys < fuel)%nat as Hfl.
  { apply (f_equal length) in Hsplit. rewrite !length_app in Hsplit. simpl in Hsplit. lia. }
  replace fuel with (length ys + Datatypes.S (fuel - length ys - 1))%nat by lia.
  rewrite (malloc_loop_skip s n ys _ fp _ q); [|done..].
  rewrite Hpred. cbn [malloc_loop]. unfold kbind at 1. cbn [gets]. fold m.
  rewrite Hqk, (proj2 (Z.leb_le _ _) Hk), Htake. done.
Qed.

(** When no block is large enough, the list is walked once and the program
    asks for more. *)
Lemma malloc_loop_miss s l n fuel :
  heap_inv base (hs_mem s) (hs_freep s) l -> 1 <= n ->
  (forall a sz, (a, sz) ∈ l -> sz < n) ->
  mloop (length l + Datatypes.S fuel) n (hs_freep s) (hptr (hs_mem s) (hs_freep s)) s =
  (p' <- morecore n ;;
   if p' =? NULL then kret NULL
   else m' <- gets hs_mem ;; mloop fuel n p' (hptr m' p')) s.
Proof.
  intros Hinv Hn Hsmall.
  destruct (rotation s l Hinv) as (xs & Hseg & Hperm & Hfp & Hlen).
  assert (Forall (fun b => b.2 < n) (xs ++ [(hs_freep s, hsize (hs_mem s) (hs_freep s))])) as Hall.
  { rewrite Hperm. constructor; [simpl; lia|]. apply list.Forall_forall. intros [a sz] Hin. by eapply Hsmall. }
  apply Forall_app in Hall as [Hall Hlast]. inversion Hlast as [|? ? Hf _]; subst. simpl in Hf.
  rewrite <- Hlen, (malloc_loop_skip s n xs _ _ _ (hs_freep s)) by done.
  cbn [malloc_loop]. unfold kbind at 1. cbn [gets]. rewrite (proj2 (Z.leb_gt _ _) Hf).
  unfold kbind at 1. cbn [gets]. by rewrite Z.eqb_refl.
Qed.
End Loop.

(** ** Live blocks

    The contract of the allocator: the bytes obtained so far ([pool]) are
    partitioned into free blocks and live ones, live blocks do not overlap,
    and the header of each still holds its size. *)

Definition apart (b c : Z * Z) : Prop :=
  b.1 + HDR * b.2 <= c.1 \/ c.1 + HDR * c.2 <= b.1.

Fixpoint disjoint_blocks (l : list (Z * Z)) : Prop :=
  match l with
  | [] => True
  | b :: l' => (forall c, c ∈ l' -> apart b c) /\ disjoint_blocks l'
  end.

#[export] Instance disjoint_blocks_perm : Proper ((≡ₚ) ==> iff) disjoint_blocks.
Proof.
  assert (forall l k, l ≡ₚ k -> disjoint_blocks l -> disjoint_blocks k) as Hone.
  { induction 1 as [|b l k Hp IH|b c l|l k k' _ IH1 _ IH2]; simpl.
    - done.
    - intros [Hb Hd]. split; [|by apply IH]. intros x Hx. apply Hb. by rewrite Hp.
    - intros (Hb & Hc & Hd). split; [|split; [|done]].
      + intros x Hx. apply elem_of_cons in Hx as [->|Hx]; [|by apply Hc].
        destruct (Hb b) as [?|?]; [set_solver|by right|by left].
      + intros x Hx. apply Hb. set_solver.
    - auto. }
  intros l k Hp. split; apply Hone; [done|by symmetry].
Qed.

Section Live.
Context (base : Z) (base_pos : 0 < base).

(** Before the first [malloc] the list does not exist yet. *)
Definition heap_view (m : mem) (freep : Z) (live l : list (Z * Z)) : Prop :=
  (freep = NULL /\ l = [] /\ live = []) \/ heap_inv base m freep l.

Record heap_ok (m : mem) (freep : Z) (pool : Z -> Prop) (live l : list (Z * Z)) : Prop := {
  ho_view : heap_view m freep live l;
  ho_pool : forall x, pool x <-> in_free l x \/ in_free live x;
  ho_excl : forall x, in_free l x -> ~ in_free live x;
  ho_disj : disjoint_blocks live;
  ho_live : forall a sz, (a, sz) ∈ live ->
    hsize m a = sz /\ 1 <= sz /\ base + HDR <= a /\ a + HDR * sz <= 2 ^ 32
}.

Lemma heap_ok_take m m' freep q pool live l l' r n :
  heap_ok m freep pool live l -> 1 <= n -> taken base m m' l l' q r n ->
  heap_ok m' q pool ((r, n) :: live) l'.
Proof.
  intros [Hv Hp Hex Hd Hlv] Hn [Hi Hs Hl0 Ht Hf Hdj _ Hfr].
  assert (forall x, r <= x < r + HDR * n -> in_free l x) as Hsub by (intros; apply Hf; tauto).
  split.
  - by right.
  - intros x. rewrite Hp, Hf, in_free_cons. tauto.
  - intros x Hx. rewrite in_free_cons. intros [?|Hlx]; [by eapply Hdj|].
    apply (Hex x); [apply Hf; tauto|done].
  - simpl. split; [|done]. intros [b k] Hb. unfold apart. simpl.
    destruct (Hlv _ _ Hb) as (_ & Hk & _ & _).
    destruct (Z.le_gt_cases (r + HDR * n) b) as [|H1]; [by left|].
    destruct (Z.le_gt_cases (b + HDR * k) r) as [|H2]; [by right|].
    destruct (Hex (Z.max r b)); [apply Hsub; unfold HDR in *; lia|].
    exists b, k. split; [done|]. unfold HDR in *. lia.
  - intros a sz Ha. apply elem_of_cons in Ha as [[= -> ->]|Ha]; [done|].
    destruct (Hlv _ _ Ha) as (Hsz & H1 & H2 & H3). split; [|done].
    rewrite <- Hsz. apply ld32_ext. intros i Hi4. apply Hfr; [unfold HDR in *; lia|].
    intros Hx. apply (Hex _ Hx). exists a, sz. split; [done|]. unfold HDR in *. lia.
Qed.

(** A fresh block whose header has been written joins the live ones. *)
Lemma heap_ok_grow m m' freep pool live l bp n :
  heap_ok m freep pool live l -> heap_inv base m freep l -> 1 <= n -> hsize m' bp = n ->
  base + HDR <= bp -> bp + HDR * n <= 2 ^ 32 ->
  (forall x, bp <= x < bp + HDR * n -> ~ pool x) ->
  (forall a, ~ bp <= a < bp + HDR -> ld8 m' a = ld8 m a) ->
  heap_ok m' freep (fun x => bp <= x < bp + HDR * n \/ pool x) ((bp, n) :: live) l.
Proof.
  intros [_ Hp Hex Hd Hlv] [Hring Hok Hin] Hn Hs Hb Ht Hnew Hfr.
  assert (forall a, (a + HDR <= bp \/ bp + HDR <= a) -> hptr m' a = hptr m a /\ hsize m' a = hsize m a) as Hh.
  { intros a Ha. split; apply ld32_ext; intros i Hi; apply Hfr; unfold HDR in *; lia. }
  assert (forall a sz, (a, sz) ∈ l \/ (a, sz) ∈ live -> 1 <= sz -> apart (bp, n) (a, sz)) as Hap.
  { intros a sz Ha Hsz. unfold apart. simpl.
    destruct (Z.le_gt_cases (bp + HDR * n) a) as [|H1]; [by left|].
    destruct (Z.le_gt_cases (a + HDR * sz) bp) as [|H2]; [by right|].
    destruct (Hnew (Z.max bp a)); [unfold HDR in *; lia|]. apply Hp.
    destruct Ha; [left|right]; exists a, sz; (split; [done|]); unfold HDR in *; lia. }
  split.
  - right. split; [|done|done].
    eapply lseg_frame; [|exact Hring]. intros a sz Ha. apply Hh.
    apply elem_of_cons in Ha as [[= -> ->]|Ha]; [by left|].
    destruct (blocks_ok_elem _ _ _ _ Hok Ha) as (_ & H1 & _).
    destruct (Hap a sz) as [?|?]; [by left|done|right; simpl in *; unfold HDR in *; lia|left; simpl in *; unfold HDR in *; lia].
  - intros x. rewrite Hp, in_free_cons. tauto.
  - intros x Hx. rewrite in_free_cons. intros [Hbx|Hlx]; [|by apply (Hex x)].
    apply (Hnew x Hbx). apply Hp. by left.
  - simpl. split; [|done]. intros [b k] Hbk. apply Hap; [by right|]. by apply Hlv in Hbk as (_ & ? & _).
  - intros a sz Ha. apply elem_of_cons in Ha as [[= -> ->]|Ha]; [done|].
    destruct (Hlv _ _ Ha) as (Hsz & H1 & H2 & H3). split; [|done]. rewrite <- Hsz. apply Hh.
    destruct (Hap a sz) as [?|?]; [by right|done|right; simpl in *; unfold HDR in *; lia|left; simpl in *; unfold HDR in *; lia].
Qed.

Lemma heap_ok_pool m freep pool pool' live l :
  (forall x, pool x <-> pool' x) -> heap_ok m freep pool live l -> heap_ok m freep pool' live l.
Proof. intros Hp [? Hpo ? ? ?]. split; try done. intros x. by rewrite <- Hp. Qed.

Lemma heap_inv_freep m freep l : heap_inv base m freep l -> freep <> NULL.
Proof.
  intros [_ Hok Hin] ->. apply elem_of_cons in Hin as [E|Hin]; [unfold NULL in *; lia|].
  destruct (blocks_nodup _ _ Hok) as [_ Hlt]. apply Hlt in Hin. unfold NULL, HDR in *. lia.
Qed.

Lemma heap_ok_live_inv m freep pool b live l :
  heap_ok m freep pool (b :: live) l -> heap_inv base m freep l.
Proof. intros Hok. by destruct (ho_view _ _ _ _ _ Hok) as [(_ & _ & ?)|?]. Qed.

#[export] Instance in_free_perm : Proper ((≡ₚ) ==> (=) ==> iff) in_free.
Proof.
  intros l k Hp x ? <-. unfold in_free.
  split; intros (a & sz & Hin & Hx); exists a, sz; (split; [|done]); [by rewrite <- Hp|by rewrite Hp].
Qed.

Lemma heap_ok_perm m freep pool live live' l :
  live ≡ₚ live' -> heap_ok m freep pool live l -> heap_ok m freep pool live' l.
Proof.
  intros Hp [Hv Hpo Hex Hd Hlv]. split.
  - destruct Hv as [(? & ? & ->)|?]; [left|by right].
    split; [done|]. split; [done|]. by apply Permutation_nil.
  - intros x. by rewrite <- Hp.
  - intros x Hx. rewrite <- Hp. by apply Hex.
  - by rewrite <- Hp.
  - intros a sz Ha. apply Hlv. by rewrite Hp.
Qed.

(** Freeing a live block succeeds and touches nothing a client can see. *)
Lemma heap_ok_free m freep pool live l bp n fuel :
  heap_ok m freep pool ((bp, n) :: live) l -> (length l + 1 < fuel)%nat ->
  exists p l',
    free_find fuel bp freep m = Some p /\
    heap_ok (free_insert bp p m) p pool live l' /\ heap_inv base (free_insert bp p m) p l' /\
    (forall x, in_free l' x <-> in_free l x \/ bp <= x < bp + HDR * n) /\
    (length l' <= S (length l))%nat /\
    (forall a, ~ base <= a < base + HDR -> ~ in_free l a -> ~ bp <= a < bp + HDR ->
       ld8 (free_insert bp p m) a = ld8 m a).
Proof.
  intros Hok Hfuel. pose proof (heap_ok_live_inv _ _ _ _ _ _ Hok) as Hinv.
  destruct Hok as [_ Hp Hex [Hd1 Hd] Hlv].
  destruct (Hlv bp n) as (Hs & Hn & Hb & Ht); [set_solver|].
  assert (forall x, in_free l x -> ~ bp <= x < bp + HDR * n) as Hbl.
  { intros x Hx Hin. apply (Hex x Hx). rewrite in_free_cons. by left. }
  assert (forall x, in_free live x -> ~ bp <= x < bp + HDR * n) as Hbv.
  { intros x (a & sz & Ha & Hx) Hin. destruct (Hd1 _ Ha) as [?|?]; simpl in *; lia. }
  destruct (heap_free_correct base base_pos m freep l bp n fuel) as (p & l' & Hfind & Hi & Hf & Hlen & Hfr); try done.
  { intros a sz Ha. pose proof (hi_blocks _ _ _ _ Hinv) as Hbo.
    destruct (blocks_ok_elem _ _ _ _ Hbo Ha) as (_ & Hsz & _).
    destruct (Z.le_gt_cases (bp + HDR * n) a) as [|H1]; [by right|].
    destruct (Z.le_gt_cases (a + HDR * sz) bp) as [|H2]; [by left|].
    destruct (Hbl (Z.max a bp)); [exists a, sz; split; [done|]|]; unfold HDR in *; lia. }
  exists p, l'. repeat (split; [done|]). split; [|done]. split.
  - by right.
  - intros x. rewrite Hp, Hf, in_free_cons. tauto.
  - intros x. rewrite Hf. intros [Hx|Hx] Hv; [|by apply (Hbv x Hv)].
    apply (Hex x Hx). rewrite in_free_cons. by right.
  - done.
  - intros a sz Ha. destruct (Hlv a sz) as (Hsz & H1 & H2 & H3); [set_solver|]. split; [|done].
    rewrite <- Hsz. apply ld32_ext. intros i Hi4.
    assert (in_free live i) as Hav by (exists a, sz; split; [done|]; unfold HDR in *; lia).
    apply Hfr; [unfold HDR in *; lia| |].
    + intros Hx. apply (Hex _ Hx). rewrite in_free_cons. by right.
    + intros Hx. apply (Hbv _ Hav). unfold HDR in *. lia.
Qed.
End Live.

(** The units of a request that does not wrap around. *)
Lemma nunits_val nbytes : 0 <= nbytes <= 2 ^ 32 - 16 ->
  nunits_of nbytes = (nbytes + 7) / 8 + 1 /\ 1 <= nunits_of nbytes /\
  nbytes + HDR <= HDR * nunits_of nbytes /\ 0 <= nunits_of nbytes * HDR < 2 ^ 32.
Proof.
  intros Hn. unfold nunits_of, HDR.
  rewrite (u32_id (nbytes + 8 - 1)) by lia. rewrite u32_id by (Z.div_mod_to_equations; lia).
  replace (nbytes + 8 - 1) with (nbytes + 7) by lia. split; [done|]. Z.div_mod_to_equations. lia.
Qed.
