(* ===== verification/Kmalloc.v ===== *)
(** * The kernel heap: kmalloc and kmallocfree of kalloc.c

    The Kernighan-Ritchie list of [Heap] fed with pages from [kalloc].  The
    invariant owns the pages the heap has taken (one reference each, off the
    page free list) and partitions their bytes into free and live blocks. *)

From S2P Require Import Prelude Layout Mem Kstring Kalloc Heap.

(** ** State and operations *)

Record kheap := mk_kheap {
  kh_kmem : kmem;       (* memory and the page allocator *)
  kh_freep : Z          (* static Header *freep *)
}.

Definition kh_memory (s : kheap) : mem := memory (kh_kmem s).
Definition kh_set_kmem (k : kmem) (s : kheap) : kheap := mk_kheap k (kh_freep s).
Definition kh_set_memory (m : mem) (s : kheap) : kheap := kh_set_kmem (set_memory m (kh_kmem s)) s.
Definition kh_set_freep (p : Z) (s : kheap) : kheap := mk_kheap (kh_kmem s) p.

#[export] Program Instance kheap_sub : Sub kmem kheap := {
  sub_get := kh_kmem;
  sub_put := kh_set_kmem
}.
Next Obligation. done. Qed.
Next Obligation. done. Qed.
Next Obligation. by intros []. Qed.

#[export] Program Instance kheap_state : HeapState kheap := {
  hs_mem := kh_memory;
  hs_put_mem := kh_set_memory;
  hs_freep := kh_freep;
  hs_put_freep := kh_set_freep
}.
Solve All Obligations with done.

(** The address of the static variable [base], inside the kernel image. *)
Class KernelHeap `{KernelImage} := {
  kbase : Z;
  kbase_ok : KERNLINK <= kbase /\ kbase + HDR <= kend
}.

Section Kmalloc.
Context `{KernelHeap}.
Context (fuel : nat).

Definition kmallocfree (ap : Z) : M kheap unit := heap_free fuel ap.

Definition morecore (nu : Z) : M kheap Z :=
  if negb (u32 (nu * HDR) <? PGSIZE) then kret NULL
  else
    let nu := PGSIZE / HDR in
    p <- lift kalloc ;;
    if p =? NULL then kret NULL
    else
      modify (fun s => kh_set_memory (set_hsize p nu (kh_memory s)) s) ;;;
      kmallocfree (u32 (p + HDR)) ;;;
      gets kh_freep.

Definition kmalloc (nbytes : Z) : M kheap Z := heap_malloc kbase morecore fuel nbytes.

(** ** Invariant *)

(** [fl]: free pages; [hp]: pages of the heap; [live]: live blocks, with
    their headers; [l]: free blocks. *)
Record kheap_inv (fl hp : list Z) (live l : list (Z * Z)) (s : kheap) : Prop := {
  kh_pages : kinv fl (kh_kmem s);
  kh_nodup : NoDup (fl ++ hp);
  kh_valid : Forall valid_page hp;
  kh_refs : Forall (fun v => refs (kh_kmem s) v = 1) hp;
  kh_heap : heap_ok kbase (kh_memory s) (kh_freep s) (in_pages hp) live l
}.

(** A byte of the kernel image outside [base], or of a page that is neither
    free nor part of the heap: the allocator never writes it. *)
Definition foreign (fl hp : list Z) (a : Z) : Prop :=
  ~ kbase <= a < kbase + HDR /\ ~ in_pages fl a /\ ~ in_pages hp a.

(** ** Lemmas *)

Lemma kbase_pos : 0 < kbase.
Proof. destruct kbase_ok. unfold KERNLINK, KERNBASE, EXTMEM in *. lia. Qed.

Lemma valid_page_above v : valid_page v -> kbase + HDR <= v /\ 0 <= v /\ v + PGSIZE <= 2 ^ 32.
Proof.
  intros (_ & Hlo & Hhi). destruct kbase_ok as [Hb1 Hb2].
  unfold HDR, KERNLINK, KERNBASE, EXTMEM, PHYSTOP, PGSIZE in *. lia.
Qed.

(** The heap may rewrite [base] and its own pages. *)
Lemma kheap_inv_update fl hp live l live' l' m' q s :
  kheap_inv fl hp live l s -> heap_ok kbase m' q (in_pages hp) live' l' ->
  (forall a, ~ kbase <= a < kbase + HDR -> ~ in_pages hp a -> ld8 m' a = ld8 (kh_memory s) a) ->
  kheap_inv fl hp live' l' (kh_set_freep q (kh_set_memory m' s)).
Proof.
  intros [Hp Hnd Hv Hr _] Hok Hfr. split; try done.
  apply kinv_set_memory; [done|]. intros a Ha. apply Hfr.
  - destruct Ha as (v & Hin & Hav). pose proof (ki_valid _ _ Hp) as Hfv.
    rewrite list.Forall_forall in Hfv. destruct (valid_page_above v (Hfv _ Hin)). lia.
  - intros Hh. eapply in_pages_disjoint; eauto using ki_valid.
Qed.

Lemma in_free_pages fl hp live l s x :
  kheap_inv fl hp live l s -> in_free l x \/ in_free live x -> in_pages hp x.
Proof. intros Hinv Hx. by apply (ho_pool _ _ _ _ _ _ (kh_heap _ _ _ _ _ Hinv)). Qed.

Lemma kmallocfree_spec fl hp live l s a n :
  kheap_inv fl hp ((a, n) :: live) l s -> (length l + 1 < fuel)%nat ->
  wp (kmallocfree (u32 (a + HDR))) (fun _ s' => exists l',
    kheap_inv fl hp live l' s' /\ heap_inv kbase (kh_memory s') (kh_freep s') l' /\
    (forall x, in_free l' x <-> in_free l x \/ a <= x < a + HDR * n) /\
    (length l' <= S (length l))%nat /\
    (forall x, ~ kbase <= x < kbase + HDR -> ~ in_free l x -> ~ a <= x < a + HDR ->
       ld8 (kh_memory s') x = ld8 (kh_memory s) x)) s.
Proof.
  intros Hinv Hfuel. pose proof (kh_heap _ _ _ _ _ Hinv) as Hok.
  destruct (ho_live _ _ _ _ _ _ Hok a n) as (_ & Hn & Ha & Hat); [set_solver|].
  destruct (heap_ok_free _ kbase_pos _ _ _ _ _ _ _ _ Hok Hfuel) as (p & l' & Hfind & Hok' & Hinv' & Hf & Hlen & Hfr).
  pose proof kbase_pos. unfold kmallocfree, heap_free.
  rewrite u32_sub_l, Z.add_simpl_r, u32_id by (unfold HDR in *; lia).
  eapply wp_eq.
  { unfold kbind at 1; cbn [gets]. unfold kbind at 1; cbn [gets hs_mem hs_freep kheap_state].
    rewrite Hfind. reflexivity. }
  exists l'. split; [|split; [done|]; split; [done|]; split; [done|]; exact Hfr].
  eapply kheap_inv_update; [exact Hinv|done|]. intros x Hx Hp. apply Hfr; [done| |].
  - intros Hin. apply Hp. eapply in_free_pages; [exact Hinv|by auto].
  - intros Hin. apply Hp. eapply in_free_pages; [exact Hinv|]. right. rewrite in_free_cons.
    left. unfold HDR in *. lia.
Qed.

(** A page from [kalloc] whose header has been written is a live block. *)
Definition page_block (p : Z) (s : kheap) : kheap :=
  kh_set_memory (set_hsize p (PGSIZE / HDR) (kh_memory s))
    (kh_set_kmem (pd_set (set_freelist (ld32 (kh_memory s) p) (kh_kmem s)) (V2P p) 1) s).

Lemma page_block_inv p fl hp live l s :
  kheap_inv (p :: fl) hp live l s -> heap_inv kbase (kh_memory s) (kh_freep s) l ->
  kheap_inv fl (p :: hp) ((p, PGSIZE / HDR) :: live) l (page_block p s).
Proof.
  intros [Hp Hnd Hv Hr Hok] Hi.
  pose proof (ki_valid _ _ Hp) as Hfv. inversion Hfv as [|? ? Hpv Hfv']; subst.
  destruct (valid_page_above p Hpv) as (Hpb & Hp0 & Hpt).
  assert (NoDup (fl ++ p :: hp)) as Hnd' by (by rewrite <- Permutation_middle).
  assert (forall x, p <= x < p + PGSIZE -> ~ in_pages hp x) as Hfresh.
  { intros x Hx Hin. eapply (in_pages_disjoint [p] hp x); [|by constructor|done| |done].
    - apply list.NoDup_cons in Hnd as [Hn Hnd2]. apply list.NoDup_app in Hnd2 as (_ & _ & Hnd2).
      apply list.NoDup_cons. split; [set_solver|done].
    - exists p. split; [set_solver|done]. }
  assert (forall a, ~ p <= a < p + HDR ->
    ld8 (set_hsize p (PGSIZE / HDR) (kh_memory s)) a = ld8 (kh_memory s) a) as Hfr.
  { intros a Ha. unfold set_hsize. rewrite ld8_st32, decide_False; [done|]. unfold HDR in *. lia. }
  split.
  - apply kinv_set_memory; [by apply kalloc_inv|]. intros a Ha. apply Hfr. intros Hin.
    eapply (in_pages_disjoint fl (p :: hp) a); [done|done|by constructor|done|].
    exists p. split; [set_solver|]. unfold HDR, PGSIZE in *. lia.
  - done.
  - by constructor.
  - constructor.
    + change (refs _ p) with (refs (pd_set (set_freelist (ld32 (kh_memory s) p) (kh_kmem s)) (V2P p) 1) p).
      rewrite refs_pd_set by done. by rewrite decide_True.
    + rewrite list.Forall_forall in Hr, Hv |- *. intros v Hin.
      change (refs _ v) with (refs (pd_set (set_freelist (ld32 (kh_memory s) p) (kh_kmem s)) (V2P p) 1) v).
      rewrite refs_pd_set by auto. rewrite decide_False; [by apply Hr|]. intros ->.
      apply list.NoDup_cons in Hnd as [Hn _]. set_solver.
  - eapply heap_ok_pool; [|eapply heap_ok_grow; [exact Hok|exact Hi|..]]; try done.
    + intros x. unfold in_pages. split.
      * intros [Hx|(v & Hin & Hx)]; [exists p|exists v]; (split; [set_solver|done]).
      * intros (v & Hin & Hx). apply elem_of_cons in Hin as [->|Hin]; [by left|right; eauto].
    + by apply hsize_set_hsize.
Qed.

Lemma lift_kalloc_cons p fl hp live l s :
  kheap_inv (p :: fl) hp live l s ->
  lift kalloc s = Ok p (kh_set_kmem (pd_set (set_freelist (ld32 (kh_memory s) p) (kh_kmem s)) (V2P p) 1) s).
Proof. intros [Hp _ _ _ _]. unfold lift. simpl. by rewrite (kalloc_cons_eq _ _ _ Hp). Qed.

Lemma lift_kalloc_nil hp live l s : kheap_inv [] hp live l s -> lift kalloc s = Ok NULL s.
Proof. intros [Hp _ _ _ _]. unfold lift. simpl. rewrite (kalloc_nil_eq _ Hp). by destruct s. Qed.

Lemma morecore_fails fl hp live l s n :
  kheap_inv fl hp live l s -> 0 <= n * HDR < 2 ^ 32 -> PGSIZE <= n * HDR \/ fl = [] ->
  morecore n s = Ok NULL s.
Proof.
  intros Hinv Hn Hor. unfold morecore. rewrite u32_id by done.
  destruct (n * HDR <? PGSIZE) eqn:E; boolify; simpl; [|done].
  destruct Hor as [?| ->]; [lia|].
  by rewrite (kbind_ok _ _ _ _ _ (lift_kalloc_nil _ _ _ _ Hinv)).
Qed.

Lemma morecore_grows p fl hp live l s n :
  kheap_inv (p :: fl) hp live l s -> heap_inv kbase (kh_memory s) (kh_freep s) l ->
  1 <= n -> n * HDR < PGSIZE -> (length l + 1 < fuel)%nat ->
  wp (morecore n) (fun r s' => exists l',
    r = kh_freep s' /\ kheap_inv fl (p :: hp) live l' s' /\
    heap_inv kbase (kh_memory s') (kh_freep s') l' /\
    (exists a sz, (a, sz) ∈ l' /\ n <= sz) /\ (length l' <= S (length l))%nat /\
    (forall x, ~ kbase <= x < kbase + HDR -> ~ in_free l x -> ~ in_pages [p] x ->
       ld8 (kh_memory s') x = ld8 (kh_memory s) x)) s.
Proof.
  intros Hinv Hi Hn Hsm Hfuel.
  pose proof (ki_valid _ _ (kh_pages _ _ _ _ _ Hinv)) as Hv. inversion Hv as [|? ? Hpv _]; subst.
  pose proof (page_block_inv _ _ _ _ _ _ Hinv Hi) as Hpb.
  unfold morecore. rewrite u32_id by (unfold HDR, PGSIZE in *; lia).
  rewrite (proj2 (Z.ltb_lt _ _) Hsm). cbn [negb].
  apply wp_bind. eapply wp_eq; [by eapply lift_kalloc_cons|].
  rewrite (proj2 (Z.eqb_neq _ _) (valid_page_nonnull p Hpv)).
  apply wp_bind, wp_modify. apply wp_bind.
  eapply wp_mono; [apply (kmallocfree_spec _ _ _ _ (page_block p s) _ _ Hpb Hfuel)|].
  intros [] s' (l' & Hinv' & Hi' & Hf & Hlen & Hfr). apply wp_gets.
  exists l'. repeat (split; [done|]). split.
  - destruct (free_run _ _ p (PGSIZE / HDR) (hi_blocks _ _ _ _ Hi')) as (b & k & Hb & Hk); [done| |].
    { intros x Hx. apply Hf. by right. }
    exists b, k. split; [done|]. change (PGSIZE / HDR) with 512 in Hk. unfold HDR, PGSIZE in *. lia.
  - split; [done|]. intros x Hx1 Hx2 Hx3.
    assert (~ p <= x < p + HDR) as Hx4.
    { intros Hx. apply Hx3. exists p. split; [set_solver|]. unfold HDR, PGSIZE in *. lia. }
    rewrite Hfr by done. unfold page_block, kh_memory, kh_set_memory, set_hsize. simpl.
    rewrite ld8_st32, decide_False; [done|]. unfold HDR in *. lia.
Qed.

(** The first call builds the empty list. *)
Definition heap_boot (s : kheap) : kheap :=
  if kh_freep s =? NULL then
    kh_set_freep kbase (kh_set_memory (set_hsize kbase 0 (set_hptr kbase kbase (kh_memory s))) s)
  else s.

Lemma heap_boot_inv fl hp live l s :
  kheap_inv fl hp live l s ->
  kheap_inv fl hp live l (heap_boot s) /\
  heap_inv kbase (kh_memory (heap_boot s)) (kh_freep (heap_boot s)) l /\
  (forall a, ~ kbase <= a < kbase + HDR -> ld8 (kh_memory (heap_boot s)) a = ld8 (kh_memory s) a).
Proof.
  intros Hinv. pose proof (kh_heap _ _ _ _ _ Hinv) as [Hv Hp Hex Hd Hlv]. unfold heap_boot.
  destruct Hv as [(Hf & -> & ->)|Hi].
  - rewrite Hf. cbn [Z.eqb NULL].
    set (m' := set_hsize kbase 0 (set_hptr kbase kbase (kh_memory s))).
    assert (forall a, ~ kbase <= a < kbase + HDR -> ld8 m' a = ld8 (kh_memory s) a) as Hfr.
    { intros a Ha. unfold m', set_hsize, set_hptr. unfold HDR in *. by rewrite !ld8_st32, !decide_False by lia. }
    assert (heap_inv kbase m' kbase []) as Hi.
    { destruct kbase_ok, kimage_ok. pose proof kbase_pos. split.
      - simpl. unfold m'. rewrite hptr_set_hsize, hptr_set_hptr.
        + rewrite hsize_set_hsize by lia. done.
        + unfold KERNBASE, PHYSTOP, HDR in *. lia.
      - simpl. unfold KERNBASE, PHYSTOP, HDR in *. lia.
      - set_solver. }
    split; [|by split].
    eapply kheap_inv_update; [exact Hinv| |auto].
    split; try done; [by right|]. intros a sz Ha. by apply elem_of_nil in Ha.
  - rewrite (proj2 (Z.eqb_neq _ _) (heap_inv_freep _ kbase_pos _ _ _ Hi)). by split.
Qed.

Lemma kmalloc_boot nbytes s :
  kmalloc nbytes s =
  malloc_loop morecore fuel (nunits_of nbytes) (kh_freep (heap_boot s))
    (hptr (kh_memory (heap_boot s)) (kh_freep (heap_boot s))) (heap_boot s).
Proof.
  unfold kmalloc, heap_malloc, heap_boot. unfold kbind at 1. cbn [gets hs_freep kheap_state].
  by destruct (kh_freep s =? NULL).
Qed.

(** What [kmalloc] leaves behind when it hands out block [a]. *)
Record allocated (fl hp : list Z) (live : list (Z * Z)) (s : kheap) (n a : Z) (s' : kheap) : Prop := {
  al_pages : exists fl' hp' l', kheap_inv fl' hp' ((a, n) :: live) l' s' /\ fl' ++ hp' ≡ₚ fl ++ hp;
  al_low : kbase + HDR <= a;
  al_high : a + HDR * n <= KERNBASE + PHYSTOP;
  al_frame : forall x, in_free live x \/ foreign fl hp x -> ld8 (kh_memory s') x = ld8 (kh_memory s) x
}.

Lemma block_below fl hp live l s a n :
  kheap_inv fl hp ((a, n) :: live) l s -> a + HDR * n <= KERNBASE + PHYSTOP.
Proof.
  intros Hinv. destruct (ho_live _ _ _ _ _ _ (kh_heap _ _ _ _ _ Hinv) a n) as (_ & Hn & _); [set_solver|].
  assert (in_pages hp (a + HDR * n - 1)) as (v & Hin & Hv).
  { eapply in_free_pages; [exact Hinv|]. right. rewrite in_free_cons. left. unfold HDR. lia. }
  pose proof (kh_valid _ _ _ _ _ Hinv) as Hva. rewrite list.Forall_forall in Hva.
  destruct (Hva _ Hin) as (Hm & _ & Hb).
  unfold PGSIZE, KERNBASE, PHYSTOP in *. Z.div_mod_to_equations. lia.
Qed.

Lemma kmalloc_take fl hp live l s n r m' l' q :
  kheap_inv fl hp live l s -> 1 <= n -> taken kbase (kh_memory s) m' l l' q r n ->
  allocated fl hp live s n r (kh_set_freep q (kh_set_memory m' s)).
Proof.
  intros Hinv Hn Htk. pose proof (kh_heap _ _ _ _ _ Hinv) as Hok.
  pose proof (heap_ok_take _ _ _ _ _ _ _ _ _ _ _ Hok Hn Htk) as Hok'.
  destruct Htk as [_ _ Hlo _ _ _ _ Hfr].
  assert (kheap_inv fl hp ((r, n) :: live) l' (kh_set_freep q (kh_set_memory m' s))) as Hinv'.
  { eapply kheap_inv_update; [exact Hinv|done|]. intros x Hx1 Hx2. apply Hfr; [done|].
    intros Hx. apply Hx2. eapply in_free_pages; [exact Hinv|by auto]. }
  split; [by exists fl, hp, l'|done|by eapply block_below|].
  intros x Hx. apply Hfr.
  - destruct Hx as [(a & sz & Ha & Hx)|[Hx _]]; [|done].
    destruct (ho_live _ _ _ _ _ _ Hok a sz Ha) as (_ & _ & ? & _). lia.
  - intros Hl. destruct Hx as [Hx|(_ & _ & Hx)]; [by apply (ho_excl _ _ _ _ _ _ Hok x)|].
    apply Hx. eapply in_free_pages; [exact Hinv|by auto].
Qed.

Lemma live_not_base fl hp live l s x :
  kheap_inv fl hp live l s -> in_free live x -> ~ kbase <= x < kbase + HDR.
Proof.
  intros Hinv (b & k & Hb & Hx).
  destruct (ho_live _ _ _ _ _ _ (kh_heap _ _ _ _ _ Hinv) b k Hb) as (_ & _ & ? & _). lia.
Qed.

Lemma frame_live fl hp live l s x :
  kheap_inv fl hp live l s -> in_free live x \/ foreign fl hp x ->
  ~ kbase <= x < kbase + HDR /\ ~ in_free l x /\ ~ in_pages fl x.
Proof.
  intros Hinv [Hx|(H1 & H2 & H3)].
  - split; [by eapply live_not_base|]. split.
    + intros Hl. by apply (ho_excl _ _ _ _ _ _ (kh_heap _ _ _ _ _ Hinv) x).
    + intros Hf. eapply (in_pages_disjoint fl hp x); [by eapply kh_nodup|by eapply ki_valid, kh_pages|by eapply kh_valid|done|].
      eapply in_free_pages; [exact Hinv|by auto].
  - split; [done|]. split; [|done]. intros Hl. apply H3. eapply in_free_pages; [exact Hinv|by auto].
Qed.

(** The retry after [morecore] has added page [p] finds a block. *)
Lemma kmalloc_after_morecore p fl hp live l s s1 n k :
  (forall x, ~ kbase <= x < kbase + HDR -> ld8 (kh_memory s1) x = ld8 (kh_memory s) x) ->
  kheap_inv (p :: fl) hp live l s1 -> heap_inv kbase (kh_memory s1) (kh_freep s1) l ->
  1 <= n -> n * HDR < PGSIZE -> (length l + 1 < fuel)%nat -> (length l + 1 < k)%nat ->
  wp (p' <- morecore n ;;
      if p' =? NULL then kret NULL
      else m' <- gets hs_mem ;; malloc_loop morecore k n p' (hptr m' p'))
    (fun r s' => exists a, r = a + HDR /\ allocated (p :: fl) hp live s n a s') s1.
Proof.
  intros Hfr1 Hinv Hi Hn Hsm Hfuel Hk. apply wp_bind.
  eapply wp_mono; [by eapply morecore_grows|].
  intros r s2 (l2 & -> & Hinv2 & Hi2 & Hbig & Hlen & Hfr2). cbv beta.
  rewrite (proj2 (Z.eqb_neq _ _) (heap_inv_freep _ kbase_pos _ _ _ Hi2)).
  apply wp_bind, wp_gets.
  destruct (@malloc_loop_hit kheap kheap_state kbase kbase_pos morecore s2 l2 n k Hi2 Hn Hbig ltac:(lia))
    as (a & m' & l' & q & E & Htk).
  eapply wp_eq; [exact E|].
  destruct (kmalloc_take _ _ _ _ _ _ _ _ _ _ Hinv2 Hn Htk) as [(fl' & hp' & l3 & Hpg & Hperm) Hlo Hhi Hfr].
  exists a. split; [apply u32_id; pose proof kbase_pos; unfold HDR, KERNBASE, PHYSTOP in *; lia|].
  split; try done.
  - exists fl', hp', l3. split; [done|]. rewrite Hperm. by rewrite <- Permutation_middle.
  - intros x Hx. destruct (frame_live _ _ _ _ _ _ Hinv Hx) as (Hx1 & Hx2 & Hx3).
    rewrite Hfr, Hfr2, Hfr1; [done|done|done|done| |].
    + intros (v & Hv & Hxv). apply Hx3. exists v. split; [set_solver|done].
    + destruct Hx as [Hx|(H1 & H2 & H3)]; [by left|right]. split; [done|]. split.
      * intros (v & Hv & Hxv). apply H2. exists v. split; [set_solver|done].
      * intros (v & Hv & Hxv). apply elem_of_cons in Hv as [->|Hv].
        -- apply H2. exists p. split; [set_solver|done].
        -- apply H3. by exists v.
Qed.

(** ** Properties *)

(** C14: [kmalloc(nbytes)] always returns.  It returns 0 only when the
    request does not fit a page or no block is large enough and no page is
    left, and then no live block and no page changes hands.  Otherwise it
    returns a block of at least [nbytes] bytes, past its header, that
    overlaps no live block, made of heap pages; every byte of a live block
    and every byte outside the heap keeps its value, and pages are neither
    lost nor duplicated. *)
Theorem kmalloc_correct fl hp live l s nbytes :
  kheap_inv fl hp live l s -> 0 <= nbytes <= 2 ^ 32 - 16 -> (2 * length l + 4 < fuel)%nat ->
  wp (kmalloc nbytes) (fun r s' =>
    (r = NULL /\ kheap_inv fl hp live l s' /\
       (PGSIZE <= nunits_of nbytes * HDR \/ fl = []) /\
       (forall a sz, (a, sz) ∈ l -> sz < nunits_of nbytes)) \/
    (exists a, r = a + HDR /\ nbytes + HDR <= HDR * nunits_of nbytes /\
       allocated fl hp live s (nunits_of nbytes) a s')) s.
Proof.
  intros Hinv Hnb Hfuel. destruct (nunits_val nbytes Hnb) as (_ & Hn & Hcap & Hw).
  set (n := nunits_of nbytes) in *.
  destruct (heap_boot_inv _ _ _ _ _ Hinv) as (Hinv1 & Hi1 & Hfr1).
  eapply wp_run; [apply kmalloc_boot|]. fold n. set (s1 := heap_boot s) in *.
  destruct (first_fit n l) as [Hno|(ys & a & sz & zs & Hl & Hsz & _)].
  2: { destruct (@malloc_loop_hit kheap kheap_state kbase kbase_pos morecore s1 l n fuel Hi1 Hn) as (r & m' & l' & q & E & Htk);
      [exists a, sz; split; [rewrite Hl; set_solver|done]|lia|].
    eapply wp_eq; [exact E|].
    right. exists r. pose proof (kmalloc_take _ _ _ _ _ _ _ _ _ _ Hinv1 Hn Htk) as [Hpg Hlo Hhi Hfr].
    split; [apply u32_id; pose proof kbase_pos; unfold HDR, KERNBASE, PHYSTOP in *; lia|]. split; [done|].
    split; try done. intros x Hx. rewrite Hfr by done. apply Hfr1.
    by destruct (frame_live _ _ _ _ _ _ Hinv Hx). }
  assert (forall a sz, (a, sz) ∈ l -> sz < n) as Hsmall.
  { rewrite list.Forall_forall in Hno. intros a sz Ha. apply (Hno _ Ha). }
  pose proof (@malloc_loop_miss kheap kheap_state kbase kbase_pos morecore s1 l n (fuel - length l - 1) Hi1 Hn Hsmall) as E.
  cbn [hs_freep hs_mem kheap_state] in E. replace (length l + S (fuel - length l - 1))%nat with fuel in E by lia.
  eapply wp_run; [exact E|]. clear E.
  destruct (decide (PGSIZE <= n * HDR \/ fl = [])) as [Hor|Hor].
  { apply wp_bind. eapply wp_eq; [by eapply morecore_fails|]. by left. }
  destruct fl as [|p fl]; [exfalso; apply Hor; by right|].
  assert (n * HDR < PGSIZE) as Hsm by lia.
  eapply wp_mono; [eapply kmalloc_after_morecore; [exact Hfr1|exact Hinv1|done..|lia|lia]|].
  intros r s' (a & -> & Hal). right. by exists a.
Qed.

(** C22: [kmallocfree] of the pointer [kmalloc] returned for a live block
    terminates, makes exactly that block's bytes free again (merging it with
    its neighbours), and changes no byte of any other live block nor of any
    memory outside the heap. *)
Theorem kmallocfree_correct fl hp live live' l s a n :
  kheap_inv fl hp live l s -> live ≡ₚ (a, n) :: live' -> (length l + 1 < fuel)%nat ->
  wp (kmallocfree (u32 (a + HDR))) (fun _ s' => exists l',
    kheap_inv fl hp live' l' s' /\
    (forall x, in_free l' x <-> in_free l x \/ a <= x < a + HDR * n) /\
    (forall x, in_free live' x \/ foreign fl hp x -> ld8 (kh_memory s') x = ld8 (kh_memory s) x)) s.
Proof.
  intros [H1 H2 H3 H4 Hok] Hperm Hfuel.
  assert (kheap_inv fl hp ((a, n) :: live') l s) as Hinv by (split; try done; by eapply heap_ok_perm).
  eapply wp_mono; [by eapply kmallocfree_spec|].
  intros [] s' (l' & Hinv' & _ & Hf & _ & Hfr). exists l'. split; [done|]. split; [done|].
  destruct (ho_live _ _ _ _ _ _ (kh_heap _ _ _ _ _ Hinv) a n) as (_ & Hn & _); [set_solver|].
  intros x Hx.
  assert (in_free ((a, n) :: live') x \/ foreign fl hp x) as Hx' by (rewrite in_free_cons; tauto).
  destruct (frame_live _ _ _ _ _ _ Hinv Hx') as (Hb & Hl & _). apply Hfr; [done|done|].
  intros Hax. destruct Hx as [(b & k & Hbk & Hxb)|(_ & _ & Hx)].
  - destruct (ho_disj _ _ _ _ _ _ (kh_heap _ _ _ _ _ Hinv)) as [Hd _].
    destruct (Hd _ Hbk) as [?|?]; simpl in *; unfold HDR in *; lia.
  - apply Hx. eapply in_free_pages; [exact Hinv|]. right. rewrite in_free_cons. left. unfold HDR in *. lia.
Qed.
End Kmalloc.

(** ** Witnesses *)

Program Definition demo_kheap_image : @KernelHeap demo_image := {| kbase := 0x80110000 |}.
Next Obligation. compute_done. Qed.

Definition demo_kheap0 : kheap := mk_kheap demo_kmem 0.

Lemma demo_kheap0_inv :
  @kheap_inv demo_image demo_kheap_image [demo_p0; demo_p1] [] [] [] demo_kheap0.
Proof.
  split; [apply demo_kinv|compute_done|constructor|constructor|].
  split; [by left| | |done|].
  - intros x. rewrite !in_free_nil. split; [|tauto]. intros (v & Hv & _). by apply elem_of_nil in Hv.
  - intros x Hx. by apply in_free_nil in Hx.
  - intros a sz Ha. by apply elem_of_nil in Ha.
Qed.

Lemma kmalloc_correct_witness :
  exists r s', @kmalloc demo_image demo_kheap_image 5 100 demo_kheap0 = Ok r s' /\ r <> NULL.
Proof.
  pose proof (@kmalloc_correct demo_image demo_kheap_image 5 _ _ _ _ demo_kheap0 100 demo_kheap0_inv
    ltac:(lia) ltac:(simpl; lia)) as Hw.
  destruct (wp_elim _ _ _ Hw) as (r & s' & E & Hr). exists r, s'. split; [exact E|]. clear E.
  destruct Hr as [(_ & _ & [Hbad|Hbad] & _)|(a & -> & _ & [_ Hlow _ _])].
  - exfalso. revert Hbad. apply Z.lt_nge. vm_compute. reflexivity.
  - discriminate Hbad.
  - intros E0. unfold NULL in E0. change kbase with 0x80110000 in Hlow. unfold HDR in *. lia.
Defined.

(** A heap whose only page is one live block. *)
Definition demo_kheap1 : kheap :=
  mk_kheap (set_pdata {[ 0x300 := mk_page_data 1 0 ]}
    (set_memory (set_hsize 0x80300000 512 (set_hsize 0x80110000 0 (set_hptr 0x80110000 0x80110000 (memory demo_kmem))))
       demo_kmem)) 0x80110000.

Lemma demo_kheap1_inv :
  @kheap_inv demo_image demo_kheap_image [demo_p0; demo_p1] [0x80300000] [(0x80300000, 512)] [] demo_kheap1.
Proof.
  split.
  - split; [vm_compute; done|compute_done|repeat constructor; compute_done|repeat constructor; vm_compute; reflexivity|simpl; set_solver].
  - compute_done.
  - repeat constructor; compute_done.
  - repeat constructor.
  - split.
    + right. split; [vm_compute; done|vm_compute; discriminate|set_solver].
    + intros x. rewrite in_free_cons, !in_free_nil. unfold in_pages. split.
      * intros (v & Hv & Hx). apply list_elem_of_singleton in Hv as ->. unfold HDR, PGSIZE in *. lia.
      * intros Hx. exists 0x80300000. split; [set_solver|]. unfold HDR, PGSIZE in *. lia.
    + intros x Hx. by apply in_free_nil in Hx.
    + simpl. split; [|done]. intros c Hc. by apply elem_of_nil in Hc.
    + intros a sz Ha. apply list_elem_of_singleton in Ha as [= -> ->]. compute_done.
Qed.

Lemma kmallocfree_correct_witness :
  exists s' l', @kmallocfree 5 (u32 (0x80300000 + HDR)) demo_kheap1 = Ok tt s' /\
    @kheap_inv demo_image demo_kheap_image [demo_p0; demo_p1] [0x80300000] [] l' s'.
Proof.
  pose proof (@kmallocfree_correct demo_image demo_kheap_image 5 _ _ _ [] _ demo_kheap1 _ _ demo_kheap1_inv
    ltac:(reflexivity) ltac:(simpl; lia)) as Hw.
  destruct (wp_elim _ _ _ Hw) as ([] & s' & E & l' & Hinv & _). exists s', l'. split; [exact E|exact Hinv].
Defined.
