(* ===== verification/Vm.v ===== *)
(** * Virtual memory (vm.c)

    Two-level x86 page tables in physical memory: [walkpgdir], [mappage],
    [mappages], and the demand paging of this kernel built on them: lazy
    allocation, copy-on-write sharing after fork, and the page-fault
    handler.  The functions that may reach the swap file ([Swap]) run over
    any state that embeds the memory state. *)

From S2P Require Import Prelude Layout Mem Kstring Kalloc.

(** ** Page tables *)

Section Vm.
Context `{KernelImage}.

Definition pde_addr (pgdir va : Z) : Z := pgdir + 4 * PDX va.

Definition walkpgdir (pgdir va : Z) (alloc : bool) : M kmem Z :=
  pde <- gets (fun s => ld32 (memory s) (pde_addr pgdir va)) ;;
  if flag PTE_P pde then kret (P2V (PTE_ADDR pde) + 4 * PTX va)
  else if negb alloc then kret NULL
  else
    pgtab <- kalloc ;;
    if pgtab =? NULL then kret NULL
    else
      mem_do (memset pgtab 0 PGSIZE) ;;;
      mem_do (st32 (pde_addr pgdir va) (Z.lor (Z.lor (Z.lor (V2P pgtab) PTE_P) PTE_W) PTE_U)) ;;;
      kret (pgtab + 4 * PTX va).

Definition mappage (la pte pa perm : Z) : M kmem unit :=
  v <- gets (fun s => ld32 (memory s) pte) ;;
  if flag PTE_P v && negb (flag PTE_C v) && negb (flag PTE_S v) then panic "remap"
  else
    mem_do (st32 pte (Z.lor (Z.lor pa perm) PTE_P)) ;;;
    when la <? KERNBASE do
      (i <- get_pd pa ;;
       d <- pd_index i ;;
       pd_store i (mk_page_data (ref_count d) la)).

Fixpoint mappages_loop (fuel : nat) (pgdir a last pa perm : Z) : M kmem Z :=
  match fuel with
  | O => nofuel
  | S fuel' =>
      pte <- walkpgdir pgdir a true ;;
      if pte =? NULL then kret (-1)
      else
        mappage a pte pa perm ;;;
        if a =? last then kret 0
        else mappages_loop fuel' pgdir (u32 (a + PGSIZE)) last (u32 (pa + PGSIZE)) perm
  end.

Definition mappages (pgdir va size pa perm : Z) : M kmem Z :=
  let a := PGROUNDDOWN va in
  let last := PGROUNDDOWN (u32 (va + size - 1)) in
  mappages_loop (S (Z.to_nat (u32 (last - a) / PGSIZE))) pgdir a last pa perm.

Definition clearpteu (pgdir uva : Z) : M kmem unit :=
  pte <- walkpgdir pgdir uva false ;;
  if pte =? NULL then panic "clearpteu"
  else mem_do (fun m => st32 pte (clear_flag PTE_U (ld32 m pte)) m).

Definition inituvm (pgdir init sz : Z) : M kmem unit :=
  if PGSIZE <=? sz then panic "inituvm: more than a page"
  else
    mem <- kalloc ;;
    mem_do (memset mem 0 PGSIZE) ;;;
    mappages pgdir 0 PGSIZE (V2P mem) (Z.lor PTE_W PTE_U) ;;;
    mem_do (memmove mem init sz).

(** [lazyalloc(va, p)], with [pgdir] = p->pgdir. *)
Definition lazyalloc (va pgdir : Z) : M kmem Z :=
  mem <- kalloc ;;
  if mem =? NULL then kret (-1)
  else
    mem_do (memset mem 0 PGSIZE) ;;;
    r <- mappages pgdir va PGSIZE (V2P mem) (Z.lor PTE_W PTE_U) ;;
    if r <? 0 then kfree mem ;;; kret (-1)
    else kret 0.

Definition copy_on_write (va pte pgdir : Z) : M kmem Z :=
  v <- gets (fun s => ld32 (memory s) pte) ;;
  let pa_to_free := PTE_ADDR v in
  refcount <- get_ref_pa pa_to_free ;;
  if refcount =? 1 then
    mem_do (fun m => st32 pte (clear_flag PTE_C (ld32 m pte)) m) ;;;
    mem_do (fun m => st32 pte (Z.lor (ld32 m pte) PTE_W) m) ;;;
    kret 0
  else
    mem <- kalloc ;;
    if mem =? NULL then kret (-1)
    else
      mem_do (memmove mem (P2V pa_to_free) PGSIZE) ;;;
      r <- mappages pgdir va PGSIZE (V2P mem) (Z.lor PTE_W PTE_U) ;;
      if r <? 0 then kfree mem ;;; kret (-1)
      else
        mem_do (fun m => st32 pte (clear_flag PTE_C (ld32 m pte)) m) ;;;
        dec_ref_pa pa_to_free ;;;
        kret 0.

(** ** The address space as a function

    [pte_ptr]: where the entry for [va] is, [NULL] without a page table;
    [pte]: its value, 0 without a page table. *)

Definition pte_ptr (m : mem) (pgdir va : Z) : Z :=
  let pde := ld32 m (pde_addr pgdir va) in
  if flag PTE_P pde then P2V (PTE_ADDR pde) + 4 * PTX va else NULL.
Definition pte (m : mem) (pgdir va : Z) : Z :=
  if pte_ptr m pgdir va =? NULL then 0 else ld32 m (pte_ptr m pgdir va).

(** The pages that make up a page table: [pgdir] and the tables [T]. *)
Definition pt_page (pgdir : Z) (T : gmap Z Z) (v : Z) : Prop := v = pgdir \/ exists i, T !! i = Some v.
Definition pt_bytes (pgdir : Z) (T : gmap Z Z) (a : Z) : Prop :=
  exists v, pt_page pgdir T v /\ v <= a < v + PGSIZE.

Record pt_inv (fl : list Z) (pgdir : Z) (T : gmap Z Z) (k : kmem) : Prop := {
  pt_kinv : kinv fl k;
  pt_valid : forall v, pt_page pgdir T v -> valid_page v /\ v ∉ fl;
  pt_tables : forall i t, T !! i = Some t ->
    0 <= i < NPDENTRIES /\ t <> pgdir /\ ld32 (memory k) (pgdir + 4 * i) = V2P t + 7;
  pt_absent : forall i, 0 <= i < NPDENTRIES -> T !! i = None ->
    flag PTE_P (ld32 (memory k) (pgdir + 4 * i)) = false;
  pt_inj : forall i j t, T !! i = Some t -> T !! j = Some t -> i = j
}.

(** ** Addresses of entries *)

Definition uaddr (va : Z) : Prop := 0 <= va < 2 ^ 32.

Lemma PDX_range va : uaddr va -> 0 <= PDX va < NPDENTRIES.
Proof. intros Hv. rewrite PDX_val by done. unfold uaddr, NPDENTRIES in *. Z.div_mod_to_equations. lia. Qed.

Lemma PTX_range va : uaddr va -> 0 <= PTX va < NPTENTRIES.
Proof. intros Hv. rewrite PTX_val by done. unfold NPTENTRIES. apply Z.mod_pos_bound. lia. Qed.

Lemma page_number va : uaddr va -> va / PGSIZE = PDX va * NPTENTRIES + PTX va.
Proof.
  intros Hv. rewrite PDX_val, PTX_val by done. unfold PGSIZE, NPTENTRIES.
  change (2 ^ 22) with (2 ^ 12 * 2 ^ 10). rewrite <- Z.div_div by lia.
  change 4096 with (2 ^ 12). pose proof (Z.div_mod (va / 2 ^ 12) (2 ^ 10)). lia.
Qed.

Lemma valid_page_entry t : valid_page t ->
  0 <= V2P t < 2 ^ 32 /\ V2P t mod PGSIZE = 0 /\ P2V (V2P t) = t /\ t <> NULL.
Proof.
  intros Hv. destruct (valid_page_pa t Hv) as [E Hr]. pose proof (valid_page_nonnull t Hv) as Hnn.
  destruct Hv as (Hm & Hlo & Hhi). destruct kimage_ok as [? ?].
  unfold KERNLINK, EXTMEM, PHYSTOP in *. rewrite P2V_V2P by (unfold KERNBASE in *; lia).
  split; [unfold KERNBASE in *; lia|]. split; [|done].
  rewrite E. unfold KERNBASE, PGSIZE in *. Z.div_mod_to_equations. lia.
Qed.

Lemma pde_flags t : valid_page t ->
  Z.lor (Z.lor (Z.lor (V2P t) PTE_P) PTE_W) PTE_U = V2P t + 7.
Proof.
  intros Hv. destruct (valid_page_entry t Hv) as (_ & Hm & _).
  rewrite <- !Z.lor_assoc. by apply lor_aligned.
Qed.

Lemma pde_present t : valid_page t ->
  flag PTE_P (V2P t + 7) = true /\ P2V (PTE_ADDR (V2P t + 7)) = t.
Proof.
  intros Hv. destruct (valid_page_entry t Hv) as (Hr & Hm & HE & _). unfold flag.
  by rewrite land_entry, PTE_ADDR_entry.
Qed.

Section Tables.
Context {fl : list Z} {pgdir : Z} {T : gmap Z Z} {k : kmem}.
Context (Hpt : pt_inv fl pgdir T k).

Lemma pt_pgdir : valid_page pgdir /\ pgdir ∉ fl.
Proof. apply (pt_valid _ _ _ _ Hpt). by left. Qed.

Lemma pt_table i t : T !! i = Some t -> valid_page t /\ t ∉ fl /\ t <> pgdir.
Proof.
  intros Ht. destruct (pt_valid _ _ _ _ Hpt t); [right; eauto|].
  by destruct (pt_tables _ _ _ _ Hpt i t Ht) as (_ & ? & _).
Qed.

Lemma walk_some va t : uaddr va -> T !! PDX va = Some t ->
  flag PTE_P (ld32 (memory k) (pde_addr pgdir va)) = true /\
  P2V (PTE_ADDR (ld32 (memory k) (pde_addr pgdir va))) = t.
Proof.
  intros Hva Ht. destruct (pt_table _ _ Ht) as (Hv & _). unfold pde_addr.
  destruct (pt_tables _ _ _ _ Hpt _ _ Ht) as (_ & _ & ->). by apply pde_present.
Qed.

Lemma walk_none va : uaddr va -> T !! PDX va = None ->
  flag PTE_P (ld32 (memory k) (pde_addr pgdir va)) = false.
Proof. intros Hva Ht. by apply (pt_absent _ _ _ _ Hpt); [apply PDX_range|]. Qed.

Lemma entry_nonnull va t : uaddr va -> T !! PDX va = Some t -> t + 4 * PTX va <> NULL.
Proof.
  intros Hva Ht. destruct (pt_table _ _ Ht) as (Hv & _). pose proof (PTX_range va Hva).
  destruct Hv as (_ & Hlo & _). destruct kimage_ok. unfold KERNLINK, KERNBASE, EXTMEM, NULL in *. lia.
Qed.

Lemma pte_ptr_some va t : uaddr va -> T !! PDX va = Some t -> pte_ptr (memory k) pgdir va = t + 4 * PTX va.
Proof. intros Hva Ht. unfold pte_ptr. by destruct (walk_some va t Hva Ht) as [-> ->]. Qed.

Lemma pte_some va t : uaddr va -> T !! PDX va = Some t ->
  pte (memory k) pgdir va = ld32 (memory k) (t + 4 * PTX va).
Proof.
  intros Hva Ht. unfold pte. rewrite (pte_ptr_some va t) by done.
  by rewrite (proj2 (Z.eqb_neq _ _) (entry_nonnull va t Hva Ht)).
Qed.

Lemma pte_none va : uaddr va -> T !! PDX va = None ->
  pte_ptr (memory k) pgdir va = NULL /\ pte (memory k) pgdir va = 0.
Proof. intros Hva Ht. unfold pte, pte_ptr. by rewrite (walk_none va Hva Ht). Qed.

Lemma walkpgdir_hit va t alloc : uaddr va -> T !! PDX va = Some t ->
  walkpgdir pgdir va alloc k = Ok (t + 4 * PTX va) k.
Proof.
  intros Hva Ht. unfold walkpgdir, kbind at 1. cbn [gets].
  by destruct (walk_some va t Hva Ht) as [-> ->].
Qed.

Lemma walkpgdir_miss va : uaddr va -> T !! PDX va = None -> walkpgdir pgdir va false k = Ok NULL k.
Proof. intros Hva Ht. unfold walkpgdir, kbind at 1. cbn [gets]. by rewrite (walk_none va Hva Ht). Qed.

Lemma walkpgdir_find va : uaddr va -> walkpgdir pgdir va false k = Ok (pte_ptr (memory k) pgdir va) k.
Proof.
  intros Hva. destruct (T !! PDX va) as [t|] eqn:Ht.
  - by rewrite (walkpgdir_hit va t), (pte_ptr_some va t).
  - rewrite walkpgdir_miss by done. by destruct (pte_none va Hva Ht) as [-> _].
Qed.

(** Memory outside the page table does not matter. *)
Lemma pt_inv_frame fl' k' :
  kinv fl' k' -> (forall v, pt_page pgdir T v -> v ∉ fl') ->
  (forall a, pt_bytes pgdir T a -> ld8 (memory k') a = ld8 (memory k) a) ->
  pt_inv fl' pgdir T k'.
Proof.
  intros Hk Hout Hfr. destruct pt_pgdir as [Hpv Hpf].
  assert (forall i, 0 <= i < NPDENTRIES -> ld32 (memory k') (pgdir + 4 * i) = ld32 (memory k) (pgdir + 4 * i)) as Hpde.
  { intros i Hi. apply ld32_ext. intros b Hb. apply Hfr. exists pgdir. split; [by left|].
    unfold NPDENTRIES, PGSIZE in *. lia. }
  destruct Hpt as [_ Hv Ht Ha Hi]. split; try done.
  - intros v Hpv'. split; [by apply Hv|by apply Hout].
  - intros i t Hit. destruct (Ht i t Hit) as (? & ? & ?). by rewrite Hpde.
  - intros i Hir Hit. rewrite Hpde by done. by apply Ha.
Qed.

Lemma pte_frame m' va :
  uaddr va -> (forall a, pt_bytes pgdir T a -> ld8 m' a = ld8 (memory k) a) ->
  pte m' pgdir va = pte (memory k) pgdir va.
Proof.
  intros Hva Hfr. pose proof (PDX_range va Hva) as HD. pose proof (PTX_range va Hva) as HT.
  assert (ld32 m' (pde_addr pgdir va) = ld32 (memory k) (pde_addr pgdir va)) as Hpde.
  { apply ld32_ext. intros b Hb. apply Hfr. exists pgdir. split; [by left|].
    unfold pde_addr, NPDENTRIES, PGSIZE in *. lia. }
  unfold pte, pte_ptr. rewrite Hpde.
  destruct (T !! PDX va) as [t|] eqn:Ht; [|by rewrite (walk_none va Hva Ht)].
  destruct (walk_some va t Hva Ht) as [-> ->]. case_cond; [done|].
  apply ld32_ext. intros b Hb. apply Hfr. exists t. split; [right; eauto|].
  unfold NPTENTRIES, PGSIZE in *. lia.
Qed.

(** Distinct pages have distinct entries, all away from the directory. *)
Lemma entry_apart va va' t t' :
  uaddr va -> uaddr va' -> T !! PDX va = Some t -> T !! PDX va' = Some t' ->
  va' / PGSIZE <> va / PGSIZE ->
  t' + 4 * PTX va' + 4 <= t + 4 * PTX va \/ t + 4 * PTX va + 4 <= t' + 4 * PTX va'.
Proof.
  intros Hva Hva' Ht Ht' Hne. rewrite !page_number in Hne by done.
  pose proof (PTX_range va Hva). pose proof (PTX_range va' Hva').
  destruct (pt_table _ _ Ht) as (Hv & _), (pt_table _ _ Ht') as (Hv' & _).
  destruct (decide (t = t')) as [->|Htt].
  - assert (PDX va = PDX va') as E by (by eapply pt_inj). rewrite E in Hne. lia.
  - destruct Hv as [Hm _], Hv' as [Hm' _].
    pose proof (page_disjoint t t' Hm Hm' Htt). unfold NPTENTRIES, PGSIZE in *. lia.
Qed.
End Tables.

(** ** Allocating a page table *)

Definition walk_state (p pgdir va : Z) (k : kmem) : kmem :=
  set_memory (st32 (pde_addr pgdir va) (V2P p + 7) (memset p 0 PGSIZE (memory k)))
    (pd_set (set_freelist (ld32 (memory k) p) k) (V2P p) 1).

Lemma walkpgdir_oom pgdir T k va : pt_inv [] pgdir T k -> uaddr va -> T !! PDX va = None ->
  walkpgdir pgdir va true k = Ok NULL k.
Proof.
  intros Hpt Hva Ht. unfold walkpgdir, kbind at 1. cbn [gets]. rewrite (walk_none Hpt va Hva Ht). cbn [negb].
  by rewrite (kbind_ok _ _ _ _ _ (kalloc_nil_eq _ (pt_kinv _ _ _ _ Hpt))).
Qed.

Lemma walkpgdir_new p fl pgdir T k va : pt_inv (p :: fl) pgdir T k -> uaddr va -> T !! PDX va = None ->
  walkpgdir pgdir va true k = Ok (p + 4 * PTX va) (walk_state p pgdir va k).
Proof.
  intros Hpt Hva Ht. pose proof (pt_kinv _ _ _ _ Hpt) as Hk.
  pose proof (ki_valid _ _ Hk) as Hv. inversion Hv as [|? ? Hp _]; subst.
  unfold walkpgdir, kbind at 1. cbn [gets]. rewrite (walk_none Hpt va Hva Ht). cbn [negb].
  rewrite (kbind_ok _ _ _ _ _ (kalloc_cons_eq _ _ _ Hk)).
  rewrite (proj2 (Z.eqb_neq _ _) (valid_page_nonnull p Hp)), pde_flags by done. reflexivity.
Qed.

Section NewTable.
Context {p : Z} {fl : list Z} {pgdir : Z} {T : gmap Z Z} {k : kmem} {va : Z}.
Context (Hpt : pt_inv (p :: fl) pgdir T k) (Hva : uaddr va) (Hnone : T !! PDX va = None).
Notation m' := (memory (walk_state p pgdir va k)).

Lemma new_table_page : valid_page p /\ p ∉ fl /\ p <> pgdir /\ (forall i, T !! i <> Some p).
Proof.
  pose proof (pt_kinv _ _ _ _ Hpt) as Hk. pose proof (ki_nodup _ _ Hk) as Hnd.
  apply list.NoDup_cons in Hnd as [Hn _].
  pose proof (ki_valid _ _ Hk) as Hv. inversion Hv as [|? ? Hp _]; subst.
  destruct (pt_pgdir Hpt) as [_ Hpf]. apply not_elem_of_cons in Hpf as [Hpf _].
  split; [done|]. split; [done|]. split; [by intros ->|].
  intros i Hi. destruct (pt_table Hpt i p Hi) as (_ & Hf & _). by apply not_elem_of_cons in Hf as [? _].
Qed.

Lemma new_table_mem a :
  ld8 m' a = if decide (pde_addr pgdir va <= a < pde_addr pgdir va + 4)
             then u8 ((V2P p + 7) / 2 ^ (8 * (a - pde_addr pgdir va)))
             else if decide (p <= a < p + PGSIZE) then 0 else ld8 (memory k) a.
Proof. simpl. rewrite ld8_st32, ld8_memset by (unfold PGSIZE; lia). done. Qed.

Lemma new_table_frame a : ~ (pgdir <= a < pgdir + PGSIZE) -> ~ (p <= a < p + PGSIZE) ->
  ld8 m' a = ld8 (memory k) a.
Proof.
  intros H1 H2. pose proof (PDX_range va Hva).
  rewrite new_table_mem, !decide_False; [done|done|].
  unfold pde_addr, NPDENTRIES, PGSIZE in *. lia.
Qed.

Lemma new_table_pde i : 0 <= i < NPDENTRIES ->
  ld32 m' (pgdir + 4 * i) = if decide (i = PDX va) then V2P p + 7 else ld32 (memory k) (pgdir + 4 * i).
Proof.
  intros Hi. destruct new_table_page as (Hp & _ & Hne & _). destruct (pt_pgdir Hpt) as [[Hgm _] _].
  destruct (valid_page_entry p Hp) as (Hr & Hm & _). destruct Hp as [Hpm _].
  case_decide as E.
  - subst. simpl. unfold pde_addr. rewrite ld32_st32_eq. apply u32_id.
    unfold PGSIZE in *. Z.div_mod_to_equations. lia.
  - pose proof (page_disjoint p pgdir Hpm Hgm Hne) as Hd.
    apply ld32_ext. intros b Hb. unfold NPDENTRIES, PGSIZE in *.
    rewrite new_table_mem, !decide_False; [done|unfold PGSIZE; lia|unfold pde_addr; lia].
Qed.

Lemma new_table_inv : pt_inv fl pgdir (<[PDX va := p]> T) (walk_state p pgdir va k).
Proof.
  destruct new_table_page as (Hp & Hpf & Hne & Hfresh).
  pose proof (pt_kinv _ _ _ _ Hpt) as Hk. destruct (pt_pgdir Hpt) as [Hgv Hgf].
  apply not_elem_of_cons in Hgf as [_ Hgf].
  split.
  - apply kinv_set_memory; [by apply kalloc_inv|].
    intros a (v & Hv & Hav).
    assert (v mod PGSIZE = 0) as Hvm.
    { pose proof (ki_valid _ _ Hk) as Hval. rewrite list.Forall_forall in Hval.
      by destruct (Hval v (list_elem_of_further _ _ _ Hv)). }
    apply new_table_frame.
    + destruct (page_disjoint v pgdir); [done|by destruct Hgv|by intros ->|lia|lia].
    + destruct (page_disjoint v p); [done|by destruct Hp|by intros ->|lia|lia].
  - intros v [->|[i Hi]]; [by split|].
    destruct (decide (i = PDX va)) as [->|Hi'].
    + rewrite lookup_insert_eq in Hi. by injection Hi as <-.
    + rewrite lookup_insert_ne in Hi by done. destruct (pt_table Hpt i v Hi) as (? & Hf & _).
      by apply not_elem_of_cons in Hf as [_ ?].
  - intros i t Hi. destruct (decide (i = PDX va)) as [->|Hi'].
    + rewrite lookup_insert_eq in Hi. injection Hi as <-.
      split; [by apply PDX_range|]. split; [done|].
      rewrite new_table_pde by (by apply PDX_range). by rewrite decide_True.
    + rewrite lookup_insert_ne in Hi by done. destruct (pt_tables _ _ _ _ Hpt i t Hi) as (? & ? & ?).
      split; [done|]. split; [done|]. rewrite new_table_pde by done. by rewrite decide_False.
  - intros i Hir Hi. apply lookup_insert_None in Hi as [Hi Hi'].
    rewrite new_table_pde by done. rewrite decide_False by done. by apply (pt_absent _ _ _ _ Hpt).
  - intros i j t. rewrite !lookup_insert_Some.
    intros [[<- <-]|[Hi Hti]] [[<- Hj]|[Hj Htj]]; [done|by apply Hfresh in Htj| |by eapply (pt_inj _ _ _ _ Hpt)].
    subst. by apply Hfresh in Hti.
Qed.

Lemma new_table_pte va' : uaddr va' -> pte m' pgdir va' = pte (memory k) pgdir va'.
Proof.
  intros Hva'. destruct new_table_page as (Hp & _ & Hne & Hfresh).
  pose proof new_table_inv as Hnew. destruct (decide (PDX va' = PDX va)) as [E|E].
  - rewrite (pte_some Hnew va' p), (proj2 (pte_none Hpt va' Hva' ltac:(by rewrite E)));
      [|done|by rewrite E, lookup_insert_eq].
    pose proof (PTX_range va' Hva'). pose proof (PDX_range va Hva).
    destruct Hp as [Hpm _], (pt_pgdir Hpt) as [[Hgm _] _].
    pose proof (page_disjoint p pgdir Hpm Hgm Hne) as Hd.
    transitivity (ld32 ∅ 0); [|done]. unfold ld32. rewrite !new_table_mem.
    unfold NPTENTRIES, NPDENTRIES, PGSIZE, pde_addr in *.
    rewrite !(decide_False (P := pgdir + _ <= _ < _)) by lia.
    by rewrite !decide_True by lia.
  - destruct (T !! PDX va') as [t|] eqn:Ht.
    + rewrite (pte_some Hnew va' t), (pte_some Hpt va' t); [|done|done|done|by rewrite lookup_insert_ne].
      destruct (pt_table Hpt _ _ Ht) as ([Htm _] & _ & Htg).
      pose proof (PTX_range va' Hva'). apply ld32_ext. intros b Hb.
      destruct Hp as [Hpm _], (pt_pgdir Hpt) as [[Hgm _] _].
      destruct (page_disjoint t pgdir Htm Hgm Htg) as [Hd|Hd];
      destruct (page_disjoint t p Htm Hpm ltac:(intros ->; by apply Hfresh in Ht)) as [Hd'|Hd'];
      apply new_table_frame; unfold NPTENTRIES, PGSIZE in *; lia.
    + rewrite (proj2 (pte_none Hnew va' Hva' ltac:(by rewrite lookup_insert_ne))).
      by rewrite (proj2 (pte_none Hpt va' Hva' Ht)).
Qed.
End NewTable.

(** ** Writing an entry *)

Lemma set_pte fl pgdir T k va t x :
  pt_inv fl pgdir T k -> uaddr va -> T !! PDX va = Some t -> 0 <= x < 2 ^ 32 ->
  let k' := set_memory (st32 (t + 4 * PTX va) x (memory k)) k in
  pt_inv fl pgdir T k' /\ pte (memory k') pgdir va = x /\
  (forall va', uaddr va' -> va' / PGSIZE <> va / PGSIZE ->
     pte (memory k') pgdir va' = pte (memory k) pgdir va') /\
  (forall a, ~ t <= a < t + PGSIZE -> ld8 (memory k') a = ld8 (memory k) a).
Proof.
  intros Hpt Hva Ht Hx k'. pose proof (PTX_range va Hva) as HT.
  destruct (pt_table Hpt _ _ Ht) as ((Htm & _) & Htf & Htg).
  destruct (pt_pgdir Hpt) as [[Hgm _] _].
  assert (forall a, ~ t <= a < t + PGSIZE -> ld8 (memory k') a = ld8 (memory k) a) as Hfr.
  { intros a Ha. simpl. rewrite ld8_st32, decide_False; [done|]. unfold NPTENTRIES, PGSIZE in *. lia. }
  assert (kinv fl k') as Hk.
  { apply kinv_set_memory; [by eapply pt_kinv|]. intros a (v & Hv & Hav). apply Hfr.
    pose proof (ki_valid _ _ (pt_kinv _ _ _ _ Hpt)) as Hval. rewrite list.Forall_forall in Hval.
    destruct (page_disjoint v t); [by destruct (Hval v Hv)|done|by intros ->|lia|lia]. }
  assert (pt_inv fl pgdir T k') as Hpt'.
  { assert (forall i, 0 <= i < NPDENTRIES -> ld32 (memory k') (pgdir + 4 * i) = ld32 (memory k) (pgdir + 4 * i)) as Hpde.
    { intros i Hi. apply ld32_ext. intros b Hb. apply Hfr.
      pose proof (page_disjoint t pgdir Htm Hgm Htg). unfold NPDENTRIES, PGSIZE in *. lia. }
    destruct Hpt as [_ Hv Hts Ha Hi]. split; try done.
    - intros i u Hiu. destruct (Hts i u Hiu) as (? & ? & ?). by rewrite Hpde.
    - intros i Hir Hit. rewrite Hpde by done. by apply Ha. }
  split; [done|]. split; [|split; [|done]].
  - rewrite (pte_some Hpt' va t) by done. simpl. rewrite ld32_st32_eq. by apply u32_id.
  - intros va' Hva' Hne. destruct (T !! PDX va') as [t'|] eqn:Ht'.
    + rewrite (pte_some Hpt' va' t'), (pte_some Hpt va' t') by done. simpl. apply ld32_st32_ne.
      destruct (entry_apart Hpt va va' t t' Hva Hva' Ht Ht' Hne); lia.
    + by rewrite (proj2 (pte_none Hpt' va' Hva' Ht')), (proj2 (pte_none Hpt va' Hva' Ht')).
Qed.

(** Recording the linear address of a frame. *)
Definition la_set (k : kmem) (pa la : Z) : kmem :=
  set_pdata (<[pa / PGSIZE := mk_page_data (ref_count (page_entry k (pa / PGSIZE))) la]> (pdata k)) k.

Lemma refs_la_set k pa la v : refs (la_set k pa la) v = refs k v.
Proof.
  unfold refs, page_entry, la_set. simpl.
  destruct (decide (pa / PGSIZE = V2P v / PGSIZE)) as [E|E].
  - rewrite <- E, lookup_insert_eq. done.
  - by rewrite lookup_insert_ne.
Qed.

Lemma kinv_la_set fl k pa la : kinv fl k -> kinv fl (la_set k pa la).
Proof.
  intros [Hc Hnd Hv Hf Hl]. split; try done.
  eapply list.Forall_impl; [exact Hf|]. intros v Hr. cbv beta. by rewrite refs_la_set.
Qed.

Definition mapped_state (la ptr pa perm : Z) (k : kmem) : kmem :=
  let k1 := set_memory (st32 ptr (Z.lor (Z.lor pa perm) PTE_P) (memory k)) k in
  if la <? KERNBASE then la_set k1 pa la else k1.

Lemma mappage_eq la ptr pa perm k :
  flag PTE_P (ld32 (memory k) ptr) && negb (flag PTE_C (ld32 (memory k) ptr)) &&
    negb (flag PTE_S (ld32 (memory k) ptr)) = false ->
  (la < KERNBASE -> 0 <= pa < PHYSTOP) ->
  mappage la ptr pa perm k = Ok tt (mapped_state la ptr pa perm k).
Proof.
  intros Hre Hpa. unfold mappage, mapped_state, kbind at 1. cbn [gets]. rewrite Hre.
  unfold kbind at 1, mem_do, modify. destruct (la <? KERNBASE) eqn:Hla; [|done]. boolify.
  specialize (Hpa Hla). unfold kbind, get_pd, pd_index, pd_store.
  rewrite (proj2 (Z.ltb_ge PHYSTOP pa)) by lia. unfold kret. rewrite pd_in_range by done. reflexivity.
Qed.

(** What mapping one page does to an address space. *)
Record mapped (fl : list Z) (pgdir : Z) (T : gmap Z Z) (k : kmem) (va x : Z)
    (fl' : list Z) (T' : gmap Z Z) (k' : kmem) : Prop := {
  mp_inv : pt_inv fl' pgdir T' k';
  mp_sub : T ⊆ T';
  mp_new : (T' = T /\ fl' = fl) \/
           (exists p, fl = p :: fl' /\ T !! PDX va = None /\ T' = <[PDX va := p]> T);
  mp_pte : pte (memory k') pgdir va = x;
  mp_other : forall va', uaddr va' -> va' / PGSIZE <> va / PGSIZE ->
    pte (memory k') pgdir va' = pte (memory k) pgdir va';
  mp_frame : forall a, ~ pt_bytes pgdir T' a -> ld8 (memory k') a = ld8 (memory k) a;
  mp_refs : forall v, valid_page v -> v ∉ fl -> refs k' v = refs k v;
  mp_refs_new : forall p, fl = p :: fl' -> refs k' p = 1
}.

Definition remap (v : Z) : bool := flag PTE_P v && negb (flag PTE_C v) && negb (flag PTE_S v).

Lemma pte_at {fl pgdir T k va t} : pt_inv fl pgdir T k -> uaddr va -> T !! PDX va = Some t ->
  ld32 (memory k) (t + 4 * PTX va) = pte (memory k) pgdir va.
Proof. intros Hpt Hva Ht. by rewrite (pte_some Hpt va t). Qed.

Lemma entry_range pa perm : 0 <= pa < 2 ^ 32 -> 0 <= perm < PGSIZE ->
  0 <= Z.lor (Z.lor pa perm) PTE_P < 2 ^ 32.
Proof.
  intros Hpa Hperm. unfold PGSIZE, PTE_P in *.
  apply lor_range; [lia| |lia]. apply lor_range; lia.
Qed.

(** Mapping through an existing table. *)
Lemma map_existing fl pgdir T k va t pa perm :
  pt_inv fl pgdir T k -> uaddr va -> T !! PDX va = Some t ->
  remap (pte (memory k) pgdir va) = false ->
  0 <= pa < 2 ^ 32 -> (va < KERNBASE -> 0 <= pa < PHYSTOP) -> 0 <= perm < PGSIZE ->
  exists k', mappage va (t + 4 * PTX va) pa perm k = Ok tt k' /\
    mapped fl pgdir T k va (Z.lor (Z.lor pa perm) PTE_P) fl T k'.
Proof.
  intros Hpt Hva Ht Hre Hpa Hpu Hperm. eexists. split.
  { apply mappage_eq; [|done]. by rewrite (pte_at Hpt Hva Ht). }
  pose proof (entry_range pa perm Hpa Hperm) as Hx.
  destruct (set_pte _ _ _ _ _ _ _ Hpt Hva Ht Hx) as (Hpt' & Hp & Ho & Hfr).
  unfold mapped_state. assert (forall (b : bool) (X Y : kmem), memory X = memory Y ->
    memory (if b then X else Y) = memory Y) as Hm by (by intros []).
  split; rewrite ?Hm by done; [|done|by left|done|done| | |].
  - case_cond; [|done]. destruct Hpt' as [Hk Hv Hts Ha Hi]. split; try done. by apply kinv_la_set.
  - intros a Ha. apply Hfr. intros Hin. apply Ha. exists t. split; [right; eauto|done].
  - intros v Hv Hn. case_cond; [by rewrite refs_la_set|done].
  - intros p Hp'. apply (f_equal length) in Hp'. simpl in Hp'. lia.
Qed.

(** One iteration of [mappages]. *)
Definition map_one (pgdir va pa perm : Z) : M kmem Z :=
  pte <- walkpgdir pgdir va true ;;
  if pte =? NULL then kret (-1) else mappage va pte pa perm ;;; kret 0.

(** [mappages] of one page. *)
Lemma mappages_one pgdir va pa perm k :
  uaddr va -> va mod PGSIZE = 0 ->
  mappages pgdir va PGSIZE pa perm k = map_one pgdir va pa perm k.
Proof.
  intros Hva Hal. unfold mappages.
  assert (PGROUNDDOWN va = va) as Ea.
  { rewrite PGROUNDDOWN_spec by done. unfold PGSIZE in *. Z.div_mod_to_equations. lia. }
  assert (PGROUNDDOWN (u32 (va + PGSIZE - 1)) = va) as ->.
  { unfold uaddr, PGSIZE in *. assert (va + 4096 - 1 < 2 ^ 32) by (Z.div_mod_to_equations; lia).
    rewrite u32_id by lia. rewrite PGROUNDDOWN_spec by lia.
    unfold PGSIZE. Z.div_mod_to_equations. lia. }
  rewrite Ea, Z.sub_diag. change (Z.to_nat (u32 0 / PGSIZE)) with 0%nat.
  cbn [mappages_loop]. unfold map_one. by rewrite Z.eqb_refl.
Qed.

Lemma map_page fl pgdir T k va pa perm :
  pt_inv fl pgdir T k -> uaddr va ->
  remap (pte (memory k) pgdir va) = false ->
  0 <= pa < 2 ^ 32 -> (va < KERNBASE -> 0 <= pa < PHYSTOP) -> 0 <= perm < PGSIZE ->
  wp (map_one pgdir va pa perm) (fun r k' =>
    (r = -1 /\ k' = k /\ fl = [] /\ T !! PDX va = None) \/
    (r = 0 /\ exists fl' T', mapped fl pgdir T k va (Z.lor (Z.lor pa perm) PTE_P) fl' T' k')) k.
Proof.
  intros Hpt Hva Hre Hpa Hpu Hperm. unfold map_one. apply wp_bind.
  destruct (T !! PDX va) as [t|] eqn:Ht.
  - eapply wp_eq; [by eapply walkpgdir_hit|].
    rewrite (proj2 (Z.eqb_neq _ _) (entry_nonnull Hpt va t Hva Ht)).
    destruct (map_existing _ _ _ _ _ _ _ _ Hpt Hva Ht Hre Hpa Hpu Hperm) as (k' & E & Hm).
    apply wp_bind. eapply wp_eq; [exact E|]. right. split; [done|]. by exists fl, T.
  - destruct fl as [|p fl].
    { eapply wp_eq; [by eapply walkpgdir_oom|]. by left. }
    eapply wp_eq; [by eapply walkpgdir_new|].
    pose proof (new_table_inv Hpt Hva) as Hpt1.
    assert (<[PDX va := p]> T !! PDX va = Some p) as Ht1 by apply lookup_insert_eq.
    rewrite (proj2 (Z.eqb_neq _ _) (entry_nonnull Hpt1 va p Hva Ht1)).
    destruct (map_existing _ _ _ _ _ _ pa perm Hpt1 Hva Ht1) as (k' & E & [Hi _ _ Hp Ho Hfr Hrf _]);
      [by rewrite (new_table_pte Hpt Hva Ht)|done|done|done|].
    apply wp_bind. eapply wp_eq; [exact E|]. right. split; [done|]. exists fl, (<[PDX va := p]> T).
    destruct (new_table_page Hpt) as (Hpv & Hpf & _).
    assert (forall v, valid_page v -> refs (walk_state p pgdir va k) v = if decide (p = v) then 1 else refs k v) as Hrw.
    { intros v Hv. by apply (refs_pd_set (set_freelist (ld32 (memory k) p) k)). }
    split; [done|by apply insert_subseteq|right; eauto|done| | | |].
    + intros va' Hva' Hne. rewrite Ho by done. by apply (new_table_pte Hpt Hva Ht).
    + intros a Ha. rewrite Hfr by done. apply (new_table_frame Hva).
      * intros Hin. apply Ha. exists pgdir. split; [by left|done].
      * intros Hin. apply Ha. exists p. split; [right; eauto|done].
    + intros v Hv Hn. apply not_elem_of_cons in Hn as [Hvp Hn].
      rewrite Hrf, Hrw by done. by rewrite decide_False by congruence.
    + intros u [= <-]. rewrite Hrf, Hrw by done. by rewrite decide_True.
Qed.

(** ** Mapping a freshly allocated page *)

(** The state after [kalloc] returned [p] and its content became [m']. *)
Definition page_taken (p : Z) (m' : mem) (k : kmem) : kmem :=
  set_memory m' (pd_set (set_freelist (ld32 (memory k) p) k) (V2P p) 1).

Record fresh_mapped (p : Z) (fl : list Z) (pgdir : Z) (T : gmap Z Z) (k : kmem) (va : Z) (m' : mem)
    (fl' : list Z) (T' : gmap Z Z) (k' : kmem) : Prop := {
  fm_inv : pt_inv fl' pgdir T' k';
  fm_sub : T ⊆ T';
  fm_pages : forall v, v ∈ fl' \/ pt_page pgdir T' v -> v ∈ fl \/ pt_page pgdir T v;
  fm_page : valid_page p /\ p ∉ fl' /\ ~ pt_page pgdir T' p;
  fm_pte : pte (memory k') pgdir va = V2P p + 7;
  fm_other : forall va', uaddr va' -> va' / PGSIZE <> va / PGSIZE ->
    pte (memory k') pgdir va' = pte (memory k) pgdir va';
  fm_content : forall a, p <= a < p + PGSIZE -> ld8 (memory k') a = ld8 m' a;
  fm_frame : forall a, ~ pt_bytes pgdir T' a -> ~ p <= a < p + PGSIZE ->
    ld8 (memory k') a = ld8 (memory k) a;
  fm_refs_p : refs k' p = 1;
  fm_refs : forall v, valid_page v -> v ∉ p :: fl -> refs k' v = refs k v
}.

Section Fresh.
Context {p : Z} {fl : list Z} {pgdir : Z} {T : gmap Z Z} {k : kmem} {m' : mem}.
Context (Hpt : pt_inv (p :: fl) pgdir T k).
Context (Hm' : forall a, ~ p <= a < p + PGSIZE -> ld8 m' a = ld8 (memory k) a).

Lemma fresh_not_pt : ~ pt_page pgdir T p.
Proof. destruct (new_table_page Hpt) as (_ & _ & Hg & Ht). intros [E|[i Hi]]; [done|by apply Ht in Hi]. Qed.

Lemma pt_bytes_apart a : pt_bytes pgdir T a -> ~ p <= a < p + PGSIZE.
Proof.
  intros (v & Hv & Ha) Hin. destruct (new_table_page Hpt) as ((Hpm & _) & _).
  destruct (pt_valid _ _ _ _ Hpt v Hv) as [(Hvm & _) _].
  destruct (page_disjoint v p Hvm Hpm); [|lia|lia]. intros ->. by apply fresh_not_pt.
Qed.

Lemma page_taken_inv : pt_inv fl pgdir T (page_taken p m' k).
Proof.
  destruct (new_table_page Hpt) as ((Hpm & _) & Hpf & _).
  pose proof (pt_kinv _ _ _ _ Hpt) as Hk.
  assert (kinv fl (page_taken p m' k)) as Hk'.
  { apply kinv_set_memory; [by apply kalloc_inv|]. intros a (v & Hv & Hav). apply Hm'. intros Hin.
    pose proof (ki_valid _ _ Hk) as Hval. rewrite list.Forall_forall in Hval.
    destruct (Hval v (list_elem_of_further _ _ _ Hv)) as [Hvm _].
    destruct (page_disjoint v p Hvm Hpm); [by intros ->|lia|lia]. }
  apply (pt_inv_frame Hpt); [done| |].
  - intros v Hv. destruct (pt_valid _ _ _ _ Hpt v Hv) as [_ Hn]. by apply not_elem_of_cons in Hn as [_ ?].
  - intros a Ha. apply Hm'. by apply pt_bytes_apart.
Qed.

Lemma page_taken_pte va : uaddr va -> pte m' pgdir va = pte (memory k) pgdir va.
Proof. intros Hva. apply (pte_frame Hpt); [done|]. intros a Ha. apply Hm'. by apply pt_bytes_apart. Qed.

Lemma page_taken_refs v : valid_page v ->
  refs (page_taken p m' k) v = if decide (p = v) then 1 else refs k v.
Proof. intros Hv. destruct (new_table_page Hpt) as (Hpv & _). by apply (refs_pd_set (set_freelist (ld32 (memory k) p) k)). Qed.

Lemma map_fresh va :
  uaddr va -> va mod PGSIZE = 0 -> va < KERNBASE -> remap (pte (memory k) pgdir va) = false ->
  wp (mappages pgdir va PGSIZE (V2P p) (Z.lor PTE_W PTE_U)) (fun r k' =>
    (r = -1 /\ k' = page_taken p m' k /\ fl = [] /\ T !! PDX va = None) \/
    (r = 0 /\ exists fl' T', fresh_mapped p fl pgdir T k va m' fl' T' k' /\
       ((T' = T /\ fl' = fl) \/ T !! PDX va = None)))
    (page_taken p m' k).
Proof.
  intros Hva Hal Hu Hre. destruct (new_table_page Hpt) as (Hpv & Hpf & Hpg & Hpt').
  destruct (valid_page_pa p Hpv) as [_ Hpa]. destruct (valid_page_entry p Hpv) as (_ & Hpm & _).
  eapply wp_mono; [eapply wp_run; [by apply mappages_one|]; apply map_page; [exact page_taken_inv|done| | |done|done]|].
  { by rewrite page_taken_pte. }
  { unfold PHYSTOP in *. lia. }
  intros r k' [(-> & -> & -> & Hn)|(-> & fl' & T' & [Hi Hs Hnew Hp Ho Hfr Hrf _])]; [by left|right].
  assert (forall v, v ∈ fl' \/ pt_page pgdir T' v -> v ∈ fl \/ pt_page pgdir T v) as Hpages.
  { intros v. destruct Hnew as [[-> ->]|(u & -> & _ & ->)]; [done|].
    intros [Hv|[->|[i Hv]]]; [left; by apply list_elem_of_further|right; by left|].
    apply lookup_insert_Some in Hv as [[_ <-]|[_ Hv]]; [left; by apply list_elem_of_here|right; right; eauto]. }
  assert (p ∉ fl' /\ ~ pt_page pgdir T' p) as [Hnf Hnp].
  { split; intros Hin; destruct (Hpages p ltac:(auto)); [done|by apply fresh_not_pt|done|by apply fresh_not_pt]. }
  split; [done|]. exists fl', T'. split; [|by destruct Hnew as [?|(u & _ & ? & _)]; [left|right]].
  split; try done.
  - rewrite Hp. change (Z.lor PTE_W PTE_U) with 6. rewrite <- Z.lor_assoc. by apply lor_aligned.
  - intros va' Hva' Hne. rewrite Ho by done. by apply page_taken_pte.
  - intros a Ha. rewrite Hfr; [done|]. intros (v & Hv & Hav).
    destruct (pt_valid _ _ _ _ Hi v Hv) as [(Hvm & _) _], Hpv as [Hpm' _].
    destruct (page_disjoint v p Hvm Hpm'); [by intros ->|lia|lia].
  - intros a Ha Hna. rewrite Hfr by done. by apply Hm'.
  - rewrite Hrf by done. rewrite page_taken_refs by done. by rewrite decide_True.
  - intros v Hv Hn. apply not_elem_of_cons in Hn as [Hvp Hn].
    rewrite Hrf by done. rewrite page_taken_refs by done. by rewrite decide_False by congruence.
Qed.
End Fresh.

(** Undoing the allocation when no page table can be had. *)
Lemma untake_page p pgdir T k m' :
  pt_inv [p] pgdir T k -> (forall a, ~ p <= a < p + PGSIZE -> ld8 m' a = ld8 (memory k) a) ->
  exists k', kfree p (page_taken p m' k) = Ok tt k' /\ pt_inv [p] pgdir T k' /\
    (forall a, ~ p <= a < p + PGSIZE -> ld8 (memory k') a = ld8 (memory k) a) /\
    (forall v, valid_page v -> refs k' v = refs k v).
Proof.
  intros Hpt Hm'. destruct (new_table_page Hpt) as (Hpv & Hpf & _).
  pose proof (page_taken_inv Hpt Hm') as Hpt1. pose proof (pt_kinv _ _ _ _ Hpt1) as Hk1.
  destruct (ki_locks _ _ Hk1) as [Hl1 Hl2].
  assert (refs (page_taken p m' k) p = 1) as Hr by (rewrite (page_taken_refs Hpt) by done; by rewrite decide_True).
  assert (refs k p = 0) as Hr0.
  { pose proof (ki_free _ _ (pt_kinv _ _ _ _ Hpt)) as Hf. by inversion Hf. }
  eexists. split; [apply kfree_eq; try done; rewrite Hr; lia|]. split; [|split].
  - apply (pt_inv_frame Hpt1).
    + apply kfree_inv_last; [done|done|done|rewrite Hr; lia].
    + intros v Hv. destruct (pt_valid _ _ _ _ Hpt v Hv). done.
    + intros a Ha. apply kfree_state_frame. by apply (pt_bytes_apart Hpt).
  - intros a Ha. rewrite kfree_state_frame by done. by apply Hm'.
  - intros v Hv. rewrite refs_kfree_state by (done || lia). rewrite Hr.
    rewrite (page_taken_refs Hpt) by done. case_decide; subst; [|done]. by rewrite Hr0.
Qed.

(** ** Reading through a page table *)

(** The byte a user access to [va] reaches. *)
Definition uread (m : mem) (pgdir va : Z) : option Z :=
  let e := pte m pgdir va in
  if flag PTE_P e && flag PTE_U e
  then Some (ld8 m (P2V (PTE_ADDR e) + va mod PGSIZE)) else None.

Definition frame_of (e : Z) : Z := P2V (PTE_ADDR e).

(** An address space: a page table whose user entries refer to frames that
    are counted, not free, and not page-table pages. *)
Record as_inv (fl : list Z) (pgdir : Z) (T : gmap Z Z) (k : kmem) : Prop := {
  as_pt : pt_inv fl pgdir T k;
  as_frames : forall va, uaddr va -> va < KERNBASE -> flag PTE_P (pte (memory k) pgdir va) = true ->
    let q := frame_of (pte (memory k) pgdir va) in
    valid_page q /\ q ∉ fl /\ ~ pt_page pgdir T q /\ 1 <= refs k q < 2 ^ 31
}.

Lemma frame_entry p f : valid_page p -> 0 <= f < PGSIZE -> frame_of (V2P p + f) = p.
Proof.
  intros Hp Hf. destruct (valid_page_entry p Hp) as (Hr & Hm & HE & _).
  unfold frame_of. by rewrite PTE_ADDR_entry.
Qed.

Lemma frame_addr e : 0 <= e < 2 ^ 32 -> PTE_ADDR e = V2P (frame_of e).
Proof.
  intros He. destruct (entry_split e He) as (_ & _ & Hr & _). unfold frame_of, V2P, P2V.
  rewrite u32_sub_l. replace (PTE_ADDR e + KERNBASE - KERNBASE) with (PTE_ADDR e) by lia. by rewrite u32_id.
Qed.

Lemma pte_range m pgdir va : 0 <= pte m pgdir va < 2 ^ 32.
Proof. unfold pte. case_cond; [lia|]. apply ld32_range. Qed.

Lemma flag_entry p f g : valid_page p -> 0 <= f < PGSIZE -> 0 <= g < PGSIZE ->
  flag g (V2P p + f) = flag g f.
Proof.
  intros Hp Hf Hg. destruct (valid_page_entry p Hp) as (_ & Hm & _). unfold flag. by rewrite land_entry.
Qed.

Lemma page_offset va : 0 <= va mod PGSIZE < PGSIZE.
Proof. apply Z.mod_pos_bound. done. Qed.

Lemma same_page va va' : uaddr va -> uaddr va' -> va' / PGSIZE = va / PGSIZE ->
  forall m pgdir, pte m pgdir va' = pte m pgdir va.
Proof.
  intros Hva Hva' E m pgdir. unfold pte, pte_ptr, pde_addr.
  assert (PDX va' = PDX va /\ PTX va' = PTX va) as [-> ->]; [|done].
  rewrite !page_number in E by done. pose proof (PTX_range va Hva). pose proof (PTX_range va' Hva').
  unfold NPTENTRIES in *. lia.
Qed.

Definition user_va (va : Z) : Prop := 0 <= va < KERNBASE.

Lemma user_va_addr va : user_va va -> uaddr va.
Proof. unfold user_va, uaddr, KERNBASE. lia. Qed.

(** The bytes of the frames an address space maps. *)
Definition frame_bytes (m : mem) (pgdir a : Z) : Prop :=
  exists va, user_va va /\ flag PTE_P (pte m pgdir va) = true /\
    frame_of (pte m pgdir va) <= a < frame_of (pte m pgdir va) + PGSIZE.

Lemma uread_frame fl pgdir T k m' :
  pt_inv fl pgdir T k ->
  (forall a, pt_bytes pgdir T a \/ frame_bytes (memory k) pgdir a -> ld8 m' a = ld8 (memory k) a) ->
  forall va, user_va va -> uread m' pgdir va = uread (memory k) pgdir va.
Proof.
  intros Hpt Hfr va Hva. pose proof (user_va_addr va Hva) as Hua.
  unfold uread. rewrite (pte_frame Hpt m' va) by auto.
  destruct (flag PTE_P (pte (memory k) pgdir va)) eqn:HP; [|done]. cbn [andb]. case_cond; [|done].
  f_equal. apply Hfr. right. exists va. split; [done|]. split; [done|].
  pose proof (page_offset va). unfold frame_of. lia.
Qed.

Lemma pages_apart u v a : valid_page u -> valid_page v -> u <> v ->
  u <= a < u + PGSIZE -> v <= a < v + PGSIZE -> False.
Proof. intros [Hu _] [Hv _] Hne ??. destruct (page_disjoint u v Hu Hv Hne); lia. Qed.

Lemma as_frame_bytes fl pgdir T k a :
  as_inv fl pgdir T k -> frame_bytes (memory k) pgdir a ->
  exists q, valid_page q /\ q ∉ fl /\ ~ pt_page pgdir T q /\ q <= a < q + PGSIZE.
Proof.
  intros Has (va & Hva & HP & Ha). pose proof (user_va_addr va Hva) as Hua.
  destruct (as_frames _ _ _ _ Has va Hua ltac:(by destruct Hva) HP) as (? & ? & ? & _). eauto.
Qed.

(** Lazy allocation.  For an address without a frame, [lazyalloc]
    either maps a zero-filled page that only this process can see, writable
    and user accessible, leaving every other mapping, every other page's
    content and every other reference count alone, or, when memory runs out,
    returns -1 with no page leaked and the address space as it was. *)
Lemma lazyalloc_spec fl pgdir T k va :
  pt_inv fl pgdir T k -> uaddr va -> va mod PGSIZE = 0 -> va < KERNBASE ->
  remap (pte (memory k) pgdir va) = false ->
  wp (lazyalloc va pgdir) (fun r k' =>
    (r = -1 /\ pt_inv fl pgdir T k' /\ (length fl <= 1)%nat /\
       (forall a, ~ in_pages fl a -> ld8 (memory k') a = ld8 (memory k) a) /\
       (forall v, valid_page v -> refs k' v = refs k v)) \/
    (r = 0 /\ exists p fl0 fl' T' m', fl = p :: fl0 /\
       fresh_mapped p fl0 pgdir T k va m' fl' T' k' /\
       forall a, p <= a < p + PGSIZE -> ld8 (memory k') a = 0)) k.
Proof.
  intros Hpt Hva Hal Hu Hre. pose proof (pt_kinv _ _ _ _ Hpt) as Hk. unfold lazyalloc. apply wp_bind.
  destruct fl as [|p fl].
  { eapply wp_eq; [by apply kalloc_nil_eq|]. left. simpl. auto with lia. }
  eapply wp_eq; [by eapply kalloc_cons_eq|].
  destruct (new_table_page Hpt) as (Hpv & _).
  rewrite (proj2 (Z.eqb_neq _ _) (valid_page_nonnull p Hpv)).
  apply wp_bind, wp_modify, wp_bind. set (m' := memset p 0 PGSIZE (memory k)).
  assert (forall a, ld8 m' a = if decide (p <= a < p + PGSIZE) then 0 else ld8 (memory k) a) as Hm'.
  { intros a. unfold m'. by rewrite ld8_memset. }
  assert (forall a, ~ p <= a < p + PGSIZE -> ld8 m' a = ld8 (memory k) a) as Hfr.
  { intros a Ha. by rewrite Hm', decide_False. }
  eapply wp_mono; [apply (map_fresh Hpt Hfr va); done|].
  intros r k' [(-> & -> & -> & Hn)|(-> & fl' & T' & Hf & _)]; cbn [Z.ltb].
  - destruct (untake_page _ _ _ _ _ Hpt Hfr) as (k2 & E & Hpt2 & Hfr2 & Hr2).
    apply wp_bind. eapply wp_eq; [exact E|]. left. split; [done|]. split; [done|]. split; [simpl; lia|].
    split; [|done]. intros a Ha. apply Hfr2. intros Hin. apply Ha. exists p. split; [by apply list_elem_of_here|done].
  - right. split; [done|]. exists p, fl, fl', T', m'. split; [done|]. split; [done|].
    intros a Ha. rewrite (fm_content _ _ _ _ _ _ _ _ _ _ Hf a Ha), Hm'. by rewrite decide_True.
Qed.

Lemma kinv_pd_set fl k v r : kinv fl k -> valid_page v -> v ∉ fl -> kinv fl (pd_set k (V2P v) r).
Proof.
  intros [Hc Hnd Hval Hf Hl] Hv Hn. split; try done.
  rewrite list.Forall_forall in Hf, Hval |- *. intros u Hu.
  rewrite refs_pd_set by auto. rewrite decide_False; [by apply Hf|]. by intros ->.
Qed.

Lemma flag_testbit n v : 0 <= n -> flag (2 ^ n) v = Z.testbit v n.
Proof.
  intros Hn. unfold flag.
  assert (Z.land v (2 ^ n) = if Z.testbit v n then 2 ^ n else 0) as ->.
  { apply Z.bits_inj'. intros m Hm. rewrite Z.land_spec, Z.pow2_bits_eqb by done.
    destruct (n =? m) eqn:E; boolify.
    - subst. destruct (Z.testbit v m); rewrite ?Z.pow2_bits_true, ?Z.bits_0; done.
    - rewrite andb_false_r. destruct (Z.testbit v n); rewrite ?Z.bits_0; [|done].
      by rewrite Z.pow2_bits_false. }
  destruct (Z.testbit v n); [|done]. apply negb_true_iff, Z.eqb_neq. pose proof (Z.pow_pos_nonneg 2 n). lia.
Qed.

(** The entry after write permission is given back. *)
Lemma flags_unshared e : 
  let e' := Z.lor (clear_flag PTE_C e) PTE_W in
  flag PTE_W e' = true /\ flag PTE_C e' = false /\
  flag PTE_P e' = flag PTE_P e /\ flag PTE_U e' = flag PTE_U e.
Proof.
  intros e'. unfold e', clear_flag.
  change PTE_W with (2 ^ 1); change PTE_C with (2 ^ 9); change PTE_P with (2 ^ 0); change PTE_U with (2 ^ 2).
  rewrite !flag_testbit, !Z.lor_spec, !Z.land_spec by lia.
  change (Z.testbit (u32 (Z.lnot (2 ^ 9))) 1) with true; change (Z.testbit (u32 (Z.lnot (2 ^ 9))) 9) with false;
  change (Z.testbit (u32 (Z.lnot (2 ^ 9))) 0) with true; change (Z.testbit (u32 (Z.lnot (2 ^ 9))) 2) with true.
  change (Z.testbit (2 ^ 1) 1) with true; change (Z.testbit (2 ^ 1) 9) with false;
  change (Z.testbit (2 ^ 1) 0) with false; change (Z.testbit (2 ^ 1) 2) with false.
  by rewrite !andb_true_r, !orb_false_r, orb_true_r, andb_false_r.
Qed.

Lemma frame_unshared q f : valid_page q -> 0 <= f < PGSIZE ->
  frame_of (Z.lor (clear_flag PTE_C (V2P q + f)) PTE_W) = q.
Proof.
  intros Hq Hf. destruct (valid_page_entry q Hq) as (Hr & Hm & _).
  unfold clear_flag. rewrite clear_entry by done.
  pose proof (land_le_l f (u32 (Z.lnot PTE_C))) as Hl.
  rewrite <- (lor_aligned (V2P q)) by (done || lia). rewrite <- Z.lor_assoc.
  assert (0 <= Z.lor (Z.land f (u32 (Z.lnot PTE_C))) PTE_W < PGSIZE) as Hb.
  { change PGSIZE with (2 ^ 12). apply lor_range; [lia|unfold PGSIZE in *; lia|done]. }
  rewrite lor_aligned by done. by apply frame_entry.
Qed.

(** ** Copy on write *)

Section Cow.
Context {fl : list Z} {pgdir : Z} {T : gmap Z Z} {k : kmem} {va : Z}.
Context (Has : as_inv fl pgdir T k) (Hva : user_va va) (Hal : va mod PGSIZE = 0).
Notation e := (pte (memory k) pgdir va).
Notation q := (frame_of e).
Context (HP : flag PTE_P e = true).

Lemma cow_table : exists t, T !! PDX va = Some t /\ pte_ptr (memory k) pgdir va = t + 4 * PTX va.
Proof.
  pose proof (user_va_addr va Hva) as Hua. destruct (T !! PDX va) as [t|] eqn:Ht.
  - exists t. split; [done|]. apply (pte_ptr_some (as_pt _ _ _ _ Has) va t Hua Ht).
  - exfalso. revert HP. by rewrite (proj2 (pte_none (as_pt _ _ _ _ Has) va Hua Ht)).
Qed.

Lemma cow_frame : valid_page q /\ q ∉ fl /\ ~ pt_page pgdir T q /\ 1 <= refs k q < 2 ^ 31.
Proof.
  pose proof (user_va_addr va Hva) as Hua.
  exact (as_frames _ _ _ _ Has va Hua (proj2 Hva) HP).
Qed.

Lemma cow_entry : exists f, e = V2P q + f /\ 0 <= f < PGSIZE /\ PTE_ADDR e = V2P q.
Proof.
  pose proof (pte_range (memory k) pgdir va) as Hr. destruct (entry_split e Hr) as (Hs & _ & _ & Hf).
  exists (PTE_FLAGS e). by rewrite <- frame_addr.
Qed.

(** The last owner of a frame only gets its write permission back. *)
Lemma cow_last : refs k q = 1 -> exists k',
  copy_on_write va (pte_ptr (memory k) pgdir va) pgdir k = Ok 0 k' /\
  pt_inv fl pgdir T k' /\ pdata k' = pdata k /\
  pte (memory k') pgdir va = Z.lor (clear_flag PTE_C e) PTE_W /\
  (forall va', uaddr va' -> va' / PGSIZE <> va / PGSIZE ->
     pte (memory k') pgdir va' = pte (memory k) pgdir va') /\
  (forall a, ~ pt_bytes pgdir T a -> ld8 (memory k') a = ld8 (memory k) a).
Proof.
  intros Hr1. pose proof (as_pt _ _ _ _ Has) as Hpt. pose proof (user_va_addr va Hva) as Hua.
  destruct cow_table as (t & Ht & ->). destruct cow_frame as (Hqv & _).
  destruct cow_entry as (f & He & Hf & HA).
  destruct (valid_page_pa q Hqv) as [_ Hpa]. destruct (valid_page_entry q Hqv) as (Hqr & Hqm & _).
  destruct (ki_locks _ _ (pt_kinv _ _ _ _ Hpt)) as [_ Hl].
  assert (0 <= clear_flag PTE_C e < 2 ^ 32) as Hx.
  { unfold clear_flag. pose proof (pte_range (memory k) pgdir va). pose proof (land_le_l e (u32 (Z.lnot PTE_C))). lia. }
  assert (0 <= Z.lor (clear_flag PTE_C e) PTE_W < 2 ^ 32) as Hy by (apply lor_range; [lia|done|done]).
  destruct (set_pte _ _ _ _ _ _ _ Hpt Hua Ht Hx) as (Hpt1 & Hp1 & Ho1 & Hf1).
  destruct (set_pte _ _ _ _ _ _ _ Hpt1 Hua Ht Hy) as (Hpt2 & Hp2 & Ho2 & Hf2).
  eexists. split.
  { unfold copy_on_write. unfold kbind at 1. cbn [gets]. rewrite (pte_at Hpt Hua Ht), HA.
    rewrite (kbind_ok _ _ _ _ _ (get_ref_pa_eq k (V2P q) Hpa Hl)). fold (refs k q). rewrite Hr1.
    cbn [Z.eqb Pos.eqb]. unfold kbind, mem_do, modify, kret. rewrite (pte_at Hpt Hua Ht).
    cbn [memory set_memory]. rewrite ld32_st32_eq, (u32_id (clear_flag PTE_C e)) by done. reflexivity. }
  split; [exact Hpt2|]. split; [done|]. split; [exact Hp2|]. split.
  - intros va' Hva' Hne. etransitivity; [by apply Ho2|by apply Ho1].
  - intros a Ha. assert (~ t <= a < t + PGSIZE) as Hta.
    { intros Hin. apply Ha. exists t. split; [right; eauto|done]. }
    etransitivity; [by apply Hf2|by apply Hf1].
Qed.

Lemma cow_oom : 1 < refs k q -> fl = [] ->
  copy_on_write va (pte_ptr (memory k) pgdir va) pgdir k = Ok (-1) k.
Proof.
  intros Hr Hfl. pose proof (as_pt _ _ _ _ Has) as Hpt. pose proof (user_va_addr va Hva) as Hua.
  destruct cow_table as (t & Ht & ->). destruct cow_frame as (Hqv & _).
  destruct cow_entry as (f & He & Hf & HA). destruct (valid_page_pa q Hqv) as [_ Hpa].
  destruct (ki_locks _ _ (pt_kinv _ _ _ _ Hpt)) as [_ Hl].
  unfold copy_on_write. unfold kbind at 1. cbn [gets]. rewrite (pte_at Hpt Hua Ht), HA.
  rewrite (kbind_ok _ _ _ _ _ (get_ref_pa_eq k (V2P q) Hpa Hl)). fold (refs k q).
  rewrite (proj2 (Z.eqb_neq _ 1)) by lia. pose proof (pt_kinv _ _ _ _ Hpt) as Hk. rewrite Hfl in Hk.
  by rewrite (kbind_ok _ _ _ _ _ (kalloc_nil_eq _ Hk)).
Qed.

(** What copying a shared frame does. *)
Record cow_copied (p : Z) (fl0 : list Z) (k' : kmem) : Prop := {
  cc_inv : pt_inv fl0 pgdir T k';
  cc_page : valid_page p /\ p ∉ fl0 /\ ~ pt_page pgdir T p;
  cc_pte : pte (memory k') pgdir va = V2P p + 7;
  cc_other : forall va', uaddr va' -> va' / PGSIZE <> va / PGSIZE ->
    pte (memory k') pgdir va' = pte (memory k) pgdir va';
  cc_content : forall i, 0 <= i < PGSIZE -> ld8 (memory k') (p + i) = ld8 (memory k) (q + i);
  cc_frame : forall a, ~ pt_bytes pgdir T a -> ~ p <= a < p + PGSIZE -> ld8 (memory k') a = ld8 (memory k) a;
  cc_refs_p : refs k' p = 1;
  cc_refs_q : refs k' q = refs k q - 1;
  cc_refs : forall v, valid_page v -> v ∉ fl -> v <> q -> refs k' v = refs k v
}.

Lemma cow_finish p fl0 t m' k2 k3 :
  fl = p :: fl0 -> T !! PDX va = Some t ->
  (forall a, ld8 m' a = if decide (p <= a < p + PGSIZE) then ld8 (memory k) (q + (a - p)) else ld8 (memory k) a) ->
  fresh_mapped p fl0 pgdir T k va m' fl0 T k2 ->
  k3 = set_memory (st32 (t + 4 * PTX va) (V2P p + 7) (memory k2)) k2 ->
  cow_copied p fl0 (pd_set k3 (V2P q) (refs k q - 1)).
Proof.
  intros Hfl Ht Hm' [Hi _ _ (Hpv & Hnf & Hnp) Hp Ho Hct Hfr Hrp Hrf] ->.
  pose proof (user_va_addr va Hva) as Hua. destruct cow_frame as (Hqv & Hqf & Hqp & Hqr).
  rewrite Hfl in Hqf. apply not_elem_of_cons in Hqf as [Hqp' Hqf].
  destruct (valid_page_entry p Hpv) as (Hpr & Hpm & _).
  assert (0 <= V2P p + 7 < 2 ^ 32) as Hx by (unfold PGSIZE in *; Z.div_mod_to_equations; lia).
  destruct (set_pte _ _ _ _ _ _ _ Hi Hua Ht Hx) as (Hpt3 & Hp3 & Ho3 & Hf3).
  destruct (pt_table Hi _ _ Ht) as (Htv & _).
  assert (~ t <= p < t + PGSIZE /\ t <> p) as [_ Htp].
  { assert (t <> p) as Htp by (intros ->; apply Hnp; right; eauto). split; [|done]. intros Hin.
    apply (pages_apart t p p Htv Hpv Htp); unfold PGSIZE in *; lia. }
  split; try done.
  - apply (pt_inv_frame Hpt3); [by apply kinv_pd_set; [eapply pt_kinv| |]| |done].
    intros v Hv. by destruct (pt_valid _ _ _ _ Hi v Hv).
  - intros va' Hva' Hne. etransitivity; [by apply Ho3|by apply Ho].
  - intros j Hj. etransitivity; [apply Hf3; intros Hin; apply (pages_apart t p (p + j)); try done; lia|].
    rewrite Hct by lia. rewrite Hm', decide_True by lia. f_equal. lia.
  - intros a Ha Hna. etransitivity; [apply Hf3|by apply Hfr].
    intros Hin. apply Ha. exists t. split; [right; eauto|done].
  - rewrite refs_pd_set by done. by rewrite decide_False.
  - rewrite refs_pd_set by done. by rewrite decide_True.
  - intros v Hv Hn Hne. rewrite refs_pd_set by done. rewrite decide_False by done.
    apply Hrf; [done|by rewrite <- Hfl].
Qed.

Lemma cow_copy p fl0 : fl = p :: fl0 -> flag PTE_C e = true -> 1 < refs k q ->
  wp (copy_on_write va (pte_ptr (memory k) pgdir va) pgdir) (fun r k' => r = 0 /\ cow_copied p fl0 k') k.
Proof.
  intros Hfl HC Hr. pose proof (as_pt _ _ _ _ Has) as Hpt. pose proof (user_va_addr va Hva) as Hua.
  destruct cow_table as (t & Ht & ->). destruct cow_frame as (Hqv & Hqf & Hqp & Hqr).
  destruct cow_entry as (f & He & Hf & HA). destruct (valid_page_pa q Hqv) as [_ Hpa].
  destruct (valid_page_entry q Hqv) as (_ & _ & HPV & _).
  destruct (ki_locks _ _ (pt_kinv _ _ _ _ Hpt)) as [_ Hl].
  pose proof Hpt as Hpt0. rewrite Hfl in Hpt0. rewrite Hfl in Hqf.
  destruct (new_table_page Hpt0) as (Hpv & Hpf & _).
  unfold copy_on_write. apply wp_bind, wp_gets. rewrite (pte_at Hpt Hua Ht), HA.
  apply wp_bind. eapply wp_eq; [by apply get_ref_pa_eq|]. fold (refs k q).
  rewrite (proj2 (Z.eqb_neq _ 1)) by lia.
  apply wp_bind. eapply wp_eq; [apply (kalloc_cons_eq _ _ _ (pt_kinv _ _ _ _ Hpt0))|].
  rewrite (proj2 (Z.eqb_neq _ _) (valid_page_nonnull p Hpv)), HPV.
  apply wp_bind, wp_modify, wp_bind. set (m' := memmove p q PGSIZE (memory k)).
  assert (forall a, ld8 m' a = if decide (p <= a < p + PGSIZE) then ld8 (memory k) (q + (a - p)) else ld8 (memory k) a) as Hm'.
  { intros a. unfold m'. by rewrite ld8_memmove. }
  eapply wp_mono; [apply (map_fresh Hpt0 (m' := m')); [|done|done|by destruct Hva|]|].
  { intros a Ha. by rewrite Hm', decide_False. }
  { unfold remap. by rewrite HC, andb_false_r. }
  intros r k2 [(_ & _ & _ & Hn)|(-> & fl' & T' & Hfm & [[-> ->]|Hn])]; [congruence| |congruence].
  pose proof Hfm as [Hi _ _ (_ & Hnf & Hnp) Hp Ho Hct Hfr Hrp Hrf].
  destruct (valid_page_entry p Hpv) as (Hpr & Hpm & _).
  assert (clear_flag PTE_C (ld32 (memory k2) (t + 4 * PTX va)) = V2P p + 7) as Hcl.
  { rewrite (pte_at Hi Hua Ht), Hp. unfold clear_flag. by rewrite clear_entry. }
  assert (0 <= V2P p + 7 < 2 ^ 32) as Hx by (unfold PGSIZE in *; Z.div_mod_to_equations; lia).
  destruct (set_pte _ _ _ _ _ _ _ Hi Hua Ht Hx) as (Hpt3 & Hp3 & Ho3 & Hf3).
  change (0 <? 0) with false. cbv iota. apply wp_bind, wp_modify. rewrite Hcl.
  set (k3 := set_memory (st32 (t + 4 * PTX va) (V2P p + 7) (memory k2)) k2) in *.
  apply wp_bind. assert (refs k3 q = refs k q) as Hrq by (by apply Hrf).
  eapply wp_eq.
  { apply dec_ref_pa_eq; [done| |].
    - by destruct (ki_locks _ _ (pt_kinv _ _ _ _ Hpt3)).
    - fold (refs k3 q). rewrite s32_id; lia. }
  fold (refs k3 q). rewrite Hrq, s32_id by lia. apply wp_ret. split; [done|].
  by eapply (cow_finish p fl0 t m' k2).
Qed.

Lemma frame_not_pt v a : valid_page v -> ~ pt_page pgdir T v -> v <= a < v + PGSIZE -> ~ pt_bytes pgdir T a.
Proof.
  intros Hv Hn Ha (u & Hu & Hau). destruct (pt_valid _ _ _ _ (as_pt _ _ _ _ Has) u Hu) as [Huv _].
  apply (pages_apart u v a Huv Hv); [by intros ->|done|done].
Qed.

(** Reads of [va'] only depend on its flags and the content of its frame. *)
Lemma uread_same m' va' e' :
  pte m' pgdir va' = e' -> flag PTE_P e' = flag PTE_P (pte (memory k) pgdir va') ->
  flag PTE_U e' = flag PTE_U (pte (memory k) pgdir va') ->
  (flag PTE_P e' = true -> forall i, 0 <= i < PGSIZE ->
     ld8 m' (frame_of e' + i) = ld8 (memory k) (frame_of (pte (memory k) pgdir va') + i)) ->
  uread m' pgdir va' = uread (memory k) pgdir va'.
Proof.
  intros He' Hp Hu Hc. unfold uread. rewrite He', <- Hp, <- Hu.
  destruct (flag PTE_P e'); [|done]. cbn [andb]. case_cond; [|done].
  f_equal. apply Hc; [done|apply page_offset].
Qed.

Lemma cow_last_as k' :
  pt_inv fl pgdir T k' -> pdata k' = pdata k ->
  pte (memory k') pgdir va = Z.lor (clear_flag PTE_C e) PTE_W ->
  (forall va', uaddr va' -> va' / PGSIZE <> va / PGSIZE ->
     pte (memory k') pgdir va' = pte (memory k) pgdir va') ->
  (forall a, ~ pt_bytes pgdir T a -> ld8 (memory k') a = ld8 (memory k) a) ->
  as_inv fl pgdir T k' /\ frame_of (pte (memory k') pgdir va) = q /\
  (forall va', user_va va' -> uread (memory k') pgdir va' = uread (memory k) pgdir va').
Proof.
  intros Hpt' Hpd Hp Ho Hfr. pose proof (user_va_addr va Hva) as Hua.
  destruct cow_frame as (Hqv & Hqf & Hqp & Hqr). destruct cow_entry as (f & He & Hf & _).
  assert (frame_of (pte (memory k') pgdir va) = q) as Hfq.
  { rewrite Hp, He. rewrite (frame_unshared q f Hqv Hf). symmetry. by apply frame_entry. }
  assert (forall v, refs k' v = refs k v) as Hrf by (intros v; unfold refs, page_entry; by rewrite Hpd).
  assert (forall va', user_va va' -> flag PTE_P (pte (memory k) pgdir va') = true ->
    forall i, 0 <= i < PGSIZE -> ~ pt_bytes pgdir T (frame_of (pte (memory k) pgdir va') + i)) as Hnp.
  { intros va' Hv' HP' i Hi. destruct (as_frames _ _ _ _ Has va' (user_va_addr va' Hv') (proj2 Hv') HP') as (Hv & _ & Hn & _).
    eapply frame_not_pt; [exact Hv|exact Hn|lia]. }
  split; [split; [done|]|split; [done|]].
  - intros va' Hva' Hu HP'. cbv zeta. destruct (decide (va' / PGSIZE = va / PGSIZE)) as [Es|Es].
    + rewrite (same_page va va' Hua Hva' Es), Hfq in *. by rewrite Hrf.
    + rewrite Ho in * by done. rewrite Hrf. by apply (as_frames _ _ _ _ Has).
  - intros va' Hv'. pose proof (user_va_addr va' Hv') as Hua'.
    destruct (decide (va' / PGSIZE = va / PGSIZE)) as [Es|Es].
    + pose proof (flags_unshared e) as (_ & _ & HfP & HfU).
      apply (uread_same _ _ (Z.lor (clear_flag PTE_C e) PTE_W)); rewrite ?(same_page va va' Hua Hua' Es); try done.
      intros _ i Hi. rewrite <- Hp, Hfq. apply Hfr. rewrite <- (same_page va va' Hua Hua' Es).
      apply (Hnp va' Hv'); [by rewrite (same_page va va' Hua Hua' Es)|done].
    + eapply uread_same; [by apply Ho|done|done|]. intros HP' i Hi. apply Hfr. by apply Hnp.
Qed.

Lemma cow_copy_as p fl0 k' :
  fl = p :: fl0 -> flag PTE_U e = true -> 1 < refs k q -> cow_copied p fl0 k' ->
  as_inv fl0 pgdir T k' /\ frame_of (pte (memory k') pgdir va) = p /\ p <> q /\
  (forall va', user_va va' -> uread (memory k') pgdir va' = uread (memory k) pgdir va').
Proof.
  intros Hfl HU Hr [Hpt' (Hpv & Hpf & Hnp) Hp Ho Hct Hfr Hrp Hrq Hrf].
  pose proof (user_va_addr va Hva) as Hua. destruct cow_frame as (Hqv & Hqf & Hqp & Hqr).
  assert (p <> q) as Hpq by (intros E; apply Hqf; rewrite <- E, Hfl; apply list_elem_of_here).
  assert (frame_of (pte (memory k') pgdir va) = p) as Hfp by (rewrite Hp; by apply frame_entry).
  assert (forall va', user_va va' -> flag PTE_P (pte (memory k) pgdir va') = true ->
    forall i, 0 <= i < PGSIZE ->
    ld8 (memory k') (frame_of (pte (memory k) pgdir va') + i) = ld8 (memory k) (frame_of (pte (memory k) pgdir va') + i)) as Hsame.
  { intros va' Hv' HP' i Hi.
    destruct (as_frames _ _ _ _ Has va' (user_va_addr va' Hv') (proj2 Hv') HP') as (Hv & Hnf & Hn & _).
    apply Hfr; [eapply frame_not_pt; [exact Hv|exact Hn|lia]|]. intros Hin.
    apply (pages_apart _ p _ Hv Hpv) in Hin; [done| |lia].
    intros E. apply Hnf. rewrite E, Hfl. apply list_elem_of_here. }
  split; [split; [done|]|split; [done|split; [done|]]].
  - intros va' Hva' Hu HP'. cbv zeta. destruct (decide (va' / PGSIZE = va / PGSIZE)) as [Es|Es].
    + rewrite (same_page va va' Hua Hva' Es), Hfp in *. split; [done|]. split; [done|]. split; [done|]. rewrite Hrp. lia.
    + rewrite Ho in * by done. destruct (as_frames _ _ _ _ Has va' Hva' Hu HP') as (Hv & Hn & Hnt & Hrv).
      split; [done|]. split; [intros Hin; apply Hn; rewrite Hfl; by apply list_elem_of_further|]. split; [done|].
      destruct (decide (frame_of (pte (memory k) pgdir va') = q)) as [->|Hne]; [rewrite Hrq; lia|].
      by rewrite Hrf.
  - intros va' Hv'. pose proof (user_va_addr va' Hv') as Hua'.
    destruct (decide (va' / PGSIZE = va / PGSIZE)) as [Es|Es].
    + apply (uread_same _ _ (V2P p + 7)); rewrite ?(same_page va va' Hua Hua' Es), ?flag_entry by done;
        [done|by rewrite HP|by rewrite HU|].
      intros _ i Hi. rewrite frame_entry by done. by apply Hct.
    + eapply uread_same; [by apply Ho|done|done|]. intros HP' i Hi. by apply Hsame.
Qed.
End Cow.

(** Two address spaces that share nothing but user frames. *)
Record separate (m : mem) (pgdir : Z) (T : gmap Z Z) (pgdir2 : Z) (T2 : gmap Z Z) : Prop := {
  sp_pt : forall v, pt_page pgdir2 T2 v -> ~ pt_page pgdir T v;
  sp_frames : forall va, user_va va -> flag PTE_P (pte m pgdir2 va) = true ->
    ~ pt_page pgdir T (frame_of (pte m pgdir2 va));
  sp_frames' : forall va, user_va va -> flag PTE_P (pte m pgdir va) = true ->
    ~ pt_page pgdir2 T2 (frame_of (pte m pgdir va))
}.

(** Nothing the second space can read lies in page [p] or in the first
    space's page table. *)
Lemma separate_reads fl pgdir T pgdir2 T2 k m' p :
  as_inv fl pgdir T k -> as_inv fl pgdir2 T2 k -> separate (memory k) pgdir T pgdir2 T2 ->
  valid_page p -> ~ pt_page pgdir2 T2 p ->
  (forall va, user_va va -> flag PTE_P (pte (memory k) pgdir2 va) = true ->
     frame_of (pte (memory k) pgdir2 va) <> p) ->
  (forall a, ~ pt_bytes pgdir T a -> ~ p <= a < p + PGSIZE -> ld8 m' a = ld8 (memory k) a) ->
  forall va, user_va va -> uread m' pgdir2 va = uread (memory k) pgdir2 va.
Proof.
  intros H1 H2 [Hpt Hf _] Hp Hnp Hnf Hfr.
  assert (forall v a, valid_page v -> ~ pt_page pgdir T v -> v <> p -> v <= a < v + PGSIZE ->
    ld8 m' a = ld8 (memory k) a) as Hpage.
  { intros v a Hv Hn Hne Ha. apply Hfr; [by eapply frame_not_pt|].
    intros Hin. by apply (pages_apart v p a Hv Hp Hne). }
  apply (uread_frame fl pgdir2 T2 k m' (as_pt _ _ _ _ H2)).
  intros a [(v & Hv & Ha)|(va & Hva & HP & Ha)].
  - destruct (pt_valid _ _ _ _ (as_pt _ _ _ _ H2) v Hv) as [Hvv _].
    apply (Hpage v a Hvv); [by apply Hpt|by intros ->|done].
  - destruct (as_frames _ _ _ _ H2 va (user_va_addr va Hva) (proj2 Hva) HP) as (Hvv & _).
    apply (Hpage _ a Hvv); [by apply Hf|by apply Hnf|done].
Qed.

(** Copy on write.  On a write fault to a present, shared user page
    [copy_on_write] returns 0 and leaves the faulting page writable, no
    longer marked copy-on-write, and owned by this address space alone;
    every byte the process can read through any of its mappings is what it
    was.  A frame with one reference is reused in place; otherwise the
    process gets a copy and the shared frame loses exactly one reference.
    With no free page it returns -1 and changes nothing. *)
Lemma copy_on_write_spec fl pgdir T k va :
  as_inv fl pgdir T k -> user_va va -> va mod PGSIZE = 0 ->
  flag PTE_P (pte (memory k) pgdir va) = true -> flag PTE_C (pte (memory k) pgdir va) = true ->
  flag PTE_U (pte (memory k) pgdir va) = true ->
  let q := frame_of (pte (memory k) pgdir va) in
  wp (copy_on_write va (pte_ptr (memory k) pgdir va) pgdir) (fun r k' =>
    let e' := pte (memory k') pgdir va in
    (r = -1 /\ k' = k /\ fl = [] /\ 1 < refs k q) \/
    (r = 0 /\ exists fl', as_inv fl' pgdir T k' /\
       flag PTE_P e' = true /\ flag PTE_U e' = true /\ flag PTE_W e' = true /\ flag PTE_C e' = false /\
       refs k' (frame_of e') = 1 /\
       (refs k q = 1 -> frame_of e' = q /\ fl' = fl) /\
       (1 < refs k q -> frame_of e' <> q /\ fl = frame_of e' :: fl' /\ refs k' q = refs k q - 1) /\
       (forall va', user_va va' -> uread (memory k') pgdir va' = uread (memory k) pgdir va') /\
       (forall v, valid_page v -> v ∉ fl -> v <> q -> refs k' v = refs k v) /\
       (forall a, ~ pt_bytes pgdir T a -> ~ in_pages fl a -> ld8 (memory k') a = ld8 (memory k) a))) k.
Proof.
  intros Has Hva Hal HP HC HU q.
  destruct (cow_frame Has Hva HP) as (Hqv & Hqf & Hqp & Hqr). fold q in Hqv, Hqf, Hqp, Hqr.
  destruct (decide (refs k q = 1)) as [Hr1|Hr1].
  - destruct (cow_last Has Hva HP Hr1) as (k' & E & Hlast). eapply wp_eq; [exact E|]. right.
    split; [done|]. exists fl. destruct Hlast as (Hpt' & Hpd & Hp & Ho & Hfr).
    destruct (cow_last_as Has Hva HP k' Hpt' Hpd Hp Ho Hfr) as (Has' & Hfq & Hrd).
    rewrite Hfq. fold q. rewrite Hp. pose proof (flags_unshared (pte (memory k) pgdir va)) as (-> & -> & -> & ->).
    assert (forall v, refs k' v = refs k v) as Hrs by (intros v; unfold refs, page_entry; by rewrite Hpd).
    assert (refs k' q = 1) by (by rewrite Hrs).
    repeat (split; [done|]). split; [lia|]. split; [done|]. split; [intros v _ _ _; apply Hrs|]. intros a Ha _. by apply Hfr.
  - assert (1 < refs k q) as Hr by lia. destruct fl as [|p fl0] eqn:Hfl.
    { eapply wp_eq; [by apply (cow_oom Has Hva HP Hr)|]. by left. }
    eapply wp_mono; [by eapply (cow_copy Has Hva Hal HP p fl0)|].
    intros r k' [-> Hc]. right. split; [done|]. exists fl0.
    destruct (cow_copy_as Has Hva HP p fl0 k' eq_refl HU Hr Hc) as (Has' & Hfp & Hpq & Hrd).
    destruct Hc as [_ (Hpv & _) Hp _ _ Hfr Hrp Hrq Hrs].
    rewrite Hfp, Hp, !flag_entry by done.
    do 6 (split; [done|]). split; [intros; lia|]. split; [done|]. split; [exact Hrd|]. split; [exact Hrs|].
    intros a Ha Hn. apply Hfr; [done|]. intros Hin. apply Hn. exists p. split; [apply list_elem_of_here|done].
Qed.

(** C4: fork isolation.  Two address spaces that share frames by
    copy-on-write stay isolated: after one of them has taken a write fault
    through [copy_on_write], no store it makes to the faulting page is
    visible to the other, whose view of its whole address space is
    unchanged.  The reference count of a frame both map is at least two. *)
Theorem cow_isolation fl pgdir T pgdir2 T2 k va :
  as_inv fl pgdir T k -> as_inv fl pgdir2 T2 k -> separate (memory k) pgdir T pgdir2 T2 ->
  user_va va -> va mod PGSIZE = 0 ->
  let q := frame_of (pte (memory k) pgdir va) in
  flag PTE_P (pte (memory k) pgdir va) = true -> flag PTE_C (pte (memory k) pgdir va) = true ->
  flag PTE_U (pte (memory k) pgdir va) = true ->
  (forall va2, user_va va2 -> flag PTE_P (pte (memory k) pgdir2 va2) = true ->
     frame_of (pte (memory k) pgdir2 va2) = q -> 1 < refs k q) ->
  wp (copy_on_write va (pte_ptr (memory k) pgdir va) pgdir) (fun r k' => r = 0 ->
    forall off b va2, 0 <= off < PGSIZE -> user_va va2 ->
      uread (st8 (frame_of (pte (memory k') pgdir va) + off) b (memory k')) pgdir2 va2
      = uread (memory k) pgdir2 va2) k.
Proof.
  intros H1 H2 Hsep Hva Hal q HP HC HU Hshare.
  destruct (cow_frame H1 Hva HP) as (Hqv & Hqf & Hqp & Hqr). fold q in Hqv, Hqf, Hqp, Hqr.
  assert (forall off b m a p, 0 <= off < PGSIZE -> ~ p <= a < p + PGSIZE -> ld8 (st8 (p + off) b m) a = ld8 m a) as Hst.
  { intros off b m a p Ho Ha. apply ld8_st8_ne. lia. }
  destruct (decide (refs k q = 1)) as [Hr1|Hr1].
  - destruct (cow_last H1 Hva HP Hr1) as (k' & E & Hpt' & Hpd & Hp & Ho & Hfr). eapply wp_eq; [exact E|].
    destruct (cow_last_as H1 Hva HP k' Hpt' Hpd Hp Ho Hfr) as (_ & Hfq & _).
    intros _ off b va2 Hoff Hva2. rewrite Hfq. fold q.
    apply (separate_reads fl pgdir T pgdir2 T2 k _ q); try done.
    + by apply (sp_frames' _ _ _ _ _ Hsep).
    + intros va3 Hva3 HP3 Eq. specialize (Hshare va3 Hva3 HP3 Eq). lia.
    + intros a Ha Hna. rewrite Hst by done. by apply Hfr.
  - assert (1 < refs k q) as Hr by lia. destruct fl as [|p fl0] eqn:Hfl.
    { eapply wp_eq; [by apply (cow_oom H1 Hva HP Hr)|]. done. }
    eapply wp_mono; [by eapply (cow_copy H1 Hva Hal HP p fl0)|].
    intros r k' [-> Hc] _ off b va2 Hoff Hva2.
    destruct (cow_copy_as H1 Hva HP p fl0 k' eq_refl HU Hr Hc) as (_ & Hfp & _ & _).
    rewrite Hfp. destruct Hc as [_ (Hpv & _) _ _ _ Hfr _ _ _].
    apply (separate_reads (p :: fl0) pgdir T pgdir2 T2 k _ p); try done.
    + intros Hin. destruct (pt_valid _ _ _ _ (as_pt _ _ _ _ H2) p Hin) as [_ Hn]. apply Hn, list_elem_of_here.
    + intros va3 Hva3 HP3 Eq.
      destruct (as_frames _ _ _ _ H2 va3 (user_va_addr va3 Hva3) (proj2 Hva3) HP3) as (_ & Hn & _).
      apply Hn. rewrite Eq. apply list_elem_of_here.
    + intros a Ha Hna. rewrite Hst by done. by apply Hfr.
Qed.
End Vm.

(** ** Concrete address spaces

    A page directory [D] with one page table [t], which maps the single user
    page at 0x1000 to the frame [q] with flags [f].  The entries of the two
    pages are checked by evaluation. *)

Record one_page (m : mem) (D t q f : Z) : Prop := {
  op_pde : ld32 m D = V2P t + 7;
  op_pdes : Forall (fun i => ld32 m (D + 4 * i) = 0) (seqZ 1 1023);
  op_pte : ld32 m (t + 4) = V2P q + f;
  op_ptes : Forall (fun j => j = 1 \/ ld32 m (t + 4 * j) = 0) (seqZ 0 1024)
}.

Lemma one_page_pte `{KernelImage} m D t q f va :
  one_page m D t q f -> valid_page t -> uaddr va ->
  pte m D va = if decide (va / PGSIZE = 1) then V2P q + f else 0.
Proof.
  intros [Hd Hds Hp Hps] Ht Hva. rewrite list.Forall_forall in Hds, Hps.
  pose proof (PDX_range va Hva) as HR1. pose proof (PTX_range va Hva) as HR2.
  pose proof (page_number va Hva) as En. unfold NPDENTRIES, NPTENTRIES in *.
  unfold pte, pte_ptr, pde_addr. destruct (decide (PDX va = 0)) as [E0|E0].
  - rewrite E0, Z.mul_0_r, Z.add_0_r, Hd, flag_entry by done.
    change (flag PTE_P 7) with true. cbv iota.
    destruct (valid_page_entry t Ht) as (Hr & Hm & HE & Hn).
    rewrite (PTE_ADDR_entry (V2P t) 7), HE by done.
    assert (t + 4 * PTX va =? NULL = false) as ->.
    { apply Z.eqb_neq. destruct Ht as (_ & Hlo & _). destruct kimage_ok as [Hk _].
      unfold NULL, KERNLINK, EXTMEM, KERNBASE in *. lia. }
    destruct (decide (va / PGSIZE = 1)) as [E1|E1]; [replace (PTX va) with 1 by lia; apply Hp|].
    destruct (Hps (PTX va)) as [E|E]; [apply elem_of_seqZ; lia|lia|done].
  - rewrite (Hds (PDX va)) by (apply elem_of_seqZ; lia). cbn. rewrite decide_False by lia. done.
Qed.

Lemma pt_page_singleton D t v : pt_page D {[0 := t]} v -> v = D \/ v = t.
Proof. intros [->|[i Hi]]; [by left|]. apply lookup_singleton_Some in Hi as [_ ->]. by right. Qed.

Lemma one_page_as `{KernelImage} fl k D t q f :
  kinv fl k -> one_page (memory k) D t q f -> valid_page D -> valid_page t -> valid_page q -> 0 <= f < PGSIZE ->
  NoDup (D :: t :: q :: fl) -> 1 <= refs k q < 2 ^ 31 ->
  as_inv fl D {[0 := t]} k.
Proof.
  intros Hk Hone HD Ht Hq Hf Hnd Hr. rewrite !list.NoDup_cons, !not_elem_of_cons in Hnd.
  destruct Hnd as ((HDt & HDq & HDfl) & (Htq & Htfl) & Hqfl & _).
  pose proof (pt_page_singleton D t) as Hpg.
  split; [split; [done| | | |]|].
  - intros v [-> | ->]%Hpg; done.
  - intros i t' [<- <-]%lookup_singleton_Some. split; [done|]. split; [done|].
    rewrite Z.mul_0_r, Z.add_0_r. apply Hone.
  - intros i Hi Hn. destruct (decide (i = 0)) as [->|Hi0]; [by rewrite lookup_singleton_eq in Hn|].
    pose proof (op_pdes _ _ _ _ _ Hone) as Hds. rewrite list.Forall_forall in Hds.
    rewrite Hds; [done|]. apply elem_of_seqZ. unfold NPDENTRIES in Hi. lia.
  - intros i j t' [<- _]%lookup_singleton_Some [<- _]%lookup_singleton_Some. done.
  - intros va Hva Hu. rewrite (one_page_pte _ _ _ _ _ va Hone Ht Hva).
    destruct (decide (va / PGSIZE = 1)) as [E|E]; [|done]. intros _. cbv zeta.
    rewrite frame_entry by done. split; [done|]. split; [done|]. split; [|done].
    intros [-> | ->]%Hpg; done.
Qed.

Lemma one_page_frame `{KernelImage} m D t q f va :
  one_page m D t q f -> valid_page t -> valid_page q -> 0 <= f < PGSIZE -> user_va va ->
  flag PTE_P (pte m D va) = true -> frame_of (pte m D va) = q.
Proof.
  intros Ho Ht Hq Hf Hva. rewrite (one_page_pte _ _ _ _ _ va Ho Ht (user_va_addr va Hva)).
  destruct (decide (va / PGSIZE = 1)); [|done]. intros _. by apply frame_entry.
Qed.

Lemma one_page_separate `{KernelImage} m D t D2 t2 q f :
  one_page m D t q f -> one_page m D2 t2 q f -> valid_page t -> valid_page t2 -> valid_page q -> 0 <= f < PGSIZE ->
  NoDup [D; t; D2; t2; q] -> separate m D {[0 := t]} D2 {[0 := t2]}.
Proof.
  intros H1 H2 Ht Ht2 Hq Hf Hnd. rewrite !list.NoDup_cons, !not_elem_of_cons in Hnd.
  destruct Hnd as ((? & ? & ? & ? & _) & (? & ? & ? & _) & (? & ? & _) & (? & _) & _).
  split.
  - intros v [-> | ->]%pt_page_singleton [E|E]%pt_page_singleton; congruence.
  - intros va Hva HP. rewrite (one_page_frame m D2 t2 q f) by done. intros [E|E]%pt_page_singleton; congruence.
  - intros va Hva HP. rewrite (one_page_frame m D t q f) by done. intros [E|E]%pt_page_singleton; congruence.
Qed.

(** Parent and child after a fork: both map frame 0x80304000, shared. *)
Definition demo_shared : kmem :=
  mk_kmem (st32 0x80303004 (0x304000 + 0x205) (st32 0x80302000 (0x303000 + 7)
           (st32 0x80301004 (0x304000 + 0x205) (st32 0x80300000 (0x301000 + 7) (memory demo_kmem)))))
    demo_p0 true true {[0x304 := mk_page_data 2 0]} ∅.

Lemma demo_shared_kinv : @kinv demo_image [demo_p0; demo_p1] demo_shared.
Proof. split; [vm_compute; done|compute_done|repeat constructor; compute_done|repeat constructor|split; apply not_elem_of_empty]. Qed.

Lemma demo_shared_parent : one_page (memory demo_shared) 0x80300000 0x80301000 0x80304000 0x205.
Proof. split; compute_done. Qed.
Lemma demo_shared_child : one_page (memory demo_shared) 0x80302000 0x80303000 0x80304000 0x205.
Proof. split; compute_done. Qed.

Lemma demo_shared_as D t :
  one_page (memory demo_shared) D t 0x80304000 0x205 -> @valid_page demo_image D -> @valid_page demo_image t ->
  NoDup [D; t; 0x80304000; demo_p0; demo_p1] -> @as_inv demo_image [demo_p0; demo_p1] D {[0 := t]} demo_shared.
Proof.
  intros Ho HD Ht Hnd. apply (@one_page_as demo_image _ _ _ _ 0x80304000 0x205); try done.
  apply demo_shared_kinv.
Qed.

Lemma cow_isolation_witness :
  exists r k', @copy_on_write demo_image 0x1000 0x80301004 0x80300000 demo_shared = Ok r k' /\
    (r = 0 -> forall off, 0 <= off < PGSIZE ->
       uread (st8 (frame_of (pte (memory k') 0x80300000 0x1000) + off) 42 (memory k')) 0x80302000 (0x1000 + off)
       = uread (memory demo_shared) 0x80302000 (0x1000 + off)).
Proof.
  pose proof (@cow_isolation demo_image [demo_p0; demo_p1] 0x80300000 {[0 := 0x80301000]} 0x80302000
    {[0 := 0x80303000]} demo_shared 0x1000
    (demo_shared_as 0x80300000 0x80301000 demo_shared_parent ltac:(unfold valid_page; compute_done)
       ltac:(unfold valid_page; compute_done) ltac:(compute_done))
    (demo_shared_as 0x80302000 0x80303000 demo_shared_child ltac:(unfold valid_page; compute_done)
       ltac:(unfold valid_page; compute_done) ltac:(compute_done))
    (@one_page_separate demo_image _ _ _ _ _ 0x80304000 0x205 demo_shared_parent demo_shared_child
       ltac:(unfold valid_page; compute_done) ltac:(unfold valid_page; compute_done)
       ltac:(unfold valid_page; compute_done) ltac:(compute_done) ltac:(compute_done))
    ltac:(unfold user_va; compute_done) ltac:(compute_done) ltac:(compute_done) ltac:(compute_done)
    ltac:(compute_done) ltac:(intros va2 _ _ _; compute_done)) as H.
  replace (pte_ptr (memory demo_shared) 0x80300000 0x1000) with 0x80301004 in H by (vm_compute; reflexivity).
  destruct (wp_elim _ _ _ H) as (r & k' & E & Q). exists r, k'. split; [exact E|].
  intros Hr off Hoff. apply (Q Hr off 42 (0x1000 + off) Hoff). unfold user_va, PGSIZE, KERNBASE in *. lia.
Defined.
