(* ===== verification/Uvm.v ===== *)
(** * User address spaces (vm.c)

    Building, copying, shrinking and freeing whole address spaces, and the
    page-fault handler.  These functions may reach the swap file, so they
    run over any kernel state that embeds the memory state and offers the
    two swap operations of fs.c ([Swap] provides them). *)

From S2P Require Import Prelude Layout Mem Kstring Kalloc Vm.

(** What fs.c offers to vm.c: bringing a swapped page back, and dropping
    one. *)
Class SwapOps (S : Type) := {
  swapread_file : Z -> Z -> M S unit;          (* la, pte *)
  swapfree_file : Z -> Z -> Z -> M S unit      (* va, la, pte *)
}.

Section Uvm.
Context `{KernelImage} {S : Type} `{Sub kmem S} `{SwapOps S}.

Definition load (a : Z) : M S Z := lift (gets (fun k => ld32 (memory k) a)).
Definition store (a v : Z) : M S unit := lift (mem_do (st32 a v)).

Fixpoint deallocuvm_loop (fuel : nat) (pgdir a oldsz : Z) : M S unit :=
  match fuel with
  | O => nofuel
  | Datatypes.S fuel' =>
      if negb (a <? oldsz) then kret tt
      else
        pte <- lift (walkpgdir pgdir a false) ;;
        a' <- (if pte =? NULL then kret (u32 (PGADDR (PDX a + 1) 0 0 - PGSIZE))
               else
                 v <- load pte ;;
                 if flag PTE_P v then
                   let pa := PTE_ADDR v in
                   if pa =? NULL then panic "deallocuvm"
                   else lift (kfree (P2V pa)) ;;; store pte 0 ;;; kret a
                 else if flag PTE_S v then
                   let pa := PTE_ADDR v in
                   if pa =? NULL then panic "deallocuvm"
                   else swapfree_file (P2V pa) a pte ;;; store pte 0 ;;; kret a
                 else kret a) ;;
        deallocuvm_loop fuel' pgdir (u32 (a' + PGSIZE)) oldsz
  end.

Definition deallocuvm (pgdir oldsz newsz : Z) : M S Z :=
  if oldsz <=? newsz then kret oldsz
  else
    deallocuvm_loop (Datatypes.S (Z.to_nat (oldsz / PGSIZE + 1))) pgdir (PGROUNDUP newsz) oldsz ;;;
    kret newsz.

(** The loop of [freevm] over the page directory. *)
Fixpoint freevm_loop (n : nat) (pgdir i : Z) : M S unit :=
  match n with
  | O => kret tt
  | Datatypes.S n' =>
      pde <- load (pgdir + 4 * i) ;;
      (when flag PTE_P pde do lift (kfree (P2V (PTE_ADDR pde)))) ;;;
      freevm_loop n' pgdir (i + 1)
  end.

Definition freevm (pgdir : Z) : M S unit :=
  if pgdir =? NULL then panic "freevm: no pgdir"
  else
    deallocuvm pgdir KERNBASE 0 ;;;
    freevm_loop (Z.to_nat NPDENTRIES) pgdir 0 ;;;
    lift (kfree pgdir).

(** One line of the table of kernel mappings. *)
Record kmap_entry := mk_kmap { km_virt : Z; km_start : Z; km_end : Z; km_perm : Z }.

Definition kmap : list kmap_entry :=
  [ mk_kmap KERNBASE 0 EXTMEM PTE_W;
    mk_kmap KERNLINK (V2P KERNLINK) (V2P kdata) 0;
    mk_kmap kdata (V2P kdata) PHYSTOP PTE_W;
    mk_kmap DEVSPACE DEVSPACE 0 PTE_W ].

Fixpoint setupkvm_loop (ks : list kmap_entry) (pgdir : Z) : M S Z :=
  match ks with
  | [] => kret pgdir
  | e :: ks' =>
      r <- lift (mappages pgdir (km_virt e) (u32 (km_end e - km_start e)) (km_start e) (km_perm e)) ;;
      if r <? 0 then freevm pgdir ;;; kret 0
      else setupkvm_loop ks' pgdir
  end.

Definition setupkvm : M S Z :=
  pgdir <- lift kalloc ;;
  if pgdir =? NULL then kret 0
  else
    lift (mem_do (memset pgdir 0 PGSIZE)) ;;;
    if DEVSPACE <? P2V PHYSTOP then panic "PHYSTOP too high"
    else setupkvm_loop kmap pgdir.

Fixpoint allocuvm_loop (fuel : nat) (pgdir a oldsz newsz : Z) : M S Z :=
  match fuel with
  | O => nofuel
  | Datatypes.S fuel' =>
      if negb (a <? newsz) then kret newsz
      else
        mem <- lift kalloc ;;
        if mem =? NULL then deallocuvm pgdir newsz oldsz ;;; kret 0
        else
          lift (mem_do (memset mem 0 PGSIZE)) ;;;
          r <- lift (mappages pgdir a PGSIZE (V2P mem) (Z.lor PTE_W PTE_U)) ;;
          if r <? 0 then deallocuvm pgdir newsz oldsz ;;; lift (kfree mem) ;;; kret 0
          else allocuvm_loop fuel' pgdir (u32 (a + PGSIZE)) oldsz newsz
  end.

Definition allocuvm (pgdir oldsz newsz : Z) : M S Z :=
  if KERNBASE <=? newsz then kret 0
  else if newsz <? oldsz then kret oldsz
  else allocuvm_loop (Datatypes.S (Z.to_nat (newsz / PGSIZE + 1))) pgdir (PGROUNDUP oldsz) oldsz newsz.

(** [swaprestore] ignores its page directory and always returns 0. *)
Definition swaprestore (va pte : Z) : M S Z := swapread_file va pte ;;; kret 0.

Fixpoint copyuvm_loop (fuel : nat) (pgdir d i sz : Z) : M S Z :=
  match fuel with
  | O => nofuel
  | Datatypes.S fuel' =>
      if negb (i <? sz) then kret d
      else
        pte <- lift (walkpgdir pgdir i false) ;;
        if pte =? NULL then panic "copyuvm: pte should exist"
        else
          v <- load pte ;;
          (when flag PTE_S v do (swaprestore i pte ;;; kret tt)) ;;;
          v <- load pte ;;
          if negb (flag PTE_P v) then copyuvm_loop fuel' pgdir d (u32 (i + PGSIZE)) sz
          else
            store pte (Z.lor (clear_flag PTE_W v) PTE_C) ;;;
            v <- load pte ;;
            let pa := PTE_ADDR v in
            let flags := PTE_FLAGS v in
            r <- lift (mappages d i PGSIZE pa flags) ;;
            if r <? 0 then freevm d ;;; kret 0
            else lift (inc_ref_pa pa) ;;; copyuvm_loop fuel' pgdir d (u32 (i + PGSIZE)) sz
  end.

Definition copyuvm (pgdir sz : Z) : M S Z :=
  d <- setupkvm ;;
  if d =? NULL then kret 0
  else copyuvm_loop (Datatypes.S (Z.to_nat (sz / PGSIZE + 1))) pgdir d PGSIZE sz.

(** [uva2ka]; reading through a null entry pointer is a fault. *)
Definition uva2ka (pgdir uva : Z) : M S Z :=
  pte <- lift (walkpgdir pgdir uva false) ;;
  if pte =? NULL then fault "uva2ka: *pte"
  else
    v <- load pte ;;
    if negb (flag PTE_P v) then kret NULL
    else if negb (flag PTE_U v) then kret NULL
    else
      r <- (if flag PTE_S v then swaprestore uva pte else kret 0) ;;
      if r <? 0 then kret NULL
      else
        v <- load pte ;;
        r <- (if flag PTE_C v then lift (copy_on_write uva pte pgdir) else kret 0) ;;
        if r <? 0 then kret NULL
        else v <- load pte ;; kret (P2V (PTE_ADDR v)).

(** [copyout]; [data] holds the [len] bytes at [p]. *)
Fixpoint copyout_loop (fuel : nat) (pgdir va : Z) (data : list Z) : M S Z :=
  match fuel with
  | O => nofuel
  | Datatypes.S fuel' =>
      let len := Z.of_nat (length data) in
      if negb (0 <? len) then kret 0
      else
        let va0 := PGROUNDDOWN va in
        pa0 <- uva2ka pgdir va0 ;;
        if pa0 =? NULL then kret (-1)
        else
          let n := u32 (PGSIZE - u32 (va - va0)) in
          let n := Z.to_nat (if len <? n then len else n) in
          lift (mem_do (store_bytes (pa0 + (va - va0)) (take n data))) ;;;
          copyout_loop fuel' pgdir (u32 (va0 + PGSIZE)) (drop n data)
  end.

Definition copyout (pgdir va : Z) (data : list Z) : M S Z :=
  copyout_loop (Datatypes.S (length data)) pgdir va data.

(** [handle_pagefault(addr, err)]; [pgdir] and [sz] are those of myproc(). *)
Definition handle_pagefault (pgdir sz addr err : Z) : M S Z :=
  let va := PGROUNDDOWN addr in
  if va =? NULL then kret (-1)
  else if KERNBASE <=? va then kret (-1)
  else if sz <? va then kret (-1)
  else
    pte <- lift (walkpgdir pgdir va false) ;;
    if pte =? NULL then lift (lazyalloc va pgdir)
    else
      v <- load pte ;;
      result <- (if flag PTE_S v then r <- swaprestore va pte ;; kret (Z.max (-1) r) else kret (-1)) ;;
      v <- load pte ;;
      result <- (if flag PTE_C v && flag PTE_W err
                 then r <- lift (copy_on_write va pte pgdir) ;; kret (Z.max result r) else kret result) ;;
      if negb (result =? 0) then lift (lazyalloc va pgdir) else kret result.

(** ** Runs of pages *)

Fixpoint run (a : Z) (n : nat) : list Z :=
  match n with
  | O => []
  | Datatypes.S n' => a :: run (a + PGSIZE) n'
  end.

Lemma run_app a n m : run a (n + m) = run a n ++ run (a + PGSIZE * Z.of_nat n) m.
Proof.
  revert a. induction n as [|n IH]; intros a; cbn [run Nat.add app].
  - f_equal. lia.
  - rewrite IH. do 2 f_equal. f_equal. lia.
Qed.

Lemma elem_of_run a n x :
  x ∈ run a n <-> exists i, (i < n)%nat /\ x = a + PGSIZE * Z.of_nat i.
Proof.
  revert a. induction n as [|n IH]; intros a; cbn [run].
  - rewrite elem_of_nil. split; [done|]. intros (i & ? & _). lia.
  - rewrite elem_of_cons, IH. split.
    + intros [->|(i & Hi & ->)]; [exists 0%nat|exists (Datatypes.S i)]; (split; [lia|]); lia.
    + intros ([|i] & Hi & ->); [left; lia|right; exists i; split; [lia|]; lia].
Qed.

(** The frame an entry maps, if it is present. *)
Definition frame_at (m : mem) (pgdir va : Z) : option Z :=
  let e := pte m pgdir va in if flag PTE_P e then Some (frame_of e) else None.
Definition frames (m : mem) (pgdir : Z) (pages : list Z) : list Z := omap (frame_at m pgdir) pages.

Lemma frames_app m pgdir l1 l2 : frames m pgdir (l1 ++ l2) = frames m pgdir l1 ++ frames m pgdir l2.
Proof. apply omap_app. Qed.

Lemma frames_cons m pgdir a l :
  frames m pgdir (a :: l) =
  (if flag PTE_P (pte m pgdir a) then [frame_of (pte m pgdir a)] else []) ++ frames m pgdir l.
Proof. unfold frames, frame_at. cbn [omap list_omap]. by destruct (flag PTE_P (pte m pgdir a)). Qed.

Lemma frames_ext m m' pgdir l :
  (forall va, va ∈ l -> pte m' pgdir va = pte m pgdir va) -> frames m' pgdir l = frames m pgdir l.
Proof.
  intros Hext. induction l as [|a l IH]; [done|].
  rewrite !frames_cons, Hext, IH; [done| |apply list_elem_of_here].
  intros va Hva. apply Hext. by apply list_elem_of_further.
Qed.

Lemma frames_none m pgdir l : (forall va, va ∈ l -> flag PTE_P (pte m pgdir va) = false) -> frames m pgdir l = [].
Proof.
  induction l as [|a l IH]; [done|]. intros Hn. rewrite frames_cons.
  rewrite (Hn a (list_elem_of_here _ _)). apply IH. intros va Hva. apply Hn. by apply list_elem_of_further.
Qed.

Definition occ (v : Z) (l : list Z) : Z := Z.of_nat (length (filter (fun x => x = v) l)).

Lemma occ_cons v x l : occ v (x :: l) = (if decide (x = v) then 1 else 0) + occ v l.
Proof. unfold occ. rewrite filter_cons. case_decide; simpl; lia. Qed.

Lemma occ_nonneg v l : 0 <= occ v l.
Proof. unfold occ. lia. Qed.

Lemma occ_zero v l : occ v l = 0 <-> v ∉ l.
Proof.
  induction l as [|x l IH]; [unfold occ; simpl; set_solver|].
  rewrite occ_cons, not_elem_of_cons. pose proof (occ_nonneg v l). case_decide; naive_solver lia.
Qed.

(** ** Freeing user pages *)

(** The pages of the list are mapped to counted frames or not at all. *)
Record freeable (fl : list Z) (pgdir : Z) (T : gmap Z Z) (k : kmem) (pages : list Z) : Prop := {
  fr_pt : pt_inv fl pgdir T k;
  fr_user : forall va, va ∈ pages -> user_va va /\ va mod PGSIZE = 0;
  fr_frames : forall q, q ∈ frames (memory k) pgdir pages ->
    valid_page q /\ q ∉ fl /\ ~ pt_page pgdir T q /\ occ q (frames (memory k) pgdir pages) <= refs k q < 2 ^ 31;
  fr_noswap : forall va, va ∈ pages -> flag PTE_S (pte (memory k) pgdir va) = false
}.

(** Every reference held through the pages [pages] is given back, and
    frames without references are free. *)
Record freed (fl : list Z) (pgdir : Z) (T : gmap Z Z) (k : kmem) (pages : list Z)
    (fl' : list Z) (k' : kmem) : Prop := {
  fd_pt : pt_inv fl' pgdir T k';
  fd_pages : forall va, va ∈ pages ->
    pte (memory k') pgdir va = if flag PTE_P (pte (memory k) pgdir va) then 0 else pte (memory k) pgdir va;
  fd_other : forall va, uaddr va -> (forall p, p ∈ pages -> va / PGSIZE <> p / PGSIZE) ->
    pte (memory k') pgdir va = pte (memory k) pgdir va;
  fd_refs : forall v, valid_page v -> refs k' v = refs k v - occ v (frames (memory k) pgdir pages);
  fd_free : forall v, v ∈ fl' <-> v ∈ fl \/
    (v ∈ frames (memory k) pgdir pages /\ refs k v = occ v (frames (memory k) pgdir pages));
  fd_frame : forall a, ~ pt_bytes pgdir T a -> (forall v, v ∈ fl' -> v ∉ fl -> ~ v <= a < v + PGSIZE) ->
    ld8 (memory k') a = ld8 (memory k) a
}.

Lemma freed_nil fl pgdir T k : pt_inv fl pgdir T k -> freed fl pgdir T k [] fl k.
Proof.
  intros Hpt. split; try done.
  - intros va Hva. by apply elem_of_nil in Hva.
  - intros v _. unfold frames, occ. simpl. lia.
  - intros v. unfold frames. simpl. rewrite elem_of_nil. tauto.
Qed.

(** Unmapping one present page. *)
Definition unmap (pgdir a : Z) (k : kmem) : kmem :=
  let k1 := kfree_state (frame_of (pte (memory k) pgdir a)) k in
  set_memory (st32 (pte_ptr (memory k) pgdir a) 0 (memory k1)) k1.

Lemma unmap_freed fl pgdir T k a pages :
  freeable fl pgdir T k (a :: pages) -> flag PTE_P (pte (memory k) pgdir a) = true ->
  exists fl1, freed fl pgdir T k [a] fl1 (unmap pgdir a k).
Proof.
  intros [Hpt Hu Hf Hns] HP. destruct (Hu a (list_elem_of_here _ _)) as [Hua Hal].
  pose proof (user_va_addr a Hua) as Haa. set (q := frame_of (pte (memory k) pgdir a)) in *.
  assert (frames (memory k) pgdir (a :: pages) = q :: frames (memory k) pgdir pages) as Hfr.
  { by rewrite frames_cons, HP. }
  destruct (Hf q) as (Hqv & Hqf & Hqp & Hqr); [rewrite Hfr; apply list_elem_of_here|].
  rewrite Hfr, occ_cons, decide_True in Hqr by done. pose proof (occ_nonneg q (frames (memory k) pgdir pages)).
  assert (exists fl1, kinv fl1 (kfree_state q k) /\ forall v, v ∈ fl1 <-> v ∈ fl \/ (v = q /\ refs k q = 1))
    as (fl1 & Hk1 & Hfl1).
  { destruct (decide (refs k q = 1)) as [Hr|Hr].
    - exists (q :: fl). split; [apply kfree_inv_last; [by eapply pt_kinv|done|done|lia]|].
      intros v. rewrite elem_of_cons. clear -Hr. naive_solver.
    - exists fl. split; [apply kfree_inv_shared; [by eapply pt_kinv|done|lia]|]. clear -Hr. naive_solver. }
  assert (T !! PDX a <> None) as HT.
  { intros Ht. revert HP. by rewrite (proj2 (pte_none Hpt a Haa Ht)). }
  destruct (T !! PDX a) as [t|] eqn:Ht; [|done]. clear HT.
  assert (forall x, pt_bytes pgdir T x -> ld8 (memory (kfree_state q k)) x = ld8 (memory k) x) as Hptb.
  { intros x (v & Hv & Hx). apply kfree_state_frame. intros Hin.
    destruct (pt_valid _ _ _ _ Hpt v Hv) as [Hvv _].
    by apply (pages_apart v q x Hvv Hqv) in Hin; [|intros ->|]. }
  assert (pt_inv fl1 pgdir T (kfree_state q k)) as Hpt1.
  { apply (pt_inv_frame Hpt); [done| |done]. intros v Hv. rewrite Hfl1. intros [Hin|[-> _]]; [|done].
    by destruct (pt_valid _ _ _ _ Hpt v Hv). }
  exists fl1. unfold unmap. fold q. rewrite (pte_ptr_some Hpt a t Haa Ht).
  destruct (set_pte _ _ _ _ _ _ 0 Hpt1 Haa Ht) as (Hpt2 & Hp2 & Ho2 & Hf2); [lia|].
  assert (frames (memory k) pgdir [a] = [q]) as Hq1.
  { by rewrite frames_cons, HP. }
  split; rewrite ?Hq1; [exact Hpt2| | | | |].
  - intros va Hva. apply list_elem_of_singleton in Hva as ->. by rewrite HP.
  - intros va Hva Hne. rewrite Ho2; [|done|apply Hne, list_elem_of_here].
    apply (pte_frame Hpt); done.
  - intros v Hv. change (refs (set_memory _ ?x) v) with (refs x v).
    rewrite refs_kfree_state by (done || lia). rewrite occ_cons. change (occ v []) with 0. case_decide; subst; lia.
  - intros v. rewrite Hfl1, list_elem_of_singleton. split.
    + intros [?|[-> Hr]]; [by left|right]. split; [done|]. rewrite occ_cons, decide_True by done. unfold occ. simpl. lia.
    + intros [?|[-> Hr]]; [by left|right]. split; [done|]. rewrite occ_cons, decide_True in Hr by done. unfold occ in Hr. simpl in Hr. lia.
  - intros x Hx Hn. rewrite Hf2.
    + destruct (decide (refs k q = 1)) as [Hr|Hr].
      * apply kfree_state_frame. apply Hn; [rewrite Hfl1; by right|done].
      * rewrite kfree_state_shared by lia. done.
    + intros Hin. apply Hx. exists t. split; [right; eauto|done].
Qed.

Lemma occ_app v l1 l2 : occ v (l1 ++ l2) = occ v l1 + occ v l2.
Proof. unfold occ. rewrite list.filter_app, length_app. lia. Qed.

Lemma occ_pos v l : v ∈ l -> 1 <= occ v l.
Proof.
  intros Hin. pose proof (occ_nonneg v l). destruct (decide (occ v l = 0)) as [E|]; [|lia].
  by apply occ_zero in E.
Qed.

Definition page_distinct (l1 l2 : list Z) : Prop :=
  forall a b, a ∈ l1 -> b ∈ l2 -> a / PGSIZE <> b / PGSIZE.

Section Compose.
Context {fl : list Z} {pgdir : Z} {T : gmap Z Z} {k : kmem} {l1 l2 : list Z} {fl1 : list Z} {k1 : kmem}.
Context (Hable : freeable fl pgdir T k (l1 ++ l2)) (Hone : freed fl pgdir T k l1 fl1 k1).
Context (Hdist : page_distinct l1 l2).

Lemma freed_frames : frames (memory k1) pgdir l2 = frames (memory k) pgdir l2.
Proof.
  apply frames_ext. intros va Hva. apply (fd_other _ _ _ _ _ _ _ Hone).
  - apply user_va_addr. apply (fr_user _ _ _ _ _ Hable). rewrite elem_of_app. by right.
  - intros p Hp E. by apply (Hdist p va Hp Hva).
Qed.

Lemma freeable_rest : freeable fl1 pgdir T k1 l2.
Proof.
  destruct Hable as [Hpt Hu Hf Hns]. destruct Hone as [Hpt1 Hp1 Ho1 Hr1 Hf1 _].
  split; [done| | |].
  - intros va Hva. apply Hu. rewrite elem_of_app. by right.
  - rewrite freed_frames. intros q Hq. rewrite frames_app in Hf.
    destruct (Hf q) as (Hv & Hn & Hnp & Hr); [rewrite elem_of_app; by right|].
    rewrite occ_app in Hr. pose proof (occ_nonneg q (frames (memory k) pgdir l1)).
    pose proof (occ_pos _ _ Hq). split; [done|]. split; [|split; [done|rewrite Hr1 by done; lia]].
    rewrite Hf1. intros [?|[_ E]]; [done|lia].
  - intros va Hva. rewrite Ho1.
    + apply Hns. rewrite elem_of_app. by right.
    + apply user_va_addr, Hu. rewrite elem_of_app. by right.
    + intros p Hp E. by apply (Hdist p va Hp Hva).
Qed.

Lemma freed_app fl2 k2 : freed fl1 pgdir T k1 l2 fl2 k2 -> freed fl pgdir T k (l1 ++ l2) fl2 k2.
Proof.
  intros [Hpt2 Hp2 Ho2 Hr2 Hf2 Hfr2]. rewrite freed_frames in Hr2, Hf2.
  destruct Hone as [Hpt1 Hp1 Ho1 Hr1 Hf1 Hfr1].
  assert (forall va, va ∈ l1 ++ l2 -> uaddr va) as Hua.
  { intros va Hva. by apply user_va_addr, (fr_user _ _ _ _ _ Hable). }
  assert (forall v, v ∈ frames (memory k) pgdir l2 -> valid_page v) as Hv2.
  { intros v Hv. apply (fr_frames _ _ _ _ _ Hable). rewrite frames_app, elem_of_app. by right. }
  split; rewrite ?frames_app; [done| | | | |].
  - intros va. rewrite elem_of_app. intros [Hva|Hva].
    + rewrite Ho2; [by apply Hp1|apply Hua; rewrite elem_of_app; by left|]. intros p Hp. by apply Hdist.
    + rewrite Hp2, Ho1; [done|apply Hua; rewrite elem_of_app; by right| |done]. intros p Hp E. by apply (Hdist p va Hp Hva).
  - intros va Hva Hn. rewrite Ho2, Ho1; [done|done| |done|];
      intros p Hp; apply Hn; rewrite elem_of_app; [by left|by right].
  - intros v Hv. rewrite Hr2, Hr1 by done. rewrite occ_app. lia.
  - intros v. rewrite Hf2, Hf1, elem_of_app, occ_app. split.
    + intros [[Hin|[Hin Hr]]|[Hin Hr]]; [by left|right..].
      * split; [by left|]. assert (occ v (frames (memory k) pgdir l2) = 0); [|lia].
        apply occ_zero. intros Hin2.
        destruct (fr_frames _ _ _ _ _ Hable v) as (_ & _ & _ & Hle);
          [rewrite frames_app, elem_of_app; by left|].
        rewrite frames_app, occ_app in Hle. pose proof (occ_pos _ _ Hin2). lia.
      * split; [by right|]. rewrite Hr1 in Hr by auto. lia.
    + intros [Hin|[Hin Hr]]; [tauto|].
      destruct (decide (v ∈ frames (memory k) pgdir l2)) as [H2|H2].
      * right. split; [done|]. rewrite Hr1 by auto. lia.
      * left. right. split; [tauto|]. apply occ_zero in H2. lia.
  - intros x Hx Hn. rewrite Hfr2; [apply Hfr1; [done|]|done|].
    + intros v Hv Hvn. apply Hn; [apply Hf2; by left|done].
    + intros v Hv Hvn. apply Hn; [done|]. intros Hin. apply Hvn, Hf1. by left.
Qed.
End Compose.

Lemma freed_skip fl pgdir T k pages :
  pt_inv fl pgdir T k -> (forall va, va ∈ pages -> flag PTE_P (pte (memory k) pgdir va) = false) ->
  freed fl pgdir T k pages fl k.
Proof.
  intros Hpt Hn. split; rewrite ?frames_none by done; try done.
  - intros va Hva. by rewrite Hn.
  - intros v _. unfold occ. simpl. lia.
  - intros v. rewrite elem_of_nil. tauto.
Qed.

(** ** The loop of deallocuvm *)

Lemma wp_load a (Q : Z -> S -> Prop) s : Q (ld32 (memory (sub_get s)) a) s -> wp (load a) Q s.
Proof. intros HQ. apply wp_lift, wp_gets. by rewrite sub_put_get. Qed.

Lemma wp_store a v (Q : unit -> S -> Prop) s :
  Q tt (sub_put (set_memory (st32 a v (memory (sub_get s))) (sub_get s)) s) -> wp (store a v) Q s.
Proof. intros HQ. by apply wp_lift, wp_modify. Qed.

Lemma wp_lift_eq {A} (c : M kmem A) (Q : A -> S -> Prop) s a k' :
  c (sub_get s) = Ok a k' -> Q a (sub_put k' s) -> wp (lift c) Q s.
Proof. intros E HQ. apply wp_lift. by eapply wp_eq. Qed.

Lemma run_distinct a n : a mod PGSIZE = 0 -> page_distinct [a] (run (a + PGSIZE) n).
Proof.
  intros Ha x y Hx Hy. apply list_elem_of_singleton in Hx as ->.
  apply elem_of_run in Hy as (i & _ & ->). unfold PGSIZE in *. Z.div_mod_to_equations. lia.
Qed.

Lemma PGADDR_next a : user_va a -> a mod PGSIZE = 0 ->
  exists j, (0 < j)%nat /\ u32 (u32 (PGADDR (PDX a + 1) 0 0 - PGSIZE) + PGSIZE) = a + PGSIZE * Z.of_nat j /\
    a + PGSIZE * Z.of_nat j <= KERNBASE /\
    forall i, (i < j)%nat -> PDX (a + PGSIZE * Z.of_nat i) = PDX a.
Proof.
  intros Hua Hal. pose proof (user_va_addr a Hua) as Haa.
  assert (PGADDR (PDX a + 1) 0 0 = (a / 2 ^ 22 + 1) * 2 ^ 22) as ->.
  { unfold PGADDR. rewrite PDX_val by done. change (Z.shiftl 0 PTXSHIFT) with 0. rewrite !Z.lor_0_r.
    unfold PDXSHIFT. rewrite Z.shiftl_mul_pow2 by lia. apply u32_id.
    unfold user_va, KERNBASE in Hua. Z.div_mod_to_equations. lia. }
  unfold user_va, KERNBASE in Hua. set (b := (a / 2 ^ 22 + 1) * 2 ^ 22).
  assert (a < b <= 2 ^ 31 /\ b mod PGSIZE = 0 /\ b - 2 ^ 22 <= a) as (Hb & Hbm & Hlo).
  { unfold b, PGSIZE. Z.div_mod_to_equations. lia. }
  exists (Z.to_nat ((b - a) / PGSIZE)).
  assert (PGSIZE * ((b - a) / PGSIZE) = b - a /\ 0 < (b - a) / PGSIZE) as [Hj Hj0].
  { unfold PGSIZE in *. Z.div_mod_to_equations. lia. }
  split; [lia|]. rewrite Z2Nat.id by lia. rewrite Hj.
  split; [rewrite u32_add_l, u32_id; unfold PGSIZE in *; lia|]. split; [unfold KERNBASE; lia|].
  intros i Hi. assert (0 <= PGSIZE * Z.of_nat i < b - a).
  { rewrite <- Hj. set (x := (b - a) / PGSIZE) in *. unfold PGSIZE. lia. }
  rewrite !PDX_val; [|done|unfold uaddr; lia]. unfold b in *. Z.div_mod_to_equations. lia.
Qed.

Definition upto (a : Z) (n : nat) (oldsz : Z) : Prop :=
  (n = 0%nat /\ oldsz <= a) \/
  ((0 < n)%nat /\ a + PGSIZE * (Z.of_nat n - 1) < oldsz <= a + PGSIZE * Z.of_nat n).

Lemma freeable_frame fl pgdir T k a pages :
  freeable fl pgdir T k (a :: pages) -> flag PTE_P (pte (memory k) pgdir a) = true ->
  let q := frame_of (pte (memory k) pgdir a) in valid_page q /\ 0 <= refs k q < 2 ^ 31.
Proof.
  intros Hable HP q. destruct (fr_frames _ _ _ _ _ Hable q) as (Hv & _ & _ & Hr).
  - rewrite frames_cons, HP. apply list_elem_of_here.
  - pose proof (occ_nonneg q (frames (memory k) pgdir (a :: pages))). split; [done|lia].
Qed.

(** The branch of the loop for a present page. *)
Lemma unmap_exec fl pgdir T s a pages t :
  freeable fl pgdir T (sub_get s) (a :: pages) -> T !! PDX a = Some t ->
  flag PTE_P (pte (memory (sub_get s)) pgdir a) = true ->
  wp (if PTE_ADDR (pte (memory (sub_get s)) pgdir a) =? NULL then panic "deallocuvm"
      else lift (kfree (P2V (PTE_ADDR (pte (memory (sub_get s)) pgdir a)))) ;;; store (t + 4 * PTX a) 0 ;;; kret a)
    (fun r s' => r = a /\ s' = sub_put (unmap pgdir a (sub_get s)) s) s.
Proof.
  intros Hable Ht HP. destruct (fr_user _ _ _ _ _ Hable a (list_elem_of_here _ _)) as [Hua _].
  pose proof (fr_pt _ _ _ _ _ Hable) as Hpt. pose proof (user_va_addr a Hua) as Haa.
  destruct (freeable_frame _ _ _ _ _ _ Hable HP) as [Hqv Hqr].
  rewrite (frame_addr _ (pte_range _ _ _)). set (q := frame_of (pte (memory (sub_get s)) pgdir a)) in *.
  destruct (valid_page_entry q Hqv) as (_ & _ & HPV & _). destruct (valid_page_pa q Hqv) as [EV _].
  assert (V2P q <> NULL) as Hnn.
  { destruct Hqv as (_ & Hlo & _). destruct kimage_ok. unfold KERNLINK, EXTMEM, NULL in *. lia. }
  rewrite (proj2 (Z.eqb_neq _ _) Hnn), HPV.
  destruct (ki_locks _ _ (pt_kinv _ _ _ _ Hpt)) as [Hl1 Hl2].
  apply wp_bind. eapply wp_lift_eq; [by apply kfree_eq|].
  apply wp_bind, wp_store, wp_ret. split; [done|].
  rewrite sub_get_put, sub_put_put. unfold unmap. fold q. by rewrite (pte_ptr_some Hpt a t Haa Ht).
Qed.

Lemma run_split a n j : exists m l1, run a n = l1 ++ run (a + PGSIZE * Z.of_nat j) m /\ (m = n - j)%nat /\
  (forall x, x ∈ l1 -> exists i, (i < j)%nat /\ x = a + PGSIZE * Z.of_nat i).
Proof.
  exists (n - j)%nat, (run a (Nat.min n j)). destruct (le_lt_dec n j) as [Hle|Hlt].
  - replace (n - j)%nat with 0%nat by lia. rewrite Nat.min_l, app_nil_r by lia. split; [done|]. split; [done|].
    intros x. rewrite elem_of_run. intros (i & Hi & ->). exists i. split; [lia|done].
  - rewrite Nat.min_r by lia. split; [|split; [done|]].
    + rewrite <- run_app. f_equal. lia.
    + intros x. rewrite elem_of_run. intros (i & Hi & ->). eauto.
Qed.

Lemma deallocuvm_loop_correct pgdir T oldsz fuel : forall n fl a s,
  freeable fl pgdir T (sub_get s) (run a n) -> a mod PGSIZE = 0 -> 0 <= a ->
  oldsz <= KERNBASE -> upto a n oldsz -> (n < fuel)%nat ->
  wp (deallocuvm_loop fuel pgdir a oldsz) (fun _ s' => exists fl' k',
    s' = sub_put k' s /\ freed fl pgdir T (sub_get s) (run a n) fl' k') s.
Proof.
  induction fuel as [|fuel IH]; intros n fl a s Hable Hal Ha0 Hmax Hup Hfuel; [lia|].
  pose proof (fr_pt _ _ _ _ _ Hable) as Hpt. cbn [deallocuvm_loop].
  destruct (a <? oldsz) eqn:Ea; boolify; cbn [negb].
  2: { destruct Hup as [[-> _]|[? Hup]]; [|unfold PGSIZE in *; lia]. apply wp_ret.
       exists fl, (sub_get s). split; [by rewrite sub_put_get|]. by apply freed_nil. }
  destruct Hup as [[-> ?]|[Hn Hup]]; [lia|].
  assert (user_va a) as Hua by (unfold user_va; lia). pose proof (user_va_addr a Hua) as Haa.
  apply wp_bind. eapply wp_lift_eq; [by apply (walkpgdir_find Hpt)|]. rewrite sub_put_get.
  destruct (T !! PDX a) as [t|] eqn:Ht.
  - rewrite (pte_ptr_some Hpt a t Haa Ht), (proj2 (Z.eqb_neq _ _) (entry_nonnull Hpt a t Haa Ht)).
    destruct n as [|n]; [lia|]. cbn [run] in Hable |- *.
    assert (u32 (a + PGSIZE) = a + PGSIZE) as Enext by (apply u32_id; unfold KERNBASE, PGSIZE in *; lia).
    assert (upto (a + PGSIZE) n oldsz) as Hup'.
    { destruct n as [|n]; [left|right]; (split; [lia|]); unfold PGSIZE in *; lia. }
    change (a :: run (a + PGSIZE) n) with ([a] ++ run (a + PGSIZE) n) in Hable |- *.
    assert (forall fl1 k1, freed fl pgdir T (sub_get s) [a] fl1 k1 ->
      wp (deallocuvm_loop fuel pgdir (u32 (a + PGSIZE)) oldsz) (fun _ s' => exists fl' k',
        s' = sub_put k' s /\ freed fl pgdir T (sub_get s) ([a] ++ run (a + PGSIZE) n) fl' k') (sub_put k1 s)) as Hrest.
    { intros fl1 k1 Hone. rewrite Enext.
      pose proof (freeable_rest Hable Hone (run_distinct a n Hal)) as Hable'.
      eapply wp_mono; [apply (IH n fl1)|]; rewrite ?sub_get_put; try done; [|unfold PGSIZE; lia|lia|].
      { unfold PGSIZE in *. Z.div_mod_to_equations. lia. }
      intros [] s' (fl' & k' & -> & Hfd). exists fl', k'. rewrite sub_put_put. split; [done|].
      by eapply (freed_app Hable Hone (run_distinct a n Hal)). }
    apply wp_bind, wp_bind, wp_load. rewrite (pte_at Hpt Haa Ht).
    destruct (flag PTE_P (pte (memory (sub_get s)) pgdir a)) eqn:HP.
    + destruct (unmap_freed _ _ _ _ _ _ Hable HP) as (fl1 & Hone).
      eapply wp_mono; [by eapply unmap_exec|]. intros r s' [-> ->]. by apply Hrest with fl1.
    + rewrite (fr_noswap _ _ _ _ _ Hable a (list_elem_of_here _ _)). apply wp_ret.
      pose proof (Hrest fl (sub_get s)) as Hr. rewrite sub_put_get in Hr. apply Hr, freed_skip; [done|].
      intros va Hva. by apply list_elem_of_singleton in Hva as ->.
  - destruct (pte_none Hpt a Haa Ht) as [-> _]. cbn [Z.eqb NULL]. apply wp_bind, wp_ret.
    destruct (PGADDR_next a Hua Hal) as (j & Hj & -> & Hjk & Hsame).
    destruct (run_split a n j) as (m & l1 & Hrun & Hm & Hl1). rewrite Hrun in Hable |- *.
    assert (freed fl pgdir T (sub_get s) l1 fl (sub_get s)) as Hone.
    { apply freed_skip; [done|]. intros va Hva.
      assert (uaddr va) as Hvaa.
      { apply user_va_addr, (fr_user _ _ _ _ _ Hable). rewrite elem_of_app. by left. }
      apply Hl1 in Hva as (i & Hi & ->).
      by rewrite (proj2 (pte_none Hpt _ Hvaa ltac:(by rewrite Hsame))). }
    assert (page_distinct l1 (run (a + PGSIZE * Z.of_nat j) m)) as Hd.
    { intros x y Hx Hy. apply Hl1 in Hx as (i & Hi & ->). apply elem_of_run in Hy as (i' & _ & ->).
      unfold PGSIZE in *. Z.div_mod_to_equations. lia. }
    eapply wp_mono; [apply (IH m fl _ s)|].
    + by apply (freeable_rest Hable Hone Hd).
    + unfold PGSIZE in *. Z.div_mod_to_equations. lia.
    + unfold PGSIZE. lia.
    + done.
    + destruct (le_lt_dec n j); [left|right]; (split; [lia|]); unfold PGSIZE in *; lia.
    + lia.
    + intros [] s' (fl' & k' & -> & Hfd). exists fl', k'. split; [done|].
      by eapply (freed_app Hable Hone Hd).
Qed.

(** ** deallocuvm and freevm *)

(** The pages [deallocuvm] visits. *)
Definition npages (newsz oldsz : Z) : nat := Z.to_nat ((oldsz - PGROUNDUP newsz + PGSIZE - 1) / PGSIZE).
Definition upages (newsz oldsz : Z) : list Z := run (PGROUNDUP newsz) (npages newsz oldsz).

Lemma PGROUNDUP_facts x : 0 <= x <= KERNBASE ->
  x <= PGROUNDUP x < x + PGSIZE /\ PGROUNDUP x mod PGSIZE = 0 /\ 0 <= PGROUNDUP x <= KERNBASE.
Proof.
  intros Hx. rewrite PGROUNDUP_spec by (unfold KERNBASE, PGSIZE in *; lia).
  split; [unfold PGSIZE; Z.div_mod_to_equations; lia|]. split; [apply Z.mod_mul; done|].
  unfold KERNBASE, PGSIZE in *. Z.div_mod_to_equations. lia.
Qed.

Lemma npages_upto newsz oldsz : 0 <= newsz < oldsz -> oldsz <= KERNBASE ->
  upto (PGROUNDUP newsz) (npages newsz oldsz) oldsz /\ (npages newsz oldsz <= Z.to_nat (oldsz / PGSIZE + 1))%nat.
Proof.
  intros Hn Ho. destruct (PGROUNDUP_facts newsz) as (Hr & _ & _); [lia|].
  unfold upto, npages. set (a := PGROUNDUP newsz) in *. unfold PGSIZE in *.
  split; [|apply Z2Nat.inj_le; Z.div_mod_to_equations; lia].
  destruct (Z.le_gt_cases oldsz a).
  - left. split; [|done]. Z.div_mod_to_equations. lia.
  - right. rewrite Z2Nat.id; Z.div_mod_to_equations; lia.
Qed.

Lemma upages_user newsz oldsz va : 0 <= newsz <= KERNBASE -> oldsz <= KERNBASE ->
  va ∈ upages newsz oldsz -> user_va va /\ va mod PGSIZE = 0 /\ newsz <= va < oldsz.
Proof.
  intros Hn Ho Hva. destruct (PGROUNDUP_facts newsz Hn) as (Hr & Hm & Hp).
  apply elem_of_run in Hva as (i & Hi & ->). unfold npages in Hi. set (a := PGROUNDUP newsz) in *.
  unfold user_va, KERNBASE, PGSIZE in *. split; [|split]; Z.div_mod_to_equations; lia.
Qed.

Lemma deallocuvm_spec fl pgdir T s oldsz newsz :
  0 <= newsz < oldsz -> oldsz <= KERNBASE ->
  freeable fl pgdir T (sub_get s) (upages newsz oldsz) ->
  wp (deallocuvm pgdir oldsz newsz) (fun r s' => r = newsz /\ exists fl' k',
    s' = sub_put k' s /\ freed fl pgdir T (sub_get s) (upages newsz oldsz) fl' k') s.
Proof.
  intros Hn Ho Hable. destruct (npages_upto newsz oldsz Hn Ho) as [Hup Hlen].
  destruct (PGROUNDUP_facts newsz) as (_ & Hal & Hpos & _); [lia|].
  unfold deallocuvm. rewrite (proj2 (Z.leb_gt _ _)) by lia. apply wp_bind.
  eapply wp_mono; [eapply (deallocuvm_loop_correct _ _ _ _ (npages newsz oldsz)); try done; lia|].
  intros [] s' Hs. by apply wp_ret.
Qed.

Record tables_from (i : Z) (fl : list Z) (pgdir : Z) (T : gmap Z Z) (k : kmem) : Prop := {
  tf_kinv : kinv fl k;
  tf_pgdir : valid_page pgdir /\ pgdir ∉ fl;
  tf_tab : forall j t, i <= j -> T !! j = Some t -> valid_page t /\ t ∉ fl /\ t <> pgdir /\ refs k t = 1 /\
    j < NPDENTRIES /\ ld32 (memory k) (pgdir + 4 * j) = V2P t + 7;
  tf_abs : forall j, i <= j < NPDENTRIES -> T !! j = None -> flag PTE_P (ld32 (memory k) (pgdir + 4 * j)) = false;
  tf_inj : forall j j' t, T !! j = Some t -> T !! j' = Some t -> j = j'
}.

Lemma tables_step i t fl pgdir T k :
  tables_from i fl pgdir T k -> 0 <= i -> T !! i = Some t ->
  tables_from (i + 1) (t :: fl) pgdir T (kfree_state t k).
Proof.
  intros Htf Hi Hti. destruct (tf_tab _ _ _ _ _ Htf i t ltac:(lia) Hti) as (Htv & Htfl & Htg & Htr & _ & _).
  destruct Htf as [Hk [Hgv Hgf] Ht Ha Hinj].
  assert (forall j, 0 <= j < NPDENTRIES -> ld32 (memory (kfree_state t k)) (pgdir + 4 * j) = ld32 (memory k) (pgdir + 4 * j)) as Hpde.
  { intros j Hj. apply ld32_ext. intros b Hb. apply kfree_state_frame. intros Hin.
    apply (pages_apart pgdir t b Hgv Htv); [congruence| |done]. unfold NPDENTRIES, PGSIZE in *. lia. }
  split; [apply kfree_inv_last; try done; rewrite Htr; lia| | | |done].
  - split; [done|]. apply not_elem_of_cons. split; [congruence|done].
  - intros j u Hj Hu. destruct (Ht j u ltac:(lia) Hu) as (Huv & Huf & Hug & Hur & Hjb & Hld).
    assert (t <> u) as Htu by (intros ->; specialize (Hinj _ _ _ Hu Hti); lia).
    split; [done|]. split; [apply not_elem_of_cons; split; [congruence|done]|]. split; [done|].
    rewrite refs_kfree_state, decide_False, Hpde by (done || lia). done.
  - intros j Hj Hu. rewrite Hpde by lia. apply Ha; [lia|done].
Qed.

Lemma freevm_loop_correct pgdir T n : forall i fl s,
  tables_from i fl pgdir T (sub_get s) -> 0 <= i -> i + Z.of_nat n = NPDENTRIES ->
  wp (freevm_loop n pgdir i) (fun _ s' => exists fl' k', s' = sub_put k' s /\ kinv fl' k' /\
    (forall v, v ∈ fl' <-> v ∈ fl \/ exists j, i <= j /\ T !! j = Some v) /\
    (forall v, valid_page v -> refs k' v = if decide (v ∈ fl') then 0 else refs (sub_get s) v) /\
    (forall a, (forall v, v ∈ fl' -> v ∉ fl -> ~ v <= a < v + PGSIZE) ->
       ld8 (memory k') a = ld8 (memory (sub_get s)) a)) s.
Proof.
  induction n as [|n IH]; intros i fl s Htf Hi Hin; cbn [freevm_loop].
  - apply wp_ret. exists fl, (sub_get s). rewrite sub_put_get. destruct Htf as [Hk _ Ht _ _].
    split; [done|]. split; [done|]. split; [|split; [|done]].
    + intros v. split; [by left|]. intros [?|(j & Hj & Hjt)]; [done|].
      destruct (Ht j v Hj Hjt) as (_ & _ & _ & _ & Hjb & _). lia.
    + intros v Hv. case_decide as Hd; [|done]. pose proof (ki_free _ _ Hk) as Hf.
      rewrite list.Forall_forall in Hf. by apply Hf.
  - apply wp_bind, wp_load. destruct (T !! i) as [t|] eqn:Hti.
    + destruct (tf_tab _ _ _ _ _ Htf i t ltac:(lia) Hti) as (Htv & Htf' & Htg & Htr & _ & ->).
      destruct (pde_present t Htv) as [-> ->].
      pose proof (tf_kinv _ _ _ _ _ Htf) as Hk. destruct (ki_locks _ _ Hk) as [Hl1 Hl2].
      apply wp_bind. eapply wp_lift_eq; [apply kfree_eq; try done; rewrite Htr; lia|].
      assert (kinv (t :: fl) (kfree_state t (sub_get s))) as Hk' by (apply kfree_inv_last; try done; rewrite Htr; lia).
      eapply wp_mono; [apply (IH (i + 1) (t :: fl))|]; rewrite ?sub_get_put; [|lia|lia|].
      { by apply tables_step. }
      intros [] s' (fl' & k' & -> & Hk2 & Hfl' & Hr' & Hfr'). exists fl', k'. rewrite sub_put_put.
      assert (t ∈ fl') as Htin by (apply Hfl'; left; apply list_elem_of_here).
      split; [done|]. split; [done|]. split; [|split].
      * intros v. rewrite Hfl', elem_of_cons. split.
        -- intros [[->|?]|(j & ? & ?)]; [right; exists i; split; [lia|done]|by left|].
           right. exists j. split; [lia|done].
        -- intros [?|(j & Hj & Hjt)]; [left; by right|].
           destruct (decide (j = i)) as [->|]; [left; left; congruence|].
           right. exists j. split; [lia|done].
      * intros v Hv. rewrite Hr' by done. case_decide; [done|].
        rewrite refs_kfree_state, decide_False by (done || lia || by intros ->). done.
      * intros x Hx. rewrite Hfr'.
        -- apply kfree_state_frame. by apply Hx.
        -- intros v Hv Hn. apply not_elem_of_cons in Hn as [_ Hn]. by apply Hx.
    + rewrite (tf_abs _ _ _ _ _ Htf i); [|lia|done]. apply wp_bind, wp_ret.
      eapply wp_mono; [apply (IH (i + 1) fl); [|lia|lia]|].
      { destruct Htf as [H1' H2' H3' H4' H5']. split; try done; intros j; intros.
        - apply H3'; [lia|done].
        - apply H4'; [lia|done]. }
      intros [] s' (fl' & k' & -> & Hk2 & Hfl' & Hr' & Hfr'). exists fl', k'.
      split; [done|]. split; [done|]. split; [|done]. intros v. rewrite Hfl'. split.
      * intros [?|(j & ? & ?)]; [by left|right]. exists j. split; [lia|done].
      * intros [?|(j & Hj & Hjt)]; [by left|right]. exists j. split; [|done].
        destruct (decide (j = i)) as [->|]; [congruence|lia].
Qed.

(** Every page of a dead address space that is not shared is free again. *)
Record vm_freed (fl : list Z) (pgdir : Z) (T : gmap Z Z) (k : kmem) (F : list Z) (fl' : list Z) (k' : kmem) : Prop := {
  vf_kinv : kinv fl' k';
  vf_free : forall v, v ∈ fl' <-> v ∈ fl \/ pt_page pgdir T v \/ (v ∈ F /\ refs k v = occ v F);
  vf_refs : forall v, valid_page v -> ~ pt_page pgdir T v -> refs k' v = refs k v - occ v F;
  vf_frame : forall a, (forall v, v ∈ fl' -> v ∉ fl -> ~ v <= a < v + PGSIZE) ->
    ld8 (memory k') a = ld8 (memory k) a
}.

Lemma tables_of_pt fl pgdir T k :
  pt_inv fl pgdir T k -> (forall v, pt_page pgdir T v -> refs k v = 1) -> tables_from 0 fl pgdir T k.
Proof.
  intros Hpt Hr. split.
  - by eapply pt_kinv.
  - by apply (pt_pgdir Hpt).
  - intros j u _ Hu. destruct (pt_table Hpt j u Hu) as (? & ? & ?).
    destruct (pt_tables _ _ _ _ Hpt j u Hu) as (? & _ & ?).
    repeat (split; [done|]). split; [apply Hr; right; eauto|]. split; [lia|done].
  - intros j Hj Hu. by apply (pt_absent _ _ _ _ Hpt).
  - by eapply pt_inj.
Qed.

Lemma freevm_spec fl pgdir T s :
  freeable fl pgdir T (sub_get s) (upages 0 KERNBASE) ->
  (forall v, pt_page pgdir T v -> refs (sub_get s) v = 1) ->
  wp (freevm pgdir) (fun _ s' => exists fl' k', s' = sub_put k' s /\
    vm_freed fl pgdir T (sub_get s) (frames (memory (sub_get s)) pgdir (upages 0 KERNBASE)) fl' k') s.
Proof.
  intros Hable Hrpt. pose proof (fr_pt _ _ _ _ _ Hable) as Hpt. destruct (pt_pgdir Hpt) as [Hgv Hgf].
  set (F := frames (memory (sub_get s)) pgdir (upages 0 KERNBASE)).
  assert (forall v, pt_page pgdir T v -> occ v F = 0) as Hocc.
  { intros v Hv. apply occ_zero. intros Hin. by destruct (fr_frames _ _ _ _ _ Hable v Hin) as (_ & _ & ? & _). }
  unfold freevm. rewrite (proj2 (Z.eqb_neq _ _) (valid_page_nonnull _ Hgv)).
  apply wp_bind. eapply wp_mono; [apply deallocuvm_spec; [|done|exact Hable]; unfold KERNBASE; lia|].
  intros r s1 (_ & fl1 & k1 & -> & [Hpt1 _ _ Hr1 Hf1 Hfr1]). fold F in Hr1, Hf1.
  assert (tables_from 0 fl1 pgdir T k1) as Htf.
  { apply tables_of_pt; [done|]. intros v Hv. destruct (pt_valid _ _ _ _ Hpt v Hv) as [Hvv _].
    rewrite Hr1, Hocc, Hrpt by done. lia. }
  apply wp_bind. eapply wp_mono; [apply (freevm_loop_correct pgdir T (Z.to_nat NPDENTRIES) 0 fl1)|].
  { by rewrite sub_get_put. } { lia. } { rewrite Z2Nat.id; unfold NPDENTRIES; lia. }
  rewrite sub_get_put. intros [] s2 (fl2 & k2 & -> & Hk2 & Hf2 & Hr2 & Hfr2). rewrite sub_put_put.
  assert (forall v, pt_page pgdir T v -> v ∉ fl1) as Hn1 by (intros v Hv; by destruct (pt_valid _ _ _ _ Hpt1 v Hv)).
  assert (pgdir ∉ fl2) as Hg2.
  { rewrite Hf2. intros [Hin|(j & _ & Hj)]; [by apply (Hn1 pgdir); [left|]|].
    by destruct (pt_table Hpt j pgdir Hj) as (_ & _ & ?). }
  assert (refs k2 pgdir = 1) as Hrg.
  { rewrite Hr2, decide_False, Hr1, Hocc, Hrpt by (done || by left). lia. }
  destruct (ki_locks _ _ Hk2) as [Hl1 Hl2].
  eapply wp_lift_eq; [apply kfree_eq; rewrite ?sub_get_put; try done; rewrite Hrg; lia|].
  rewrite sub_get_put, sub_put_put. eexists (pgdir :: fl2), _. split; [done|]. split.
  - apply kfree_inv_last; try done. rewrite Hrg. lia.
  - intros v. rewrite elem_of_cons, Hf2, Hf1. unfold pt_page. split.
    + intros [->|[[?|?]|(j & _ & Hj)]]; eauto 6.
    + intros [?|[[->|[j Hj]]|?]]; auto. right. right. exists j. split; [|done].
      destruct (pt_tables _ _ _ _ Hpt j v Hj). lia.
  - intros v Hv Hnp. assert (pgdir <> v) by (intros <-; apply Hnp; by left).
    rewrite refs_kfree_state, decide_False, Hr2 by (done || lia).
    case_decide as Hin; [|by apply Hr1].
    apply Hf2 in Hin as [Hin|(j & _ & Hj)]; [|exfalso; apply Hnp; right; eauto].
    rewrite <- Hr1 by done. pose proof (ki_free _ _ (pt_kinv _ _ _ _ Hpt1)) as Hfz.
    rewrite list.Forall_forall in Hfz. by rewrite Hfz.
  - intros a Ha. rewrite kfree_state_frame by (apply Ha; [apply list_elem_of_here|done]).
    rewrite Hfr2.
    + apply Hfr1.
      * intros (v & Hv & Hav). apply (Ha v); [|by destruct (pt_valid _ _ _ _ Hpt v Hv)|done].
        destruct Hv as [->|[j Hj]]; [apply list_elem_of_here|].
        apply list_elem_of_further, Hf2. right. exists j. split; [|done].
        destruct (pt_tables _ _ _ _ Hpt j v Hj). lia.
      * intros v Hv Hn. apply Ha; [|done]. apply list_elem_of_further, Hf2. by left.
    + intros v Hv Hn. apply Ha; [by apply list_elem_of_further|].
      intros Hin. apply Hn, Hf1. by left.
Qed.

(** ** Mapping a run of pages *)

Record run_mapped (fl : list Z) (pgdir : Z) (T : gmap Z Z) (k : kmem) (va : Z) (n : nat) (pa perm : Z)
    (fl' : list Z) (T' : gmap Z Z) (k' : kmem) : Prop := {
  rn_inv : pt_inv fl' pgdir T' k';
  rn_sub : T ⊆ T';
  rn_pages : forall v, v ∈ fl \/ pt_page pgdir T v <-> v ∈ fl' \/ pt_page pgdir T' v;
  rn_tables : forall j t, T' !! j = Some t -> T !! j = None ->
    exists i, (i < n)%nat /\ j = PDX (va + PGSIZE * Z.of_nat i);
  rn_pte : forall i, (i < n)%nat -> pte (memory k') pgdir (va + PGSIZE * Z.of_nat i) =
    Z.lor (Z.lor (pa + PGSIZE * Z.of_nat i) perm) PTE_P;
  rn_other : forall va', uaddr va' ->
    (forall i, (i < n)%nat -> va' / PGSIZE <> (va + PGSIZE * Z.of_nat i) / PGSIZE) ->
    pte (memory k') pgdir va' = pte (memory k) pgdir va';
  rn_frame : forall a, ~ pt_bytes pgdir T' a -> ld8 (memory k') a = ld8 (memory k) a;
  rn_refs : forall v, valid_page v -> v ∉ fl -> refs k' v = refs k v;
  rn_refs_new : forall v, pt_page pgdir T' v -> ~ pt_page pgdir T v -> refs k' v = 1
}.

Lemma run_mapped_nil fl pgdir T k va pa perm :
  pt_inv fl pgdir T k -> run_mapped fl pgdir T k va 0 pa perm fl T k.
Proof. intros Hpt. split; try done; [intros j t ? ?; congruence|intros i ?; lia]. Qed.

Lemma mapped_pages fl pgdir T k va x fl' T' k' : mapped fl pgdir T k va x fl' T' k' ->
  (forall v, v ∈ fl \/ pt_page pgdir T v <-> v ∈ fl' \/ pt_page pgdir T' v) /\
  (forall v, pt_page pgdir T' v -> ~ pt_page pgdir T v -> refs k' v = 1 /\ v ∈ fl /\ T' !! PDX va = Some v) /\
  (forall j t, T' !! j = Some t -> T !! j = None -> j = PDX va) /\
  (forall v, v ∈ fl' -> v ∈ fl).
Proof.
  intros [_ _ Hnew _ _ _ _ Hrn]. destruct Hnew as [[-> ->]|(p & -> & Ht & ->)].
  { repeat split; try done. intros j t ? ?. congruence. }
  unfold pt_page. split; [|split; [|split; [|intros v Hv; by apply list_elem_of_further]]].
  - intros v. rewrite elem_of_cons. split.
    + intros [[->|?]|[->|[j Hj]]]; [right; right; exists (PDX va); apply lookup_insert_eq|by left|right; by left|].
      right. right. exists j. rewrite lookup_insert_ne; [done|]. congruence.
    + intros [?|[->|[j Hj]]]; [left; by right|right; by left|].
      apply lookup_insert_Some in Hj as [[_ ->]|[_ Hj]]; [left; by left|right; right; eauto].
  - intros v [->|[j Hj]] Hn; [exfalso; apply Hn; by left|].
    apply lookup_insert_Some in Hj as [[<- <-]|[_ Hj]]; [|exfalso; apply Hn; right; eauto].
    split; [by apply Hrn|]. split; [apply list_elem_of_here|apply lookup_insert_eq].
  - intros j t Hj Hn. apply lookup_insert_Some in Hj as [[<- _]|[_ Hj]]; congruence.
Qed.

Lemma run_mapped_cons fl pgdir T k va n pa perm fl1 T1 k1 fl2 T2 k2 :
  uaddr (va + PGSIZE * Z.of_nat n) -> 0 <= va -> va mod PGSIZE = 0 ->
  mapped fl pgdir T k va (Z.lor (Z.lor pa perm) PTE_P) fl1 T1 k1 ->
  run_mapped fl1 pgdir T1 k1 (va + PGSIZE) n (pa + PGSIZE) perm fl2 T2 k2 ->
  run_mapped fl pgdir T k va (Datatypes.S n) pa perm fl2 T2 k2.
Proof.
  intros Hmax Hva0 Hal Hone [Hi2 Hs2 Hpg2 Ht2 Hp2 Ho2 Hfr2 Hrf2 Hrn2].
  destruct (mapped_pages _ _ _ _ _ _ _ _ _ Hone) as (Hpg1 & Hrn1 & Ht1 & Hsub1).
  destruct Hone as [Hi1 Hs1 _ Hp1 Ho1 Hfr1 Hrf1 _].
  assert (forall i, Datatypes.S i = 1 + i)%nat as HS by lia.
  assert (forall i : nat, va + PGSIZE + PGSIZE * Z.of_nat i = va + PGSIZE * Z.of_nat (Datatypes.S i)) as Hidx by lia.
  assert (uaddr va) as Hua by (unfold uaddr, PGSIZE in *; lia).
  split; [done|by etransitivity| | | | | | |].
  - intros v. by rewrite Hpg1, Hpg2.
  - intros j t Hj Hn. destruct (T1 !! j) as [t1|] eqn:Hj1.
    + exists 0%nat. split; [lia|]. rewrite Z.mul_0_r, Z.add_0_r. by eapply Ht1.
    + destruct (Ht2 j t Hj Hj1) as (i & Hi & ->). exists (Datatypes.S i). split; [lia|]. by rewrite <- Hidx.
  - intros [|i] Hi.
    + rewrite !Z.mul_0_r, !Z.add_0_r. rewrite Ho2, Hp1; [done|done|].
      intros i _. unfold PGSIZE in *. Z.div_mod_to_equations. lia.
    + rewrite <- Hidx, Hp2 by lia. do 2 f_equal. lia.
  - intros va' Hva' Hne. rewrite Ho2, Ho1; [done|done| |done|].
    + specialize (Hne 0%nat ltac:(lia)). by rewrite Z.mul_0_r, Z.add_0_r in Hne.
    + intros i Hi. rewrite Hidx. apply Hne. lia.
  - intros a Ha. rewrite Hfr2, Hfr1; [done| |done]. intros (v & Hv & Hav). apply Ha. exists v. split; [|done].
    destruct Hv as [->|[j Hj]]; [by left|right]. exists j. by eapply lookup_weaken.
  - intros v Hv Hn. rewrite Hrf2, Hrf1; [done|done|done|done|].
    intros Hin. by apply Hn, Hsub1.
  - intros v Hv Hn. destruct (decide (v = pgdir)) as [->|Hne]; [exfalso; apply Hn; by left|].
    assert (pt_page pgdir T1 v \/ ~ pt_page pgdir T1 v) as [H1v|H1v]; [|
      |by apply Hrn2].
    { destruct Hv as [|[j Hj]]; [done|]. destruct (T1 !! j) as [t1|] eqn:Hj1.
      - left. right. exists j. pose proof (lookup_weaken _ _ _ _ Hj1 Hs2). congruence.
      - right. intros [|[j' Hj']]; [done|]. pose proof (lookup_weaken _ _ _ _ Hj' Hs2) as Hj2.
        pose proof (pt_inj _ _ _ _ Hi2 j j' v Hj Hj2). congruence. }
    destruct (pt_valid _ _ _ _ Hi1 v H1v) as [Hvv Hvf].
    destruct (Hrn1 v H1v Hn) as [Hr _]. by rewrite Hrf2.
Qed.

Lemma mappages_loop_step f pgdir a last pa perm k :
  mappages_loop (Datatypes.S f) pgdir a last pa perm k =
  (r <- map_one pgdir a pa perm ;;
   if r <? 0 then kret (-1)
   else if a =? last then kret 0
   else mappages_loop f pgdir (u32 (a + PGSIZE)) last (u32 (pa + PGSIZE)) perm) k.
Proof.
  cbn [mappages_loop]. unfold map_one, kbind, kret. destruct (walkpgdir pgdir a true k); try done.
  destruct (a0 =? NULL); [done|]. by destruct (mappage a a0 pa perm s).
Qed.

(** Kernel addresses only: their frames are not recorded. *)
Lemma mappages_loop_run pgdir perm n : forall fuel fl T k va pa last,
  pt_inv fl pgdir T k -> va mod PGSIZE = 0 -> KERNBASE <= va -> 0 <= perm < PGSIZE ->
  0 <= pa -> pa + PGSIZE * Z.of_nat n < 2 ^ 32 ->
  last = va + PGSIZE * Z.of_nat n -> last < 2 ^ 32 -> (n < fuel)%nat ->
  (forall i, (i <= n)%nat -> remap (pte (memory k) pgdir (va + PGSIZE * Z.of_nat i)) = false) ->
  wp (mappages_loop fuel pgdir va last pa perm) (fun r k' =>
    (r = 0 /\ exists fl' T', run_mapped fl pgdir T k va (Datatypes.S n) pa perm fl' T' k') \/
    (r = -1 /\ exists j T', (j <= n)%nat /\ run_mapped fl pgdir T k va j pa perm [] T' k')) k.
Proof.
  induction n as [|n IH]; intros fuel fl T k va pa last Hpt Hal Hk Hperm Hpa Hpa2 Hlast Hl2 Hfuel Hre;
    (destruct fuel as [|fuel]; [lia|]); (eapply wp_run; [apply mappages_loop_step|]);
    assert (uaddr va) as Hua by (unfold uaddr, KERNBASE, PGSIZE in *; lia);
    (apply wp_bind; eapply wp_mono; [eapply (map_page fl pgdir T k va pa perm); [done|done| |unfold PGSIZE in *; lia|lia|done]|]).
  1,3: specialize (Hre 0%nat ltac:(lia)); by rewrite Z.mul_0_r, Z.add_0_r in Hre.
  - intros r k1 [(-> & -> & -> & _)|(-> & fl1 & T1 & Hm)]; cbn [Z.ltb Z.compare].
    { apply wp_ret. right. split; [done|]. exists 0%nat, T. split; [lia|]. by apply run_mapped_nil. }
    rewrite Z.mul_0_r, Z.add_0_r in Hlast. rewrite (proj2 (Z.eqb_eq _ _)) by done.
    apply wp_ret. left. split; [done|]. exists fl1, T1.
    eapply run_mapped_cons; [|by destruct Hua|done|exact Hm|apply run_mapped_nil; by eapply mp_inv].
    by rewrite Z.mul_0_r, Z.add_0_r.
  - intros r k1 [(-> & -> & -> & _)|(-> & fl1 & T1 & Hm)]; cbn [Z.ltb Z.compare].
    { apply wp_ret. right. split; [done|]. exists 0%nat, T. split; [lia|]. by apply run_mapped_nil. }
    rewrite (proj2 (Z.eqb_neq _ _)) by (unfold PGSIZE in *; lia).
    rewrite !u32_id by (unfold KERNBASE, PGSIZE in *; lia).
    eapply wp_mono; [apply (IH fuel fl1 T1 k1 (va + PGSIZE) (pa + PGSIZE) last)|]; try (unfold PGSIZE in *; lia).
    + by eapply mp_inv.
    + unfold PGSIZE in *. Z.div_mod_to_equations. lia.
    + intros i Hi. rewrite (mp_other _ _ _ _ _ _ _ _ _ Hm).
      * replace (va + PGSIZE + PGSIZE * Z.of_nat i) with (va + PGSIZE * Z.of_nat (Datatypes.S i)) by lia.
        apply Hre. lia.
      * unfold uaddr, PGSIZE in *. lia.
      * unfold PGSIZE in *. Z.div_mod_to_equations. lia.
    + intros r k2 [(-> & fl2 & T2 & Hr)|(-> & j & T2 & Hj & Hr)].
      * left. split; [done|]. exists fl2, T2. eapply run_mapped_cons; [|by destruct Hua|done|exact Hm|done].
        unfold uaddr, PGSIZE in *. lia.
      * right. split; [done|]. exists (Datatypes.S j), T2. split; [lia|].
        eapply run_mapped_cons; [|by destruct Hua|done|exact Hm|done]. unfold uaddr, PGSIZE in *. lia.
Qed.

(** ** The kernel part of a page table *)

(** A kernel mapping of [S n] pages. *)
Definition region_ok (e : kmap_entry) (n : nat) : Prop :=
  km_virt e mod PGSIZE = 0 /\ KERNBASE <= km_virt e /\ km_virt e + PGSIZE * Z.of_nat n < 2 ^ 32 /\
  u32 (km_end e - km_start e) = PGSIZE * Z.of_nat (Datatypes.S n) /\
  0 <= km_start e /\ km_start e + PGSIZE * Z.of_nat n < 2 ^ 32 /\ 0 <= km_perm e < PGSIZE.

Definition in_region (e : kmap_entry) (n : nat) (va : Z) : Prop :=
  exists i, (i < Datatypes.S n)%nat /\ va / PGSIZE = (km_virt e + PGSIZE * Z.of_nat i) / PGSIZE.

(** The entry a region gives to the page of [va]. *)
Definition region_pte (e : kmap_entry) (va : Z) : Z :=
  Z.lor (Z.lor (km_start e + (va / PGSIZE * PGSIZE - km_virt e)) (km_perm e)) PTE_P.

Record kvm_state (fl : list Z) (k : kmem) (pgdir : Z) (fl' : list Z) (T : gmap Z Z) (k' : kmem) : Prop := {
  kv_pt : pt_inv fl' pgdir T k';
  kv_user : forall j t, T !! j = Some t -> PDX KERNBASE <= j;
  kv_pages : forall v, v ∈ fl <-> v ∈ fl' \/ pt_page pgdir T v;
  kv_one : forall v, pt_page pgdir T v -> refs k' v = 1;
  kv_refs : forall v, valid_page v -> v ∉ fl -> refs k' v = refs k v;
  kv_frame : forall a, ~ in_pages fl a -> ld8 (memory k') a = ld8 (memory k) a
}.

Lemma kvm_no_user fl k pgdir fl' T k' va : kvm_state fl k pgdir fl' T k' -> user_va va ->
  pte (memory k') pgdir va = 0.
Proof.
  intros Hkv Hva. pose proof (user_va_addr va Hva) as Hua. apply (pte_none (kv_pt _ _ _ _ _ _ Hkv) va Hua).
  destruct (T !! PDX va) as [t|] eqn:Ht; [|done]. apply (kv_user _ _ _ _ _ _ Hkv) in Ht.
  exfalso. revert Ht. rewrite !PDX_val by (done || (unfold KERNBASE; lia)).
  unfold user_va, KERNBASE in *. Z.div_mod_to_equations. lia.
Qed.

Lemma kvm_freeable fl k pgdir fl' T k' : kvm_state fl k pgdir fl' T k' ->
  freeable fl' pgdir T k' (upages 0 KERNBASE) /\ frames (memory k') pgdir (upages 0 KERNBASE) = [].
Proof.
  intros Hkv.
  assert (forall va, va ∈ upages 0 KERNBASE -> user_va va /\ va mod PGSIZE = 0) as Hu.
  { intros va Hva. apply upages_user in Hva as (? & ? & _); [done|unfold KERNBASE; lia|lia]. }
  assert (frames (memory k') pgdir (upages 0 KERNBASE) = []) as Hf.
  { apply frames_none. intros va Hva. rewrite (kvm_no_user _ _ _ _ _ _ va Hkv); [done|]. by apply Hu. }
  split; [|done]. split; [by eapply kv_pt|done| |].
  - rewrite Hf. intros q Hq. by apply elem_of_nil in Hq.
  - intros va Hva. rewrite (kvm_no_user _ _ _ _ _ _ va Hkv); [done|]. by apply Hu.
Qed.

(** Giving up: every page goes back to the free list. *)
Lemma kvm_undo fl k pgdir fl' T s : kinv fl k -> kvm_state fl k pgdir fl' T (sub_get s) ->
  wp (freevm pgdir) (fun _ s' => exists fl2 k2, s' = sub_put k2 s /\ kinv fl2 k2 /\
    (forall v, v ∈ fl2 <-> v ∈ fl) /\ (forall v, valid_page v -> refs k2 v = refs k v) /\
    (forall a, ~ in_pages fl a -> ld8 (memory k2) a = ld8 (memory k) a)) s.
Proof.
  intros Hk0 Hkv. destruct (kvm_freeable _ _ _ _ _ _ Hkv) as [Hable Hf].
  eapply wp_mono; [apply (freevm_spec fl' pgdir T s Hable); by apply (kv_one _ _ _ _ _ _ Hkv)|].
  rewrite Hf. intros [] s' (fl2 & k2 & -> & [Hk Hfree Hr Hfr]). exists fl2, k2.
  destruct Hkv as [Hpt _ Hpg H1' Hr1 Hfr1].
  assert (forall v, v ∈ fl2 <-> v ∈ fl) as Hfl.
  { intros v. rewrite Hfree, Hpg, elem_of_nil. tauto. }
  split; [done|]. split; [done|]. split; [done|]. split.
  - intros v Hv. destruct (decide (v ∈ fl)) as [Hin|Hin].
    + pose proof (ki_free _ _ Hk) as Hz. pose proof (ki_free _ _ Hk0) as Hz0.
      rewrite list.Forall_forall in Hz, Hz0. rewrite Hz0 by done. apply Hz. by apply Hfl.
    + rewrite Hr, Hr1; [unfold occ; simpl; lia|done|done|done|].
      intros Hp. apply Hin, Hpg. by right.
  - intros a Ha. rewrite Hfr; [by apply Hfr1|]. intros v Hv _ Hav. apply Ha. exists v. split; [by apply Hfl|done].
Qed.

Lemma PDX_mono a b : uaddr a -> uaddr b -> a <= b -> PDX a <= PDX b.
Proof. intros Ha Hb Hle. rewrite !PDX_val by done. apply Z.div_le_mono; lia. Qed.

Lemma pt_page_dec pgdir (T T' : gmap Z Z) v :
  T ⊆ T' -> (forall i j t, T' !! i = Some t -> T' !! j = Some t -> i = j) ->
  pt_page pgdir T' v -> pt_page pgdir T v \/ ~ pt_page pgdir T v.
Proof.
  intros Hs Hinj [->|[j Hj]]; [left; by left|]. destruct (T !! j) as [t|] eqn:Hjt.
  - left. right. exists j. pose proof (lookup_weaken _ _ _ _ Hjt Hs). congruence.
  - destruct (decide (v = pgdir)) as [->|Hne]; [left; by left|].
    right. intros [|[j' Hj']]; [done|]. pose proof (lookup_weaken _ _ _ _ Hj' Hs) as Hj2.
    pose proof (Hinj j j' v Hj Hj2). congruence.
Qed.

Lemma kvm_run fl k pgdir fl1 T1 k1 va n pa perm fl2 T2 k2 :
  kvm_state fl k pgdir fl1 T1 k1 -> KERNBASE <= va -> va + PGSIZE * Z.of_nat n <= 2 ^ 32 ->
  run_mapped fl1 pgdir T1 k1 va n pa perm fl2 T2 k2 ->
  kvm_state fl k pgdir fl2 T2 k2.
Proof.
  intros [Hpt Hu Hpg Hone Hr Hfr] Hk Hmax [Hi Hs Hpg2 Ht2 _ _ Hfr2 Hr2 Hn2].
  assert (forall v, v ∈ fl <-> v ∈ fl2 \/ pt_page pgdir T2 v) as Hpg' by (intros v; by rewrite Hpg, Hpg2).
  split; [done| |done| | |].
  - intros j t Hj. destruct (T1 !! j) as [t1|] eqn:Hj1; [by eapply Hu|].
    destruct (Ht2 j t Hj Hj1) as (i & Hi' & ->).
    apply PDX_mono; unfold uaddr, KERNBASE, PGSIZE in *; lia.
  - intros v Hv. destruct (pt_page_dec pgdir T1 T2 v Hs (pt_inj _ _ _ _ Hi) Hv) as [H1v|H1v]; [|by apply Hn2].
    destruct (pt_valid _ _ _ _ Hpt v H1v) as [Hvv Hvf]. by rewrite Hr2, Hone.
  - intros v Hv Hn. rewrite Hr2, Hr; [done|done|done|done|]. intros Hin. apply Hn, Hpg. by left.
  - intros a Ha. rewrite Hfr2, Hfr; [done|done|]. intros (v & Hv & Hav). apply Ha. exists v.
    split; [apply Hpg'; by right|done].
Qed.

(** A page table has at most 1025 pages. *)
Lemma pt_few fl pgdir T k : pt_inv fl pgdir T k -> (size T <= 1024)%nat.
Proof.
  intros Hpt. rewrite <- size_dom. trans (size (list_to_set (seqZ 0 1024) : gset Z)).
  - apply subseteq_size. intros i [t Ht]%elem_of_dom. apply elem_of_list_to_set, elem_of_seqZ.
    destruct (pt_tables _ _ _ _ Hpt i t Ht) as [Hi _]. unfold NPDENTRIES in Hi. lia.
  - rewrite size_list_to_set by apply NoDup_seqZ. by rewrite length_seqZ.
Qed.
Definition pt_list (pgdir : Z) (T : gmap Z Z) : list Z := pgdir :: (map_to_list T).*2.
Lemma elem_of_pt_list pgdir T v : v ∈ pt_list pgdir T <-> pt_page pgdir T v.
Proof.
  unfold pt_list, pt_page. rewrite elem_of_cons, list_elem_of_fmap. split; intros [->|Hv]; auto; right.
  - destruct Hv as ([i t] & -> & Hin). exists i. by apply elem_of_map_to_list.
  - destruct Hv as [i Hi]. exists (i, v). split; [done|]. by apply elem_of_map_to_list.
Qed.
Lemma length_pt_list fl pgdir T k : pt_inv fl pgdir T k -> (length (pt_list pgdir T) <= 1025)%nat.
Proof. intros Hpt. unfold pt_list. cbn [length]. rewrite length_fmap, length_map_to_list. pose proof (pt_few _ _ _ _ Hpt). lia. Qed.

Lemma kvm_few fl k pgdir T k' : kinv fl k -> kvm_state fl k pgdir [] T k' -> (length fl <= 1025)%nat.
Proof.
  intros Hk Hkv. etrans; [|by eapply length_pt_list, kv_pt]. apply NoDup_incl_length; [apply NoDup_ListNoDup, (ki_nodup _ _ Hk)|].
  intros v Hv%list_elem_of_In. apply list_elem_of_In, elem_of_pt_list. apply (kv_pages _ _ _ _ _ _ Hkv) in Hv as [[]%elem_of_nil|?]. done.
Qed.

Lemma mappages_region e n pgdir k : region_ok e n ->
  mappages pgdir (km_virt e) (u32 (km_end e - km_start e)) (km_start e) (km_perm e) k =
  mappages_loop (Datatypes.S n) pgdir (km_virt e) (km_virt e + PGSIZE * Z.of_nat n) (km_start e) (km_perm e) k.
Proof.
  intros (Hal & Hk & Hmax & Hsz & _). unfold mappages. rewrite Hsz.
  assert (uaddr (km_virt e)) as Hua by (unfold uaddr, KERNBASE, PGSIZE in *; lia).
  assert (PGROUNDDOWN (km_virt e) = km_virt e) as ->.
  { rewrite PGROUNDDOWN_spec by done. unfold PGSIZE in *. Z.div_mod_to_equations. lia. }
  assert (PGROUNDDOWN (u32 (km_virt e + PGSIZE * Z.of_nat (Datatypes.S n) - 1)) = km_virt e + PGSIZE * Z.of_nat n) as ->.
  { assert (km_virt e + PGSIZE * Z.of_nat n + PGSIZE <= 2 ^ 32) by (unfold PGSIZE in *; Z.div_mod_to_equations; lia).
    unfold uaddr, PGSIZE in *. rewrite u32_id by lia. rewrite PGROUNDDOWN_spec by lia. unfold PGSIZE. Z.div_mod_to_equations. lia. }
  replace (km_virt e + PGSIZE * Z.of_nat n - km_virt e) with (PGSIZE * Z.of_nat n) by lia.
  rewrite u32_id by (unfold uaddr, PGSIZE in *; lia).
  rewrite Z.mul_comm, Z.div_mul, Nat2Z.id by done. done.
Qed.

(** The table maps the regions [ds] and nothing else. *)
Definition covers (ds : list (kmap_entry * nat)) (m : mem) (pgdir : Z) : Prop :=
  (forall e n va, (e, n) ∈ ds -> uaddr va -> in_region e n va -> pte m pgdir va = region_pte e va) /\
  (forall va, uaddr va -> (forall e n, (e, n) ∈ ds -> ~ in_region e n va) -> pte m pgdir va = 0).

Definition apart_from (r : kmap_entry * nat) (ds : list (kmap_entry * nat)) : Prop :=
  forall e n va, (e, n) ∈ ds -> in_region r.1 r.2 va -> ~ in_region e n va.

Lemma covers_add ds e n fl pgdir T k fl' T' k' :
  covers ds (memory k) pgdir -> region_ok e n -> apart_from (e, n) ds ->
  run_mapped fl pgdir T k (km_virt e) (Datatypes.S n) (km_start e) (km_perm e) fl' T' k' ->
  covers (ds ++ [(e, n)]) (memory k') pgdir.
Proof.
  intros [Hin Hout] (Hal & Hk & Hmax & _) Hap [_ _ _ _ Hp Ho _ _ _].
  assert (forall va, ~ in_region e n va -> forall i, (i < Datatypes.S n)%nat ->
    va / PGSIZE <> (km_virt e + PGSIZE * Z.of_nat i) / PGSIZE) as Hnr.
  { intros va Hn i Hi E. apply Hn. by exists i. }
  split.
  - intros e' n' va. rewrite elem_of_app, list_elem_of_singleton. intros [Hd|[= -> ->]] Hua Hr.
    + rewrite Ho; [by eapply Hin|done|]. apply Hnr. intros Hr'. by apply (Hap e' n' va).
    + destruct Hr as (i & Hi & E).
      assert (uaddr (km_virt e + PGSIZE * Z.of_nat i)) as Hui by (unfold uaddr, KERNBASE, PGSIZE in *; lia).
      rewrite (same_page _ va Hui Hua E), Hp by done. unfold region_pte. do 2 f_equal. rewrite E.
      unfold PGSIZE in *. Z.div_mod_to_equations. lia.
  - intros va Hua Hn. rewrite Ho; [apply Hout; [done|]|done|].
    + intros e' n' Hd. apply Hn. rewrite elem_of_app. by left.
    + apply Hnr, Hn. rewrite elem_of_app, list_elem_of_singleton. by right.
Qed.

Fixpoint all_apart (ds rs : list (kmap_entry * nat)) : Prop :=
  match rs with
  | [] => True
  | r :: rs' => apart_from r ds /\ region_ok r.1 r.2 /\ all_apart (ds ++ [r]) rs'
  end.

Lemma setupkvm_loop_spec fl k pgdir rs : forall ds fl1 T1 s,
  kinv fl k -> kvm_state fl k pgdir fl1 T1 (sub_get s) -> covers ds (memory (sub_get s)) pgdir -> all_apart ds rs ->
  wp (setupkvm_loop rs.*1 pgdir) (fun r s' => exists k2, s' = sub_put k2 s /\
    ((r = 0 /\ exists fl2, kinv fl2 k2 /\ (forall v, v ∈ fl2 <-> v ∈ fl) /\
        (forall v, valid_page v -> refs k2 v = refs k v) /\
        (forall a, ~ in_pages fl a -> ld8 (memory k2) a = ld8 (memory k) a) /\ (length fl <= 1025)%nat) \/
     (r = pgdir /\ exists fl2 T2, kvm_state fl k pgdir fl2 T2 k2 /\ covers (ds ++ rs) (memory k2) pgdir))) s.
Proof.
  induction rs as [|[e n] rs IH]; intros ds fl1 T1 s Hk Hkv Hcov Hall; cbn [fmap list_fmap setupkvm_loop fst].
  - apply wp_ret. exists (sub_get s). rewrite sub_put_get, app_nil_r. split; [done|]. right. eauto.
  - destruct Hall as (Hap & Hreg & Hall). pose proof Hreg as (Hal & Hkb & Hmax & _ & Hp0 & Hpm & Hperm).
    cbn [fst snd] in *. apply wp_bind. apply wp_lift. eapply wp_run; [by apply mappages_region|].
    eapply wp_mono; [apply (mappages_loop_run pgdir (km_perm e) n _ fl1 T1)|]; try done; [by eapply kv_pt|lia| |].
    { intros i Hi. assert (uaddr (km_virt e + PGSIZE * Z.of_nat i)) as Hui by (unfold uaddr, KERNBASE, PGSIZE in *; lia).
      rewrite (proj2 Hcov); [done|done|]. intros e' n' Hd Hr. apply (Hap e' n' (km_virt e + PGSIZE * Z.of_nat i) Hd); [|exact Hr].
      exists i. cbn [fst snd]. split; [lia|done]. }
    intros r k1 [(-> & fl2 & T2 & Hrun)|(-> & j & T2 & Hj & Hrun)]; cbn [Z.ltb Z.compare].
    + assert (km_virt e + PGSIZE * Z.of_nat (Datatypes.S n) <= 2 ^ 32) as Hmax'.
      { unfold PGSIZE in *. Z.div_mod_to_equations. lia. }
      eapply wp_mono; [apply (IH (ds ++ [(e, n)]) fl2 T2)|]; rewrite ?sub_get_put; [done|by eapply kvm_run|by eapply covers_add|done|].
      intros r s' (k2 & -> & Hres). exists k2. rewrite sub_put_put, <- app_assoc in *. done.
    + assert (km_virt e + PGSIZE * Z.of_nat j <= 2 ^ 32) as Hmax' by (unfold PGSIZE in *; lia).
      apply wp_bind. eapply wp_mono; [apply (kvm_undo fl k pgdir [] T2 (sub_put k1 s) Hk)|].
      { rewrite sub_get_put. by eapply kvm_run. }
      intros [] s' (fl3 & k3 & -> & Hk3 & Hfl3 & Hr3 & Hm3). apply wp_ret. exists k3. rewrite sub_put_put. split; [done|]. left. split; [done|].
      exists fl3. repeat (split; [done|]). apply (kvm_few fl k pgdir T2 k1 Hk). by eapply kvm_run.
Qed.

(** The regions of the table [kmap], with their sizes in pages less one. *)
Definition kregions : list (kmap_entry * nat) :=
  [ (mk_kmap KERNBASE 0 EXTMEM PTE_W, Z.to_nat (EXTMEM / PGSIZE - 1));
    (mk_kmap KERNLINK (V2P KERNLINK) (V2P kdata) 0, Z.to_nat ((kdata - KERNLINK) / PGSIZE - 1));
    (mk_kmap kdata (V2P kdata) PHYSTOP PTE_W, Z.to_nat ((KERNBASE + PHYSTOP - kdata) / PGSIZE - 1));
    (mk_kmap DEVSPACE DEVSPACE 0 PTE_W, Z.to_nat ((2 ^ 32 - DEVSPACE) / PGSIZE - 1)) ].

Lemma kregions_kmap : kregions.*1 = kmap.
Proof. done. Qed.

(** A region as an interval of addresses. *)
Lemma in_region_bounds e n va : km_virt e mod PGSIZE = 0 -> in_region e n va ->
  km_virt e <= va < km_virt e + PGSIZE * (Z.of_nat n + 1).
Proof. intros Hal (i & Hi & E). unfold PGSIZE in *. Z.div_mod_to_equations. lia. Qed.

Lemma kdata_bounds : KERNLINK < kdata < KERNBASE + PHYSTOP /\ kdata mod PGSIZE = 0 /\ V2P kdata = kdata - KERNBASE.
Proof.
  destruct kdata_ok as [Hd Hm], kimage_ok as [He1 He2]. split; [lia|]. split; [done|].
  apply V2P_val. unfold KERNLINK, KERNBASE, PHYSTOP, EXTMEM in *. lia.
Qed.

Lemma region_size len : PGSIZE <= len -> len mod PGSIZE = 0 ->
  PGSIZE * Z.of_nat (Z.to_nat (len / PGSIZE - 1)) = len - PGSIZE /\
  PGSIZE * Z.of_nat (Datatypes.S (Z.to_nat (len / PGSIZE - 1))) = len.
Proof.
  intros Hl Hm. assert (1 <= len / PGSIZE) as H1' by (unfold PGSIZE in *; Z.div_mod_to_equations; lia).
  assert (PGSIZE * (len / PGSIZE) = len) by (unfold PGSIZE in *; Z.div_mod_to_equations; lia).
  rewrite Nat2Z.inj_succ, Z2Nat.id by lia. lia.
Qed.

Lemma region_intro virt start stop perm len :
  virt mod PGSIZE = 0 -> KERNBASE <= virt -> virt + len <= 2 ^ 32 -> PGSIZE <= len -> len mod PGSIZE = 0 ->
  u32 (stop - start) = len -> 0 <= start -> start + len <= 2 ^ 32 -> 0 <= perm < PGSIZE ->
  region_ok (mk_kmap virt start stop perm) (Z.to_nat (len / PGSIZE - 1)).
Proof.
  intros ? ? ? Hl Hm ? ? ? ?. destruct (region_size len Hl Hm) as [E1 E2].
  unfold region_ok. cbn [km_virt km_start km_end km_perm]. rewrite E1, E2. unfold PGSIZE in *. repeat split; try done; lia.
Qed.

Lemma kregions_bounds e n va : (e, n) ∈ kregions -> in_region e n va ->
  km_virt e mod PGSIZE = 0 /\ km_virt e <= va /\
  ((km_virt e = KERNBASE /\ va < KERNLINK) \/ (km_virt e = KERNLINK /\ va < kdata) \/
   (km_virt e = kdata /\ va < KERNBASE + PHYSTOP) \/ km_virt e = DEVSPACE).
Proof.
  destruct kdata_bounds as ((Hd1 & Hd2) & Hdm & _).
  assert (forall len virt start stop perm, virt mod PGSIZE = 0 -> PGSIZE <= len -> len mod PGSIZE = 0 ->
    in_region (mk_kmap virt start stop perm) (Z.to_nat (len / PGSIZE - 1)) va -> virt <= va < virt + len) as Hb.
  { intros len virt start stop perm Hv Hl Hm Hr. apply in_region_bounds in Hr; [|done].
    destruct (region_size len Hl Hm) as [_ E]. cbn [km_virt] in Hr. lia. }
  intros Hin Hr. unfold kregions in Hin. rewrite !elem_of_cons, elem_of_nil in Hin.
  assert (KERNLINK mod PGSIZE = 0) as HKL by done.
  assert ((kdata - KERNLINK) mod PGSIZE = 0 /\ (KERNBASE + PHYSTOP - kdata) mod PGSIZE = 0 /\
    PGSIZE <= kdata - KERNLINK /\ PGSIZE <= KERNBASE + PHYSTOP - kdata) as (Hm1 & Hm2 & Hl1 & Hl2).
  { unfold KERNLINK, KERNBASE, EXTMEM, PHYSTOP, PGSIZE in *. Z.div_mod_to_equations. lia. }
  destruct Hin as [[= -> ->]|[[= -> ->]|[[= -> ->]|[[= -> ->]|[]]]]]; cbn [km_virt] in *.
  - apply Hb in Hr; [|done..]. split; [done|]. unfold KERNLINK in *. lia.
  - apply Hb in Hr; [|done..]. split; [done|]. lia.
  - apply Hb in Hr; [|done..]. split; [done|]. lia.
  - apply Hb in Hr; [|done..]. split; [done|]. lia.
Qed.

Lemma kregions_apart : all_apart [] kregions.
Proof.
  destruct kdata_bounds as ((Hd1 & Hd2) & Hdm & Hdv).
  assert (forall r ds, r ∈ kregions -> (forall e n, (e, n) ∈ ds -> (e, n) ∈ kregions /\ km_virt e < km_virt r.1) ->
    apart_from r ds) as Hap.
  { intros [e n] ds Hr Hds e' n' va Hd Hin Hin'. destruct (Hds e' n' Hd) as [Hr' Hlt].
    destruct (kregions_bounds _ _ _ Hr Hin) as (_ & Hlo & Hc).
    destruct (kregions_bounds _ _ _ Hr' Hin') as (_ & Hlo' & Hc').
    cbn [fst] in Hlt. unfold KERNLINK, KERNBASE, EXTMEM, PHYSTOP, DEVSPACE in *. lia. }
  assert ((kdata - KERNLINK) mod PGSIZE = 0 /\ (KERNBASE + PHYSTOP - kdata) mod PGSIZE = 0 /\
    PGSIZE <= kdata - KERNLINK /\ PGSIZE <= KERNBASE + PHYSTOP - kdata) as (Hm1 & Hm2 & Hl1 & Hl2).
  { unfold KERNLINK, KERNBASE, EXTMEM, PHYSTOP, PGSIZE in *. Z.div_mod_to_equations. lia. }
  assert (V2P KERNLINK = EXTMEM) as HVK by done.
  unfold all_apart. cbn [kregions app].
  split; [|split; [|split; [|split; [|split; [|split; [|split; [|split; [|done]]]]]]]].
  1,3,5,7: apply Hap; [unfold kregions; set_solver|]; intros e n; unfold kregions;
    rewrite ?elem_of_cons, ?elem_of_nil; cbn [fst]; intros Hin;
    repeat (destruct Hin as [[= -> ->]|Hin]; cbn [km_virt]; [split; [tauto|unfold KERNLINK, KERNBASE, EXTMEM, DEVSPACE, PHYSTOP in *; lia]|]); done.
  all: cbn [fst snd]; apply region_intro; try done;
    unfold KERNLINK, KERNBASE, EXTMEM, PHYSTOP, DEVSPACE, PGSIZE in *; rewrite ?Hdv, ?HVK, ?u32_id; try lia; try done.
Qed.

(** The page directory just after it has been cleared. *)
Lemma kvm_start p fl k :
  kinv (p :: fl) k ->
  kvm_state (p :: fl) k p fl ∅ (page_taken p (memset p 0 PGSIZE (memory k)) k) /\
  covers [] (memory (page_taken p (memset p 0 PGSIZE (memory k)) k)) p.
Proof.
  intros Hk. pose proof (ki_valid _ _ Hk) as Hv. inversion Hv as [|? ? Hpv Hv']; subst.
  pose proof (ki_nodup _ _ Hk) as Hnd. apply list.NoDup_cons in Hnd as [Hpf _].
  set (m' := memset p 0 PGSIZE (memory k)).
  assert (forall a, ld8 m' a = if decide (p <= a < p + PGSIZE) then 0 else ld8 (memory k) a) as Hm'.
  { intros a. unfold m'. by rewrite ld8_memset. }
  assert (forall i, 0 <= i < NPDENTRIES -> ld32 m' (p + 4 * i) = 0) as Hz.
  { intros i Hi. unfold NPDENTRIES in Hi. transitivity (ld32 ∅ 0); [|done]. unfold ld32.
    rewrite !Hm', !decide_True by (unfold PGSIZE; lia). done. }
  assert (pt_inv fl p ∅ (page_taken p m' k)) as Hpt.
  { split.
    - apply kinv_set_memory; [by apply kalloc_inv|]. intros a (v & Hin & Hav). cbn [memory pd_set set_pdata set_freelist].
      rewrite Hm', decide_False; [done|]. intros Hap. rewrite list.Forall_forall in Hv'.
      by apply (pages_apart v p a (Hv' v Hin) Hpv) in Hap; [|intros ->|].
    - intros v [->|[i Hi]]; [done|]. by rewrite lookup_empty in Hi.
    - intros i t Hi. by rewrite lookup_empty in Hi.
    - intros i Hi _. change (memory (page_taken p m' k)) with m'. by rewrite Hz.
    - intros i j t Hi. by rewrite lookup_empty in Hi. }
  assert (forall v, valid_page v -> refs (page_taken p m' k) v = if decide (p = v) then 1 else refs k v) as Hr.
  { intros v Hvv. by apply (refs_pd_set (set_freelist (ld32 (memory k) p) k)). }
  split; [split; [done| | | | |]|].
  - intros j t Hj. by rewrite lookup_empty in Hj.
  - intros v. unfold pt_page. rewrite elem_of_cons. split; [tauto|].
    intros [?|[->|[i Hi]]]; [by right|by left|by rewrite lookup_empty in Hi].
  - intros v [->|[i Hi]]; [|by rewrite lookup_empty in Hi]. rewrite Hr by done. by rewrite decide_True.
  - intros v Hvv Hn. apply not_elem_of_cons in Hn as [? _]. rewrite Hr by done. by rewrite decide_False by congruence.
  - intros a Ha. change (memory (page_taken p m' k)) with m'. rewrite Hm', decide_False; [done|].
    intros Hin. apply Ha. exists p. split; [apply list_elem_of_here|done].
  - split; [intros e n va Hin; by apply elem_of_nil in Hin|].
    intros va Hua _. by apply (pte_none Hpt va Hua).
Qed.

Lemma setupkvm_spec fl s :
  kinv fl (sub_get s) ->
  wp setupkvm (fun r s' => exists k2, s' = sub_put k2 s /\
    ((r = 0 /\ exists fl2, kinv fl2 k2 /\ (forall v, v ∈ fl2 <-> v ∈ fl) /\
        (forall v, valid_page v -> refs k2 v = refs (sub_get s) v) /\
        (forall a, ~ in_pages fl a -> ld8 (memory k2) a = ld8 (memory (sub_get s)) a) /\ (length fl <= 1025)%nat) \/
     (r <> 0 /\ exists fl2 T2, kvm_state fl (sub_get s) r fl2 T2 k2 /\ covers kregions (memory k2) r))) s.
Proof.
  intros Hk. unfold setupkvm. apply wp_bind. destruct fl as [|p fl].
  { eapply wp_lift_eq; [by apply kalloc_nil_eq|]. rewrite sub_put_get. apply wp_ret.
    exists (sub_get s). rewrite sub_put_get. split; [done|]. left. split; [done|]. exists []. repeat (split; [done|]). cbn. lia. }
  pose proof (ki_valid _ _ Hk) as Hv. inversion Hv as [|? ? Hpv Hv']; subst.
  eapply wp_lift_eq; [by eapply kalloc_cons_eq|].
  rewrite (proj2 (Z.eqb_neq _ _) (valid_page_nonnull p Hpv)).
  apply wp_bind, wp_lift, wp_modify. rewrite sub_get_put, sub_put_put.
  change (DEVSPACE <? P2V PHYSTOP) with false. cbv iota.
  destruct (kvm_start _ _ _ Hk) as [Hkv Hcov]. rewrite <- kregions_kmap.
  set (k1 := page_taken p (memset p 0 PGSIZE (memory (sub_get s))) (sub_get s)) in *.
  change (wp (setupkvm_loop kregions.*1 p) (fun r s' => exists k2, s' = sub_put k2 s /\
    ((r = 0 /\ exists fl2, kinv fl2 k2 /\ (forall v, v ∈ fl2 <-> v ∈ p :: fl) /\
        (forall v, valid_page v -> refs k2 v = refs (sub_get s) v) /\
        (forall a, ~ in_pages (p :: fl) a -> ld8 (memory k2) a = ld8 (memory (sub_get s)) a) /\ (length (p :: fl) <= 1025)%nat) \/
     (r <> 0 /\ exists fl2 T2, kvm_state (p :: fl) (sub_get s) r fl2 T2 k2 /\ covers kregions (memory k2) r))) (sub_put k1 s)).
  eapply wp_mono; [apply (setupkvm_loop_spec (p :: fl) (sub_get s) p kregions [] fl ∅)|];
    rewrite ?sub_get_put; [done|done|done|apply kregions_apart|].
  intros r s' (k2 & -> & Hres). exists k2. rewrite sub_put_put. split; [done|].
  destruct Hres as [?|[-> Hrest]]; [by left|right]. split; [|done].
  apply (valid_page_nonnull p Hpv).
Qed.
End Uvm.

(** A swap file for concrete runs in which no page is swapped out. *)
Definition demo_swap : SwapOps kmem :=
  {| swapread_file := fun _ _ => kret tt; swapfree_file := fun _ _ _ => kret tt |}.

(** ** A machine with an empty page directory and a stack page in use *)

Definition demo_machine : kmem :=
  mk_kmem (link_pages demo_free ∅) demo_base true true {[0x300 := mk_page_data 1 0; 0x301 := mk_page_data 1 0]} ∅.

Lemma demo_machine_kinv : @kinv demo_image demo_free demo_machine.
Proof.
  apply demo_free_kinv; [vm_compute; reflexivity|]. intros i Hi.
  rewrite lookup_insert_ne, lookup_singleton_ne by lia. done.
Qed.

Definition demo_dir : Z := 0x80300000.
Definition demo_stack : Z := 0x80301000.

Lemma demo_zero a : a < demo_base -> ld8 (memory demo_machine) a = 0.
Proof.
  intros Ha. unfold demo_machine. cbn [memory]. rewrite (link_pages_below _ _ demo_base) by (done || (intros v (i & Hi & ->)%demo_free_range; unfold PGSIZE; lia)). done.
Qed.

(** The directory can be freed, and the stack page is not part of it. *)
Lemma demo_machine_freeable :
  @freeable demo_image demo_free demo_dir ∅ demo_machine (upages 0 KERNBASE) /\
  (forall v, pt_page demo_dir ∅ v -> refs demo_machine v = 1) /\
  @valid_page demo_image demo_stack /\ demo_stack ∉ demo_free /\ ~ pt_page demo_dir ∅ demo_stack /\
  demo_stack ∉ frames (memory demo_machine) demo_dir (upages 0 KERNBASE) /\ refs demo_machine demo_stack = 1.
Proof.
  assert (forall v, v < demo_base -> v ∉ demo_free) as Hlow by (intros v Hv (i & Hi & ->)%demo_free_range; unfold PGSIZE in *; lia).
  assert (forall v, pt_page demo_dir ∅ v -> v = demo_dir) as Hpg by (intros v [?|[i Hi]]; done).
  assert (@pt_inv demo_image demo_free demo_dir ∅ demo_machine) as Hpt.
  { split; [apply demo_machine_kinv| |done| |done].
    - intros v ->%Hpg. split; [unfold valid_page; compute_done|by apply Hlow].
    - intros i Hi _. assert (ld32 (memory demo_machine) (demo_dir + 4 * i) = 0) as ->; [|done].
      unfold ld32. rewrite !demo_zero by (unfold demo_dir, demo_base, NPDENTRIES in *; lia). done. }
  assert (forall va, va ∈ upages 0 KERNBASE -> user_va va /\ va mod PGSIZE = 0 /\ pte (memory demo_machine) demo_dir va = 0) as Hva.
  { intros va Hin. destruct (upages_user 0 KERNBASE va ltac:(unfold KERNBASE; lia) ltac:(lia) Hin) as (Hu & Hm & _). split; [exact Hu|]. split; [exact Hm|].
    apply (pte_none Hpt va (user_va_addr va Hu) (lookup_empty _)). }
  assert (frames (memory demo_machine) demo_dir (upages 0 KERNBASE) = []) as EF.
  { apply frames_none. intros va Hin. destruct (Hva va Hin) as (_ & _ & ->). reflexivity. }
  rewrite EF. split; [|split; [|split; [|split; [|split; [|split]]]]].
  - split; [exact Hpt| | |].
    + intros va Hin. destruct (Hva va Hin) as (Hu & Hm & _). exact (conj Hu Hm).
    + rewrite EF. intros q Hq%elem_of_nil. destruct Hq.
    + intros va Hin. destruct (Hva va Hin) as (_ & _ & ->). reflexivity.
  - intros v ->%Hpg. compute_done.
  - unfold valid_page. compute_done.
  - apply Hlow. compute_done.
  - intros E%Hpg. discriminate E.
  - apply not_elem_of_nil.
  - compute_done.
Qed.
