(* ===== verification/Fork.v ===== *)
(** * Copying an address space: copyuvm (vm.c)

    fork gives the child a page table of its own whose user entries refer to
    the parent's frames; both sides lose write permission and are marked
    copy-on-write, and every frame gains a reference.  Together with
    [Vm.cow_isolation] this is the correctness of fork's memory. *)

From S2P Require Import Prelude Layout Mem Kstring Kalloc Vm Uvm.

Section Fork.
Context `{KernelImage} {S : Type} `{Sub kmem S} `{SwapOps S}.

(** The entry both processes keep. *)
Definition shared (e : Z) : Z := Z.lor (clear_flag PTE_W e) PTE_C.

Lemma shared_range e : 0 <= e < 2 ^ 32 -> 0 <= shared e < 2 ^ 32.
Proof.
  intros He. unfold shared, clear_flag. apply lor_range; [lia| |done].
  pose proof (land_le_l e (u32 (Z.lnot PTE_W))). lia.
Qed.

Lemma shared_flags e : flag PTE_W (shared e) = false /\ flag PTE_C (shared e) = true /\
  flag PTE_P (shared e) = flag PTE_P e /\ flag PTE_U (shared e) = flag PTE_U e /\
  flag PTE_S (shared e) = flag PTE_S e.
Proof.
  unfold shared, clear_flag.
  change PTE_W with (2 ^ 1); change PTE_C with (2 ^ 9); change PTE_P with (2 ^ 0); change PTE_U with (2 ^ 2);
  change PTE_S with (2 ^ 10).
  rewrite !flag_testbit, !Z.lor_spec, !Z.land_spec by lia.
  change (Z.testbit (u32 (Z.lnot (2 ^ 1))) 1) with false; change (Z.testbit (u32 (Z.lnot (2 ^ 1))) 9) with true;
  change (Z.testbit (u32 (Z.lnot (2 ^ 1))) 0) with true; change (Z.testbit (u32 (Z.lnot (2 ^ 1))) 2) with true;
  change (Z.testbit (u32 (Z.lnot (2 ^ 1))) 10) with true.
  change (Z.testbit (2 ^ 9) 1) with false; change (Z.testbit (2 ^ 9) 9) with true;
  change (Z.testbit (2 ^ 9) 0) with false; change (Z.testbit (2 ^ 9) 2) with false;
  change (Z.testbit (2 ^ 9) 10) with false.
  by rewrite !andb_true_r, !orb_false_r, orb_true_r, andb_false_r.
Qed.

Lemma shared_frame e : 0 <= e < 2 ^ 32 -> valid_page (frame_of e) -> frame_of (shared e) = frame_of e.
Proof.
  intros He Hv. destruct (entry_split e He) as (Es & _ & _ & Hf). rewrite (frame_addr e He) in Es.
  destruct (valid_page_entry _ Hv) as (Hr & Hm & _). set (q := frame_of e) in *.
  rewrite Es. unfold shared, clear_flag. rewrite clear_entry by done.
  set (f := PTE_FLAGS e) in *. pose proof (land_le_l f (u32 (Z.lnot PTE_W))) as Hl.
  rewrite <- (lor_aligned (V2P q)) by (done || lia). rewrite <- Z.lor_assoc.
  assert (0 <= Z.lor (Z.land f (u32 (Z.lnot PTE_W))) PTE_C < PGSIZE) as Hb.
  { change PGSIZE with (2 ^ 12). apply lor_range; [lia|unfold PGSIZE in *; lia|done]. }
  rewrite lor_aligned by done. by apply frame_entry.
Qed.

(** Re-entering an entry's own address and flags gives the entry. *)
Lemma reenter v : 0 <= v < 2 ^ 32 -> flag PTE_P v = true ->
  Z.lor (Z.lor (PTE_ADDR v) (PTE_FLAGS v)) PTE_P = v.
Proof.
  intros Hv HP. destruct (entry_split v Hv) as (Es & Hm & _ & Hf).
  rewrite (lor_aligned (PTE_ADDR v)), <- Es by done. apply Z.bits_inj'. intros n Hn. rewrite Z.lor_spec.
  change PTE_P with (2 ^ 0) in *. rewrite flag_testbit in HP by lia. rewrite Z.pow2_bits_eqb by lia.
  destruct (0 =? n) eqn:E; boolify; [subst; by rewrite HP|apply orb_false_r].
Qed.

(** Where the loop of [copyuvm] stands after the pages [D]. *)
Record copy_state (fl0 : list Z) (k0 : kmem) (pgdir : Z) (T : gmap Z Z) (D : list Z) (d : Z)
    (fl : list Z) (Td : gmap Z Z) (k : kmem) : Prop := {
  cs_par : pt_inv fl pgdir T k;
  cs_chd : pt_inv fl d Td k;
  cs_sep : forall v, pt_page d Td v -> ~ pt_page pgdir T v;
  cs_one : forall v, pt_page d Td v -> refs k v = 1;
  cs_pages : forall v, v ∈ fl0 <-> v ∈ fl \/ pt_page d Td v;
  cs_done : forall va, va ∈ D -> flag PTE_P (pte (memory k0) pgdir va) = true ->
    pte (memory k) pgdir va = shared (pte (memory k0) pgdir va) /\
    pte (memory k) d va = shared (pte (memory k0) pgdir va);
  cs_skip : forall va, va ∈ D -> flag PTE_P (pte (memory k0) pgdir va) = false ->
    pte (memory k) pgdir va = pte (memory k0) pgdir va /\ pte (memory k) d va = 0;
  cs_rest : forall va, uaddr va -> (forall p, p ∈ D -> va / PGSIZE <> p / PGSIZE) ->
    pte (memory k) pgdir va = pte (memory k0) pgdir va /\ (user_va va -> pte (memory k) d va = 0);
  cs_refs : forall v, valid_page v -> v ∉ fl0 -> refs k v = refs k0 v + occ v (frames (memory k0) pgdir D);
  cs_frame : forall a, ~ in_pages fl0 a -> ~ pt_bytes pgdir T a -> ld8 (memory k) a = ld8 (memory k0) a
}.

Lemma pt_apart pgdir T d Td fl fl' k k' a :
  pt_inv fl pgdir T k -> pt_inv fl' d Td k' -> (forall v, pt_page d Td v -> ~ pt_page pgdir T v) ->
  pt_bytes pgdir T a -> ~ pt_bytes d Td a.
Proof.
  intros H1' H2' Hsep (v & Hv & Ha) (u & Hu & Hau).
  destruct (pt_valid _ _ _ _ H1' v Hv) as [Hvv _], (pt_valid _ _ _ _ H2' u Hu) as [Huv _].
  apply (pages_apart u v a Huv Hvv); [|done|done]. intros ->. by apply (Hsep v).
Qed.

Section Step.
Context {fl0 : list Z} {k0 : kmem} {pgdir : Z} {T : gmap Z Z} (Has : as_inv fl0 pgdir T k0).
Context {D : list Z} {d : Z} {fl : list Z} {Td : gmap Z Z} {k : kmem}.
Context (Hcs : copy_state fl0 k0 pgdir T D d fl Td k).
Context {va : Z} (Hva : user_va va) (Hnew : forall p, p ∈ D -> va / PGSIZE <> p / PGSIZE).
Context (HD : forall p, p ∈ D -> user_va p).
Notation e0 := (pte (memory k0) pgdir va).
Notation q := (frame_of e0).

Lemma step_pte : pte (memory k) pgdir va = e0 /\ pte (memory k) d va = 0.
Proof. destruct (cs_rest _ _ _ _ _ _ _ _ _ Hcs va (user_va_addr va Hva) Hnew) as [-> Hd]. auto. Qed.

Lemma D_apart va' : uaddr va' -> (forall p, p ∈ D ++ [va] -> va' / PGSIZE <> p / PGSIZE) ->
  (forall p, p ∈ D -> va' / PGSIZE <> p / PGSIZE) /\ va' / PGSIZE <> va / PGSIZE.
Proof.
  intros _ Hn. split; [intros p Hp; apply Hn; rewrite elem_of_app; by left|].
  apply Hn. rewrite elem_of_app, list_elem_of_singleton. by right.
Qed.

Lemma copy_skip : flag PTE_P e0 = false -> copy_state fl0 k0 pgdir T (D ++ [va]) d fl Td k.
Proof.
  intros HP. destruct step_pte as [Hp Hd]. destruct Hcs as [H1' H2' H3' H4' H5' H6' H7' H8' H9' H10'].
  split; try done.
  - intros va'. rewrite elem_of_app, list_elem_of_singleton. intros [?| ->]; [by apply H6'|congruence].
  - intros va'. rewrite elem_of_app, list_elem_of_singleton. intros [?| ->]; [by apply H7'|done].
  - intros va' Hu Hn. apply H8'; [done|]. by apply D_apart.
  - intros v Hv Hn. rewrite frames_app, frames_cons, HP, occ_app. rewrite H9' by done.
    unfold frames, occ at 3. simpl. lia.
Qed.

Context (HP : flag PTE_P e0 = true).

Lemma step_frame : valid_page q /\ q ∉ fl0 /\ q ∉ fl /\ ~ pt_page pgdir T q /\ ~ pt_page d Td q.
Proof.
  destruct (as_frames _ _ _ _ Has va (user_va_addr va Hva) (proj2 Hva) HP) as (Hv & Hn & Hnp & _).
  pose proof (cs_pages _ _ _ _ _ _ _ _ _ Hcs q) as Hpg.
  split; [done|]. split; [done|]. split; [|split; [done|]]; intros Hin; apply Hn, Hpg; tauto.
Qed.

Definition step_mem (t : Z) : kmem := set_memory (st32 (t + 4 * PTX va) (shared e0) (memory k)) k.

Lemma step_store t : T !! PDX va = Some t ->
  pt_inv fl pgdir T (step_mem t) /\ pt_inv fl d Td (step_mem t) /\
  pte (memory (step_mem t)) pgdir va = shared e0 /\
  (forall va', uaddr va' -> va' / PGSIZE <> va / PGSIZE ->
     pte (memory (step_mem t)) pgdir va' = pte (memory k) pgdir va') /\
  (forall va', uaddr va' -> pte (memory (step_mem t)) d va' = pte (memory k) d va') /\
  (forall a, ~ pt_bytes pgdir T a -> ld8 (memory (step_mem t)) a = ld8 (memory k) a).
Proof.
  intros Ht. pose proof (user_va_addr va Hva) as Hua. destruct Hcs as [H1' H2' H3' _ _ _ _ _ _ _].
  destruct (set_pte _ _ _ _ _ _ _ H1' Hua Ht (shared_range e0 (pte_range _ _ _))) as (Hpt & Hp & Ho & Hfr).
  assert (forall a, ~ pt_bytes pgdir T a -> ld8 (memory (step_mem t)) a = ld8 (memory k) a) as Hfr'.
  { intros a Ha. apply Hfr. intros Hin. apply Ha. exists t. split; [right; eauto|done]. }
  assert (forall a, pt_bytes d Td a -> ld8 (memory (step_mem t)) a = ld8 (memory k) a) as Hfd.
  { intros a Ha. apply Hfr'. intros Hp'. by apply (pt_apart _ _ _ _ _ _ _ _ _ H1' H2' H3' Hp'). }
  split; [done|]. split.
  { apply (pt_inv_frame H2'); [by eapply pt_kinv| |done]. intros v Hv. by destruct (pt_valid _ _ _ _ H2' v Hv). }
  split; [done|]. split; [done|]. split; [|done].
  intros va' Hva'. by apply (pte_frame H2').
Qed.

Lemma copy_share t fl2 Td2 k2 r :
  T !! PDX va = Some t -> r = refs k q + 1 ->
  mapped fl d Td (step_mem t) va (shared e0) fl2 Td2 k2 ->
  copy_state fl0 k0 pgdir T (D ++ [va]) d fl2 Td2 (pd_set k2 (V2P q) r).
Proof.
  intros Ht -> Hm. destruct (step_store t Ht) as (Hp1 & Hc1 & Hpte1 & Hpo1 & Hco1 & Hfr1).
  destruct step_frame as (Hqv & Hq0 & Hqf & Hqp & Hqd). pose proof (user_va_addr va Hva) as Hua.
  destruct (mapped_pages _ _ _ _ _ _ _ _ _ Hm) as (Hpg2 & Hn2 & _ & Hsub2).
  destruct Hm as [Hi2 Hs2 _ Hpte2 Ho2 Hfr2 Hr2 _].
  destruct Hcs as [H1' H2' H3' H4' H5' H6' H7' H8' H9' H10'].
  assert (forall v, pt_page d Td2 v -> ~ pt_page pgdir T v) as Hsep2.
  { intros v Hv Hp. destruct (proj2 (Hpg2 v) (or_intror Hv)) as [Hin|Hin]; [|by apply (H3' v)].
    by destruct (pt_valid _ _ _ _ H1' v Hp). }
  assert (q ∉ fl2 /\ ~ pt_page d Td2 q) as [Hqf2 Hqd2].
  { split; intros Hin; [by apply Hqf, Hsub2|].
    destruct (proj2 (Hpg2 q) (or_intror Hin)) as [?|?]; done. }
  assert (kinv fl2 (pd_set k2 (V2P q) (refs k q + 1))) as Hk3 by (apply kinv_pd_set; [by eapply pt_kinv|done|done]).
  assert (forall a, pt_bytes pgdir T a -> ld8 (memory k2) a = ld8 (memory (step_mem t)) a) as Hpar.
  { intros a Ha. apply Hfr2. by apply (pt_apart _ _ _ _ _ _ _ _ _ Hp1 Hi2 Hsep2). }
  assert (pt_inv fl2 pgdir T (pd_set k2 (V2P q) (refs k q + 1))) as Hp3.
  { apply (pt_inv_frame Hp1); [done| |done]. intros v Hv Hin. apply Hsub2 in Hin.
    by destruct (pt_valid _ _ _ _ Hp1 v Hv). }
  assert (forall va', uaddr va' -> pte (memory k2) pgdir va' = pte (memory (step_mem t)) pgdir va') as Hpp.
  { intros va' Hva'. by apply (pte_frame Hp1). }
  split; [done| |done| | | | | | |].
  - apply (pt_inv_frame Hi2); [done| |done]. intros v Hv. by destruct (pt_valid _ _ _ _ Hi2 v Hv).
  - intros v Hv. destruct (pt_valid _ _ _ _ Hi2 v Hv) as [Hvv _].
    rewrite refs_pd_set, decide_False by (done || by intros <-).
    destruct (pt_page_dec d Td Td2 v Hs2 (pt_inj _ _ _ _ Hi2) Hv) as [Hold|Hold]; [|by apply Hn2].
    destruct (pt_valid _ _ _ _ H2' v Hold). rewrite Hr2 by done. by apply H4'.
  - intros v. by rewrite H5', Hpg2.
  - intros va'. rewrite elem_of_app, list_elem_of_singleton. intros [HvD| ->] HP'.
    + pose proof (user_va_addr va' (HD va' HvD)) as Hu'.
      assert (va' / PGSIZE <> va / PGSIZE) as Hne by (intros E; by apply (Hnew va' HvD)).
      cbn [memory pd_set set_pdata]. rewrite Hpp, Hpo1, Ho2, Hco1 by done. by apply H6'.
    + cbn [memory pd_set set_pdata]. rewrite Hpp by done. done.
  - intros va'. rewrite elem_of_app, list_elem_of_singleton. intros [HvD| ->] HP'; [|congruence].
    pose proof (user_va_addr va' (HD va' HvD)) as Hu'.
    assert (va' / PGSIZE <> va / PGSIZE) as Hne by (intros E; by apply (Hnew va' HvD)).
    cbn [memory pd_set set_pdata]. rewrite Hpp, Hpo1, Ho2, Hco1 by done. by apply H7'.
  - intros va' Hu' Hn. destruct (D_apart va' Hu' Hn) as [HnD Hne].
    cbn [memory pd_set set_pdata]. rewrite Hpp, Hpo1, Ho2, Hco1 by done. by apply H8'.
  - intros v Hv Hn. rewrite refs_pd_set by done. rewrite frames_app, frames_cons, HP, occ_app.
    rewrite occ_app. change (frames (memory k0) pgdir []) with (@nil Z). rewrite occ_cons.
    change (occ v []) with 0.
    assert (v ∉ fl) as Hnf by (intros Hin; apply Hn, H5'; by left).
    case_decide as E; [subst v; rewrite H9' by done; lia|].
    rewrite Hr2 by done. change (refs (step_mem t) v) with (refs k v). rewrite H9' by done. lia.
  - intros a Ha Hna. cbn [memory pd_set set_pdata]. rewrite Hfr2; [rewrite Hfr1 by done; by apply H10'|].
    intros (v & Hv & Hav). apply Ha. exists v. split; [|done]. apply H5'. apply Hpg2. by right.
Qed.
End Step.

(** ** The loop *)

(** Every page in the range has a page table and is not swapped out. *)
Record copyable (k0 : kmem) (pgdir : Z) (R : list Z) : Prop := {
  ca_user : forall va, va ∈ R -> user_va va /\ va mod PGSIZE = 0;
  ca_noswap : forall va, va ∈ R -> flag PTE_S (pte (memory k0) pgdir va) = false;
  ca_refs : forall v, refs k0 v + occ v (frames (memory k0) pgdir R) < 2 ^ 31 - 1
}.

(** What is left when the child could not be built. *)
Record copy_failed (fl0 : list Z) (k0 : kmem) (pgdir : Z) (T : gmap Z Z) (fl2 : list Z) (k2 : kmem) : Prop := {
  cf_as : as_inv fl2 pgdir T k2;
  cf_free : forall v, v ∈ fl2 <-> v ∈ fl0;
  cf_refs : forall v, valid_page v -> refs k2 v = refs k0 v;
  cf_reads : forall va, user_va va -> uread (memory k2) pgdir va = uread (memory k0) pgdir va
}.

(** The parent's view while its entries are being shared. *)
Lemma parent_as fl0 k0 pgdir T R fl k :
  as_inv fl0 pgdir T k0 -> pt_inv fl pgdir T k -> (forall v, v ∈ fl -> v ∈ fl0) ->
  (forall va, user_va va -> pte (memory k) pgdir va = pte (memory k0) pgdir va \/
     (flag PTE_P (pte (memory k0) pgdir va) = true /\ pte (memory k) pgdir va = shared (pte (memory k0) pgdir va))) ->
  (forall v, valid_page v -> v ∉ fl0 -> ~ pt_page pgdir T v ->
     refs k0 v <= refs k v <= refs k0 v + occ v (frames (memory k0) pgdir R)) ->
  (forall v, refs k0 v + occ v (frames (memory k0) pgdir R) < 2 ^ 31 - 1) ->
  (forall a, ~ in_pages fl0 a -> ~ pt_bytes pgdir T a -> ld8 (memory k) a = ld8 (memory k0) a) ->
  as_inv fl pgdir T k /\ forall va, user_va va -> uread (memory k) pgdir va = uread (memory k0) pgdir va.
Proof.
  intros Has Hpt Hsub Hpte Hr Hmax Hfr.
  assert (forall va, user_va va -> flag PTE_P (pte (memory k) pgdir va) = flag PTE_P (pte (memory k0) pgdir va) /\
    flag PTE_U (pte (memory k) pgdir va) = flag PTE_U (pte (memory k0) pgdir va) /\
    (flag PTE_P (pte (memory k0) pgdir va) = true ->
       frame_of (pte (memory k) pgdir va) = frame_of (pte (memory k0) pgdir va))) as Hsame.
  { intros va Hva. destruct (Hpte va Hva) as [->|[HP ->]]; [done|].
    destruct (shared_flags (pte (memory k0) pgdir va)) as (_ & _ & HfP & HfU & _). split; [done|]. split; [done|].
    intros _. apply shared_frame; [apply pte_range|].
    by destruct (as_frames _ _ _ _ Has va (user_va_addr va Hva) (proj2 Hva) HP). }
  split.
  - split; [done|]. intros va Hua Hu HP. cbv zeta.
    assert (user_va va) as Hva by (unfold user_va, uaddr in *; lia).
    destruct (Hsame va Hva) as (EP & _ & EF). rewrite EP in HP. rewrite EF by done.
    destruct (as_frames _ _ _ _ Has va Hua Hu HP) as (Hv & Hn & Hnp & Hrr).
    split; [done|]. split; [intros Hin; by apply Hn, Hsub|]. split; [done|].
    specialize (Hr _ Hv Hn Hnp). specialize (Hmax (frame_of (pte (memory k0) pgdir va))). lia.
  - intros va Hva. destruct (Hsame va Hva) as (EP & EU & EF).
    apply (uread_same (memory k) va (pte (memory k) pgdir va)); [done|done|done|].
    intros HP i Hi. rewrite EP in HP. rewrite EF by done.
    destruct (as_frames _ _ _ _ Has va (user_va_addr va Hva) (proj2 Hva) HP) as (Hv & Hn & Hnp & _).
    apply Hfr.
    + intros (v & Hin & Hav). pose proof (ki_valid _ _ (pt_kinv _ _ _ _ (as_pt _ _ _ _ Has))) as Hval.
      rewrite list.Forall_forall in Hval.
      apply (pages_apart v _ _ (Hval v Hin) Hv) in Hav; [done|by intros ->|lia].
    + eapply (frame_not_pt Has); [exact Hv|exact Hnp|lia].
Qed.

Lemma frames_rel m pgdir m' pgdir' l :
  (forall va, va ∈ l -> frame_at m pgdir va = frame_at m' pgdir' va) -> frames m pgdir l = frames m' pgdir' l.
Proof.
  intros Hext. induction l as [|a l IH]; [done|]. unfold frames. cbn [omap list_omap].
  rewrite (Hext a (list_elem_of_here _ _)). unfold frames in IH. rewrite IH; [done|].
  intros va Hva. apply Hext. by apply list_elem_of_further.
Qed.

(** All user pages, split around a run that starts at the second page. *)
Lemma upages_split j : PGSIZE * Z.of_nat (1 + j) <= KERNBASE ->
  exists r, upages 0 KERNBASE = [0] ++ run PGSIZE j ++ run (PGSIZE * Z.of_nat (1 + j)) r.
Proof.
  intros Hj. exists (npages 0 KERNBASE - 1 - j)%nat. unfold upages. change (PGROUNDUP 0) with 0.
  assert (1 + j <= npages 0 KERNBASE)%nat as Hle.
  { unfold npages. change (PGROUNDUP 0) with 0. apply Nat2Z.inj_le.
    rewrite Z2Nat.id; unfold KERNBASE, PGSIZE in *; Z.div_mod_to_equations; lia. }
  set (N := npages 0 KERNBASE) in *. replace N with (1 + (j + (N - 1 - j)))%nat at 1 by lia.
  rewrite run_app. change (run 0 1) with [0]. change (0 + PGSIZE * Z.of_nat 1) with PGSIZE.
  rewrite run_app. replace (PGSIZE + PGSIZE * Z.of_nat j) with (PGSIZE * Z.of_nat (1 + j)) by lia. done.
Qed.

(** The child's frames are those of the pages done so far. *)
Lemma child_frames fl0 k0 pgdir T D d fl Td k m j :
  as_inv fl0 pgdir T k0 -> copy_state fl0 k0 pgdir T D d fl Td k -> D = run PGSIZE j ->
  (forall va, va ∈ D -> user_va va) ->
  (forall va, uaddr va -> pte m d va = pte (memory k) d va) ->
  frames m d (upages 0 KERNBASE) = frames (memory k0) pgdir D.
Proof.
  intros Has Hcs HDr HDu Hm.
  assert (PGSIZE * Z.of_nat (1 + j) <= KERNBASE) as Hj.
  { destruct j as [|j]; [done|].
    assert (PGSIZE + PGSIZE * Z.of_nat j ∈ D) as Hin by (rewrite HDr; apply elem_of_run; exists j; split; [lia|done]).
    apply HDu in Hin. unfold user_va, KERNBASE, PGSIZE in *. lia. }
  assert (forall va, va ∈ upages 0 KERNBASE -> user_va va) as Hu.
  { intros va Hva. apply upages_user in Hva as (? & _); [done|unfold KERNBASE; lia|lia]. }
  destruct (upages_split j Hj) as (r & Hsplit). rewrite Hsplit in Hu |- *.
  assert (forall va, va ∈ [0] ++ run PGSIZE j ++ run (PGSIZE * Z.of_nat (1 + j)) r ->
    (forall p, p ∈ D -> va / PGSIZE <> p / PGSIZE) -> flag PTE_P (pte m d va) = false) as Hout.
  { intros va Hva Hn. pose proof (user_va_addr va (Hu va Hva)) as Hua. rewrite Hm by done.
    destruct (cs_rest _ _ _ _ _ _ _ _ _ Hcs va Hua Hn) as [_ ->]; [done|by apply Hu]. }
  rewrite !frames_app, <- HDr.
  rewrite (frames_none m d [0]), (frames_none m d (run (PGSIZE * Z.of_nat (1 + j)) r)), app_nil_r; cbn [app].
  - apply frames_rel. intros va Hva. unfold frame_at. rewrite Hm by (by apply user_va_addr, HDu).
    destruct (flag PTE_P (pte (memory k0) pgdir va)) eqn:HP.
    + destruct (cs_done _ _ _ _ _ _ _ _ _ Hcs va Hva HP) as [_ ->].
      destruct (shared_flags (pte (memory k0) pgdir va)) as (_ & _ & -> & _). rewrite HP.
      rewrite shared_frame; [done|apply pte_range|].
      by destruct (as_frames _ _ _ _ Has va (user_va_addr va (HDu va Hva)) (proj2 (HDu va Hva)) HP).
    + by destruct (cs_skip _ _ _ _ _ _ _ _ _ Hcs va Hva HP) as [_ ->].
  - intros va Hva. apply Hout; [rewrite !elem_of_app; auto|]. intros p Hp E.
    apply elem_of_run in Hva as (i & _ & ->). rewrite HDr in Hp. apply elem_of_run in Hp as (i' & Hi' & ->).
    unfold PGSIZE in *. Z.div_mod_to_equations. lia.
  - intros va Hva. apply Hout; [rewrite !elem_of_app; auto|]. intros p Hp E.
    apply list_elem_of_singleton in Hva as ->. rewrite HDr in Hp. apply elem_of_run in Hp as (i' & Hi' & ->).
    unfold PGSIZE in *. Z.div_mod_to_equations. lia.
Qed.

(** In the parent an entry is as it was, or shared. *)
Lemma copy_parent_pte fl0 k0 pgdir T D d fl Td k va :
  copy_state fl0 k0 pgdir T D d fl Td k -> (forall v, v ∈ D -> user_va v) -> user_va va ->
  pte (memory k) pgdir va = pte (memory k0) pgdir va \/
  (flag PTE_P (pte (memory k0) pgdir va) = true /\ pte (memory k) pgdir va = shared (pte (memory k0) pgdir va)).
Proof.
  intros [_ _ _ _ _ H6' H7' H8' _ _] HDu Hva. pose proof (user_va_addr va Hva) as Hua.
  destruct (decide (Exists (fun p => va / PGSIZE = p / PGSIZE) D)) as [Hex|Hex].
  - apply list.Exists_exists in Hex as (p & Hp & Ep). pose proof (user_va_addr p (HDu p Hp)) as Hup.
    rewrite !(same_page p va) by done. destruct (flag PTE_P (pte (memory k0) pgdir p)) eqn:HPp.
    + right. split; [done|]. by apply H6'.
    + left. by apply H7'.
  - left. apply H8'; [done|]. intros p Hp Ep. apply Hex. apply list.Exists_exists. eauto.
Qed.

Section Abort.
Context {fl0 : list Z} {k0 : kmem} {pgdir : Z} {T : gmap Z Z} (Has : as_inv fl0 pgdir T k0).
Context {D : list Z} {d : Z} {fl : list Z} {Td : gmap Z Z} {k : kmem}.
Context (Hcs : copy_state fl0 k0 pgdir T D d fl Td k).
Context {j : nat} (HDr : D = run PGSIZE j) (HDu : forall v, v ∈ D -> user_va v).
Context {R : list Z} (Hca : copyable k0 pgdir (D ++ R)).

Lemma done_frames q : q ∈ frames (memory k0) pgdir D ->
  valid_page q /\ q ∉ fl0 /\ ~ pt_page pgdir T q /\ 1 <= refs k0 q.
Proof.
  intros Hq. apply list_elem_of_omap in Hq as (va & Hin & Hfa). unfold frame_at in Hfa.
  destruct (flag PTE_P (pte (memory k0) pgdir va)) eqn:HP; [|done]. injection Hfa as <-.
  pose proof (HDu va Hin) as Hv.
  destruct (as_frames _ _ _ _ Has va (user_va_addr va Hv) (proj2 Hv) HP) as (? & ? & ? & ?). by split_and!; [..|lia].
Qed.

Lemma child_noswap va : va ∈ upages 0 KERNBASE -> flag PTE_S (pte (memory k) d va) = false.
Proof.
  intros Hv. apply upages_user in Hv as (Hvu & Hval & _); [|unfold KERNBASE; lia|lia].
  pose proof (user_va_addr va Hvu) as Hvua. destruct Hcs as [_ _ _ _ _ H6' H7' H8' _ _].
  destruct (decide (va ∈ D)) as [HvD|HvD].
  - destruct (flag PTE_P (pte (memory k0) pgdir va)) eqn:HPv.
    + destruct (H6' va HvD HPv) as [_ ->]. destruct (shared_flags (pte (memory k0) pgdir va)) as (_ & _ & _ & _ & ->).
      apply (ca_noswap _ _ _ Hca). rewrite elem_of_app. by left.
    + by destruct (H7' va HvD HPv) as [_ ->].
  - destruct (H8' va Hvua) as [_ ->]; [|done|done]. intros p Hp E. apply HvD.
    rewrite HDr in Hp |- *. apply elem_of_run in Hp as (i & Hi & ->).
    apply elem_of_run. exists i. split; [done|]. unfold PGSIZE in *. Z.div_mod_to_equations. lia.
Qed.

Lemma child_freeable k1 :
  pt_inv fl d Td k1 -> (forall v, refs k1 v = refs k v) ->
  (forall va, uaddr va -> pte (memory k1) d va = pte (memory k) d va) ->
  freeable fl d Td k1 (upages 0 KERNBASE) /\
  frames (memory k1) d (upages 0 KERNBASE) = frames (memory k0) pgdir D.
Proof.
  intros Hc1 Hr1 Hco1. pose proof (child_frames _ _ _ _ _ _ _ _ _ (memory k1) j Has Hcs HDr HDu Hco1) as HF.
  split; [|done]. pose proof (cs_pages _ _ _ _ _ _ _ _ _ Hcs) as H5'. split; [done| | |].
  - intros v Hv. apply upages_user in Hv as (? & ? & _); [done|unfold KERNBASE; lia|lia].
  - rewrite HF. intros q Hq. destruct (done_frames q Hq) as (Hqv & Hq0 & Hqp & Hq1).
    split; [done|]. split; [intros Hin; apply Hq0, H5'; by left|].
    split; [intros Hin; apply Hq0, H5'; by right|].
    rewrite Hr1, (cs_refs _ _ _ _ _ _ _ _ _ Hcs) by done.
    pose proof (ca_refs _ _ _ Hca q) as Hmax. rewrite frames_app, occ_app in Hmax.
    pose proof (occ_nonneg q (frames (memory k0) pgdir R)). lia.
  - intros v Hv. pose proof Hv as Hv'. apply upages_user in Hv' as (Hvu & _ & _); [|unfold KERNBASE; lia|lia].
    rewrite Hco1 by (by apply user_va_addr). by apply child_noswap.
Qed.

(** Freeing the half-built child puts every page and count back. *)
Lemma copy_abort va t s :
  user_va va -> (forall p, p ∈ D -> va / PGSIZE <> p / PGSIZE) ->
  flag PTE_P (pte (memory k0) pgdir va) = true -> T !! PDX va = Some t ->
  sub_get s = step_mem (k0 := k0) (pgdir := pgdir) (k := k) (va := va) t ->
  wp (freevm d) (fun _ s' => exists fl2 k2, s' = sub_put k2 s /\ copy_failed fl0 k0 pgdir T fl2 k2) s.
Proof.
  intros Hva Hnew HP Ht Hs.
  destruct (step_store Hcs Hva t Ht) as (Hp1 & Hc1 & Hpte1 & Hpo1 & Hco1 & Hfr1).
  set (k1 := step_mem t) in *.
  destruct (child_freeable k1 Hc1 (fun v => eq_refl) Hco1) as [Hable HF].
  pose proof Hcs as [H1' H2' H3' H4' H5' H6' H7' H8' H9' H10'].
  eapply wp_mono; [apply (freevm_spec fl d Td s)|].
  { by rewrite Hs. } { intros v Hv. rewrite Hs. change (refs k1 v) with (refs k v). by apply H4'. }
  rewrite Hs, HF. intros [] s' (fl2 & k2 & -> & [Hk2 Hf2 Hr2 Hfr2]). exists fl2, k2. split; [done|].
  assert (forall v, v ∈ fl2 <-> v ∈ fl0) as Hfl2.
  { intros v. rewrite Hf2, H5'. split; [|tauto]. intros [?|[?|[Hin Hr]]]; [by left|by right|].
    destruct (done_frames v Hin) as (Hv & Hn & _ & H1''). change (refs k1 v) with (refs k v) in Hr.
    rewrite H9' in Hr by done. lia. }
  assert (forall v, valid_page v -> v ∉ fl0 -> refs k2 v = refs k0 v) as Hrr.
  { intros v Hv Hn. rewrite Hr2; [|done|intros Hp; apply Hn, H5'; by right].
    change (refs k1 v) with (refs k v). rewrite H9' by done. lia. }
  pose proof (ki_valid _ _ (pt_kinv _ _ _ _ (as_pt _ _ _ _ Has))) as Hval. rewrite list.Forall_forall in Hval.
  assert (forall a, pt_bytes pgdir T a -> ld8 (memory k2) a = ld8 (memory k1) a) as Hpb.
  { intros a (u & Hu & Hau). apply Hfr2. intros v Hv Hvn Hav. apply Hfl2 in Hv.
    destruct (pt_valid _ _ _ _ (as_pt _ _ _ _ Has) u Hu) as [Huv Huf].
    apply (pages_apart u v a Huv (Hval v Hv)); [by intros ->|done|done]. }
  assert (pt_inv fl2 pgdir T k2) as Hpt2.
  { apply (pt_inv_frame Hp1); [done| |done]. intros v Hv. rewrite Hfl2.
    by destruct (pt_valid _ _ _ _ (as_pt _ _ _ _ Has) v Hv). }
  destruct (parent_as fl0 k0 pgdir T (D ++ R) fl2 k2 Has Hpt2) as [Has2 Hrd].
  - intros v. by rewrite Hfl2.
  - intros va' Hva'. pose proof (user_va_addr va' Hva') as Hua'. rewrite (pte_frame Hp1 (memory k2)) by done.
    destruct (decide (va' / PGSIZE = va / PGSIZE)) as [E|E].
    + right. rewrite !(same_page va va') by (done || by apply user_va_addr). done.
    + rewrite Hpo1 by done. by eapply copy_parent_pte.
  - intros v Hv Hn _. rewrite Hrr by done. pose proof (occ_nonneg v (frames (memory k0) pgdir (D ++ R))). lia.
  - by apply (ca_refs _ _ _ Hca).
  - intros a Ha Hna. rewrite Hfr2, Hfr1; [by apply H10'|done|]. intros v Hv _ Hav. apply Ha.
    exists v. split; [by apply Hfl2|done].
  - split; [done|done| |done]. intros v Hv. destruct (decide (v ∈ fl0)) as [Hin|Hin]; [|by apply Hrr].
    pose proof (ki_free _ _ Hk2) as Hz. pose proof (ki_free _ _ (pt_kinv _ _ _ _ (as_pt _ _ _ _ Has))) as Hz0.
    rewrite list.Forall_forall in Hz, Hz0. rewrite Hz0 by done. apply Hz. by apply Hfl2.
Qed.
End Abort.

(** The panic of the loop: some page of the range has no page table. *)
Definition no_table (T : gmap Z Z) (R : list Z) (e : stop) : Prop :=
  e = Panics "copyuvm: pte should exist" /\ exists va, va ∈ R /\ T !! PDX va = None.

Section Loop.
Context {fl0 : list Z} {k0 : kmem} {pgdir : Z} {T : gmap Z Z} (Has : as_inv fl0 pgdir T k0).
Context {sz : Z} (Hsz : sz <= KERNBASE).

(** Out of pages, everything free before is now in the child's page table. *)
Lemma copy_short D d fl Td k : copy_state fl0 k0 pgdir T D d fl Td k -> fl = [] -> (length fl0 <= 1026)%nat.
Proof.
  intros Hcs ->. pose proof (length_pt_list _ _ _ _ (cs_chd _ _ _ _ _ _ _ _ _ Hcs)).
  assert (length fl0 <= length (pt_list d Td))%nat; [|lia].
  apply NoDup_incl_length; [apply NoDup_ListNoDup, (ki_nodup _ _ (pt_kinv _ _ _ _ (as_pt _ _ _ _ Has)))|].
  intros v Hv%list_elem_of_In. apply list_elem_of_In, elem_of_pt_list.
  apply (cs_pages _ _ _ _ _ _ _ _ _ Hcs) in Hv as [Hv%elem_of_nil|Hv]; done.
Qed.

(** Sharing one present page: it ends in the next state, or in the abort. *)
Lemma share_exec j R d fl Td s va t :
  copy_state fl0 k0 pgdir T (run PGSIZE j) d fl Td (sub_get s) ->
  copyable k0 pgdir (run PGSIZE j ++ va :: R) -> va = PGSIZE * Z.of_nat (1 + j) ->
  flag PTE_P (pte (memory k0) pgdir va) = true -> T !! PDX va = Some t ->
  wp (store (t + 4 * PTX va) (shared (pte (memory k0) pgdir va)) ;;;
      v <- load (t + 4 * PTX va) ;;
      r <- lift (mappages d va PGSIZE (PTE_ADDR v) (PTE_FLAGS v)) ;;
      if r <? 0 then freevm d ;;; kret None else lift (inc_ref_pa (PTE_ADDR v)) ;;; kret (Some tt))
    (fun o s' => exists k2, s' = sub_put k2 s /\
       match o with
       | Some _ => exists fl2 Td2, copy_state fl0 k0 pgdir T (run PGSIZE j ++ [va]) d fl2 Td2 k2
       | None => (length fl0 <= 1026)%nat /\ exists fl2, copy_failed fl0 k0 pgdir T fl2 k2
       end) s.
Proof.
  intros Hcs Hca Hvaj HP Ht. set (k := sub_get s) in *. set (e0 := pte (memory k0) pgdir va) in *.
  destruct (ca_user _ _ _ Hca va) as [Hva Hal]; [rewrite elem_of_app; right; apply list_elem_of_here|].
  pose proof (user_va_addr va Hva) as Hua.
  assert (forall p, p ∈ run PGSIZE j -> user_va p) as HDu.
  { intros p Hp. apply (ca_user _ _ _ Hca). rewrite elem_of_app. by left. }
  assert (forall p, p ∈ run PGSIZE j -> va / PGSIZE <> p / PGSIZE) as Hnew.
  { intros p Hp. apply elem_of_run in Hp as (i & Hi & ->). rewrite Hvaj. unfold PGSIZE. Z.div_mod_to_equations. lia. }
  destruct (step_frame Has Hcs Hva HP) as (Hqv & Hq0 & Hqf & Hqp & Hqd). fold e0 in Hqv, Hq0, Hqf, Hqp, Hqd.
  destruct (valid_page_pa _ Hqv) as [_ Hpa].
  destruct (step_store Hcs Hva t Ht) as (Hp1 & Hc1 & Hpte1 & Hpo1 & Hco1 & Hfr1). fold e0 in Hpte1.
  pose proof (pte_range (memory k0) pgdir va) as Her. fold e0 in Her. pose proof (shared_range e0 Her) as Hsr.
  destruct (shared_flags e0) as (_ & _ & HsP & _). rewrite HP in HsP.
  assert (PTE_ADDR (shared e0) = V2P (frame_of e0)) as HA.
  { rewrite frame_addr by done. f_equal. by apply shared_frame. }
  destruct (entry_split _ Hsr) as (_ & _ & _ & Hfl).
  apply wp_bind, wp_store. fold k. change (set_memory _ k) with (step_mem (k0 := k0) (pgdir := pgdir) (k := k) (va := va) t).
  apply wp_bind, wp_load. rewrite sub_get_put. rewrite (pte_at Hp1 Hua Ht), Hpte1.
  apply wp_bind, wp_lift. rewrite sub_get_put.
  eapply wp_mono; [eapply wp_run; [by apply mappages_one|]; apply (map_page fl d Td)|]; try done.
  { rewrite Hco1 by done. by destruct (step_pte Hcs Hva Hnew) as [_ ->]. }
  { rewrite HA. unfold PHYSTOP in *. lia. } { by rewrite HA. }
  intros r k2 [(-> & -> & Hfull & _)|(-> & fl2 & Td2 & Hm)]; cbn [Z.ltb Z.compare].
  - pose proof (copy_short _ _ _ _ _ Hcs Hfull) as Hlen. apply wp_bind. eapply wp_mono; [eapply (copy_abort Has Hcs eq_refl HDu Hca va t); try done; by rewrite sub_get_put|].
    intros [] s' (fl2 & k2 & -> & Hf). apply wp_ret. exists k2. rewrite !sub_put_put. eauto 6.
  - rewrite reenter in Hm by done. rewrite HA. apply wp_bind.
    assert (refs k2 (frame_of e0) = refs k (frame_of e0)) as Hrq by (by apply (mp_refs _ _ _ _ _ _ _ _ _ Hm)).
    eapply wp_lift_eq.
    { rewrite sub_get_put. apply inc_ref_pa_eq; [done|].
      by destruct (ki_locks _ _ (pt_kinv _ _ _ _ (mp_inv _ _ _ _ _ _ _ _ _ Hm))). }
    apply wp_ret. eexists. rewrite !sub_put_put. split; [done|]. exists fl2, Td2.
    fold (refs k2 (frame_of e0)). rewrite Hrq.
    eapply (copy_share Has Hcs Hva Hnew HDu HP t); [done| |exact Hm].
    pose proof (cs_refs _ _ _ _ _ _ _ _ _ Hcs _ Hqv Hq0) as Hrk. fold e0 k in Hrk. fold e0 k.
    pose proof (ca_refs _ _ _ Hca (frame_of e0)) as Hmax. rewrite frames_app, occ_app in Hmax.
    pose proof (occ_nonneg (frame_of e0) (frames (memory k0) pgdir (va :: R))).
    destruct (as_frames _ _ _ _ Has va Hua (proj2 Hva) HP) as (_ & _ & _ & Hlo & _).
    pose proof (occ_nonneg (frame_of e0) (frames (memory k0) pgdir (run PGSIZE j))).
    fold e0 in Hlo. apply s32_id. lia.
Qed.

Lemma share_code {A} (a v0 d va : Z) (bad : A) (next : M S A) s :
  (store a v0 ;;;
   v <- load a ;;
   r <- lift (mappages d va PGSIZE (PTE_ADDR v) (PTE_FLAGS v)) ;;
   if r <? 0 then freevm d ;;; kret bad else lift (inc_ref_pa (PTE_ADDR v)) ;;; next) s =
  (o <- (store a v0 ;;;
         v <- load a ;;
         r <- lift (mappages d va PGSIZE (PTE_ADDR v) (PTE_FLAGS v)) ;;
         if r <? 0 then freevm d ;;; kret None else lift (inc_ref_pa (PTE_ADDR v)) ;;; kret (Some tt)) ;;
   match o with Some _ => next | None => kret bad end) s.
Proof.
  unfold kbind, kret. destruct (store a v0 s); try done. destruct (load a s0) as [v s1| | | |]; try done.
  destruct (lift _ s1) as [r s2| | | |]; try done. destruct (r <? 0); [by destruct (freevm d s2)|].
  by destruct (lift (inc_ref_pa (PTE_ADDR v)) s2).
Qed.

(** The outcomes of the loop: all the pages shared, or the abort. *)
Definition copy_post (d : Z) (n : nat) (s : S) (r : Z) (s' : S) : Prop := exists k2, s' = sub_put k2 s /\
  ((r = d /\ (forall va, va ∈ run PGSIZE n -> is_Some (T !! PDX va)) /\
      exists fl2 Td2, copy_state fl0 k0 pgdir T (run PGSIZE n) d fl2 Td2 k2) \/
   (r = 0 /\ (length fl0 <= 1026)%nat /\ exists fl2, copy_failed fl0 k0 pgdir T fl2 k2)).

Lemma copyuvm_loop_spec d n : forall fuel j fl Td s,
  copy_state fl0 k0 pgdir T (run PGSIZE j) d fl Td (sub_get s) ->
  copyable k0 pgdir (run PGSIZE (j + n)) -> (forall va, va ∈ run PGSIZE j -> is_Some (T !! PDX va)) ->
  upto (PGSIZE * Z.of_nat (1 + j)) n sz -> (n < fuel)%nat ->
  wpe (copyuvm_loop fuel pgdir d (PGSIZE * Z.of_nat (1 + j)) sz) (copy_post d (j + n) s) (no_table T (run PGSIZE (j + n))) s.
Proof.
  induction n as [|n IH]; intros fuel j fl Td s Hcs Hca Hall Hup Hfuel; (destruct fuel as [|fuel]; [lia|]);
    cbn [copyuvm_loop]; set (va := PGSIZE * Z.of_nat (1 + j)) in *.
  { destruct Hup as [[_ Hup]|[? _]]; [|lia]. rewrite (proj2 (Z.ltb_ge _ _)) by done. cbn [negb].
    exists (sub_get s). rewrite sub_put_get, Nat.add_0_r. split; [done|]. left. eauto. }
  assert (run PGSIZE (j + Datatypes.S n) = run PGSIZE j ++ va :: run (PGSIZE * Z.of_nat (1 + Datatypes.S j)) n) as Hrun.
  { rewrite run_app. cbn [run]. unfold va. do 2 f_equal; [lia|]. f_equal. lia. }
  assert (run PGSIZE (Datatypes.S j) = run PGSIZE j ++ [va]) as Hsnoc.
  { rewrite <- Nat.add_1_r, run_app. cbn [run]. do 2 f_equal. unfold va. lia. }
  pose proof Hca as Hca'. rewrite Hrun in Hca'.
  assert (va ∈ run PGSIZE (j + Datatypes.S n)) as Hin by (rewrite Hrun, elem_of_app; right; apply list_elem_of_here).
  destruct (ca_user _ _ _ Hca va Hin) as [Hva Hal].
  pose proof (user_va_addr va Hva) as Hua. pose proof (cs_par _ _ _ _ _ _ _ _ _ Hcs) as Hpt.
  assert (forall p, p ∈ run PGSIZE j -> va / PGSIZE <> p / PGSIZE) as Hnew.
  { intros p Hp. apply elem_of_run in Hp as (i & Hi & ->). unfold va, PGSIZE. Z.div_mod_to_equations. lia. }
  assert (va < sz) as Hlt by (destruct Hup as [[? _]|[_ Hup]]; [lia|unfold PGSIZE in *; lia]).
  assert (u32 (va + PGSIZE) = PGSIZE * Z.of_nat (1 + Datatypes.S j)) as Enext.
  { rewrite u32_id; unfold va, uaddr, KERNBASE, PGSIZE in *; lia. }
  assert (upto (PGSIZE * Z.of_nat (1 + Datatypes.S j)) n sz) as Hup'.
  { destruct Hup as [[? _]|[_ Hup]]; [lia|]. unfold va in *.
    destruct n as [|n]; [left|right]; (split; [lia|]); unfold PGSIZE in *; lia. }
  assert (is_Some (T !! PDX va) -> forall k2, (exists fl2 Td2, copy_state fl0 k0 pgdir T (run PGSIZE j ++ [va]) d fl2 Td2 k2) ->
    wpe (copyuvm_loop fuel pgdir d (u32 (va + PGSIZE)) sz) (copy_post d (j + Datatypes.S n) s)
      (no_table T (run PGSIZE (j + Datatypes.S n))) (sub_put k2 s)) as Hnext.
  { intros Hsome k2 (fl2 & Td2 & Hcs2). rewrite Enext. rewrite <- Hsnoc in Hcs2.
    replace (j + Datatypes.S n)%nat with (Datatypes.S j + n)%nat in * by lia.
    eapply wpe_mono; [apply (IH fuel (Datatypes.S j) fl2 Td2)| |done]; rewrite ?sub_get_put; try done; [|lia|].
    { intros v. rewrite Hsnoc, elem_of_app, list_elem_of_singleton. intros [?| ->]; auto. }
    intros r s' (k3 & -> & Hres). exists k3. by rewrite sub_put_put. }
  rewrite (proj2 (Z.ltb_lt _ _) Hlt). cbn [negb].
  destruct (T !! PDX va) as [t|] eqn:Ht; last first.
  { eapply wpe_bind_eq; [unfold lift; rewrite (walkpgdir_miss Hpt va Hua Ht); reflexivity|]. cbn. split; [done|]. by exists va. }
  eapply wpe_bind_eq; [unfold lift; rewrite (walkpgdir_hit Hpt va t false Hua Ht), sub_put_get; reflexivity|].
  rewrite (proj2 (Z.eqb_neq _ _) (entry_nonnull Hpt va t Hua Ht)).
  destruct (step_pte Hcs Hva Hnew) as [Hpte _].
  assert (load (t + 4 * PTX va) s = Ok (pte (memory k0) pgdir va) s) as Hld.
  { unfold load, lift. cbn. by rewrite (pte_at Hpt Hua Ht), Hpte, sub_put_get. }
  eapply wpe_bind_eq; [exact Hld|]. rewrite (ca_noswap _ _ _ Hca va Hin). eapply wpe_bind_eq; [reflexivity|].
  eapply wpe_bind_eq; [exact Hld|].
  destruct (flag PTE_P (pte (memory k0) pgdir va)) eqn:HP; cbn [negb].
  - eapply wpe_run; [apply (share_code _ (shared (pte (memory k0) pgdir va)))|].
    eapply wpe_bind_wp; [by eapply (share_exec j _ d fl Td s va t)|].
    intros [u|] s' (k2 & -> & Hres); [by apply Hnext|]. exists k2. split; [done|]. by right.
  - pose proof (Hnext ltac:(done) (sub_get s)) as Hn. rewrite sub_put_get in Hn. apply Hn. exists fl, Td. by apply copy_skip.
Qed.
End Loop.

(** ** The result *)

(** A successful copy: two address spaces with the same view, sharing
    read-only frames that count both of them. *)
Record forked (fl : list Z) (k : kmem) (pgdir : Z) (T : gmap Z Z) (sz d : Z)
    (fl' : list Z) (Td : gmap Z Z) (k' : kmem) : Prop := {
  fk_parent : as_inv fl' pgdir T k';
  fk_child : as_inv fl' d Td k';
  fk_sep : separate (memory k') pgdir T d Td;
  fk_pages : forall v, v ∈ fl <-> v ∈ fl' \/ pt_page d Td v;
  fk_parent_reads : forall va, user_va va -> uread (memory k') pgdir va = uread (memory k) pgdir va;
  fk_child_reads : forall va, PGSIZE <= va < PGROUNDUP sz ->
    uread (memory k') d va = uread (memory k) pgdir va;
  fk_cow : forall va, PGSIZE <= va < PGROUNDUP sz -> flag PTE_P (pte (memory k') pgdir va) = true ->
    pte (memory k') d va = pte (memory k') pgdir va /\
    flag PTE_C (pte (memory k') pgdir va) = true /\ flag PTE_W (pte (memory k') pgdir va) = false;
  fk_shared : forall va, user_va va -> flag PTE_P (pte (memory k') d va) = true ->
    1 < refs k' (frame_of (pte (memory k') d va));
  fk_refs : forall v, valid_page v -> v ∉ fl ->
    refs k' v = refs k v + occ v (frames (memory k) pgdir (upages PGSIZE sz))
}.

Lemma upages_cover sz va : 0 <= sz <= KERNBASE -> PGSIZE <= va < PGROUNDUP sz ->
  user_va va /\ exists p, p ∈ upages PGSIZE sz /\ va / PGSIZE = p / PGSIZE.
Proof.
  intros Hsz Hva. destruct (PGROUNDUP_facts sz Hsz) as (Hr & Hm & _ & Hk). split; [unfold user_va, PGSIZE in *; lia|].
  exists (va / PGSIZE * PGSIZE). split; [|unfold PGSIZE; Z.div_mod_to_equations; lia].
  apply elem_of_run. unfold npages. change (PGROUNDUP PGSIZE) with PGSIZE. exists (Z.to_nat (va / PGSIZE - 1)).
  set (r := PGROUNDUP sz) in *. unfold PGSIZE in *. rewrite Z2Nat.id by (Z.div_mod_to_equations; lia).
  split; [apply Z2Nat.inj_lt; Z.div_mod_to_equations; lia|]. lia.
Qed.

Lemma upages_start sz : 0 <= sz <= KERNBASE ->
  upages PGSIZE sz = run PGSIZE (npages PGSIZE sz) /\
  upto (PGSIZE * Z.of_nat (1 + 0)) (npages PGSIZE sz) sz /\
  (npages PGSIZE sz < Datatypes.S (Z.to_nat (sz / PGSIZE + 1)))%nat.
Proof.
  intros Hsz. split; [done|]. unfold upto, npages. change (PGROUNDUP PGSIZE) with PGSIZE.
  change (PGSIZE * Z.of_nat (1 + 0)) with PGSIZE. unfold PGSIZE. split.
  - destruct (Z.le_gt_cases sz 4096); [left|right]; Z.div_mod_to_equations; lia.
  - Z.div_mod_to_equations. lia.
Qed.

Section Result.
Context {fl : list Z} {k : kmem} {pgdir : Z} {T : gmap Z Z} {sz d : Z} {fl' : list Z} {Td : gmap Z Z} {k' : kmem}.
Context (Has : as_inv fl pgdir T k) (Hsz : 0 <= sz <= KERNBASE).
Notation D := (upages PGSIZE sz).
Context (Hca : copyable k pgdir D) (Hcs : copy_state fl k pgdir T D d fl' Td k').

Lemma result_user v : v ∈ D -> user_va v.
Proof. intros Hv. by apply (ca_user _ _ _ Hca). Qed.

(** What the child maps, the parent mapped. *)
Lemma child_present va : user_va va -> flag PTE_P (pte (memory k') d va) = true ->
  exists p, p ∈ D /\ va / PGSIZE = p / PGSIZE /\ flag PTE_P (pte (memory k) pgdir p) = true.
Proof.
  intros Hva HP. pose proof (user_va_addr va Hva) as Hua. pose proof Hcs as [_ _ _ _ _ _ H7' H8' _ _].
  destruct (decide (Exists (fun p => va / PGSIZE = p / PGSIZE) D)) as [Hex|Hex].
  - apply list.Exists_exists in Hex as (p & Hp & Ep). pose proof (user_va_addr p (result_user p Hp)) as Hup.
    exists p. split; [done|]. split; [done|]. rewrite (same_page p va Hup Hua Ep) in HP.
    destruct (flag PTE_P (pte (memory k) pgdir p)) eqn:HPp; [done|].
    by destruct (H7' p Hp HPp) as [_ E]; rewrite E in HP.
  - destruct (H8' va Hua) as [_ E]; [|by rewrite E in HP].
    intros p Hp Ep. apply Hex, list.Exists_exists. eauto.
Qed.

Lemma child_entry p : p ∈ D -> flag PTE_P (pte (memory k) pgdir p) = true ->
  let q := frame_of (pte (memory k) pgdir p) in
  pte (memory k') d p = shared (pte (memory k) pgdir p) /\ frame_of (pte (memory k') d p) = q /\
  valid_page q /\ q ∉ fl /\ ~ pt_page pgdir T q /\ 1 < refs k' q < 2 ^ 31.
Proof.
  intros Hp HP q. pose proof (result_user p Hp) as Hpu.
  destruct (cs_done _ _ _ _ _ _ _ _ _ Hcs p Hp HP) as [_ E]. split; [done|].
  destruct (as_frames _ _ _ _ Has p (user_va_addr p Hpu) (proj2 Hpu) HP) as (Hv & Hn & Hnp & Hr).
  split; [rewrite E; apply shared_frame; [apply pte_range|done]|]. do 3 (split; [done|]).
  rewrite (cs_refs _ _ _ _ _ _ _ _ _ Hcs) by done. pose proof (ca_refs _ _ _ Hca q) as Hmax. fold q in Hr.
  assert (1 <= occ q (frames (memory k) pgdir D)); [|lia]. apply occ_pos, list_elem_of_omap.
  exists p. split; [done|]. unfold frame_at. by rewrite HP.
Qed.

Lemma child_frame va : user_va va -> flag PTE_P (pte (memory k') d va) = true ->
  let q := frame_of (pte (memory k') d va) in
  valid_page q /\ q ∉ fl /\ ~ pt_page pgdir T q /\ 1 < refs k' q < 2 ^ 31.
Proof.
  intros Hva HP. destruct (child_present va Hva HP) as (p & Hp & Ep & HPp).
  rewrite (same_page p va (user_va_addr p (result_user p Hp)) (user_va_addr va Hva) Ep).
  destruct (child_entry p Hp HPp) as (_ & E & Hrest). cbv zeta. by rewrite E.
Qed.

Lemma child_reads va : PGSIZE <= va < PGROUNDUP sz -> uread (memory k') d va = uread (memory k) pgdir va.
Proof.
  intros Hva. destruct (upages_cover sz va Hsz Hva) as (Hvu & p & Hp & Ep).
  pose proof (result_user p Hp) as Hpu. unfold uread.
  rewrite !(same_page p va (user_va_addr p Hpu) (user_va_addr va Hvu) Ep).
  destruct (flag PTE_P (pte (memory k) pgdir p)) eqn:HP.
  - destruct (child_entry p Hp HP) as (E & Ef & Hqv & Hqn & Hqp & _). rewrite E in Ef |- *.
    destruct (shared_flags (pte (memory k) pgdir p)) as (_ & _ & -> & -> & _). rewrite HP. cbn [andb].
    case_cond; [|done]. fold (frame_of (shared (pte (memory k) pgdir p))) (frame_of (pte (memory k) pgdir p)).
    rewrite Ef. f_equal. pose proof (page_offset va).
    apply (cs_frame _ _ _ _ _ _ _ _ _ Hcs).
    + intros (v & Hin & Hav). pose proof (ki_valid _ _ (pt_kinv _ _ _ _ (as_pt _ _ _ _ Has))) as Hval.
      rewrite list.Forall_forall in Hval.
      apply (pages_apart v _ _ (Hval v Hin) Hqv) in Hav; [done|by intros ->|lia].
    + eapply (frame_not_pt Has); [exact Hqv|exact Hqp|lia].
  - destruct (cs_skip _ _ _ _ _ _ _ _ _ Hcs p Hp HP) as [_ ->]. done.
Qed.

Lemma copy_forked : forked fl k pgdir T sz d fl' Td k'.
Proof.
  destruct (parent_as fl k pgdir T D fl' k' Has (cs_par _ _ _ _ _ _ _ _ _ Hcs)) as [Hpar Hrd].
  { intros v Hv. apply (cs_pages _ _ _ _ _ _ _ _ _ Hcs). by left. }
  { intros va Hva. by eapply copy_parent_pte; [|apply result_user|]. }
  { intros v Hv Hn _. rewrite (cs_refs _ _ _ _ _ _ _ _ _ Hcs) by done. pose proof (occ_nonneg v (frames (memory k) pgdir D)). lia. }
  { by apply (ca_refs _ _ _ Hca). } { by eapply cs_frame. }
  pose proof Hcs as [H1' H2' H3' H4' H5' H6' H7' H8' H9' H10'].
  split; [done| | |done|done|by apply child_reads| | |done].
  - split; [done|]. intros va Hua Hu HP. assert (user_va va) as Hva by (unfold user_va, uaddr in *; lia).
    destruct (child_frame va Hva HP) as (Hv & Hn & Hnp & Hr). cbv zeta.
    split; [done|]. split; [intros Hin; apply Hn, H5'; by left|]. split; [intros Hin; apply Hn, H5'; by right|lia].
  - split; [done| |].
    + intros va Hva HP. by destruct (child_frame va Hva HP) as (_ & _ & ? & _).
    + intros va Hva HP Hin.
      destruct (copy_parent_pte _ _ _ _ _ _ _ _ _ va Hcs result_user Hva) as [E|[HP0 E]].
      * rewrite E in HP, Hin. destruct (as_frames _ _ _ _ Has va (user_va_addr va Hva) (proj2 Hva) HP) as (_ & Hn & _).
        apply Hn, H5'. by right.
      * destruct (as_frames _ _ _ _ Has va (user_va_addr va Hva) (proj2 Hva) HP0) as (Hv & Hn & _).
        rewrite E, shared_frame in Hin by (done || apply pte_range). apply Hn, H5'. by right.
  - intros va Hva HP. destruct (upages_cover sz va Hsz Hva) as (Hvu & p & Hp & Ep).
    pose proof (result_user p Hp) as Hpu.
    rewrite !(same_page p va (user_va_addr p Hpu) (user_va_addr va Hvu) Ep) in *.
    destruct (flag PTE_P (pte (memory k) pgdir p)) eqn:HP0.
    + destruct (H6' p Hp HP0) as [-> ->]. by destruct (shared_flags (pte (memory k) pgdir p)) as (? & ? & _).
    + destruct (H7' p Hp HP0) as [E _]. rewrite E in HP. congruence.
  - intros va Hva HP. by destruct (child_frame va Hva HP) as (_ & _ & _ & ? & _).
Qed.
End Result.

(** The state [setupkvm] leaves is the start of the loop. *)
Lemma copy_start fl k pgdir T d fl' Td k' :
  as_inv fl pgdir T k -> kvm_state fl k d fl' Td k' -> copy_state fl k pgdir T [] d fl' Td k'.
Proof.
  intros Has Hkv. pose proof (fun va => kvm_no_user _ _ _ _ _ _ va Hkv) as Hnone.
  destruct Hkv as [Hpt Hu Hpg Hone Hr Hfr]. pose proof (as_pt _ _ _ _ Has) as Hpp.
  assert (forall a, pt_bytes pgdir T a -> ld8 (memory k') a = ld8 (memory k) a) as Hb.
  { intros a (v & Hv & Ha). apply Hfr. intros (u & Hin & Hau).
    destruct (pt_valid _ _ _ _ Hpp v Hv) as [Hvv Hvn].
    pose proof (ki_valid _ _ (pt_kinv _ _ _ _ Hpp)) as Hval. rewrite list.Forall_forall in Hval.
    apply (pages_apart u v a (Hval u Hin) Hvv); [by intros ->|done|done]. }
  split; try done.
  - apply (pt_inv_frame Hpp); [by eapply pt_kinv| |done]. intros v Hv Hin.
    destruct (pt_valid _ _ _ _ Hpp v Hv) as [_ Hn]. apply Hn, Hpg. by left.
  - intros v Hv Hp. destruct (pt_valid _ _ _ _ Hpp v Hp) as [_ Hn]. apply Hn, Hpg. by right.
  - intros va Hva. by apply elem_of_nil in Hva.
  - intros va Hva. by apply elem_of_nil in Hva.
  - intros va Hva _. split; [by apply (pte_frame Hpp)|by apply Hnone].
  - intros v Hv Hn. rewrite Hr by done. unfold frames, occ. simpl. lia.
  - intros a Ha _. by apply Hfr.
Qed.

Lemma setup_failed fl k pgdir T fl2 k2 :
  as_inv fl pgdir T k -> kinv fl2 k2 -> (forall v, v ∈ fl2 <-> v ∈ fl) ->
  (forall v, valid_page v -> refs k2 v = refs k v) ->
  (forall a, ~ in_pages fl a -> ld8 (memory k2) a = ld8 (memory k) a) -> (forall v, refs k v < 2 ^ 31 - 1) ->
  copy_failed fl k pgdir T fl2 k2.
Proof.
  intros Has Hk Hfl Hr Hfr Hmax. pose proof (as_pt _ _ _ _ Has) as Hpp.
  assert (forall a, pt_bytes pgdir T a -> ld8 (memory k2) a = ld8 (memory k) a) as Hb.
  { intros a (v & Hv & Ha). apply Hfr. intros (u & Hin & Hau).
    destruct (pt_valid _ _ _ _ Hpp v Hv) as [Hvv Hvn].
    pose proof (ki_valid _ _ (pt_kinv _ _ _ _ Hpp)) as Hval. rewrite list.Forall_forall in Hval.
    apply (pages_apart u v a (Hval u Hin) Hvv); [by intros ->|done|done]. }
  destruct (parent_as fl k pgdir T [] fl2 k2 Has) as [Has2 Hrd]; [| | | | | |by split].
  - apply (pt_inv_frame Hpp); [done| |done]. intros v Hv. rewrite Hfl. by destruct (pt_valid _ _ _ _ Hpp v Hv).
  - intros v. by rewrite Hfl.
  - intros va Hva. left. apply (pte_frame Hpp); [by apply user_va_addr|done].
  - intros v Hv _ _. rewrite Hr by done. unfold frames, occ. simpl. lia.
  - intros v. unfold frames, occ. simpl. specialize (Hmax v). lia.
  - intros a Ha _. by apply Hfr.
Qed.

Lemma upages_copyable k pgdir sz : 0 <= sz <= KERNBASE ->
  (forall va, va ∈ upages PGSIZE sz -> flag PTE_S (pte (memory k) pgdir va) = false) ->
  (forall v, refs k v + occ v (frames (memory k) pgdir (upages PGSIZE sz)) < 2 ^ 31 - 1) ->
  copyable k pgdir (upages PGSIZE sz).
Proof.
  intros Hsz Hs Hr. split; [|done|done]. intros va Hva.
  destruct (upages_user PGSIZE sz va) as (? & ? & _); [unfold KERNBASE, PGSIZE in *; lia..|done|done].
Qed.

Lemma copyuvm_outcomes fl pgdir T s sz :
  as_inv fl pgdir T (sub_get s) -> 0 <= sz <= KERNBASE ->
  (forall va, va ∈ upages PGSIZE sz -> flag PTE_S (pte (memory (sub_get s)) pgdir va) = false) ->
  (forall v, refs (sub_get s) v + occ v (frames (memory (sub_get s)) pgdir (upages PGSIZE sz)) < 2 ^ 31 - 1) ->
  wpe (copyuvm pgdir sz) (fun r s' => exists k', s' = sub_put k' s /\
    ((r = 0 /\ (length fl <= 1026)%nat /\ exists fl', copy_failed fl (sub_get s) pgdir T fl' k') \/
     (r <> 0 /\ (forall va, va ∈ upages PGSIZE sz -> is_Some (T !! PDX va)) /\
        exists fl' Td, forked fl (sub_get s) pgdir T sz r fl' Td k')))
    (fun e => e = Panics "copyuvm: pte should exist" /\ exists va, va ∈ upages PGSIZE sz /\ T !! PDX va = None) s.
Proof.
  intros Has Hsz Hns Hrf. set (k := sub_get s) in *. pose proof (upages_copyable k pgdir sz Hsz Hns Hrf) as Hca.
  eapply wpe_bind_wp; [apply (setupkvm_spec fl s); by eapply pt_kinv, as_pt|].
  intros d s1 (k1 & -> & [(-> & fl2 & Hk & Hfl & Hr & Hfr & Hlen)|(Hd & fl2 & Td & Hkv & _)]).
  - cbn [Z.eqb NULL]. exists k1. split; [done|]. left. split; [done|]. split; [lia|]. exists fl2.
    apply setup_failed; try done. intros v. pose proof (Hrf v).
    pose proof (occ_nonneg v (frames (memory k) pgdir (upages PGSIZE sz))). lia.
  - rewrite (proj2 (Z.eqb_neq d NULL) Hd).
    destruct (upages_start sz Hsz) as (Hup & Hto & Hfuel).
    eapply wpe_mono; [apply (copyuvm_loop_spec Has (proj2 Hsz) d (npages PGSIZE sz) _ 0 fl2 Td (sub_put k1 s))| |].
    { rewrite sub_get_put. by apply copy_start. } { exact Hca. } { intros va Hva%elem_of_nil. done. } { exact Hto. } { exact Hfuel. }
    2: { intros e He. exact He. }
    intros r s' (k2 & -> & Hres). exists k2. rewrite sub_put_put. split; [done|].
    destruct Hres as [(-> & Hall & fl3 & Td3 & Hcs)|(-> & Hl & fl3 & Hcf)]; [right|left; eauto].
    split; [done|]. split; [exact Hall|]. exists fl3, Td3. by apply copy_forked.
Qed.

End Fork.

(** ** Witness: forking a process with one writable page, 1100 pages free *)

Definition demo_parent : kmem :=
  mk_kmem (st32 0x80301004 (0x304000 + 7) (st32 0x80300000 (0x301000 + 7) (link_pages demo_free ∅)))
    demo_base true true {[0x300 := mk_page_data 1 0; 0x301 := mk_page_data 1 0; 0x304 := mk_page_data 1 0]} ∅.

Lemma demo_parent_as : @as_inv demo_image demo_free 0x80300000 {[0 := 0x80301000]} demo_parent.
Proof.
  assert (@kinv demo_image demo_free demo_parent) as Hk.
  { apply demo_free_kinv; [vm_compute; reflexivity|]. intros i Hi. rewrite !lookup_insert_ne, lookup_singleton_ne by lia. done. }
  assert (forall v, v < demo_base -> v ∉ demo_free) as Hlow.
  { intros v Hv (i & Hi & ->)%demo_free_range. unfold PGSIZE in *. lia. }
  apply (@one_page_as demo_image _ _ _ _ 0x80304000 7); [exact Hk|split; compute_done|unfold valid_page; compute_done..|compute_done| |compute_done].
  rewrite !list.NoDup_cons, !not_elem_of_cons. unfold demo_base in Hlow.
  split; [split; [discriminate|split; [discriminate|by apply Hlow]]|].
  split; [split; [discriminate|by apply Hlow]|]. split; [by apply Hlow|apply (ki_nodup _ _ Hk)].
Qed.

Lemma demo_refs v : refs demo_parent v <= 1.
Proof.
  unfold refs, page_entry. cbn [pdata demo_parent].
  destruct (decide (0x300 = V2P v / PGSIZE)) as [<-|E0]; [by rewrite lookup_insert_eq|].
  destruct (decide (0x301 = V2P v / PGSIZE)) as [<-|E1]; [by rewrite lookup_insert_ne, lookup_insert_eq|].
  destruct (decide (0x304 = V2P v / PGSIZE)) as [<-|E4]; [by rewrite !lookup_insert_ne, lookup_singleton_eq|].
  by rewrite !lookup_insert_ne, lookup_singleton_ne.
Qed.

Lemma demo_pages : upages PGSIZE 0x2000 = [0x1000].
Proof. vm_compute. reflexivity. Qed.
Lemma demo_resident va : va ∈ upages PGSIZE 0x2000 -> flag PTE_S (pte (memory demo_parent) 0x80300000 va) = false.
Proof. rewrite demo_pages. intros ->%list_elem_of_singleton. vm_compute. reflexivity. Qed.
Lemma demo_refs_fit v : refs demo_parent v + occ v (frames (memory demo_parent) 0x80300000 (upages PGSIZE 0x2000)) < 2 ^ 31 - 1.
Proof.
  rewrite demo_pages. assert (frames (memory demo_parent) 0x80300000 [0x1000] = [0x80304000]) as -> by (vm_compute; reflexivity).
  pose proof (demo_refs v). assert (occ v [0x80304000] <= 1) by (unfold occ; cbn; case_decide; simpl; lia). lia.
Qed.
Lemma demo_tables va : va ∈ upages PGSIZE 0x2000 -> ({[0 := 0x80301000]} : gmap Z Z) !! PDX va <> None.
Proof. rewrite demo_pages. intros ->%list_elem_of_singleton. vm_compute. discriminate. Qed.
Lemma demo_free_many : ~ (length demo_free <= 1026)%nat.
Proof. unfold demo_free. rewrite length_fmap, length_seqZ. lia. Qed.


Lemma demo_copy : exists d k', @copyuvm demo_image kmem (sub_refl kmem) demo_swap 0x80300000 0x2000 demo_parent = Ok d k' /\ 0 < d.
Proof.
  pose proof (@copyuvm_outcomes demo_image kmem (sub_refl kmem) demo_swap demo_free 0x80300000
    {[0 := 0x80301000]} demo_parent 0x2000 demo_parent_as ltac:(compute_done) demo_resident demo_refs_fit) as H.
  unfold wpe in H. destruct (copyuvm _ _ _) as [r s'|m| |c|]; [|exfalso|destruct H|exfalso|destruct H].
  - destruct H as (k' & -> & [(_ & Hl & _)|(Hr & _ & fl' & Td & Hf)]); [destruct (demo_free_many Hl)|].
    exists r, k'. split; [reflexivity|]. destruct (pt_pgdir (as_pt _ _ _ _ (fk_child _ _ _ _ _ _ _ _ _ Hf))) as [(_ & Hv & _) _].
    cbn [kend demo_image] in Hv. lia.
  - destruct H as (_ & va & Hva & Hn). by destruct (demo_tables va Hva).
  - destruct H as (Hc & _). discriminate Hc.
Qed.
