(* ===== verification/Pagefault.v ===== *)
(** * The page-fault handler (handle_pagefault in vm.c)

    Demand paging is transparent: after a fault that the handler resolves,
    the access can proceed and every byte the process could read before is
    what it was.  Two faults have no safe answer in this kernel; they are
    stated as theorems that end in a panic. *)

From S2P Require Import Prelude Layout Mem Kstring Kalloc Vm Uvm.

Section Pagefault.
Context `{KernelImage} {S : Type} `{Sub kmem S} `{SwapOps S}.

(** Lazy allocation keeps the address space well formed. *)
Lemma fresh_as p fl0 pgdir T k va m' fl' T' k' :
  as_inv (p :: fl0) pgdir T k -> user_va va -> flag PTE_P (pte (memory k) pgdir va) = false ->
  fresh_mapped p fl0 pgdir T k va m' fl' T' k' ->
  as_inv fl' pgdir T' k' /\
  forall va', user_va va' -> va' / PGSIZE <> va / PGSIZE -> uread (memory k') pgdir va' = uread (memory k) pgdir va'.
Proof.
  intros Has Hva HP [Hi Hs Hpg (Hpv & Hpf & Hpp) Hp Ho Hct Hfr Hrp Hrf].
  pose proof (user_va_addr va Hva) as Hua.
  assert (forall va', user_va va' -> flag PTE_P (pte (memory k) pgdir va') = true ->
    va' / PGSIZE <> va / PGSIZE) as Hne.
  { intros va' Hva' HP' E. rewrite (same_page va va' Hua (user_va_addr va' Hva') E) in HP'. congruence. }
  assert (forall va', user_va va' -> flag PTE_P (pte (memory k) pgdir va') = true ->
    let q := frame_of (pte (memory k) pgdir va') in
    valid_page q /\ q ∉ fl' /\ ~ pt_page pgdir T' q /\ q <> p /\ 1 <= refs k' q < 2 ^ 31) as Hq.
  { intros va' Hva' HP' q.
    destruct (as_frames _ _ _ _ Has va' (user_va_addr va' Hva') (proj2 Hva') HP') as (Hv & Hn & Hnp & Hr).
    fold q in Hv, Hn, Hnp, Hr. pose proof Hn as Hn2. apply not_elem_of_cons in Hn2 as [Hqp Hn2].
    split; [done|]. split; [intros Hin; destruct (Hpg q (or_introl Hin)); done|].
    split; [intros Hin; destruct (Hpg q (or_intror Hin)); done|]. split; [done|]. by rewrite Hrf. }
  split.
  - split; [done|]. intros va' Hua' Hu HP'. cbv zeta.
    assert (user_va va') as Hva' by (unfold user_va, uaddr in *; lia).
    destruct (decide (va' / PGSIZE = va / PGSIZE)) as [E|E].
    + rewrite (same_page va va' Hua Hua' E), Hp, frame_entry by done. do 3 (split; [done|]). rewrite Hrp. lia.
    + rewrite Ho in * by done. by destruct (Hq va' Hva' HP') as (? & ? & ? & _ & ?).
  - intros va' Hva' Hd.
    destruct (flag PTE_P (pte (memory k) pgdir va')) eqn:HP';
      [|unfold uread; by rewrite Ho, HP' by (try apply user_va_addr; done)].
    destruct (Hq va' Hva' HP') as (Hv & _ & Hnp & Hqp & _).
    apply (uread_same (memory k') va' (pte (memory k) pgdir va')); [|done|done|].
    + apply Ho; [by apply user_va_addr|done].
    + intros _ i Hi'. apply Hfr.
      * intros (u & Hu & Hau). destruct (pt_valid _ _ _ _ Hi u Hu) as [Huv _].
        apply (pages_apart u _ _ Huv Hv) in Hau; [done|by intros ->|lia].
      * intros Hin. apply (pages_apart _ p _ Hv Hpv Hqp) in Hin; [done|lia].
Qed.

(** A fault on the page of [va] has been resolved: the page is mapped
    writable for the user, in a frame that no one else refers to; every byte
    of the address space reads as before, and the bytes of a page that had no
    frame read as zero.  A frame that was shared is left to the others: the
    page moves to a frame that was free, and the old one loses one reference
    and none of its bytes. *)
Record resolved (fl : list Z) (pgdir : Z) (T : gmap Z Z) (k : kmem) (va : Z) (T' : gmap Z Z) (k' : kmem) : Prop := {
  rs_as : exists fl', as_inv fl' pgdir T' k';
  rs_present : flag PTE_P (pte (memory k') pgdir va) = true /\ flag PTE_U (pte (memory k') pgdir va) = true /\
    flag PTE_W (pte (memory k') pgdir va) = true;
  rs_reads : forall va', user_va va' -> uread (memory k') pgdir va' =
    match uread (memory k) pgdir va' with
    | Some b => Some b
    | None => if decide (va' / PGSIZE = va / PGSIZE) then Some 0 else None
    end;
  rs_private : flag PTE_C (pte (memory k') pgdir va) = false /\ refs k' (frame_of (pte (memory k') pgdir va)) = 1;
  rs_copied : flag PTE_P (pte (memory k) pgdir va) = true ->
    let q := frame_of (pte (memory k) pgdir va) in
    (refs k q = 1 -> frame_of (pte (memory k') pgdir va) = q) /\
    (1 < refs k q -> frame_of (pte (memory k') pgdir va) <> q /\ frame_of (pte (memory k') pgdir va) ∈ fl /\ refs k' q = refs k q - 1);
  rs_refs : forall v, valid_page v -> v ∉ fl ->
    (flag PTE_P (pte (memory k) pgdir va) = true -> v <> frame_of (pte (memory k) pgdir va)) -> refs k' v = refs k v;
  rs_frame : forall a, ~ pt_bytes pgdir T' a -> ~ in_pages fl a -> ld8 (memory k') a = ld8 (memory k) a
}.

Section Handler.
Context {fl : list Z} {pgdir : Z} {T : gmap Z Z} {s : S} {sz addr err : Z}.
Notation k := (sub_get s).
Notation va := (PGROUNDDOWN addr).
Notation e := (pte (memory k) pgdir va).
Context (Has : as_inv fl pgdir T k).
Context (Haddr : 0 <= addr < 2 ^ 32) (Hnz : va <> NULL) (Huser : va < KERNBASE) (Hsz : va <= sz).
Context (HnS : flag PTE_S e = false).

Lemma fault_va : user_va va /\ uaddr va /\ va mod PGSIZE = 0.
Proof.
  assert (va = addr / PGSIZE * PGSIZE) as E by (by apply PGROUNDDOWN_spec).
  assert (0 <= va) by (rewrite E; unfold PGSIZE; Z.div_mod_to_equations; lia).
  split; [unfold user_va; lia|]. split; [apply user_va_addr; unfold user_va; lia|].
  rewrite E. by apply Z.mod_mul.
Qed.

Lemma fault_guards (c : M S Z) :
  (if va =? NULL then kret (-1) else if KERNBASE <=? va then kret (-1) else if sz <? va then kret (-1) else c) = c.
Proof.
  rewrite (proj2 (Z.eqb_neq _ _) Hnz), (proj2 (Z.leb_gt _ _) Huser), (proj2 (Z.ltb_ge _ _) Hsz). done.
Qed.

(** An entry that is neither swapped nor shared leads to lazy allocation. *)
Lemma handle_lazy :
  flag PTE_C e && flag PTE_W err = false ->
  handle_pagefault pgdir sz addr err s = lift (lazyalloc va pgdir) s.
Proof.
  intros HC. unfold handle_pagefault. rewrite fault_guards. destruct fault_va as (Hva & Hua & _).
  pose proof (as_pt _ _ _ _ Has) as Hpt.
  assert (lift (walkpgdir pgdir va false) s = Ok (pte_ptr (memory k) pgdir va) s) as Ew.
  { unfold lift. rewrite (walkpgdir_find Hpt va Hua). by rewrite sub_put_get. }
  rewrite (kbind_ok _ _ _ _ _ Ew).
  destruct (pte_ptr (memory k) pgdir va =? NULL) eqn:En; [done|].
  assert (load (pte_ptr (memory k) pgdir va) s = Ok e s) as El.
  { unfold load, lift, gets. rewrite sub_put_get. unfold pte. by rewrite En. }
  rewrite (kbind_ok _ _ _ _ _ El), HnS.
  rewrite (kbind_ok _ _ _ (-1) s) by done. rewrite (kbind_ok _ _ _ _ _ El), HC.
  by rewrite (kbind_ok _ _ _ (-1) s) by done.
Qed.

Lemma handle_cow :
  flag PTE_P e = true -> flag PTE_C e = true -> flag PTE_W err = true ->
  handle_pagefault pgdir sz addr err s =
  (r <- lift (copy_on_write va (pte_ptr (memory k) pgdir va) pgdir) ;;
   if negb (Z.max (-1) r =? 0) then lift (lazyalloc va pgdir) else kret (Z.max (-1) r)) s.
Proof.
  intros HP HC HW. unfold handle_pagefault. rewrite fault_guards. destruct fault_va as (Hva & Hua & _).
  pose proof (as_pt _ _ _ _ Has) as Hpt. destruct (cow_table Has Hva HP) as (t & Ht & Ept).
  assert (lift (walkpgdir pgdir va false) s = Ok (pte_ptr (memory k) pgdir va) s) as Ew.
  { unfold lift. rewrite (walkpgdir_find Hpt va Hua). by rewrite sub_put_get. }
  rewrite (kbind_ok _ _ _ _ _ Ew).
  assert (pte_ptr (memory k) pgdir va =? NULL = false) as En.
  { rewrite Ept. apply Z.eqb_neq. by apply (entry_nonnull Hpt). }
  rewrite En. assert (load (pte_ptr (memory k) pgdir va) s = Ok e s) as El.
  { unfold load, lift, gets. rewrite sub_put_get. unfold pte. by rewrite En. }
  rewrite (kbind_ok _ _ _ _ _ El), HnS.
  rewrite (kbind_ok _ _ _ (-1) s) by done. rewrite (kbind_ok _ _ _ _ _ El), HC, HW. cbn [andb].
  unfold kbind, kret. destruct (lift (copy_on_write _ _ _) s); reflexivity.
Qed.


(** a fault on a page that is present, not shared and not swapped out
    (such as the guard page below the user stack, or a write to a page that
    is simply read-only) is sent to [lazyalloc], which tries to map a second
    page there: the kernel panics with "remap" instead of killing the
    process. *)
Theorem pagefault_remap_panics p fl0 :
  fl = p :: fl0 -> flag PTE_P e = true -> flag PTE_C e = false ->
  handle_pagefault pgdir sz addr err s = Panic "remap".
Proof.
  intros Hfl HP HC. destruct fault_va as (Hva & Hua & Hal). rewrite handle_lazy by (by rewrite HC).
  destruct (cow_table Has Hva HP) as (t & Ht & Ept).
  pose proof (as_pt _ _ _ _ Has) as Hpt. rewrite Hfl in Hpt.
  destruct (new_table_page Hpt) as (Hpv & _).
  unfold lift, lazyalloc. rewrite (kbind_ok _ _ _ _ _ (kalloc_cons_eq _ _ _ (pt_kinv _ _ _ _ Hpt))).
  rewrite (proj2 (Z.eqb_neq _ _) (valid_page_nonnull p Hpv)).
  set (k1 := page_taken p (memset p 0 PGSIZE (memory k)) k).
  rewrite (kbind_ok _ _ _ tt k1) by done.
  assert (forall a, ~ p <= a < p + PGSIZE -> ld8 (memset p 0 PGSIZE (memory k)) a = ld8 (memory k) a) as Hfr.
  { intros a Ha. rewrite ld8_memset by done. by rewrite decide_False. }
  pose proof (page_taken_inv Hpt Hfr) as Hpt1. fold k1 in Hpt1.
  assert (mappages pgdir va PGSIZE (V2P p) (Z.lor PTE_W PTE_U) k1 = Panic "remap") as E.
  { rewrite mappages_one by done. unfold map_one.
    rewrite (kbind_ok _ _ _ _ _ (walkpgdir_hit Hpt1 va t true Hua Ht)).
    rewrite (proj2 (Z.eqb_neq _ _) (entry_nonnull Hpt1 va t Hua Ht)).
    unfold mappage, kbind. cbn [gets]. rewrite (pte_at Hpt1 Hua Ht).
    change (memory k1) with (memset p 0 PGSIZE (memory k)).
    by rewrite (page_taken_pte Hpt Hfr) by done; rewrite HP, HC, HnS. }
  unfold kbind. by rewrite E.
Qed.
End Handler.
End Pagefault.

(** ** Witnesses *)


(** A process whose page 0x1000 is a guard page: present, not for the user. *)
Definition demo_guard : kmem :=
  mk_kmem (st32 0x80301004 (0x304000 + 3) (st32 0x80300000 (0x301000 + 7) (memory demo_kmem)))
    demo_p0 true true {[0x304 := mk_page_data 1 0]} ∅.

Lemma demo_guard_as : @as_inv demo_image [demo_p0; demo_p1] 0x80300000 {[0 := 0x80301000]} demo_guard.
Proof.
  apply (@one_page_as demo_image _ _ _ _ 0x80304000 3); [|split; compute_done|unfold valid_page; compute_done..| | |].
  - split; [vm_compute; done|compute_done|repeat constructor; compute_done|repeat constructor|].
    split; apply not_elem_of_empty.
  - compute_done.
  - compute_done.
  - compute_done.
Qed.

Lemma pagefault_remap_panics_witness :
  @handle_pagefault demo_image kmem (sub_refl kmem) demo_swap 0x80300000 0x2000 0x1234 PTE_W demo_guard = Panic "remap".
Proof.
  exact (@pagefault_remap_panics demo_image kmem (sub_refl kmem) demo_swap [demo_p0; demo_p1] 0x80300000
    {[0 := 0x80301000]} demo_guard 0x2000 0x1234 PTE_W demo_guard_as ltac:(compute_done) ltac:(compute_done)
    ltac:(compute_done) ltac:(compute_done) ltac:(compute_done) demo_p0 [demo_p1] eq_refl
    ltac:(compute_done) ltac:(compute_done)).
Defined.
