(* ===== verification/Space.v ===== *)
(** * Address spaces under construction (vm.c)

    The address space that exec.c builds: user pages 1 to N - 1 are mapped to
    frames that no one else uses, everything else below the kernel is not
    mapped.  [space] describes it together with the pages it took from the
    free list, so that giving up returns them all. *)

From S2P Require Import Prelude Layout Mem Kstring Kalloc Vm Uvm.

Definition UPAGES : Z := KERNBASE / PGSIZE.

Section Space.
Context `{KernelImage} {S : Type} `{Sub kmem S} `{SwapOps S}.
Implicit Types (fl : list Z) (k : kmem) (T : gmap Z Z) (fr fg : Z -> Z) (m : mem) (s : S).

(** Page [n] has frame [fr n] and flags [fg n]: 7 for a page of the program,
    3 for one that only the kernel may use.  [fl0] and [k0] are the free list
    and the memory from before the construction. *)
Record space fl0 k0 (d : Z) T fl k (N : Z) fr fg : Prop := {
  sp_pt : pt_inv fl d T k;
  sp_N : 1 <= N <= UPAGES;
  sp_in : forall n, 1 <= n < N -> pte (memory k) d (n * PGSIZE) = V2P (fr n) + fg n;
  sp_flags : forall n, fg n = 7 \/ fg n = 3;
  sp_fr : forall n, 1 <= n < N -> valid_page (fr n) /\ fr n ∉ fl /\ ~ pt_page d T (fr n) /\ refs k (fr n) = 1;
  sp_inj : forall n n', 1 <= n < N -> 1 <= n' < N -> fr n = fr n' -> n = n';
  sp_out : forall n, 0 <= n < UPAGES -> ~ 1 <= n < N -> pte (memory k) d (n * PGSIZE) = 0;
  sp_kern : forall e n va, (e, n) ∈ kregions -> uaddr va -> in_region e n va -> pte (memory k) d va = region_pte e va;
  sp_pages : forall v, v ∈ fl0 <-> v ∈ fl \/ pt_page d T v \/ exists n, 1 <= n < N /\ fr n = v;
  sp_one : forall v, pt_page d T v -> refs k v = 1;
  sp_refs : forall v, valid_page v -> v ∉ fl0 -> refs k v = refs k0 v;
  sp_frame : forall a, ~ in_pages fl0 a -> ld8 (memory k) a = ld8 (memory k0) a
}.

(** The pages of the program contain [img]. *)
Definition shows m (N : Z) fr (img : Z -> Z) : Prop :=
  forall n o, 1 <= n < N -> 0 <= o < PGSIZE -> ld8 m (fr n + o) = img (n * PGSIZE + o).

Lemma UPAGES_eq : UPAGES = 524288.
Proof. done. Qed.

Lemma page_va n : 0 <= n < UPAGES -> user_va (n * PGSIZE) /\ uaddr (n * PGSIZE) /\ (n * PGSIZE) mod PGSIZE = 0 /\ n * PGSIZE / PGSIZE = n.
Proof.
  intros Hn. rewrite UPAGES_eq in Hn. unfold user_va, uaddr, KERNBASE, PGSIZE. split; [lia|]. split; [lia|]. split; [by apply Z.mod_mul|by apply Z.div_mul].
Qed.

Lemma kregion_kernel e n va : (e, n) ∈ kregions -> in_region e n va -> KERNBASE <= va.
Proof.
  intros He Hr. destruct (kregions_bounds e n va He Hr) as (_ & Hle & Hc). destruct kdata_bounds as ((Hd & _) & _).
  unfold KERNLINK, KERNBASE, EXTMEM, DEVSPACE in *. lia.
Qed.

(** ** The start: no user page *)

Lemma space_start fl0 k0 d fl T k : kvm_state fl0 k0 d fl T k -> covers kregions (memory k) d -> space fl0 k0 d T fl k 1 (fun _ => 0) (fun _ => 7).
Proof.
  intros Hkv [Hcov _]. pose proof Hkv as [Hpt _ Hpg Hone Hr Hfr]. split; try done; try (intros n Hn; lia).
  - intros n. by left.
  - intros n Hn _. apply (kvm_no_user _ _ _ _ _ _ _ Hkv). by apply page_va.
  - intros v. rewrite Hpg. split; [intros [?|?]; auto|]. intros [?|[?|(n & Hn & _)]]; auto. lia.
Qed.

(** ** Memory outside the frames *)

Section Facts.
Context {fl0 : list Z} {k0 : kmem} {d : Z} {T : gmap Z Z} {fl : list Z} {k : kmem} {N : Z} {fr fg : Z -> Z}.
Context (Hsp : space fl0 k0 d T fl k N fr fg).

Definition frame_byte (a : Z) : Prop := exists n, 1 <= n < N /\ fr n <= a < fr n + PGSIZE.

Lemma frame_not_table a : frame_byte a -> ~ pt_bytes d T a.
Proof.
  intros (n & Hn & Ha) (v & Hv & Hav). destruct (sp_fr _ _ _ _ _ _ _ _ _ Hsp n Hn) as (Hvn & _ & Hnp & _).
  destruct (pt_valid _ _ _ _ (sp_pt _ _ _ _ _ _ _ _ _ Hsp) v Hv) as [Hvv _].
  apply (pages_apart v (fr n) a Hvv Hvn); [by intros ->|done|done].
Qed.

Lemma frame_not_free a : frame_byte a -> ~ in_pages fl a.
Proof.
  intros (n & Hn & Ha) (v & Hv & Hav). destruct (sp_fr _ _ _ _ _ _ _ _ _ Hsp n Hn) as (Hvn & Hnf & _).
  pose proof (ki_valid _ _ (pt_kinv _ _ _ _ (sp_pt _ _ _ _ _ _ _ _ _ Hsp))) as Hval. rewrite list.Forall_forall in Hval.
  apply (pages_apart v (fr n) a (Hval v Hv) Hvn); [by intros ->|done|done].
Qed.

Lemma frame_taken a : frame_byte a -> in_pages fl0 a.
Proof.
  intros (n & Hn & Ha). exists (fr n). split; [|done]. apply (sp_pages _ _ _ _ _ _ _ _ _ Hsp). right. right. by exists n.
Qed.

(** Writing into the frames of the program. *)
Lemma space_write m' : (forall a, ~ frame_byte a -> ld8 m' a = ld8 (memory k) a) -> space fl0 k0 d T fl (set_memory m' k) N fr fg.
Proof.
  intros Hm'. pose proof (sp_pt _ _ _ _ _ _ _ _ _ Hsp) as Hpt.
  assert (forall a, pt_bytes d T a -> ld8 m' a = ld8 (memory k) a) as Hpb by (intros a Ha; apply Hm'; intros Hf; by apply (frame_not_table a)).
  assert (forall va, uaddr va -> pte m' d va = pte (memory k) d va) as Hpte by (intros va Hva; by apply (pte_frame Hpt)).
  assert (pt_inv fl d T (set_memory m' k)) as Hpt'.
  { apply (pt_inv_frame Hpt); [|intros v Hv; by apply (pt_valid _ _ _ _ Hpt)|done].
    apply kinv_set_memory; [by eapply pt_kinv|]. intros a Ha. apply Hm'. intros Hf. by apply (frame_not_free a). }
  destruct Hsp as [S1 S2 S3 S4 S5 S6 S7 S8 S9 S10 S11 S12]. split; try done; cbn [memory set_memory].
  - intros n Hn. rewrite Hpte by (apply page_va; lia). by apply S3.
  - intros n Hn Hno. rewrite Hpte by (apply page_va; lia). by apply S7.
  - intros e n va He Hva Hr. rewrite Hpte by done. by eapply S8.
  - intros a Ha. rewrite Hm'; [by apply S12|]. intros Hf. by apply Ha, frame_taken.
Qed.

(** The entry of any user address. *)
Lemma space_pte va : user_va va -> pte (memory k) d va = if decide (1 <= va / PGSIZE < N) then V2P (fr (va / PGSIZE)) + fg (va / PGSIZE) else 0.
Proof.
  intros Hva. assert (0 <= va / PGSIZE < UPAGES) as Hn.
  { rewrite UPAGES_eq. unfold user_va, KERNBASE, PGSIZE in *. split; [apply Z.div_pos; lia|apply Z.div_lt_upper_bound; lia]. }
  destruct (page_va _ Hn) as (_ & Hua & _ & Hd). rewrite (same_page (va / PGSIZE * PGSIZE) va Hua (user_va_addr va Hva)) by done.
  case_decide as D; [by apply (sp_in _ _ _ _ _ _ _ _ _ Hsp)|by apply (sp_out _ _ _ _ _ _ _ _ _ Hsp)].
Qed.

Lemma space_flags n : 1 <= n < N ->
  let e := V2P (fr n) + fg n in frame_of e = fr n /\ flag PTE_P e = true /\ flag PTE_S e = false /\ flag PTE_C e = false /\ flag PTE_U e = bool_decide (fg n = 7).
Proof.
  intros Hn e. destruct (sp_fr _ _ _ _ _ _ _ _ _ Hsp n Hn) as (Hv & _). unfold e.
  destruct (sp_flags _ _ _ _ _ _ _ _ _ Hsp n) as [E|E]; rewrite E; (split; [by apply frame_entry|]); by rewrite !flag_entry.
Qed.
End Facts.

(** ** One more page *)

Definition at_page (f : Z -> Z) (n v : Z) : Z -> Z := fun x => if decide (x = n) then v else f x.
Lemma at_page_eq f n v : at_page f n v n = v.
Proof. unfold at_page. by rewrite decide_True. Qed.
Lemma at_page_ne f n v x : x <> n -> at_page f n v x = f x.
Proof. intros. unfold at_page. by rewrite decide_False. Qed.

Section Grow.
Context {fl0 : list Z} {k0 : kmem} {d : Z} {T : gmap Z Z} {p : Z} {fl : list Z} {k : kmem} {N : Z} {fr fg : Z -> Z} {m' : mem}.
Context {fl' : list Z} {T' : gmap Z Z} {k' : kmem}.
Context (Hsp : space fl0 k0 d T (p :: fl) k N fr fg) (HN : N < UPAGES).
Context (Hm' : forall a, ~ p <= a < p + PGSIZE -> ld8 m' a = ld8 (memory k) a).
Context (Hmap : mapped fl d T (page_taken p m' k) (N * PGSIZE) (V2P p + 7) fl' T' k').

Lemma gr_page : valid_page p /\ p ∉ fl /\ ~ pt_page d T p /\ forall n, 1 <= n < N -> fr n <> p.
Proof.
  pose proof (sp_pt _ _ _ _ _ _ _ _ _ Hsp) as Hpt. destruct (new_table_page Hpt) as (Hpv & Hpf & _). split; [done|]. split; [done|].
  split; [by apply (fresh_not_pt Hpt)|]. intros n Hn E. destruct (sp_fr _ _ _ _ _ _ _ _ _ Hsp n Hn) as (_ & Hf & _).
  apply Hf. rewrite E. apply list_elem_of_here.
Qed.

(** Pages of the new table come from the free list. *)
Lemma gr_tables v : pt_page d T' v -> pt_page d T v \/ v ∈ fl.
Proof. intros Hv. destruct (mapped_pages _ _ _ _ _ _ _ _ _ Hmap) as (Hpg & _). destruct (proj2 (Hpg v) (or_intror Hv)); auto. Qed.

Lemma gr_pte va : uaddr va -> va / PGSIZE <> N -> pte (memory k') d va = pte (memory k) d va.
Proof.
  intros Hva Hne. pose proof (sp_N _ _ _ _ _ _ _ _ _ Hsp). destruct (page_va N) as (_ & _ & _ & Hd); [lia|].
  rewrite (mp_other _ _ _ _ _ _ _ _ _ Hmap) by (rewrite ?Hd; done).
  apply (page_taken_pte (sp_pt _ _ _ _ _ _ _ _ _ Hsp) Hm'). done.
Qed.

Lemma gr_refs v : valid_page v -> v ∉ p :: fl -> refs k' v = refs k v.
Proof.
  intros Hv [Hp Hf]%not_elem_of_cons. rewrite (mp_refs _ _ _ _ _ _ _ _ _ Hmap) by done.
  rewrite (page_taken_refs (sp_pt _ _ _ _ _ _ _ _ _ Hsp)) by done. by rewrite decide_False.
Qed.

Lemma gr_old n : 1 <= n < N -> fr n ∉ fl' /\ ~ pt_page d T' (fr n).
Proof.
  intros Hn. destruct (sp_fr _ _ _ _ _ _ _ _ _ Hsp n Hn) as (_ & Hf & Hnp & _). apply not_elem_of_cons in Hf as [_ Hf].
  destruct (mapped_pages _ _ _ _ _ _ _ _ _ Hmap) as (_ & _ & _ & Hsub). split; [intros Hin; by apply Hf, Hsub|].
  intros [?|?]%gr_tables; done.
Qed.

Lemma gr_new : p ∉ fl' /\ ~ pt_page d T' p /\ refs k' p = 1.
Proof.
  destruct gr_page as (Hpv & Hpf & Hnp & _). destruct (mapped_pages _ _ _ _ _ _ _ _ _ Hmap) as (_ & _ & _ & Hsub). split; [intros Hin; by apply Hpf, Hsub|].
  split; [intros [?|?]%gr_tables; done|]. rewrite (mp_refs _ _ _ _ _ _ _ _ _ Hmap) by done.
  rewrite (page_taken_refs (sp_pt _ _ _ _ _ _ _ _ _ Hsp)) by done. by rewrite decide_True.
Qed.

(** Bytes of pages that are not in the tables. *)
Lemma gr_bytes v a : valid_page v -> ~ pt_page d T' v -> v <= a < v + PGSIZE -> ld8 (memory k') a = ld8 m' a.
Proof.
  intros Hv Hnp Ha. apply (mp_frame _ _ _ _ _ _ _ _ _ Hmap). intros (u & Hu & Hau).
  destruct (pt_valid _ _ _ _ (mp_inv _ _ _ _ _ _ _ _ _ Hmap) u Hu) as [Huv _]. apply (pages_apart u v a Huv Hv); [by intros ->|done|done].
Qed.

Lemma space_grow : space fl0 k0 d T' fl' k' (N + 1) (at_page fr N p) (at_page fg N 7).
Proof.
  pose proof gr_page as (Hpv & Hpf & Hnp & Hne). pose proof Hsp as [S1 S2 S3 S4 S5 S6 S7 S8 S9 S10 S11 S12].
  destruct (mapped_pages _ _ _ _ _ _ _ _ _ Hmap) as (Hpg & Hnew & _). split.
  - apply (mp_inv _ _ _ _ _ _ _ _ _ Hmap).
  - lia.
  - intros n Hn. destruct (decide (n = N)) as [->|Hd]; [rewrite !at_page_eq; apply (mp_pte _ _ _ _ _ _ _ _ _ Hmap)|].
    rewrite !at_page_ne by done. destruct (page_va n) as (_ & Hua & _ & E); [lia|]. rewrite gr_pte by (rewrite ?E; done). apply S3. lia.
  - intros n. unfold at_page. case_decide; [by left|apply S4].
  - intros n Hn. destruct (decide (n = N)) as [->|Hd]; [rewrite at_page_eq; by destruct gr_new as (? & ? & ?)|].
    rewrite at_page_ne by done. destruct (S5 n) as (Hv & Hf & Hp & Hr); [lia|]. destruct (gr_old n) as [? ?]; [lia|]. rewrite gr_refs by done. done.
  - intros n n' Hn Hn'. unfold at_page. case_decide; case_decide; subst; try done.
    + intros E. exfalso. apply (Hne n'); [lia|done].
    + intros E. exfalso. apply (Hne n); [lia|done].
    + apply S6; lia.
  - intros n Hn Hno. destruct (page_va n) as (_ & Hua & _ & E); [lia|]. rewrite gr_pte by (rewrite ?E; lia || done). apply S7; lia.
  - intros e n va He Hva Hr. rewrite gr_pte; [by eapply S8|done|]. intros E. pose proof (kregion_kernel e n va He Hr) as Hb.
    rewrite UPAGES_eq in *. unfold KERNBASE, PGSIZE in *. Z.div_mod_to_equations. lia.
  - intros v. rewrite S9, elem_of_cons. split.
    + intros [[->|Hv]|[Hv|(n & Hn & E)]].
      * right. right. exists N. rewrite at_page_eq. split; [lia|done].
      * destruct (proj1 (Hpg v) (or_introl Hv)); auto.
      * destruct (proj1 (Hpg v) (or_intror Hv)); auto.
      * right. right. exists n. rewrite at_page_ne by lia. split; [lia|done].
    + intros [Hv|[Hv|(n & Hn & E)]].
      * destruct (proj2 (Hpg v) (or_introl Hv)); auto.
      * destruct (proj2 (Hpg v) (or_intror Hv)); auto.
      * unfold at_page in E. case_decide; [by left; left|]. right. right. exists n. split; [lia|done].
  - intros v Hv. destruct (decide (v ∈ fl)) as [Hin|Hin].
    + apply Hnew; [done|]. intros Hp. destruct (pt_valid _ _ _ _ S1 v Hp) as [_ Hn]. apply Hn. by apply list_elem_of_further.
    + destruct (gr_tables v Hv) as [Hp|?]; [|done]. destruct (pt_valid _ _ _ _ S1 v Hp) as [Hvv Hn]. rewrite gr_refs by done. by apply S10.
  - intros v Hv Hn. rewrite gr_refs; [by apply S11|done|]. intros Hin. apply Hn, S9. by left.
  - intros a Ha. rewrite (mp_frame _ _ _ _ _ _ _ _ _ Hmap).
    + cbn [memory page_taken set_memory]. rewrite Hm'; [by apply S12|]. intros Hin. apply Ha. exists p. split; [|done]. apply S9. left. apply list_elem_of_here.
    + intros (v & Hv & Hav). apply Ha. exists v. split; [|done]. apply S9. destruct (gr_tables v Hv); [by right; left|left; by apply list_elem_of_further].
Qed.
End Grow.

(** ** Freeing pages *)

Definition addrs (l : list Z) : list Z := (fun n => n * PGSIZE) <$> l.

Lemma run_addrs a n : run (a * PGSIZE) n = addrs (seqZ a (Z.of_nat n)).
Proof.
  revert a. induction n as [|n IH]; intros a; [done|]. cbn [run]. rewrite Nat2Z.inj_succ, seqZ_cons by lia. unfold addrs. rewrite fmap_cons. f_equal.
  replace (a * PGSIZE + PGSIZE) with ((a + 1) * PGSIZE) by lia. rewrite IH. unfold addrs. f_equal. f_equal; lia.
Qed.

Lemma upages_addrs lo hi : 0 <= lo <= KERNBASE -> upages lo hi = addrs (seqZ (PGROUNDUP lo / PGSIZE) (Z.of_nat (npages lo hi))).
Proof.
  intros Hlo. destruct (PGROUNDUP_facts lo Hlo) as (_ & Hm & _). unfold upages. rewrite <- run_addrs. f_equal.
  pose proof (Z.div_mod (PGROUNDUP lo) PGSIZE ltac:(done)). lia.
Qed.

Lemma occ_nodup v l : NoDup l -> occ v l = if decide (v ∈ l) then 1 else 0.
Proof.
  induction 1 as [|x l Hx Hl IH]; [by rewrite decide_False by (apply not_elem_of_nil)|]. rewrite occ_cons, IH. destruct (decide (x = v)) as [->|Hne].
  - rewrite (decide_False (P := v ∈ l)), decide_True by (done || apply list_elem_of_here). done.
  - destruct (decide (v ∈ l)); [rewrite decide_True by (by apply list_elem_of_further)|rewrite decide_False by (rewrite elem_of_cons; intros [?|?]; congruence)]; done.
Qed.

Section Free.
Context {fl0 : list Z} {k0 : kmem} {d : Z} {T : gmap Z Z} {fl : list Z} {k : kmem} {N : Z} {fr fg : Z -> Z}.
Context (Hsp : space fl0 k0 d T fl k N fr fg).

Lemma space_frames l : NoDup l -> (forall n, n ∈ l -> 0 <= n < UPAGES) ->
  NoDup (frames (memory k) d (addrs l)) /\ forall v, v ∈ frames (memory k) d (addrs l) <-> exists n, n ∈ l /\ 1 <= n < N /\ fr n = v.
Proof.
  induction 1 as [|n l Hn Hl IH]; intros Hr; [split; [constructor|intros v; split; [intros []%elem_of_nil|intros (n & []%elem_of_nil & _)]]|]. unfold addrs. rewrite fmap_cons, frames_cons. fold (addrs l).
  destruct IH as [IH1 IH2]; [intros n' Hn'; apply Hr; by apply list_elem_of_further|]. destruct (page_va n) as (Hu & _ & _ & E); [apply Hr, list_elem_of_here|].
  rewrite (space_pte Hsp) by done. rewrite E. case_decide as D.
  - destruct (space_flags Hsp n D) as (-> & -> & _). split.
    + constructor; [|done]. rewrite IH2. intros (n' & Hn' & D' & E'). apply Hn. by rewrite (sp_inj _ _ _ _ _ _ _ _ _ Hsp n n').
    + intros v. cbn [app]. rewrite elem_of_cons, IH2. split.
      * intros [->|(n' & ? & ? & ?)]; [exists n|exists n']; (split; [|done]); [apply list_elem_of_here|by apply list_elem_of_further].
      * intros (n' & Hn' & D' & E'). apply elem_of_cons in Hn' as [->|Hn']; [by left|right; by exists n'].
  - cbn [app]. split; [done|]. intros v. rewrite IH2. split.
    + intros (n' & ? & ? & ?). exists n'. split; [by apply list_elem_of_further|done].
    + intros (n' & Hn' & D' & E'). apply elem_of_cons in Hn' as [->|Hn']; [done|by exists n'].
Qed.

Lemma space_freeable l k' : NoDup l -> (forall n, n ∈ l -> 0 <= n < UPAGES) -> pt_inv fl d T k' ->
  (forall a, pt_bytes d T a -> ld8 (memory k') a = ld8 (memory k) a) -> (forall n, 1 <= n < N -> refs k' (fr n) = 1) ->
  freeable fl d T k' (addrs l) /\ frames (memory k') d (addrs l) = frames (memory k) d (addrs l).
Proof.
  intros Hnd Hr Hpt Hb Hrefs. destruct (space_frames l Hnd Hr) as [Hf1 Hf2].
  assert (forall va, va ∈ addrs l -> user_va va /\ uaddr va /\ va mod PGSIZE = 0 /\ pte (memory k') d va = pte (memory k) d va) as Hva.
  { intros va (n & -> & Hn)%list_elem_of_fmap. destruct (page_va n (Hr n Hn)) as (? & ? & ? & _). do 3 (split; [done|]).
    by apply (pte_frame (sp_pt _ _ _ _ _ _ _ _ _ Hsp)). }
  assert (frames (memory k') d (addrs l) = frames (memory k) d (addrs l)) as EF by (apply frames_ext; intros va H'; by apply Hva).
  split; [|done]. split; [done| | |].
  - intros va H'. by destruct (Hva va H') as (? & _ & ? & _).
  - rewrite EF. intros q Hq. rewrite occ_nodup, decide_True by done. apply Hf2 in Hq as (n & _ & Hn & <-).
    destruct (sp_fr _ _ _ _ _ _ _ _ _ Hsp n Hn) as (? & ? & ? & _). rewrite Hrefs by done. repeat (split; [done|]). lia.
  - intros va H'. destruct (Hva va H') as (Hu & _ & _ & ->). rewrite (space_pte Hsp) by done. case_decide as D; [|done].
    by destruct (space_flags Hsp _ D) as (_ & _ & -> & _).
Qed.

(** Everything goes back. *)
Definition restored fl2 k2 : Prop :=
  kinv fl2 k2 /\ (forall v, v ∈ fl2 <-> v ∈ fl0) /\ (forall v, valid_page v -> refs k2 v = refs k0 v) /\
  (forall a, ~ in_pages fl0 a -> ld8 (memory k2) a = ld8 (memory k0) a).
End Free.

Lemma all_pages : upages 0 KERNBASE = addrs (seqZ 0 UPAGES).
Proof.
  rewrite upages_addrs by (unfold KERNBASE; lia). assert (Z.of_nat (npages 0 KERNBASE) = UPAGES) as ->.
  { unfold npages. rewrite Z2Nat.id; [reflexivity|]. change (PGROUNDUP 0) with 0. unfold KERNBASE, PGSIZE. apply Z.div_pos; lia. }
  assert (PGROUNDUP 0 / PGSIZE = 0) as -> by reflexivity. reflexivity.
Qed.

Lemma freevm_space fl0 k0 d T fl s N fr fg : kinv fl0 k0 -> space fl0 k0 d T fl (sub_get s) N fr fg ->
  wp (freevm d) (fun _ s' => exists fl2 k2, s' = sub_put k2 s /\ restored (fl0 := fl0) (k0 := k0) fl2 k2) s.
Proof.
  intros Hk0 Hsp. pose proof (sp_pt _ _ _ _ _ _ _ _ _ Hsp) as Hpt.
  assert (NoDup (seqZ 0 UPAGES)) as Hnd by apply NoDup_seqZ. assert (forall n, n ∈ seqZ 0 UPAGES -> 0 <= n < UPAGES) as Hr by (intros n Hn%elem_of_seqZ; lia).
  destruct (space_freeable Hsp (seqZ 0 UPAGES) (sub_get s) Hnd Hr Hpt) as [Hab _]; [done|intros n Hn; by apply (sp_fr _ _ _ _ _ _ _ _ _ Hsp)|].
  destruct (space_frames Hsp (seqZ 0 UPAGES) Hnd Hr) as [Hf1 Hf2]. rewrite <- all_pages in Hab, Hf1, Hf2.
  eapply wp_mono; [apply (freevm_spec fl d T s Hab), (sp_one _ _ _ _ _ _ _ _ _ Hsp)|]. intros [] s' (fl2 & k2 & -> & [V1 V2 V3 V4]). exists fl2, k2. split; [done|].
  set (F := frames _ _ _) in *. pose proof (sp_pages _ _ _ _ _ _ _ _ _ Hsp) as Hpg.
  assert (forall v, v ∈ F <-> exists n, 1 <= n < N /\ fr n = v) as HF.
  { intros v. rewrite Hf2. pose proof (sp_N _ _ _ _ _ _ _ _ _ Hsp). split; [intros (n & _ & ? & ?); eauto|]. intros (n & Hn & E). exists n. split; [apply elem_of_seqZ; lia|done]. }
  assert (forall v, v ∈ F -> refs (sub_get s) v = occ v F) as HrF.
  { intros v Hv. rewrite occ_nodup, decide_True by done. apply HF in Hv as (n & Hn & <-). by apply (sp_fr _ _ _ _ _ _ _ _ _ Hsp). }
  assert (forall v, v ∈ fl2 <-> v ∈ fl0) as Hfl.
  { intros v. rewrite V2, Hpg, <- HF. split; [intros [?|[?|[Hx _]]]; auto|intros [?|[?|Hx]]; auto 6]. }
  split; [done|]. split; [done|]. split.
  - intros v Hv. destruct (decide (v ∈ fl0)) as [Hin|Hin].
    + pose proof (ki_free _ _ V1) as Hz. pose proof (ki_free _ _ Hk0) as Hz0. rewrite list.Forall_forall in Hz, Hz0.
      rewrite Hz0 by done. apply Hz. by apply Hfl.
    + rewrite V3, (sp_refs _ _ _ _ _ _ _ _ _ Hsp); [|done|done|done|intros Hp; apply Hin, Hpg; auto].
      rewrite occ_nodup by done. rewrite decide_False; [lia|]. rewrite HF. intros Hn. apply Hin, Hpg. auto.
  - intros a Ha. rewrite V4; [by apply (sp_frame _ _ _ _ _ _ _ _ _ Hsp)|]. intros v Hv _ Hav. apply Ha. exists v. split; [by apply Hfl|done].
Qed.

(** ** allocuvm *)

Definition seven (_ : Z) : Z := 7.

Lemma space_ext fl0 k0 d T fl k N fr fg fr' fg' : (forall n, 1 <= n < N -> fr' n = fr n) -> (forall n, fg' n = fg n) ->
  space fl0 k0 d T fl k N fr fg -> space fl0 k0 d T fl k N fr' fg'.
Proof.
  intros Hr Hg [S1 S2 S3 S4 S5 S6 S7 S8 S9 S10 S11 S12]. split; try done.
  - intros n Hn. rewrite Hr, Hg by done. by apply S3.
  - intros n. rewrite Hg. apply S4.
  - intros n Hn. rewrite Hr by done. by apply S5.
  - intros n n' Hn Hn'. rewrite !Hr by done. by apply S6.
  - intros v. rewrite S9. split; (intros [?|[?|(n & Hn & E)]]; [by left|by right; left|]); right; right; exists n; (split; [done|]); by rewrite ?Hr in * by done.
Qed.

(** The pages the construction has used. *)
Lemma space_count fl0 k0 d T fl k N fr fg : kinv fl0 k0 -> space fl0 k0 d T fl k N fr fg ->
  Z.of_nat (length fl0) <= Z.of_nat (length fl) + 1024 + N.
Proof.
  intros Hk Hsp. pose proof (length_pt_list _ _ _ _ (sp_pt _ _ _ _ _ _ _ _ _ Hsp)) as Hpt. pose proof (sp_N _ _ _ _ _ _ _ _ _ Hsp) as HN.
  assert (length fl0 <= length (fl ++ pt_list d T ++ (fr <$> seqZ 1 (N - 1))))%nat as Hle.
  { apply NoDup_incl_length; [apply NoDup_ListNoDup, (ki_nodup _ _ Hk)|]. intros v Hv%list_elem_of_In. apply list_elem_of_In.
    rewrite !elem_of_app, elem_of_pt_list, list_elem_of_fmap. apply (sp_pages _ _ _ _ _ _ _ _ _ Hsp) in Hv as [?|[?|(n & Hn & E)]]; auto.
    right. right. exists n. split; [done|]. apply elem_of_seqZ. lia. }
  rewrite !length_app, length_fmap, length_seqZ in Hle. lia.
Qed.

Section Shrink.
Context {fl0 : list Z} {k0 : kmem} {d : Z} {T : gmap Z Z} {fl : list Z} {k : kmem} {N : Z} {fr fg : Z -> Z}.
Context (Hsp : space fl0 k0 d T fl k N fr fg).

Lemma space_shrink N0 fl1 k1 : 1 <= N0 <= N -> pt_inv fl1 d T k1 ->
  (forall n, 0 <= n < UPAGES -> pte (memory k1) d (n * PGSIZE) = if decide (N0 <= n < N) then 0 else pte (memory k) d (n * PGSIZE)) ->
  (forall va, KERNBASE <= va -> uaddr va -> pte (memory k1) d va = pte (memory k) d va) ->
  (forall v, v ∈ fl1 <-> v ∈ fl \/ exists n, N0 <= n < N /\ fr n = v) ->
  (forall v, valid_page v -> v ∉ fl1 -> refs k1 v = refs k v) ->
  (forall a, ~ in_pages fl0 a -> ld8 (memory k1) a = ld8 (memory k0) a) ->
  space fl0 k0 d T fl1 k1 N0 fr fg.
Proof.
  intros HN0 Hpt1 Hu Hk Hfl Hr Hfr. pose proof Hsp as [S1 S2 S3 S4 S5 S6 S7 S8 S9 S10 S11 S12].
  assert (forall v, v ∈ fl1 -> v ∈ fl0) as Hsub.
  { intros v [?|(n & Hn & E)]%Hfl; apply S9; [by left|right; right; exists n; split; [lia|done]]. }
  split; try done.
  - lia.
  - intros n Hn. rewrite Hu, decide_False by lia. apply S3. lia.
  - intros n Hn. destruct (S5 n) as (Hv & Hf & Hp & Hr1); [lia|]. assert (fr n ∉ fl1) as Hn1.
    { intros [?|(n' & Hn' & E)]%Hfl; [done|]. apply S6 in E; lia. }
    rewrite Hr by done. done.
  - intros n n' Hn Hn'. apply S6; lia.
  - intros n Hn Hno. rewrite Hu by done. case_decide; [done|]. apply S7; lia.
  - intros e n va He Hva Hreg. rewrite Hk; [by eapply S8|by eapply kregion_kernel|done].
  - intros v. rewrite S9, Hfl. split.
    + intros [?|[?|(n & Hn & E)]]; [by left; left|by right; left|]. destruct (decide (N0 <= n)); [left; right|right; right]; exists n; (split; [lia|done]).
    + intros [[?|(n & Hn & E)]|[?|(n & Hn & E)]]; [by left| |by right; left|]; right; right; exists n; (split; [lia|done]).
  - intros v Hv. destruct (pt_valid _ _ _ _ Hpt1 v Hv) as [Hvv Hn]. rewrite Hr by done. by apply S10.
  - intros v Hv Hn. rewrite Hr; [by apply S11|done|]. intros Hin. by apply Hn, Hsub.
Qed.

(** The state [k'] has all free pages [fl] taken; the pages from [N0] on are
    freed. *)
Context {k' : kmem}.
Context (Hpt' : pt_inv [] d T k') (Hmem : forall a, ~ in_pages fl a -> ld8 (memory k') a = ld8 (memory k) a).
Context (Hrefs : forall v, valid_page v -> v ∉ fl -> refs k' v = refs k v).

Lemma taken_tables a : pt_bytes d T a -> ld8 (memory k') a = ld8 (memory k) a.
Proof.
  intros (v & Hv & Ha). apply Hmem. intros (u & Hu & Hau). pose proof (sp_pt _ _ _ _ _ _ _ _ _ Hsp) as Hpt.
  destruct (pt_valid _ _ _ _ Hpt v Hv) as [Hvv Hvn]. pose proof (ki_valid _ _ (pt_kinv _ _ _ _ Hpt)) as Hval. rewrite list.Forall_forall in Hval.
  apply (pages_apart u v a (Hval u Hu) Hvv); [by intros ->|done|done].
Qed.

Lemma taken_freeable l : NoDup l -> (forall n, n ∈ l -> 0 <= n < UPAGES) -> freeable [] d T k' (addrs l) /\ frames (memory k') d (addrs l) = frames (memory k) d (addrs l).
Proof.
  intros Hnd Hr. pose proof (space_frames Hsp l Hnd Hr) as [Hf1 Hf2].
  assert (forall n, 1 <= n < N -> refs k' (fr n) = 1) as Hr1.
  { intros n Hn. destruct (sp_fr _ _ _ _ _ _ _ _ _ Hsp n Hn) as (? & ? & _ & ?). by rewrite Hrefs. }
  assert (forall va, va ∈ addrs l -> user_va va /\ uaddr va /\ va mod PGSIZE = 0 /\ pte (memory k') d va = pte (memory k) d va) as Hva.
  { intros va (n & -> & Hn)%list_elem_of_fmap. destruct (page_va n (Hr n Hn)) as (? & ? & ? & _). do 3 (split; [done|]).
    apply (pte_frame (sp_pt _ _ _ _ _ _ _ _ _ Hsp)); [done|exact taken_tables]. }
  assert (frames (memory k') d (addrs l) = frames (memory k) d (addrs l)) as EF by (apply frames_ext; intros va H'; by apply Hva).
  split; [|done]. split; [done| | |].
  - intros va H'. by destruct (Hva va H') as (? & _ & ? & _).
  - rewrite EF. intros q Hq. rewrite occ_nodup, decide_True by done. apply Hf2 in Hq as (n & _ & Hn & <-).
    destruct (sp_fr _ _ _ _ _ _ _ _ _ Hsp n Hn) as (? & _ & ? & _). rewrite Hr1 by done. split; [done|]. split; [apply not_elem_of_nil|]. split; [done|lia].
  - intros va H'. destruct (Hva va H') as (Hu & _ & _ & ->). rewrite (space_pte Hsp) by done. case_decide as D; [|done].
    by destruct (space_flags Hsp _ D) as (_ & _ & -> & _).
Qed.

(** The pages from [N0] on are free, and their entries are clear. *)
Record shrunk (N0 : Z) fl1 k1 : Prop := {
  sh_pt : pt_inv fl1 d T k1;
  sh_user : forall n, 0 <= n < UPAGES -> pte (memory k1) d (n * PGSIZE) = if decide (N0 <= n < N) then 0 else pte (memory k) d (n * PGSIZE);
  sh_kern : forall va, KERNBASE <= va -> uaddr va -> pte (memory k1) d va = pte (memory k) d va;
  sh_free : forall v, v ∈ fl1 <-> exists n, N0 <= n < N /\ fr n = v;
  sh_refs : forall v, valid_page v -> v ∉ fl1 -> refs k1 v = refs k' v;
  sh_frame : forall a, ~ in_pages fl0 a -> ld8 (memory k1) a = ld8 (memory k0) a
}.

Lemma freed_shrink N0 c fl1 k1 : 1 <= N0 <= N -> N <= N0 + c <= UPAGES -> freed [] d T k' (addrs (seqZ N0 c)) fl1 k1 -> shrunk N0 fl1 k1.
Proof.
  intros HN0 Hc [F1 F2 F3 F4 F5 F6]. pose proof (sp_pt _ _ _ _ _ _ _ _ _ Hsp) as Hpt. pose proof (sp_pages _ _ _ _ _ _ _ _ _ Hsp) as Hpg.
  assert (NoDup (seqZ N0 c)) as Hnd by apply NoDup_seqZ. assert (forall n, n ∈ seqZ N0 c -> 0 <= n < UPAGES) as Hr by (intros n Hn%elem_of_seqZ; lia).
  destruct (space_frames Hsp _ Hnd Hr) as [Hf1 Hf2]. destruct (taken_freeable _ Hnd Hr) as [_ EF]. rewrite EF in F4, F5. set (Fs := frames (memory k) d (addrs (seqZ N0 c))) in *.
  assert (forall v, v ∈ Fs <-> exists n, N0 <= n < N /\ fr n = v) as HF.
  { intros v. rewrite Hf2. split; intros (n & Hn); exists n; [destruct Hn as (Hn1%elem_of_seqZ & ? & ?); split; [lia|done]|].
    destruct Hn as [Hn E]. split; [apply elem_of_seqZ; lia|]. split; [lia|done]. }
  assert (forall va, uaddr va -> pte (memory k') d va = pte (memory k) d va) as Hpte by (intros va Hva; apply (pte_frame Hpt); [done|exact taken_tables]).
  assert (forall v, v ∈ Fs -> refs k' v = occ v Fs) as HrF.
  { intros v Hv. rewrite occ_nodup, decide_True by done. apply HF in Hv as (n & Hn & <-). destruct (sp_fr _ _ _ _ _ _ _ _ _ Hsp n) as (? & ? & _ & ?); [lia|]. by rewrite Hrefs. }
  assert (forall v, v ∈ fl1 <-> v ∈ Fs) as Hfl1.
  { intros v. rewrite F5. split; [intros [[]%elem_of_nil|[? _]]; done|]. intros Hv. right. split; [done|by apply HrF]. }
  split; [done| | |intros v; by rewrite Hfl1| |].
  - intros n Hn. destruct (page_va n Hn) as (Hu & Hua & _ & Ed). destruct (decide (n ∈ seqZ N0 c)) as [Hin|Hin].
    + rewrite F2 by (apply list_elem_of_fmap; by exists n). rewrite Hpte by done. apply elem_of_seqZ in Hin. rewrite (space_pte Hsp) by done. rewrite Ed.
      destruct (decide (1 <= n < N)) as [D|D]; [|rewrite decide_False by lia; by case_cond].
      destruct (space_flags Hsp n D) as (_ & -> & _). by rewrite decide_True by lia.
    + rewrite F3, Hpte; [|done|done|].
      * rewrite decide_False; [done|]. intros D. apply Hin, elem_of_seqZ. lia.
      * intros x (m & -> & Hm)%list_elem_of_fmap. destruct (page_va m (Hr m Hm)) as (_ & _ & _ & ->). rewrite Ed. by intros ->.
  - intros va Hk Hua. rewrite F3, Hpte; [done|done|done|]. intros x (m & -> & Hm)%list_elem_of_fmap. destruct (page_va m (Hr m Hm)) as (Hx & _ & _ & ->).
    unfold user_va, KERNBASE, PGSIZE in *. Z.div_mod_to_equations. lia.
  - intros v Hv Hn1. rewrite F4 by done. rewrite occ_nodup, decide_False; [lia|by rewrite <- Hfl1|done].
  - intros a Ha. rewrite F6, Hmem.
    + by apply (sp_frame _ _ _ _ _ _ _ _ _ Hsp).
    + intros (v & Hv & Hav). apply Ha. exists v. split; [apply Hpg; by left|done].
    + intros (v & Hv & Hav). apply Ha. exists v. split; [apply Hpg; by right; left|done].
    + intros v Hv _ Hav. apply Ha. exists v. split; [|done]. apply Hfl1, HF in Hv as (n & Hn & <-). apply Hpg. right. right. exists n. split; [lia|done].
Qed.

Lemma dealloc_taken s N0 oldsz newsz : sub_get s = k' -> 1 <= N0 <= N -> 0 <= oldsz < newsz -> newsz <= KERNBASE ->
  PGROUNDUP oldsz = N0 * PGSIZE -> N = N0 \/ (N - 1) * PGSIZE < newsz ->
  wp (deallocuvm d newsz oldsz) (fun _ s' => exists fl1 k1, s' = sub_put k1 s /\ shrunk N0 fl1 k1) s.
Proof.
  intros Es HN0 Ho Hn Er HN. pose proof (sp_N _ _ _ _ _ _ _ _ _ Hsp) as HNb. rewrite UPAGES_eq in HNb.
  assert (upages oldsz newsz = addrs (seqZ N0 (Z.of_nat (npages oldsz newsz)))) as EU.
  { rewrite upages_addrs by lia. rewrite Er. do 2 f_equal. by apply Z.div_mul. }
  assert (N <= N0 + Z.of_nat (npages oldsz newsz) <= UPAGES) as Hc.
  { destruct (PGROUNDUP_facts oldsz) as (Hr & _); [lia|]. rewrite UPAGES_eq. unfold npages. rewrite Er in *. unfold KERNBASE, PGSIZE in *.
    rewrite Z2Nat.id by (apply Z.div_pos; lia). Z.div_mod_to_equations. lia. }
  eapply wp_mono; [apply (deallocuvm_spec [] d T s newsz oldsz Ho Hn)|].
  - rewrite EU, Es. apply taken_freeable; [apply NoDup_seqZ|]. intros n Hin%elem_of_seqZ. lia.
  - intros r s' (_ & fl1 & k1 & -> & Hf). exists fl1, k1. split; [done|]. rewrite Es, EU in Hf. by eapply freed_shrink.
Qed.
End Shrink.

(** No page was left. *)
Lemma shrink_none fl0 k0 d T k N fr fg N0 fl1 k1 : space fl0 k0 d T [] k N fr fg -> 1 <= N0 <= N ->
  shrunk (fl0 := fl0) (k0 := k0) (d := d) (T := T) (k := k) (N := N) (fr := fr) (k' := k) N0 fl1 k1 -> space fl0 k0 d T fl1 k1 N0 fr fg.
Proof.
  intros Hsp HN0 [R1 R2 R3 R4 R5 R6]. eapply (space_shrink Hsp); try done.
  intros v. rewrite R4, elem_of_nil. tauto.
Qed.

(** No page was left for a page table: the last page is given back too. *)
Lemma shrink_one fl0 k0 d T p m' k N fr fg N0 fl1 k1 : space fl0 k0 d T [p] k N fr fg -> 1 <= N0 <= N ->
  shrunk (fl0 := fl0) (k0 := k0) (d := d) (T := T) (k := k) (N := N) (fr := fr) (k' := page_taken p m' k) N0 fl1 k1 ->
  kfree p k1 = Ok tt (kfree_state p k1) /\ space fl0 k0 d T (p :: fl1) (kfree_state p k1) N0 fr fg.
Proof.
  intros Hsp HN0 [R1 R2 R3 R4 R5 R6]. pose proof (sp_pt _ _ _ _ _ _ _ _ _ Hsp) as Hpt. destruct (new_table_page Hpt) as (Hpv & _).
  assert (p ∉ fl1) as Hn1.
  { intros (n & Hn & E)%R4. destruct (sp_fr _ _ _ _ _ _ _ _ _ Hsp n) as (_ & Hf & _); [lia|]. apply Hf. rewrite E. apply list_elem_of_here. }
  assert (refs k1 p = 1) as Hr by (rewrite R5, (page_taken_refs Hpt) by done; by rewrite decide_True).
  pose proof (pt_kinv _ _ _ _ R1) as Hk1. destruct (ki_locks _ _ Hk1) as [Hl1 Hl2].
  assert (forall a, pt_bytes d T a -> ld8 (memory (kfree_state p k1)) a = ld8 (memory k1) a) as Hb.
  { intros a Ha. apply kfree_state_frame. by apply (pt_bytes_apart Hpt). }
  split; [apply kfree_eq; try done; lia|]. eapply (space_shrink Hsp); [done| | | | | |].
  - apply (pt_inv_frame R1); [apply kfree_inv_last; (done || lia)| |done].
    intros v Hv. destruct (pt_valid _ _ _ _ R1 v Hv), (pt_valid _ _ _ _ Hpt v Hv) as [_ Hv']. rewrite not_elem_of_cons. split; [|done]. by apply not_elem_of_cons in Hv' as [? _].
  - intros n Hn. rewrite (pte_frame R1) by (done || by apply page_va). by apply R2.
  - intros va Hk Hua. rewrite (pte_frame R1) by done. by apply R3.
  - intros v. rewrite !elem_of_cons, elem_of_nil, R4. tauto.
  - intros v Hv [Hp Hf]%not_elem_of_cons. rewrite refs_kfree_state by (done || lia). rewrite decide_False by done.
    rewrite R5, (page_taken_refs Hpt) by done. by rewrite decide_False.
  - intros a Ha. rewrite kfree_state_frame; [by apply R6|]. intros Hin. apply Ha. exists p. split; [|done].
    apply (sp_pages _ _ _ _ _ _ _ _ _ Hsp). left. apply list_elem_of_here.
Qed.

(** The number of pages that hold [sz] bytes. *)
Definition pages (sz : Z) : Z := PGROUNDUP sz / PGSIZE.

Lemma pages_spec sz : 0 <= sz < KERNBASE -> PGROUNDUP sz = pages sz * PGSIZE /\ 0 <= pages sz <= UPAGES /\ forall n, (n * PGSIZE <? sz) = (n <? pages sz).
Proof.
  intros Hsz. destruct (PGROUNDUP_facts sz) as (Hr & Hm & Hb); [lia|]. unfold pages. rewrite UPAGES_eq. unfold KERNBASE, PGSIZE in *.
  split; [Z.div_mod_to_equations; lia|]. split; [Z.div_mod_to_equations; lia|]. intros n. apply eq_true_iff_eq. rewrite !Z.ltb_lt. Z.div_mod_to_equations. lia.
Qed.

Section Alloc.
Context {fl0 : list Z} {k0 : kmem} {d : Z} (Hk0 : kinv fl0 k0) {oldsz newsz : Z} {img : Z -> Z}.
Context (Hold : PGSIZE <= oldsz <= newsz) (Hnew : newsz < KERNBASE) (Himg : forall a, PGROUNDUP oldsz <= a -> img a = 0).

(** The state in which [allocuvm] gives up. *)
Definition gave_up (s : S) (s' : S) : Prop :=
  exists T fl k fr, s' = sub_put k s /\ space fl0 k0 d T fl k (pages oldsz) fr seven /\ Z.of_nat (length fl0) <= 1024 + pages newsz.
Definition grown (s : S) (s' : S) : Prop :=
  exists T fl k fr, s' = sub_put k s /\ space fl0 k0 d T fl k (pages newsz) fr seven /\ shows (memory k) (pages newsz) fr img.

Lemma grown_put k s s' : grown (sub_put k s) s' -> grown s s'.
Proof. intros (T & fl & k' & fr & -> & Hx). exists T, fl, k', fr. by rewrite sub_put_put. Qed.
Lemma gave_up_put k s s' : gave_up (sub_put k s) s' -> gave_up s s'.
Proof. intros (T & fl & k' & fr & -> & Hx). exists T, fl, k', fr. by rewrite sub_put_put. Qed.

Lemma old_pages : PGROUNDUP oldsz = pages oldsz * PGSIZE /\ 1 <= pages oldsz <= pages newsz.
Proof.
  destruct (pages_spec oldsz) as (Ho & _ & Ho'); [unfold PGSIZE in *; lia|]. destruct (pages_spec newsz) as (Hn & _ & Hn'); [unfold PGSIZE in *; lia|].
  split; [done|]. destruct (PGROUNDUP_facts oldsz) as (Hr & _), (PGROUNDUP_facts newsz) as (Hr' & _); [unfold PGSIZE in *; lia..|]. unfold PGSIZE in *. lia.
Qed.

(** [deallocuvm] when no page is left. *)
Lemma alloc_oom T s N fr : space fl0 k0 d T [] (sub_get s) N fr seven -> pages oldsz <= N < pages newsz ->
  wp (deallocuvm d newsz oldsz ;;; kret 0) (fun r s' => r = 0 /\ gave_up s s') s.
Proof.
  intros Hsp HN. destruct old_pages as [Eo Ho]. destruct (pages_spec newsz) as (_ & _ & Hn); [unfold PGSIZE in *; lia|].
  assert (N * PGSIZE < newsz) as Hlt by (apply Z.ltb_lt; rewrite Hn; apply Z.ltb_lt; lia). destruct (PGROUNDUP_facts oldsz) as (Hr & _); [unfold PGSIZE in *; lia|].
  apply wp_bind. eapply wp_mono; [apply (dealloc_taken Hsp (sp_pt _ _ _ _ _ _ _ _ _ Hsp) (fun _ _ => eq_refl) (fun _ _ _ => eq_refl) s (pages oldsz)); try done; unfold PGSIZE in *; lia|].
  intros r s' (fl1 & k1 & -> & Hs). apply wp_ret. split; [done|]. apply shrink_none with (fg := seven) in Hs; [|done|lia]. exists T, fl1, k1, fr. split; [done|].
  split; [done|]. pose proof (space_count _ _ _ _ _ _ _ _ _ Hk0 Hsp) as Hc. simpl in Hc. lia.
Qed.

(** ... and when there is one, but none for its page table. *)
Lemma alloc_oom_table T p m' s N fr k : space fl0 k0 d T [p] k N fr seven -> (forall a, ~ p <= a < p + PGSIZE -> ld8 m' a = ld8 (memory k) a) ->
  sub_get s = page_taken p m' k -> pages oldsz <= N < pages newsz ->
  wp (deallocuvm d newsz oldsz ;;; lift (kfree p) ;;; kret 0) (fun r s' => r = 0 /\ gave_up s s') s.
Proof.
  intros Hsp Hm' Es HN. destruct old_pages as [Eo Ho]. destruct (pages_spec newsz) as (_ & _ & Hn); [unfold PGSIZE in *; lia|].
  assert (N * PGSIZE < newsz) as Hlt by (apply Z.ltb_lt; rewrite Hn; apply Z.ltb_lt; lia). destruct (PGROUNDUP_facts oldsz) as (Hr & _); [unfold PGSIZE in *; lia|].
  pose proof (sp_pt _ _ _ _ _ _ _ _ _ Hsp) as Hpt. pose proof (page_taken_inv Hpt Hm') as Hpt1.
  apply wp_bind. eapply wp_mono; [apply (dealloc_taken Hsp Hpt1) with (N0 := pages oldsz); try done; [| |unfold PGSIZE in *; lia..]|].
  - intros a Ha. apply Hm'. intros Hin. apply Ha. exists p. split; [apply list_elem_of_here|done].
  - intros v Hv Hp. rewrite (page_taken_refs Hpt) by done. rewrite decide_False; [done|]. intros ->. apply Hp, list_elem_of_here.
  - intros r s' (fl1 & k1 & -> & Hs). apply shrink_one with (fg := seven) in Hs as [Ek Hs]; [|done|lia]. apply wp_bind.
    eapply wp_lift_eq; [rewrite sub_get_put; exact Ek|]. rewrite sub_put_put. apply wp_ret. split; [done|]. exists T, (p :: fl1), (kfree_state p k1), fr.
    split; [done|]. split; [done|]. pose proof (space_count _ _ _ _ _ _ _ _ _ Hk0 Hsp) as Hc. simpl in Hc. lia.
Qed.

(** The content after one more page of zeros. *)
Lemma grow_shows T p fl k N fr fl' T' k' : space fl0 k0 d T (p :: fl) k N fr seven -> N < UPAGES -> pages oldsz <= N ->
  mapped fl d T (page_taken p (memset p 0 PGSIZE (memory k)) k) (N * PGSIZE) (V2P p + 7) fl' T' k' ->
  shows (memory k) N fr img -> space fl0 k0 d T' fl' k' (N + 1) (at_page fr N p) seven /\ shows (memory k') (N + 1) (at_page fr N p) img.
Proof.
  intros Hsp HN Ho Hmap Hsh. destruct old_pages as [Eo Ho']. set (m' := memset p 0 PGSIZE (memory k)) in *.
  assert (forall a, ld8 m' a = if decide (p <= a < p + PGSIZE) then 0 else ld8 (memory k) a) as Em by (intros a; unfold m'; by rewrite ld8_memset by (unfold PGSIZE; lia)).
  assert (forall a, ~ p <= a < p + PGSIZE -> ld8 m' a = ld8 (memory k) a) as Hm' by (intros a Ha; by rewrite Em, decide_False).
  pose proof (space_grow Hsp HN Hm' Hmap) as Hsp'. split.
  - eapply space_ext; [done| |exact Hsp']. intros n. unfold at_page, seven. by case_decide.
  - intros n o Hn Hoff. destruct (sp_fr _ _ _ _ _ _ _ _ _ Hsp' n Hn) as (Hv & _ & Hnp & _). rewrite (gr_bytes Hmap (at_page fr N p n)) by (done || lia).
    destruct (gr_page Hsp) as (Hpv & _ & _ & Hne). destruct (decide (n = N)) as [->|Hd].
    + rewrite at_page_eq, Em, decide_True by lia. symmetry. apply Himg. unfold PGSIZE in *. lia.
    + rewrite at_page_ne in * by done. rewrite Em, decide_False by (intros Hin; apply (pages_apart p (fr n) (fr n + o) Hpv Hv); [intros E; by apply (Hne n); [lia|]|done|lia]).
      apply Hsh; lia.
Qed.

Lemma allocuvm_loop_space fuel : forall N T fl s fr, pages oldsz <= N <= pages newsz -> (Z.to_nat (pages newsz - N) < fuel)%nat ->
  space fl0 k0 d T fl (sub_get s) N fr seven -> shows (memory (sub_get s)) N fr img ->
  wp (allocuvm_loop fuel d (N * PGSIZE) oldsz newsz) (fun r s' => (r = 0 /\ gave_up s s') \/ (r = newsz /\ grown s s')) s.
Proof.
  induction fuel as [|fuel IH]; intros N T fl s fr HN Hf Hsp Hsh; [lia|]. cbn [allocuvm_loop].
  destruct (pages_spec newsz) as (_ & Hnb & Hn); [unfold PGSIZE in *; lia|]. rewrite Hn. destruct (Z.ltb_spec N (pages newsz)) as [Hlt|Hge]; cbn [negb].
  2: { apply wp_ret. right. split; [done|]. replace N with (pages newsz) in * by lia. exists T, fl, (sub_get s), fr. by rewrite sub_put_get. }
  destruct old_pages as [Eo Ho]. pose proof (sp_pt _ _ _ _ _ _ _ _ _ Hsp) as Hpt. pose proof (pt_kinv _ _ _ _ Hpt) as Hk. apply wp_bind. destruct fl as [|p fl].
  { eapply wp_lift_eq; [by apply kalloc_nil_eq|]. rewrite sub_put_get. eapply wp_mono; [apply (alloc_oom T s N fr Hsp); lia|]. intros r s' Hr. by left. }
  destruct (new_table_page Hpt) as (Hpv & _). eapply wp_lift_eq; [by eapply kalloc_cons_eq|]. rewrite (proj2 (Z.eqb_neq _ _) (valid_page_nonnull p Hpv)).
  apply wp_bind, wp_lift, wp_modify. rewrite sub_get_put, sub_put_put. set (m' := memset p 0 PGSIZE (memory (sub_get s))).
  assert (forall a, ~ p <= a < p + PGSIZE -> ld8 m' a = ld8 (memory (sub_get s)) a) as Hm' by (intros a Ha; unfold m'; by rewrite ld8_memset, decide_False by (done || unfold PGSIZE; lia)).
  change (wp (r <- lift (mappages d (N * PGSIZE) PGSIZE (V2P p) (Z.lor PTE_W PTE_U)) ;;
    if r <? 0 then deallocuvm d newsz oldsz ;;; lift (kfree p) ;;; kret 0 else allocuvm_loop fuel d (u32 (N * PGSIZE + PGSIZE)) oldsz newsz)
    (fun r s' => (r = 0 /\ gave_up s s') \/ (r = newsz /\ grown s s')) (sub_put (page_taken p m' (sub_get s)) s)).
  destruct (page_va N) as (Hu & Hua & Hal & _); [lia|]. destruct (valid_page_pa p Hpv) as [_ Hpa]. destruct (valid_page_entry p Hpv) as (_ & Hpm & _).
  apply wp_bind, wp_lift. rewrite sub_get_put. eapply wp_mono; [eapply wp_run; [by apply mappages_one|]; apply (map_page fl d T); [by apply page_taken_inv|done| |unfold PHYSTOP in *; lia|done|done]|].
  { cbn [memory page_taken set_memory]. rewrite (page_taken_pte Hpt Hm') by done. rewrite (sp_out _ _ _ _ _ _ _ _ _ Hsp) by lia. done. }
  intros r k' [(-> & -> & -> & _)|(-> & fl' & T' & Hmap)]; rewrite sub_put_put; cbv iota beta zeta.
  - change (-1 <? 0) with true. cbv iota. eapply wp_mono; [apply (alloc_oom_table T p m' _ N fr (sub_get s)); [done|done|by rewrite sub_get_put|lia]|].
    intros r s' [-> Hr]. left. split; [done|]. by eapply gave_up_put.
  - change (0 <? 0) with false. cbv iota.
    assert (Z.lor (Z.lor (V2P p) (Z.lor PTE_W PTE_U)) PTE_P = V2P p + 7) as Ex by (change (Z.lor PTE_W PTE_U) with 6; rewrite <- Z.lor_assoc; by apply lor_aligned).
    rewrite Ex in Hmap. destruct (grow_shows T p fl (sub_get s) N fr fl' T' k' Hsp) as [Hsp' Hsh']; [lia|lia|done|done|].
    assert (u32 (N * PGSIZE + PGSIZE) = (N + 1) * PGSIZE) as -> by (rewrite u32_id by (unfold user_va, KERNBASE, PGSIZE in *; lia); lia).
    eapply wp_mono; [apply (IH (N + 1) T' fl' _ (at_page fr N p)); rewrite ?sub_get_put; try done; lia|].
    intros r s' [[-> Hr]|[-> Hr]]; [left; split; [done|]; by eapply gave_up_put|right; split; [done|]; by eapply grown_put].
Qed.
End Alloc.
End Space.
