(* ===== verification/Spaceio.v ===== *)
(** * Filling an address space under construction (vm.c)

    What exec.c does with the pages of a new address space: growing it
    ([allocuvm]), hiding a page from the program ([clearpteu]), copying bytes
    into it ([copyout]).  The content is an image, a function from user
    addresses to bytes. *)

From S2P Require Import Prelude Layout Mem Kstring Kalloc Vm Uvm Space.

(** Writing [data] at [va]. *)
Definition img_write (img : Z -> Z) (va : Z) (data : list Z) : Z -> Z := fun a =>
  if decide (va <= a < va + Z.of_nat (length data)) then u8 (data !!! Z.to_nat (a - va)) else img a.

Lemma img_write_nil img va a : img_write img va [] a = img a.
Proof. unfold img_write. rewrite decide_False; [done|]. simpl. lia. Qed.

Lemma img_write_app img va d1 d2 a :
  img_write (img_write img va d1) (va + Z.of_nat (length d1)) d2 a = img_write img va (d1 ++ d2) a.
Proof.
  unfold img_write. rewrite length_app. destruct (decide (va + Z.of_nat (length d1) <= a < _)) as [D|D].
  - rewrite decide_True by lia. rewrite lookup_total_app_r by lia. f_equal. f_equal. lia.
  - destruct (decide (va <= a < va + Z.of_nat (length d1))) as [D'|D'].
    + rewrite decide_True by lia. rewrite lookup_total_app_l by lia. done.
    + by rewrite decide_False by lia.
Qed.

Section Spaceio.
Context `{KernelImage} {S : Type} `{Sub kmem S} `{SwapOps S}.
Implicit Types (fl : list Z) (k : kmem) (T : gmap Z Z) (fr fg : Z -> Z) (m : mem) (s : S) (img : Z -> Z).
Context {fl0 : list Z} {k0 : kmem} {d : Z}.

(** [N] pages with the content [img]; and any stage of the construction. *)
Definition built (N : Z) fg img k : Prop := exists T fl fr, space fl0 k0 d T fl k N fr fg /\ shows (memory k) N fr img.
Definition partial k : Prop := exists T fl N fr fg, space fl0 k0 d T fl k N fr fg.

Lemma built_partial N fg img k : built N fg img k -> partial k.
Proof. intros (T & fl & fr & Hsp & _). by exists T, fl, N, fr, fg. Qed.

Lemma built_ext N fg img img' k : (forall a, PGSIZE <= a < N * PGSIZE -> img' a = img a) -> built N fg img k -> built N fg img' k.
Proof.
  intros Hi (T & fl & fr & Hsp & Hsh). exists T, fl, fr. split; [done|]. intros n o Hn Ho. rewrite Hsh by done. symmetry. apply Hi. unfold PGSIZE in *. lia.
Qed.

(** Bytes stored into the frame of one page. *)
Lemma space_store T fl k N fr fg img n o bs : space fl0 k0 d T fl k N fr fg -> shows (memory k) N fr img ->
  1 <= n < N -> 0 <= o -> o + Z.of_nat (length bs) <= PGSIZE ->
  let k' := set_memory (store_bytes (fr n + o) bs (memory k)) k in
  space fl0 k0 d T fl k' N fr fg /\ shows (memory k') N fr (img_write img (n * PGSIZE + o) bs).
Proof.
  intros Hsp Hsh Hn Ho Hl k'. split.
  - apply (space_write Hsp). intros a Ha. rewrite ld8_store_bytes, decide_False; [done|]. intros Hin. apply Ha. exists n. split; [done|lia].
  - intros x y Hx Hy. cbn [memory k' set_memory]. rewrite ld8_store_bytes. unfold img_write. destruct (sp_fr _ _ _ _ _ _ _ _ _ Hsp n Hn) as (Hvn & _), (sp_fr _ _ _ _ _ _ _ _ _ Hsp x Hx) as (Hvx & _).
    destruct (decide (x = n)) as [->|Hd].
    + destruct (decide (fr n + o <= fr n + y < _)) as [D|D]; [rewrite decide_True by lia|rewrite decide_False by lia; by apply Hsh].
      do 2 f_equal. lia.
    + rewrite !decide_False; [by apply Hsh|unfold PGSIZE in *; lia|]. intros Hin. apply (pages_apart (fr x) (fr n) (fr x + y) Hvx Hvn); [|lia|lia].
      intros E. apply Hd. by apply (sp_inj _ _ _ _ _ _ _ _ _ Hsp).
Qed.

(** ** allocuvm *)

Lemma allocuvm_space s sz newsz img : kinv fl0 k0 -> PGSIZE <= sz < KERNBASE -> 0 <= newsz -> (forall a, PGROUNDUP sz <= a -> img a = 0) ->
  built (pages sz) seven img (sub_get s) ->
  wp (allocuvm d sz newsz) (fun r s' => exists k', s' = sub_put k' s /\
    ((r = 0 /\ (KERNBASE <= newsz \/ newsz < KERNBASE /\ Z.of_nat (length fl0) <= 1024 + pages newsz) /\ partial k') \/
     (r = Z.max sz newsz /\ newsz < KERNBASE /\ built (pages r) seven img k'))) s.
Proof.
  intros Hk0 Hsz Hn Hz Hb. unfold allocuvm. destruct (Z.leb_spec KERNBASE newsz).
  { apply wp_ret. exists (sub_get s). rewrite sub_put_get. split; [done|]. left. split; [done|]. split; [by left|by eapply built_partial]. }
  destruct (Z.ltb_spec newsz sz).
  { apply wp_ret. exists (sub_get s). rewrite sub_put_get. split; [done|]. right. split; [lia|]. done. }
  destruct Hb as (T & fl & fr & Hsp & Hsh). destruct (old_pages (oldsz := sz) (newsz := newsz)) as [Eo Ho]; [lia|lia|]. rewrite Eo.
  destruct (PGROUNDUP_facts newsz) as (Hr & _); [unfold PGSIZE in *; lia|].
  eapply wp_mono; [eapply (allocuvm_loop_space Hk0 (img := img)); try done; try lia|].
  { unfold pages in *. unfold PGSIZE in *. Z.div_mod_to_equations. lia. }
  intros r s' [(-> & T' & fl' & k' & fr' & -> & Hsp' & Hlen)|(-> & T' & fl' & k' & fr' & -> & Hsp' & Hsh')]; exists k'; (split; [done|]).
  - left. split; [done|]. split; [right; split; [lia|done]|]. by exists T', fl', (pages sz), fr', seven.
  - right. split; [lia|]. split; [lia|]. by exists T', fl', fr'.
Qed.

(** ** clearpteu *)

(** The guard page below the stack. *)
Definition guarded (g : Z) : Z -> Z := at_page seven g 3.

(** Every mapped page has a table. *)
Lemma space_table T fl k N fr fg n : space fl0 k0 d T fl k N fr fg -> 1 <= n < N -> exists t, T !! PDX (n * PGSIZE) = Some t.
Proof.
  intros Hsp Hn. pose proof (sp_N _ _ _ _ _ _ _ _ _ Hsp) as HN. destruct (page_va n) as (_ & Hua & _); [lia|].
  destruct (T !! PDX (n * PGSIZE)) as [t|] eqn:Ht; [by exists t|]. destruct (pte_none (sp_pt _ _ _ _ _ _ _ _ _ Hsp) _ Hua Ht) as [_ Hp0].
  destruct (space_flags Hsp n Hn) as (_ & Hf & _). by rewrite <- (sp_in _ _ _ _ _ _ _ _ _ Hsp n Hn), Hp0 in Hf.
Qed.

(** Changing the flags of one page. *)
Lemma space_set_flags T fl k N fr fg img n t f : space fl0 k0 d T fl k N fr fg -> shows (memory k) N fr img -> 1 <= n < N ->
  T !! PDX (n * PGSIZE) = Some t -> f = 7 \/ f = 3 ->
  let k' := set_memory (st32 (t + 4 * PTX (n * PGSIZE)) (V2P (fr n) + f) (memory k)) k in
  space fl0 k0 d T fl k' N fr (at_page fg n f) /\ shows (memory k') N fr img.
Proof.
  intros Hsp Hsh Hn Ht Hf k'. pose proof Hsp as [S1 S2 S3 S4 S5 S6 S7 S8 S9 S10 S11 S12]. destruct (page_va n) as (_ & Hua & _ & Ed); [lia|]. destruct (S5 n Hn) as (Hv & _).
  destruct (valid_page_entry (fr n) Hv) as (Hr & _). destruct (valid_page_pa (fr n) Hv) as [_ Hpa].
  destruct (set_pte _ _ _ _ _ _ (V2P (fr n) + f) S1 Hua Ht) as (P1 & P2 & P3 & P4); [unfold PHYSTOP in *; lia|]. fold k' in P1, P2, P3, P4.
  assert (pt_page d T t) as Htp by (right; by exists (PDX (n * PGSIZE))). split.
  - split; try done.
    + intros x Hx. unfold at_page. case_decide as D; [by subst|]. destruct (page_va x) as (_ & Hux & _ & Ex); [lia|]. rewrite P3 by (rewrite ?Ex, ?Ed; done). by apply S3.
    + intros x. unfold at_page. case_decide; [done|apply S4].
    + intros x Hx Hno. destruct (page_va x) as (_ & Hux & _ & Ex); [lia|]. rewrite P3 by (rewrite ?Ex, ?Ed; try done; lia). by apply S7.
    + intros e x va He Hva Hreg. rewrite P3; [by eapply S8|done|]. rewrite Ed. intros E. pose proof (kregion_kernel e x va He Hreg).
      rewrite UPAGES_eq in *. unfold KERNBASE, PGSIZE in *. Z.div_mod_to_equations. lia.
    + intros a Ha. rewrite P4; [by apply S12|]. intros Hin. apply Ha. exists t. split; [apply S9; by right; left|done].
  - intros x o Hx Ho. rewrite P4; [by apply Hsh|]. intros Hin. apply (frame_not_table Hsp (fr x + o)); [exists x; split; [done|lia]|]. by exists t.
Qed.

Lemma clearpteu_space s N img g : 1 <= g < N -> built N seven img (sub_get s) ->
  wp (lift (clearpteu d (g * PGSIZE))) (fun _ s' => exists k', s' = sub_put k' s /\ built N (guarded g) img k') s.
Proof.
  intros Hg (T & fl & fr & Hsp & Hsh). pose proof (sp_pt _ _ _ _ _ _ _ _ _ Hsp) as Hpt. pose proof (sp_N _ _ _ _ _ _ _ _ _ Hsp) as HN.
  destruct (page_va g) as (_ & Hua & _ & Ed); [lia|]. destruct (space_table _ _ _ _ _ _ _ Hsp Hg) as [t Ht].
  assert (clear_flag PTE_U (ld32 (memory (sub_get s)) (t + 4 * PTX (g * PGSIZE))) = V2P (fr g) + 3) as Ec.
  { rewrite (pte_at Hpt Hua Ht), (sp_in _ _ _ _ _ _ _ _ _ Hsp g Hg). destruct (sp_fr _ _ _ _ _ _ _ _ _ Hsp g Hg) as (Hv & _).
    destruct (valid_page_pa _ Hv) as [_ Hpa]. destruct (valid_page_entry _ Hv) as (_ & Hpm & _). unfold clear_flag. by rewrite clear_entry by (done || unfold PHYSTOP in *; lia). }
  unfold clearpteu. apply wp_lift, wp_bind. eapply wp_eq; [by apply (walkpgdir_hit Hpt _ t)|].
  rewrite (proj2 (Z.eqb_neq _ _) (entry_nonnull Hpt _ t Hua Ht)). apply wp_modify. rewrite Ec.
  eexists. split; [done|]. exists T, fl, fr. apply (space_set_flags T fl (sub_get s) N fr seven img g t 3 Hsp Hsh Hg Ht). by right.
Qed.

(** ** copyout *)

Section Copy.
Context {T : gmap Z Z} {fl : list Z} {N : Z} {fr fg : Z -> Z}.

Lemma uva2ka_table s va t : space fl0 k0 d T fl (sub_get s) N fr fg -> uaddr va -> T !! PDX va = Some t ->
  let e := pte (memory (sub_get s)) d va in flag PTE_S e = false -> flag PTE_C e = false ->
  uva2ka d va s = Ok (if flag PTE_P e && flag PTE_U e then frame_of e else NULL) s.
Proof.
  intros Hsp Hua Ht e HS HC. pose proof (sp_pt _ _ _ _ _ _ _ _ _ Hsp) as Hpt. unfold uva2ka.
  assert (forall A (f : Z -> M S A), kbind (load (t + 4 * PTX va)) f s = f e s) as HL.
  { intros A f. apply kbind_ok. unfold load, lift, gets. by rewrite sub_put_get, (pte_at Hpt Hua Ht). }
  rewrite (kbind_ok _ _ s (t + 4 * PTX va) s) by (unfold lift; rewrite (walkpgdir_hit Hpt va t) by done; by rewrite sub_put_get).
  rewrite (proj2 (Z.eqb_neq _ _) (entry_nonnull Hpt va t Hua Ht)). rewrite HL. destruct (flag PTE_P e); [|done]. destruct (flag PTE_U e); [|done]. cbn [negb andb].
  rewrite HS. rewrite (kbind_ok _ _ s 0 s) by done. change (0 <? 0) with false. cbv iota. rewrite HL, HC. rewrite (kbind_ok _ _ s 0 s) by done.
  change (0 <? 0) with false. cbv iota. by rewrite HL.
Qed.

(** A page the program may write. *)
Definition okpage (n : Z) : Prop := 1 <= n < N /\ fg n = 7.

Lemma okpage_dec n : okpage n \/ ~ okpage n.
Proof. unfold okpage. destruct (decide (1 <= n < N)), (decide (fg n = 7)); tauto. Qed.

Lemma uva2ka_ok s n : space fl0 k0 d T fl (sub_get s) N fr fg -> okpage n -> uva2ka d (n * PGSIZE) s = Ok (fr n) s.
Proof.
  intros Hsp [Hn Hg]. pose proof (sp_N _ _ _ _ _ _ _ _ _ Hsp). destruct (page_va n) as (_ & Hua & _); [lia|]. destruct (space_table _ _ _ _ _ _ _ Hsp Hn) as [t Ht].
  pose proof (space_flags Hsp n Hn) as Hf. rewrite <- (sp_in _ _ _ _ _ _ _ _ _ Hsp n Hn) in Hf. destruct Hf as (F1 & F2 & F3 & F4 & F5).
  rewrite (uva2ka_table s _ t Hsp) by done. rewrite F2, F5, bool_decide_eq_true_2 by done. by rewrite <- F1.
Qed.

Lemma uva2ka_bad s n : space fl0 k0 d T fl (sub_get s) N fr fg -> 2 <= N -> 0 <= n < N -> ~ okpage n -> uva2ka d (n * PGSIZE) s = Ok NULL s.
Proof.
  intros Hsp HN2 Hn Hbad. pose proof (sp_N _ _ _ _ _ _ _ _ _ Hsp). destruct (page_va n) as (_ & Hua & _); [lia|]. destruct (decide (n = 0)) as [->|Hn0].
  - destruct (space_table _ _ _ _ _ _ 1 Hsp) as [t Ht]; [lia|]. assert (pte (memory (sub_get s)) d (0 * PGSIZE) = 0) as E by (apply (sp_out _ _ _ _ _ _ _ _ _ Hsp); lia).
    rewrite (uva2ka_table s _ t Hsp) by (done || by rewrite E). by rewrite E.
  - destruct (space_table _ _ _ _ _ _ n Hsp) as [t Ht]; [lia|]. pose proof (space_flags Hsp n ltac:(lia)) as Hf.
    rewrite <- (sp_in _ _ _ _ _ _ _ _ _ Hsp n) in Hf by lia. destruct Hf as (F1 & F2 & F3 & F4 & F5).
    rewrite (uva2ka_table s _ t Hsp) by done. rewrite F2, F5, bool_decide_eq_false_2; [done|]. intros E. apply Hbad. split; [lia|done].
Qed.

(** The devices at the top are the kernel's. *)
Lemma uva2ka_dev s va : space fl0 k0 d T fl (sub_get s) N fr fg -> DEVSPACE <= va < 2 ^ 32 -> uva2ka d va s = Ok NULL s.
Proof.
  intros Hsp Hva. assert (uaddr va) as Hua by (unfold uaddr, DEVSPACE in *; lia).
  set (e := mk_kmap DEVSPACE DEVSPACE 0 PTE_W). assert (pte (memory (sub_get s)) d va = region_pte e va) as E.
  { apply (sp_kern _ _ _ _ _ _ _ _ _ Hsp e (Z.to_nat ((2 ^ 32 - DEVSPACE) / PGSIZE - 1))); [|done|].
    - unfold kregions. do 3 apply list_elem_of_further. apply list_elem_of_here.
    - unfold in_region, e. cbn [km_virt]. unfold DEVSPACE, PGSIZE in *. exists (Z.to_nat (va / 4096 - 4261412864 / 4096)). Z.div_mod_to_equations. lia. }
  assert (region_pte e va = va / PGSIZE * PGSIZE + 3) as Er.
  { unfold region_pte, e. cbn [km_start km_virt km_perm]. rewrite <- Z.lor_assoc. change (Z.lor PTE_W PTE_P) with 3. rewrite lor_aligned; [lia| |done].
    rewrite Zplus_minus. by apply Z.mod_mul. }
  assert (forall g, 0 <= g < PGSIZE -> flag g (region_pte e va) = flag g 3) as Hfl.
  { intros g Hg. rewrite Er. unfold flag. rewrite land_entry; [done|by apply Z.mod_mul|done|done]. }
  destruct (T !! PDX va) as [t|] eqn:Ht; [|destruct (pte_none (sp_pt _ _ _ _ _ _ _ _ _ Hsp) _ Hua Ht) as [_ E0]; rewrite E, Er in E0; unfold PGSIZE, DEVSPACE in *; Z.div_mod_to_equations; lia].
  rewrite (uva2ka_table s va t Hsp) by (done || by rewrite E, Hfl). by rewrite E, !Hfl.
Qed.

(** [copyout] of bytes that fit below the top of the space. *)
Lemma copyout_loop_space fuel : forall data va s img, (length data < fuel)%nat -> 2 <= N -> 0 <= va -> va + Z.of_nat (length data) <= N * PGSIZE ->
  space fl0 k0 d T fl (sub_get s) N fr fg -> shows (memory (sub_get s)) N fr img ->
  wp (copyout_loop fuel d va data) (fun r s' => exists k', s' = sub_put k' s /\ space fl0 k0 d T fl k' N fr fg /\
    ((r = 0 /\ (forall a, va <= a < va + Z.of_nat (length data) -> okpage (a / PGSIZE)) /\ shows (memory k') N fr (img_write img va data)) \/
     (r = -1 /\ exists a, va <= a < va + Z.of_nat (length data) /\ ~ okpage (a / PGSIZE)))) s.
Proof.
  induction fuel as [|fuel IH]; intros data va s img Hf HN2 Hva Hlen Hsp Hsh; [lia|]. cbn [copyout_loop]. pose proof (sp_N _ _ _ _ _ _ _ _ _ Hsp) as HN. rewrite UPAGES_eq in HN.
  destruct (Z.ltb_spec 0 (Z.of_nat (length data))) as [Hpos|Hz]; cbn [negb].
  2: { apply wp_ret. exists (sub_get s). rewrite sub_put_get. split; [done|]. split; [done|]. left. split; [done|]. split; [lia|].
       destruct data; [|simpl in Hz; lia]. intros n o Hn Ho. rewrite img_write_nil. by apply Hsh. }
  set (n := va / PGSIZE). set (o := va mod PGSIZE). assert (va = n * PGSIZE + o /\ 0 <= o < PGSIZE) as [Eva Ho] by (unfold n, o, PGSIZE; Z.div_mod_to_equations; lia).
  assert (PGROUNDDOWN va = n * PGSIZE) as -> by (apply PGROUNDDOWN_spec; unfold PGSIZE in *; lia). assert (0 <= n < N) as Hn by (unfold PGSIZE in *; lia).
  assert (u32 (PGSIZE - u32 (va - n * PGSIZE)) = PGSIZE - o) as -> by (rewrite !u32_id; unfold PGSIZE in *; try lia; rewrite ?u32_id; lia).
  apply wp_bind. destruct (okpage_dec n) as [Hok|Hbad].
  2: { eapply wp_eq; [by apply (uva2ka_bad s n Hsp)|]. apply wp_ret. exists (sub_get s). rewrite sub_put_get. split; [done|]. split; [done|]. right. split; [done|].
       exists va. split; [lia|]. exact Hbad. }
  eapply wp_eq; [by apply (uva2ka_ok s n Hsp)|]. destruct (sp_fr _ _ _ _ _ _ _ _ _ Hsp n) as (Hv & _); [apply Hok|]. rewrite (proj2 (Z.eqb_neq _ _) (valid_page_nonnull _ Hv)).
  set (c := Z.to_nat _). assert (Z.of_nat c = Z.min (Z.of_nat (length data)) (PGSIZE - o)) as Ec by (unfold c; destruct (Z.ltb_spec (Z.of_nat (length data)) (PGSIZE - o)); lia).
  assert (length (take c data) = c) as Et by (rewrite length_take; lia).
  apply wp_bind, wp_lift, wp_modify. replace (fr n + (va - n * PGSIZE)) with (fr n + o) by lia.
  destruct (space_store T fl (sub_get s) N fr fg img n o (take c data) Hsp Hsh) as [Hsp1 Hsh1]; [apply Hok|lia|rewrite Et; lia|]. rewrite <- Eva in Hsh1.
  assert (u32 (n * PGSIZE + PGSIZE) = (n + 1) * PGSIZE) as -> by (rewrite u32_id; unfold PGSIZE in *; lia).
  eapply wp_mono; [apply (IH (drop c data) ((n + 1) * PGSIZE) _ (img_write img va (take c data))); rewrite ?sub_get_put, ?length_drop; try done; unfold PGSIZE in *; lia|].
  intros r s' (k' & -> & Hsp' & Hres). exists k'. rewrite sub_put_put. split; [done|]. split; [done|]. rewrite length_drop in Hres.
  destruct Hres as [(-> & Hok' & Hsh')|(-> & a & Ha & Hbad)]; [left|right]; (split; [done|]).
  - split.
    + intros a Ha. destruct (decide (a < va + Z.of_nat c)) as [D|D]; [|apply Hok'; unfold PGSIZE in *; lia].
      replace (a / PGSIZE) with n; [done|]. unfold PGSIZE in *. Z.div_mod_to_equations. lia.
    + intros x y Hx Hy. rewrite Hsh' by done. destruct (drop c data) as [|b rest] eqn:Ed.
      * rewrite img_write_nil. rewrite take_ge; [done|]. apply (f_equal length) in Ed. rewrite length_drop in Ed. simpl in Ed. lia.
      * rewrite <- Ed. rewrite <- (take_drop c data) at 3. rewrite <- img_write_app, Et. f_equal. apply (f_equal length) in Ed. rewrite length_drop in Ed. simpl in Ed. unfold PGSIZE in *. lia.
  - exists a. split; [|done]. unfold PGSIZE in *. lia.
Qed.
End Copy.

Lemma copyout_space s N fg img va data : 2 <= N -> built N fg img (sub_get s) ->
  DEVSPACE <= va < 2 ^ 32 /\ data <> [] \/ 0 <= va /\ va + Z.of_nat (length data) <= N * PGSIZE ->
  wp (copyout d va data) (fun r s' => exists k', s' = sub_put k' s /\
    ((r = 0 /\ (forall a, va <= a < va + Z.of_nat (length data) -> okpage (N := N) (fg := fg) (a / PGSIZE)) /\ built N fg (img_write img va data) k') \/
     (r = -1 /\ partial k' /\ exists a, va <= a < va + Z.of_nat (length data) /\ ~ okpage (N := N) (fg := fg) (a / PGSIZE)))) s.
Proof.
  intros HN2 (T & fl & fr & Hsp & Hsh) [[Hva Hne]|[Hva Hlen]]; unfold copyout.
  - destruct data as [|b data]; [done|]. cbn [copyout_loop]. rewrite (proj2 (Z.ltb_lt _ _)) by (simpl; lia). cbn [negb]. apply wp_bind.
    assert (DEVSPACE <= PGROUNDDOWN va < 2 ^ 32) as Hd by (rewrite PGROUNDDOWN_spec by (unfold DEVSPACE in *; lia); unfold DEVSPACE, PGSIZE in *; Z.div_mod_to_equations; lia).
    eapply wp_eq; [by apply (uva2ka_dev s _ Hsp)|]. apply wp_ret. exists (sub_get s). rewrite sub_put_get. split; [done|]. right. split; [done|].
    split; [by exists T, fl, N, fr, fg|]. exists va. split; [simpl; lia|]. intros [Hx _]. pose proof (sp_N _ _ _ _ _ _ _ _ _ Hsp) as HN. rewrite UPAGES_eq in HN.
    unfold DEVSPACE, PGSIZE in *. Z.div_mod_to_equations. lia.
  - eapply wp_mono; [apply (copyout_loop_space (T := T) (fl := fl) (N := N) (fr := fr) (fg := fg) _ data va s img); try done; lia|]. intros r s' (k' & -> & Hsp' & Hres). exists k'. split; [done|].
    destruct Hres as [(-> & Hok & Hsh')|(-> & Hbad)]; [left|right]; (split; [done|]); (split; [|done || by exists T, fl, fr]); [done|by exists T, fl, N, fr, fg].
Qed.
End Spaceio.
