(* ===== verification/Umalloc.v ===== *)
(** * The user-level allocator: malloc and free of umalloc.c

    The same Kernighan-Ritchie list as the kernel's, fed by [sbrk].  The
    state is what the allocator sees of its process: its memory, [freep] and
    the size of the process, which [sys_sbrk] moves. *)

From S2P Require Import Prelude Layout Mem Kstring Heap.

(** ** State *)

Record uheap := mk_uheap {
  uh_mem : mem;
  uh_freep : Z;         (* static Header *freep *)
  uh_sz : Z             (* myproc()->sz *)
}.
Definition uh_set_mem (m : mem) (s : uheap) : uheap := mk_uheap m (uh_freep s) (uh_sz s).
Definition uh_set_freep (p : Z) (s : uheap) : uheap := mk_uheap (uh_mem s) p (uh_sz s).
Definition uh_set_sz (z : Z) (s : uheap) : uheap := mk_uheap (uh_mem s) (uh_freep s) z.

#[export] Program Instance uheap_state : HeapState uheap := {
  hs_mem := uh_mem;
  hs_put_mem := uh_set_mem;
  hs_freep := uh_freep;
  hs_put_freep := uh_set_freep
}.
Solve All Obligations with done.

(** ** Operations *)

(** [sys_sbrk] with [n] an int: growing only moves [sz], pages come with the
    first access; shrinking goes through [growproc] and [deallocuvm], which
    gives the pages above the new size back (a later access to them reads
    zeros). *)
Definition sbrk (n : Z) : M uheap Z :=
  addr <- gets uh_sz ;;
  if 0 <=? n then modify (uh_set_sz (u32 (addr + n))) ;;; kret addr
  else
    let newsz := u32 (addr + n) in
    sz <- (if addr <=? newsz then kret addr
           else modify (fun s => uh_set_mem
                  (memset (PGROUNDUP newsz) 0 (PGROUNDUP addr - PGROUNDUP newsz) (uh_mem s)) s) ;;;
                kret newsz) ;;
    if sz =? 0 then kret (u32 (-1))
    else modify (uh_set_sz sz) ;;; kret addr.

Section Umalloc.
Context (base : Z) (fuel : nat).   (* &base; bound on the list walks *)

Definition free (ap : Z) : M uheap unit := heap_free fuel ap.

Definition morecore (nu : Z) : M uheap Z :=
  let nu := if nu <? PGSIZE then PGSIZE else nu in
  p <- sbrk (s32 (nu * HDR)) ;;
  if p =? u32 (-1) then kret NULL
  else
    modify (fun s => uh_set_mem (set_hsize p nu (uh_mem s)) s) ;;;
    free (u32 (p + HDR)) ;;;
    gets uh_freep.

Definition malloc (nbytes : Z) : M uheap Z := heap_malloc base morecore fuel nbytes.

(** ** Invariant *)

(** [pool]: the bytes the heap got from [sbrk], partitioned into the live
    blocks [live] and the free blocks [l]. *)
Record uheap_inv (pool : Z -> Prop) (live l : list (Z * Z)) (s : uheap) : Prop := {
  ui_base : 0 < base /\ base + HDR <= uh_sz s;
  ui_pool : forall x, pool x -> x < uh_sz s;
  ui_heap : heap_ok base (uh_mem s) (uh_freep s) pool live l
}.

(** The units [morecore] asks for, and the size of the process after. *)
Definition core_units (n : Z) : Z := Z.max n PGSIZE.
Definition grown (n sz : Z) : Z := if n * HDR <? 2 ^ 31 then sz + HDR * n else sz.
Definition with_core (n : Z) (s : uheap) (pool : Z -> Prop) (x : Z) : Prop :=
  uh_sz s <= x < uh_sz s + HDR * n \/ pool x.

(** A byte the allocator does not own: outside [base] and the pool, below
    the break. *)
Definition outside (pool : Z -> Prop) (s : uheap) (x : Z) : Prop :=
  ~ base <= x < base + HDR /\ ~ pool x /\ x < uh_sz s.

(** ** Lemmas *)

Lemma free_spec m0 pool live l s a n :
  0 < base -> heap_ok base (uh_mem s) (uh_freep s) pool ((a, n) :: live) l -> (length l + 1 < fuel)%nat ->
  m0 = uh_mem s ->
  exists p l', free (u32 (a + HDR)) s = Ok tt (uh_set_freep p (uh_set_mem (free_insert a p m0) s)) /\
    heap_ok base (free_insert a p m0) p pool live l' /\ heap_inv base (free_insert a p m0) p l' /\
    (forall x, in_free l' x <-> in_free l x \/ a <= x < a + HDR * n) /\
    (length l' <= Datatypes.S (length l))%nat /\
    (forall x, ~ base <= x < base + HDR -> ~ in_free l x -> ~ a <= x < a + HDR ->
       ld8 (free_insert a p m0) x = ld8 m0 x).
Proof.
  intros Hb Hok Hfuel ->. destruct (ho_live _ _ _ _ _ _ Hok a n) as (_ & Hn & Ha & Hat); [set_solver|].
  destruct (heap_ok_free _ Hb _ _ _ _ _ _ _ _ Hok Hfuel) as (p & l' & Hfind & Hrest).
  exists p, l'. split; [|exact Hrest]. unfold free, heap_free.
  rewrite u32_sub_l, Z.add_simpl_r, u32_id by (unfold HDR in *; lia).
  unfold kbind at 1; cbn [gets]. unfold kbind at 1; cbn [gets hs_mem hs_freep uheap_state].
  by rewrite Hfind.
Qed.

Lemma sbrk_grow n s : 1 <= n -> 0 <= uh_sz s -> uh_sz s + HDR * n < 2 ^ 32 ->
  0 < uh_sz s -> sbrk (s32 (n * HDR)) s = Ok (uh_sz s) (uh_set_sz (grown n (uh_sz s)) s).
Proof.
  intros Hn Hz Hw Hz0. unfold sbrk, grown, HDR in *. unfold kbind at 1. cbn [gets].
  destruct (n * 8 <? 2 ^ 31) eqn:E; boolify.
  - rewrite s32_id by lia. rewrite (proj2 (Z.leb_le 0 (n * 8))) by lia.
    unfold kbind, modify, kret. rewrite u32_id by lia. by rewrite (Z.mul_comm n).
  - assert (s32 (n * 8) = n * 8 - 2 ^ 32) as ->.
    { unfold s32. rewrite Z.mod_small by lia. rewrite (proj2 (Z.ltb_ge _ _)) by lia. done. }
    rewrite (proj2 (Z.leb_gt 0 (n * 8 - 2 ^ 32))) by lia.
    assert (u32 (uh_sz s + (n * 8 - 2 ^ 32)) = uh_sz s + n * 8) as ->.
    { unfold u32. symmetry. apply Z.mod_unique with (-1); lia. }
    rewrite (proj2 (Z.leb_le _ _)) by lia. unfold kbind, kret.
    rewrite (proj2 (Z.eqb_neq _ _)) by lia. done.
Qed.

Lemma morecore_spec pool live l s n :
  uheap_inv pool live l s -> heap_inv base (uh_mem s) (uh_freep s) l -> 1 <= n ->
  (length l + 1 < fuel)%nat -> uh_sz s + HDR * core_units n < 2 ^ 32 ->
  wp (morecore n) (fun r s' => exists l', r = uh_freep s' /\ uh_sz s' = grown (core_units n) (uh_sz s) /\
    heap_ok base (uh_mem s') (uh_freep s') (with_core (core_units n) s pool) live l' /\
    heap_inv base (uh_mem s') (uh_freep s') l' /\
    (exists a sz, (a, sz) ∈ l' /\ n <= sz) /\ (length l' <= Datatypes.S (length l))%nat /\
    (forall x, in_free live x \/ outside pool s x -> ld8 (uh_mem s') x = ld8 (uh_mem s) x)) s.
Proof.
  intros [[Hb Hbs] Hp Hok] Hi Hn Hfuel Hw. unfold morecore.
  replace (if n <? PGSIZE then PGSIZE else n) with (core_units n)
    by (unfold core_units; destruct (n <? PGSIZE) eqn:E; boolify; lia).
  assert (n <= core_units n /\ 1 <= core_units n) as [Hcn Hc1] by (unfold core_units, PGSIZE; lia).
  set (nu := core_units n) in *. clearbody nu. cbv zeta. set (a := uh_sz s) in *.
  apply wp_bind. eapply wp_eq; [apply sbrk_grow; unfold HDR in *; lia|]. fold a.
  assert (a =? u32 (-1) = false) as ->.
  { apply Z.eqb_neq. change (u32 (-1)) with (2 ^ 32 - 1). unfold HDR in *. lia. }
  apply wp_bind, wp_modify. set (m1 := set_hsize a nu (uh_mem s)).
  set (s1 := uh_set_mem _ _). change (uh_set_sz _ s) with (uh_set_sz (grown nu a) s) in s1.
  assert (forall x, ~ a <= x < a + HDR -> ld8 m1 x = ld8 (uh_mem s) x) as Hm1.
  { intros x Hx. unfold m1, set_hsize. rewrite ld8_st32, decide_False; [done|]. unfold HDR in *. lia. }
  assert (heap_ok base m1 (uh_freep s) (with_core nu s pool) ((a, nu) :: live) l) as Hok1.
  { apply (heap_ok_grow base (uh_mem s)); try done.
    - apply hsize_set_hsize. unfold HDR in *. lia.
    - lia.
    - intros x Hx Hpx. apply Hp in Hpx. lia. }
  destruct (free_spec m1 _ _ _ s1 a nu Hb Hok1 Hfuel eq_refl) as (p & l' & E & Hok2 & Hi2 & Hf & Hlen & Hfr).
  apply wp_bind. eapply wp_eq; [exact E|]. apply wp_gets.
  exists l'. do 4 (split; [done|]). split.
  { destruct (free_run _ _ a nu (hi_blocks _ _ _ _ Hi2)) as (b & k & Hbk & Hk); [done|intros; apply Hf; by right|].
    exists b, k. split; [done|lia]. }
  split; [done|]. intros x Hx. simpl.
  assert (x < a /\ ~ base <= x < base + HDR /\ ~ in_free l x) as (Hxa & Hxb & Hxl).
  { destruct Hx as [Hx|(H1 & H2 & H3)].
    - split; [apply Hp, (ho_pool _ _ _ _ _ _ Hok); by right|]. split.
      + destruct Hx as (b & k & Hbk & Hx). destruct (ho_live _ _ _ _ _ _ Hok b k Hbk) as (_ & _ & ? & _). lia.
      + intros Hl. by apply (ho_excl _ _ _ _ _ _ Hok x).
    - split; [done|]. split; [done|]. intros Hl. apply H2, (ho_pool _ _ _ _ _ _ Hok). by left. }
  rewrite Hfr by (try done; lia). apply Hm1. lia.
Qed.

(** The first call builds the empty list. *)
Definition uboot (s : uheap) : uheap :=
  if uh_freep s =? NULL then
    uh_set_freep base (uh_set_mem (set_hsize base 0 (set_hptr base base (uh_mem s))) s)
  else s.

Lemma uboot_inv pool live l s : uheap_inv pool live l s -> uh_sz s < 2 ^ 32 ->
  uheap_inv pool live l (uboot s) /\ heap_inv base (uh_mem (uboot s)) (uh_freep (uboot s)) l /\
  uh_sz (uboot s) = uh_sz s /\
  (forall x, ~ base <= x < base + HDR -> ld8 (uh_mem (uboot s)) x = ld8 (uh_mem s) x).
Proof.
  intros [[Hb Hbs] Hp [Hv Hpool Hex Hd Hlv]] Hw. unfold uboot. destruct Hv as [(Hf & -> & ->)|Hi].
  - rewrite Hf. cbn [Z.eqb NULL].
    set (m' := set_hsize base 0 (set_hptr base base (uh_mem s))).
    assert (heap_inv base m' base []) as Hi.
    { split.
      - simpl. unfold m'. rewrite hptr_set_hsize, hptr_set_hptr by (unfold HDR in *; lia).
        by rewrite hsize_set_hsize by lia.
      - simpl. unfold HDR in *. lia.
      - set_solver. }
    split; [|split; [done|split; [done|]]].
    + split; [done|done|]. split; try done; [by right|]. intros a sz Ha. by apply elem_of_nil in Ha.
    + intros x Hx. simpl. unfold m', set_hsize, set_hptr. unfold HDR in *. by rewrite !ld8_st32, !decide_False by lia.
  - rewrite (proj2 (Z.eqb_neq _ _) (heap_inv_freep _ Hb _ _ _ Hi)).
    split; [by split; [..|split; try done; right]|]. done.
Qed.

Lemma malloc_boot nbytes s :
  malloc nbytes s =
  malloc_loop morecore fuel (nunits_of nbytes) (uh_freep (uboot s)) (hptr (uh_mem (uboot s)) (uh_freep (uboot s))) (uboot s).
Proof.
  unfold malloc, heap_malloc, uboot. unfold kbind at 1. cbn [gets hs_freep uheap_state].
  by destruct (uh_freep s =? NULL).
Qed.

Lemma foreign_frame pool live l s x : uheap_inv pool live l s -> in_free live x \/ outside pool s x ->
  ~ base <= x < base + HDR /\ ~ in_free l x.
Proof.
  intros [_ _ Hok] [(b & k & Hbk & Hx)|(H1 & H2 & _)].
  - split; [destruct (ho_live _ _ _ _ _ _ Hok b k Hbk) as (_ & _ & ? & _); lia|].
    intros Hl. apply (ho_excl _ _ _ _ _ _ Hok x Hl). by exists b, k.
  - split; [done|]. intros Hl. apply H2, (ho_pool _ _ _ _ _ _ Hok). by left.
Qed.

(** The block [a] of [n] units handed out; [pool'] is the heap's memory. *)
Record handed (live : list (Z * Z)) (pool pool' : Z -> Prop) (n : Z) (s : uheap) (a : Z) (s' : uheap) : Prop := {
  hd_low : base + HDR <= a;
  hd_heap : exists l', heap_ok base (uh_mem s') (uh_freep s') pool' ((a, n) :: live) l';
  hd_frame : forall x, in_free live x \/ outside pool s x -> ld8 (uh_mem s') x = ld8 (uh_mem s) x
}.

Lemma take_handed pool live l s n r m' l' q :
  uheap_inv pool live l s -> 1 <= n -> taken base (uh_mem s) m' l l' q r n ->
  handed live pool pool n s r (uh_set_freep q (uh_set_mem m' s)).
Proof.
  intros Hinv Hn Htk. pose proof (ui_heap _ _ _ _ Hinv) as Hok.
  split; [apply Htk|exists l'; by eapply heap_ok_take|].
  intros x Hx. destruct (foreign_frame _ _ _ _ _ Hinv Hx). by apply (tk_frame _ _ _ _ _ _ _ _ Htk).
Qed.

(** Either a free block was large enough, or the heap has grown. *)
Lemma malloc_cases pool live l s nbytes :
  let n := nunits_of nbytes in
  uheap_inv pool live l s -> 0 <= nbytes <= 2 ^ 32 - 16 -> 1 <= n -> (2 * length l + 4 < fuel)%nat ->
  uh_sz s + HDR * core_units n < 2 ^ 32 ->
  wp (malloc nbytes) (fun r s' => exists a, r = u32 (a + HDR) /\
    ((handed live pool pool n s a s' /\ uh_sz s' = uh_sz s) \/
     ((forall b k, (b, k) ∈ l -> k < n) /\ handed live pool (with_core (core_units n) s pool) n s a s' /\
      uh_sz s' = grown (core_units n) (uh_sz s)))) s.
Proof.
  intros n Hinv Hnb Hn Hfuel Hw.
  assert (uh_sz s < 2 ^ 32) as Hz by (unfold core_units, HDR, PGSIZE in *; lia).
  destruct (uboot_inv _ _ _ _ Hinv Hz) as (Hinv1 & Hi1 & Hsz1 & Hfr1).
  eapply wp_run; [apply malloc_boot|]. fold n. set (s1 := uboot s) in *.
  pose proof (proj1 (ui_base _ _ _ _ Hinv)) as Hb.
  assert (forall x, in_free live x \/ outside pool s x -> in_free live x \/ outside pool s1 x) as Hout.
  { intros x [Hx|Hx]; [by left|right]. unfold outside in *. by rewrite Hsz1. }
  destruct (first_fit n l) as [Hno|(ys & a & sz & zs & Hl & Hsz & _)].
  2: { destruct (@malloc_loop_hit uheap uheap_state base Hb morecore s1 l n fuel Hi1 Hn) as (r & m' & l' & q & E & Htk);
      [exists a, sz; split; [rewrite Hl; set_solver|done]|lia|].
    eapply wp_eq; [exact E|]. exists r. split; [done|]. left. split; [|done].
    destruct (take_handed _ _ _ _ _ _ _ _ _ Hinv1 Hn Htk) as [Hlo Hh Hfr]. split; [done|done|].
    intros x Hx. rewrite Hfr by auto. apply Hfr1. by destruct (foreign_frame _ _ _ _ _ Hinv Hx). }
  assert (forall a sz, (a, sz) ∈ l -> sz < n) as Hsmall.
  { rewrite list.Forall_forall in Hno. intros a sz Ha. apply (Hno _ Ha). }
  pose proof (@malloc_loop_miss uheap uheap_state base Hb morecore s1 l n (fuel - length l - 1) Hi1 Hn Hsmall) as E.
  cbn [hs_freep hs_mem uheap_state] in E. replace (length l + S (fuel - length l - 1))%nat with fuel in E by lia.
  eapply wp_run; [exact E|]. clear E. apply wp_bind.
  eapply wp_mono; [apply (morecore_spec _ _ _ _ _ Hinv1 Hi1 Hn); [lia|by rewrite Hsz1]|].
  intros r s2 (l2 & -> & Hsz2 & Hok2 & Hi2 & Hbig & Hlen & Hfr2). cbv beta.
  rewrite (proj2 (Z.eqb_neq _ _) (heap_inv_freep _ Hb _ _ _ Hi2)).
  apply wp_bind, wp_gets.
  destruct (@malloc_loop_hit uheap uheap_state base Hb morecore s2 l2 n (fuel - length l - 1) Hi2 Hn Hbig ltac:(lia))
    as (a & m' & l' & q & E & Htk).
  eapply wp_eq; [exact E|]. exists a. split; [done|]. right. split; [done|].
  rewrite Hsz1 in Hsz2. split; [|done]. split; [apply Htk| |].
  - exists l'. pose proof (heap_ok_take _ _ _ _ _ _ _ _ _ _ _ Hok2 Hn Htk) as Hok3.
    eapply heap_ok_pool; [|exact Hok3]. intros x. unfold with_core. by rewrite Hsz1.
  - intros x Hx. simpl. rewrite (tk_frame _ _ _ _ _ _ _ _ Htk).
    + rewrite Hfr2 by auto. apply Hfr1. by destruct (foreign_frame _ _ _ _ _ Hinv Hx).
    + by destruct (foreign_frame _ _ _ _ _ Hinv Hx).
    + intros Hl2. assert (with_core (core_units n) s1 pool x) as Hwc by (apply (ho_pool _ _ _ _ _ _ Hok2); by left).
      destruct Hx as [Hx|(H1 & H2 & H3)]; [by apply (ho_excl _ _ _ _ _ _ Hok2 x)|].
      destruct Hwc as [Hr|Hr]; [rewrite Hsz1 in Hr; lia|done].
Qed.

(** A block carved out of the pool was free before. *)
Lemma handed_was_free pool pool' live l s s' n a :
  uheap_inv pool live l s -> handed live pool pool' n s a s' -> 1 <= n ->
  (forall x, a <= x < a + HDR * n -> pool x) -> exists b k, (b, k) ∈ l /\ n <= k.
Proof.
  intros [_ _ Hok] [_ [l' Hok'] _] Hn Hsub.
  assert (forall x, a <= x < a + HDR * n -> in_free l x) as Hfree.
  { intros x Hx. destruct (proj1 (ho_pool _ _ _ _ _ _ Hok x) (Hsub x Hx)) as [Hp|(b & k & Hbk & Hxb)]; [done|].
    destruct (ho_disj _ _ _ _ _ _ Hok') as [Hd _]. destruct (Hd _ Hbk) as [?|?]; simpl in *; unfold HDR in *; lia. }
  destruct (ho_view _ _ _ _ _ _ Hok) as [(_ & -> & ->)|Hi].
  - destruct (Hfree a) as (b & k & Hb & _); [unfold HDR; lia|]. by apply elem_of_nil in Hb.
  - by apply (free_run _ _ a n (hi_blocks _ _ _ _ Hi)).
Qed.

(** ** Properties *)

(** A request that a free block satisfies, or for which the process can grow. *)
Lemma malloc_backed pool live l s nbytes :
  let n := nunits_of nbytes in
  uheap_inv pool live l s -> 0 <= nbytes <= 2 ^ 32 - 16 -> (2 * length l + 4 < fuel)%nat ->
  n * HDR < 2 ^ 31 \/ (exists b k, (b, k) ∈ l /\ n <= k) -> uh_sz s + HDR * core_units n < 2 ^ 32 ->
  wp (malloc nbytes) (fun r s' => exists a pool' l', r = a + HDR /\ nbytes + HDR <= HDR * n /\
    uheap_inv pool' ((a, n) :: live) l' s' /\ a + HDR * n <= uh_sz s' /\ uh_sz s <= uh_sz s' /\
    (forall x, pool' x -> pool x \/ uh_sz s <= x) /\
    (forall x, in_free live x \/ outside pool s x -> ld8 (uh_mem s') x = ld8 (uh_mem s) x)) s.
Proof.
  intros n Hinv Hnb Hfuel Hbig Hw. destruct (nunits_val nbytes Hnb) as (_ & Hn & Hcap & _). fold n in Hn, Hcap.
  eapply wp_mono; [by apply malloc_cases|]. fold n. intros r s' (a & -> & Hcase).
  assert (exists pool', handed live pool pool' n s a s' /\ uh_sz s <= uh_sz s' < 2 ^ 32 /\
    (forall x, pool' x -> x < uh_sz s') /\ (forall x, pool' x -> pool x \/ uh_sz s <= x))
    as (pool' & [Hlo [l' Hok] Hfr] & Hsz & Hpl & Hpn).
  { destruct Hcase as [[Hh E]|(Hsm & Hh & E)]; [exists pool|exists (with_core (core_units n) s pool)]; rewrite E.
    - split; [done|]. split; [unfold core_units, HDR, PGSIZE in *; lia|]. split; [apply Hinv|auto].
    - destruct Hbig as [Hbig|(b & k & Hbk & Hk)]; [|specialize (Hsm b k Hbk); lia].
      assert (core_units n * HDR < 2 ^ 31) as Hcb by (unfold core_units, HDR, PGSIZE in *; lia).
      split; [done|]. unfold grown. rewrite (proj2 (Z.ltb_lt _ _) Hcb). unfold with_core.
      assert (0 <= HDR * core_units n) by (unfold core_units, HDR, PGSIZE; lia).
      split; [lia|]. split; [|intros x [Hx|Hx]; [right; lia|by left]].
      intros x [Hx|Hx]; [lia|]. apply (ui_pool _ _ _ _ Hinv) in Hx. lia. }
  assert (a + HDR * n - 1 < uh_sz s') as Htop.
  { apply Hpl, (ho_pool _ _ _ _ _ _ Hok). right. rewrite in_free_cons. left. unfold HDR. lia. }
  exists a, pool', l'. pose proof (proj1 (ui_base _ _ _ _ Hinv)) as Hb.
  split; [apply u32_id; unfold HDR in *; lia|]. split; [done|]. split; [|split; [lia|split; [lia|by split]]].
  split; [|done|done]. destruct (ui_base _ _ _ _ Hinv). lia.
Qed.

(** [malloc] of 2^31 bytes or more passes a negative count to [sbrk],
    which leaves the process as it is: the call does not fail, but the block
    it returns ends beyond the process's memory. *)
Lemma malloc_huge_unbacked pool live l s nbytes :
  let n := nunits_of nbytes in
  uheap_inv pool live l s -> 0 <= nbytes <= 2 ^ 32 - 16 -> (2 * length l + 4 < fuel)%nat ->
  2 ^ 31 <= n * HDR -> (forall b k, (b, k) ∈ l -> k < n) -> uh_sz s + HDR * n < 2 ^ 32 ->
  wp (malloc nbytes) (fun r s' => r <> NULL /\ uh_sz s' = uh_sz s /\ uh_sz s' < r - HDR + HDR * n) s.
Proof.
  intros n Hinv Hnb Hfuel Hbig Hsm Hw. destruct (nunits_val nbytes Hnb) as (_ & Hn & _). fold n in Hn.
  assert (core_units n = n) as En by (unfold core_units, HDR, PGSIZE in *; lia).
  eapply wp_mono; [apply malloc_cases; try done; fold n; by rewrite En|].
  fold n. rewrite En. intros r s' (a & -> & Hcase).
  destruct Hcase as [[Hh E]|(_ & Hh & E)].
  { exfalso. destruct (handed_was_free _ _ _ _ _ _ _ _ Hinv Hh Hn) as (b & k & Hbk & Hk).
    - intros x Hx. destruct Hh as [_ [l' Hok] _]. apply (ho_pool _ _ _ _ _ _ Hok). right.
      rewrite in_free_cons. by left.
    - specialize (Hsm b k Hbk). lia. }
  assert (uh_sz s' = uh_sz s) as Hsz by (rewrite E; unfold grown; by rewrite (proj2 (Z.ltb_ge _ _) Hbig)).
  pose proof (hd_low _ _ _ _ _ _ _ Hh) as Hlo. pose proof (ui_base _ _ _ _ Hinv) as [Hb Hbs].
  assert (a + HDR * n <= uh_sz s + HDR * n) as Htop.
  { destruct Hh as [_ [l' Hok] _].
    assert (with_core n s pool (a + HDR * n - 1)) as [Hx|Hx]; [|lia|].
    - apply (ho_pool _ _ _ _ _ _ Hok). right. rewrite in_free_cons. left. unfold HDR. lia.
    - apply (ui_pool _ _ _ _ Hinv) in Hx. lia. }
  rewrite u32_id by (unfold HDR in *; lia). split; [unfold NULL, HDR in *; lia|]. split; [done|].
  destruct (decide (uh_sz s < a + HDR * n)) as [?|Hle]; [lia|]. exfalso.
  destruct (handed_was_free _ _ _ _ _ _ _ _ Hinv Hh Hn) as (b & k & Hbk & Hk); [|specialize (Hsm b k Hbk); lia].
  intros x Hx. destruct Hh as [_ [l' Hok] _].
  assert (with_core n s pool x) as [Hx'|Hx']; [|lia|done].
  apply (ho_pool _ _ _ _ _ _ Hok). right. rewrite in_free_cons. by left.
Qed.

(** C23: [malloc(nbytes)], for every request up to 2^32 - 16 bytes, while the
    address space (2^32) has room for the process to grow by it.  If the
    request, rounded up to whole units with its header, is below 2^31 bytes or
    some free block is large enough, malloc returns a block of at least
    [nbytes] bytes past its header, disjoint from every live block and inside
    the process, which grows when no free block is large enough; live blocks
    and the rest of the program's memory keep their bytes.  Otherwise, since
    the size passes through the [int] argument of sbrk, malloc does not fail
    either, but the process does not grow and the block ends beyond it. *)
Theorem malloc_correct pool live l s nbytes :
  let n := nunits_of nbytes in
  uheap_inv pool live l s -> 0 <= nbytes <= 2 ^ 32 - 16 -> (2 * length l + 4 < fuel)%nat ->
  uh_sz s + HDR * core_units n < 2 ^ 32 ->
  (n * HDR < 2 ^ 31 \/ (exists b k, (b, k) ∈ l /\ n <= k) ->
   wp (malloc nbytes) (fun r s' => exists a pool' l', r = a + HDR /\ nbytes + HDR <= HDR * n /\
     uheap_inv pool' ((a, n) :: live) l' s' /\ a + HDR * n <= uh_sz s' /\ uh_sz s <= uh_sz s' /\
     (forall x, pool' x -> pool x \/ uh_sz s <= x) /\
     (forall x, in_free live x \/ outside pool s x -> ld8 (uh_mem s') x = ld8 (uh_mem s) x)) s) /\
  (2 ^ 31 <= n * HDR -> (forall b k, (b, k) ∈ l -> k < n) ->
   wp (malloc nbytes) (fun r s' => r <> NULL /\ uh_sz s' = uh_sz s /\ uh_sz s' < r - HDR + HDR * n) s).
Proof.
  intros n Hinv Hnb Hfuel Hw. split; [intros Hc; by apply (malloc_backed pool live l)|].
  intros Hbig Hsm. apply (malloc_huge_unbacked pool live l s nbytes); try done. fold n.
  unfold core_units, HDR, PGSIZE in *. lia.
Qed.

(** C24: [free] of a live block always terminates, returns exactly that
    block's bytes to the free list, merged with its neighbours, and changes
    no byte of the other live blocks or of the rest of the program. *)
Theorem free_correct pool live live' l s a n :
  uheap_inv pool live l s -> live ≡ₚ (a, n) :: live' -> (length l + 1 < fuel)%nat ->
  wp (free (u32 (a + HDR))) (fun _ s' => exists l', uheap_inv pool live' l' s' /\ uh_sz s' = uh_sz s /\
    (forall x, in_free l' x <-> in_free l x \/ a <= x < a + HDR * n) /\
    (forall x, in_free live' x \/ outside pool s x -> ld8 (uh_mem s') x = ld8 (uh_mem s) x)) s.
Proof.
  intros [Hb Hp Hok0] Hperm Hfuel.
  assert (uheap_inv pool ((a, n) :: live') l s) as Hinv by (split; [done|done|by eapply heap_ok_perm]).
  pose proof (ui_heap _ _ _ _ Hinv) as Hok.
  destruct (free_spec (uh_mem s) _ _ _ s a n (proj1 Hb) Hok Hfuel eq_refl) as (p & l' & E & Hok2 & _ & Hf & _ & Hfr).
  eapply wp_eq; [exact E|]. exists l'. split; [done|]. split; [done|]. split; [done|].
  destruct (ho_live _ _ _ _ _ _ Hok a n) as (_ & Hn & _); [apply list_elem_of_here|].
  intros x Hx. assert (in_free ((a, n) :: live') x \/ outside pool s x) as Hx' by (rewrite in_free_cons; tauto).
  destruct (foreign_frame _ _ _ _ _ Hinv Hx') as [Hxb Hxl]. apply Hfr; [done|done|].
  intros Hax. destruct Hx as [(b & k & Hbk & Hxk)|(_ & Hx & _)].
  - destruct (ho_disj _ _ _ _ _ _ Hok) as [Hd _].
    destruct (Hd _ Hbk) as [?|?]; simpl in *; unfold HDR in *; lia.
  - apply Hx, (ho_pool _ _ _ _ _ _ Hok). right. rewrite in_free_cons. left. unfold HDR in *. lia.
Qed.
End Umalloc.

(** ** Witnesses: a process of 0x3000 bytes with [base] at 0x2f00 *)

Definition demo_uheap0 : uheap := mk_uheap ∅ 0 0x3000.

Lemma demo_uheap0_inv : uheap_inv 0x2f00 (fun _ => False) [] [] demo_uheap0.
Proof.
  split; [compute_done|done|]. split; [by left| | |done|].
  - intros x. split; [done|]. intros [(b & k & Hb & _)|(b & k & Hb & _)]; by apply elem_of_nil in Hb.
  - intros x (b & k & Hb & _). by apply elem_of_nil in Hb.
  - intros a sz Ha. by apply elem_of_nil in Ha.
Qed.

(** 100 bytes are handed out inside the process; 2^31 - 7 bytes are not backed. *)
Lemma malloc_correct_witness :
  (exists r s', malloc 0x2f00 5 100 demo_uheap0 = Ok r s' /\ 0x2f00 < r /\ r + 100 <= uh_sz s') /\
  (exists r s', malloc 0x2f00 5 0x7ffffff9 demo_uheap0 = Ok r s' /\ r <> NULL /\ uh_sz s' = 0x3000).
Proof.
  split.
  - pose proof (proj1 (malloc_correct 0x2f00 5 _ _ _ demo_uheap0 100 demo_uheap0_inv ltac:(compute_done) ltac:(simpl; lia)
      ltac:(compute_done)) ltac:(left; compute_done)) as H.
    destruct (wp_elim _ _ _ H) as (r & s' & E & a & pool' & l' & -> & Hn & Hi & Hin & _).
    exists (a + HDR), s'. split; [exact E|].
    destruct (ho_live _ _ _ _ _ _ (ui_heap _ _ _ _ _ Hi) a (nunits_of 100)) as (_ & _ & Hlo & _);
      [apply list_elem_of_here|]. unfold HDR in *. lia.
  - pose proof (proj2 (malloc_correct 0x2f00 5 _ _ _ demo_uheap0 0x7ffffff9 demo_uheap0_inv ltac:(compute_done)
      ltac:(simpl; lia) ltac:(compute_done)) ltac:(compute_done) ltac:(intros b k Hb; by apply elem_of_nil in Hb)) as H.
    destruct (wp_elim _ _ _ H) as (r & s' & E & Hr & Hs & _). exists r, s'. split; [exact E|split; [exact Hr|exact Hs]].
Defined.

(** One live block of two units at 0x4000, and an empty free list. *)
Definition demo_uheap1 : uheap :=
  mk_uheap (set_hsize 0x4000 2 (set_hsize 0x2f00 0 (set_hptr 0x2f00 0x2f00 ∅))) 0x2f00 0x5000.

Lemma demo_uheap1_inv : uheap_inv 0x2f00 (fun x => 0x4000 <= x < 0x4010) [(0x4000, 2)] [] demo_uheap1.
Proof.
  assert (forall x, in_free [(0x4000, 2)] x <-> 0x4000 <= x < 0x4010) as Hf.
  { intros x. unfold in_free. split.
    - intros (b & k & Hb & Hx). apply list_elem_of_singleton in Hb as [= -> ->]. unfold HDR in Hx. lia.
    - intros Hx. exists 0x4000, 2. split; [apply list_elem_of_here|]. unfold HDR. lia. }
  split; [compute_done|simpl; lia|]. split.
  - right. split; [compute_done|simpl; unfold HDR; lia|simpl; apply list_elem_of_here].
  - intros x. rewrite Hf. split; [by right|]. intros [(b & k & Hb & _)|Hx]; [by apply elem_of_nil in Hb|done].
  - intros x (b & k & Hb & _). by apply elem_of_nil in Hb.
  - simpl. split; [|done]. intros c Hc. by apply elem_of_nil in Hc.
  - intros a sz Ha. apply list_elem_of_singleton in Ha as [= -> ->]. compute_done.
Qed.

Lemma free_correct_witness :
  exists s' l', free 5 (u32 (0x4000 + HDR)) demo_uheap1 = Ok tt s' /\
    uheap_inv 0x2f00 (fun x => 0x4000 <= x < 0x4010) [] l' s'.
Proof.
  pose proof (free_correct 0x2f00 5 _ _ [] _ demo_uheap1 0x4000 2 demo_uheap1_inv (Permutation_refl _)
    ltac:(simpl; lia)) as H.
  destruct (wp_elim _ _ _ H) as ([] & s' & E & l' & Hi & _). exists s', l'. split; [exact E|exact Hi].
Defined.
