(* ===== verification/Ring.v ===== *)
(** * Doubly linked rings

    The buffer cache keeps its buffers on a circular doubly linked list
    through [prev] and [next], with a sentinel.  Here the two link fields are
    functions on node indices; [seg] describes the nodes met between two
    nodes, and the pointer updates of an unlink and of an insertion behind
    the sentinel are shown to act on the list of nodes as list operations. *)

From S2P Require Import Prelude.

Definition upd (f : nat -> nat) (i j : nat) : nat -> nat := fun x => if decide (x = i) then j else f x.

Lemma upd_eq f i j : upd f i j i = j.
Proof. unfold upd. by rewrite decide_True. Qed.
Lemma upd_ne f i j x : x <> i -> upd f i j x = f x.
Proof. intros. unfold upd. by rewrite decide_False. Qed.

(** From [a], following [nx], the nodes [l] lead to [z]; [pv] leads back. *)
Fixpoint seg (nx pv : nat -> nat) (a : nat) (l : list nat) (z : nat) : Prop :=
  match l with
  | [] => nx a = z /\ pv z = a
  | x :: l' => nx a = x /\ pv x = a /\ seg nx pv x l' z
  end.

Definition ring (nx pv : nat -> nat) (h : nat) (l : list nat) : Prop := seg nx pv h l h /\ NoDup (h :: l).

Lemma seg_app nx pv a l1 x l2 z :
  seg nx pv a (l1 ++ x :: l2) z <-> seg nx pv a l1 x /\ seg nx pv x l2 z.
Proof.
  revert a. induction l1 as [|y l1 IH]; intros a; simpl; [tauto|]. rewrite IH. tauto.
Qed.

Lemma seg_ext nx pv nx' pv' a l z :
  (forall x, x ∈ a :: l -> nx' x = nx x) -> (forall x, x ∈ z :: l -> pv' x = pv x) ->
  seg nx pv a l z -> seg nx' pv' a l z.
Proof.
  revert a. induction l as [|x l IH]; intros a Hn Hp; simpl.
  - intros [E1 E2]. rewrite Hn, Hp by (apply list_elem_of_here). done.
  - intros (E1 & E2 & Hs). rewrite Hn by (apply list_elem_of_here).
    rewrite Hp by (apply list_elem_of_further, list_elem_of_here). split; [done|]. split; [done|].
    apply IH; [|intros y Hy; apply Hp|done].
    + intros y Hy. apply Hn. by apply list_elem_of_further.
    + apply elem_of_cons in Hy as [->|Hy]; [apply list_elem_of_here|]. by do 2 apply list_elem_of_further.
Qed.

(** The last node of a segment, and its first. *)
Definition final (a : nat) (l : list nat) : nat := List.last l a.
Definition first (l : list nat) (z : nat) : nat := match l with [] => z | x :: _ => x end.

Lemma seg_first nx pv a l z : seg nx pv a l z -> nx a = first l z.
Proof. destruct l; simpl; tauto. Qed.

Lemma seg_final nx pv a l z : seg nx pv a l z -> pv z = final a l.
Proof.
  revert a. induction l as [|x l IH]; intros a; simpl; [tauto|]. intros (_ & _ & Hs).
  rewrite (IH x Hs). unfold final. destruct l; [done|]. simpl. clear. revert n. induction l as [|y l IH]; intros n; [done|]. apply IH.
Qed.

Lemma final_in a l : final a l = a \/ final a l ∈ l.
Proof.
  unfold final. destruct (decide (l = [])) as [->|Hl]; [by left|]. right.
  rewrite (app_removelast_last a Hl) at 2. apply elem_of_app. right. apply list_elem_of_here.
Qed.

Lemma first_in l z : first l z = z \/ first l z ∈ l.
Proof. destruct l; [by left|]. right. apply list_elem_of_here. Qed.

(** Redirecting the two links around a gap joins two segments. *)
Lemma seg_join nx pv a l1 x l2 z :
  seg nx pv a l1 x -> seg nx pv x l2 z -> NoDup (l1 ++ x :: l2) -> a ∉ l1 ++ x :: l2 -> z ∉ l1 ++ x :: l2 ->
  seg (upd nx (final a l1) (first l2 z)) (upd pv (first l2 z) (final a l1)) a (l1 ++ l2) z.
Proof.
  intros H1 H2 Hnd Ha Hz. revert a Ha H1. induction l1 as [|y l1 IH]; intros a Ha; cbn [seg app].
  - intros [E1 E2]. unfold final; simpl. destruct l2 as [|y l2]; simpl in *.
    + by rewrite !upd_eq.
    + rewrite !upd_eq. split; [done|]. split; [done|]. destruct H2 as (_ & _ & H2).
      rewrite !not_elem_of_cons in Ha, Hz. apply list.NoDup_cons in Hnd as [Hx Hnd]. apply list.NoDup_cons in Hnd as [Hy Hnd].
      eapply seg_ext; [| |exact H2]; intros w Hw; apply upd_ne; intros ->; [rewrite elem_of_cons in Hw; tauto|].
      apply elem_of_cons in Hw as [->|Hw]; tauto.
  - intros (E1 & E2 & Hs). simpl in Hnd, Ha, Hz. apply list.NoDup_cons in Hnd as [Hy Hnd].
    rewrite not_elem_of_cons in Ha, Hz. destruct Ha as [Hay Ha]. destruct Hz as [Hzy Hz].
    assert (final a (y :: l1) = final y l1) as Ef.
    { unfold final. destruct l1 as [|w l1]; [done|]. simpl. clear. revert w.
      induction l1 as [|v l1 IH]; intros w; [done|]. apply IH. }
    rewrite Ef.
    assert (a <> final y l1) as Hne.
    { destruct (final_in y l1) as [->|Hin]; [done|]. intros ->. apply Ha, elem_of_app. by left. }
    assert (y <> first l2 z) as Hne2.
    { destruct (first_in l2 z) as [->|Hin]; [done|]. intros ->. apply Hy, elem_of_app. right. by apply list_elem_of_further. }
    rewrite !upd_ne by done. split; [done|]. split; [done|]. by apply IH.
Qed.

(** Unlinking node [x]: x->next->prev = x->prev; x->prev->next = x->next. *)
Lemma ring_unlink nx pv h l1 x l2 :
  ring nx pv h (l1 ++ x :: l2) ->
  ring (upd nx (pv x) (nx x)) (upd pv (nx x) (pv x)) h (l1 ++ l2).
Proof.
  intros [Hs Hnd]. apply list.NoDup_cons in Hnd as [Hh Hnd]. pose proof Hs as Hs'. apply seg_app in Hs' as [H1 H2].
  rewrite (seg_first _ _ _ _ _ H2), (seg_final _ _ _ _ _ H1). split.
  - by apply (seg_join nx pv h l1 x l2 h).
  - rewrite list.NoDup_cons, elem_of_app. rewrite elem_of_app, elem_of_cons in Hh. split; [tauto|].
    rewrite list.NoDup_app in *. rewrite list.NoDup_cons in Hnd. destruct Hnd as (? & Hd & ? & ?).
    split; [done|]. split; [|done]. intros y Hy Hy2. apply (Hd y Hy). by apply list_elem_of_further.
Qed.

(** Inserting [x] behind the sentinel: x->next = h->next; x->prev = h;
    h->next->prev = x; h->next = x. *)
Lemma ring_insert nx pv h l x :
  ring nx pv h l -> x ∉ h :: l ->
  ring (upd (upd nx x (nx h)) h x) (upd (upd pv x h) (nx h) x) h (x :: l).
Proof.
  intros [Hs Hnd] Hx. pose proof Hnd as Hnd0. apply list.NoDup_cons in Hnd as [Hh Hnd].
  rewrite not_elem_of_cons in Hx. destruct Hx as [Hxh Hx]. rewrite (seg_first _ _ _ _ _ Hs). split.
  - simpl. rewrite upd_eq. split; [done|]. split.
    + rewrite upd_ne, upd_eq; [done|]. destruct (first_in l h) as [->|Hin]; [done|]. intros ->. done.
    + destruct l as [|y l]; simpl in *.
      * rewrite upd_ne, upd_eq by done. by rewrite upd_eq.
      * rewrite !not_elem_of_cons in Hx, Hh. destruct Hs as (_ & _ & Hs). apply list.NoDup_cons in Hnd as [Hy Hnd].
        rewrite upd_ne, upd_eq by done. rewrite upd_eq. split; [done|]. split; [done|].
        eapply seg_ext; [| |exact Hs]; intros w Hw.
        -- rewrite !upd_ne; [done|intros ->; rewrite elem_of_cons in Hw; tauto|intros ->; rewrite elem_of_cons in Hw; tauto].
        -- rewrite !upd_ne; [done|intros ->; rewrite elem_of_cons in Hw; tauto|].
           intros ->. rewrite elem_of_cons in Hw. destruct Hw as [->|Hw]; tauto.
  - rewrite list.NoDup_cons, not_elem_of_cons. split; [done|]. by rewrite list.NoDup_cons.
Qed.
