(* ===== verification/Block.v ===== *)
(** * Disk blocks as byte strings

    A block is a list of [BSIZE] bytes.  The file system reads and writes
    32-bit and 16-bit little-endian fields in it (log header, inodes,
    indirect blocks, directory entries, the superblock). *)

From S2P Require Import Prelude.

Definition BSIZE : nat := 512.
Definition FSSIZE : Z := 128 * 128.
Definition ROOTDEV : Z := 1.

Notation bytes := (list Z) (only parsing).
Definition zero_block : bytes := replicate BSIZE 0.

Definition get8 (b : bytes) (o : nat) : Z := b !!! o.
Definition put8 (o : nat) (v : Z) (b : bytes) : bytes := <[o := u8 v]> b.

Definition get16 (b : bytes) (o : nat) : Z := get8 b o + 2 ^ 8 * get8 b (o + 1).
Definition put16 (o : nat) (v : Z) (b : bytes) : bytes := put8 (o + 1) (v / 2 ^ 8) (put8 o v b).

Definition get32 (b : bytes) (o : nat) : Z := get16 b o + 2 ^ 16 * get16 b (o + 2).
Definition put32 (o : nat) (v : Z) (b : bytes) : bytes := put16 (o + 2) (v / 2 ^ 16) (put16 o v b).

(** [memmove] of [n] bytes between two buffers. *)
Definition splice (o : nat) (d : list Z) (b : bytes) : bytes := take o b ++ d ++ drop (o + length d) b.
Definition slice (o n : nat) (b : bytes) : list Z := take n (drop o b).

(** A block as the disk holds it. *)
Definition is_block (b : bytes) : Prop := length b = BSIZE /\ Forall (fun x => 0 <= x < 2 ^ 8) b.

#[export] Instance is_block_dec b : Decision (is_block b) := _.

Lemma length_put8 o v b : length (put8 o v b) = length b.
Proof. apply length_insert. Qed.
Lemma length_put16 o v b : length (put16 o v b) = length b.
Proof. unfold put16. by rewrite !length_put8. Qed.
Lemma length_put32 o v b : length (put32 o v b) = length b.
Proof. unfold put32. by rewrite !length_put16. Qed.

Lemma get8_put8_eq o v b : (o < length b)%nat -> get8 (put8 o v b) o = u8 v.
Proof. intros. unfold get8, put8. by rewrite list_lookup_total_insert_eq. Qed.
Lemma get8_put8_ne o o' v b : o <> o' -> get8 (put8 o v b) o' = get8 b o'.
Proof. intros. unfold get8, put8. by rewrite list_lookup_total_insert_ne. Qed.

Lemma get16_put16_eq o v b : (o + 1 < length b)%nat -> get16 (put16 o v b) o = u16 v.
Proof.
  intros. unfold get16, put16. rewrite (get8_put8_eq (o + 1)) by (rewrite length_put8; lia).
  rewrite (get8_put8_ne (o + 1) o) by lia. rewrite get8_put8_eq by lia.
  unfold u8, u16. rewrite Z.add_comm.
  change (2 ^ 16) with (2 ^ 8 * 2 ^ 8). rewrite (Z.rem_mul_r v (2 ^ 8) (2 ^ 8)) by lia. lia.
Qed.
Lemma get16_put16_ne o o' v b : (o + 1 < o' \/ o' + 1 < o)%nat -> get16 (put16 o v b) o' = get16 b o'.
Proof. intros. unfold get16, put16. by rewrite !get8_put8_ne by lia. Qed.

Lemma get32_put32_eq o v b : (o + 3 < length b)%nat -> get32 (put32 o v b) o = u32 v.
Proof.
  intros. unfold get32, put32. rewrite (get16_put16_eq (o + 2)) by (rewrite length_put16; lia).
  rewrite (get16_put16_ne (o + 2) o) by lia. rewrite get16_put16_eq by lia.
  unfold u16, u32.
  change (2 ^ 32) with (2 ^ 16 * 2 ^ 16). rewrite (Z.rem_mul_r v (2 ^ 16) (2 ^ 16)) by lia. lia.
Qed.
Lemma get32_put32_ne o o' v b : (o + 3 < o' \/ o' + 3 < o)%nat -> get32 (put32 o v b) o' = get32 b o'.
Proof. intros. unfold get32, put32. by rewrite !get16_put16_ne by lia. Qed.

(** Bytes stay bytes. *)
Lemma put8_block o v b : is_block b -> is_block (put8 o v b).
Proof.
  intros [Hl Hf]. split; [by rewrite length_put8|].
  apply Forall_insert; [done|]. unfold u8. apply Z.mod_pos_bound. lia.
Qed.
Lemma put16_block o v b : is_block b -> is_block (put16 o v b).
Proof. intros. by do 2 apply put8_block. Qed.
Lemma put32_block o v b : is_block b -> is_block (put32 o v b).
Proof. intros. by do 2 apply put16_block. Qed.
Lemma zero_is_block : is_block zero_block.
Proof. compute_done. Qed.

#[export] Hint Resolve put8_block put16_block put32_block zero_is_block : kernel.

Lemma get8_range b o : is_block b -> 0 <= get8 b o < 2 ^ 8.
Proof.
  intros [_ Hf]. unfold get8. destruct (b !! o) as [x|] eqn:E.
  - rewrite (list_lookup_total_correct _ _ _ E). rewrite list.Forall_forall in Hf. apply Hf.
    by eapply list_elem_of_lookup_2.
  - rewrite list_lookup_total_alt, E. simpl. lia.
Qed.
Lemma get16_range b o : is_block b -> 0 <= get16 b o < 2 ^ 16.
Proof. intros H. unfold get16. pose proof (get8_range b o H). pose proof (get8_range b (o + 1) H). lia. Qed.
Lemma get32_range b o : is_block b -> 0 <= get32 b o < 2 ^ 32.
Proof. intros H. unfold get32. pose proof (get16_range b o H). pose proof (get16_range b (o + 2) H). lia. Qed.

(** [splice] overwrites, [slice] reads. *)
Lemma length_splice o d b : (o + length d <= length b)%nat -> length (splice o d b) = length b.
Proof. intros. unfold splice. rewrite !length_app, length_take, length_drop. lia. Qed.
Lemma slice_splice o d b : (o + length d <= length b)%nat -> slice o (length d) (splice o d b) = d.
Proof.
  intros. unfold slice, splice. rewrite drop_app_length'; [|rewrite length_take; lia].
  by rewrite take_app_length.
Qed.
Lemma get8_splice o d b i : (o + length d <= length b)%nat ->
  get8 (splice o d b) i = if decide (o <= i < o + length d)%nat then d !!! (i - o)%nat else get8 b i.
Proof.
  intros Hl. unfold get8, splice. rewrite !list_lookup_total_alt. f_equal.
  destruct (decide (i < o)%nat).
  - rewrite decide_False by lia. rewrite lookup_app_l by (rewrite length_take; lia). by rewrite lookup_take_lt.
  - rewrite lookup_app_r by (rewrite length_take; lia). rewrite length_take, Nat.min_l by lia.
    case_decide.
    + by rewrite lookup_app_l by lia.
    + rewrite lookup_app_r by lia. rewrite lookup_drop. by replace (o + length d + (i - o - length d))%nat with i by lia.
Qed.
