(* ===== verification/Blockio.v ===== *)
(** * The block interface the file system is written against

    fs.c only uses [bread], [log_write], [brelse] and the bytes of the
    buffers it holds.  [BlockIO] lists these operations and [BlockLaws] what
    the layer below promises about them inside a transaction; [Log]
    discharges the laws for the cache and the log. *)

From S2P Require Import Prelude Block.

Definition zupd {A} (f : Z -> A) (k : Z) (v : A) : Z -> A := fun x => if decide (x = k) then v else f x.

Lemma zupd_eq {A} (f : Z -> A) k v : zupd f k v k = v.
Proof. unfold zupd. by rewrite decide_True. Qed.
Lemma zupd_ne {A} (f : Z -> A) k v x : x <> k -> zupd f k v x = f x.
Proof. intros. unfold zupd. by rewrite decide_False. Qed.
Lemma zupd_self {A} (f : Z -> A) k v : f k = v -> forall x, f x = zupd f k v x.
Proof. intros H x. unfold zupd. by case_decide; subst. Qed.

Class BlockIO (S : Type) := {
  io_bread : Z -> Z -> M S nat;          (* bread(dev, blockno) *)
  io_data : nat -> M S bytes;            (* bp->data *)
  io_set : nat -> bytes -> M S unit;     (* stores into bp->data *)
  io_log : nat -> M S unit;              (* log_write(bp) *)
  io_relse : nat -> M S unit             (* brelse(bp) *)
}.

(** Buffers the cache can hold at once, and blocks one transaction may log. *)
Definition IO_BUFS : nat := 30.

Class BlockLaws (S : Type) `{BlockIO S} := {
  (** [io_st s V H T]: in a transaction; block [b] reads [V b]; the caller
      holds the blocks [H]; the blocks [T] have been logged. *)
  io_st : S -> (Z -> bytes) -> list Z -> list Z -> Prop;
  (** Buffer [i] is block [b], held by the caller. *)
  io_h : S -> nat -> Z -> Prop;
  io_cap : nat;                          (* blocks a transaction may log *)
  io_home : Z -> Prop;                   (* blocks that may be logged *)
  io_st_ext : forall s V V' H T, (forall b, V' b = V b) -> io_st s V H T -> io_st s V' H T;
  io_block : forall s V H T b, io_st s V H T -> is_block (V b);
  io_bread_ok : forall s V H T b, io_st s V H T -> 0 <= b < FSSIZE -> b ∉ H -> (length H + length T < IO_BUFS)%nat ->
    wp (io_bread ROOTDEV b) (fun i s' => io_st s' V (b :: H) T /\ io_h s' i b /\
      forall j c, io_h s j c -> io_h s' j c) s;
  io_data_ok : forall s V H T i b, io_st s V H T -> io_h s i b -> io_data i s = Ok (V b) s;
  io_write_ok : forall s V H T i b d, io_st s V H T -> io_h s i b -> is_block d -> io_home b -> (length T < io_cap)%nat ->
    wp (io_set i d ;;; io_log i) (fun _ s' =>
      io_st s' (zupd V b d) H (if decide (b ∈ T) then T else b :: T) /\ forall j c, io_h s j c -> io_h s' j c) s;
  io_relse_ok : forall s V H H' T i b, io_st s V H T -> io_h s i b -> H ≡ₚ b :: H' ->
    wp (io_relse i) (fun _ s' => io_st s' V H' T /\ forall j c, io_h s j c -> c <> b -> io_h s' j c) s
}.
