(* ===== verification/Bio.v ===== *)
(** * The buffer cache (bio.c) and the disk request it issues (iderw)

    The cache is an array of [NBUF] buffers plus the sentinel of the
    most-recently-used list, all linked by [prev]/[next].  The state also
    holds the disks' contents and, as history, the writes made so far in
    order: the crash theorems of [Log] quantify over prefixes of it.  Device
    errors are not modelled; the request queue is the subject of [Ide]. *)

From S2P Require Import Prelude Layout Ring Block Blockio.

(** ** Sleep locks, as the owner of a buffer or an inode sees them *)

Record sleeplock := mk_sleeplock { sl_locked : bool; sl_pid : Z }.

Definition initsleeplock : sleeplock := mk_sleeplock false 0.
(** [None]: the caller has to sleep. *)
Definition acquiresleep (pid : Z) (lk : sleeplock) : option sleeplock :=
  if sl_locked lk then None else Some (mk_sleeplock true pid).
Definition releasesleep (lk : sleeplock) : sleeplock := mk_sleeplock false 0.
Definition holdingsleep (pid : Z) (lk : sleeplock) : bool := sl_locked lk && (sl_pid lk =? pid).

(** ** State *)

Definition NBUF : nat := 30.
Definition HEAD : nat := NBUF.         (* index of bcache.head *)
Definition B_VALID : Z := 0x2.
Definition B_DIRTY : Z := 0x4.

Record buf := mk_buf {
  b_flags : Z;
  b_dev : Z;
  b_blockno : Z;
  b_lock : sleeplock;
  b_refcnt : Z;
  b_prev : nat;
  b_next : nat;
  b_data : bytes
}.

Definition buf0 : buf := mk_buf 0 0 0 initsleeplock 0 0 0 zero_block.

Definition set_flags (f : Z) (b : buf) : buf :=
  mk_buf f (b_dev b) (b_blockno b) (b_lock b) (b_refcnt b) (b_prev b) (b_next b) (b_data b).
Definition set_block (dev blockno : Z) (b : buf) : buf :=
  mk_buf (b_flags b) dev blockno (b_lock b) (b_refcnt b) (b_prev b) (b_next b) (b_data b).
Definition set_lock (lk : sleeplock) (b : buf) : buf :=
  mk_buf (b_flags b) (b_dev b) (b_blockno b) lk (b_refcnt b) (b_prev b) (b_next b) (b_data b).
Definition set_refcnt (r : Z) (b : buf) : buf :=
  mk_buf (b_flags b) (b_dev b) (b_blockno b) (b_lock b) r (b_prev b) (b_next b) (b_data b).
Definition set_prev (p : nat) (b : buf) : buf :=
  mk_buf (b_flags b) (b_dev b) (b_blockno b) (b_lock b) (b_refcnt b) p (b_next b) (b_data b).
Definition set_next (n : nat) (b : buf) : buf :=
  mk_buf (b_flags b) (b_dev b) (b_blockno b) (b_lock b) (b_refcnt b) (b_prev b) n (b_data b).
Definition set_data (d : bytes) (b : buf) : buf :=
  mk_buf (b_flags b) (b_dev b) (b_blockno b) (b_lock b) (b_refcnt b) (b_prev b) (b_next b) d.

Record bcache := mk_bcache {
  bufs : list buf;                     (* bcache.buf, then bcache.head *)
  disk : gmap (Z * Z) bytes;           (* (drive, block number) *)
  history : list ((Z * Z) * bytes);    (* disk writes, oldest first *)
  mypid : Z;                           (* myproc()->pid *)
  havedisk1 : bool;
  bc_locks : gset string
}.

Definition set_bufs (bs : list buf) (s : bcache) : bcache :=
  mk_bcache bs (disk s) (history s) (mypid s) (havedisk1 s) (bc_locks s).
Definition set_bc_locks (h : gset string) (s : bcache) : bcache :=
  mk_bcache (bufs s) (disk s) (history s) (mypid s) (havedisk1 s) h.

#[export] Program Instance bcache_locks : HasLocks bcache := {
  held := bc_locks;
  set_held := set_bc_locks
}.
Next Obligation. done. Qed.
Next Obligation. by intros []. Qed.
Next Obligation. done. Qed.

Definition disk_block (s : bcache) (k : Z * Z) : bytes := default zero_block (disk s !! k).
Definition disk_write (k : Z * Z) (d : bytes) (s : bcache) : bcache :=
  mk_bcache (bufs s) (<[k := d]> (disk s)) (history s ++ [(k, d)]) (mypid s) (havedisk1 s) (bc_locks s).

(** ** Operations *)

Definition getb (i : nat) : M bcache buf := s <- kget ;; deref (bufs s !! i).
Definition putb (i : nat) (f : buf -> buf) : M bcache unit :=
  s <- kget ;;
  match bufs s !! i with
  | Some b => kput (set_bufs (<[i := f b]> (bufs s)) s)
  | None => fault "bcache: no such buffer"
  end.

(** Insertion behind the sentinel, as in [binit] and [brelse]. *)
Definition link_front (i : nat) : M bcache unit :=
  h <- getb HEAD ;;
  putb i (set_next (b_next h)) ;;;
  putb i (set_prev HEAD) ;;;
  h <- getb HEAD ;;
  putb (b_next h) (set_prev i) ;;;
  putb HEAD (set_next i).

Fixpoint binit_loop (n : nat) (i : nat) : M bcache unit :=
  match n with
  | O => kret tt
  | Datatypes.S n' =>
      h <- getb HEAD ;;
      putb i (set_next (b_next h)) ;;;
      putb i (set_prev HEAD) ;;;
      putb i (set_lock initsleeplock) ;;;
      h <- getb HEAD ;;
      putb (b_next h) (set_prev i) ;;;
      putb HEAD (set_next i) ;;;
      binit_loop n' (Datatypes.S i)
  end.

Definition binit : M bcache unit :=
  modify (fun s => set_bc_locks (bc_locks s ∖ {["bcache"]}) s) ;;;  (* initlock *)
  putb HEAD (set_prev HEAD) ;;;
  putb HEAD (set_next HEAD) ;;;
  binit_loop NBUF 0.

(** The two scans of [bget]; [Some None] means the sentinel was reached. *)
Fixpoint scan_next (fuel : nat) (dev blockno : Z) (i : nat) (bs : list buf) : option (option nat) :=
  match fuel with
  | O => None
  | Datatypes.S fuel' =>
      if decide (i = HEAD) then Some None
      else
        match bs !! i with
        | Some b =>
            if (b_dev b =? dev) && (b_blockno b =? blockno) then Some (Some i)
            else scan_next fuel' dev blockno (b_next b) bs
        | None => None
        end
  end.
Fixpoint scan_prev (fuel : nat) (i : nat) (bs : list buf) : option (option nat) :=
  match fuel with
  | O => None
  | Datatypes.S fuel' =>
      if decide (i = HEAD) then Some None
      else
        match bs !! i with
        | Some b =>
            if (b_refcnt b =? 0) && negb (flag B_DIRTY (b_flags b)) then Some (Some i)
            else scan_prev fuel' (b_prev b) bs
        | None => None
        end
  end.

Definition lock_buf (i : nat) : M bcache unit :=
  b <- getb i ;;
  pid <- gets mypid ;;
  match acquiresleep pid (b_lock b) with
  | Some lk => putb i (set_lock lk)
  | None => block "buffer"
  end.

Definition bget (dev blockno : Z) : M bcache nat :=
  acquire "bcache" ;;;
  h <- getb HEAD ;;
  s <- kget ;;
  match scan_next (Datatypes.S NBUF) dev blockno (b_next h) (bufs s) with
  | None => nofuel
  | Some (Some i) =>
      putb i (fun b => set_refcnt (u32 (b_refcnt b + 1)) b) ;;;
      release "bcache" ;;;
      lock_buf i ;;;
      kret i
  | Some None =>
      match scan_prev (Datatypes.S NBUF) (b_prev h) (bufs s) with
      | None => nofuel
      | Some (Some i) =>
          putb i (set_block dev blockno) ;;;
          putb i (set_flags 0) ;;;
          putb i (set_refcnt 1) ;;;
          release "bcache" ;;;
          lock_buf i ;;;
          kret i
      | Some None => panic "bget: no buffers"
      end
  end.

(** [iderw] with an otherwise empty queue: the request is started, the
    interrupt handler transfers the data and sets the flags. *)
Definition iderw (i : nat) : M bcache unit :=
  b <- getb i ;;
  s <- kget ;;
  if negb (holdingsleep (mypid s) (b_lock b)) then panic "iderw: buf not locked"
  else if Z.land (b_flags b) (Z.lor B_VALID B_DIRTY) =? B_VALID then panic "iderw: nothing to do"
  else if negb (b_dev b =? 0) && negb (havedisk1 s) then panic "iderw: ide disk 1 not present"
  else if FSSIZE <=? b_blockno b then panic "incorrect blockno"
  else
    let k := (Z.land (b_dev b) 1, b_blockno b) in
    (if flag B_DIRTY (b_flags b) then modify (disk_write k (b_data b))
     else putb i (set_data (disk_block s k))) ;;;
    putb i (fun b => set_flags (clear_flag B_DIRTY (Z.lor (b_flags b) B_VALID)) b).

Definition bread (dev blockno : Z) : M bcache nat :=
  i <- bget dev blockno ;;
  b <- getb i ;;
  (when negb (flag B_VALID (b_flags b)) do iderw i) ;;;
  kret i.

Definition bwrite (i : nat) : M bcache unit :=
  b <- getb i ;;
  pid <- gets mypid ;;
  if negb (holdingsleep pid (b_lock b)) then panic "bwrite"
  else
    putb i (fun b => set_flags (Z.lor (b_flags b) B_DIRTY) b) ;;;
    iderw i.

Definition brelse (i : nat) : M bcache unit :=
  b <- getb i ;;
  pid <- gets mypid ;;
  if negb (holdingsleep pid (b_lock b)) then panic "brelse"
  else
    putb i (set_lock (releasesleep (b_lock b))) ;;;
    acquire "bcache" ;;;
    putb i (fun b => set_refcnt (u32 (b_refcnt b - 1)) b) ;;;
    b <- getb i ;;
    (when b_refcnt b =? 0 do
       (putb (b_next b) (set_prev (b_prev b)) ;;;
        b <- getb i ;;
        putb (b_prev b) (set_next (b_next b)) ;;;
        link_front i)) ;;;
    release "bcache".

(** The buffer's contents, read and written through [bp->data]. *)
Definition bdata (i : nat) : M bcache bytes := b <- getb i ;; kret (b_data b).
Definition bset (i : nat) (d : bytes) : M bcache unit := putb i (set_data d).

(** ** Invariant *)

Definition nx (bs : list buf) (i : nat) : nat := from_option b_next 0%nat (bs !! i).
Definition pv (bs : list buf) (i : nat) : nat := from_option b_prev 0%nat (bs !! i).

Definition clean (b : buf) : Prop := b_flags b = B_VALID.
Definition dirty (b : buf) : Prop := b_flags b = Z.lor B_VALID B_DIRTY.
Definition caches (bn : Z) (b : buf) : Prop := b_dev b = ROOTDEV /\ b_blockno b = bn.
Definition unlocked (b : buf) : Prop := sl_locked (b_lock b) = false.

(** A buffer never used, or one that caches a block of the root device: a
    clean buffer nobody has locked agrees with the disk. *)
Record buf_ok (s : bcache) (b : buf) : Prop := {
  bo_data : is_block (b_data b);
  bo_ref : b_refcnt b = if sl_locked (b_lock b) then 1 else 0;
  bo_state :
    (b_dev b = 0 /\ b_flags b = 0 /\ unlocked b) \/
    (b_dev b = ROOTDEV /\ 0 <= b_blockno b < FSSIZE /\ (clean b \/ dirty b) /\
     (clean b -> unlocked b -> b_data b = disk_block s (1, b_blockno b)))
}.

(** [o]: the order of the most-recently-used list. *)
Record bc_inv (o : list nat) (s : bcache) : Prop := {
  bi_len : length (bufs s) = S NBUF;
  bi_ring : ring (nx (bufs s)) (pv (bufs s)) HEAD o;
  bi_order : o ≡ₚ seq 0 NBUF;
  bi_bufs : forall i b, (i < NBUF)%nat -> bufs s !! i = Some b -> buf_ok s b;
  bi_uniq : forall i j bi bj bn, (i < NBUF)%nat -> (j < NBUF)%nat -> bufs s !! i = Some bi -> bufs s !! j = Some bj ->
    caches bn bi -> caches bn bj -> i = j;
  bi_lock : "bcache" ∉ bc_locks s;
  bi_disk : havedisk1 s = true /\ forall k, is_block (disk_block s k)
}.

(** What a reader of block [bn] gets: the cached copy, or the disk's. *)
Definition holder (bs : list buf) (bn : Z) : option (nat * buf) :=
  list_find (fun b => b_dev b = ROOTDEV /\ b_blockno b = bn) (take NBUF bs).
Definition bview (s : bcache) (bn : Z) : bytes :=
  match holder (bufs s) bn with
  | Some (_, b) => b_data b
  | None => disk_block s (1, bn)
  end.

(** ** Symbolic execution *)

Lemma getb_eq s i b : bufs s !! i = Some b -> getb i s = Ok b s.
Proof. intros E. unfold getb, kbind, kget. by rewrite E. Qed.

Lemma putb_eq s i b f : bufs s !! i = Some b -> putb i f s = Ok tt (set_bufs (<[i := f b]> (bufs s)) s).
Proof. intros E. unfold putb, kbind, kget. by rewrite E. Qed.

Lemma lookup_buf s i : length (bufs s) = S NBUF -> (i <= NBUF)%nat -> is_Some (bufs s !! i).
Proof. intros Hl Hi. apply lookup_lt_is_Some. lia. Qed.

Lemma holder_Some bs bn i b :
  holder bs bn = Some (i, b) -> (i < NBUF)%nat /\ bs !! i = Some b /\ caches bn b.
Proof.
  intros (Hi & Hc & _)%list_find_Some. assert (i < NBUF)%nat as Hlt.
  { destruct (decide (i < NBUF)%nat); [done|]. by rewrite lookup_take_ge in Hi by lia. }
  by rewrite lookup_take_lt in Hi.
Qed.

Lemma holder_None bs bn i b : holder bs bn = None -> (i < NBUF)%nat -> bs !! i = Some b -> ~ caches bn b.
Proof.
  intros Hn Hi Hb Hc. apply list_find_None in Hn. rewrite list.Forall_forall in Hn. apply (Hn b); [|done].
  apply (list_elem_of_lookup_2 _ i). by rewrite lookup_take_lt.
Qed.

Lemma holder_intro o s i b bn :
  bc_inv o s -> (i < NBUF)%nat -> bufs s !! i = Some b -> caches bn b -> holder (bufs s) bn = Some (i, b).
Proof.
  intros Hinv Hi Hb Hc. destruct (holder (bufs s) bn) as [[j bj]|] eqn:E.
  - apply holder_Some in E as (Hj & Hbj & Hcj).
    assert (i = j) as <- by (eapply (bi_uniq _ _ Hinv); eauto). congruence.
  - by destruct (holder_None _ _ _ _ E Hi Hb).
Qed.

(** First element satisfying a test: what the scans compute. *)
Fixpoint pick (P : nat -> bool) (l : list nat) : option nat :=
  match l with
  | [] => None
  | x :: l' => if P x then Some x else pick P l'
  end.

Lemma pick_Some P l x : pick P l = Some x -> x ∈ l /\ P x = true.
Proof.
  induction l as [|y l IH]; simpl; [done|]. destruct (P y) eqn:E.
  - intros [= ->]. split; [apply list_elem_of_here|done].
  - intros H. destruct (IH H). split; [by apply list_elem_of_further|done].
Qed.
Lemma pick_None P l x : pick P l = None -> x ∈ l -> P x = false.
Proof.
  induction l as [|y l IH]; simpl; [by intros _ ?%elem_of_nil|]. destruct (P y) eqn:E; [done|].
  intros H [->|Hx]%elem_of_cons; [done|]. by apply IH.
Qed.

Definition matches (bs : list buf) (dev bn : Z) (i : nat) : bool :=
  from_option (fun b => (b_dev b =? dev) && (b_blockno b =? bn)) false (bs !! i).
Definition recyclable (bs : list buf) (i : nat) : bool :=
  from_option (fun b => (b_refcnt b =? 0) && negb (flag B_DIRTY (b_flags b))) false (bs !! i).

Lemma scan_next_pick bs dev bn fuel : forall a l,
  seg (nx bs) (pv bs) a l HEAD -> HEAD ∉ l -> Forall (fun i => is_Some (bs !! i)) l -> (length l < fuel)%nat ->
  scan_next fuel dev bn (nx bs a) bs = Some (pick (matches bs dev bn) l).
Proof.
  induction fuel as [|fuel IH]; intros a l Hs Hh Hl Hf; [lia|].
  destruct l as [|x l]; simpl in Hs |- *.
  - destruct Hs as [-> _]. by rewrite decide_True.
  - destruct Hs as (-> & _ & Hs). rewrite not_elem_of_cons in Hh. destruct Hh as [Hxh Hh].
    inversion Hl as [|? ? [b Hb] Hl']; subst. rewrite decide_False by done. unfold matches at 1. rewrite Hb. simpl.
    destruct ((b_dev b =? dev) && (b_blockno b =? bn)); [done|].
    replace (b_next b) with (nx bs x) by (unfold nx; by rewrite Hb). apply IH; try done. simpl in Hf. lia.
Qed.

Lemma scan_prev_pick bs fuel : forall l z,
  seg (nx bs) (pv bs) HEAD l z -> HEAD ∉ l -> Forall (fun i => is_Some (bs !! i)) l -> (length l < fuel)%nat ->
  scan_prev fuel (pv bs z) bs = Some (pick (recyclable bs) (rev l)).
Proof.
  induction fuel as [|fuel IH]; intros l z Hs Hh Hl Hf; [lia|].
  destruct l as [|x l] using rev_ind.
  - destruct Hs as [_ E]. cbn [scan_prev rev pick]. rewrite E. by rewrite decide_True.
  - clear IHl. rewrite rev_app_distr. cbn [scan_prev rev pick app]. apply seg_app in Hs as [Hs [_ E]]. rewrite E.
    rewrite elem_of_app, list_elem_of_singleton in Hh.
    rewrite list.Forall_app in Hl. destruct Hl as [Hl Hx]. apply list.Forall_cons in Hx as [[b Hb] _].
    rewrite decide_False by (intros ->; tauto). unfold recyclable at 1. rewrite Hb. simpl.
    destruct ((b_refcnt b =? 0) && negb (flag B_DIRTY (b_flags b))); [done|].
    replace (b_prev b) with (pv bs x) by (unfold pv; by rewrite Hb). apply IH; try done; [tauto|].
    rewrite length_app in Hf. simpl in Hf. lia.
Qed.

Lemma set_bufs_twice a b s : set_bufs a (set_bufs b s) = set_bufs a s.
Proof. done. Qed.
Lemma bufs_set a s : bufs (set_bufs a s) = a.
Proof. done. Qed.
Lemma set_bufs_self s : set_bufs (bufs s) s = s.
Proof. by destruct s. Qed.

Lemma bc_acquire s : "bcache" ∉ bc_locks s ->
  acquire "bcache" s = Ok tt (set_bc_locks ({["bcache"]} ∪ bc_locks s) s).
Proof. intros H. unfold acquire. cbn [held bcache_locks]. by rewrite decide_False. Qed.

Lemma bc_release s bs : "bcache" ∉ bc_locks s ->
  release "bcache" (set_bufs bs (set_bc_locks ({["bcache"]} ∪ bc_locks s) s)) = Ok tt (set_bufs bs s).
Proof.
  intros H. unfold release. cbn [held bcache_locks bc_locks set_bufs set_bc_locks].
  rewrite decide_True by (apply elem_of_union_l, elem_of_singleton_2; done).
  cbn. f_equal. unfold set_bufs, set_bc_locks. cbn. f_equal. by apply held_cycle.
Qed.

Lemma lock_buf_eq s i b : bufs s !! i = Some b -> unlocked b ->
  lock_buf i s = Ok tt (set_bufs (<[i := set_lock (mk_sleeplock true (mypid s)) b]> (bufs s)) s).
Proof.
  intros Hb Hu. unfold lock_buf. rewrite (kbind_ok _ _ _ _ _ (getb_eq _ _ _ Hb)).
  unfold kbind, gets, acquiresleep. rewrite Hu. by apply putb_eq.
Qed.

(** What the two scans of [bget] find. *)
Lemma bget_scan o s dev bn h :
  bc_inv o s -> bufs s !! HEAD = Some h ->
  scan_next (S NBUF) dev bn (b_next h) (bufs s) = Some (pick (matches (bufs s) dev bn) o) /\
  scan_prev (S NBUF) (b_prev h) (bufs s) = Some (pick (recyclable (bufs s)) (rev o)).
Proof.
  intros Hinv Hh. destruct (bi_ring _ _ Hinv) as [Hs Hnd]. apply list.NoDup_cons in Hnd as [Hho _].
  assert (length o = NBUF) as Hlen by (by rewrite (bi_order _ _ Hinv), length_seq).
  assert (Forall (fun i => is_Some (bufs s !! i)) o) as Hall.
  { apply list.Forall_forall. intros i Hi. rewrite (bi_order _ _ Hinv), elem_of_seq in Hi.
    apply (lookup_buf s i (bi_len _ _ Hinv)). lia. }
  replace (b_next h) with (nx (bufs s) HEAD) by (unfold nx; by rewrite Hh).
  replace (b_prev h) with (pv (bufs s) HEAD) by (unfold pv; by rewrite Hh).
  split; [apply scan_next_pick|apply scan_prev_pick]; try done; rewrite Hlen; lia.
Qed.

Definition grab (s : bcache) (b : buf) : buf := set_lock (mk_sleeplock true (mypid s)) (set_refcnt 1 b).

Lemma bget_hit o s dev bn i b :
  bc_inv o s -> pick (matches (bufs s) dev bn) o = Some i -> (i < NBUF)%nat -> bufs s !! i = Some b -> unlocked b ->
  bget dev bn s = Ok i (set_bufs (<[i := grab s b]> (bufs s)) s).
Proof.
  intros Hinv Hp Hi Hb Hu. destruct (lookup_buf s HEAD (bi_len _ _ Hinv)) as [h Hh]; [done|].
  pose proof (bi_lock _ _ Hinv) as Hlk. unfold bget.
  rewrite (kbind_ok _ _ _ _ _ (bc_acquire s Hlk)).
  rewrite (kbind_ok _ _ _ h _ (getb_eq (set_bc_locks _ s) _ _ Hh)).
  unfold kbind at 1, kget. cbv beta iota. cbn [bufs set_bc_locks].
  destruct (bget_scan o s dev bn h Hinv Hh) as [-> _]. rewrite Hp.
  rewrite (kbind_ok _ _ _ _ _ (putb_eq (set_bc_locks _ s) _ _ _ Hb)).
  rewrite (kbind_ok _ _ _ _ _ (bc_release s _ Hlk)).
  pose proof (bo_ref _ _ (bi_bufs _ _ Hinv i b Hi Hb)) as Hr. rewrite Hu in Hr. rewrite Hr.
  change (u32 (0 + 1)) with 1.
  assert (bufs (set_bufs (<[i:=set_refcnt 1 b]> (bufs s)) s) !! i = Some (set_refcnt 1 b)) as Hb'.
  { cbn. apply list_lookup_insert_eq. by eapply lookup_lt_Some. }
  rewrite (kbind_ok _ _ _ _ _ (lock_buf_eq _ _ _ Hb' Hu)).
  unfold kret, grab. f_equal. unfold set_bufs. cbn. by rewrite list_insert_insert_eq.
Qed.

Lemma bget_miss o s dev bn i b :
  bc_inv o s -> pick (matches (bufs s) dev bn) o = None -> pick (recyclable (bufs s)) (rev o) = Some i ->
  (i < NBUF)%nat -> bufs s !! i = Some b -> unlocked b ->
  bget dev bn s = Ok i (set_bufs (<[i := grab s (set_flags 0 (set_block dev bn b))]> (bufs s)) s).
Proof.
  intros Hinv Hp Hp2 Hi Hb Hu. destruct (lookup_buf s HEAD (bi_len _ _ Hinv)) as [h Hh]; [done|].
  pose proof (bi_lock _ _ Hinv) as Hlk. unfold bget.
  rewrite (kbind_ok _ _ _ _ _ (bc_acquire s Hlk)).
  rewrite (kbind_ok _ _ _ h _ (getb_eq (set_bc_locks _ s) _ _ Hh)).
  unfold kbind at 1, kget. cbv beta iota. cbn [bufs set_bc_locks].
  destruct (bget_scan o s dev bn h Hinv Hh) as [-> ->]. rewrite Hp, Hp2.
  assert (forall (b' : buf) bs, length bs = length (bufs s) -> <[i := b']> bs !! i = Some b') as Hl.
  { intros b' bs E. apply list_lookup_insert_eq. rewrite E. by eapply lookup_lt_Some. }
  set (L := {["bcache"]} ∪ bc_locks s).
  rewrite (kbind_ok _ _ _ _ _ (putb_eq (set_bc_locks L s) _ _ _ Hb)).
  rewrite (kbind_ok _ _ _ _ _ (putb_eq (set_bufs (<[i := set_block dev bn b]> (bufs s)) (set_bc_locks L s)) i _ _ (Hl _ _ eq_refl))).
  rewrite set_bufs_twice. rewrite bufs_set, list_insert_insert_eq.
  rewrite (kbind_ok _ _ _ _ _ (putb_eq (set_bufs (<[i := set_flags 0 (set_block dev bn b)]> (bufs s)) (set_bc_locks L s)) i _ _ (Hl _ _ eq_refl))).
  rewrite set_bufs_twice. rewrite bufs_set, list_insert_insert_eq.
  rewrite (kbind_ok _ _ _ _ _ (bc_release s _ Hlk)).
  rewrite (kbind_ok _ _ _ _ _ (lock_buf_eq (set_bufs _ s) _ _ (Hl (set_refcnt 1 (set_flags 0 (set_block dev bn b))) _ eq_refl) Hu)).
  unfold kret, grab. f_equal. unfold set_bufs. cbn. by rewrite list_insert_insert_eq.
Qed.

Lemma bget_none o s dev bn :
  bc_inv o s -> pick (matches (bufs s) dev bn) o = None -> pick (recyclable (bufs s)) (rev o) = None ->
  bget dev bn s = Panic "bget: no buffers".
Proof.
  intros Hinv Hp Hp2. destruct (lookup_buf s HEAD (bi_len _ _ Hinv)) as [h Hh]; [done|].
  pose proof (bi_lock _ _ Hinv) as Hlk. unfold bget.
  rewrite (kbind_ok _ _ _ _ _ (bc_acquire s Hlk)).
  rewrite (kbind_ok _ _ _ h _ (getb_eq (set_bc_locks _ s) _ _ Hh)).
  unfold kbind, kget. cbv beta iota. cbn [bufs set_bc_locks].
  destruct (bget_scan o s dev bn h Hinv Hh) as [-> ->]. by rewrite Hp, Hp2.
Qed.

(** ** Specifications *)

Lemma in_order o s i : bc_inv o s -> i ∈ o <-> (i < NBUF)%nat.
Proof. intros Hinv. rewrite (bi_order _ _ Hinv), elem_of_seq. lia. Qed.

Lemma matches_true bs dev bn i : matches bs dev bn i = true ->
  exists b, bs !! i = Some b /\ b_dev b = dev /\ b_blockno b = bn.
Proof.
  unfold matches. destruct (bs !! i) as [b|]; simpl; [|done].
  intros [?%Z.eqb_eq ?%Z.eqb_eq]%andb_true_iff. by exists b.
Qed.

Lemma pick_holder o s bn : bc_inv o s ->
  pick (matches (bufs s) ROOTDEV bn) o = fst <$> holder (bufs s) bn.
Proof.
  intros Hinv. destruct (pick _ o) as [i|] eqn:E.
  - apply pick_Some in E as [Hi (b & Hb & Hd & Hn)%matches_true]. apply (in_order _ _ _ Hinv) in Hi.
    by rewrite (holder_intro o s i b bn Hinv Hi Hb (conj Hd Hn)).
  - destruct (holder (bufs s) bn) as [[i b]|] eqn:Eh; [|done].
    apply holder_Some in Eh as (Hi & Hb & Hd & Hn).
    pose proof (pick_None _ _ i E (proj2 (in_order _ _ _ Hinv) Hi)) as Hm. unfold matches in Hm.
    rewrite Hb in Hm. simpl in Hm. rewrite Hd, Hn, !Z.eqb_refl in Hm. done.
Qed.

(** A buffer that [bget] may recycle. *)
Definition spare (s : bcache) (i : nat) (b : buf) : Prop :=
  (i < NBUF)%nat /\ bufs s !! i = Some b /\ unlocked b /\ ~ dirty b.

Lemma pick_spare o s : bc_inv o s ->
  match pick (recyclable (bufs s)) (rev o) with
  | Some i => exists b, spare s i b
  | None => forall i b, ~ spare s i b
  end.
Proof.
  intros Hinv. destruct (pick _ _) as [i|] eqn:E.
  - apply pick_Some in E as [Hi Hr]. rewrite <- Permutation_rev, (in_order _ _ _ Hinv) in Hi.
    unfold recyclable in Hr. destruct (bufs s !! i) as [b|] eqn:Hb; [|done]. simpl in Hr.
    apply andb_true_iff in Hr as [Hr%Z.eqb_eq Hd]. exists b. split; [done|]. split; [done|].
    pose proof (bo_ref _ _ (bi_bufs _ _ Hinv i b Hi Hb)) as Href. unfold unlocked.
    destruct (sl_locked (b_lock b)); [lia|]. split; [done|]. intros Hdd. unfold dirty in Hdd. by rewrite Hdd in Hd.
  - intros i b (Hi & Hb & Hu & Hd). pose proof (pick_None _ _ i E) as Hr.
    rewrite <- Permutation_rev, (in_order _ _ _ Hinv) in Hr. specialize (Hr Hi). unfold recyclable in Hr. rewrite Hb in Hr. simpl in Hr.
    destruct (bi_bufs _ _ Hinv i b Hi Hb) as [_ Href Hst]. rewrite Hu in Href. rewrite Href in Hr. simpl in Hr.
    apply negb_false_iff in Hr.
    destruct Hst as [(_ & Hf & _)|(_ & _ & [Hf|?] & _)]; [by rewrite Hf in Hr|by rewrite Hf in Hr|done].
Qed.

Lemma buf_ok_disk s s' b : disk s' = disk s -> buf_ok s b -> buf_ok s' b.
Proof.
  intros E [H1 H2 H3]. split; [done|done|].
  replace (disk_block s' (1, b_blockno b)) with (disk_block s (1, b_blockno b)); [done|].
  unfold disk_block. by rewrite E.
Qed.

(** Replacing one buffer keeps the invariant if the new one is well formed. *)
Lemma bc_inv_put o s i b b' :
  bc_inv o s -> (i < NBUF)%nat -> bufs s !! i = Some b -> b_prev b' = b_prev b -> b_next b' = b_next b ->
  buf_ok s b' -> (forall bn j bj, caches bn b' -> (j < NBUF)%nat -> j <> i -> bufs s !! j = Some bj -> ~ caches bn bj) ->
  bc_inv o (set_bufs (<[i := b']> (bufs s)) s).
Proof.
  intros [Hl Hr Ho Hb0 Hu Hlk Hd] Hi Hb Hp Hn Hok Hne.
  assert (forall j, nx (<[i := b']> (bufs s)) j = nx (bufs s) j) as En.
  { intros j. unfold nx. destruct (decide (i = j)) as [<-|Hij]; [|by rewrite list_lookup_insert_ne].
    rewrite list_lookup_insert_eq by (by eapply lookup_lt_Some). by rewrite Hb. }
  assert (forall j, pv (<[i := b']> (bufs s)) j = pv (bufs s) j) as Ep.
  { intros j. unfold pv. destruct (decide (i = j)) as [<-|Hij]; [|by rewrite list_lookup_insert_ne].
    rewrite list_lookup_insert_eq by (by eapply lookup_lt_Some). by rewrite Hb. }
  split; cbn [bufs set_bufs]; try done.
  - by rewrite length_insert.
  - destruct Hr as [Hs Hnd]. split; [|done]. eapply seg_ext; [| |exact Hs]; intros; [apply En|apply Ep].
  - intros j bj Hj. rewrite list_lookup_insert_Some. intros [(<- & <- & _)|[_ Hbj]]; (apply (buf_ok_disk s); [reflexivity|]); [exact Hok|].
    exact (Hb0 j bj Hj Hbj).
  - intros j k bj bk bn Hj Hk. rewrite !list_lookup_insert_Some.
    intros [(<- & <- & _)|[Hij Hbj]] [(<- & <- & _)|[Hik Hbk]] Hc1 Hc2; try done.
    + exfalso. by apply (Hne bn k bk).
    + exfalso. by apply (Hne bn j bj).
    + by apply (Hu j k bj bk bn).
Qed.

(** The buffer [bread] returns: locked by the caller, holding the current
    contents of the block.  It is the cached one if there is one (dirty as
    before), and otherwise a recycled clean one. *)
Record got (s : bcache) (bn : Z) (i : nat) (b' : buf) : Prop := {
  gt_range : (i < NBUF)%nat;
  gt_caches : caches bn b';
  gt_lock : b_lock b' = mk_sleeplock true (mypid s);
  gt_data : b_data b' = bview s bn;
  gt_old : exists b, bufs s !! i = Some b /\ unlocked b /\
    ((holder (bufs s) bn = Some (i, b) /\ b_flags b' = b_flags b) \/
     (holder (bufs s) bn = None /\ ~ dirty b /\ clean b'))
}.

Lemma bread_hit_spec o s bn i b :
  bc_inv o s -> holder (bufs s) bn = Some (i, b) -> unlocked b ->
  bread ROOTDEV bn s = Ok i (set_bufs (<[i := grab s b]> (bufs s)) s) /\
  bc_inv o (set_bufs (<[i := grab s b]> (bufs s)) s) /\ got s bn i (grab s b).
Proof.
  intros Hinv Hh Hu. pose proof (holder_Some _ _ _ _ Hh) as (Hi & Hb & Hc).
  pose proof (bi_bufs _ _ Hinv i b Hi Hb) as [Hda Href Hst].
  assert (b_dev b = ROOTDEV /\ 0 <= b_blockno b < FSSIZE /\ (clean b \/ dirty b)) as (Hdev & Hbn & Hcd).
  { destruct Hst as [(E & _)|(? & ? & ? & _)]; [|done]. destruct Hc as [Hc _]. rewrite Hc in E. done. }
  assert (i < length (bufs s))%nat as Hlt by (by eapply lookup_lt_Some).
  split; [|split].
  - unfold bread. rewrite (kbind_ok _ _ _ _ _ (bget_hit o s ROOTDEV bn i b Hinv ltac:(by rewrite (pick_holder o s bn Hinv), Hh) Hi Hb Hu)).
    rewrite (kbind_ok _ _ _ (grab s b) _ (getb_eq (set_bufs _ s) i _ ltac:(cbn; by apply list_lookup_insert_eq))).
    replace (negb (flag B_VALID (b_flags (grab s b)))) with false; [done|].
    cbn. by destruct Hcd as [-> | ->].
  - eapply bc_inv_put; [done|done|exact Hb|done|done| |].
    + split; [done|done|]. right. split; [done|]. split; [done|]. split; [done|]. intros _ Hl. done.
    + intros bn' j bj [_ E] Hj Hne Hbj Hcj. apply Hne. apply (bi_uniq _ _ Hinv j i bj b bn' Hj Hi Hbj Hb Hcj). by split.
  - split; [done|done|done| |].
    + cbn. unfold bview. by rewrite Hh.
    + exists b. split; [done|]. split; [done|]. by left.
Qed.

Definition fresh_buf (s : bcache) (bn : Z) (b : buf) : buf :=
  mk_buf B_VALID ROOTDEV bn (mk_sleeplock true (mypid s)) 1 (b_prev b) (b_next b) (disk_block s (1, bn)).

Lemma bread_miss_at o s bn i b :
  bc_inv o s -> 0 <= bn < FSSIZE -> holder (bufs s) bn = None -> pick (recyclable (bufs s)) (rev o) = Some i -> spare s i b ->
  bread ROOTDEV bn s = Ok i (set_bufs (<[i := fresh_buf s bn b]> (bufs s)) s) /\
  bc_inv o (set_bufs (<[i := fresh_buf s bn b]> (bufs s)) s) /\ got s bn i (fresh_buf s bn b).
Proof.
  intros Hinv Hbn Hh Ep (Hi & Hb & Hu & Hd).
  assert (i < length (bufs s))%nat as Hlt by (by eapply lookup_lt_Some).
  set (b1 := grab s (set_flags 0 (set_block ROOTDEV bn b))).
  set (s1 := set_bufs (<[i := b1]> (bufs s)) s).
  assert (bufs s1 !! i = Some b1) as Hb1 by (by apply list_lookup_insert_eq).
  split; [|split].
  - unfold bread. rewrite (kbind_ok _ _ _ _ _ (bget_miss o s ROOTDEV bn i b Hinv ltac:(by rewrite (pick_holder o s bn Hinv), Hh) Ep Hi Hb Hu)).
    fold b1 s1. rewrite (kbind_ok _ _ _ _ _ (getb_eq _ _ _ Hb1)).
    cbn [b_flags b1 grab set_lock set_refcnt set_flags]. change (negb (flag B_VALID 0)) with true. cbv iota.
    assert (iderw i s1 = Ok tt (set_bufs (<[i := fresh_buf s bn b]> (bufs s)) s)) as E.
    { unfold iderw. rewrite (kbind_ok _ _ _ _ _ (getb_eq _ _ _ Hb1)). unfold kbind at 1, kget. cbv beta iota.
      replace (holdingsleep (mypid s1) (b_lock b1)) with true by (cbn; by rewrite Z.eqb_refl). cbn [negb].
      change (Z.land (b_flags b1) (Z.lor B_VALID B_DIRTY) =? B_VALID) with false. cbv iota.
      change (havedisk1 s1) with (havedisk1 s). rewrite (proj1 (bi_disk _ _ Hinv)), andb_false_r.
      change (b_blockno b1) with bn. rewrite (proj2 (Z.leb_gt _ _)) by lia.
      change (flag B_DIRTY (b_flags b1)) with false. cbv zeta iota.
      rewrite (kbind_ok _ _ _ _ _ (putb_eq _ _ _ _ Hb1)).
      rewrite (putb_eq _ i (set_data (disk_block s (1, bn)) b1)).
      - f_equal. unfold s1. rewrite !set_bufs_twice, !bufs_set, !list_insert_insert_eq. done.
      - cbn. rewrite list_lookup_insert_eq; [done|]. by rewrite length_insert. }
    by rewrite (kbind_ok _ _ _ _ _ E).
  - eapply bc_inv_put; [done|done|exact Hb|done|done| |].
    + split; [cbn; apply (bi_disk _ _ Hinv)|done|]. right. split; [done|]. split; [done|]. split; [by left|]. done.
    + intros bn' j bj [_ E] Hj Hne Hbj Hcj. cbn in E. subst bn'. by destruct (holder_None _ _ _ _ Hh Hj Hbj).
  - split; [done|done|done| |].
    + cbn. unfold bview. by rewrite Hh.
    + exists b. split; [done|]. split; [done|]. by right.
Qed.

Lemma bread_miss_spec o s bn :
  bc_inv o s -> 0 <= bn < FSSIZE -> holder (bufs s) bn = None -> (exists i b, spare s i b) ->
  exists i b, spare s i b /\
    bread ROOTDEV bn s = Ok i (set_bufs (<[i := fresh_buf s bn b]> (bufs s)) s) /\
    bc_inv o (set_bufs (<[i := fresh_buf s bn b]> (bufs s)) s) /\ got s bn i (fresh_buf s bn b).
Proof.
  intros Hinv Hbn Hh (i0 & b0 & Hs0). pose proof (pick_spare o s Hinv) as Hps.
  destruct (pick _ (rev o)) as [i|] eqn:Ep; [|by destruct (Hps i0 b0)].
  destruct Hps as (b & Hsp). exists i, b. split; [done|]. by apply bread_miss_at.
Qed.

(** ** Link updates *)

Definition strip (b : buf) : buf := set_prev 0 (set_next 0 b).
(** Two arrays that differ in their links only. *)
Definition same_bufs (bs bs' : list buf) : Prop := strip <$> bs' = strip <$> bs.

Lemma same_bufs_alter bs j f : (forall b, strip (f b) = strip b) -> same_bufs bs (alter f j bs).
Proof.
  intros Hf. apply list_eq. intros k. rewrite !list_lookup_fmap. destruct (decide (j = k)) as [<-|].
  - rewrite list_lookup_alter_eq. destruct (bs !! j); simpl; by rewrite ?Hf.
  - by rewrite list_lookup_alter_ne.
Qed.

Lemma same_bufs_trans bs1 bs2 bs3 : same_bufs bs1 bs2 -> same_bufs bs2 bs3 -> same_bufs bs1 bs3.
Proof. unfold same_bufs. congruence. Qed.

Lemma putb_alter s j f : (j < length (bufs s))%nat -> putb j f s = Ok tt (set_bufs (alter f j (bufs s)) s).
Proof.
  intros Hj. destruct (lookup_lt_is_Some_2 _ _ Hj) as [b Hb]. rewrite (putb_eq _ _ _ _ Hb).
  do 2 f_equal. apply list_eq. intros k. destruct (decide (j = k)) as [<-|Hk].
  - rewrite list_lookup_insert_eq, list_lookup_alter_eq by done. by rewrite Hb.
  - by rewrite list_lookup_insert_ne, list_lookup_alter_ne.
Qed.

Lemma getb_nx s j : (j < length (bufs s))%nat ->
  exists b, getb j s = Ok b s /\ b_next b = nx (bufs s) j /\ b_prev b = pv (bufs s) j.
Proof.
  intros Hj. destruct (lookup_lt_is_Some_2 _ _ Hj) as [b Hb]. exists b. rewrite (getb_eq _ _ _ Hb).
  unfold nx, pv. by rewrite Hb.
Qed.

Lemma nx_set_next bs j v k : (j < length bs)%nat -> nx (alter (set_next v) j bs) k = upd (nx bs) j v k.
Proof.
  intros Hj. unfold nx, upd. case_decide as Hk; [subst|by rewrite list_lookup_alter_ne].
  rewrite list_lookup_alter_eq. destruct (lookup_lt_is_Some_2 _ _ Hj) as [b ->]. done.
Qed.
Lemma pv_set_prev bs j v k : (j < length bs)%nat -> pv (alter (set_prev v) j bs) k = upd (pv bs) j v k.
Proof.
  intros Hj. unfold pv, upd. case_decide as Hk; [subst|by rewrite list_lookup_alter_ne].
  rewrite list_lookup_alter_eq. destruct (lookup_lt_is_Some_2 _ _ Hj) as [b ->]. done.
Qed.
Lemma nx_alter bs j f k : (forall b, b_next (f b) = b_next b) -> nx (alter f j bs) k = nx bs k.
Proof.
  intros Hf. unfold nx. destruct (decide (j = k)) as [<-|]; [|by rewrite list_lookup_alter_ne].
  rewrite list_lookup_alter_eq. destruct (bs !! j); simpl; [apply Hf|done].
Qed.
Lemma pv_alter bs j f k : (forall b, b_prev (f b) = b_prev b) -> pv (alter f j bs) k = pv bs k.
Proof.
  intros Hf. unfold pv. destruct (decide (j = k)) as [<-|]; [|by rewrite list_lookup_alter_ne].
  rewrite list_lookup_alter_eq. destruct (bs !! j); simpl; [apply Hf|done].
Qed.

Lemma upd_ext f g i j : (forall x, f x = g x) -> forall x, upd f i j x = upd g i j x.
Proof. intros H x. unfold upd. by case_decide. Qed.

Lemma ring_pointwise f g f' g' h l :
  (forall x, f' x = f x) -> (forall x, g' x = g x) -> ring f g h l -> ring f' g' h l.
Proof. intros Hf Hg [Hs Hn]. split; [|done]. by eapply seg_ext; [intros; apply Hf|intros; apply Hg|]. Qed.

(** [brelse]'s unlinking of a buffer on the list. *)
Lemma unlink_spec s o1 i o2 b :
  ring (nx (bufs s)) (pv (bufs s)) HEAD (o1 ++ i :: o2) -> length (bufs s) = S NBUF ->
  Forall (fun j => j < NBUF)%nat (o1 ++ i :: o2) -> bufs s !! i = Some b ->
  exists bs, (putb (b_next b) (set_prev (b_prev b)) ;;;
    b <- getb i ;; putb (b_prev b) (set_next (b_next b))) s = Ok tt (set_bufs bs s) /\
    same_bufs (bufs s) bs /\ ring (nx bs) (pv bs) HEAD (o1 ++ o2).
Proof.
  intros Hr Hl Ho Hb. pose proof (ring_unlink _ _ _ _ _ _ Hr) as Hr'.
  assert (b_next b = nx (bufs s) i) as En by (unfold nx; by rewrite Hb).
  assert (b_prev b = pv (bufs s) i) as Ep by (unfold pv; by rewrite Hb). rewrite En, Ep.
  destruct Hr as [Hs Hnd]. pose proof Hs as Hs'. apply seg_app in Hs' as [H1 H2].
  pose proof (seg_first _ _ _ _ _ H2) as Enx. pose proof (seg_final _ _ _ _ _ H1) as Epv.
  rewrite list.Forall_app, list.Forall_cons, !list.Forall_forall in Ho. destruct Ho as (Ho1 & Hi & Ho2).
  apply list.NoDup_cons in Hnd as [Hh Hnd]. rewrite elem_of_app, elem_of_cons in Hh.
  apply list.NoDup_app in Hnd as (_ & Hd & Hnd). apply list.NoDup_cons in Hnd as [Hi2 _].
  assert (nx (bufs s) i < S NBUF /\ nx (bufs s) i <> i)%nat as [Hn1 Hn2].
  { rewrite Enx. destruct (first_in o2 HEAD) as [->|Hin].
    - split; [unfold HEAD; lia|]. intros E. apply Hh. right. left. by rewrite E.
    - split; [specialize (Ho2 _ Hin); lia|]. intros E. by rewrite E in Hin. }
  assert (pv (bufs s) i < S NBUF)%nat as Hp1.
  { rewrite Epv. destruct (final_in HEAD o1) as [->|Hin]; [unfold HEAD; lia|]. specialize (Ho1 _ Hin). lia. }
  set (n := nx (bufs s) i) in *. set (p := pv (bufs s) i) in *.
  exists (alter (set_next n) p (alter (set_prev p) n (bufs s))). split; [|split].
  - rewrite (kbind_ok _ _ _ _ _ (putb_alter s n _ ltac:(lia))).
    set (s1 := set_bufs _ s).
    assert (bufs s1 !! i = Some b) as Hb1 by (cbn; by rewrite list_lookup_alter_ne).
    rewrite (kbind_ok _ _ _ _ _ (getb_eq _ _ _ Hb1)). rewrite Ep, En.
    apply (putb_alter s1 p). cbn. rewrite length_alter. lia.
  - eapply same_bufs_trans; apply same_bufs_alter; done.
  - eapply ring_pointwise; [| |exact Hr']; intros x.
    + rewrite nx_set_next by (rewrite length_alter; lia). apply upd_ext. intros y. by apply nx_alter.
    + rewrite pv_alter by done. apply pv_set_prev. lia.
Qed.

(** Insertion behind the sentinel. *)
Lemma link_front_spec s o i :
  ring (nx (bufs s)) (pv (bufs s)) HEAD o -> length (bufs s) = S NBUF ->
  Forall (fun j => j < NBUF)%nat o -> (i < NBUF)%nat -> i ∉ o ->
  exists bs, link_front i s = Ok tt (set_bufs bs s) /\ same_bufs (bufs s) bs /\ ring (nx bs) (pv bs) HEAD (i :: o).
Proof.
  intros Hr Hl Ho Hi Hio.
  assert (i <> HEAD) as Hih by (unfold HEAD; lia).
  pose proof (ring_insert _ _ _ _ i Hr ltac:(by rewrite not_elem_of_cons)) as Hr'.
  destruct Hr as [Hs _]. pose proof (seg_first _ _ _ _ _ Hs) as En. set (n := nx (bufs s) HEAD) in *.
  assert (n < S NBUF)%nat as Hn.
  { rewrite En. destruct (first_in o HEAD) as [->|Hin]; [unfold HEAD; lia|].
    rewrite list.Forall_forall in Ho. specialize (Ho _ Hin). lia. }
  set (bs1 := alter (set_next n) i (bufs s)). set (bs2 := alter (set_prev HEAD) i bs1).
  set (bs3 := alter (set_prev i) n bs2).
  assert (length bs1 = S NBUF /\ length bs2 = S NBUF /\ length bs3 = S NBUF) as (L1 & L2 & L3).
  { unfold bs3, bs2, bs1. by rewrite !length_alter. }
  assert (nx bs2 HEAD = n) as E2.
  { unfold bs2, bs1. rewrite nx_alter by done. rewrite nx_set_next by lia. by rewrite upd_ne. }
  exists (alter (set_next i) HEAD bs3). split; [|split].
  - unfold link_front. assert (HEAD < length (bufs s))%nat as HH by (rewrite Hl; unfold HEAD; lia).
    destruct (getb_nx s HEAD HH) as (h & Eh & Enh & _). rewrite (kbind_ok _ _ _ _ _ Eh), Enh. fold n.
    rewrite (kbind_ok _ _ _ _ _ (putb_alter s i _ ltac:(lia))). fold bs1.
    rewrite (kbind_ok _ _ _ _ _ (putb_alter (set_bufs bs1 s) i _ ltac:(cbn; lia))). rewrite set_bufs_twice, bufs_set. fold bs2.
    assert (HEAD < length (bufs (set_bufs bs2 s)))%nat as HH2 by (cbn; rewrite L2; unfold HEAD; lia).
    destruct (getb_nx (set_bufs bs2 s) HEAD HH2) as (h2 & Eh2 & Enh2 & _).
    rewrite (kbind_ok _ _ _ _ _ Eh2), Enh2. cbn [bufs set_bufs] in E2 |- *. rewrite E2.
    rewrite (kbind_ok _ _ _ _ _ (putb_alter (set_bufs bs2 s) n _ ltac:(cbn; lia))).
    rewrite (putb_alter _ HEAD); [done|]. cbn. rewrite length_alter, L2. unfold HEAD. lia.
  - do 3 (eapply same_bufs_trans; [|apply same_bufs_alter; done]). by apply same_bufs_alter.
  - eapply ring_pointwise; [| |exact Hr']; intros x.
    + rewrite nx_set_next by (rewrite L3; unfold HEAD; lia). apply upd_ext. intros y.
      unfold bs3, bs2. rewrite !nx_alter by done. apply nx_set_next. lia.
    + rewrite pv_alter by done. unfold bs3. rewrite pv_set_prev by lia. apply upd_ext. intros y.
      unfold bs2. rewrite pv_set_prev by lia. apply upd_ext. intros z. unfold bs1. by apply pv_alter.
Qed.

Lemma same_bufs_lookup bs bs' j b' : same_bufs bs bs' -> bs' !! j = Some b' ->
  exists b, bs !! j = Some b /\ strip b' = strip b.
Proof.
  intros H Hb. assert ((strip <$> bs') !! j = Some (strip b')) as E by (by rewrite list_lookup_fmap, Hb).
  rewrite H, list_lookup_fmap in E. destruct (bs !! j) as [b|]; [|done]. exists b. simpl in E. split; [done|congruence].
Qed.

Lemma same_bufs_sym bs bs' : same_bufs bs bs' -> same_bufs bs' bs.
Proof. done. Qed.

Lemma strip_fields b b' : strip b' = strip b ->
  b_flags b' = b_flags b /\ b_dev b' = b_dev b /\ b_blockno b' = b_blockno b /\ b_lock b' = b_lock b /\
  b_refcnt b' = b_refcnt b /\ b_data b' = b_data b.
Proof. destruct b, b'. unfold strip. cbn. by intros [= -> -> -> -> -> ->]. Qed.

Lemma buf_ok_strip s b b' : strip b' = strip b -> buf_ok s b -> buf_ok s b'.
Proof.
  intros (E1 & E2 & E3 & E4 & E5 & E6)%strip_fields [H1 H2 H3]. unfold clean, dirty, unlocked in *.
  split; unfold clean, dirty, unlocked; by rewrite ?E1, ?E2, ?E3, ?E4, ?E5, ?E6.
Qed.

Lemma caches_strip bn b b' : strip b' = strip b -> caches bn b' -> caches bn b.
Proof. intros (E1 & E2 & E3 & _)%strip_fields. unfold caches. by rewrite E2, E3. Qed.

Lemma bc_inv_links o o' s bs :
  bc_inv o s -> same_bufs (bufs s) bs -> ring (nx bs) (pv bs) HEAD o' -> o' ≡ₚ o -> bc_inv o' (set_bufs bs s).
Proof.
  intros [Hl Hr Ho Hb Hu Hlk Hd] Hsame Hr' Hp. split; cbn [bufs set_bufs]; try done.
  - rewrite <- Hl. apply (f_equal length) in Hsame. by rewrite !length_fmap in Hsame.
  - by rewrite Hp.
  - intros i b' Hi Hb'. destruct (same_bufs_lookup _ _ _ _ Hsame Hb') as (b & Hbi & E).
    apply (buf_ok_disk s); [done|]. eapply buf_ok_strip; [exact E|]. by apply (Hb i).
  - intros i j bi' bj' bn Hi Hj Hbi' Hbj' Hci Hcj.
    destruct (same_bufs_lookup _ _ _ _ Hsame Hbi') as (bi & Hbi & Ei).
    destruct (same_bufs_lookup _ _ _ _ Hsame Hbj') as (bj & Hbj & Ej).
    apply (Hu i j bi bj bn); try done; by eapply caches_strip.
Qed.

(** Held by the running process. *)
Definition mine (s : bcache) (b : buf) : Prop := b_lock b = mk_sleeplock true (mypid s).

Lemma mine_holding s b : mine s b -> holdingsleep (mypid s) (b_lock b) = true.
Proof. intros ->. cbn. by rewrite Z.eqb_refl. Qed.

Definition freed_buf (b : buf) : buf := set_refcnt 0 (set_lock (mk_sleeplock false 0) b).

Lemma brelse_spec o s i b bn :
  bc_inv o s -> (i < NBUF)%nat -> bufs s !! i = Some b -> caches bn b -> mine s b ->
  dirty b \/ b_data b = disk_block s (1, bn) ->
  exists o1 o2 bs, o = o1 ++ i :: o2 /\ brelse i s = Ok tt (set_bufs bs s) /\
    bc_inv (i :: o1 ++ o2) (set_bufs bs s) /\ same_bufs (<[i := freed_buf b]> (bufs s)) bs.
Proof.
  intros Hinv Hi Hb Hc Hm Hcl.
  destruct (list_elem_of_split o i) as (o1 & o2 & Eo); [by apply (in_order _ _ _ Hinv)|].
  assert (i < length (bufs s))%nat as Hlt by (by eapply lookup_lt_Some).
  pose proof (bi_bufs _ _ Hinv i b Hi Hb) as Hok. pose proof Hok as [Hda Href Hst]. rewrite Hm in Href. simpl in Href.
  assert (bc_inv o (set_bufs (<[i := freed_buf b]> (bufs s)) s)) as Hinv2.
  { eapply bc_inv_put; [done|done|exact Hb|done|done| |].
    - split; [done|done|]. destruct Hc as [Hc1 Hc2].
      destruct Hst as [(E & _)|(H1 & H2 & H3 & H4)]; [by rewrite Hc1 in E|]. right. split; [done|]. split; [done|].
      split; [done|]. intros Hcl' _. destruct Hcl as [Hd|E]; [|cbn; by rewrite Hc2].
      unfold clean, dirty in *. cbn in *. rewrite Hd in Hcl'. done.
    - intros bn' j bj [_ E] Hj Hne Hbj Hcj. apply Hne. apply (bi_uniq _ _ Hinv j i bj b bn' Hj Hi Hbj Hb Hcj).
      split; [apply Hc|exact E]. }
  set (s2 := set_bufs (<[i := freed_buf b]> (bufs s)) s) in *.
  assert (bufs s2 !! i = Some (freed_buf b)) as Hb2 by (by apply list_lookup_insert_eq).
  set (s3 := set_bc_locks ({["bcache"]} ∪ bc_locks s) s2).
  pose proof (bi_ring _ _ Hinv2) as Hr2. rewrite Eo in Hr2.
  assert (Forall (fun j => j < NBUF)%nat (o1 ++ i :: o2)) as Hall.
  { apply list.Forall_forall. intros j Hj. apply (in_order _ _ _ Hinv). by rewrite Eo. }
  destruct (unlink_spec s3 o1 i o2 (freed_buf b) Hr2 (bi_len _ _ Hinv2) Hall Hb2) as (bs3 & E3 & Hs3 & Hr3).
  pose proof Hr2 as [_ Hnd]. apply list.NoDup_cons in Hnd as [_ Hnd].
  assert (i ∉ o1 ++ o2) as Hni.
  { rewrite <- Permutation_middle in Hnd. by apply list.NoDup_cons in Hnd as [? _]. }
  assert (length bs3 = S NBUF) as Hl3.
  { rewrite <- (bi_len _ _ Hinv2). apply (f_equal length) in Hs3. by rewrite !length_fmap in Hs3. }
  assert (Forall (fun j => j < NBUF)%nat (o1 ++ o2)) as Hall2.
  { rewrite list.Forall_app, list.Forall_cons in Hall. rewrite list.Forall_app. tauto. }
  destruct (link_front_spec (set_bufs bs3 s3) (o1 ++ o2) i Hr3 Hl3 Hall2 Hi Hni) as (bs4 & E4 & Hs4 & Hr4).
  assert (same_bufs (bufs s2) bs4) as Hs by (by eapply same_bufs_trans).
  exists o1, o2, bs4. split; [done|]. split; [|split; [|done]].
  - unfold brelse. rewrite (kbind_ok _ _ _ _ _ (getb_eq _ _ _ Hb)). unfold kbind at 1, gets. cbv beta iota.
    rewrite (mine_holding _ _ Hm). cbn [negb].
    rewrite (kbind_ok _ _ _ _ _ (putb_eq _ _ _ _ Hb)).
    rewrite (kbind_ok _ _ _ _ _ (bc_acquire (set_bufs _ s) (bi_lock _ _ Hinv))).
    rewrite (kbind_ok _ _ _ _ _ (putb_eq (set_bc_locks _ (set_bufs _ s)) i _ _ (list_lookup_insert_eq _ _ _ Hlt))).
    match goal with |- kbind _ _ ?st = _ => assert (st = s3) as -> end.
    { unfold s3, s2, set_bufs, set_bc_locks, freed_buf. cbn. rewrite list_insert_insert_eq, Href. done. }
    rewrite (kbind_ok _ _ _ _ _ (getb_eq s3 _ _ Hb2)).
    cbn [b_refcnt freed_buf set_refcnt Z.eqb].
    assert ((putb (b_next (freed_buf b)) (set_prev (b_prev (freed_buf b)));;;
       b0 <- getb i;; putb (b_prev b0) (set_next (b_next b0));;; link_front i) s3 = Ok tt (set_bufs bs4 s3)) as E.
    { revert E3. unfold kbind. destruct (putb _ _ s3) as [a sa| | | |]; try done.
      destruct (getb i sa) as [ba sb| | | |]; try done. destruct (putb _ _ sb) as [c sc| | | |]; try done.
      intros [= -> ->]. rewrite E4. done. }
    rewrite (kbind_ok _ _ _ _ _ E). apply (bc_release s2). apply (bi_lock _ _ Hinv2).
  - apply (bc_inv_links o _ s2 bs4 Hinv2 Hs Hr4). rewrite Eo. by rewrite <- Permutation_middle.
Qed.

Lemma disk_block_write k d s k' :
  disk_block (disk_write k d s) k' = if decide (k' = k) then d else disk_block s k'.
Proof.
  unfold disk_block, disk_write. cbn. case_decide as E; [subst; by rewrite lookup_insert_eq|].
  by rewrite lookup_insert_ne.
Qed.

Lemma bwrite_spec o s i b bn :
  bc_inv o s -> (i < NBUF)%nat -> bufs s !! i = Some b -> caches bn b -> mine s b ->
  let s' := disk_write (1, bn) (b_data b) (set_bufs (<[i := set_flags B_VALID b]> (bufs s)) s) in
  bwrite i s = Ok tt s' /\ bc_inv o s'.
Proof.
  intros Hinv Hi Hb Hc Hm s'. assert (i < length (bufs s))%nat as Hlt by (by eapply lookup_lt_Some).
  pose proof (bi_bufs _ _ Hinv i b Hi Hb) as [Hda Href Hst]. destruct Hc as [Hc1 Hc2].
  destruct Hst as [(E & _)|(Hdev & Hbn & Hcd & _)]; [by rewrite Hc1 in E|].
  assert (Z.lor (b_flags b) B_DIRTY = 6) as Hfl by (by destruct Hcd as [-> | ->]).
  set (b1 := set_flags 6 b). set (s1 := set_bufs (<[i := b1]> (bufs s)) s).
  assert (bufs s1 !! i = Some b1) as Hb1 by (by apply list_lookup_insert_eq).
  split.
  - unfold bwrite. rewrite (kbind_ok _ _ _ _ _ (getb_eq _ _ _ Hb)). unfold kbind at 1, gets. cbv beta iota.
    rewrite (mine_holding _ _ Hm). cbn [negb]. rewrite (kbind_ok _ _ _ _ _ (putb_eq _ _ _ _ Hb)).
    rewrite Hfl. fold b1 s1. unfold iderw. rewrite (kbind_ok _ _ _ _ _ (getb_eq _ _ _ Hb1)).
    unfold kbind at 1, kget. cbv beta iota.
    change (holdingsleep (mypid s1) (b_lock b1)) with (holdingsleep (mypid s) (b_lock b)).
    rewrite (mine_holding _ _ Hm). cbn [negb].
    change (Z.land (b_flags b1) (Z.lor B_VALID B_DIRTY) =? B_VALID) with false. cbv iota.
    change (havedisk1 s1) with (havedisk1 s). rewrite (proj1 (bi_disk _ _ Hinv)), andb_false_r.
    change (b_blockno b1) with (b_blockno b). rewrite Hc2 in Hbn |- *. rewrite (proj2 (Z.leb_gt _ _)) by lia.
    change (flag B_DIRTY (b_flags b1)) with true. change (b_dev b1) with (b_dev b). rewrite Hc1. cbv zeta iota.
    rewrite (kbind_ok _ _ _ tt (disk_write (1, bn) (b_data b) s1)) by done.
    rewrite (putb_eq _ i b1) by exact Hb1. unfold s', s1, disk_write, set_bufs. cbn. by rewrite list_insert_insert_eq.
  - assert (bc_inv o (set_bufs (<[i := set_flags B_VALID b]> (bufs s)) s)) as [H1 H2 H3 H4 H5 H6 H7].
    { eapply bc_inv_put; [done|done|exact Hb|done|done| |].
      - split; [done|done|]. right. split; [done|]. split; [done|]. split; [by left|].
        intros _ Hu. unfold unlocked in Hu. cbn in Hu. by rewrite Hm in Hu.
      - intros bn' j bj [_ E] Hj Hne Hbj Hcj. apply Hne. apply (bi_uniq _ _ Hinv j i bj b bn' Hj Hi Hbj Hb Hcj). by split. }
    split; try done.
    + intros j bj Hj Hbj. destruct (H4 j bj Hj Hbj) as [K1 K2 K3]. split; [done|done|].
      destruct K3 as [K3|(K3 & K4 & K5 & K6)]; [by left|right]. do 3 (split; [done|]).
      intros Hcl Hu. unfold s'. rewrite disk_block_write. case_decide as E; [|by apply K6].
      injection E as E. exfalso. assert (j = i) as ->.
      { apply (H5 j i bj (set_flags B_VALID b) bn); try done; [by apply list_lookup_insert_eq]. }
      cbn in Hbj. rewrite list_lookup_insert_eq in Hbj by done. injection Hbj as <-.
      unfold unlocked in Hu. cbn in Hu. by rewrite Hm in Hu.
    + split; [apply H7|]. intros k. unfold s'. rewrite disk_block_write. case_decide; [done|]. apply H7.
Qed.

(** ** The cache as its clients see it

    Per block: its current contents, the process that has it locked, and
    whether it is pinned until the log commits it. *)

Definition bowner (s : bcache) (bn : Z) : option Z :=
  match holder (bufs s) bn with
  | Some (_, b) => if sl_locked (b_lock b) then Some (sl_pid (b_lock b)) else None
  | None => None
  end.
Definition bdirty (s : bcache) (bn : Z) : bool :=
  match holder (bufs s) bn with
  | Some (_, b) => flag B_DIRTY (b_flags b)
  | None => false
  end.
Definition bio_ok (s : bcache) : Prop := exists o, bc_inv o s.

(** Buffer [i] holds block [bn], locked by the running process. *)
Definition hbuf (s : bcache) (i : nat) (bn : Z) : Prop :=
  (i < NBUF)%nat /\ exists b, bufs s !! i = Some b /\ caches bn b /\ mine s b.

Record shows (s : bcache) (V : Z -> bytes) (O : Z -> option Z) (D : Z -> bool) : Prop := {
  sh_view : forall bn, bview s bn = V bn;
  sh_owner : forall bn, bowner s bn = O bn;
  sh_dirty : forall bn, bdirty s bn = D bn
}.

Definition same_env (s s' : bcache) : Prop :=
  disk s' = disk s /\ history s' = history s /\ mypid s' = mypid s /\ havedisk1 s' = havedisk1 s /\ bc_locks s' = bc_locks s.

(** Updating the buffer that holds [bn]. *)
Lemma holder_put o s i b b' bn bn' :
  bc_inv o s -> bc_inv o (set_bufs (<[i := b']> (bufs s)) s) -> (i < NBUF)%nat -> bufs s !! i = Some b ->
  caches bn b -> caches bn b' ->
  holder (<[i := b']> (bufs s)) bn' = if decide (bn' = bn) then Some (i, b') else holder (bufs s) bn'.
Proof.
  intros Hinv Hinv' Hi Hb Hc Hc'. assert (i < length (bufs s))%nat as Hlt by (by eapply lookup_lt_Some). case_decide as E.
  - subst bn'. apply (holder_intro o (set_bufs _ s) i b' bn Hinv' Hi); [|done]. by apply list_lookup_insert_eq.
  - destruct (holder (bufs s) bn') as [[j bj]|] eqn:Ej.
    + apply holder_Some in Ej as (Hj & Hbj & Hcj). apply (holder_intro o (set_bufs _ s) j bj bn' Hinv' Hj); [|done].
      cbn. rewrite list_lookup_insert_ne; [done|]. intros <-. rewrite Hb in Hbj. injection Hbj as <-.
      destruct Hc as [_ Hc], Hcj as [_ Hcj]. congruence.
    + destruct (holder (<[i:=b']> (bufs s)) bn') as [[j bj]|] eqn:Ej'; [|done].
      apply holder_Some in Ej' as (Hj & Hbj & Hcj). exfalso. apply list_lookup_insert_Some in Hbj as [(<- & <- & _)|[Hne Hbj]].
      * destruct Hc' as [_ Hc'], Hcj as [_ Hcj]. congruence.
      * by apply (holder_None _ _ _ _ Ej Hj Hbj).
Qed.

Lemma holder_same bs bs' bn : same_bufs bs bs' ->
  match holder bs' bn, holder bs bn with
  | Some (i, b'), Some (j, b) => i = j /\ strip b' = strip b
  | None, None => True
  | _, _ => False
  end.
Proof.
  unfold holder. generalize NBUF. intros n. revert bs bs'. induction n as [|n IH]; intros bs bs' H; [done|].
  destruct bs as [|b bs], bs' as [|b' bs']; try done. unfold same_bufs in H. rewrite !fmap_cons in H.
  assert (strip b' = strip b /\ same_bufs bs bs') as [E H'] by (unfold same_bufs; split; congruence).
  pose proof (strip_fields _ _ E) as (_ & E2 & E3 & _). simpl.
  destruct (decide (b_dev b' = ROOTDEV /\ b_blockno b' = bn)) as [D|D];
    destruct (decide (b_dev b = ROOTDEV /\ b_blockno b = bn)) as [D'|D']; rewrite E2, E3 in D; try done.
  specialize (IH bs bs' H').
  destruct (list_find _ (take n bs')) as [[i c']|]; destruct (list_find _ (take n bs)) as [[j c]|]; simpl; try done.
  destruct IH as [-> ?]. done.
Qed.

(** A lookup through [holder], with a default. *)
Definition via {A} (f : buf -> A) (d : A) (h : option (nat * buf)) : A :=
  match h with Some (_, b) => f b | None => d end.

Definition owner_of (b : buf) : option Z := if sl_locked (b_lock b) then Some (sl_pid (b_lock b)) else None.
Definition dirty_of (b : buf) : bool := flag B_DIRTY (b_flags b).

Lemma shows_intro s V O D :
  (forall bn, via b_data (disk_block s (1, bn)) (holder (bufs s) bn) = V bn /\
     via owner_of None (holder (bufs s) bn) = O bn /\ via dirty_of false (holder (bufs s) bn) = D bn) ->
  shows s V O D.
Proof. intros H. split; intros bn; destruct (H bn) as (H1 & H2 & H3); done. Qed.

Lemma shows_elim s V O D bn : shows s V O D ->
  via b_data (disk_block s (1, bn)) (holder (bufs s) bn) = V bn /\
  via owner_of None (holder (bufs s) bn) = O bn /\ via dirty_of false (holder (bufs s) bn) = D bn.
Proof. intros [H1 H2 H3]. split; [apply H1|]. split; [apply H2|apply H3]. Qed.

(** The effect on the client's view of updating the buffer that holds [bn]. *)
Lemma shows_put o s i b b' bn V O D :
  bc_inv o s -> bc_inv o (set_bufs (<[i := b']> (bufs s)) s) -> (i < NBUF)%nat -> bufs s !! i = Some b ->
  caches bn b -> caches bn b' -> shows s V O D ->
  shows (set_bufs (<[i := b']> (bufs s)) s)
    (zupd V bn (b_data b')) (zupd O bn (owner_of b')) (zupd D bn (dirty_of b')).
Proof.
  intros Hinv Hinv' Hi Hb Hc Hc' Hsh. apply shows_intro. intros bn'. cbn [bufs set_bufs].
  rewrite (holder_put o s i b b' bn bn' Hinv Hinv' Hi Hb Hc Hc'). unfold zupd. case_decide; [done|].
  exact (shows_elim _ _ _ _ bn' Hsh).
Qed.

Lemma shows_ext s V O D V' O' D' :
  (forall bn, V' bn = V bn) -> (forall bn, O' bn = O bn) -> (forall bn, D' bn = D bn) -> shows s V O D -> shows s V' O' D'.
Proof. intros HV HO HD [H1 H2 H3]. split; intros; [rewrite HV|rewrite HO|rewrite HD]; auto. Qed.

(** There is a buffer for block [bn]. *)
Definition room (s : bcache) (bn : Z) : Prop :=
  is_Some (holder (bufs s) bn) \/ exists i b, spare s i b.

(** Buffers that are locked or pinned hold distinct blocks, so there is room
    as long as fewer than [NBUF] blocks are. *)
Lemma room_count s V O D X bn :
  bio_ok s -> shows s V O D -> (forall bn', O bn' <> None \/ D bn' = true -> bn' ∈ X) -> (length X < NBUF)%nat ->
  room s bn.
Proof.
  intros [o Hinv] Hsh HX Hlen. right.
  assert (forall n, (n <= NBUF)%nat -> (exists i b, spare s i b) \/
    exists Y, length Y = n /\ NoDup Y /\ forall y, y ∈ Y -> y ∈ X /\ exists i b, (i < n)%nat /\ bufs s !! i = Some b /\ caches y b)
    as Hind.
  { induction n as [|n IH]; intros Hn; [right; exists []; split; [done|]; split; [constructor|by intros y ?%elem_of_nil]|].
    destruct IH as [?|(Y & HY & Hnd & Hin)]; [lia|by left|].
    destruct (lookup_buf s n (bi_len _ _ Hinv)) as [b Hb]; [lia|].
    pose proof (bi_bufs _ _ Hinv n b ltac:(lia) Hb) as [_ _ Hst].
    destruct Hst as [(Hd & Hf & Hu)|(Hdev & Hbn & Hcd & _)].
    { left. exists n, b. split; [lia|]. split; [done|]. split; [done|]. unfold dirty. by rewrite Hf. }
    assert (holder (bufs s) (b_blockno b) = Some (n, b)) as Hh by (apply (holder_intro o); [done|lia|done|done]).
    destruct (shows_elim _ _ _ _ (b_blockno b) Hsh) as (_ & EO & ED). rewrite Hh in EO, ED. simpl in EO, ED.
    destruct (decide (b_blockno b ∈ X)) as [HbX|HbX].
    - right. exists (b_blockno b :: Y). simpl. split; [lia|]. split.
      + apply list.NoDup_cons. split; [|done]. intros HbY. destruct (Hin _ HbY) as (_ & j & bj & Hj & Hbj & Hcj).
        assert (j = n); [|lia]. apply (bi_uniq _ _ Hinv j n bj b (b_blockno b)); try done; lia.
      + intros y [->|Hy]%elem_of_cons; [split; [done|]; exists n, b; split; [lia|done]|].
        destruct (Hin y Hy) as (? & j & bj & Hj & ?). split; [done|]. exists j, bj. split; [lia|done].
    - left. exists n, b. split; [lia|]. split; [done|]. specialize (HX (b_blockno b)).
      destruct (sl_locked (b_lock b)) eqn:El.
      { exfalso. apply HbX, HX. left. rewrite <- EO. unfold owner_of. by rewrite El. }
      split; [done|]. intros Hdd. apply HbX, HX. right. rewrite <- ED. unfold dirty_of. unfold dirty in Hdd. by rewrite Hdd. }
  destruct (Hind NBUF (le_n _)) as [?|(Y & HY & Hnd & Hin)]; [done|]. exfalso.
  assert (Y ⊆+ X) as Hsub by (apply NoDup_submseteq; [done|]; intros y Hy; by apply Hin).
  apply submseteq_length in Hsub. lia.
Qed.

Lemma bread_wp s V O D bn :
  bio_ok s -> shows s V O D -> 0 <= bn < FSSIZE -> O bn = None -> room s bn ->
  wp (bread ROOTDEV bn) (fun i s' => bio_ok s' /\ shows s' V (zupd O bn (Some (mypid s))) D /\ same_env s s' /\
    hbuf s' i bn /\ forall j bn', hbuf s j bn' -> j <> i /\ hbuf s' j bn') s.
Proof.
  intros [o Hinv] Hsh Hbn HO Hroom.
  assert (forall i b', got s bn i b' -> bc_inv o (set_bufs (<[i := b']> (bufs s)) s) ->
    let s' := set_bufs (<[i := b']> (bufs s)) s in
    hbuf s' i bn /\ forall j bn', hbuf s j bn' -> j <> i /\ hbuf s' j bn') as Hhb.
  { intros i b' [Hi Hc Hl Hd (b & Hb & Hu & Hcase)] Hinv' s'. assert (i < length (bufs s))%nat by (by eapply lookup_lt_Some).
    split; [split; [done|]; exists b'; split; [by apply list_lookup_insert_eq|done]|].
    intros j bn' [Hj (bj & Hbj & Hcj & Hmj)].
    assert (j <> i) as Hji. { intros ->. rewrite Hb in Hbj. injection Hbj as <-. unfold unlocked in Hu. by rewrite Hmj in Hu. }
    split; [done|]. split; [done|]. exists bj. split; [cbn; by rewrite list_lookup_insert_ne|done]. }
  destruct (holder (bufs s) bn) as [[i b]|] eqn:Hh.
  - assert (unlocked b) as Hu.
    { destruct (shows_elim _ _ _ _ bn Hsh) as (_ & EO & _). rewrite Hh, HO in EO. simpl in EO. unfold owner_of in EO.
      unfold unlocked. by destruct (sl_locked (b_lock b)). }
    destruct (bread_hit_spec o s bn i b Hinv Hh Hu) as (E & Hinv' & Hg). eapply wp_eq; [exact E|].
    split; [by exists o|]. split; [|split; [done|by apply Hhb]].
    apply holder_Some in Hh as (Hi & Hb & Hc). destruct (shows_elim _ _ _ _ bn Hsh) as (EV & _ & ED).
    eapply shows_ext; [| | |eapply (shows_put o s i b (grab s b) bn V O D); try done].
    + intros bn'. apply zupd_self. destruct Hg as [_ _ _ Hd _]. rewrite Hd. symmetry. apply Hsh.
    + done.
    + intros bn'. apply zupd_self. rewrite <- ED. by rewrite (holder_intro o s i b bn Hinv Hi Hb Hc).
  - destruct Hroom as [[? ?]|Hsp]; [congruence|].
    destruct (bread_miss_spec o s bn Hinv Hbn Hh Hsp) as (i & b & (Hi & Hb & Hu & Hnd) & E & Hinv' & Hg).
    eapply wp_eq; [exact E|]. split; [by exists o|]. split; [|split; [done|by apply Hhb]].
    set (b' := fresh_buf s bn b) in *. apply shows_intro. intros bn'. cbn [bufs set_bufs].
    assert (i < length (bufs s))%nat as Hlt by (by eapply lookup_lt_Some).
    destruct (decide (bn' = bn)) as [->|Hne].
    { pose proof (holder_intro o (set_bufs _ s) i b' bn Hinv' Hi ltac:(by apply list_lookup_insert_eq) ltac:(done)) as Eh.
      cbn [bufs set_bufs] in Eh. rewrite Eh.
      destruct (shows_elim _ _ _ _ bn Hsh) as (EV & _ & ED). rewrite Hh in EV, ED. simpl in *.
      unfold zupd. rewrite decide_True by done. split; [done|]. split; [done|]. by rewrite <- ED. }
    destruct (shows_elim _ _ _ _ bn' Hsh) as (EV & EO & ED). unfold zupd. rewrite decide_False by done.
    rewrite <- EV, <- EO, <- ED. change (disk_block (set_bufs _ s) (1, bn')) with (disk_block s (1, bn')).
    destruct (holder (<[i:=b']> (bufs s)) bn') as [[j bj]|] eqn:Ej.
    + apply holder_Some in Ej as (Hj & Hbj & Hcj). apply list_lookup_insert_Some in Hbj as [(<- & <- & _)|[Hij Hbj]].
      { destruct Hcj as [_ Hcj]. cbn in Hcj. congruence. }
      by rewrite (holder_intro o s j bj bn' Hinv Hj Hbj Hcj).
    + destruct (holder (bufs s) bn') as [[j bj]|] eqn:Ej'; [|done].
      apply holder_Some in Ej' as (Hj & Hbj & Hcj).
      destruct (decide (j = i)) as [->|Hji].
      * rewrite Hb in Hbj. injection Hbj as <-. destruct (bi_bufs _ _ Hinv i b Hi Hb) as [_ _ Hst].
        destruct Hcj as [Hc1 Hc2]. destruct Hst as [(E0 & _)|(_ & _ & [Hcl|?] & Hdata)]; [by rewrite Hc1 in E0| |done].
        simpl. rewrite (Hdata Hcl Hu), Hc2. split; [done|]. unfold owner_of, dirty_of. unfold unlocked in Hu. rewrite Hu.
        unfold clean in Hcl. by rewrite Hcl.
      * exfalso. apply (holder_None _ _ _ bj Ej Hj); [|done]. by rewrite list_lookup_insert_ne.
Qed.

Lemma owner_mine s b : mine s b -> owner_of b = Some (mypid s).
Proof. unfold mine, owner_of. by intros ->. Qed.

Lemma hbuf_owner s V O D i bn : bio_ok s -> shows s V O D -> hbuf s i bn -> O bn = Some (mypid s) /\
  exists b, bufs s !! i = Some b /\ caches bn b /\ mine s b /\ b_data b = V bn /\ dirty_of b = D bn.
Proof.
  intros [o Hinv] Hsh [Hi (b & Hb & Hc & Hm)]. destruct (shows_elim _ _ _ _ bn Hsh) as (EV & EO & ED).
  rewrite (holder_intro o s i b bn Hinv Hi Hb Hc) in EV, EO, ED. simpl in *. split.
  - rewrite <- EO. by apply owner_mine.
  - exists b. by rewrite EV, ED.
Qed.

Lemma dirty_of_dirty o s i b bn : bc_inv o s -> (i < NBUF)%nat -> bufs s !! i = Some b -> caches bn b ->
  dirty_of b = true -> dirty b.
Proof.
  intros Hinv Hi Hb [Hc _] Hd. destruct (bi_bufs _ _ Hinv i b Hi Hb) as [_ _ [(E & _)|(_ & _ & [Hcl|?] & _)]]; [|
    unfold dirty_of in Hd; unfold clean in Hcl; by rewrite Hcl in Hd|done]. by rewrite Hc in E.
Qed.

(** A buffer other than [i] that the process holds is still held after an
    update of buffer [i]. *)
Lemma hbuf_put s i b' j bn : hbuf s j bn -> j <> i -> hbuf (set_bufs (<[i := b']> (bufs s)) s) j bn.
Proof.
  intros [Hj (b & Hb & Hc & Hm)] Hne. split; [done|]. exists b. split; [|done].
  cbn. by rewrite list_lookup_insert_ne.
Qed.

Lemma hbuf_put_self s i b b' bn :
  (i < NBUF)%nat -> bufs s !! i = Some b -> caches bn b' -> mine s b' -> hbuf (set_bufs (<[i := b']> (bufs s)) s) i bn.
Proof.
  intros Hi Hb Hc Hm. split; [done|]. exists b'. split; [|done]. apply list_lookup_insert_eq. by eapply lookup_lt_Some.
Qed.

Lemma hbuf_uniq s i j bn bn' : bio_ok s -> hbuf s i bn -> hbuf s j bn' -> i = j <-> bn = bn'.
Proof.
  intros [o Hinv] [Hi (b & Hb & Hc & _)] [Hj (c & Hc' & Hcc & _)]. split.
  - intros ->. rewrite Hb in Hc'. injection Hc' as <-. destruct Hc, Hcc. congruence.
  - intros ->. by apply (bi_uniq _ _ Hinv i j b c bn').
Qed.

Lemma bdata_eq s V O D i bn : bio_ok s -> shows s V O D -> hbuf s i bn -> bdata i s = Ok (V bn) s.
Proof.
  intros Hok Hsh Hh. destruct (hbuf_owner _ _ _ _ _ _ Hok Hsh Hh) as (_ & b & Hb & _ & _ & <- & _).
  unfold bdata. by rewrite (kbind_ok _ _ _ _ _ (getb_eq _ _ _ Hb)).
Qed.

Lemma bset_wp s V O D i bn d :
  bio_ok s -> shows s V O D -> hbuf s i bn -> is_block d ->
  wp (bset i d) (fun _ s' => bio_ok s' /\ shows s' (zupd V bn d) O D /\ same_env s s' /\
    forall j bn', hbuf s j bn' -> hbuf s' j bn') s.
Proof.
  intros Hok Hsh Hh Hd. destruct (hbuf_owner _ _ _ _ _ _ Hok Hsh Hh) as (HO & b & Hb & Hc & Hm & HV & HD).
  destruct Hok as [o Hinv]. pose proof Hh as [Hi _].
  assert (bc_inv o (set_bufs (<[i := set_data d b]> (bufs s)) s)) as Hinv'.
  { eapply bc_inv_put; [done|done|exact Hb|done|done| |].
    - destruct (bi_bufs _ _ Hinv i b Hi Hb) as [_ Hr Hst]. split; [done|done|].
      destruct Hst as [?|(H1 & H2 & H3 & H4)]; [by left|right]. do 3 (split; [done|]).
      intros _ Hu. unfold unlocked in Hu. cbn in Hu. by rewrite Hm in Hu.
    - intros bn' j bj [_ E] Hj Hne Hbj Hcj. apply Hne. apply (bi_uniq _ _ Hinv j i bj b bn' Hj Hi Hbj Hb Hcj).
      split; [apply Hc|exact E]. }
  eapply wp_eq; [apply (putb_eq _ _ _ _ Hb)|]. split; [by exists o|]. split; [|split; [done|]].
  - eapply shows_ext; [| | |eapply (shows_put o s i b (set_data d b) bn V O D); try done].
    + done.
    + apply zupd_self. rewrite HO. symmetry. by apply owner_mine.
    + apply zupd_self. by rewrite <- HD.
  - intros j bn' Hj. destruct (decide (j = i)) as [->|Hne]; [|by apply hbuf_put].
    eapply hbuf_put_self; [done|exact Hb| |done].
    assert (bn = bn') as <- by (by apply (hbuf_uniq s i i bn bn' (ex_intro _ o Hinv))). done.
Qed.

(** [b->flags |= B_DIRTY]. *)
Definition pin (i : nat) : M bcache unit := putb i (fun b => set_flags (Z.lor (b_flags b) B_DIRTY) b).

Lemma pin_wp s V O D i bn :
  bio_ok s -> shows s V O D -> hbuf s i bn ->
  wp (pin i) (fun _ s' => bio_ok s' /\ shows s' V O (zupd D bn true) /\ same_env s s' /\
    forall j bn', hbuf s j bn' -> hbuf s' j bn') s.
Proof.
  intros Hok Hsh Hh. destruct (hbuf_owner _ _ _ _ _ _ Hok Hsh Hh) as (HO & b & Hb & Hc & Hm & HV & HD).
  destruct Hok as [o Hinv]. pose proof Hh as [Hi _].
  pose proof (bi_bufs _ _ Hinv i b Hi Hb) as [Hda Hr Hst].
  destruct Hst as [(E & _)|(H1 & H2 & H3 & H4)]; [destruct Hc as [Hc _]; by rewrite Hc in E|].
  assert (Z.lor (b_flags b) B_DIRTY = 6) as Hfl by (by destruct H3 as [-> | ->]).
  assert (bc_inv o (set_bufs (<[i := set_flags 6 b]> (bufs s)) s)) as Hinv'.
  { eapply bc_inv_put; [done|done|exact Hb|done|done| |].
    - split; [done|done|]. right. do 2 (split; [done|]). split; [by right|]. done.
    - intros bn' j bj [_ E] Hj Hne Hbj Hcj. apply Hne. apply (bi_uniq _ _ Hinv j i bj b bn' Hj Hi Hbj Hb Hcj).
      split; [apply Hc|exact E]. }
  eapply wp_eq; [apply (putb_eq _ _ _ _ Hb)|]. cbv beta. rewrite Hfl. split; [by exists o|]. split; [|split; [done|]].
  - eapply shows_ext; [| | |eapply (shows_put o s i b (set_flags 6 b) bn V O D); try done].
    + by apply zupd_self.
    + apply zupd_self. rewrite HO. symmetry. by apply owner_mine.
    + done.
  - intros j bn' Hj. destruct (decide (j = i)) as [->|Hne]; [|by apply hbuf_put].
    eapply hbuf_put_self; [done|exact Hb| |done].
    assert (bn = bn') as <- by (by apply (hbuf_uniq s i i bn bn' (ex_intro _ o Hinv))). done.
Qed.

(** Only the disk and its history change outside the buffers. *)
Definition written (bn : Z) (d : bytes) (s s' : bcache) : Prop :=
  disk s' = <[(1, bn) := d]> (disk s) /\ history s' = history s ++ [((1, bn), d)] /\
  mypid s' = mypid s /\ havedisk1 s' = havedisk1 s /\ bc_locks s' = bc_locks s.

Lemma bwrite_wp s V O D i bn :
  bio_ok s -> shows s V O D -> hbuf s i bn ->
  wp (bwrite i) (fun _ s' => bio_ok s' /\ shows s' V O (zupd D bn false) /\ written bn (V bn) s s' /\
    forall j bn', hbuf s j bn' -> hbuf s' j bn') s.
Proof.
  intros Hok Hsh Hh. destruct (hbuf_owner _ _ _ _ _ _ Hok Hsh Hh) as (HO & b & Hb & Hc & Hm & HV & HD).
  pose proof Hok as [o Hinv]. pose proof Hh as [Hi _].
  destruct (bwrite_spec o s i b bn Hinv Hi Hb Hc Hm) as [E Hinv'].
  assert (i < length (bufs s))%nat as Hlt by (by eapply lookup_lt_Some).
  eapply wp_eq; [exact E|]. split; [by exists o|]. split; [|split; [by rewrite HV|]].
  - apply shows_intro. intros bn'. cbn [bufs set_bufs disk_write].
    assert (forall bn'', holder (<[i:=set_flags B_VALID b]> (bufs s)) bn'' =
      if decide (bn'' = bn) then Some (i, set_flags B_VALID b) else holder (bufs s) bn'') as Eh.
    { intros bn''. destruct (decide (bn'' = bn)) as [->|Hne].
      - apply (holder_intro o (disk_write _ _ (set_bufs _ s)) i _ bn Hinv' Hi); [by apply list_lookup_insert_eq|done].
      - destruct (holder (bufs s) bn'') as [[j bj]|] eqn:Ej.
        + apply holder_Some in Ej as (Hj & Hbj & Hcj).
          apply (holder_intro o (disk_write _ _ (set_bufs _ s)) j _ bn'' Hinv' Hj); [|done].
          cbn. rewrite list_lookup_insert_ne; [done|]. intros <-. destruct Hc, Hcj. congruence.
        + destruct (holder (<[i:=_]> _) bn'') as [[j bj]|] eqn:Ej'; [|done].
          apply holder_Some in Ej' as (Hj & Hbj & Hcj). exfalso.
          apply list_lookup_insert_Some in Hbj as [(<- & <- & _)|[_ Hbj]]; [destruct Hc, Hcj; cbn in *; congruence|].
          by apply (holder_None _ _ _ _ Ej Hj Hbj). }
    rewrite Eh. unfold zupd. case_decide as En.
    + subst bn'. simpl. split; [done|]. split; [|done]. rewrite HO. by apply owner_mine.
    + rewrite disk_block_write, decide_False by congruence. exact (shows_elim _ _ _ _ bn' Hsh).
  - intros j bn' Hj. destruct (decide (j = i)) as [->|Hne].
    + assert (bn = bn') as <- by (by apply (hbuf_uniq s i i bn bn')).
      exact (hbuf_put_self s i b (set_flags B_VALID b) bn Hi Hb Hc Hm).
    + exact (hbuf_put s i (set_flags B_VALID b) j bn' Hj Hne).
Qed.

Lemma brelse_wp s V O D i bn :
  bio_ok s -> shows s V O D -> hbuf s i bn -> D bn = true \/ V bn = disk_block s (1, bn) ->
  wp (brelse i) (fun _ s' => bio_ok s' /\ shows s' V (zupd O bn None) D /\ same_env s s' /\
    forall j bn', hbuf s j bn' -> j <> i -> hbuf s' j bn') s.
Proof.
  intros Hok Hsh Hh Hcl. destruct (hbuf_owner _ _ _ _ _ _ Hok Hsh Hh) as (HO & b & Hb & Hc & Hm & HV & HD).
  pose proof Hok as [o Hinv]. pose proof Hh as [Hi _].
  assert (i < length (bufs s))%nat as Hlt by (by eapply lookup_lt_Some).
  destruct (brelse_spec o s i b bn Hinv Hi Hb Hc Hm) as (o1 & o2 & bs & Eo & E & Hinv' & Hs).
  { destruct Hcl as [Hd|Hd]; [left|right; by rewrite HV]. apply (dirty_of_dirty o s i b bn); try done. by rewrite HD. }
  eapply wp_eq; [exact E|]. split; [by eexists|]. split; [|split; [done|]].
  - apply shows_intro. intros bn'. cbn [bufs set_bufs]. pose proof (holder_same _ _ bn' Hs) as Hsame.
    change (disk_block (set_bufs bs s) (1, bn')) with (disk_block s (1, bn')).
    assert (holder (<[i:=freed_buf b]> (bufs s)) bn' =
      if decide (bn' = bn) then Some (i, freed_buf b) else holder (bufs s) bn') as Eh.
    { destruct (holder bs bn') as [[k bk]|] eqn:Ek.
      - destruct (holder (<[i:=_]> _) bn') as [[j bj]|] eqn:Ej; [|done].
        apply holder_Some in Ej as (Hj & Hbj & Hcj). apply list_lookup_insert_Some in Hbj as [(<- & <- & _)|[Hne Hbj]].
        + rewrite decide_True; [done|]. destruct Hc, Hcj. cbn in *. congruence.
        + rewrite decide_False; [by rewrite (holder_intro o s j bj bn' Hinv Hj Hbj Hcj)|].
          intros ->. apply Hne. by apply (bi_uniq _ _ Hinv i j b bj bn).
      - destruct (holder (<[i:=_]> _) bn') as [[j bj]|] eqn:Ej; [done|]. symmetry.
        assert (bn' <> bn) as Hne.
        { intros ->. apply (holder_None _ _ i (freed_buf b) Ej Hi); [by apply list_lookup_insert_eq|done]. }
        rewrite decide_False by done. destruct (holder (bufs s) bn') as [[j bj]|] eqn:Ej'; [|done].
        apply holder_Some in Ej' as (Hj & Hbj & Hcj). exfalso. apply (holder_None _ _ j bj Ej Hj); [|done].
        rewrite list_lookup_insert_ne; [done|]. intros <-. destruct Hc, Hcj. congruence. }
    assert (forall A (f : buf -> A) d, (forall x y, strip x = strip y -> f x = f y) ->
      via f d (holder bs bn') = via f d (if decide (bn' = bn) then Some (i, freed_buf b) else holder (bufs s) bn')) as Hvia.
    { intros A f d Hf. rewrite <- Eh. destruct (holder bs bn') as [[k bk]|], (holder (<[i:=_]> _) bn') as [[j bj]|]; try done.
      destruct Hsame as [-> Es]. simpl. by apply Hf. }
    rewrite (Hvia _ b_data), (Hvia _ owner_of), (Hvia _ dirty_of) by (intros x y (E1 & E2 & E3 & E4 & E5 & E6)%strip_fields; unfold owner_of, dirty_of; by rewrite ?E1, ?E4, ?E6).
    unfold zupd. case_decide as En; [|exact (shows_elim _ _ _ _ bn' Hsh)].
    subst bn'. simpl. done.
  - intros j bn' [Hj (bj & Hbj & Hcj & Hmj)] Hne. split; [done|].
    assert (is_Some (bs !! j)) as [cj Hcjj].
    { apply lookup_lt_is_Some. pose proof (bi_len _ _ Hinv') as Hl. cbn in Hl. rewrite Hl. lia. }
    exists cj. split; [done|]. destruct (same_bufs_lookup _ _ _ _ Hs Hcjj) as (c & Hc2 & Es).
    rewrite list_lookup_insert_ne in Hc2 by done. rewrite Hbj in Hc2. injection Hc2 as <-.
    apply strip_fields in Es as (_ & E2 & E3 & E4 & _). unfold caches, mine. rewrite E2, E3, E4. done.
Qed.

(** ** Initialisation *)

(** The cache as the kernel starts: all of it zero. *)
Definition boot_cache (d : gmap (Z * Z) bytes) (pid : Z) (locks : gset string) : bcache :=
  mk_bcache (replicate (S NBUF) buf0) d [] pid true locks.

(** The links [binit] makes: buffer 29 is first, buffer 0 last. *)
Definition init_buf (i : nat) : buf :=
  set_prev (if decide (i = HEAD) then 0%nat else S i) (set_next (match i with O => HEAD | S j => j end) buf0).

Lemma binit_run d pid locks :
  binit (boot_cache d pid locks) =
  Ok tt (set_bufs (init_buf <$> seq 0 (S NBUF)) (boot_cache d pid (locks ∖ {["bcache"]}))).
Proof. reflexivity. Qed.

Lemma init_buf_lookup i b : (init_buf <$> seq 0 (S NBUF)) !! i = Some b -> b = init_buf i.
Proof. rewrite list_lookup_fmap. intros (x & [-> _]%lookup_seq & ->)%fmap_Some. done. Qed.

Lemma boot_disk d pid locks k : (forall k x, d !! k = Some x -> is_block x) -> is_block (disk_block (boot_cache d pid locks) k).
Proof. intros Hd. unfold disk_block. cbn. destruct (d !! k) eqn:E; [by apply (Hd k)|apply zero_is_block]. Qed.

Lemma binit_inv d pid locks :
  (forall k x, d !! k = Some x -> is_block x) ->
  bc_inv (rev (seq 0 NBUF)) (set_bufs (init_buf <$> seq 0 (S NBUF)) (boot_cache d pid (locks ∖ {["bcache"]}))).
Proof.
  intros Hd. split; cbn [bufs set_bufs].
  - done.
  - split; [vm_compute; tauto|compute_done].
  - symmetry. apply Permutation_rev.
  - intros i b Hi Hb. apply init_buf_lookup in Hb as ->. split; [by destruct i; apply zero_is_block|by destruct i|]. left. by destruct i.
  - intros i j bi bj bn Hi Hj Hbi _ [Hc _] _. apply init_buf_lookup in Hbi as ->. by destruct i.
  - cbn. set_solver.
  - split; [done|]. intros k. exact (boot_disk d pid _ k Hd).
Qed.

Lemma boot_shows d pid locks :
  shows (set_bufs (init_buf <$> seq 0 (S NBUF)) (boot_cache d pid (locks ∖ {["bcache"]})))
    (fun bn => default zero_block (d !! (1, bn))) (fun _ => None) (fun _ => false).
Proof.
  apply shows_intro. intros bn. cbn [bufs set_bufs].
  destruct (holder _ bn) as [[i b]|] eqn:E; [|done].
  apply holder_Some in E as (_ & Hb & [Hc _]). apply init_buf_lookup in Hb as ->. by destruct i.
Qed.

(** ** Properties *)

(** [binit], run on the zeroed cache, links all the buffers into the
    most-recently-used list (buffer 29 first) and establishes the invariant
    of the cache; nothing is cached, locked or pinned. *)
Theorem binit_correct (d : gmap (Z * Z) bytes) pid locks :
  (forall k x, d !! k = Some x -> is_block x) ->
  wp binit (fun _ s => bc_inv (rev (seq 0 NBUF)) s /\ disk s = d /\
    shows s (fun bn => default zero_block (d !! (1, bn))) (fun _ => None) (fun _ => false)) (boot_cache d pid locks).
Proof.
  intros Hd. eapply wp_eq; [apply binit_run|]. split; [by apply binit_inv|]. split; [done|]. apply boot_shows.
Qed.

(** C40: reading a block that is not cached.  [bread] recycles the least
    recently used buffer that nobody holds and that is not pinned by the
    log, so it never drops a logged block; it returns the buffer locked and
    with the disk's contents; it panics exactly when there is no such
    buffer. *)
Theorem bread_recycles_lru o s bn :
  bc_inv o s -> 0 <= bn < FSSIZE -> holder (bufs s) bn = None ->
  match pick (recyclable (bufs s)) (rev o) with
  | Some i => exists b, bufs s !! i = Some b /\ b_refcnt b = 0 /\ flag B_DIRTY (b_flags b) = false /\
      bread ROOTDEV bn s = Ok i (set_bufs (<[i := fresh_buf s bn b]> (bufs s)) s) /\
      bc_inv o (set_bufs (<[i := fresh_buf s bn b]> (bufs s)) s)
  | None => bread ROOTDEV bn s = Panic "bget: no buffers"
  end.
Proof.
  intros Hinv Hbn Hh. pose proof (pick_spare o s Hinv) as Hps. destruct (pick _ (rev o)) as [i|] eqn:Ep.
  - destruct Hps as (b & Hsp). destruct (bread_miss_at o s bn i b Hinv Hbn Hh Ep Hsp) as (E & Hi & _).
    exists b. split; [apply Hsp|]. apply pick_Some in Ep as [_ Hr]. unfold recyclable in Hr.
    rewrite (proj1 (proj2 Hsp)) in Hr. cbn in Hr. boolify. done.
  - unfold bread, kbind. by rewrite (bget_none o s ROOTDEV bn Hinv) by (rewrite ?(pick_holder o s bn Hinv), ?Hh; done).
Qed.

Lemma binit_correct_witness : exists s, binit (boot_cache ∅ 1 ∅) = Ok tt s /\ bc_inv (rev (seq 0 NBUF)) s.
Proof.
  destruct (wp_elim _ _ _ (binit_correct ∅ 1 ∅ ltac:(intros k x; rewrite lookup_empty; done))) as ([] & s & E & H & _).
  exists s. split; [exact E|exact H].
Defined.

Lemma bread_recycles_lru_witness :
  bread ROOTDEV 5 (set_bufs (init_buf <$> seq 0 (S NBUF)) (boot_cache ∅ 1 (∅ ∖ {["bcache"]}))) =
  Ok 0%nat (set_bufs (<[0%nat := mk_buf B_VALID 1 5 (mk_sleeplock true 1) 1 1 30 zero_block]> (init_buf <$> seq 0 (S NBUF)))
    (boot_cache ∅ 1 (∅ ∖ {["bcache"]}))).
Proof.
  destruct (bread_recycles_lru (rev (seq 0 NBUF)) (set_bufs (init_buf <$> seq 0 (S NBUF)) (boot_cache ∅ 1 (∅ ∖ {["bcache"]}))) 5
    (binit_inv ∅ 1 ∅ ltac:(intros k x; rewrite lookup_empty; done)) ltac:(done) eq_refl) as (b & Hb & _ & _ & E & _).
  change (bufs _ !! 0%nat) with (Some (init_buf 0)) in Hb. assert (b = init_buf 0) as -> by congruence. exact E.
Defined.
