(* ===== verification/Ide.v ===== *)
(** * The disk driver (ide.c)

    The queue of requests through [qnext], the interrupt handler, and the
    processes that wait for their buffers.  The drive is the hardware: it takes
    a command from its registers, works, and raises an interrupt.  Sections
    that hold [idelock] are single steps.  [Bio] uses the driver through the
    transfer of one block that a call of [iderw] amounts to; here that view is
    justified for any number of processes. *)

From stdpp Require Import functions.
From S2P Require Import Prelude Block.

(** ** Buffers and the drive *)

Record ibuf := mk_ibuf {
  ib_valid : bool;              (* B_VALID *)
  ib_dirty : bool;              (* B_DIRTY *)
  ib_dev : Z;
  ib_blockno : Z;
  ib_data : list Z;
  ib_qnext : option nat
}.

(** The registers 0x1f2 to 0x1f6 of the controller. *)
Record regs := mk_regs { f2 : Z; f3 : Z; f4 : Z; f5 : Z; f6 : Z }.

(** The drive has no command, works on one, or has finished it, perhaps with an
    error, and waits for its interrupt to be handled. *)
Inductive drive_state :=
| DIdle
| DBusy (write : bool) (r : regs) (data : list Z)
| DDone (write : bool) (err : bool) (data : list Z).

Record ide := mk_ide {
  ibufs : nat -> ibuf;          (* struct buf, by address *)
  idequeue : option nat;
  havedisk1 : bool;
  drive : drive_state;
  disk : Z -> Z -> list Z       (* the contents, by drive and sector *)
}.

Definition set_bufs (f : nat -> ibuf) (s : ide) : ide := mk_ide f (idequeue s) (havedisk1 s) (drive s) (disk s).
Definition set_queue (q : option nat) (s : ide) : ide := mk_ide (ibufs s) q (havedisk1 s) (drive s) (disk s).
Definition set_drive (d : drive_state) (s : ide) : ide := mk_ide (ibufs s) (idequeue s) (havedisk1 s) d (disk s).
Definition set_qnext (q : option nat) (b : ibuf) : ibuf :=
  mk_ibuf (ib_valid b) (ib_dirty b) (ib_dev b) (ib_blockno b) (ib_data b) q.

(** ** idestart *)

Definition sector_per_block : Z := Z.of_nat BSIZE / 512.

(** [idewait] spins while the drive is busy. *)
Definition idewait : M ide unit := fun s =>
  match drive s with DBusy _ _ _ => Block "idewait" | _ => Ok tt s end.

Definition idestart (b : nat) : M ide unit :=
  s <- kget ;;
  let x := ibufs s b in
  if FSSIZE <=? ib_blockno x then panic "incorrect blockno"
  else
    let sector := s32 (ib_blockno x * sector_per_block) in
    if 7 <? sector_per_block then panic "idestart"
    else
      idewait ;;;
      let r := mk_regs (u8 sector_per_block) (u8 (Z.land sector 0xff)) (u8 (Z.land (Z.shiftr sector 8) 0xff))
                 (u8 (Z.land (Z.shiftr sector 16) 0xff))
                 (u8 (Z.lor (Z.lor 0xe0 (Z.shiftl (Z.land (ib_dev x) 1) 4)) (Z.land (Z.shiftr sector 24) 0x0f))) in
      modify (set_drive (if ib_dirty x then DBusy true r (ib_data x) else DBusy false r [])).

(** What the drive makes of its registers. *)
Definition reg_sector (r : regs) : Z :=
  Z.lor (f3 r) (Z.lor (Z.shiftl (f4 r) 8) (Z.lor (Z.shiftl (f5 r) 16) (Z.shiftl (Z.land (f6 r) 0x0f) 24))).
Definition reg_drive (r : regs) : Z := Z.land (Z.shiftr (f6 r) 4) 1.

(** ** iderw, up to its first sleep *)

(** The loop that appends to the queue; [fuel] bounds its length. *)
Fixpoint append_loop (fuel : nat) (b c : nat) : M ide unit :=
  match fuel with
  | O => nofuel
  | S fuel' =>
      s <- kget ;;
      match ib_qnext (ibufs s c) with
      | Some c' => append_loop fuel' b c'
      | None => modify (fun s => set_bufs (<[c := set_qnext (Some b) (ibufs s c)]> (ibufs s)) s)
      end
  end.

Definition iderw_start (fuel : nat) (held : bool) (b : nat) : M ide unit :=
  s <- kget ;;
  if negb held then panic "iderw: buf not locked"
  else if ib_valid (ibufs s b) && negb (ib_dirty (ibufs s b)) then panic "iderw: nothing to do"
  else if negb (ib_dev (ibufs s b) =? 0) && negb (havedisk1 s) then panic "iderw: ide disk 1 not present"
  else
    modify (fun s => set_bufs (<[b := set_qnext None (ibufs s b)]> (ibufs s)) s) ;;;
    s <- kget ;;
    (match idequeue s with
     | None => modify (set_queue (Some b))
     | Some h => append_loop fuel b h
     end) ;;;
    s <- kget ;;
    when bool_decide (idequeue s = Some b) do idestart b.

(** The test of the loop in which [iderw] sleeps. *)
Definition iderw_done (x : ibuf) : bool := ib_valid x && negb (ib_dirty x).

(** ** ideintr

    The result is the buffer whose sleepers are woken. *)
Definition ideintr : M ide (option nat) :=
  s <- kget ;;
  match idequeue s with
  | None => kret None
  | Some b =>
      modify (set_queue (ib_qnext (ibufs s b))) ;;;
      let x := ibufs s b in
      data <- (if negb (ib_dirty x) then
                 idewait ;;;
                 s <- kget ;;
                 kret (match drive s with DDone _ false d => d | _ => ib_data x end)
               else kret (ib_data x)) ;;
      modify (fun s => set_bufs (<[b := mk_ibuf true false (ib_dev x) (ib_blockno x) data (ib_qnext x)]> (ibufs s)) s) ;;;
      modify (set_drive DIdle) ;;;
      s <- kget ;;
      (match idequeue s with Some b' => idestart b' | None => kret tt end) ;;;
      kret (Some b)
  end.

(** The drive finishes its command, or fails. *)
Definition work (err : bool) (s : ide) : ide :=
  match drive s with
  | DBusy w r data =>
      if err then set_drive (DDone w true []) s
      else if w then
        mk_ide (ibufs s) (idequeue s) (havedisk1 s) (DDone true false [])
          (<[reg_drive r := <[reg_sector r := data]> (disk s (reg_drive r))]> (disk s))
      else set_drive (DDone false false (disk s (reg_drive r) (reg_sector r))) s
  | _ => s
  end.

(** ** The system of processes, the driver and the drive *)

(** A request: its buffer, whether it writes, where, and the data of the
    buffer when it was made. *)
Record req := mk_req { rq_buf : nat; rq_write : bool; rq_dev : Z; rq_block : Z; rq_data : list Z }.
Definition req_of (f : nat -> ibuf) (b : nat) : req :=
  mk_req b (ib_dirty (f b)) (Z.land (ib_dev (f b)) 1) (ib_blockno (f b)) (ib_data (f b)).

Inductive ithread :=
| IIdle
| IWait (b : nat) (asleep : bool).

Record isys := mk_isys {
  is_ide : ide;
  is_thr : nat -> ithread;
  is_asked : list req;                        (* the calls of iderw *)
  is_served : list (req * bool);              (* what the drive has done, and whether it failed *)
  is_done : list (req * bool * list Z)        (* what the handler has completed, with the buffer's data *)
}.

Definition i_wake (b : option nat) (x : ithread) : ithread :=
  match x with IWait c a => IWait c (a && negb (bool_decide (b = Some c))) | IIdle => IIdle end.

(** A process that holds a buffer may change it when no request is made for it. *)
Definition unused (s : isys) (b : nat) : Prop := forall p a, is_thr s p <> IWait b a.

Inductive istep : isys -> isys -> Prop :=
| is_fill b x s : unused s b -> ib_qnext x = ib_qnext (ibufs (is_ide s) b) ->
    istep s (mk_isys (set_bufs (<[b := x]> (ibufs (is_ide s))) (is_ide s)) (is_thr s) (is_asked s) (is_served s) (is_done s))
| is_call p b fuel s i' : is_thr s p = IIdle -> unused s b -> iderw_done (ibufs (is_ide s) b) = false ->
    ib_dev (ibufs (is_ide s) b) = 0 \/ havedisk1 (is_ide s) = true -> 0 <= ib_blockno (ibufs (is_ide s) b) < FSSIZE ->
    iderw_start fuel true b (is_ide s) = Ok tt i' ->
    istep s (mk_isys i' (<[p := IWait b true]> (is_thr s)) (is_asked s ++ [req_of (ibufs (is_ide s)) b]) (is_served s) (is_done s))
| is_work err w r d h s : drive (is_ide s) = DBusy w r d -> idequeue (is_ide s) = Some h ->
    istep s (mk_isys (work err (is_ide s)) (is_thr s) (is_asked s)
               (is_served s ++ [(req_of (ibufs (is_ide s)) h, err)]) (is_done s))
| is_intr w err d h s i' wk : drive (is_ide s) = DDone w err d -> idequeue (is_ide s) = Some h ->
    ideintr (is_ide s) = Ok wk i' ->
    istep s (mk_isys i' (i_wake wk ∘ is_thr s) (is_asked s) (is_served s)
               (is_done s ++ [(req_of (ibufs (is_ide s)) h, err, ib_data (ibufs i' h))]))
| is_resume p b s : is_thr s p = IWait b false ->
    istep s (mk_isys (is_ide s)
               (<[p := if iderw_done (ibufs (is_ide s) b) then IIdle else IWait b true]> (is_thr s))
               (is_asked s) (is_served s) (is_done s)).

(** ** The specification: requests carried out one after the other *)

Definition apply1 (d : Z -> Z -> list Z) (x : req * bool) : Z -> Z -> list Z :=
  let '(r, err) := x in
  if err then d else if rq_write r then <[rq_dev r := <[rq_block r := rq_data r]> (d (rq_dev r))]> d else d.
Definition result1 (d : Z -> Z -> list Z) (x : req * bool) : list Z :=
  let '(r, err) := x in if err || rq_write r then rq_data r else d (rq_dev r) (rq_block r).
Fixpoint replay (d : Z -> Z -> list Z) (l : list (req * bool)) : list (req * bool * list Z) :=
  match l with
  | [] => []
  | x :: l' => (x, result1 d x) :: replay (apply1 d x) l'
  end.

(** ** The queue *)

Fixpoint qchain (f : nat -> option nat) (h : option nat) (q : list nat) : Prop :=
  match q with
  | [] => h = None
  | b :: q' => h = Some b /\ qchain f (f b) q'
  end.

Definition next_of (f : nat -> ibuf) (b : nat) : option nat := ib_qnext (f b).

Lemma qchain_ext f g h q : (forall b, b ∈ q -> f b = g b) -> qchain f h q -> qchain g h q.
Proof.
  revert h. induction q as [|b q IH]; intros h Hfg; [done|]. simpl. intros [-> Hc]. split; [done|].
  rewrite <- Hfg by apply list_elem_of_here. apply IH; [|done]. intros c Hc'. apply Hfg. by apply list_elem_of_further.
Qed.

(** Appending to the last buffer of the chain. *)
Lemma append_run q b : forall fuel s c, qchain (next_of (ibufs s)) (Some c) (c :: q) -> (length q < fuel)%nat -> NoDup (c :: q) -> b ∉ c :: q ->
  next_of (ibufs s) b = None ->
  exists s', append_loop fuel b c s = Ok tt s' /\
    qchain (next_of (ibufs s')) (Some c) (c :: q ++ [b]) /\ idequeue s' = idequeue s /\ havedisk1 s' = havedisk1 s /\
    drive s' = drive s /\ disk s' = disk s /\
    (forall x, exists n, ibufs s' x = set_qnext n (ibufs s x)) /\ (forall x, x ∉ c :: q -> ibufs s' x = ibufs s x).
Proof.
  induction q as [|c' q IH]; intros fuel s c Hc Hf Hnd Hb Hnb; (destruct fuel as [|fuel]; [simpl in Hf; lia|]); cbn [append_loop]; unfold kbind, kget.
  - destruct Hc as [_ Hc]. simpl in Hc. unfold next_of in Hc. rewrite Hc. unfold modify. eexists. split; [done|]. cbn [set_bufs ibufs idequeue havedisk1 drive disk app].
    split; [|split_and!; try done].
    + simpl. split; [done|]. unfold next_of. rewrite fn_lookup_insert. cbn [set_qnext ib_qnext]. split; [done|].
      rewrite fn_lookup_insert_ne; [done|]. intros ->. apply Hb, list_elem_of_here.
    + intros x. destruct (decide (x = c)) as [->|Hne]; [rewrite fn_lookup_insert; by eexists|].
      rewrite fn_lookup_insert_ne by done. exists (ib_qnext (ibufs s x)). by destruct (ibufs s x).
    + intros x Hx. rewrite fn_lookup_insert_ne; [done|]. intros ->. apply Hx, list_elem_of_here.
  - destruct Hc as [_ [Hc Hc']]. unfold next_of in Hc at 1. rewrite Hc.
    apply list.NoDup_cons in Hnd as [Hnc Hnd]. rewrite (elem_of_cons _ b c) in Hb.
    destruct (IH fuel s c') as (s' & E & Hch & H1 & H2 & H3 & H4 & H5 & H6); [split; [done|exact Hc']|simpl in Hf; lia|done|tauto|done|].
    exists s'. rewrite E. split; [done|]. split_and!; try done.
    + cbn [app]. split; [done|]. assert (ibufs s' c = ibufs s c) as Hcc by (by apply H6). assert (next_of (ibufs s') c = Some c') as -> by (unfold next_of; by rewrite Hcc). exact Hch.
    + intros x Hx. apply H6. intros Hx'. apply Hx. by apply list_elem_of_further.
Qed.

(** ** Starting a request *)

Lemma u8_land x : 0 <= x -> u8 (Z.land x 0xff) = x mod 2 ^ 8.
Proof. intros Hx. unfold u8. change 0xff with (Z.ones 8). rewrite Z.land_ones by lia. by rewrite Z.mod_mod. Qed.

Definition starts (b : nat) (f : nat -> ibuf) (d : drive_state) : Prop :=
  exists r, d = DBusy (ib_dirty (f b)) r (if ib_dirty (f b) then ib_data (f b) else []) /\
    reg_sector r = ib_blockno (f b) /\ reg_drive r = Z.land (ib_dev (f b)) 1.

Lemma idestart_run b s : 0 <= ib_blockno (ibufs s b) < FSSIZE -> (forall w r d, drive s <> DBusy w r d) ->
  exists d, idestart b s = Ok tt (set_drive d s) /\ starts b (ibufs s) d.
Proof.
  intros Hb Hd. unfold idestart, kbind at 1, kget. rewrite (proj2 (Z.leb_gt _ _)) by lia.
  assert (sector_per_block = 1) as -> by (vm_compute; reflexivity). change (7 <? 1) with false. cbv iota.
  set (x := ibufs s b) in *. set (n := ib_blockno x) in *. unfold FSSIZE in Hb. rewrite Z.mul_1_r, s32_id by lia.
  unfold kbind, idewait. assert (match drive s with DBusy _ _ _ => Block "idewait" | _ => Ok tt s end = Ok tt s) as ->.
  { destruct (drive s); try done. by destruct (Hd write r data). }
  unfold modify. eexists. split; [done|]. unfold starts. fold x. eexists. split; [by destruct (ib_dirty x)|].
  assert (0 <= n / 2 ^ 8 < 64) as H8 by (split; [apply Z.div_pos; lia|apply Z.div_lt_upper_bound; lia]).
  assert (Z.shiftr n 16 = 0) as E16 by (rewrite Z.shiftr_div_pow2 by lia; apply Z.div_small; lia).
  assert (Z.shiftr n 24 = 0) as E24 by (rewrite Z.shiftr_div_pow2 by lia; apply Z.div_small; lia).
  assert (Z.land (ib_dev x) 1 = 0 \/ Z.land (ib_dev x) 1 = 1) as Hdev.
  { pose proof (Z.land_ones (ib_dev x) 1 ltac:(lia)) as E. change (Z.ones 1) with 1 in E. rewrite E.
    pose proof (Z.mod_pos_bound (ib_dev x) (2 ^ 1)). lia. }
  unfold reg_sector, reg_drive. cbn [f3 f4 f5 f6]. fold n. assert (0 <= Z.shiftr n 8) as Hn8 by (apply Z.shiftr_nonneg; lia).
  rewrite E16, E24, (u8_land n), (u8_land (Z.shiftr n 8)), (u8_land 0) by lia.
  rewrite (Z.mod_small (Z.shiftr n 8)) by (rewrite Z.shiftr_div_pow2 by lia; lia). split.
  - assert (Z.land (u8 (Z.lor (Z.lor 224 (Z.shiftl (Z.land (ib_dev x) 1) 4)) (Z.land 0 15))) 15 = 0) as ->
      by (destruct Hdev as [-> | ->]; vm_compute; reflexivity).
    cbn [Z.shiftl Z.modulo Z.div_eucl]. rewrite !Z.lor_0_r, Z.lor_comm. apply lor_low_byte.
  - destruct Hdev as [-> | ->]; vm_compute; reflexivity.
Qed.

(** The buffer after its request. *)
Definition completed (x : ibuf) (err : bool) (data : list Z) : ibuf :=
  mk_ibuf true false (ib_dev x) (ib_blockno x) (if err || ib_dirty x then ib_data x else data) (ib_qnext x).

Lemma starts_ext b f g d : g b = f b -> starts b f d -> starts b g d.
Proof. unfold starts. by intros ->. Qed.

Lemma intr_run s h q' w err data : drive s = DDone w err data -> qchain (next_of (ibufs s)) (idequeue s) (h :: q') -> NoDup (h :: q') ->
  (forall b, b ∈ q' -> 0 <= ib_blockno (ibufs s b) < FSSIZE) ->
  exists s', ideintr s = Ok (Some h) s' /\ ibufs s' = <[h := completed (ibufs s h) err data]> (ibufs s) /\
    qchain (next_of (ibufs s')) (idequeue s') q' /\ havedisk1 s' = havedisk1 s /\ disk s' = disk s /\
    match q' with [] => drive s' = DIdle | h' :: _ => starts h' (ibufs s') (drive s') end.
Proof.
  intros Hd [Hq Hc] Hnd Hr. unfold ideintr. unfold kbind at 1, kget. rewrite Hq. unfold kbind at 1, modify at 1.
  set (x := ibufs s h). set (s1 := set_queue (ib_qnext x) s). cbv zeta.
  assert ((if negb (ib_dirty x) then
             idewait ;;; s <- kget ;; kret (match drive s with DDone _ false d => d | _ => ib_data x end)
           else kret (ib_data x)) s1 = Ok (if err || ib_dirty x then ib_data x else data) s1) as E1.
  { destruct (ib_dirty x); cbn [negb]; [by rewrite orb_true_r|].
    unfold kbind, idewait, kget. assert (drive s1 = DDone w err data) as -> by done. cbv iota beta.
    assert (drive s1 = DDone w err data) as -> by done. rewrite orb_false_r. by destruct err. }
  rewrite (kbind_ok _ _ _ _ _ E1). unfold kbind, modify, kget.
  set (s3 := set_drive DIdle _). assert (s3 = mk_ide (<[h := completed x err data]> (ibufs s)) (ib_qnext x) (havedisk1 s) DIdle (disk s)) as E3 by done.
  apply list.NoDup_cons in Hnd as [Hh Hnd].
  assert (qchain (next_of (ibufs s3)) (ib_qnext x) q') as Hc3.
  { eapply qchain_ext; [|exact Hc]. intros b Hb. unfold next_of. rewrite E3. cbn [ibufs]. by rewrite fn_lookup_insert_ne by (by intros ->). }
  clearbody s3. subst s3. cbn [idequeue ibufs] in *. destruct q' as [|h' q']; simpl in Hc3.
  - rewrite Hc3. eexists. split; [done|]. done.
  - destruct Hc3 as [Hn Hc3]. rewrite Hn.
    assert (h <> h') as Hne by (intros ->; apply Hh, list_elem_of_here).
    destruct (idestart_run h' (mk_ide (<[h := completed x err data]> (ibufs s)) (Some h') (havedisk1 s) DIdle (disk s))) as (d & E & Hst); [|done|].
    { cbn [ibufs]. rewrite fn_lookup_insert_ne by done. apply Hr, list_elem_of_here. }
    rewrite E. eexists. split; [done|]. cbn. split_and!; try done.
Qed.

(** Enqueueing, with the start of the drive if the queue was empty. *)
Definition same_request (f g : nat -> ibuf) : Prop := forall b, exists n, g b = set_qnext n (f b).

Lemma start_run s b q : qchain (next_of (ibufs s)) (idequeue s) q -> NoDup q -> b ∉ q -> iderw_done (ibufs s b) = false ->
  ib_dev (ibufs s b) = 0 \/ havedisk1 s = true -> 0 <= ib_blockno (ibufs s b) < FSSIZE ->
  (q = [] -> forall w r d, drive s <> DBusy w r d) ->
  forall fuel, (length q <= fuel)%nat ->
  exists s', iderw_start fuel true b s = Ok tt s' /\ same_request (ibufs s) (ibufs s') /\
    qchain (next_of (ibufs s')) (idequeue s') (q ++ [b]) /\ havedisk1 s' = havedisk1 s /\ disk s' = disk s /\
    if q then starts b (ibufs s') (drive s') else drive s' = drive s.
Proof.
  intros Hc Hnd Hb Hfl Hdev Hr Hidle fuel Hf. unfold iderw_start. unfold kbind at 1, kget at 1. cbn [negb].
  unfold iderw_done in Hfl. rewrite Hfl.
  assert (negb (ib_dev (ibufs s b) =? 0) && negb (havedisk1 s) = false) as ->.
  { destruct Hdev as [-> | ->]; [done|apply andb_false_r]. }
  unfold kbind at 1, modify at 1. set (s1 := set_bufs _ s). unfold kbind at 1, kget at 1. change (idequeue s1) with (idequeue s).
  assert (same_request (ibufs s) (ibufs s1)) as Hs1.
  { intros c. cbn. destruct (decide (b = c)) as [<-|]; [rewrite fn_lookup_insert; by eexists|].
    rewrite fn_lookup_insert_ne by done. exists (ib_qnext (ibufs s c)). by destruct (ibufs s c). }
  destruct q as [|h q].
  - simpl in Hc. rewrite Hc. unfold kbind at 1, modify. unfold kbind at 1, kget. cbn [set_queue idequeue]. rewrite bool_decide_eq_true_2 by done.
    destruct (idestart_run b (set_queue (Some b) s1)) as (d & E & Hst).
    { cbn. rewrite fn_lookup_insert. done. }
    { cbn. by apply Hidle. }
    rewrite E. eexists. split; [done|]. cbn. split_and!; try done. unfold next_of. by rewrite fn_lookup_insert.
  - destruct Hc as [Hq Hc]. rewrite Hq.
    assert (qchain (next_of (ibufs s1)) (Some h) (h :: q)) as Hc1.
    { eapply qchain_ext; [|split; [done|exact Hc]]. intros c Hc'. unfold next_of. cbn. by rewrite fn_lookup_insert_ne by (by intros ->). }
    destruct (append_run q b fuel s1 h Hc1 Hf Hnd Hb) as (s2 & E & Hc2 & H1 & H2 & H3 & H4 & H5 & _).
    { unfold next_of. cbn. by rewrite fn_lookup_insert. }
    rewrite (kbind_ok _ _ _ _ _ E). unfold kbind, kget. rewrite bool_decide_eq_false_2.
    2: { rewrite H1. cbn. rewrite Hq. intros [= ->]. apply Hb, list_elem_of_here. }
    eexists. split; [done|]. split_and!; try done.
    + intros c. destruct (H5 c) as [n ->], (Hs1 c) as [n' ->]. by exists n.
    + rewrite H1. cbn. rewrite Hq. exact Hc2.
Qed.

Lemma same_req f g b : same_request f g -> req_of g b = req_of f b.
Proof. intros H. destruct (H b) as [n E]. unfold req_of. by rewrite E. Qed.
Lemma same_done f g b : same_request f g -> iderw_done (g b) = iderw_done (f b).
Proof. intros H. destruct (H b) as [n E]. unfold iderw_done. by rewrite E. Qed.
Lemma same_block f g b : same_request f g -> ib_blockno (g b) = ib_blockno (f b).
Proof. intros H. destruct (H b) as [n E]. by rewrite E. Qed.
Lemma same_starts f g b d : same_request f g -> starts b f d -> starts b g d.
Proof. intros H. destruct (H b) as [n E]. unfold starts. by rewrite E. Qed.

Lemma replay_snoc d l x : replay d (l ++ [x]) = replay d l ++ [(x, result1 (foldl apply1 d l) x)].
Proof. revert d. induction l as [|y l IH]; intros d; simpl; [done|]. by rewrite IH. Qed.

(** What the drive is doing for the first request of the queue; [fin] are the
    requests that are completed. *)
Definition drive_ok (d0 : Z -> Z -> list Z) (fin : list (req * bool)) (s : isys) (q : list nat) : Prop :=
  match q with
  | [] => drive (is_ide s) = DIdle /\ is_served s = fin /\ disk (is_ide s) = foldl apply1 d0 fin
  | h :: _ =>
      (starts h (ibufs (is_ide s)) (drive (is_ide s)) /\ is_served s = fin /\ disk (is_ide s) = foldl apply1 d0 fin) \/
      exists err data, drive (is_ide s) = DDone (ib_dirty (ibufs (is_ide s) h)) err data /\
        is_served s = fin ++ [(req_of (ibufs (is_ide s)) h, err)] /\ disk (is_ide s) = foldl apply1 d0 (is_served s) /\
        (if err || ib_dirty (ibufs (is_ide s) h) then ib_data (ibufs (is_ide s) h) else data) =
          result1 (foldl apply1 d0 fin) (req_of (ibufs (is_ide s)) h, err)
  end.

Record ide_inv (d0 : Z -> Z -> list Z) (s : isys) (q : list nat) (fin : list (req * bool)) : Prop := {
  ii_chain : qchain (next_of (ibufs (is_ide s))) (idequeue (is_ide s)) q;
  ii_nodup : NoDup q;
  ii_req : forall b, b ∈ q -> 0 <= ib_blockno (ibufs (is_ide s) b) < FSSIZE /\ iderw_done (ibufs (is_ide s) b) = false;
  ii_user : forall b, b ∈ q -> exists p a, is_thr s p = IWait b a;
  ii_thr : forall p b a, is_thr s p = IWait b a -> b ∈ q \/ (iderw_done (ibufs (is_ide s) b) = true /\ a = false);
  ii_one : forall p p' b a a', is_thr s p = IWait b a -> is_thr s p' = IWait b a' -> p = p';
  ii_asked : is_asked s = fin.*1 ++ (req_of (ibufs (is_ide s)) <$> q);
  ii_done : is_done s = replay d0 fin;
  ii_drive : drive_ok d0 fin s q
}.

Section Preserved.
Context (d0 : Z -> Z -> list Z).
Implicit Types (s : isys) (q : list nat) (fin : list (req * bool)).

Lemma unused_queue s q fin b : ide_inv d0 s q fin -> unused s b -> b ∉ q.
Proof. intros Hi Hu Hb. destruct (ii_user _ _ _ _ Hi b Hb) as (p & a & E). by apply (Hu p a). Qed.

Lemma fill_inv s q fin b x : ide_inv d0 s q fin -> unused s b -> ib_qnext x = ib_qnext (ibufs (is_ide s) b) ->
  ide_inv d0 (mk_isys (set_bufs (<[b := x]> (ibufs (is_ide s))) (is_ide s)) (is_thr s) (is_asked s) (is_served s) (is_done s)) q fin.
Proof.
  intros Hi Hu Hx. pose proof (unused_queue s q fin b Hi Hu) as Hb. destruct Hi as [Hc Hnd Hr Hus Ht Ho Ha Hd Hdr].
  assert (forall c, c ∈ q -> <[b := x]> (ibufs (is_ide s)) c = ibufs (is_ide s) c) as Hsame.
  { intros c Hc'. apply fn_lookup_insert_ne. by intros ->. }
  split; cbn [is_ide is_thr is_asked is_served is_done set_bufs ibufs idequeue]; try done.
  - eapply qchain_ext; [|exact Hc]. intros c Hc'. unfold next_of. by rewrite Hsame.
  - intros c Hc'. rewrite Hsame by done. by apply Hr.
  - intros p c a E. rewrite fn_lookup_insert_ne by (intros ->; by apply (Hu p a)). by apply (Ht p).
  - rewrite Ha. f_equal. apply list_fmap_ext. intros i c Hc'. unfold req_of. rewrite Hsame by (by eapply list_elem_of_lookup_2). done.
  - unfold drive_ok in *. destruct q as [|h q]; [done|]. unfold req_of in *. cbn [is_ide is_served set_bufs ibufs drive disk].
    unfold starts. rewrite Hsame by apply list_elem_of_here. exact Hdr.
Qed.

Lemma call_inv s q fin p b i' : ide_inv d0 s q fin -> is_thr s p = IIdle -> unused s b -> iderw_done (ibufs (is_ide s) b) = false ->
  0 <= ib_blockno (ibufs (is_ide s) b) < FSSIZE -> same_request (ibufs (is_ide s)) (ibufs i') ->
  qchain (next_of (ibufs i')) (idequeue i') (q ++ [b]) -> disk i' = disk (is_ide s) ->
  (if q then starts b (ibufs i') (drive i') else drive i' = drive (is_ide s)) ->
  ide_inv d0 (mk_isys i' (<[p := IWait b true]> (is_thr s)) (is_asked s ++ [req_of (ibufs (is_ide s)) b]) (is_served s) (is_done s)) (q ++ [b]) fin.
Proof.
  intros Hi Hp Hu Hfl Hb Hsame Hc' Hdisk Hstart. pose proof (unused_queue s q fin b Hi Hu) as Hbq.
  destruct Hi as [Hc Hnd Hr Hus Ht Ho Ha Hd Hdr]. split; cbn [is_ide is_thr is_asked is_served is_done]; try done.
  - apply list.NoDup_app. split; [done|]. split; [|apply list.NoDup_singleton]. intros c Hc1 ->%list_elem_of_singleton. done.
  - intros c Hin. rewrite (same_block _ _ c Hsame), (same_done _ _ c Hsame).
    apply elem_of_app in Hin as [Hin| ->%list_elem_of_singleton]; [by apply Hr|done].
  - intros c [Hin| ->%list_elem_of_singleton]%elem_of_app; [|exists p; rewrite fn_lookup_insert; by eexists].
    destruct (Hus c Hin) as (p' & a & E). exists p', a. rewrite fn_lookup_insert_ne; [done|]. intros ->. congruence.
  - intros p' c a E. rewrite (same_done _ _ c Hsame), elem_of_app, list_elem_of_singleton. destruct (decide (p = p')) as [<-|Hne].
    + rewrite fn_lookup_insert in E. injection E as -> <-. left. by right.
    + rewrite fn_lookup_insert_ne in E by done. destruct (Ht p' c a E) as [?|?]; [left; by left|by right].
  - intros p1 p2 c a a' E1 E2. assert (forall p' c a, <[p := IWait b true]> (is_thr s) p' = IWait c a ->
      (p' = p /\ c = b) \/ (p' <> p /\ is_thr s p' = IWait c a)) as Hold.
    { intros p' c' a1 E. destruct (decide (p = p')) as [<-|Hne]; [|rewrite fn_lookup_insert_ne in E by done; right; by split].
      rewrite fn_lookup_insert in E. injection E as <- _. by left. }
    destruct (Hold _ _ _ E1) as [[-> ->]|[Hn1 H1]], (Hold _ _ _ E2) as [[-> ?]|[Hn2 H2]]; subst; try done.
    + by destruct (Hu p2 a').
    + by destruct (Hu p1 a).
    + by eapply Ho.
  - rewrite Ha, fmap_app, app_assoc. cbn [fmap list_fmap]. rewrite (same_req _ _ b Hsame). do 2 f_equal.
    apply list_fmap_ext. intros i c _. symmetry. by apply same_req.
  - unfold drive_ok in *. destruct q as [|h q]; cbn [app is_ide is_served].
    + left. destruct Hdr as (_ & -> & Hdd). split_and!; [done|done|by rewrite Hdisk].
    + rewrite Hstart, Hdisk, (same_req _ _ h Hsame). destruct (Hsame h) as [n E]. rewrite E. cbn [set_qnext ib_dirty ib_data].
      destruct Hdr as [(H1 & H2 & H3)|Hdr]; [left; split_and!; [by eapply same_starts|done|done]|by right].
Qed.

Lemma work_inv s q fin err w r d h : ide_inv d0 s q fin -> drive (is_ide s) = DBusy w r d -> idequeue (is_ide s) = Some h ->
  ide_inv d0 (mk_isys (work err (is_ide s)) (is_thr s) (is_asked s) (is_served s ++ [(req_of (ibufs (is_ide s)) h, err)]) (is_done s)) q fin.
Proof.
  intros [Hc Hnd Hr Hus Ht Ho Ha Hd Hdr] Hbusy Hh. destruct q as [|h' q]; [simpl in Hc; congruence|].
  destruct Hc as [Hq Hc]. rewrite Hq in Hh. injection Hh as ->.
  destruct Hdr as [((r' & Ed & Es & Ev) & Hs & Hdd)|(e & x & Ed & _)]; [|congruence]. rewrite Hbusy in Ed. injection Ed as -> <- ->.
  assert (ibufs (work err (is_ide s)) = ibufs (is_ide s) /\ idequeue (work err (is_ide s)) = idequeue (is_ide s)) as [E1 E2].
  { unfold work. rewrite Hbusy. by destruct err, (ib_dirty (ibufs (is_ide s) h)). }
  split; cbn [is_ide is_thr is_asked is_served is_done]; rewrite ?E1, ?E2; try done.
  right. unfold req_of. cbn [is_ide is_served]. rewrite E1, Hs, foldl_app. cbn [foldl apply1]. unfold work. rewrite Hbusy. exists err.
  destruct err; [exists []; by rewrite orb_true_l|]. destruct (ib_dirty (ibufs (is_ide s) h)) eqn:Edirty; cbn [rq_write rq_dev rq_block rq_data].
  - exists []. cbn. rewrite Es, Ev, Hdd. done.
  - eexists. cbn. rewrite Es, Ev, Hdd. done.
Qed.

Lemma ide_intr_inv s q fin w err d h i' wk : ide_inv d0 s q fin -> drive (is_ide s) = DDone w err d -> idequeue (is_ide s) = Some h ->
  ideintr (is_ide s) = Ok wk i' -> exists q',
  q = h :: q' /\
  ide_inv d0 (mk_isys i' (i_wake wk ∘ is_thr s) (is_asked s) (is_served s) (is_done s ++ [(req_of (ibufs (is_ide s)) h, err, ib_data (ibufs i' h))]))
    q' (fin ++ [(req_of (ibufs (is_ide s)) h, err)]).
Proof.
  intros [Hc Hnd Hr Hus Ht Ho Ha Hd Hdr] Hdone Hh E. destruct q as [|h' q]; [simpl in Hc; congruence|]. pose proof Hc as [Hq _].
  rewrite Hq in Hh. injection Hh as ->. exists q. split; [done|].
  destruct Hdr as [((r' & Ed & _) & _)|(e & x & Ed & Hs & Hdd & Hres)]; [congruence|]. rewrite Hdone in Ed. injection Ed as -> <- <-.
  destruct (intr_run _ h q _ err d Hdone Hc Hnd) as (s' & E' & Hbufs & Hc' & _ & Hdisk & Hdrive); [intros b Hb; apply Hr; by apply list_elem_of_further|].
  rewrite E in E'. injection E' as -> <-. apply list.NoDup_cons in Hnd as [Hhq Hnd].
  assert (forall c, c ∈ q -> ibufs i' c = ibufs (is_ide s) c) as Hsame by (intros c Hc1; rewrite Hbufs; apply fn_lookup_insert_ne; by intros ->).
  assert (ibufs i' h = completed (ibufs (is_ide s) h) err d) as Eh by (by rewrite Hbufs, fn_lookup_insert).
  split; cbn [is_ide is_thr is_asked is_served is_done]; try done.
  - intros b Hb. rewrite Hsame by done. apply Hr. by apply list_elem_of_further.
  - intros b Hb. destruct (Hus b ltac:(by apply list_elem_of_further)) as (p & a & Ep). exists p. unfold compose. rewrite Ep. simpl. by eexists.
  - intros p b a Ep. unfold compose in Ep. destruct (is_thr s p) as [|c a0] eqn:Et; [done|]. simpl in Ep. injection Ep as -> <-.
    destruct (decide (b = h)) as [->|Hne].
    { right. rewrite Eh. split; [done|]. by rewrite bool_decide_eq_true_2, andb_false_r. }
    destruct (Ht p b a0 Et) as [[?|?]%elem_of_cons|[H1 ->]]; [done|by left|right]. split; [|done].
    rewrite Hbufs, fn_lookup_insert_ne by done. done.
  - intros p p' b a a' E1 E2. unfold compose in E1, E2. destruct (is_thr s p) as [|c a0] eqn:Et1; [done|].
    destruct (is_thr s p') as [|c' a0'] eqn:Et2; [done|]. simpl in E1, E2. injection E1 as -> _. injection E2 as -> _. by eapply Ho.
  - rewrite Ha, fmap_app, <- app_assoc. cbn. f_equal. f_equal. apply list_fmap_ext. intros i c Hc1. unfold req_of.
    by rewrite Hsame by (by eapply list_elem_of_lookup_2).
  - rewrite Hd, replay_snoc, Eh. unfold completed. cbn [ib_data]. by rewrite Hres.
  - unfold drive_ok. cbn [is_ide is_served]. destruct q as [|h' q]; [by rewrite Hdisk, Hdd, Hs|]. left. by rewrite Hdisk, Hdd, Hs.
Qed.

Lemma resume_inv s q fin p b : ide_inv d0 s q fin -> is_thr s p = IWait b false ->
  ide_inv d0 (mk_isys (is_ide s) (<[p := if iderw_done (ibufs (is_ide s) b) then IIdle else IWait b true]> (is_thr s))
    (is_asked s) (is_served s) (is_done s)) q fin.
Proof.
  intros [Hc Hnd Hr Hus Ht Ho Ha Hd Hdr] Hp. split; cbn [is_ide is_thr is_asked is_served is_done]; try done.
  - intros c Hin. destruct (Hus c Hin) as (p' & a & E). destruct (decide (p = p')) as [<-|Hne].
    + rewrite E in Hp. injection Hp as -> ->. destruct (Hr b Hin) as [_ ->]. exists p, true. by rewrite fn_lookup_insert.
    + exists p', a. by rewrite fn_lookup_insert_ne.
  - intros p' c a E. destruct (decide (p = p')) as [<-|Hne].
    + rewrite fn_lookup_insert in E. destruct (iderw_done _) eqn:Ed; [done|]. injection E as <- <-.
      destruct (Ht p b false Hp) as [?|[? _]]; [by left|congruence].
    + rewrite fn_lookup_insert_ne in E by done. by eapply Ht.
  - intros p1 p2 c a a' E1 E2. assert (forall p' c a, <[p := if iderw_done (ibufs (is_ide s) b) then IIdle else IWait b true]> (is_thr s) p' = IWait c a ->
      exists a0, is_thr s p' = IWait c a0) as Hold.
    { intros p' c' a1 E. destruct (decide (p = p')) as [<-|Hne]; [|rewrite fn_lookup_insert_ne in E by done; by eexists].
      rewrite fn_lookup_insert in E. destruct (iderw_done _); [done|]. injection E as <- <-. by eexists. }
    destruct (Hold _ _ _ E1) as [x1 H1], (Hold _ _ _ E2) as [x2 H2]. by eapply Ho.
Qed.
End Preserved.

(** More fuel does not change a result. *)
Lemma append_more fuel fuel' b c s s' : append_loop fuel b c s = Ok tt s' -> (fuel <= fuel')%nat -> append_loop fuel' b c s = Ok tt s'.
Proof.
  revert fuel' c. induction fuel as [|fuel IH]; intros [|fuel'] c E Hf; try done; [lia|]. cbn [append_loop] in *. unfold kbind, kget in *.
  destruct (ib_qnext (ibufs s c)); [|done]. apply (IH fuel'); [done|lia].
Qed.

Lemma start_more fuel fuel' b s s' : iderw_start fuel true b s = Ok tt s' -> (fuel <= fuel')%nat -> iderw_start fuel' true b s = Ok tt s'.
Proof.
  intros E Hf. unfold iderw_start in *. cbn [negb] in *. unfold kbind at 1, kget at 1 in E. unfold kbind at 1, kget at 1.
  destruct (ib_valid _ && _); [done|]. destruct (_ && _); [done|]. unfold kbind at 1, modify at 1 in E. unfold kbind at 1, modify at 1.
  set (s1 := set_bufs _ s) in *. unfold kbind at 1, kget at 1 in E. unfold kbind at 1, kget at 1. destruct (idequeue s1) as [h|]; [|exact E].
  destruct (append_loop fuel b h s1) as [[] s2| | | |] eqn:E2; unfold kbind at 1 in E; rewrite E2 in E; try done.
  rewrite (kbind_ok _ _ _ _ _ (append_more _ _ _ _ _ _ E2 Hf)). exact E.
Qed.

Definition ide_start (f : nat -> ibuf) (two : bool) (d0 : Z -> Z -> list Z) : isys :=
  mk_isys (mk_ide f None two DIdle d0) (fun _ => IIdle) [] [] [].

Lemma ide_start_inv f two d0 : ide_inv d0 (ide_start f two d0) [] [].
Proof. split; cbn; try done; [constructor|by intros ? ?%elem_of_nil..]. Qed.

Lemma idle_when_empty d0 s fin w r d : ide_inv d0 s [] fin -> drive (is_ide s) <> DBusy w r d.
Proof. intros Hi E. destruct (ii_drive _ _ _ _ Hi) as (E' & _). congruence. Qed.

Lemma istep_inv d0 s s' q fin : ide_inv d0 s q fin -> istep s s' -> exists q' fin', ide_inv d0 s' q' fin'.
Proof.
  intros Hi Hs. destruct Hs as [b x s Hu Hx|p b fuel s i' Hp Hu Hfl Hdev Hr E|err w r d h s Hb Hh|w err d h s i' wk Hb Hh E|p b s Hp].
  - eexists _, _. by apply fill_inv.
  - exists (q ++ [b]), fin. pose proof (unused_queue d0 s q fin b Hi Hu) as Hbq.
    destruct (start_run (is_ide s) b q (ii_chain _ _ _ _ Hi) (ii_nodup _ _ _ _ Hi) Hbq Hfl Hdev Hr) with (fuel := Nat.max fuel (length q))
      as (s' & E' & Hsame & Hc & _ & Hd & Hst); [intros ->; intros; by eapply idle_when_empty|lia|].
    assert (iderw_start (Nat.max fuel (length q)) true b (is_ide s) = Ok tt i') as E2 by (eapply start_more; [exact E|lia]).
    rewrite E' in E2. injection E2 as ->. by apply call_inv.
  - eexists _, _. by eapply work_inv.
  - destruct (ide_intr_inv d0 s q fin w err d h i' wk Hi Hb Hh E) as (q' & -> & Hi'). by eexists _, _.
  - eexists _, _. by apply resume_inv.
Qed.

(** The drive and its interrupts complete everything that is queued. *)
Lemma drain d0 s q fin : ide_inv d0 s q fin ->
  exists s' fin', rtc istep s s' /\ ide_inv d0 s' [] fin' /\ is_asked s' = is_asked s.
Proof.
  revert s fin. induction q as [|h q IH]; intros s fin Hi; [exists s, fin; split; [apply rtc_refl|done]|].
  assert (exists s1, rtc istep s s1 /\ ide_inv d0 s1 (h :: q) fin /\ is_asked s1 = is_asked s /\
    exists w err d, drive (is_ide s1) = DDone w err d) as (s1 & Hr1 & Hi1 & Ha1 & w & err & d & Hd).
  { destruct (ii_drive _ _ _ _ Hi) as [((r & Ed & _) & _)|(err & d & Ed & _)].
    - pose proof (proj1 (ii_chain _ _ _ _ Hi)) as Hq. eexists. split; [eapply rtc_once; by apply (is_work false _ _ _ _ _ Ed Hq)|].
      split; [by eapply work_inv|]. split; [done|]. cbn. unfold work. rewrite Ed. destruct (ib_dirty _); by eexists _, _, _.
    - exists s. split; [apply rtc_refl|]. split; [done|]. split; [done|]. by eexists _, _, _. }
  pose proof (ii_chain _ _ _ _ Hi1) as Hc1. pose proof (proj1 Hc1) as Hq1.
  destruct (intr_run _ h q _ _ _ Hd Hc1 (ii_nodup _ _ _ _ Hi1)) as (i' & E & _).
  { intros b Hb. apply (ii_req _ _ _ _ Hi1). by apply list_elem_of_further. }
  destruct (ide_intr_inv d0 _ _ _ _ _ _ _ _ _ Hi1 Hd Hq1 E) as (q' & [= <-] & Hi2).
  destruct (IH _ _ Hi2) as (s3 & fin3 & Hr3 & Hi3 & Ha3). exists s3, fin3. split; [|split; [done|by rewrite Ha3]].
  etrans; [exact Hr1|]. eapply rtc_l; [|exact Hr3]. by eapply is_intr.
Qed.

(** C18: The disk driver carries out requests one after the other, in the order
    of the calls.  However processes call [iderw], the drive works or fails
    and interrupts arrive: the calls made so far are the completed requests
    followed by those in the queue; the disk is the initial one changed by
    the writes the drive has done, and every completed request left in its
    buffer what a sequential disk would have returned, at the block its
    registers name; a process sleeps only while its request is queued, so
    none misses its wakeup; a call by a process that holds a buffer with
    something to do never panics or loops; and the drive with its interrupts
    alone completes everything that is pending. *)
Theorem ide_serves_in_order f two d0 s :
  rtc istep (ide_start f two d0) s ->
  exists q fin,
    is_asked s = fin.*1 ++ (req_of (ibufs (is_ide s)) <$> q) /\
    is_done s = replay d0 fin /\ fin `prefix_of` is_served s /\ disk (is_ide s) = foldl apply1 d0 (is_served s) /\
    (forall p b a, is_thr s p = IWait b a -> b ∈ q \/ (iderw_done (ibufs (is_ide s) b) = true /\ a = false)) /\
    (forall b, unused s b -> iderw_done (ibufs (is_ide s) b) = false ->
       ib_dev (ibufs (is_ide s) b) = 0 \/ havedisk1 (is_ide s) = true -> 0 <= ib_blockno (ibufs (is_ide s) b) < FSSIZE ->
       exists i', iderw_start (length q) true b (is_ide s) = Ok tt i') /\
    (exists s', rtc istep s s' /\ idequeue (is_ide s') = None /\ is_asked s' = is_asked s /\
       (is_served s').*1 = is_asked s /\
       forall p b a, is_thr s' p = IWait b a -> iderw_done (ibufs (is_ide s') b) = true /\ a = false).
Proof.
  intros Hr. assert (exists q fin, ide_inv d0 s q fin) as (q & fin & Hi).
  { revert Hr. apply (rtc_ind_r (fun s => exists q fin, ide_inv d0 s q fin)); [eexists _, _; apply ide_start_inv|].
    intros s1 s2 _ Hs (q & fin & Hi). by eapply istep_inv. }
  exists q, fin. split; [apply (ii_asked _ _ _ _ Hi)|]. split; [apply (ii_done _ _ _ _ Hi)|].
  assert (fin `prefix_of` is_served s /\ disk (is_ide s) = foldl apply1 d0 (is_served s)) as [H1 H2].
  { pose proof (ii_drive _ _ _ _ Hi) as Hd. destruct q as [|h q]; [destruct Hd as (_ & -> & ->); done|].
    destruct Hd as [(_ & -> & ->)|(err & data & _ & Hs & -> & _)]; [done|]. split; [rewrite Hs; by apply prefix_app_r|done]. }
  split; [done|]. split; [done|]. split; [apply (ii_thr _ _ _ _ Hi)|]. split.
  - intros b Hu Hfl Hdev Hb. destruct (start_run (is_ide s) b q (ii_chain _ _ _ _ Hi) (ii_nodup _ _ _ _ Hi)
      (unused_queue d0 s q fin b Hi Hu) Hfl Hdev Hb) with (fuel := length q) as (s' & E & _); [|done|by exists s'].
    intros ->. intros. by eapply idle_when_empty.
  - destruct (drain d0 s q fin Hi) as (s' & fin' & Hr' & Hi' & Ha'). exists s'. split; [done|]. split; [apply (ii_chain _ _ _ _ Hi')|].
    split; [done|]. split.
    + destruct (ii_drive _ _ _ _ Hi') as (_ & -> & _). rewrite <- Ha'. pose proof (ii_asked _ _ _ _ Hi') as E. cbn in E. by rewrite app_nil_r in E.
    + intros p b a E. destruct (ii_thr _ _ _ _ Hi' p b a E) as [[]%elem_of_nil|?]. done.
Qed.

(** One process writes a block, another reads it while the write is queued. *)
Definition demo_bufs (b : nat) : ibuf :=
  match b with
  | O => mk_ibuf true true 1 300 [7; 8] None
  | _ => mk_ibuf false false 1 300 [] None
  end.
Definition demo_call (p b : nat) (s : isys) : isys :=
  match iderw_start 2 true b (is_ide s) with
  | Ok _ i' => mk_isys i' (<[p := IWait b true]> (is_thr s)) (is_asked s ++ [req_of (ibufs (is_ide s)) b]) (is_served s) (is_done s)
  | _ => s
  end.
Definition demo_work (h : nat) (s : isys) : isys :=
  mk_isys (work false (is_ide s)) (is_thr s) (is_asked s) (is_served s ++ [(req_of (ibufs (is_ide s)) h, false)]) (is_done s).
Definition demo_intr (h : nat) (s : isys) : isys :=
  match ideintr (is_ide s) with
  | Ok wk i' => mk_isys i' (i_wake wk ∘ is_thr s) (is_asked s) (is_served s)
                  (is_done s ++ [(req_of (ibufs (is_ide s)) h, false, ib_data (ibufs i' h))])
  | _ => s
  end.
Definition demo0 : isys := ide_start demo_bufs true (fun _ _ => []).
Definition demo2 : isys := demo_call 1 1 (demo_call 0 0 demo0).
Definition demo4 : isys := demo_intr 0 (demo_work 0 demo2).
Definition demo6 : isys := demo_intr 1 (demo_work 1 demo4).

Lemma demo_reach : rtc istep demo0 demo6.
Proof.
  eapply rtc_l; [apply (is_call 0 0 2); [reflexivity|intros p a; done|reflexivity|by right|vm_compute; split; congruence|vm_compute; reflexivity]|].
  eapply rtc_l; [apply (is_call 1 1 2); [reflexivity|by intros [|[|p]] [] [=]|reflexivity|by right|vm_compute; split; congruence|vm_compute; reflexivity]|].
  eapply rtc_l; [eapply (is_work false _ _ _ 0); vm_compute; reflexivity|].
  eapply rtc_l; [eapply (is_intr _ false _ 0); vm_compute; reflexivity|].
  eapply rtc_l; [eapply (is_work false _ _ _ 1); vm_compute; reflexivity|].
  eapply rtc_l; [eapply (is_intr _ false _ 1); vm_compute; reflexivity|]. apply rtc_refl.
Defined.

Lemma ide_serves_in_order_witness :
  snd <$> is_done demo6 = [[7; 8]; [7; 8]] /\
  exists q fin,
    is_asked demo6 = fin.*1 ++ (req_of (ibufs (is_ide demo6)) <$> q) /\
    is_done demo6 = replay (fun _ _ => []) fin /\ fin `prefix_of` is_served demo6 /\
    disk (is_ide demo6) = foldl apply1 (fun _ _ => []) (is_served demo6) /\
    (forall p b a, is_thr demo6 p = IWait b a -> b ∈ q \/ (iderw_done (ibufs (is_ide demo6) b) = true /\ a = false)) /\
    (forall b, unused demo6 b -> iderw_done (ibufs (is_ide demo6) b) = false ->
       ib_dev (ibufs (is_ide demo6) b) = 0 \/ havedisk1 (is_ide demo6) = true -> 0 <= ib_blockno (ibufs (is_ide demo6) b) < FSSIZE ->
       exists i', iderw_start (length q) true b (is_ide demo6) = Ok tt i') /\
    (exists s', rtc istep demo6 s' /\ idequeue (is_ide s') = None /\ is_asked s' = is_asked demo6 /\
       (is_served s').*1 = is_asked demo6 /\
       forall p b a, is_thr s' p = IWait b a -> iderw_done (ibufs (is_ide s') b) = true /\ a = false).
Proof. split; [vm_compute; reflexivity|]. apply (ide_serves_in_order demo_bufs true (fun _ _ => []) demo6 demo_reach). Defined.
