(* ===== verification/Log.v ===== *)
(** * The redo log (log.c)

    File-system operations write blocks through [log_write], which only pins
    them in the cache; [commit] writes them to the on-disk log, then the
    header, then to their home locations, then clears the header.  The main
    theorems: a crash at any point of [commit], or of recovery itself,
    followed by recovery leaves the disk with all of the transaction or none
    of it; and the reservation protocol of [begin_op]/[end_op] never lets
    concurrent operations overflow the log. *)

From S2P Require Import Prelude Layout Ring Block Blockio Bio.

Definition MAXOPBLOCKS : Z := 10.
Definition LOGSIZE : Z := MAXOPBLOCKS * 3.

(** ** State *)

Record log := mk_log {
  log_start : Z;
  log_size : Z;
  log_outstanding : Z;
  log_committing : bool;
  log_dev : Z;
  lh_n : Z;                  (* log.lh.n *)
  lh_block : list Z          (* log.lh.block[LOGSIZE] *)
}.

Record superblock := mk_sb {
  sb_size : Z; sb_nblocks : Z; sb_ninodes : Z; sb_nlog : Z; sb_nswap : Z;
  sb_logstart : Z; sb_inodestart : Z; sb_bmapstart : Z; sb_swapstart : Z
}.

(** The block layer: cache, disk and log. *)
Record fdev := mk_fdev { fd_bc : bcache; fd_log : log }.

Definition set_fd_bc (b : bcache) (s : fdev) : fdev := mk_fdev b (fd_log s).
Definition set_fd_log (l : log) (s : fdev) : fdev := mk_fdev (fd_bc s) l.

#[export] Program Instance fdev_bc : Sub bcache fdev := { sub_get := fd_bc; sub_put := set_fd_bc }.
Next Obligation. done. Qed.
Next Obligation. done. Qed.
Next Obligation. by intros []. Qed.

#[export] Program Instance fdev_locks : HasLocks fdev := {
  held s := bc_locks (fd_bc s);
  set_held h s := set_fd_bc (set_bc_locks h (fd_bc s)) s
}.
Next Obligation. done. Qed.
Next Obligation. by intros [[]]. Qed.
Next Obligation. done. Qed.

Definition set_n (n : Z) (l : log) : log :=
  mk_log (log_start l) (log_size l) (log_outstanding l) (log_committing l) (log_dev l) n (lh_block l).
Definition set_blocks (bs : list Z) (l : log) : log :=
  mk_log (log_start l) (log_size l) (log_outstanding l) (log_committing l) (log_dev l) (lh_n l) bs.
Definition set_outstanding (n : Z) (l : log) : log :=
  mk_log (log_start l) (log_size l) n (log_committing l) (log_dev l) (lh_n l) (lh_block l).
Definition set_committing (c : bool) (l : log) : log :=
  mk_log (log_start l) (log_size l) (log_outstanding l) c (log_dev l) (lh_n l) (lh_block l).
Definition set_geometry (start size dev : Z) (l : log) : log :=
  mk_log start size (log_outstanding l) (log_committing l) dev (lh_n l) (lh_block l).

Definition log_do (f : log -> log) : M fdev unit := modify (fun s => set_fd_log (f (fd_log s)) s).
Definition log_get {A} (f : log -> A) : M fdev A := gets (fun s => f (fd_log s)).

(** log.lh.block[i], an array of LOGSIZE ints. *)
Definition lh_get (i : Z) : M fdev Z :=
  bs <- log_get lh_block ;;
  if (0 <=? i) && (i <? LOGSIZE) then kret (bs !!! Z.to_nat i) else fault "log.lh.block: index out of range".
Definition lh_set (i v : Z) : M fdev unit :=
  bs <- log_get lh_block ;;
  if (0 <=? i) && (i <? LOGSIZE) then log_do (set_blocks (<[Z.to_nat i := v]> bs))
  else fault "log.lh.block: index out of range".

(** ** Operations *)

(** [readsb]: block 1 holds the superblock. *)
Definition sb_of (d : bytes) : superblock :=
  mk_sb (get32 d 0) (get32 d 4) (get32 d 8) (get32 d 12) (get32 d 16)
        (get32 d 20) (get32 d 24) (get32 d 28) (get32 d 32).
Definition readsb (dev : Z) : M bcache superblock :=
  bp <- bread dev 1 ;;
  d <- bdata bp ;;
  brelse bp ;;;
  kret (sb_of d).

(** [struct logheader] in the header block. *)
Definition hdr_n (d : bytes) : Z := s32 (get32 d 0).
Definition hdr_block (d : bytes) (i : nat) : Z := s32 (get32 d (4 + 4 * i)).

Fixpoint install_loop (k : nat) (tail : Z) : M fdev unit :=
  match k with
  | O => kret tt
  | Datatypes.S k' =>
      dev <- log_get log_dev ;;
      start <- log_get log_start ;;
      lbuf <- lift (bread dev (u32 (start + tail + 1))) ;;
      home <- lh_get tail ;;
      dbuf <- lift (bread dev (u32 home)) ;;
      d <- lift (bdata lbuf) ;;
      lift (bset dbuf d) ;;;
      lift (bwrite dbuf) ;;;
      lift (brelse lbuf) ;;;
      lift (brelse dbuf) ;;;
      install_loop k' (tail + 1)
  end.
Definition install_trans : M fdev unit := n <- log_get lh_n ;; install_loop (Z.to_nat n) 0.

Fixpoint read_head_loop (k : nat) (i : Z) (d : bytes) : M fdev unit :=
  match k with
  | O => kret tt
  | Datatypes.S k' => lh_set i (hdr_block d (Z.to_nat i)) ;;; read_head_loop k' (i + 1) d
  end.
Definition read_head : M fdev unit :=
  dev <- log_get log_dev ;;
  start <- log_get log_start ;;
  buf <- lift (bread dev (u32 start)) ;;
  d <- lift (bdata buf) ;;
  log_do (set_n (hdr_n d)) ;;;
  read_head_loop (Z.to_nat (hdr_n d)) 0 d ;;;
  lift (brelse buf).

Fixpoint write_head_loop (k : nat) (i : Z) (buf : nat) : M fdev unit :=
  match k with
  | O => kret tt
  | Datatypes.S k' =>
      b <- lh_get i ;;
      d <- lift (bdata buf) ;;
      lift (bset buf (put32 (4 + 4 * Z.to_nat i) b d)) ;;;
      write_head_loop k' (i + 1) buf
  end.
Definition write_head : M fdev unit :=
  dev <- log_get log_dev ;;
  start <- log_get log_start ;;
  buf <- lift (bread dev (u32 start)) ;;
  n <- log_get lh_n ;;
  d <- lift (bdata buf) ;;
  lift (bset buf (put32 0 n d)) ;;;
  write_head_loop (Z.to_nat n) 0 buf ;;;
  lift (bwrite buf) ;;;
  lift (brelse buf).

Definition recover_from_log : M fdev unit :=
  read_head ;;;
  install_trans ;;;
  log_do (set_n 0) ;;;
  write_head.

Definition initlog (dev : Z) : M fdev unit :=
  modify (fun s => set_held (held s ∖ {["log"]}) s) ;;;
  sb <- lift (readsb dev) ;;
  log_do (set_geometry (sb_logstart sb) (sb_nlog sb) dev) ;;;
  recover_from_log.

Fixpoint write_log_loop (k : nat) (tail : Z) : M fdev unit :=
  match k with
  | O => kret tt
  | Datatypes.S k' =>
      dev <- log_get log_dev ;;
      start <- log_get log_start ;;
      to <- lift (bread dev (u32 (start + tail + 1))) ;;
      home <- lh_get tail ;;
      from <- lift (bread dev (u32 home)) ;;
      d <- lift (bdata from) ;;
      lift (bset to d) ;;;
      lift (bwrite to) ;;;
      lift (brelse from) ;;;
      lift (brelse to) ;;;
      write_log_loop k' (tail + 1)
  end.
Definition write_log : M fdev unit := n <- log_get lh_n ;; write_log_loop (Z.to_nat n) 0.

Definition commit : M fdev unit :=
  n <- log_get lh_n ;;
  when 0 <? n do
    (write_log ;;;
     write_head ;;;
     install_trans ;;;
     log_do (set_n 0) ;;;
     write_head).

(** [begin_op] sleeps on the log while it is committing or full. *)
Definition begin_op : M fdev unit :=
  acquire "log" ;;;
  l <- log_get (fun l => l) ;;
  if log_committing l then block "log"
  else if LOGSIZE <? lh_n l + (log_outstanding l + 1) * MAXOPBLOCKS then block "log"
  else log_do (set_outstanding (log_outstanding l + 1)) ;;; release "log".

(** [end_op] in three parts, as the lock is free during the commit: leave
    the transaction, telling whether this was the last operation; commit;
    clear [committing].  [wakeup(&log)] has no effect on this state. *)
Definition end_op_leave : M fdev bool :=
  acquire "log" ;;;
  n <- log_get log_outstanding ;;
  log_do (set_outstanding (n - 1)) ;;;
  c <- log_get log_committing ;;
  if c then panic "log.committing"
  else
    let do_commit := n - 1 =? 0 in
    (when do_commit do log_do (set_committing true)) ;;;
    release "log" ;;;
    kret do_commit.
Definition end_op_done : M fdev unit :=
  acquire "log" ;;;
  log_do (set_committing false) ;;;
  release "log".
Definition end_op : M fdev unit :=
  do_commit <- end_op_leave ;;
  when do_commit do (commit ;;; end_op_done).

(** The index of [b] among the first [k] logged blocks from [i], else [i + k]. *)
Fixpoint log_find (k : nat) (i : Z) (b : Z) (bs : list Z) : Z :=
  match k with
  | O => i
  | Datatypes.S k' => if bs !!! Z.to_nat i =? b then i else log_find k' (i + 1) b bs
  end.

Definition log_write (bp : nat) : M fdev unit :=
  l <- log_get (fun l => l) ;;
  if (LOGSIZE <=? lh_n l) || (log_size l - 1 <=? lh_n l) then panic "too big a transaction"
  else if log_outstanding l <? 1 then panic "log_write outside of trans"
  else
    acquire "log" ;;;
    b <- lift (getb bp) ;;
    let i := log_find (Z.to_nat (lh_n l)) 0 (s32 (b_blockno b)) (lh_block l) in
    lh_set i (s32 (b_blockno b)) ;;;
    (when i =? lh_n l do log_do (set_n (lh_n l + 1))) ;;;
    lift (pin bp) ;;;
    release "log".

(** ** Sequences of block writes *)

(** Contents after the writes [ws], given as (block, data) pairs. *)
Definition puts (f : Z -> bytes) (ws : list (Z * bytes)) : Z -> bytes :=
  foldl (fun f w => zupd f w.1 w.2) f ws.

Lemma puts_app f ws1 ws2 : puts f (ws1 ++ ws2) = puts (puts f ws1) ws2.
Proof. apply foldl_app. Qed.

Lemma puts_ext f g ws bn : (forall b, f b = g b) -> puts f ws bn = puts g ws bn.
Proof.
  revert f g. induction ws as [|w ws IH]; intros f g H; simpl; [apply H|]. apply IH. intros b. unfold zupd. by case_decide.
Qed.

Lemma puts_other f ws bn : bn ∉ ws.*1 -> puts f ws bn = f bn.
Proof.
  revert f. induction ws as [|w ws IH]; intros f H; simpl in *; [done|]. rewrite not_elem_of_cons in H.
  rewrite IH by tauto. unfold zupd. rewrite decide_False; [done|]. tauto.
Qed.

Lemma puts_agree f g ws bn : bn ∈ ws.*1 -> puts f ws bn = puts g ws bn.
Proof.
  revert f g. induction ws as [|w ws IH]; intros f g H; simpl in *; [by apply elem_of_nil in H|].
  destruct (decide (bn ∈ ws.*1)) as [Hin|Hn]; [by apply IH|].
  apply elem_of_cons in H as [->|H]; [|done]. rewrite !puts_other by done. unfold zupd. by rewrite !decide_True.
Qed.

(** ** The state of the block layer, as the log's proofs see it *)

Definition ROOT (b : Z) : Z * Z := (1, b).
Definition keyed (ws : list (Z * bytes)) : list ((Z * Z) * bytes) := (fun w => (ROOT w.1, w.2)) <$> ws.

(** [V]: cache contents, [O]: owners, [D]: pinned, [W]: disk contents,
    [h]: the writes so far. *)
Record St (s : fdev) (l : log) (p : Z) (L : gset string) (V : Z -> bytes) (O : Z -> option Z) (D : Z -> bool)
    (W : Z -> bytes) (h : list ((Z * Z) * bytes)) : Prop := {
  st_log : fd_log s = l;
  st_ok : bio_ok (fd_bc s);
  st_shows : shows (fd_bc s) V O D;
  st_disk : forall bn, disk_block (fd_bc s) (1, bn) = W bn;
  st_hist : history (fd_bc s) = h;
  st_pid : mypid (fd_bc s) = p;
  st_locks : bc_locks (fd_bc s) = L
}.

Lemma St_ext s l p L V O D W h V' O' D' W' :
  (forall b, V' b = V b) -> (forall b, O' b = O b) -> (forall b, D' b = D b) -> (forall b, W' b = W b) ->
  St s l p L V O D W h -> St s l p L V' O' D' W' h.
Proof.
  intros HV HO HD HW [H1 H2 H3 H4 H5 H6 H7]. split; try done; [by eapply shows_ext|]. intros bn. by rewrite H4, HW.
Qed.

Lemma St_log s l l' p L V O D W h : St s l p L V O D W h -> St (set_fd_log l' s) l' p L V O D W h.
Proof. intros [H1 H2 H3 H4 H5 H6 H7]. by split. Qed.

Lemma St_set_held s l p L L' V O D W h :
  St s l p L V O D W h -> "bcache" ∉ L' -> St (set_held L' s) l p L' V O D W h.
Proof.
  intros [H1 [o [A1 A2 A3 A4 A5 A6 A7]] H3 H4 H5 H6 H7] HL. split; try done.
  - exists o. split; try done. intros i b Hi Hb. apply (buf_ok_disk (fd_bc s)); [done|]. by apply (A4 i).
  - apply shows_intro. intros b. exact (shows_elim _ _ _ _ b H3).
Qed.

Lemma St_no_bcache s l p L V O D W h : St s l p L V O D W h -> "bcache" ∉ L.
Proof. intros [_ [o Hinv] _ _ _ _ <-]. apply (bi_lock _ _ Hinv). Qed.

(** The process holds buffer [i] for block [bn]. *)
Definition holds (s : fdev) (i : nat) (bn : Z) : Prop := hbuf (fd_bc s) i bn.

Section Steps.
Context {s : fdev} {l : log} {p : Z} {L : gset string} {V : Z -> bytes} {O : Z -> option Z} {D : Z -> bool}
  {W : Z -> bytes} {h : list ((Z * Z) * bytes)}.
Context (HS : St s l p L V O D W h).

Lemma St_block bn : is_block (V bn) /\ is_block (W bn).
Proof.
  destruct (st_ok _ _ _ _ _ _ _ _ _ HS) as [o Hinv]. rewrite <- (st_disk _ _ _ _ _ _ _ _ _ HS bn).
  split; [|apply (bi_disk _ _ Hinv)]. rewrite <- (sh_view _ _ _ _ (st_shows _ _ _ _ _ _ _ _ _ HS) bn).
  unfold bview. destruct (holder (bufs (fd_bc s)) bn) as [[i b]|] eqn:E; [|apply (bi_disk _ _ Hinv)].
  apply holder_Some in E as (Hi & Hb & _). apply (bi_bufs _ _ Hinv i b Hi Hb).
Qed.

(** A buffer for [bn] exists: it is pinned, or fewer than NBUF blocks are
    in use. *)
Definition fits (bn : Z) : Prop :=
  D bn = true \/ exists X, (forall b, O b <> None \/ D b = true -> b ∈ X) /\ (length X < NBUF)%nat.

Lemma St_bread bn :
  0 <= bn < FSSIZE -> O bn = None -> fits bn ->
  wp (lift (bread ROOTDEV bn)) (fun i s' => St s' l p L V (zupd O bn (Some p)) D W h /\ holds s' i bn /\
    forall j b, holds s j b -> j <> i /\ holds s' j b) s.
Proof.
  intros Hbn HO Hfit. destruct HS as [H1 H2 H3 H4 H5 H6 H7]. apply wp_lift. cbn [sub_get fdev_bc].
  assert (room (fd_bc s) bn) as Hroom.
  { destruct Hfit as [Hd|(X & HX & Hlen)]; [|by eapply room_count].
    left. destruct (shows_elim _ _ _ _ bn H3) as (_ & _ & ED). rewrite Hd in ED.
    destruct (holder (bufs (fd_bc s)) bn); [done|]. by simpl in ED. }
  eapply wp_mono; [by apply (bread_wp (fd_bc s) V O D bn)|].
  intros i b' (Hok & Hsh & (E1 & E2 & E3 & E4 & E5) & Hh & Hhs). rewrite H6 in Hsh.
  split; [|split; [exact Hh|exact Hhs]]. split; cbn [fd_bc fd_log set_fd_bc sub_put fdev_bc]; try done; try congruence.
  intros bn'. rewrite <- H4. unfold disk_block. by rewrite E1.
Qed.

Lemma St_bdata i bn : holds s i bn -> lift (bdata i) s = Ok (V bn) s.
Proof.
  intros Hh. destruct HS as [H1 H2 H3 H4 H5 H6 H7]. unfold lift. cbn [sub_get fdev_bc].
  rewrite (bdata_eq _ V O D i bn H2 H3 Hh). f_equal. by destruct s.
Qed.

Lemma St_bset i bn d :
  holds s i bn -> is_block d ->
  wp (lift (bset i d)) (fun _ s' => St s' l p L (zupd V bn d) O D W h /\ forall j b, holds s j b -> holds s' j b) s.
Proof.
  intros Hh Hd. destruct HS as [H1 H2 H3 H4 H5 H6 H7]. apply wp_lift. cbn [sub_get fdev_bc].
  eapply wp_mono; [by apply (bset_wp (fd_bc s) V O D i bn d)|].
  intros [] b' (Hok & Hsh & (E1 & E2 & E3 & E4 & E5) & Hhs).
  split; [|exact Hhs]. split; cbn [fd_bc fd_log set_fd_bc sub_put fdev_bc]; try done; try congruence.
  intros bn'. rewrite <- H4. unfold disk_block. by rewrite E1.
Qed.

Lemma St_pin i bn :
  holds s i bn ->
  wp (lift (pin i)) (fun _ s' => St s' l p L V O (zupd D bn true) W h /\ forall j b, holds s j b -> holds s' j b) s.
Proof.
  intros Hh. destruct HS as [H1 H2 H3 H4 H5 H6 H7]. apply wp_lift. cbn [sub_get fdev_bc].
  eapply wp_mono; [by apply (pin_wp (fd_bc s) V O D i bn)|].
  intros [] b' (Hok & Hsh & (E1 & E2 & E3 & E4 & E5) & Hhs).
  split; [|exact Hhs]. split; cbn [fd_bc fd_log set_fd_bc sub_put fdev_bc]; try done; try congruence.
  intros bn'. rewrite <- H4. unfold disk_block. by rewrite E1.
Qed.

Lemma St_bwrite i bn :
  holds s i bn ->
  wp (lift (bwrite i)) (fun _ s' => St s' l p L V O (zupd D bn false) (zupd W bn (V bn)) (h ++ [(ROOT bn, V bn)]) /\
    forall j b, holds s j b -> holds s' j b) s.
Proof.
  intros Hh. destruct HS as [H1 H2 H3 H4 H5 H6 H7]. apply wp_lift. cbn [sub_get fdev_bc].
  eapply wp_mono; [by apply (bwrite_wp (fd_bc s) V O D i bn)|].
  intros [] b' (Hok & Hsh & (E1 & E2 & E3 & E4 & E5) & Hhs).
  unfold ROOT. split; [|exact Hhs]. split; cbn [fd_bc fd_log set_fd_bc sub_put fdev_bc]; try done; try congruence.
  intros bn'. unfold disk_block. rewrite E1. unfold zupd. case_decide as E.
  - subst bn'. by rewrite lookup_insert_eq.
  - rewrite lookup_insert_ne by congruence. apply H4.
Qed.

Lemma St_brelse i bn :
  holds s i bn -> D bn = true \/ V bn = W bn ->
  wp (lift (brelse i)) (fun _ s' => St s' l p L V (zupd O bn None) D W h /\
    forall j b, holds s j b -> j <> i -> holds s' j b) s.
Proof.
  intros Hh Hcl. destruct HS as [H1 H2 H3 H4 H5 H6 H7]. apply wp_lift. cbn [sub_get fdev_bc]. rewrite <- H4 in Hcl.
  eapply wp_mono; [by apply (brelse_wp (fd_bc s) V O D i bn)|].
  intros [] b' (Hok & Hsh & (E1 & E2 & E3 & E4 & E5) & Hhs).
  split; [|exact Hhs]. split; cbn [fd_bc fd_log set_fd_bc sub_put fdev_bc]; try done; try congruence.
  intros bn'. rewrite <- H4. unfold disk_block. by rewrite E1.
Qed.

Lemma holds_inj i j bn bn' : holds s i bn -> holds s j bn' -> i = j <-> bn = bn'.
Proof. apply hbuf_uniq. apply HS. Qed.
End Steps.

(** Copying block [src] to block [dst], both held, to cache and disk. *)
Lemma copy_held {A} {s l p L V O D W h} {i j src dst} (c : M fdev A) Q :
  St s l p L V O D W h -> holds s i src -> holds s j dst -> src <> dst -> D src = true \/ V src = W src ->
  (forall s', St s' l p L (zupd V dst (V src)) (zupd (zupd O src None) dst None) (zupd D dst false)
     (zupd W dst (V src)) (h ++ [(ROOT dst, V src)]) -> wp c Q s') ->
  wp (d <- lift (bdata i) ;; lift (bset j d) ;;; lift (bwrite j) ;;; lift (brelse i) ;;; lift (brelse j) ;;; c) Q s.
Proof.
  intros HS Hi Hj Hne Hcl Hk. assert (i <> j) as Hij by (intros E; by apply (holds_inj HS i j src dst Hi Hj) in E).
  apply wp_bind. eapply wp_eq; [by apply (St_bdata HS)|].
  apply wp_bind. eapply wp_mono; [apply (St_bset HS j dst (V src) Hj), (St_block HS)|]. intros [] s1 [HS1 Hh1].
  apply wp_bind. eapply wp_mono; [apply (St_bwrite HS1 j dst); auto|]. intros [] s2 [HS2 Hh2].
  assert (zupd V dst (V src) dst = V src) as Ed by (unfold zupd; by rewrite decide_True).
  rewrite Ed in HS2.
  apply wp_bind. eapply wp_mono; [apply (St_brelse HS2 i src); [by auto|]|].
  { unfold zupd. rewrite !decide_False by done. done. }
  intros [] s3 [HS3 Hh3].
  apply wp_bind. eapply wp_mono; [apply (St_brelse HS3 j dst); [by auto|]|].
  { right. unfold zupd. by rewrite !decide_True. }
  intros [] s4 [HS4 _]. by apply Hk.
Qed.

Definition nobody : Z -> option Z := fun _ => None.

(** [b] lies outside the log, whose header and blocks take [LOGSIZE] blocks. *)
Definition outside (start b : Z) : Prop := ~ start <= b < start + LOGSIZE.

(** The log's geometry and the list [T] of home blocks it holds. *)
Record log_ok (l : log) (start : Z) (T : list Z) : Prop := {
  lo_start : log_start l = start;
  lo_dev : log_dev l = ROOTDEV;
  lo_n : lh_n l = Z.of_nat (length T);
  lo_len : length (lh_block l) = Z.to_nat LOGSIZE;
  lo_blocks : take (length T) (lh_block l) = T;
  lo_region : 0 <= start /\ start + LOGSIZE <= FSSIZE;
  lo_home : forall b, b ∈ T -> 0 <= b < FSSIZE /\ outside start b;
  lo_fits : (length T < 30)%nat
}.

Lemma log_ok_start l start T : log_ok l start T -> start ∉ T.
Proof. intros Hlog Hin. destruct (lo_home _ _ _ Hlog start Hin) as [_ Ho]. unfold outside, LOGSIZE, MAXOPBLOCKS in Ho. lia. Qed.

Lemma log_ok_len l start T : log_ok l start T -> (length T < 30)%nat.
Proof. apply lo_fits. Qed.

Section Loops.
Context {l : log} {start : Z} {T : list Z} (Hlog : log_ok l start T) (HND : NoDup T).
Context {p : Z} {L : gset string}.
Notation n := (length T).

Lemma lh_get_eq s V O D W h i b :
  St s l p L V O D W h -> T !! i = Some b -> lh_get (Z.of_nat i) s = Ok b s.
Proof.
  intros HS Hb. pose proof (log_ok_len _ _ _ Hlog). assert (i < n)%nat by (by eapply lookup_lt_Some).
  unfold lh_get, log_get, kbind, gets. rewrite (st_log _ _ _ _ _ _ _ _ _ HS).
  rewrite (proj2 (Z.leb_le _ _)) by lia. rewrite (proj2 (Z.ltb_lt _ _)) by (unfold LOGSIZE, MAXOPBLOCKS; lia).
  cbn [andb]. unfold kret. f_equal. rewrite Nat2Z.id. apply list_lookup_total_correct.
  rewrite <- (lo_blocks _ _ _ Hlog) in Hb. by apply lookup_take_Some in Hb as [? _].
Qed.

Lemma home_range i b : T !! i = Some b ->
  0 <= b < FSSIZE /\ ~ start <= b < start + 1 + Z.of_nat n /\ 0 <= start + Z.of_nat i + 1 < FSSIZE /\
  start < start + Z.of_nat i + 1 < start + 1 + Z.of_nat n.
Proof.
  intros Hb. assert (i < n)%nat by (by eapply lookup_lt_Some).
  destruct (lo_home _ _ _ Hlog b) as [? ?]; [by eapply list_elem_of_lookup_2|].
  pose proof (lo_region _ _ _ Hlog). pose proof (log_ok_len _ _ _ Hlog).
  unfold outside, LOGSIZE, MAXOPBLOCKS in *. lia.
Qed.

Lemma u32_block b : 0 <= b < FSSIZE -> u32 b = b.
Proof. intros. apply u32_id. unfold FSSIZE in *. lia. Qed.

Lemma log_get_eq {A} (f : log -> A) {B} (c : A -> M fdev B) Q s V O D W h :
  St s l p L V O D W h -> wp (c (f l)) Q s -> wp (x <- log_get f ;; c x) Q s.
Proof. intros HS Hw. apply wp_bind, wp_gets. by rewrite (st_log _ _ _ _ _ _ _ _ _ HS). Qed.

(** Blocks in use: [X] bounds the pinned ones. *)
Context (X : list Z) (HX : (length X < NBUF)%nat).

Lemma fits_pinned (O : Z -> option Z) (D : Z -> bool) bn :
  (forall b, O b = None) -> (forall b, D b = true -> b ∈ X) -> @fits O D bn.
Proof. intros HO HD. right. exists X. split; [|done]. intros b [Hb|Hb]; [by rewrite HO in Hb|by apply HD]. Qed.

Lemma fits_one (O : Z -> option Z) (D : Z -> bool) bn b0 v :
  (forall b, O b = None) -> (forall b, D b = true -> b ∈ X) -> D bn = true \/ (length X < 29)%nat ->
  @fits (zupd O b0 v) D bn.
Proof.
  intros HO HD [?|Hl]; [by left|]. right. exists (b0 :: X). split; [|simpl; unfold NBUF; lia].
  intros b [Hb|Hb]; [|by apply list_elem_of_further, HD]. unfold zupd in Hb.
  case_decide; [subst; apply list_elem_of_here|by rewrite HO in Hb].
Qed.

Lemma install_loop_spec (E : list bytes) : length E = n -> forall k i s V D W h,
  (i + k = n)%nat -> St s l p L V nobody D W h ->
  (forall j b e, T !! j = Some b -> E !! j = Some e ->
     V (start + Z.of_nat j + 1) = e /\ W (start + Z.of_nat j + 1) = e) ->
  (forall b, D b = true -> b ∈ X) -> (forall b, b ∈ drop i T -> D b = true \/ (length X < 29)%nat) ->
  let ws := zip (drop i T) (drop i E) in
  wp (install_loop k (Z.of_nat i)) (fun _ s' =>
    St s' l p L (puts V ws) nobody (fun b => if decide (b ∈ drop i T) then false else D b) (puts W ws) (h ++ keyed ws)) s.
Proof.
  intros HE. induction k as [|k IH]; intros i s V D W h Hik HS Hlg HDX Hfit ws.
  - unfold ws. rewrite !drop_ge by lia. simpl. apply wp_ret. rewrite app_nil_r.
    exact HS.
  - destruct (lookup_lt_is_Some_2 T i ltac:(lia)) as [b Hb]. destruct (lookup_lt_is_Some_2 E i ltac:(lia)) as [e He].
    destruct (home_range i b Hb) as (Hbr & Hbo & Hlr & Hlo). destruct (Hlg i b e Hb He) as [EV EW].
    set (lb := start + Z.of_nat i + 1) in *.
    unfold ws. rewrite (drop_S T b i Hb), (drop_S E e i He). cbn [zip_with]. rewrite (drop_S T b i Hb) in Hfit.
    cbn [install_loop]. apply (log_get_eq _ _ _ _ _ _ _ _ _ HS), (log_get_eq _ _ _ _ _ _ _ _ _ HS).
    rewrite (lo_dev _ _ _ Hlog), (lo_start _ _ _ Hlog). fold lb. rewrite (u32_block lb) by done.
    apply wp_bind. eapply wp_mono; [apply (St_bread HS lb Hlr eq_refl), fits_pinned; done|].
    intros lbuf s1 (HS1 & Hh1 & _).
    apply wp_bind. eapply wp_eq; [by apply (lh_get_eq _ _ _ _ _ _ _ _ HS1)|]. rewrite (u32_block b) by done.
    apply wp_bind. eapply wp_mono; [apply (St_bread HS1 b Hbr)|].
    { unfold zupd. rewrite decide_False by lia. done. }
    { apply fits_one; [done|done|]. apply Hfit, list_elem_of_here. }
    intros dbuf s2 (HS2 & Hh2 & Hp2). apply (copy_held (install_loop k (Z.of_nat i + 1)) _ HS2 (proj2 (Hp2 _ _ Hh1)) Hh2); [lia|right; congruence|].
    intros s3 HS3. rewrite EV in HS3. replace (Z.of_nat i + 1) with (Z.of_nat (S i)) by lia.
    eapply wp_mono; [eapply (IH (S i) s3 _ (zupd D b false)); [lia| | | |]|].
    + eapply St_ext; [| | | |exact HS3]; try done. intros x. unfold nobody, zupd. by repeat case_decide.
    + intros j b' e' Hb' He'. destruct (home_range j b' Hb') as (_ & _ & _ & Hj).
      unfold zupd. rewrite !decide_False by lia. by apply (Hlg j b' e').
    + intros x. unfold zupd. case_decide; [done|]. apply HDX.
    + intros x Hx. assert (x <> b) as Hxb.
      { intros ->. apply list_elem_of_lookup in Hx as [j Hj].
        rewrite lookup_drop in Hj. pose proof (NoDup_lookup T i (S i + j) b ltac:(done) Hb Hj). lia. }
      unfold zupd. rewrite decide_False by done. apply Hfit. by apply list_elem_of_further.
    + intros [] s4 HS4. replace (h ++ keyed ((b, e) :: zip (drop (S i) T) (drop (S i) E)))
        with ((h ++ [(ROOT b, e)]) ++ keyed (zip (drop (S i) T) (drop (S i) E))) by (rewrite <- app_assoc; done).
      eapply St_ext; [| | | |exact HS4]; try done. intros x. unfold zupd.
      destruct (decide (x ∈ drop (S i) T)) as [Hx|Hx]; [by rewrite decide_True by (by apply list_elem_of_further)|].
      destruct (decide (x = b)) as [->|Hxb]; [by rewrite decide_True by apply list_elem_of_here|].
      rewrite decide_False; [done|]. by rewrite not_elem_of_cons.
Qed.

(** The blocks of the log that receive the transaction. *)
Definition log_blocks (i : nat) : list Z := (fun j => start + Z.of_nat j + 1) <$> seq i (n - i).

Lemma log_blocks_S i : (i < n)%nat -> log_blocks i = (start + Z.of_nat i + 1) :: log_blocks (S i).
Proof.
  clear. intros Hi. unfold log_blocks. replace (n - i)%nat with (S (n - S i)) by lia. done.
Qed.

Lemma elem_of_log_blocks i x : x ∈ log_blocks i -> start < x < start + 1 + Z.of_nat n.
Proof. clear. unfold log_blocks. rewrite list_elem_of_fmap. intros (j & -> & Hj). apply elem_of_seq in Hj. lia. Qed.

Lemma write_log_loop_spec (E : list bytes) : length E = n -> forall k i s V D W h,
  (i + k = n)%nat -> St s l p L V nobody D W h ->
  (forall j b e, T !! j = Some b -> E !! j = Some e -> V b = e) ->
  (forall b, D b = true <-> b ∈ T) -> (forall b, D b = true -> b ∈ X) ->
  let ws := zip (log_blocks i) (drop i E) in
  wp (write_log_loop k (Z.of_nat i)) (fun _ s' =>
    St s' l p L (puts V ws) nobody D (puts W ws) (h ++ keyed ws)) s.
Proof.
  intros HE. induction k as [|k IH]; intros i s V D W h Hik HS Hlg HDT HDX ws.
  - unfold ws. rewrite drop_ge by lia. rewrite zip_with_nil_r. simpl. apply wp_ret. rewrite app_nil_r. exact HS.
  - destruct (lookup_lt_is_Some_2 T i ltac:(lia)) as [b Hb]. destruct (lookup_lt_is_Some_2 E i ltac:(lia)) as [e He].
    destruct (home_range i b Hb) as (Hbr & Hbo & Hlr & Hlo). pose proof (Hlg i b e Hb He) as EV.
    assert (D b = true) as HDb by (apply HDT; by eapply list_elem_of_lookup_2).
    unfold ws. rewrite log_blocks_S, (drop_S E e i He) by lia. cbn [zip_with].
    set (lb := start + Z.of_nat i + 1) in *.
    assert (D lb = false) as HDl.
    { destruct (D lb) eqn:Ed; [|done]. apply HDT in Ed. apply list_elem_of_lookup in Ed as [j Hj].
      destruct (home_range j lb Hj) as (_ & ? & _). lia. }
    cbn [write_log_loop]. apply (log_get_eq _ _ _ _ _ _ _ _ _ HS), (log_get_eq _ _ _ _ _ _ _ _ _ HS).
    rewrite (lo_dev _ _ _ Hlog), (lo_start _ _ _ Hlog). fold lb. rewrite (u32_block lb) by done.
    apply wp_bind. eapply wp_mono; [apply (St_bread HS lb Hlr eq_refl), fits_pinned; done|].
    intros to s1 (HS1 & Hh1 & _).
    apply wp_bind. eapply wp_eq; [by apply (lh_get_eq _ _ _ _ _ _ _ _ HS1)|]. rewrite (u32_block b) by done.
    apply wp_bind. eapply wp_mono; [apply (St_bread HS1 b Hbr)|].
    { unfold zupd. rewrite decide_False by lia. done. }
    { by left. }
    intros from s2 (HS2 & Hh2 & Hp2).
    apply (copy_held (write_log_loop k (Z.of_nat i + 1)) _ HS2 Hh2 (proj2 (Hp2 _ _ Hh1))); [lia|by left|].
    intros s3 HS3. rewrite EV in HS3. replace (Z.of_nat i + 1) with (Z.of_nat (S i)) by lia.
    eapply wp_mono; [eapply (IH (S i) s3 _ D); [lia| | |done|done]|].
    + eapply St_ext; [| | | |exact HS3]; try done; intros x; unfold nobody, zupd; by repeat case_decide; subst.
    + intros j b' e' Hb' He'. destruct (home_range j b' Hb') as (_ & ? & _).
      unfold zupd. rewrite decide_False by lia. by apply (Hlg j b' e').
    + intros [] s4 HS4. replace (h ++ keyed ((lb, e) :: zip (log_blocks (S i)) (drop (S i) E)))
        with ((h ++ [(ROOT lb, e)]) ++ keyed (zip (log_blocks (S i)) (drop (S i) E))) by (rewrite <- app_assoc; done).
      exact HS4.
Qed.

(** *** The header block *)

Fixpoint put_blocks (i : nat) (bs : list Z) (d : bytes) : bytes :=
  match bs with
  | [] => d
  | b :: bs' => put_blocks (S i) bs' (put32 (4 + 4 * i) b d)
  end.
Definition header (d : bytes) : bytes := put_blocks 0 T (put32 0 (Z.of_nat n) d).

Lemma write_head_loop_spec k : forall i s V D W h buf,
  (i + k = n)%nat -> St s l p L V (zupd nobody start (Some p)) D W h -> holds s buf start ->
  wp (write_head_loop k (Z.of_nat i) buf) (fun _ s' =>
    St s' l p L (zupd V start (put_blocks i (drop i T) (V start))) (zupd nobody start (Some p)) D W h /\ holds s' buf start) s.
Proof.
  induction k as [|k IH]; intros i s V D W h buf Hik HS Hh.
  - rewrite drop_ge by lia. simpl. apply wp_ret. split; [|done].
    eapply St_ext; [| | | |exact HS]; try done. intros b. symmetry. by apply zupd_self.
  - destruct (lookup_lt_is_Some_2 T i ltac:(lia)) as [b Hb]. rewrite (drop_S T b i Hb). cbn [write_head_loop put_blocks].
    apply wp_bind. eapply wp_eq; [by apply (lh_get_eq _ _ _ _ _ _ _ _ HS)|].
    apply wp_bind. eapply wp_eq; [by apply (St_bdata HS)|]. rewrite Nat2Z.id.
    apply wp_bind. eapply wp_mono; [apply (St_bset HS buf start); [done|apply put32_block, (St_block HS)]|].
    intros [] s1 [HS1 Hh1]. replace (Z.of_nat i + 1) with (Z.of_nat (S i)) by lia.
    eapply wp_mono; [apply (IH (S i) s1 _ D W h buf ltac:(lia) HS1); by apply Hh1|].
    intros [] s2 [HS2 Hh2]. split; [|done]. eapply St_ext; [| | | |exact HS2]; try done.
    intros x. unfold zupd. case_decide; [|done]. by rewrite decide_True.
Qed.

Lemma write_head_spec s V D W h :
  St s l p L V nobody D W h -> (forall b, D b = true -> b ∈ X) -> D start = false ->
  wp write_head (fun _ s' => St s' l p L (zupd V start (header (V start))) nobody D (zupd W start (header (V start)))
    (h ++ [(ROOT start, header (V start))])) s.
Proof.
  intros HS HDX HDs. pose proof (lo_region _ _ _ Hlog) as Hreg. unfold LOGSIZE, MAXOPBLOCKS in Hreg. unfold write_head.
  apply (log_get_eq _ _ _ _ _ _ _ _ _ HS), (log_get_eq _ _ _ _ _ _ _ _ _ HS).
  rewrite (lo_dev _ _ _ Hlog), (lo_start _ _ _ Hlog), (u32_block start) by lia.
  apply wp_bind. eapply wp_mono; [apply (St_bread HS start ltac:(lia) eq_refl), fits_pinned; done|].
  intros buf s1 (HS1 & Hh1 & _). apply (log_get_eq _ _ _ _ _ _ _ _ _ HS1).
  apply wp_bind. eapply wp_eq; [by apply (St_bdata HS1)|].
  apply wp_bind. eapply wp_mono; [apply (St_bset HS1 buf start); [done|apply put32_block, (St_block HS1)]|].
  intros [] s2 [HS2 Hh2]. rewrite (lo_n _ _ _ Hlog), Nat2Z.id in *.
  apply wp_bind. eapply wp_mono; [apply (write_head_loop_spec n 0 s2 _ D W h buf eq_refl HS2); by apply Hh2|].
  intros [] s3 [HS3 Hh3]. rewrite drop_0 in HS3.
  set (hd := put_blocks 0 T (zupd V start (put32 0 (Z.of_nat n) (V start)) start)) in *.
  assert (hd = header (V start)) as Ehd. { unfold hd, header, zupd. by rewrite decide_True. }
  apply wp_bind. eapply wp_mono; [by apply (St_bwrite HS3 buf start)|]. intros [] s4 [HS4 Hh4].
  assert (zupd (zupd V start (put32 0 (Z.of_nat n) (V start))) start hd start = hd) as Ez by (unfold zupd; by rewrite decide_True).
  rewrite Ez in HS4. eapply wp_mono; [apply (St_brelse HS4 buf start); [by apply Hh4|]|].
  { right. rewrite Ez. unfold zupd. by rewrite decide_True. }
  intros [] s5 [HS5 _]. rewrite <- Ehd. eapply St_ext; [| | | |exact HS5]; try done.
  - intros x. unfold zupd. by repeat case_decide.
  - intros x. unfold nobody, zupd. by repeat case_decide.
  - intros x. unfold zupd. case_decide; by subst.
Qed.
End Loops.

(** ** Decoding the header *)

Lemma put_blocks_block bs : forall i d, is_block d -> is_block (put_blocks i bs d).
Proof. induction bs as [|b bs IH]; intros i d Hd; simpl; [done|]. by apply IH, put32_block. Qed.

Lemma put_blocks_low bs : forall i d o, (o + 3 < 4 + 4 * i)%nat -> get32 (put_blocks i bs d) o = get32 d o.
Proof.
  induction bs as [|b bs IH]; intros i d o Ho; simpl; [done|]. rewrite IH by lia. apply get32_put32_ne. lia.
Qed.

Lemma put_blocks_get bs : forall i d j b, is_block d -> bs !! j = Some b -> (i + length bs <= 30)%nat ->
  get32 (put_blocks i bs d) (4 + 4 * (i + j)) = u32 b.
Proof.
  induction bs as [|x bs IH]; intros i d j b Hd Hj Hl; [done|]. destruct j as [|j]; simpl in Hj, Hl; cbn [put_blocks].
  - injection Hj as ->. rewrite Nat.add_0_r, put_blocks_low by lia. apply get32_put32_eq.
    destruct Hd as [-> _]. unfold BSIZE. lia.
  - replace (4 + 4 * (i + S j))%nat with (4 + 4 * (S i + j))%nat by lia.
    apply IH; [by apply put32_block|done|lia].
Qed.

Lemma header_n T d : is_block d -> (length T < 30)%nat -> hdr_n (header (T := T) d) = Z.of_nat (length T).
Proof.
  intros Hd Hl. unfold hdr_n, header. rewrite put_blocks_low by lia.
  rewrite get32_put32_eq by (destruct Hd as [-> _]; unfold BSIZE; lia).
  rewrite u32_id by lia. apply s32_id. lia.
Qed.

Lemma header_block T d i b : is_block d -> (length T < 30)%nat -> T !! i = Some b -> 0 <= b < FSSIZE ->
  hdr_block (header (T := T) d) i = b.
Proof.
  intros Hd Hl Hb Hr. unfold hdr_block, header.
  pose proof (put_blocks_get T 0 (put32 0 (Z.of_nat (length T)) d) i b (put32_block _ _ _ Hd) Hb ltac:(lia)) as E.
  rewrite Nat.add_0_l in E. rewrite E. unfold FSSIZE in *. rewrite u32_id by lia. apply s32_id. lia.
Qed.

Lemma header_is_block T d : is_block d -> is_block (header (T := T) d).
Proof. intros Hd. by apply put_blocks_block, put32_block. Qed.

(** ** What recovery makes of a disk *)

Section Recovered.
Context (start : Z).

Definition hdr_T (d : Z -> bytes) : list Z := hdr_block (d start) <$> seq 0 (Z.to_nat (hdr_n (d start))).
Definition hdr_E (d : Z -> bytes) : list bytes :=
  (fun i => d (start + Z.of_nat i + 1)) <$> seq 0 (Z.to_nat (hdr_n (d start))).
(** The contents after the logged blocks have been copied home. *)
Definition rdisk (d : Z -> bytes) : Z -> bytes := puts d (zip (hdr_T d) (hdr_E d)).

Record hdr_ok (d : Z -> bytes) : Prop := {
  ho_n : 0 <= hdr_n (d start) < LOGSIZE;
  ho_T : forall b, b ∈ hdr_T d -> 0 <= b < FSSIZE /\ outside start b;
  ho_nodup : NoDup (hdr_T d)
}.

Lemma hdr_clear d : hdr_n (d start) = 0 -> hdr_ok d /\ forall b, rdisk d b = d b.
Proof.
  intros E. assert (hdr_T d = []) as ET by (unfold hdr_T; by rewrite E).
  split; [|intros b; unfold rdisk; by rewrite ET]. split; rewrite ?ET, ?E.
  - unfold LOGSIZE, MAXOPBLOCKS. lia.
  - intros b Hb. by apply elem_of_nil in Hb.
  - constructor.
Qed.

(** A disk whose header names [T] and whose log blocks hold [E]. *)
Lemma hdr_full d T E d0 :
  is_block d0 -> (length T < 30)%nat -> length E = length T -> NoDup T ->
  (forall b, b ∈ T -> 0 <= b < FSSIZE /\ outside start b) ->
  d start = header (T := T) d0 -> (forall j e, E !! j = Some e -> d (start + Z.of_nat j + 1) = e) ->
  hdr_ok d /\ hdr_T d = T /\ hdr_E d = E.
Proof.
  intros Hd0 Hl HE Hnd HT Hh Hlg. pose proof (header_n T d0 Hd0 Hl) as Hn. rewrite <- Hh in Hn.
  assert (hdr_T d = T) as ET.
  { unfold hdr_T. rewrite Hn, Nat2Z.id, Hh. apply list_eq. intros i. rewrite list_lookup_fmap.
    destruct (decide (i < length T)%nat) as [Hi|Hi].
    - destruct (lookup_lt_is_Some_2 _ _ Hi) as [b Hb]. rewrite lookup_seq_lt, Hb by done. simpl. f_equal.
      apply header_block; [done|done|done|]. apply HT. by eapply list_elem_of_lookup_2.
    - rewrite lookup_seq_ge, lookup_ge_None_2 by lia. done. }
  assert (hdr_E d = E) as EE.
  { unfold hdr_E. rewrite Hn, Nat2Z.id, <- HE. apply list_eq. intros i. rewrite list_lookup_fmap.
    destruct (decide (i < length E)%nat) as [Hi|Hi].
    - destruct (lookup_lt_is_Some_2 _ _ Hi) as [e He]. rewrite lookup_seq_lt, He by done. simpl. f_equal. by apply Hlg.
    - rewrite lookup_seq_ge, lookup_ge_None_2 by lia. done. }
  split; [|done]. split; rewrite ?ET; [rewrite Hn; unfold LOGSIZE, MAXOPBLOCKS; lia|done|done].
Qed.
End Recovered.

Lemma puts_zip f ks vs j k v :
  NoDup ks -> length vs = length ks -> ks !! j = Some k -> vs !! j = Some v -> puts f (zip ks vs) k = v.
Proof.
  revert f vs j. induction ks as [|x ks IH]; intros f vs j Hnd Hl Hk Hv; [done|].
  destruct vs as [|y vs]; [done|]. apply list.NoDup_cons in Hnd as [Hx Hnd]. simpl. destruct j as [|j]; simpl in *.
  - injection Hk as ->. injection Hv as ->. rewrite puts_other; [unfold zupd; by rewrite decide_True|].
    rewrite fst_zip by lia. done.
  - apply (IH _ vs j); [done|lia|done|done].
Qed.

Lemma zip_fst (ks : list Z) (vs : list bytes) : length vs = length ks -> (zip ks vs).*1 = ks.
Proof. intros. apply fst_zip. lia. Qed.

Lemma prefix_app_inv {A} (w a b : list A) : w `prefix_of` a ++ b -> w `prefix_of` a \/ exists w', w = a ++ w' /\ w' `prefix_of` b.
Proof.
  revert w. induction a as [|x a IH]; intros w Hw; simpl in *; [right; by exists w|].
  destruct w as [|y w]; [left; apply prefix_nil|].
  pose proof (prefix_cons_inv_1 _ _ _ _ Hw) as ->. apply prefix_cons_inv_2 in Hw.
  destruct (IH w Hw) as [?|(w' & -> & ?)]; [left; by apply prefix_cons|right; by exists w'].
Qed.

Lemma prefix_fst {A B} (w ws : list (A * B)) x : w `prefix_of` ws -> x ∈ w.*1 -> x ∈ ws.*1.
Proof. intros [k ->] Hx. rewrite fmap_app. apply elem_of_app. by left. Qed.

(** ** Commit *)

(** A block nobody holds and the log has not pinned is what the disk has. *)
Lemma St_clean {s l p L V O D W h} (HS : St s l p L V O D W h) b : O b = None -> D b = false -> V b = W b.
Proof.
  intros HO HD. destruct HS as [_ [o Hinv] Hsh Hd _ _ _]. destruct (shows_elim _ _ _ _ b Hsh) as (EV & EO & ED).
  rewrite <- EV, <- Hd. rewrite HO in EO. rewrite HD in ED.
  destruct (holder (bufs (fd_bc s)) b) as [[i c]|] eqn:E; [|done]. simpl in *.
  apply holder_Some in E as (Hi & Hb & Hc1 & Hc2). destruct (bi_bufs _ _ Hinv i c Hi Hb) as [_ _ Hst].
  destruct Hst as [(E & _)|(_ & _ & [Hcl|Hdd] & Hdata)]; [by rewrite Hc1 in E| |].
  - rewrite Hdata, Hc2; [done|done|]. unfold unlocked. unfold owner_of in EO. by destruct (sl_locked (b_lock c)).
  - unfold dirty_of in ED. unfold dirty in Hdd. by rewrite Hdd in ED.
Qed.

Definition nothing : Z -> bool := fun _ => false.

(** The writes of a commit of [T], given the contents [V] of the cache. *)
Definition commit_log (start : Z) (T : list Z) (V : Z -> bytes) : list (Z * bytes) :=
  zip (log_blocks (start := start) (T := T) 0) (V <$> T).
Definition commit_home (T : list Z) (V : Z -> bytes) : list (Z * bytes) := zip T (V <$> T).
Definition commit_writes (start : Z) (T : list Z) (V : Z -> bytes) : list (Z * bytes) :=
  commit_log start T V ++ (start, header (T := T) (V start)) :: commit_home T V ++
  [(start, header (T := []) (header (T := T) (V start)))].

Lemma length_log_blocks start T : length (log_blocks (start := start) (T := T) 0) = length T.
Proof. unfold log_blocks. rewrite length_fmap, length_seq. lia. Qed.

Lemma log_blocks_lookup start T j : (j < length T)%nat ->
  log_blocks (start := start) (T := T) 0 !! j = Some (start + Z.of_nat j + 1).
Proof. intros Hj. unfold log_blocks. rewrite list_lookup_fmap, lookup_seq_lt by lia. done. Qed.

Lemma log_blocks_nodup start T : NoDup (log_blocks (start := start) (T := T) 0).
Proof. unfold log_blocks. apply NoDup_fmap_2_strong; [|apply NoDup_seq]. intros. lia. Qed.

Lemma keyed_app a b : keyed (a ++ b) = keyed a ++ keyed b.
Proof. apply fmap_app. Qed.

Lemma log_ok_clear l start T : log_ok l start T -> log_ok (set_n 0 l) start [].
Proof.
  intros [H1 H2 H3 H4 H5 H6 H7 H8]. split; try done; [intros b Hb; by apply elem_of_nil in Hb|cbn; lia].
Qed.

Lemma commit_spec {l start T s p L V D W h} :
  log_ok l start T -> NoDup T -> T <> [] -> (length T < NBUF)%nat ->
  St s l p L V nobody D W h -> (forall b, D b = true <-> b ∈ T) ->
  let ws := commit_writes start T V in
  wp commit (fun _ s' => St s' (set_n 0 l) p L (puts V ws) nobody nothing (puts W ws) (h ++ keyed ws)) s.
Proof.
  intros Hlog Hnd Hne Hlen HS HDT ws. pose proof (lo_n _ _ _ Hlog) as Hn.
  set (E := V <$> T). assert (length E = length T) as HE by apply length_fmap.
  assert (D start = false) as HDs.
  { destruct (D start) eqn:Ed; [|done]. apply HDT in Ed. by destruct (log_ok_start _ _ _ Hlog). }
  assert (forall b, D b = true -> b ∈ T) as HDX by (intros b; apply HDT).
  unfold commit. apply (log_get_eq lh_n _ _ _ _ _ _ _ _ HS). rewrite Hn.
  rewrite (proj2 (Z.ltb_lt _ _)) by (destruct T; [done|simpl; lia]).
  (* write_log *)
  apply wp_bind. unfold write_log. apply (log_get_eq lh_n _ _ _ _ _ _ _ _ HS). rewrite Hn, Nat2Z.id.
  eapply wp_mono; [apply (write_log_loop_spec Hlog T Hlen E HE (length T) 0 s V D W h eq_refl HS); try done|].
  { intros j b e Hb He. unfold E in He. rewrite list_lookup_fmap, Hb in He. simpl in He. congruence. }
  rewrite drop_0. fold (commit_log start T V). set (ws1 := commit_log start T V). intros [] s1 HS1.
  (* write_head *)
  assert (start ∉ ws1.*1) as Hs1.
  { unfold ws1, commit_log. rewrite zip_fst by (by rewrite length_log_blocks). intros Hin.
    apply elem_of_log_blocks in Hin. lia. }
  apply wp_bind. eapply wp_mono; [apply (write_head_spec Hlog T Hlen s1 _ D _ _ HS1); done|].
  rewrite (puts_other _ _ _ Hs1). set (hd := header (T := T) (V start)). intros [] s2 HS2.
  (* install_trans *)
  apply wp_bind. unfold install_trans. apply (log_get_eq lh_n _ _ _ _ _ _ _ _ HS2). rewrite Hn, Nat2Z.id.
  assert (forall f j b e, T !! j = Some b -> E !! j = Some e ->
    zupd (puts f ws1) start hd (start + Z.of_nat j + 1) = e) as Hlg.
  { intros f j b e Hb He. unfold zupd. rewrite decide_False by lia. unfold ws1, commit_log.
    apply (puts_zip _ _ _ j); [apply log_blocks_nodup|by rewrite length_log_blocks| |done].
    apply log_blocks_lookup. by eapply lookup_lt_Some. }
  eapply wp_mono; [apply (install_loop_spec Hlog Hnd T Hlen E HE (length T) 0 s2 _ D _ _ eq_refl HS2); try done|].
  { intros j b e Hb He. split; by apply Hlg with b. }
  { intros b Hb. left. by apply HDT. }
  rewrite !drop_0. change (zip T E) with (commit_home T V). set (ws2 := commit_home T V). intros [] s3 HS3.
  (* clear *)
  apply wp_bind, wp_modify.
  assert (fd_log s3 = l) as El by (apply (st_log _ _ _ _ _ _ _ _ _ HS3)). rewrite El.
  pose proof (St_log s3 l (set_n 0 l) _ _ _ _ _ _ _ HS3) as HS4.
  assert (start ∉ ws2.*1) as Hs2.
  { unfold ws2, commit_home. rewrite zip_fst by done. by apply (log_ok_start _ _ _ Hlog). }
  assert (forall f, puts (zupd (puts f ws1) start hd) ws2 start = hd) as Eh.
  { intros f. rewrite puts_other by done. unfold zupd. by rewrite decide_True. }
  eapply wp_mono; [apply (write_head_spec (log_ok_clear _ _ _ Hlog) T Hlen _ _ _ _ _ HS4)|].
  { intros b. case_decide; [done|]. apply HDX. }
  { case_decide; [done|]. done. }
  rewrite Eh. intros [] s5 HS5. unfold ws, commit_writes. fold ws1 ws2 hd.
  rewrite keyed_app, app_assoc. cbn [keyed fmap list_fmap]. fold (keyed (ws2 ++ [(start, header (T := []) hd)])).
  rewrite keyed_app. cbn [keyed fmap list_fmap fst snd].
  replace (((h ++ keyed ws1) ++ (ROOT start, hd) :: keyed ws2 ++ [(ROOT start, header (T := []) hd)]))
    with ((((h ++ keyed ws1) ++ [(ROOT start, hd)]) ++ keyed ws2) ++ [(ROOT start, header (T := []) hd)])
    by (by rewrite <- !app_assoc).
  eapply St_ext; [| | | |exact HS5]; try done.
  - intros b. rewrite puts_app. cbn [puts foldl fst snd]. fold (puts (zupd (puts V ws1) start hd) (ws2 ++ [(start, header (T := []) hd)])).
    by rewrite puts_app.
  - intros b. unfold nothing. case_decide as Hb; [done|]. destruct (D b) eqn:Ed; [|done]. by apply HDT in Ed.
  - intros b. rewrite puts_app. cbn [puts foldl fst snd]. fold (puts (zupd (puts W ws1) start hd) (ws2 ++ [(start, header (T := []) hd)])).
    by rewrite puts_app.
Qed.

(** ** Recovery *)

Lemma read_head_loop_spec d k : forall i s l p L V O D W h,
  St s l p L V O D W h -> length (lh_block l) = 30%nat -> (i + k <= 30)%nat ->
  wp (read_head_loop k (Z.of_nat i) d) (fun _ s' => exists bs,
    St s' (set_blocks bs l) p L V O D W h /\ s' = set_fd_log (set_blocks bs l) s /\ length bs = 30%nat /\
    take i bs = take i (lh_block l) /\ take k (drop i bs) = hdr_block d <$> seq i k) s.
Proof.
  induction k as [|k IH]; intros i s l p L V O D W h HS Hl Hik.
  - simpl. apply wp_ret. exists (lh_block l). replace (set_blocks (lh_block l) l) with l by (by destruct l).
    split; [done|]. split; [|done]. rewrite <- (st_log _ _ _ _ _ _ _ _ _ HS). by destruct s.
  - cbn [read_head_loop]. apply wp_bind. unfold lh_set, log_get. apply wp_bind, wp_gets.
    rewrite (st_log _ _ _ _ _ _ _ _ _ HS). rewrite (proj2 (Z.leb_le _ _)) by lia.
    rewrite (proj2 (Z.ltb_lt _ _)) by (unfold LOGSIZE, MAXOPBLOCKS; lia). cbn [andb]. apply wp_modify.
    rewrite (st_log _ _ _ _ _ _ _ _ _ HS), !Nat2Z.id.
    set (l1 := set_blocks _ l). pose proof (St_log s l l1 _ _ _ _ _ _ _ HS) as HS1.
    replace (Z.of_nat i + 1) with (Z.of_nat (S i)) by lia.
    eapply wp_mono; [apply (IH (S i) _ l1 _ _ _ _ _ _ _ HS1); [cbn; by rewrite length_insert|lia]|].
    intros [] s2 (bs & HS2 & -> & Hlb & Ht & Hd). exists bs. split; [exact HS2|]. split; [done|]. split; [done|].
    assert (bs !! i = Some (hdr_block d i)) as Hi.
    { assert (take (S i) bs !! i = take (S i) (lh_block l1) !! i) as E by (by rewrite Ht).
      rewrite !lookup_take_lt in E by lia. rewrite E. cbn. apply list_lookup_insert_eq. lia. }
    split.
    + apply (f_equal (take i)) in Ht. rewrite !take_take, !Nat.min_l in Ht by lia. rewrite Ht. cbn.
      by rewrite take_insert_ge by lia.
    + rewrite (drop_S _ _ _ Hi). simpl. by rewrite Hd.
Qed.

Lemma read_head_spec s l p L V W h start :
  St s l p L V nobody nothing W h -> log_start l = start -> log_dev l = ROOTDEV -> length (lh_block l) = 30%nat ->
  0 <= start < FSSIZE -> hdr_ok start W ->
  wp read_head (fun _ s' => exists l', St s' l' p L V nobody nothing W h /\ log_start l' = start /\ log_dev l' = ROOTDEV /\
    log_size l' = log_size l /\ length (lh_block l') = 30%nat /\ lh_n l' = hdr_n (W start) /\
    take (Z.to_nat (hdr_n (W start))) (lh_block l') = hdr_T start W) s.
Proof.
  intros HS Hst Hdev Hlb Hr [Hn _ _]. unfold read_head.
  assert (V start = W start) as EV by (by apply (St_clean HS)).
  apply (log_get_eq log_dev _ _ _ _ _ _ _ _ HS), (log_get_eq log_start _ _ _ _ _ _ _ _ HS).
  rewrite Hdev, Hst, (u32_block start) by done.
  apply wp_bind. eapply wp_mono; [apply (St_bread HS start Hr eq_refl)|].
  { right. exists []. split; [by intros b [?|?]|]. unfold NBUF. simpl. lia. }
  intros buf s1 (HS1 & Hh1 & _). apply wp_bind. eapply wp_eq; [by apply (St_bdata HS1)|]. rewrite EV.
  apply wp_bind, wp_modify. rewrite (st_log _ _ _ _ _ _ _ _ _ HS1).
  set (n := hdr_n (W start)) in *. pose proof (St_log s1 l (set_n n l) _ _ _ _ _ _ _ HS1) as HS2.
  apply wp_bind. eapply wp_mono; [apply (read_head_loop_spec (W start) (Z.to_nat n) 0 _ _ _ _ _ _ _ _ _ HS2 Hlb)|].
  { unfold LOGSIZE, MAXOPBLOCKS in Hn. lia. }
  intros [] s3 (bs & HS3 & -> & Hl3 & _ & Ht). eapply wp_mono; [apply (St_brelse HS3 buf start Hh1)|].
  { right. by rewrite EV. }
  intros [] s4 [HS4 _]. eexists. split; [|split; [|split; [|split; [|split; [|split]]]]].
  - eapply St_ext; [| | | |exact HS4]; try done. intros x. unfold nobody, zupd. by repeat case_decide.
  - done.
  - done.
  - done.
  - done.
  - done.
  - rewrite drop_0 in Ht. exact Ht.
Qed.

Definition recover_writes (start : Z) (W : Z -> bytes) : list (Z * bytes) :=
  zip (hdr_T start W) (hdr_E start W) ++ [(start, header (T := []) (W start))].

Lemma recover_spec s l p L V W h start :
  St s l p L V nobody nothing W h -> log_start l = start -> log_dev l = ROOTDEV -> length (lh_block l) = 30%nat ->
  0 <= start /\ start + LOGSIZE <= FSSIZE -> hdr_ok start W ->
  let ws := recover_writes start W in
  wp recover_from_log (fun _ s' => exists l', log_ok l' start [] /\ log_size l' = log_size l /\
    St s' l' p L (puts V ws) nobody nothing (puts W ws) (h ++ keyed ws)) s.
Proof.
  intros HS Hst Hdev Hlb Hr Hok ws. unfold recover_from_log.
  apply wp_bind. eapply wp_mono; [apply (read_head_spec _ _ _ _ _ _ _ start HS); try done; unfold LOGSIZE, MAXOPBLOCKS in Hr; lia|].
  intros [] s1 (l1 & HS1 & H1 & H2 & H3 & H4 & H5 & H6).
  pose proof (ho_n _ _ Hok) as Hn. unfold LOGSIZE, MAXOPBLOCKS in Hn.
  set (T := hdr_T start W) in *. set (E := hdr_E start W).
  assert (length T = Z.to_nat (hdr_n (W start))) as HT by (unfold T, hdr_T; by rewrite length_fmap, length_seq).
  assert (length E = length T) as HE by (rewrite HT; unfold E, hdr_E; by rewrite length_fmap, length_seq).
  assert (log_ok l1 start T) as Hlog.
  { split; try done; [rewrite H5, HT; lia|rewrite HT; done|apply (ho_T _ _ Hok)|lia]. }
  assert (forall b, V b = W b) as EV by (intros b; by apply (St_clean HS)).
  assert (forall j e, E !! j = Some e -> W (start + Z.of_nat j + 1) = e) as Hlg.
  { intros j e He. unfold E, hdr_E in He. rewrite list_lookup_fmap in He.
    destruct (seq 0 _ !! j) as [x|] eqn:Ex; [|done]. apply lookup_seq in Ex as [-> _]. simpl in He. congruence. }
  apply wp_bind. unfold install_trans. apply (log_get_eq lh_n _ _ _ _ _ _ _ _ HS1). rewrite H5, <- HT.
  eapply wp_mono; [apply (install_loop_spec Hlog (ho_nodup _ _ Hok) [] ltac:(unfold NBUF; simpl; lia) E HE (length T) 0 s1 _ nothing _ _ eq_refl HS1); try done|].
  { intros j b e _ He. rewrite EV. split; by apply Hlg. }
  { intros b _. right. simpl. lia. }
  rewrite !drop_0. set (w := zip T E). intros [] s2 HS2.
  apply wp_bind, wp_modify. rewrite (st_log _ _ _ _ _ _ _ _ _ HS2).
  pose proof (St_log s2 l1 (set_n 0 l1) _ _ _ _ _ _ _ HS2) as HS3.
  assert (start ∉ w.*1) as Hs.
  { unfold w. rewrite zip_fst by done. by apply (log_ok_start _ _ _ Hlog). }
  eapply wp_mono; [apply (write_head_spec (log_ok_clear _ _ _ Hlog) [] ltac:(unfold NBUF; simpl; lia) _ _ _ _ _ HS3)|].
  { intros b. by case_decide. }
  { by case_decide. }
  rewrite !(puts_other _ _ _ Hs), EV. intros [] s4 HS4. exists (set_n 0 l1). split; [by eapply log_ok_clear|]. split; [done|].
  unfold ws, recover_writes. fold T E. fold w. rewrite keyed_app, app_assoc, !puts_app.
  eapply St_ext; [| | | |exact HS4]; try done. intros b. unfold nothing. by case_decide.
Qed.

(** ** Crashes *)

Lemma outside_log start T b : outside start b -> (length T < 30)%nat -> b ∉ start :: log_blocks (start := start) (T := T) 0.
Proof.
  intros Ho Hl Hin. unfold outside, LOGSIZE, MAXOPBLOCKS in Ho. apply elem_of_cons in Hin as [->|Hin]; [lia|].
  apply elem_of_log_blocks in Hin. lia.
Qed.

Lemma hdr_n_empty d : is_block d -> hdr_n (header (T := []) d) = 0.
Proof. intros Hd. rewrite header_n; [done|done|simpl; lia]. Qed.

Section Crash.
Context {start : Z} {T : list Z} {V W : Z -> bytes}.
Context (Hlen : (length T < 30)%nat) (Hnd : NoDup T) (HT : forall b, b ∈ T -> 0 <= b < FSSIZE /\ outside start b).
Context (Hblk : forall b, is_block (V b)).

(** The contents after the commit, outside the log. *)
Lemma commit_result b : outside start b -> puts W (commit_writes start T V) b = puts W (commit_home T V) b.
Proof.
  intros Ho. pose proof (outside_log start T b Ho Hlen) as Hb. rewrite not_elem_of_cons in Hb. destruct Hb as [Hbs Hbl].
  unfold commit_writes. rewrite puts_app. cbn [puts foldl fst snd].
  fold (puts (zupd (puts W (commit_log start T V)) start (header (T := T) (V start)))
    (commit_home T V ++ [(start, header (T := []) (header (T := T) (V start)))])).
  rewrite puts_app. cbn [puts foldl fst snd]. unfold zupd at 1. rewrite decide_False by done. fold (puts (zupd (puts W (commit_log start T V)) start (header (T := T) (V start))) (commit_home T V)).
  destruct (decide (b ∈ (commit_home T V).*1)) as [Hin|Hn]; [by apply puts_agree|].
  rewrite !puts_other by done. unfold zupd. rewrite decide_False by done. apply puts_other.
  unfold commit_log. by rewrite zip_fst by (by rewrite length_fmap, length_log_blocks).
Qed.

(** Committed: the header is written and some home blocks are. *)
Lemma crash_installed w :
  let d := puts (zupd (puts W (commit_log start T V)) start (header (T := T) (V start))) w in
  (forall x, x ∈ w.*1 -> x ∈ T) ->
  hdr_ok start d /\ forall b, outside start b -> rdisk start d b = puts W (commit_writes start T V) b.
Proof.
  intros d HwT. pose proof (length_fmap V T) as HE. set (hd := header (T := T) (V start)) in *.
  assert (forall x, start <= x < start + LOGSIZE -> x ∉ w.*1) as Hlg.
  { intros x Hx Hin%HwT. destruct (HT _ Hin) as [_ Ho]. by apply Ho. }
  assert (d start = hd) as Es.
  { unfold d. rewrite puts_other; [unfold zupd; by rewrite decide_True|]. apply Hlg. unfold LOGSIZE, MAXOPBLOCKS. lia. }
  destruct (hdr_full start d T (V <$> T) (V start) (Hblk _) Hlen HE Hnd HT Es) as (Hok & ET & EE).
  { intros j e He. assert (j < length T)%nat as Hj by (rewrite <- HE; by eapply lookup_lt_Some).
    unfold d. rewrite puts_other by (apply Hlg; unfold LOGSIZE, MAXOPBLOCKS; lia).
    unfold zupd. rewrite decide_False by lia. unfold commit_log.
    apply (puts_zip _ _ _ j); [apply log_blocks_nodup|by rewrite length_log_blocks|by apply log_blocks_lookup|done]. }
  split; [done|]. intros b Ho. unfold rdisk. rewrite ET, EE. fold (commit_home T V). rewrite commit_result by done.
  destruct (decide (b ∈ (commit_home T V).*1)) as [Hin|Hn]; [by apply puts_agree|].
  rewrite !(puts_other _ (commit_home T V)) by done. pose proof (outside_log start T b Ho Hlen) as Hb.
  rewrite not_elem_of_cons in Hb. destruct Hb as [Hbs Hbl]. unfold d. rewrite puts_other.
  - unfold zupd. rewrite decide_False by done. apply puts_other.
    unfold commit_log. by rewrite zip_fst by (by rewrite HE, length_log_blocks).
  - intros Hin%HwT. apply Hn. unfold commit_home. by rewrite zip_fst.
Qed.

Lemma crash_commit w :
  hdr_n (W start) = 0 -> w `prefix_of` commit_writes start T V ->
  hdr_ok start (puts W w) /\
  ((forall b, outside start b -> rdisk start (puts W w) b = W b) \/
   (forall b, outside start b -> rdisk start (puts W w) b = puts W (commit_writes start T V) b)).
Proof.
  intros Hclr Hw. pose proof (length_fmap V T) as HE.
  assert ((commit_log start T V).*1 = log_blocks (start := start) (T := T) 0) as E1
    by (unfold commit_log; by rewrite zip_fst by (by rewrite HE, length_log_blocks)).
  assert ((commit_home T V).*1 = T) as E2 by (unfold commit_home; by rewrite zip_fst).
  set (hd := header (T := T) (V start)) in *.
  assert (is_block hd) as Hhd by apply header_is_block, Hblk.
  assert (forall b, outside start b -> b ∉ log_blocks (start := start) (T := T) 0 /\ b <> start) as Hout.
  { intros b Ho. pose proof (outside_log start T b Ho Hlen) as Hb. rewrite not_elem_of_cons in Hb. tauto. }
  unfold commit_writes in Hw. fold hd in Hw. apply prefix_app_inv in Hw as [Hw|(w' & -> & Hw)].
  { (* the header is not written yet *)
    assert (puts W w start = W start) as Es.
    { apply puts_other. intros Hin. apply (prefix_fst _ _ _ Hw) in Hin. rewrite E1 in Hin.
      apply elem_of_log_blocks in Hin. lia. }
    destruct (hdr_clear start (puts W w)) as [Hok Hr]; [by rewrite Es|]. split; [done|]. left.
    intros b Ho. rewrite Hr. apply puts_other. intros Hin. apply (prefix_fst _ _ _ Hw) in Hin. rewrite E1 in Hin.
    by destruct (Hout b Ho) as [? _]. }
  destruct w' as [|x w'].
  { rewrite app_nil_r. destruct (hdr_clear start (puts W (commit_log start T V))) as [Hok Hr].
    { rewrite puts_other; [done|]. rewrite E1. intros Hin. apply elem_of_log_blocks in Hin. lia. }
    split; [done|]. left. intros b Ho. rewrite Hr. apply puts_other. rewrite E1. by apply Hout. }
  pose proof (prefix_cons_inv_1 _ _ _ _ Hw) as ->. apply prefix_cons_inv_2 in Hw.
  set (d1 := zupd (puts W (commit_log start T V)) start hd).
  assert (puts W (commit_log start T V ++ (start, hd) :: w') = puts d1 w') as Ed by (by rewrite puts_app).
  rewrite Ed. apply prefix_app_inv in Hw as [Hw|(w2 & -> & Hw)].
  - (* committed, some blocks installed *)
    destruct (crash_installed w') as [Hok Hr]; [|split; [done|by right]].
    intros x Hx. apply (prefix_fst _ _ _ Hw) in Hx. by rewrite E2 in Hx.
  - (* all installed; perhaps the header cleared *)
    destruct w2 as [|y w2].
    + rewrite app_nil_r. destruct (crash_installed (commit_home T V)) as [Hok Hr]; [by rewrite E2|].
      split; [done|by right].
    + pose proof (prefix_cons_inv_1 _ _ _ _ Hw) as ->. apply prefix_cons_inv_2, prefix_nil_inv in Hw as ->.
      destruct (hdr_clear start (puts d1 (commit_home T V ++ [(start, header (T := []) hd)]))) as [Hok Hr].
      { rewrite puts_app. cbn [puts foldl fst snd]. unfold zupd at 1. rewrite decide_True by done. by apply hdr_n_empty. }
      split; [done|]. right. intros b Ho. rewrite Hr. unfold commit_writes. fold hd. by rewrite (puts_app W).
Qed.
End Crash.

Lemma crash_recover start W w :
  (forall b, is_block (W b)) -> hdr_ok start W -> w `prefix_of` recover_writes start W ->
  hdr_ok start (puts W w) /\ forall b, outside start b -> rdisk start (puts W w) b = rdisk start W b.
Proof.
  intros Hblk Hok Hw. destruct Hok as [Hn HT Hnd]. set (T := hdr_T start W) in *. set (E := hdr_E start W) in *.
  assert (length E = length T) as HE by (unfold E, T, hdr_E, hdr_T; by rewrite !length_fmap).
  assert (forall x, x ∈ T -> x <> start /\ forall j, (j < length T)%nat -> x <> start + Z.of_nat j + 1) as HTo.
  { intros x Hx. destruct (HT x Hx) as [_ Ho]. unfold outside, LOGSIZE, MAXOPBLOCKS in *.
    assert (length T = Z.to_nat (hdr_n (W start))) by (unfold T, hdr_T; by rewrite length_fmap, length_seq).
    split; [lia|]. intros j Hj. lia. }
  assert (forall w, (forall x, x ∈ w.*1 -> x ∈ T) -> hdr_T start (puts W w) = T /\ hdr_E start (puts W w) = E) as Hsame.
  { intros w0 Hw0. assert (puts W w0 start = W start) as Es by (apply puts_other; intros Hin%Hw0; by apply HTo in Hin as [? _]).
    split; [unfold hdr_T; by rewrite Es|]. unfold hdr_E. rewrite Es. apply list_fmap_ext. intros i x Hx.
    apply lookup_seq in Hx as [-> Hi]. apply puts_other. intros Hin%Hw0. apply (HTo _ Hin) with i; [|lia].
    unfold T, hdr_T. rewrite length_fmap, length_seq. lia. }
  unfold recover_writes in Hw. fold T E in Hw. apply prefix_app_inv in Hw as [Hw|(w' & -> & Hw)].
  - assert (forall x, x ∈ w.*1 -> x ∈ T) as HwT.
    { intros x Hx. apply (prefix_fst _ _ _ Hw) in Hx. by rewrite zip_fst in Hx. }
    destruct (Hsame w HwT) as [ET EE]. assert (puts W w start = W start) as Es.
    { apply puts_other. intros Hin%HwT. by apply HTo in Hin as [? _]. }
    split; [split; rewrite ?ET, ?Es; done|]. intros b Ho. unfold rdisk. rewrite ET, EE. fold T E.
    destruct (decide (b ∈ (zip T E).*1)) as [Hin|Hn2]; [by apply puts_agree|].
    rewrite !(puts_other _ (zip T E)) by done. apply puts_other. intros Hin. by apply (prefix_fst _ _ _ Hw) in Hin.
  - destruct w' as [|y w'].
    + rewrite app_nil_r. destruct (Hsame (zip T E)) as [ET EE]; [by rewrite zip_fst|].
      assert (puts W (zip T E) start = W start) as Es.
      { apply puts_other. rewrite zip_fst by done. intros Hin. by apply HTo in Hin as [? _]. }
      split; [split; rewrite ?ET, ?Es; done|]. intros b Ho. unfold rdisk. rewrite ET, EE. fold T E.
      destruct (decide (b ∈ (zip T E).*1)) as [Hin|Hn2]; [by apply puts_agree|]. by rewrite !(puts_other _ (zip T E)) by done.
    + pose proof (prefix_cons_inv_1 _ _ _ _ Hw) as ->. apply prefix_cons_inv_2, prefix_nil_inv in Hw as ->.
      destruct (hdr_clear start (puts W (zip T E ++ [(start, header (T := []) (W start))]))) as [Hok Hr].
      { rewrite puts_app. cbn [puts foldl fst snd]. unfold zupd at 1. rewrite decide_True by done. by apply hdr_n_empty. }
      split; [done|]. intros b Ho. rewrite Hr, puts_app. cbn [puts foldl fst snd]. unfold zupd at 1.
      rewrite decide_False; [done|]. intros ->. unfold outside, LOGSIZE, MAXOPBLOCKS in Ho. lia.
Qed.

(** ** Properties *)

Definition dsk (s : fdev) (b : Z) : bytes := disk_block (fd_bc s) (1, b).

(** A transaction ready to commit: the blocks [T] are pinned in the cache,
    nobody holds a buffer, and the on-disk log is empty. *)
Record transaction (start : Z) (T : list Z) (s : fdev) : Prop := {
  tr_log : log_ok (fd_log s) start T;
  tr_nodup : NoDup T;
  tr_size : (0 < length T < NBUF)%nat;
  tr_cache : bio_ok (fd_bc s) /\ forall b, bowner (fd_bc s) b = None;
  tr_pinned : forall b, bdirty (fd_bc s) b = true <-> b ∈ T;
  tr_empty : hdr_n (dsk s start) = 0
}.

(** A machine that starts with the contents [d] on its disk and nothing in
    its cache, its log set up for the region at [start]. *)
Record rebooted (start : Z) (d : Z -> bytes) (s : fdev) : Prop := {
  rb_log : log_start (fd_log s) = start /\ log_dev (fd_log s) = ROOTDEV /\ length (lh_block (fd_log s)) = 30%nat;
  rb_cache : bio_ok (fd_bc s) /\ forall b, bowner (fd_bc s) b = None /\ bdirty (fd_bc s) b = false;
  rb_disk : forall b, dsk s b = d b
}.

(** [crashes d d']: from [d], any number of recoveries, each cut short after
    some of its disk writes, lead to [d']. *)
Inductive crashes (start : Z) : (Z -> bytes) -> (Z -> bytes) -> Prop :=
| no_crash d : crashes start d d
| crash_again d d' s s' ws w :
    rebooted start d s -> recover_from_log s = Ok tt s' ->
    history (fd_bc s') = history (fd_bc s) ++ keyed ws -> w `prefix_of` ws ->
    crashes start (puts d w) d' -> crashes start d d'.

Lemma St_self s : bio_ok (fd_bc s) ->
  St s (fd_log s) (mypid (fd_bc s)) (bc_locks (fd_bc s)) (bview (fd_bc s)) (bowner (fd_bc s)) (bdirty (fd_bc s))
    (dsk s) (history (fd_bc s)).
Proof. intros H. by split. Qed.

Lemma rebooted_St start d s : rebooted start d s ->
  St s (fd_log s) (mypid (fd_bc s)) (bc_locks (fd_bc s)) (bview (fd_bc s)) nobody nothing d (history (fd_bc s)).
Proof.
  intros [_ [Hok Hc] Hd]. eapply St_ext; [| | | |apply (St_self s Hok)]; [done|..]; intros b; [|..|done].
  - by rewrite (proj1 (Hc b)).
  - by rewrite (proj2 (Hc b)).
Qed.

Lemma keyed_inj a b : keyed a = keyed b -> a = b.
Proof.
  revert b. induction a as [|[x d] a IH]; intros [|[y e] b]; simpl; try done.
  intros [= -> -> E]. by rewrite (IH b).
Qed.

Lemma reboot_blocks start d s : rebooted start d s -> forall b, is_block (d b).
Proof. intros Hr b. apply (St_block (rebooted_St _ _ _ Hr) b). Qed.

(** Recovery, run to the end, installs what the log holds. *)
Lemma recover_reboot start d s : rebooted start d s -> 0 <= start /\ start + LOGSIZE <= FSSIZE -> hdr_ok start d ->
  wp recover_from_log (fun _ s' => history (fd_bc s') = history (fd_bc s) ++ keyed (recover_writes start d) /\
    forall b, outside start b -> dsk s' b = rdisk start d b) s.
Proof.
  intros Hr Hreg Hok. destruct (rb_log _ _ _ Hr) as (H1 & H2 & H3).
  eapply wp_mono; [apply (recover_spec _ _ _ _ _ _ _ start (rebooted_St _ _ _ Hr)); done|].
  intros [] s' (l' & _ & _ & HS). split; [apply HS|]. intros b Ho. unfold dsk.
  rewrite (st_disk _ _ _ _ _ _ _ _ _ HS). unfold recover_writes. rewrite puts_app. cbn [puts foldl fst snd].
  unfold zupd. rewrite decide_False; [done|]. intros ->. unfold outside, LOGSIZE, MAXOPBLOCKS in Ho. lia.
Qed.

(** A property of the recovered contents survives crashes in recovery. *)
Lemma crashes_stable start d d' : crashes start d d' -> 0 <= start /\ start + LOGSIZE <= FSSIZE -> hdr_ok start d ->
  hdr_ok start d' /\ forall b, outside start b -> rdisk start d' b = rdisk start d b.
Proof.
  induction 1 as [d|d d' s s' ws w Hr Erun Hh Hw _ IH]; intros Hreg Hok; [done|].
  pose proof (recover_reboot _ _ _ Hr Hreg Hok) as Hrec. apply wp_elim in Hrec as (? & s2 & E2 & Hh2 & _).
  rewrite Erun in E2. injection E2 as _ <-. rewrite Hh in Hh2. apply app_inv_head, keyed_inj in Hh2 as ->.
  destruct (crash_recover start d w (reboot_blocks _ _ _ Hr) Hok Hw) as [Hok' Heq].
  destruct (IH Hreg Hok') as [Hok2 Heq2]. split; [done|]. intros b Ho. by rewrite Heq2, Heq.
Qed.

(** C5: crash atomicity of the log.  [commit] of a transaction completes;
    and if the machine stops after any number of its disk writes, and again
    during any number of recoveries, then a recovery that runs to the end
    leaves every block outside the log either as it was before the commit or
    as the commit wrote it, all blocks alike. *)
Theorem commit_crash_atomic start T s :
  transaction start T s ->
  wp commit (fun _ s' => forall ws w d s0,
    history (fd_bc s') = history (fd_bc s) ++ keyed ws -> w `prefix_of` ws ->
    crashes start (puts (dsk s) w) d -> rebooted start d s0 ->
    wp recover_from_log (fun _ s1 =>
      (forall b, outside start b -> dsk s1 b = dsk s b) \/
      (forall b, outside start b -> dsk s1 b = dsk s' b)) s0) s.
Proof.
  intros [Hlog Hnd Hsize [Hok Hown] Hpin Hempty]. pose proof (lo_region _ _ _ Hlog) as Hreg.
  assert (St s (fd_log s) (mypid (fd_bc s)) (bc_locks (fd_bc s)) (bview (fd_bc s)) nobody (bdirty (fd_bc s))
    (dsk s) (history (fd_bc s))) as HS by (by eapply St_ext; [| | | |apply (St_self s Hok)]).
  assert (T <> []) as HT0 by (intros ->; simpl in *; lia).
  eapply wp_mono; [apply (commit_spec Hlog Hnd HT0 ltac:(lia) HS); done|].
  intros [] s' HS' ws w d s0 Hh Hw Hcr Hrb.
  rewrite (st_hist _ _ _ _ _ _ _ _ _ HS') in Hh. apply app_inv_head, keyed_inj in Hh as <-.
  pose proof (lo_home _ _ _ Hlog) as HT.
  destruct (crash_commit (log_ok_len _ _ _ Hlog) Hnd HT (fun b => proj1 (St_block HS b)) w Hempty Hw) as [Hok1 Hcase].
  destruct (crashes_stable _ _ _ Hcr Hreg Hok1) as [Hok2 Heq].
  eapply wp_mono; [by apply (recover_reboot start d s0)|]. intros [] s1 [_ Hd].
  destruct Hcase as [Hc|Hc]; [left|right]; intros b Ho; rewrite Hd, Heq, Hc by done; [done|].
  unfold dsk. by rewrite (st_disk _ _ _ _ _ _ _ _ _ HS').
Qed.

Lemma commit_wp start T s :
  transaction start T s ->
  wp commit (fun _ s' => (forall b, b ∈ T -> dsk s' b = bview (fd_bc s) b) /\
    (forall b, outside start b -> b ∉ T -> dsk s' b = dsk s b) /\
    (forall b, outside start b -> bview (fd_bc s') b = bview (fd_bc s) b) /\
    bio_ok (fd_bc s') /\ (forall b, bowner (fd_bc s') b = None /\ bdirty (fd_bc s') b = false) /\
    fd_log s' = set_n 0 (fd_log s) /\ bc_locks (fd_bc s') = bc_locks (fd_bc s) /\ hdr_n (dsk s' start) = 0) s.
Proof.
  intros [Hlog Hnd Hsize [Hok Hown] Hpin Hempty].
  assert (St s (fd_log s) (mypid (fd_bc s)) (bc_locks (fd_bc s)) (bview (fd_bc s)) nobody (bdirty (fd_bc s))
    (dsk s) (history (fd_bc s))) as HS by (by eapply St_ext; [| | | |apply (St_self s Hok)]).
  assert (T <> []) as HT0 by (intros ->; simpl in *; lia).
  eapply wp_mono; [apply (commit_spec Hlog Hnd HT0 ltac:(lia) HS); done|]. intros [] s' HS'.
  pose proof (log_ok_len _ _ _ Hlog) as Hl.
  assert (forall f b, b ∈ T -> puts f (commit_home T (bview (fd_bc s))) b = bview (fd_bc s) b) as Hhome.
  { intros f b Hb. apply list_elem_of_lookup in Hb as [i Hi]. apply (puts_zip _ _ _ i); [done|apply length_fmap|done|].
    by rewrite list_lookup_fmap, Hi. }
  assert (forall b, b ∉ T -> b ∉ (commit_home T (bview (fd_bc s))).*1) as Hno.
  { intros b Hb. unfold commit_home. rewrite zip_fst; [done|apply length_fmap]. }
  assert (forall b, dsk s' b = puts (dsk s) (commit_writes start T (bview (fd_bc s))) b) as Hd by apply HS'.
  assert (forall b, bview (fd_bc s') b = puts (bview (fd_bc s)) (commit_writes start T (bview (fd_bc s))) b) as Hv
    by apply (st_shows _ _ _ _ _ _ _ _ _ HS').
  split; [|split; [|split; [|split; [apply HS'|split; [|split; [by rewrite (st_log _ _ _ _ _ _ _ _ _ HS')|split; [apply HS'|]]]]]]].
  - intros b Hb. rewrite Hd, commit_result by (try done; by apply (lo_home _ _ _ Hlog)). by apply Hhome.
  - intros b Ho Hb. rewrite Hd, commit_result by done. by apply puts_other, Hno.
  - intros b Ho. rewrite Hv, commit_result by done. destruct (decide (b ∈ T)) as [Hb|Hb]; [by apply Hhome|by apply puts_other, Hno].
  - intros b. split; [apply (st_shows _ _ _ _ _ _ _ _ _ HS')|apply (st_shows _ _ _ _ _ _ _ _ _ HS')].
  - rewrite Hd. unfold commit_writes. rewrite puts_app. cbn [puts foldl fst snd].
    match goal with |- context [foldl ?g ?f (?a ++ ?b)] => change (foldl g f (a ++ b)) with (puts f (a ++ b)) end.
    rewrite puts_app. cbn [puts foldl fst snd]. unfold zupd at 1. rewrite decide_True by done.
    apply hdr_n_empty, header_is_block, (St_block HS).
Qed.

(** ** The log as the file system's block layer *)

Lemma log_find_spec b T : forall k i bs,
  (Z.of_nat i + Z.of_nat k <= Z.of_nat (length bs)) -> take k (drop i bs) = T -> length T = k ->
  let r := log_find k (Z.of_nat i) b bs in
  (b ∈ T /\ exists j, r = Z.of_nat (i + j) /\ T !! j = Some b) \/ (b ∉ T /\ r = Z.of_nat (i + k)).
Proof.
  induction T as [|x T IH]; intros k i bs Hl Ht Hk r; simpl in Hk; subst k.
  - right. split; [apply not_elem_of_nil|]. unfold r. simpl. f_equal. lia.
  - assert (bs !! i = Some x) as Hx.
    { assert (take (S (length T)) (drop i bs) !! 0%nat = Some x) as E by (by rewrite Ht).
      rewrite lookup_take_lt, lookup_drop, Nat.add_0_r in E by lia. done. }
    unfold r. cbn [log_find]. rewrite Nat2Z.id, (list_lookup_total_correct _ _ _ Hx).
    destruct (x =? b) eqn:Eb; boolify.
    + left. subst. split; [apply list_elem_of_here|]. exists 0%nat. rewrite Nat.add_0_r. done.
    + replace (Z.of_nat i + 1) with (Z.of_nat (S i)) by lia.
      rewrite (drop_S _ _ _ Hx) in Ht. simpl in Ht. injection Ht as Ht.
      destruct (IH (length T) (S i) bs) as [(Hin & j & Er & Hj)|[Hn Er]]; [lia|done|done| |].
      * left. split; [by apply list_elem_of_further|]. exists (S j). rewrite Er. split; [f_equal; lia|done].
      * right. split; [rewrite not_elem_of_cons; done|]. rewrite Er. f_equal. lia.
Qed.

Lemma log_write_wp {s l p L V O D W h} start T i b :
  St s l p L V O D W h -> holds s i b -> log_ok l start T -> (forall x, D x = true <-> x ∈ T) ->
  0 <= b < FSSIZE -> outside start b ->
  1 <= log_outstanding l -> Z.of_nat (length T) < log_size l - 1 -> (length T < 29)%nat -> "log" ∉ L ->
  wp (log_write i) (fun _ s' => exists l', St s' l' p L V O (zupd D b true) W h /\
    log_ok l' start (if decide (b ∈ T) then T else T ++ [b]) /\
    log_outstanding l' = log_outstanding l /\ log_size l' = log_size l /\ log_committing l' = log_committing l /\
    forall j c, holds s j c -> holds s' j c) s.
Proof.
  intros HS Hh Hlog HDT Hb Hout Houts Hsz Hlen HL. pose proof (lo_n _ _ _ Hlog) as Hn.
  assert (length (lh_block l) = 30%nat) as Hlb by apply (lo_len _ _ _ Hlog).
  unfold log_write. apply (log_get_eq (fun l => l) _ _ _ _ _ _ _ _ HS).
  rewrite (proj2 (Z.leb_gt LOGSIZE (lh_n l))) by (rewrite Hn; unfold LOGSIZE, MAXOPBLOCKS; lia).
  rewrite (proj2 (Z.leb_gt (log_size l - 1) (lh_n l))) by lia. cbn [orb].
  rewrite (proj2 (Z.ltb_ge (log_outstanding l) 1)) by lia.
  apply wp_bind, wp_acquire; [cbn; by rewrite (st_locks _ _ _ _ _ _ _ _ _ HS)|].
  set (s1 := set_held _ s).
  assert (St s1 l p ({["log"]} ∪ L) V O D W h) as HS1.
  { pose proof (St_no_bcache _ _ _ _ _ _ _ _ _ HS). unfold s1. cbn [held fdev_locks].
    rewrite (st_locks _ _ _ _ _ _ _ _ _ HS). eapply St_set_held; [exact HS|].
    rewrite not_elem_of_union, not_elem_of_singleton. done. }
  assert (holds s1 i b) as Hh1 by exact Hh.
  destruct (hbuf_owner _ _ _ _ _ _ (st_ok _ _ _ _ _ _ _ _ _ HS1) (st_shows _ _ _ _ _ _ _ _ _ HS1) Hh1) as (_ & c & Hc & [_ Hcb] & _).
  apply wp_bind. eapply wp_eq; [unfold lift; cbn [sub_get fdev_bc]; by rewrite (getb_eq _ _ _ Hc)|].
  replace (sub_put (fd_bc s1) s1) with s1 by (by destruct s1). rewrite Hcb, (s32_id b) by (unfold FSSIZE in *; lia).
  rewrite Hn, Nat2Z.id. pose proof (log_find_spec b T (length T) 0 (lh_block l)) as Hfind.
  rewrite drop_0 in Hfind. specialize (Hfind ltac:(lia) (lo_blocks _ _ _ Hlog) eq_refl). cbv zeta in Hfind.
  change (Z.of_nat 0) with 0 in Hfind. set (r := log_find (length T) 0 b (lh_block l)) in *.
  assert (exists k, r = Z.of_nat k /\ (k <= length T)%nat /\ (b ∈ T /\ T !! k = Some b \/ b ∉ T /\ k = length T)) as (k & Er & Hk & Hcase).
  { destruct Hfind as [(Hin & j & Er & Hj)|[Hnin Er]].
    - exists j. split; [done|]. split; [apply lookup_lt_Some in Hj; lia|by left].
    - exists (length T). split; [done|]. split; [done|by right]. }
  rewrite Er. clear Er Hfind r. apply wp_bind. unfold lh_set. apply (log_get_eq lh_block _ _ _ _ _ _ _ _ HS1).
  rewrite (proj2 (Z.leb_le 0 (Z.of_nat k))) by lia.
  rewrite (proj2 (Z.ltb_lt _ _)) by (unfold LOGSIZE, MAXOPBLOCKS; lia). cbn [andb]. apply wp_modify.
  rewrite (st_log _ _ _ _ _ _ _ _ _ HS1), Nat2Z.id.
  set (T' := if decide (b ∈ T) then T else T ++ [b]).
  set (l1 := set_blocks (<[k:=b]> (lh_block l)) l).
  set (l2 := set_n (Z.of_nat (length T')) l1).
  pose proof (St_log s1 l l1 _ _ _ _ _ _ _ HS1) as HS2.
  assert (wp (if Z.of_nat k =? Z.of_nat (length T) then log_do (set_n (Z.of_nat (length T) + 1)) else kret tt)
    (fun _ s3 => s3 = set_fd_log l2 s1) (set_fd_log l1 s1)) as Hset.
  { unfold l2, T'. destruct Hcase as [[Hin Hkb]|[Hnin ->]].
    - rewrite decide_True by done. rewrite (proj2 (Z.eqb_neq _ _)) by (apply lookup_lt_Some in Hkb; lia).
      apply wp_ret. unfold l1, set_blocks, set_n. cbn. rewrite <- Hn. done.
    - rewrite decide_False by done. rewrite Z.eqb_refl. apply wp_modify. unfold set_fd_log, l1, set_n. cbn. do 2 f_equal.
      rewrite length_app. simpl. lia. }
  apply wp_bind. eapply wp_mono; [exact Hset|]. intros [] s3 ->.
  pose proof (St_log s1 l l2 _ _ _ _ _ _ _ HS1) as HS3.
  apply wp_bind. eapply wp_mono; [apply (St_pin HS3 i b Hh1)|]. intros [] s4 [HS4 Hh4].
  apply wp_release; [cbn; rewrite (st_locks _ _ _ _ _ _ _ _ _ HS4); apply elem_of_union_l, elem_of_singleton_2; done|].
  exists l2. split; [|split; [|split; [done|split; [done|split; [done|]]]]].
  - cbn [held fdev_locks]. rewrite (st_locks _ _ _ _ _ _ _ _ _ HS4), held_cycle by done.
    eapply St_set_held; [exact HS4|by eapply St_no_bcache].
  - pose proof Hlog as [H1 H2 H3 H4 H5 H6 H7 H8].
    assert (take (length T') (<[k:=b]> (lh_block l)) = T') as Ht.
    { unfold T'. destruct Hcase as [[Hin Hkb]|[Hnin ->]].
      - rewrite decide_True by done. rewrite list_insert_id; [done|]. rewrite <- H5 in Hkb. by apply lookup_take_Some in Hkb as [? _].
      - rewrite decide_False, length_app by done. simpl. rewrite Nat.add_1_r, (take_S_r _ _ b).
        + by rewrite take_insert_ge, H5 by lia.
        + apply list_lookup_insert_eq. lia. }
    assert (forall x, x ∈ T' -> x ∈ T \/ x = b) as HT'.
    { unfold T'. intros x. case_decide; [by left|]. rewrite elem_of_app, list_elem_of_singleton. done. }
    assert (length T' < 30)%nat as Hl'.
    { unfold T'. case_decide; [lia|]. rewrite length_app. simpl. lia. }
    split; try done; [cbn; by rewrite length_insert|].
    intros x [Hx| ->]%HT'; [by apply H7|done].
  - intros j x Hj. apply Hh4. exact Hj.
Qed.

#[export] Instance fdev_io : BlockIO fdev := {
  io_bread dev b := lift (bread dev b);
  io_data i := lift (bdata i);
  io_set i d := lift (bset i d);
  io_log := log_write;
  io_relse i := lift (brelse i)
}.

Section Laws.
Context (start : Z).

Definition owned (p : Z) (H : list Z) : Z -> option Z := fun b => if decide (b ∈ H) then Some p else None.
Definition logged (T : list Z) : Z -> bool := fun b => bool_decide (b ∈ T).

(** Inside a transaction of the running process. *)
Record in_tx (s : fdev) (V : Z -> bytes) (H T : list Z) : Prop := {
  tx_st : exists l p L W h T', St s l p L V (owned p H) (logged T) W h /\ log_ok l start T' /\ NoDup T' /\ T' ≡ₚ T /\
    1 <= log_outstanding l /\ log_size l = LOGSIZE /\ "log" ∉ L /\ (forall b, b ∉ T -> V b = W b) /\ hdr_n (W start) = 0;
  tx_held : NoDup H
}.

Lemma owned_None p H b : b ∉ H -> owned p H b = None.
Proof. intros. unfold owned. by rewrite decide_False. Qed.

Lemma owned_cons p b H x : owned p (b :: H) x = zupd (owned p H) b (Some p) x.
Proof.
  unfold owned, zupd. destruct (decide (x ∈ b :: H)) as [Hx|Hx]; rewrite elem_of_cons in Hx; repeat case_decide; tauto.
Qed.

Lemma owned_perm p H H' x : H ≡ₚ H' -> owned p H x = owned p H' x.
Proof. intros E. unfold owned. apply decide_ext. by rewrite E. Qed.

Lemma tx_bread s V H T b :
  in_tx s V H T -> 0 <= b < FSSIZE -> b ∉ H -> (length H + length T < IO_BUFS)%nat ->
  wp (io_bread ROOTDEV b) (fun i s' => in_tx s' V (b :: H) T /\ holds s' i b /\ forall j c, holds s j c -> holds s' j c) s.
Proof.
  intros [(l & p & L & W & h & T' & HS & Hlog & Hnd & HT & Hrest) Hh] Hb HbH Hlen.
  eapply wp_mono; [apply (St_bread HS b Hb (owned_None _ _ _ HbH))|].
  - right. exists (H ++ T). rewrite length_app. split; [|done]. intros x. rewrite elem_of_app. unfold owned, logged.
    intros [Hx|Hx]; [left; by case_decide|right; by apply bool_decide_eq_true in Hx].
  - intros i s' (HS' & Hi & Hp). split; [|split; [done|]]; [|intros j c Hj; by apply Hp].
    split; [|by apply list.NoDup_cons]. exists l, p, L, W, h, T'. split; [|done].
    eapply St_ext; [| | | |exact HS']; try done. intros x. apply owned_cons.
Qed.

Lemma tx_data s V H T i b : in_tx s V H T -> holds s i b -> io_data i s = Ok (V b) s.
Proof. intros [(l & p & L & W & h & T' & HS & _) _] Hh. by apply (St_bdata HS). Qed.

Lemma tx_write s V H T i b d :
  in_tx s V H T -> holds s i b -> is_block d -> 0 <= b < FSSIZE /\ outside start b -> (length T < 29)%nat ->
  wp (io_set i d ;;; io_log i) (fun _ s' =>
    in_tx s' (zupd V b d) H (if decide (b ∈ T) then T else b :: T) /\ forall j c, holds s j c -> holds s' j c) s.
Proof.
  intros [(l & p & L & W & h & T' & HS & Hlog & Hnd & HT & Hout & Hsz & HL & Hcl & Hhd) Hh] Hi Hd [Hb Hbo] Hlen.
  apply wp_bind. eapply wp_mono; [by apply (St_bset HS i b d)|]. intros [] s1 [HS1 Hp1].
  eapply wp_mono; [apply (log_write_wp start T' i b HS1); auto|].
  - intros x. unfold logged. by rewrite bool_decide_eq_true, HT.
  - rewrite HT, Hsz. unfold LOGSIZE, MAXOPBLOCKS. lia.
  - rewrite HT. lia.
  - intros [] s2 (l' & HS2 & Hlog2 & E1 & E2 & E3 & Hp2). split; [|auto]. split; [|done].
    set (T2 := if decide (b ∈ T') then T' else T' ++ [b]) in *. set (T3 := if decide (b ∈ T) then T else b :: T).
    assert (T2 ≡ₚ T3) as HT2.
    { unfold T2, T3. destruct (decide (b ∈ T')) as [Hin|Hn].
      - rewrite decide_True by (by rewrite <- HT). done.
      - rewrite decide_False by (by rewrite <- HT). rewrite (Permutation_app_comm _ [b]). simpl. by rewrite HT. }
    exists l', p, L, W, h, T2. split; [|split; [done|split; [|split; [done|split; [lia|split; [congruence|split; [done|]]]]]]].
    + eapply St_ext; [| | | |exact HS2]; try done. intros x. unfold logged, zupd, T3. destruct (decide (x = b)) as [->|Hx].
      * apply bool_decide_eq_true. case_decide; [done|]. apply list_elem_of_here.
      * apply bool_decide_ext. case_decide; [done|]. rewrite elem_of_cons. tauto.
    + unfold T2. case_decide; [done|]. apply list.NoDup_app. split; [done|]. split; [|apply NoDup_singleton].
      intros x Hx Hxb. apply list_elem_of_singleton in Hxb as ->. done.
    + split; [|done]. intros x Hx. assert (x <> b /\ x ∉ T) as [Hxb HxT].
      { unfold T3 in Hx. case_decide as Hbt; [split; [by intros ->|done]|]. rewrite not_elem_of_cons in Hx. done. }
      rewrite zupd_ne by done. by apply Hcl.
Qed.

Lemma tx_relse s V H H' T i b :
  in_tx s V H T -> holds s i b -> H ≡ₚ b :: H' ->
  wp (io_relse i) (fun _ s' => in_tx s' V H' T /\ forall j c, holds s j c -> c <> b -> holds s' j c) s.
Proof.
  intros [(l & p & L & W & h & T' & HS & Hlog & Hnd & HT & Hout & Hsz & HL & Hcl & Hhd) Hh] Hi HH.
  rewrite HH in Hh. apply list.NoDup_cons in Hh as [HbH Hh].
  eapply wp_mono; [apply (St_brelse HS i b Hi)|].
  - unfold logged. destruct (decide (b ∈ T)) as [Hb|Hb]; [left; by apply bool_decide_eq_true|right; by apply Hcl].
  - intros [] s1 [HS1 Hp1]. split.
    + split; [|done]. exists l, p, L, W, h, T'. split; [|repeat (split; [done|]); done].
      eapply St_ext; [| | | |exact HS1]; try done. intros x.
      unfold zupd. case_decide as Hx; [subst; by apply owned_None|]. by rewrite (owned_perm p _ _ x HH), owned_cons, zupd_ne.
    + intros j c Hj Hc. apply Hp1; [done|]. intros ->. apply Hc. symmetry. by apply (holds_inj HS i i b c).
Qed.

Definition fdev_laws : BlockLaws fdev.
Proof.
  refine (Build_BlockLaws fdev fdev_io in_tx holds 29 (fun b => 0 <= b < FSSIZE /\ outside start b) _ _ _ _ _ _).
  - intros s V V' H T HV [(l & p & L & W & h & T' & HS & Hlog & Hnd & HT & Hout & Hsz & HL & Hcl & Hhd) Hh]. split; [|done].
    exists l, p, L, W, h, T'. split; [by eapply St_ext; [| | | |exact HS]|]. repeat (split; [done|]). split; [|done].
    intros b Hb. by rewrite HV, Hcl.
  - intros s V H T b [(l & p & L & W & h & T' & HS & _) _]. apply (St_block HS).
  - apply tx_bread.
  - apply tx_data.
  - apply tx_write.
  - apply tx_relse.
Defined.
End Laws.

(** ** Ending the last operation *)

Lemma logged_true T b : logged T b = true <-> b ∈ T.
Proof. unfold logged. apply bool_decide_eq_true. Qed.

Lemma in_tx_transaction start s V T :
  in_tx start s V [] T -> (0 < length T < NBUF)%nat ->
  exists T', T' ≡ₚ T /\ transaction start T' s /\ (forall b, bview (fd_bc s) b = V b) /\
    (forall b, b ∉ T -> V b = dsk s b).
Proof.
  intros [(l & p & L & W & h & T' & HS & Hlog & Hnd & HT & Hout & Hsz & HL & Hcl & Hhd) _] Hlen.
  exists T'. split; [done|]. pose proof HS as [E1 Hok Hsh Hdsk _ _ _]. subst l.
  assert (forall b, dsk s b = W b) as Ed by apply Hdsk.
  split; [|split; [apply Hsh|intros b Hb; by rewrite Ed, Hcl]].
  split; [done|done|by rewrite HT|split; [done|]| |by rewrite Ed].
  - intros b. exact (sh_owner _ _ _ _ Hsh b).
  - intros b. rewrite (sh_dirty _ _ _ _ Hsh b), logged_true. by rewrite HT.
Qed.

Lemma in_tx_facts start s V H T : in_tx start s V H T ->
  "log" ∉ bc_locks (fd_bc s) /\ lh_n (fd_log s) = Z.of_nat (length T) /\ (forall b, bview (fd_bc s) b = V b) /\
  (forall b, b ∉ T -> V b = dsk s b /\ bdirty (fd_bc s) b = false) /\ hdr_n (dsk s start) = 0.
Proof.
  intros [(l & p & L & W & h & T' & HS & Hlog & Hnd & HT & Hout & Hsz & HL & Hcl & Hhd) _].
  pose proof HS as [E1 Hok Hsh Hdsk _ _ EL]. subst l L. assert (forall b, dsk s b = W b) as Ed by apply Hdsk.
  split; [done|]. split; [by rewrite (lo_n _ _ _ Hlog), HT|]. split; [apply Hsh|]. split; [|by rewrite Ed].
  intros b Hb. split; [by rewrite Ed, Hcl|]. rewrite (sh_dirty _ _ _ _ Hsh b). unfold logged. by apply bool_decide_eq_false.
Qed.

Lemma log_cycle s f : "log" ∉ bc_locks (fd_bc s) ->
  (acquire "log" ;;; log_do f ;;; release "log") s = Ok tt (set_fd_log (f (fd_log s)) s).
Proof.
  intros HL. unfold acquire, release, log_do, modify, kbind. cbn. rewrite decide_False by done. cbn.
  rewrite decide_True by set_solver. f_equal. destruct s as [[] l]. unfold set_fd_log, set_fd_bc, set_bc_locks. cbn in *.
  by rewrite held_cycle.
Qed.

Lemma end_op_leave_eq s : "log" ∉ bc_locks (fd_bc s) -> log_committing (fd_log s) = false -> log_outstanding (fd_log s) = 1 ->
  end_op_leave s = Ok true (set_fd_log (set_committing true (set_outstanding 0 (fd_log s))) s).
Proof.
  intros HL Hc Ho. unfold end_op_leave, acquire, release, log_do, log_get, gets, modify, kbind. cbn.
  rewrite decide_False by done. cbn. rewrite Hc, Ho.
  change (1 - 1) with 0. cbn. rewrite decide_True by set_solver.
  f_equal. destruct s as [[] l]. unfold set_fd_log, set_fd_bc, set_bc_locks. cbn in *. by rewrite held_cycle.
Qed.

Lemma transaction_log start T s l : transaction start T s -> log_start l = log_start (fd_log s) -> log_dev l = log_dev (fd_log s) ->
  lh_n l = lh_n (fd_log s) -> lh_block l = lh_block (fd_log s) -> transaction start T (set_fd_log l s).
Proof.
  intros [[H1 H2 H3 H4 H5 H6 H7 H7b] H8 H9 H10 H11 H12] E1 E2 E3 E4. split; try done. split; cbn; rewrite ?E1, ?E2, ?E3, ?E4; done.
Qed.

(** C19: durability.  When the last operation of a transaction ends, the
    commit runs and every block of the file system on disk, and in the cache,
    has the contents the transaction's operations gave it; no buffer stays
    pinned, and the log is empty, in memory and on disk, and idle again. *)
Theorem end_op_durable start s V T :
  in_tx start s V [] T -> (length T < NBUF)%nat -> log_outstanding (fd_log s) = 1 -> log_committing (fd_log s) = false ->
  wp end_op (fun _ s' =>
    (forall b, outside start b -> dsk s' b = V b /\ bview (fd_bc s') b = V b /\ bdirty (fd_bc s') b = false) /\
    lh_n (fd_log s') = 0 /\ hdr_n (dsk s' start) = 0 /\
    log_outstanding (fd_log s') = 0 /\ log_committing (fd_log s') = false /\ bc_locks (fd_bc s') = bc_locks (fd_bc s)) s.
Proof.
  intros Htx Hlen Ho Hc. destruct (in_tx_facts _ _ _ _ _ Htx) as (HL & Hn & Hview & Hclean & Hempty).
  set (s1 := set_fd_log (set_committing true (set_outstanding 0 (fd_log s))) s).
  unfold end_op. apply wp_bind. eapply wp_eq; [by apply end_op_leave_eq|]. cbv iota. fold s1. apply wp_bind.
  assert (wp commit (fun _ s' =>
    (forall b, outside start b -> dsk s' b = V b /\ bview (fd_bc s') b = V b /\ bdirty (fd_bc s') b = false) /\
    fd_log s' = set_n 0 (fd_log s1) /\ bc_locks (fd_bc s') = bc_locks (fd_bc s) /\ hdr_n (dsk s' start) = 0) s1) as Hcommit.
  { destruct (decide (T = [])) as [->|HT].
    - assert (lh_n (fd_log s) = 0) as En by (by rewrite Hn). unfold commit, log_get, gets. apply wp_bind. eapply wp_eq; [done|].
      cbn [fd_log s1 set_fd_log lh_n set_committing set_outstanding]. rewrite En. apply wp_ret.
      split; [|split; [unfold set_n; cbn; by rewrite <- En|done]]. intros b Hb.
      destruct (Hclean b) as [E1 E2]; [apply not_elem_of_nil|]. change (dsk s1 b) with (dsk s b). by rewrite <- E1.
    - destruct (in_tx_transaction _ _ _ _ Htx) as (T' & HTT & Htr & Hv & Hd); [destruct T; [done|simpl in *; lia]|].
      eapply wp_mono; [apply (commit_wp start T' s1); by apply transaction_log|].
      intros [] s' (H1 & H2 & H3 & H4 & H5 & H6 & H7 & H8). split; [|done]. intros b Hb.
      assert (dsk s' b = V b) as ->.
      { destruct (decide (b ∈ T')) as [Hin|Hnin]; [by rewrite H1, <- Hv|]. rewrite H2 by done. symmetry. apply Hd. by rewrite <- HTT. }
      split; [done|]. split; [rewrite H3 by done; apply Hv|apply H5]. }
  eapply wp_mono; [exact Hcommit|]. intros [] s' (H1 & H2 & H3 & H4).
  eapply wp_eq; [apply log_cycle; by rewrite H3|]. cbn. by rewrite H2.
Qed.

(** ** A concrete block layer *)

(** An empty disk, an initialised cache, and a log at block 2 with one
    operation running. *)
Definition demo_log : log := mk_log 2 30 1 false ROOTDEV 0 (replicate 30 0).
Definition boot_dev (d : gmap (Z * Z) bytes) : fdev :=
  mk_fdev (set_bufs (init_buf <$> seq 0 (S NBUF)) (boot_cache d 1 (∅ ∖ {["bcache"]}))) demo_log.
Definition demo_dev : fdev := boot_dev ∅.

Lemma boot_in_tx d : (forall k x, d !! k = Some x -> is_block x) -> hdr_n (default zero_block (d !! (1, 2))) = 0 ->
  in_tx 2 (boot_dev d) (fun b => default zero_block (d !! (1, b))) [] [].
Proof.
  intros Hd Hh. split; [|apply NoDup_nil_2].
  exists demo_log, 1, (∅ ∖ {["bcache"]}), (fun b => default zero_block (d !! (1, b))), [], [].
  split; [|split; [|split; [apply NoDup_nil_2|]]].
  - split; try done. exists (rev (seq 0 NBUF)). by apply (binit_inv d 1 ∅).
  - split; [done|done|done|done|done|by unfold LOGSIZE, MAXOPBLOCKS, FSSIZE|by intros b ?%elem_of_nil|cbn; lia].
  - repeat (split; [done|]). done.
Qed.

Lemma demo_in_tx : in_tx 2 demo_dev (fun _ => zero_block) [] [].
Proof.
  assert (in_tx 2 demo_dev (fun b => default zero_block ((∅ : gmap (Z * Z) bytes) !! (1, b))) [] []) as H.
  { apply boot_in_tx; [intros k x; by rewrite lookup_empty|done]. }
  eapply (io_st_ext (BlockLaws := fdev_laws 2)); [|exact H]. done.
Qed.

(** Block 100 is written in the transaction. *)
Definition demo_block : bytes := put8 7 42 zero_block.
Definition demo_write : M fdev unit :=
  i <- io_bread ROOTDEV 100 ;; (io_set i demo_block ;;; io_log i) ;;; io_relse i.
Definition demo_written : fdev := match demo_write demo_dev with Ok _ s => s | _ => demo_dev end.

Lemma demo_written_tx : in_tx 2 demo_written (zupd (fun _ => zero_block) 100 demo_block) [] [100].
Proof.
  assert (wp demo_write (fun _ s => in_tx 2 s (zupd (fun _ => zero_block) 100 demo_block) [] [100]) demo_dev) as H.
  { unfold demo_write. apply wp_bind. eapply wp_mono; [apply (tx_bread 2 _ _ _ _ 100 demo_in_tx); [done|apply not_elem_of_nil|cbn; unfold IO_BUFS; lia]|].
    intros i s1 (H1 & Hi & _). apply wp_bind.
    eapply wp_mono; [apply (tx_write 2 _ _ _ _ i 100 demo_block H1 Hi); [by apply put8_block, zero_is_block|split; [done|]; unfold outside, LOGSIZE, MAXOPBLOCKS; lia|cbn; lia]|].
    intros [] s2 [H2 Hp]. eapply wp_mono; [by apply (tx_relse 2 _ _ _ [] _ i 100 H2); [apply Hp|]|]. by intros [] s3 [H3 _]. }
  unfold demo_written, wp in *. by destruct (demo_write demo_dev).
Qed.

Lemma demo_transaction : transaction 2 [100] demo_written.
Proof.
  destruct (in_tx_transaction _ _ _ _ demo_written_tx) as (T' & HT & Htr & _); [cbn; unfold NBUF; lia|].
  symmetry in HT. by apply Permutation_singleton_l in HT as ->.
Qed.

Lemma end_op_durable_witness :
  exists s, end_op demo_written = Ok tt s /\ dsk s 100 = demo_block /\ lh_n (fd_log s) = 0.
Proof.
  destruct (wp_elim _ _ _ (end_op_durable 2 demo_written _ [100] demo_written_tx ltac:(cbn; unfold NBUF; lia)
    ltac:(by vm_compute) ltac:(by vm_compute))) as ([] & s & E & H & Hn & _).
  exists s. split; [exact E|]. split; [|exact Hn]. apply (H 100). unfold outside, LOGSIZE, MAXOPBLOCKS. lia.
Defined.

Lemma commit_crash_atomic_witness :
  exists s', commit demo_written = Ok tt s' /\
    forall ws w d s0, history (fd_bc s') = history (fd_bc demo_written) ++ keyed ws -> w `prefix_of` ws ->
    crashes 2 (puts (dsk demo_written) w) d -> rebooted 2 d s0 ->
    exists s1, recover_from_log s0 = Ok tt s1 /\ (dsk s1 100 = dsk demo_written 100 \/ dsk s1 100 = dsk s' 100).
Proof.
  destruct (wp_elim _ _ _ (commit_crash_atomic 2 [100] demo_written demo_transaction)) as ([] & s' & E & H).
  exists s'. split; [exact E|]. intros ws w d s0 H1 H2 H3 H4.
  destruct (wp_elim _ _ _ (H ws w d s0 H1 H2 H3 H4)) as ([] & s1 & E1 & H5).
  exists s1. split; [exact E1|].
  destruct H5 as [H5|H5]; [left|right]; apply H5; unfold outside, LOGSIZE, MAXOPBLOCKS; lia.
Defined.
