(* ===== verification/Logops.v ===== *)
(** * Concurrent operations on the log (begin_op, end_op, log_write of log.c)

    Many processes run file-system operations at once: each calls
    [begin_op], logs at most [MAXOPBLOCKS] blocks and calls [end_op]; the last
    to finish commits.  The log's lock makes each call one atomic step, so
    the system is a transition relation whose steps run the operations of
    [Log] on the shared state, together with the number of blocks each
    running operation has logged. *)

From S2P Require Import Prelude Layout Ring Block Blockio Bio Log.

(** The running operations: process id to number of blocks it has logged. *)
Notation opmap := (gmap Z nat).

Definition logged (s s' : fdev) : nat := Z.to_nat (lh_n (fd_log s') - lh_n (fd_log s)).

Inductive lstep : fdev * opmap -> fdev * opmap -> Prop :=
| st_begin s m p s' : m !! p = None -> begin_op s = Ok tt s' -> lstep (s, m) (s', <[p := 0%nat]> m)
| st_write s m p k bp s' : m !! p = Some k -> Z.of_nat k < MAXOPBLOCKS -> log_write bp s = Ok tt s' ->
    lstep (s, m) (s', <[p := (k + logged s s')%nat]> m)
| st_cache s m {A} (c : M bcache A) a s' : lift c s = Ok a s' -> lstep (s, m) (s', m)
| st_end s m p k last s' : m !! p = Some k -> end_op_leave s = Ok last s' -> lstep (s, m) (s', delete p m)
| st_commit s m s' : log_committing (fd_log s) = true -> (commit ;;; end_op_done) s = Ok tt s' -> lstep (s, m) (s', m).

Inductive lreach (s0 : fdev) : fdev * opmap -> Prop :=
| lr_init : lreach s0 (s0, ∅)
| lr_step x y : lreach s0 x -> lstep x y -> lreach s0 y.

(** ** What the operations do to the log *)

Lemma acquire_log s u s' : acquire "log" s = Ok u s' -> fd_log s' = fd_log s.
Proof. unfold acquire. case_decide; [done|]. by intros [= _ <-]. Qed.
Lemma release_log s u s' : release "log" s = Ok u s' -> fd_log s' = fd_log s.
Proof. unfold release. case_decide; [|done]. by intros [= _ <-]. Qed.
Lemma lift_log {A} (c : M bcache A) s a s' : lift c s = Ok a s' -> fd_log s' = fd_log s.
Proof. unfold lift. destruct (c _); [|done..]. by intros [= _ <-]. Qed.

Ltac log_inv :=
  repeat match goal with
  | H : kbind _ _ _ = Ok _ _ |- _ => let E := fresh "E" in apply kbind_ok_inv in H as (? & ? & E & H)
  | H : acquire "log" _ = Ok _ _ |- _ => apply acquire_log in H
  | H : release "log" _ = Ok _ _ |- _ => apply release_log in H
  | H : lift _ _ = Ok _ _ |- _ => apply lift_log in H
  | H : log_get _ _ = Ok _ _ |- _ => injection H as H ?
  | H : log_do _ _ = Ok _ _ |- _ => injection H as ? H
  | H : kret _ _ = Ok _ _ |- _ => injection H as ? H
  | H : context [if ?b then _ else _] |- _ => destruct b eqn:?; [try done|try done]
  end; subst; simpl in *.

Lemma begin_op_log s s' : begin_op s = Ok tt s' ->
  let l := fd_log s in
  log_committing l = false /\ lh_n l + (log_outstanding l + 1) * MAXOPBLOCKS <= LOGSIZE /\
  fd_log s' = set_outstanding (log_outstanding l + 1) l.
Proof. intros H. unfold begin_op in H. log_inv. boolify. by rewrite H, <- E. Qed.

Lemma end_op_leave_log s last s' : end_op_leave s = Ok last s' ->
  let l := fd_log s in
  log_committing l = false /\ last = (log_outstanding l - 1 =? 0) /\
  fd_log s' = set_committing last (set_outstanding (log_outstanding l - 1) l).
Proof.
  intros H. unfold end_op_leave in H. log_inv; rewrite ?E in *; (split; [done|]); (split; [done|]);
    rewrite E4; cbn; rewrite ?E; [done|]. by destruct (fd_log s); simpl in *; subst.
Qed.

Lemma end_op_done_log s s' : end_op_done s = Ok tt s' -> fd_log s' = set_committing false (fd_log s).
Proof. intros H. unfold end_op_done in H. log_inv. by rewrite H, <- E. Qed.

Lemma log_find_range k i b bs : i <= log_find k i b bs <= i + Z.of_nat k.
Proof.
  revert i. induction k as [|k IH]; intros i; cbn [log_find]; [lia|]. case_cond; [lia|]. specialize (IH (i + 1)). lia.
Qed.

Lemma log_write_log bp s s' : log_write bp s = Ok tt s' ->
  let l := fd_log s in let l' := fd_log s' in
  (lh_n l' = lh_n l \/ lh_n l' = lh_n l + 1) /\ log_outstanding l' = log_outstanding l /\ log_committing l' = log_committing l.
Proof.
  intros H. unfold log_write, lh_set in H. log_inv.
  all: rewrite H, E4; simpl; rewrite ?E1, ?E0; auto.
Qed.

(** Operations that do not touch the log's fields. *)
Definition keeps {A} (c : M fdev A) : Prop := forall s a s', c s = Ok a s' -> fd_log s' = fd_log s.

Lemma keeps_bind {A B} (c : M fdev A) (f : A -> M fdev B) : keeps c -> (forall a, keeps (f a)) -> keeps (kbind c f).
Proof. intros Hc Hf s b s' H. apply kbind_ok_inv in H as (a & s1 & E & H). rewrite (Hf _ _ _ _ H). by apply Hc in E. Qed.
Lemma keeps_ret {A} (a : A) : keeps (kret a).
Proof. by intros s a' s' [= _ <-]. Qed.
Lemma keeps_lift {A} (c : M bcache A) : keeps (lift c).
Proof. intros s a s'. apply lift_log. Qed.
Lemma keeps_get {A} (f : log -> A) : keeps (log_get f).
Proof. by intros s a' s' [= _ <-]. Qed.
Lemma keeps_lh_get i : keeps (lh_get i).
Proof. apply keeps_bind; [apply keeps_get|]. intros bs. case_cond; [apply keeps_ret|done]. Qed.
Lemma keeps_if {A} (b : bool) (c d : M fdev A) : keeps c -> keeps d -> keeps (if b then c else d).
Proof. by destruct b. Qed.

Ltac keeps :=
  repeat lazymatch goal with
  | |- keeps (kbind _ _) => apply keeps_bind; [|intros ?]
  | |- keeps (kret _) => apply keeps_ret
  | |- keeps (lift _) => apply keeps_lift
  | |- keeps (log_get _) => apply keeps_get
  | |- keeps (lh_get _) => apply keeps_lh_get
  | IH : forall _, keeps _ |- _ => apply IH
  end.

Lemma keeps_install k tail : keeps (install_loop k tail).
Proof. revert tail. induction k; intros tail; cbn [install_loop]; keeps. Qed.
Lemma keeps_write_log k tail : keeps (write_log_loop k tail).
Proof. revert tail. induction k; intros tail; cbn [write_log_loop]; keeps. Qed.
Lemma keeps_head k i buf : keeps (write_head_loop k i buf).
Proof. revert i. induction k; intros i; cbn [write_head_loop]; keeps. Qed.
Lemma keeps_write_head : keeps write_head.
Proof. unfold write_head. keeps. apply keeps_head. Qed.

Lemma commit_log s s' : commit s = Ok tt s' -> (lh_n (fd_log s) <= 0 /\ fd_log s' = fd_log s) \/ fd_log s' = set_n 0 (fd_log s).
Proof.
  intros H. unfold commit in H. apply kbind_ok_inv in H as (n & s1 & E & H). injection E as <- <-.
  destruct (0 <? lh_n (fd_log s)) eqn:Hn; [right|left; boolify; injection H as ->; by split].
  apply kbind_ok_inv in H as (u1 & s1 & E1 & H). apply kbind_ok_inv in H as (u2 & s2 & E2 & H).
  apply kbind_ok_inv in H as (u3 & s3 & E3 & H). apply kbind_ok_inv in H as (u4 & s4 & E4 & H).
  injection E4 as _ <-. apply keeps_write_head in H as ->, E2. cbn.
  assert (keeps write_log) as Hw by (unfold write_log; keeps; apply keeps_write_log). assert (keeps install_trans) as Hi by (unfold install_trans; keeps; apply keeps_install).
  apply Hw in E1. apply Hi in E3. by rewrite E3, E2, E1.
Qed.

(** ** The reservation invariant *)

(** Blocks the running operations may still log. *)
Definition quota (m : opmap) : Z := map_fold (fun _ k acc => MAXOPBLOCKS - Z.of_nat k + acc) 0 m.

Lemma quota_insert m p k : m !! p = None -> quota (<[p := k]> m) = MAXOPBLOCKS - Z.of_nat k + quota m.
Proof.
  intros Hp. unfold quota. apply (map_fold_insert_L (fun _ k acc => MAXOPBLOCKS - Z.of_nat k + acc)); [|done]. intros. lia.
Qed.

Lemma quota_delete m p k : m !! p = Some k -> quota m = MAXOPBLOCKS - Z.of_nat k + quota (delete p m).
Proof. intros Hp. rewrite <- (insert_delete_id m p k Hp) at 1. apply quota_insert, lookup_delete_eq. Qed.

Definition within (m : opmap) : Prop := forall p k, m !! p = Some k -> Z.of_nat k <= MAXOPBLOCKS.

Lemma within_insert m p k : within m -> Z.of_nat k <= MAXOPBLOCKS -> within (<[p := k]> m).
Proof. intros Hm Hk q j. rewrite lookup_insert_Some. intros [[_ <-]|[_ Hj]]; [done|by apply (Hm q)]. Qed.
Lemma within_delete m p : within m -> within (delete p m).
Proof. intros Hm q j. rewrite lookup_delete_Some. intros [_ Hj]. by apply (Hm q). Qed.

Lemma quota_le m : within m -> 0 <= quota m <= Z.of_nat (size m) * MAXOPBLOCKS.
Proof.
  induction m as [|p k m Hp IH] using map_ind; intros Hq; [done|].
  rewrite quota_insert, map_size_insert_None by done. rewrite Nat2Z.inj_succ.
  assert (Z.of_nat k <= MAXOPBLOCKS) by (apply (Hq p), lookup_insert_eq).
  destruct IH as [? ?]; [|unfold MAXOPBLOCKS in *; lia].
  intros q j Hj. apply (Hq q). rewrite lookup_insert_ne; [done|]. intros ->. congruence.
Qed.

Record linv (x : fdev * opmap) : Prop := {
  li_count : log_outstanding (fd_log x.1) = Z.of_nat (size x.2);
  li_commit : log_committing (fd_log x.1) = true -> x.2 = ∅;
  li_within : within x.2;
  li_room : 0 <= lh_n (fd_log x.1) /\ lh_n (fd_log x.1) + quota x.2 <= LOGSIZE
}.

Lemma linv_begin s m p s' : m !! p = None -> begin_op s = Ok tt s' -> linv (s, m) -> linv (s', <[p := 0%nat]> m).
Proof.
  intros Hp Hb [Hc Hcm Hq [Hn0 Hn]]. apply begin_op_log in Hb as (Hnc & Hroom & E). cbn in *.
  destruct (quota_le m Hq). split; cbn; rewrite ?E; cbn.
  - rewrite map_size_insert_None by done. lia.
  - congruence.
  - apply within_insert; [done|]. unfold MAXOPBLOCKS; lia.
  - rewrite quota_insert by done. unfold MAXOPBLOCKS in *. lia.
Qed.

Lemma linv_write s m p k bp s' : m !! p = Some k -> Z.of_nat k < MAXOPBLOCKS -> log_write bp s = Ok tt s' ->
  linv (s, m) -> linv (s', <[p := (k + logged s s')%nat]> m).
Proof.
  intros Hp Hk Hw [Hc Hcm Hq [Hn0 Hn]]. apply log_write_log in Hw as (Hn' & Eo & Ec). cbn in *. unfold logged.
  split; cbn; rewrite ?Eo, ?Ec.
  - by rewrite map_size_insert_Some by (by eexists).
  - intros Hcc. rewrite (Hcm Hcc) in Hp. by rewrite lookup_empty in Hp.
  - apply within_insert; [done|]. lia.
  - rewrite (quota_delete m p k Hp) in Hn. rewrite <- insert_delete_eq, quota_insert by apply lookup_delete_eq. lia.
Qed.

Lemma linv_end s m p k last s' : m !! p = Some k -> end_op_leave s = Ok last s' -> linv (s, m) -> linv (s', delete p m).
Proof.
  intros Hp He [Hc Hcm Hq [Hn0 Hn]]. apply end_op_leave_log in He as (Hnc & Hl & E). cbn in *.
  assert (size m <> 0)%nat by (intros Em; apply map_size_empty_inv in Em; subst; done).
  assert (size (delete p m) = pred (size m)) as Es by (by rewrite map_size_delete_Some by (by eexists)).
  split; cbn; rewrite ?E; cbn.
  - lia.
  - intros ->. symmetry in Hl. boolify. apply map_size_empty_inv. lia.
  - by apply within_delete.
  - rewrite (quota_delete m p k Hp) in Hn. pose proof (Hq p k Hp). lia.
Qed.

Lemma linv_commit s m s' : log_committing (fd_log s) = true -> (commit ;;; end_op_done) s = Ok tt s' -> linv (s, m) -> linv (s', m).
Proof.
  intros Hcom Hc2 [Hc Hcm Hq [Hn0 Hn]]. cbn in *. rewrite (Hcm Hcom) in *.
  apply kbind_ok_inv in Hc2 as ([] & s1 & E1 & E2). apply end_op_done_log in E2. apply commit_log in E1.
  change (quota ∅) with 0 in *. unfold LOGSIZE, MAXOPBLOCKS in *.
  split; cbn; [| |done|]; rewrite ?E2; destruct E1 as [[H ->]| ->]; cbn; try done; change (quota ∅) with 0; unfold LOGSIZE, MAXOPBLOCKS in *; lia.
Qed.

Lemma linv_step x y : linv x -> lstep x y -> linv y.
Proof.
  intros Hx Hst. destruct Hst as [| |s m A c a s' H| |].
  - by eapply linv_begin.
  - by eapply linv_write.
  - destruct Hx. apply lift_log in H. cbn in *. split; cbn; by rewrite ?H.
  - by eapply linv_end.
  - by eapply linv_commit.
Qed.

(** The log as [initlog] leaves it. *)
Definition idle (s : fdev) : Prop :=
  log_outstanding (fd_log s) = 0 /\ log_committing (fd_log s) = false /\ lh_n (fd_log s) = 0.

Lemma linv_reach s0 x : idle s0 -> lreach s0 x -> linv x.
Proof.
  intros (H1 & H2 & H3). induction 1 as [|x y _ IH Hst]; [|by eapply linv_step].
  split; cbn; [done|congruence|done|]. change (quota ∅) with 0. rewrite H3. unfold LOGSIZE, MAXOPBLOCKS. lia.
Qed.

(** ** Properties *)


(** ** A schedule that fills the log *)

Definition idle_dev : fdev := set_fd_log (set_outstanding 0 demo_log) demo_dev.

(** Process [p] logs block [b], one call after the other. *)
Definition one_write (p b : Z) (x : fdev * opmap) : option (fdev * opmap) :=
  match x.2 !! p with
  | Some k =>
      if Z.of_nat k <? MAXOPBLOCKS then
        match lift (bread ROOTDEV b) x.1 with
        | Ok bp s1 =>
            match log_write bp s1 with
            | Ok _ s2 =>
                match lift (brelse bp) s2 with
                | Ok _ s3 => Some (s3, <[p := (k + logged s1 s2)%nat]> x.2)
                | _ => None
                end
            | _ => None
            end
        | _ => None
        end
      else None
  | None => None
  end.
Definition one_begin (p : Z) (x : fdev * opmap) : option (fdev * opmap) :=
  match x.2 !! p, begin_op x.1 with
  | None, Ok _ s => Some (s, <[p := 0%nat]> x.2)
  | _, _ => None
  end.
Definition one_end (p : Z) (x : fdev * opmap) : option (fdev * opmap) :=
  match x.2 !! p, end_op_leave x.1 with
  | Some _, Ok _ s => Some (s, delete p x.2)
  | _, _ => None
  end.
Definition one_commit (x : fdev * opmap) : option (fdev * opmap) :=
  if log_committing (fd_log x.1) then
    match (commit ;;; end_op_done) x.1 with Ok _ s => Some (s, x.2) | _ => None end
  else None.

(** A schedule: which process does what next. *)
Inductive act := Begins (p : Z) | Writes (p b : Z) | Ends (p : Z) | Commits.

Definition act_step (a : act) : fdev * opmap -> option (fdev * opmap) :=
  match a with Begins p => one_begin p | Writes p b => one_write p b | Ends p => one_end p | Commits => one_commit end.
Fixpoint play (l : list act) (x : fdev * opmap) : option (fdev * opmap) :=
  match l with
  | [] => Some x
  | a :: l' => match act_step a x with Some y => play l' y | None => None end
  end.

Lemma one_write_reach s0 p b x y : one_write p b x = Some y -> lreach s0 x -> lreach s0 y.
Proof.
  destruct x as [s m]. unfold one_write. cbn [fst snd]. destruct (m !! p) as [k|] eqn:Hk; [|done].
  destruct (Z.of_nat k <? MAXOPBLOCKS) eqn:Hlt; [|done]. boolify.
  destruct (lift (bread ROOTDEV b) s) as [bp s1|?|?|?|] eqn:E1; [|done..].
  destruct (log_write bp s1) as [[] s2|?|?|?|] eqn:E2; [|done..].
  destruct (lift (brelse bp) s2) as [[] s3|?|?|?|] eqn:E3; [|done..].
  intros [= <-] Hr. eapply lr_step; [|by eapply st_cache]. eapply lr_step; [|by eapply st_write].
  eapply lr_step; [exact Hr|]. by eapply st_cache.
Qed.
Lemma one_begin_reach s0 p x y : one_begin p x = Some y -> lreach s0 x -> lreach s0 y.
Proof.
  destruct x as [s m]. unfold one_begin. cbn [fst snd]. destruct (m !! p) eqn:Hp; [done|].
  destruct (begin_op s) as [[] s1|?|?|?|] eqn:E1; [|done..]. intros [= <-] Hr. eapply lr_step; [exact Hr|]. by apply st_begin.
Qed.
Lemma one_end_reach s0 p x y : one_end p x = Some y -> lreach s0 x -> lreach s0 y.
Proof.
  destruct x as [s m]. unfold one_end. cbn [fst snd]. destruct (m !! p) eqn:Hp; [|done].
  destruct (end_op_leave s) as [last s1|?|?|?|] eqn:E1; [|done..]. intros [= <-] Hr. eapply lr_step; [exact Hr|]. by eapply st_end.
Qed.
Lemma one_commit_reach s0 x y : one_commit x = Some y -> lreach s0 x -> lreach s0 y.
Proof.
  destruct x as [s m]. unfold one_commit. cbn [fst snd]. destruct (log_committing (fd_log s)) eqn:Hc; [|done].
  destruct ((commit ;;; end_op_done) s) as [[] s1|?|?|?|] eqn:E1; [|done..]. intros [= <-] Hr. eapply lr_step; [exact Hr|]. by apply st_commit.
Qed.
Lemma play_reach s0 l x y : play l x = Some y -> lreach s0 x -> lreach s0 y.
Proof.
  revert x. induction l as [|a l IH]; intros x; cbn [play]; [by intros [= ->]|].
  destruct (act_step a x) as [z|] eqn:E; [|done]. intros Hw Hr. eapply IH; [exact Hw|].
  destruct a; [by eapply one_begin_reach|by eapply one_write_reach|by eapply one_end_reach|by eapply one_commit_reach].
Qed.

(** Three operations, of which two log ten blocks and the third nine. *)
Definition full_schedule : option (fdev * opmap) :=
  play (Begins 1 :: Begins 2 :: Begins 3 :: ((fun i => Writes (1 + Z.of_nat (i / 10)%nat) (100 + Z.of_nat i)) <$> seq 0 29)) (idle_dev, ∅).

Lemma full_schedule_reach x : full_schedule = Some x -> lreach idle_dev x.
Proof. intros Hw. eapply play_reach; [exact Hw|]. apply lr_init. Qed.

Definition panics {A} (o : outcome fdev A) (msg : string) : bool :=
  match o with Panic m => bool_decide (m = msg) | _ => false end.

Definition stuck (x : fdev * opmap) : bool :=
  match lift (bread ROOTDEV 129) x.1 with
  | Ok bp s => panics (log_write bp s) "too big a transaction" && bool_decide (x.2 !! 3 = Some 9%nat)
  | _ => false
  end.

Lemma full_schedule_stuck : from_option stuck false full_schedule = true.
Proof. vm_compute. reflexivity. Qed.

(** the reservation is one block too generous.  Three operations may
    run at once, for thirty blocks, but [log_write] refuses to fill more
    than [log.size - 1 = 29]: there is a reachable state in which an
    operation that has logged nine blocks panics on its tenth, which it was
    promised by [begin_op]. *)
Theorem reservation_can_panic :
  exists s m p k bp, lreach idle_dev (s, m) /\ m !! p = Some k /\ Z.of_nat k < MAXOPBLOCKS /\
    log_write bp s = Panic "too big a transaction".
Proof.
  pose proof full_schedule_stuck as H. destruct full_schedule as [[s m]|] eqn:E; [|done]. apply full_schedule_reach in E.
  cbn [from_option] in H. unfold stuck in H. cbn [fst snd] in H.
  destruct (lift (bread ROOTDEV 129) s) as [bp s1|?|?|?|] eqn:E1; [|done..]. boolify.
  exists s1, m, 3, 9%nat, bp. split; [by eapply lr_step; [exact E|eapply st_cache]|]. split; [done|]. split; [done|].
  destruct (log_write bp s1); cbn in *; try done. by match goal with H : bool_decide _ = true |- _ => apply bool_decide_eq_true in H as -> end.
Qed.

(** An interleaving: operations 1 and 2 take turns to log blocks, 1 ends, 3
    begins while 2 still runs, both end, the last one commits, and 4 and 5
    begin and log blocks in the emptied log. *)
Definition mixed_schedule : list act :=
  [Begins 1; Begins 2; Writes 1 100; Writes 2 101; Writes 1 102; Writes 2 100; Ends 1; Begins 3; Writes 3 103; Ends 2; Writes 3 101;
   Ends 3; Commits; Begins 4; Writes 4 104; Begins 5; Writes 5 105; Writes 4 106].
Definition mixed_seen (x : fdev * opmap) : Z * Z * bool * list (Z * nat) :=
  (lh_n (fd_log x.1), log_outstanding (fd_log x.1), log_committing (fd_log x.1), map_to_list x.2).

Lemma mixed_before_commit : mixed_seen <$> play (take 11 mixed_schedule) (idle_dev, ∅) = Some (4, 1, false, [(3, 1%nat)]).
Proof. vm_compute. reflexivity. Qed.
Lemma mixed_end : mixed_seen <$> play mixed_schedule (idle_dev, ∅) = Some (3, 2, false, [(5, 1%nat); (4, 2%nat)]).
Proof. vm_compute. reflexivity. Qed.

Lemma two_ops (m : opmap) : map_to_list m = [(5, 1%nat); (4, 2%nat)] -> m !! 4 = Some 2%nat /\ m !! 5 = Some 1%nat.
Proof. intros Hm. rewrite <- !elem_of_map_to_list, Hm. by rewrite !elem_of_cons; auto. Qed.

