(* ===== verification/Fs.v ===== *)
(** * The file system (fs.c): blocks, inodes, directories, paths

    The code is written against the block interface [BlockIO]; its state is
    the block layer's, the superblock and the inode cache.  An inode pointer
    is an index of the cache, so the tests for NULL pointers have no
    counterpart; [cprintf] calls are left out. *)

From S2P Require Import Prelude Layout Block Blockio Bio Log.

(** ** Data *)

Definition ROOTINO : Z := 1.
Definition NDIRECT : Z := 12.
Definition IND_BLOCK : Z := NDIRECT.
Definition NINDIRECT : Z := 128.          (* BSIZE / sizeof(uint) *)
Definition MAXFILE : Z := NDIRECT + NINDIRECT.
Definition DSIZE : Z := 64.               (* sizeof(struct dinode) *)
Definition IPB : Z := 8.                  (* BSIZE / sizeof(struct dinode) *)
Definition BPB : Z := 4096.               (* BSIZE * 8 *)
Definition DIRSIZ : nat := 14.
Definition DESIZE : Z := 16.              (* sizeof(struct dirent) *)
Definition NINODE : nat := 50.
Definition NDEV : Z := 10.
Definition T_DIR : Z := 1.
Definition T_FILE : Z := 2.
Definition T_DEV : Z := 3.

Definition IBLOCK (i : Z) (sb : superblock) : Z := u32 (i / IPB + sb_inodestart sb).
Definition BBLOCK (b : Z) (sb : superblock) : Z := u32 (b / BPB + sb_bmapstart sb).

(** [struct inode], the in-memory copy. *)
Record inode := mk_inode {
  i_dev : Z; i_inum : Z; i_ref : Z; i_lock : sleeplock; i_valid : bool;
  i_type : Z; i_major : Z; i_minor : Z; i_nlink : Z; i_size : Z;
  i_addrs : list Z                        (* addrs[NDIRECT+1] *)
}.

(** [struct dinode], at a byte offset of a block. *)
Record dinode := mk_dinode {
  d_type : Z; d_major : Z; d_minor : Z; d_nlink : Z; d_size : Z; d_addrs : list Z
}.

Definition get_addrs (b : bytes) (o : nat) : list Z := (fun k => get32 b (o + 12 + 4 * k)%nat) <$> seq 0 13.
Definition get_dinode (b : bytes) (o : nat) : dinode :=
  mk_dinode (s16 (get16 b o)) (s16 (get16 b (o + 2))) (s16 (get16 b (o + 4))) (s16 (get16 b (o + 6)))
    (get32 b (o + 8)) (get_addrs b o).
Fixpoint put_addrs (o k : nat) (a : list Z) (b : bytes) : bytes :=
  match a with
  | [] => b
  | x :: a' => put_addrs o (S k) a' (put32 (o + 12 + 4 * k) x b)
  end.
Definition put_dinode (o : nat) (d : dinode) (b : bytes) : bytes :=
  put_addrs o 0 (take 13 (d_addrs d))
    (put32 (o + 8) (d_size d) (put16 (o + 6) (d_nlink d) (put16 (o + 4) (d_minor d)
      (put16 (o + 2) (d_major d) (put16 o (d_type d) b))))).

(** [struct stat]. *)
Record stat := mk_stat { st_type : Z; st_dev : Z; st_ino : Z; st_nlink : Z; st_size : Z }.

(** [struct dirent]. *)
Definition de_inum (de : bytes) : Z := get16 de 0.
Definition de_name (de : bytes) : bytes := slice 2 DIRSIZ de.

Definition set_i_ref (r : Z) (ip : inode) : inode :=
  mk_inode (i_dev ip) (i_inum ip) r (i_lock ip) (i_valid ip) (i_type ip) (i_major ip) (i_minor ip) (i_nlink ip) (i_size ip) (i_addrs ip).
Definition set_i_lock (l : sleeplock) (ip : inode) : inode :=
  mk_inode (i_dev ip) (i_inum ip) (i_ref ip) l (i_valid ip) (i_type ip) (i_major ip) (i_minor ip) (i_nlink ip) (i_size ip) (i_addrs ip).
Definition set_i_valid (v : bool) (ip : inode) : inode :=
  mk_inode (i_dev ip) (i_inum ip) (i_ref ip) (i_lock ip) v (i_type ip) (i_major ip) (i_minor ip) (i_nlink ip) (i_size ip) (i_addrs ip).
Definition set_i_type (t : Z) (ip : inode) : inode :=
  mk_inode (i_dev ip) (i_inum ip) (i_ref ip) (i_lock ip) (i_valid ip) t (i_major ip) (i_minor ip) (i_nlink ip) (i_size ip) (i_addrs ip).
Definition set_i_nlink (n : Z) (ip : inode) : inode :=
  mk_inode (i_dev ip) (i_inum ip) (i_ref ip) (i_lock ip) (i_valid ip) (i_type ip) (i_major ip) (i_minor ip) n (i_size ip) (i_addrs ip).
Definition set_i_devno (ma mi : Z) (ip : inode) : inode :=
  mk_inode (i_dev ip) (i_inum ip) (i_ref ip) (i_lock ip) (i_valid ip) (i_type ip) ma mi (i_nlink ip) (i_size ip) (i_addrs ip).
Definition set_i_size (n : Z) (ip : inode) : inode :=
  mk_inode (i_dev ip) (i_inum ip) (i_ref ip) (i_lock ip) (i_valid ip) (i_type ip) (i_major ip) (i_minor ip) (i_nlink ip) n (i_addrs ip).
Definition set_i_addr (k : Z) (a : Z) (ip : inode) : inode :=
  mk_inode (i_dev ip) (i_inum ip) (i_ref ip) (i_lock ip) (i_valid ip) (i_type ip) (i_major ip) (i_minor ip) (i_nlink ip) (i_size ip)
    (<[Z.to_nat k := a]> (i_addrs ip)).
Definition set_i_dinode (d : dinode) (ip : inode) : inode :=
  mk_inode (i_dev ip) (i_inum ip) (i_ref ip) (i_lock ip) (i_valid ip) (d_type d) (d_major d) (d_minor d) (d_nlink d) (d_size d) (d_addrs d).
Definition set_i_id (dev inum : Z) (ip : inode) : inode :=
  mk_inode dev inum 1 (i_lock ip) false (i_type ip) (i_major ip) (i_minor ip) (i_nlink ip) (i_size ip) (i_addrs ip).

(** The inode's on-disk form. *)
Definition dinode_of (ip : inode) : dinode :=
  mk_dinode (i_type ip) (i_major ip) (i_minor ip) (i_nlink ip) (i_size ip) (i_addrs ip).

(** ** State *)

Record fs (S : Type) := mk_fs {
  fs_dev : S;
  fs_sb : superblock;
  fs_inodes : list inode;                 (* icache.inode[NINODE] *)
  fs_pid : Z;                             (* myproc()->pid *)
  fs_cwd : nat;                           (* myproc()->cwd *)
  fs_held : gset string
}.
Arguments mk_fs {S}.
Arguments fs_dev {S}.
Arguments fs_sb {S}.
Arguments fs_inodes {S}.
Arguments fs_pid {S}.
Arguments fs_cwd {S}.
Arguments fs_held {S}.

Section State.
Context {S : Type}.
Implicit Type f : fs S.

Definition set_dev (d : S) f : fs S := mk_fs d (fs_sb f) (fs_inodes f) (fs_pid f) (fs_cwd f) (fs_held f).
Definition set_inodes (l : list inode) f : fs S := mk_fs (fs_dev f) (fs_sb f) l (fs_pid f) (fs_cwd f) (fs_held f).
Definition set_sb (sb : superblock) f : fs S := mk_fs (fs_dev f) sb (fs_inodes f) (fs_pid f) (fs_cwd f) (fs_held f).
Definition set_fs_held (h : gset string) f : fs S := mk_fs (fs_dev f) (fs_sb f) (fs_inodes f) (fs_pid f) (fs_cwd f) h.

#[export] Program Instance fs_sub : Sub S (fs S) := { sub_get := fs_dev; sub_put := set_dev }.
Next Obligation. done. Qed.
Next Obligation. done. Qed.
Next Obligation. by intros []. Qed.

#[export] Program Instance fs_locks : HasLocks (fs S) := { held := fs_held; set_held := set_fs_held }.
Next Obligation. done. Qed.
Next Obligation. by intros []. Qed.
Next Obligation. done. Qed.

Definition geti (i : nat) : M (fs S) inode := s <- kget ;; deref (fs_inodes s !! i).
Definition puti (i : nat) (g : inode -> inode) : M (fs S) unit :=
  s <- kget ;;
  match fs_inodes s !! i with
  | Some ip => kput (set_inodes (<[i := g ip]> (fs_inodes s)) s)
  | None => fault "icache: no such inode"
  end.
End State.

Section Ops.
Context {S : Type} `{BlockIO S}.
Notation F := (M (fs S)).

(** The block operations on the file system's state. *)
Definition bread' (dev b : Z) : F nat := lift (io_bread dev b).
Definition data (bp : nat) : F bytes := lift (io_data bp).
Definition store_log (bp : nat) (d : bytes) : F unit := lift (io_set bp d ;;; io_log bp).
Definition brelse' (bp : nat) : F unit := lift (io_relse bp).

(** ** Blocks *)

Definition bzero (dev bno : Z) : F unit :=
  bp <- bread' dev (u32 bno) ;;
  store_log bp zero_block ;;;
  brelse' bp.

(** Bit [bi] of a bitmap block, and its update. *)
Definition bit_used (d : bytes) (bi : Z) : bool :=
  negb (Z.land (get8 d (Z.to_nat (bi / 8))) (Z.shiftl 1 (bi mod 8)) =? 0).
Definition bit_set (bi : Z) (d : bytes) : bytes :=
  put8 (Z.to_nat (bi / 8)) (Z.lor (get8 d (Z.to_nat (bi / 8))) (Z.shiftl 1 (bi mod 8))) d.
Definition bit_clear (bi : Z) (d : bytes) : bytes :=
  put8 (Z.to_nat (bi / 8)) (Z.land (get8 d (Z.to_nat (bi / 8))) (Z.lnot (Z.shiftl 1 (bi mod 8)))) d.

(** The inner loop of [balloc]: the first free bit of the block, [k] left. *)
Fixpoint balloc_scan (k : nat) (bi b size : Z) (d : bytes) : option Z :=
  match k with
  | O => None
  | Datatypes.S k' =>
      if b + bi <? size then
        if bit_used d bi then balloc_scan k' (bi + 1) b size d else Some bi
      else None
  end.

Fixpoint balloc_loop (k : nat) (dev b : Z) : F Z :=
  match k with
  | O => nofuel
  | Datatypes.S k' =>
      sb <- gets fs_sb ;;
      if b <? sb_size sb then
        bp <- bread' dev (BBLOCK b sb) ;;
        d <- data bp ;;
        match balloc_scan (Z.to_nat BPB) 0 b (sb_size sb) d with
        | Some bi =>
            store_log bp (bit_set bi d) ;;;
            brelse' bp ;;;
            bzero dev (b + bi) ;;;
            kret (u32 (b + bi))
        | None =>
            brelse' bp ;;;
            balloc_loop k' dev (b + BPB)
        end
      else panic "balloc: out of blocks"
  end.
Definition balloc (dev : Z) : F Z :=
  sb <- gets fs_sb ;;
  balloc_loop (Datatypes.S (Z.to_nat (sb_size sb / BPB + 1))) dev 0.

Definition bfree (dev b : Z) : F unit :=
  sb <- gets fs_sb ;;
  bp <- bread' dev (BBLOCK b sb) ;;
  d <- data bp ;;
  let bi := b mod BPB in
  if negb (bit_used d bi) then panic "freeing free block"
  else
    store_log bp (bit_clear bi d) ;;;
    brelse' bp.

(** ** The inode cache *)

Definition iinit (dev : Z) : F unit :=
  modify (fun s => set_fs_held (fs_held s ∖ {["icache"]}) s) ;;;
  modify (fun s => set_inodes (set_i_lock initsleeplock <$> fs_inodes s) s) ;;;
  bp <- bread' dev 1 ;;
  d <- data bp ;;
  modify (set_sb (sb_of d)) ;;;
  brelse' bp.

(** The scan of [iget]: the entry for [inum], or the first free entry. *)
Fixpoint iget_scan (dev inum : Z) (i : nat) (l : list inode) (empty : option nat) : nat + option nat :=
  match l with
  | [] => inr empty
  | ip :: l' =>
      if (0 <? i_ref ip) && (i_dev ip =? dev) && (i_inum ip =? inum) then inl i
      else
        let empty := match empty with
                     | None => if i_ref ip =? 0 then Some i else None
                     | Some _ => empty
                     end in
        iget_scan dev inum (Datatypes.S i) l' empty
  end.

Definition iget (dev inum : Z) : F nat :=
  acquire "icache" ;;;
  l <- gets fs_inodes ;;
  match iget_scan dev inum 0 l None with
  | inl i =>
      puti i (fun ip => set_i_ref (s32 (i_ref ip + 1)) ip) ;;;
      release "icache" ;;;
      kret i
  | inr None => panic "iget: no inodes"
  | inr (Some i) =>
      puti i (set_i_id dev inum) ;;;
      release "icache" ;;;
      kret i
  end.

Fixpoint ialloc_loop (k : nat) (dev inum type : Z) : F nat :=
  match k with
  | O => nofuel
  | Datatypes.S k' =>
      sb <- gets fs_sb ;;
      if inum <? sb_ninodes sb then
        bp <- bread' dev (IBLOCK inum sb) ;;
        d <- data bp ;;
        let o := Z.to_nat (inum mod IPB * DSIZE) in
        if d_type (get_dinode d o) =? 0 then
          store_log bp (put_dinode o (mk_dinode type 0 0 0 0 (replicate 13 0)) d) ;;;
          brelse' bp ;;;
          iget dev inum
        else
          brelse' bp ;;;
          ialloc_loop k' dev (inum + 1) type
      else panic "ialloc: no inodes"
  end.
Definition ialloc (dev type : Z) : F nat :=
  sb <- gets fs_sb ;;
  ialloc_loop (Datatypes.S (Z.to_nat (sb_ninodes sb))) dev 1 type.

Definition iupdate (i : nat) : F unit :=
  ip <- geti i ;;
  sb <- gets fs_sb ;;
  bp <- bread' (i_dev ip) (IBLOCK (i_inum ip) sb) ;;
  d <- data bp ;;
  store_log bp (put_dinode (Z.to_nat (i_inum ip mod IPB * DSIZE)) (dinode_of ip) d) ;;;
  brelse' bp.

Definition idup (i : nat) : F nat :=
  acquire "icache" ;;;
  puti i (fun ip => set_i_ref (s32 (i_ref ip + 1)) ip) ;;;
  release "icache" ;;;
  kret i.

Definition lock_inode (i : nat) : F unit :=
  ip <- geti i ;;
  pid <- gets fs_pid ;;
  match acquiresleep pid (i_lock ip) with
  | Some lk => puti i (set_i_lock lk)
  | None => block "inode"
  end.
Definition unlock_inode (i : nat) : F unit := puti i (fun ip => set_i_lock (releasesleep (i_lock ip)) ip).

Definition ilock (i : nat) : F unit :=
  ip <- geti i ;;
  if i_ref ip <? 1 then panic "ilock"
  else
    lock_inode i ;;;
    ip <- geti i ;;
    if i_valid ip then kret tt
    else
      sb <- gets fs_sb ;;
      bp <- bread' (i_dev ip) (IBLOCK (i_inum ip) sb) ;;
      d <- data bp ;;
      puti i (set_i_dinode (get_dinode d (Z.to_nat (i_inum ip mod IPB * DSIZE)))) ;;;
      brelse' bp ;;;
      puti i (set_i_valid true) ;;;
      ip <- geti i ;;
      when i_type ip =? 0 do panic "ilock: no type".

Definition iunlock (i : nat) : F unit :=
  ip <- geti i ;;
  pid <- gets fs_pid ;;
  if negb (holdingsleep pid (i_lock ip)) || (i_ref ip <? 1) then panic "iunlock"
  else unlock_inode i.

(** ** Inode content *)

(** [ip->addrs[k]]. *)
Definition addr (k : Z) (ip : inode) : Z := i_addrs ip !!! Z.to_nat k.

Definition bmap (i : nat) (bn : Z) : F Z :=
  ip <- geti i ;;
  if bn <? NDIRECT then
    if addr bn ip =? NULL then
      a <- balloc (i_dev ip) ;;
      puti i (set_i_addr bn a) ;;;
      kret a
    else kret (addr bn ip)
  else
    let bn := bn - NDIRECT in
    if bn <? NINDIRECT then
      a <- (if addr IND_BLOCK ip =? NULL then
              a <- balloc (i_dev ip) ;;
              puti i (set_i_addr IND_BLOCK a) ;;;
              kret a
            else kret (addr IND_BLOCK ip)) ;;
      bp <- bread' (i_dev ip) a ;;
      d <- data bp ;;
      let a := get32 d (4 * Z.to_nat bn) in
      if a =? NULL then
        a <- balloc (i_dev ip) ;;
        d <- data bp ;;
        store_log bp (put32 (4 * Z.to_nat bn) a d) ;;;
        brelse' bp ;;;
        kret a
      else
        brelse' bp ;;;
        kret a
    else panic "bmap: out of range".

Fixpoint itrunc_direct (k : nat) (i : nat) (n : Z) : F unit :=
  match k with
  | O => kret tt
  | Datatypes.S k' =>
      ip <- geti i ;;
      (when negb (addr n ip =? 0) do
         (bfree (i_dev ip) (addr n ip) ;;;
          puti i (set_i_addr n 0))) ;;;
      itrunc_direct k' i (n + 1)
  end.
Fixpoint itrunc_indirect (k : nat) (dev : Z) (j : nat) (d : bytes) : F unit :=
  match k with
  | O => kret tt
  | Datatypes.S k' =>
      (when negb (get32 d (4 * j) =? 0) do bfree dev (get32 d (4 * j))) ;;;
      itrunc_indirect k' dev (Datatypes.S j) d
  end.
Definition itrunc (i : nat) : F unit :=
  itrunc_direct (Z.to_nat NDIRECT) i 0 ;;;
  ip <- geti i ;;
  (when negb (addr NDIRECT ip =? 0) do
     (bp <- bread' (i_dev ip) (addr NDIRECT ip) ;;
      d <- data bp ;;
      itrunc_indirect (Z.to_nat NINDIRECT) (i_dev ip) 0 d ;;;
      brelse' bp ;;;
      bfree (i_dev ip) (addr NDIRECT ip) ;;;
      puti i (set_i_addr NDIRECT 0))) ;;;
  puti i (set_i_size 0) ;;;
  iupdate i.

Definition iput (i : nat) : F unit :=
  lock_inode i ;;;
  ip <- geti i ;;
  (when i_valid ip && (i_nlink ip =? 0) do
     (acquire "icache" ;;;
      r <- geti i ;;
      release "icache" ;;;
      when i_ref r =? 1 do
        (itrunc i ;;;
         puti i (set_i_type 0) ;;;
         iupdate i ;;;
         puti i (set_i_valid false)))) ;;;
  unlock_inode i ;;;
  acquire "icache" ;;;
  puti i (fun ip => set_i_ref (s32 (i_ref ip - 1)) ip) ;;;
  release "icache".

Definition iunlockput (i : nat) : F unit := iunlock i ;;; iput i.

Definition stati (i : nat) : F stat :=
  ip <- geti i ;;
  kret (mk_stat (i_type ip) (s32 (i_dev ip)) (i_inum ip) (i_nlink ip) (i_size ip)).

(** The device switch, [devsw], filled in by the device drivers: for each
    major number the read and the write function, if any.  A read function
    gives the bytes it stores at [dst]. *)
Context (dev_read : Z -> option (nat -> Z -> F (Z * bytes))) (dev_write : Z -> option (nat -> bytes -> Z -> F Z)).

(** The copying loop of [readi]; the bytes at [dst] so far are [acc]. *)
Fixpoint readi_loop (fuel : nat) (i : nat) (off n tot : Z) (acc : bytes) : F bytes :=
  match fuel with
  | O => nofuel
  | Datatypes.S fuel' =>
      if tot <? n then
        ip <- geti i ;;
        b <- bmap i (off / Z.of_nat BSIZE) ;;
        bp <- bread' (i_dev ip) b ;;
        let m := Z.min (n - tot) (Z.of_nat BSIZE - off mod Z.of_nat BSIZE) in
        d <- data bp ;;
        brelse' bp ;;;
        readi_loop fuel' i (off + m) n (tot + m) (acc ++ slice (Z.to_nat (off mod Z.of_nat BSIZE)) (Z.to_nat m) d)
      else kret acc
  end.

(** [readi]: the return value and the bytes stored at [dst]. *)
Definition readi (i : nat) (off n : Z) : F (Z * bytes) :=
  ip <- geti i ;;
  if i_type ip =? T_DEV then
    if (i_major ip <? 0) || (NDEV <=? i_major ip) then kret (-1, [])
    else
      match dev_read (i_major ip) with
      | None => kret (-1, [])
      | Some rd => rd i (s32 n)
      end
  else if (i_size ip <? off) || (u32 (off + n) <? off) then kret (-1, [])
  else
    let n := if i_size ip <? u32 (off + n) then i_size ip - off else n in
    d <- readi_loop (Datatypes.S (Z.to_nat n)) i off n 0 [] ;;
    kret (s32 n, d).

(** The copying loop of [writei]; the result is the final [off]. *)
Fixpoint writei_loop (fuel : nat) (i : nat) (src : bytes) (off n tot : Z) : F Z :=
  match fuel with
  | O => nofuel
  | Datatypes.S fuel' =>
      if tot <? n then
        ip <- geti i ;;
        b <- bmap i (off / Z.of_nat BSIZE) ;;
        bp <- bread' (i_dev ip) b ;;
        let m := Z.min (n - tot) (Z.of_nat BSIZE - off mod Z.of_nat BSIZE) in
        d <- data bp ;;
        store_log bp (splice (Z.to_nat (off mod Z.of_nat BSIZE)) (slice (Z.to_nat tot) (Z.to_nat m) src) d) ;;;
        brelse' bp ;;;
        writei_loop fuel' i src (off + m) n (tot + m)
      else kret off
  end.

(** [writei]; [src] holds at least [n] bytes. *)
Definition writei (i : nat) (src : bytes) (off n : Z) : F Z :=
  ip <- geti i ;;
  if i_type ip =? T_DEV then
    if (i_major ip <? 0) || (NDEV <=? i_major ip) then kret (-1)
    else
      match dev_write (i_major ip) with
      | None => kret (-1)
      | Some wr => wr i src (s32 n)
      end
  else if (i_size ip <? off) || (u32 (off + n) <? off) then kret (-1)
  else if MAXFILE * Z.of_nat BSIZE <? u32 (off + n) then kret (-1)
  else if Z.of_nat (length src) <? n then fault "writei: read past the source buffer"
  else
    off <- writei_loop (Datatypes.S (Z.to_nat n)) i src off n 0 ;;
    ip <- geti i ;;
    (when (0 <? n) && (i_size ip <? off) do
       (puti i (set_i_size off) ;;;
        iupdate i)) ;;;
    kret (s32 n).

(** ** Directories *)

(** [strncmp] and [strncpy] on byte strings that end with a NUL or are at
    least [n] long; reads past the end of the list read the NUL. *)
Definition hd0 (p : bytes) : Z := match p with [] => 0 | c :: _ => c end.
Fixpoint strncmp_b (n : nat) (p q : bytes) : Z :=
  match n with
  | O => 0
  | Datatypes.S n' =>
      let a := hd0 p in let b := hd0 q in
      if negb (a =? 0) && (a =? b) then strncmp_b n' (tail p) (tail q) else a - b
  end.
Fixpoint strncpy_b (n : nat) (t : bytes) : bytes :=
  match n with
  | O => []
  | Datatypes.S n' => let a := hd0 t in if a =? 0 then replicate (Datatypes.S n') 0 else a :: strncpy_b n' (tail t)
  end.

Definition namecmp (s t : bytes) : Z := strncmp_b DIRSIZ s t.

(** [dirlookup]: the entry's inode and its offset ([*poff]). *)
Fixpoint dirlookup_loop (fuel : nat) (dp : nat) (name : bytes) (off : Z) : F (option (nat * Z)) :=
  match fuel with
  | O => nofuel
  | Datatypes.S fuel' =>
      ip <- geti dp ;;
      if off <? i_size ip then
        r <- readi dp off DESIZE ;;
        if negb (r.1 =? DESIZE) then panic "dirlookup read"
        else if de_inum r.2 =? 0 then dirlookup_loop fuel' dp name (off + DESIZE)
        else if namecmp name (de_name r.2) =? 0 then
          i <- iget (i_dev ip) (de_inum r.2) ;;
          kret (Some (i, off))
        else dirlookup_loop fuel' dp name (off + DESIZE)
      else kret None
  end.
Definition dirlookup (dp : nat) (name : bytes) : F (option (nat * Z)) :=
  ip <- geti dp ;;
  if negb (i_type ip =? T_DIR) then panic "dirlookup not DIR"
  else dirlookup_loop (Datatypes.S (Z.to_nat (i_size ip / DESIZE + 1))) dp name 0.

(** The offset at which [dirlink] writes. *)
Fixpoint dirlink_loop (fuel : nat) (dp : nat) (off : Z) : F Z :=
  match fuel with
  | O => nofuel
  | Datatypes.S fuel' =>
      ip <- geti dp ;;
      if off <? i_size ip then
        r <- readi dp off DESIZE ;;
        if negb (r.1 =? DESIZE) then panic "dirlink read"
        else if de_inum r.2 =? 0 then kret off
        else dirlink_loop fuel' dp (off + DESIZE)
      else kret off
  end.
Definition mk_dirent (name : bytes) (inum : Z) : bytes := [u8 inum; u8 (inum / 2 ^ 8)] ++ strncpy_b DIRSIZ name.
Definition dirlink (dp : nat) (name : bytes) (inum : Z) : F Z :=
  r <- dirlookup dp name ;;
  match r with
  | Some (i, _) => iput i ;;; kret (-1)
  | None =>
      ip <- geti dp ;;
      off <- dirlink_loop (Datatypes.S (Z.to_nat (i_size ip / DESIZE + 1))) dp 0 ;;
      r <- writei dp (mk_dirent name inum) off DESIZE ;;
      if negb (r =? DESIZE) then panic "dirlink" else kret 0
  end.

(** ** Paths *)

(** A path is the bytes before the NUL. *)
Definition SLASH : Z := 47.
Fixpoint skip_slashes (path : bytes) : bytes :=
  match path with
  | c :: path' => if c =? SLASH then skip_slashes path' else path
  | [] => []
  end.
(** The element at the head of the path, and what follows it. *)
Fixpoint elem_len (path : bytes) : nat :=
  match path with
  | c :: path' => if c =? SLASH then O else Datatypes.S (elem_len path')
  | [] => O
  end.
(** [skipelem]: the rest of the path and the contents of [name]. *)
Definition skipelem (path name : bytes) : option (bytes * bytes) :=
  let path := skip_slashes path in
  match path with
  | [] => None
  | _ =>
      let len := elem_len path in
      let name := if decide (DIRSIZ <= len)%nat then splice 0 (take DIRSIZ path) name
                  else splice 0 (take len path ++ [0]) name in
      Some (skip_slashes (drop len path), name)
  end.

(** [namex]: the inode, if found, and the contents of [name]. *)
Fixpoint namex_loop (fuel : nat) (ip : nat) (path : bytes) (parent : bool) (name : bytes) : F (option nat * bytes) :=
  match fuel with
  | O => nofuel
  | Datatypes.S fuel' =>
      match skipelem path name with
      | None => if parent then iput ip ;;; kret (None, name) else kret (Some ip, name)
      | Some (path, name) =>
          ilock ip ;;;
          n <- geti ip ;;
          if negb (i_type n =? T_DIR) then iunlockput ip ;;; kret (None, name)
          else if parent && bool_decide (path = []) then iunlock ip ;;; kret (Some ip, name)
          else
            next <- dirlookup ip name ;;
            match next with
            | None => iunlockput ip ;;; kret (None, name)
            | Some (next, _) => iunlockput ip ;;; namex_loop fuel' next path parent name
            end
      end
  end.
Definition namex (path : bytes) (parent : bool) (name : bytes) : F (option nat * bytes) :=
  ip <- (if bool_decide (head path = Some SLASH) then iget ROOTDEV ROOTINO
         else cwd <- gets fs_cwd ;; idup cwd) ;;
  namex_loop (Datatypes.S (length path)) ip path parent name.

Definition namei (path : bytes) : F (option nat) := r <- namex path false (replicate DIRSIZ 0) ;; kret r.1.
Definition nameiparent (path name : bytes) : F (option nat * bytes) := namex path true name.

End Ops.
