(* ===== verification/Fsblock.v ===== *)
(** * Correctness of block allocation (balloc, bfree of fs.c)

    The proofs use only the laws of the block interface.  [bst] is the state
    of the block layer inside a transaction: what each block reads, which
    buffers the caller holds, and a bound on the blocks logged so far. *)

From S2P Require Import Prelude Layout Block Blockio Bio Log Fs.

Section Block.
Context {S : Type} {HIO : BlockIO S} {HL : BlockLaws S}.
Implicit Types (f : fs S) (d : S) (V : Z -> bytes) (Hs : list (nat * Z)) (X : list Z).

Record bst d V Hs X : Prop := {
  bs_st : exists T, io_st d V (Hs.*2) T /\ NoDup T /\ T ⊆ X;
  bs_held : forall i b, (i, b) ∈ Hs -> io_h d i b;
  bs_nodup : NoDup (Hs.*2)
}.

Lemma bst_ext d V V' Hs X : (forall b, V' b = V b) -> bst d V Hs X -> bst d V' Hs X.
Proof. intros E [(T & H1 & H2) H3 H4]. split; [|done|done]. exists T. split; [by eapply io_st_ext|done]. Qed.

Lemma bst_weaken d V Hs X X' : X ⊆ X' -> bst d V Hs X -> bst d V Hs X'.
Proof. intros E [(T & H1 & H2 & H3) H4 H5]. split; [|done|done]. exists T. split; [done|]. split; [done|]. by etrans. Qed.

Lemma bst_block d V Hs X b : bst d V Hs X -> is_block (V b).
Proof. intros [(T & H1 & _) _ _]. by eapply io_block. Qed.

Lemma logged_length (T X : list Z) : NoDup T -> T ⊆ X -> (length T <= length X)%nat.
Proof. intros HT HX. by apply submseteq_length, NoDup_submseteq. Qed.

(** Rules for the block operations. *)
Section Rules.
Context {A : Type}.

Lemma wp_bread f V Hs X b (k : nat -> M (fs S) A) Q :
  bst (fs_dev f) V Hs X -> 0 <= b < FSSIZE -> b ∉ Hs.*2 -> (length Hs + length X < IO_BUFS)%nat ->
  (forall i d, bst d V ((i, b) :: Hs) X -> wp (k i) Q (set_dev d f)) ->
  wp (x <- bread' ROOTDEV b ;; k x) Q f.
Proof.
  intros [(T & H1 & H2 & H3) H4 H5] Hb Hn Hlen Hk. apply wp_bind, wp_lift. cbn [sub_get fs_sub sub_put].
  eapply wp_mono; [apply (io_bread_ok _ _ _ _ b H1); [done|done|]|].
  - rewrite length_fmap. pose proof (logged_length T X H2 H3). lia.
  - intros i d (E1 & E2 & E3). apply Hk. split; cbn [fmap list_fmap snd].
    + by exists T.
    + intros j c Hj. apply elem_of_cons in Hj as [Hj|Hj]; [by injection Hj as -> ->|]. by apply E3, H4.
    + by apply list.NoDup_cons.
Qed.

Lemma wp_data f V Hs X i b (k : bytes -> M (fs S) A) Q :
  bst (fs_dev f) V Hs X -> (i, b) ∈ Hs -> wp (k (V b)) Q f -> wp (x <- data i ;; k x) Q f.
Proof.
  intros [(T & H1 & _) H4 _] Hi Hk. apply wp_bind. eapply wp_eq; [|exact Hk].
  unfold data, lift. cbn [sub_get fs_sub sub_put]. rewrite (io_data_ok _ _ _ _ i b H1 (H4 _ _ Hi)). f_equal. by destruct f.
Qed.

Lemma wp_bstore f V Hs X X' i b v (k : M (fs S) A) Q :
  bst (fs_dev f) V Hs X -> (i, b) ∈ Hs -> is_block v -> io_home b -> (length X < io_cap)%nat -> b :: X ⊆ X' ->
  (forall d, bst d (zupd V b v) Hs X' -> wp k Q (set_dev d f)) ->
  wp (store_log i v ;;; k) Q f.
Proof.
  intros [(T & H1 & H2 & H3) H4 H5] Hi Hv Hh Hlen HX Hk. apply wp_bind, wp_lift. cbn [sub_get fs_sub sub_put].
  eapply wp_mono; [apply (io_write_ok _ _ _ _ i b v H1 (H4 _ _ Hi) Hv Hh)|].
  - pose proof (logged_length T X H2 H3). lia.
  - intros [] d [E1 E2]. apply Hk. split; [|intros j c Hj; by apply E2, H4|done]. eexists. split; [exact E1|].
    case_decide as Hb.
    + split; [done|]. intros c Hc. apply HX, list_elem_of_further, H3, Hc.
    + split; [by apply list.NoDup_cons|]. intros c Hc. apply HX.
      apply elem_of_cons in Hc as [->|Hc]; [apply list_elem_of_here|by apply list_elem_of_further, H3].
Qed.

Lemma wp_relse f V Hs X i b (k : M (fs S) A) Q :
  bst (fs_dev f) V ((i, b) :: Hs) X -> (forall d, bst d V Hs X -> wp k Q (set_dev d f)) ->
  wp (brelse' i ;;; k) Q f.
Proof.
  intros [(T & H1 & H2 & H3) H4 H5] Hk. apply wp_bind, wp_lift. cbn [sub_get fs_sub sub_put].
  eapply wp_mono; [apply (io_relse_ok _ _ _ (Hs.*2) _ i b H1); [apply H4, list_elem_of_here|done]|].
  intros [] d [E1 E2]. cbn in H5. apply list.NoDup_cons in H5 as [H5 H6]. apply Hk. split; [by exists T| |done].
  intros j c Hj. apply E2; [by apply H4, list_elem_of_further|]. intros ->. apply H5, list_elem_of_fmap. by exists (j, b).
Qed.

End Rules.

(** A unit operation in tail position. *)
Lemma wp_tail {S' : Type} (c : M S' unit) Q (s : S') : wp (c ;;; kret tt) Q s -> wp c Q s.
Proof. unfold wp, kbind, kret. destruct (c s) as [[] ?|?|?|?|]; done. Qed.

(** ** Bitmap blocks *)

Lemma bit_used_testbit v bi : 0 <= bi ->
  bit_used v bi = Z.testbit (get8 v (Z.to_nat (bi / 8))) (bi mod 8).
Proof.
  intros Hb. unfold bit_used. set (x := get8 v _). set (n := bi mod 8).
  assert (0 <= n) by (unfold n; apply Z.mod_pos_bound; lia).
  destruct (Z.testbit x n) eqn:E.
  - apply negb_true_iff, Z.eqb_neq. intros H0. assert (Z.testbit (Z.land x (Z.shiftl 1 n)) n = true) as Ht; [|by rewrite H0, Z.bits_0 in Ht].
    rewrite Z.land_spec, E, Z.shiftl_spec by lia. by rewrite Z.sub_diag.
  - apply negb_false_iff, Z.eqb_eq, Z.bits_inj'. intros m Hm. rewrite Z.bits_0, Z.land_spec, Z.shiftl_spec by lia.
    destruct (decide (m = n)) as [->|Hne]; [by rewrite E|]. replace (Z.testbit 1 (m - n)) with false; [by rewrite andb_false_r|].
    symmetry. destruct (Z.lt_ge_cases m n); [by rewrite Z.testbit_neg_r by lia|]. change 1 with (2 ^ 0). rewrite Z.pow2_bits_false by lia. done.
Qed.

Lemma testbit_one n m : 0 <= n -> Z.testbit (Z.shiftl 1 n) m = bool_decide (m = n).
Proof.
  intros Hn. rewrite Z.shiftl_1_l, Z.pow2_bits_eqb by done.
  destruct (Z.eqb_spec n m) as [->|H]; symmetry; [by apply bool_decide_eq_true|apply bool_decide_eq_false; congruence].
Qed.

Lemma u8_testbit x n : 0 <= n < 8 -> Z.testbit (u8 x) n = Z.testbit x n.
Proof. intros. unfold u8. by rewrite Z.mod_pow2_bits_low by lia. Qed.

Lemma byte_of bi bj : 0 <= bi -> 0 <= bj -> bi / 8 = bj / 8 -> (bj mod 8 = bi mod 8 <-> bj = bi).
Proof. intros. pose proof (Z.div_mod bi 8). pose proof (Z.div_mod bj 8). split; [lia|congruence]. Qed.

Lemma bit_used_put v x bi bj : 0 <= bi < BPB -> 0 <= bj < BPB -> is_block v ->
  bit_used (put8 (Z.to_nat (bi / 8)) x v) bj =
  if decide (bj / 8 = bi / 8) then Z.testbit x (bj mod 8) else bit_used v bj.
Proof.
  intros Hi Hj [Hl _]. rewrite !bit_used_testbit by lia. unfold BPB in *.
  assert (0 <= bi / 8 < 512) by (split; [apply Z.div_pos; lia|apply Z.div_lt_upper_bound; lia]).
  assert (0 <= bj / 8) by (apply Z.div_pos; lia).
  case_decide as E.
  - rewrite E, get8_put8_eq by (rewrite Hl; unfold BSIZE; lia). apply u8_testbit, Z.mod_pos_bound. lia.
  - by rewrite get8_put8_ne by lia.
Qed.

Lemma bit_used_set v bi bj : 0 <= bi < BPB -> 0 <= bj < BPB -> is_block v ->
  bit_used (bit_set bi v) bj = bool_decide (bj = bi) || bit_used v bj.
Proof.
  intros Hi Hj Hv. unfold bit_set. rewrite bit_used_put by done. case_decide as E.
  - rewrite Z.lor_spec, testbit_one, orb_comm by (apply Z.mod_pos_bound; lia).
    rewrite (bit_used_testbit v bj), E by lia. f_equal. apply bool_decide_ext. apply byte_of; lia.
  - rewrite bool_decide_false; [done|]. congruence.
Qed.

Lemma bit_used_clear v bi bj : 0 <= bi < BPB -> 0 <= bj < BPB -> is_block v ->
  bit_used (bit_clear bi v) bj = negb (bool_decide (bj = bi)) && bit_used v bj.
Proof.
  intros Hi Hj Hv. unfold bit_clear. rewrite bit_used_put by done. case_decide as E.
  - rewrite Z.land_spec, Z.lnot_spec, testbit_one, andb_comm by (apply Z.mod_pos_bound; lia).
    rewrite (bit_used_testbit v bj), E by lia. do 2 f_equal. apply bool_decide_ext. apply byte_of; lia.
  - rewrite bool_decide_false; [done|]. congruence.
Qed.

Lemma bit_set_block bi v : is_block v -> is_block (bit_set bi v).
Proof. apply put8_block. Qed.
Lemma bit_clear_block bi v : is_block v -> is_block (bit_clear bi v).
Proof. apply put8_block. Qed.

Lemma balloc_scan_spec k bi b size v :
  match balloc_scan k bi b size v with
  | Some x => bi <= x < bi + Z.of_nat k /\ b + x < size /\ bit_used v x = false /\ forall y, bi <= y < x -> bit_used v y = true
  | None => forall y, bi <= y < bi + Z.of_nat k -> b + y < size -> bit_used v y = true
  end.
Proof.
  revert bi. induction k as [|k IH]; intros bi; cbn [balloc_scan]; [lia|].
  destruct (b + bi <? size) eqn:E; boolify; [|lia]. destruct (bit_used v bi) eqn:Eu.
  - specialize (IH (bi + 1)). destruct (balloc_scan k (bi + 1) b size v) as [x|].
    + destruct IH as (H1 & H2 & H3 & H4). repeat split; try lia; try done. intros y Hy. destruct (decide (y = bi)) as [->|]; [done|]. apply H4. lia.
    + intros y Hy Hs. destruct (decide (y = bi)) as [->|]; [done|]. apply IH; lia.
  - repeat split; try lia; done.
Qed.

(** ** The layout of the disk

    Inode blocks, then the bitmap, then (from [ds] on) data blocks; all of
    them may be logged. *)

Record geom (sb : superblock) (ds : Z) : Prop := {
  g_size : 0 < ds <= sb_size sb /\ sb_size sb <= FSSIZE;
  g_ino : 0 < sb_inodestart sb /\ 0 < sb_ninodes sb /\ sb_inodestart sb + (sb_ninodes sb - 1) / IPB < sb_bmapstart sb;
  g_bmap : sb_bmapstart sb + (sb_size sb - 1) / BPB < ds;
  g_home : forall b, sb_inodestart sb <= b < sb_size sb -> io_home b
}.

Definition bmblock (sb : superblock) (b : Z) : Z := sb_bmapstart sb + b / BPB.
Definition used (sb : superblock) V (b : Z) : bool := bit_used (V (bmblock sb b)) (b mod BPB).

(** The block contents after allocating, and after freeing, block [b]. *)
Definition mark sb V b : Z -> bytes := zupd V (bmblock sb b) (bit_set (b mod BPB) (V (bmblock sb b))).
Definition alloc sb V b : Z -> bytes := zupd (mark sb V b) b zero_block.
Definition unalloc sb V b : Z -> bytes := zupd V (bmblock sb b) (bit_clear (b mod BPB) (V (bmblock sb b))).

(** The blocks the caller holds are data blocks in use. *)
Definition held_used sb ds V Hs : Prop := forall c, c ∈ Hs.*2 -> ds <= c < sb_size sb /\ used sb V c = true.

Section Alloc.
Context {sb : superblock} {ds : Z} (G : geom sb ds).

Lemma bmblock_range b : 0 <= b < sb_size sb ->
  BBLOCK b sb = bmblock sb b /\ sb_bmapstart sb <= bmblock sb b < ds /\ 0 <= bmblock sb b < FSSIZE /\ io_home (bmblock sb b).
Proof.
  intros Hb. pose proof (g_size _ _ G). pose proof (g_ino _ _ G) as (Hi1 & Hi2 & Hi3). pose proof (g_bmap _ _ G).
  assert (0 <= (sb_ninodes sb - 1) / IPB) by (apply Z.div_pos; unfold IPB; lia).
  assert (0 <= b / BPB <= (sb_size sb - 1) / BPB) by (split; [apply Z.div_pos|apply Z.div_le_mono]; unfold BPB; lia).
  unfold bmblock, FSSIZE in *. split; [|split; [lia|split; [lia|apply (g_home _ _ G); lia]]].
  unfold BBLOCK. rewrite Z.add_comm. apply u32_id. lia.
Qed.

Lemma mod_BPB b : 0 <= b mod BPB < BPB.
Proof. apply Z.mod_pos_bound. by unfold BPB. Qed.

Lemma bmblock_inj b c : 0 <= b -> 0 <= c -> bmblock sb b = bmblock sb c -> b mod BPB = c mod BPB -> b = c.
Proof. intros Hb Hc H1 H2. unfold bmblock in H1. rewrite (Z.div_mod b BPB), (Z.div_mod c BPB) by done. rewrite H2. do 2 f_equal. lia. Qed.

(** The effect on the bitmap. *)
Lemma used_mark V b c : (forall x, is_block (V x)) -> 0 <= b -> 0 <= c ->
  used sb (mark sb V b) c = bool_decide (c = b) || used sb V c.
Proof.
  intros HV Hb Hc. unfold used, mark. destruct (decide (bmblock sb c = bmblock sb b)) as [E|E].
  - rewrite E, zupd_eq, bit_used_set by (auto using mod_BPB). f_equal. apply bool_decide_ext.
    split; [|by intros ->]. intros Hm. symmetry. by apply bmblock_inj.
  - rewrite zupd_ne by done. rewrite bool_decide_false; [done|]. by intros ->.
Qed.

Lemma used_data V b v c : ds <= b -> 0 <= c < sb_size sb -> used sb (zupd V b v) c = used sb V c.
Proof. intros Hb Hc. destruct (bmblock_range c Hc) as (_ & ? & _). unfold used. rewrite zupd_ne by lia. done. Qed.

Lemma used_alloc V b c : (forall x, is_block (V x)) -> 0 <= b -> ds <= b -> 0 <= c < sb_size sb ->
  used sb (alloc sb V b) c = bool_decide (c = b) || used sb V c.
Proof. intros. unfold alloc. rewrite used_data by done. apply used_mark; [done|lia|lia]. Qed.

Lemma used_unalloc V b c : (forall x, is_block (V x)) -> 0 <= b -> 0 <= c ->
  used sb (unalloc sb V b) c = negb (bool_decide (c = b)) && used sb V c.
Proof.
  intros HV Hb Hc. unfold used, unalloc. destruct (decide (bmblock sb c = bmblock sb b)) as [E|E].
  - rewrite E, zupd_eq, bit_used_clear by (auto using mod_BPB). do 2 f_equal. apply bool_decide_ext.
    split; [|by intros ->]. intros Hm. symmetry. by apply bmblock_inj.
  - rewrite zupd_ne by done. rewrite bool_decide_false; [done|]. by intros ->.
Qed.

(** [bzero]. *)
Lemma bzero_wp f V Hs X b :
  bst (fs_dev f) V Hs X -> ds <= b < sb_size sb -> 0 <= b -> b ∉ Hs.*2 -> (length Hs + length X < IO_BUFS)%nat -> (length X < io_cap)%nat ->
  wp (bzero ROOTDEV b) (fun _ f' => exists d, f' = set_dev d f /\ bst d (zupd V b zero_block) Hs (b :: X)) f.
Proof.
  intros HS Hb Hb0 Hn Hlen Hcap. pose proof (g_size _ _ G). pose proof (g_ino _ _ G). pose proof (g_bmap _ _ G).
  assert (0 <= (sb_size sb - 1) / BPB) by (apply Z.div_pos; unfold BPB; lia).
  assert (0 <= (sb_ninodes sb - 1) / IPB) by (apply Z.div_pos; unfold IPB; lia).
  unfold bzero. rewrite u32_id by (unfold FSSIZE in *; lia).
  eapply wp_bread; [exact HS|lia|done|done|]. intros i d1 HS1.
  eapply wp_bstore; [exact HS1|apply list_elem_of_here|apply zero_is_block|apply (g_home _ _ G); lia|done|reflexivity|].
  intros d2 HS2. apply wp_tail. eapply wp_relse; [exact HS2|]. intros d3 HS3. apply wp_ret. by exists d3.
Qed.

(** The first free block at or after [b0]. *)
Definition first_free V (b0 b : Z) : Prop :=
  b0 <= b < sb_size sb /\ used sb V b = false /\ forall c, b0 <= c < b -> used sb V c = true.

Lemma used_scan V b y : b mod BPB = 0 -> 0 <= y < BPB -> bit_used (V (bmblock sb b)) y = used sb V (b + y).
Proof.
  intros Hb Hy. unfold used, bmblock. rewrite (Z.div_mod b BPB), Hb, Z.add_0_r by done.
  rewrite !(Z.mul_comm BPB), Z.div_add_l, Z.div_mul, (Z.div_small y), Z.add_0_r by done.
  by rewrite (Z.add_comm _ y), Z.mod_add, (Z.mod_small y) by done.
Qed.

Lemma scan_found V b x : b mod BPB = 0 -> 0 <= b ->
  balloc_scan (Z.to_nat BPB) 0 b (sb_size sb) (V (bmblock sb b)) = Some x ->
  0 <= x < BPB /\ first_free V b (b + x) /\ bmblock sb (b + x) = bmblock sb b /\ (b + x) mod BPB = x.
Proof.
  intros Hm Hb E. pose proof (balloc_scan_spec (Z.to_nat BPB) 0 b (sb_size sb) (V (bmblock sb b))) as Hs. rewrite E in Hs.
  rewrite Z2Nat.id in Hs by done. destruct Hs as (H1 & H2 & H3 & H4). assert (0 <= x < BPB) as Hx by lia. split; [done|].
  split.
  - split; [lia|]. split; [by rewrite <- used_scan|]. intros c Hc. replace c with (b + (c - b)) by lia.
    rewrite <- used_scan by (try done; lia). apply H4. lia.
  - unfold bmblock. rewrite (Z.div_mod b BPB), Hm, Z.add_0_r by done.
    by rewrite !(Z.mul_comm BPB), Z.div_add_l, Z.div_mul, (Z.div_small x), Z.add_0_r, (Z.add_comm _ x), Z.mod_add, (Z.mod_small x) by done.
Qed.

Lemma scan_none V b : b mod BPB = 0 -> 0 <= b ->
  balloc_scan (Z.to_nat BPB) 0 b (sb_size sb) (V (bmblock sb b)) = None ->
  forall c, b <= c < b + BPB -> c < sb_size sb -> used sb V c = true.
Proof.
  intros Hm Hb E c Hc Hcs. pose proof (balloc_scan_spec (Z.to_nat BPB) 0 b (sb_size sb) (V (bmblock sb b))) as Hs. rewrite E in Hs.
  rewrite Z2Nat.id in Hs by done. replace c with (b + (c - b)) by lia. rewrite <- used_scan by (try done; lia). apply Hs; lia.
Qed.

Lemma first_free_later V b b' x : (forall c, b <= c < b' -> used sb V c = true) -> b <= b' -> first_free V b x -> first_free V b' x.
Proof.
  intros Hu Hb (H1 & H2 & H3). assert (b' <= x). { destruct (Z.le_gt_cases b' x); [done|]. rewrite Hu in H2 by lia. done. }
  split; [lia|]. split; [done|]. intros c Hc. apply H3. lia.
Qed.

Lemma first_free_uniq V b x y : first_free V b x -> first_free V b y -> x = y.
Proof.
  intros (H1 & H2 & H3) (H4 & H5 & H6). destruct (Z.lt_trichotomy x y) as [H|[H|H]]; [|done|].
  - rewrite H6 in H2 by lia. done.
  - rewrite H3 in H5 by lia. done.
Qed.

Lemma balloc_loop_wp k f V Hs X b x :
  fs_sb f = sb -> bst (fs_dev f) V Hs X -> held_used sb ds V Hs -> 0 <= b -> b mod BPB = 0 -> first_free V b x -> ds <= x ->
  (length Hs + length X + 1 < IO_BUFS)%nat -> (length X + 1 < io_cap)%nat -> sb_size sb - b < Z.of_nat k * BPB ->
  wp (balloc_loop k ROOTDEV b) (fun a f' => a = x /\ exists d, f' = set_dev d f /\
    bst d (alloc sb V x) Hs (x :: bmblock sb x :: X)) f.
Proof.
  revert f b. induction k as [|k IH]; intros f b Esb HS Hh Hb Hm Hx Hds Hlen Hcap Hk; [destruct Hx; lia|].
  pose proof Hx as [Hxr _]. pose proof (g_size _ _ G) as Hsz. cbn [balloc_loop]. apply wp_bind, wp_gets. rewrite Esb.
  rewrite (proj2 (Z.ltb_lt _ _)) by lia. destruct (bmblock_range b ltac:(lia)) as (-> & Hbm & Hbr & Hhome).
  assert (bmblock sb b ∉ Hs.*2) as Hnin by (intros Hin; destruct (Hh _ Hin); lia).
  eapply wp_bread; [exact HS|done|done|lia|]. intros i d1 H1. eapply wp_data; [exact H1|apply list_elem_of_here|].
  destruct (balloc_scan _ _ _ _ _) as [y|] eqn:Escan.
  - apply scan_found in Escan as (Hy & Hfree & Eb & Em); [|done|done].
    rewrite (first_free_uniq V b x (b + y) Hx Hfree) in *.
    eapply wp_bstore; [exact H1|apply list_elem_of_here|apply bit_set_block; by eapply bst_block|done|lia|reflexivity|].
    intros d2 H2. eapply wp_relse; [exact H2|]. intros d3 H3. apply wp_bind.
    assert (b + y ∉ Hs.*2) as Hny by (intros Hin; destruct (Hh _ Hin) as [_ Hu]; destruct Hfree as (_ & Hf & _); congruence).
    eapply wp_mono; [apply (bzero_wp (set_dev d3 f) _ _ _ (b + y) H3); [lia|lia|done|cbn; lia|cbn; lia]|].
    intros [] f4 (d4 & -> & H4). apply wp_ret. split; [apply u32_id; unfold FSSIZE in *; lia|]. exists d4. split; [done|].
    unfold alloc, mark. by rewrite Eb, Em.
  - pose proof (scan_none V b Hm Hb Escan) as Hused. eapply wp_relse; [exact H1|]. intros d2 H2.
    assert (first_free V (b + BPB) x) as Hx'.
    { destruct (Z.le_gt_cases (b + BPB) x).
      - apply (first_free_later V b); [|unfold BPB; lia|exact Hx]. intros c Hc. apply Hused; lia.
      - destruct Hx as (_ & Hu & _). rewrite Hused in Hu by lia. done. }
    eapply wp_mono; [apply (IH (set_dev d2 f) (b + BPB)); try done; try lia|done].
    + unfold BPB. lia.
    + by rewrite <- Z.add_mod_idemp_r, Z.mod_same, Z.add_0_r.
Qed.

Lemma balloc_wp f V Hs X x :
  fs_sb f = sb -> bst (fs_dev f) V Hs X -> held_used sb ds V Hs -> first_free V 0 x -> ds <= x ->
  (length Hs + length X + 1 < IO_BUFS)%nat -> (length X + 1 < io_cap)%nat ->
  wp (balloc ROOTDEV) (fun a f' => a = x /\ exists d, f' = set_dev d f /\
    bst d (alloc sb V x) Hs (x :: bmblock sb x :: X)) f.
Proof.
  intros Esb HS Hh Hx Hds Hlen Hcap. unfold balloc. apply wp_bind, wp_gets. rewrite Esb.
  apply balloc_loop_wp; try done. pose proof (g_size _ _ G). pose proof (Z.div_mod (sb_size sb) BPB ltac:(done)).
  pose proof (Z.mod_pos_bound (sb_size sb) BPB ltac:(done)). destruct Hx. assert (0 <= sb_size sb / BPB) by (apply Z.div_pos; unfold BPB; lia).
  rewrite Nat2Z.inj_succ, Z2Nat.id by lia. unfold BPB in *. lia.
Qed.

(** [bfree]. *)
Lemma bfree_wp f V Hs X b :
  fs_sb f = sb -> bst (fs_dev f) V Hs X -> held_used sb ds V Hs -> 0 <= b < sb_size sb -> used sb V b = true ->
  (length Hs + length X < IO_BUFS)%nat -> (length X < io_cap)%nat ->
  wp (bfree ROOTDEV b) (fun _ f' => exists d, f' = set_dev d f /\ bst d (unalloc sb V b) Hs (bmblock sb b :: X)) f.
Proof.
  intros Esb HS Hh Hb Hu Hlen Hcap. unfold bfree. apply wp_bind, wp_gets. rewrite Esb.
  destruct (bmblock_range b Hb) as (-> & Hbm & Hbr & Hhome).
  eapply wp_bread; [exact HS|done|intros Hin; destruct (Hh _ Hin); lia|done|]. intros i d1 H1.
  eapply wp_data; [exact H1|apply list_elem_of_here|]. unfold used in Hu. rewrite Hu. cbn [negb].
  eapply wp_bstore; [exact H1|apply list_elem_of_here|apply bit_clear_block; by eapply bst_block|done|done|reflexivity|].
  intros d2 H2. apply wp_tail. eapply wp_relse; [exact H2|]. intros d3 H3. apply wp_ret. by exists d3.
Qed.

(** Reading a block, as an equation. *)
Lemma bread_run f V Hs X b : bst (fs_dev f) V Hs X -> 0 <= b < FSSIZE -> b ∉ Hs.*2 -> (length Hs + length X < IO_BUFS)%nat ->
  exists i d, bread' ROOTDEV b f = Ok i (set_dev d f) /\ bst d V ((i, b) :: Hs) X /\ data i (set_dev d f) = Ok (V b) (set_dev d f).
Proof.
  intros HS Hb Hn Hlen.
  assert (wp (x <- bread' ROOTDEV b ;; v <- data x ;; kret (x, v)) (fun r f' => r.2 = V b /\ exists d, f' = set_dev d f /\
    bst d V ((r.1, b) :: Hs) X /\ bread' ROOTDEV b f = Ok r.1 f' /\ data r.1 f' = Ok (V b) f') f) as H; [|].
  2:{ apply wp_elim in H as ([i v] & f' & _ & _ & d & -> & H1 & H2 & H3). by exists i, d. }
  destruct HS as [(T & H1 & H2 & H3) H4 H5].
  pose proof (io_bread_ok _ _ _ _ b H1 Hb Hn ltac:(rewrite length_fmap; pose proof (logged_length T X H2 H3); lia)) as Hw.
  apply wp_elim in Hw as (i & d & E & E1 & E2 & E3).
  assert (bread' ROOTDEV b f = Ok i (set_dev d f)) as Er by (unfold bread', lift; cbn [sub_get fs_sub]; by rewrite E).
  assert (bst d V ((i, b) :: Hs) X) as HS'.
  { split; cbn [fmap list_fmap snd]; [by exists T| |by apply list.NoDup_cons].
    intros j c Hj. apply elem_of_cons in Hj as [Hj|Hj]; [by injection Hj as -> ->|]. by apply E3, H4. }
  assert (data i (set_dev d f) = Ok (V b) (set_dev d f)) as Ed.
  { unfold data, lift. cbn [sub_get fs_sub sub_put]. change (fs_dev (set_dev d f)) with d. by rewrite (io_data_ok _ _ _ _ i b E1 E2). }
  apply wp_bind. eapply wp_eq; [exact Er|]. apply wp_bind. eapply wp_eq; [exact Ed|]. apply wp_ret. split; [done|]. by exists d.
Qed.

Lemma relse_run f V Hs X i b : bst (fs_dev f) V ((i, b) :: Hs) X ->
  exists d, brelse' i f = Ok tt (set_dev d f) /\ bst d V Hs X.
Proof.
  intros HS. assert (wp (brelse' i) (fun _ f' => exists d, f' = set_dev d f /\ bst d V Hs X) f) as Hw.
  { apply wp_tail. eapply wp_relse; [exact HS|]. intros d H. apply wp_ret. by exists d. }
  apply wp_elim in Hw as ([] & f' & E & d & -> & H). by exists d.
Qed.

Lemma bfree_panics f V Hs X b :
  fs_sb f = sb -> bst (fs_dev f) V Hs X -> held_used sb ds V Hs -> 0 <= b < sb_size sb -> used sb V b = false ->
  (length Hs + length X < IO_BUFS)%nat -> bfree ROOTDEV b f = Panic "freeing free block".
Proof.
  intros Esb HS Hh Hb Hu Hlen. unfold bfree, kbind at 1, gets. rewrite Esb. destruct (bmblock_range b Hb) as (-> & Hbm & Hbr & _).
  destruct (bread_run f V Hs X (bmblock sb b) HS Hbr) as (i & d & E1 & _ & E2); [intros Hin; destruct (Hh _ Hin); lia|done|].
  rewrite (kbind_ok _ _ _ _ _ E1), (kbind_ok _ _ _ _ _ E2). unfold used in Hu. by rewrite Hu.
Qed.

Lemma balloc_loop_panics k f V Hs X b :
  fs_sb f = sb -> bst (fs_dev f) V Hs X -> held_used sb ds V Hs -> 0 <= b -> b mod BPB = 0 ->
  (forall c, 0 <= c < sb_size sb -> used sb V c = true) ->
  (length Hs + length X < IO_BUFS)%nat -> sb_size sb - b <= (Z.of_nat k - 1) * BPB -> (0 < k)%nat ->
  balloc_loop k ROOTDEV b f = Panic "balloc: out of blocks".
Proof.
  revert f b. induction k as [|k IH]; intros f b Esb HS Hh Hb Hm Hall Hlen Hk Hk0; [lia|].
  cbn [balloc_loop]. unfold kbind at 1, gets. rewrite Esb. destruct (b <? sb_size sb) eqn:E; boolify; [|done].
  destruct (bmblock_range b ltac:(lia)) as (-> & Hbm & Hbr & _).
  destruct (bread_run f V Hs X (bmblock sb b) HS Hbr) as (i & d & E1 & HS1 & E2); [intros Hin; destruct (Hh _ Hin); lia|done|].
  rewrite (kbind_ok _ _ _ _ _ E1), (kbind_ok _ _ _ _ _ E2).
  destruct (balloc_scan _ _ _ _ _) as [y|] eqn:Escan.
  - apply scan_found in Escan as (_ & (Hr & Hfree & _) & _); [|done|done]. rewrite Hall in Hfree by lia. done.
  - destruct (relse_run (set_dev d f) V Hs X i (bmblock sb b) HS1) as (d2 & E3 & HS2).
    rewrite (kbind_ok _ _ _ _ _ E3). apply IH; try done; try (unfold BPB in *; lia).
    by rewrite <- Z.add_mod_idemp_r, Z.mod_same, Z.add_0_r.
Qed.

Lemma balloc_panics f V Hs X :
  fs_sb f = sb -> bst (fs_dev f) V Hs X -> held_used sb ds V Hs -> (forall c, 0 <= c < sb_size sb -> used sb V c = true) ->
  (length Hs + length X < IO_BUFS)%nat -> balloc ROOTDEV f = Panic "balloc: out of blocks".
Proof.
  intros Esb HS Hh Hall Hlen. unfold balloc, kbind at 1, gets. rewrite Esb. apply (balloc_loop_panics _ _ V Hs X); try done; [|lia].
  pose proof (g_size _ _ G). pose proof (g_ino _ _ G). pose proof (g_bmap _ _ G). pose proof (Z.div_mod (sb_size sb) BPB ltac:(done)).
  pose proof (Z.mod_pos_bound (sb_size sb) BPB ltac:(done)).
  assert (0 <= sb_size sb / BPB) by (apply Z.div_pos; unfold BPB; lia).
  rewrite Nat2Z.inj_succ, Z2Nat.id by lia. unfold BPB in *. lia.
Qed.
End Alloc.

(** ** Properties *)

(** Block allocation.  With the metadata blocks marked as used,
    [balloc] returns the lowest free data block, zeroed; in the bitmap
    exactly that block's bit changes, and no other block of the disk changes.
    When every block is in use it panics. *)
Theorem balloc_correct sb ds f V Hs X :
  geom sb ds -> fs_sb f = sb -> bst (fs_dev f) V Hs X -> held_used sb ds V Hs ->
  (forall c, 0 <= c < ds -> used sb V c = true) -> (length Hs + length X + 1 < IO_BUFS)%nat -> (length X + 1 < io_cap)%nat ->
  (forall x, first_free (sb := sb) V 0 x ->
    wp (balloc ROOTDEV) (fun a f' => a = x /\ exists d V', f' = set_dev d f /\ bst d V' Hs (x :: bmblock sb x :: X) /\
      V' x = zero_block /\ (forall c, 0 <= c < sb_size sb -> used sb V' c = bool_decide (c = x) || used sb V c) /\
      (forall b, b <> x -> b <> bmblock sb x -> V' b = V b)) f) /\
  ((forall c, 0 <= c < sb_size sb -> used sb V c = true) -> balloc ROOTDEV f = Panic "balloc: out of blocks").
Proof.
  intros G Esb HS Hh Hres Hlen Hcap. split; [|intros; apply (balloc_panics G f V Hs X); try done; lia].
  intros x Hx. assert (ds <= x) as Hds.
  { destruct Hx as (Hr & Hu & _). destruct (Z.le_gt_cases ds x); [done|]. rewrite Hres in Hu by lia. done. }
  eapply wp_mono; [by apply (balloc_wp G f V Hs X x)|]. intros a f' [-> (d & -> & HS')]. split; [done|].
  exists d, (alloc sb V x). split; [done|]. split; [done|]. split; [by unfold alloc; rewrite zupd_eq|].
  split; [intros c Hc; apply (used_alloc G); try done; [intros; by eapply bst_block|destruct Hx; lia]|].
  intros b Hb1 Hb2. unfold alloc, mark. by rewrite !zupd_ne.
Qed.

(** Freeing a block.  [bfree] clears exactly the bit of an allocated
    block and changes no other block; freeing a free block panics. *)
Theorem bfree_correct sb ds f V Hs X b :
  geom sb ds -> fs_sb f = sb -> bst (fs_dev f) V Hs X -> held_used sb ds V Hs -> 0 <= b < sb_size sb ->
  (length Hs + length X < IO_BUFS)%nat -> (length X < io_cap)%nat ->
  if used sb V b then
    wp (bfree ROOTDEV b) (fun _ f' => exists d V', f' = set_dev d f /\ bst d V' Hs (bmblock sb b :: X) /\
      (forall c, 0 <= c < sb_size sb -> used sb V' c = negb (bool_decide (c = b)) && used sb V c) /\
      (forall c, c <> bmblock sb b -> V' c = V c)) f
  else bfree ROOTDEV b f = Panic "freeing free block".
Proof.
  intros G Esb HS Hh Hb Hlen Hcap. destruct (used sb V b) eqn:Hu; [|by apply (bfree_panics G f V Hs X)].
  eapply wp_mono; [by apply (bfree_wp G f V Hs X b)|]. intros [] f' (d & -> & HS'). exists d, (unalloc sb V b).
  split; [done|]. split; [done|]. split; [|intros c Hc; unfold unalloc; by rewrite zupd_ne].
  intros c Hc. apply used_unalloc; [intros; by eapply bst_block|lia|lia].
Qed.

End Block.

(** ** A concrete file system

    The layout of a small disk: the log in blocks 2 to 31, inodes in 32 and
    33, the bitmap in 34, data from 35 on. *)

Definition demo_sb : superblock := mk_sb 100 65 16 30 0 2 32 34 35.

Lemma demo_geom : geom (HL := fdev_laws 2) demo_sb 35.
Proof.
  split.
  - by unfold FSSIZE.
  - by vm_compute.
  - by vm_compute.
  - intros b Hb. cbn in Hb. split; [unfold FSSIZE; lia|]. unfold outside, LOGSIZE, MAXOPBLOCKS. lia.
Qed.

(** The root directory (inode 1, block 35) with an empty file [a] (inode 2). *)
Definition demo_inodes : bytes :=
  put_dinode 64 (mk_dinode T_DIR 0 0 1 512 (35 :: replicate 12 0))
    (put_dinode 128 (mk_dinode T_FILE 0 0 1 0 (replicate 13 0)) zero_block).
Definition demo_bitmap : bytes := [255; 255; 255; 255; 15] ++ replicate 507 0.
Definition demo_dir : bytes := splice 0 (mk_dirent [97] 2) zero_block.
Definition demo_disk : gmap (Z * Z) bytes :=
  {[ (1, 32) := demo_inodes; (1, 34) := demo_bitmap; (1, 35) := demo_dir ]}.
Definition demo_V (b : Z) : bytes := default zero_block (demo_disk !! (1, b)).

Definition demo_inode (n : Z) : inode :=
  mk_inode ROOTDEV n 1 initsleeplock true T_FILE 0 0 1 0 (replicate 13 0).
Definition demo_fs : fs fdev :=
  mk_fs (boot_dev demo_disk) demo_sb (demo_inode 2 :: replicate 49 (set_i_ref 0 (demo_inode 0))) 1 0 ∅.

Lemma demo_blocks k x : demo_disk !! k = Some x -> is_block x.
Proof.
  unfold demo_disk. rewrite !lookup_insert_Some, lookup_singleton_Some.
  intros [[_ <-]|[_ [[_ <-]|[_ [_ <-]]]]]; compute_done.
Qed.

Lemma demo_bst : bst (HL := fdev_laws 2) (fs_dev demo_fs) demo_V [] [].
Proof.
  split; [|by intros ? ? ?%elem_of_nil|apply NoDup_nil_2]. exists []. split; [|split; [apply NoDup_nil_2|done]].
  apply boot_in_tx; [apply demo_blocks|done].
Qed.

Lemma demo_reserved c : 0 <= c < 35 -> used demo_sb demo_V c = true.
Proof.
  intros Hc. assert (forallb (fun c => used demo_sb demo_V (Z.of_nat c)) (seq 0 35) = true) as H by (vm_compute; reflexivity).
  rewrite forallb_forall in H. specialize (H (Z.to_nat c)). rewrite Z2Nat.id in H by lia. apply H, in_seq. lia.
Qed.

Lemma demo_first_free : first_free (sb := demo_sb) demo_V 0 36.
Proof.
  split; [done|]. split; [by vm_compute|]. intros c Hc. destruct (decide (c = 35)) as [->|]; [by vm_compute|].
  apply demo_reserved. lia.
Qed.

Lemma demo_held : held_used demo_sb 35 demo_V [].
Proof. intros c Hc. by apply elem_of_nil in Hc. Qed.

Lemma balloc_correct_witness :
  exists f', balloc ROOTDEV demo_fs = Ok 36 f'.
Proof.
  pose proof (balloc_correct (HL := fdev_laws 2) demo_sb 35 demo_fs demo_V [] [] demo_geom eq_refl demo_bst demo_held
    demo_reserved ltac:(cbn; unfold IO_BUFS; lia) ltac:(cbn; lia)) as [H _].
  destruct (wp_elim _ _ _ (H 36 demo_first_free)) as (a & f' & E & -> & _). exists f'. exact E.
Defined.

Lemma demo_used : used demo_sb demo_V 35 = true /\ used demo_sb demo_V 40 = false.
Proof. split; vm_compute; reflexivity. Qed.

Lemma bfree_correct_witness :
  (exists f', bfree ROOTDEV 35 demo_fs = Ok tt f') /\ bfree ROOTDEV 40 demo_fs = Panic "freeing free block".
Proof.
  assert (0 <= 35 < sb_size demo_sb) as R1 by done. assert (0 <= 40 < sb_size demo_sb) as R2 by done.
  pose proof (fun b H => bfree_correct (HL := fdev_laws 2) demo_sb 35 demo_fs demo_V [] [] b demo_geom eq_refl demo_bst demo_held
    H ltac:(cbn; unfold IO_BUFS; lia) ltac:(cbn; lia)) as H.
  pose proof (H 35 R1) as H1. pose proof (H 40 R2) as H2.
  rewrite (proj1 demo_used) in H1. rewrite (proj2 demo_used) in H2. split; [|exact H2].
  destruct (wp_elim _ _ _ H1) as ([] & f' & E & _). exists f'. exact E.
Defined.
