(* ===== verification/Fsfile.v ===== *)
(** * Correctness of file contents (bmap, readi, writei, itrunc of fs.c)

    A file is seen as the sequence of its blocks' contents, a hole reading as
    zeros.  [bmap] may allocate but never changes what a file, or any other
    block in use, contains; [writei] and [readi] write and read the bytes. *)

From S2P Require Import Prelude Layout Block Blockio Bio Log Fs Fsblock.

(** ** The on-disk inode *)

Lemma put_addrs_get16 o k l v p : (p + 1 < o + 12 + 4 * k \/ o + 12 + 4 * (k + length l) <= p)%nat ->
  get16 (put_addrs o k l v) p = get16 v p.
Proof.
  revert k v. induction l as [|y l IH]; intros k v Hp; [done|]. cbn [put_addrs length] in *. rewrite IH by lia.
  unfold put32. rewrite !get16_put16_ne by lia. done.
Qed.
Lemma put_addrs_get32 o k l v p : (p + 3 < o + 12 + 4 * k \/ o + 12 + 4 * (k + length l) <= p)%nat ->
  get32 (put_addrs o k l v) p = get32 v p.
Proof. intros Hp. unfold get32. by rewrite !put_addrs_get16 by lia. Qed.
Lemma length_put_addrs o k l v : length (put_addrs o k l v) = length v.
Proof. revert k v. induction l as [|y l IH]; intros k v; [done|]. cbn [put_addrs]. by rewrite IH, length_put32. Qed.
Lemma put_addrs_eq o k l v j y : (o + 12 + 4 * (k + length l) <= length v)%nat -> l !! j = Some y ->
  get32 (put_addrs o k l v) (o + 12 + 4 * (k + j)) = u32 y.
Proof.
  revert k v j. induction l as [|z l IH]; intros k v [|j] Hl Hj; try done; cbn [put_addrs length] in *.
  - injection Hj as ->. rewrite put_addrs_get32 by lia. rewrite Nat.add_0_r. apply get32_put32_eq. lia.
  - replace (k + Datatypes.S j)%nat with (Datatypes.S k + j)%nat by lia. apply IH; [|done]. rewrite length_put32. lia.
Qed.

Record dinode_ok (d : dinode) : Prop := {
  dk_short : forall z, z ∈ [d_type d; d_major d; d_minor d; d_nlink d] -> - 2 ^ 15 <= z < 2 ^ 15;
  dk_size : 0 <= d_size d < 2 ^ 32;
  dk_len : length (d_addrs d) = 13%nat;
  dk_addrs : Forall (fun z => 0 <= z < 2 ^ 32) (d_addrs d)
}.

Lemma s16_u16 z : - 2 ^ 15 <= z < 2 ^ 15 -> s16 (u16 z) = z.
Proof.
  intros Hz. unfold s16, u16. rewrite Z.mod_mod by done.
  destruct (Z.le_gt_cases 0 z); [rewrite Z.mod_small by lia; case_cond; boolify; lia|].
  assert (z mod 2 ^ 16 = z + 2 ^ 16) as -> by (symmetry; apply Z.mod_unique with (-1); lia). case_cond; boolify; lia.
Qed.

Lemma get16_put32_ne q p z w : (p + 1 < q \/ q + 3 < p)%nat -> get16 (put32 q z w) p = get16 w p.
Proof. intros Hp. unfold put32. by rewrite !get16_put16_ne by lia. Qed.
Lemma get32_put16_ne q p z w : (p + 3 < q \/ q + 1 < p)%nat -> get32 (put16 q z w) p = get32 w p.
Proof. intros Hp. unfold get32. by rewrite !get16_put16_ne by lia. Qed.

Ltac len := rewrite ?length_put_addrs, ?length_put32, ?length_put16; lia.

(** The round trip of an inode through its disk block. *)
Lemma get_put_dinode o d v : dinode_ok d -> (o + 64 <= length v)%nat -> get_dinode (put_dinode o d v) o = d.
Proof.
  intros [Hs Hz Hl Ha] Hv. destruct d as [ty ma mi nl sz ad]. cbn in *. unfold get_dinode, put_dinode.
  cbn [d_addrs d_type d_major d_minor d_nlink d_size]. rewrite take_ge by lia.
  rewrite !put_addrs_get16, put_addrs_get32 by lia. rewrite !get16_put32_ne by lia. rewrite get32_put32_eq by len.
  rewrite (get16_put16_eq (o + 6)) by len. rewrite !(get16_put16_ne (o + 6)) by lia.
  rewrite (get16_put16_eq (o + 4)) by len. rewrite !(get16_put16_ne (o + 4)) by lia.
  rewrite (get16_put16_eq (o + 2)) by len. rewrite !(get16_put16_ne (o + 2)) by lia.
  rewrite (get16_put16_eq o) by len. rewrite u32_id by done.
  rewrite !s16_u16 by (apply Hs; repeat (apply list_elem_of_here || apply list_elem_of_further)). f_equal.
  unfold get_addrs. apply list_eq. intros k. rewrite list_lookup_fmap. destruct (decide (k < 13)%nat) as [Hk|Hk].
  - rewrite lookup_seq_lt by done. cbn [fmap option_fmap option_map]. destruct (lookup_lt_is_Some_2 ad k) as [y Hy]; [lia|].
    pose proof (put_addrs_eq o 0 ad (put32 (o + 8) sz (put16 (o + 6) nl (put16 (o + 4) mi (put16 (o + 2) ma (put16 o ty v))))) k y) as E.
    rewrite E by (try done; len). rewrite Hy. f_equal. apply u32_id. rewrite list.Forall_forall in Ha. apply Ha. by eapply list_elem_of_lookup_2.
  - rewrite lookup_seq_ge, lookup_ge_None_2 by lia. done.
Qed.

(** Other inodes of the block are untouched. *)
Lemma get_put_dinode_other o o' d v : (o' + 64 <= o \/ o + 64 <= o')%nat -> get_dinode (put_dinode o d v) o' = get_dinode v o'.
Proof.
  intros Ho. unfold get_dinode, put_dinode, get_addrs. assert (length (take 13 (d_addrs d)) <= 13)%nat by (rewrite length_take; lia).
  assert (forall p, (p + 1 < o \/ o + 64 <= p)%nat -> get16 (put_dinode o d v) p = get16 v p) as H16.
  { intros p Hp. unfold put_dinode. rewrite put_addrs_get16, get16_put32_ne, !get16_put16_ne by lia. done. }
  assert (forall p, (p + 3 < o \/ o + 64 <= p)%nat -> get32 (put_dinode o d v) p = get32 v p) as H32.
  { intros p Hp. unfold get32. by rewrite !H16 by lia. }
  fold (put_dinode o d v). rewrite !H16, H32 by lia. f_equal. apply list_fmap_ext. intros k x Hk. apply lookup_seq in Hk as [-> Hk].
  apply H32. lia.
Qed.

Section File.
Context {S : Type} {HIO : BlockIO S} {HL : BlockLaws S}.
Context {sb : superblock} {ds : Z} (G : geom sb ds).
Implicit Types (f : fs S) (V : Z -> bytes) (a : list Z) (X : list Z).

(** ** The blocks of a file *)

Definition ind a : Z := a !!! Z.to_nat IND_BLOCK.

(** The address of block [bn] of the file with addresses [a]; 0 for a hole. *)
Definition blk V a (bn : Z) : Z :=
  if bn <? NDIRECT then a !!! Z.to_nat bn
  else if ind a =? 0 then 0 else get32 (V (ind a)) (4 * Z.to_nat (bn - NDIRECT)).
Definition fdata V a (bn : Z) : bytes := if blk V a bn =? 0 then zero_block else V (blk V a bn).
Definition fbyte V a (x : Z) : Z := get8 (fdata V a (x / Z.of_nat BSIZE)) (Z.to_nat (x mod Z.of_nat BSIZE)).

(** The blocks that belong to the file. *)
Definition own V a (b : Z) : Prop := b <> 0 /\ (b = ind a \/ exists bn, 0 <= bn < MAXFILE /\ b = blk V a bn).

Record file_ok V a : Prop := {
  fo_len : length a = 13%nat;
  fo_own : forall b, own V a b -> ds <= b < sb_size sb /\ used sb V b = true;
  fo_ind : forall bn, 0 <= bn < MAXFILE -> blk V a bn <> 0 -> blk V a bn <> ind a;
  fo_inj : forall bn bn', 0 <= bn < MAXFILE -> 0 <= bn' < MAXFILE -> blk V a bn <> 0 -> blk V a bn = blk V a bn' -> bn = bn'
}.

Definition reserved V : Prop := forall c, 0 <= c < ds -> used sb V c = true.
Definition bitmap_block (b : Z) : Prop := exists c, 0 <= c < sb_size sb /\ b = bmblock sb c.

(** Free data blocks. *)
Definition nfree V : nat := length (filter (fun b => used sb V b = false) (Z.of_nat <$> seq 0 (Z.to_nat (sb_size sb)))).

(** The file's addresses and the disk change, its contents and everything
    else do not. *)
Record grows V a V' a' : Prop := {
  gr_ok : file_ok V' a';
  gr_blk : forall bn, 0 <= bn < MAXFILE -> blk V a bn <> 0 -> blk V' a' bn = blk V a bn;
  gr_data : forall bn, 0 <= bn < MAXFILE -> fdata V' a' bn = fdata V a bn;
  gr_used : forall c, 0 <= c < sb_size sb -> used sb V c = true -> used sb V' c = true;
  gr_own : forall b, own V' a' b -> own V a b \/ used sb V b = false;
  gr_frame : forall b, 0 <= b < sb_size sb -> used sb V b = true -> ~ own V a b -> ~ bitmap_block b -> V' b = V b
}.

Lemma grows_refl V a : file_ok V a -> grows V a V a.
Proof. intros H. split; try done. by left. Qed.

Lemma ds_nonneg : 0 < ds.
Proof. apply (g_size _ _ G). Qed.

Lemma own_range V a b : file_ok V a -> own V a b -> ds <= b < sb_size sb /\ 0 < b /\ used sb V b = true.
Proof. intros H Ho. destruct (fo_own _ _ H b Ho). pose proof ds_nonneg. split; [done|]. split; [lia|done]. Qed.

Lemma grows_trans V a V1 a1 V2 a2 : file_ok V a -> grows V a V1 a1 -> grows V1 a1 V2 a2 -> grows V a V2 a2.
Proof.
  intros Hok [A1 A2 A3 A4 A5 A6] [B1 B2 B3 B4 B5 B6]. split; [done|..].
  - intros bn Hbn H0. rewrite B2, A2; try done. by rewrite A2.
  - intros bn Hbn. by rewrite B3, A3.
  - intros c Hc Hu. auto.
  - intros b Hb. destruct (B5 b Hb) as [Ho|Hu]; [by apply A5|]. right.
    destruct (used sb V b) eqn:E; [|done]. destruct (own_range _ _ _ B1 Hb) as (Hr & _). rewrite A4 in Hu; [done| |done].
    pose proof ds_nonneg. lia.
  - intros b Hr Hu Ho Hb. rewrite B6; [by apply A6|done|by apply A4| |done].
    intros Ho1. destruct (A5 b Ho1) as [?|Hu']; [done|congruence].
Qed.

(** ** Free blocks *)

Definition blocks : list Z := Z.of_nat <$> seq 0 (Z.to_nat (sb_size sb)).

Lemma blocks_spec b : b ∈ blocks <-> 0 <= b < sb_size sb.
Proof.
  unfold blocks. rewrite list_elem_of_fmap. split.
  - intros (n & -> & Hn). apply elem_of_seq in Hn. lia.
  - intros Hb. exists (Z.to_nat b). rewrite elem_of_seq. lia.
Qed.

Lemma data_blocks_nodup : NoDup blocks.
Proof. unfold blocks. apply NoDup_fmap_2_strong; [intros; lia|apply NoDup_seq]. Qed.

Lemma free_exists V b : 0 <= b < sb_size sb -> used sb V b = false -> exists x, first_free (sb := sb) V 0 x.
Proof.
  remember (Z.to_nat b) as n eqn:E. revert b E. induction n as [n IH] using lt_wf_ind. intros b -> Hb Hu.
  destruct (forallb (fun c => used sb V (Z.of_nat c)) (seq 0 (Z.to_nat b))) eqn:Ef.
  - exists b. split; [lia|]. split; [done|]. intros c Hc. rewrite forallb_forall in Ef.
    specialize (Ef (Z.to_nat c) ltac:(apply in_seq; lia)). rewrite Z2Nat.id in Ef by lia. done.
  - apply not_true_iff_false in Ef. rewrite forallb_forall in Ef.
    destruct (decide (Exists (fun c => used sb V (Z.of_nat c) = false) (seq 0 (Z.to_nat b)))) as [He|Hn].
    + apply list.Exists_exists in He as (c & Hc & Hcu). apply elem_of_seq in Hc.
      apply (IH (Z.to_nat (Z.of_nat c)) ltac:(lia) (Z.of_nat c)); [done|lia|done].
    + exfalso. apply Ef. intros c Hc. apply not_false_iff_true. intros Hcu. apply Hn, list.Exists_exists.
      exists c. split; [|done]. apply in_seq in Hc. apply elem_of_seq. lia.
Qed.

Lemma nfree_pos V : (0 < nfree V)%nat -> exists x, first_free (sb := sb) V 0 x.
Proof.
  unfold nfree. fold blocks. intros H. destruct (filter _ blocks) as [|x l] eqn:E; [simpl in H; lia|].
  assert (x ∈ filter (fun b => used sb V b = false) blocks) as Hx by (rewrite E; apply list_elem_of_here).
  apply list_elem_of_filter in Hx as [Hu Hx]. apply blocks_spec in Hx. by apply (free_exists V x).
Qed.

Lemma nfree_ext V V' : (forall c, 0 <= c < sb_size sb -> used sb V' c = used sb V c) -> nfree V' = nfree V.
Proof.
  intros H. unfold nfree. fold blocks. apply Permutation_length, NoDup_Permutation; [apply list.NoDup_filter, data_blocks_nodup..|].
  intros y. rewrite !list_elem_of_filter, blocks_spec. split; intros [Hy Hr]; (split; [|done]); by rewrite H in * || rewrite <- H.
Qed.

Lemma nfree_alloc V V' x : 0 <= x < sb_size sb -> used sb V x = false ->
  (forall c, 0 <= c < sb_size sb -> used sb V' c = bool_decide (c = x) || used sb V c) -> nfree V = Datatypes.S (nfree V').
Proof.
  intros Hx Hu H. unfold nfree. fold blocks.
  assert (filter (fun b => used sb V b = false) blocks ≡ₚ x :: filter (fun b => used sb V' b = false) blocks) as E.
  { apply NoDup_Permutation.
    - apply list.NoDup_filter, data_blocks_nodup.
    - apply list.NoDup_cons. split; [|apply list.NoDup_filter, data_blocks_nodup]. rewrite list_elem_of_filter. intros [Hf _].
      rewrite H, bool_decide_true in Hf by done. done.
    - intros y. rewrite elem_of_cons, !list_elem_of_filter, blocks_spec. split.
      + intros [Hy Hr]. destruct (decide (y = x)) as [->|Hne]; [by left|right]. split; [|done]. by rewrite H, bool_decide_false.
      + intros [->|[Hy Hr]]; [done|]. split; [|done]. rewrite H in Hy by done. by apply orb_false_iff in Hy as [_ ?]. }
  by rewrite E.
Qed.

(** ** Allocation for a file *)

Lemma get8_zero o : (o < BSIZE)%nat -> get8 zero_block o = 0.
Proof. intros Ho. unfold get8, zero_block. apply list_lookup_total_correct. by apply lookup_replicate_2. Qed.

Lemma get32_zero o : (o + 3 < BSIZE)%nat -> get32 zero_block o = 0.
Proof. intros Ho. unfold get32, get16. by rewrite !get8_zero by lia. Qed.

(** A fresh block: unused, so none of the file's. *)
Record fresh V a x : Prop := {
  fr_range : ds <= x < sb_size sb;
  fr_free : used sb V x = false
}.

Lemma fresh_not_own V a x : file_ok V a -> fresh V a x -> x <> 0 /\ ~ own V a x /\ ~ bitmap_block x.
Proof.
  intros Hok [Hr Hf]. pose proof ds_nonneg. split; [lia|]. split.
  - intros Ho. destruct (fo_own _ _ Hok x Ho) as [_ Hu]. congruence.
  - intros (c & Hc & ->). destruct (bmblock_range G c Hc) as (_ & ? & _). lia.
Qed.

Lemma first_free_fresh V a x : reserved V -> first_free (sb := sb) V 0 x -> fresh V a x.
Proof.
  intros Hres (Hr & Hu & _). split; [|done]. destruct (Z.le_gt_cases ds x); [lia|]. rewrite Hres in Hu by lia. done.
Qed.

Lemma own_not_bitmap V a b : file_ok V a -> own V a b -> ~ bitmap_block b.
Proof.
  intros Hok Ho (c & Hc & ->). destruct (own_range _ _ _ Hok Ho) as [? _]. destruct (bmblock_range G c Hc) as (_ & ? & _). lia.
Qed.

Lemma alloc_other V x b : b <> x -> ~ bitmap_block b -> 0 <= x < sb_size sb -> alloc sb V x b = V b.
Proof. intros Hb Hn Hx. unfold alloc, mark. rewrite !zupd_ne; [done| |done]. intros ->. apply Hn. by exists x. Qed.

(** The part of [grows] that concerns the bitmap and other files. *)
Lemma alloc_used V x c : (forall b, is_block (V b)) -> ds <= x < sb_size sb -> 0 <= c < sb_size sb ->
  used sb (alloc sb V x) c = bool_decide (c = x) || used sb V c.
Proof. intros HV Hx Hc. pose proof ds_nonneg. by apply (used_alloc G); [|lia..]. Qed.

Section Alloc.
Context {V : Z -> bytes} {a : list Z} {x : Z}.
Context (HV : forall b, is_block (V b)) (Hok : file_ok V a) (Hx : fresh V a x).

Lemma fresh_pos : 0 <= x < sb_size sb.
Proof. pose proof ds_nonneg. destruct Hx. lia. Qed.

Lemma alloc_own b : own V a b -> alloc sb V x b = V b /\ b <> x.
Proof.
  intros Ho. destruct (fresh_not_own _ _ _ Hok Hx) as (_ & Hn & _). assert (b <> x) by (by intros ->).
  split; [|done]. apply alloc_other; [done|by eapply own_not_bitmap|apply fresh_pos].
Qed.

(** The file's view is the same after allocating a block for something. *)
Lemma blk_alloc bn : 0 <= bn < MAXFILE -> blk (alloc sb V x) a bn = blk V a bn.
Proof.
  intros Hbn. unfold blk. destruct (bn <? NDIRECT); [done|]. destruct (ind a =? 0) eqn:E; [done|]. boolify.
  rewrite (proj1 (alloc_own (ind a) (conj E (or_introl eq_refl)))). done.
Qed.

Lemma own_blk bn : 0 <= bn < MAXFILE -> blk V a bn <> 0 -> own V a (blk V a bn).
Proof. intros Hbn H0. split; [done|]. right. by exists bn. Qed.


(** Block [x] becomes block [bn] of the file ([Some bn]) or its indirect
    block ([None]). *)
Record attached (slot : option Z) (V' : Z -> bytes) (a' : list Z) : Prop := {
  at_len : length a' = 13%nat;
  at_slot : match slot with Some bn => 0 <= bn < MAXFILE /\ blk V a bn = 0 | None => ind a = 0 end;
  at_blk : forall bn, 0 <= bn < MAXFILE -> blk V' a' bn = if decide (slot = Some bn) then x else blk V a bn;
  at_ind : ind a' = if decide (slot = None) then x else ind a;
  at_zero : V' x = zero_block;
  at_used : forall c, 0 <= c < sb_size sb -> used sb V' c = bool_decide (c = x) || used sb V c;
  at_other : forall b, b <> x -> ~ bitmap_block b -> (b = ind a -> b = 0) -> V' b = V b
}.

Lemma attached_own slot V' a' b : attached slot V' a' -> own V' a' b -> own V a b \/ b = x.
Proof.
  intros [H1 H2 H3 H4 _ _ _] [H0 [E|(bn & Hbn & E)]].
  - rewrite H4 in E. case_decide; [by right|]. left. split; [done|by left].
  - rewrite H3 in E by done. case_decide; [by right|]. left. split; [done|]. right. by exists bn.
Qed.

Lemma attached_blk_x slot V' a' bn : attached slot V' a' -> 0 <= bn < MAXFILE -> blk V' a' bn = x -> slot = Some bn.
Proof.
  intros [H1 H2 H3 H4 _ _ _] Hbn E. rewrite H3 in E by done. case_decide as D; [done|]. exfalso.
  destruct (fresh_not_own _ _ _ Hok Hx) as (H0 & Hn & _). apply Hn. split; [done|]. right. by exists bn.
Qed.

Lemma attached_ok slot V' a' : attached slot V' a' -> file_ok V' a'.
Proof.
  intros Hat. destruct (fresh_not_own _ _ _ Hok Hx) as (Hx0 & Hxn & _). pose proof ds_nonneg as Hd.
  pose proof Hat as [H1 H2 H3 H4 H5 H6 H7]. split; [done|..].
  - intros b Hb. apply (attached_own _ _ _ _ Hat) in Hb as [Ho|Hbx].
    + destruct (fo_own _ _ Hok b Ho) as [Hr Hu]. split; [done|]. rewrite H6 by lia. by rewrite Hu, orb_true_r.
    + subst b. split; [apply (fr_range _ _ _ Hx)|]. rewrite H6 by apply fresh_pos. by rewrite bool_decide_true.
  - intros bn Hbn H0. rewrite H3, H4 in * by done. case_decide as D1; case_decide as D2; subst; try done.
    + intros E. apply Hxn. split; [done|]. by left.
    + intros E. apply Hxn. split; [done|]. right. exists bn. by split.
    + by apply (fo_ind _ _ Hok).
  - intros bn bn' Hbn Hbn' H0 E. destruct (decide (blk V' a' bn = x)) as [Ex|Ex].
    + assert (slot = Some bn) as -> by (by apply (attached_blk_x _ _ _ bn Hat)).
      assert (Some bn = Some bn') by (apply (attached_blk_x _ _ _ bn' Hat); congruence). congruence.
    + assert (blk V' a' bn' <> x) as Ex' by congruence. rewrite !H3 in * by done. repeat case_decide; try done; by apply (fo_inj _ _ Hok).
Qed.

Lemma attached_grows slot V' a' : attached slot V' a' -> grows V a V' a'.
Proof.
  intros Hat. pose proof (attached_ok _ _ _ Hat) as Hok'. destruct (fresh_not_own _ _ _ Hok Hx) as (Hx0 & Hxn & Hxb).
  pose proof Hat as [H1 H2 H3 H4 H5 H6 H7]. split; [done|..].
  - intros bn Hbn H0. rewrite H3 by done. destruct (decide (slot = Some bn)) as [D|D]; [|done]. subst slot. destruct H2. congruence.
  - intros bn Hbn. unfold fdata. rewrite H3 by done. destruct (decide (slot = Some bn)) as [D|D].
    + subst slot. destruct H2 as [_ ->]. rewrite (proj2 (Z.eqb_neq x 0)) by done. done.
    + destruct (blk V a bn =? 0) eqn:E; [done|]. boolify. assert (own V a (blk V a bn)) as Ho by (by apply own_blk).
      apply H7; [intros Ex; apply Hxn; by rewrite <- Ex|by apply (own_not_bitmap V a)|]. intros Ei. by apply (fo_ind _ _ Hok) in Ei.
  - intros c Hc Hu. rewrite H6, Hu by done. apply orb_true_r.
  - intros b Ho. apply (attached_own _ _ _ _ Hat) in Ho as [Ho|Hbx]; [by left|right]. subst b. apply (fr_free _ _ _ Hx).
  - intros b Hr Hu Hn Hb. destruct (decide (b = x)) as [->|Hbx]; [by rewrite (fr_free _ _ _ Hx) in Hu|].
    apply H7; try done. intros Hbi. destruct (decide (b = 0)); [done|]. exfalso. apply Hn. split; [done|by left].
Qed.

Lemma attach_zero : alloc sb V x x = zero_block.
Proof. unfold alloc. apply zupd_eq. Qed.

Lemma lookup_total_set a0 (k j : nat) (y : Z) : (k < length a0)%nat -> <[k := y]> a0 !!! j = if decide (k = j) then y else a0 !!! j.
Proof. intros Hk. case_decide as E; [subst; by apply list_lookup_total_insert_eq|by apply list_lookup_total_insert_ne]. Qed.

Lemma attach_direct bn : 0 <= bn < NDIRECT -> blk V a bn = 0 -> attached (Some bn) (alloc sb V x) (<[Z.to_nat bn := x]> a).
Proof.
  intros Hbn H0. pose proof (fo_len _ _ Hok) as Hl. unfold NDIRECT in Hbn.
  assert (ind (<[Z.to_nat bn := x]> a) = ind a) as Ei.
  { unfold ind. rewrite lookup_total_set by lia. rewrite decide_False; [done|]. unfold IND_BLOCK, NDIRECT. lia. }
  split.
  - by rewrite length_insert.
  - split; [unfold MAXFILE, NDIRECT, NINDIRECT; lia|done].
  - intros bn' Hbn'. rewrite <- (blk_alloc bn' Hbn'). unfold blk. rewrite Ei. destruct (bn' <? NDIRECT) eqn:E; boolify.
    + rewrite lookup_total_set by lia. destruct (decide (Z.to_nat bn = Z.to_nat bn')), (decide (Some bn = Some bn')); try done; [|congruence].
      exfalso. assert (bn = bn') by lia. congruence.
    + rewrite decide_False; [done|]. intros [= ->]. unfold NDIRECT in E. lia.
  - by rewrite Ei.
  - apply attach_zero.
  - intros c Hc. apply alloc_used; [done|apply (fr_range _ _ _ Hx)|done].
  - intros b Hb Hn _. by apply alloc_other, fresh_pos.
Qed.

Lemma attach_indirect : ind a = 0 -> attached None (alloc sb V x) (<[Z.to_nat IND_BLOCK := x]> a).
Proof.
  intros H0. pose proof (fo_len _ _ Hok) as Hl. destruct (fresh_not_own _ _ _ Hok Hx) as (Hx0 & _ & _).
  assert (ind (<[Z.to_nat IND_BLOCK := x]> a) = x) as Ei.
  { unfold ind. rewrite lookup_total_set by (rewrite Hl; unfold IND_BLOCK, NDIRECT; lia). by rewrite decide_True. }
  split.
  - by rewrite length_insert.
  - done.
  - intros bn Hbn. rewrite decide_False by done. unfold blk. rewrite Ei. destruct (bn <? NDIRECT) eqn:E; boolify.
    + rewrite lookup_total_set by (rewrite Hl; unfold IND_BLOCK, NDIRECT; lia). rewrite decide_False; [done|].
      unfold IND_BLOCK, NDIRECT in *. lia.
    + rewrite (proj2 (Z.eqb_neq x 0)) by done. rewrite H0, attach_zero. rewrite get32_zero; [done|].
      unfold MAXFILE, NDIRECT, NINDIRECT, BSIZE in *. lia.
  - by rewrite decide_True.
  - apply attach_zero.
  - intros c Hc. apply alloc_used; [done|apply (fr_range _ _ _ Hx)|done].
  - intros b Hb Hn _. by apply alloc_other, fresh_pos.
Qed.

Lemma attach_entry bn : NDIRECT <= bn < MAXFILE -> ind a <> 0 -> blk V a bn = 0 ->
  attached (Some bn) (zupd (alloc sb V x) (ind a) (put32 (4 * Z.to_nat (bn - NDIRECT)) x (V (ind a)))) a.
Proof.
  intros Hbn Hi H0. pose proof (fo_len _ _ Hok) as Hl. destruct (fresh_not_own _ _ _ Hok Hx) as (Hx0 & Hxn & _).
  assert (own V a (ind a)) as Ho by (split; [done|by left]). destruct (fo_own _ _ Hok _ Ho) as [Hir _].
  assert (x <> ind a) as Hxi by (intros ->; done). pose proof ds_nonneg. destruct (HV (ind a)) as [Hlen _].
  unfold MAXFILE, NDIRECT, NINDIRECT, BSIZE in *.
  split.
  - done.
  - split; [unfold MAXFILE, NDIRECT, NINDIRECT; lia|done].
  - intros bn' Hbn'. rewrite <- (blk_alloc bn' Hbn') by done. unfold blk, NDIRECT. destruct (bn' <? 12) eqn:E; boolify.
    + rewrite decide_False; [done|]. intros [= ->]. lia.
    + rewrite (proj2 (Z.eqb_neq (ind a) 0)) by done. rewrite zupd_eq, (proj1 (alloc_own _ Ho)).
      case_decide as D.
      * injection D as <-. rewrite get32_put32_eq by (rewrite Hlen; lia). apply u32_id. pose proof fresh_pos.
        pose proof (g_size _ _ G). unfold FSSIZE in *. lia.
      * rewrite get32_put32_ne; [done|]. assert (bn <> bn') by congruence. lia.
  - done.
  - rewrite zupd_ne by done. apply attach_zero.
  - intros c Hc. rewrite (used_data G) by (try done; lia). apply alloc_used; [done|apply (fr_range _ _ _ Hx)|done].
  - intros b Hb Hn Hbi. rewrite zupd_ne; [by apply alloc_other, fresh_pos|]. intros ->. by apply Hi, Hbi.
Qed.
End Alloc.

(** ** bmap *)

Definition with_addrs (a : list Z) (ip : inode) : inode :=
  mk_inode (i_dev ip) (i_inum ip) (i_ref ip) (i_lock ip) (i_valid ip) (i_type ip) (i_major ip) (i_minor ip) (i_nlink ip) (i_size ip) a.
(** The state with the block layer in state [d] and inode [i] as [ip]. *)
Definition upd f (d : S) (i : nat) (ip : inode) : fs S := set_inodes (<[i := ip]> (fs_inodes f)) (set_dev d f).

Lemma with_addrs_self ip : with_addrs (i_addrs ip) ip = ip.
Proof. by destruct ip. Qed.
Lemma upd_self f d i ip : fs_inodes f !! i = Some ip -> upd f d i ip = set_dev d f.
Proof. intros E. unfold upd. rewrite list_insert_id by done. by destruct f. Qed.
Lemma upd_upd f d i ip d' ip' : upd (upd f d i ip) d' i ip' = upd f d' i ip'.
Proof. unfold upd, set_inodes, set_dev. cbn. by rewrite list_insert_insert_eq. Qed.

Lemma geti_eq f i ip : fs_inodes f !! i = Some ip -> geti i f = Ok ip f.
Proof. intros E. unfold geti, kbind, kget. by rewrite E. Qed.
Lemma puti_eq f i ip g : fs_inodes f !! i = Some ip -> puti i g f = Ok tt (upd f (fs_dev f) i (g ip)).
Proof. intros E. unfold puti, kbind, kget. rewrite E. by destruct f. Qed.

Record ist f (i : nat) (ip : inode) V X : Prop := {
  is_sb : fs_sb f = sb;
  is_ip : fs_inodes f !! i = Some ip;
  is_dev : i_dev ip = ROOTDEV;
  is_bst : bst (fs_dev f) V [] X;
  is_res : reserved V
}.

Lemma ist_blocks f i ip V X b : ist f i ip V X -> is_block (V b).
Proof. intros H. by eapply bst_block, is_bst. Qed.

Lemma ist_upd f i ip V X d ip' V' X' : ist f i ip V X -> i_dev ip' = ROOTDEV -> bst d V' [] X' -> reserved V' ->
  ist (upd f d i ip') i ip' V' X'.
Proof.
  intros [H1 H2 H3 H4 H5] Hd Hb Hr. split; try done. cbn. apply list_lookup_insert_eq. by eapply lookup_lt_Some.
Qed.

Lemma reserved_grows V a V' a' : grows V a V' a' -> reserved V -> reserved V'.
Proof. intros Hg Hr c Hc. apply (gr_used _ _ _ _ Hg); [|by apply Hr]. pose proof (g_size _ _ G). lia. Qed.

(** Allocation of a block to be attached to the file. *)
Lemma file_balloc_wp f V Hs X a :
  fs_sb f = sb -> bst (fs_dev f) V Hs X -> reserved V -> held_used sb ds V Hs -> file_ok V a -> (0 < nfree V)%nat ->
  (length Hs + length X + 1 < IO_BUFS)%nat -> (length X + 1 < io_cap)%nat ->
  wp (balloc ROOTDEV) (fun x f' => fresh V a x /\ nfree V = Datatypes.S (nfree (alloc sb V x)) /\
    exists d, f' = set_dev d f /\ bst d (alloc sb V x) Hs (x :: bmblock sb x :: X)) f.
Proof.
  intros Esb HS Hres Hh Hok Hn Hlen Hcap. destruct (nfree_pos V Hn) as (x & Hx).
  pose proof (first_free_fresh V a x Hres Hx) as Hfr.
  eapply wp_mono; [apply (balloc_wp G f V Hs X x); try done; apply (fr_range _ _ _ Hfr)|].
  intros y f' [-> (d & -> & HS')]. split; [done|]. split; [|by exists d].
  apply (nfree_alloc V _ x); [apply (fresh_pos Hfr)|apply Hfr|]. intros c Hc. apply alloc_used; [|apply Hfr|done].
  intros b. by eapply bst_block.
Qed.

(** What [bmap] returns: the block, now allocated. *)
Definition bmap_post f i ip V X bn : Z -> fs S -> Prop := fun x f' =>
  exists d a' V' X', f' = upd f d i (with_addrs a' ip) /\ bst d V' [] X' /\ (length X' <= length X + 5)%nat /\
    grows V (i_addrs ip) V' a' /\ blk V' a' bn = x /\ x <> 0 /\ (nfree V <= nfree V' + 2)%nat /\
    (blk V (i_addrs ip) bn <> 0 -> V' = V /\ a' = i_addrs ip /\ X' = X).

Lemma bmap_direct_wp f i ip V X bn :
  ist f i ip V X -> file_ok V (i_addrs ip) -> 0 <= bn < NDIRECT -> (0 < nfree V)%nat ->
  (length X + 1 < IO_BUFS)%nat -> (length X + 1 < io_cap)%nat -> wp (bmap i bn) (bmap_post f i ip V X bn) f.
Proof.
  intros HI Hok Hbn Hn Hlen Hcap. pose proof HI as [H1 H2 H3 H4 H5]. unfold bmap.
  assert (blk V (i_addrs ip) bn = addr bn ip) as Eb by (unfold blk; by rewrite (proj2 (Z.ltb_lt _ _)) by lia).
  apply wp_bind. eapply wp_eq; [by apply geti_eq|]. rewrite (proj2 (Z.ltb_lt _ _)) by lia.
  destruct (addr bn ip =? NULL) eqn:E0; boolify; change NULL with 0 in E0.
  - rewrite H3. apply wp_bind. eapply wp_mono; [apply (file_balloc_wp f V [] X (i_addrs ip)); try done; by intros ? ?%elem_of_nil|].
    intros x f' (Hfr & Hnf & d & -> & HS). apply wp_bind. eapply wp_eq; [by apply puti_eq|]. apply wp_ret.
    assert (attached (V := V) (a := i_addrs ip) (x := x) (Some bn) (alloc sb V x) (<[Z.to_nat bn := x]> (i_addrs ip))) as Hat.
    { apply attach_direct; try done; [intros; by eapply ist_blocks|by rewrite Eb]. }
    exists d, (<[Z.to_nat bn := x]> (i_addrs ip)), (alloc sb V x), (x :: bmblock sb x :: X). split; [done|]. split; [done|].
    split; [cbn; lia|]. split; [by apply (attached_grows Hok Hfr (Some bn))|].
    split; [rewrite (at_blk _ _ _ Hat) by (unfold MAXFILE, NDIRECT, NINDIRECT in *; lia); by rewrite decide_True|].
    split; [by apply (fresh_not_own _ _ _ Hok Hfr)|]. split; [lia|]. congruence.
  - apply wp_ret. exists (fs_dev f), (i_addrs ip), V, X. rewrite with_addrs_self, upd_self by done.
    split; [by destruct f|]. split; [done|]. split; [lia|]. split; [by apply grows_refl|]. split; [done|]. split; [done|]. split; [lia|done].
Qed.

(** The second half of the indirect case: the entry in the indirect block. *)
Lemma bmap_entry_wp f i ip V X bn :
  ist f i ip V X -> file_ok V (i_addrs ip) -> NDIRECT <= bn < MAXFILE -> ind (i_addrs ip) <> 0 -> (0 < nfree V)%nat ->
  (length X + 2 < IO_BUFS)%nat -> (length X + 2 < io_cap)%nat ->
  wp (bp <- bread' ROOTDEV (ind (i_addrs ip)) ;;
      d <- data bp ;;
      let a := get32 d (4 * Z.to_nat (bn - NDIRECT)) in
      if a =? NULL then
        a <- balloc ROOTDEV ;;
        d <- data bp ;;
        store_log bp (put32 (4 * Z.to_nat (bn - NDIRECT)) a d) ;;;
        brelse' bp ;;;
        kret a
      else brelse' bp ;;; kret a)
    (fun x f' => exists d V' X', f' = set_dev d f /\ bst d V' [] X' /\ (length X' <= length X + 3)%nat /\
      grows V (i_addrs ip) V' (i_addrs ip) /\ blk V' (i_addrs ip) bn = x /\ x <> 0 /\ (nfree V <= nfree V' + 1)%nat /\
      (blk V (i_addrs ip) bn <> 0 -> V' = V /\ X' = X)) f.
Proof.
  intros HI Hok Hbn Hi Hn Hlen Hcap. pose proof HI as [H1 H2 H3 H4 H5]. set (a := i_addrs ip) in *.
  assert (own V a (ind a)) as Ho by (split; [done|by left]). destruct (own_range _ _ _ Hok Ho) as (Hr & H0 & Hu).
  pose proof (g_size _ _ G) as Hsz. pose proof ds_nonneg as Hds.
  assert (blk V a bn = get32 (V (ind a)) (4 * Z.to_nat (bn - NDIRECT))) as Eb.
  { unfold blk. rewrite (proj2 (Z.ltb_ge _ _)) by lia. by rewrite (proj2 (Z.eqb_neq _ _)). }
  eapply wp_bread; [exact H4|unfold FSSIZE in *; lia|by intros ?%elem_of_nil|cbn; lia|]. intros bp d1 HS1.
  eapply wp_data; [exact HS1|apply list_elem_of_here|]. cbv zeta. rewrite <- Eb.
  destruct (blk V a bn =? NULL) eqn:E0; boolify; change NULL with 0 in E0.
  - apply wp_bind. eapply wp_mono; [apply (file_balloc_wp (set_dev d1 f) V [(bp, ind a)] X a); try done; cbn; try lia|].
    { intros c Hc. cbn in Hc. apply list_elem_of_singleton in Hc as ->. done. }
    intros x f' (Hfr & Hnf & d & -> & HS).
    pose proof (attach_entry (fun b => ist_blocks _ _ _ _ _ b HI) Hok Hfr bn Hbn Hi E0) as Hat.
    assert (alloc sb V x (ind a) = V (ind a)) as Ei by (by apply (alloc_own Hok Hfr)).
    eapply wp_data; [exact HS|apply list_elem_of_here|]. rewrite Ei.
    eapply wp_bstore; [exact HS|apply list_elem_of_here|apply put32_block; by eapply ist_blocks| |cbn; lia|reflexivity|].
    { apply (g_home _ _ G). pose proof (g_ino _ _ G). pose proof (g_bmap _ _ G).
      assert (0 <= (sb_size sb - 1) / BPB) by (apply Z.div_pos; unfold BPB; lia).
      assert (0 <= (sb_ninodes sb - 1) / IPB) by (apply Z.div_pos; unfold IPB; lia). lia. }
    intros d2 HS2. eapply wp_relse; [exact HS2|]. intros d3 HS3. apply wp_ret. eexists d3, _, _. split; [done|]. split; [exact HS3|].
    split; [cbn; lia|]. split; [by apply (attached_grows Hok Hfr (Some bn))|].
    split; [rewrite (at_blk _ _ _ Hat) by (unfold NDIRECT in *; lia); by rewrite decide_True|].
    split; [by apply (fresh_not_own _ _ _ Hok Hfr)|]. split; [|done].
    rewrite (nfree_ext (alloc sb V x) (zupd (alloc sb V x) _ _)); [lia|]. intros c Hc. apply (used_data G); [lia|done].
  - eapply wp_relse; [exact HS1|]. intros d2 HS2. apply wp_ret. exists d2, V, X. split; [done|]. split; [done|]. split; [lia|].
    split; [by apply grows_refl|]. split; [done|]. split; [done|]. split; [lia|done].
Qed.

Lemma bmap_wp f i ip V X bn :
  ist f i ip V X -> file_ok V (i_addrs ip) -> 0 <= bn < MAXFILE -> (1 < nfree V)%nat ->
  (length X + 4 < IO_BUFS)%nat -> (length X + 4 < io_cap)%nat -> wp (bmap i bn) (bmap_post f i ip V X bn) f.
Proof.
  intros HI Hok Hbn Hn Hlen Hcap. destruct (decide (bn < NDIRECT)) as [Hd|Hd]; [apply bmap_direct_wp; try done; lia|].
  pose proof HI as [H1 H2 H3 H4 H5]. unfold bmap. apply wp_bind. eapply wp_eq; [by apply geti_eq|].
  rewrite (proj2 (Z.ltb_ge _ _)) by lia. cbv zeta. rewrite (proj2 (Z.ltb_lt _ _)) by (unfold MAXFILE in *; lia). rewrite H3.
  change (addr IND_BLOCK ip) with (ind (i_addrs ip)). set (a := i_addrs ip) in *.
  destruct (ind a =? NULL) eqn:E0; boolify; change NULL with 0 in E0.
  - apply wp_bind. apply wp_bind. eapply wp_mono; [apply (file_balloc_wp f V [] X a); try done; try (cbn; lia); by intros ? ?%elem_of_nil|].
    intros x f' (Hfr & Hnf & d & -> & HS). apply wp_bind. eapply wp_eq; [by apply puti_eq|]. apply wp_ret.
    pose proof (attach_indirect (fun b => ist_blocks _ _ _ _ _ b HI) Hok Hfr E0) as Hat.
    pose proof (attached_grows Hok Hfr None _ _ Hat) as Hg.
    set (a1 := <[Z.to_nat IND_BLOCK := x]> a) in *. set (f1 := upd (set_dev d f) (fs_dev (set_dev d f)) i (set_i_addr IND_BLOCK x ip)).
    assert (ist f1 i (with_addrs a1 ip) (alloc sb V x) (x :: bmblock sb x :: X)) as HI1.
    { apply (ist_upd f i ip V X); try done. by eapply reserved_grows. }
    assert (ind a1 = x) as Ei by (rewrite (at_ind _ _ _ Hat); by rewrite decide_True).
    pose proof (bmap_entry_wp f1 i (with_addrs a1 ip) (alloc sb V x) _ bn HI1 (gr_ok _ _ _ _ Hg) ltac:(lia)) as He.
    cbn [i_addrs with_addrs] in He. rewrite Ei in He.
    eapply wp_mono; [apply He; [by apply (fresh_not_own _ _ _ Hok Hfr)|lia|cbn; lia|cbn; lia]|].
    intros y f' (d' & V' & X' & -> & HS' & HX' & Hg' & Hb & Hy & Hnf' & _). exists d', a1, V', X'.
    split; [done|]. split; [done|]. split; [cbn in *; lia|]. split; [by eapply grows_trans|]. split; [done|]. split; [done|]. split; [lia|].
    intros Hnz. exfalso. apply Hnz. unfold blk. rewrite (proj2 (Z.ltb_ge _ _)) by lia. fold a. by rewrite E0.
  - apply wp_bind, wp_ret. eapply wp_mono; [apply (bmap_entry_wp f i ip V X bn HI Hok); try done; lia|].
    intros y f' (d' & V' & X' & -> & HS' & HX' & Hg' & Hb & Hy & Hnf' & Hs). exists d', a, V', X'. fold a in Hg', Hb, Hs.
    split; [unfold a; by rewrite with_addrs_self, upd_self|]. split; [done|]. split; [lia|]. split; [done|]. split; [done|]. split; [done|].
    split; [lia|]. intros Hnz. by destruct (Hs Hnz).
Qed.

(** ** Reading *)

(** [bmap] of a block that exists changes nothing. *)
Lemma bmap_mapped_wp f i ip V X bn :
  ist f i ip V X -> file_ok V (i_addrs ip) -> 0 <= bn < MAXFILE -> blk V (i_addrs ip) bn <> 0 -> (length X < IO_BUFS)%nat ->
  wp (bmap i bn) (fun x f' => x = blk V (i_addrs ip) bn /\ exists d, f' = set_dev d f /\ bst d V [] X) f.
Proof.
  intros HI Hok Hbn H0 Hlen. pose proof HI as [H1 H2 H3 H4 H5]. unfold bmap. apply wp_bind. eapply wp_eq; [by apply geti_eq|].
  unfold blk in *. destruct (bn <? NDIRECT) eqn:Ed; boolify.
  - change (addr bn ip) with (i_addrs ip !!! Z.to_nat bn). rewrite (proj2 (Z.eqb_neq _ NULL)) by done. apply wp_ret. split; [done|].
    exists (fs_dev f). split; [by destruct f|done].
  - cbv zeta. rewrite (proj2 (Z.ltb_lt _ _)) by (unfold MAXFILE in *; lia). change (addr IND_BLOCK ip) with (ind (i_addrs ip)).
    change NULL with 0. destruct (ind (i_addrs ip) =? 0) eqn:Ei; boolify; [done|].
    assert (own V (i_addrs ip) (ind (i_addrs ip))) as Ho by (split; [done|by left]).
    destruct (own_range _ _ _ Hok Ho) as (Hr & Hp & _). pose proof (g_size _ _ G). apply wp_bind, wp_ret. rewrite H3.
    eapply wp_bread; [exact H4|unfold FSSIZE in *; lia|by intros ?%elem_of_nil|done|]. intros bp d1 HS1.
    eapply wp_data; [exact HS1|apply list_elem_of_here|]. rewrite (proj2 (Z.eqb_neq _ _)) by done.
    eapply wp_relse; [exact HS1|]. intros d2 HS2. apply wp_ret. split; [done|]. by exists d2.
Qed.

Lemma ist_dev f i ip V X d : ist f i ip V X -> bst d V [] X -> ist (set_dev d f) i ip V X.
Proof. intros [H1 H2 H3 H4 H5] Hd. by split. Qed.

(** Every block the range of bytes meets exists. *)
Definition mapped V a (off n : Z) : Prop :=
  forall x, off <= x < off + n -> blk V a (x / Z.of_nat BSIZE) <> 0.

Definition bytes_at V a (off n : Z) : bytes := (fun k => fbyte V a (off + Z.of_nat k)) <$> seq 0 (Z.to_nat n).

Lemma bytes_at_app V a off m n : 0 <= m <= n -> bytes_at V a off n = bytes_at V a off m ++ bytes_at V a (off + m) (n - m).
Proof.
  intros H. unfold bytes_at. replace (Z.to_nat n) with (Z.to_nat m + Z.to_nat (n - m))%nat by lia. rewrite seq_app, fmap_app. f_equal.
  replace (0 + Z.to_nat m)%nat with (Z.to_nat m + 0)%nat by lia. rewrite <- fmap_add_seq, <- list_fmap_compose. apply list_fmap_ext. intros k x _. cbn. f_equal. lia.
Qed.

Lemma bytes_at_length V a off n : length (bytes_at V a off n) = Z.to_nat n.
Proof. unfold bytes_at. by rewrite length_fmap, length_seq. Qed.
Lemma bytes_at_Some V a off n (k : nat) : (k < Z.to_nat n)%nat -> bytes_at V a off n !! k = Some (fbyte V a (off + Z.of_nat k)).
Proof. intros Hk. unfold bytes_at. by rewrite list_lookup_fmap, lookup_seq_lt. Qed.
Lemma bytes_at_lookup V a off n k : 0 <= k < n -> bytes_at V a off n !!! Z.to_nat k = fbyte V a (off + k).
Proof.
  intros Hk. apply list_lookup_total_correct. rewrite bytes_at_Some by lia. by rewrite Z2Nat.id by lia.
Qed.

Notation B := (Z.of_nat BSIZE).

(** Positions inside one block. *)
Lemma in_block off k : 0 <= off -> 0 <= k -> k < B - off mod B -> (off + k) / B = off / B /\ (off + k) mod B = off mod B + k.
Proof.
  intros Ho Hk Hlt. pose proof (Z.div_mod off B ltac:(done)). pose proof (Z.mod_pos_bound off B ltac:(done)). change B with 512 in *.
  assert ((off + k) / 512 = off / 512) as E by (symmetry; apply (Z.div_unique_pos _ _ _ (off mod 512 + k)); lia). split; [done|].
  pose proof (Z.div_mod (off + k) 512 ltac:(done)). lia.
Qed.

Lemma slice_block V a off m : 0 <= off -> 0 <= m -> m <= B - off mod B -> is_block (V (blk V a (off / B))) -> blk V a (off / B) <> 0 ->
  slice (Z.to_nat (off mod B)) (Z.to_nat m) (V (blk V a (off / B))) = bytes_at V a off m.
Proof.
  intros Ho Hm Hlt [Hl _] H0. pose proof (Z.mod_pos_bound off B ltac:(done)). unfold slice, bytes_at. apply list_eq. intros k.
  rewrite list_lookup_fmap. destruct (decide (k < Z.to_nat m)%nat) as [Hk|Hk].
  - rewrite lookup_take_lt, lookup_drop, lookup_seq_lt by done. cbn [fmap option_fmap option_map]. unfold fbyte.
    destruct (in_block off (Z.of_nat k)) as [E1 E2]; try lia. cbn in *. rewrite E1, E2. unfold fdata.
    rewrite (proj2 (Z.eqb_neq _ _)) by done. unfold get8. replace (Z.to_nat (off mod B + Z.of_nat k)) with (Z.to_nat (off mod B) + k)%nat by lia.
    apply list_lookup_lookup_total_lt. rewrite Hl. lia.
  - rewrite lookup_take_ge by lia. rewrite lookup_seq_ge by lia. done.
Qed.

Lemma data_range b : ds <= b < sb_size sb -> 0 <= b < FSSIZE /\ io_home b.
Proof.
  intros Hb. pose proof (g_size _ _ G). pose proof (g_ino _ _ G). pose proof (g_bmap _ _ G).
  assert (0 <= (sb_size sb - 1) / BPB) by (apply Z.div_pos; unfold BPB; lia).
  assert (0 <= (sb_ninodes sb - 1) / IPB) by (apply Z.div_pos; unfold IPB; lia).
  split; [lia|]. apply (g_home _ _ G). lia.
Qed.

Lemma block_index off : 0 <= off < MAXFILE * B -> 0 <= off / B < MAXFILE.
Proof. intros H. split; [apply Z.div_pos; [lia|done]|apply Z.div_lt_upper_bound; [done|lia]]. Qed.

Lemma readi_loop_wp fuel f i ip V X off n tot acc :
  ist f i ip V X -> file_ok V (i_addrs ip) -> 0 <= tot <= n -> 0 <= off -> off + (n - tot) <= MAXFILE * B ->
  mapped V (i_addrs ip) off (n - tot) -> (length X < IO_BUFS)%nat -> n - tot < Z.of_nat fuel ->
  wp (readi_loop fuel i off n tot acc) (fun r f' => r = acc ++ bytes_at V (i_addrs ip) off (n - tot) /\
    exists d, f' = set_dev d f /\ bst d V [] X) f.
Proof.
  revert f off tot acc. induction fuel as [|fuel IH]; intros f off tot acc HI Hok Htot Hoff Hend Hmap Hlen Hfuel; [lia|].
  cbn [readi_loop]. destruct (tot <? n) eqn:E; boolify.
  2:{ apply wp_ret. replace (n - tot) with 0 by lia. unfold bytes_at. cbn. rewrite app_nil_r. split; [done|].
      exists (fs_dev f). split; [by destruct f|apply HI]. }
  apply wp_bind. eapply wp_eq; [by apply geti_eq, HI|]. apply wp_bind. pose proof (eq_refl : B = 512) as HB.
  assert (blk V (i_addrs ip) (off / B) <> 0) as H0 by (apply Hmap; lia).
  assert (0 <= off / B < MAXFILE) as Hbn by (apply (block_index off); lia).
  eapply wp_mono; [by apply (bmap_mapped_wp f i ip V X (off / B))|]. intros x f' [-> (d & -> & HS)].
  assert (own V (i_addrs ip) (blk V (i_addrs ip) (off / B))) as Ho by (by apply own_blk).
  destruct (own_range _ _ _ Hok Ho) as (Hr & _ & _). rewrite (is_dev _ _ _ _ _ HI).
  eapply wp_bread; [exact HS|by apply data_range|by intros ?%elem_of_nil|done|]. intros bp d1 HS1. cbv zeta.
  eapply wp_data; [exact HS1|apply list_elem_of_here|]. eapply wp_relse; [exact HS1|]. intros d2 HS2.
  set (m := Z.min (n - tot) (B - off mod B)). pose proof (Z.mod_pos_bound off B ltac:(done)).
  assert (0 < m <= n - tot) as Hm by lia.
  rewrite (slice_block V (i_addrs ip) off m) by (try done; try lia; by eapply bst_block).
  eapply wp_mono; [apply IH; try done; try lia; [by apply (ist_dev f)|intros y Hy; apply Hmap; lia]|].
  intros r f' [-> Hd]. split; [|done]. rewrite <- app_assoc, (bytes_at_app V _ off m (n - tot)) by lia.
  by replace (n - (tot + m)) with (n - tot - m) by lia.
Qed.

Context (dev_read : Z -> option (nat -> Z -> M (fs S) (Z * bytes))) (dev_write : Z -> option (nat -> bytes -> Z -> M (fs S) Z)).

(** A regular file or directory whose blocks up to its size all exist. *)
Record file_inode V (ip : inode) : Prop := {
  fi_ok : file_ok V (i_addrs ip);
  fi_type : i_type ip <> T_DEV;
  fi_size : 0 <= i_size ip <= MAXFILE * B;
  fi_mapped : mapped V (i_addrs ip) 0 (i_size ip)
}.

Lemma small_int n : 0 <= n <= MAXFILE * B -> s32 n = n /\ 0 <= n < 2 ^ 31.
Proof. intros H. change (MAXFILE * B) with 71680 in H. split; [apply s32_id|]; lia. Qed.

Lemma readi_wp f i ip V X off n :
  ist f i ip V X -> file_inode V ip -> 0 <= off -> 0 <= n -> off + n < 2 ^ 32 -> (length X < IO_BUFS)%nat ->
  let cnt := Z.min n (i_size ip - off) in
  wp (readi dev_read i off n) (fun r f' => exists d, f' = set_dev d f /\ bst d V [] X /\
    if i_size ip <? off then r = (-1, []) else r = (cnt, bytes_at V (i_addrs ip) off cnt)) f.
Proof.
  intros HI [Hok Hty Hsz Hmap] Hoff Hn Hov Hlen cnt. unfold readi. apply wp_bind. eapply wp_eq; [by apply geti_eq, HI|].
  rewrite (proj2 (Z.eqb_neq _ _)) by done. rewrite u32_id by lia. rewrite (proj2 (Z.ltb_ge (off + n) off)), orb_false_r by lia.
  destruct (i_size ip <? off) eqn:Es; boolify.
  { apply wp_ret. exists (fs_dev f). split; [by destruct f|]. split; [apply HI|done]. }
  cbv zeta. replace (if i_size ip <? off + n then i_size ip - off else n) with cnt by (case_cond; boolify; lia).
  assert (0 <= cnt /\ off + cnt <= i_size ip) as Hc by lia. clearbody cnt. destruct (small_int cnt ltac:(lia)) as [Es32 _].
  apply wp_bind. eapply wp_mono; [apply (readi_loop_wp _ f i ip V X off cnt 0 []); try done; try lia|].
  - intros x Hx. apply Hmap. lia.
  - intros r f' [-> (d & -> & HS)]. apply wp_ret. exists d. split; [done|]. split; [done|]. rewrite Es32.
    replace (cnt - 0) with cnt by lia. done.
Qed.

(** ** Writing *)

(** The file changes; blocks of others do not. *)
Record evolves V a V' a' : Prop := {
  ev_ok : file_ok V' a';
  ev_blk : forall bn, 0 <= bn < MAXFILE -> blk V a bn <> 0 -> blk V' a' bn = blk V a bn;
  ev_used : forall c, 0 <= c < sb_size sb -> used sb V c = true -> used sb V' c = true;
  ev_own : forall b, own V' a' b -> own V a b \/ used sb V b = false;
  ev_frame : forall b, 0 <= b < sb_size sb -> used sb V b = true -> ~ own V a b -> ~ bitmap_block b -> V' b = V b
}.

Lemma evolves_refl V a : file_ok V a -> evolves V a V a.
Proof. intros H. split; try done. by left. Qed.
Lemma grows_evolves V a V' a' : grows V a V' a' -> evolves V a V' a'.
Proof. intros [? ? ? ? ? ?]. by split. Qed.

Lemma evolves_trans V a V1 a1 V2 a2 : evolves V a V1 a1 -> evolves V1 a1 V2 a2 -> evolves V a V2 a2.
Proof.
  intros [A1 A2 A4 A5 A6] [B1 B2 B4 B5 B6]. split; [done|..].
  - intros bn Hbn H0. rewrite B2, A2; try done. by rewrite A2.
  - auto.
  - intros b Hb. destruct (B5 b Hb) as [Ho|Hu]; [by apply A5|]. right.
    destruct (used sb V b) eqn:E; [|done]. destruct (own_range _ _ _ B1 Hb) as (Hr & _). rewrite A4 in Hu; [done| |done].
    pose proof ds_nonneg. lia.
  - intros b Hr Hu Ho Hb. rewrite B6; [by apply A6|done|by apply A4| |done].
    intros Ho1. destruct (A5 b Ho1) as [?|Hu']; [done|congruence].
Qed.

Lemma reserved_evolves V a V' a' : evolves V a V' a' -> reserved V -> reserved V'.
Proof. intros Hg Hr c Hc. apply (ev_used _ _ _ _ Hg); [|by apply Hr]. pose proof (g_size _ _ G). lia. Qed.

Section Write.
Context {V : Z -> bytes} {a : list Z} {bn : Z} {v : bytes}.
Context (Hok : file_ok V a) (Hbn : 0 <= bn < MAXFILE) (H0 : blk V a bn <> 0).
Notation V' := (zupd V (blk V a bn) v).

Lemma write_blk bn' : blk V' a bn' = blk V a bn'.
Proof.
  unfold blk at 1 3. destruct (bn' <? NDIRECT); [done|]. destruct (ind a =? 0) eqn:E; [done|].
  rewrite zupd_ne; [done|]. intros Ei. by apply (fo_ind _ _ Hok bn Hbn H0).
Qed.

Lemma write_fdata bn' : 0 <= bn' < MAXFILE -> fdata V' a bn' = if decide (bn' = bn) then v else fdata V a bn'.
Proof.
  intros Hbn'. unfold fdata. rewrite write_blk. case_decide as E.
  - subst bn'. rewrite (proj2 (Z.eqb_neq _ _)) by done. apply zupd_eq.
  - destruct (blk V a bn' =? 0) eqn:E0; [done|]. boolify. rewrite zupd_ne; [done|].
    intros Eb. apply E. by apply (fo_inj _ _ Hok).
Qed.

Lemma write_own b : own V' a b <-> own V a b.
Proof. unfold own. by setoid_rewrite write_blk. Qed.

Lemma write_used c : 0 <= c < sb_size sb -> used sb V' c = used sb V c.
Proof.
  intros Hc. apply (used_data G); [|done]. apply (own_range V a); [done|]. by apply own_blk.
Qed.

Lemma write_evolves : evolves V a V' a.
Proof.
  destruct Hok as [K1 K2 K3 K4]. split.
  - split; [done|..].
    + intros b Hb. apply write_own in Hb. destruct (K2 b Hb) as [Hr Hu]. split; [done|]. pose proof ds_nonneg. by rewrite write_used by lia.
    + intros k. rewrite write_blk. apply K3.
    + intros k k'. rewrite !write_blk. apply K4.
  - intros k _ _. apply write_blk.
  - intros c Hc Hu. by rewrite write_used.
  - intros b Hb. left. by apply write_own.
  - intros b _ _ Hn _. apply zupd_ne. intros ->. by apply Hn, own_blk.
Qed.
End Write.

Lemma fbyte_grows V a V' a' x : grows V a V' a' -> 0 <= x < MAXFILE * B -> fbyte V' a' x = fbyte V a x.
Proof. intros Hg Hx. unfold fbyte. by rewrite (gr_data _ _ _ _ Hg) by (by apply block_index). Qed.

(** The bytes after overwriting part of a block. *)
Lemma write_fbyte V a off m (s : bytes) x :
  file_ok V a -> 0 <= off < MAXFILE * B -> blk V a (off / B) <> 0 -> is_block (V (blk V a (off / B))) ->
  Z.of_nat (length s) = m -> m <= B - off mod B -> 0 <= x < MAXFILE * B ->
  fbyte (zupd V (blk V a (off / B)) (splice (Z.to_nat (off mod B)) s (V (blk V a (off / B))))) a x =
  if decide (off <= x < off + m) then s !!! Z.to_nat (x - off) else fbyte V a x.
Proof.
  intros Hok Ho H0 [Hl _] Hs Hm Hx. pose proof (eq_refl : B = 512) as HB. pose proof (Z.mod_pos_bound off B ltac:(lia)) as Hmo.
  pose proof (Z.mod_pos_bound x B ltac:(lia)) as Hmx.
  pose proof (Z.div_mod off B ltac:(lia)) as Hdo. pose proof (Z.div_mod x B ltac:(lia)) as Hdx.
  unfold fbyte. rewrite write_fdata by (try done; by apply block_index). destruct (decide (x / B = off / B)) as [Eb|Eb].
  - rewrite get8_splice by (rewrite Hl; lia). rewrite Eb in *. unfold fdata. rewrite (proj2 (Z.eqb_neq _ _)) by done.
    destruct (decide (off <= x < off + m)); destruct (decide (Z.to_nat (off mod B) <= Z.to_nat (x mod B) < Z.to_nat (off mod B) + length s)%nat); try lia; first [done|f_equal; lia].
  - rewrite decide_False; [done|]. intros Hr. apply Eb. destruct (in_block off (x - off)) as [E _]; try lia.
Qed.

(** The number of blocks that [n] bytes from [off] on meet. *)
Definition nblk (off n : Z) : nat := if n <=? 0 then 0%nat else Z.to_nat ((off + n - 1) / B - off / B + 1).

Lemma nblk_step off n : 0 <= off -> 0 < n ->
  let m := Z.min n (B - off mod B) in (nblk off n = Datatypes.S (nblk (off + m) (n - m)))%nat.
Proof.
  intros Ho Hn m. pose proof (eq_refl : B = 512) as HB. pose proof (Z.mod_pos_bound off B ltac:(lia)) as Hmo.
  pose proof (Z.div_mod off B ltac:(lia)) as Hdo. unfold nblk. rewrite (proj2 (Z.leb_gt n 0)) by lia.
  destruct (n - m <=? 0) eqn:E; boolify.
  - destruct (in_block off (n - 1)) as [E1 _]; try lia. replace (off + (n - 1)) with (off + n - 1) in E1 by lia. lia.
  - assert (m = B - off mod B) as Em by lia. assert ((off + m) / B = off / B + 1) as E1.
    { symmetry. apply (Z.div_unique_pos _ _ _ 0); lia. }
    rewrite E1. replace (off + m + (n - m) - 1) with (off + n - 1) by lia.
    assert (off / B + 1 <= (off + n - 1) / B) by (rewrite <- E1; apply Z.div_le_mono; lia). lia.
Qed.

Lemma slice_lookup (s : bytes) o n k : (o + n <= length s)%nat -> (k < n)%nat -> slice o n s !!! k = s !!! (o + k)%nat.
Proof.
  intros Hl Hk. unfold slice. rewrite !list_lookup_total_alt. by rewrite lookup_take_lt, lookup_drop.
Qed.
Lemma slice_length (s : bytes) o n : (o + n <= length s)%nat -> length (slice o n s) = n.
Proof. intros. unfold slice. rewrite length_take, length_drop. lia. Qed.
Lemma splice_block o s v : (o + length s <= BSIZE)%nat -> is_block v -> Forall (fun x => 0 <= x < 2 ^ 8) s -> is_block (splice o s v).
Proof.
  intros Hl [Hv Hf] Hs. split; [rewrite length_splice; lia|]. unfold splice. apply list.Forall_app. split; [by apply Forall_take|].
  apply list.Forall_app. split; [done|by apply Forall_drop].
Qed.

(** What writing [n] bytes of [src], from [tot] on, at [off] leaves. *)
Record wrote V a V' a' (src : bytes) (off n tot : Z) : Prop := {
  wr_ev : evolves V a V' a';
  wr_bytes : forall x, 0 <= x < MAXFILE * B ->
    fbyte V' a' x = if decide (off <= x < off + n) then src !!! Z.to_nat (tot + (x - off)) else fbyte V a x;
  wr_mapped : mapped V' a' off n;
  wr_addrs : mapped V a off n -> a' = a;
  wr_free : (nfree V <= nfree V' + 2 * nblk off n)%nat
}.

Lemma mapped_evolves V a V' a' off n : evolves V a V' a' -> 0 <= off -> off + n <= MAXFILE * B -> mapped V a off n -> mapped V' a' off n.
Proof. intros He Ho Hn Hm x Hx. rewrite (ev_blk _ _ _ _ He); [by apply Hm|apply block_index; lia|by apply Hm]. Qed.

Lemma writei_loop_wp fuel f i ip V X src off n tot :
  ist f i ip V X -> file_ok V (i_addrs ip) -> 0 <= tot <= n -> 0 <= off -> off + (n - tot) <= MAXFILE * B ->
  n <= Z.of_nat (length src) -> Forall (fun x => 0 <= x < 2 ^ 8) src ->
  (2 * nblk off (n - tot) <= nfree V)%nat -> (length X + 6 * nblk off (n - tot) < io_cap)%nat -> (io_cap <= IO_BUFS)%nat ->
  n - tot < Z.of_nat fuel ->
  wp (writei_loop fuel i src off n tot) (fun r f' => r = off + (n - tot) /\
    exists d a' V' X', f' = upd f d i (with_addrs a' ip) /\ bst d V' [] X' /\ (length X' <= length X + 6 * nblk off (n - tot))%nat /\
      wrote V (i_addrs ip) V' a' src off (n - tot) tot) f.
Proof.
  revert f ip V X off tot. induction fuel as [|fuel IH]; intros f ip V X off tot HI Hok Htot Hoff Hend Hsrc Hby Hfree Hcap Hio Hfuel; [lia|].
  cbn [writei_loop]. pose proof (eq_refl : B = 512) as HB. destruct (tot <? n) eqn:E; boolify.
  2:{ apply wp_ret. replace (n - tot) with 0 by lia. split; [lia|]. exists (fs_dev f), (i_addrs ip), V, X.
      rewrite with_addrs_self, upd_self by apply HI. split; [by destruct f|]. split; [apply HI|]. split; [lia|].
      split; [by apply evolves_refl| |intros x Hx; lia|done|lia]. intros x Hx. by rewrite decide_False by lia. }
  pose proof (nblk_step off (n - tot) Hoff ltac:(lia)) as Hnb. cbv zeta in Hnb.
  set (m := Z.min (n - tot) (B - off mod B)) in *. pose proof (Z.mod_pos_bound off B ltac:(lia)) as Hmo.
  assert (0 < m <= n - tot) as Hm by lia. assert (0 <= off / B < MAXFILE) as Hbn by (apply block_index; lia).
  apply wp_bind. eapply wp_eq; [by apply geti_eq, HI|]. apply wp_bind.
  eapply wp_mono; [apply (bmap_wp f i ip V X (off / B)); try done; lia|].
  intros b f' (d & a1 & V1 & X1 & -> & HS1 & HX1 & Hg & Eb & Hb0 & Hnf & Hsame). rewrite (is_dev _ _ _ _ _ HI). subst b.
  assert (own V1 a1 (blk V1 a1 (off / B))) as Ho by (by apply own_blk). pose proof (gr_ok _ _ _ _ Hg) as Hok1.
  destruct (own_range _ _ _ Hok1 Ho) as (Hr & _ & _). destruct (data_range _ Hr) as [Hfs Hhome].
  eapply wp_bread; [exact HS1|done|by intros ?%elem_of_nil|cbn; lia|]. intros bp d1 HS2. fold m.
  eapply wp_data; [exact HS2|apply list_elem_of_here|]. set (s := slice (Z.to_nat tot) (Z.to_nat m) src).
  assert (length s = Z.to_nat m) as Hls by (apply slice_length; lia).
  assert (is_block (V1 (blk V1 a1 (off / B)))) as Hblk by (by eapply bst_block).
  eapply wp_bstore; [exact HS2|apply list_elem_of_here| |done|lia|reflexivity|].
  { apply splice_block; [rewrite Hls; lia|done|]. unfold s, slice. by apply Forall_take, Forall_drop. }
  intros d2 HS3. eapply wp_relse; [exact HS3|]. intros d3 HS4.
  set (V2 := zupd V1 _ _) in *. pose proof (write_evolves (v := splice (Z.to_nat (off mod B)) s (V1 (blk V1 a1 (off / B)))) Hok1 Hbn Hb0) as Hev.
  fold V2 in Hev. set (f3 := set_dev d3 _). assert (f3 = upd f d3 i (with_addrs a1 ip)) as Ef3 by done.
  assert (ist f3 i (with_addrs a1 ip) V2 (blk V1 a1 (off / B) :: X1)) as HI3.
  { rewrite Ef3. apply (ist_upd f i ip V X); try done; [apply HI|]. eapply reserved_evolves; [exact Hev|]. eapply reserved_grows; [exact Hg|apply HI]. }
  assert (nfree V2 = nfree V1) as Hnf2. { apply nfree_ext. intros c Hc. by apply write_used. }
  replace (n - tot - m) with (n - (tot + m)) in Hnb by lia.
  eapply wp_mono; [apply (IH f3 (with_addrs a1 ip) V2 _ (off + m) (tot + m) HI3); try done; try (cbn; lia); apply (ev_ok _ _ _ _ Hev)|].
  intros r f' [-> (d' & a' & V' & X' & -> & HS' & HX' & [Wev Wby Wmap Wad Wfr])]. split; [lia|]. cbn [i_addrs with_addrs] in *.
  exists d', a', V', X'. split; [by rewrite Ef3, upd_upd|]. split; [done|]. split; [cbn in *; lia|].
  split.
  - eapply evolves_trans; [apply grows_evolves, Hg|]. by eapply evolves_trans.
  - intros x Hx. rewrite Wby by done. replace (off + m + (n - (tot + m))) with (off + (n - tot)) by lia.
    destruct (decide (off + m <= x < off + (n - tot))) as [D|D].
    + rewrite decide_True by lia. f_equal. lia.
    + unfold V2. rewrite (write_fbyte V1 a1 off m s x) by (try done; lia). destruct (decide (off <= x < off + m)).
      * rewrite decide_True by lia. unfold s. rewrite slice_lookup by lia. f_equal. lia.
      * rewrite decide_False by lia. by apply fbyte_grows.
  - intros x Hx. destruct (decide (x < off + m)) as [D|D]; [|apply Wmap; lia].
    rewrite (ev_blk _ _ _ _ Wev); [| |].
    + destruct (in_block off (x - off)) as [E1 _]; try lia. replace (off + (x - off)) with x in E1 by lia. rewrite E1.
      unfold V2. by rewrite write_blk.
    + apply block_index. lia.
    + destruct (in_block off (x - off)) as [E1 _]; try lia. replace (off + (x - off)) with x in E1 by lia. rewrite E1.
      unfold V2. by rewrite write_blk.
  - intros Hmap. destruct Hsame as (-> & -> & ->); [apply Hmap; lia|]. apply Wad. intros x Hx. unfold V2. rewrite write_blk by done. apply Hmap. lia.
  - lia.
Qed.

(** ** The inode on disk *)

Definition iblk (inum : Z) : Z := sb_inodestart sb + inum / IPB.
Definition ioff (inum : Z) : nat := Z.to_nat (inum mod IPB * DSIZE).
Definition put_inode V (inum : Z) (dn : dinode) : Z -> bytes := zupd V (iblk inum) (put_dinode (ioff inum) dn (V (iblk inum))).
Definition disk_inode V (inum : Z) : dinode := get_dinode (V (iblk inum)) (ioff inum).

Lemma iblk_range inum : 0 <= inum < sb_ninodes sb ->
  IBLOCK inum sb = iblk inum /\ 0 <= iblk inum < sb_bmapstart sb /\ 0 <= iblk inum < FSSIZE /\ io_home (iblk inum).
Proof.
  intros Hi. pose proof (g_size _ _ G). pose proof (g_ino _ _ G) as (Hi1 & Hi2 & Hi3). pose proof (g_bmap _ _ G).
  assert (0 <= (sb_size sb - 1) / BPB) by (apply Z.div_pos; unfold BPB; lia).
  assert (0 <= inum / IPB <= (sb_ninodes sb - 1) / IPB) by (split; [apply Z.div_pos|apply Z.div_le_mono]; unfold IPB; lia).
  unfold iblk, FSSIZE in *. split; [|split; [lia|split; [lia|apply (g_home _ _ G); lia]]].
  unfold IBLOCK. rewrite Z.add_comm. apply u32_id. lia.
Qed.

Lemma put_addrs_block o l k v : is_block v -> is_block (put_addrs o k l v).
Proof. revert k v. induction l as [|y l IH]; intros k v Hv; [done|]. cbn [put_addrs]. by apply IH, put32_block. Qed.
Lemma put_dinode_block o dn v : is_block v -> is_block (put_dinode o dn v).
Proof. intros. unfold put_dinode. by apply put_addrs_block, put32_block; do 4 apply put16_block. Qed.

Lemma iupdate_wp f i ip V X :
  ist f i ip V X -> 0 <= i_inum ip < sb_ninodes sb -> (length X < IO_BUFS)%nat -> (length X < io_cap)%nat ->
  wp (iupdate i) (fun _ f' => exists d, f' = set_dev d f /\
    bst d (put_inode V (i_inum ip) (dinode_of ip)) [] (iblk (i_inum ip) :: X)) f.
Proof.
  intros HI Hn Hlen Hcap. pose proof HI as [H1 H2 H3 H4 H5]. destruct (iblk_range _ Hn) as (Eb & Hr & Hf & Hh).
  unfold iupdate. apply wp_bind. eapply wp_eq; [by apply geti_eq|]. apply wp_bind, wp_gets. rewrite H1, H3, Eb.
  eapply wp_bread; [exact H4|done|by intros ?%elem_of_nil|done|]. intros bp d1 HS1.
  eapply wp_data; [exact HS1|apply list_elem_of_here|].
  eapply wp_bstore; [exact HS1|apply list_elem_of_here|apply put_dinode_block; by eapply bst_block|done|done|reflexivity|].
  intros d2 HS2. apply wp_tail. eapply wp_relse; [exact HS2|]. intros d3 HS3. apply wp_ret. by exists d3.
Qed.

(** Writing an inode block changes no file. *)
Section Meta.
Context {V : Z -> bytes} {b : Z} {v : bytes}.
Context (Hb : b < sb_bmapstart sb).

Lemma below_ds c : 0 <= c < sb_size sb -> b < bmblock sb c.
Proof. intros Hc. destruct (bmblock_range G c Hc) as (_ & ? & _). lia. Qed.

Lemma meta_used c : 0 <= c < sb_size sb -> used sb (zupd V b v) c = used sb V c.
Proof. intros Hc. unfold used. rewrite zupd_ne; [done|]. pose proof (below_ds c Hc). lia. Qed.

Lemma meta_lt : b < ds.
Proof.
  pose proof (g_bmap _ _ G). pose proof (g_size _ _ G). assert (0 <= (sb_size sb - 1) / BPB) by (apply Z.div_pos; unfold BPB; lia). lia.
Qed.

Lemma meta_blk a bn : file_ok V a -> blk (zupd V b v) a bn = blk V a bn.
Proof.
  intros Hok. unfold blk. destruct (bn <? NDIRECT); [done|]. destruct (ind a =? 0) eqn:E; [done|]. boolify.
  rewrite zupd_ne; [done|]. pose proof meta_lt. destruct (fo_own _ _ Hok (ind a)) as [? _]; [split; [done|by left]|]. lia.
Qed.

Lemma meta_own a c : file_ok V a -> own (zupd V b v) a c <-> own V a c.
Proof. intros Hok. unfold own. split; intros [H [?|(bn & Hbn & E)]]; (split; [done|]); auto; right; exists bn; by rewrite meta_blk in *. Qed.

Lemma meta_fdata a bn : file_ok V a -> 0 <= bn < MAXFILE -> fdata (zupd V b v) a bn = fdata V a bn.
Proof.
  intros Hok Hbn. unfold fdata. rewrite meta_blk by done. destruct (blk V a bn =? 0) eqn:E; [done|]. boolify.
  rewrite zupd_ne; [done|]. pose proof meta_lt. destruct (fo_own _ _ Hok (blk V a bn)) as [? _]; [by apply own_blk|]. lia.
Qed.

Lemma meta_fbyte a x : file_ok V a -> 0 <= x < MAXFILE * B -> fbyte (zupd V b v) a x = fbyte V a x.
Proof. intros Hok Hx. unfold fbyte. by rewrite meta_fdata by (try done; by apply block_index). Qed.

Lemma meta_ok a : file_ok V a -> file_ok (zupd V b v) a.
Proof.
  intros Hok. pose proof Hok as [K1 K2 K3 K4]. split; [done|..].
  - intros c Hc. apply (meta_own _ _ Hok) in Hc. destruct (K2 c Hc) as [Hr Hu]. split; [done|]. pose proof ds_nonneg. by rewrite meta_used by lia.
  - intros bn. rewrite meta_blk by done. apply K3.
  - intros bn bn'. rewrite !meta_blk by done. apply K4.
Qed.

Lemma meta_mapped a off n : file_ok V a -> mapped V a off n -> mapped (zupd V b v) a off n.
Proof. intros Hok Hm x Hx. rewrite meta_blk by done. by apply Hm. Qed.

Lemma meta_reserved : reserved V -> reserved (zupd V b v).
Proof. intros Hr c Hc. rewrite meta_used; [by apply Hr|]. pose proof (g_size _ _ G). lia. Qed.
End Meta.

Lemma ioff_range inum : (ioff inum + 64 <= BSIZE)%nat.
Proof. unfold ioff, IPB, DSIZE, BSIZE. pose proof (Z.mod_pos_bound inum 8). lia. Qed.

Lemma disk_inode_put V inum dn : is_block (V (iblk inum)) -> dinode_ok dn -> disk_inode (put_inode V inum dn) inum = dn.
Proof.
  intros [Hl _] Hd. unfold disk_inode, put_inode. rewrite zupd_eq. apply get_put_dinode; [done|]. rewrite Hl. apply ioff_range.
Qed.

(** Two distinct inodes share no byte on disk. *)
Lemma disk_inode_other V n m dn : 0 <= n -> 0 <= m -> n <> m -> disk_inode (put_inode V n dn) m = disk_inode V m.
Proof.
  intros Hn Hm Hne. unfold disk_inode, put_inode. destruct (decide (iblk m = iblk n)) as [E|E]; [|by rewrite zupd_ne].
  rewrite E, zupd_eq. apply get_put_dinode_other. unfold iblk, ioff, IPB, DSIZE in *.
  pose proof (Z.div_mod n 8 ltac:(done)). pose proof (Z.div_mod m 8 ltac:(done)).
  pose proof (Z.mod_pos_bound n 8 ltac:(done)). pose proof (Z.mod_pos_bound m 8 ltac:(done)). lia.
Qed.

(** The blocks of inodes are neither data nor bitmap. *)
Lemma iblk_meta V a m : reserved V -> file_ok V a -> 0 <= m < sb_ninodes sb ->
  0 <= iblk m < sb_size sb /\ used sb V (iblk m) = true /\ ~ own V a (iblk m) /\ ~ bitmap_block (iblk m).
Proof.
  intros Hres Hok Hm. destruct (iblk_range m Hm) as (_ & Hr & _). pose proof (g_size _ _ G) as Hs.
  assert (iblk m < ds) as Hd by (pose proof (g_bmap _ _ G); assert (0 <= (sb_size sb - 1) / BPB) by (apply Z.div_pos; unfold BPB; lia); lia).
  split; [lia|]. split; [apply Hres; lia|]. split; [intros Ho; destruct (own_range _ _ _ Hok Ho); lia|].
  intros (c & Hc & E). destruct (bmblock_range G c Hc) as (_ & ? & _). lia.
Qed.

(** Addresses of a well-formed file are block numbers. *)
Lemma file_addrs V a : file_ok V a -> Forall (fun z => 0 <= z < 2 ^ 32) a.
Proof.
  intros Hok. apply list.Forall_forall. intros z Hz. apply list_elem_of_lookup in Hz as [k Hk]. pose proof (lookup_lt_Some _ _ _ Hk) as Hlt.
  rewrite (fo_len _ _ Hok) in Hlt. destruct (decide (z = 0)) as [->|Hz0]; [lia|].
  assert (own V a z) as Ho.
  { split; [done|]. destruct (decide (k = 12%nat)) as [->|Hk12].
    - left. unfold ind, IND_BLOCK, NDIRECT. by rewrite (list_lookup_total_correct _ _ _ Hk).
    - right. exists (Z.of_nat k). split; [unfold MAXFILE, NDIRECT, NINDIRECT; lia|]. unfold blk, NDIRECT.
      rewrite (proj2 (Z.ltb_lt _ _)) by lia. by rewrite Nat2Z.id, (list_lookup_total_correct _ _ _ Hk). }
  destruct (own_range _ _ _ Hok Ho) as (Hr & Hp & _). pose proof (g_size _ _ G). unfold FSSIZE in *. lia.
Qed.

(** The outcome of a write: new inode [ip'], new contents [V']. *)
Record written V ip V' ip' (src : bytes) (off n : Z) : Prop := {
  wt_inode : file_inode V' ip' /\ i_size ip' = Z.max (i_size ip) (off + n);
  wt_bytes : forall x, 0 <= x < MAXFILE * B ->
    fbyte V' (i_addrs ip') x = if decide (off <= x < off + n) then src !!! Z.to_nat (x - off) else fbyte V (i_addrs ip) x;
  wt_disk : i_size ip < off + n -> disk_inode V' (i_inum ip) = dinode_of ip';
  wt_frame : forall b, 0 <= b < sb_size sb -> used sb V b = true -> ~ own V (i_addrs ip) b -> ~ bitmap_block b ->
    b <> iblk (i_inum ip) -> V' b = V b;
  wt_reserved : reserved V';
  wt_used : forall c, 0 <= c < sb_size sb -> used sb V c = true -> used sb V' c = true;
  wt_own : forall b, own V' (i_addrs ip') b -> own V (i_addrs ip) b \/ used sb V b = false;
  wt_addrs : off + n <= i_size ip -> i_addrs ip' = i_addrs ip;
  wt_inodes : forall m, 0 <= m < sb_ninodes sb -> (i_size ip < off + n -> m <> i_inum ip) -> disk_inode V' m = disk_inode V m;
  wt_free : (nfree V <= nfree V' + 2 * nblk off n)%nat
}.

Definition resized (a : list Z) (sz : Z) (ip : inode) : inode := set_i_size sz (with_addrs a ip).

Lemma written_same V ip V' a' src off n :
  file_inode V ip -> reserved V -> 0 <= off -> off + n <= i_size ip -> off <= i_size ip -> 0 <= n -> wrote V (i_addrs ip) V' a' src off n 0 ->
  written V ip V' (resized a' (i_size ip) ip) src off n.
Proof.
  intros [H1 H2 H3 H4] Hres Ho Hle Hos Hn [W1 W2 W3 W4 W5]. split; cbn.
  - split; [|lia]. split; cbn; [apply W1|done|done|]. apply (mapped_evolves _ _ _ _ _ _ W1); [lia|lia|done].
  - exact W2.
  - lia.
  - intros b Hb Hu Hn1 Hb1 _. by apply (ev_frame _ _ _ _ W1).
  - by eapply reserved_evolves.
  - apply W1.
  - apply W1.
  - intros _. apply W4. intros x Hx. apply H4. lia.
  - intros m Hm _. unfold disk_inode. destruct (iblk_meta V _ m Hres H1 Hm) as (? & ? & ? & ?). by rewrite (ev_frame _ _ _ _ W1).
  - done.
Qed.

Lemma written_grown V ip V' a' src off n :
  file_inode V ip -> reserved V -> 0 <= off <= i_size ip -> i_size ip < off + n -> off + n <= MAXFILE * B ->
  0 <= i_inum ip < sb_ninodes sb -> (forall b, is_block (V' b)) -> dinode_ok (dinode_of ip) ->
  wrote V (i_addrs ip) V' a' src off n 0 ->
  let ip' := resized a' (off + n) ip in
  written V ip (put_inode V' (i_inum ip) (dinode_of ip')) ip' src off n.
Proof.
  intros [H1 H2 H3 H4] Hres Ho Hlt Hmax Hin Hblk [D1 D2 D3 D4] [W1 W2 W3 W4 W5] ip'. cbn in *. destruct (iblk_range _ Hin) as (_ & Hib & _).
  pose proof (ev_ok _ _ _ _ W1) as Hok. split; cbn.
  - split; [|lia]. split; cbn; [apply meta_ok; [lia|done]|done|lia|]. apply meta_mapped; [lia|done|]. intros x Hx.
    destruct (decide (x < i_size ip)); [|apply W3; lia].
    apply (mapped_evolves _ _ _ _ 0 (i_size ip) W1); [lia|lia|done|lia].
  - intros x Hx. unfold put_inode. rewrite meta_fbyte by (try done; lia). by apply W2.
  - intros _. apply disk_inode_put; [apply Hblk|]. split; cbn; [done|change (MAXFILE * B) with 71680 in Hmax; lia|apply Hok|by apply (file_addrs V')].
  - intros b Hb Hu Hn1 Hb1 Hbi. unfold put_inode. rewrite zupd_ne by done. by apply (ev_frame _ _ _ _ W1).
  - apply meta_reserved; [lia|]. by eapply reserved_evolves.
  - intros c Hc Hu. unfold put_inode. rewrite meta_used by (done || lia). by apply (ev_used _ _ _ _ W1).
  - intros b Hb. apply (ev_own _ _ _ _ W1). exact (proj1 (meta_own (proj2 Hib) a' b Hok) Hb).
  - lia.
  - intros m Hm Hne. rewrite disk_inode_other by (try lia; apply not_eq_sym; auto). unfold disk_inode.
    destruct (iblk_meta V _ m Hres H1 Hm) as (? & ? & ? & ?). by rewrite (ev_frame _ _ _ _ W1).
  - rewrite (nfree_ext V' (put_inode V' _ _)); [done|]. intros c Hc. unfold put_inode. apply meta_used; [lia|done].
Qed.

Lemma writei_wp f i ip V X src off n :
  ist f i ip V X -> file_inode V ip -> 0 <= i_inum ip < sb_ninodes sb -> dinode_ok (dinode_of ip) ->
  0 <= off <= i_size ip -> 0 <= n -> off + n <= MAXFILE * B ->
  n <= Z.of_nat (length src) -> Forall (fun x => 0 <= x < 2 ^ 8) src ->
  (2 * nblk off n <= nfree V)%nat -> (length X + 6 * nblk off n < io_cap)%nat -> (io_cap <= IO_BUFS)%nat ->
  wp (writei dev_write i src off n) (fun r f' => r = n /\ exists d ip' V' X', f' = upd f d i ip' /\ bst d V' [] X' /\
    (length X' <= length X + 6 * nblk off n + 1)%nat /\ written V ip V' ip' src off n /\
    exists a', ip' = resized a' (Z.max (i_size ip) (off + n)) ip) f.
Proof.
  intros HI Hfi Hin Hd Hoff Hn Hmax Hsrc Hby Hfree Hcap Hio. pose proof Hfi as [F1 F2 F3 F4]. pose proof (eq_refl : MAXFILE * B = 71680) as HM.
  unfold writei. apply wp_bind. eapply wp_eq; [by apply geti_eq, HI|]. rewrite (proj2 (Z.eqb_neq _ _)) by done.
  rewrite u32_id by lia. rewrite (proj2 (Z.ltb_ge (i_size ip) off)), (proj2 (Z.ltb_ge (off + n) off)) by lia. cbn [orb].
  rewrite (proj2 (Z.ltb_ge _ (off + n))) by lia. rewrite (proj2 (Z.ltb_ge _ n)) by lia.
  apply wp_bind. eapply wp_mono; [apply (writei_loop_wp _ f i ip V X src off n 0); try done; rewrite ?Z.sub_0_r; try lia; done|].
  rewrite Z.sub_0_r. intros r f' [-> (d & a' & V' & X' & -> & HS & HX & HW)].
  assert (fs_inodes (upd f d i (with_addrs a' ip)) !! i = Some (with_addrs a' ip)) as Hi1.
  { cbn. apply list_lookup_insert_eq. eapply lookup_lt_Some, HI. }
  apply wp_bind. eapply wp_eq; [by apply geti_eq|]. cbn [i_size with_addrs]. rewrite (proj1 (small_int n ltac:(lia))).
  assert (forall b, is_block (V' b)) as Hblk by (intros; by eapply bst_block).
  destruct ((0 <? n) && (i_size ip <? off + n)) eqn:E; boolify.
  - apply wp_bind. apply wp_bind. eapply wp_eq; [by apply puti_eq|]. cbn [fs_dev upd set_inodes set_dev]. rewrite upd_upd.
    set (ip' := set_i_size (off + n) (with_addrs a' ip)).
    assert (ist (upd f d i ip') i ip' V' X') as HI2.
    { apply (ist_upd f i ip V X); try done; [apply HI|]. eapply reserved_evolves; [apply HW|apply HI]. }
    eapply wp_mono; [apply (iupdate_wp _ i ip' V' X' HI2); [done|lia|lia]|]. intros [] f' (d2 & -> & HS2). apply wp_ret. split; [done|].
    exists d2, ip', (put_inode V' (i_inum ip') (dinode_of ip')), (iblk (i_inum ip) :: X'). split; [done|]. split; [exact HS2|]. split; [cbn; lia|].
    split; [apply (written_grown V ip V' a'); try done; apply HI|]. exists a'. by rewrite Z.max_r by lia.
  - assert (off + n <= i_size ip) as Hle by (destruct E as [E|E]; boolify; lia). apply wp_bind, wp_ret, wp_ret. split; [done|].
    exists d, (resized a' (i_size ip) ip), V', X'. split; [done|]. split; [done|]. split; [lia|].
    split; [apply written_same; try done; [apply HI|lia..]|]. exists a'. by rewrite Z.max_l by lia.
Qed.
End File.

Notation B := (Z.of_nat BSIZE).

(** ** Properties *)

Section Claims.
Context {S : Type} {HIO : BlockIO S} {HL : BlockLaws S}.
Context (dev_read : Z -> option (nat -> Z -> M (fs S) (Z * bytes))) (dev_write : Z -> option (nat -> bytes -> Z -> M (fs S) Z)).

(** The round trip of an inode through its disk block: encoding an
    in-memory inode ([iupdate]) and decoding it ([ilock]) gives it back, and
    the other inodes of the block are not touched. *)
Theorem dinode_roundtrip o d v :
  dinode_ok d -> (o + 64 <= length v)%nat ->
  get_dinode (put_dinode o d v) o = d /\
  forall o', (o' + 64 <= o \/ o + 64 <= o')%nat -> get_dinode (put_dinode o d v) o' = get_dinode v o'.
Proof. intros Hd Hl. split; [by apply get_put_dinode|]. intros o' Ho. by apply get_put_dinode_other. Qed.

(** C37: writing to a file.  A write of [n] bytes inside or at the end of
    the file stores exactly those bytes at [off], allocating blocks as
    needed; the rest of the file, and every block that belongs to anything
    else, keeps its contents; the size grows to cover the write, and then the
    inode on disk is the one in memory.  A write that starts past the end or
    exceeds the maximal file size returns -1 and changes nothing. *)
Theorem writei_correct sb ds f i ip V X src off n :
  geom sb ds -> ist (sb := sb) (ds := ds) f i ip V X -> file_inode (sb := sb) (ds := ds) V ip -> 0 <= i_inum ip < sb_ninodes sb ->
  dinode_ok (dinode_of ip) -> 0 <= off < 2 ^ 32 -> 0 <= n < 2 ^ 31 -> n <= Z.of_nat (length src) -> Forall (fun x => 0 <= x < 2 ^ 8) src ->
  (2 * nblk off n <= nfree (sb := sb) V)%nat -> (length X + 6 * nblk off n < io_cap)%nat -> (io_cap <= IO_BUFS)%nat ->
  if decide (off <= i_size ip /\ off + n <= MAXFILE * B) then
    wp (writei dev_write i src off n) (fun r f' => r = n /\ exists d ip' V' X', f' = upd f d i ip' /\ bst d V' [] X' /\
      written (sb := sb) (ds := ds) V ip V' ip' src off n) f
  else writei dev_write i src off n f = Ok (-1) f.
Proof.
  intros G HI Hfi Hin Hd Hoff Hn Hsrc Hby Hfree Hcap Hio. case_decide as Hr.
  - eapply wp_mono; [apply (writei_wp G dev_write f i ip V X src off n); try done; lia|].
    intros r f' [-> (d & ip' & V' & X' & H1 & H2 & _ & H3 & _)]. split; [done|]. by exists d, ip', V', X'.
  - destruct Hfi as [F1 F2 F3 F4]. pose proof (eq_refl : MAXFILE * B = 71680) as HM.
    unfold writei. rewrite (kbind_ok _ _ _ _ _ (geti_eq _ _ _ (is_ip _ _ _ _ _ HI))). rewrite (proj2 (Z.eqb_neq _ _)) by done.
    destruct (i_size ip <? off) eqn:E1; [done|]. boolify. rewrite u32_id by lia. rewrite (proj2 (Z.ltb_ge (off + n) off)) by lia. cbn [orb].
    by rewrite (proj2 (Z.ltb_lt _ _)) by lia.
Qed.

(** Reading a file returns the bytes of the file from [off] on, as many
    as were asked for or as the file has left, and changes nothing; reading
    from past the end returns -1. *)
Theorem readi_correct sb ds f i ip V X off n :
  geom sb ds -> ist (sb := sb) (ds := ds) f i ip V X -> file_inode (sb := sb) (ds := ds) V ip ->
  0 <= off -> 0 <= n -> off + n < 2 ^ 32 -> (length X < IO_BUFS)%nat ->
  wp (readi dev_read i off n) (fun r f' => exists d, f' = set_dev d f /\ bst d V [] X /\
    if i_size ip <? off then r = (-1, [])
    else r.1 = Z.min n (i_size ip - off) /\ length r.2 = Z.to_nat r.1 /\
      forall k, 0 <= k < r.1 -> r.2 !!! Z.to_nat k = fbyte V (i_addrs ip) (off + k)) f.
Proof.
  intros G HI Hfi Ho Hn Hov Hlen. eapply wp_mono; [by apply (readi_wp G dev_read f i ip V X off n)|].
  intros r f' (d & -> & HS & Hr). exists d. split; [done|]. split; [done|]. destruct (i_size ip <? off) eqn:E; [done|]. subst r. cbn [fst snd].
  split; [done|]. split; [apply bytes_at_length|]. intros k Hk. by apply bytes_at_lookup.
Qed.

(** C15: what is written is what is read back: [readi] at the same place
    after [writei] returns the bytes written. *)
Theorem writei_readi_roundtrip sb ds f i ip V X src off :
  let n := Z.of_nat (length src) in
  geom sb ds -> ist (sb := sb) (ds := ds) f i ip V X -> file_inode (sb := sb) (ds := ds) V ip -> 0 <= i_inum ip < sb_ninodes sb ->
  dinode_ok (dinode_of ip) -> 0 <= off <= i_size ip -> off + n <= MAXFILE * B -> Forall (fun x => 0 <= x < 2 ^ 8) src ->
  (2 * nblk off n <= nfree (sb := sb) V)%nat -> (length X + 6 * nblk off n + 1 < io_cap)%nat -> (io_cap <= IO_BUFS)%nat ->
  wp (writei dev_write i src off n ;;; readi dev_read i off n) (fun r _ => r = (n, src)) f.
Proof.
  intros n G HI Hfi Hin Hd Hoff Hmax Hby Hfree Hcap Hio. pose proof (eq_refl : MAXFILE * B = 71680) as HM.
  apply wp_bind. eapply wp_mono; [apply (writei_wp G dev_write f i ip V X src off n); try done; try lia|].
  intros r f' [-> (d & ip' & V' & X' & -> & HS & HX & [W1 W2 W3 W4 W5 _ _ _ _ _] & a' & ->)].
  set (ip' := resized a' (Z.max (i_size ip) (off + n)) ip) in *.
  assert (ist (sb := sb) (ds := ds) (upd f d i ip') i ip' V' X') as HI' by (apply (ist_upd f i ip V X); try done; apply HI).
  eapply wp_mono; [apply (readi_wp G dev_read _ i ip' V' X' off n HI' (proj1 W1)); lia|].
  intros r f' (d2 & -> & _ & Hr). rewrite (proj2 (Z.ltb_ge _ _)) in Hr by (cbn; lia). subst r.
  replace (Z.min n (i_size ip' - off)) with n by (cbn; lia). f_equal.
  apply list_eq. intros k. destruct (decide (k < length src)%nat) as [Hk|Hk].
  - rewrite bytes_at_Some by lia. rewrite W2 by lia. rewrite decide_True by lia.
    replace (Z.to_nat (off + Z.of_nat k - off)) with k by lia. symmetry. by apply list_lookup_lookup_total_lt.
  - rewrite !lookup_ge_None_2; [done|lia|rewrite bytes_at_length; lia].
Qed.
End Claims.

(** ** Concrete instances *)

Definition no_read : Z -> option (nat -> Z -> M (fs fdev) (Z * bytes)) := fun _ => None.
Definition no_write : Z -> option (nat -> bytes -> Z -> M (fs fdev) Z) := fun _ => None.

Lemma empty_addr (k : nat) : (k < 13)%nat -> replicate 13 0 !!! k = 0.
Proof. intros Hk. apply list_lookup_total_correct. by apply lookup_replicate_2. Qed.

Lemma empty_file sb ds V : file_ok (sb := sb) (ds := ds) V (replicate 13 0).
Proof.
  assert (ind (replicate 13 0) = 0) as Hi by done.
  assert (forall bn, 0 <= bn < MAXFILE -> blk V (replicate 13 0) bn = 0) as Hb.
  { intros bn Hbn. unfold blk, NDIRECT. destruct (bn <? 12) eqn:E; [|done]. boolify. apply empty_addr. lia. }
  split; [done|..].
  - intros b [H0 [E|(bn & Hbn & E)]]; [congruence|]. rewrite Hb in E by done. congruence.
  - intros bn Hbn H. rewrite Hb in H; done.
  - intros bn bn' Hbn _ H. rewrite Hb in H; done.
Qed.

Lemma demo_ist : ist (HL := fdev_laws 2) (sb := demo_sb) (ds := 35) demo_fs 0 (demo_inode 2) demo_V [].
Proof. split; [done|done|done|apply demo_bst|exact demo_reserved]. Qed.

Lemma demo_file : file_inode (sb := demo_sb) (ds := 35) demo_V (demo_inode 2).
Proof. split; [apply empty_file|done|done|]. intros x Hx. cbn in Hx. lia. Qed.

Lemma demo_dinode : dinode_ok (dinode_of (demo_inode 2)).
Proof.
  split; [|done|done|compute_done]. intros z Hz. cbn in Hz. repeat (apply elem_of_cons in Hz as [->|Hz]; [done|]). by apply elem_of_nil in Hz.
Qed.

Lemma demo_nfree : nfree (sb := demo_sb) demo_V = 64%nat.
Proof. vm_compute. reflexivity. Qed.

Lemma dinode_roundtrip_witness : get_dinode (put_dinode 128 (dinode_of (demo_inode 2)) zero_block) 128 = dinode_of (demo_inode 2).
Proof. exact (proj1 (dinode_roundtrip 128 (dinode_of (demo_inode 2)) zero_block demo_dinode ltac:(compute_done))). Defined.

Lemma demo_bytes : Forall (fun x => 0 <= x < 2 ^ 8) [104; 105].
Proof. compute_done. Qed.

Lemma writei_readi_roundtrip_witness :
  exists f, (writei no_write 0 [104; 105] 0 2 ;;; readi no_read 0 0 2) demo_fs = Ok (2, [104; 105]) f.
Proof.
  assert (2 * nblk 0 2 <= nfree (sb := demo_sb) demo_V)%nat as H1 by (rewrite demo_nfree; vm_compute; lia).
  destruct (wp_elim _ _ _ (writei_readi_roundtrip (HL := fdev_laws 2) no_read no_write demo_sb 35 demo_fs 0 (demo_inode 2) demo_V []
    [104; 105] 0 demo_geom demo_ist demo_file ltac:(done) demo_dinode ltac:(done) ltac:(done) demo_bytes H1 ltac:(compute_done) ltac:(compute_done)))
    as (r & f & E & ->).
  exists f. exact E.
Defined.

Lemma writei_correct_witness : exists f, writei no_write 0 [104; 105] 0 2 demo_fs = Ok 2 f.
Proof.
  assert (2 * nblk 0 2 <= nfree (sb := demo_sb) demo_V)%nat as H1 by (rewrite demo_nfree; vm_compute; lia).
  assert (0 <= i_size (demo_inode 2) /\ 0 + 2 <= MAXFILE * B) as H2 by done.
  pose proof (writei_correct (HL := fdev_laws 2) no_write demo_sb 35 demo_fs 0 (demo_inode 2) demo_V [] [104; 105] 0 2 demo_geom demo_ist
    demo_file ltac:(done) demo_dinode ltac:(done) ltac:(done) ltac:(done) demo_bytes H1 ltac:(compute_done) ltac:(compute_done)) as H.
  rewrite decide_True in H by exact H2. destruct (wp_elim _ _ _ H) as (r & f & E & -> & _). exists f. exact E.
Defined.

Lemma readi_correct_witness : exists f, readi no_read 0 0 16 demo_fs = Ok (0, []) f.
Proof.
  destruct (wp_elim _ _ _ (readi_correct (HL := fdev_laws 2) no_read demo_sb 35 demo_fs 0 (demo_inode 2) demo_V [] 0 16 demo_geom demo_ist
    demo_file ltac:(done) ltac:(done) ltac:(done) ltac:(compute_done))) as ([r v] & f & E & d & _ & _ & Hr).
  cbn in Hr. destruct Hr as (-> & Hl & _). apply nil_length_inv in Hl as ->. exists f. exact E.
Defined.
