(* ===== verification/Fsinode.v ===== *)
(** * Correctness of the inode cache (iget, idup, ilock, iunlock, iput of fs.c)

    The cache never holds two entries for one inode, an entry's [ref] counts
    the pointers to it, and an entry with references is never recycled. *)

From S2P Require Import Prelude Layout Block Blockio Bio Log Fs Fsblock Fsfile.

Section Cache.
Context {S : Type}.
Implicit Types (f : fs S) (l : list inode) (ip : inode).

(** An entry in use for inode [inum] of device [dev]. *)
Definition entry_for (dev inum : Z) ip : Prop := 0 < i_ref ip /\ i_dev ip = dev /\ i_inum ip = inum.
#[export] Instance entry_for_dec dev inum ip : Decision (entry_for dev inum ip) := _.

Record icache_ok l : Prop := {
  ic_len : length l = NINODE;
  ic_ref : forall i ip, l !! i = Some ip -> 0 <= i_ref ip < 2 ^ 31 - 1;
  ic_uniq : forall i j ip jp dev inum, l !! i = Some ip -> l !! j = Some jp ->
    entry_for dev inum ip -> entry_for dev inum jp -> i = j
}.

Definition scan_empty (k : nat) (l : list inode) (empty : option nat) : option nat :=
  match empty with Some _ => empty | None => fst <$> (prod_map (Nat.add k) id <$> list_find (fun ip => i_ref ip = 0) l) end.

Lemma iget_scan_spec dev inum k l empty :
  iget_scan dev inum k l empty =
  match list_find (entry_for dev inum) l with
  | Some (i, _) => inl (k + i)%nat
  | None => inr (scan_empty k l empty)
  end.
Proof.
  revert k empty. induction l as [|ip l IH]; intros k empty; cbn [iget_scan list_find]; [by destruct empty|].
  assert ((0 <? i_ref ip) && (i_dev ip =? dev) && (i_inum ip =? inum) = bool_decide (entry_for dev inum ip)) as ->.
  { unfold entry_for. destruct (0 <? i_ref ip) eqn:E1, (i_dev ip =? dev) eqn:E2, (i_inum ip =? inum) eqn:E3; cbn; boolify;
      symmetry; first [apply bool_decide_eq_true; lia|apply bool_decide_eq_false; lia]. }
  destruct (decide (entry_for dev inum ip)) as [D|D]; [rewrite bool_decide_true by done; by rewrite Nat.add_0_r|].
  rewrite bool_decide_false by done. rewrite IH. destruct (list_find (entry_for dev inum) l) as [[i jp]|] eqn:E; cbn; [f_equal; lia|].
  f_equal. unfold scan_empty. destruct empty as [e|]; [done|]. cbn [list_find]. destruct (i_ref ip =? 0) eqn:E0; boolify.
  - rewrite decide_True by done. cbn. by rewrite Nat.add_0_r.
  - rewrite decide_False by done. destruct (list_find (fun ip => i_ref ip = 0) l) as [[j q]|]; cbn; [f_equal; lia|done].
Qed.

Lemma put_run f i ip g : fs_inodes f !! i = Some ip -> puti i g f = Ok tt (set_inodes (<[i := g ip]> (fs_inodes f)) f).
Proof. intros E. unfold puti, kbind, kget. by rewrite E. Qed.

(** An update under the cache's lock. *)
Lemma locked_put f i ip g : "icache" ∉ fs_held f -> fs_inodes f !! i = Some ip ->
  (acquire "icache" ;;; puti i g ;;; release "icache" ;;; kret i) f = Ok i (set_inodes (<[i := g ip]> (fs_inodes f)) f).
Proof.
  intros HL E. unfold kbind, acquire, release. cbn [held fs_locks set_held]. rewrite decide_False by done.
  rewrite (put_run (set_fs_held _ f) i ip g E). cbn. rewrite decide_True by set_solver. unfold kret. f_equal.
  destruct f. unfold set_inodes, set_fs_held. cbn in *. by rewrite held_cycle.
Qed.

Definition bump ip : inode := set_i_ref (i_ref ip + 1) ip.

Lemma iget_eq f dev inum : "icache" ∉ fs_held f ->
  iget dev inum f =
  match list_find (entry_for dev inum) (fs_inodes f) with
  | Some (i, _) => (acquire "icache" ;;; puti i (fun ip => set_i_ref (s32 (i_ref ip + 1)) ip) ;;; release "icache" ;;; kret i) f
  | None =>
      match scan_empty 0 (fs_inodes f) None with
      | Some i => (acquire "icache" ;;; puti i (set_i_id dev inum) ;;; release "icache" ;;; kret i) f
      | None => Panic "iget: no inodes"
      end
  end.
Proof.
  intros HL. unfold iget, kbind, acquire, gets. cbn [held fs_locks set_held]. rewrite decide_False by done.
  cbn [fs_inodes set_fs_held]. rewrite iget_scan_spec. destruct (list_find (entry_for dev inum) (fs_inodes f)) as [[i ip]|]; [done|].
  by destruct (scan_empty 0 (fs_inodes f) None).
Qed.

Lemma iget_run f dev inum : "icache" ∉ fs_held f -> icache_ok (fs_inodes f) ->
  match list_find (entry_for dev inum) (fs_inodes f), list_find (fun ip => i_ref ip = 0) (fs_inodes f) with
  | Some (i, ip), _ => iget dev inum f = Ok i (set_inodes (<[i := bump ip]> (fs_inodes f)) f)
  | None, Some (i, ip) => iget dev inum f = Ok i (set_inodes (<[i := set_i_id dev inum ip]> (fs_inodes f)) f)
  | None, None => iget dev inum f = Panic "iget: no inodes"
  end.
Proof.
  intros HL Hok. pose proof (iget_eq f dev inum HL) as Heq.
  destruct (list_find (entry_for dev inum) (fs_inodes f)) as [[i ip]|] eqn:E1.
  - rewrite Heq. apply list_find_Some in E1 as (Hi & He & _). pose proof (ic_ref _ Hok i ip Hi) as Hr.
    rewrite (locked_put f i ip _ HL Hi). unfold bump. by rewrite s32_id by lia.
  - unfold scan_empty in Heq. destruct (list_find (fun ip => i_ref ip = 0) (fs_inodes f)) as [[i ip]|] eqn:E2; [|done].
    change (fst <$> (prod_map (Nat.add 0) id <$> Some (i, ip))) with (Some i) in Heq. rewrite Heq. apply list_find_Some in E2 as (Hi & He & _). by rewrite (locked_put f i ip _ HL Hi).
Qed.

Lemma icache_ok_insert l i ip ip' : icache_ok l -> l !! i = Some ip -> 0 <= i_ref ip' < 2 ^ 31 - 1 ->
  (forall j jp, j <> i -> l !! j = Some jp -> 0 < i_ref jp -> 0 < i_ref ip' -> i_dev jp = i_dev ip' -> i_inum jp = i_inum ip' -> False) ->
  icache_ok (<[i := ip']> l).
Proof.
  intros [H1 H2 H3] Hi Hr Hne. split.
  - by rewrite length_insert.
  - intros j jp. rewrite list_lookup_insert_Some. intros [(<- & <- & _)|[_ Hj]]; [done|by apply (H2 j)].
  - intros j k jp kp dev inum. rewrite !list_lookup_insert_Some.
    intros [(<- & <- & _)|[Hj0 Hj]] [(<- & <- & _)|[Hk0 Hk]] (A1 & A2 & A3) (B1 & B2 & B3); try done.
    + exfalso. apply (Hne k kp); congruence.
    + exfalso. apply (Hne j jp); congruence.
    + eapply H3; [exact Hj|exact Hk|split; done|split; done].
Qed.
End Cache.

(** ** Properties *)

(** The inode cache.  [iget] returns the one entry for the inode,
    taking a reference: the entry already in use for it, or else the first
    free entry, marked invalid; no other entry changes, the cache keeps at
    most one entry per inode, and it panics exactly when every entry is in
    use by other inodes. *)
Theorem iget_correct {S : Type} (f : fs S) dev inum :
  "icache" ∉ fs_held f -> icache_ok (fs_inodes f) -> (forall i ip, fs_inodes f !! i = Some ip -> i_ref ip + 1 < 2 ^ 31 - 1) ->
  match iget dev inum f with
  | Ok i f' => exists ip ip', fs_inodes f !! i = Some ip /\ f' = set_inodes (<[i := ip']> (fs_inodes f)) f /\
      icache_ok (fs_inodes f') /\ i_dev ip' = dev /\ i_inum ip' = inum /\ i_ref ip' = i_ref ip + 1 /\
      (if decide (entry_for dev inum ip) then ip' = bump ip else i_ref ip = 0 /\ i_valid ip' = false)
  | Panic _ => forall i ip, fs_inodes f !! i = Some ip -> 0 < i_ref ip /\ ~ entry_for dev inum ip
  | _ => False
  end.
Proof.
  intros HL Hok Href. pose proof (iget_run f dev inum HL Hok) as Hrun.
  destruct (list_find (entry_for dev inum) (fs_inodes f)) as [[i ip]|] eqn:E1.
  - rewrite Hrun. apply list_find_Some in E1 as (Hi & He & _). exists ip, (bump ip). split; [done|]. split; [done|].
    split; [|destruct He as (? & ? & ?); rewrite decide_True by done; done].
    eapply icache_ok_insert; [done|exact Hi| |].
    + pose proof (ic_ref _ Hok i ip Hi). specialize (Href i ip Hi). cbn. lia.
    + intros j jp Hj Hjp Hr _ E2 E3. cbn in *. apply Hj. destruct He as (? & ? & ?).
      eapply (ic_uniq _ Hok); [exact Hjp|exact Hi|split; [done|split; [exact E2|exact E3]]|split; done].
  - assert (forall j jp, fs_inodes f !! j = Some jp -> ~ entry_for dev inum jp) as Hno.
    { intros j jp Hj. apply list_find_None in E1. rewrite list.Forall_forall in E1. apply E1. by eapply list_elem_of_lookup_2. }
    destruct (list_find (fun ip => i_ref ip = 0) (fs_inodes f)) as [[i ip]|] eqn:E2; rewrite Hrun.
    + apply list_find_Some in E2 as (Hi & He & _). exists ip, (set_i_id dev inum ip). split; [done|]. split; [done|].
      split; [|rewrite decide_False by (by apply (Hno i)); cbn; lia || (split; [done|]; split; [done|]; split; [lia|done])].
      eapply icache_ok_insert; [done|exact Hi|cbn; lia|]. intros j jp Hj Hjp Hr _ E3 E4. by apply (Hno j jp).
    + intros i ip Hi. split; [|by apply (Hno i)]. apply list_find_None in E2. rewrite list.Forall_forall in E2.
      pose proof (ic_ref _ Hok i ip Hi). assert (i_ref ip <> 0) by (apply E2; by eapply list_elem_of_lookup_2). lia.
Qed.

Lemma demo_icache : icache_ok (fs_inodes demo_fs).
Proof.
  assert (forall i ip, fs_inodes demo_fs !! i = Some ip -> i = 0%nat /\ ip = demo_inode 2 \/ i_ref ip = 0) as Hc.
  { intros [|i] ip Hi; [left; cbn in Hi; by simplify_eq|right]. cbn in Hi. change (replicate 49 (set_i_ref 0 (demo_inode 0)) !! i = Some ip) in Hi.
    by apply lookup_replicate in Hi as [-> _]. }
  split; [done|..].
  - intros i ip Hi. destruct (Hc i ip Hi) as [[_ ->]|Hr]; cbn; lia.
  - intros i j ip jp dev inum Hi Hj (A1 & _) (B1 & _). destruct (Hc i ip Hi) as [[-> _]|Hr]; [|lia]. destruct (Hc j jp Hj) as [[-> _]|Hr]; [done|lia].
Qed.

Lemma iget_correct_witness : exists f', iget 1 1 demo_fs = Ok 1%nat f' /\ icache_ok (fs_inodes f').
Proof.
  assert (forall i ip, fs_inodes demo_fs !! i = Some ip -> i_ref ip + 1 < 2 ^ 31 - 1) as Hr.
  { intros i ip Hi. assert (Forall (fun ip => i_ref ip + 1 < 2 ^ 31 - 1) (fs_inodes demo_fs)) as H by (compute_done).
    rewrite list.Forall_forall in H. apply H. by eapply list_elem_of_lookup_2. }
  pose proof (iget_correct demo_fs 1 1 ltac:(apply not_elem_of_empty) demo_icache Hr) as H.
  destruct (iget 1 1 demo_fs) as [i f'|?|?|?|] eqn:E; try (exfalso; revert E; vm_compute; discriminate).
  destruct H as (ip & ip' & _ & _ & H & _). exists f'. split; [|exact H].
  assert (i = 1%nat) as -> by (revert E; vm_compute; congruence). reflexivity.
Defined.
