(* ===== verification/Fstrunc.v ===== *)
(** * Freeing a file (itrunc and iput of fs.c)

    Dropping the last reference to an inode without links frees exactly the
    blocks of the file, each once, and marks the inode free on disk. *)

From S2P Require Import Prelude Layout Block Blockio Bio Log Fs Fsblock Fsfile Fsinode.

Section Trunc.
Context {S : Type} {HIO : BlockIO S} {HL : BlockLaws S}.
Context {sb : superblock} {ds : Z} (G : geom sb ds).
Implicit Types (f : fs S) (V : Z -> bytes) (a : list Z) (X L : list Z).

(** [V'] is [V] with the blocks [L] marked free. *)
Record freed V L V' : Prop := {
  fd_used : forall c, 0 <= c < sb_size sb -> used sb V' c = used sb V c && bool_decide (c ∉ L);
  fd_other : forall b, ~ bitmap_block (sb := sb) b -> V' b = V b
}.

Lemma unused_nil V : freed V [] V.
Proof. split; [|done]. intros c Hc. rewrite bool_decide_true; [by rewrite andb_true_r|apply not_elem_of_nil]. Qed.

Lemma unused_app V L V1 L' V2 : freed V L V1 -> freed V1 L' V2 -> freed V (L ++ L') V2.
Proof.
  intros [A1 A2] [B1 B2]. split; [|intros b Hb; by rewrite B2, A2].
  intros c Hc. rewrite B1, A1, <- andb_assoc by done. f_equal.
  destruct (decide (c ∈ L ++ L')) as [D|D]; rewrite elem_of_app in D.
  - symmetry. rewrite (bool_decide_false (c ∉ L ++ L')) by (rewrite elem_of_app; tauto). symmetry. apply andb_false_iff.
    destruct D as [D|D]; [left|right]; apply bool_decide_eq_false; tauto.
  - rewrite !bool_decide_true; try tauto. rewrite elem_of_app. tauto.
Qed.

Lemma freed_perm V L L' V' : (forall b, b ∈ L <-> b ∈ L') -> freed V L V' -> freed V L' V'.
Proof. intros E [A1 A2]. split; [|done]. intros c Hc. rewrite A1 by done. f_equal. apply bool_decide_ext. by rewrite E. Qed.

(** The bitmap blocks are already counted in [X]. *)
Definition bitmaps_in X : Prop := forall b, bitmap_block (sb := sb) b -> b ∈ X.

Lemma bfree_freed f V Hs X b :
  fs_sb f = sb -> bst (fs_dev f) V Hs X -> bitmaps_in X -> held_used sb ds V Hs -> 0 <= b < sb_size sb -> used sb V b = true ->
  (length Hs + length X < IO_BUFS)%nat -> (length X < io_cap)%nat ->
  wp (bfree ROOTDEV b) (fun _ f' => exists d V', f' = set_dev d f /\ bst d V' Hs X /\ freed V [b] V') f.
Proof.
  intros Esb HS HX Hh Hb Hu Hlen Hcap. eapply wp_mono; [by apply (bfree_wp G f V Hs X b)|].
  intros [] f' (d & -> & HS'). exists d, (unalloc sb V b). split; [done|]. split.
  - eapply bst_weaken; [|exact HS']. intros c Hc. apply elem_of_cons in Hc as [->|Hc]; [|done]. apply HX. by exists b.
  - split.
    + intros c Hc. rewrite used_unalloc; [|intros; by eapply bst_block|lia|lia]. rewrite andb_comm. f_equal.
      rewrite <- bool_decide_not. apply bool_decide_ext. by rewrite list_elem_of_singleton.
    + intros c Hc. unfold unalloc. rewrite zupd_ne; [done|]. intros ->. apply Hc. by exists b.
Qed.

(** The non-zero elements, in order. *)
Definition nz (l : list Z) : list Z := filter (fun b => b <> 0) l.

Lemma nz_cons x l : nz (x :: l) = if decide (x = 0) then nz l else x :: nz l.
Proof. unfold nz. rewrite filter_cons. by repeat case_decide. Qed.

(** Blocks in use, each once. *)
Definition in_use V L : Prop := NoDup L /\ forall b, b ∈ L -> ds <= b < sb_size sb /\ used sb V b = true.

Lemma in_use_cons V b L : in_use V (b :: L) -> ds <= b < sb_size sb /\ used sb V b = true /\ b ∉ L /\ forall V', freed V [b] V' -> in_use V' L.
Proof.
  intros [Hnd Hu]. apply list.NoDup_cons in Hnd as [Hn Hnd]. destruct (Hu b) as [Hr Hb]; [apply list_elem_of_here|].
  split; [done|]. split; [done|]. split; [done|]. intros V' Hf. split; [done|]. intros c Hc.
  destruct (Hu c) as [Hcr Hcu]; [by apply list_elem_of_further|]. split; [done|]. pose proof (ds_nonneg G).
  rewrite (fd_used _ _ _ Hf), Hcu by lia. apply bool_decide_eq_true. rewrite list_elem_of_singleton. by intros ->.
Qed.

(** Clearing [k] addresses from [n] on. *)
Fixpoint clear_addrs (k : nat) (n : nat) a : list Z :=
  match k with O => a | Datatypes.S k' => clear_addrs k' (Datatypes.S n) (<[n := 0]> a) end.

Lemma itrunc_direct_wp k n f i ip V X :
  ist (sb := sb) (ds := 0) f i ip V X -> bitmaps_in X -> (length X < IO_BUFS)%nat -> (length X < io_cap)%nat ->
  (n + k <= length (i_addrs ip))%nat -> in_use V (nz (take k (drop n (i_addrs ip)))) ->
  wp (itrunc_direct k i (Z.of_nat n)) (fun _ f' => exists d V', f' = upd f d i (with_addrs (clear_addrs k n (i_addrs ip)) ip) /\
    bst d V' [] X /\ freed V (nz (take k (drop n (i_addrs ip)))) V') f.
Proof.
  revert n f ip V. induction k as [|k IH]; intros n f ip V HI HX Hlen Hcap Hl Hu; cbn [itrunc_direct clear_addrs].
  - apply wp_ret. exists (fs_dev f), V. rewrite with_addrs_self, upd_self by apply HI. split; [by destruct f|]. split; [apply HI|apply unused_nil].
  - pose proof HI as [H1 H2 H3 H4 H5]. apply wp_bind. eapply wp_eq; [by apply geti_eq|].
    destruct (lookup_lt_is_Some_2 (i_addrs ip) n) as [b Hb]; [lia|].
    assert (addr (Z.of_nat n) ip = b) as Ea by (unfold addr; rewrite Nat2Z.id; by apply list_lookup_total_correct).
    rewrite Ea. rewrite (drop_S _ _ _ Hb) in Hu |- *. cbn [take] in Hu |- *. rewrite nz_cons in Hu |- *.
    replace (Z.of_nat n + 1) with (Z.of_nat (Datatypes.S n)) by lia. destruct (decide (b = 0)) as [->|Hb0].
    + cbn. apply wp_bind, wp_ret. rewrite (list_insert_id _ _ _ Hb). by apply IH; try done; lia.
    + rewrite (proj2 (Z.eqb_neq b 0)) by done. cbn [negb]. destruct (in_use_cons _ _ _ Hu) as (Hr & Hub & Hnin & Hrest). pose proof (ds_nonneg G).
      apply wp_bind, wp_bind. rewrite H3. eapply wp_mono; [apply (bfree_freed f V [] X b); try done; [by intros ? ?%elem_of_nil|lia]|].
      intros [] f1 (d1 & V1 & -> & HS1 & Hf1). eapply wp_eq; [by apply puti_eq|].
      cbn [fs_dev set_dev]. set (ip1 := set_i_addr (Z.of_nat n) 0 ip).
      assert (upd (set_dev d1 f) d1 i ip1 = upd f d1 i ip1) as -> by done.
      assert (ist (sb := sb) (ds := 0) (upd f d1 i ip1) i ip1 V1 X) as HI1 by (apply (ist_upd f i ip V X); try done; intros c Hc; lia).
      assert (i_addrs ip1 = <[n := 0]> (i_addrs ip)) as Ea1 by (cbn; by rewrite Nat2Z.id).
      assert (drop (Datatypes.S n) (<[n := 0]> (i_addrs ip)) = drop (Datatypes.S n) (i_addrs ip)) as Ed by (apply drop_insert_lt; lia).
      eapply wp_mono; [apply (IH (Datatypes.S n) _ ip1 V1 HI1); try done; rewrite Ea1; [rewrite length_insert; lia|rewrite Ed; by apply Hrest]|].
      intros [] f2 (d2 & V2 & -> & HS2 & Hf2). exists d2, V2. rewrite Ea1, Ed in Hf2. split; [by rewrite upd_upd, Ea1|]. split; [done|].
      by apply (unused_app V [b] V1).
Qed.

(** The entries of an indirect block. *)
Definition ents (v : bytes) (j k : nat) : list Z := (fun x => get32 v (4 * x)) <$> seq j k.

Lemma itrunc_indirect_wp k j f V X bp b0 v :
  fs_sb f = sb -> bst (fs_dev f) V [(bp, b0)] X -> bitmaps_in X -> held_used sb ds V [(bp, b0)] ->
  (1 + length X < IO_BUFS)%nat -> (length X < io_cap)%nat -> in_use V (nz (ents v j k)) -> b0 ∉ nz (ents v j k) ->
  wp (itrunc_indirect k ROOTDEV j v) (fun _ f' => exists d V', f' = set_dev d f /\ bst d V' [(bp, b0)] X /\
    freed V (nz (ents v j k)) V') f.
Proof.
  revert j f V. induction k as [|k IH]; intros j f V Esb HS HX Hh Hlen Hcap Hu Hn; cbn [itrunc_indirect].
  - apply wp_ret. exists (fs_dev f), V. split; [by destruct f|]. split; [done|apply unused_nil].
  - unfold ents in *. cbn [seq fmap list_fmap] in *. rewrite nz_cons in *. set (b := get32 v (4 * j)) in *. destruct (decide (b = 0)) as [Hb|Hb0].
    + rewrite Hb. cbn. apply wp_bind, wp_ret. by apply IH.
    + rewrite (proj2 (Z.eqb_neq b 0)) by done. cbn [negb]. destruct (in_use_cons _ _ _ Hu) as (Hr & Hub & Hnin & Hrest). pose proof (ds_nonneg G).
      apply not_elem_of_cons in Hn as [Hne Hn]. apply wp_bind.
      eapply wp_mono; [apply (bfree_freed f V [(bp, b0)] X b); try done; lia|]. intros [] f1 (d1 & V1 & -> & HS1 & Hf1).
      eapply wp_mono; [apply (IH (Datatypes.S j) (set_dev d1 f) V1); try done; [|by apply Hrest]|].
      * intros c Hc. destruct (Hh c Hc) as [Hcr Hcu]. split; [done|]. cbn in Hc. apply list_elem_of_singleton in Hc as ->.
        rewrite (fd_used _ _ _ Hf1), Hcu by lia. apply bool_decide_eq_true. by rewrite list_elem_of_singleton.
      * intros [] f2 (d2 & V2 & -> & HS2 & Hf2). exists d2, V2. split; [done|]. split; [done|]. by apply (unused_app V [b] V1).
Qed.

(** The blocks of a file, as a list. *)
Definition blks V a : list Z := (fun k => blk V a (Z.of_nat k)) <$> seq 0 140.
Definition file_blocks V a : list Z := nz (blks V a) ++ nz [ind a].

Lemma nz_in b l : b ∈ nz l <-> b <> 0 /\ b ∈ l.
Proof. unfold nz. by rewrite list_elem_of_filter. Qed.

Lemma file_blocks_own V a b : b ∈ file_blocks V a <-> own V a b.
Proof.
  unfold file_blocks, own. rewrite elem_of_app, !nz_in, list_elem_of_singleton. unfold blks. rewrite list_elem_of_fmap. split.
  - intros [[H0 (k & -> & Hk)]|[H0 ->]]; (split; [done|]); [right|by left]. apply elem_of_seq in Hk.
    exists (Z.of_nat k). split; [unfold MAXFILE, NDIRECT, NINDIRECT; lia|done].
  - intros [H0 [->|(bn & Hbn & ->)]]; [by right|left]. split; [done|]. exists (Z.to_nat bn). rewrite Z2Nat.id by lia. split; [done|].
    apply elem_of_seq. unfold MAXFILE, NDIRECT, NINDIRECT in *. lia.
Qed.

Lemma nz_nodup (g : nat -> Z) (n m : nat) : (forall i j, (m <= i < m + n)%nat -> (m <= j < m + n)%nat -> g i <> 0 -> g i = g j -> i = j) -> NoDup (nz (g <$> seq m n)).
Proof.
  revert m. induction n as [|n IH]; intros m Hg; [apply NoDup_nil_2|]. cbn [seq fmap list_fmap]. rewrite nz_cons.
  assert (NoDup (nz (g <$> seq (Datatypes.S m) n))) as Hnd by (apply IH; intros; apply Hg; try lia; done).
  case_decide as E; [done|]. apply list.NoDup_cons. split; [|done]. rewrite nz_in, list_elem_of_fmap. intros [_ (j & Ej & Hj)].
  apply elem_of_seq in Hj. assert (m = j) by (apply Hg; try lia; done). lia.
Qed.

Lemma file_blocks_use V a : file_ok (sb := sb) (ds := ds) V a -> in_use V (file_blocks V a).
Proof.
  intros Hok. split; [|intros b Hb; apply file_blocks_own in Hb; by apply (fo_own _ _ Hok)].
  unfold file_blocks. apply list.NoDup_app. split; [|split].
  - apply (nz_nodup (fun k => blk V a (Z.of_nat k)) 140 0). intros i j Hi Hj H0 E. assert (Z.of_nat i = Z.of_nat j); [|lia].
    apply (fo_inj _ _ Hok); try done; unfold MAXFILE, NDIRECT, NINDIRECT; lia.
  - intros b Hb. rewrite !nz_in, list_elem_of_singleton in *. intros [_ ->]. destruct Hb as [H0 Hb]. unfold blks in Hb.
    apply list_elem_of_fmap in Hb as (k & E & Hk). apply elem_of_seq in Hk.
    apply (fo_ind _ _ Hok (Z.of_nat k)); [unfold MAXFILE, NDIRECT, NINDIRECT; lia|congruence|congruence].
  - rewrite nz_cons. case_decide; [apply NoDup_nil_2|apply NoDup_singleton].
Qed.

(** What the two loops free, together. *)
Definition ind_blocks V a : list Z := if decide (ind a = 0) then [] else nz (ents (V (ind a)) 0 128) ++ [ind a].

Lemma blks_split V a : length a = 13%nat ->
  blks V a = take 12 a ++ (if decide (ind a = 0) then replicate 128 0 else ents (V (ind a)) 0 128).
Proof.
  intros Hl. unfold blks. apply list_eq. intros k. rewrite list_lookup_fmap.
  assert (length (take 12 a) = 12%nat) as Ht by (rewrite length_take; lia).
  destruct (decide (k < 12)%nat) as [Hk|Hk].
  - rewrite lookup_seq_lt, lookup_app_l, lookup_take_lt by lia. cbn. unfold blk, NDIRECT. rewrite (proj2 (Z.ltb_lt _ _)) by lia.
    rewrite Nat2Z.id. symmetry. apply list_lookup_lookup_total_lt. lia.
  - rewrite lookup_app_r, Ht by lia. destruct (decide (k < 140)%nat) as [Hk2|Hk2].
    + rewrite lookup_seq_lt by lia. cbn [fmap option_fmap option_map Nat.add]. unfold blk, NDIRECT. rewrite (proj2 (Z.ltb_ge _ _)) by lia.
      case_decide as E.
      * rewrite E, Z.eqb_refl. symmetry. apply lookup_replicate_2. lia.
      * rewrite (proj2 (Z.eqb_neq _ _)) by done. unfold ents. rewrite list_lookup_fmap, lookup_seq_lt by lia. cbn. do 2 f_equal. lia.
    + rewrite lookup_seq_ge by lia. cbn [fmap option_fmap option_map]. symmetry. apply lookup_ge_None_2. case_decide; [rewrite length_replicate; lia|].
      unfold ents. rewrite length_fmap, length_seq. lia.
Qed.

Lemma nz_app l l' : nz (l ++ l') = nz l ++ nz l'.
Proof. unfold nz. apply list.filter_app. Qed.
Lemma nz_zeros n : nz (replicate n 0) = [].
Proof. induction n; [done|]. cbn [replicate]. by rewrite nz_cons, decide_True. Qed.

Lemma file_blocks_eq V a : length a = 13%nat -> nz (take 12 a) ++ ind_blocks V a = file_blocks V a.
Proof.
  intros Hl. unfold file_blocks, ind_blocks. rewrite (blks_split V a Hl), nz_app, nz_cons. change (nz []) with (@nil Z).
  repeat case_decide; try done.
  - by rewrite nz_zeros, !app_nil_r.
  - by rewrite app_assoc.
Qed.

Lemma in_use_app V L L' : in_use V (L ++ L') -> in_use V L /\ (forall b, b ∈ L' -> b ∉ L) /\ forall V', freed V L V' -> in_use V' L'.
Proof.
  intros [Hnd Hu]. apply list.NoDup_app in Hnd as (H1 & H2 & H3). split; [split; [done|intros b Hb; apply Hu, elem_of_app; by left]|].
  split; [intros b Hb Hb'; by apply (H2 b)|]. intros V' Hf. split; [done|]. intros b Hb.
  destruct (Hu b) as [Hr Hub]; [apply elem_of_app; by right|]. split; [done|]. pose proof (ds_nonneg G).
  rewrite (fd_used _ _ _ Hf), Hub by lia. apply bool_decide_eq_true. intros Hb'. by apply (H2 b).
Qed.

Lemma reserved_freed V L V' : reserved (sb := sb) (ds := ds) V -> in_use V L -> freed V L V' -> reserved (sb := sb) (ds := ds) V'.
Proof.
  intros Hr [_ Hu] Hf c Hc. pose proof (g_size _ _ G). rewrite (fd_used _ _ _ Hf), Hr by lia. apply bool_decide_eq_true.
  intros Hin. destruct (Hu c Hin). lia.
Qed.

(** The inode after truncation. *)
Definition emptied ip : inode := set_i_size 0 (with_addrs (replicate 13 0) ip).

Lemma clear_direct a : length a = 13%nat -> clear_addrs 12 0 a = replicate 12 0 ++ [ind a].
Proof. intros Hl. destruct a as [|x0 [|x1 [|x2 [|x3 [|x4 [|x5 [|x6 [|x7 [|x8 [|x9 [|x10 [|x11 [|x12 [|? ?]]]]]]]]]]]]]]; done. Qed.

(** The second half of [itrunc]: the indirect block and its entries. *)
Lemma itrunc_ind_wp f i ip a V X :
  fs_sb f = sb -> fs_inodes f !! i = Some ip -> i_dev ip = ROOTDEV -> bst (fs_dev f) V [] X -> bitmaps_in X ->
  i_addrs ip = replicate 12 0 ++ [ind a] -> in_use V (ind_blocks V a) -> (1 + length X < IO_BUFS)%nat -> (length X < io_cap)%nat ->
  wp (when negb (addr NDIRECT ip =? 0) do
     (bp <- bread' (i_dev ip) (addr NDIRECT ip) ;;
      d <- data bp ;;
      itrunc_indirect (Z.to_nat NINDIRECT) (i_dev ip) 0 d ;;;
      brelse' bp ;;;
      bfree (i_dev ip) (addr NDIRECT ip) ;;;
      puti i (set_i_addr NDIRECT 0)))
    (fun _ f' => exists d V', f' = upd f d i (with_addrs (replicate 13 0) ip) /\ bst d V' [] X /\ freed V (ind_blocks V a) V') f.
Proof.
  intros Esb Hi Hdev HS HX Ea Hu Hlen Hcap. assert (addr NDIRECT ip = ind a) as Ed by (unfold addr; by rewrite Ea).
  rewrite Ed, Hdev. unfold ind_blocks in *. destruct (decide (ind a = 0)) as [E0|E0].
  - rewrite E0. change (negb (0 =? 0)) with false. cbv iota. apply wp_ret. exists (fs_dev f), V. split; [|split; [done|apply unused_nil]].
    assert (with_addrs (replicate 13 0) ip = ip) as -> by (rewrite E0 in Ea; destruct ip; cbn in *; by rewrite Ea).
    rewrite upd_self by done. by destruct f.
  - rewrite (proj2 (Z.eqb_neq _ _)) by done. cbn [negb]. destruct (in_use_app _ _ _ Hu) as (Hu1 & Hn & Hrest).
    pose proof (ds_nonneg G) as Hds. pose proof (g_size _ _ G) as Hsz.
    destruct (proj2 Hu (ind a)) as [Hr Hub]; [apply elem_of_app; right; by apply list_elem_of_singleton|].
    assert (held_used sb ds V [] /\ ind a ∉ nz (ents (V (ind a)) 0 128)) as [Hh0 Hni].
    { split; [by intros ? ?%elem_of_nil|]. apply Hn. by apply list_elem_of_singleton. }
    eapply wp_bread; [exact HS|unfold FSSIZE in *; lia|by intros ?%elem_of_nil|cbn; lia|]. intros bp d1 HS1.
    eapply wp_data; [exact HS1|apply list_elem_of_here|]. apply wp_bind.
    assert (held_used sb ds V [(bp, ind a)]) as Hh by (intros c Hc; cbn in Hc; by apply list_elem_of_singleton in Hc as ->).
    change (Z.to_nat NINDIRECT) with 128%nat.
    eapply wp_mono; [by apply (itrunc_indirect_wp 128 0 (set_dev d1 f) V X bp (ind a) (V (ind a)))|].
    intros [] f2 (d2 & V2 & -> & HS2 & Hf2). eapply wp_relse; [exact HS2|]. intros d3 HS3.
    destruct (Hrest _ Hf2) as [_ Hu3]. destruct (Hu3 (ind a)) as [_ Hub3]; [by apply list_elem_of_singleton|].
    apply wp_bind. eapply wp_mono; [apply (bfree_freed (set_dev d3 f) V2 [] X (ind a)); try done; [by intros ? ?%elem_of_nil|lia|cbn; lia]|].
    intros [] f4 (d4 & V4 & -> & HS4 & Hf4). eapply wp_eq; [by apply puti_eq|]. exists d4, V4.
    split; [|split; [done|by apply (unused_app V _ V2)]]. cbn [fs_dev set_dev].
    assert (set_i_addr NDIRECT 0 ip = with_addrs (replicate 13 0) ip) as -> by (unfold set_i_addr, with_addrs; by rewrite Ea). done.
Qed.

Lemma itrunc_wp f i ip V X :
  ist (sb := sb) (ds := ds) f i ip V X -> file_ok (sb := sb) (ds := ds) V (i_addrs ip) -> 0 <= i_inum ip < sb_ninodes sb ->
  bitmaps_in X -> (1 + length X < IO_BUFS)%nat -> (length X < io_cap)%nat ->
  wp (itrunc i) (fun _ f' => exists d V1, f' = upd f d i (emptied ip) /\ freed V (file_blocks V (i_addrs ip)) V1 /\
    bst d (put_inode (sb := sb) V1 (i_inum ip) (dinode_of (emptied ip))) [] (iblk (sb := sb) (i_inum ip) :: X)) f.
Proof.
  intros HI Hok Hin HX Hlen Hcap. pose proof HI as [H1 H2 H3 H4 H5]. pose proof (fo_len _ _ Hok) as Hl. set (a := i_addrs ip) in *.
  pose proof (file_blocks_use V a Hok) as Hu. rewrite <- (file_blocks_eq V a Hl) in Hu |- *. destruct (in_use_app _ _ _ Hu) as (Hu1 & _ & Hrest).
  unfold itrunc. apply wp_bind. change (Z.to_nat NDIRECT) with 12%nat. change 0 with (Z.of_nat 0) at 1.
  assert (ist (sb := sb) (ds := 0) f i ip V X) as HI0 by (split; try done; intros c Hc; lia).
  eapply wp_mono; [apply (itrunc_direct_wp 12 0 f i ip V X HI0); try done; [lia|fold a; lia]|].
  intros [] f1 (d1 & V1 & -> & HS1 & Hf1). fold a in Hf1. rewrite drop_0 in Hf1. fold a. rewrite clear_direct by done.
  set (ip1 := with_addrs _ ip). assert (fs_inodes (upd f d1 i ip1) !! i = Some ip1) as Hi1.
  { cbn. apply list_lookup_insert_eq. by eapply lookup_lt_Some. }
  apply wp_bind. eapply wp_eq; [by apply geti_eq|]. apply wp_bind.
  assert (ind_blocks V1 a = ind_blocks V a) as Ei.
  { unfold ind_blocks. case_decide as E0; [done|]. rewrite (fd_other _ _ _ Hf1); [done|]. eapply (own_not_bitmap G V a); [done|].
    split; [done|by left]. }
  eapply wp_mono; [apply (itrunc_ind_wp (upd f d1 i ip1) i ip1 a V1 X); try done; rewrite Ei; by apply Hrest|].
  intros [] f2 (d2 & V2 & -> & HS2 & Hf2). rewrite Ei in Hf2. rewrite upd_upd.
  assert (with_addrs (replicate 13 0) ip1 = with_addrs (replicate 13 0) ip) as -> by done.
  assert (forall d ip', fs_inodes (upd f d i ip') !! i = Some ip') as Hi.
  { intros d ip'. cbn. apply list_lookup_insert_eq. by eapply lookup_lt_Some. }
  apply wp_bind. eapply wp_eq; [by apply puti_eq|]. cbn [fs_dev upd set_inodes set_dev]. rewrite upd_upd. fold (emptied ip).
  pose proof (unused_app _ _ _ _ _ Hf1 Hf2) as Hf.
  assert (ist (sb := sb) (ds := ds) (upd f d2 i (emptied ip)) i (emptied ip) V2 X) as HI2 by (split; [done|apply Hi|done|done|by apply (reserved_freed V _ V2 H5 Hu)]).
  eapply wp_mono; [apply (iupdate_wp G _ i (emptied ip) V2 X HI2); [done|lia|done]|]. intros [] f3 (d3 & -> & HS3).
  exists d3, V2. done.
Qed.

(** ** iput *)

(** Reading an entry, and updating it, under the cache's lock. *)
Lemma icache_peek {A} f i ip (k : inode -> M (fs S) A) : "icache" ∉ fs_held f -> fs_inodes f !! i = Some ip ->
  (acquire "icache" ;;; r <- geti i ;; release "icache" ;;; k r) f = k ip f.
Proof.
  intros Hnl0 E. unfold kbind, acquire, release. cbn [held fs_locks set_held]. rewrite decide_False by done.
  rewrite (geti_eq (set_fs_held _ f) i ip E). cbn [held fs_locks set_held fs_held set_fs_held]. rewrite decide_True by set_solver.
  f_equal. destruct f. unfold set_fs_held. cbn in *. by rewrite held_cycle.
Qed.

Lemma icache_put f i ip g : "icache" ∉ fs_held f -> fs_inodes f !! i = Some ip ->
  (acquire "icache" ;;; puti i g ;;; release "icache") f = Ok tt (upd f (fs_dev f) i (g ip)).
Proof.
  intros Hnl0 E. unfold kbind, acquire, release. cbn [held fs_locks set_held]. rewrite decide_False by done.
  rewrite (put_run (set_fs_held _ f) i ip g E). cbn. rewrite decide_True by set_solver. f_equal.
  destruct f. unfold upd, set_inodes, set_fs_held, set_dev. cbn in *. by rewrite held_cycle.
Qed.

Lemma lock_inode_eq f i ip : fs_inodes f !! i = Some ip -> sl_locked (i_lock ip) = false ->
  lock_inode i f = Ok tt (upd f (fs_dev f) i (set_i_lock (mk_sleeplock true (fs_pid f)) ip)).
Proof.
  intros E Hu. unfold lock_inode. rewrite (kbind_ok _ _ _ _ _ (geti_eq _ _ _ E)). unfold kbind, gets, acquiresleep. rewrite Hu.
  by rewrite (puti_eq _ _ _ _ E).
Qed.

(** Dropping a reference. *)
Definition dropped ip : inode := set_i_ref (s32 (i_ref ip - 1)) (set_i_lock initsleeplock ip).

Lemma iput_tail f d i ip0 ip : fs_inodes f !! i = Some ip0 -> "icache" ∉ fs_held f ->
  (unlock_inode i ;;; acquire "icache" ;;; puti i (fun ip => set_i_ref (s32 (i_ref ip - 1)) ip) ;;; release "icache") (upd f d i ip) =
  Ok tt (upd f d i (dropped ip)).
Proof.
  intros E Hnl0. assert (forall d ip', fs_inodes (upd f d i ip') !! i = Some ip') as Hi.
  { intros d' ip'. cbn. apply list_lookup_insert_eq. by eapply lookup_lt_Some. }
  unfold unlock_inode. rewrite (kbind_ok _ _ _ _ _ (puti_eq _ _ _ _ (Hi d ip))). cbn [fs_dev upd set_inodes set_dev]. rewrite upd_upd.
  rewrite (icache_put (upd f d i (set_i_lock (releasesleep (i_lock ip)) ip)) i _ _ Hnl0 (Hi _ _)). cbn [fs_dev upd set_inodes set_dev]. by rewrite upd_upd.
Qed.

Lemma iput_drop_eq f i ip : fs_inodes f !! i = Some ip -> "icache" ∉ fs_held f -> sl_locked (i_lock ip) = false ->
  (i_valid ip && (i_nlink ip =? 0) && (i_ref ip =? 1) = false) -> iput i f = Ok tt (upd f (fs_dev f) i (dropped ip)).
Proof.
  intros E Hnl0 Hu Hc. unfold iput. rewrite (kbind_ok _ _ _ _ _ (lock_inode_eq f i ip E Hu)).
  set (ip1 := set_i_lock _ ip). assert (fs_inodes (upd f (fs_dev f) i ip1) !! i = Some ip1) as Hi.
  { cbn. apply list_lookup_insert_eq. by eapply lookup_lt_Some. }
  rewrite (kbind_ok _ _ _ _ _ (geti_eq _ _ _ Hi)). cbn [i_valid i_nlink ip1 set_i_lock].
  assert ((when i_valid ip && (i_nlink ip =? 0) do
     (acquire "icache" ;;; r <- geti i ;; release "icache" ;;;
      when i_ref r =? 1 do (itrunc i ;;; puti i (set_i_type 0) ;;; iupdate i ;;; puti i (set_i_valid false))))
     (upd f (fs_dev f) i ip1) = Ok tt (upd f (fs_dev f) i ip1)) as Ew.
  { destruct (i_valid ip && (i_nlink ip =? 0)) eqn:Ec; [|done]. rewrite icache_peek with (ip := ip1) by done.
    cbn [i_ref ip1 set_i_lock]. cbn in Hc. by rewrite Hc. }
  rewrite (kbind_ok _ _ _ _ _ Ew). rewrite (iput_tail f (fs_dev f) i ip ip1 E Hnl0). done.
Qed.

Definition typeless ip : inode := set_i_valid false (set_i_type 0 ip).

Lemma iput_free_wp f i ip V X :
  ist (sb := sb) (ds := ds) f i ip V X -> file_ok (sb := sb) (ds := ds) V (i_addrs ip) -> 0 <= i_inum ip < sb_ninodes sb ->
  "icache" ∉ fs_held f -> sl_locked (i_lock ip) = false -> i_valid ip = true -> i_nlink ip = 0 -> i_ref ip = 1 ->
  bitmaps_in X -> (2 + length X < IO_BUFS)%nat -> (1 + length X < io_cap)%nat ->
  wp (iput i) (fun _ f' => exists d V1 ip', f' = upd f d i ip' /\ i_ref ip' = 0 /\ freed V (file_blocks V (i_addrs ip)) V1 /\
    let e := emptied ip in
    bst d (put_inode (sb := sb) (put_inode (sb := sb) V1 (i_inum ip) (dinode_of e)) (i_inum ip) (dinode_of (set_i_type 0 e))) []
      (iblk (sb := sb) (i_inum ip) :: iblk (sb := sb) (i_inum ip) :: X)) f.
Proof.
  intros HI Hok Hin Hnl0 Hu Hv Hnl Href HX Hlen Hcap. pose proof HI as [H1 H2 H3 H4 H5].
  unfold iput. apply wp_bind. eapply wp_eq; [by apply lock_inode_eq|].
  set (ip1 := set_i_lock _ ip). assert (forall d ip', fs_inodes (upd f d i ip') !! i = Some ip') as Hi.
  { intros d' ip'. cbn. apply list_lookup_insert_eq. by eapply lookup_lt_Some. }
  apply wp_bind. eapply wp_eq; [by apply geti_eq|]. cbn [i_valid i_nlink ip1 set_i_lock]. rewrite Hv, Hnl. cbn [andb Z.eqb].
  apply wp_bind. eapply wp_run; [by apply (icache_peek _ i ip1)|]. cbn [i_ref ip1 set_i_lock]. rewrite Href. cbn [Z.eqb Pos.eqb].
  assert (ist (sb := sb) (ds := ds) (upd f (fs_dev f) i ip1) i ip1 V X) as HI1 by (by apply (ist_upd f i ip V X)).
  apply wp_bind. eapply wp_mono; [apply (itrunc_wp _ i ip1 V X HI1); try done; lia|]. intros [] f1 (d1 & V1 & -> & Hf & HS1).
  rewrite upd_upd. apply wp_bind. eapply wp_eq; [by apply puti_eq|]. cbn [fs_dev upd set_inodes set_dev]. rewrite upd_upd.
  set (ip2 := set_i_type 0 (emptied ip1)). set (W1 := put_inode V1 _ _) in *.
  pose proof (file_blocks_use _ _ Hok) as Huse. pose proof (reserved_freed V _ V1 H5 Huse Hf) as Hr1.
  destruct (iblk_range G _ Hin) as (_ & Hib & _).
  assert (ist (sb := sb) (ds := ds) (upd f d1 i ip2) i ip2 W1 (iblk (sb := sb) (i_inum ip) :: X)) as HI2.
  { apply (ist_upd f i ip V X); try done. apply (meta_reserved G); [exact (proj2 Hib)|done]. }
  apply wp_bind. eapply wp_mono; [apply (iupdate_wp G _ i ip2 W1 _ HI2); [done|cbn [length]; lia|cbn [length]; lia]|]. intros [] f2 (d2 & -> & HS2).
  assert (set_dev d2 (upd f d1 i ip2) = upd f d2 i ip2) as -> by done.
  eapply wp_eq; [by apply puti_eq|]. cbn [fs_dev upd set_inodes set_dev]. rewrite upd_upd.
  eapply wp_eq; [by apply (iput_tail f d2 i ip)|]. exists d2, V1, (dropped (set_i_valid false ip2)). split; [done|]. split; [cbn; by rewrite Href|].
  split; [done|]. exact HS2.
Qed.

Lemma emptied_dinode ip : dinode_ok (dinode_of ip) -> dinode_ok (dinode_of (set_i_type 0 (emptied ip))).
Proof.
  intros [D1 D2 D3 D4]. split; cbn; [|done|done|repeat constructor; done].
  intros z Hz. apply elem_of_cons in Hz as [->|Hz]; [done|]. apply D1. by apply list_elem_of_further.
Qed.

(** ** Properties *)

(** C36: dropping a reference.  If it is the last reference to an inode
    without links, [iput] frees exactly the blocks of the file, marks the
    inode free on disk and leaves every other inode, the bits of all other
    blocks and the contents of every block outside the bitmap and this
    inode's block as they were; otherwise it only decrements the count. *)
Theorem iput_correct f i ip V X :
  ist (sb := sb) (ds := ds) f i ip V X -> file_ok (sb := sb) (ds := ds) V (i_addrs ip) -> 0 <= i_inum ip < sb_ninodes sb ->
  dinode_ok (dinode_of ip) -> "icache" ∉ fs_held f -> sl_locked (i_lock ip) = false -> 1 <= i_ref ip < 2 ^ 31 ->
  bitmaps_in X -> (2 + length X < IO_BUFS)%nat -> (1 + length X < io_cap)%nat ->
  if i_valid ip && (i_nlink ip =? 0) && (i_ref ip =? 1) then
    wp (iput i) (fun _ f' => exists d V' ip' X', f' = upd f d i ip' /\ bst d V' [] X' /\ i_ref ip' = 0 /\
      d_type (disk_inode (sb := sb) V' (i_inum ip)) = 0 /\
      (forall m, 0 <= m < sb_ninodes sb -> m <> i_inum ip -> disk_inode (sb := sb) V' m = disk_inode (sb := sb) V m) /\
      (forall c, 0 <= c < sb_size sb -> used sb V' c = true <-> used sb V c = true /\ ~ own V (i_addrs ip) c) /\
      (forall b, ~ bitmap_block (sb := sb) b -> b <> iblk (sb := sb) (i_inum ip) -> V' b = V b)) f
  else iput i f = Ok tt (upd f (fs_dev f) i (set_i_ref (i_ref ip - 1) (set_i_lock initsleeplock ip))).
Proof.
  intros HI Hok Hin Hd Hh Hu Href HX Hlen Hcap. pose proof HI as [H1 H2 H3 H4 H5].
  destruct (i_valid ip && (i_nlink ip =? 0) && (i_ref ip =? 1)) eqn:E.
  2:{ rewrite (iput_drop_eq f i ip H2 Hh Hu E). unfold dropped. cbn [i_ref set_i_lock]. by rewrite s32_id by lia. }
  boolify. eapply wp_mono; [by apply (iput_free_wp f i ip V X)|]. intros [] f' (d & V1 & ip' & -> & Hr0 & Hf & HS). cbv zeta in HS.
  set (W1 := put_inode V1 _ _) in HS. set (W2 := put_inode W1 _ _) in HS. destruct (iblk_range G _ Hin) as (_ & Hib & _).
  assert (forall m, 0 <= m < sb_ninodes sb -> ~ bitmap_block (sb := sb) (iblk (sb := sb) m)) as Hnb.
  { intros m Hm (c & Hc & E). destruct (iblk_range G m Hm) as (_ & ? & _). destruct (bmblock_range G c Hc) as (_ & ? & _). lia. }
  exists d, W2, ip', (iblk (sb := sb) (i_inum ip) :: iblk (sb := sb) (i_inum ip) :: X). split; [done|]. split; [done|]. split; [done|].
  split; [|split; [|split]].
  - unfold W2. rewrite disk_inode_put; [done| |by apply emptied_dinode]. unfold W1, put_inode. rewrite zupd_eq. apply put_dinode_block.
    rewrite (fd_other _ _ _ Hf) by (by apply Hnb). by eapply ist_blocks.
  - intros m Hm Hne. unfold W2, W1. rewrite !disk_inode_other by (try done; lia). unfold disk_inode. by rewrite (fd_other _ _ _ Hf) by (by apply Hnb).
  - intros c Hc. unfold W2, W1, put_inode. rewrite !(meta_used G) by (try done; lia). rewrite (fd_used _ _ _ Hf) by done.
    rewrite andb_true_iff, bool_decide_eq_true, file_blocks_own. done.
  - intros b Hb Hbi. unfold W2, W1, put_inode. rewrite !zupd_ne by done. by apply (fd_other _ _ _ Hf).
Qed.
End Trunc.

(** ** A concrete file *)

(** An open file without links whose one block is block 35. *)
Definition demo_addrs : list Z := 35 :: replicate 12 0.
Definition demo_open : inode := mk_inode ROOTDEV 2 1 initsleeplock true T_FILE 0 0 0 512 demo_addrs.
Definition demo_fs2 : fs fdev := set_inodes (demo_open :: replicate 49 (set_i_ref 0 (demo_inode 0))) demo_fs.

Lemma demo_blk bn : 0 <= bn < MAXFILE -> blk demo_V demo_addrs bn = if decide (bn = 0) then 35 else 0.
Proof.
  intros Hbn. unfold blk, NDIRECT. destruct (bn <? 12) eqn:E; boolify.
  - case_decide as D; [by subst|]. change demo_addrs with (35 :: replicate 12 0). destruct (Z.to_nat bn) as [|k] eqn:Ek; [lia|].
    cbn. apply list_lookup_total_correct. change [0; 0; 0; 0; 0; 0; 0; 0; 0; 0; 0; 0] with (replicate 12 0). apply lookup_replicate_2. lia.
  - by rewrite decide_False by lia.
Qed.

Lemma demo_open_ok : file_ok (sb := demo_sb) (ds := 35) demo_V demo_addrs.
Proof.
  split; [done|..].
  - intros b [H0 [E|(bn & Hbn & E)]]; [done|]. rewrite demo_blk in E by done. case_decide; [|done]. subst b. split; [done|apply demo_used].
  - intros bn Hbn. rewrite demo_blk by done. by case_decide.
  - intros bn bn' Hbn Hbn'. rewrite !demo_blk by done. repeat case_decide; congruence.
Qed.

Lemma demo_bitmaps : bitmaps_in (sb := demo_sb) [34].
Proof. intros b (c & Hc & ->). cbn in Hc. unfold bmblock, BPB. rewrite Z.div_small by lia. apply list_elem_of_here. Qed.

Lemma demo_ist2 : ist (HL := fdev_laws 2) (sb := demo_sb) (ds := 35) demo_fs2 0 demo_open demo_V [34].
Proof.
  split; [done|done|done| |exact demo_reserved]. eapply bst_weaken; [|exact demo_bst]. apply list_subseteq_nil.
Qed.

Lemma demo_open_dinode : dinode_ok (dinode_of demo_open).
Proof.
  split; [|done|done|compute_done]. intros z Hz. cbn in Hz. repeat (apply elem_of_cons in Hz as [->|Hz]; [done|]). by apply elem_of_nil in Hz.
Qed.

Lemma iput_correct_witness : exists f', iput 0 demo_fs2 = Ok tt f'.
Proof.
  destruct (wp_elim _ _ _ (iput_correct (HL := fdev_laws 2) demo_geom demo_fs2 0 demo_open demo_V [34] demo_ist2 demo_open_ok
    ltac:(done) demo_open_dinode ltac:(apply not_elem_of_empty) ltac:(done) ltac:(done) demo_bitmaps ltac:(compute_done) ltac:(compute_done)))
    as ([] & f' & E & _).
  exists f'. exact E.
Defined.
