(* ===== verification/Fsdir.v ===== *)
(** * Correctness of directories and paths (namecmp, dirlookup, dirlink,
      skipelem of fs.c) *)

From S2P Require Import Prelude Layout Block Blockio Bio Log Fs Fsblock Fsfile Fsinode.

(** ** Names *)

(** A directory entry's name field: [DIRSIZ] bytes, padded with NULs. *)
Lemma strncpy_b_length n t : length (strncpy_b n t) = n.
Proof. revert t. induction n as [|n IH]; intros t; [done|]. cbn [strncpy_b]. case_cond; [by rewrite length_replicate|]. cbn. by rewrite IH. Qed.

Lemma strncmp_b_refl n s : strncmp_b n s s = 0.
Proof. revert s. induction n as [|n IH]; intros s; [done|]. cbn [strncmp_b]. rewrite Z.eqb_refl, andb_true_r. case_cond; [apply IH|lia]. Qed.

(** Comparing with the padded copy. *)
Lemma strncmp_strncpy n s : strncmp_b n s (strncpy_b n s) = 0.
Proof.
  revert s. induction n as [|n IH]; intros s; [done|]. cbn [strncmp_b strncpy_b]. destruct (hd0 s =? 0) eqn:E; boolify.
  - rewrite E. done.
  - cbn [hd0 tail]. rewrite Z.eqb_refl. apply IH.
Qed.

Lemma strncpy_bytes n s : Forall (fun x => 0 <= x < 2 ^ 8) s -> Forall (fun x => 0 <= x < 2 ^ 8) (strncpy_b n s).
Proof.
  revert s. induction n as [|n IH]; intros s Hs; [constructor|]. cbn [strncpy_b]. destruct (hd0 s =? 0) eqn:E.
  - apply Forall_replicate. lia.
  - destruct s as [|c s]; [done|]. cbn. inversion Hs; subst. constructor; [done|]. by apply IH.
Qed.

Lemma dirent_fields name inum : length (mk_dirent name inum) = 16%nat /\ de_inum (mk_dirent name inum) = u16 inum /\
  de_name (mk_dirent name inum) = strncpy_b DIRSIZ name.
Proof.
  unfold mk_dirent. split; [cbn [app length]; by rewrite strncpy_b_length|]. split.
  - unfold de_inum, get16, get8. cbn [app lookup_total list_lookup_total Nat.add]. unfold u8, u16.
    change (2 ^ 16) with (2 ^ 8 * 2 ^ 8). rewrite (Z.rem_mul_r inum (2 ^ 8) (2 ^ 8)) by lia. lia.
  - unfold de_name, slice. cbn [app drop]. apply take_ge. by rewrite strncpy_b_length.
Qed.

(** ** Directory contents *)

Section Dir.
Context {S : Type} {HIO : BlockIO S} {HL : BlockLaws S}.
Context {sb : superblock} {ds : Z} (G : geom sb ds).
Context (dev_read : Z -> option (nat -> Z -> M (fs S) (Z * bytes))) (dev_write : Z -> option (nat -> bytes -> Z -> M (fs S) Z)).
Implicit Types (f : fs S) (V : Z -> bytes) (X : list Z).
Notation B := (Z.of_nat BSIZE).

Definition entry V (ip : inode) (k : nat) : bytes := bytes_at V (i_addrs ip) (16 * Z.of_nat k) 16.
Definition entries V (ip : inode) : list bytes := entry V ip <$> seq 0 (Z.to_nat (i_size ip / 16)).

(** The entry is in use and has this name. *)
Definition is_entry (name e : bytes) : Prop := de_inum e <> 0 /\ namecmp name (de_name e) = 0.
Definition is_free (e : bytes) : Prop := de_inum e = 0.

(** A directory: a file of whole entries. *)
Record dir_inode V (ip : inode) : Prop := {
  di_file : file_inode (sb := sb) (ds := ds) V ip;
  di_type : i_type ip = T_DIR;
  di_size : i_size ip mod 16 = 0
}.

Lemma entries_length V ip : length (entries V ip) = Z.to_nat (i_size ip / 16).
Proof. unfold entries. by rewrite length_fmap, length_seq. Qed.

Lemma dir_count V ip : dir_inode V ip -> i_size ip = 16 * Z.of_nat (length (entries V ip)).
Proof.
  intros [[_ _ Hs _] _ Hm]. rewrite entries_length. pose proof (Z.div_mod (i_size ip) 16 ltac:(done)).
  assert (0 <= i_size ip / 16) by (apply Z.div_pos; lia). lia.
Qed.

Lemma entries_lookup V ip k : (k < length (entries V ip))%nat -> entries V ip !! k = Some (entry V ip k).
Proof. intros Hk. unfold entries in *. rewrite list_lookup_fmap, lookup_seq_lt; [done|]. by rewrite length_fmap, length_seq in Hk. Qed.

(** Reading entry [k]. *)
Lemma read_entry f i ip V X k :
  ist (sb := sb) (ds := ds) f i ip V X -> dir_inode V ip -> (k < length (entries V ip))%nat -> (length X < IO_BUFS)%nat ->
  exists d, readi dev_read i (16 * Z.of_nat k) DESIZE f = Ok (16, entry V ip k) (set_dev d f) /\ bst d V [] X.
Proof.
  intros HI Hd Hk Hlen. pose proof (dir_count V ip Hd) as Hc. destruct Hd as [Hfi Hty Hm]. pose proof (fi_size _ _ Hfi) as Hs.
  change (MAXFILE * B) with 71680 in Hs. unfold DESIZE.
  pose proof (readi_wp G dev_read f i ip V X (16 * Z.of_nat k) 16 HI Hfi ltac:(lia) ltac:(lia) ltac:(lia) Hlen) as Hr. cbv zeta in Hr.
  apply wp_elim in Hr as (r & f' & E & d & -> & HS & Hr). rewrite (proj2 (Z.ltb_ge _ _)) in Hr by lia.
  exists d. split; [|done]. rewrite E, Hr. rewrite Z.min_l by lia. done.
Qed.

(** The scan of [dirlookup]. *)
Lemma dirlookup_loop_eq fuel f i ip V X name k :
  ist (sb := sb) (ds := ds) f i ip V X -> dir_inode V ip -> (length X < IO_BUFS)%nat ->
  (k <= length (entries V ip))%nat -> (length (entries V ip) - k < fuel)%nat ->
  exists d, bst d V [] X /\ dirlookup_loop dev_read fuel i name (16 * Z.of_nat k) f =
    match list_find (is_entry name) (drop k (entries V ip)) with
    | Some (j, e) => (n <- iget (i_dev ip) (de_inum e) ;; kret (Some (n, 16 * Z.of_nat (k + j)))) (set_dev d f)
    | None => Ok None (set_dev d f)
    end.
Proof.
  revert f k. induction fuel as [|fuel IH]; intros f k HI Hd Hlen Hk Hfuel; [lia|].
  cbn [dirlookup_loop]. rewrite (kbind_ok _ _ _ _ _ (geti_eq _ _ _ (is_ip _ _ _ _ _ HI))). pose proof (dir_count V ip Hd) as Hc.
  destruct (16 * Z.of_nat k <? i_size ip) eqn:E; boolify.
  2:{ exists (fs_dev f). split; [apply HI|]. rewrite drop_ge by lia. unfold kret. f_equal. by destruct f. }
  assert (k < length (entries V ip))%nat as Hlt by lia.
  destruct (read_entry f i ip V X k HI Hd Hlt Hlen) as (d & Er & HS). rewrite (kbind_ok _ _ _ _ _ Er). cbn [fst snd].
  change (negb (16 =? DESIZE)) with false. cbv iota.
  rewrite (drop_S _ _ _ (entries_lookup V ip k Hlt)). cbn [list_find]. set (e := entry V ip k).
  destruct (IH (set_dev d f) (Datatypes.S k)) as (d' & HS' & E'); [by apply (ist_dev f)|done|done|lia|lia|].
  replace (16 * Z.of_nat (Datatypes.S k)) with (16 * Z.of_nat k + DESIZE) in E' by (unfold DESIZE; lia).
  destruct (de_inum e =? 0) eqn:E0; boolify.
  - exists d'. split; [done|]. rewrite E'. rewrite decide_False by (by intros [? _]).
    destruct (list_find _ _) as [[j q]|]; cbn [fmap option_fmap option_map prod_map fst snd]; [|done].
    by replace (Datatypes.S k + j)%nat with (k + Datatypes.S j)%nat by lia.
  - destruct (namecmp name (de_name e) =? 0) eqn:En; boolify.
    + exists d. split; [done|]. rewrite decide_True by done. by rewrite Nat.add_0_r.
    + exists d'. split; [done|]. rewrite E'. rewrite decide_False by (by intros [_ ?]).
      destruct (list_find _ _) as [[j q]|]; cbn [fmap option_fmap option_map prod_map fst snd]; [|done].
      by replace (Datatypes.S k + j)%nat with (k + Datatypes.S j)%nat by lia.
Qed.

Lemma dirlookup_eq f i ip V X name :
  ist (sb := sb) (ds := ds) f i ip V X -> dir_inode V ip -> (length X < IO_BUFS)%nat ->
  exists d, bst d V [] X /\ dirlookup dev_read i name f =
    match list_find (is_entry name) (entries V ip) with
    | Some (j, e) => (n <- iget (i_dev ip) (de_inum e) ;; kret (Some (n, 16 * Z.of_nat j))) (set_dev d f)
    | None => Ok None (set_dev d f)
    end.
Proof.
  intros HI Hd Hlen. pose proof (di_type _ _ Hd) as Ht. unfold dirlookup.
  destruct (dirlookup_loop_eq (Datatypes.S (Z.to_nat (i_size ip / DESIZE + 1))) f i ip V X name 0 HI Hd Hlen) as (d & HS & E); [lia| |].
  { rewrite entries_length. unfold DESIZE. lia. }
  exists d. split; [done|]. rewrite (kbind_ok _ _ _ _ _ (geti_eq _ _ _ (is_ip _ _ _ _ _ HI))), Ht. exact E.
Qed.

(** The scan of [dirlink] for a free entry. *)
Definition slot V ip : nat := match list_find is_free (entries V ip) with Some (j, _) => j | None => length (entries V ip) end.

Lemma dirlink_loop_eq fuel f i ip V X k :
  ist (sb := sb) (ds := ds) f i ip V X -> dir_inode V ip -> (length X < IO_BUFS)%nat ->
  (k <= length (entries V ip))%nat -> (length (entries V ip) - k < fuel)%nat ->
  exists d, bst d V [] X /\ dirlink_loop dev_read fuel i (16 * Z.of_nat k) f =
    Ok (16 * Z.of_nat (match list_find is_free (drop k (entries V ip)) with Some (j, _) => k + j | None => length (entries V ip) end)%nat) (set_dev d f).
Proof.
  revert f k. induction fuel as [|fuel IH]; intros f k HI Hd Hlen Hk Hfuel; [lia|].
  cbn [dirlink_loop]. rewrite (kbind_ok _ _ _ _ _ (geti_eq _ _ _ (is_ip _ _ _ _ _ HI))). pose proof (dir_count V ip Hd) as Hc.
  destruct (16 * Z.of_nat k <? i_size ip) eqn:E; boolify.
  2:{ exists (fs_dev f). split; [apply HI|]. rewrite drop_ge by lia. cbn [list_find]. unfold kret. f_equal; [lia|by destruct f]. }
  assert (k < length (entries V ip))%nat as Hlt by lia.
  destruct (read_entry f i ip V X k HI Hd Hlt Hlen) as (d & Er & HS). rewrite (kbind_ok _ _ _ _ _ Er). cbn [fst snd].
  change (negb (16 =? DESIZE)) with false. cbv iota.
  rewrite (drop_S _ _ _ (entries_lookup V ip k Hlt)). cbn [list_find]. set (e := entry V ip k).
  destruct (de_inum e =? 0) eqn:E0; boolify.
  - exists d. split; [done|]. rewrite decide_True by done. by rewrite Nat.add_0_r.
  - destruct (IH (set_dev d f) (Datatypes.S k)) as (d' & HS' & E'); [by apply (ist_dev f)|done|done|lia|lia|].
    replace (16 * Z.of_nat (Datatypes.S k)) with (16 * Z.of_nat k + DESIZE) in E' by (unfold DESIZE; lia).
    exists d'. split; [done|]. rewrite E'. rewrite decide_False by done.
    destruct (list_find _ _) as [[j q]|]; cbn [fmap option_fmap option_map prod_map fst snd]; [|done]. do 3 f_equal. lia.
Qed.

Lemma slot_le V ip : (slot V ip <= length (entries V ip))%nat.
Proof. unfold slot. destruct (list_find _ _) as [[j e]|] eqn:E; [|lia]. apply list_find_Some in E as (Hj & _). apply lookup_lt_Some in Hj. lia. Qed.

Lemma nblk_entry k : nblk (16 * Z.of_nat k) 16 = 1%nat.
Proof.
  unfold nblk. change (16 <=? 0) with false. cbv iota. change B with 512.
  assert ((16 * Z.of_nat k + 16 - 1) / 512 = 16 * Z.of_nat k / 512) as ->; [|lia].
  pose proof (Z.div_mod (Z.of_nat k) 32 ltac:(done)). pose proof (Z.mod_pos_bound (Z.of_nat k) 32 ltac:(done)).
  rewrite <- (Z.div_unique_pos (16 * Z.of_nat k + 16 - 1) 512 (Z.of_nat k / 32) (16 * (Z.of_nat k mod 32) + 15)) by lia.
  by rewrite <- (Z.div_unique_pos (16 * Z.of_nat k) 512 (Z.of_nat k / 32) (16 * (Z.of_nat k mod 32))) by lia.
Qed.

(** The entries after entry [j] has been written. *)
Lemma entries_written V ip V' a' e j :
  dir_inode V ip -> (j <= length (entries V ip))%nat -> length e = 16%nat -> 16 * Z.of_nat j + 16 <= MAXFILE * B ->
  let ip' := resized a' (Z.max (i_size ip) (16 * Z.of_nat j + 16)) ip in
  written (sb := sb) (ds := ds) V ip V' ip' e (16 * Z.of_nat j) 16 ->
  dir_inode V' ip' /\ entries V' ip' = if decide (j < length (entries V ip))%nat then <[j := e]> (entries V ip) else entries V ip ++ [e].
Proof.
  intros Hd Hj He Hmax ip' [[Wi Ws] Wb _ _ _ _ _ _ _ _]. pose proof (dir_count V ip Hd) as Hc. cbn in Ws.
  assert (dir_inode V' ip') as Hd'.
  { split; [done|apply (di_type _ _ Hd)|]. unfold ip'. cbn. rewrite Hc. destruct (Z.max_spec (16 * Z.of_nat (length (entries V ip))) (16 * Z.of_nat j + 16)) as [[_ ->]|[_ ->]].
    - replace (16 * Z.of_nat j + 16) with ((Z.of_nat j + 1) * 16) by lia. by rewrite Z.mod_mul.
    - rewrite Z.mul_comm. by rewrite Z.mod_mul. }
  split; [done|]. pose proof (dir_count V' ip' Hd') as Hc'. cbn in Hc'. rewrite Hc in Hc'.
  assert (forall k, (k < length (entries V' ip'))%nat -> entry V' ip' k = if decide (k = j) then e else entry V ip k) as Hent.
  { intros k Hk. unfold entry. apply list_eq. intros x. assert (i_size ip' <= MAXFILE * B) as Hs' by apply (fi_size _ _ Wi).
    cbn in Hs'. destruct (decide (x < 16)%nat) as [Hx|Hx].
    - rewrite bytes_at_Some by lia. rewrite Wb by lia. destruct (decide (k = j)) as [->|Hne].
      + rewrite decide_True by lia. replace (Z.to_nat _) with x by lia. symmetry. apply list_lookup_lookup_total_lt. lia.
      + rewrite decide_False by lia. by rewrite bytes_at_Some by lia.
    - rewrite lookup_ge_None_2 by (rewrite bytes_at_length; lia). symmetry. case_decide; apply lookup_ge_None_2; [lia|rewrite bytes_at_length; lia]. }
  apply list_eq. intros k. destruct (decide (k < length (entries V' ip'))%nat) as [Hk|Hk].
  - rewrite entries_lookup, Hent by done. destruct (decide (j < length (entries V ip))%nat) as [Hjl|Hjl].
    + destruct (decide (k = j)) as [->|Hne]; [by rewrite list_lookup_insert_eq|]. rewrite list_lookup_insert_ne by done. rewrite entries_lookup; [done|lia].
    + destruct (decide (k = j)) as [->|Hne]; [rewrite lookup_app_r by lia; by replace (j - length (entries V ip))%nat with 0%nat by lia|].
      rewrite lookup_app_l by lia. rewrite entries_lookup; [done|lia].
  - rewrite lookup_ge_None_2 by lia. symmetry. apply lookup_ge_None_2. case_decide; rewrite ?length_insert, ?length_app; cbn [length]; lia.
Qed.

Definition linked V ip (e : bytes) : list bytes :=
  if decide (slot V ip < length (entries V ip))%nat then <[slot V ip := e]> (entries V ip) else entries V ip ++ [e].

Lemma linked_find name e V ip : list_find (is_entry name) (entries V ip) = None -> is_entry name e ->
  list_find (is_entry name) (linked V ip e) = Some (slot V ip, e).
Proof.
  intros Hn He. apply list_find_None in Hn. rewrite list.Forall_forall in Hn. pose proof (slot_le V ip) as Hs.
  assert (forall k y, entries V ip !! k = Some y -> ~ is_entry name y) as Hno by (intros k y Hk; apply Hn; by eapply list_elem_of_lookup_2).
  apply list_find_Some. unfold linked. case_decide as D.
  - split; [by apply list_lookup_insert_eq|]. split; [done|]. intros k y Hk Hlt. rewrite list_lookup_insert_ne in Hk by lia. by apply (Hno k).
  - split; [rewrite lookup_app_r by lia; by replace (slot V ip - length (entries V ip))%nat with 0%nat by lia|]. split; [done|].
    intros k y Hk Hlt. rewrite lookup_app_l in Hk by lia. by apply (Hno k).
Qed.

Lemma dirlink_written f i ip V X name inum :
  ist (sb := sb) (ds := ds) f i ip V X -> dir_inode V ip -> 0 <= i_inum ip < sb_ninodes sb -> dinode_ok (dinode_of ip) ->
  list_find (is_entry name) (entries V ip) = None -> Forall (fun x => 0 <= x < 2 ^ 8) name ->
  16 * Z.of_nat (slot V ip) + 16 <= MAXFILE * B -> (2 <= nfree (sb := sb) V)%nat -> (length X + 6 < io_cap)%nat -> (io_cap <= IO_BUFS)%nat ->
  wp (dirlink dev_read dev_write i name inum) (fun r f' => r = 0 /\ exists d a' V' X',
    let ip' := resized a' (Z.max (i_size ip) (16 * Z.of_nat (slot V ip) + 16)) ip in
    f' = upd f d i ip' /\ bst d V' [] X' /\ (length X' <= length X + 7)%nat /\
    written (sb := sb) (ds := ds) V ip V' ip' (mk_dirent name inum) (16 * Z.of_nat (slot V ip)) 16 /\
    dir_inode V' ip' /\ entries V' ip' = linked V ip (mk_dirent name inum)) f.
Proof.
  intros HI Hd Hin Hdk Hnone Hby Hmax Hfree Hcap Hio. pose proof HI as [H1 H2 H3 H4 H5].
  destruct (dirlookup_eq f i ip V X name HI Hd) as (d & HS & E); [lia|]. rewrite Hnone in E.
  unfold dirlink. apply wp_bind. eapply wp_eq; [exact E|]. cbv iota. apply wp_bind. eapply wp_eq; [by apply geti_eq|].
  assert (ist (sb := sb) (ds := ds) (set_dev d f) i ip V X) as HI1 by (by apply (ist_dev f)).
  destruct (dirlink_loop_eq (Datatypes.S (Z.to_nat (i_size ip / DESIZE + 1))) (set_dev d f) i ip V X 0 HI1 Hd) as (d2 & HS2 & E2); [lia|lia| |].
  { rewrite entries_length. unfold DESIZE. lia. }
  rewrite drop_0 in E2. change (match list_find is_free (entries V ip) with Some (j, _) => (0 + j)%nat | None => length (entries V ip) end) with (slot V ip) in E2.
  apply wp_bind. eapply wp_eq; [exact E2|]. apply wp_bind. destruct (dirent_fields name inum) as (He & _). pose proof (slot_le V ip) as Hs.
  pose proof (dir_count V ip Hd) as Hc. unfold DESIZE.
  assert (ist (sb := sb) (ds := ds) (set_dev d2 (set_dev d f)) i ip V X) as HI2 by (by apply (ist_dev f)).
  eapply wp_mono; [apply (writei_wp G dev_write _ i ip V X (mk_dirent name inum) (16 * Z.of_nat (slot V ip)) 16 HI2); rewrite ?nblk_entry, ?He; try done; try lia|].
  - apply Hd.
  - unfold mk_dirent. repeat (apply list.Forall_cons; split; [apply Z.mod_pos_bound; lia|]). by apply strncpy_bytes.
  - intros r f' [-> (d3 & ip' & V' & X' & -> & HS3 & HX' & HW & a' & ->)]. cbn [Z.eqb negb]. change (negb (16 =? 16)) with false. cbv iota. apply wp_ret.
    destruct (entries_written V ip V' a' (mk_dirent name inum) (slot V ip) Hd Hs He Hmax HW) as [Hd' He'].
    split; [done|]. exists d3, a', V', X'. split; [done|]. split; [done|]. split; [rewrite nblk_entry in HX'; lia|]. by split_and!.
Qed.

Lemma dirlink_wp f i ip V X name inum :
  ist (sb := sb) (ds := ds) f i ip V X -> dir_inode V ip -> 0 <= i_inum ip < sb_ninodes sb -> dinode_ok (dinode_of ip) ->
  list_find (is_entry name) (entries V ip) = None -> Forall (fun x => 0 <= x < 2 ^ 8) name ->
  16 * Z.of_nat (slot V ip) + 16 <= MAXFILE * B -> (2 <= nfree (sb := sb) V)%nat -> (length X + 6 < io_cap)%nat -> (io_cap <= IO_BUFS)%nat ->
  wp (dirlink dev_read dev_write i name inum) (fun r f' => r = 0 /\ exists d ip' V' X', f' = upd f d i ip' /\ i_dev ip' = ROOTDEV /\
    (length X' <= length X + 7)%nat /\ ist (sb := sb) (ds := ds) f' i ip' V' X' /\ dir_inode V' ip' /\ entries V' ip' = linked V ip (mk_dirent name inum)) f.
Proof.
  intros HI Hd Hin Hdk Hnone Hby Hmax Hfree Hcap Hio. pose proof HI as [H1 H2 H3 H4 H5].
  eapply wp_mono; [by apply (dirlink_written f i ip V X)|]. intros r f' (-> & d & a' & V' & X' & -> & HS & HX & HW & Hd' & He). split; [done|].
  eexists d, _, V', X'. split; [done|]. split; [done|]. split; [done|]. split; [|by split].
  apply (ist_upd f i ip V X); try done. apply HW.
Qed.

(** ** Properties *)

(** [dirlookup] scans the directory for the first entry in use with the
    name, in the sense of [strncmp] on [DIRSIZ] bytes, and takes a reference
    to its inode; it returns 0 when there is none. *)
Theorem dirlookup_correct f i ip V X name :
  ist (sb := sb) (ds := ds) f i ip V X -> dir_inode V ip -> (length X < IO_BUFS)%nat ->
  exists d, bst d V [] X /\ dirlookup dev_read i name f =
    match list_find (is_entry name) (entries V ip) with
    | Some (j, e) => (n <- iget ROOTDEV (de_inum e) ;; kret (Some (n, 16 * Z.of_nat j))) (set_dev d f)
    | None => Ok None (set_dev d f)
    end.
Proof. intros HI Hd Hlen. rewrite <- (is_dev _ _ _ _ _ HI). by apply dirlookup_eq. Qed.

(** C39: linking and looking up.  [dirlink] of a name that is not in the
    directory puts the entry in the first free slot, or appends it, and keeps
    all other entries; a lookup of the name then finds exactly that inode
    number at that offset. *)
Theorem dirlink_dirlookup f i ip V X name inum :
  ist (sb := sb) (ds := ds) f i ip V X -> dir_inode V ip -> 0 <= i_inum ip < sb_ninodes sb -> dinode_ok (dinode_of ip) ->
  list_find (is_entry name) (entries V ip) = None -> Forall (fun x => 0 <= x < 2 ^ 8) name -> 0 < inum < 2 ^ 16 ->
  16 * Z.of_nat (slot V ip) + 16 <= MAXFILE * B -> (2 <= nfree (sb := sb) V)%nat -> (length X + 7 < io_cap)%nat -> (io_cap <= IO_BUFS)%nat ->
  wp (dirlink dev_read dev_write i name inum) (fun r f' => r = 0 /\
    (exists V' ip', entries V' ip' = linked V ip (mk_dirent name inum) /\ fs_inodes f' !! i = Some ip' /\ dir_inode V' ip') /\
    exists d, dirlookup dev_read i name f' =
      (n <- iget ROOTDEV inum ;; kret (Some (n, 16 * Z.of_nat (slot V ip)))) (set_dev d f')) f.
Proof.
  intros HI Hd Hin Hdk Hnone Hby Hinum Hmax Hfree Hcap Hio.
  eapply wp_mono; [apply (dirlink_wp f i ip V X name inum); try done; lia|].
  intros r f' [-> (d & ip' & V' & X' & -> & Hdev & HX' & HI' & Hd' & He')]. split; [done|].
  split; [exists V', ip'; split; [done|]; split; [apply HI'|done]|].
  destruct (dirlookup_eq _ i ip' V' X' name HI' Hd') as (d2 & _ & E); [lia|]. exists d2. rewrite E, He'.
  destruct (dirent_fields name inum) as (_ & En & Enm).
  rewrite (linked_find name (mk_dirent name inum) V ip Hnone).
  - rewrite En, Hdev. unfold u16. by rewrite Z.mod_small by lia.
  - split; [rewrite En; unfold u16; rewrite Z.mod_small; lia|]. rewrite Enm. apply strncmp_strncpy.
Qed.
End Dir.

(** ** Path elements *)

(** The elements of a path: the maximal runs without slashes. *)
Fixpoint elems_aux (path cur : bytes) : list bytes :=
  match path with
  | [] => if bool_decide (cur = []) then [] else [cur]
  | c :: path' =>
      if c =? SLASH then (if bool_decide (cur = []) then elems_aux path' [] else cur :: elems_aux path' [])
      else elems_aux path' (cur ++ [c])
  end.
Definition elems (path : bytes) : list bytes := elems_aux path [].

Lemma elems_skip path : elems (skip_slashes path) = elems path.
Proof. induction path as [|c path IH]; [done|]. unfold elems in *. cbn [skip_slashes elems_aux]. destruct (c =? SLASH) eqn:E; [exact IH|]. cbn [elems_aux]. by rewrite E. Qed.

Lemma skip_slashes_head path : match skip_slashes path with [] => True | c :: _ => c <> SLASH end.
Proof. induction path as [|c path IH]; [done|]. cbn. destruct (c =? SLASH) eqn:E; [done|]. by boolify. Qed.

Lemma skip_slashes_length path : (length (skip_slashes path) <= length path)%nat.
Proof. induction path as [|c path IH]; [done|]. cbn. destruct (c =? SLASH); cbn; lia. Qed.

Lemma elems_cur path cur : cur <> [] \/ elem_len path <> 0%nat ->
  elems_aux path cur = (cur ++ take (elem_len path) path) :: elems (drop (elem_len path) path).
Proof.
  revert cur. induction path as [|c path IH]; intros cur Hc; cbn [elems_aux elem_len].
  - destruct Hc as [Hc|Hc]; [|done]. rewrite bool_decide_false by done. cbn. by rewrite app_nil_r.
  - destruct (c =? SLASH) eqn:E.
    + cbn [elem_len] in Hc. rewrite E in Hc. destruct Hc as [Hc|Hc]; [|done]. rewrite bool_decide_false by done. cbn. rewrite app_nil_r.
      unfold elems. cbn [elems_aux]. by rewrite E.
    + rewrite IH by (left; by destruct cur). cbn [take drop]. by rewrite <- app_assoc.
Qed.

Lemma elem_len_pos c path : c <> SLASH -> elem_len (c :: path) <> 0%nat.
Proof. intros Hc. cbn. rewrite (proj2 (Z.eqb_neq _ _)) by done. done. Qed.

Lemma elem_len_le path : (elem_len path <= length path)%nat.
Proof. induction path as [|c path IH]; cbn; [lia|]. destruct (c =? SLASH); lia. Qed.

(** Path elements.  [skipelem] returns 0 exactly for a path without
    elements; otherwise it takes off the first element: the rest of the path
    has the remaining elements and no leading slash and is shorter, and
    [name] holds the element cut to [DIRSIZ] bytes, with a terminating NUL
    when it is shorter. *)
Theorem skipelem_correct path name :
  length name = DIRSIZ ->
  match skipelem path name with
  | None => elems path = []
  | Some (rest, name') => exists e, elems path = e :: elems rest /\ (length rest < length path)%nat /\ head rest <> Some SLASH /\
      length name' = DIRSIZ /\ take (Nat.min DIRSIZ (length e)) name' = take DIRSIZ e /\
      ((length e < DIRSIZ)%nat -> name' !! length e = Some 0)
  end.
Proof.
  intros Hn. unfold skipelem. rewrite <- (elems_skip path). pose proof (skip_slashes_head path) as Hh. pose proof (skip_slashes_length path) as Hl.
  destruct (skip_slashes path) as [|c p] eqn:Ep; [done|]. set (len := elem_len (c :: p)).
  pose proof (elem_len_le (c :: p)) as Hle. fold len in Hle. pose proof (elem_len_pos c p Hh) as Hpos. fold len in Hpos.
  pose proof (elems_cur (c :: p) [] (or_intror Hpos)) as Ee. cbn [app] in Ee. fold len in Ee. fold (elems (c :: p)) in Ee.
  set (e := take len (c :: p)) in *. assert (length e = len) as He by (unfold e; rewrite length_take; lia).
  exists e. rewrite elems_skip. split; [done|]. split; [|split].
  - eapply Nat.le_lt_trans; [apply skip_slashes_length|]. rewrite length_drop. lia.
  - pose proof (skip_slashes_head (drop len (c :: p))). destruct (skip_slashes (drop len (c :: p))); cbn; congruence.
  - rewrite He. unfold splice. rewrite !take_0. cbn [app Nat.add]. destruct (decide (DIRSIZ <= len)%nat) as [D|D].
    + assert (take DIRSIZ (c :: p) = take DIRSIZ e) as Et by (unfold e; rewrite take_take; f_equal; lia).
      rewrite Et. assert (length (take DIRSIZ e) = DIRSIZ) as Hte by (rewrite length_take; lia).
      rewrite Hte, drop_ge, app_nil_r, Nat.min_l by lia.
      split; [done|]. split; [by rewrite take_take, Nat.min_id|lia].
    + fold e. rewrite !length_app, length_drop, He. cbn [length]. unfold DIRSIZ in *. split; [lia|]. split.
      * rewrite Nat.min_r by lia. rewrite <- app_assoc. rewrite take_app_le by lia. by rewrite !take_ge by lia.
      * intros _. rewrite <- app_assoc, lookup_app_r by lia. by rewrite He, Nat.sub_diag.
Qed.

Lemma skipelem_correct_witness : exists rest name', skipelem [47; 97; 47; 47; 98] (replicate DIRSIZ 7) = Some (rest, name') /\ elems rest = [[98]].
Proof.
  pose proof (skipelem_correct [47; 97; 47; 47; 98] (replicate DIRSIZ 7) eq_refl) as H.
  destruct (skipelem [47; 97; 47; 47; 98] (replicate DIRSIZ 7)) as [[rest name']|] eqn:E; [|discriminate E].
  destruct H as (e & He & _). exists rest, name'. split; [reflexivity|]. vm_compute in He. injection He as _ He. exact (eq_sym He).
Defined.

(** ** A concrete directory *)

Definition demo_dp : inode := mk_inode ROOTDEV 1 1 initsleeplock true T_DIR 0 0 1 512 (35 :: replicate 12 0).
Definition demo_fs3 : fs fdev := set_inodes (demo_dp :: replicate 49 (set_i_ref 0 (demo_inode 0))) demo_fs.

Lemma demo_dp_blk bn : 0 <= bn < MAXFILE -> blk demo_V (i_addrs demo_dp) bn = if decide (bn = 0) then 35 else 0.
Proof.
  intros Hbn. unfold blk, NDIRECT. destruct (bn <? 12) eqn:E; boolify.
  - case_decide as D; [by subst|]. destruct (Z.to_nat bn) as [|k] eqn:Ek; [lia|].
    cbn. apply list_lookup_total_correct. change [0; 0; 0; 0; 0; 0; 0; 0; 0; 0; 0; 0] with (replicate 12 0). apply lookup_replicate_2. lia.
  - by rewrite decide_False by lia.
Qed.

Lemma demo_dp_dir : dir_inode (sb := demo_sb) (ds := 35) demo_V demo_dp.
Proof.
  split; [|done|done]. split; [|done|done|].
  - split; [done|..].
    + intros b [H0 [E|(bn & Hbn & E)]]; [done|]. rewrite demo_dp_blk in E by done. case_decide; [|done]. subst b. split; [done|apply demo_used].
    + intros bn Hbn. rewrite demo_dp_blk by done. by case_decide.
    + intros bn bn' Hbn Hbn'. rewrite !demo_dp_blk by done. repeat case_decide; congruence.
  - intros x Hx. cbn in Hx. change (Z.of_nat BSIZE) with 512. rewrite Z.div_small by lia. done.
Qed.

Lemma demo_dp_ist : ist (HL := fdev_laws 2) (sb := demo_sb) (ds := 35) demo_fs3 0 demo_dp demo_V [].
Proof. split; [done|done|done|apply demo_bst|exact demo_reserved]. Qed.

Lemma demo_dp_dinode : dinode_ok (dinode_of demo_dp).
Proof.
  split; [|done|done|compute_done]. intros z Hz. cbn in Hz. repeat (apply elem_of_cons in Hz as [->|Hz]; [done|]). by apply elem_of_nil in Hz.
Qed.

Lemma demo_no_b : list_find (is_entry [98]) (entries demo_V demo_dp) = None /\ slot demo_V demo_dp = 1%nat.
Proof. split; vm_compute; reflexivity. Qed.

Lemma dirlookup_correct_witness : exists d, dirlookup no_read 0 [98] demo_fs3 = Ok None (set_dev d demo_fs3).
Proof.
  destruct (dirlookup_correct (HL := fdev_laws 2) demo_geom no_read demo_fs3 0 demo_dp demo_V [] [98] demo_dp_ist demo_dp_dir ltac:(compute_done)) as (d & _ & E).
  rewrite (proj1 demo_no_b) in E. exists d. exact E.
Defined.

Lemma dirlink_dirlookup_witness : exists f', dirlink no_read no_write 0 [98] 3 demo_fs3 = Ok 0 f'.
Proof.
  assert (16 * Z.of_nat (slot demo_V demo_dp) + 16 <= MAXFILE * Z.of_nat BSIZE) as H1 by (rewrite (proj2 demo_no_b); done).
  assert (2 <= nfree (sb := demo_sb) demo_V)%nat as H2 by (rewrite demo_nfree; lia).
  assert (Forall (fun x => 0 <= x < 2 ^ 8) [98]) as H3 by compute_done.
  destruct (wp_elim _ _ _ (dirlink_dirlookup (HL := fdev_laws 2) demo_geom no_read no_write demo_fs3 0 demo_dp demo_V [] [98] 3 demo_dp_ist demo_dp_dir
    ltac:(done) demo_dp_dinode (proj1 demo_no_b) H3 ltac:(done) H1 H2 ltac:(compute_done) ltac:(compute_done))) as (r & f' & E & -> & _).
  exists f'. exact E.
Defined.
