(* ===== verification/Spinlock.v ===== *)
(** * Spin locks on several CPUs (spinlock.c, mycpu and myproc of proc.c)

    [pushcli], [popcli] and [holding] act on the calling CPU's [struct cpu]
    and the lock; [acquire] and [release] are split at every access to the
    lock, so that the steps of the CPUs interleave between them.  Interrupts
    arrive on a CPU whenever its interrupt flag is set. *)

From stdpp Require Import functions.
From S2P Require Import Prelude Layout Mem.

(** ** Data *)

(** [struct cpu], the fields the locks use, with the CPU's interrupt flag
    (FL_IF of its eflags). *)
Record cpu := mk_cpu { ncli : Z; intena : bool; IF : bool }.

(** [struct spinlock]; [name] and [pcs] serve debugging only. *)
Record spinlock := mk_spinlock { locked : Z; lk_cpu : option nat }.

Definition initlock : spinlock := mk_spinlock 0 None.

(** Where a CPU is: outside the lock code, or at an access to lock [l]. *)
Inductive pc :=
| Run
| AcqLocked (l : nat)        (* acquire: holding() is about to read lk->locked *)
| AcqCpu (l : nat)           (* acquire: holding() is about to read lk->cpu *)
| AcqSpin (l : nat)          (* acquire: at the xchg *)
| AcqOwn (l : nat)           (* acquire: about to set lk->cpu *)
| RelLocked (l : nat)        (* release: the first holding() *)
| RelCpu (l : nat)
| RelOwn (l : nat)           (* release: about to clear lk->cpu *)
| RelUnlock (l : nat)        (* release: about to clear lk->locked *)
| RelPop (l : nat)           (* release: about to call popcli *)
| RelDone (l : nat)          (* release: popcli has returned *)
| RelCheckLocked (l : nat)   (* release: the second holding() *)
| RelCheckCpu (l : nat)
| Dead (msg : string).       (* panic *)

#[export] Instance pc_eq_dec : EqDecision pc.
Proof. solve_decision. Defined.

Record machine := mk_machine {
  cpus : nat -> cpu;
  locks : nat -> spinlock;
  pcs : nat -> pc;
  in_trap : nat -> option pc   (* the point an interrupt handler returns to *)
}.

(** ** pushcli and popcli *)

Definition pushcli (c : cpu) : cpu :=
  let eflags := IF c in
  mk_cpu (ncli c + 1) (if ncli c =? 0 then eflags else intena c) false.

Definition popcli (c : cpu) : cpu + string :=
  if IF c then inr "popcli - interruptible"
  else if ncli c - 1 <? 0 then inr "popcli"
  else inl (mk_cpu (ncli c - 1) (intena c) ((ncli c - 1 =? 0) && intena c)).

(** [getcallerpcs]: the saved program counters up the %ebp chain. *)
Fixpoint caller_pcs (n : nat) (m : mem) (ebp : Z) : list Z :=
  match n with
  | O => []
  | S n' =>
      if (ebp =? 0) || (ebp <? KERNBASE) || (ebp =? 0xffffffff) then replicate n 0
      else ld32 m (u32 (ebp + 4)) :: caller_pcs n' m (ld32 m ebp)
  end.
Definition getcallerpcs (m : mem) (v : Z) : list Z := caller_pcs 10 m (u32 (v - 8)).

(** ** acquire and release, one access to the lock at a time *)

Definition set_cpu (c : nat) (k : cpu) (m : machine) : machine :=
  mk_machine (<[c := k]> (cpus m)) (locks m) (pcs m) (in_trap m).
Definition set_lock (l : nat) (k : spinlock) (m : machine) : machine :=
  mk_machine (cpus m) (<[l := k]> (locks m)) (pcs m) (in_trap m).
Definition at_pc (c : nat) (p : pc) (m : machine) : machine :=
  mk_machine (cpus m) (locks m) (<[c := p]> (pcs m)) (in_trap m).
Definition set_trap (c : nat) (t : option pc) (m : machine) : machine :=
  mk_machine (cpus m) (locks m) (pcs m) (<[c := t]> (in_trap m)).

(** [popcli()], continuing at [next]. *)
Definition pop_to (c : nat) (next : pc) (m : machine) : machine :=
  match popcli (cpus m c) with
  | inl k => at_pc c next (set_cpu c k m)
  | inr msg => at_pc c (Dead msg) m
  end.
Definition push_to (c : nat) (next : pc) (m : machine) : machine :=
  at_pc c next (set_cpu c (pushcli (cpus m c)) m).

(** [acquire(&lk)]: pushcli, then the pushcli of holding(). *)
Definition enter_acquire (c l : nat) (m : machine) : machine :=
  push_to c (AcqLocked l) (push_to c (AcqLocked l) m).
Definition enter_release (c l : nat) (m : machine) : machine := push_to c (RelLocked l) m.

Definition lock_step (c : nat) (m : machine) : machine :=
  match pcs m c with
  | Run | Dead _ => m
  | AcqLocked l =>
      if locked (locks m l) =? 0 then pop_to c (AcqSpin l) m else at_pc c (AcqCpu l) m
  | AcqCpu l =>
      if decide (lk_cpu (locks m l) = Some c) then pop_to c (Dead "acquire") m
      else pop_to c (AcqSpin l) m
  | AcqSpin l =>
      let old := locked (locks m l) in
      let m' := set_lock l (mk_spinlock 1 (lk_cpu (locks m l))) m in
      if old =? 0 then at_pc c (AcqOwn l) m' else m'
  | AcqOwn l => at_pc c Run (set_lock l (mk_spinlock (locked (locks m l)) (Some c)) m)
  | RelLocked l =>
      if locked (locks m l) =? 0 then pop_to c (Dead "release") m else at_pc c (RelCpu l) m
  | RelCpu l =>
      if decide (lk_cpu (locks m l) = Some c) then pop_to c (RelOwn l) m
      else pop_to c (Dead "release") m
  | RelOwn l => at_pc c (RelUnlock l) (set_lock l (mk_spinlock (locked (locks m l)) None) m)
  | RelUnlock l => at_pc c (RelPop l) (set_lock l (mk_spinlock 0 (lk_cpu (locks m l))) m)
  | RelPop l => pop_to c (RelDone l) m
  | RelDone l => push_to c (RelCheckLocked l) m
  | RelCheckLocked l =>
      if locked (locks m l) =? 0 then pop_to c Run m else at_pc c (RelCheckCpu l) m
  | RelCheckCpu l =>
      if decide (lk_cpu (locks m l) = Some c) then pop_to c (Dead "still holding") m
      else pop_to c Run m
  end.

(** An interrupt clears the flag and saves the point it interrupts; the
    handler returns to it with the flag set again. *)
Definition interrupt (c : nat) (m : machine) : machine :=
  set_trap c (Some (pcs m c))
    (at_pc c Run (set_cpu c (mk_cpu (ncli (cpus m c)) (intena (cpus m c)) false) m)).
Definition iret (c : nat) (p : pc) (m : machine) : machine :=
  set_trap c None
    (at_pc c p (set_cpu c (mk_cpu (ncli (cpus m c)) (intena (cpus m c)) true) m)).

(** The CPUs take steps in any order; each is outside the lock code or inside
    [acquire] or [release] of some lock.  A handler returns only when it has
    released its locks; [panic] disables interrupts for good. *)
Inductive step : machine -> machine -> Prop :=
| step_lock c m : step m (lock_step c m)
| step_acquire c l m : pcs m c = Run -> step m (enter_acquire c l m)
| step_release c l m : pcs m c = Run -> step m (enter_release c l m)
| step_intr c m :
    IF (cpus m c) = true -> in_trap m c = None -> (forall msg, pcs m c <> Dead msg) -> step m (interrupt c m)
| step_iret c p m :
    pcs m c = Run -> in_trap m c = Some p -> ncli (cpus m c) = 0 -> step m (iret c p m).

(** At the start no lock is taken; [sti c] tells whether CPU [c] has enabled
    interrupts. *)
Definition boot_with (sti : nat -> bool) : machine :=
  mk_machine (fun c => mk_cpu 0 false (sti c)) (fun _ => initlock) (fun _ => Run) (fun _ => None).

Definition reachable (sti : nat -> bool) : machine -> Prop := rtc step (boot_with sti).

(** CPU [c] owns lock [l]: recorded in the lock, or between the exchange and
    the record, or between the erasure of the record and the release. *)
Definition owns (m : machine) (c l : nat) : Prop :=
  lk_cpu (locks m l) = Some c \/ pcs m c = AcqOwn l \/ pcs m c = RelUnlock l.

(** ** The invariant *)

Definition depth (p : pc) : Z :=
  match p with
  | AcqLocked _ | AcqCpu _ => 2
  | AcqSpin _ | RelLocked _ | RelCpu _ | RelPop _ | RelCheckLocked _ | RelCheckCpu _ => 1
  | _ => 0
  end.

Definition at_lock (p : pc) (o : gset nat) : Prop :=
  match p with
  | AcqSpin l | RelPop l | RelDone l | RelCheckLocked l | RelCheckCpu l => l ∉ o
  | AcqOwn l | RelOwn l | RelUnlock l => l ∈ o
  | Dead msg => msg = "acquire" \/ msg = "release"
  | _ => True
  end.

(** What a CPU at [p] that owns the locks [o] looks like. *)
Record cpu_ok (o : gset nat) (k : cpu) (p : pc) : Prop := {
  co_ncli : match p with Dead _ => Z.of_nat (size o) <= ncli k | _ => ncli k = Z.of_nat (size o) + depth p end;
  co_if : IF k = true -> ncli k = 0;
  co_at : at_lock p o
}.

Definition silent (p : pc) (l : nat) : Prop := p = AcqOwn l \/ p = RelUnlock l.

Record lock_inv (own : nat -> gset nat) (m : machine) : Prop := {
  li_excl : forall c d l, l ∈ own c -> l ∈ own d -> c = d;
  li_free : forall l, locked (locks m l) = 0 -> forall c, l ∉ own c;
  li_held : forall l, locked (locks m l) <> 0 -> exists c, l ∈ own c;
  li_cpu : forall l c, lk_cpu (locks m l) = Some c <-> l ∈ own c /\ ~ silent (pcs m c) l;
  li_cpus : forall c, cpu_ok (own c) (cpus m c) (pcs m c);
  li_trap : forall c p, in_trap m c = Some p -> p = Run \/ exists l, p = RelDone l
}.

Section Invariant.
Context {own : nat -> gset nat} {m : machine} (Hinv : lock_inv own m).

(** A step that changes one CPU and no lock. *)
Lemma inv_local m' c :
  locks m' = locks m -> (forall d, d <> c -> cpus m' d = cpus m d /\ pcs m' d = pcs m d) ->
  cpu_ok (own c) (cpus m' c) (pcs m' c) ->
  (forall l, ~ silent (pcs m c) l) -> (forall l, ~ silent (pcs m' c) l) ->
  (forall d p, in_trap m' d = Some p -> p = Run \/ exists l, p = RelDone l) ->
  lock_inv own m'.
Proof.
  intros El Eo Hc Hs Hs' Ht. destruct Hinv as [H1 H2 H3 H4 H5 H6].
  split; try rewrite El; try done.
  - intros l d. rewrite H4. destruct (decide (d = c)) as [->|Hd].
    + specialize (Hs l). specialize (Hs' l). tauto.
    + by rewrite (proj2 (Eo d Hd)).
  - intros d. destruct (decide (d = c)) as [->|Hd]; [done|].
    destruct (Eo d Hd) as [-> ->]. apply H5.
Qed.

Lemma cpu_masked c : 0 < ncli (cpus m c) -> IF (cpus m c) = false.
Proof.
  intros Hn. destruct (IF (cpus m c)) eqn:E; [|done].
  pose proof (co_if _ _ _ (li_cpus _ _ Hinv c) E). lia.
Qed.

(** [popcli] inside the lock code never panics. *)
Lemma pop_ok c next :
  0 < ncli (cpus m c) ->
  (forall l, ~ silent (pcs m c) l) -> (forall l, ~ silent next l) ->
  match next with Dead _ => Z.of_nat (size (own c)) <= ncli (cpus m c) - 1
  | _ => ncli (cpus m c) - 1 = Z.of_nat (size (own c)) + depth next end ->
  at_lock next (own c) ->
  lock_inv own (pop_to c next m).
Proof.
  intros Hn Hs Hs' Hd Ha. unfold pop_to, popcli. rewrite (cpu_masked c Hn).
  rewrite (proj2 (Z.ltb_ge _ _)) by lia.
  apply (inv_local _ c); simpl; try done; rewrite ?fn_lookup_insert; try done.
  - intros d Hdc. by rewrite !fn_lookup_insert_ne.
  - split; [done| |done]. simpl. intros [E _]%andb_true_iff. lia.
  - apply (li_trap _ _ Hinv).
Qed.

Lemma push_ok c next :
  (forall l, ~ silent (pcs m c) l) -> (forall l, ~ silent next l) ->
  match next with Dead _ => False
  | _ => ncli (cpus m c) + 1 = Z.of_nat (size (own c)) + depth next end ->
  at_lock next (own c) ->
  lock_inv own (push_to c next m).
Proof.
  intros Hs Hs' Hd Ha.
  apply (inv_local _ c); simpl; try done; rewrite ?fn_lookup_insert; try done.
  - intros d Hdc. by rewrite !fn_lookup_insert_ne.
  - split; [|done|done]. by destruct next.
  - apply (li_trap _ _ Hinv).
Qed.

Lemma move_ok c next :
  (forall l, ~ silent (pcs m c) l) -> (forall l, ~ silent next l) ->
  match next with Dead _ => False
  | _ => ncli (cpus m c) = Z.of_nat (size (own c)) + depth next end ->
  at_lock next (own c) ->
  lock_inv own (at_pc c next m).
Proof.
  intros Hs Hs' Hd Ha.
  apply (inv_local _ c); simpl; try done; rewrite ?fn_lookup_insert; try done.
  - intros d Hdc. by rewrite !fn_lookup_insert_ne.
  - split; [by destruct next| |done]. apply (co_if _ _ _ (li_cpus _ _ Hinv c)).
  - apply (li_trap _ _ Hinv).
Qed.

Lemma locked_own l c : lk_cpu (locks m l) = Some c -> l ∈ own c.
Proof. intros E. by apply (li_cpu _ _ Hinv) in E as [? _]. Qed.

(** Outside the two silent points the lock's record is exact. *)
Lemma own_locked l c : l ∈ own c -> (forall l, ~ silent (pcs m c) l) -> lk_cpu (locks m l) = Some c.
Proof. intros Hl Hs. apply (li_cpu _ _ Hinv). split; [done|apply Hs]. Qed.
End Invariant.

(** The exchange that takes a free lock. *)
Lemma inv_take own m c l :
  lock_inv own m -> pcs m c = AcqSpin l -> locked (locks m l) = 0 ->
  lock_inv (<[c := {[l]} ∪ own c]> own) (lock_step c m).
Proof.
  intros Hinv Hpc H0. unfold lock_step. rewrite Hpc, H0. simpl.
  pose proof (li_cpus _ _ Hinv c) as [Hn Hif Hat]. rewrite Hpc in Hn, Hat. simpl in Hn, Hat.
  pose proof (li_free _ _ Hinv l H0) as Hfree.
  assert (forall d l', l' ∈ (<[c:={[l]} ∪ own c]> own : nat -> gset nat) d <-> (d = c /\ l' = l) \/ l' ∈ own d) as Hown.
  { intros d l'. destruct (decide (d = c)) as [->|Hd]; [rewrite fn_lookup_insert|rewrite fn_lookup_insert_ne by done];
      set_solver. }
  split; simpl.
  - intros d e l'. rewrite !Hown. intros [[-> ->]|Hd] [[-> ?]|He]; subst; try done.
    + by apply Hfree in He. + by apply Hfree in Hd. + by eapply (li_excl _ _ Hinv).
  - intros l'. destruct (decide (l' = l)) as [->|Hl]; [by rewrite fn_lookup_insert|].
    rewrite fn_lookup_insert_ne by done. intros E d. rewrite Hown. intros [[_ ?]|Hd]; [done|].
    by apply (li_free _ _ Hinv l' E) in Hd.
  - intros l'. destruct (decide (l' = l)) as [->|Hl]; [exists c; rewrite Hown; by left|].
    rewrite fn_lookup_insert_ne by done. intros [d Hd]%(li_held _ _ Hinv). exists d. rewrite Hown. by right.
  - intros l' d. rewrite Hown.
    assert (lk_cpu ((<[l:=mk_spinlock 1 (lk_cpu (locks m l))]> (locks m) : nat -> spinlock) l') = lk_cpu (locks m l')) as ->.
    { destruct (decide (l' = l)) as [->|]; [by rewrite fn_lookup_insert|by rewrite fn_lookup_insert_ne]. }
    rewrite (li_cpu _ _ Hinv). destruct (decide (d = c)) as [->|Hd].
    + rewrite fn_lookup_insert, Hpc. unfold silent. split.
      * intros [Hl _]. split; [by right|]. intros [[= ->]|?]; [by apply Hfree in Hl|done].
      * intros [[[_ ->]|Hl] Hs]; [exfalso; apply Hs; by left|]. split; [done|]. by intros [?|?].
    + rewrite fn_lookup_insert_ne by done. tauto.
  - intros d. destruct (decide (d = c)) as [->|Hd].
    + rewrite !fn_lookup_insert. split; simpl; [|done|set_solver].
      rewrite size_union by set_solver. rewrite size_singleton. lia.
    + rewrite !fn_lookup_insert_ne by done. apply (li_cpus _ _ Hinv).
  - apply (li_trap _ _ Hinv).
Qed.

(** The store that releases the lock. *)
Lemma inv_drop own m c l :
  lock_inv own m -> pcs m c = RelUnlock l -> lock_inv (<[c := own c ∖ {[l]}]> own) (lock_step c m).
Proof.
  intros Hinv Hpc. unfold lock_step. rewrite Hpc. simpl.
  pose proof (li_cpus _ _ Hinv c) as [Hn Hif Hat]. rewrite Hpc in Hn, Hat. simpl in Hn, Hat.
  assert (forall d l', l' ∈ (<[c:=own c ∖ {[l]}]> own : nat -> gset nat) d <-> l' ∈ own d /\ l' <> l) as Hown.
  { intros d l'. destruct (decide (d = c)) as [->|Hd]; [rewrite fn_lookup_insert; set_solver|].
    rewrite fn_lookup_insert_ne by done. split; [|tauto]. intros Hl'. split; [done|]. intros ->.
    by apply Hd, (li_excl _ _ Hinv d c l). }
  split; simpl.
  - intros d e l'. rewrite !Hown. intros [Hd _] [He _]. by eapply (li_excl _ _ Hinv).
  - intros l'. destruct (decide (l' = l)) as [->|Hl]; [intros _ d; rewrite Hown; by intros [_ ?]|].
    rewrite fn_lookup_insert_ne by done. intros E d. rewrite Hown. intros [Hd _].
    by apply (li_free _ _ Hinv l' E) in Hd.
  - intros l'. destruct (decide (l' = l)) as [->|Hl]; [by rewrite fn_lookup_insert|].
    rewrite fn_lookup_insert_ne by done. intros [d Hd]%(li_held _ _ Hinv). exists d. by rewrite Hown.
  - intros l' d. rewrite Hown.
    assert (lk_cpu ((<[l:=mk_spinlock 0 (lk_cpu (locks m l))]> (locks m) : nat -> spinlock) l') = lk_cpu (locks m l')) as ->.
    { destruct (decide (l' = l)) as [->|]; [by rewrite fn_lookup_insert|by rewrite fn_lookup_insert_ne]. }
    rewrite (li_cpu _ _ Hinv). destruct (decide (d = c)) as [->|Hd].
    + rewrite fn_lookup_insert, Hpc. unfold silent. split.
      * intros [Hl Hs]. split; [split; [done|]|by intros [?|?]]. intros ->. apply Hs. by right.
      * intros [[Hl Hne] _]. split; [done|]. intros [?|[= ?]]; done.
    + rewrite fn_lookup_insert_ne by done. split; [|tauto]. intros [Hl Hs].
      split; [split; [done|]|done]. intros ->. by apply Hd, (li_excl _ _ Hinv d c l).
  - intros d. destruct (decide (d = c)) as [->|Hd].
    + rewrite !fn_lookup_insert. split; simpl; [|done|set_solver].
      rewrite size_difference, size_singleton by set_solver.
      assert (size (own c) <> 0%nat); [|lia]. intros E%size_empty_inv. set_solver.
    + rewrite !fn_lookup_insert_ne by done. apply (li_cpus _ _ Hinv).
  - apply (li_trap _ _ Hinv).
Qed.

(** The writes of lk->cpu: [acquire] records the owner, [release] erases it. *)
Lemma inv_record own m c l who next :
  lock_inv own m -> l ∈ own c -> (forall l', silent (pcs m c) l' -> l' = l) -> depth (pcs m c) = 0 ->
  (forall msg, pcs m c <> Dead msg) ->
  (who = Some c /\ next = Run \/ who = None /\ next = RelUnlock l) ->
  lock_inv own (at_pc c next (set_lock l (mk_spinlock (locked (locks m l)) who) m)).
Proof.
  intros Hinv Hl Hs Hd Hnd Hw. pose proof (li_cpus _ _ Hinv c) as [Hn Hif Hat].
  assert (forall l', locked ((<[l:=mk_spinlock (locked (locks m l)) who]> (locks m) : nat -> spinlock) l') = locked (locks m l')) as El.
  { intros l'. destruct (decide (l' = l)) as [->|]; [by rewrite fn_lookup_insert|by rewrite fn_lookup_insert_ne]. }
  split; simpl.
  - apply (li_excl _ _ Hinv).
  - intros l'. rewrite El. apply (li_free _ _ Hinv).
  - intros l'. rewrite El. apply (li_held _ _ Hinv).
  - intros l' d. destruct (decide (l' = l)) as [->|Hl'].
    + rewrite fn_lookup_insert. simpl. destruct (decide (d = c)) as [->|Hdc].
      * rewrite fn_lookup_insert. unfold silent. destruct Hw as [[-> ->]|[-> ->]]; [|naive_solver].
        split; [|done]. intros _. split; [done|]. by intros [?|?].
      * split; [by destruct Hw as [[-> _]|[-> _]]; [intros [= ->]|]|].
        intros [Hd' _]. exfalso. by apply Hdc, (li_excl _ _ Hinv d c l).
    + rewrite fn_lookup_insert_ne by done. rewrite (li_cpu _ _ Hinv).
      destruct (decide (d = c)) as [->|Hdc]; [|by rewrite fn_lookup_insert_ne].
      rewrite fn_lookup_insert. split; intros [H1 H2]; (split; [done|]).
      * destruct Hw as [[-> ->]|[-> ->]]; intros [?|?]; simplify_eq.
      * intros H3. by apply Hs in H3.
  - intros d. destruct (decide (d = c)) as [->|Hdc].
    + rewrite fn_lookup_insert. split; [|done|].
      * destruct (pcs m c) eqn:E; simpl in Hd; try lia; try (by destruct (Hnd msg));
          destruct Hw as [[-> ->]|[-> ->]]; simpl in *; lia.
      * by destruct Hw as [[-> ->]|[-> ->]].
    + rewrite fn_lookup_insert_ne by done. apply (li_cpus _ _ Hinv).
  - apply (li_trap _ _ Hinv).
Qed.

Lemma inv_spin own m c l :
  lock_inv own m -> pcs m c = AcqSpin l -> locked (locks m l) <> 0 -> lock_inv own (lock_step c m).
Proof.
  intros Hinv Hpc H0. unfold lock_step. rewrite Hpc, (proj2 (Z.eqb_neq _ _) H0).
  assert (forall l', let k := (<[l:=mk_spinlock 1 (lk_cpu (locks m l))]> (locks m) : nat -> spinlock) l' in
    lk_cpu k = lk_cpu (locks m l') /\ (locked k = 0 <-> locked (locks m l') = 0)) as El.
  { intros l'. simpl. destruct (decide (l' = l)) as [->|]; [rewrite fn_lookup_insert; simpl|by rewrite fn_lookup_insert_ne].
    split; [done|lia]. }
  destruct Hinv as [H1 H2 H3 H4 H5 H6]. split; simpl; try done.
  - intros l'. rewrite (proj2 (El l')). apply H2.
  - intros l'. rewrite (proj2 (El l')). apply H3.
  - intros l' d. rewrite (proj1 (El l')). apply H4.
Qed.

Lemma inv_lock_step own m c : lock_inv own m -> exists own', lock_inv own' (lock_step c m).
Proof.
  intros Hinv. pose proof (li_cpus _ _ Hinv c) as [Hn Hif Hat].
  destruct (pcs m c) eqn:Hpc; simpl in Hn, Hat;
    try (assert (forall l', ~ silent (pcs m c) l') as Hs by (rewrite Hpc; by intros l' [?|?]));
    try (unfold lock_step; rewrite Hpc; exists own; done).
  - exists own. unfold lock_step. rewrite Hpc. case_cond; boolify.
    + apply (pop_ok Hinv); try done; try (by intros l' [?|?]); simpl; try lia.
      by apply (li_free _ _ Hinv).
    + apply (move_ok Hinv); try done. by intros l' [?|?].
  - exists own. unfold lock_step. rewrite Hpc. case_decide as E.
    + apply (pop_ok Hinv); try done; try (by intros l' [?|?]); simpl; try lia. by left.
    + apply (pop_ok Hinv); try done; try (by intros l' [?|?]); simpl; try lia.
      intros Hl. by apply E, (own_locked Hinv).
  - destruct (decide (locked (locks m l) = 0)) as [E|E].
    + eexists. by apply (inv_take own _ _ l).
    + exists own. by apply (inv_spin _ _ _ l).
  - exists own. unfold lock_step. rewrite Hpc. apply (inv_record _ _ _ _ _ _ Hinv); rewrite ?Hpc; try done.
    { by intros l' [[= ->]|?]. } by left.
  - exists own. unfold lock_step. rewrite Hpc. case_cond; boolify.
    + apply (pop_ok Hinv); try done; try (by intros l' [?|?]); simpl; try lia. by right.
    + apply (move_ok Hinv); try done. by intros l' [?|?].
  - exists own. unfold lock_step. rewrite Hpc. case_decide as E.
    + apply (pop_ok Hinv); try done; try (by intros l' [?|?]); simpl; try lia. by apply (locked_own Hinv).
    + apply (pop_ok Hinv); try done; try (by intros l' [?|?]); simpl; try lia. by right.
  - exists own. unfold lock_step. rewrite Hpc. apply (inv_record _ _ _ _ _ _ Hinv); rewrite ?Hpc; try done.
    { by intros l' [?|?]. } by right.
  - eexists. by apply (inv_drop own _ _ l).
  - exists own. unfold lock_step. rewrite Hpc.
    apply (pop_ok Hinv); try done; try (by intros l' [?|?]); simpl; try lia.
  - exists own. unfold lock_step. rewrite Hpc.
    apply (push_ok Hinv); try done; try (by intros l' [?|?]); simpl; try lia.
  - exists own. unfold lock_step. rewrite Hpc. case_cond; boolify.
    + apply (pop_ok Hinv); try done; try (by intros l' [?|?]); simpl; try lia.
    + apply (move_ok Hinv); try done. by intros l' [?|?].
  - exists own. unfold lock_step. rewrite Hpc. case_decide as E; [by apply (locked_own Hinv) in E|].
    apply (pop_ok Hinv); try done; try (by intros l' [?|?]); simpl; try lia.
Qed.

Lemma inv_step own m m' : lock_inv own m -> step m m' -> exists own', lock_inv own' m'.
Proof.
  intros Hinv Hs. revert Hinv.
  destruct Hs as [c m|c l m Hpc|c l m Hpc|c m HIF Ht Hnd|c p m Hpc Ht H0]; intros Hinv; [by eapply inv_lock_step|exists own..].
  all: pose proof (li_cpus _ _ Hinv c) as [Hn Hif Hat].
  - rewrite Hpc in Hn. simpl in Hn. apply (inv_local Hinv _ c); simpl; try done;
      rewrite ?fn_lookup_insert; try done; try (rewrite Hpc; by intros l' [?|?]); try (by intros l' [?|?]).
    + intros d Hd. by rewrite !fn_lookup_insert_ne.
    + split; simpl; [lia|done|done].
    + apply (li_trap _ _ Hinv).
  - rewrite Hpc in Hn. simpl in Hn.
    apply (push_ok Hinv); rewrite ?Hpc; try done; try (by intros l' [?|?]); simpl; lia.
  - specialize (Hif HIF).
    assert (size (own c) = 0%nat /\ pcs m c = Run \/ size (own c) = 0%nat /\ exists l, pcs m c = RelDone l) as Hp.
    { destruct (pcs m c) eqn:Hpc; simpl in Hn, Hat; try lia; try (exfalso; by eapply Hnd).
      1: left; split; [lia|done]. 4: right; split; [lia|eauto].
      all: assert (size (own c) = 0%nat) as E%size_empty_inv by lia; set_solver. }
    apply (inv_local Hinv _ c); simpl; try done; rewrite ?fn_lookup_insert; try (by intros l' [?|?]).
    + intros d Hd. by rewrite !fn_lookup_insert_ne.
    + split; simpl; [destruct Hp as [[? _]|[? _]]; lia|done|done].
    + destruct Hp as [[_ ->]|[_ [l ->]]]; by intros l' [?|?].
    + intros d p. destruct (decide (d = c)) as [->|Hd].
      * rewrite fn_lookup_insert. intros [= <-]. naive_solver.
      * rewrite fn_lookup_insert_ne by done. apply (li_trap _ _ Hinv).
  - rewrite Hpc in Hn. simpl in Hn. assert (size (own c) = 0%nat) as Hsz by lia.
    destruct (li_trap _ _ Hinv c p Ht) as [Hp|[l Hp]].
    all: apply (inv_local Hinv _ c); simpl; try done; rewrite ?fn_lookup_insert; try (rewrite Hpc; by intros l' [?|?]);
      try (subst p; by intros l' [?|?]); try (intros d Hd; by rewrite !fn_lookup_insert_ne).
    all: try (intros d q; destruct (decide (d = c)) as [->|Hd];
      [by rewrite fn_lookup_insert|rewrite fn_lookup_insert_ne by done; apply (li_trap _ _ Hinv)]).
    all: subst p; split; simpl; try done; try lia.
    apply size_empty_inv in Hsz. set_solver.
Qed.

Lemma boot_inv sti : lock_inv (fun _ => ∅) (boot_with sti).
Proof.
  split; simpl; try done; try set_solver.
Qed.

Lemma reachable_inv sti m : reachable sti m -> exists own, lock_inv own m.
Proof.
  intros Hr. revert Hr. apply (rtc_ind_r (fun m => exists own, lock_inv own m)).
  - eexists. apply boot_inv.
  - intros m1 m2 _ Hs [own Hinv]. by eapply inv_step.
Qed.

Lemma owns_own own m c l : lock_inv own m -> owns m c l <-> l ∈ own c.
Proof.
  intros Hinv. pose proof (li_cpus _ _ Hinv c) as [_ _ Hat]. unfold owns. split.
  - intros [E|[E|E]]; [by apply (locked_own Hinv)|by rewrite E in Hat..].
  - intros Hl. destruct (decide (lk_cpu (locks m l) = Some c)) as [E|E]; [by left|right].
    destruct (decide (pcs m c = AcqOwn l)) as [|H1]; [by left|].
    destruct (decide (pcs m c = RelUnlock l)) as [|H2]; [by right|].
    exfalso. apply E, (li_cpu _ _ Hinv). split; [done|]. by intros [?|?].
Qed.

(** Balanced calls of [pushcli] and [popcli] leave the CPU's interrupt flag
    and depth as they were, whatever the depth. *)
Lemma cli_balanced n c :
  0 <= ncli c -> (0 < ncli c -> IF c = false) ->
  exists i, Nat.iter n (fun r : cpu + string => match r with inl k => popcli k | inr e => inr e end)
    (inl (Nat.iter n pushcli c)) = inl (mk_cpu (ncli c) i (IF c)) /\ (0 < ncli c -> i = intena c).
Proof.
  revert c. induction n as [|n IH]; intros c Hn Hif; [exists (intena c); by destruct c|].
  rewrite (Nat.iter_succ_r n pushcli c).
  destruct (IH (pushcli c)) as (i & Hi & Ei); [simpl; lia|done|]. simpl in Hi, Ei.
  rewrite Nat.iter_succ, Hi. specialize (Ei ltac:(lia)). unfold popcli. simpl.
  rewrite (proj2 (Z.ltb_ge _ _)) by lia. replace (ncli c + 1 - 1) with (ncli c) by lia. exists i.
  destruct (Z.eqb_spec (ncli c) 0) as [E|E]; simpl; subst i.
  - split; [done|lia].
  - rewrite Hif by lia. done.
Qed.

Lemma pop_pc own m c next :
  lock_inv own m -> 0 < depth (pcs m c) -> pcs (pop_to c next m) c = next.
Proof.
  intros Hinv Hd. assert (0 < ncli (cpus m c)) as Hn.
  { pose proof (co_ncli _ _ _ (li_cpus _ _ Hinv c)). destruct (pcs m c); simpl in *; lia. }
  unfold pop_to, popcli. rewrite (cpu_masked Hinv c Hn), (proj2 (Z.ltb_ge _ _)) by lia.
  simpl. by rewrite fn_lookup_insert.
Qed.

(** The outcome of [holding] in [acquire] and [release]. *)
Lemma acq_dead own m c l :
  lock_inv own m -> pcs m c = AcqCpu l ->
  (pcs (lock_step c m) c = Dead "acquire" <-> lk_cpu (locks m l) = Some c).
Proof.
  intros Hinv Hpc. unfold lock_step. rewrite Hpc.
  case_decide as E; rewrite (pop_pc own) by (done || by rewrite Hpc); naive_solver.
Qed.

Lemma rel_cpu_dead own m c l :
  lock_inv own m -> pcs m c = RelCpu l ->
  (pcs (lock_step c m) c = Dead "release" <-> lk_cpu (locks m l) <> Some c).
Proof.
  intros Hinv Hpc. unfold lock_step. rewrite Hpc.
  case_decide as E; rewrite (pop_pc own) by (done || by rewrite Hpc); naive_solver.
Qed.

(** C12: Spin locks exclude.  However the CPUs interleave and whenever
    interrupts arrive, at most one CPU owns a lock; while a CPU owns one, the
    lock reads as locked and the CPU's interrupts are off, so that no handler
    runs in a critical section; a CPU never spins on a lock it owns, and the
    exchange takes a free lock; the only panics are [acquire] of a lock the
    CPU already owns and [release] of one it does not own, and both are
    always detected. *)
Theorem spinlocks_exclude sti m :
  reachable sti m ->
  (forall c d l, owns m c l -> owns m d l -> c = d) /\
  (forall c l, owns m c l -> locked (locks m l) <> 0 /\ IF (cpus m c) = false /\ 0 < ncli (cpus m c)) /\
  (forall c l, pcs m c = AcqSpin l -> ~ owns m c l /\ (locked (locks m l) = 0 -> owns (lock_step c m) c l)) /\
  (forall c msg, pcs m c = Dead msg -> msg = "acquire" \/ msg = "release") /\
  (forall c l, pcs m c = AcqCpu l -> (pcs (lock_step c m) c = Dead "acquire" <-> owns m c l)) /\
  (forall c l, pcs m c = RelLocked l -> locked (locks m l) = 0 -> pcs (lock_step c m) c = Dead "release" /\ ~ owns m c l) /\
  (forall c l, pcs m c = RelCpu l -> (pcs (lock_step c m) c = Dead "release" <-> ~ owns m c l)).
Proof.
  intros [own Hinv]%reachable_inv. pose proof (fun c l => owns_own own m c l Hinv) as Ho.
  assert (forall c l, pcs m c = AcqCpu l \/ pcs m c = RelCpu l -> (lk_cpu (locks m l) = Some c <-> l ∈ own c)) as Hcpu.
  { intros c l Hpc. split; [apply (locked_own Hinv)|]. intros Hl. apply (own_locked Hinv); [done|].
    intros l'. destruct Hpc as [-> | ->]; by intros [?|?]. }
  split_and!.
  - intros c d l. rewrite !Ho. apply (li_excl _ _ Hinv).
  - intros c l. rewrite Ho. intros Hl. split; [intros E; by apply (li_free _ _ Hinv l E) in Hl|].
    enough (0 < ncli (cpus m c)) as Hn by (split; [by apply (cpu_masked Hinv)|done]).
    pose proof (co_ncli _ _ _ (li_cpus _ _ Hinv c)) as Hn.
    assert (size (own c) <> 0%nat) by (intros E%size_empty_inv; set_solver).
    destruct (pcs m c); simpl in Hn; lia.
  - intros c l Hpc. pose proof (co_at _ _ _ (li_cpus _ _ Hinv c)) as Hat. rewrite Hpc in Hat. split; [by rewrite Ho|].
    intros E. unfold owns, lock_step. rewrite Hpc, E. right. left. simpl. by rewrite fn_lookup_insert.
  - intros c msg Hpc. pose proof (co_at _ _ _ (li_cpus _ _ Hinv c)) as Hat. by rewrite Hpc in Hat.
  - intros c l Hpc. rewrite Ho, <- (Hcpu c l (or_introl Hpc)). by apply (acq_dead own).
  - intros c l Hpc E. rewrite Ho. split; [|by apply (li_free _ _ Hinv)]. unfold lock_step.
    rewrite Hpc, E. apply (pop_pc own); [done|by rewrite Hpc].
  - intros c l Hpc. rewrite Ho, <- (Hcpu c l (or_intror Hpc)). by apply (rel_cpu_dead own).
Qed.

(** CPU 0 takes lock 7 while CPU 1 spins on it. *)
Lemma spinlocks_exclude_witness :
  exists m, reachable (fun _ => true) m /\ owns m 0 7 /\ pcs m 1%nat = AcqSpin 7 /\
    ~ owns m 1 7 /\ IF (cpus m 0%nat) = false.
Proof.
  pose (m := lock_step 1 (lock_step 1 (lock_step 1 (enter_acquire 1 7
    (lock_step 0 (lock_step 0 (lock_step 0 (enter_acquire 0 7 (boot_with (fun _ => true)))))))))).
  assert (reachable (fun _ => true) m) as Hr.
  { do 3 (eapply rtc_r; [|apply step_lock]). eapply rtc_r; [|apply step_acquire; vm_compute; reflexivity].
    do 3 (eapply rtc_r; [|apply step_lock]). eapply rtc_r; [|apply step_acquire; vm_compute; reflexivity].
    apply rtc_refl. }
  destruct (spinlocks_exclude (fun _ => true) m Hr) as (H1 & H2 & H3 & _).
  assert (owns m 0 7) as Ho by (left; vm_compute; reflexivity).
  assert (pcs m 1%nat = AcqSpin 7) as Hp by (vm_compute; reflexivity).
  exists m. split; [exact Hr|]. split; [exact Ho|]. split; [exact Hp|].
  split; [exact (proj1 (H3 _ _ Hp))|exact (proj1 (proj2 (H2 _ _ Ho)))].
Defined.
