(* ===== verification/Proc.v ===== *)
(** * Processes (proc.c): the process table and its operations

    The table is a list of [proc] records; a [struct proc *] is an index of
    it, [myproc()] the argument [cur] of the operations.  Kernel stacks, trap
    frames and page tables live in the byte memory of [Kalloc]; files and
    inodes are reached through the interface [FileOps].  Calls of [sched()]
    end an operation: what follows them is a definition of its own, run when
    the scheduler resumes the process (see [Sched]). *)

From S2P Require Import Prelude Layout Mem Kstring Kalloc Vm Uvm.

Definition NPROC : nat := 64.
Definition NOFILE : nat := 16.
Definition KSTACKSIZE : Z := 4096.

(** [struct trapframe]: its size and the offsets of its fields. *)
Definition TFSIZE : Z := 76.
Definition TF_EAX : Z := 28.
Definition TF_ES : Z := 40.
Definition TF_DS : Z := 44.
Definition TF_EIP : Z := 56.
Definition TF_CS : Z := 60.
Definition TF_EFLAGS : Z := 64.
Definition TF_ESP : Z := 68.
Definition TF_SS : Z := 72.

(** [struct context]: five registers, eip last. *)
Definition CTXSIZE : Z := 20.
Definition CTX_EIP : Z := 16.

Definition SEG_UCODE : Z := 3.
Definition SEG_UDATA : Z := 4.
Definition DPL_USER : Z := 3.
Definition FL_IF : Z := 0x200.

Inductive procstate := UNUSED | EMBRYO | SLEEPING | RUNNABLE | RUNNING | ZOMBIE.
#[export] Instance procstate_eq_dec : EqDecision procstate.
Proof. solve_decision. Defined.

(** A sleep channel is the address of a process, or any other kernel address. *)
Inductive chan := ChProc (i : nat) | ChAddr (a : Z).
#[export] Instance chan_eq_dec : EqDecision chan.
Proof. solve_decision. Defined.

Record proc := mk_proc {
  p_sz : Z;
  p_pgdir : Z;
  p_kstack : Z;
  p_state : procstate;
  p_pid : Z;
  p_parent : option nat;
  p_tf : Z;
  p_context : Z;
  p_chan : option chan;
  p_killed : bool;
  p_ofile : list (option nat);
  p_cwd : option nat;
  p_name : list Z
}.

Definition set_p_sz (v : Z) (p : proc) : proc :=
  mk_proc v (p_pgdir p) (p_kstack p) (p_state p) (p_pid p) (p_parent p) (p_tf p) (p_context p) (p_chan p) (p_killed p) (p_ofile p) (p_cwd p) (p_name p).
Definition set_p_pgdir (v : Z) (p : proc) : proc :=
  mk_proc (p_sz p) v (p_kstack p) (p_state p) (p_pid p) (p_parent p) (p_tf p) (p_context p) (p_chan p) (p_killed p) (p_ofile p) (p_cwd p) (p_name p).
Definition set_p_kstack (v : Z) (p : proc) : proc :=
  mk_proc (p_sz p) (p_pgdir p) v (p_state p) (p_pid p) (p_parent p) (p_tf p) (p_context p) (p_chan p) (p_killed p) (p_ofile p) (p_cwd p) (p_name p).
Definition set_p_state (v : procstate) (p : proc) : proc :=
  mk_proc (p_sz p) (p_pgdir p) (p_kstack p) v (p_pid p) (p_parent p) (p_tf p) (p_context p) (p_chan p) (p_killed p) (p_ofile p) (p_cwd p) (p_name p).
Definition set_p_pid (v : Z) (p : proc) : proc :=
  mk_proc (p_sz p) (p_pgdir p) (p_kstack p) (p_state p) v (p_parent p) (p_tf p) (p_context p) (p_chan p) (p_killed p) (p_ofile p) (p_cwd p) (p_name p).
Definition set_p_parent (v : option nat) (p : proc) : proc :=
  mk_proc (p_sz p) (p_pgdir p) (p_kstack p) (p_state p) (p_pid p) v (p_tf p) (p_context p) (p_chan p) (p_killed p) (p_ofile p) (p_cwd p) (p_name p).
Definition set_p_tf (v : Z) (p : proc) : proc :=
  mk_proc (p_sz p) (p_pgdir p) (p_kstack p) (p_state p) (p_pid p) (p_parent p) v (p_context p) (p_chan p) (p_killed p) (p_ofile p) (p_cwd p) (p_name p).
Definition set_p_context (v : Z) (p : proc) : proc :=
  mk_proc (p_sz p) (p_pgdir p) (p_kstack p) (p_state p) (p_pid p) (p_parent p) (p_tf p) v (p_chan p) (p_killed p) (p_ofile p) (p_cwd p) (p_name p).
Definition set_p_chan (v : option chan) (p : proc) : proc :=
  mk_proc (p_sz p) (p_pgdir p) (p_kstack p) (p_state p) (p_pid p) (p_parent p) (p_tf p) (p_context p) v (p_killed p) (p_ofile p) (p_cwd p) (p_name p).
Definition set_p_killed (v : bool) (p : proc) : proc :=
  mk_proc (p_sz p) (p_pgdir p) (p_kstack p) (p_state p) (p_pid p) (p_parent p) (p_tf p) (p_context p) (p_chan p) v (p_ofile p) (p_cwd p) (p_name p).
Definition set_p_ofile (v : list (option nat)) (p : proc) : proc :=
  mk_proc (p_sz p) (p_pgdir p) (p_kstack p) (p_state p) (p_pid p) (p_parent p) (p_tf p) (p_context p) (p_chan p) (p_killed p) v (p_cwd p) (p_name p).
Definition set_p_cwd (v : option nat) (p : proc) : proc :=
  mk_proc (p_sz p) (p_pgdir p) (p_kstack p) (p_state p) (p_pid p) (p_parent p) (p_tf p) (p_context p) (p_chan p) (p_killed p) (p_ofile p) v (p_name p).
Definition set_p_name (v : list Z) (p : proc) : proc :=
  mk_proc (p_sz p) (p_pgdir p) (p_kstack p) (p_state p) (p_pid p) (p_parent p) (p_tf p) (p_context p) (p_chan p) (p_killed p) (p_ofile p) (p_cwd p) v.

(** A zero-initialised slot. *)
Definition proc0 : proc :=
  mk_proc 0 0 0 UNUSED 0 None 0 0 None false (replicate NOFILE None) None (replicate 16 0).

(** ** State *)

Record ptable (E : Type) := mk_ptable {
  pt_env : E;                     (* memory, files: the rest of the kernel *)
  pt_proc : list proc;            (* ptable.proc[NPROC] *)
  pt_initproc : option nat;
  pt_nextpid : Z;
  pt_held : gset string           (* spin locks held *)
}.
Arguments mk_ptable {E}.
Arguments pt_env {E}.
Arguments pt_proc {E}.
Arguments pt_initproc {E}.
Arguments pt_nextpid {E}.
Arguments pt_held {E}.

(** The files and inodes a process refers to (file.c, fs.c, log.c). *)
Class FileOps (E : Type) := {
  fo_filedup : nat -> M E nat;
  fo_fileclose : nat -> M E unit;
  fo_idup : nat -> M E nat;
  fo_iput : nat -> M E unit;
  fo_begin_op : M E unit;
  fo_end_op : M E unit;
  fo_namei : string -> M E (option nat)
}.

Section State.
Context {E : Type}.
Implicit Type s : ptable E.

Definition set_env (e : E) s : ptable E := mk_ptable e (pt_proc s) (pt_initproc s) (pt_nextpid s) (pt_held s).
Definition set_procs (l : list proc) s : ptable E := mk_ptable (pt_env s) l (pt_initproc s) (pt_nextpid s) (pt_held s).
Definition set_initproc (i : option nat) s : ptable E := mk_ptable (pt_env s) (pt_proc s) i (pt_nextpid s) (pt_held s).
Definition set_nextpid (n : Z) s : ptable E := mk_ptable (pt_env s) (pt_proc s) (pt_initproc s) n (pt_held s).
Definition set_pt_held (h : gset string) s : ptable E := mk_ptable (pt_env s) (pt_proc s) (pt_initproc s) (pt_nextpid s) h.

#[export] Program Instance pt_sub : Sub E (ptable E) := { sub_get := pt_env; sub_put := set_env }.
Next Obligation. done. Qed.
Next Obligation. done. Qed.
Next Obligation. by intros []. Qed.

#[export] Program Instance pt_locks : HasLocks (ptable E) := { held := pt_held; set_held := set_pt_held }.
Next Obligation. done. Qed.
Next Obligation. by intros []. Qed.
Next Obligation. done. Qed.

Definition getp (i : nat) : M (ptable E) proc := s <- kget ;; deref (pt_proc s !! i).
Definition putp (i : nat) (g : proc -> proc) : M (ptable E) unit :=
  s <- kget ;;
  match pt_proc s !! i with
  | Some p => kput (set_procs (<[i := g p]> (pt_proc s)) s)
  | None => fault "ptable: no such process"
  end.
End State.

(** The addresses of code and data that the assembler files and the linker
    define. *)
Class KernelSymbols := {
  trapret : Z;
  forkret : Z;
  initcode_start : Z;
  initcode_size : Z
}.

Section Ops.
Context `{KernelImage} `{KernelSymbols} {E : Type} `{Sub kmem E} `{SwapOps E} `{FileOps E}.
Notation P := (M (ptable E)).

(** Accesses to kernel memory. *)
Definition env {A} (c : M E A) : P A := lift c.
Definition kmem_op {A} (c : M kmem A) : P A := env (lift c).
Definition mem_op (f : mem -> mem) : P unit := kmem_op (mem_do f).
Definition st16 (a v : Z) (m : mem) : mem := st8 (a + 1) (Z.shiftr v 8) (st8 a v m).

(** [safestrcpy] on the name arrays. *)
Fixpoint cstr (n : nat) (t : list Z) : list Z :=
  match n, t with
  | S n', c :: t' => if c =? 0 then [] else c :: cstr n' t'
  | _, _ => []
  end.
Definition copy_name (t s : list Z) : list Z :=
  cstr 15 t ++ [0] ++ drop (S (length (cstr 15 t))) s.

Fixpoint find_unused (i : nat) (l : list proc) : option nat :=
  match l with
  | [] => None
  | p :: l' => if decide (p_state p = UNUSED) then Some i else find_unused (S i) l'
  end.

(** [allocproc] up to the release of the lock: a slot becomes an embryo. *)
Definition alloc_slot : P (option nat) :=
  acquire "ptable" ;;;
  l <- gets pt_proc ;;
  match find_unused 0 l with
  | None => release "ptable" ;;; kret None
  | Some i =>
      putp i (set_p_state EMBRYO) ;;;
      pid <- gets pt_nextpid ;;
      putp i (set_p_pid pid) ;;;
      modify (set_nextpid (s32 (pid + 1))) ;;;
      release "ptable" ;;;
      kret (Some i)
  end.

(** The rest of [allocproc]: the kernel stack, with the frames that make the
    process start at [forkret] and return to [trapret]. *)
Definition alloc_stack (i : nat) : P (option nat) :=
  k <- kmem_op kalloc ;;
  putp i (set_p_kstack k) ;;;
  if k =? NULL then putp i (set_p_state UNUSED) ;;; kret None
  else
    let sp := u32 (k + KSTACKSIZE) in
    let sp := u32 (sp - TFSIZE) in
    putp i (set_p_tf sp) ;;;
    let sp := u32 (sp - 4) in
    mem_op (st32 sp trapret) ;;;
    let sp := u32 (sp - CTXSIZE) in
    putp i (set_p_context sp) ;;;
    mem_op (memset sp 0 CTXSIZE) ;;;
    mem_op (st32 (sp + CTX_EIP) forkret) ;;;
    kret (Some i).

Definition allocproc : P (option nat) :=
  o <- alloc_slot ;;
  match o with
  | None => kret None
  | Some i => alloc_stack i
  end.

(** [userinit]; a null process is dereferenced when [allocproc] fails. *)
Definition userinit : P unit :=
  o <- allocproc ;;
  modify (set_initproc o) ;;;
  match o with
  | None => fault "userinit: null process"
  | Some i =>
      d <- env setupkvm ;;
      putp i (set_p_pgdir d) ;;;
      if d =? NULL then panic "userinit: out of memory?"
      else
        kmem_op (inituvm d initcode_start initcode_size) ;;;
        putp i (set_p_sz PGSIZE) ;;;
        p <- getp i ;;
        let tf := p_tf p in
        mem_op (memset tf 0 TFSIZE) ;;;
        let ds := Z.lor (Z.shiftl SEG_UDATA 3) DPL_USER in
        mem_op (st16 (tf + TF_CS) (Z.lor (Z.shiftl SEG_UCODE 3) DPL_USER)) ;;;
        mem_op (st16 (tf + TF_DS) ds) ;;;
        mem_op (st16 (tf + TF_ES) ds) ;;;
        mem_op (st16 (tf + TF_SS) ds) ;;;
        mem_op (st32 (tf + TF_EFLAGS) FL_IF) ;;;
        mem_op (st32 (tf + TF_ESP) PGSIZE) ;;;
        mem_op (st32 (tf + TF_EIP) 0) ;;;
        putp i (fun p => set_p_name (copy_name [105; 110; 105; 116; 99; 111; 100; 101; 0] (p_name p)) p) ;;;
        root <- env (fo_namei "/") ;;
        putp i (set_p_cwd root) ;;;
        acquire "ptable" ;;;
        putp i (set_p_state RUNNABLE) ;;;
        release "ptable"
  end.

(** [switchuvm]: its checks; the loads of the task state segment and of %cr3
    have no effect on this state. *)
Definition switchuvm (i : nat) : P unit :=
  p <- getp i ;;
  if p_kstack p =? 0 then panic "switchuvm: no kstack"
  else if p_pgdir p =? 0 then panic "switchuvm: no pgdir"
  else kret tt.

Definition growproc (cur : nat) (n : Z) : P Z :=
  p <- getp cur ;;
  let sz := p_sz p in
  o <- (if 0 <? n then
          sz' <- env (allocuvm (p_pgdir p) sz (u32 (sz + n))) ;;
          kret (if sz' =? 0 then None else Some sz')
        else if n <? 0 then
          sz' <- env (deallocuvm (p_pgdir p) sz (u32 (sz + n))) ;;
          kret (if sz' =? 0 then None else Some sz')
        else kret (Some sz)) ;;
  match o with
  | None => kret (-1)
  | Some sz' => putp cur (set_p_sz sz') ;;; switchuvm cur ;;; kret 0
  end.

(** The loop of [fork] that shares the open files. *)
Fixpoint dup_files (np : nat) (i : nat) (fs : list (option nat)) : P unit :=
  match fs with
  | [] => kret tt
  | o :: fs' =>
      match o with
      | Some f => f' <- env (fo_filedup f) ;; putp np (fun p => set_p_ofile (<[i := Some f']> (p_ofile p)) p)
      | None => kret tt
      end ;;;
      dup_files np (S i) fs'
  end.

(** [fork] after [allocproc] returned [np]. *)
Definition fork_copy (cur np : nat) : P Z :=
  p <- getp cur ;;
  d <- env (copyuvm (p_pgdir p) (p_sz p)) ;;
  putp np (set_p_pgdir d) ;;;
  q <- getp np ;;
  if d =? NULL then
    kmem_op (kfree (p_kstack q)) ;;;
    putp np (set_p_kstack NULL) ;;;
    putp np (set_p_state UNUSED) ;;;
    kret (-1)
  else
    putp np (set_p_sz (p_sz p)) ;;;
    putp np (set_p_parent (Some cur)) ;;;
    mem_op (memmove (p_tf q) (p_tf p) TFSIZE) ;;;
    mem_op (st32 (p_tf q + TF_EAX) 0) ;;;
    dup_files np 0 (p_ofile p) ;;;
    cwd <- deref (p_cwd p) ;;
    cwd' <- env (fo_idup cwd) ;;
    putp np (set_p_cwd (Some cwd')) ;;;
    putp np (fun q => set_p_name (copy_name (p_name p) (p_name q)) q) ;;;
    acquire "ptable" ;;;
    putp np (set_p_state RUNNABLE) ;;;
    release "ptable" ;;;
    kret (p_pid q).

Definition fork (cur : nat) : P Z :=
  o <- allocproc ;;
  match o with
  | None => kret (-1)
  | Some np => fork_copy cur np
  end.

(** ** Sleeping and waking *)

Definition wake (c : chan) (p : proc) : proc :=
  if decide (p_state p = SLEEPING /\ p_chan p = Some c) then set_p_state RUNNABLE p else p.

Definition wakeup1 (c : chan) : P unit :=
  modify (fun s => set_procs (wake c <$> pt_proc s) s).

Definition wakeup (c : chan) : P unit :=
  acquire "ptable" ;;; wakeup1 c ;;; release "ptable".

(** The checks of [sched]; the depth of pushcli is the number of locks the
    thread holds. *)
Definition sched (cur : nat) : P unit :=
  h <- gets pt_held ;;
  p <- getp cur ;;
  if decide ("ptable" ∉ h) then panic "sched ptable.lock"
  else if decide (size h <> 1%nat) then panic "sched locks"
  else if decide (p_state p = RUNNING) then panic "sched running"
  else kret tt.

(** [yield] and [sleep] before and after the call of [sched]. *)
Definition yield (cur : nat) : P unit :=
  acquire "ptable" ;;; putp cur (set_p_state RUNNABLE) ;;; sched cur.
Definition yield_resume : P unit := release "ptable".

Definition sleep (cur : nat) (c : chan) (lk : string) : P unit :=
  (when negb (lk =? "ptable")%string do (acquire "ptable" ;;; release lk)) ;;;
  putp cur (set_p_chan (Some c)) ;;;
  putp cur (set_p_state SLEEPING) ;;;
  sched cur.
Definition sleep_resume (cur : nat) (lk : string) : P unit :=
  putp cur (set_p_chan None) ;;;
  (when negb (lk =? "ptable")%string do (release "ptable" ;;; acquire lk)).

(** [forkret]; the start of the file system and of the log on the first call
    is the parameter [start_fs]. *)
Definition forkret_resume (first : bool) (start_fs : P unit) : P unit :=
  release "ptable" ;;; when first do start_fs.

(** [scheduler] at one slot of the table: whether it dispatched the process. *)
Definition scheduler_at (i : nat) : P bool :=
  p <- getp i ;;
  if decide (p_state p <> RUNNABLE) then kret false
  else
    switchuvm i ;;;
    putp i (set_p_state RUNNING) ;;;
    kret true.

(** ** Exit, wait, kill *)

Fixpoint close_files (cur : nat) (fd n : nat) : P unit :=
  match n with
  | O => kret tt
  | S n' =>
      p <- getp cur ;;
      match p_ofile p !! fd with
      | Some (Some f) =>
          env (fo_fileclose f) ;;;
          putp cur (fun p => set_p_ofile (<[fd := None]> (p_ofile p)) p)
      | _ => kret tt
      end ;;;
      close_files cur (S fd) n'
  end.

(** The loop of [exit] that passes the children of [cur] to init. *)
Fixpoint abandon (cur : nat) (i n : nat) : P unit :=
  match n with
  | O => kret tt
  | S n' =>
      p <- getp i ;;
      (when bool_decide (p_parent p = Some cur) do
        (init <- gets pt_initproc ;;
         putp i (set_p_parent init) ;;;
         if decide (p_state p = ZOMBIE) then
           j <- deref init ;; wakeup1 (ChProc j)
         else kret tt)) ;;;
      abandon cur (S i) n'
  end.

(** [exit] before it takes the lock, and up to [sched]. *)
Definition exit_files (cur : nat) : P unit :=
  init <- gets pt_initproc ;;
  if decide (init = Some cur) then panic "init exiting"
  else
    close_files cur 0 NOFILE ;;;
    env fo_begin_op ;;;
    p <- getp cur ;;
    cwd <- deref (p_cwd p) ;;
    env (fo_iput cwd) ;;;
    env fo_end_op ;;;
    putp cur (set_p_cwd None).

Definition exit_table (cur : nat) : P unit :=
  acquire "ptable" ;;;
  p <- getp cur ;;
  (match p_parent p with Some j => wakeup1 (ChProc j) | None => kret tt end) ;;;
  abandon cur 0 NPROC ;;;
  putp cur (set_p_state ZOMBIE) ;;;
  sched cur.

Definition exit (cur : nat) : P unit := exit_files cur ;;; exit_table cur.

(** One scan of [wait] over the table: the pid of the child it reaped, or
    whether there are children. *)
Fixpoint wait_scan (cur : nat) (i n : nat) (havekids : bool) : P (Z + bool) :=
  match n with
  | O => kret (inr havekids)
  | S n' =>
      p <- getp i ;;
      if negb (bool_decide (p_parent p = Some cur)) then wait_scan cur (S i) n' havekids
      else if decide (p_state p = ZOMBIE) then
        kmem_op (kfree (p_kstack p)) ;;;
        putp i (set_p_kstack 0) ;;;
        env (freevm (p_pgdir p)) ;;;
        putp i (set_p_pid 0) ;;;
        putp i (set_p_parent None) ;;;
        putp i (fun p => set_p_name (<[0%nat := 0]> (p_name p)) p) ;;;
        putp i (set_p_killed false) ;;;
        putp i (set_p_state UNUSED) ;;;
        release "ptable" ;;;
        kret (inl (p_pid p))
      else wait_scan cur (S i) n' true
  end.

(** One iteration of [wait], which holds the lock: its result, or [None] when
    the process went to sleep and the next iteration starts at its resumption. *)
Definition wait_round (cur : nat) : P (option Z) :=
  r <- wait_scan cur 0 NPROC false ;;
  match r with
  | inl pid => kret (Some pid)
  | inr havekids =>
      p <- getp cur ;;
      if negb havekids || p_killed p then release "ptable" ;;; kret (Some (-1))
      else sleep cur (ChProc cur) "ptable" ;;; kret None
  end.
Definition wait (cur : nat) : P (option Z) := acquire "ptable" ;;; wait_round cur.
Definition wait_resume (cur : nat) : P (option Z) := sleep_resume cur "ptable" ;;; wait_round cur.

Fixpoint kill_scan (pid : Z) (i n : nat) : P bool :=
  match n with
  | O => kret false
  | S n' =>
      p <- getp i ;;
      if p_pid p =? pid then
        putp i (set_p_killed true) ;;;
        (if decide (p_state p = SLEEPING) then putp i (set_p_state RUNNABLE) else kret tt) ;;;
        kret true
      else kill_scan pid (S i) n'
  end.

Definition kill (pid : Z) : P Z :=
  acquire "ptable" ;;;
  found <- kill_scan pid 0 NPROC ;;
  release "ptable" ;;;
  kret (if found : bool then 0 else -1).
End Ops.
