(* ===== verification/Sched.v ===== *)
(** * Scheduling (proc.c): the processes of all CPUs

    The operations of [Proc] as steps of a system of CPUs and processes.  A
    section of code that holds [ptable.lock] is one step (spin locks exclude,
    see [Spinlock]); between such sections the CPUs interleave freely.  A
    process that called [sched()] is resumed with the lock held at the code
    that follows the call. *)

From stdpp Require Import functions.
From S2P Require Import Prelude Layout Mem Kstring Kalloc Vm Uvm Proc.

(** ** The control part of a process *)

Record core := mk_core { c_state : procstate; c_pid : Z; c_parent : option nat; c_chan : option chan }.
Definition core_of (p : proc) : core := mk_core (p_state p) (p_pid p) (p_parent p) (p_chan p).
Definition core_at {E} (s : ptable E) (k : nat) : option core := core_of <$> pt_proc s !! k.

Definition wake_core (ch : chan) (c : core) : core :=
  if decide (c_state c = SLEEPING /\ c_chan c = Some ch) then mk_core RUNNABLE (c_pid c) (c_parent c) (c_chan c) else c.

(** [s'] is [s] with process [i] at [c]. *)
Record sets {E} (i : nat) (c : core) (s s' : ptable E) : Prop := {
  st_at : forall k, core_at s' k = if decide (k = i) then Some c else core_at s k;
  st_len : length (pt_proc s') = length (pt_proc s);
  st_init : pt_initproc s' = pt_initproc s;
  st_next : pt_nextpid s' = pt_nextpid s
}.
(** [s'] has the control state of [s]. *)
Record same {E} (s s' : ptable E) : Prop := {
  sm_at : forall k, core_at s' k = core_at s k;
  sm_len : length (pt_proc s') = length (pt_proc s);
  sm_init : pt_initproc s' = pt_initproc s;
  sm_next : pt_nextpid s' = pt_nextpid s
}.

(** [s'] is [s] after the sleepers on [ch] are woken. *)
Record woken {E} (ch : chan) (s s' : ptable E) : Prop := {
  wk_at : forall k, core_at s' k = wake_core ch <$> core_at s k;
  wk_len : length (pt_proc s') = length (pt_proc s);
  wk_init : pt_initproc s' = pt_initproc s;
  wk_next : pt_nextpid s' = pt_nextpid s
}.

Section Effects.
Context {E : Type}.
Implicit Types (s t : ptable E) (i : nat).

Lemma same_refl s : same s s.
Proof. done. Qed.
Lemma same_trans s t u : same s t -> same t u -> same s u.
Proof. intros [A1 A2 A3 A4] [B1 B2 B3 B4]. split; intros; rewrite ?B1, ?B2, ?B3, ?B4; auto. Qed.
Lemma sets_same i c s t u : sets i c s t -> same t u -> sets i c s u.
Proof. intros [A1 A2 A3 A4] [B1 B2 B3 B4]. split; intros; rewrite ?B1, ?B2, ?B3, ?B4; auto. Qed.
Lemma same_sets i c s t u : same s t -> sets i c t u -> sets i c s u.
Proof.
  intros [A1 A2 A3 A4] [B1 B2 B3 B4]. split; intros; rewrite ?B1, ?B2, ?B3, ?B4; auto.
  case_decide; auto.
Qed.
Lemma sets_sets i c d s t u : sets i c s t -> sets i d t u -> sets i d s u.
Proof.
  intros [A1 A2 A3 A4] [B1 B2 B3 B4]. split; intros; rewrite ?B1, ?B2, ?B3, ?B4; auto.
  case_decide; [done|]. rewrite A1. by case_decide.
Qed.
Lemma sets_self i c s t : sets i c s t -> core_at s i = Some c -> same s t.
Proof.
  intros [A1 A2 A3 A4] Hc. split; try done. intros k. rewrite A1. case_decide; congruence.
Qed.

Lemma sets_nextpid i c n s t : sets i c s t -> sets i c (set_nextpid n s) (set_nextpid n t).
Proof. by intros [A1 A2 A3 A4]. Qed.

Lemma env_inv {A} (c : M E A) s a t : env c s = Ok a t -> same s t.
Proof. unfold env, lift. destruct (c _); intros; simplify_eq. done. Qed.

Lemma acquire_inv l s u t : acquire l s = Ok u t -> same s t.
Proof. unfold acquire. case_decide; intros; simplify_eq. done. Qed.
Lemma release_inv l s u t : release l s = Ok u t -> same s t.
Proof. unfold release. case_decide; intros; simplify_eq. done. Qed.

Lemma getp_inv i s p t : getp i s = Ok p t -> t = s /\ pt_proc s !! i = Some p.
Proof.
  unfold getp. intros (s1 & ? & [= <- <-] & Hd)%kbind_ok_inv. unfold deref in Hd.
  destruct (pt_proc s !! i); [|done]. unfold kret in Hd. by simplify_eq.
Qed.

Lemma putp_inv i g s u t :
  putp i g s = Ok u t -> exists p, pt_proc s !! i = Some p /\ pt_proc t !! i = Some (g p) /\ sets i (core_of (g p)) s t.
Proof.
  unfold putp. intros (s1 & ? & [= <- <-] & Hd)%kbind_ok_inv. destruct (pt_proc s !! i) as [p|] eqn:Hp; [|done].
  unfold kput in Hd. simplify_eq. exists p. split; [done|]. simpl.
  pose proof (lookup_lt_Some _ _ _ Hp). split; [by apply list_lookup_insert_eq|].
  split; try done; simpl; [|by rewrite length_insert].
  intros k. unfold core_at. simpl. case_decide as Hk; [subst; by rewrite list_lookup_insert_eq|].
  by rewrite list_lookup_insert_ne.
Qed.

(** An update that leaves the control part alone. *)
Lemma putp_same i g s u t :
  (forall p, core_of (g p) = core_of p) -> putp i g s = Ok u t -> same s t.
Proof.
  intros Hg (p & Hp & _ & Hs)%putp_inv. apply (sets_self _ _ _ _ Hs). unfold core_at. by rewrite Hp, Hg.
Qed.

Lemma sets_refl i c s : core_at s i = Some c -> sets i c s s.
Proof. intros Hc. split; try done. intros k. by case_decide; subst. Qed.

Lemma put_core i g f c s0 s u t :
  (forall p, core_of (g p) = f (core_of p)) -> sets i c s0 s -> putp i g s = Ok u t -> sets i (f c) s0 t.
Proof.
  intros Hg Hs (p & Hp & _ & Ht)%putp_inv. rewrite Hg in Ht.
  assert (core_of p = c) as <-; [|by eapply sets_sets].
  pose proof (st_at _ _ _ _ Hs i) as Hc. unfold core_at in Hc. rewrite Hp, decide_True in Hc by done. by simplify_eq/=.
Qed.
Lemma put_state i x c s0 s u t : sets i c s0 s -> putp i (set_p_state x) s = Ok u t ->
  sets i (mk_core x (c_pid c) (c_parent c) (c_chan c)) s0 t.
Proof. by apply (put_core i _ (fun c => mk_core x (c_pid c) (c_parent c) (c_chan c))). Qed.
Lemma put_pid i x c s0 s u t : sets i c s0 s -> putp i (set_p_pid x) s = Ok u t ->
  sets i (mk_core (c_state c) x (c_parent c) (c_chan c)) s0 t.
Proof. by apply (put_core i _ (fun c => mk_core (c_state c) x (c_parent c) (c_chan c))). Qed.
Lemma put_parent i x c s0 s u t : sets i c s0 s -> putp i (set_p_parent x) s = Ok u t ->
  sets i (mk_core (c_state c) (c_pid c) x (c_chan c)) s0 t.
Proof. by apply (put_core i _ (fun c => mk_core (c_state c) (c_pid c) x (c_chan c))). Qed.
Lemma put_chan i x c s0 s u t : sets i c s0 s -> putp i (set_p_chan x) s = Ok u t ->
  sets i (mk_core (c_state c) (c_pid c) (c_parent c) x) s0 t.
Proof. by apply (put_core i _ (fun c => mk_core (c_state c) (c_pid c) (c_parent c) x)). Qed.

Lemma core_proc s i p : pt_proc s !! i = Some p -> core_at s i = Some (core_of p).
Proof. unfold core_at. by intros ->. Qed.

Lemma core_at_dom s k : is_Some (core_at s k) <-> (k < length (pt_proc s))%nat.
Proof. unfold core_at. rewrite fmap_is_Some. apply lookup_lt_is_Some. Qed.

Lemma wakeup1_inv ch s u t : wakeup1 ch s = Ok u t -> woken ch s t.
Proof.
  intros [= <- <-]. split; try done; [|simpl; by rewrite length_fmap]. intros k. unfold core_at. simpl. rewrite list_lookup_fmap.
  destruct (pt_proc s !! k) as [p|]; [|done]. simpl. f_equal. unfold wake, wake_core. simpl. by repeat case_decide.
Qed.

Lemma deref_inv {A} (o : option A) s a t : deref o s = Ok a t -> t = s /\ o = Some a.
Proof. destruct o; [by intros [= <- <-]|done]. Qed.

Lemma sched_inv cur s u t : sched cur s = Ok u t -> t = s.
Proof.
  unfold sched. intros (h & ? & [= <- <-] & (p & s1 & [-> Hp]%getp_inv & Hd)%kbind_ok_inv)%kbind_ok_inv.
  repeat case_decide; try done. unfold kret in Hd. by simplify_eq.
Qed.
End Effects.

(** Take apart the successful run of a sequence. *)
Ltac run_inv :=
  repeat match goal with
  | H : kbind _ _ _ = Ok _ _ |- _ =>
      let a := fresh "a" in let s := fresh "s" in let E := fresh "E" in
      apply kbind_ok_inv in H as (a & s & E & H)
  | H : kret _ _ = Ok _ _ |- _ => unfold kret in H; simplify_eq
  | H : gets _ _ = Ok _ _ |- _ => unfold gets in H; simplify_eq
  | H : modify _ _ = Ok _ _ |- _ => unfold modify in H; simplify_eq
  | H : panic _ _ = Ok _ _ |- _ => done
  | H : fault _ _ = Ok _ _ |- _ => done
  | H : acquire _ _ = Ok _ _ |- _ => apply acquire_inv in H
  | H : release _ _ = Ok _ _ |- _ => apply release_inv in H
  | H : env _ _ = Ok _ _ |- _ => apply env_inv in H
  | H : kmem_op _ _ = Ok _ _ |- _ => apply env_inv in H
  | H : mem_op _ _ = Ok _ _ |- _ => apply env_inv in H
  | H : getp _ _ = Ok _ _ |- _ => apply getp_inv in H as [-> H]
  | H : deref _ _ = Ok _ _ |- _ => apply deref_inv in H as [-> H]
  | H : sched _ _ = Ok _ _ |- _ => apply sched_inv in H as ->
  | H : putp _ _ _ = Ok _ _ |- _ => apply putp_same in H; [|done]
  | H : (if ?b then _ else _) _ = Ok _ _ |- _ => destruct b eqn:?
  end.

(** Follow the control part of one process through the steps of a run. *)
Ltac follow :=
  repeat match goal with
  | T : sets ?i ?c ?s0 ?s, B : same ?s ?t |- _ => apply (sets_same _ _ _ _ _ T) in B; clear T
  | T : same ?s0 ?s, B : same ?s ?t |- _ => apply (same_trans _ _ _ T) in B; clear T
  | T : sets ?i ?c ?s0 ?s, B : putp ?i (set_p_state _) ?s = Ok _ ?t |- _ => apply (put_state _ _ _ _ _ _ _ T) in B; clear T
  | T : sets ?i ?c ?s0 ?s, B : putp ?i (set_p_pid _) ?s = Ok _ ?t |- _ => apply (put_pid _ _ _ _ _ _ _ T) in B; clear T
  | T : sets ?i ?c ?s0 ?s, B : putp ?i (set_p_parent _) ?s = Ok _ ?t |- _ => apply (put_parent _ _ _ _ _ _ _ T) in B; clear T
  | T : sets ?i ?c ?s0 ?s, B : putp ?i (set_p_chan _) ?s = Ok _ ?t |- _ => apply (put_chan _ _ _ _ _ _ _ T) in B; clear T
  end; simpl in *.

Section OpEffects.
Context `{KI : KernelImage} `{KS : KernelSymbols} {E : Type} `{SB : Sub kmem E} `{SO : SwapOps E} `{FO : FileOps E}.
Implicit Types (s t : ptable E) (i cur : nat).

Lemma find_unused_Some k l i :
  find_unused k l = Some i -> exists j p, i = (k + j)%nat /\ l !! j = Some p /\ p_state p = UNUSED.
Proof.
  revert k. induction l as [|p l IH]; intros k; simpl; [done|]. case_decide as Hu.
  - intros [= <-]. exists 0%nat, p. split; [lia|done].
  - intros (j & q & -> & Hj & Hq)%IH. exists (S j), q. split; [lia|done].
Qed.

Lemma alloc_slot_inv s o t :
  alloc_slot s = Ok o t ->
  (o = None /\ same s t) \/
  exists i c, o = Some i /\ core_at s i = Some c /\ c_state c = UNUSED /\
    sets i (mk_core EMBRYO (pt_nextpid s) (c_parent c) (c_chan c)) (set_nextpid (s32 (pt_nextpid s + 1)) s) t.
Proof.
  intros Hr. unfold alloc_slot in Hr. run_inv.
  destruct (find_unused 0 (pt_proc s1)) as [i|] eqn:Hf; [|run_inv; follow; by left].
  apply find_unused_Some in Hf as (j & q & -> & Hj & Hu). simpl in Hr.
  assert (core_at s j = Some (core_of q)) as Hc by (rewrite <- (sm_at _ _ E0); by apply core_proc).
  pose proof (sets_refl _ _ _ Hc) as Hs. run_inv. right. exists j, (core_of q).
  split; [done|]. split; [done|]. split; [done|].
  match goal with B : putp j (set_p_state EMBRYO) s1 = Ok _ ?u |- _ =>
    assert (pt_nextpid u = pt_nextpid s) as En; [pose proof B as (? & _ & _ & Hb)%putp_inv; by rewrite (st_next _ _ _ _ Hb), (sm_next _ _ E0)|rewrite En in *] end.
  follow. match goal with B : same (set_nextpid _ _) t |- _ => refine (sets_same _ _ _ _ _ _ B) end. by apply sets_nextpid.
Qed.

Lemma alloc_stack_inv i c s o t :
  core_at s i = Some c -> alloc_stack i s = Ok o t ->
  (o = Some i /\ same s t) \/ (o = None /\ sets i (mk_core UNUSED (c_pid c) (c_parent c) (c_chan c)) s t).
Proof.
  intros Hc Hr. unfold alloc_stack in Hr. run_inv; [right|left; by follow].
  split; [done|]. pose proof (sets_refl _ _ _ Hc) as Hs. by follow.
Qed.

(** [allocproc]: the slot [i], free before, is an embryo with the next pid;
    without memory for a stack it is free again. *)
Lemma allocproc_inv s o t :
  allocproc s = Ok o t ->
  (o = None /\ same s t) \/
  exists i c, core_at s i = Some c /\ c_state c = UNUSED /\
    ((o = Some i /\ sets i (mk_core EMBRYO (pt_nextpid s) (c_parent c) (c_chan c)) (set_nextpid (s32 (pt_nextpid s + 1)) s) t) \/
     (o = None /\ sets i (mk_core UNUSED (pt_nextpid s) (c_parent c) (c_chan c)) (set_nextpid (s32 (pt_nextpid s + 1)) s) t)).
Proof.
  intros Hr. unfold allocproc in Hr. apply kbind_ok_inv in Hr as (o1 & s1 & Ha & Hr).
  apply alloc_slot_inv in Ha as [[-> Hs]|(i & c & -> & Hc & Hu & Hs)]; [run_inv; by left|].
  right. exists i, c. split; [done|]. split; [done|].
  apply (alloc_stack_inv i (mk_core EMBRYO (pt_nextpid s) (c_parent c) (c_chan c))) in Hr;
    [|rewrite (st_at _ _ _ _ Hs); by rewrite decide_True].
  destruct Hr as [[-> Hs']|[-> Hs']]; [left|right]; (split; [done|]).
  - by follow.
  - by eapply sets_sets.
Qed.

Lemma dup_files_inv np k fs s u t : dup_files np k fs s = Ok u t -> same s t.
Proof.
  revert k s. induction fs as [|o fs IH]; intros k s Hr; simpl in Hr; run_inv; [done|].
  apply IH in Hr. destruct o; run_inv; by follow.
Qed.

Lemma fork_copy_inv cur np c s r t :
  core_at s np = Some c -> fork_copy cur np s = Ok r t ->
  (r = -1 /\ sets np (mk_core UNUSED (c_pid c) (c_parent c) (c_chan c)) s t) \/
  (r = c_pid c /\ sets np (mk_core RUNNABLE (c_pid c) (Some cur) (c_chan c)) s t).
Proof.
  intros Hc Hr. pose proof (sets_refl _ _ _ Hc) as Hs. unfold fork_copy in Hr.
  run_inv; [left; split; [done|]; by follow|right].
  match goal with H : dup_files _ _ _ _ = Ok _ _ |- _ => apply dup_files_inv in H end.
  match goal with H : pt_proc ?u !! np = Some ?q |- _ =>
    assert (sets np c s u) as Hu by (clear - Hs E1 E2; by follow);
    pose proof (st_at _ _ _ _ Hu np) as Hq; rewrite (core_proc _ _ _ H), decide_True in Hq by done;
    clear Hu end.
  split; [by simplify_eq|]. clear Hq. by follow.
Qed.

Lemma woken_same ch s t u : woken ch s t -> same t u -> woken ch s u.
Proof. intros [A1 A2 A3 A4] [B1 B2 B3 B4]. split; intros; rewrite ?B1, ?B2, ?B3, ?B4; auto. Qed.
Lemma same_woken ch s t u : same s t -> woken ch t u -> woken ch s u.
Proof. intros [A1 A2 A3 A4] [B1 B2 B3 B4]. split; intros; rewrite ?B1, ?B2, ?B3, ?B4, ?A1; auto. Qed.

Lemma wakeup_inv ch s u t : wakeup ch s = Ok u t -> woken ch s t.
Proof.
  intros Hr. unfold wakeup in Hr. run_inv.
  match goal with H : wakeup1 _ _ = Ok _ _ |- _ => apply wakeup1_inv in H end.
  eapply same_woken; [eassumption|]. by eapply woken_same.
Qed.

Lemma yield_inv cur c s u t :
  core_at s cur = Some c -> yield cur s = Ok u t -> sets cur (mk_core RUNNABLE (c_pid c) (c_parent c) (c_chan c)) s t.
Proof. intros Hc Hr. pose proof (sets_refl _ _ _ Hc) as Hs. unfold yield in Hr. run_inv. by follow. Qed.

Lemma sleep_inv cur ch lk c s u t :
  core_at s cur = Some c -> sleep cur ch lk s = Ok u t -> sets cur (mk_core SLEEPING (c_pid c) (c_parent c) (Some ch)) s t.
Proof.
  intros Hc Hr. pose proof (sets_refl _ _ _ Hc) as Hs. unfold sleep in Hr. run_inv; by follow.
Qed.

Lemma sleep_resume_inv cur lk c s u t :
  core_at s cur = Some c -> sleep_resume cur lk s = Ok u t -> sets cur (mk_core (c_state c) (c_pid c) (c_parent c) None) s t.
Proof.
  intros Hc Hr. pose proof (sets_refl _ _ _ Hc) as Hs. unfold sleep_resume in Hr. run_inv; by follow.
Qed.

Lemma switchuvm_inv i s u t : switchuvm i s = Ok u t -> t = s.
Proof. intros Hr. unfold switchuvm in Hr. by run_inv. Qed.

Lemma scheduler_at_inv i s b t :
  scheduler_at i s = Ok b t -> exists c, core_at s i = Some c /\
    if b then c_state c = RUNNABLE /\ sets i (mk_core RUNNING (c_pid c) (c_parent c) (c_chan c)) s t
    else c_state c <> RUNNABLE /\ same s t.
Proof.
  intros Hr. unfold scheduler_at in Hr. run_inv.
  all: match goal with H : pt_proc _ !! _ = Some ?q |- _ => apply core_proc in H as Hc; exists (core_of q) end.
  - split; [done|]. simpl. split; [done|apply same_refl].
  - pose proof (sets_refl _ _ _ Hc) as Hs. split; [done|].
    match goal with H : switchuvm _ _ = Ok _ _ |- _ => apply switchuvm_inv in H; subst end.
    split; [by apply dec_stable|]. by follow.
Qed.

Lemma kill_scan_inv pid i n s b t :
  kill_scan pid i n s = Ok b t -> same s t \/
  exists k c, core_at s k = Some c /\ c_state c = SLEEPING /\ sets k (mk_core RUNNABLE (c_pid c) (c_parent c) (c_chan c)) s t.
Proof.
  revert i s. induction n as [|n IH]; intros i s Hr; simpl in Hr; run_inv.
  - left. done.
  - match goal with H : pt_proc s !! _ = Some _ |- _ => apply core_proc in H as Hc end.
    right. eexists i, _. split; [exact Hc|]. split; [done|]. pose proof (sets_refl _ _ _ Hc) as Hs. by follow.
  - left. done.
  - by apply IH in Hr.
Qed.

Lemma kill_inv pid s r t :
  kill pid s = Ok r t -> same s t \/
  exists k c, core_at s k = Some c /\ c_state c = SLEEPING /\ sets k (mk_core RUNNABLE (c_pid c) (c_parent c) (c_chan c)) s t.
Proof.
  intros Hr. unfold kill in Hr. apply kbind_ok_inv in Hr as (? & s1 & H1%acquire_inv & Hr).
  apply kbind_ok_inv in Hr as (? & s2 & H2 & Hr). run_inv.
  apply kill_scan_inv in H2 as [H2|(k & c & Hc & Hst & H2)]; [left; by follow|right].
  exists k, c. rewrite <- (sm_at _ _ H1). split; [done|]. split; [done|].
  eapply same_sets; [exact H1|]. by follow.
Qed.

(** The children of [cur] in slots [lo, hi) have passed to init, which is
    awake if one of them is a zombie. *)
Record abandoned (cur lo hi : nat) s t : Prop := {
  ab_at : forall k c, core_at s k = Some c -> exists c', core_at t k = Some c' /\
    c_pid c' = c_pid c /\ c_chan c' = c_chan c /\
    c_parent c' = (if decide (c_parent c = Some cur /\ (lo <= k < hi)%nat) then pt_initproc s else c_parent c) /\
    (c_state c' = c_state c \/ c_state c = SLEEPING /\ c_state c' = RUNNABLE);
  ab_wake : forall k c j cj, (lo <= k < hi)%nat -> core_at s k = Some c -> c_parent c = Some cur ->
    c_state c = ZOMBIE -> pt_initproc s = Some j -> core_at t j = Some cj ->
    ~ (c_state cj = SLEEPING /\ c_chan cj = Some (ChProc j));
  ab_len : length (pt_proc t) = length (pt_proc s);
  ab_init : pt_initproc t = pt_initproc s;
  ab_next : pt_nextpid t = pt_nextpid s
}.

Lemma wake_core_cases ch c :
  c_pid (wake_core ch c) = c_pid c /\ c_chan (wake_core ch c) = c_chan c /\ c_parent (wake_core ch c) = c_parent c /\
  (c_state (wake_core ch c) = c_state c \/ c_state c = SLEEPING /\ c_state (wake_core ch c) = RUNNABLE) /\
  ~ (c_state (wake_core ch c) = SLEEPING /\ c_chan (wake_core ch c) = Some ch).
Proof.
  unfold wake_core. case_decide as Hc; simpl; [|naive_solver]. destruct Hc. split_and!; auto. by intros [? _].
Qed.

(** One slot of the loop. *)
Definition abandon_at cur i : M (ptable E) unit :=
  p <- getp i ;;
  (when bool_decide (p_parent p = Some cur) do
    (init <- gets pt_initproc ;;
     putp i (set_p_parent init) ;;;
     if decide (p_state p = ZOMBIE) then
       j <- deref init ;; wakeup1 (ChProc j)
     else kret tt)).

Lemma abandon_at_inv cur i s u t : abandon_at cur i s = Ok u t -> abandoned cur i (S i) s t.
Proof.
  intros Hr. unfold abandon_at in Hr. run_inv; boolify;
    match goal with H : pt_proc _ !! _ = Some _ |- _ => apply core_proc in H as Hc end.
  - pose proof (sets_refl _ _ _ Hc) as Hs. follow.
    match goal with H : sets _ _ _ ?u |- _ => destruct H as [A1 A2 A3 A4] end.
    apply wakeup1_inv in Hr as [B1 B2 B3 B4].
    split; rewrite ?B2, ?B3, ?B4; try done.
    + intros k c Hk. rewrite B1, A1. destruct (decide (k = i)) as [->|Hki].
      * rewrite Hc in Hk. simplify_eq. rewrite decide_True by (split; [done|lia]).
        eexists. split; [done|]. match goal with |- context [wake_core ?ch ?c] => destruct (wake_core_cases ch c) as (W1 & W2 & W3 & W4 & _) end.
        rewrite W1, W2, W3. by repeat split.
      * rewrite decide_False by lia. rewrite Hk. eexists. split; [done|].
        match goal with |- context [wake_core ?ch ?c] => destruct (wake_core_cases ch c) as (W1 & W2 & W3 & W4 & _) end.
        by rewrite W1, W2, W3.
    + intros k c j cj Hk Hkc Hp Hz Hj Hcj. rewrite B1 in Hcj. simplify_eq.
      apply fmap_Some in Hcj as (cj' & _ & ->). apply wake_core_cases.
  - pose proof (sets_refl _ _ _ Hc) as Hs. follow.
    match goal with H : sets _ _ _ ?u |- _ => destruct H as [A1 A2 A3 A4] end.
    split; try done.
    + intros k c Hk. rewrite A1. destruct (decide (k = i)) as [->|Hki].
      * rewrite Hc in Hk. simplify_eq. rewrite decide_True by (split; [done|lia]).
        eexists. split; [done|]. simpl. auto.
      * rewrite decide_False by lia. eauto 10.
    + intros k c j cj Hk Hkc Hp Hz. replace k with i in * by lia. rewrite Hc in Hkc. by simplify_eq.
  - split; try done.
    + intros k c Hk. rewrite decide_False; [eauto 10|]. intros [Hp Hki]. replace k with i in * by lia.
      rewrite Hc in Hk. by simplify_eq.
    + intros k c j cj Hk Hkc Hp. replace k with i in * by lia. rewrite Hc in Hkc. by simplify_eq.
Qed.

Lemma abandon_inv cur i n s u t : abandon cur i n s = Ok u t -> abandoned cur i (i + n) s t.
Proof.
  revert i s. induction n as [|n IH]; intros i s Hr.
  - simpl in Hr. run_inv. split; try done; [|intros; lia]. intros k c Hk. rewrite decide_False by lia. eauto 10.
  - assert (kbind (abandon_at cur i) (fun _ => abandon cur (S i) n) s = Ok u t) as Hr'.
    { rewrite <- Hr. simpl. unfold abandon_at, kbind. by destruct (getp i s). }
    apply kbind_ok_inv in Hr' as (? & s1 & [A1 A2 A3 A4 A5]%abandon_at_inv & [B1 B2 B3 B4 B5]%IH).
    split; rewrite ?B3, ?B4, ?B5; try done.
    + intros k c Hk. destruct (A1 k c Hk) as (c1 & Hk1 & P1 & Q1 & R1 & T1).
      destruct (B1 k c1 Hk1) as (c2 & Hk2 & P2 & Q2 & R2 & T2). exists c2.
      split; [done|]. split; [congruence|]. split; [congruence|]. rewrite R2, R1, A4.
      split; [|destruct T1 as [T1|[T1 T1']], T2 as [T2|[T2 T2']]; rewrite ?T2, ?T2'; try congruence; auto; right; split; congruence].
      destruct (decide (c_parent c = Some cur)) as [Hp|Hp], (decide (k = i)) as [Hki|Hki].
      * rewrite (decide_True (P := _ /\ (i <= k < S i)%nat)) by (split; [done|lia]).
        rewrite decide_False by lia. rewrite decide_True by (split; [done|lia]). done.
      * rewrite (decide_False (P := _ /\ (i <= k < S i)%nat)) by lia.
        apply decide_ext. split; intros [? ?]; (split; [done|lia]).
      * rewrite (decide_False (P := _ /\ (i <= k < S i)%nat)) by tauto. rewrite !decide_False by tauto. done.
      * rewrite (decide_False (P := _ /\ (i <= k < S i)%nat)) by tauto. rewrite !decide_False by tauto. done.
    + intros k c j cj Hk Hkc Hp Hz Hj Hcj. destruct (decide (k = i)) as [->|Hki].
      * assert (is_Some (core_at s1 j)) as [cj1 Hj1].
        { apply core_at_dom. rewrite <- B3. apply core_at_dom. eauto. }
        destruct (B1 j cj1 Hj1) as (cj2 & Hj2 & P2 & Q2 & R2 & T2). rewrite Hcj in Hj2. simplify_eq.
        pose proof (A2 i c j cj1 ltac:(lia) Hkc Hp Hz Hj Hj1). rewrite Q2.
        destruct T2 as [T2|[T2 T2']]; rewrite ?T2, ?T2'; [done|]. by intros [? _].
      * destruct (A1 k c Hkc) as (c1 & Hk1 & P1 & Q1 & R1 & T1). rewrite decide_False in R1 by lia.
        apply (B2 k c1 j cj); [lia|done|congruence| |congruence|done].
        destruct T1 as [T1|[T1 _]]; congruence.
Qed.

(** [exit] under the lock: [cur] is a zombie without children, its parent is
    not left asleep in [wait], nor is init if it inherited a zombie. *)
Record exited (cur : nat) s t : Prop := {
  ex_at : forall k c, core_at s k = Some c -> exists c', core_at t k = Some c' /\
    c_pid c' = c_pid c /\ c_chan c' = c_chan c /\
    c_parent c' = (if decide (c_parent c = Some cur) then pt_initproc s else c_parent c) /\
    (if decide (k = cur) then c_state c' = ZOMBIE
     else c_state c' = c_state c \/ c_state c = SLEEPING /\ c_state c' = RUNNABLE);
  ex_parent : forall c j cj, core_at s cur = Some c -> c_parent c = Some j -> core_at t j = Some cj ->
    ~ (c_state cj = SLEEPING /\ c_chan cj = Some (ChProc j));
  ex_wake : forall k c j cj, core_at s k = Some c -> c_parent c = Some cur ->
    c_state c = ZOMBIE -> pt_initproc s = Some j -> core_at t j = Some cj ->
    ~ (c_state cj = SLEEPING /\ c_chan cj = Some (ChProc j));
  ex_len : length (pt_proc t) = length (pt_proc s);
  ex_init : pt_initproc t = pt_initproc s;
  ex_next : pt_nextpid t = pt_nextpid s
}.

(** The start of [exit]: the parent is woken. *)
Record parent_woken (cur : nat) s t : Prop := {
  pw_at : forall k c, core_at s k = Some c -> exists c', core_at t k = Some c' /\
    c_pid c' = c_pid c /\ c_chan c' = c_chan c /\ c_parent c' = c_parent c /\
    (c_state c' = c_state c \/ c_state c = SLEEPING /\ c_state c' = RUNNABLE);
  pw_wake : forall c j cj, core_at s cur = Some c -> c_parent c = Some j -> core_at t j = Some cj ->
    ~ (c_state cj = SLEEPING /\ c_chan cj = Some (ChProc j));
  pw_len : length (pt_proc t) = length (pt_proc s);
  pw_init : pt_initproc t = pt_initproc s;
  pw_next : pt_nextpid t = pt_nextpid s
}.

Lemma wake_parent_inv cur p s u t :
  pt_proc s !! cur = Some p ->
  (match p_parent p with Some j => wakeup1 (ChProc j) | None => kret tt end) s = Ok u t -> parent_woken cur s t.
Proof.
  intros Hp Hr. apply core_proc in Hp. destruct (p_parent p) as [j|] eqn:Hj.
  - apply wakeup1_inv in Hr as [B1 B2 B3 B4]. split; try done.
    + intros k c Hk. rewrite B1, Hk. simpl. destruct (wake_core_cases (ChProc j) c) as (W1 & W2 & W3 & W4 & _). eauto 10.
    + intros c j' cj Hc Hcj. rewrite Hp in Hc. simplify_eq. simpl in Hcj. rewrite Hj in Hcj. simplify_eq.
      rewrite B1. intros (c' & _ & ->)%fmap_Some. apply wake_core_cases.
  - run_inv. split; try done; [eauto 10|]. intros c j cj Hc Hcj. rewrite Hp in Hc. simplify_eq. simpl in Hcj. congruence.
Qed.

Lemma exit_table_inv cur s u t :
  length (pt_proc s) = NPROC -> exit_table cur s = Ok u t -> exited cur s t.
Proof.
  intros Hlen Hr. unfold exit_table in Hr. run_inv.
  match goal with H : same _ _ |- _ => destruct H as [S1 S2 S3 S4] end.
  match goal with H : abandon _ _ _ _ = Ok _ _ |- _ => apply abandon_inv in H as [A1 A2 A3 A4 A5] end.
  match goal with H : pt_proc ?s1 !! cur = Some _ , K : _ ?s1 = Ok _ _ |- _ => apply (wake_parent_inv _ _ _ _ _ H) in K as [W1 W2 W3 W4 W5] end.
  match goal with H : putp _ _ _ = Ok _ _ |- _ => apply putp_inv in H as (q & Hq & _ & [P1 P2 P3 P4]) end.
  apply core_proc in Hq.
  split; try congruence.
  - intros k c Hk. rewrite <- S1 in Hk. destruct (W1 k c Hk) as (c1 & Hk1 & X1 & Y1 & Z1 & T1).
    destruct (A1 k c1 Hk1) as (c2 & Hk2 & X2 & Y2 & Z2 & T2).
    assert (k < NPROC)%nat as Hkn. { rewrite <- Hlen, <- S2. apply core_at_dom. eauto. }
    assert (c_parent c2 = (if decide (c_parent c = Some cur) then pt_initproc s else c_parent c)) as Hpar.
    { rewrite Z2, Z1, W4, S3. apply decide_ext. split; [tauto|]. intros. split; [done|lia]. }
    rewrite P1. destruct (decide (k = cur)) as [->|Hkc].
    + rewrite Hq in Hk2. simplify_eq. eexists. split; [done|]. simpl in *. split_and!; congruence || done.
    + exists c2. split; [done|]. split_and!; [congruence|congruence|done|].
      destruct T1 as [T1|[T1 T1']], T2 as [T2|[T2 T2']]; rewrite ?T2, ?T2'; try congruence; auto; right; split; congruence.
  - intros c j cj Hc Hj Hcj. rewrite <- S1 in Hc. rewrite P1 in Hcj.
    destruct (decide (j = cur)) as [->|Hjc]; [simplify_eq; by intros [? _]|].
    match type of A3 with _ = length (pt_proc ?x) => assert (is_Some (core_at x j)) as [cj1 Hj1] end.
    { apply core_at_dom. rewrite <- A3. apply core_at_dom. eauto. }
    destruct (A1 j cj1 Hj1) as (cj2 & Hj2 & X2 & Y2 & Z2 & T2). rewrite Hcj in Hj2. simplify_eq.
    pose proof (W2 c j cj1 Hc Hj Hj1). rewrite Y2. destruct T2 as [T2|[T2 T2']]; rewrite ?T2, ?T2'; [done|by intros [? _]].
  - intros k c j cj Hk Hp Hz Hj Hcj. rewrite <- S1 in Hk. rewrite P1 in Hcj.
    destruct (decide (j = cur)) as [->|Hjc]; [simplify_eq; by intros [? _]|].
    destruct (W1 k c Hk) as (c1 & Hk1 & X1 & Y1 & Z1 & T1).
    assert (k < NPROC)%nat as Hkn. { rewrite <- Hlen, <- S2. apply core_at_dom. eauto. }
    apply (A2 k c1 j cj); [lia|done|congruence| |congruence|done]. destruct T1 as [T1|[T1 _]]; congruence.
Qed.

Lemma wait_scan_inv cur i n hk s r t :
  wait_scan cur i n hk s = Ok r t ->
  match r with
  | inl pid => exists k c, core_at s k = Some c /\ c_parent c = Some cur /\ c_state c = ZOMBIE /\ pid = c_pid c /\
      sets k (mk_core UNUSED 0 None (c_chan c)) s t
  | inr hk' => t = s /\
      (forall k c, (i <= k < i + n)%nat -> core_at s k = Some c -> c_parent c = Some cur -> c_state c <> ZOMBIE) /\
      (hk' = true <-> hk = true \/ exists k c, (i <= k < i + n)%nat /\ core_at s k = Some c /\ c_parent c = Some cur)
  end.
Proof.
  revert i hk s. induction n as [|n IH]; intros i hk s Hr; simpl in Hr; run_inv.
  - split; [done|]. split; [intros; lia|]. split; [by left|]. intros [?|(k & c & Hk & _)]; [done|lia].
  - boolify. apply core_proc in E0 as Hc. apply IH in Hr. destruct r as [pid|hk']; [done|].
    destruct Hr as (-> & Hn & Hh). split; [done|]. split.
    + intros k c Hk Hkc Hp. destruct (decide (k = i)) as [->|]; [rewrite Hc in Hkc; by simplify_eq|].
      apply (Hn k c); [lia|done|done].
    + rewrite Hh. split; (intros [?|(k & c & Hk & Hkc & Hp)]; [by left|right]); [exists k, c; split; [lia|done]|].
      exists k, c. split; [|done]. destruct (decide (k = i)) as [->|]; [rewrite Hc in Hkc; by simplify_eq|lia].
  - boolify. apply core_proc in E0 as Hc. pose proof (sets_refl _ _ _ Hc) as Hs.
    eexists i, _. split; [exact Hc|]. simpl. split; [done|]. split; [done|]. split; [done|]. by follow.
  - boolify. apply core_proc in E0 as Hc. apply IH in Hr. destruct r as [pid|hk']; [done|].
    destruct Hr as (-> & Hn & Hh). split; [done|]. split.
    + intros k c Hk Hkc Hp. destruct (decide (k = i)) as [->|]; [rewrite Hc in Hkc; by simplify_eq|].
      apply (Hn k c); [lia|done|done].
    + rewrite Hh. split; [|by left]. intros _. right. eexists i, _. split; [lia|]. split; [exact Hc|done].
Qed.

#[local] Strategy 100 [wait_scan].
Lemma wait_round_inv cur c s r t :
  core_at s cur = Some c -> length (pt_proc s) = NPROC -> wait_round cur s = Ok r t ->
  match r with
  | Some x =>
      (exists k d, core_at s k = Some d /\ c_parent d = Some cur /\ c_state d = ZOMBIE /\ x = c_pid d /\
         sets k (mk_core UNUSED 0 None (c_chan d)) s t) \/
      (x = -1 /\ same s t /\ forall k d, core_at s k = Some d -> c_parent d = Some cur -> c_state d <> ZOMBIE)
  | None => sets cur (mk_core SLEEPING (c_pid c) (c_parent c) (Some (ChProc cur))) s t /\
      forall k d, core_at s k = Some d -> c_parent d = Some cur -> c_state d <> ZOMBIE
  end.
Proof.
  intros Hc Hlen Hr. unfold wait_round in Hr. apply kbind_ok_inv in Hr as (o & s1 & Hsc & Hr).
  apply wait_scan_inv in Hsc. destruct o as [pid|hk]; [run_inv; by left|].
  destruct Hsc as (-> & Hno & _). apply kbind_ok_inv in Hr as (p & s2 & [-> Hp]%getp_inv & Hr).
  assert (forall k d, core_at s k = Some d -> c_parent d = Some cur -> c_state d <> ZOMBIE) as Hnz.
  { intros k d Hk Hp'. refine (Hno k d _ Hk Hp').
    assert (k < length (pt_proc s))%nat as Hkl by (apply core_at_dom; eauto). lia. }
  destruct (negb hk || p_killed p); run_inv; [by right|].
  match goal with H : sleep _ _ _ _ = Ok _ _ |- _ => apply (sleep_inv _ _ _ _ _ _ _ Hc) in H end.
  done.
Qed.
End OpEffects.
