(* ===== verification/Procsys.v ===== *)
(** * The system of processes: steps and invariants (proc.c)

    The CPUs of the machine run processes and the scheduler; the steps are
    the operations of [Proc] as the CPUs interleave them.  The invariants
    describe the process tree, the binding of processes to CPUs, and the
    handshake of [exit] and [wait]; the scan of the scheduler bounds how long
    a runnable process waits. *)

From stdpp Require Import functions.
From S2P Require Import Prelude Layout Mem Kstring Kalloc Vm Uvm Fork Proc Sched.

(** ** The system *)

(** What a CPU does: the scheduler before it takes the lock; the scheduler at
    a slot of the table, with the lock; a process inside [sched()], just
    resumed, with the lock; a process outside the table's lock. *)
Inductive cpu_at := Idle | Scan (i : nat) | Resumed (i : nat) | User (i : nat).

(** Where a process that is not running continues. *)
Inductive kont := KForkret | KYield | KSleep (lk : string) | KWait.

Record sys (E : Type) := mk_sys {
  y_pt : ptable E;
  y_cpu : nat -> cpu_at;
  y_kont : nat -> kont;
  y_fork : nat -> option nat        (* the embryo a process inside [fork] has allocated *)
}.
Arguments mk_sys {E}.
Arguments y_pt {E}.
Arguments y_cpu {E}.
Arguments y_kont {E}.
Arguments y_fork {E}.

Section System.
Context `{KI : KernelImage} `{KS : KernelSymbols} {E : Type} `{SB : Sub kmem E} `{SO : SwapOps E} `{FO : FileOps E}.
Implicit Types (g : sys E) (s t : ptable E) (i : nat).

Definition with_pt s g : sys E := mk_sys s (y_cpu g) (y_kont g) (y_fork g).
Definition with_cpu c (a : cpu_at) g : sys E := mk_sys (y_pt g) (<[c := a]> (y_cpu g)) (y_kont g) (y_fork g).
Definition with_kont i (k : kont) g : sys E := mk_sys (y_pt g) (y_cpu g) (<[i := k]> (y_kont g)) (y_fork g).
Definition with_fork i (o : option nat) g : sys E := mk_sys (y_pt g) (y_cpu g) (y_kont g) (<[i := o]> (y_fork g)).

Definition holds_lock (cpu : nat -> cpu_at) c : Prop := exists i, cpu c = Scan i \/ cpu c = Resumed i.
Definition unlocked g : Prop := forall c, ~ holds_lock (y_cpu g) c.

(** The table as a CPU that holds exactly the locks [h] sees it. *)
Definition view (h : gset string) g : ptable E := set_pt_held h (y_pt g).
Notation locked_view := (view {["ptable"%string]}).

(** The steps; the label names the CPU and the process of a dispatch.  A step
    from [User i] is one section of kernel code under the lock, or, in
    [step_local], anything else the process does: it changes its own slot
    except for the control part, and memory and files at will. *)
Inductive gstep : option (nat * nat) -> sys E -> sys E -> Prop :=
| step_start c g :
    y_cpu g c = Idle -> unlocked g -> gstep None g (with_cpu c (Scan 0) g)
| step_skip c i g s' :
    y_cpu g c = Scan i -> (i < NPROC)%nat -> scheduler_at i (locked_view g) = Ok false s' ->
    gstep None g (with_cpu c (Scan (S i)) (with_pt s' g))
| step_dispatch c i g s' :
    y_cpu g c = Scan i -> (i < NPROC)%nat -> scheduler_at i (locked_view g) = Ok true s' ->
    gstep (Some (c, i)) g (with_cpu c (Resumed i) (with_pt s' g))
| step_end c i g :
    y_cpu g c = Scan i -> (NPROC <= i)%nat -> gstep None g (with_cpu c Idle g)
| step_resume_yield c i g s' :
    y_cpu g c = Resumed i -> y_kont g i = KYield -> yield_resume (locked_view g) = Ok tt s' ->
    gstep None g (with_cpu c (User i) (with_pt s' g))
| step_resume_fork c i g s' :
    y_cpu g c = Resumed i -> y_kont g i = KForkret -> forkret_resume false (kret tt) (locked_view g) = Ok tt s' ->
    gstep None g (with_cpu c (User i) (with_pt s' g))
| step_resume_sleep c i lk g s' :
    y_cpu g c = Resumed i -> y_kont g i = KSleep lk -> sleep_resume i lk (locked_view g) = Ok tt s' ->
    gstep None g (with_cpu c (User i) (with_pt s' g))
| step_resume_wait c i r g s' :
    y_cpu g c = Resumed i -> y_kont g i = KWait -> wait_resume i (locked_view g) = Ok (Some r) s' ->
    gstep None g (with_cpu c (User i) (with_pt s' g))
| step_resume_wait_again c i g s' :
    y_cpu g c = Resumed i -> y_kont g i = KWait -> wait_resume i (locked_view g) = Ok None s' ->
    gstep None g (with_cpu c (Scan (S i)) (with_kont i KWait (with_pt s' g)))
| step_yield c i h g s' :
    y_cpu g c = User i -> unlocked g -> yield i (view h g) = Ok tt s' ->
    gstep None g (with_cpu c (Scan (S i)) (with_kont i KYield (with_pt s' g)))
| step_sleep c i ch lk h g s' :
    y_cpu g c = User i -> unlocked g -> lk <> "ptable"%string -> sleep i ch lk (view h g) = Ok tt s' ->
    gstep None g (with_cpu c (Scan (S i)) (with_kont i (KSleep lk) (with_pt s' g)))
| step_wait c i r h g s' :
    y_cpu g c = User i -> unlocked g -> y_fork g i = None -> wait i (view h g) = Ok (Some r) s' ->
    gstep None g (with_pt s' g)
| step_wait_sleep c i h g s' :
    y_cpu g c = User i -> unlocked g -> y_fork g i = None -> wait i (view h g) = Ok None s' ->
    gstep None g (with_cpu c (Scan (S i)) (with_kont i KWait (with_pt s' g)))
| step_exit c i h g s' :
    y_cpu g c = User i -> unlocked g -> y_fork g i = None -> pt_initproc (y_pt g) <> Some i ->
    exit_table i (view h g) = Ok tt s' ->
    gstep None g (with_cpu c (Scan (S i)) (with_pt s' g))
| step_kill c i pid r h g s' :
    y_cpu g c = User i -> unlocked g -> kill pid (view h g) = Ok r s' -> gstep None g (with_pt s' g)
| step_wakeup ch h g s' :
    unlocked g -> wakeup ch (view h g) = Ok tt s' -> gstep None g (with_pt s' g)
| step_fork c i np h g s' :
    y_cpu g c = User i -> unlocked g -> y_fork g i = None ->
    allocproc (view h g) = Ok (Some np) s' -> gstep None g (with_fork i (Some np) (with_pt s' g))
| step_fork_fail c i h g s' :
    y_cpu g c = User i -> unlocked g -> y_fork g i = None ->
    allocproc (view h g) = Ok None s' -> gstep None g (with_pt s' g)
| step_fork_copy c i np r h g s' :
    y_cpu g c = User i -> unlocked g -> y_fork g i = Some np -> fork_copy i np (view h g) = Ok r s' ->
    gstep None g (with_fork i None (with_kont np KForkret (with_pt s' g)))
| step_local c i p p' e g :
    y_cpu g c = User i -> pt_proc (y_pt g) !! i = Some p -> core_of p' = core_of p ->
    gstep None g (with_pt (set_env e (set_procs (<[i := p']> (pt_proc (y_pt g))) (y_pt g))) g).

(** The table after [userinit]: init, with pid 1, is the only process. *)
Definition booted g : Prop :=
  length (pt_proc (y_pt g)) = NPROC /\ pt_initproc (y_pt g) = Some 0%nat /\ pt_nextpid (y_pt g) = 2 /\
  core_at (y_pt g) 0 = Some (mk_core RUNNABLE 1 None None) /\
  (forall k, (0 < k < NPROC)%nat -> core_at (y_pt g) k = Some (mk_core UNUSED 0 None None)) /\
  (forall c, y_cpu g c = Idle) /\ y_kont g 0%nat = KForkret /\ (forall i, y_fork g i = None).

Definition some_step g g' : Prop := exists l, gstep l g g'.
Definition reachable_sys g : Prop := exists g0, booted g0 /\ rtc some_step g0 g.

(** ** The invariant *)

Definition alive (c : core) : Prop := c_state c <> UNUSED /\ c_state c <> EMBRYO /\ c_state c <> ZOMBIE.

(** [i] is init or a descendant of it, all of whose ancestors are live. *)
Inductive descends (s : ptable E) : nat -> Prop :=
| desc_init i : pt_initproc s = Some i -> descends s i
| desc_child i j c d : core_at s i = Some c -> c_parent c = Some j -> core_at s j = Some d -> alive d -> descends s j ->
    descends s i.

(** Few enough steps for the counter of pids not to overflow. *)
Definition few (n : nat) : Prop := Z.of_nat n < 2 ^ 31 - 3.

(** The process tree after at most [n] steps. *)
Record tree_inv (n : nat) (s : ptable E) (fk : nat -> option nat) : Prop := {
  ti_len : length (pt_proc s) = NPROC;
  ti_next : few n -> 2 <= pt_nextpid s <= 2 + Z.of_nat n;
  ti_pid : few n -> forall i c, core_at s i = Some c -> c_state c <> UNUSED -> 1 <= c_pid c < pt_nextpid s;
  ti_pids : few n -> forall i j c d, core_at s i = Some c -> core_at s j = Some d ->
    c_state c <> UNUSED -> c_state d <> UNUSED -> c_pid c = c_pid d -> i = j;
  ti_init : exists j c, pt_initproc s = Some j /\ core_at s j = Some c /\ alive c /\ c_parent c = None;
  ti_nopar : forall i c, core_at s i = Some c -> c_state c = UNUSED \/ c_state c = EMBRYO -> c_parent c = None;
  ti_desc : forall i c, core_at s i = Some c -> c_state c <> UNUSED -> c_state c <> EMBRYO -> descends s i;
  ti_fork : forall i np, fk i = Some np -> exists c d, core_at s i = Some c /\ alive c /\
    core_at s np = Some d /\ c_state d = EMBRYO;
  ti_forks : forall i j np, fk i = Some np -> fk j = Some np -> i = j;
  ti_embryo : forall np d, core_at s np = Some d -> c_state d = EMBRYO -> exists i, fk i = Some np
}.

Lemma tree_mono n m s fk : (n <= m)%nat -> tree_inv n s fk -> tree_inv m s fk.
Proof.
  intros Hle Ht. assert (few m -> few n) as Hf by (unfold few; lia).
  split; try apply Ht; try (intros Hm; apply Ht, Hf, Hm).
  intros Hm. pose proof (ti_next _ _ _ Ht (Hf Hm)). lia.
Qed.

Lemma not_own_parent s i c : descends s i -> pt_initproc s <> Some i -> core_at s i = Some c -> c_parent c <> Some i.
Proof.
  intros Hd Hi Hc Hp. induction Hd as [i Hin|i j c' d Hc' Hp' _ _ _ IH]; [done|].
  simplify_eq. by apply IH.
Qed.

(** A started process other than init has a live parent. *)
Lemma ti_par n s fk i c : tree_inv n s fk -> core_at s i = Some c -> c_state c <> UNUSED -> c_state c <> EMBRYO ->
  pt_initproc s <> Some i -> exists j d, c_parent c = Some j /\ core_at s j = Some d /\ alive d.
Proof.
  intros Ht Hc H1 H2 Hi. destruct (ti_desc _ _ _ Ht i c Hc H1 H2) as [i Hin|i j c' d Hc' Hp Hd Ha _]; [done|].
  exists j, d. by simplify_eq.
Qed.

Definition on (cpu : nat -> cpu_at) c i : Prop := cpu c = User i \/ cpu c = Resumed i.
Definition running (s : ptable E) i : Prop := exists c, core_at s i = Some c /\ c_state c = RUNNING.

(** Processes on CPUs. *)
Record cpu_inv (s : ptable E) (cpu : nat -> cpu_at) : Prop := {
  ci_on : forall c i, on cpu c i -> running s i;
  ci_run : forall i, running s i -> exists c, on cpu c i;
  ci_one : forall c d i, on cpu c i -> on cpu d i -> c = d;
  ci_lock : forall c d, holds_lock cpu c -> holds_lock cpu d -> c = d
}.

(** A parent asleep in [wait] has no zombie to reap. *)
Definition wait_inv (s : ptable E) (kt : nat -> kont) : Prop :=
  forall j d, core_at s j = Some d -> c_state d = SLEEPING -> kt j = KWait ->
    c_chan d = Some (ChProc j) /\
    forall k c, core_at s k = Some c -> c_parent c = Some j -> c_state c <> ZOMBIE.

Record sys_inv n g : Prop := {
  si_tree : tree_inv n (y_pt g) (y_fork g);
  si_cpu : cpu_inv (y_pt g) (y_cpu g);
  si_wait : wait_inv (y_pt g) (y_kont g)
}.

Lemma sys_mono n m g : (n <= m)%nat -> sys_inv n g -> sys_inv m g.
Proof. intros Hle [H1 H2 H3]. split; [by apply (tree_mono n)|done|done]. Qed.

(** *** Steps that keep the tree

    They move processes between the states of a live process. *)
Definition class (x : procstate) : nat :=
  match x with UNUSED => 0 | EMBRYO => 1 | ZOMBIE => 2 | _ => 3 end.

Definition like (c d : core) : Prop :=
  c_pid d = c_pid c /\ c_parent d = c_parent c /\ class (c_state d) = class (c_state c).

Record shaped s t : Prop := {
  sh_fwd : forall k c, core_at s k = Some c -> exists d, core_at t k = Some d /\ like c d;
  sh_len : length (pt_proc t) = length (pt_proc s);
  sh_init : pt_initproc t = pt_initproc s;
  sh_next : pt_nextpid t = pt_nextpid s
}.

Lemma shaped_bwd s t k d : shaped s t -> core_at t k = Some d -> exists c, core_at s k = Some c /\ like c d.
Proof.
  intros Hs Hd. assert (is_Some (core_at s k)) as [c Hc].
  { apply core_at_dom. rewrite <- (sh_len _ _ Hs). apply core_at_dom. eauto. }
  destruct (sh_fwd _ _ Hs k c Hc) as (d' & Hd' & Hl). exists c. by simplify_eq.
Qed.

Lemma like_alive c d : like c d -> alive c <-> alive d.
Proof. intros (_ & _ & Hc). unfold alive. destruct (c_state c), (c_state d); simpl in Hc; naive_solver. Qed.
Lemma like_states c d : like c d -> (c_state d = UNUSED <-> c_state c = UNUSED) /\ (c_state d = EMBRYO <-> c_state c = EMBRYO) /\
  (c_state d = ZOMBIE <-> c_state c = ZOMBIE).
Proof. intros (_ & _ & Hc). destruct (c_state c), (c_state d); simpl in Hc; naive_solver. Qed.

Lemma descends_shaped s t i : shaped s t -> descends s i -> descends t i.
Proof.
  intros Hs Hd. induction Hd as [i Hi|i j c d Hc Hp Hd Ha _ IH]; [apply desc_init; by rewrite (sh_init _ _ Hs)|].
  destruct (sh_fwd _ _ Hs i c Hc) as (c' & Hc' & L), (sh_fwd _ _ Hs j d Hd) as (d' & Hd' & L').
  apply (like_alive _ _ L') in Ha. destruct L as (_ & Hp' & _). by eapply desc_child; [|rewrite Hp'| | |].
Qed.

Lemma tree_shaped n s t fk : tree_inv n s fk -> shaped s t -> tree_inv n t fk.
Proof.
  intros Ht Hs. pose proof Hs as [F Hl Hi Hn]. pose proof (shaped_bwd s t) as B.
  split; rewrite ?Hl, ?Hi, ?Hn; try apply Ht.
  - intros Hf i d Hd Hu. destruct (B i d Hs Hd) as (c & Hc & L). destruct (like_states _ _ L) as (L1 & _).
    destruct L as (-> & _). apply (ti_pid _ _ _ Ht Hf i c Hc). tauto.
  - intros Hf i j d1 d2 H1 H2 U1 U2 Hp. destruct (B i d1 Hs H1) as (c1 & C1 & L1), (B j d2 Hs H2) as (c2 & C2 & L2).
    pose proof (like_states _ _ L1) as (S1 & _). pose proof (like_states _ _ L2) as (S2 & _).
    destruct L1 as (P1 & _), L2 as (P2 & _). apply (ti_pids _ _ _ Ht Hf i j c1 c2); try done; [tauto|tauto|congruence].
  - destruct (ti_init _ _ _ Ht) as (j & c & Hj & Hc & Ha & Hq). destruct (F j c Hc) as (d & Hd & L).
    exists j, d. apply (like_alive _ _ L) in Ha. destruct L as (_ & -> & _). done.
  - intros i d Hd Hst. destruct (B i d Hs Hd) as (c & Hc & L). destruct (like_states _ _ L) as (L1 & L2 & _).
    destruct L as (_ & -> & _). apply (ti_nopar _ _ _ Ht i c Hc). tauto.
  - intros i d Hd U1 U2. destruct (B i d Hs Hd) as (c & Hc & L). destruct (like_states _ _ L) as (L1 & L2 & _).
    apply (descends_shaped s t i Hs), (ti_desc _ _ _ Ht i c Hc); tauto.
  - intros i np Hf. destruct (ti_fork _ _ _ Ht i np Hf) as (c & d & Hc & Ha & Hd & He).
    destruct (F i c Hc) as (c' & Hc' & L), (F np d Hd) as (d' & Hd' & L').
    apply (like_alive _ _ L) in Ha. apply (like_states _ _ L') in He. by exists c', d'.
  - intros np d Hd He. destruct (B np d Hs Hd) as (c & Hc & L). apply (like_states _ _ L) in He.
    by apply (ti_embryo _ _ _ Ht np c).
Qed.

Lemma same_shaped s t : same s t -> shaped s t.
Proof. intros [A1 A2 A3 A4]. split; try done. intros k c Hk. exists c. by rewrite A1. Qed.

Lemma sets_shaped i c d s t : sets i d s t -> core_at s i = Some c -> like c d -> shaped s t.
Proof.
  intros [A1 A2 A3 A4] Hc Hl. split; try done. intros k e He. rewrite A1.
  destruct (decide (k = i)) as [->|]; [|by exists e]. exists d. by simplify_eq.
Qed.

Lemma woken_shaped ch s t : woken ch s t -> shaped s t.
Proof.
  intros [A1 A2 A3 A4]. split; try done. intros k c Hk. rewrite A1, Hk. eexists. split; [done|].
  destruct (wake_core_cases ch c) as (W1 & W2 & W3 & W4 & _). split; [done|]. split; [done|].
  destruct W4 as [-> |[-> ->]]; done.
Qed.

(** *** Steps that change the tree *)

Lemma sets_at i c s t k d :
  sets i c s t -> core_at t k = Some d <-> (k = i /\ d = c) \/ (k <> i /\ core_at s k = Some d).
Proof. intros [A1 _ _ _]. rewrite A1. destruct (decide (k = i)) as [->|]; naive_solver. Qed.

(** A slot whose process is not alive is on nobody's path to init. *)
Lemma descends_set s t n c d m i : sets n d (set_nextpid m s) t -> core_at s n = Some c -> ~ alive c -> i <> n ->
  descends s i -> descends t i.
Proof.
  intros Hs Hc Hna Hin Hd. pose proof (fun k e => sets_at n d _ t k e Hs) as At.
  induction Hd as [i Hi|i j ci dj Hci Hp Hdj Ha _ IH]; [apply desc_init; by rewrite (st_init _ _ _ _ Hs)|].
  assert (j <> n) as Hj by (intros ->; by simplify_eq).
  apply (desc_child t i j ci dj); [apply At; by right|done|apply At; by right|done|by apply IH].
Qed.

(** One slot [n], whose process is nobody's parent and not inside [fork],
    is replaced. *)
Lemma tree_set b b' s t n c d fk fk' m :
  tree_inv b s fk -> (b <= b')%nat -> sets n d (set_nextpid m s) t -> core_at s n = Some c ->
  ~ alive c -> (few b' -> pt_nextpid s <= m <= 2 + Z.of_nat b') ->
  (few b' -> c_state d <> UNUSED -> 1 <= c_pid d < m /\
     forall k e, core_at s k = Some e -> c_state e <> UNUSED -> k <> n -> c_pid e <> c_pid d) ->
  (c_state d = UNUSED \/ c_state d = EMBRYO -> c_parent d = None) ->
  (c_state d <> UNUSED -> c_state d <> EMBRYO ->
     exists j e, c_parent d = Some j /\ core_at s j = Some e /\ alive e) ->
  (forall i np, fk' i = Some np -> np <> n -> fk i = Some np) ->
  (forall i np, fk i = Some np -> np <> n -> fk' i = Some np) ->
  (forall i, fk' i = Some n -> c_state d = EMBRYO /\ exists e, core_at s i = Some e /\ alive e) ->
  (forall i j, fk' i = Some n -> fk' j = Some n -> i = j) ->
  (c_state d = EMBRYO -> exists i, fk' i = Some n) ->
  tree_inv b' t fk'.
Proof.
  intros Ht0 Hb Hs Hc Hna Hm Hpid Hnp Hpar Hf1 Hf2 Hf3 Hf4 Hf5. pose proof (tree_mono b b' _ _ Hb Ht0) as Ht.
  assert (few b' -> pt_nextpid s >= 2) as Hge.
  { intros Hf. pose proof (ti_next _ _ _ Ht Hf). lia. }
  pose proof (fun k e => sets_at n d _ t k e Hs) as At. pose proof (descends_set s t n c d m) as Ds.
  assert (forall k, core_at (set_nextpid m s) k = core_at s k) as Es by done.
  assert (forall j e, core_at s j = Some e -> alive e -> j <> n /\ core_at t j = Some e) as Al.
  { intros j e Hj Ha. assert (j <> n) by (intros ->; by simplify_eq). split; [done|]. apply At. by right. }
  pose proof Hs as [_ Hl Hi Hn]. simpl in Hl, Hi, Hn.
  split; rewrite ?Hl, ?Hi, ?Hn; try apply Ht.
  - intros Hf. specialize (Hm Hf). specialize (Hge Hf). lia.
  - intros Hf k e He%At Hu. destruct He as [[-> ->]|[Hk He]]; [by apply Hpid|].
    pose proof (ti_pid _ _ _ Ht Hf k e He Hu). specialize (Hm Hf). lia.
  - intros Hf k1 k2 e1 e2 H1%At H2%At U1 U2 Hp.
    destruct H1 as [[-> ->]|[N1 H1]], H2 as [[-> ->]|[N2 H2]]; try done.
    + exfalso. by apply (proj2 (Hpid Hf U1) k2 e2 H2 U2 N2).
    + exfalso. by apply (proj2 (Hpid Hf U2) k1 e1 H1 U1 N1).
    + by apply (ti_pids _ _ _ Ht Hf k1 k2 e1 e2).
  - destruct (ti_init _ _ _ Ht) as (j & e & Hj & He & Ha & Hp). exists j, e. split; [done|]. split; [by apply Al|done].
  - intros k e He%At. destruct He as [[-> ->]|[Hk He]]; [done|by apply (ti_nopar _ _ _ Ht k)].
  - intros k e He%At U1 U2. destruct He as [[-> ->]|[Hk He]].
    + destruct (Hpar U1 U2) as (j & e & Hj & He & Ha). destruct (Al j e He Ha) as [Hjn Hjt].
      apply (desc_child t n j d e); [apply At; by left|done|done|done|].
      apply Ds; [done|done|done|done|]. apply (ti_desc _ _ _ Ht j e He); apply Ha.
    + apply Ds; [done|done|done|done|]. by apply (ti_desc _ _ _ Ht k e).
  - intros i np Hf. destruct (decide (np = n)) as [->|Hne].
    + destruct (Hf3 i Hf) as (He & e & Hie & Ha). exists e, d. split; [by apply Al|]. split; [done|].
      split; [apply At; by left|done].
    + destruct (ti_fork _ _ _ Ht i np (Hf1 i np Hf Hne)) as (e1 & e2 & H1 & Ha & H2 & Hem). exists e1, e2.
      split; [by apply Al|]. split; [done|]. split; [apply At; by right|done].
  - intros i j np H1 H2. destruct (decide (np = n)) as [->|Hne]; [by apply Hf4|].
    apply (ti_forks _ _ _ Ht i j np); by apply Hf1.
  - intros np e He%At Hem. destruct He as [[-> ->]|[Hk He]]; [by apply Hf5|].
    destruct (ti_embryo _ _ _ Ht np e He Hem) as [i Hi']. exists i. by apply Hf2.
Qed.

Lemma s32_next b s fk : tree_inv b s fk -> few (S b) -> s32 (pt_nextpid s + 1) = pt_nextpid s + 1.
Proof.
  intros Ht Hf. assert (few b) as Hf' by (unfold few in *; lia). pose proof (ti_next _ _ _ Ht Hf').
  apply s32_id. unfold few in *. lia.
Qed.

Lemma tree_alloc b s t fk i ci np c :
  tree_inv b s fk -> core_at s i = Some ci -> alive ci -> fk i = None ->
  core_at s np = Some c -> c_state c = UNUSED ->
  sets np (mk_core EMBRYO (pt_nextpid s) (c_parent c) (c_chan c)) (set_nextpid (s32 (pt_nextpid s + 1)) s) t ->
  tree_inv (S b) t (<[i := Some np]> fk).
Proof.
  intros Ht Hi Hal Hfi Hc Hu Hs. pose proof (s32_next b s fk Ht) as En.
  assert (few (S b) -> few b /\ 2 <= pt_nextpid s <= 2 + Z.of_nat b) as Hb.
  { intros Hf. assert (few b) as Hf' by (unfold few in *; lia). split; [done|]. apply (ti_next _ _ _ Ht Hf'). }
  assert (forall j, fk j <> Some np) as Hno.
  { intros j Hj. destruct (ti_fork _ _ _ Ht j np Hj) as (_ & d & _ & _ & Hd & He). congruence. }
  assert (forall j m, (<[i:=Some np]> fk : nat -> option nat) j = Some m <-> (j = i /\ m = np) \/ (j <> i /\ fk j = Some m)) as Hfk.
  { intros j m. destruct (decide (j = i)) as [->|]; [rewrite fn_lookup_insert; naive_solver|].
    rewrite fn_lookup_insert_ne by done. naive_solver. }
  apply (tree_set b (S b) s t np c _ fk _ _ Ht ltac:(lia) Hs Hc); simpl; try done.
  - unfold alive. tauto.
  - intros Hf. rewrite (En Hf). destruct (Hb Hf). lia.
  - intros Hf _. rewrite (En Hf). destruct (Hb Hf) as [Hf' Hr]. split; [lia|]. intros k e He Hk _. pose proof (ti_pid _ _ _ Ht Hf' k e He Hk). lia.
  - intros _. apply (ti_nopar _ _ _ Ht np c Hc). by left.
  - intros j m Hj Hne. apply Hfk in Hj. naive_solver.
  - intros j m Hj Hne. apply Hfk. right. split; [intros ->; congruence|done].
  - intros j Hj. split; [done|]. apply Hfk in Hj as [[-> _]|[_ Hj]]; [|by apply Hno in Hj]. by exists ci.
  - intros j j' Hj Hj'. apply Hfk in Hj as [[-> _]|[_ Hj]]; [|by apply Hno in Hj].
    apply Hfk in Hj' as [[-> _]|[_ Hj']]; [done|by apply Hno in Hj'].
  - intros _. exists i. apply Hfk. by left.
Qed.

Lemma tree_unused b b' s t fk np c p m :
  tree_inv b s fk -> (b <= b')%nat -> (few b' -> pt_nextpid s <= m <= 2 + Z.of_nat b') ->
  core_at s np = Some c -> c_state c = UNUSED \/ c_state c = ZOMBIE ->
  sets np (mk_core UNUSED p None (c_chan c)) (set_nextpid m s) t -> tree_inv b' t fk.
Proof.
  intros Ht Hb Hm Hc Hu Hs.
  assert (forall j, fk j <> Some np) as Hno.
  { intros j Hj. destruct (ti_fork _ _ _ Ht j np Hj) as (_ & d & _ & _ & Hd & He). destruct Hu; congruence. }
  apply (tree_set b b' s t np c _ fk _ _ Ht Hb Hs Hc); simpl; try done.
  - unfold alive. tauto.
  - intros j Hj. by apply Hno in Hj.
  - intros j j' Hj. by apply Hno in Hj.
Qed.

Lemma tree_fork b s t fk i np c d :
  tree_inv b s fk -> fk i = Some np -> core_at s np = Some c -> sets np d s t -> c_pid d = c_pid c ->
  (c_state d = RUNNABLE /\ c_parent d = Some i) \/ (c_state d = UNUSED /\ c_parent d = c_parent c) ->
  tree_inv b t (<[i := None]> fk).
Proof.
  intros Ht Hfi Hc Hs Hp Hd.
  destruct (ti_fork _ _ _ Ht i np Hfi) as (ci & c' & Hi & Hal & Hc' & He). simplify_eq.
  assert (forall j m, (<[i:=None]> fk : nat -> option nat) j = Some m <-> j <> i /\ fk j = Some m) as Hfk.
  { intros j m. destruct (decide (j = i)) as [->|]; [rewrite fn_lookup_insert; naive_solver|].
    rewrite fn_lookup_insert_ne by done. naive_solver. }
  assert (forall j, (<[i:=None]> fk : nat -> option nat) j <> Some np) as Hno.
  { intros j [Hj Hj']%Hfk. by apply Hj, (ti_forks _ _ _ Ht j i np). }
  assert (sets np d (set_nextpid (pt_nextpid s) s) t) as Hs' by (by destruct Hs).
  assert (c_state c <> UNUSED) as Hcu by congruence.
  apply (tree_set b b s t np c d fk _ _ Ht (le_n b) Hs' Hc); simpl; try done.
  - unfold alive. tauto.
  - intros Hf. pose proof (ti_next _ _ _ Ht Hf). lia.
  - intros Hf _. rewrite Hp. split; [by apply (ti_pid _ _ _ Ht Hf np c)|]. intros k e Hk Hku Hne Heq.
    by apply Hne, (ti_pids _ _ _ Ht Hf k np e c).
  - intros Hst. destruct Hd as [[Hd _]|[_ ->]]; [rewrite Hd in Hst; by destruct Hst|].
    apply (ti_nopar _ _ _ Ht np c Hc). by right.
  - intros Hu _. destruct Hd as [[_ Hd]|[? _]]; [|done]. by exists i, ci.
  - intros j m [? ?]%Hfk. done.
  - intros j m Hj Hne. apply Hfk. split; [intros ->; congruence|done].
  - intros j Hj. by apply Hno in Hj.
  - intros j j' Hj. by apply Hno in Hj.
  - intros Hst. destruct Hd as [[Hd _]|[Hd _]]; congruence.
Qed.

Lemma tree_exit b s t fk i ci :
  tree_inv b s fk -> exited i s t -> core_at s i = Some ci -> alive ci -> pt_initproc s <> Some i -> fk i = None ->
  tree_inv b t fk.
Proof.
  intros Ht Hx Hi Hal Hni Hfi. destruct (ti_init _ _ _ Ht) as (j0 & c0 & Hj0 & Hc0 & Ha0 & Hq0).
  assert (forall k d, core_at t k = Some d -> exists c, core_at s k = Some c /\ c_pid d = c_pid c /\
    c_parent d = (if decide (c_parent c = Some i) then pt_initproc s else c_parent c) /\
    (k <> i -> class (c_state d) = class (c_state c)) /\ (k = i -> c_state d = ZOMBIE)) as B.
  { intros k d Hd. assert (is_Some (core_at s k)) as [c Hc].
    { apply core_at_dom. rewrite <- (ex_len _ _ _ Hx). apply core_at_dom. eauto. }
    destruct (ex_at _ _ _ Hx k c Hc) as (d' & Hd' & Hp & _ & Hq & Hst). simplify_eq. exists c. split_and!; try done.
    - intros Hk. rewrite decide_False in Hst by done. destruct Hst as [-> |[-> ->]]; done.
    - intros ->. by rewrite decide_True in Hst. }
  assert (forall k c, core_at s k = Some c -> alive c -> k <> i -> exists d, core_at t k = Some d /\ alive d /\ c_pid d = c_pid c /\ c_parent d = (if decide (c_parent c = Some i) then pt_initproc s else c_parent c)) as F.
  { intros k c Hc Ha Hk. destruct (ex_at _ _ _ Hx k c Hc) as (d & Hd & Hp & _ & Hq & Hst). exists d.
    rewrite decide_False in Hst by done. split; [done|]. split; [|done]. unfold alive in *.
    destruct Hst as [-> |[_ ->]]; done. }
  assert (forall d c k, k <> i -> class (c_state d) = class (c_state c) -> (c_state d = UNUSED <-> c_state c = UNUSED) /\
    (c_state d = EMBRYO <-> c_state c = EMBRYO)) as St.
  { intros d c k _ Hcl. destruct (c_state d), (c_state c); simpl in Hcl; naive_solver. }
  assert (forall k, descends s k -> descends t k) as D.
  { intros k Hk. induction Hk as [k Hk|k j c d Hc Hp Hd Ha _ IH]; [apply desc_init; by rewrite (ex_init _ _ _ Hx)|].
    destruct (ex_at _ _ _ Hx k c Hc) as (c' & Hc' & _ & _ & Hq & _).
    destruct (decide (c_parent c = Some i)) as [Hpi|Hpi].
    - destruct (F j0 c0 Hc0 Ha0) as (d0 & Hd0 & Had0 & _); [congruence|].
      apply (desc_child t k j0 c' d0); [done|by rewrite Hq|done|done|]. apply desc_init. by rewrite (ex_init _ _ _ Hx).
    - destruct (F j d Hd Ha) as (d' & Hd' & Had' & _); [congruence|]. apply (desc_child t k j c' d'); [done|by rewrite Hq|done..]. }
  split; rewrite ?(ex_len _ _ _ Hx), ?(ex_init _ _ _ Hx), ?(ex_next _ _ _ Hx); try apply Ht.
  - intros Hfw k d Hd Hu. destruct (B k d Hd) as (c & Hc & -> & _ & S1 & _). apply (ti_pid _ _ _ Ht Hfw k c Hc).
    destruct (decide (k = i)) as [->|Hk]; [simplify_eq; apply Hal|]. destruct (St d c k Hk (S1 Hk)). tauto.
  - intros Hfw k1 k2 d1 d2 H1 H2 U1 U2. destruct (B k1 d1 H1) as (c1 & C1 & -> & _ & S1 & _), (B k2 d2 H2) as (c2 & C2 & -> & _ & S2 & _).
    intros Hp. apply (ti_pids _ _ _ Ht Hfw k1 k2 c1 c2); try done.
    + destruct (decide (k1 = i)) as [->|Hk]; [simplify_eq; apply Hal|]. destruct (St d1 c1 k1 Hk (S1 Hk)). tauto.
    + destruct (decide (k2 = i)) as [->|Hk]; [simplify_eq; apply Hal|]. destruct (St d2 c2 k2 Hk (S2 Hk)). tauto.
  - destruct (F j0 c0 Hc0 Ha0) as (d & Hd & Had & Hp & Hq); [congruence|]. exists j0, d.
    rewrite Hq, Hq0. split_and!; try done; apply Had.
  - intros k d Hd Hst. destruct (B k d Hd) as (c & Hc & _ & -> & S1 & S2).
    destruct (decide (k = i)) as [->|Hk]; [rewrite S2 in Hst by done; by destruct Hst|].
    destruct (St d c k Hk (S1 Hk)). rewrite (ti_nopar _ _ _ Ht k c Hc) by tauto. done.
  - intros k d Hd U1 U2. destruct (B k d Hd) as (c & Hc & _ & _ & S1 & S2). apply D.
    apply (ti_desc _ _ _ Ht k c Hc); (destruct (decide (k = i)) as [->|Hk]; [simplify_eq; apply Hal|]; destruct (St d c k Hk (S1 Hk)); tauto).
  - intros x np Hf. destruct (ti_fork _ _ _ Ht x np Hf) as (c & d & Hc & Ha & Hd & He).
    destruct (F x c Hc Ha) as (c' & Hc' & Ha' & Hpc & _); [congruence|].
    destruct (ex_at _ _ _ Hx np d Hd) as (d' & Hd' & Hpd & _ & _ & Hst).
    assert (np <> i) as Hne by (intros ->; destruct Hal as (_ & Hal & _); congruence).
    rewrite decide_False in Hst by done. exists c', d'.
    split; [done|]. split; [done|]. split; [done|]. destruct Hst as [-> |[? _]]; congruence.
  - intros np d Hd He. destruct (B np d Hd) as (c & Hc & _ & _ & S1 & S2).
    destruct (decide (np = i)) as [->|Hk]; [rewrite S2 in He; done|].
    apply (ti_embryo _ _ _ Ht np c Hc). by apply (St d c np Hk (S1 Hk)).
Qed.

(** *** Processes on CPUs *)
Definition on1 (a : cpu_at) i : Prop := a = User i \/ a = Resumed i.
Definition lock1 (a : cpu_at) : Prop := exists i, a = Scan i \/ a = Resumed i.

Lemma cpu_keep s t cpu : cpu_inv s cpu -> (forall k, running t k <-> running s k) -> cpu_inv t cpu.
Proof.
  intros [A1 A2 A3 A4] H. split; try done; intros; [apply H; eauto|]. apply A2. by apply H.
Qed.

(** CPU [c] goes to [a]: the process it ran stops running unless it stays at
    [a]. *)
Lemma cpu_step s t cpu c a :
  cpu_inv s cpu ->
  (forall k, running t k <-> on1 a k \/ (running s k /\ ~ on1 (cpu c) k)) ->
  (forall k d, on1 a k -> d <> c -> ~ on cpu d k) ->
  (lock1 a -> forall d, d <> c -> ~ holds_lock cpu d) ->
  cpu_inv t (<[c := a]> cpu).
Proof.
  intros Hci Hrun Hone Hlock.
  assert (forall d k, on (<[c:=a]> cpu) d k <-> (d = c /\ on1 a k) \/ (d <> c /\ on cpu d k)) as Hon.
  { intros d k. unfold on, on1. destruct (decide (d = c)) as [->|];
      [rewrite fn_lookup_insert; naive_solver|rewrite fn_lookup_insert_ne by done; naive_solver]. }
  assert (forall d, holds_lock (<[c:=a]> cpu) d <-> (d = c /\ lock1 a) \/ (d <> c /\ holds_lock cpu d)) as Hlk.
  { intros d. unfold holds_lock, lock1. destruct (decide (d = c)) as [->|];
      [rewrite fn_lookup_insert; naive_solver|rewrite fn_lookup_insert_ne by done; naive_solver]. }
  split.
  - intros d k [[-> Hk]|[Hd Hk]]%Hon; apply Hrun; [by left|]. right. split; [by apply (ci_on _ _ Hci d)|].
    intros Hc. by apply Hd, (ci_one _ _ Hci d c k).
  - intros k [Hk|[Hk Hn]]%Hrun; [exists c; apply Hon; by left|].
    destruct (ci_run _ _ Hci k Hk) as [d Hd]. exists d. apply Hon. right. split; [by intros ->|done].
  - intros d e k [[-> Hd]|[Hdc Hd]]%Hon [[-> He]|[Hec He]]%Hon; try done.
    + by destruct (Hone k e Hd Hec). + by destruct (Hone k d He Hdc). + by apply (ci_one _ _ Hci d e k).
  - intros d e [[-> Hd]|[Hdc Hd]]%Hlk [[-> He]|[Hec He]]%Hlk; try done.
    + by destruct (Hlock Hd e Hec). + by destruct (Hlock He d Hdc). + by apply (ci_lock _ _ Hci d e).
Qed.

(** The only holder of the lock. *)
Lemma sole_holder s cpu c : cpu_inv s cpu -> holds_lock cpu c -> forall d, d <> c -> ~ holds_lock cpu d.
Proof. intros Hci Hc d Hd Hl. by apply Hd, (ci_lock _ _ Hci). Qed.

Lemma running_same s t k : same s t -> running t k <-> running s k.
Proof. intros Hs. unfold running. by rewrite (sm_at _ _ Hs). Qed.
Lemma running_sets i d s t k :
  sets i d s t -> running t k <-> (k = i /\ c_state d = RUNNING) \/ (k <> i /\ running s k).
Proof.
  intros Hs. unfold running. rewrite (st_at _ _ _ _ Hs). destruct (decide (k = i)) as [->|]; naive_solver.
Qed.
Lemma running_woken ch s t k : woken ch s t -> running t k <-> running s k.
Proof.
  intros Hw. unfold running. rewrite (wk_at _ _ _ Hw). split.
  - intros (c & (d & Hd & ->)%fmap_Some & Hr). exists d. split; [done|].
    destruct (wake_core_cases ch d) as (_ & _ & _ & [?|[_ ?]] & _); congruence.
  - intros (c & -> & Hr). eexists. split; [done|].
    destruct (wake_core_cases ch c) as (_ & _ & _ & [?|[? _]] & _); congruence.
Qed.
Lemma running_exited i s t k : exited i s t -> running t k <-> k <> i /\ running s k.
Proof.
  intros Hx. unfold running. split.
  - intros (d & Hd & Hr). assert (is_Some (core_at s k)) as [c Hc].
    { apply core_at_dom. rewrite <- (ex_len _ _ _ Hx). apply core_at_dom. eauto. }
    destruct (ex_at _ _ _ Hx k c Hc) as (d' & Hd' & _ & _ & _ & Hst). simplify_eq.
    destruct (decide (k = i)) as [->|Hk]; [congruence|]. split; [done|]. exists c. split; [done|].
    destruct Hst as [?|[_ ?]]; congruence.
  - intros [Hk (c & Hc & Hr)]. destruct (ex_at _ _ _ Hx k c Hc) as (d & Hd & _ & _ & _ & Hst). exists d.
    rewrite decide_False in Hst by done. split; [done|]. destruct Hst as [?|[? _]]; congruence.
Qed.

(** A process leaves its CPU for the scheduler. *)
Lemma cpu_out s t cpu c i m :
  cpu_inv s cpu -> on1 (cpu c) i -> (forall d, d <> c -> ~ holds_lock cpu d) ->
  (forall k, running t k <-> k <> i /\ running s k) -> cpu_inv t (<[c := Scan m]> cpu).
Proof.
  intros Hci Hon Hl Hr. apply (cpu_step s t cpu c); try done.
  - intros k. rewrite Hr. unfold on1 in *. split.
    + intros [Hk Hs]. right. split; [done|]. destruct Hon as [-> | ->]; intros [?|?]; congruence.
    + intros [[?|?]|[Hs Hn]]; [done|done|]. split; [|done]. by intros ->.
  - by intros k d [?|?].
Qed.

(** A resumed process leaves the lock. *)
Lemma cpu_go s t cpu c i :
  cpu_inv s cpu -> cpu c = Resumed i -> (forall k, running t k <-> running s k) -> cpu_inv t (<[c := User i]> cpu).
Proof.
  intros Hci Hc Hr. apply (cpu_step s t cpu c); try done.
  - intros k. rewrite Hr, Hc. unfold on1. split.
    + intros Hs. destruct (decide (k = i)) as [->|]; [by left; left|]. right. split; [done|]. intros [?|?]; congruence.
    + intros [[[= <-]|?]|[? _]]; try done. apply (ci_on _ _ Hci c). by right.
  - intros k d [[= <-]|?] Hd Hk; [|done]. apply Hd, (ci_one _ _ Hci d c i); [done|by right].
  - intros [k [?|?]]; done.
Qed.

Lemma wait_keep s t kt kt' :
  wait_inv s kt ->
  (forall j d', core_at t j = Some d' -> c_state d' = SLEEPING -> kt' j = KWait ->
     exists d, core_at s j = Some d /\ c_state d = SLEEPING /\ kt j = KWait /\ c_chan d' = c_chan d) ->
  (forall k c', core_at t k = Some c' -> c_state c' = ZOMBIE ->
     exists c, core_at s k = Some c /\ c_state c = ZOMBIE /\ c_parent c = c_parent c') ->
  wait_inv t kt'.
Proof.
  intros Hw Hsl Hz j d' Hd' Hs Hk. destruct (Hsl j d' Hd' Hs Hk) as (d & Hd & Hs' & Hk' & ->).
  destruct (Hw j d Hd Hs' Hk') as [Hc Hno]. split; [done|]. intros k c' Hc' Hp Hzo.
  destruct (Hz k c' Hc' Hzo) as (c & Hkc & Hcz & Hcp). apply (Hno k c); congruence.
Qed.

Lemma wait_same s t kt : wait_inv s kt -> same s t -> wait_inv t kt.
Proof. intros Hw Hs j d. rewrite (sm_at _ _ Hs). intros H1 H2 H3. destruct (Hw j d H1 H2 H3) as [? Hn]. split; [done|]. intros k c. rewrite (sm_at _ _ Hs). apply Hn. Qed.

(** One slot changes to a state that is neither asleep in [wait] nor a zombie. *)
Lemma wait_sets s t kt kt' i d :
  wait_inv s kt -> sets i d s t -> c_state d <> ZOMBIE -> (c_state d = SLEEPING -> kt' i <> KWait) ->
  (forall j, j <> i -> kt' j = kt j) -> wait_inv t kt'.
Proof.
  intros Hw Hs Hz Hk Hkt. apply (wait_keep s t kt kt' Hw).
  - intros j d' Hj Hsl Hkj. apply (sets_at _ _ _ _ _ _ Hs) in Hj as [[-> ->]|[Hne Hj]]; [by destruct (Hk Hsl)|].
    exists d'. rewrite Hkt in Hkj by done. done.
  - intros k c' Hc' Hcz. apply (sets_at _ _ _ _ _ _ Hs) in Hc' as [[-> ->]|[Hne Hj]]; [done|]. eauto.
Qed.

Lemma wait_woken ch s t kt : wait_inv s kt -> woken ch s t -> wait_inv t kt.
Proof.
  intros Hw Hk. apply (wait_keep s t kt kt Hw).
  - intros j d'. rewrite (wk_at _ _ _ Hk). intros (d & Hd & ->)%fmap_Some.
    destruct (wake_core_cases ch d) as (_ & W2 & _ & [W|[_ W]] & _); rewrite W; [|done]. eauto 10.
  - intros k c'. rewrite (wk_at _ _ _ Hk). intros (c & Hc & ->)%fmap_Some.
    destruct (wake_core_cases ch c) as (_ & _ & W3 & [W|[_ W]] & _); rewrite W; [|done]. eauto.
Qed.

Lemma wait_exit n s t kt fk i ci :
  wait_inv s kt -> tree_inv n s fk -> exited i s t -> core_at s i = Some ci -> alive ci -> pt_initproc s <> Some i ->
  wait_inv t kt.
Proof.
  intros Hw Ht Hx Hi Hal Hni j d' Hd' Hsl Hk.
  assert (forall k c', core_at t k = Some c' -> exists c, core_at s k = Some c /\ c_chan c' = c_chan c /\
    c_parent c' = (if decide (c_parent c = Some i) then pt_initproc s else c_parent c) /\
    (c_state c' = SLEEPING \/ c_state c' = ZOMBIE /\ k <> i -> c_state c = c_state c')) as B.
  { intros k c' Hc'. assert (is_Some (core_at s k)) as [c Hc].
    { apply core_at_dom. rewrite <- (ex_len _ _ _ Hx). apply core_at_dom. eauto. }
    destruct (ex_at _ _ _ Hx k c Hc) as (d & Hd & _ & Hch & Hpa & Hst). simplify_eq. exists c. split_and!; try done.
    intros Hs. destruct (decide (k = i)) as [->|]; [naive_solver congruence|].
    destruct Hst as [->|[_ Er]]; [done|]. rewrite Er in Hs. naive_solver. }
  destruct (B j d' Hd') as (d & Hd & Hch & _ & Hst). rewrite Hch.
  assert (c_state d = SLEEPING) as Hds by (rewrite Hst; auto).
  destruct (Hw j d Hd Hds Hk) as [Hcd Hno]. split; [done|]. intros k c' Hc' Hp Hz.
  destruct (decide (k = i)) as [->|Hki].
  - destruct (B i c' Hc') as (c & Hc & _ & Hpar & _). simplify_eq.
    rewrite decide_False in Hpar by (apply (not_own_parent s i ci); [apply (ti_desc _ _ _ Ht i ci Hi); apply Hal|done|done]).
    apply (ex_parent _ _ _ Hx ci j d' Hi); [congruence|done|]. split; congruence.
  - destruct (B k c' Hc') as (c & Hc & _ & Hpar & Hcs). rewrite Hz in Hcs. specialize (Hcs ltac:(auto)).
    destruct (decide (c_parent c = Some i)) as [Hci|Hci].
    + apply (ex_wake _ _ _ Hx k c j d'); try congruence. split; congruence.
    + apply (Hno k c); congruence.
Qed.

(** A process goes to sleep in [wait] after a scan that found no zombie. *)
Lemma wait_sleeps s t kt i c :
  wait_inv s kt -> sets i (mk_core SLEEPING (c_pid c) (c_parent c) (Some (ChProc i))) s t -> core_at s i = Some c ->
  (forall k d, core_at s k = Some d -> c_parent d = Some i -> c_state d <> ZOMBIE) ->
  wait_inv t (<[i := KWait]> kt).
Proof.
  intros Hw Hs Hc Hno j d' Hj Hsl Hk. pose proof (fun k d => sets_at _ _ _ _ k d Hs) as At.
  apply At in Hj as [[-> ->]|[Hne Hj]].
  - split; [done|]. intros k d [[-> ->]|[_ Hd]]%At; [done|]. by apply (Hno k).
  - rewrite fn_lookup_insert_ne in Hk by done. destruct (Hw j d' Hj Hsl Hk) as [Hcj Hn]. split; [done|].
    intros k d [[-> ->]|[_ Hd]]%At; [done|]. by apply (Hn k).
Qed.

Lemma view_same h g : same (y_pt g) (view h g).
Proof. done. Qed.

Lemma view_trans h g t : same (view h g) t -> same (y_pt g) t.
Proof. apply same_trans, view_same. Qed.
Lemma view_sets h i d g t : sets i d (view h g) t -> sets i d (y_pt g) t.
Proof. apply same_sets, view_same. Qed.

Lemma running_alive s i : running s i -> exists c, core_at s i = Some c /\ alive c /\ c_state c = RUNNING.
Proof. intros (c & Hc & Hr). exists c. split; [done|]. split; [|done]. unfold alive. rewrite Hr. done. Qed.

Section Preserve.
Context {n : nat} {g : sys E} (Hinv : sys_inv n g).

Lemma on_core c i : on1 (y_cpu g c) i -> exists d, core_at (y_pt g) i = Some d /\ alive d /\ c_state d = RUNNING.
Proof. intros Ho. by apply running_alive, (ci_on _ _ (si_cpu _ _ Hinv) c). Qed.

(** Only control states of live processes change, and no CPU moves. *)
Lemma inv_quiet t :
  shaped (y_pt g) t -> (forall k, running t k <-> running (y_pt g) k) -> wait_inv t (y_kont g) -> sys_inv n (with_pt t g).
Proof.
  intros Hs Hr Hw. split; [|simpl|done].
  - apply (tree_shaped n (y_pt g)); [apply Hinv|done].
  - apply (cpu_keep (y_pt g)); [apply Hinv|done].
Qed.

(** A running process [i] enters the scheduler in state [d]. *)
Lemma inv_out c i d di kt t m :
  on1 (y_cpu g c) i -> (forall d', d' <> c -> ~ holds_lock (y_cpu g) d') ->
  core_at (y_pt g) i = Some di -> sets i d (y_pt g) t -> like di d -> c_state d <> RUNNING -> wait_inv t kt ->
  sys_inv n (mk_sys t (<[c := Scan m]> (y_cpu g)) kt (y_fork g)).
Proof.
  intros Hon Hl Hdi Hs Hlike Hnr Hw. split; [|simpl|done].
  - apply (tree_shaped n (y_pt g)); [apply Hinv|by eapply sets_shaped].
  - apply (cpu_out (y_pt g) t _ c i); [apply Hinv|done|done|].
    intros k. rewrite (running_sets i d _ t k Hs). naive_solver.
Qed.

(** A child of [i] is reaped. *)
Lemma inv_reap k c t :
  core_at (y_pt g) k = Some c -> c_state c = ZOMBIE -> sets k (mk_core UNUSED 0 None (c_chan c)) (y_pt g) t ->
  sys_inv n (with_pt t g).
Proof.
  intros Hc Hz Hs. split; simpl.
  - apply (tree_unused n n (y_pt g) t _ k c 0 (pt_nextpid (y_pt g))); [apply Hinv|done| |done|by right|by destruct Hs].
    intros Hf. pose proof (ti_next _ _ _ (si_tree _ _ Hinv) Hf). lia.
  - apply (cpu_keep (y_pt g)); [apply Hinv|]. intros j. rewrite (running_sets _ _ _ _ _ Hs).
    split; [naive_solver|]. intros Hr. right. split; [|done]. intros ->. destruct Hr as (? & ? & ?). congruence.
  - eapply wait_sets; [apply Hinv|done|done|done|done].
Qed.

(** The scheduler moves on. *)
Lemma inv_scan c a t :
  (forall k, ~ on1 (y_cpu g c) k) -> (forall k, ~ on1 a k) ->
  (lock1 a -> forall d, d <> c -> ~ holds_lock (y_cpu g) d) -> same (y_pt g) t ->
  sys_inv n (with_cpu c a (with_pt t g)).
Proof.
  intros Hc Ha Hl Hs. split; simpl.
  - apply (tree_shaped n (y_pt g)); [apply Hinv|by apply same_shaped].
  - apply (cpu_step (y_pt g)); [apply Hinv| | |done].
    + intros k. rewrite (running_same _ _ _ Hs). naive_solver.
    + intros k d Hk. by destruct (Ha k).
  - eapply wait_same; [apply Hinv|done].
Qed.

Lemma inv_dispatch c i d t :
  y_cpu g c = Scan i -> core_at (y_pt g) i = Some d -> c_state d = RUNNABLE ->
  sets i (mk_core RUNNING (c_pid d) (c_parent d) (c_chan d)) (y_pt g) t ->
  sys_inv n (with_cpu c (Resumed i) (with_pt t g)).
Proof.
  intros Hc Hd Hr Hs. split; simpl.
  - apply (tree_shaped n (y_pt g)); [apply Hinv|]. eapply sets_shaped; [done|done|]. unfold like. simpl. by rewrite Hr.
  - apply (cpu_step (y_pt g)); [apply Hinv| | |].
    + intros k. rewrite (running_sets _ _ _ _ _ Hs), Hc. unfold on1. simpl.
      destruct (decide (k = i)) as [->|]; [naive_solver|].
      split; [intros [[? _]|[_ ?]]; [done|right; split; [done|naive_solver]]|]. intros [[?|?]|[? _]]; [done|congruence|auto].
    + intros k d' [?|[= <-]] Hne Hon; [done|]. apply (ci_on _ _ (si_cpu _ _ Hinv)) in Hon as (e & He & Hre). congruence.
    + intros _. apply (sole_holder (y_pt g)); [apply Hinv|]. exists i. by left.
  - eapply wait_sets; [apply Hinv|done|done|done|done].
Qed.

(** A resumed process goes on, with its channel cleared or not. *)
Lemma inv_resume c i d ch t :
  y_cpu g c = Resumed i -> core_at (y_pt g) i = Some d ->
  sets i (mk_core (c_state d) (c_pid d) (c_parent d) ch) (y_pt g) t -> c_state d = RUNNING ->
  sys_inv n (with_cpu c (User i) (with_pt t g)) /\ sys_inv n (with_pt t g).
Proof.
  intros Hc Hd Hs Hr.
  assert (forall k, running t k <-> running (y_pt g) k) as Hrun.
  { intros k. rewrite (running_sets _ _ _ _ _ Hs). simpl. rewrite Hr.
    destruct (decide (k = i)) as [->|]; [|naive_solver]. split; [|by left]. intros _. by exists d. }
  assert (shaped (y_pt g) t) as Hsh by (by eapply sets_shaped).
  assert (wait_inv t (y_kont g)) as Hw by (eapply wait_sets; [apply Hinv|done|simpl; congruence|simpl; congruence|done]).
  split; [|by apply inv_quiet]. split; simpl; [apply (tree_shaped n (y_pt g)); [apply Hinv|done]| |done].
  apply (cpu_go (y_pt g)); [apply Hinv|done|done].
Qed.
End Preserve.

Lemma set_same_state i d s t : same s t -> core_at s i = Some d -> sets i (mk_core (c_state d) (c_pid d) (c_parent d) (c_chan d)) s t.
Proof. intros Hs Hd. eapply sets_same; [apply sets_refl; destruct d; exact Hd|done]. Qed.

Lemma unlocked_sole g : unlocked g -> forall c d, d <> c -> ~ holds_lock (y_cpu g) d.
Proof. intros Hu c d _. apply Hu. Qed.

(** [wait] by a process on a CPU. *)
Lemma inv_wait_round n g c i di s r t :
  sys_inv n g -> y_cpu g c = User i \/ y_cpu g c = Resumed i -> core_at (y_pt g) i = Some di -> alive di ->
  (forall d, d <> c -> ~ holds_lock (y_cpu g) d) ->
  same (y_pt g) s -> wait_round i s = Ok r t ->
  match r with
  | Some _ => sys_inv n (with_pt t g) /\ core_at t i = Some di
  | None => sys_inv n (with_cpu c (Scan (S i)) (with_kont i KWait (with_pt t g)))
  end.
Proof.
  intros Hinv Hc Hdi Hal Hl Hs Hr.
  apply (wait_round_inv i di) in Hr; [|by rewrite (sm_at _ _ Hs)|rewrite (sm_len _ _ Hs); apply (ti_len _ _ _ (si_tree _ _ Hinv))].
  destruct r as [x|].
  - destruct Hr as [(k & d & Hk & Hp & Hz & _ & Ht)|(_ & Ht & _)].
    + rewrite (sm_at _ _ Hs) in Hk. apply (same_sets _ _ _ _ _ Hs) in Ht.
      split; [by apply (inv_reap Hinv k d)|]. rewrite (st_at _ _ _ _ Ht).
      rewrite decide_False; [done|]. intros <-. simplify_eq. by apply Hal.
    + apply (same_trans _ _ _ Hs) in Ht. split; [|by rewrite (sm_at _ _ Ht)]. apply inv_quiet; [done|by apply same_shaped| |].
      * intros k. by apply running_same.
      * eapply wait_same; [apply Hinv|done].
  - destruct Hr as [Ht Hno]. apply (same_sets _ _ _ _ _ Hs) in Ht.
    eapply (inv_out Hinv c i); [done|done|exact Hdi|exact Ht| |done|].
    + split; [done|]. split; [done|]. destruct Hal as (? & ? & ?). simpl. by destruct (c_state di).
    + apply (wait_sleeps (y_pt g) t _ i di); [apply Hinv|done|done|]. intros k d. rewrite <- (sm_at _ _ Hs). apply Hno.
Qed.

Lemma inv_wait_resume n g c i r t :
  sys_inv n g -> y_cpu g c = Resumed i -> wait_resume i (locked_view g) = Ok r t ->
  match r with
  | Some _ => sys_inv n (with_cpu c (User i) (with_pt t g))
  | None => sys_inv n (with_cpu c (Scan (S i)) (with_kont i KWait (with_pt t g)))
  end.
Proof.
  intros Hinv Hc Hr. destruct (on_core Hinv c i (or_intror Hc)) as (d & Hd & Hal & Hrun).
  assert (forall e, e <> c -> ~ holds_lock (y_cpu g) e) as Hl.
  { apply (sole_holder (y_pt g)); [apply Hinv|]. exists i. by right. }
  apply kbind_ok_inv in Hr as (u & s1 & Hs1 & Hr).
  apply (sleep_resume_inv i "ptable" d) in Hs1; [|done]. apply view_sets in Hs1.
  destruct (inv_resume Hinv c i d None s1 Hc Hd Hs1 Hrun) as [_ Hi1].
  assert (core_at s1 i = Some (mk_core (c_state d) (c_pid d) (c_parent d) None)) as Hd1
    by (rewrite (st_at _ _ _ _ Hs1); by rewrite decide_True).
  pose proof (inv_wait_round n (with_pt s1 g) c i _ s1 r t Hi1 (or_intror Hc) Hd1 Hal Hl (same_refl s1) Hr) as Hw.
  destruct r; [|exact Hw]. destruct Hw as [Hi2 Hd2].
  apply (inv_resume Hi2 c i _ _ t Hc Hd2 (set_same_state i _ t t (same_refl t) Hd2) Hrun).
Qed.

Lemma inv_fork n g c i o h t :
  sys_inv n g -> y_cpu g c = User i -> y_fork g i = None ->
  allocproc (view h g) = Ok o t ->
  match o with Some np => sys_inv (S n) (with_fork i (Some np) (with_pt t g)) | None => sys_inv (S n) (with_pt t g) end.
Proof.
  intros Hinv Hc Hf Ha. destruct (on_core Hinv c i (or_introl Hc)) as (d & Hd & Hal & Hrun).
  assert (forall j e x m, core_at (y_pt g) j = Some e -> c_state e = UNUSED -> c_state x <> RUNNING -> c_state x <> ZOMBIE ->
    c_state x <> SLEEPING -> sets j x (set_nextpid m (y_pt g)) t ->
    cpu_inv t (y_cpu g) /\ wait_inv t (y_kont g)) as Hrest.
  { intros j e x m He Hu H1 H2 H3 [A1 A2 A3 A4].
    assert (sets j x (y_pt g) (set_nextpid (pt_nextpid (y_pt g)) t)) as Hs by done. split.
    - apply (cpu_keep (y_pt g)); [apply Hinv|]. intros k. pose proof (running_sets _ _ _ _ k Hs) as Hk.
      unfold running in *. change (core_at (set_nextpid _ t) k) with (core_at t k) in Hk. rewrite Hk.
      split; [naive_solver|]. intros (c' & Hc' & Hr'). destruct (decide (k = j)) as [->|]; [congruence|eauto].
    - assert (wait_inv (set_nextpid (pt_nextpid (y_pt g)) t) (y_kont g)) as Hw;
        [eapply (wait_sets (y_pt g)); [apply Hinv|exact Hs|done|done|done]|exact Hw]. }
  apply allocproc_inv in Ha as [[-> Hs]|(np & e & He & Hu & [[-> Hs]|[-> Hs]])].
  - apply view_trans in Hs. apply sys_mono with n; [lia|]. apply (inv_quiet Hinv); [by apply same_shaped|intros; by apply running_same|].
    eapply wait_same; [apply Hinv|done].
  - assert (sets np (mk_core EMBRYO (pt_nextpid (y_pt g)) (c_parent e) (c_chan e)) (set_nextpid (s32 (pt_nextpid (y_pt g) + 1)) (y_pt g)) t) as Hs' by (by destruct Hs).
    edestruct (Hrest np e) as [H1 H2]; [exact He|exact Hu| | | |exact Hs'|]; try done.
    split; [|done|done]. by apply (tree_alloc n (y_pt g) t _ i d np e); [apply Hinv|..].
  - assert (sets np (mk_core UNUSED (pt_nextpid (y_pt g)) (c_parent e) (c_chan e)) (set_nextpid (s32 (pt_nextpid (y_pt g) + 1)) (y_pt g)) t) as Hs' by (by destruct Hs).
    edestruct (Hrest np e) as [H1 H2]; [exact He|exact Hu| | | |exact Hs'|]; try done.
    split; [|done|done]. rewrite (ti_nopar _ _ _ (si_tree _ _ Hinv) np e He) in Hs' by (by left).
    eapply (tree_unused n (S n) (y_pt g) t _ np e); [apply Hinv|lia| |exact He|by left|exact Hs'].
    intros Hf'. rewrite (s32_next _ _ _ (si_tree _ _ Hinv) Hf'). assert (few n) as Hfn by (unfold few in *; lia).
    pose proof (ti_next _ _ _ (si_tree _ _ Hinv) Hfn). lia.
Qed.

Lemma inv_fork_copy n g c i np r h t :
  sys_inv n g -> y_cpu g c = User i -> y_fork g i = Some np -> fork_copy i np (view h g) = Ok r t ->
  sys_inv n (with_fork i None (with_kont np KForkret (with_pt t g))).
Proof.
  intros Hinv Hc Hf Hr.
  destruct (ti_fork _ _ _ (si_tree _ _ Hinv) i np Hf) as (ci & d & Hi & Hal & Hd & He).
  apply (fork_copy_inv i np d) in Hr; [|done].
  assert (exists x, sets np x (y_pt g) t /\ c_pid x = c_pid d /\ c_state x <> RUNNING /\ c_state x <> ZOMBIE /\ c_state x <> SLEEPING /\
    ((c_state x = RUNNABLE /\ c_parent x = Some i) \/ (c_state x = UNUSED /\ c_parent x = c_parent d))) as (x & Hs & Hx & H1 & H2 & H3 & H4).
  { destruct Hr as [[_ Hs]|[_ Hs]]; apply view_sets in Hs;
      eexists; (split; [exact Hs|]); simpl; auto 10. }
  split; simpl.
  - by apply (tree_fork n (y_pt g) t _ i np d x); [apply Hinv|..].
  - apply (cpu_keep (y_pt g)); [apply Hinv|]. intros k. rewrite (running_sets _ _ _ _ _ Hs).
    split; [naive_solver|]. intros (c' & Hc' & Hr'). destruct (decide (k = np)) as [->|]; [congruence|].
    right. split; [done|]. by exists c'.
  - eapply (wait_sets (y_pt g)); [apply Hinv|exact Hs|done|done|]. intros j Hj. simpl. by rewrite fn_lookup_insert_ne.
Qed.

Lemma inv_exit n g c i h t :
  sys_inv n g -> y_cpu g c = User i -> unlocked g -> y_fork g i = None -> pt_initproc (y_pt g) <> Some i ->
  exit_table i (view h g) = Ok tt t -> sys_inv n (with_cpu c (Scan (S i)) (with_pt t g)).
Proof.
  intros Hinv Hc Hu Hf Hi Hx. destruct (on_core Hinv c i (or_introl Hc)) as (d & Hd & Hal & Hrun).
  apply exit_table_inv in Hx; [|apply (ti_len _ _ _ (si_tree _ _ Hinv))].
  assert (exited i (y_pt g) t) as Hx' by (by destruct Hx). split; simpl.
  - by apply (tree_exit n (y_pt g) t _ i d); [apply Hinv|..].
  - apply (cpu_out (y_pt g) t _ c i); [apply Hinv|by left|by apply unlocked_sole|].
    intros k. by apply running_exited.
  - by eapply (wait_exit n (y_pt g) t _ _ i d); [apply Hinv|apply Hinv|..].
Qed.

Lemma inv_gstep n l g g' : sys_inv n g -> gstep l g g' -> sys_inv (S n) g'.
Proof.
  intros Hinv Hst. revert Hinv.
  destruct Hst as [c g Hc Hu|c i g t Hc Hi Hr|c i g t Hc Hi Hr|c i g Hc Hi|c i g t Hc Hk Hr|c i g t Hc Hk Hr
    |c i lk g t Hc Hk Hr|c i r g t Hc Hk Hr|c i g t Hc Hk Hr|c i h g t Hc Hu Hr|c i ch lk h g t Hc Hu Hlk Hr
    |c i r h g t Hc Hu Hf Hr|c i h g t Hc Hu Hf Hr|c i h g t Hc Hu Hf Hi Hr|c i pid r h g t Hc Hu Hr|ch h g t Hu Hr
    |c i np h g t Hc Hu Hf Hr|c i h g t Hc Hu Hf Hr|c i np r h g t Hc Hu Hf Hr|c i p p' e g Hc Hp Hcore]; intros Hinv.
  1-16,19-20: apply (sys_mono n); [lia|].
  - destruct g. apply (inv_scan Hinv c (Scan 0)); simpl in *; [rewrite Hc; by intros k [?|?]|by intros k [?|?]| |done].
    intros _ d _. apply Hu.
  - apply scheduler_at_inv in Hr as (d & Hd & _ & Hs).
    apply (inv_scan Hinv c (Scan (S i))); [rewrite Hc; by intros k [?|?]|by intros k [?|?]| |].
    + intros _. apply (sole_holder (y_pt g)); [apply Hinv|]. exists i. by left.
    + by eapply view_trans.
  - apply scheduler_at_inv in Hr as (d & Hd & Hrn & Hs).
    apply (inv_dispatch Hinv c i d); [done|done|done|]. by eapply view_sets.
  - destruct g. apply (inv_scan Hinv c Idle); simpl in *; [rewrite Hc; by intros k [?|?]|by intros k [?|?]| |done].
    by intros [k [?|?]].
  - destruct (on_core Hinv c i (or_intror Hc)) as (d & Hd & Hal & Hrun). apply release_inv in Hr.
    apply (inv_resume Hinv c i d (c_chan d)); try done. apply set_same_state; [by eapply view_trans|done].
  - destruct (on_core Hinv c i (or_intror Hc)) as (d & Hd & Hal & Hrun). unfold forkret_resume in Hr. run_inv.
    apply (inv_resume Hinv c i d (c_chan d)); try done. apply set_same_state; [by eapply view_trans|done].
  - destruct (on_core Hinv c i (or_intror Hc)) as (d & Hd & Hal & Hrun).
    apply (sleep_resume_inv i lk d) in Hr; [|done].
    apply (inv_resume Hinv c i d None); try done. by eapply view_sets.
  - by apply (inv_wait_resume n g c i) in Hr.
  - by apply (inv_wait_resume n g c i) in Hr.
  - destruct (on_core Hinv c i (or_introl Hc)) as (d & Hd & Hal & Hrun).
    apply (yield_inv i d) in Hr; [|done]. apply view_sets in Hr.
    eapply (inv_out Hinv c i); [by left|by apply unlocked_sole|exact Hd|exact Hr| |done|].
    + unfold like. simpl. by rewrite Hrun.
    + eapply (wait_sets (y_pt g)); [apply Hinv|exact Hr|done|done|]. intros j Hj. simpl. by rewrite fn_lookup_insert_ne.
  - destruct (on_core Hinv c i (or_introl Hc)) as (d & Hd & Hal & Hrun).
    apply (sleep_inv i ch lk d) in Hr; [|done]. apply view_sets in Hr.
    eapply (inv_out Hinv c i); [by left|by apply unlocked_sole|exact Hd|exact Hr| |done|].
    + unfold like. simpl. by rewrite Hrun.
    + eapply (wait_sets (y_pt g)); [apply Hinv|exact Hr|done| |].
      * intros _. simpl. by rewrite fn_lookup_insert.
      * intros j Hj. simpl. by rewrite fn_lookup_insert_ne.
  - destruct (on_core Hinv c i (or_introl Hc)) as (d & Hd & Hal & Hrun).
    apply kbind_ok_inv in Hr as (? & s1 & Hs1%acquire_inv & Hr).
    apply (inv_wait_round n g c i d s1 (Some r) t Hinv (or_introl Hc) Hd Hal (unlocked_sole g Hu c) (view_trans h g s1 Hs1) Hr).
  - destruct (on_core Hinv c i (or_introl Hc)) as (d & Hd & Hal & Hrun).
    apply kbind_ok_inv in Hr as (? & s1 & Hs1%acquire_inv & Hr).
    apply (inv_wait_round n g c i d s1 None t Hinv (or_introl Hc) Hd Hal (unlocked_sole g Hu c) (view_trans h g s1 Hs1) Hr).
  - by apply (inv_exit n g c i h).
  - apply kill_inv in Hr as [Hs|(k & d & Hd & Hsl & Hs)].
    + apply view_trans in Hs. apply (inv_quiet Hinv); [by apply same_shaped|intros; by apply running_same|].
      eapply wait_same; [apply Hinv|done].
    + apply view_sets in Hs. apply (inv_quiet Hinv).
      * eapply sets_shaped; [exact Hs|exact Hd|]. unfold like. simpl. by rewrite Hsl.
      * intros j. rewrite (running_sets _ _ _ _ _ Hs). split; [naive_solver|]. intros (e & He & Hre).
        right. split; [|by exists e]. intros ->. change (core_at (y_pt g) k = Some d) in Hd. congruence.
      * eapply (wait_sets (y_pt g)); [apply Hinv|exact Hs|done|done|done].
  - apply wakeup_inv in Hr. assert (woken ch (y_pt g) t) as Hw by (by destruct Hr).
    apply (inv_quiet Hinv); [by eapply woken_shaped|intros; by eapply running_woken|]. eapply wait_woken; [apply Hinv|done].
  - by eapply (inv_fork_copy n g c i np).
  - set (t := set_env e _). assert (same (y_pt g) t) as Hs.
    { split; simpl; try done; [|by rewrite length_insert]. intros k. unfold core_at. simpl.
      destruct (decide (k = i)) as [->|]; [|by rewrite list_lookup_insert_ne].
      rewrite list_lookup_insert_eq by (by eapply lookup_lt_Some). rewrite Hp. simpl. by rewrite Hcore. }
    apply (inv_quiet Hinv); [by apply same_shaped|intros; by apply running_same|]. eapply wait_same; [apply Hinv|done].
  - by apply (inv_fork n g c i _ h t) in Hr.
  - by apply (inv_fork n g c i _ h t) in Hr.
Qed.

Lemma booted_inv g : booted g -> sys_inv 0 g.
Proof.
  intros (Hlen & Hinit & Hnext & H0 & Hrest & Hcpu & Hkt & Hfk).
  assert (forall k c, core_at (y_pt g) k = Some c -> (k = 0%nat /\ c = mk_core RUNNABLE 1 None None) \/
    (k <> 0%nat /\ c = mk_core UNUSED 0 None None)) as B.
  { intros k c Hc. assert (k < NPROC)%nat as Hk by (rewrite <- Hlen; apply core_at_dom; eauto).
    destruct (decide (k = 0%nat)) as [->|]; [left; split; congruence|right]. split; [done|].
    rewrite Hrest in Hc by lia. congruence. }
  split.
  - split; rewrite ?Hnext, ?Hinit; try done.
    + intros _ i c [[-> ->]|[_ ->]]%B; simpl; [lia|done].
    + intros _ i j c d [[-> ->]|[_ ->]]%B [[-> ->]|[_ ->]]%B; simpl; done.
    + exists 0%nat, (mk_core RUNNABLE 1 None None). done.
    + intros i c [[-> ->]|[_ ->]]%B; done.
    + intros i c [[-> ->]|[_ ->]]%B; [|done]. intros _ _. by apply desc_init.
    + intros i np. by rewrite Hfk.
    + intros i j np. by rewrite Hfk.
    + intros np d [[-> ->]|[_ ->]]%B; done.
  - split.
    + intros c i [Ho|Ho]; rewrite Hcpu in Ho; done.
    + intros i (c & [[-> ->]|[_ ->]]%B & Hr); done.
    + intros c d i [Ho|Ho]; rewrite Hcpu in Ho; done.
    + intros c d [i [Ho|Ho]]; rewrite Hcpu in Ho; done.
  - intros j d [[-> ->]|[_ ->]]%B; done.
Qed.

(** [g] is reached from a booted system in [n] steps. *)
Definition reached (n : nat) g : Prop := exists g0, booted g0 /\ nsteps some_step n g0 g.

Lemma reached_inv n g : reached n g -> sys_inv n g.
Proof.
  intros (g0 & Hb & Hr). assert (forall m, sys_inv m g0 -> sys_inv (m + n) g) as Hgo; [|by apply (Hgo 0%nat), booted_inv].
  clear Hb. induction Hr as [g|n g g1 g2 [l Hl] _ IH]; intros m Hm; [by rewrite Nat.add_0_r|].
  rewrite Nat.add_succ_r, <- Nat.add_succ_l. apply IH. by eapply inv_gstep.
Qed.

Lemma reachable_sys_inv g : reachable_sys g -> exists n, sys_inv n g.
Proof. intros (g0 & Hb & [n Hr]%rtc_nsteps). exists n. apply reached_inv. by exists g0. Qed.

(** ** The wait for the CPU *)

(** Executions in which no CPU dispatches [i]; [n] counts the dispatches of
    CPU [c]. *)
Inductive run_without (c i : nat) : nat -> sys E -> sys E -> Prop :=
| rw_nil g : run_without c i 0 g g
| rw_other l n g g' g'' :
    gstep l g g' -> (forall d, l <> Some (d, i)) -> (forall k, l <> Some (c, k)) ->
    run_without c i n g' g'' -> run_without c i n g g''
| rw_mine k n g g' g'' :
    gstep (Some (c, k)) g g' -> k <> i -> run_without c i n g' g'' -> run_without c i (S n) g g''.

Definition runnable (s : ptable E) i : Prop := exists c, core_at s i = Some c /\ c_state c = RUNNABLE.

(** How many slots CPU [c] has to look at before it comes to [i]. *)
Definition scan_pos (a : cpu_at) : nat :=
  match a with Idle => 0 | Scan p => p | Resumed j | User j => S j end.
Definition distance (i : nat) (a : cpu_at) : nat :=
  if decide (scan_pos a <= i)%nat then (i - scan_pos a)%nat else (NPROC - scan_pos a + i)%nat.

Lemma runnable_same s t i : same s t -> runnable s i -> runnable t i.
Proof. intros Hs. unfold runnable. by rewrite (sm_at _ _ Hs). Qed.
Lemma runnable_sets s t i k c d :
  sets k d s t -> core_at s k = Some c -> c_state c <> RUNNABLE \/ c_state d = RUNNABLE -> runnable s i -> runnable t i.
Proof.
  intros Hs Hc Hne (e & He & Hr). unfold runnable. rewrite (st_at _ _ _ _ Hs).
  destruct (decide (i = k)) as [->|]; [|eauto]. exists d. split; [done|]. destruct Hne; [|done]. congruence.
Qed.
Lemma runnable_wait_round m g i cur s r t d :
  sys_inv m g -> same (y_pt g) s -> core_at (y_pt g) cur = Some d -> c_state d = RUNNING -> wait_round cur s = Ok r t ->
  runnable (y_pt g) i -> runnable t i.
Proof.
  intros Hinv Hs Hd Hrun Hr Hi. apply (wait_round_inv cur d) in Hr;
    [|by rewrite (sm_at _ _ Hs)|rewrite (sm_len _ _ Hs); apply (ti_len _ _ _ (si_tree _ _ Hinv))].
  apply (runnable_same _ _ _ Hs) in Hi. rewrite <- (sm_at _ _ Hs) in Hd. destruct r.
  - destruct Hr as [(k & e & Hk & _ & Hz & _ & Ht)|(_ & Ht & _)]; [|by eapply runnable_same].
    eapply runnable_sets; [exact Ht|exact Hk|left; congruence|done].
  - destruct Hr as [Ht _]. eapply runnable_sets; [exact Ht|exact Hd|left; congruence|done].
Qed.

(** No step takes a runnable process off the run queue but its dispatch. *)
Lemma runnable_step m l g g' i :
  sys_inv m g -> gstep l g g' -> (forall d, l <> Some (d, i)) -> runnable (y_pt g) i -> runnable (y_pt g') i.
Proof.
  intros Hinv Hst Hl. revert Hinv Hl.
  destruct Hst as [c g Hc Hu|c k g t Hc Hi Hr|c k g t Hc Hi Hr|c k g Hc Hi|c k g t Hc Hk Hr|c k g t Hc Hk Hr
    |c k lk g t Hc Hk Hr|c k r g t Hc Hk Hr|c k g t Hc Hk Hr|c k h g t Hc Hu Hr|c k ch lk h g t Hc Hu Hlk Hr
    |c k r h g t Hc Hu Hf Hr|c k h g t Hc Hu Hf Hr|c k h g t Hc Hu Hf Hi Hr|c k pid r h g t Hc Hu Hr|ch h g t Hu Hr
    |c k np h g t Hc Hu Hf Hr|c k h g t Hc Hu Hf Hr|c k np r h g t Hc Hu Hf Hr|c k p p' e g Hc Hp Hcore];
    intros Hinv Hl Hi'; try done; simpl;
    try (destruct (on_core Hinv c k (or_introl Hc)) as (d & Hd & Hal & Hrun));
    try (destruct (on_core Hinv c k (or_intror Hc)) as (d & Hd & Hal & Hrun)).
  - apply scheduler_at_inv in Hr as (d & Hd & _ & Hs). by eapply runnable_same.
  - apply scheduler_at_inv in Hr as (d & Hd & Hrn & Hs). destruct Hi' as (e & He & Hre). exists e.
    rewrite (st_at _ _ _ _ Hs). rewrite decide_False; [done|]. intros ->. by apply (Hl c).
  - apply release_inv in Hr. by eapply runnable_same.
  - unfold forkret_resume in Hr. run_inv. by eapply (runnable_same (locked_view g)).
  - apply (sleep_resume_inv k lk d) in Hr; [|done]. eapply runnable_sets; [exact Hr|exact Hd|left; congruence|done].
  - apply kbind_ok_inv in Hr as (u & s1 & Hs1 & Hr). apply (sleep_resume_inv k "ptable" d) in Hs1; [|done]. apply view_sets in Hs1.
    destruct (inv_resume Hinv c k d None s1 Hc Hd Hs1 Hrun) as [_ Hi1].
    eapply (runnable_wait_round m (with_pt s1 g)); [exact Hi1|apply same_refl| | |exact Hr|].
    + simpl. rewrite (st_at _ _ _ _ Hs1). by rewrite decide_True.
    + done.
    + eapply runnable_sets; [exact Hs1|exact Hd|left; congruence|done].
  - apply kbind_ok_inv in Hr as (u & s1 & Hs1 & Hr). apply (sleep_resume_inv k "ptable" d) in Hs1; [|done]. apply view_sets in Hs1.
    destruct (inv_resume Hinv c k d None s1 Hc Hd Hs1 Hrun) as [_ Hi1].
    eapply (runnable_wait_round m (with_pt s1 g)); [exact Hi1|apply same_refl| | |exact Hr|].
    + simpl. rewrite (st_at _ _ _ _ Hs1). by rewrite decide_True.
    + done.
    + eapply runnable_sets; [exact Hs1|exact Hd|left; congruence|done].
  - apply (yield_inv k d) in Hr; [|done]. eapply runnable_sets; [exact Hr|exact Hd|by right|done].
  - apply (sleep_inv k ch lk d) in Hr; [|done]. eapply runnable_sets; [exact Hr|exact Hd|left; congruence|done].
  - apply kbind_ok_inv in Hr as (? & s1 & Hs1%acquire_inv & Hr).
    eapply (runnable_wait_round m g); [exact Hinv|by eapply view_trans|exact Hd|exact Hrun|exact Hr|done].
  - apply kbind_ok_inv in Hr as (? & s1 & Hs1%acquire_inv & Hr).
    eapply (runnable_wait_round m g); [exact Hinv|by eapply view_trans|exact Hd|exact Hrun|exact Hr|done].
  - apply exit_table_inv in Hr; [|apply (ti_len _ _ _ (si_tree _ _ Hinv))]. destruct Hi' as (e & He & Hre).
    destruct (ex_at _ _ _ Hr i e He) as (e' & He' & _ & _ & _ & Hst). exists e'. split; [done|].
    destruct (decide (i = k)) as [->|]; [congruence|]. destruct Hst as [?|[_ ?]]; congruence.
  - apply kill_inv in Hr as [Hs|(j & e & He & Hsl & Hs)]; [by eapply runnable_same|].
    eapply runnable_sets; [exact Hs|exact He|by right|done].
  - apply wakeup_inv in Hr. destruct Hi' as (e & He & Hre). unfold runnable. rewrite (wk_at _ _ _ Hr).
    change (core_at (view h g) i) with (core_at (y_pt g) i). rewrite He. eexists. split; [done|].
    destruct (wake_core_cases ch e) as (_ & _ & _ & [?|[? _]] & _); congruence.
  - apply allocproc_inv in Hr as [[? _]|(n & e & He & Hu' & [[_ Hs]|[? _]])]; [done| |done].
    apply (runnable_sets _ _ _ _ _ _ Hs He); [left; congruence|done].
  - apply allocproc_inv in Hr as [[_ Hs]|(n & e & He & Hu' & [[? _]|[_ Hs]])]; [by eapply runnable_same|done|].
    apply (runnable_sets _ _ _ _ _ _ Hs He); [left; congruence|done].
  - destruct (ti_fork _ _ _ (si_tree _ _ Hinv) k np Hf) as (ci & x & Hci & _ & Hx & He).
    apply (fork_copy_inv k np x) in Hr; [|done].
    destruct Hr as [[_ Hs]|[_ Hs]]; apply (runnable_sets _ _ _ _ _ _ Hs Hx); try done; left; congruence.
  - destruct Hi' as (x & Hx & Hre). exists x. split; [|done]. unfold core_at in *. simpl.
    rewrite list_lookup_insert_ne; [done|]. intros ->. rewrite Hd in Hx. congruence.
Qed.

Definition mine (c : nat) (l : option (nat * nat)) : nat :=
  match l with Some (d, _) => if decide (d = c) then 1 else 0 | None => 0 end.

(** Every step of CPU [c] brings its scan nearer to a runnable [i]. *)
Lemma distance_step l g g' i c :
  gstep l g g' -> (i < NPROC)%nat -> runnable (y_pt g) i -> (forall d, l <> Some (d, i)) ->
  (distance i (y_cpu g' c) + mine c l <= distance i (y_cpu g c))%nat.
Proof.
  intros Hst Hi (x & Hx & Hrx) Hl. revert Hx Hl.
  assert (forall cpu c' a, (distance i a <= distance i (cpu c'))%nat ->
    (distance i ((<[c':=a]> cpu : nat -> cpu_at) c) <= distance i (cpu c))%nat) as Hset.
  { intros cpu c' a Ha. destruct (decide (c = c')) as [->|]; [by rewrite fn_lookup_insert|by rewrite fn_lookup_insert_ne]. }
  destruct Hst as [c' g Hc Hu|c' k g t Hc Hk Hr|c' k g t Hc Hk Hr|c' k g Hc Hk|c' k g t Hc Hk Hr|c' k g t Hc Hk Hr
    |c' k lk g t Hc Hk Hr|c' k r g t Hc Hk Hr|c' k g t Hc Hk Hr|c' k h g t Hc Hu Hr|c' k ch lk h g t Hc Hu Hlk Hr
    |c' k r h g t Hc Hu Hf Hr|c' k h g t Hc Hu Hf Hr|c' k h g t Hc Hu Hf Hk Hr|c' k pid r h g t Hc Hu Hr|ch h g t Hu Hr
    |c' k np h g t Hc Hu Hf Hr|c' k h g t Hc Hu Hf Hr|c' k np r h g t Hc Hu Hf Hr|c' k p p' e g Hc Hp Hcore];
    intros Hx Hl; simpl;
    try (rewrite Nat.add_0_r; try done; apply Hset; rewrite Hc; unfold distance; cbn [scan_pos]; try done).
  - apply scheduler_at_inv in Hr as (d & Hd & Hnr & Hs). change (core_at (y_pt g) k = Some d) in Hd.
    assert (k <> i) by (intros ->; congruence). repeat case_decide; lia.
  - assert (k <> i) by (intros ->; by apply (Hl c')). destruct (decide (c = c')) as [->|Hcc].
    + rewrite fn_lookup_insert, Hc, decide_True by done. unfold distance. cbn [scan_pos]. repeat case_decide; lia.
    + rewrite fn_lookup_insert_ne, decide_False by done. lia.
  - repeat case_decide; lia.
Qed.

Lemma run_without_bound c i n g g' :
  run_without c i n g g' -> forall m, sys_inv m g -> (i < NPROC)%nat -> runnable (y_pt g) i ->
  runnable (y_pt g') i /\ (n <= distance i (y_cpu g c))%nat.
Proof.
  intros Hr. induction Hr as [g|l n g g1 g2 Hs Hni Hnc Hr IH|k n g g1 g2 Hs Hk Hr IH]; intros m Hinv Hi Hru.
  - split; [done|lia].
  - pose proof (runnable_step _ _ _ _ _ Hinv Hs Hni Hru) as Hru1.
    destruct (IH _ (inv_gstep _ _ _ _ Hinv Hs) Hi Hru1) as [H1 H2]. split; [done|].
    pose proof (distance_step _ _ _ _ c Hs Hi Hru Hni). lia.
  - assert (forall d, Some (c, k) <> Some (d, i)) as Hni by (intros d [= ??]; done).
    pose proof (runnable_step _ _ _ _ _ Hinv Hs Hni Hru) as Hru1.
    destruct (IH _ (inv_gstep _ _ _ _ Hinv Hs) Hi Hru1) as [H1 H2]. split; [done|].
    pose proof (distance_step _ _ _ _ c Hs Hi Hru Hni) as Hd. simpl in Hd. rewrite decide_True in Hd by done. lia.
Qed.

(** ** Reaping a zombie *)

(** The kernel stack and the address space of [p] can be given back: the
    stack has one reference and is not part of the address space. *)
Definition reapable (k : kmem) (p : proc) : Prop := exists fl T,
  freeable fl (p_pgdir p) T k (upages 0 KERNBASE) /\ (forall v, pt_page (p_pgdir p) T v -> refs k v = 1) /\
  valid_page (p_kstack p) /\ p_kstack p ∉ fl /\ ~ pt_page (p_pgdir p) T (p_kstack p) /\
  p_kstack p ∉ frames (memory k) (p_pgdir p) (upages 0 KERNBASE) /\ refs k (p_kstack p) = 1.

Lemma reap_runs (e : E) p : reapable (sub_get e) p ->
  exists e1 e2, lift (kfree (p_kstack p)) e = Ok tt e1 /\ freevm (p_pgdir p) e1 = Ok tt e2.
Proof.
  intros (fl & T & Hf & Hone & Hv & Hn & Hnp & Hnf & Hr). set (k := sub_get e) in *. set (K := p_kstack p) in *.
  pose proof (fr_pt _ _ _ _ _ Hf) as Hpt. pose proof (pt_kinv _ _ _ _ Hpt) as Hk. destruct (ki_locks _ _ Hk) as [Hl1 Hl2].
  assert (kinv (K :: fl) (kfree_state K k)) as Hk' by (apply kfree_inv_last; [done..|lia]).
  assert (forall a, pt_bytes (p_pgdir p) T a -> ld8 (memory (kfree_state K k)) a = ld8 (memory k) a) as Hb.
  { intros a (v & Hvp & Ha). apply kfree_state_frame. intros HK. destruct (pt_valid _ _ _ _ Hpt v Hvp) as [Hvv _].
    apply (pages_apart v K a Hvv Hv); [by intros ->|done|done]. }
  assert (pt_inv (K :: fl) (p_pgdir p) T (kfree_state K k)) as Hpt'.
  { apply (pt_inv_frame Hpt); [done| |done]. intros v Hvp. rewrite not_elem_of_cons. split; [by intros ->|].
    by apply (pt_valid _ _ _ _ Hpt). }
  assert (forall v, valid_page v -> v <> K -> refs (kfree_state K k) v = refs k v) as Hrf.
  { intros v Hvv HvK. rewrite refs_kfree_state, decide_False by (done || lia). done. }
  assert (forall va, va ∈ upages 0 KERNBASE -> pte (memory (kfree_state K k)) (p_pgdir p) va = pte (memory k) (p_pgdir p) va) as Hpte.
  { intros va Hva. apply (pte_frame Hpt); [|done]. apply user_va_addr, (fr_user _ _ _ _ _ Hf va Hva). }
  destruct (wp_elim _ _ _ (freevm_spec (K :: fl) (p_pgdir p) T (sub_put (kfree_state K k) e)
    ltac:(rewrite sub_get_put; split; [exact Hpt'|apply Hf| |intros va Hva; rewrite Hpte by exact Hva; by apply (fr_noswap _ _ _ _ _ Hf)];
      rewrite (frames_ext (memory k)) by exact Hpte; intros q Hq; destruct (fr_frames _ _ _ _ _ Hf q Hq) as (? & ? & ? & ?);
      assert (q <> K) by (by intros ->); rewrite not_elem_of_cons, Hrf by done; done)
    ltac:(rewrite sub_get_put; intros v Hvp; rewrite Hrf; [by apply Hone|by apply (pt_valid _ _ _ _ Hpt)|by intros ->]))) as ([] & e2 & E2 & _).
  exists (sub_put (kfree_state K k) e), e2. split; [|done]. unfold lift. fold k. rewrite kfree_eq by (done || lia). done.
Qed.

(** The scan of [wait] reaps when there is a zombie child. *)
Lemma wait_scan_reaps cur n : forall i hk s, (i + n = length (pt_proc s))%nat -> "ptable" ∈ pt_held s ->
  (forall k p, pt_proc s !! k = Some p -> p_parent p = Some cur -> p_state p = ZOMBIE -> reapable (sub_get (pt_env s)) p) ->
  (exists k p, (i <= k)%nat /\ pt_proc s !! k = Some p /\ p_parent p = Some cur /\ p_state p = ZOMBIE) ->
  exists pid t, wait_scan cur i n hk s = Ok (inl pid) t.
Proof.
  induction n as [|n IH]; intros i hk s Hlen Hlk Hre (k & p & Hik & Hk & Hp & Hz); cbn [wait_scan].
  { apply lookup_lt_Some in Hk. lia. }
  destruct (lookup_lt_is_Some_2 (pt_proc s) i ltac:(lia)) as [q Hq].
  rewrite (kbind_ok _ _ s q s) by (unfold getp, kbind, kget, deref; by rewrite Hq).
  assert (i <> k -> exists k p, (S i <= k)%nat /\ pt_proc s !! k = Some p /\ p_parent p = Some cur /\ p_state p = ZOMBIE) as Hlater.
  { intros Hne. exists k, p. split; [lia|done]. }
  destruct (bool_decide (p_parent q = Some cur)) eqn:Eb; boolify; cbn [negb].
  2: { apply IH; [lia|done|done|]. apply Hlater. intros ->. by simplify_eq. }
  destruct (decide (p_state q = ZOMBIE)) as [Eq|Eq].
  2: { apply IH; [lia|done|done|]. apply Hlater. intros ->. by simplify_eq. }
  destruct (reap_runs (pt_env s) q (Hre i q Hq Eb Eq)) as (e1 & e2 & E1 & E2).
  erewrite kbind_ok by (unfold kmem_op, env, lift at 1; cbn [sub_get pt_sub]; rewrite E1; reflexivity).
  repeat first [
    erewrite kbind_ok by (unfold env, lift; cbn [sub_get pt_sub pt_env set_env set_procs]; rewrite E2; reflexivity)
  | erewrite (kbind_ok (putp i _)) by (unfold putp, kbind, kget; cbn [pt_proc set_env set_procs sub_put pt_sub];
      rewrite ?list_insert_insert_eq, ?list_lookup_insert_eq by (rewrite ?length_insert; by eapply lookup_lt_Some); rewrite ?Hq; reflexivity)].
  erewrite kbind_ok; [by eexists _, _|]. unfold release. simpl. by rewrite decide_True.
Qed.

(** C7: The process tree.  In every state the system can reach, however the
    CPUs interleave fork, exit, wait, kill, sleep and the scheduler: every
    process that has started is init or descends from init through live
    parents; a zombie has no children; and a process is RUNNING exactly when
    one CPU, and only one, runs it.  While fewer than 2^31 - 3 steps have been
    taken, so that the counter of pids, an [int] that every fork increments,
    cannot have overflowed, the pids of live processes are also distinct and
    positive. *)
Theorem process_tree n g :
  reached n g ->
  (Z.of_nat n < 2 ^ 31 - 3 -> forall i j c d, core_at (y_pt g) i = Some c -> core_at (y_pt g) j = Some d ->
     c_state c <> UNUSED -> c_state d <> UNUSED -> c_pid c = c_pid d -> i = j) /\
  (Z.of_nat n < 2 ^ 31 - 3 -> forall i c, core_at (y_pt g) i = Some c -> c_state c <> UNUSED -> 0 < c_pid c) /\
  (forall i c, core_at (y_pt g) i = Some c -> c_state c <> UNUSED -> c_state c <> EMBRYO -> descends (y_pt g) i) /\
  (forall i k c d, core_at (y_pt g) i = Some c -> c_state c = ZOMBIE -> core_at (y_pt g) k = Some d -> c_parent d <> Some i) /\
  (forall i c, core_at (y_pt g) i = Some c -> (c_state c = RUNNING <-> exists cpu, on (y_cpu g) cpu i)) /\
  (forall c d i, on (y_cpu g) c i -> on (y_cpu g) d i -> c = d).
Proof.
  intros Hinv%reached_inv. pose proof (si_tree _ _ Hinv) as Ht. split_and!.
  - intros Hf i j c d. apply (ti_pids _ _ _ Ht Hf).
  - intros Hf i c Hc Hu. pose proof (ti_pid _ _ _ Ht Hf i c Hc Hu). lia.
  - apply (ti_desc _ _ _ Ht).
  - intros i k c d Hc Hz Hd Hp. destruct (decide (c_state d = UNUSED \/ c_state d = EMBRYO)) as [Hs|Hs].
    { rewrite (ti_nopar _ _ _ Ht k d Hd Hs) in Hp. done. }
    destruct (decide (pt_initproc (y_pt g) = Some k)) as [Hi|Hi].
    { destruct (ti_init _ _ _ Ht) as (j & e & Hj & He & _ & Hn). congruence. }
    destruct (ti_par _ _ _ k d Ht Hd) as (j & e & Hj & He & Ha); [tauto|tauto|done|].
    assert (j = i) as -> by congruence. destruct Ha as (_ & _ & Ha). congruence.
  - intros i c Hc. split.
    + intros Hr. apply (ci_run _ _ (si_cpu _ _ Hinv)). by exists c.
    + intros [cpu (d & Hd & Hr)%(ci_on _ _ (si_cpu _ _ Hinv))]. congruence.
  - apply (ci_one _ _ (si_cpu _ _ Hinv)).
Qed.

(** A resumed [wait] whose caller has a zombie child, if it returns. *)
Lemma wait_resume_result n g j k z c r t :
  sys_inv n g -> core_at (y_pt g) k = Some z -> c_parent z = Some j -> c_state z = ZOMBIE ->
  y_cpu g c = Resumed j -> wait_resume j (locked_view g) = Ok r t ->
  exists k' z' f, core_at (y_pt g) k' = Some z' /\ c_parent z' = Some j /\ c_state z' = ZOMBIE /\
    r = Some (c_pid z') /\ core_at t k' = Some f /\ c_state f = UNUSED.
Proof.
  intros Hinv Hz Hp Hzs Hc Hr. destruct (on_core Hinv c j (or_intror Hc)) as (d & Hd & _ & Hrun).
  apply kbind_ok_inv in Hr as (u & s1 & Hs1 & Hr).
  apply (sleep_resume_inv j "ptable" d) in Hs1; [|done]. apply view_sets in Hs1.
  pose proof (fun k e => sets_at _ _ _ _ k e Hs1) as At.
  assert (core_at s1 k = Some z) as Hz1.
  { apply At. right. split; [|done]. intros ->. congruence. }
  apply (wait_round_inv j (mk_core (c_state d) (c_pid d) (c_parent d) None)) in Hr;
    [|apply At; by left|rewrite (st_len _ _ _ _ Hs1); apply (ti_len _ _ _ (si_tree _ _ Hinv))].
  destruct r as [x|]; [|by destruct (proj2 Hr k z Hz1 Hp)].
  destruct Hr as [(k' & z' & Hk' & Hp' & Hz' & -> & Ht)|(_ & _ & Hno)]; [|by destruct (Hno k z Hz1 Hp)].
  apply At in Hk' as [[-> ->]|[Hne Hk']]; [simpl in Hz'; congruence|].
  exists k', z'. eexists. split; [done|]. split; [done|]. split; [done|]. split; [done|].
  split; [rewrite (st_at _ _ _ _ Ht); by rewrite decide_True|done].
Qed.

(** It returns when the memory of the zombies can be given back. *)
Lemma wait_resume_runs n g j k z c :
  sys_inv n g -> core_at (y_pt g) k = Some z -> c_parent z = Some j -> c_state z = ZOMBIE -> y_cpu g c = Resumed j ->
  (forall k' p, pt_proc (y_pt g) !! k' = Some p -> p_parent p = Some j -> p_state p = ZOMBIE ->
     reapable (sub_get (pt_env (y_pt g))) p) ->
  exists r t, wait_resume j (locked_view g) = Ok r t.
Proof.
  intros Hinv Hz Hp Hzs Hc Hre. destruct (on_core Hinv c j (or_intror Hc)) as (d & Hd & _ & Hrun).
  apply fmap_Some in Hd as (q & Hq & ->), Hz as (p & Hk & ->). simpl in Hrun, Hp, Hzs.
  unfold wait_resume, sleep_resume. change (negb ("ptable" =? "ptable")%string) with false.
  set (s1 := set_procs (<[j := set_p_chan None q]> (pt_proc (y_pt g))) (locked_view g)).
  rewrite (kbind_ok _ _ _ tt s1) by (unfold putp, kbind, kget; cbn; by rewrite Hq).
  destruct (wait_scan_reaps j NPROC 0 false s1) as (pid & t & Esc).
  - cbn. rewrite length_insert. symmetry. apply (ti_len _ _ _ (si_tree _ _ Hinv)).
  - cbn. by apply elem_of_singleton.
  - cbn. intros k' p' Hk'. destruct (decide (k' = j)) as [->|Hne].
    + rewrite list_lookup_insert_eq in Hk' by (by eapply lookup_lt_Some). injection Hk' as <-. cbn. congruence.
    + rewrite list_lookup_insert_ne in Hk' by done. by apply (Hre k').
  - exists k, p. split; [lia|]. split; [|done]. cbn. rewrite list_lookup_insert_ne; [done|]. intros ->. congruence.
  - unfold wait_round. rewrite (kbind_ok _ _ _ _ _ Esc). by eexists _, _.
Qed.

(** C13: Exit wakes wait.  In every reachable state a process asleep in
    [wait] has no zombie child: no exit is missed.  When a process that has
    a zombie child is resumed in [wait], and the kernel stacks and address
    spaces of its zombies can be given back, [wait] returns: it reaps a zombie
    child of its own, returns that child's pid and frees its slot; it neither
    sleeps again nor reports that there is no child nor panics.  Whatever the
    state of the zombies' memory, that is the only result it can return. *)
Theorem exit_wakes_wait g :
  reachable_sys g ->
  (forall j d k z, core_at (y_pt g) j = Some d -> y_kont g j = KWait -> c_state d = SLEEPING ->
     core_at (y_pt g) k = Some z -> c_parent z = Some j -> c_state z <> ZOMBIE) /\
  (forall j k z c, core_at (y_pt g) k = Some z -> c_parent z = Some j -> c_state z = ZOMBIE ->
     y_cpu g c = Resumed j -> y_kont g j = KWait ->
     ((forall k' p, pt_proc (y_pt g) !! k' = Some p -> p_parent p = Some j -> p_state p = ZOMBIE ->
         reapable (sub_get (pt_env (y_pt g))) p) ->
      exists r t, wait_resume j (view {["ptable"%string]} g) = Ok r t) /\
     (forall r t, wait_resume j (view {["ptable"%string]} g) = Ok r t ->
      exists k' z' f, core_at (y_pt g) k' = Some z' /\ c_parent z' = Some j /\ c_state z' = ZOMBIE /\
        r = Some (c_pid z') /\ core_at t k' = Some f /\ c_state f = UNUSED)).
Proof.
  intros [n Hinv]%reachable_sys_inv. split.
  - intros j d k z Hd Hk Hs. by apply (si_wait _ _ Hinv j d Hd Hs Hk).
  - intros j k z c Hz Hp Hzs Hc Hk. split.
    + by apply (wait_resume_runs n g j k z c).
    + intros r t. by apply (wait_resume_result n g j k z c).
Qed.

(** C21: The scheduler does not starve.  As long as no CPU dispatches a
    runnable process [i], it stays runnable whatever the other processes do,
    and each CPU dispatches fewer than NPROC other processes: its scan of the
    table comes to [i] after at most one pass. *)
Theorem scheduler_bounded_wait g i c n g' :
  reachable_sys g -> (i < NPROC)%nat -> runnable (y_pt g) i -> run_without c i n g g' ->
  runnable (y_pt g') i /\ (n < NPROC)%nat.
Proof.
  intros [m Hinv]%reachable_sys_inv Hi Hru Hr.
  destruct (run_without_bound _ _ _ _ _ Hr m Hinv Hi Hru) as [H1 H2]. split; [done|].
  unfold distance in H2. case_decide; lia.
Qed.
End System.

(** ** Witness: init is dispatched and forks *)

Definition demo_symbols : KernelSymbols := {| trapret := 0x80105000; forkret := 0x80104000; initcode_start := 0x8010b460; initcode_size := 44 |}.
Definition demo_files : FileOps kmem := {|
  fo_filedup := fun f => kret f; fo_fileclose := fun _ => kret tt; fo_idup := fun i => kret i; fo_iput := fun _ => kret tt;
  fo_begin_op := kret tt; fo_end_op := kret tt; fo_namei := fun _ => kret (Some 0%nat) |}.
Definition demo_init : proc :=
  mk_proc PGSIZE 0x80300000 0x80302000 RUNNABLE 1 None 0x80302fb4 0x80302f9c None false (replicate NOFILE None) (Some 0%nat) (replicate 16 0).
Definition demo_sys : sys kmem :=
  mk_sys (mk_ptable demo_kmem (demo_init :: replicate 63 proc0) (Some 0%nat) 2 ∅) (fun _ => Idle) (fun _ => KForkret) (fun _ => None).

Lemma demo_booted : booted demo_sys.
Proof.
  split_and!; try done. intros k Hk. destruct k as [|k]; [lia|].
  change (core_at (y_pt demo_sys) (S k)) with (core_of <$> replicate 63 proc0 !! k).
  rewrite lookup_replicate_2 by (unfold NPROC in Hk; lia). done.
Qed.

(** The final state of a run. *)
Definition state_of {S A} (d : S) (o : outcome S A) : S := match o with Ok _ s => s | _ => d end.

#[local] Existing Instance demo_image.
#[local] Existing Instance demo_symbols.
#[local] Existing Instance demo_swap.
#[local] Existing Instance demo_files.
#[local] Instance demo_sub : Sub kmem kmem := sub_refl kmem.

Notation plocked := (view {["ptable"%string]}).
Definition demo_s1 : sys kmem := with_cpu 0 (Scan 0) demo_sys.
Definition demo_t2 : ptable kmem := state_of (y_pt demo_s1) (scheduler_at 0 (plocked demo_s1)).
Definition demo_s2 : sys kmem := with_cpu 0 (Resumed 0) (with_pt demo_t2 demo_s1).
Definition demo_t3 : ptable kmem := state_of demo_t2 (forkret_resume false (kret tt) (plocked demo_s2)).
Definition demo_s3 : sys kmem := with_cpu 0 (User 0) (with_pt demo_t3 demo_s2).
Definition demo_t4 : ptable kmem :=
  state_of demo_t3 (allocproc (view ∅ demo_s3)).
Definition demo_s4 : sys kmem := with_fork 0 (Some 1%nat) (with_pt demo_t4 demo_s3).

Lemma demo_reached : reached 4 demo_s4.
Proof.
  exists demo_sys. split; [exact demo_booted|].
  assert (unlocked demo_sys /\ unlocked demo_s3) as [Hu0 Hu3].
  { split; intros [|c] [i [Hc|Hc]]; try done. }
  assert (scheduler_at 0 (plocked demo_s1) = Ok true demo_t2) as H1 by (vm_compute; reflexivity).
  assert (forkret_resume false (kret tt) (plocked demo_s2) = Ok tt demo_t3) as H2 by (vm_compute; reflexivity).
  assert (allocproc (view ∅ demo_s3) = Ok (Some 1%nat) demo_t4) as H3 by (vm_compute; reflexivity).
  eapply nsteps_l; [exists None; exact (step_start 0 demo_sys eq_refl Hu0)|].
  eapply nsteps_l; [exists (Some (0%nat, 0%nat)); refine (step_dispatch 0 0 demo_s1 demo_t2 eq_refl _ H1); unfold NPROC; lia|].
  eapply nsteps_l; [exists None; exact (step_resume_fork 0 0 demo_s2 demo_t3 eq_refl eq_refl H2)|].
  eapply nsteps_l; [exists None; exact (step_fork 0 0 1 ∅ demo_s3 demo_t4 eq_refl Hu3 eq_refl H3)|].
  apply nsteps_O.
Qed.

Lemma process_tree_witness :
  reached 4 demo_s4 /\ core_at (y_pt demo_s4) 1 = Some (mk_core EMBRYO 2 None None) /\ descends (y_pt demo_s4) 0 /\
  (forall j d, core_at (y_pt demo_s4) j = Some d -> c_state d <> UNUSED -> c_pid d = 2 -> j = 1%nat).
Proof.
  destruct (process_tree 4 demo_s4 demo_reached) as (Hpids & _ & Hdesc & _).
  assert (core_at (y_pt demo_s4) 1 = Some (mk_core EMBRYO 2 None None)) as H1 by (vm_compute; reflexivity).
  split; [exact demo_reached|]. split; [exact H1|]. split.
  - apply (Hdesc 0%nat (mk_core RUNNING 1 None None)); [vm_compute; reflexivity|done|done].
  - intros j d Hj Hd Hp. apply (Hpids ltac:(lia) j 1%nat d _ Hj H1 Hd); [done|exact Hp].
Defined.

(** *** Init forks, waits, and reaps its child

    Between the steps that matter, the processes change their own memory. *)

Definition demo_p5 : proc :=
  mk_proc 0x2000 0x80300000 0x80302000 RUNNING 1 None 0x80302fb4 0x80302f9c None false (replicate NOFILE None) (Some 0%nat) (replicate 16 0).
Definition demo_s5 (e : kmem) : sys kmem :=
  with_pt (set_env e (set_procs (<[0%nat := demo_p5]> (pt_proc (y_pt demo_s4))) (y_pt demo_s4))) demo_s4.

(** The child, with its page directory at [d]. *)
Definition demo_child (d : positive) : proc :=
  mk_proc 0x2000 (Zpos d) demo_p0 RUNNABLE 2 (Some 0%nat) (demo_p0 + 4020) (demo_p0 + 3996) None false (replicate NOFILE None)
    (Some 0%nat) (replicate 16 0).
Definition demo_embryo : proc :=
  mk_proc 0 0 demo_p0 EMBRYO 2 None (demo_p0 + 4020) (demo_p0 + 3996) None false (replicate NOFILE None) None (replicate 16 0).

(** The table with the two processes. *)
Definition demo_two (e : kmem) (h : gset string) (p q : proc) : ptable kmem :=
  mk_ptable e (p :: q :: replicate 62 proc0) (Some 0%nat) 3 h.

Lemma demo_s5_view e : view ∅ (demo_s5 e) = demo_two e ∅ demo_p5 demo_embryo.
Proof. vm_compute. reflexivity. Qed.

Lemma two_put e h p q f : putp 1 f (demo_two e h p q) = Ok tt (demo_two e h p (f q)).
Proof. reflexivity. Qed.
Lemma two_mem e h p q f : mem_op f (demo_two e h p q) = Ok tt (demo_two (set_memory (f (memory e)) e) h p q).
Proof. reflexivity. Qed.

Lemma demo_forks e0 d k : copyuvm 0x80300000 0x2000 e0 = Ok (Zpos d) k ->
  exists e, fork_copy 0 1 (demo_two e0 ∅ demo_p5 demo_embryo) = Ok 2 (demo_two e ∅ demo_p5 (demo_child d)).
Proof.
  intros Ecopy. eexists. unfold fork_copy. rewrite (kbind_ok _ _ _ demo_p5 (demo_two e0 ∅ demo_p5 demo_embryo)) by reflexivity.
  rewrite (kbind_ok _ _ _ (Zpos d) (demo_two k ∅ demo_p5 demo_embryo)) by (unfold env, lift; cbn [sub_get pt_sub pt_env demo_two p_pgdir p_sz demo_p5]; by rewrite Ecopy).
  erewrite kbind_ok by apply two_put. rewrite (kbind_ok _ _ _ (set_p_pgdir (Zpos d) demo_embryo) (demo_two k ∅ demo_p5 (set_p_pgdir (Zpos d) demo_embryo))) by reflexivity.
  cbn [Z.eqb NULL]. do 2 erewrite kbind_ok by apply two_put. do 2 erewrite kbind_ok by apply two_mem.
  do 3 erewrite kbind_ok by reflexivity. do 2 erewrite kbind_ok by apply two_put.
  rewrite (kbind_ok (acquire "ptable") _ _ tt (demo_two _ {["ptable"%string]} demo_p5 _)) by reflexivity.
  erewrite kbind_ok by apply two_put. erewrite kbind_ok by reflexivity. reflexivity.
Qed.

(** The scan of one CPU over slots none of which is runnable. *)
Lemma scan_rest c n : forall i (g : sys kmem), y_cpu g c = Scan i -> (i + n = NPROC)%nat -> length (pt_proc (y_pt g)) = NPROC ->
  (forall k p, (i <= k)%nat -> pt_proc (y_pt g) !! k = Some p -> p_state p <> RUNNABLE) ->
  exists g', rtc some_step g g' /\ y_cpu g' c = Idle /\ (forall d, d <> c -> y_cpu g' d = y_cpu g d) /\
    y_kont g' = y_kont g /\ pt_proc (y_pt g') = pt_proc (y_pt g) /\ pt_env (y_pt g') = pt_env (y_pt g).
Proof.
  induction n as [|n IH]; intros i g Hc Hn Hlen Hno.
  - exists (with_cpu c Idle g). split; [apply rtc_once; exists None; apply (step_end c i); [done|lia]|].
    cbn. rewrite fn_lookup_insert. split; [done|]. split; [|done]. intros d Hd. by rewrite fn_lookup_insert_ne.
  - destruct (lookup_lt_is_Some_2 (pt_proc (y_pt g)) i ltac:(lia)) as [p Hp].
    assert (scheduler_at i (plocked g) = Ok false (plocked g)) as Hs.
    { unfold scheduler_at. rewrite (kbind_ok _ _ _ p (plocked g)) by (unfold getp, kbind, kget, deref; cbn; by rewrite Hp).
      rewrite decide_True; [done|]. apply (Hno i p); [lia|done]. }
    destruct (IH (S i) (with_cpu c (Scan (S i)) (with_pt (plocked g) g))) as (g' & Hr & H1 & H2 & H3); cbn.
    + by rewrite fn_lookup_insert.
    + lia.
    + done.
    + intros k q Hk. apply Hno. lia.
    + exists g'. split; [|split; [done|split; [|done]]].
      * eapply rtc_l; [|exact Hr]. exists None. apply (step_skip c i); [done|lia|done].
      * intros d Hd. rewrite H2 by done. cbn. by rewrite fn_lookup_insert_ne.
Qed.

Section WaitDemo.
Context (e : kmem) (d : positive).
Definition demo_s6 : sys kmem := with_fork 0 None (with_kont 1 KForkret (with_pt (demo_two e ∅ demo_p5 (demo_child d)) (demo_s5 demo_parent))).
Definition demo_t7 : ptable kmem := state_of (y_pt demo_s6) (wait 0 (view ∅ demo_s6)).
Definition demo_s7 : sys kmem := with_cpu 0 (Scan 1) (with_kont 0 KWait (with_pt demo_t7 demo_s6)).
Definition demo_t8 : ptable kmem := state_of demo_t7 (scheduler_at 1 (plocked demo_s7)).
Definition demo_s8 : sys kmem := with_cpu 0 (Resumed 1) (with_pt demo_t8 demo_s7).
Definition demo_t9 : ptable kmem := state_of demo_t8 (forkret_resume false (kret tt) (plocked demo_s8)).
Definition demo_s9 : sys kmem := with_cpu 0 (User 1) (with_pt demo_t9 demo_s8).
(** The child, now in the memory of [demo_machine]. *)
Definition demo_p10 : proc := set_p_kstack demo_stack (set_p_pgdir demo_dir (set_p_state RUNNING (demo_child d))).
Definition demo_s10 (m : kmem) : sys kmem :=
  with_pt (set_env m (set_procs (<[1%nat := demo_p10]> (pt_proc (y_pt demo_s9))) (y_pt demo_s9))) demo_s9.
Definition demo_t11 (m : kmem) : ptable kmem := state_of demo_t9 (exit_table 1 (view ∅ (demo_s10 m))).
Definition demo_s11 (m : kmem) : sys kmem := with_cpu 0 (Scan 2) (with_pt (demo_t11 m) (demo_s10 m)).

Lemma demo_asleep : reachable_sys demo_s6 -> reachable_sys demo_s7.
Proof.
  intros (g0 & Hb & Hr). exists g0. split; [done|]. eapply rtc_r; [exact Hr|]. exists None.
  refine (step_wait_sleep 0 0 ∅ demo_s6 demo_t7 eq_refl _ eq_refl _); [intros [|c] [i [Hc|Hc]]; done|vm_compute; reflexivity].
Qed.

Lemma demo_exits m : reachable_sys demo_s7 -> reachable_sys (demo_s11 m).
Proof.
  intros (g0 & Hb & Hr). exists g0. split; [done|]. etrans; [exact Hr|].
  eapply rtc_l; [exists (Some (0%nat, 1%nat)); refine (step_dispatch 0 1 demo_s7 demo_t8 eq_refl _ _); [unfold NPROC; lia|vm_compute; reflexivity]|].
  eapply rtc_l; [exists None; refine (step_resume_fork 0 1 demo_s8 demo_t9 eq_refl eq_refl _); vm_compute; reflexivity|].
  eapply rtc_l; [exists None; refine (step_local 0 1 (set_p_state RUNNING (demo_child d)) demo_p10 m demo_s9 eq_refl _ eq_refl); vm_compute; reflexivity|].
  eapply rtc_l; [exists None; refine (step_exit 0 1 ∅ (demo_s10 m) (demo_t11 m) eq_refl _ eq_refl _ _)|apply rtc_refl];
    [intros [|c] [i [Hc|Hc]]; done|vm_compute; discriminate|vm_compute; reflexivity].
Qed.
End WaitDemo.
(** The parent is dispatched, in [wait], with its child a zombie. *)
Lemma demo_resumed e d m : reachable_sys (demo_s11 e d m) -> exists g, reachable_sys g /\ y_cpu g 0%nat = Resumed 0 /\ y_kont g 0%nat = KWait /\
  pt_env (y_pt g) = m /\ pt_proc (y_pt g) = set_p_chan (Some (ChProc 0)) demo_p5 :: set_p_state ZOMBIE (demo_p10 d) :: replicate 62 proc0.
Proof.
  intros (g0 & Hb & Hr).
  assert (pt_proc (y_pt (demo_s11 e d m)) = set_p_state RUNNABLE (set_p_chan (Some (ChProc 0)) demo_p5) :: set_p_state ZOMBIE (demo_p10 d) :: replicate 62 proc0) as Ep
    by (vm_compute; reflexivity).
  destruct (scan_rest 0 62 2 (demo_s11 e d m)) as (g & Hg & H1 & H2 & H3 & H4 & H5).
  - reflexivity.
  - reflexivity.
  - by rewrite Ep.
  - rewrite Ep. intros [|[|k]] p Hk; [lia..|]. cbn -[replicate]. intros [-> _]%lookup_replicate. done.
  - rewrite Ep in H4. assert (pt_env (y_pt (demo_s11 e d m)) = m) as Em by (vm_compute; reflexivity). rewrite Em in H5.
    set (g1 := with_cpu 0 (Scan 0) g).
    set (t := set_procs (set_p_chan (Some (ChProc 0)) demo_p5 :: set_p_state ZOMBIE (demo_p10 d) :: replicate 62 proc0) (plocked g1)).
    assert (scheduler_at 0 (plocked g1) = Ok true t) as Hs.
    { assert (plocked g1 = mk_ptable (pt_env (y_pt g)) (pt_proc (y_pt g)) (pt_initproc (y_pt g)) (pt_nextpid (y_pt g)) {["ptable"%string]}) as Ev by reflexivity.
      unfold t. rewrite Ev, H4. vm_compute. reflexivity. }
    exists (with_cpu 0 (Resumed 0) (with_pt t g1)). split; [|split; [done|split; [|split; [|done]]]].
    + exists g0. split; [done|]. etrans; [exact Hr|]. etrans; [exact Hg|].
      eapply rtc_l; [exists None; refine (step_start 0 g H1 _)|].
      { intros [|c] [i Hc]; [rewrite H1 in Hc; by destruct Hc|]. rewrite H2 in Hc by done. by destruct Hc. }
      apply rtc_once. exists (Some (0%nat, 0%nat)). apply (step_dispatch 0 0 g1 t); [done|unfold NPROC; lia|done].
    + cbn. rewrite H3. reflexivity.
    + exact H5.
Qed.

(** Init asleep in [wait] while its child lives; and init resumed in [wait]
    after the child's exit: it returns the child's pid. *)
Lemma exit_wakes_wait_witness :
  (exists g z, reachable_sys g /\ y_kont g 0%nat = KWait /\
     core_at (y_pt g) 0 = Some (mk_core SLEEPING 1 None (Some (ChProc 0))) /\
     core_at (y_pt g) 1 = Some z /\ c_parent z = Some 0%nat /\ c_state z <> ZOMBIE) /\
  (exists g t, reachable_sys g /\ y_cpu g 0%nat = Resumed 0 /\ wait_resume 0 (plocked g) = Ok (Some 2) t).
Proof.
  destruct demo_copy as (d & k & Ecopy & Hd). destruct d as [|d|d]; [discriminate Hd| |discriminate Hd].
  destruct (demo_forks _ _ _ Ecopy) as (e & Efork).
  assert (reachable_sys (demo_s6 e d)) as H6.
  { destruct demo_reached as (g0 & Hb & Hn). assert (rtc some_step g0 demo_s4) as Hr by (apply rtc_nsteps; by exists 4%nat). exists g0. split; [done|]. etrans; [exact Hr|].
    eapply rtc_l; [exists None; refine (step_local 0 0 (set_p_state RUNNING demo_init) demo_p5 demo_parent demo_s4 eq_refl _ eq_refl); vm_compute; reflexivity|].
    apply rtc_once. exists None. refine (step_fork_copy 0 0 1 2 ∅ (demo_s5 demo_parent) _ eq_refl _ eq_refl _); [intros [|c] [i [Hc|Hc]]; done|].
    rewrite demo_s5_view. exact Efork. }
  pose proof (demo_asleep e d H6) as H7. pose proof (demo_exits e d demo_machine H7) as H11.
  destruct (demo_resumed e d demo_machine H11) as (g & Hg & Hc & Hk & Henv & Hps).
  split.
  - assert (core_at (y_pt (demo_s7 e d)) 0 = Some (mk_core SLEEPING 1 None (Some (ChProc 0)))) as Hd0 by (vm_compute; reflexivity).
    assert (core_at (y_pt (demo_s7 e d)) 1 = Some (core_of (demo_child d))) as Hd1 by (vm_compute; reflexivity).
    exists (demo_s7 e d), (core_of (demo_child d)). split; [exact H7|]. split; [reflexivity|]. split; [exact Hd0|]. split; [exact Hd1|]. split; [reflexivity|].
    exact (proj1 (exit_wakes_wait (demo_s7 e d) H7) 0%nat _ 1%nat _ Hd0 eq_refl eq_refl Hd1 eq_refl).
  - assert (forall i q, pt_proc (y_pt g) !! i = Some q -> p_parent q = Some 0%nat -> i = 1%nat /\ q = set_p_state ZOMBIE (demo_p10 d)) as Honly.
    { rewrite Hps. intros [|[|i]] q; cbn -[replicate]; [intros [= <-]; discriminate|intros [= <-] _; split; reflexivity|intros [-> _]%lookup_replicate; discriminate]. }
    assert (core_at (y_pt g) 1 = Some (core_of (set_p_state ZOMBIE (demo_p10 d)))) as H1 by (unfold core_at; rewrite Hps; reflexivity).
    destruct (proj2 (exit_wakes_wait g Hg) 0%nat 1%nat _ 0%nat H1 eq_refl eq_refl Hc Hk) as [Hrun Hres].
    destruct Hrun as (r & t & E).
    { intros i q Hq Hp _. destruct (Honly i q Hq Hp) as [-> ->]. rewrite Henv. exists demo_free, ∅. exact demo_machine_freeable. }
    destruct (Hres r t E) as (k' & z' & f & Hz' & Hp' & _ & -> & _). exists g, t. split; [exact Hg|]. split; [exact Hc|].
    unfold core_at in Hz'. apply fmap_Some in Hz' as (q & Hq & ->). destruct (Honly k' q Hq Hp') as [-> ->]. exact E.
Defined.

Lemma scheduler_bounded_wait_witness : runnable (y_pt demo_s1) 0.
Proof.
  assert (unlocked demo_sys) as Hu0 by (intros [|c] [i [Hc|Hc]]; done).
  assert (run_without 0 0 0 demo_sys demo_s1) as Hr.
  { eapply (rw_other 0 0 None); [exact (step_start 0 demo_sys eq_refl Hu0)|done|done|apply rw_nil]. }
  assert (reachable_sys demo_sys) as Hs by (exists demo_sys; split; [exact demo_booted|apply rtc_refl]).
  assert (0 < NPROC)%nat as Hn by (unfold NPROC; lia).
  assert (runnable (y_pt demo_sys) 0) as H0 by (eexists; split; [vm_compute; reflexivity|done]).
  exact (proj1 (scheduler_bounded_wait demo_sys 0 0 0 demo_s1 Hs Hn H0 Hr)).
Defined.

(** [kill(0)] finds an unused slot, whose pid is 0, and marks it killed; the
    next process to get the slot is born killed. *)
Theorem kill_zero_marks_newborn :
  exists t u p, kill 0 (y_pt demo_s3) = Ok 0 t /\ allocproc t = Ok (Some 1%nat) u /\
    pt_proc u !! 1%nat = Some p /\ p_state p = EMBRYO /\ p_killed p = true.
Proof.
  eexists (state_of demo_t3 (kill 0 (y_pt demo_s3))), _, _. split; [vm_compute; reflexivity|].
  split; [vm_compute; reflexivity|]. split; [vm_compute; reflexivity|]. split; reflexivity.
Qed.
