(* ===== verification/Pipe.v ===== *)
(** * Pipes (pipe.c)

    [pipewrite] and [piperead] as they run under the pipe's lock, from the
    start or from the return of [sleep] up to their return or the next call
    of [sleep].  The bounded queue of bytes is their specification; the
    system of readers and writers shares one pipe. *)

From stdpp Require Import functions.
From S2P Require Import Prelude.

Definition PIPESIZE : Z := 512.

Record pipe := mk_pipe {
  data : list Z;              (* data[PIPESIZE] *)
  nread : Z;
  nwrite : Z;
  readopen : bool;
  writeopen : bool
}.

(** [pipealloc]: the new pipe. *)
Definition new_pipe (page : list Z) : pipe := mk_pipe page 0 0 true true.

(** How a call ends: it returns, or sleeps with the bytes still to write.  A
    call that returns a count or sleeps has woken the other side. *)
Inductive wresult := WRet (n : Z) | WErr | WSleep (rest : list Z).
Inductive rresult := RRet (bs : list Z) | RErr | RSleep.

Definition put_byte (b : Z) (p : pipe) : pipe :=
  mk_pipe (<[Z.to_nat (nwrite p mod PIPESIZE) := b]> (data p)) (nread p) (u32 (nwrite p + 1)) (readopen p) (writeopen p).
Definition head_byte (p : pipe) : Z := data p !!! Z.to_nat (nread p mod PIPESIZE).
Definition drop_byte (p : pipe) : pipe :=
  mk_pipe (data p) (u32 (nread p + 1)) (nwrite p) (readopen p) (writeopen p).

(** The loop of [pipewrite]; [n] is the length of the whole write. *)
Fixpoint pipewrite_loop (killed : bool) (n : Z) (bs : list Z) (p : pipe) : pipe * wresult :=
  match bs with
  | [] => (p, WRet n)
  | b :: bs' =>
      if nwrite p =? u32 (nread p + PIPESIZE) then
        if negb (readopen p) || killed then (p, WErr)
        else (p, WSleep bs)
      else pipewrite_loop killed n bs' (put_byte b p)
  end.
Definition pipewrite (killed : bool) (bs : list Z) (p : pipe) : pipe * wresult :=
  pipewrite_loop killed (Z.of_nat (length bs)) bs p.

Fixpoint piperead_loop (n : nat) (p : pipe) : pipe * list Z :=
  match n with
  | O => (p, [])
  | S n' =>
      if nread p =? nwrite p then (p, [])
      else let '(p', bs) := piperead_loop n' (drop_byte p) in (p', head_byte p :: bs)
  end.
Definition piperead (killed : bool) (n : nat) (p : pipe) : pipe * rresult :=
  if (nread p =? nwrite p) && writeopen p then
    if killed then (p, RErr) else (p, RSleep)
  else let '(p', bs) := piperead_loop n p in (p', RRet bs).

(** [pipeclose]; the flag tells whether the page is freed. *)
Definition pipeclose (writable : bool) (p : pipe) : pipe * bool :=
  let p' := if writable then mk_pipe (data p) (nread p) (nwrite p) (readopen p) false
            else mk_pipe (data p) (nread p) (nwrite p) false (writeopen p) in
  (p', negb (readopen p') && negb (writeopen p')).

(** ** The specification: a bounded queue *)

Record queue := mk_queue { q_bytes : list Z; q_ropen : bool; q_wopen : bool }.

Definition room (q : queue) : nat := (512 - length (q_bytes q))%nat.
Definition q_write (killed : bool) (bs : list Z) (n : Z) (q : queue) : queue * wresult :=
  (mk_queue (q_bytes q ++ take (room q) bs) (q_ropen q) (q_wopen q),
   if decide (length bs <= room q)%nat then WRet n
   else if negb (q_ropen q) || killed then WErr else WSleep (drop (room q) bs)).
Definition q_read (killed : bool) (n : nat) (q : queue) : queue * rresult :=
  if decide (q_bytes q = [] /\ q_wopen q = true) then (q, if killed then RErr else RSleep)
  else (mk_queue (drop n (q_bytes q)) (q_ropen q) (q_wopen q), RRet (take n (q_bytes q))).

(** The bytes a pipe holds: [nwrite - nread] of them, modulo 2^32. *)
Definition used (p : pipe) : Z := u32 (nwrite p - nread p).
Definition contents (p : pipe) : list Z :=
  (fun k => data p !!! Z.to_nat ((nread p + k) mod PIPESIZE)) <$> seqZ 0 (used p).
Definition abs (p : pipe) : queue := mk_queue (contents p) (readopen p) (writeopen p).

Record pipe_ok (p : pipe) : Prop := {
  po_data : length (data p) = 512%nat;
  po_nread : 0 <= nread p < 2 ^ 32;
  po_nwrite : 0 <= nwrite p < 2 ^ 32;
  po_used : used p <= PIPESIZE
}.

Lemma used_range p : 0 <= used p.
Proof. apply u32_range. Qed.

Lemma contents_length p : length (contents p) = Z.to_nat (used p).
Proof. unfold contents. by rewrite length_fmap, length_seqZ. Qed.

(** The counters, modulo their wrap-around. *)
Lemma counters p : pipe_ok p -> exists w, nwrite p = u32 (nread p + used p) /\ nwrite p = nread p + used p - w * 2 ^ 32 /\ (w = 0 \/ w = 1).
Proof.
  intros [_ Hr Hw Hu]. unfold used, u32, PIPESIZE in *.
  destruct (Z.le_gt_cases (nread p) (nwrite p)).
  - exists 0. rewrite (Z.mod_small (nwrite p - nread p)) by lia. split; [|lia].
    rewrite Z.mod_small; lia.
  - exists 1. assert ((nwrite p - nread p) mod 2 ^ 32 = nwrite p - nread p + 2 ^ 32) as ->
      by (symmetry; apply Z.mod_unique with (-1); lia).
    split; [|lia]. apply Z.mod_unique with 1; lia.
Qed.

Lemma full_test p : pipe_ok p -> (nwrite p =? u32 (nread p + PIPESIZE)) = bool_decide (used p = PIPESIZE).
Proof.
  intros Hp. destruct (counters p Hp) as (w & E & E' & Hw). destruct Hp as [_ Hr Hw' Hu]. pose proof (used_range p) as H0.
  unfold PIPESIZE in *. case_bool_decide as Hc; [rewrite E, Hc; apply Z.eqb_refl|]. apply Z.eqb_neq.
  rewrite E. unfold u32. intros Hm.
  assert (0 = (512 - used p) mod 2 ^ 32) as Hz; [|rewrite Z.mod_small in Hz; lia].
  replace (512 - used p) with ((nread p + 512) - (nread p + used p)) by lia.
  rewrite Zminus_mod, <- Hm, Z.sub_diag. done.
Qed.

Lemma empty_test p : pipe_ok p -> (nread p =? nwrite p) = bool_decide (used p = 0).
Proof.
  intros Hp. destruct (counters p Hp) as (w & _ & E & Hw). destruct Hp as [_ Hr Hw' Hu]. pose proof (used_range p) as H0.
  unfold PIPESIZE in *. case_bool_decide as Hc; [apply Z.eqb_eq|apply Z.eqb_neq]; lia.
Qed.

Lemma mod_pipe_inj a b : a mod PIPESIZE = b mod PIPESIZE -> - PIPESIZE < a - b < PIPESIZE -> a = b.
Proof.
  unfold PIPESIZE. intros Hm Hr. assert ((a - b) mod 512 = 0) as H0 by (rewrite Zminus_mod, Hm, Z.sub_diag; done).
  apply Z.mod_divide in H0 as [q Hq]; lia.
Qed.

Lemma write_slot p : pipe_ok p -> nwrite p mod PIPESIZE = (nread p + used p) mod PIPESIZE.
Proof.
  intros Hp. destruct (counters p Hp) as (w & _ & -> & _). unfold PIPESIZE.
  replace (nread p + used p - w * 2 ^ 32) with (nread p + used p + (- w * 8388608) * 512) by lia.
  by rewrite Z.mod_add.
Qed.

Lemma slot_lt a : (Z.to_nat (a mod PIPESIZE) < 512)%nat.
Proof. unfold PIPESIZE. pose proof (Z.mod_pos_bound a 512). lia. Qed.

Lemma used_put b p : pipe_ok p -> used p < PIPESIZE -> used (put_byte b p) = used p + 1.
Proof.
  intros Hp Hu. unfold used. simpl. rewrite u32_sub_l.
  replace (nwrite p + 1 - nread p) with (nwrite p - nread p + 1) by lia.
  rewrite <- u32_add_l. fold (used p). pose proof (used_range p). unfold PIPESIZE in Hu. rewrite u32_id; lia.
Qed.

Lemma put_byte_ok b p :
  pipe_ok p -> used p < PIPESIZE -> pipe_ok (put_byte b p) /\ contents (put_byte b p) = contents p ++ [b].
Proof.
  intros Hp Hu. pose proof Hp as [Hd Hr Hw _]. pose proof (used_range p) as H0. split.
  - split; [simpl; by rewrite length_insert|done|apply u32_range|rewrite used_put by done; lia].
  - unfold contents. rewrite used_put by done.
    rewrite seqZ_app, fmap_app by lia. f_equal.
    + apply list_fmap_ext. intros k x [-> Hx]%lookup_seqZ. apply list_lookup_total_insert_ne.
      intros E. apply Z2Nat.inj in E; try (apply Z.mod_pos_bound; done).
      rewrite write_slot in E by done. apply mod_pipe_inj in E; lia.
    + simpl. f_equal. rewrite <- write_slot by done. rewrite list_lookup_total_insert_eq; [done|].
      rewrite Hd. apply slot_lt.
Qed.

Lemma used_drop p : pipe_ok p -> 0 < used p -> used (drop_byte p) = used p - 1.
Proof.
  intros Hp Hu. unfold used. simpl. rewrite u32_sub_r.
  replace (nwrite p - (nread p + 1)) with (nwrite p - nread p - 1) by lia.
  rewrite <- u32_sub_l. fold (used p). pose proof (po_used p Hp). unfold PIPESIZE in *. rewrite u32_id; lia.
Qed.

Lemma drop_byte_ok p :
  pipe_ok p -> 0 < used p -> pipe_ok (drop_byte p) /\ contents p = head_byte p :: contents (drop_byte p).
Proof.
  intros Hp Hu. pose proof Hp as [Hd Hr Hw Hle]. split.
  - split; [done|apply u32_range|done|rewrite used_drop by done; lia].
  - unfold contents. rewrite used_drop by done. rewrite (seqZ_cons 0 (used p)) by done. rewrite fmap_cons. f_equal.
    + unfold head_byte. by rewrite Z.add_0_r.
    + change (Z.succ 0) with 1. replace (Z.pred (used p)) with (used p - 1) by lia.
      change 1 with (1 + 0) at 1. rewrite <- fmap_add_seqZ, <- list_fmap_compose. apply list_fmap_ext.
      intros k x _. simpl. do 2 f_equal. unfold u32. unfold PIPESIZE.
      replace (2 ^ 32) with (512 * 8388608) by done. rewrite Z.rem_mul_r by done.
      rewrite <- Zplus_mod_idemp_l with (a := (nread p + 1) mod 512 + _).
      rewrite (Z.mul_comm 512), Z.mod_add by done. rewrite Z.mod_mod by done. rewrite Zplus_mod_idemp_l. f_equal. lia.
Qed.

Lemma contents_full p : pipe_ok p -> used p = PIPESIZE -> room (abs p) = 0%nat.
Proof. intros Hp E. unfold room. simpl. rewrite contents_length, E. done. Qed.

Lemma pipewrite_loop_spec killed n bs p :
  pipe_ok p -> let '(p', r) := pipewrite_loop killed n bs p in
  pipe_ok p' /\ (abs p', r) = q_write killed bs n (abs p).
Proof.
  revert p. induction bs as [|b bs IH]; intros p Hp; simpl.
  - split; [done|]. unfold q_write. rewrite take_nil, app_nil_r, decide_True by (simpl; lia). done.
  - rewrite (full_test p Hp). case_bool_decide as Hf.
    + assert (q_write killed (b :: bs) n (abs p) =
        (abs p, if negb (readopen p) || killed then WErr else WSleep (b :: bs))) as ->.
      { unfold q_write. rewrite (contents_full p Hp Hf). rewrite decide_False by (simpl; lia).
        rewrite take_0, drop_0, app_nil_r. done. }
      by destruct (negb (readopen p) || killed).
    + assert (used p < PIPESIZE) as Hlt by (pose proof (po_used p Hp); lia).
      destruct (put_byte_ok b p Hp Hlt) as [Hp' Hc]. specialize (IH (put_byte b p) Hp').
      destruct (pipewrite_loop killed n bs (put_byte b p)) as [p' r]. destruct IH as [Hok ->]. split; [done|].
      assert (room (abs p) = S (room (abs (put_byte b p)))) as Hroom.
      { unfold room. simpl. rewrite !contents_length, (used_put b p Hp Hlt). unfold PIPESIZE in *. pose proof (used_range p). lia. }
      unfold q_write. rewrite Hroom. simpl. rewrite Hc, <- app_assoc. simpl. f_equal.
      repeat case_decide; try done; lia.
Qed.

Lemma piperead_loop_spec n p :
  pipe_ok p -> let '(p', bs) := piperead_loop n p in
  pipe_ok p' /\ bs = take n (contents p) /\ abs p' = mk_queue (drop n (contents p)) (readopen p) (writeopen p).
Proof.
  revert p. induction n as [|n IH]; intros p Hp; simpl.
  - rewrite take_0, drop_0. done.
  - rewrite (empty_test p Hp). case_bool_decide as He.
    + assert (contents p = []) as Hc by (apply length_zero_iff_nil; by rewrite contents_length, He).
      unfold abs. rewrite Hc, take_nil, drop_nil. done.
    + assert (0 < used p) as Hlt by (pose proof (used_range p); lia).
      destruct (drop_byte_ok p Hp Hlt) as [Hp' Hc]. specialize (IH (drop_byte p) Hp').
      destruct (piperead_loop n (drop_byte p)) as [p' bs]. destruct IH as (Hok & -> & Ha). rewrite Hc. done.
Qed.

Lemma piperead_spec killed n p :
  pipe_ok p -> let '(p', r) := piperead killed n p in pipe_ok p' /\ (abs p', r) = q_read killed n (abs p).
Proof.
  intros Hp. unfold piperead, q_read. rewrite (empty_test p Hp).
  assert (used p = 0 <-> contents p = []) as He.
  { rewrite <- length_zero_iff_nil, contents_length. pose proof (used_range p). lia. }
  destruct (bool_decide (used p = 0) && writeopen p) eqn:Hb.
  - boolify. rewrite decide_True by (split; [by apply He|done]). by destruct killed.
  - rewrite decide_False.
    + pose proof (piperead_loop_spec n p Hp) as Hl. destruct (piperead_loop n p) as [p' bs].
      destruct Hl as (Hok & -> & ->). done.
    + simpl. intros [Hc Hw]. apply He in Hc. rewrite bool_decide_true, Hw in Hb by done. done.
Qed.

(** C20: A pipe is a bounded queue of bytes.  From any well-formed pipe, whatever
    its 32-bit counters, including when they wrap around, [pipewrite]
    appends as many bytes as fit in 512, and returns, sleeps or fails
    exactly when the queue would; [piperead] takes the bytes from the
    front, and sleeps exactly when the queue is empty and a writer is left. *)
Theorem pipe_refines_queue killed bs n p :
  pipe_ok p ->
  (let '(p', r) := pipewrite killed bs p in
     pipe_ok p' /\ (abs p', r) = q_write killed bs (Z.of_nat (length bs)) (abs p)) /\
  (let '(p', r) := piperead killed n p in
     pipe_ok p' /\ (abs p', r) = q_read killed n (abs p)).
Proof. intros Hp. split; [by apply pipewrite_loop_spec|by apply piperead_spec]. Qed.

(** The counters about to wrap: four bytes in, two out. *)
Definition demo_pipe : pipe := mk_pipe (replicate 512 0) (2 ^ 32 - 2) (2 ^ 32 - 2) true true.

Lemma pipe_refines_queue_witness :
  pipe_ok demo_pipe /\ contents (fst (pipewrite false [1; 2; 3; 4] demo_pipe)) = [1; 2; 3; 4] /\
  nwrite (fst (pipewrite false [1; 2; 3; 4] demo_pipe)) = 2 /\
  snd (piperead false 2 (fst (pipewrite false [1; 2; 3; 4] demo_pipe))) = RRet [1; 2].
Proof.
  assert (pipe_ok demo_pipe) as Hp by (split; vm_compute; try done; by split).
  destruct (pipe_refines_queue false [1; 2; 3; 4] 2 demo_pipe Hp) as [H1 _].
  assert (snd (pipewrite false [1; 2; 3; 4] demo_pipe) = WRet 4) as Hr by (vm_compute; reflexivity).
  assert (nwrite (fst (pipewrite false [1; 2; 3; 4] demo_pipe)) = 2) as Hn by (vm_compute; reflexivity).
  assert (snd (piperead false 2 (fst (pipewrite false [1; 2; 3; 4] demo_pipe))) = RRet [1; 2]) as Hrd by (vm_compute; reflexivity).
  split; [exact Hp|]. split; [|split; [exact Hn|exact Hrd]].
  destruct (pipewrite false [1; 2; 3; 4] demo_pipe) as [p' r]. destruct H1 as [_ H1].
  apply (f_equal (fun x => q_bytes (fst x))) in H1. exact H1.
Defined.

(** ** Readers and writers

    The threads that use one pipe; each call runs under the pipe's lock until
    it returns or sleeps. *)

Inductive thread :=
| TIdle
| TWrite (asleep : bool) (n : Z) (rest : list Z)
| TRead (asleep : bool) (n : nat).

Record psys := mk_psys {
  s_pipe : pipe;
  s_thr : nat -> thread;
  s_killed : nat -> bool;
  s_sent : list Z;              (* every byte put into the pipe so far *)
  s_recv : list Z;              (* every byte taken out *)
  s_failed : bool               (* a killed writer has returned -1 *)
}.

Definition wake_reader (x : thread) : thread := match x with TRead _ n => TRead false n | _ => x end.
Definition wake_writer (x : thread) : thread := match x with TWrite _ n r => TWrite false n r | _ => x end.

Definition run_write (t : nat) (n : Z) (bs : list Z) (s : psys) : psys :=
  let '(p', r) := pipewrite_loop (s_killed s t) n bs (s_pipe s) in
  let sent := s_sent s ++ take (Z.to_nat (used p' - used (s_pipe s))) bs in
  match r with
  | WRet _ => mk_psys p' (<[t := TIdle]> (wake_reader ∘ s_thr s)) (s_killed s) sent (s_recv s) (s_failed s)
  | WErr => mk_psys p' (<[t := TIdle]> (s_thr s)) (s_killed s) sent (s_recv s) (s_failed s || readopen (s_pipe s))
  | WSleep rest => mk_psys p' (<[t := TWrite true n rest]> (wake_reader ∘ s_thr s)) (s_killed s) sent (s_recv s) (s_failed s)
  end.

Definition run_read (t : nat) (n : nat) (s : psys) : psys :=
  let '(p', r) := piperead (s_killed s t) n (s_pipe s) in
  match r with
  | RRet bs => mk_psys p' (<[t := TIdle]> (wake_writer ∘ s_thr s)) (s_killed s) (s_sent s) (s_recv s ++ bs) (s_failed s)
  | RErr => mk_psys p' (<[t := TIdle]> (s_thr s)) (s_killed s) (s_sent s) (s_recv s) (s_failed s)
  | RSleep => mk_psys p' (<[t := TRead true n]> (s_thr s)) (s_killed s) (s_sent s) (s_recv s) (s_failed s)
  end.

Definition run_close (w : bool) (s : psys) : psys :=
  mk_psys (fst (pipeclose w (s_pipe s))) ((if w then wake_reader else wake_writer) ∘ s_thr s)
    (s_killed s) (s_sent s) (s_recv s) (s_failed s).

(** [kill] marks a thread and wakes it. *)
Definition run_kill (t : nat) (s : psys) : psys :=
  mk_psys (s_pipe s) (<[t := wake_reader (wake_writer (s_thr s t))]> (s_thr s)) (<[t := true]> (s_killed s))
    (s_sent s) (s_recv s) (s_failed s).

(** An end is closed with the last reference to it, so by no thread inside a
    call on that end. *)
Inductive pstep : psys -> psys -> Prop :=
| ps_write t bs s : s_thr s t = TIdle -> writeopen (s_pipe s) = true -> pstep s (run_write t (Z.of_nat (length bs)) bs s)
| ps_write_resume t n rest s : s_thr s t = TWrite false n rest -> pstep s (run_write t n rest s)
| ps_read t n s : s_thr s t = TIdle -> readopen (s_pipe s) = true -> pstep s (run_read t n s)
| ps_read_resume t n s : s_thr s t = TRead false n -> pstep s (run_read t n s)
| ps_close_write s : (forall t a n r, s_thr s t <> TWrite a n r) -> pstep s (run_close true s)
| ps_close_read s : (forall t a n, s_thr s t <> TRead a n) -> pstep s (run_close false s)
| ps_kill t s : pstep s (run_kill t s).

Definition pipe_start (page : list Z) : psys :=
  mk_psys (new_pipe page) (fun _ => TIdle) (fun _ => false) [] [] false.
Definition preach (page : list Z) : psys -> Prop := rtc pstep (pipe_start page).

Record psys_inv (s : psys) : Prop := {
  pi_ok : pipe_ok (s_pipe s);
  pi_fifo : s_sent s = s_recv s ++ contents (s_pipe s);
  pi_write : forall t n r, s_thr s t = TWrite true n r ->
    used (s_pipe s) = PIPESIZE /\ readopen (s_pipe s) = true;
  pi_read : forall t n, s_failed s = false -> s_thr s t = TRead true n ->
    contents (s_pipe s) = [] /\ writeopen (s_pipe s) = true;
  pi_open : forall t a n, s_thr s t = TRead a n -> readopen (s_pipe s) = true
}.

(** What a write leaves: the bytes that fit, accounted as sent. *)
Lemma write_effect killed n bs p p' r :
  pipe_ok p -> pipewrite_loop killed n bs p = (p', r) ->
  pipe_ok p' /\ contents p' = contents p ++ take (Z.to_nat (used p' - used p)) bs /\
  readopen p' = readopen p /\ writeopen p' = writeopen p /\
  (used p = PIPESIZE -> used p' = PIPESIZE) /\
  match r with
  | WRet _ => True
  | WErr => readopen p = false \/ killed = true
  | WSleep rest => used p' = PIPESIZE /\ readopen p = true
  end.
Proof.
  intros Hok El. pose proof (pipewrite_loop_spec killed n bs p Hok) as Hl. rewrite El in Hl. destruct Hl as [Hok' Ha].
  unfold q_write in Ha. injection Ha as Hc Ho1 Ho2 Hres. simpl in Hc.
  set (k := room (abs p)) in *. assert ((512 - length (contents p))%nat = k) as Hk by done. clearbody k.
  pose proof (po_used _ Hok). pose proof (used_range p). pose proof (used_range p'). rewrite contents_length in Hk.
  assert (used p' = used p + Z.of_nat (length (take k bs))) as Hused.
  { pose proof (f_equal length Hc) as E. rewrite length_app, !contents_length in E. lia. }
  assert (take (Z.to_nat (used p' - used p)) bs = take k bs) as Ht.
  { rewrite Hused. replace (Z.to_nat _) with (length (take k bs)) by lia. rewrite length_take.
    destruct (Nat.le_ge_cases k (length bs)); [by rewrite Nat.min_l by lia|].
    rewrite Nat.min_r by lia. by rewrite !take_ge by lia. }
  rewrite Ht. rewrite length_take in Hused. unfold PIPESIZE in *.
  split; [done|]. split; [done|]. split; [done|]. split; [done|]. split; [lia|].
  case_decide as Hd; [by subst r|]. simpl in Hres. destruct (readopen p) eqn:Hro, killed; simpl in Hres; subst r; auto.
  split; [lia|done].
Qed.

Ltac at_thread t :=
  let u := fresh "u" in
  intros u; destruct (decide (u = t)) as [->|?];
  [rewrite fn_lookup_insert|rewrite fn_lookup_insert_ne by done; unfold compose; destruct (s_thr _ u) eqn:?].

Lemma inv_write t n bs s : psys_inv s -> psys_inv (run_write t n bs s).
Proof.
  intros [Hok Hf Hw Hr Ho]. unfold run_write.
  destruct (pipewrite_loop (s_killed s t) n bs (s_pipe s)) as [p' r] eqn:El.
  destruct (write_effect _ _ _ _ _ _ Hok El) as (Hok' & Hc & E1 & E2 & Hfull & Hres). clear El.
  assert (s_sent s ++ take (Z.to_nat (used p' - used (s_pipe s))) bs = s_recv s ++ contents p') as Hfifo
    by (by rewrite Hf, Hc, app_assoc).
  assert (forall u n' r', s_thr s u = TWrite true n' r' -> used p' = PIPESIZE /\ readopen p' = true) as Hw'.
  { intros u n' r' Hu. destruct (Hw u n' r' Hu) as [E3 E4]. split; [by apply Hfull|congruence]. }
  destruct r as [m| |rest]; (split; [done|done|..]); simpl.
  - at_thread t; naive_solver.
  - at_thread t; naive_solver.
  - at_thread t; naive_solver congruence.
  - at_thread t; naive_solver.
  - at_thread t; try done. intros n' [Hfa Hro]%orb_false_iff [= -> ->]. exfalso.
    assert (readopen (s_pipe s) = true) by (by eapply Ho). congruence.
  - at_thread t; naive_solver congruence.
  - at_thread t; naive_solver congruence.
  - at_thread t; naive_solver.
  - at_thread t; naive_solver congruence.
Qed.

Lemma inv_read t n s :
  psys_inv s -> readopen (s_pipe s) = true -> psys_inv (run_read t n s).
Proof.
  intros [Hok Hf Hw Hr Ho] Hro. unfold run_read. pose proof (piperead_spec (s_killed s t) n (s_pipe s) Hok) as Hl.
  destruct (piperead (s_killed s t) n (s_pipe s)) as [p' r]. destruct Hl as [Hok' Ha].
  unfold q_read in Ha. case_decide as Hd; simpl in Hd.
  - injection Ha as Hc E1 E2 ->. assert (used p' = used (s_pipe s)) as Hu.
    { pose proof (f_equal length Hc) as E. rewrite !contents_length in E. pose proof (used_range p'). pose proof (used_range (s_pipe s)). lia. }
    destruct (s_killed s t); (split; [done|simpl; congruence|..]); simpl; rewrite ?Hc, ?E1, ?E2, ?Hu.
    + at_thread t; naive_solver.
    + at_thread t; naive_solver.
    + at_thread t; naive_solver.
    + at_thread t; naive_solver.
    + at_thread t; naive_solver.
    + at_thread t; naive_solver.
  - injection Ha as Hc E1 E2 ->. split; [done|..]; simpl.
    + rewrite Hf, Hc, <- app_assoc. f_equal. by rewrite take_drop.
    + at_thread t; naive_solver.
    + at_thread t; try done. intros n' Hfa [= -> ->]. destruct (Hr _ _ Hfa Heqt0) as [E3 E4].
      rewrite Hc, E3, drop_nil. split; [done|congruence].
    + rewrite E1. at_thread t; naive_solver.
Qed.

Lemma inv_close (w : bool) s :
  psys_inv s -> (if w then True else forall t a n, s_thr s t <> TRead a n) -> psys_inv (run_close w s).
Proof.
  intros [Hok Hf Hw Hr Ho] Hno. unfold run_close. destruct w; (split; [by destruct Hok|done|..]); simpl; unfold compose.
  - intros u n r. destruct (s_thr s u) eqn:Hu; try done. intros [= -> -> ->]. by eapply Hw.
  - intros u n _. by destruct (s_thr s u).
  - intros u a n. destruct (s_thr s u) eqn:Hu; try done. intros _. by eapply Ho.
  - intros u n r. by destruct (s_thr s u).
  - intros u n Hfa. destruct (s_thr s u) eqn:Hu; try done. intros [= -> ->]. by eapply Hr.
  - intros u a n. destruct (s_thr s u) eqn:Hu; try done. by destruct (Hno u asleep n0).
Qed.

Lemma inv_kill t s : psys_inv s -> psys_inv (run_kill t s).
Proof.
  intros [Hok Hf Hw Hr Ho]. split; [done|done|..]; simpl.
  - intros u n r. destruct (decide (u = t)) as [->|Hut]; [rewrite fn_lookup_insert; by destruct (s_thr s t)|].
    rewrite fn_lookup_insert_ne by done. apply Hw.
  - intros u n Hfa. destruct (decide (u = t)) as [->|Hut]; [rewrite fn_lookup_insert; by destruct (s_thr s t)|].
    rewrite fn_lookup_insert_ne by done. by apply Hr.
  - intros u a n. destruct (decide (u = t)) as [->|Hut]; [rewrite fn_lookup_insert|rewrite fn_lookup_insert_ne by done; apply Ho].
    destruct (s_thr s t) eqn:Hu; try done. intros _. by eapply Ho.
Qed.

Lemma start_inv page : length page = 512%nat -> psys_inv (pipe_start page).
Proof.
  intros Hl. assert (used (new_pipe page) = 0) as Hu by reflexivity.
  split.
  - split; [exact Hl|simpl; lia|simpl; lia|simpl s_pipe; rewrite Hu; unfold PIPESIZE; lia].
  - simpl. symmetry. apply length_zero_iff_nil. by rewrite contents_length, Hu.
  - intros t n r Ht. discriminate Ht.
  - intros t n _ Ht. discriminate Ht.
  - intros t a n Ht. discriminate Ht.
Qed.

Lemma psys_inv_reach page s : length page = 512%nat -> preach page s -> psys_inv s.
Proof.
  intros Hl Hr. revert Hr. apply (rtc_ind_r psys_inv).
  - by apply start_inv.
  - intros s1 s2 _ Hs Hi. revert Hi. destruct Hs as [t bs s1 Ht Hwo|t n rest s1 Ht|t n s1 Ht Hro|t n s1 Ht|s1 Hn|s1 Hn|t s1]; intros Hi.
    + by apply inv_write.
    + by apply inv_write.
    + by apply inv_read.
    + apply inv_read; [done|]. by apply (pi_open _ Hi t false n).
    + by apply inv_close.
    + by apply inv_close.
    + by apply inv_kill.
Qed.

(** C11: Readers and writers of a pipe.  However reads, writes, closes and kills
    interleave, every byte sent is received in order or still in the pipe,
    none is lost or duplicated; a writer is asleep only while the pipe is
    full and can still be read; and, unless a killed writer has given up, a
    reader is asleep only while the pipe is empty and can still be written.
    So no wakeup is missed, and readers and writers never all sleep. *)
Theorem pipe_fifo page s :
  length page = 512%nat -> preach page s ->
  s_sent s = s_recv s ++ contents (s_pipe s) /\
  (forall t n r, s_thr s t = TWrite true n r -> used (s_pipe s) = PIPESIZE /\ readopen (s_pipe s) = true) /\
  (s_failed s = false ->
     (forall t n, s_thr s t = TRead true n -> contents (s_pipe s) = [] /\ writeopen (s_pipe s) = true) /\
     forall t n t' n' r, s_thr s t = TRead true n -> s_thr s t' <> TWrite true n' r).
Proof.
  intros Hl Hr. apply psys_inv_reach in Hr as [Hok Hf Hw Hrd _]; [|done]. split; [done|]. split; [done|].
  intros Hfa. split; [intros t n; by apply Hrd|]. intros t n t' n' r H1 H2.
  destruct (Hrd t n Hfa H1) as [Hc _], (Hw t' n' r H2) as [Hu _].
  pose proof (contents_length (s_pipe s)) as E. rewrite Hc, Hu in E. done.
Qed.

Lemma pipe_fifo_witness :
  exists s, preach (replicate 512 0) s /\ s_thr s 1%nat = TRead false 3 /\ s_sent s = [5; 6] /\
    s_sent s = s_recv s ++ contents (s_pipe s).
Proof.
  pose (s := run_write 0 2 [5; 6] (run_read 1 3 (pipe_start (replicate 512 0)))).
  assert (preach (replicate 512 0) s) as Hr.
  { eapply rtc_r; [|apply (ps_write 0 [5; 6]); vm_compute; reflexivity].
    eapply rtc_r; [|apply (ps_read 1 3); vm_compute; reflexivity]. apply rtc_refl. }
  assert (length (replicate 512 0) = 512%nat) as Hl by (vm_compute; reflexivity).
  assert (s_thr s 1%nat = TRead false 3) as H1 by (vm_compute; reflexivity).
  assert (s_sent s = [5; 6]) as H2 by (vm_compute; reflexivity).
  destruct (pipe_fifo (replicate 512 0) s Hl Hr) as [H _].
  exists s. split; [exact Hr|]. split; [exact H1|]. split; [exact H2|exact H].
Defined.

(** A killed writer that fills the pipe returns -1 without [wakeup(&p->nread)]:
    a reader that was waiting sleeps on beside a full pipe. *)
Theorem pipe_lost_wakeup :
  exists s, preach (replicate 512 0) s /\ s_thr s 1%nat = TRead true 1 /\
    length (contents (s_pipe s)) = 512%nat /\ s_thr s 0%nat = TIdle.
Proof.
  exists (run_write 0 513 (replicate 513 7) (run_kill 0 (run_read 1 1 (pipe_start (replicate 512 0))))).
  split; [|split_and!; vm_compute; reflexivity].
  eapply rtc_r; [|apply (ps_write 0 (replicate 513 7)); vm_compute; reflexivity].
  eapply rtc_r; [|apply ps_kill].
  eapply rtc_r; [|apply (ps_read 1 1); vm_compute; reflexivity]. apply rtc_refl.
Qed.
