(* ===== verification/Linkedlist.v ===== *)
(** * Doubly linked lists of keyed nodes (LinkedList.c)

    The nodes of a list live in a store from addresses to nodes; the list
    head holds the length and the addresses of the first and last node.  Two
    keys match when the [keySize] bytes that [memcmp] compares agree, so when
    they are equal. *)

From S2P Require Import Prelude.

(** [struct LinkedListNode]. *)
Record node (K D : Type) := mk_node { n_key : K; n_data : D; n_next : Z; n_prev : Z }.
Arguments mk_node {K D}.
Arguments n_key {K D}.
Arguments n_data {K D}.
Arguments n_next {K D}.
Arguments n_prev {K D}.

(** [struct LinkedListHead] with the nodes it owns. *)
Record llist (K D : Type) := mk_llist {
  ll_nodes : gmap Z (node K D);
  ll_length : Z;
  ll_start : Z;
  ll_end : Z
}.
Arguments mk_llist {K D}.
Arguments ll_nodes {K D}.
Arguments ll_length {K D}.
Arguments ll_start {K D}.
Arguments ll_end {K D}.

(** What the lists rely on in [kmalloc]: it returns 0 or the address of a
    block that is not in use ([Kmalloc.kmalloc_correct]). *)
Class NodeAlloc := {
  fresh : gset Z -> Z;
  fresh_ok : forall used, 0 <= fresh used /\ fresh used ∉ used
}.

Section Lists.
Context {K D : Type} `{EqDecision K} `{NodeAlloc}.
Notation L := (llist K D).
Notation LM := (M (llist K D)).
Implicit Types (s t : L).

Definition set_nodes (m : gmap Z (node K D)) s : L := mk_llist m (ll_length s) (ll_start s) (ll_end s).
Definition set_len (n : Z) s : L := mk_llist (ll_nodes s) n (ll_start s) (ll_end s).
Definition set_start (a : Z) s : L := mk_llist (ll_nodes s) (ll_length s) a (ll_end s).
Definition set_end (a : Z) s : L := mk_llist (ll_nodes s) (ll_length s) (ll_start s) a.

Definition set_n_next (a : Z) (n : node K D) : node K D := mk_node (n_key n) (n_data n) a (n_prev n).
Definition set_n_prev (a : Z) (n : node K D) : node K D := mk_node (n_key n) (n_data n) (n_next n) a.
Definition set_n_data (d : D) (n : node K D) : node K D := mk_node (n_key n) d (n_next n) (n_prev n).

(** Accesses through a node pointer. *)
Definition getn (a : Z) : LM (node K D) := s <- kget ;; deref (ll_nodes s !! a).
Definition putn (a : Z) (f : node K D -> node K D) : LM unit :=
  n <- getn a ;; modify (fun s => set_nodes (<[a := f n]> (ll_nodes s)) s).

(** [LinkedListAlloc], with the head copied from a default. *)
Definition LinkedListAlloc : L := mk_llist ∅ 0 0 0.

(** [LinkedListNodeCreate]: a null block is written through. *)
Definition LinkedListNodeCreate (k : K) (d : D) : LM Z :=
  s <- kget ;;
  let a := fresh (dom (ll_nodes s)) in
  if a =? NULL then fault "LinkedListNodeAlloc: null"
  else modify (fun s => set_nodes (<[a := mk_node k d 0 0]> (ll_nodes s)) s) ;;; kret a.

Definition LinkedListAdd (k : K) (d : D) : LM unit :=
  prev <- gets ll_end ;;
  a <- LinkedListNodeCreate k d ;;
  modify (set_end a) ;;;
  start <- gets ll_start ;;
  (if start =? NULL then modify (set_start a)
   else
     putn prev (set_n_next a) ;;;
     putn a (set_n_prev prev)) ;;;
  modify (fun s => set_len (u32 (ll_length s + 1)) s).

(** A null key matches every node. *)
Definition matches (o : option K) (k : K) : bool :=
  match o with None => true | Some k' => bool_decide (k = k') end.

Fixpoint get_loop (fuel : nat) (cur : Z) (o : option K) : LM Z :=
  match fuel with
  | O => nofuel
  | S fuel' =>
      if cur =? NULL then kret NULL
      else
        n <- getn cur ;;
        if matches o (n_key n) then kret cur else get_loop fuel' (n_next n) o
  end.
(** The loop visits each node at most once. *)
Definition fuel_of s : nat := S (size (ll_nodes s)).
Definition LinkedListNodeGetNextMatching (start : Z) (o : option K) : LM Z :=
  s <- kget ;; get_loop (fuel_of s) start o.

Definition unlink_node (cur : Z) (n : node K D) : LM unit :=
  modify (fun s => set_len (u32 (ll_length s - 1)) s) ;;;
  (if n_prev n =? NULL then modify (set_start (n_next n))
   else putn (n_prev n) (set_n_next (n_next n))) ;;;
  (if n_next n =? NULL then modify (set_end (n_prev n))
   else putn (n_next n) (set_n_prev (n_prev n))) ;;;
  modify (fun s => set_nodes (delete cur (ll_nodes s)) s).

Fixpoint remove_loop (fuel : nat) (cur : Z) (o : option K) : LM Z :=
  match fuel with
  | O => nofuel
  | S fuel' =>
      if cur =? NULL then kret NULL
      else
        n <- getn cur ;;
        if matches o (n_key n) then unlink_node cur n ;;; kret (n_next n)
        else remove_loop fuel' (n_next n) o
  end.
Definition LinkedListNodeRemoveNextMatching (start : Z) (o : option K) : LM Z :=
  s <- kget ;; remove_loop (fuel_of s) start o.

Definition LinkedListGet (k : option K) : LM Z :=
  start <- gets ll_start ;; LinkedListNodeGetNextMatching start k.
Definition LinkedListRemove (k : option K) : LM Z :=
  start <- gets ll_start ;; LinkedListNodeRemoveNextMatching start k.

(** [LinkedListFree]: every node is freed. *)
Fixpoint free_loop (fuel : nat) (cur : Z) : LM unit :=
  match fuel with
  | O => nofuel
  | S fuel' =>
      if cur =? NULL then kret tt
      else
        n <- getn cur ;;
        modify (fun s => set_nodes (delete cur (ll_nodes s)) s) ;;;
        free_loop fuel' (n_next n)
  end.
Definition LinkedListFree : LM unit :=
  s <- kget ;; free_loop (fuel_of s) (ll_start s).

(** ** The abstraction

    [seg m p l nx]: the store [m] links the entries [l]; the first one's
    predecessor is [p], the last one's successor [nx]. *)
Notation entry := (Z * K * D)%type.
Implicit Types (l : list entry) (e : entry) (m : gmap Z (node K D)).
Definition addr e : Z := fst (fst e).
Definition key e : K := snd (fst e).
Arguments addr : simpl never.
Arguments key : simpl never.
Definition first (nx : Z) l : Z := match l with [] => nx | e :: _ => addr e end.
Fixpoint final (p : Z) l : Z := match l with [] => p | e :: l' => final (addr e) l' end.

Fixpoint seg m (p : Z) l (nx : Z) : Prop :=
  match l with
  | [] => True
  | e :: l' => addr e <> NULL /\ m !! addr e = Some (mk_node (key e) (snd e) (first nx l') p) /\ seg m (addr e) l' nx
  end.

Record ll_ok (s : L) (l : list entry) : Prop := {
  lk_seg : seg (ll_nodes s) NULL l NULL;
  lk_start : ll_start s = first NULL l;
  lk_end : ll_end s = final NULL l;
  lk_nodup : NoDup (addr <$> l);
  lk_dom : forall a, is_Some (ll_nodes s !! a) <-> a ∈ addr <$> l;
  lk_len : ll_length s = u32 (Z.of_nat (length l))
}.

(** The first entry that matches. *)
Definition hit (o : option K) e : bool := matches o (key e).
Fixpoint find_first (o : option K) l : Z :=
  match l with [] => NULL | e :: l' => if hit o e then addr e else find_first o l' end.
Fixpoint remove_first (o : option K) l : list entry * Z :=
  match l with
  | [] => ([], NULL)
  | e :: l' => if hit o e then (l', first NULL l') else let '(l'', r) := remove_first o l' in (e :: l'', r)
  end.

Lemma nodes_app m p l1 l2 nx :
  seg m p (l1 ++ l2) nx <-> seg m p l1 (first nx l2) /\ seg m (final p l1) l2 nx.
Proof.
  revert p. induction l1 as [|e l1 IH]; intros p; simpl; [tauto|]. rewrite IH.
  assert (first nx (l1 ++ l2) = first (first nx l2) l1) as -> by (by destruct l1). tauto.
Qed.

Lemma first_app nx l1 l2 : first nx (l1 ++ l2) = first (first nx l2) l1.
Proof. by destruct l1. Qed.
Lemma final_app p l1 l2 : final p (l1 ++ l2) = final (final p l1) l2.
Proof. revert p. induction l1 as [|e l1 IH]; intros p; simpl; [done|apply IH]. Qed.

Lemma lseg_ext m m' p l nx :
  (forall a, a ∈ addr <$> l -> m' !! a = m !! a) -> seg m p l nx -> seg m' p l nx.
Proof.
  revert p. induction l as [|e l IH]; intros p Hm; simpl; [done|]. intros (Ha & Hn & Hs).
  split; [done|]. split; [rewrite Hm; [done|]; apply list_elem_of_here|].
  apply IH; [|done]. intros a Hi. apply Hm. by apply list_elem_of_further.
Qed.

Lemma lfinal_in p l : l <> [] -> final p l ∈ addr <$> l.
Proof.
  revert p. induction l as [|e l IH]; intros p Hl; [done|]. simpl. destruct l as [|e' l].
  - apply list_elem_of_here.
  - apply list_elem_of_further. by apply IH.
Qed.

Lemma seg_nonnull m p l nx a : seg m p l nx -> a ∈ addr <$> l -> a <> NULL.
Proof.
  revert p. induction l as [|e l IH]; intros p; simpl; [intros _ Hi; by apply elem_of_nil in Hi|].
  intros (Ha & _ & Hs) [->|Hi]%elem_of_cons; [done|by eapply IH].
Qed.

Lemma seg_lookup m p l nx a : seg m p l nx -> a ∈ addr <$> l -> exists n, m !! a = Some n.
Proof.
  revert p. induction l as [|e l IH]; intros p; simpl; [intros _ Hi; by apply elem_of_nil in Hi|].
  intros (_ & Hn & Hs) [->|Hi]%elem_of_cons; [eauto|by eapply IH].
Qed.

(** The links around a node can be redirected. *)
Lemma seg_set_next m p l nx nx' n :
  l <> [] -> NoDup (addr <$> l) -> seg m p l nx -> m !! final p l = Some n ->
  seg (<[final p l := set_n_next nx' n]> m) p l nx'.
Proof.
  revert p. induction l as [|e l IH]; intros p Hl Hnd; [done|]. simpl. intros (Ha & Hn & Hs) Hf.
  apply list.NoDup_cons in Hnd as [Hni Hnd]. destruct l as [|e' l].
  - simpl in *. split; [done|]. rewrite lookup_insert_eq. rewrite Hn in Hf. by simplify_eq.
  - assert (final (addr e) (e' :: l) ∈ addr <$> (e' :: l)) as Hin by (by apply lfinal_in).
    split; [done|]. split; [rewrite lookup_insert_ne; [done|]; by intros E; rewrite E in Hin|].
    by apply IH.
Qed.

Lemma seg_set_prev m p p' l nx n :
  l <> [] -> NoDup (addr <$> l) -> seg m p l nx -> m !! first nx l = Some n ->
  seg (<[first nx l := set_n_prev p' n]> m) p' l nx.
Proof.
  destruct l as [|e l]; [done|]. intros _ Hnd (Ha & Hn & Hs) Hf. simpl in *.
  apply list.NoDup_cons in Hnd as [Hni _]. rewrite Hn in Hf. simplify_eq.
  split; [done|]. rewrite lookup_insert_eq. split; [done|]. apply (lseg_ext m); [|done].
  intros a Hi. apply lookup_insert_ne. by intros <-.
Qed.

Lemma getn_eq a n s : ll_nodes s !! a = Some n -> getn a s = Ok n s.
Proof. intros E. unfold getn, kbind, kget, deref. by rewrite E. Qed.
Lemma putn_eq a f n s : ll_nodes s !! a = Some n -> putn a f s = Ok tt (set_nodes (<[a := f n]> (ll_nodes s)) s).
Proof. intros E. unfold putn. by rewrite (kbind_ok _ _ _ _ _ (getn_eq a n s E)). Qed.

(** The search from a node [e] of the list: the first match from there on. *)
Lemma get_loop_spec fuel s l1 l2 o :
  seg (ll_nodes s) (final NULL l1) l2 NULL -> (length l2 < fuel)%nat ->
  get_loop fuel (first NULL l2) o s = Ok (find_first o l2) s.
Proof.
  revert l1 l2. induction fuel as [|fuel IH]; intros l1 l2 Hs Hf; [lia|].
  destruct l2 as [|e l2]; [done|]. simpl in *. destruct Hs as (Ha & Hn & Hs).
  rewrite (proj2 (Z.eqb_neq _ _) Ha). rewrite (kbind_ok _ _ _ _ _ (getn_eq _ _ s Hn)). simpl.
  unfold hit. destruct (matches o (key e)); [done|].
  apply (IH (l1 ++ [e])); [by rewrite final_app|lia].
Qed.

Lemma nodes_size s l : ll_ok s l -> size (ll_nodes s) = length l.
Proof.
  intros Hok. rewrite <- size_dom, <- (length_fmap addr l).
  assert (dom (ll_nodes s) = list_to_set (addr <$> l)) as ->.
  { apply set_eq. intros a. rewrite elem_of_dom, elem_of_list_to_set. apply (lk_dom _ _ Hok). }
  apply size_list_to_set. apply (lk_nodup _ _ Hok).
Qed.

Lemma get_next_spec s l1 l2 o :
  ll_ok s (l1 ++ l2) -> LinkedListNodeGetNextMatching (first NULL l2) o s = Ok (find_first o l2) s.
Proof.
  intros Hok. unfold LinkedListNodeGetNextMatching, fuel_of. rewrite (kbind_ok kget _ s s s eq_refl).
  rewrite (nodes_size _ _ Hok). pose proof (lk_seg _ _ Hok) as Hs. apply nodes_app in Hs as [_ Hs].
  apply (get_loop_spec _ s l1); [done|]. rewrite length_app. lia.
Qed.

Lemma add_spec s l k d :
  ll_ok s l -> fresh (dom (ll_nodes s)) <> NULL ->
  exists s', LinkedListAdd k d s = Ok tt s' /\ ll_ok s' (l ++ [(fresh (dom (ll_nodes s)), k, d)]).
Proof.
  intros [Hs Hst Hen Hnd Hdom Hlen] Hfr. destruct (fresh_ok (dom (ll_nodes s))) as [_ Hnew].
  set (a := fresh (dom (ll_nodes s))) in *.
  assert (a ∉ addr <$> l) as Hal by (rewrite <- Hdom, <- elem_of_dom; done).
  assert (NoDup (addr <$> (l ++ [(a, k, d)]))) as Hnd'.
  { rewrite fmap_app. apply list.NoDup_app. split; [done|]. split; [|apply NoDup_singleton].
    intros x Hx Hx'. apply list_elem_of_singleton in Hx' as ->. done. }
  assert (u32 (u32 (Z.of_nat (length l)) + 1) = u32 (Z.of_nat (length (l ++ [(a, k, d)])))) as Hl.
  { rewrite u32_add_l, length_app. simpl. f_equal. lia. }
  unfold LinkedListAdd, LinkedListNodeCreate. unfold kbind at 1, gets at 1. unfold kbind at 1.
  unfold kbind at 1, kget at 1. fold a. rewrite (proj2 (Z.eqb_neq a NULL) Hfr). simpl.
  destruct l as [|e l].
  - simpl in Hst. unfold kbind, modify, gets, kret. simpl. rewrite Hst. simpl.
    eexists. split; [reflexivity|]. split; simpl; try done.
    + split; [done|]. by rewrite lookup_insert_eq.
    + intros b. rewrite lookup_insert_is_Some. rewrite Hdom. simpl. rewrite elem_of_cons.
      split; [intros [->|[_ Hb]]; auto|]. intros [->|Hb]; [by left|]. by apply elem_of_nil in Hb.
    + by rewrite Hlen.
  - assert (ll_start s <> NULL) as Hsn by (rewrite Hst; apply Hs).
    assert (ll_end s ∈ addr <$> (e :: l)) as Hin by (rewrite Hen; by apply lfinal_in).
    assert (exists n, ll_nodes s !! ll_end s = Some n) as [n Hn] by (by apply Hdom).
    assert (ll_end s <> a) as Hea by (by intros E; rewrite E in Hin).
    set (m1 := <[a := mk_node k d 0 0]> (ll_nodes s)).
    set (m2 := <[ll_end s := set_n_next a n]> m1).
    set (m3 := <[a := mk_node k d 0 (ll_end s)]> m2).
    exists (mk_llist m3 (u32 (ll_length s + 1)) (ll_start s) a). split.
    { unfold modify at 1, kbind at 1. unfold gets at 1, kbind at 1, modify at 1. simpl.
      unfold kbind at 1. rewrite (proj2 (Z.eqb_neq _ _) Hsn).
      rewrite (kbind_ok (putn (ll_end s) (set_n_next a)) _ _ tt (mk_llist m2 (ll_length s) (ll_start s) a))
        by (rewrite (putn_eq _ _ n); [done|]; simpl; unfold m1; by rewrite lookup_insert_ne).
      rewrite (putn_eq a (set_n_prev (ll_end s)) (mk_node k d 0 0))
        by (simpl; unfold m2, m1; by rewrite lookup_insert_ne, lookup_insert_eq). done. }
    assert (seg (ll_nodes s) NULL (e :: l) NULL) as Hs0 by done.
    split; simpl ll_nodes; simpl ll_start; simpl ll_end; simpl ll_length.
    + apply nodes_app. split.
      * apply (lseg_ext m2); [intros b Hb; unfold m3; rewrite lookup_insert_ne; [done|by intros <-]|].
        unfold m2. rewrite Hen. apply (seg_set_next _ _ _ NULL); [done|done| |].
        -- apply (lseg_ext (ll_nodes s)); [|done]. intros b Hb. unfold m1. rewrite lookup_insert_ne; [done|by intros <-].
        -- rewrite <- Hen. unfold m1. by rewrite lookup_insert_ne.
      * simpl. split; [done|]. unfold m3. by rewrite lookup_insert_eq, Hen.
    + by rewrite Hst.
    + by rewrite final_app.
    + done.
    + intros b. unfold m3, m2, m1. rewrite !lookup_insert_is_Some, Hdom, fmap_app, elem_of_app.
      change (addr <$> [(a, k, d)]) with [a]. rewrite list_elem_of_singleton. destruct (decide (b = a)), (decide (b = ll_end s)); subst; naive_solver.
    + by rewrite Hlen.
Qed.

(** The two redirections of an unlink. *)
Lemma relink_prev s l1 a nx :
  seg (ll_nodes s) NULL l1 a -> NoDup (addr <$> l1) -> ll_start s = first a l1 ->
  exists m' st, (if final NULL l1 =? NULL then modify (set_start nx) else putn (final NULL l1) (set_n_next nx)) s =
      Ok tt (mk_llist m' (ll_length s) st (ll_end s)) /\
    st = first nx l1 /\ seg m' NULL l1 nx /\ (forall b, b ∉ addr <$> l1 -> m' !! b = ll_nodes s !! b) /\
    (forall b, is_Some (m' !! b) <-> is_Some (ll_nodes s !! b)).
Proof.
  intros Hs Hnd Hst. destruct l1 as [|e l1].
  - exists (ll_nodes s), nx. simpl. by destruct s.
  - assert (final NULL (e :: l1) ∈ addr <$> e :: l1) as Hin by (by apply lfinal_in).
    rewrite (proj2 (Z.eqb_neq _ _) (seg_nonnull _ _ _ _ _ Hs Hin)).
    assert (exists n, ll_nodes s !! final NULL (e :: l1) = Some n) as [n Hn] by (by eapply seg_lookup).
    exists (<[final NULL (e :: l1) := set_n_next nx n]> (ll_nodes s)), (ll_start s).
    rewrite (putn_eq _ _ n) by done. split; [done|]. split; [done|]. split; [by eapply seg_set_next|]. split.
    + intros b Hb. apply lookup_insert_ne. by intros <-.
    + intros b. rewrite lookup_insert_is_Some. destruct (decide (b = final NULL (e :: l1))) as [->|]; [rewrite Hn|]; naive_solver.
Qed.

Lemma relink_next s l2 a p :
  seg (ll_nodes s) a l2 NULL -> NoDup (addr <$> l2) -> ll_end s = final a l2 ->
  exists m' en, (if first NULL l2 =? NULL then modify (set_end p) else putn (first NULL l2) (set_n_prev p)) s =
      Ok tt (mk_llist m' (ll_length s) (ll_start s) en) /\
    en = final p l2 /\ seg m' p l2 NULL /\ (forall b, b ∉ addr <$> l2 -> m' !! b = ll_nodes s !! b) /\
    (forall b, is_Some (m' !! b) <-> is_Some (ll_nodes s !! b)).
Proof.
  intros Hs Hnd Hen. destruct l2 as [|e l2].
  - exists (ll_nodes s), p. simpl. by destruct s.
  - pose proof Hs as (Ha & Hn & _). change (first NULL (e :: l2)) with (addr e).
    rewrite (proj2 (Z.eqb_neq _ _) Ha). eexists (<[addr e := set_n_prev p _]> (ll_nodes s)), (ll_end s).
    rewrite (putn_eq _ _ _ _ Hn). split; [done|]. split; [done|]. split; [by apply (seg_set_prev _ a p (e :: l2) NULL)|]. split.
    + intros b Hb. apply lookup_insert_ne. intros <-. apply Hb, list_elem_of_here.
    + intros b. rewrite lookup_insert_is_Some. destruct (decide (b = addr e)) as [->|]; [rewrite Hn|]; naive_solver.
Qed.

(** Unlinking the entry between [l1] and [l2]. *)
Lemma unlink_node_spec s l1 e l2 n :
  ll_ok s (l1 ++ e :: l2) -> ll_nodes s !! addr e = Some n ->
  n_next n = first NULL l2 /\ n_key n = key e /\
  exists s', unlink_node (addr e) n s = Ok tt s' /\ ll_ok s' (l1 ++ l2).
Proof.
  intros [Hs Hst Hen Hnd Hdom Hlen] Hn.
  pose proof Hs as Hs'. apply nodes_app in Hs' as [Hs1 (Ha & Hn' & Hs2)].
  rewrite Hn in Hn'. injection Hn' as ->. simpl. split; [done|]. split; [done|].
  rewrite fmap_app in Hnd. apply list.NoDup_app in Hnd as (Hnd1 & Hd12 & Hnd2). rewrite fmap_cons in Hnd2, Hd12.
  apply list.NoDup_cons in Hnd2 as [Hne2 Hnd2].
  assert (addr e ∉ addr <$> l1) as Hne1 by (intros Hi; apply (Hd12 _ Hi), list_elem_of_here).
  assert (forall b, b ∈ addr <$> l2 -> b ∉ addr <$> l1) as Hd by (intros b Hb Hb'; apply (Hd12 _ Hb'); by apply list_elem_of_further).
  unfold unlink_node. unfold kbind at 1, modify at 1. cbn [n_prev n_next].
  destruct (relink_prev (set_len (u32 (ll_length s - 1)) s) l1 (addr e) (first NULL l2)) as (m1 & st & E1 & -> & Hg1 & Ho1 & Hd1); [done|done|simpl; by rewrite Hst, first_app|].
  rewrite (kbind_ok _ _ _ _ _ E1).
  destruct (relink_next (mk_llist m1 (u32 (ll_length s - 1)) (first (first NULL l2) l1) (ll_end s)) l2 (addr e) (final NULL l1)) as (m2 & en & E2 & -> & Hg2 & Ho2 & Hd2).
  { apply (lseg_ext (ll_nodes s)); [|done]. intros b Hb. apply Ho1. by apply Hd. } { done. } { simpl. by rewrite Hen, final_app. }
  simpl ll_length in E2. rewrite (kbind_ok _ _ _ _ _ E2). eexists. split; [reflexivity|]. simpl in *.
  split; simpl.
  - apply nodes_app. split.
    + apply (lseg_ext m1); [|done]. intros b Hb. rewrite lookup_delete_ne by (by intros <-). apply Ho2.
      intros Hb'. by apply (Hd b Hb').
    + apply (lseg_ext m2); [|done]. intros b Hb. apply lookup_delete_ne. by intros <-.
  - by rewrite first_app.
  - by rewrite final_app.
  - rewrite fmap_app. apply list.NoDup_app. split; [done|]. split; [|done]. intros b Hb Hb'. by apply (Hd b Hb').
  - intros b. rewrite lookup_delete_is_Some, Hd2, Hd1, Hdom, !fmap_app, !elem_of_app, fmap_cons, elem_of_cons.
    split; [naive_solver|]. intros [Hb|Hb]; (split; [by intros <-|tauto]).
  - rewrite Hlen, u32_sub_l, !length_app. simpl. f_equal. lia.
Qed.

Lemma remove_loop_spec fuel s l1 l2 o :
  ll_ok s (l1 ++ l2) -> (length l2 < fuel)%nat ->
  exists s', remove_loop fuel (first NULL l2) o s = Ok (snd (remove_first o l2)) s' /\ ll_ok s' (l1 ++ fst (remove_first o l2)).
Proof.
  revert l1 l2. induction fuel as [|fuel IH]; intros l1 l2 Hok Hf; [lia|].
  destruct l2 as [|e l2]; [by exists s|]. simpl in Hf.
  pose proof (lk_seg _ _ Hok) as Hs. apply nodes_app in Hs as [_ (Ha & Hn & Hs)].
  cbn [remove_loop first remove_first]. rewrite (proj2 (Z.eqb_neq _ _) Ha).
  rewrite (kbind_ok _ _ _ _ _ (getn_eq _ _ s Hn)). cbn [n_key n_next].
  unfold hit. destruct (matches o (key e)).
  - destruct (unlink_node_spec s l1 e l2 _ Hok Hn) as (_ & _ & s' & E & Hok').
    rewrite (kbind_ok _ _ _ _ _ E). by exists s'.
  - destruct (IH (l1 ++ [e]) l2) as (s' & E & Hok'); [by rewrite <- app_assoc|lia|].
    exists s'. rewrite E. destruct (remove_first o l2) as [l3 r]. simpl in *. rewrite <- app_assoc in Hok'. done.
Qed.

Lemma remove_next_spec s l1 l2 o :
  ll_ok s (l1 ++ l2) ->
  exists s', LinkedListNodeRemoveNextMatching (first NULL l2) o s = Ok (snd (remove_first o l2)) s' /\
    ll_ok s' (l1 ++ fst (remove_first o l2)).
Proof.
  intros Hok. unfold LinkedListNodeRemoveNextMatching, fuel_of. rewrite (kbind_ok kget _ s s s eq_refl).
  apply remove_loop_spec; [done|]. rewrite (nodes_size _ _ Hok), length_app. lia.
Qed.

Lemma free_loop_spec fuel s l p :
  seg (ll_nodes s) p l NULL -> NoDup (addr <$> l) -> (length l < fuel)%nat ->
  exists s', free_loop fuel (first NULL l) s = Ok tt s' /\
    (forall a, ll_nodes s' !! a = if decide (a ∈ addr <$> l) then None else ll_nodes s !! a).
Proof.
  revert s l p. induction fuel as [|fuel IH]; intros s l p Hs Hnd Hf; [lia|]. destruct l as [|e l].
  - exists s. done.
  - simpl in Hf. destruct Hs as (Ha & Hn & Hs). rewrite fmap_cons in Hnd. apply list.NoDup_cons in Hnd as [Hni Hnd].
    cbn [free_loop first]. rewrite (proj2 (Z.eqb_neq _ _) Ha), (kbind_ok _ _ _ _ _ (getn_eq _ _ s Hn)).
    unfold kbind at 1, modify at 1. cbn [n_next].
    destruct (IH (set_nodes (delete (addr e) (ll_nodes s)) s) l (addr e)) as (s' & E & Hs'); [|done|lia|].
    { apply (lseg_ext (ll_nodes s)); [|done]. intros b Hb. apply lookup_delete_ne. by intros <-. }
    exists s'. split; [done|]. intros a. rewrite Hs'. cbn [ll_nodes set_nodes]. rewrite fmap_cons.
    destruct (decide (a = addr e)) as [->|Hae].
    + rewrite decide_False by done. rewrite decide_True by apply list_elem_of_here. apply lookup_delete_eq.
    + rewrite lookup_delete_ne by done. apply decide_ext. rewrite elem_of_cons. tauto.
Qed.

Lemma list_free_spec s l : ll_ok s l -> exists s', LinkedListFree s = Ok tt s' /\ ll_nodes s' = ∅.
Proof.
  intros Hok. unfold LinkedListFree, fuel_of. rewrite (kbind_ok kget _ s s s eq_refl).
  rewrite (lk_start _ _ Hok). destruct (free_loop_spec (S (size (ll_nodes s))) s l NULL) as (s' & E & Hs').
  { apply (lk_seg _ _ Hok). } { apply (lk_nodup _ _ Hok). } { rewrite (nodes_size _ _ Hok). lia. }
  exists s'. split; [done|]. apply map_empty. intros a. rewrite Hs'. case_decide as Hi; [done|].
  apply eq_None_not_Some. by rewrite (lk_dom _ _ Hok).
Qed.

(** C28: The linked lists are lists.  On a well-formed doubly linked list that
    represents [l], whatever its links in memory: adding appends a node at a
    fresh address, searching from any node finds the first matching node from
    there on, removing from any node unlinks exactly that first match,
    repairs both neighbours, the ends and the length and returns its
    successor, and freeing releases every node; every loop ends. *)
Theorem linked_list_refines s l k d o :
  ll_ok s l -> fresh (dom (ll_nodes s)) <> NULL ->
  (exists s' a, LinkedListAdd k d s = Ok tt s' /\ a ∉ addr <$> l /\ ll_ok s' (l ++ [(a, k, d)])) /\
  (forall l1 l2, l = l1 ++ l2 ->
     LinkedListNodeGetNextMatching (first NULL l2) o s = Ok (find_first o l2) s /\
     exists s', LinkedListNodeRemoveNextMatching (first NULL l2) o s = Ok (snd (remove_first o l2)) s' /\
       ll_ok s' (l1 ++ fst (remove_first o l2))) /\
  (exists s', LinkedListFree s = Ok tt s' /\ ll_nodes s' = ∅).
Proof.
  intros Hok Hf. split_and!.
  - destruct (add_spec s l k d Hok Hf) as (s' & E & Hok'). exists s', (fresh (dom (ll_nodes s))).
    split; [done|]. split; [|done]. rewrite <- (lk_dom _ _ Hok), <- elem_of_dom. apply fresh_ok.
  - intros l1 l2 ->. split; [by apply (get_next_spec s l1)|by apply remove_next_spec].
  - by apply (list_free_spec s l).
Qed.
End Lists.

(** ** Witness: an allocator that returns the next address *)

Definition above (used : gset Z) : Z := 1 + set_fold Z.max 0 used.
Lemma above_bound (used : gset Z) x : x ∈ used -> x < above used.
Proof.
  unfold above. intros Hx. enough (forall y, y ∈ used -> y <= set_fold Z.max 0 used) as Hall by (specialize (Hall x Hx); lia).
  clear x Hx. apply (set_fold_ind_L (fun r X => forall y, y ∈ X -> y <= r)); [set_solver|].
  intros z X r _ IH y [->%elem_of_singleton|Hy]%elem_of_union; [lia|]. specialize (IH y Hy). lia.
Qed.
Lemma above_pos (used : gset Z) : 0 < above used.
Proof.
  unfold above. enough (0 <= set_fold Z.max 0 used) by lia.
  apply (set_fold_ind_L (fun r _ => 0 <= r)); [done|]. intros; lia.
Qed.
Program Definition demo_alloc : NodeAlloc := {| fresh := above |}.
Next Obligation. intros used. pose proof (above_pos used). split; [lia|]. intros Hi%above_bound. lia. Qed.

Definition demo_list : llist Z unit :=
  mk_llist {[1 := mk_node 10 tt 2 0; 2 := mk_node 20 tt 0 1]} 2 1 2.

Lemma demo_list_ok : ll_ok demo_list [(1, 10, tt); (2, 20, tt)].
Proof.
  split; try done.
  - apply list.NoDup_cons. split; [|apply NoDup_singleton]. by intros E%list_elem_of_singleton.
  - intros a. rewrite <- elem_of_dom. replace (dom (ll_nodes demo_list)) with ({[1; 2]} : gset Z) by (vm_compute; reflexivity).
    change (addr <$> [(1, 10, tt); (2, 20, tt)]) with [1; 2].
    rewrite elem_of_union, !elem_of_singleton, !elem_of_cons, elem_of_nil. tauto.
Qed.

Lemma linked_list_refines_witness :
  @LinkedListNodeRemoveNextMatching Z unit _ 1 (Some 20) demo_list = Ok 0 (mk_llist {[1 := mk_node 10 tt 0 0]} 1 1 1) /\
  exists s', @LinkedListNodeRemoveNextMatching Z unit _ 1 (Some 20) demo_list = Ok 0 s' /\ ll_ok s' [(1, 10, tt)].
Proof.
  assert (@fresh demo_alloc (dom (ll_nodes demo_list)) <> NULL) as Hf by (vm_compute; discriminate).
  destruct (@linked_list_refines Z unit _ demo_alloc demo_list _ 30 tt (Some 20) demo_list_ok Hf) as (_ & H & _).
  split; [vm_compute; reflexivity|].
  exact (proj2 (H [] [(1, 10, tt); (2, 20, tt)] eq_refl)).
Defined.
