(* ===== verification/File.v ===== *)
(** * Open files (file.c, and pipealloc of pipe.c)

    The file table is a list of [file] records; a [struct file *] is an index
    of it.  Inodes are reached through [InodeIO], the part of the file system
    that open files use; pipes are those of [Pipe]. *)

From S2P Require Import Prelude Layout Fs Pipe.

Definition NFILE : nat := 100.
Definition MAXOPBLOCKS : Z := 10.
Definition SEEK_SET : Z := 0.
Definition SEEK_CUR : Z := 1.
Definition SEEK_END : Z := 2.

Inductive fdtype := FD_NONE | FD_PIPE | FD_INODE.
#[export] Instance fdtype_eq_dec : EqDecision fdtype.
Proof. solve_decision. Defined.

Record file := mk_file {
  f_type : fdtype;
  f_ref : Z;
  f_readable : bool;
  f_writable : bool;
  f_pipe : nat;
  f_ip : nat;
  f_off : Z
}.

(** The operations of the file system on an inode: the transaction, the lock,
    the size, the metadata, reading [n] bytes at an offset (-1 or the bytes), writing bytes
    at an offset (-1 or their number), and dropping a reference. *)
Class InodeIO (S : Type) := {
  ii_begin : M S unit;
  ii_end : M S unit;
  ii_lock : nat -> M S unit;
  ii_unlock : nat -> M S unit;
  ii_size : nat -> M S Z;
  ii_stat : nat -> M S stat;
  ii_read : nat -> Z -> Z -> M S (option (list Z));
  ii_write : nat -> list Z -> Z -> M S (option Z);
  ii_put : nat -> M S unit;
  ii_kalloc : M S (option (list Z));        (* kalloc: a page, for a pipe *)
  ii_kfree : M S unit
}.

Record files (S : Type) := mk_files {
  fl_table : list file;
  fl_pipes : list pipe;
  fl_inodes : S;
  fl_held : gset string
}.
Arguments mk_files {S}.
Arguments fl_table {S}.
Arguments fl_pipes {S}.
Arguments fl_inodes {S}.
Arguments fl_held {S}.

Section State.
Context {S : Type}.
Implicit Type s : files S.

Definition set_table (l : list file) s : files S := mk_files l (fl_pipes s) (fl_inodes s) (fl_held s).
Definition set_pipes (l : list pipe) s : files S := mk_files (fl_table s) l (fl_inodes s) (fl_held s).
Definition set_inodes (i : S) s : files S := mk_files (fl_table s) (fl_pipes s) i (fl_held s).
Definition set_fl_held (h : gset string) s : files S := mk_files (fl_table s) (fl_pipes s) (fl_inodes s) h.

#[export] Program Instance files_sub : Sub S (files S) := { sub_get := fl_inodes; sub_put := set_inodes }.
Next Obligation. done. Qed.
Next Obligation. done. Qed.
Next Obligation. by intros []. Qed.

#[export] Program Instance files_locks : HasLocks (files S) := { held := fl_held; set_held := set_fl_held }.
Next Obligation. done. Qed.
Next Obligation. by intros []. Qed.
Next Obligation. done. Qed.

Definition getf (i : nat) : M (files S) file := s <- kget ;; deref (fl_table s !! i).
Definition putf (i : nat) (g : file -> file) : M (files S) unit :=
  f <- getf i ;; modify (fun s => set_table (<[i := g f]> (fl_table s)) s).
Definition getpipe (i : nat) : M (files S) pipe := s <- kget ;; deref (fl_pipes s !! i).
Definition setpipe (i : nat) (p : pipe) : M (files S) unit :=
  modify (fun s => set_pipes (<[i := p]> (fl_pipes s)) s).
End State.

Definition set_f_ref (r : Z) (f : file) : file :=
  mk_file (f_type f) r (f_readable f) (f_writable f) (f_pipe f) (f_ip f) (f_off f).
Definition set_f_type (t : fdtype) (f : file) : file :=
  mk_file t (f_ref f) (f_readable f) (f_writable f) (f_pipe f) (f_ip f) (f_off f).
Definition set_f_off (o : Z) (f : file) : file :=
  mk_file (f_type f) (f_ref f) (f_readable f) (f_writable f) (f_pipe f) (f_ip f) o.

Section Ops.
Context {S : Type} `{InodeIO S}.
Notation F := (M (files S)).
Definition ino {A} (c : M S A) : F A := lift c.

Fixpoint find_free (i : nat) (l : list file) : option nat :=
  match l with
  | [] => None
  | f :: l' => if f_ref f =? 0 then Some i else find_free (Datatypes.S i) l'
  end.

Definition filealloc : F (option nat) :=
  acquire "ftable" ;;;
  l <- gets fl_table ;;
  match find_free 0 l with
  | Some i => putf i (set_f_ref 1) ;;; release "ftable" ;;; kret (Some i)
  | None => release "ftable" ;;; kret None
  end.

Definition filedup (i : nat) : F nat :=
  acquire "ftable" ;;;
  f <- getf i ;;
  if f_ref f <? 1 then panic "filedup"
  else
    putf i (set_f_ref (s32 (f_ref f + 1))) ;;;
    release "ftable" ;;;
    kret i.

(** [pipeclose] on the pipe store; the page goes back when both ends are closed. *)
Definition close_pipe (p : nat) (w : bool) : F unit :=
  q <- getpipe p ;;
  let '(q', freed) := pipeclose w q in
  setpipe p q' ;;;
  when freed do ino ii_kfree.

Definition fileclose (i : nat) : F unit :=
  acquire "ftable" ;;;
  f <- getf i ;;
  if f_ref f <? 1 then panic "fileclose"
  else
    putf i (set_f_ref (f_ref f - 1)) ;;;
    if 0 <? f_ref f - 1 then release "ftable"
    else
      ff <- getf i ;;
      putf i (set_f_ref 0) ;;;
      putf i (set_f_type FD_NONE) ;;;
      release "ftable" ;;;
      match f_type ff with
      | FD_PIPE => close_pipe (f_pipe ff) (f_writable ff)
      | FD_INODE => ino ii_begin ;;; ino (ii_put (f_ip ff)) ;;; ino ii_end
      | FD_NONE => kret tt
      end.

(** [filestat]: the metadata, or -1. *)
Definition filestat (i : nat) : F (option stat) :=
  f <- getf i ;;
  if decide (f_type f = FD_INODE) then
    ino (ii_lock (f_ip f)) ;;;
    st <- ino (ii_stat (f_ip f)) ;;
    ino (ii_unlock (f_ip f)) ;;;
    kret (Some st)
  else kret None.

(** [fileread]: -1, or the bytes read.  A pipe on which the reader would
    sleep blocks. *)
Definition fileread (i : nat) (n : Z) : F (option (list Z)) :=
  f <- getf i ;;
  if negb (f_readable f) then kret None
  else match f_type f with
  | FD_PIPE =>
      p <- getpipe (f_pipe f) ;;
      let '(p', r) := piperead false (Z.to_nat n) p in
      setpipe (f_pipe f) p' ;;;
      match r with
      | RRet bs => kret (Some bs)
      | RErr => kret None
      | RSleep => block "pipe"
      end
  | FD_INODE =>
      ino (ii_lock (f_ip f)) ;;;
      r <- ino (ii_read (f_ip f) (f_off f) n) ;;
      (match r with
       | Some bs => when 0 <? Z.of_nat (length bs) do putf i (set_f_off (u32 (f_off f + Z.of_nat (length bs))))
       | None => kret tt
       end) ;;;
      ino (ii_unlock (f_ip f)) ;;;
      kret r
  | FD_NONE => panic "fileread"
  end.

(** The most bytes one transaction writes. *)
Definition write_max : Z := ((MAXOPBLOCKS - 1 - 1 - 2) / 2) * 512.

(** The loop of [filewrite]; the result tells whether every byte was written. *)
Fixpoint filewrite_loop (fuel : nat) (i : nat) (bs : list Z) : F bool :=
  match fuel with
  | O => nofuel
  | Datatypes.S fuel' =>
      match bs with
      | [] => kret true
      | _ =>
          let n1 := Z.to_nat (Z.min (Z.of_nat (length bs)) write_max) in
          f <- getf i ;;
          ino ii_begin ;;;
          ino (ii_lock (f_ip f)) ;;;
          r <- ino (ii_write (f_ip f) (take n1 bs) (f_off f)) ;;
          (match r with
           | Some k => when 0 <? k do putf i (set_f_off (u32 (f_off f + k)))
           | None => kret tt
           end) ;;;
          ino (ii_unlock (f_ip f)) ;;;
          ino ii_end ;;;
          match r with
          | None => kret false
          | Some k =>
              if negb (k =? Z.of_nat n1) then panic "short filewrite"
              else filewrite_loop fuel' i (drop n1 bs)
          end
      end
  end.

(** [filewrite]: the number of bytes, or -1.  Each round writes at least one. *)
Definition filewrite (i : nat) (bs : list Z) : F Z :=
  f <- getf i ;;
  if negb (f_writable f) then kret (-1)
  else match f_type f with
  | FD_PIPE =>
      p <- getpipe (f_pipe f) ;;
      let '(p', r) := pipewrite false bs p in
      setpipe (f_pipe f) p' ;;;
      match r with
      | WRet n => kret n
      | WErr => kret (-1)
      | WSleep _ => block "pipe"
      end
  | FD_INODE =>
      ok <- filewrite_loop (Datatypes.S (length bs)) i bs ;;
      kret (if ok : bool then Z.of_nat (length bs) else -1)
  | FD_NONE => panic "filewrite"
  end.

Definition fileseek (i : nat) (offset whence : Z) : F Z :=
  acquire "ftable" ;;;
  f <- getf i ;;
  ino (ii_lock (f_ip f)) ;;;
  size <- ino (ii_size (f_ip f)) ;;
  ino (ii_unlock (f_ip f)) ;;;
  status <-
    (if whence =? SEEK_SET then
       if size <? u32 offset then kret (-1)
       else putf i (set_f_off (u32 offset)) ;;; kret 0
     else if whence =? SEEK_CUR then
       if size <? u32 (f_off f + offset) then kret (-1)
       else putf i (set_f_off (u32 (f_off f + offset))) ;;; kret 0
     else if whence =? SEEK_END then
       if decide (f_type f = FD_INODE) then
         if size <? u32 offset then kret (-1)
         else putf i (set_f_off (u32 (size + offset))) ;;; kret 0
       else kret (-1)
     else kret (-1)) ;;
  release "ftable" ;;;
  kret status.

(** The loop of [filetruncate]; [length] decreases by [write_max] until it is
    no longer positive. *)
Fixpoint truncate_loop (fuel : nat) (i : nat) (len : Z) : F Z :=
  match fuel with
  | O => nofuel
  | Datatypes.S fuel' =>
      if negb (0 <? len) then kret 0
      else
        r <- filewrite i (replicate (Z.to_nat (Z.min write_max len)) 0) ;;
        if r <? 0 then kret (-1)
        else truncate_loop fuel' i (s32 (len - write_max))
  end.
Definition filetruncate (i : nat) (len : Z) : F Z :=
  ino ii_begin ;;;
  f <- getf i ;;
  ino (ii_lock (f_ip f)) ;;;
  size <- ino (ii_size (f_ip f)) ;;
  ino (ii_unlock (f_ip f)) ;;;
  ino ii_end ;;;
  if u32 len <? size then kret (-1)
  else if size =? u32 len then kret 0
  else truncate_loop (Datatypes.S (Z.to_nat len)) i len.

(** [pipealloc]: the read end and the write end of a new pipe. *)
Definition pipealloc : F (option (nat * nat)) :=
  f0 <- filealloc ;;
  match f0 with
  | None => kret None
  | Some i0 =>
      f1 <- filealloc ;;
      match f1 with
      | None => fileclose i0 ;;; kret None
      | Some i1 =>
          pg <- ino ii_kalloc ;;
          match pg with
          | None => fileclose i0 ;;; fileclose i1 ;;; kret None
          | Some page =>
              n <- gets (fun s => length (fl_pipes s)) ;;
              modify (fun s => set_pipes (fl_pipes s ++ [new_pipe page]) s) ;;;
              putf i0 (fun f => mk_file FD_PIPE (f_ref f) true false n (f_ip f) (f_off f)) ;;;
              putf i1 (fun f => mk_file FD_PIPE (f_ref f) false true n (f_ip f) (f_off f)) ;;;
              kret (Some (i0, i1))
          end
      end
  end.
End Ops.
