(* ===== verification/Bytefile.v ===== *)
(** * Open files over a byte file (file.c)

    The file system as an open file sees it: an inode is its bytes, reading
    and writing behave as [readi] and [writei] do ([Fsfile]).  Over it the
    loops of [fileread], [filewrite] and [fileseek] are proved to act on a
    file as a whole. *)

From S2P Require Import Prelude Layout Fs Pipe File.

(** The largest file: MAXFILE * BSIZE. *)
Definition FILEMAX : Z := 140 * 512.

Definition size_of (b : list Z) : Z := Z.of_nat (length b).

(** [readi] and [writei] on the bytes of a file. *)
Definition bytes_read (off n : Z) (b : list Z) : option (list Z) :=
  if (size_of b <? off) || (u32 (off + n) <? off) then None
  else
    let n' := if size_of b <? u32 (off + n) then size_of b - off else n in
    Some (take (Z.to_nat n') (drop (Z.to_nat off) b)).

Definition splice_at (off : nat) (bs b : list Z) : list Z :=
  take off b ++ bs ++ drop (off + length bs) b.

Definition bytes_write (bs : list Z) (off : Z) (b : list Z) : option (list Z) :=
  let n := size_of bs in
  if (size_of b <? off) || (u32 (off + n) <? off) then None
  else if FILEMAX <? off + n then None
  else Some (splice_at (Z.to_nat off) bs b).

(** One inode, whose content is the state. *)
#[export] Instance byte_inode : InodeIO (list Z) := {|
  ii_begin := kret tt;
  ii_end := kret tt;
  ii_lock := fun _ => kret tt;
  ii_unlock := fun _ => kret tt;
  ii_size := fun _ => gets size_of;
  ii_stat := fun _ => gets (fun b => mk_stat 2 1 0 1 (size_of b));
  ii_read := fun _ off n => gets (bytes_read off n);
  ii_write := fun _ bs off => fun b =>
    match bytes_write bs off b with
    | Some b' => Ok (Some (size_of bs)) b'
    | None => Ok None b
    end;
  ii_put := fun _ => kret tt;
  ii_kalloc := kret None;
  ii_kfree := kret tt
|}.

Notation fstate := (files (list Z)).

(** File [i] of the table is open for reading and writing at [off]. *)
Record open_at (i : nat) (off : Z) (b : list Z) (s : fstate) : Prop := {
  oa_file : exists f, fl_table s !! i = Some f /\ f_type f = FD_INODE /\ f_readable f = true /\ f_writable f = true /\ f_off f = off;
  oa_bytes : fl_inodes s = b;
  oa_locks : "ftable" ∉ fl_held s
}.

(** The state with the file moved and its bytes replaced. *)
Definition moved (i : nat) (off : Z) (b : list Z) (s : fstate) : fstate :=
  mk_files (alter (set_f_off off) i (fl_table s)) (fl_pipes s) b (fl_held s).

Lemma moved_open i off off' b b' s : open_at i off b s -> open_at i off' b' (moved i off' b' s).
Proof.
  intros [(f & Hf & Ht & Hr & Hw & Ho) Hb Hl]. split; [|done|done].
  exists (set_f_off off' f). simpl. by rewrite list_lookup_alter_eq, Hf.
Qed.

Lemma moved_twice i o1 b1 o2 b2 s : moved i o2 b2 (moved i o1 b1 s) = moved i o2 b2 s.
Proof.
  unfold moved. simpl. f_equal. apply list_eq. intros k. destruct (decide (k = i)) as [->|Hk].
  - rewrite !list_lookup_alter_eq. by destruct (fl_table s !! i) as [[]|].
  - by rewrite !list_lookup_alter_ne.
Qed.

Lemma moved_self i off b s : open_at i off b s -> moved i off b s = s.
Proof.
  intros [(f & Hf & Ht & Hr & Hw & Ho) Hb _]. unfold moved. destruct s as [tb ps ino h]. simpl in *. subst ino. f_equal.
  apply list_eq. intros k. destruct (decide (k = i)) as [->|Hk]; [|by rewrite list_lookup_alter_ne].
  rewrite list_lookup_alter_eq, Hf. destruct f. simpl in *. by subst.
Qed.

Lemma putf_table i g f (s : fstate) :
  fl_table s !! i = Some f -> putf i g s = Ok tt (set_table (alter g i (fl_table s)) s).
Proof.
  intros Hf. unfold putf, getf, kbind, kget, deref. rewrite Hf. unfold kret, modify. do 2 f_equal.
  apply list_eq. intros k. destruct (decide (k = i)) as [->|Hk].
  - rewrite list_lookup_insert_eq by (by eapply lookup_lt_Some). by rewrite list_lookup_alter_eq, Hf.
  - by rewrite list_lookup_insert_ne, list_lookup_alter_ne.
Qed.

Section Run.
Context (i : nat) (off : Z) (b : list Z) (s : fstate) (Hop : open_at i off b s).

Lemma getf_run : exists f, getf i s = Ok f s /\ f_type f = FD_INODE /\ f_readable f = true /\ f_writable f = true /\ f_off f = off.
Proof.
  destruct (oa_file _ _ _ _ Hop) as (f & Hf & Hrest). exists f. split; [|done]. unfold getf, kbind, kget, deref. by rewrite Hf.
Qed.

Lemma putf_run o b' : putf i (set_f_off o) (set_inodes b' s) = Ok tt (moved i o b' s).
Proof. destruct (oa_file _ _ _ _ Hop) as (f & Hf & _). by rewrite (putf_table _ _ f). Qed.
End Run.

(** ** Writing in pieces is writing at once *)

Lemma length_splice_at off bs b :
  (off <= length b)%nat -> length (splice_at off bs b) = Nat.max (length b) (off + length bs).
Proof. intros Ho. unfold splice_at. rewrite !length_app, length_take, length_drop. lia. Qed.

Lemma splice_app off x y b :
  (off <= length b)%nat -> splice_at (off + length x) y (splice_at off x b) = splice_at off (x ++ y) b.
Proof.
  intros Ho. unfold splice_at.
  assert (length (take off b ++ x) = (off + length x)%nat) as Hl by (rewrite length_app, length_take; lia).
  rewrite (app_assoc (take off b) x (drop _ b)), <- Hl, take_app_length, drop_app_ge by lia.
  rewrite drop_drop, <- !app_assoc. do 4 f_equal. rewrite !length_app, !length_take. lia.
Qed.

Lemma splice_nil off b : splice_at off [] b = b.
Proof. unfold splice_at. simpl. rewrite Nat.add_0_r. apply take_drop. Qed.

Lemma held_back (s : fstate) : "ftable" ∉ fl_held s -> set_fl_held (({["ftable"]} ∪ fl_held s) ∖ {["ftable"]}) s = s.
Proof. intros Hl. rewrite held_cycle by done. by destruct s. Qed.

(** Every byte fits, or the pieces that fit have been written. *)
Definition fits (off n : Z) : Z :=
  if off + n <=? FILEMAX then n else (FILEMAX - off) / write_max * write_max.

Lemma ino_skip {A} (k : M fstate A) s : (ino (kret tt) ;;; k) s = k s.
Proof. unfold ino, lift, kbind, kret. simpl. by destruct s. Qed.

Lemma one_write i off b s x :
  open_at i off b s -> 0 <= off <= size_of b -> size_of b <= FILEMAX -> size_of x <= write_max -> x <> [] ->
  forall k, 
  (f <- getf i ;;
   ino ii_begin ;;;
   ino (ii_lock (f_ip f)) ;;;
   r <- ino (ii_write (f_ip f) x (f_off f)) ;;
   (match r with
    | Some k => when 0 <? k do putf i (set_f_off (u32 (f_off f + k)))
    | None => kret tt
    end) ;;;
   ino (ii_unlock (f_ip f)) ;;;
   ino ii_end ;;;
   k r) s =
  if off + size_of x <=? FILEMAX
  then k (Some (size_of x)) (moved i (off + size_of x) (splice_at (Z.to_nat off) x b) s) : outcome fstate bool
  else k None s.
Proof.
  intros Hop Ho Hb Hx Hne k. destruct (getf_run i off b s Hop) as (f & Hg & _ & _ & _ & Hfo).
  assert (0 < size_of x) as Hpos by (destruct x; [done|unfold size_of; simpl; lia]).
  rewrite (kbind_ok _ _ _ _ _ Hg). cbn [ii_begin ii_end ii_lock ii_unlock ii_write byte_inode]. rewrite !ino_skip.
  unfold kbind at 1, ino at 1, lift at 1. cbn [sub_get sub_put files_sub]. rewrite (oa_bytes _ _ _ _ Hop), Hfo.
  unfold bytes_write. assert (u32 (off + size_of x) = off + size_of x) as Hu.
  { unfold write_max, MAXOPBLOCKS, FILEMAX in *. apply u32_id. change ((10 - 1 - 1 - 2) / 2 * 512) with 1536 in Hx. lia. }
  rewrite (proj2 (Z.ltb_ge _ _)), Hu, (proj2 (Z.ltb_ge _ _)) by lia. cbn [orb].
  destruct (Z.leb_spec (off + size_of x) FILEMAX) as [Hfit|Hno].
  - rewrite (proj2 (Z.ltb_ge _ _)) by lia. unfold kbind at 1. rewrite (proj2 (Z.ltb_lt _ _)) by lia.
    rewrite (putf_run i off b s Hop (u32 (off + size_of x)) (splice_at (Z.to_nat off) x b)), Hu, !ino_skip. done.
  - rewrite (proj2 (Z.ltb_lt _ _)) by lia. unfold kbind at 1, kret at 1. rewrite !ino_skip.
    f_equal. destruct s; unfold set_inodes; simpl. f_equal. symmetry. apply (oa_bytes _ _ _ _ Hop).
Qed.

(** The state after the bytes that fit are written. *)
Definition written (i : nat) (off : Z) (bs b : list Z) (s : fstate) : fstate :=
  let k := fits off (size_of bs) in
  moved i (off + k) (splice_at (Z.to_nat off) (take (Z.to_nat k) bs) b) s.

Lemma write_max_val : write_max = 1536.
Proof. reflexivity. Qed.

Lemma written_step i off bs b s (n1 := Z.min (size_of bs) write_max) :
  0 <= off <= size_of b -> off + n1 <= FILEMAX ->
  written i (off + n1) (drop (Z.to_nat n1) bs) (splice_at (Z.to_nat off) (take (Z.to_nat n1) bs) b)
    (moved i (off + n1) (splice_at (Z.to_nat off) (take (Z.to_nat n1) bs) b) s) = written i off bs b s.
Proof.
  intros Ho Hfit. subst n1. rewrite write_max_val in *. unfold written. rewrite moved_twice.
  set (n1 := Z.min (size_of bs) 1536) in *.
  assert (0 <= n1 <= size_of bs) as Hn1 by (unfold n1, size_of; lia).
  assert (size_of (drop (Z.to_nat n1) bs) = size_of bs - n1) as Hd by (unfold size_of in *; rewrite length_drop; lia).
  assert (n1 + fits (off + n1) (size_of bs - n1) = fits off (size_of bs)) as Hk.
  { unfold fits. rewrite write_max_val. replace (off + n1 + (size_of bs - n1)) with (off + size_of bs) by lia.
    destruct (Z.leb_spec (off + size_of bs) FILEMAX); [lia|].
    replace n1 with 1536 by lia. replace (FILEMAX - off) with (FILEMAX - (off + 1536) + 1 * 1536) by lia.
    rewrite Z.div_add by lia. lia. }
  assert (0 <= fits (off + n1) (size_of bs - n1)) as Hpos.
  { unfold fits. destruct (_ <=? _); [lia|]. rewrite write_max_val. pose proof (Z.div_pos (FILEMAX - (off + n1)) 1536). lia. }
  rewrite Hd. set (k := fits (off + n1) (size_of bs - n1)) in *. rewrite <- Hk, Z.add_assoc. f_equal.
  replace (Z.to_nat (off + n1)) with (Z.to_nat off + length (take (Z.to_nat n1) bs))%nat
    by (unfold size_of in *; rewrite length_take; lia).
  rewrite splice_app by (unfold size_of in *; lia). f_equal.
  rewrite Z2Nat.inj_add by lia. apply take_take_drop.
Qed.

Lemma filewrite_loop_run fuel i off bs b s :
  open_at i off b s -> 0 <= off <= size_of b -> size_of b <= FILEMAX -> (length bs < fuel)%nat ->
  filewrite_loop fuel i bs s = Ok (off + size_of bs <=? FILEMAX) (written i off bs b s).
Proof.
  revert off bs b s. induction fuel as [|fuel IH]; intros off bs b s Hop Ho Hb Hf; [lia|].
  destruct (decide (bs = [])) as [->|Hne].
  { simpl. unfold kret, written, fits. change (size_of []) with 0. rewrite (proj2 (Z.leb_le _ _)) by lia.
    change (take (Z.to_nat 0) []) with (@nil Z). by rewrite splice_nil, Z.add_0_r, (moved_self i off b s). }
  assert (0 < size_of bs) as Hpos by (destruct bs; [done|unfold size_of; simpl; lia]).
  set (n1 := Z.min (size_of bs) write_max).
  assert (0 < n1 <= size_of bs) as Hn1 by (unfold n1; rewrite write_max_val; lia).
  set (x := take (Z.to_nat n1) bs).
  assert (size_of x = n1) as Hx by (unfold size_of, x in *; rewrite length_take; lia).
  assert (x <> []) as Hxne by (intros Hx0; rewrite Hx0 in Hx; unfold size_of in Hx; simpl in Hx; lia).
  transitivity (if off + size_of x <=? FILEMAX
    then filewrite_loop fuel i (drop (Z.to_nat n1) bs) (moved i (off + size_of x) (splice_at (Z.to_nat off) x b) s)
    else Ok false s).
  { destruct bs as [|z bs']; [done|]. cbn [filewrite_loop].
    etransitivity; [apply (one_write i off b s x Hop Ho Hb)|]; [unfold n1 in *; lia|done|].
    destruct (_ <=? _); [|done]. by rewrite Hx, Z2Nat.id, Z.eqb_refl by lia. }
  rewrite Hx. destruct (Z.leb_spec (off + n1) FILEMAX) as [Hfit|Hno].
  - rewrite (IH (off + n1) _ (splice_at (Z.to_nat off) x b)).
    + pose proof (written_step i off bs b s Ho Hfit) as Hst. fold n1 x in Hst. rewrite Hst. do 2 f_equal. unfold size_of in *. rewrite length_drop. lia.
    + by apply moved_open with off b.
    + unfold size_of in *. rewrite length_splice_at by lia. lia.
    + unfold size_of in *. rewrite length_splice_at by lia. lia.
    + unfold size_of in *. rewrite length_drop. lia.
  - rewrite (proj2 (Z.leb_gt _ _)) by lia. f_equal. unfold written, fits. rewrite (proj2 (Z.leb_gt _ _)) by lia.
    rewrite write_max_val. assert (n1 <= 1536) by (unfold n1; rewrite write_max_val; lia). rewrite Z.div_small by lia. simpl.
    by rewrite splice_nil, Z.add_0_r, (moved_self i off b s).
Qed.

(** ** The system calls on a file *)

Lemma filewrite_run i off bs b s :
  open_at i off b s -> 0 <= off <= size_of b -> size_of b <= FILEMAX ->
  filewrite i bs s = Ok (if off + size_of bs <=? FILEMAX then size_of bs else -1) (written i off bs b s).
Proof.
  intros Hop Ho Hb. destruct (getf_run i off b s Hop) as (f & Hg & Ht & _ & Hw & _).
  unfold filewrite. rewrite (kbind_ok _ _ _ _ _ Hg), Hw, Ht. cbn [negb].
  erewrite kbind_ok by (apply (filewrite_loop_run _ i off bs b s Hop Ho Hb); lia). done.
Qed.

Lemma fileread_run i off n b s :
  open_at i off b s -> 0 <= off <= size_of b -> 0 <= n -> off + n < 2 ^ 32 -> size_of b < 2 ^ 32 ->
  let x := take (Z.to_nat n) (drop (Z.to_nat off) b) in
  fileread i n s = Ok (Some x) (moved i (off + size_of x) b s).
Proof.
  intros Hop Ho Hn Hm Hsz x. destruct (getf_run i off b s Hop) as (f & Hg & Ht & Hr & _ & Hfo).
  assert (size_of x = Z.min n (size_of b - off)) as Hx by (unfold x, size_of in *; rewrite length_take, length_drop; lia).
  unfold fileread. rewrite (kbind_ok _ _ _ _ _ Hg), Hr, Ht. cbn [negb ii_lock ii_unlock ii_read byte_inode].
  rewrite ino_skip. unfold kbind at 1, ino at 1, lift at 1, gets. cbn [sub_get sub_put files_sub].
  rewrite (oa_bytes _ _ _ _ Hop), Hfo. unfold bytes_read. rewrite (u32_id (off + n)) by lia.
  rewrite (proj2 (Z.ltb_ge (size_of b) off)), (proj2 (Z.ltb_ge (off + n) off)) by lia. cbn [orb].
  replace (take (Z.to_nat (if size_of b <? off + n then size_of b - off else n)) (drop (Z.to_nat off) b)) with x.
  2: { unfold x. destruct (Z.ltb_spec (size_of b) (off + n)); [|done].
       unfold size_of in *. rewrite !take_ge; rewrite ?length_drop; lia || done. }
  unfold kbind at 1. change (Z.of_nat (length x)) with (size_of x). destruct (Z.ltb_spec 0 (size_of x)).
  - rewrite (putf_run i off b s Hop), u32_id, ino_skip by lia. done.
  - unfold kret at 1. rewrite ino_skip. replace (size_of x) with 0 by (unfold size_of in *; lia).
    rewrite Z.add_0_r, (moved_self i off b s) by done. unfold kret. f_equal. destruct s. unfold set_inodes. simpl. f_equal.
    symmetry. apply (oa_bytes _ _ _ _ Hop).
Qed.

Lemma acquire_run (s : fstate) : "ftable" ∉ fl_held s -> acquire "ftable" s = Ok tt (set_fl_held ({["ftable"]} ∪ fl_held s) s).
Proof. intros Hl. unfold acquire. by rewrite decide_False. Qed.

Lemma release_run (s : fstate) : "ftable" ∉ fl_held s -> release "ftable" (set_fl_held ({["ftable"]} ∪ fl_held s) s) = Ok tt s.
Proof.
  intros Hl. unfold release. rewrite decide_True by set_solver. simpl. f_equal. rewrite held_cycle by done. by destruct s.
Qed.

Lemma fileseek_run i off o b s :
  open_at i off b s -> 0 <= o < 2 ^ 31 ->
  fileseek i o SEEK_SET s = (if size_of b <? o then Ok (-1) s else Ok 0 (moved i o b s)).
Proof.
  intros Hop Ho. pose proof (oa_locks _ _ _ _ Hop) as Hl. unfold fileseek. rewrite (kbind_ok _ _ _ _ _ (acquire_run s Hl)).
  set (s1 := set_fl_held _ s). destruct (oa_file _ _ _ _ Hop) as (f & Hf & _ & _ & _ & Hfo).
  assert (getf i s1 = Ok f s1) as Hg by (unfold getf, kbind, kget, deref; simpl; by rewrite Hf).
  rewrite (kbind_ok _ _ _ _ _ Hg). cbn [ii_lock ii_unlock ii_size byte_inode]. rewrite ino_skip.
  assert (ino (gets size_of) s1 = Ok (size_of b) s1) as Hsz.
  { unfold ino, lift, gets. simpl. rewrite (oa_bytes _ _ _ _ Hop). destruct s. simpl in *. by rewrite <- (oa_bytes _ _ _ _ Hop). }
  rewrite (kbind_ok _ _ _ _ _ Hsz), ino_skip. change (SEEK_SET =? SEEK_SET) with true. cbv iota. rewrite u32_id by lia.
  destruct (Z.ltb_spec (size_of b) o) as [Hlt|Hge].
  - unfold kbind at 1, kret at 1. by rewrite (kbind_ok _ _ _ _ _ (release_run s Hl)).
  - erewrite kbind_ok by (erewrite kbind_ok by (apply (putf_table _ _ f); done); reflexivity).
    change (set_table _ s1) with (set_fl_held ({["ftable"]} ∪ fl_held (moved i o b s)) (set_table (alter (set_f_off o) i (fl_table s)) s)).
    rewrite (kbind_ok _ _ _ _ _ (release_run (set_table _ s) Hl)). unfold kret, moved, set_table.
    by rewrite (oa_bytes _ _ _ _ Hop).
Qed.

(** C27: [filewrite] splits a write into transactions of at most 1536 bytes;
    it is nevertheless equivalent to the single write [bytes_write] of all the
    bytes at the file's offset, and moves the offset by their number.  When
    the file would exceed its largest size, where the single write refuses,
    -1 is returned after exactly the leading transactions that fit. *)
Theorem filewrite_whole i off bs b s :
  open_at i off b s -> 0 <= off <= size_of b -> size_of b <= FILEMAX -> size_of bs < 2 ^ 31 ->
  filewrite i bs s =
  match bytes_write bs off b with
  | Some b' => Ok (size_of bs) (moved i (off + size_of bs) b' s)
  | None =>
      let k := (FILEMAX - off) / write_max * write_max in
      Ok (-1) (moved i (off + k) (splice_at (Z.to_nat off) (take (Z.to_nat k) bs) b) s)
  end.
Proof.
  intros Hop Ho Hb Hn. assert (0 <= size_of bs) by (unfold size_of; lia).
  assert (u32 (off + size_of bs) = off + size_of bs) as Hu by (apply u32_id; unfold FILEMAX in *; lia).
  rewrite (filewrite_run i off bs b s Hop Ho Hb). unfold bytes_write, written, fits.
  rewrite (proj2 (Z.ltb_ge (size_of b) off)), Hu, (proj2 (Z.ltb_ge (off + size_of bs) off)) by lia. cbn [orb].
  destruct (Z.leb_spec (off + size_of bs) FILEMAX).
  - rewrite (proj2 (Z.ltb_ge _ _)) by lia. unfold size_of at 3. rewrite Nat2Z.id, take_ge; done.
  - by rewrite (proj2 (Z.ltb_lt _ _)) by lia.
Qed.

Definition demo_files (b : list Z) : fstate :=
  mk_files [mk_file FD_NONE 0 false false 0 0 0; mk_file FD_INODE 1 true true 0 0 3] [] b ∅.

Lemma demo_open b : open_at 1 3 b (demo_files b).
Proof. split; [by eexists|done|]. apply not_elem_of_empty. Qed.

Lemma filewrite_whole_witness :
  filewrite 1 [7; 8] (demo_files [0; 1; 2; 3]) = Ok 2 (moved 1 5 [0; 1; 2; 7; 8] (demo_files [0; 1; 2; 3])).
Proof.
  assert (bytes_write [7; 8] 3 [0; 1; 2; 3] = Some [0; 1; 2; 7; 8]) as Hw by (vm_compute; reflexivity).
  rewrite (filewrite_whole 1 3 [7; 8] [0; 1; 2; 3] _ (demo_open _)) by (vm_compute; intuition discriminate).
  rewrite Hw. reflexivity.
Defined.
