(* ===== verification/Filesim.v ===== *)
(** * Open files over any inode layer (file.c)

    [Bytefile] runs the operations of [File] on an inode that is its bytes and
    never fails.  Here they run on an inode layer of which only this is
    assumed: what its calls on one inode return is what the byte file returns,
    and instead of returning they may sleep or stop (a full disk, for
    instance).  The operations then do what they do on the byte file, or sleep
    or stop inside the inode layer. *)

From S2P Require Import Prelude Layout Fs Pipe File Bytefile.

(** The messages with which the inode layer below may panic or fault: a full
    disk, a full inode cache, a bad inode. *)
Class FsStops := fs_stop : string -> Prop.

(** ** Runs that agree, or stop in the inode layer *)

Definition sim `{FsStops} {S T A : Type} (R : S -> T -> Prop) (c : M S A) (d : M T A) : Prop :=
  forall s t, R s t ->
  match c s with
  | Ok a s' => exists t', d t = Ok a t' /\ R s' t'
  | Block _ => True
  | Panic m => fs_stop m \/ d t = Panic m
  | Fault m => fs_stop m \/ d t = Fault m
  | NoFuel => d t = NoFuel
  end.

Section Sim.
Context `{FsStops} {S T : Type} (R : S -> T -> Prop).

Lemma sim_ret {A} (a : A) : sim R (kret a) (kret a).
Proof. intros s t Hr. by exists t. Qed.
Lemma sim_panic {A} m : sim R (panic m : M S A) (panic m).
Proof. intros s t Hr. by right. Qed.
Lemma sim_nofuel {A} : sim R (nofuel : M S A) nofuel.
Proof. done. Qed.
Lemma sim_deref {A} (o : option A) : sim R (deref o) (deref o).
Proof. destruct o; [apply sim_ret|]. intros s t Hr. by right. Qed.
Lemma sim_bind {A B} (c : M S A) (d : M T A) (f : A -> M S B) (g : A -> M T B) :
  sim R c d -> (forall a, sim R (f a) (g a)) -> sim R (kbind c f) (kbind d g).
Proof.
  intros Hc Hf s t Hr. unfold kbind. specialize (Hc s t Hr). destruct (c s) as [a s'|m|m| |]; [|by destruct Hc as [| ->]; auto|by destruct Hc as [| ->]; auto|done|by rewrite Hc].
  destruct Hc as (t' & -> & Hr'). by apply Hf.
Qed.
Lemma sim_gets {A} (f : S -> A) (g : T -> A) : (forall s t, R s t -> f s = g t) -> sim R (gets f) (gets g).
Proof. intros Hfg s t Hr. exists t. unfold gets. by rewrite (Hfg s t Hr). Qed.
Lemma sim_modify (f : S -> S) (g : T -> T) : (forall s t, R s t -> R (f s) (g t)) -> sim R (modify f) (modify g).
Proof. intros Hfg s t Hr. exists (g t). split; [done|by apply Hfg]. Qed.
End Sim.

(** [upto c Q s]: from [s], [c] returns with [Q], or sleeps, or stops in the
    inode layer. *)
Definition upto `{FsStops} {S A : Type} (c : M S A) (Q : A -> S -> Prop) (s : S) : Prop :=
  match c s with
  | Ok a s' => Q a s'
  | Block _ => True
  | Panic m | Fault m => fs_stop m
  | NoFuel => False
  end.

Lemma sim_upto `{FsStops} {S T A : Type} (R : S -> T -> Prop) (c : M S A) (d : M T A) s t a t' :
  sim R c d -> R s t -> d t = Ok a t' -> upto c (fun b s' => b = a /\ R s' t') s.
Proof.
  intros Hc Hr E. specialize (Hc s t Hr). rewrite E in Hc. unfold upto. destruct (c s) as [b s'|m|m| |]; [|by destruct Hc..|done|done].
  destruct Hc as (t'' & E' & Hr'). by simplify_eq.
Qed.

Lemma upto_mono `{FsStops} {S A : Type} (c : M S A) (Q Q' : A -> S -> Prop) s : upto c Q s -> (forall a s', Q a s' -> Q' a s') -> upto c Q' s.
Proof. unfold upto. destruct (c s); auto. Qed.

Ltac sim_step :=
  lazymatch goal with
  | |- sim _ (kbind _ _) (kbind _ _) => apply sim_bind; [|intros ?]
  | |- sim _ (kret _) (kret _) => apply sim_ret
  | |- sim _ (panic _) (panic _) => apply sim_panic
  | |- sim _ nofuel nofuel => apply sim_nofuel
  | |- sim _ (deref _) (deref _) => apply sim_deref
  | |- sim _ (match ?x with _ => _ end) _ => destruct x
  end.

(** ** The inode layer *)

(** Inode [ip] of the layer is a byte file; [R] relates the states of the
    layer to the bytes. *)
Class ByteInode {S : Type} `{FsStops} `{InodeIO S} (ip : nat) (R : S -> list Z -> Prop) : Prop := {
  bi_begin : sim R ii_begin (kret tt);
  bi_end : sim R ii_end (kret tt);
  bi_lock : sim R (ii_lock ip) (kret tt);
  bi_unlock : sim R (ii_unlock ip) (kret tt);
  bi_size : sim R (ii_size ip) (gets size_of);
  bi_read : forall off n, sim R (ii_read ip off n) (gets (bytes_read off n));
  bi_write : forall bs off, sim R (ii_write ip bs off) (ii_write 0 bs off)
}.

Section Files.
Context {S : Type} `{FP : FsStops} `{HI : InodeIO S} (ip : nat) (R : S -> list Z -> Prop) {HB : ByteInode ip R} (i : nat).

(** The same table; its entry [i] is open on the inode. *)
Record frel (s : files S) (t : fstate) : Prop := {
  fr_table : fl_table s = fl_table t;
  fr_pipes : fl_pipes s = fl_pipes t;
  fr_held : fl_held s = fl_held t;
  fr_inode : R (fl_inodes s) (fl_inodes t);
  fr_file : exists f, fl_table t !! i = Some f /\ f_ip f = ip /\ f_type f = FD_INODE
}.

Lemma ino_sim {A} (c : M S A) (d : M (list Z) A) : sim R c d -> sim frel (ino c) (ino d).
Proof.
  intros Hc s t [Ht Hp Hh Hr Hf]. unfold ino, lift. cbn [sub_get files_sub]. specialize (Hc _ _ Hr).
  destruct (c (fl_inodes s)) as [a s'|m|m| |]; [|by destruct Hc as [| ->]; auto|by destruct Hc as [| ->]; auto|done|by rewrite Hc]. destruct Hc as (t' & -> & Hr'). eexists. split; [done|]. by split.
Qed.

Lemma getf_sim {A} (k : file -> M (files S) A) (k' : file -> M fstate A) :
  (forall f, f_ip f = ip -> f_type f = FD_INODE -> sim frel (k f) (k' f)) -> sim frel (f <- getf i ;; k f) (f <- getf i ;; k' f).
Proof.
  intros Hk s t Hr. destruct (fr_file _ _ Hr) as (f & Hf & Hip & Hty). unfold getf, kbind, kget, deref.
  rewrite (fr_table _ _ Hr), Hf. by apply Hk.
Qed.

Lemma putf_sim o : sim frel (putf i (set_f_off o)) (putf i (set_f_off o)).
Proof.
  apply getf_sim. intros f Hip Hty. apply sim_modify. intros s t [Ht Hp Hh Hr (f' & Hf & _)]. split; try done; cbn.
  - by rewrite Ht.
  - exists (set_f_off o f). split; [|done]. apply list_lookup_insert_eq. by eapply lookup_lt_Some.
Qed.

Lemma acquire_sim l : sim frel (acquire l) (acquire l).
Proof.
  intros s t [Ht Hp Hh Hr Hf]. unfold acquire. cbn [held set_held files_locks]. rewrite Hh.
  case_decide; [by right|]. eexists. split; [done|]. by split.
Qed.
Lemma release_sim l : sim frel (release l) (release l).
Proof.
  intros s t [Ht Hp Hh Hr Hf]. unfold release. cbn [held set_held files_locks]. rewrite Hh.
  case_decide; [|by right]. eexists. split; [done|]. by split.
Qed.

Ltac calls :=
  repeat first
    [ progress cbn [ii_begin ii_end ii_lock ii_unlock ii_size ii_read byte_inode]
    | lazymatch goal with
      | |- sim frel (kbind (getf _) _) _ => let Hi := fresh in let Ht := fresh in apply getf_sim; intros ? Hi Ht; rewrite ?Hi, ?Ht
      | |- sim frel (putf _ _) _ => apply putf_sim
      | |- sim frel (acquire _) _ => apply acquire_sim
      | |- sim frel (release _) _ => apply release_sim
      | |- sim frel (ino ii_begin) _ => apply ino_sim, bi_begin
      | |- sim frel (ino ii_end) _ => apply ino_sim, bi_end
      | |- sim frel (ino (ii_lock _)) _ => apply ino_sim, bi_lock
      | |- sim frel (ino (ii_unlock _)) _ => apply ino_sim, bi_unlock
      | |- sim frel (ino (ii_size _)) _ => apply ino_sim, bi_size
      | |- sim frel (ino (ii_read _ _ _)) _ => apply ino_sim, bi_read
      | |- sim frel (ino (ii_write _ _ _)) _ => apply ino_sim, bi_write
      end
    | sim_step ].

Lemma fileread_sim n : sim frel (fileread i n) (fileread i n).
Proof. unfold fileread. calls. Qed.

Lemma filewrite_loop_sim fuel bs : sim frel (filewrite_loop fuel i bs) (filewrite_loop fuel i bs).
Proof. revert bs. induction fuel as [|fuel IH]; intros bs; cbn [filewrite_loop]; calls; apply IH. Qed.

Lemma filewrite_sim bs : sim frel (filewrite i bs) (filewrite i bs).
Proof. unfold filewrite. calls. apply filewrite_loop_sim. Qed.

Lemma fileseek_sim o w : sim frel (fileseek i o w) (fileseek i o w).
Proof. unfold fileseek. calls. Qed.

Lemma truncate_loop_sim fuel len : sim frel (truncate_loop fuel i len) (truncate_loop fuel i len).
Proof. revert len. induction fuel as [|fuel IH]; intros len; cbn [truncate_loop]; calls; [apply filewrite_sim|apply IH]. Qed.

Lemma filetruncate_sim len : sim frel (filetruncate i len) (filetruncate i len).
Proof. unfold filetruncate. calls. apply truncate_loop_sim. Qed.

Lemma filesize_sim : sim frel (f <- getf i ;; ino (ii_size (f_ip f))) (f <- getf i ;; ino (ii_size (f_ip f))).
Proof. calls. Qed.
End Files.

(** ** A byte file on a disk that can be full *)

Record limited := mk_limited { lb_bytes : list Z; lb_max : Z }.

#[export] Program Instance limited_sub : Sub (list Z) limited := { sub_get := lb_bytes; sub_put := fun b s => mk_limited b (lb_max s) }.
Next Obligation. done. Qed.
Next Obligation. done. Qed.
Next Obligation. by intros []. Qed.

Definition limited_inode : InodeIO limited := {|
  ii_begin := kret tt;
  ii_end := kret tt;
  ii_lock := fun _ => kret tt;
  ii_unlock := fun _ => kret tt;
  ii_size := fun i => lift (ii_size i);
  ii_stat := fun i => lift (ii_stat i);
  ii_read := fun i off n => lift (ii_read i off n);
  ii_write := fun i bs off s => if lb_max s <? off + size_of bs then Panic "balloc: out of blocks" else lift (ii_write i bs off) s;
  ii_put := fun _ => kret tt;
  ii_kalloc := kret None;
  ii_kfree := kret tt
|}.
#[export] Existing Instance limited_inode.

Definition limited_stops : FsStops := fun m => m = "balloc: out of blocks"%string.

Lemma limited_laws ip : @ByteInode limited limited_stops limited_inode ip (fun s b => lb_bytes s = b).
Proof.
  split; try (intros; by apply sim_ret).
  - intros s t <-. by eexists.
  - intros off n s t <-. by eexists.
  - intros bs off s t <-. cbn. destruct (_ <? _); [by left|]. unfold lift. cbn. destruct (bytes_write bs off (lb_bytes s)); by eexists.
Qed.
