(* ===== verification/Swapfile.v ===== *)
(** * The swap file (the swapfile routines of fs.c)

    The pages swapped out are kept in one file: a bitmap of [bmap_size]
    bytes, followed by the pages.  The operations are those of [File] on that
    file; here they are proved to implement a store of pages. *)

From S2P Require Import Prelude Layout Fs Pipe File Bytefile Filesim.

Record swapfile (S : Type) := mk_swapfile {
  sw_files : files S;
  sw_f : nat;              (* swapfile.f *)
  bmap_size : Z;
  readbuf : list Z
}.
Arguments mk_swapfile {S}.
Arguments sw_files {S}.
Arguments sw_f {S}.
Arguments bmap_size {S}.
Arguments readbuf {S}.

Definition set_files {S} (fs : files S) (s : swapfile S) : swapfile S :=
  mk_swapfile fs (sw_f s) (bmap_size s) (readbuf s).
Definition set_readbuf {S} (b : list Z) (s : swapfile S) : swapfile S :=
  mk_swapfile (sw_files s) (sw_f s) (bmap_size s) b.

#[export] Program Instance swapfile_sub {S} : Sub (files S) (swapfile S) := { sub_get := sw_files; sub_put := set_files }.
Next Obligation. done. Qed.
Next Obligation. done. Qed.
Next Obligation. by intros ? []. Qed.

(** The bytes a call read replace the beginning of its buffer. *)
Definition fill (bs buf : list Z) : list Z := bs ++ drop (length bs) buf.

Section Ops.
Context {S : Type} `{InodeIO S}.
Notation W := (M (swapfile S)).

Definition on_file {A} (c : nat -> M (files S) A) : W A := i <- gets sw_f ;; lift (c i).

Definition swapfile_bitmap_is_used (value i : Z) : bool :=
  negb (Z.land value (Z.shiftl 1 (i mod 8)) =? 0).

(** The byte with bit [i % 8] cleared, and set again when [bit]. *)
Definition bitmap_value (bit : bool) (i value : Z) : Z :=
  let m := Z.shiftl 1 (i mod 8) in
  let v := u8 (Z.land value (Z.lnot (Z.land value m))) in
  if bit then u8 (Z.lor v m) else v.

Definition swapfile_bitmap_set (bit : bool) (i : Z) : W unit :=
  r <- on_file (fun f => fileseek f (i / 8) SEEK_SET) ;;
  if r <? 0 then panic "swapfile_bitmap_set: fileseek" else
  bs <- on_file (fun f => fileread f 1) ;;
  match bs with
  | None => panic "swapfile_bitmap_set: fileread"
  | Some bs =>
      let value := default 0 (head bs) in
      r <- on_file (fun f => fileseek f (i / 8) SEEK_SET) ;;
      if r <? 0 then panic "swapfile_bitmap_set: fileseek (2)" else
      r <- on_file (fun f => filewrite f [bitmap_value bit i value]) ;;
      if r <? 0 then panic "swapfile_bitmap_set: filewrite" else kret tt
  end.

(** The loop of [swapfile_get_free_page], with [n] iterations left. *)
Fixpoint free_page_loop (n : nat) (i : Z) : W Z :=
  match n with
  | O => panic "swapfile_get_free_page: no free pages left"
  | Datatypes.S n' =>
      bm <- gets bmap_size ;;
      (when i mod (PGSIZE * 8) =? 0 do
        (bs <- on_file (fun f => fileread f (Z.min PGSIZE (u32 (bm - i / 8)))) ;;
         match bs with
         | None => panic "swapfile_get_free_page: fileread"
         | Some bs => modify (fun s => set_readbuf (fill bs (readbuf s)) s)
         end)) ;;;
      buf <- gets readbuf ;;
      v <- deref (buf !! Z.to_nat ((i / 8) mod PGSIZE)) ;;
      if negb (swapfile_bitmap_is_used v i)
      then swapfile_bitmap_set true i ;;; kret i
      else free_page_loop n' (i + 1)
  end.
Definition swapfile_get_free_page : W Z :=
  on_file (fun f => fileseek f 0 SEEK_SET) ;;;
  bm <- gets bmap_size ;;
  free_page_loop (Z.to_nat (u32 (bm * 8))) 0.

(** The offset of page [i], as the [off_t] passed to the file. *)
Definition page_offset (bm i : Z) : Z := s32 (u32 (bm + u32 (i * PGSIZE))).

Definition swapfile_write_page (src : list Z) (i : Z) : W Z :=
  bm <- gets bmap_size ;;
  on_file (fun f => fileseek f (page_offset bm i) SEEK_SET) ;;;
  on_file (fun f => filewrite f src) ;;;
  kret 0.

(** The bytes that reach the destination of [swapfile_read_page]. *)
Definition swapfile_read_page (i : Z) : W (list Z) :=
  bm <- gets bmap_size ;;
  f <- gets sw_f ;;
  size <- lift (fl <- getf f ;; ino (ii_size (f_ip fl))) ;;
  (when size <? u32 (bm + u32 (u32 (i + 1) * PGSIZE)) do
    (r <- on_file (fun f => filetruncate f (page_offset bm (u32 (i + 1)))) ;;
     when r <? 0 do panic "swapfile_read_page: filetruncate")) ;;;
  on_file (fun f => fileseek f (page_offset bm i) SEEK_SET) ;;;
  bs <- on_file (fun f => fileread f PGSIZE) ;;
  kret (default [] bs).

Definition swapfile_free_page (i : Z) : W Z :=
  swapfile_bitmap_set false i ;;;
  swapfile_write_page (replicate (Z.to_nat PGSIZE) 0) i ;;;
  kret 0.

(** The size of the bitmap that [swapinit_file] computes: one bit for each
    page of physical memory above the kernel. *)
Definition swap_bmap_size `{KernelImage} : Z :=
  u32 (u32 (u32 (u32 (u32 (P2V PHYSTOP - kend) - 1) / PGSIZE + 1) - 1) / 8 + 1).

(** [swapinit_file] once the inode [ip] is allocated and the file [f] is. *)
Definition swapinit_file `{KernelImage} (ip f : nat) : W Z :=
  lift (putf f (fun fl => mk_file FD_INODE (f_ref fl) true true (f_pipe fl) ip 0)) ;;;
  modify (fun s => mk_swapfile (sw_files s) f swap_bmap_size (readbuf s)) ;;;
  bm <- gets bmap_size ;;
  r <- on_file (fun f => filetruncate f (s32 bm)) ;;
  if r <? 0 then panic "swapinit: filetruncate" else kret 0.

(** What [swapwrite_file] and [swapread_file] do to the file. *)
Definition store_page (p : list Z) : W Z :=
  i <- swapfile_get_free_page ;;
  swapfile_write_page p i ;;;
  kret i.
Definition take_page (i : Z) : W (list Z) :=
  p <- swapfile_read_page i ;;
  swapfile_free_page i ;;;
  kret p.
End Ops.

(** ** Running the operations on a byte file *)

Notation sfile := (swapfile (list Z)).

Definition at_off (off : Z) (b : list Z) (s : sfile) : sfile := set_files (moved (sw_f s) off b (sw_files s)) s.
Definition sopen (off : Z) (b : list Z) (s : sfile) : Prop := open_at (sw_f s) off b (sw_files s).

Lemma at_open off b off' b' s : sopen off b s -> sopen off' b' (at_off off' b' s).
Proof. apply moved_open. Qed.
Lemma at_twice o1 b1 o2 b2 s : at_off o2 b2 (at_off o1 b1 s) = at_off o2 b2 s.
Proof. unfold at_off, set_files. simpl. by rewrite moved_twice. Qed.
Lemma at_self off b s : sopen off b s -> at_off off b s = s.
Proof. intros Hs. unfold at_off. rewrite moved_self by done. by destruct s. Qed.
Lemma at_bmap off b s : bmap_size (at_off off b s) = bmap_size s.
Proof. done. Qed.
Lemma at_readbuf off b s : readbuf (at_off off b s) = readbuf s.
Proof. done. Qed.

Lemma on_file_ok {A B} (c : nat -> M (files (list Z)) A) (k : A -> M sfile B) s a fs :
  c (sw_f s) (sw_files s) = Ok a fs -> kbind (on_file c) k s = k a (set_files fs s).
Proof. intros E. unfold on_file, kbind, gets, lift. simpl. by rewrite E. Qed.

Definition slice (off n : Z) (b : list Z) : list Z := take (Z.to_nat n) (drop (Z.to_nat off) b).

Section Calls.
Context {B : Type} (s : sfile) (off : Z) (b : list Z) (Hs : sopen off b s).

Lemma seek_k (k : Z -> M sfile B) o :
  0 <= o <= size_of b -> size_of b < 2 ^ 31 ->
  kbind (on_file (fun f => fileseek f o SEEK_SET)) k s = k 0 (at_off o b s).
Proof.
  intros Ho Hb. erewrite on_file_ok; [|rewrite (fileseek_run _ off o b) by (done || lia)].
  2: rewrite (proj2 (Z.ltb_ge _ _)) by lia; reflexivity. done.
Qed.

Lemma seek_fails (k : Z -> M sfile B) o :
  0 <= o < 2 ^ 31 -> size_of b < o -> kbind (on_file (fun f => fileseek f o SEEK_SET)) k s = k (-1) s.
Proof.
  intros Ho Hb. erewrite on_file_ok; [|rewrite (fileseek_run _ off o b) by (done || lia)].
  2: rewrite (proj2 (Z.ltb_lt _ _)) by lia; reflexivity. by destruct s.
Qed.

Lemma read_k (k : option (list Z) -> M sfile B) n :
  0 <= off <= size_of b -> size_of b <= FILEMAX -> 0 <= n < 2 ^ 31 ->
  kbind (on_file (fun f => fileread f n)) k s = k (Some (slice off n b)) (at_off (off + size_of (slice off n b)) b s).
Proof.
  intros Ho Hb Hn. erewrite on_file_ok; [|apply (fileread_run _ off n b)]; try done; unfold FILEMAX in *; lia.
Qed.

Lemma write_k (k : Z -> M sfile B) bs :
  0 <= off <= size_of b -> size_of b <= FILEMAX -> off + size_of bs <= FILEMAX ->
  kbind (on_file (fun f => filewrite f bs)) k s =
  k (size_of bs) (at_off (off + size_of bs) (splice_at (Z.to_nat off) bs b) s).
Proof.
  intros Ho Hb Hn. erewrite on_file_ok; [|apply (filewrite_run _ off bs b); done].
  unfold written, fits. rewrite (proj2 (Z.leb_le _ _)) by done. unfold size_of at 3. by rewrite Nat2Z.id, take_ge.
Qed.
End Calls.

Lemma splice_one k v b : (k < length b)%nat -> splice_at k [v] b = <[k := v]> b.
Proof. intros Hk. unfold splice_at. rewrite insert_take_drop by done. simpl. by rewrite Nat.add_1_r. Qed.

Definition byte (b : list Z) (i : Z) : Z := b !!! Z.to_nat (i / 8).
Definition bit (b : list Z) (i : Z) : bool := Z.testbit (byte b i) (i mod 8).

Lemma is_used_bit v i : 0 <= i -> swapfile_bitmap_is_used v i = Z.testbit v (i mod 8).
Proof.
  intros Hi. unfold swapfile_bitmap_is_used. pose proof (Z.mod_pos_bound i 8 eq_refl). rewrite Z.shiftl_1_l.
  destruct (Z.testbit v (i mod 8)) eqn:E.
  - apply negb_true_iff, Z.eqb_neq. intros H0. apply (f_equal (fun z => Z.testbit z (i mod 8))) in H0.
    rewrite Z.land_spec, Z.pow2_bits_true, E, Z.bits_0 in H0 by lia. done.
  - apply negb_false_iff, Z.eqb_eq. apply Z.bits_inj'. intros n Hn. rewrite Z.land_spec, Z.bits_0.
    destruct (Z.eq_dec n (i mod 8)) as [->|Hne]; [by rewrite E|]. rewrite Z.pow2_bits_false by lia. apply andb_false_r.
Qed.

Lemma byte_testbit x n : 0 <= n < 8 -> Z.testbit (u8 x) n = Z.testbit x n.
Proof. intros Hn. unfold u8. apply Z.mod_pow2_bits_low. lia. Qed.

Lemma bitmap_value_bit bt i v k : 0 <= i -> 0 <= k < 8 ->
  Z.testbit (bitmap_value bt i v) k = if decide (k = i mod 8) then bt else Z.testbit v k.
Proof.
  intros Hi Hk. unfold bitmap_value. pose proof (Z.mod_pos_bound i 8 eq_refl). rewrite Z.shiftl_1_l.
  assert (Z.testbit (u8 (Z.land v (Z.lnot (Z.land v (2 ^ (i mod 8)))))) k = if decide (k = i mod 8) then false else Z.testbit v k) as Hc.
  { rewrite byte_testbit, Z.land_spec, Z.lnot_spec, Z.land_spec by lia. destruct (decide (k = i mod 8)) as [->|Hne].
    - rewrite Z.pow2_bits_true by lia. by destruct (Z.testbit v (i mod 8)).
    - rewrite Z.pow2_bits_false by lia. by destruct (Z.testbit v k). }
  destruct bt; [|by rewrite Hc]. rewrite byte_testbit, Z.lor_spec, Hc by lia.
  destruct (decide (k = i mod 8)) as [->|Hne]; [by rewrite Z.pow2_bits_true by lia|].
  rewrite Z.pow2_bits_false by lia. apply orb_false_r.
Qed.

(** The bitmap with bit [i] replaced. *)
Definition with_bit (bt : bool) (i : Z) (b : list Z) : list Z :=
  <[Z.to_nat (i / 8) := bitmap_value bt i (byte b i)]> b.

Lemma with_bit_bit bt i b j : 0 <= i < 8 * size_of b -> 0 <= j ->
  bit (with_bit bt i b) j = if decide (j = i) then bt else bit b j.
Proof.
  intros Hi Hj. unfold bit, with_bit, byte, size_of in *. pose proof (Z.mod_pos_bound j 8 eq_refl).
  assert (0 <= i / 8 < Z.of_nat (length b)) by (split; [apply Z.div_pos; lia|apply Z.div_lt_upper_bound; lia]).
  assert (0 <= j / 8) by (apply Z.div_pos; lia).
  destruct (decide (j / 8 = i / 8)) as [Heq|Hne].
  - rewrite Heq, list_lookup_total_insert_eq by lia. rewrite bitmap_value_bit by lia.
    destruct (decide (j = i)) as [->|Hji]; [by rewrite decide_True|]. rewrite decide_False; [done|].
    intros Hm. apply Hji. rewrite (Z.div_mod j 8), (Z.div_mod i 8) by lia. lia.
  - rewrite list_lookup_total_insert_ne by lia. rewrite decide_False; [done|]. congruence.
Qed.

Lemma bitmap_set_run bt i off b s :
  sopen off b s -> 0 <= off <= size_of b -> size_of b <= FILEMAX -> 0 <= i < 8 * size_of b ->
  swapfile_bitmap_set bt i s = Ok tt (at_off (i / 8 + 1) (with_bit bt i b) s).
Proof.
  intros Hs Ho Hb Hi. assert (size_of b < 2 ^ 31) by (unfold FILEMAX in *; lia).
  assert (0 <= i / 8 < size_of b) as Hd by (split; [apply Z.div_pos; lia|apply Z.div_lt_upper_bound; lia]).
  assert (Z.to_nat (i / 8) < length b)%nat as Hk by (unfold size_of in *; lia).
  unfold swapfile_bitmap_set. rewrite (seek_k s off b Hs) by lia. change (0 <? 0) with false. cbv iota.
  pose proof (at_open off b (i / 8) b s Hs) as Hs1.
  rewrite (read_k _ (i / 8) b Hs1) by lia. rewrite at_twice.
  assert (slice (i / 8) 1 b = [byte b i]) as Hx.
  { unfold slice, byte. change (Z.to_nat 1) with 1%nat. destruct (lookup_lt_is_Some_2 b _ Hk) as [v Hv].
    rewrite (drop_S b v _ Hv). simpl. by rewrite (list_lookup_total_correct _ _ _ Hv). }
  rewrite Hx. cbn [head default]. rewrite (seek_k _ _ b (at_open off b _ b s Hs)) by lia. rewrite at_twice.
  change (0 <? 0) with false. cbv iota. rewrite (write_k _ _ b (at_open off b _ b s Hs)) by (change (size_of [_]) with 1; lia).
  change (size_of [_]) with 1. rewrite at_twice, splice_one by done. done.
Qed.

(** ** Looking for a free page *)

(** The part of the bitmap that contains bit [i] starts at this byte. *)
Definition chunk (i : Z) : Z := i / 32768 * 4096.

(** The buffer holds the part of the bitmap for bit [i]. *)
Record loaded (i off : Z) (b : list Z) (L : Z) (rb : list Z) : Prop := {
  ld_off : off = chunk i + Z.min 4096 (L - chunk i);
  ld_len : size_of rb = 4096;
  ld_bytes : forall k, Z.of_nat k < 4096 -> chunk i + Z.of_nat k < L -> rb !! k = b !! (Z.to_nat (chunk i) + k)%nat
}.

Definition ready (i off : Z) (b : list Z) (L : Z) (rb : list Z) : Prop :=
  size_of rb = 4096 /\ if i mod 32768 =? 0 then off = i / 8 else loaded i off b L rb.

Lemma chunk_byte i : 0 <= i -> i / 8 = chunk i + (i / 8) mod 4096 /\ 0 <= chunk i /\ 0 <= (i / 8) mod 4096 < 4096.
Proof.
  intros Hi. unfold chunk. change 32768 with (8 * 4096). rewrite <- Z.div_div by lia.
  pose proof (Z.div_mod (i / 8) 4096). pose proof (Z.mod_pos_bound (i / 8) 4096).
  assert (0 <= i / 8 / 4096) by (apply Z.div_pos; [apply Z.div_pos|]; lia). lia.
Qed.

Lemma chunk_start i : 0 <= i -> i mod 32768 = 0 -> i / 8 = chunk i.
Proof.
  intros Hi Hm. unfold chunk. rewrite (Z.div_mod i 32768) at 1 by lia. rewrite Hm.
  replace (32768 * (i / 32768) + 0) with (i / 32768 * 4096 * 8) by lia. by rewrite Z.div_mul.
Qed.

Lemma chunk_next i : 0 <= i -> (i + 1) mod 32768 <> 0 -> chunk (i + 1) = chunk i.
Proof.
  intros Hi Hm. unfold chunk. f_equal. apply Z.div_unique with ((i + 1) mod 32768 - 1).
  - left. pose proof (Z.mod_pos_bound (i + 1) 32768). lia.
  - pose proof (Z.div_mod (i + 1) 32768). lia.
Qed.

Lemma ready_next i off b L rb :
  0 <= i -> i + 1 < 8 * L -> loaded i off b L rb -> ready (i + 1) off b L rb.
Proof.
  intros Hi HL Hld. split; [apply (ld_len _ _ _ _ _ Hld)|]. destruct (Z.eqb_spec ((i + 1) mod 32768) 0) as [Hm|Hm].
  - rewrite (ld_off _ _ _ _ _ Hld). pose proof (chunk_start (i + 1) ltac:(lia) Hm) as Hc. rewrite Hc.
    assert (chunk (i + 1) = chunk i + 4096) as Hn.
    { unfold chunk. replace (i / 32768) with ((i + 1) / 32768 - 1); [lia|].
      apply Z.div_unique with 32767; [lia|]. pose proof (Z.div_mod (i + 1) 32768). lia. }
    assert ((i + 1) / 8 < L) by (apply Z.div_lt_upper_bound; lia). lia.
  - destruct Hld as [Ho Hl Hb]. split; rewrite ?(chunk_next i) by done; done.
Qed.

(** Reading the next part of the bitmap when [i] starts one. *)
Lemma load_chunk_run {B} i off b s (k : M sfile B) :
  sopen off b s -> 0 <= off <= size_of b -> size_of b <= FILEMAX -> bmap_size s <= size_of b ->
  0 <= i < 8 * bmap_size s -> ready i off b (bmap_size s) (readbuf s) ->
  exists off' rb, loaded i off' b (bmap_size s) rb /\
  ((when i mod (PGSIZE * 8) =? 0 do
     (bs <- on_file (fun f => fileread f (Z.min PGSIZE (u32 (bmap_size s - i / 8)))) ;;
      match bs with
      | None => panic "swapfile_get_free_page: fileread"
      | Some bs => modify (fun s => set_readbuf (fill bs (readbuf s)) s)
      end)) ;;; k) s = k (at_off off' b (set_readbuf rb s)).
Proof.
  intros Hs Ho Hb HL Hi [Hlen Hr]. change (PGSIZE * 8) with 32768. destruct (Z.eqb_spec (i mod 32768) 0) as [Hm|Hm].
  2: { exists off, (readbuf s). split; [done|]. unfold kbind, kret. destruct s. unfold set_readbuf. simpl. by rewrite at_self. }
  pose proof (chunk_start i ltac:(lia) Hm) as Hc. destruct (chunk_byte i ltac:(lia)) as (_ & Hc0 & _). subst off.
  assert (i / 8 < bmap_size s) by (apply Z.div_lt_upper_bound; lia). rewrite Hc in *.
  rewrite u32_id by (unfold FILEMAX in *; lia). set (n := Z.min PGSIZE (bmap_size s - chunk i)). unfold PGSIZE in n.
  assert (size_of (slice (chunk i) n b) = n) as Hsz.
  { unfold slice, size_of in *. rewrite length_take, length_drop. lia. }
  eexists (chunk i + n), (fill (slice (chunk i) n b) (readbuf s)). split.
  - split; [unfold n; lia|unfold fill, size_of in *; rewrite length_app, length_drop; lia|].
    intros j Hj Hlt. unfold fill, slice, size_of in *. rewrite lookup_app_l by lia.
    rewrite lookup_take_lt, lookup_drop by lia. done.
  - unfold kbind at 1. rewrite (read_k s _ b Hs) by (unfold n; lia). rewrite Hsz. done.
Qed.

Lemma free_loop_run n i r off b s :
  sopen off b s -> 0 <= off <= size_of b -> size_of b <= FILEMAX -> bmap_size s <= size_of b ->
  0 <= i <= r -> r < 8 * bmap_size s -> r - i < Z.of_nat n -> ready i off b (bmap_size s) (readbuf s) ->
  (forall j, i <= j < r -> bit b j = true) -> bit b r = false ->
  exists rb, size_of rb = 4096 /\
    free_page_loop n i s = Ok r (at_off (r / 8 + 1) (with_bit true r b) (set_readbuf rb s)).
Proof.
  revert i off s. induction n as [|n IH]; intros i off s Hs Ho Hb HL Hi Hr Hn Hrd Hset Hclr; [lia|].
  cbn [free_page_loop]. rewrite (kbind_ok _ _ s _ _ (eq_refl (gets bmap_size s))).
  match goal with |- context [kbind _ (fun _ => ?c)] => 
    destruct (load_chunk_run i off b s c Hs Ho Hb HL ltac:(lia) Hrd) as (off' & rb & Hld & ->) end.
  destruct (chunk_byte i ltac:(lia)) as (Hcb & Hc0 & Hcm).
  assert (i / 8 < bmap_size s) as HiL by (apply Z.div_lt_upper_bound; lia).
  assert (0 <= off' <= size_of b) as Ho' by (rewrite (ld_off _ _ _ _ _ Hld); lia).
  assert (sopen off b (set_readbuf rb s)) as Hs' by apply Hs.
  unfold kbind at 1, gets. change (readbuf (at_off _ _ _)) with rb.
  assert (rb !! Z.to_nat ((i / 8) mod PGSIZE) = Some (byte b i)) as Hv.
  { change PGSIZE with 4096. rewrite (ld_bytes _ _ _ _ _ Hld) by lia. unfold byte.
    replace (Z.to_nat (chunk i) + Z.to_nat ((i / 8) mod 4096))%nat with (Z.to_nat (i / 8)) by lia.
    apply list_lookup_lookup_total_lt. unfold size_of in *. lia. }
  rewrite Hv. unfold kbind at 1, deref, kret at 1. rewrite is_used_bit by lia. fold (bit b i).
  destruct (Z.eq_dec i r) as [->|Hne].
  - rewrite Hclr. cbn [negb]. exists rb. split; [apply (ld_len _ _ _ _ _ Hld)|].
    rewrite (kbind_ok _ _ _ _ _ (bitmap_set_run true r off' b _ (at_open _ _ _ _ _ Hs') Ho' Hb ltac:(lia))).
    by rewrite at_twice.
  - rewrite Hset by lia. cbn [negb].
    destruct (IH (i + 1) off' (at_off off' b (set_readbuf rb s))) as (rb' & Hl' & E).
    + apply (at_open _ _ _ _ _ Hs').
    + done.
    + done.
    + done.
    + lia.
    + done.
    + lia.
    + apply ready_next; [lia| |done]. rewrite at_bmap. simpl. lia.
    + intros j Hj. apply Hset. lia.
    + done.
    + exists rb'. split; [done|]. rewrite E. unfold at_off, set_readbuf, set_files. simpl. by rewrite moved_twice.
Qed.

Lemma get_free_page_run r off b s :
  sopen off b s -> 0 <= off <= size_of b -> size_of b <= FILEMAX -> bmap_size s <= size_of b ->
  0 <= r < 8 * bmap_size s -> size_of (readbuf s) = 4096 ->
  (forall j, 0 <= j < r -> bit b j = true) -> bit b r = false ->
  exists rb, size_of rb = 4096 /\
    swapfile_get_free_page s = Ok r (at_off (r / 8 + 1) (with_bit true r b) (set_readbuf rb s)).
Proof.
  intros Hs Ho Hb HL Hr Hlen Hset Hclr. unfold swapfile_get_free_page.
  rewrite (seek_k s off b Hs) by (unfold FILEMAX in *; lia). rewrite (kbind_ok _ _ _ _ _ (eq_refl (gets bmap_size _))).
  rewrite at_bmap, u32_id by (unfold FILEMAX in *; lia).
  destruct (free_loop_run (Z.to_nat (bmap_size s * 8)) 0 r 0 b (at_off 0 b s)) as (rb & Hl & E); try done; try lia.
  - apply (at_open _ _ _ _ _ Hs).
  - rewrite at_bmap. lia.
  - exists rb. split; [done|]. rewrite E. unfold at_off, set_readbuf, set_files. simpl. by rewrite moved_twice.
Qed.

(** ** Pages behind the bitmap *)

Definition is_page (p : list Z) : Prop := size_of p = PGSIZE.
Definition put_page (k : nat) (p : list Z) (pages : list (list Z)) : list (list Z) :=
  if decide (k < length pages)%nat then <[k := p]> pages else pages ++ [p].

Lemma size_join pages : Forall is_page pages -> size_of (concat pages) = Z.of_nat (length pages) * PGSIZE.
Proof.
  induction 1 as [|p l Hp _ IH]; [done|]. unfold is_page, size_of in *. rewrite concat_cons, length_app. simpl length. lia.
Qed.

Lemma join_split pages k p : Forall is_page pages -> pages !! k = Some p ->
  concat pages = concat (take k pages) ++ p ++ concat (drop (S k) pages) /\
  length (concat (take k pages)) = Z.to_nat (Z.of_nat k * PGSIZE) /\ is_page p.
Proof.
  intros Hall Hk. pose proof (lookup_lt_Some _ _ _ Hk) as Hlt. split; [|split].
  - rewrite <- (take_drop_middle pages k p Hk) at 1. by rewrite concat_app, concat_cons.
  - pose proof (size_join (take k pages) (Forall_take _ _ _ Hall)) as Hsz. rewrite length_take in Hsz. unfold size_of in Hsz. lia.
  - by eapply Forall_lookup_1.
Qed.

Lemma page_read (bm : list Z) pages k p : Forall is_page pages -> pages !! k = Some p ->
  slice (size_of bm + Z.of_nat k * PGSIZE) PGSIZE (bm ++ concat pages) = p.
Proof.
  intros Hall Hk. destruct (join_split _ _ _ Hall Hk) as (-> & Hl & Hp). unfold slice, size_of, is_page in *.
  rewrite Z2Nat.inj_add, Nat2Z.id by (unfold PGSIZE; lia). rewrite <- Hl, <- drop_drop, !drop_app_length, take_app_length'; [done|].
  unfold size_of in Hp. lia.
Qed.

Lemma page_write (bm : list Z) pages k p : Forall is_page pages -> (k <= length pages)%nat -> is_page p ->
  splice_at (Z.to_nat (size_of bm + Z.of_nat k * PGSIZE)) p (bm ++ concat pages) = bm ++ concat (put_page k p pages).
Proof.
  intros Hall Hk Hp. unfold splice_at, put_page. destruct (decide _) as [Hlt|Hge].
  - destruct (lookup_lt_is_Some_2 _ _ Hlt) as [q Hq]. destruct (join_split _ _ _ Hall Hq) as (-> & Hl & Hq').
    assert (Z.to_nat (size_of bm + Z.of_nat k * PGSIZE) = length (bm ++ concat (take k pages))) as ->.
    { rewrite length_app, Hl. unfold size_of, PGSIZE. lia. }
    rewrite (app_assoc bm), take_app_length, <- drop_drop, drop_app_length.
    assert (length p = length q) as -> by (unfold is_page, size_of in *; lia).
    rewrite drop_app_length, <- (app_assoc bm). f_equal.
    rewrite insert_take_drop by done. by rewrite concat_app, concat_cons.
  - assert (k = length pages) as -> by lia. pose proof (size_join _ Hall) as Hsz.
    assert (Z.to_nat (size_of bm + Z.of_nat (length pages) * PGSIZE) = length (bm ++ concat pages)) as ->.
    { rewrite length_app. unfold size_of in *. unfold PGSIZE in *. lia. }
    rewrite firstn_all, <- drop_drop, drop_all, drop_nil, app_nil_r, <- app_assoc, concat_app. simpl. by rewrite app_nil_r.
Qed.

Lemma put_page_all k p pages : Forall is_page pages -> is_page p -> Forall is_page (put_page k p pages).
Proof. intros Hall Hp. unfold put_page. case_decide; [by apply Forall_insert|by apply Forall_app_2, Forall_singleton]. Qed.
Lemma put_page_same k p pages : (k <= length pages)%nat -> put_page k p pages !! k = Some p.
Proof.
  intros Hk. unfold put_page. case_decide; [by apply list_lookup_insert_eq|]. replace k with (length pages + 0)%nat by lia.
  by rewrite lookup_app_r, Nat.add_0_r, Nat.sub_diag by lia.
Qed.
Lemma put_page_other k p pages j q : j <> k -> pages !! j = Some q -> put_page k p pages !! j = Some q.
Proof.
  intros Hjk Hj. unfold put_page. case_decide; [by rewrite list_lookup_insert_ne|]. by apply lookup_app_l_Some.
Qed.

(** The file holds the bitmap [bm] and the [pages]. *)
Record holds (s : sfile) (bm : list Z) (pages : list (list Z)) : Prop := {
  h_open : exists off, 0 <= off <= size_of (bm ++ concat pages) /\ sopen off (bm ++ concat pages) s;
  h_bmap : bmap_size s = size_of bm;
  h_pages : Forall is_page pages;
  h_max : size_of (bm ++ concat pages) <= FILEMAX;
  h_buf : size_of (readbuf s) = PGSIZE
}.

Lemma holds_size bm pages : Forall is_page pages ->
  size_of (bm ++ concat pages) = size_of bm + Z.of_nat (length pages) * PGSIZE.
Proof. intros Hall. unfold size_of at 1. rewrite length_app, Nat2Z.inj_add. fold (size_of bm). f_equal. by apply size_join. Qed.

Lemma page_offset_val bm i : 0 <= bm -> 0 <= i -> bm + i * PGSIZE < 2 ^ 31 -> page_offset bm i = bm + i * PGSIZE.
Proof. intros. unfold page_offset. rewrite (u32_id (i * _)), u32_id, s32_id by (unfold PGSIZE in *; lia). done. Qed.

Lemma with_bit_app bt i bm rest : 0 <= i < 8 * size_of bm -> with_bit bt i (bm ++ rest) = with_bit bt i bm ++ rest.
Proof.
  intros Hi. unfold with_bit, byte, size_of in *.
  assert (0 <= i / 8 < Z.of_nat (length bm)) by (split; [apply Z.div_pos; lia|apply Z.div_lt_upper_bound; lia]).
  rewrite lookup_total_app_l, insert_app_l by lia. done.
Qed.
Lemma bit_app i bm rest : 0 <= i < 8 * size_of bm -> bit (bm ++ rest) i = bit bm i.
Proof.
  intros Hi. unfold bit, byte, size_of in *.
  assert (0 <= i / 8 < Z.of_nat (length bm)) by (split; [apply Z.div_pos; lia|apply Z.div_lt_upper_bound; lia]).
  by rewrite lookup_total_app_l by lia.
Qed.
Lemma size_with_bit bt i b : size_of (with_bit bt i b) = size_of b.
Proof. unfold size_of, with_bit. by rewrite length_insert. Qed.

Lemma holds_at bm pages bm' pages' off s rb :
  holds s bm pages -> size_of bm' = size_of bm -> Forall is_page pages' ->
  0 <= off <= size_of (bm' ++ concat pages') -> size_of (bm' ++ concat pages') <= FILEMAX -> size_of rb = PGSIZE ->
  holds (at_off off (bm' ++ concat pages') (set_readbuf rb s)) bm' pages'.
Proof.
  intros [(o & Ho & Hs) Hbm Hall Hmax Hbuf] Hsz Hall' Hoff Hm Hrb. split; try done.
  - exists off. split; [done|]. apply (at_open o (bm ++ concat pages)). apply Hs.
  - simpl. congruence.
Qed.

Lemma set_readbuf_self (s : sfile) : set_readbuf (readbuf s) s = s.
Proof. by destruct s. Qed.

Section PageOps.
Context (s : sfile) (bm : list Z) (pages : list (list Z)) (Hh : holds s bm pages).

Lemma bitmap_set_holds bt i : 0 <= i < 8 * size_of bm ->
  exists s', swapfile_bitmap_set bt i s = Ok tt s' /\ holds s' (with_bit bt i bm) pages.
Proof.
  intros Hi. pose proof Hh as [(off & Ho & Hs) Hbm Hall Hmax Hbuf]. pose proof (holds_size bm pages Hall) as Hsz.
  eexists. split; [apply (bitmap_set_run bt i off _ s Hs); unfold PGSIZE in *; lia|].
  rewrite with_bit_app by done. rewrite <- (set_readbuf_self s).
  assert (0 <= i / 8 < size_of bm) by (split; [apply Z.div_pos; lia|apply Z.div_lt_upper_bound; lia]).
  apply (holds_at bm pages); rewrite ?holds_size, ?size_with_bit by done; unfold PGSIZE in *; done || lia.
Qed.

Lemma get_free_page_holds r : 0 <= r < 8 * size_of bm ->
  (forall j, 0 <= j < r -> bit bm j = true) -> bit bm r = false ->
  exists s', swapfile_get_free_page s = Ok r s' /\ holds s' (with_bit true r bm) pages.
Proof.
  intros Hr Hset Hclr. pose proof Hh as [(off & Ho & Hs) Hbm Hall Hmax Hbuf]. pose proof (holds_size bm pages Hall) as Hsz.
  destruct (get_free_page_run r off _ s Hs) as (rb & Hrb & E); try (done || unfold PGSIZE in *; lia).
  { intros j Hj. rewrite bit_app by lia. by apply Hset. }
  { by rewrite bit_app by lia. }
  eexists. split; [exact E|]. rewrite with_bit_app by done.
  assert (0 <= r / 8 < size_of bm) by (split; [apply Z.div_pos; lia|apply Z.div_lt_upper_bound; lia]).
  apply (holds_at bm pages); rewrite ?holds_size, ?size_with_bit by done; unfold PGSIZE in *; done || lia.
Qed.

Lemma write_page_holds (i : nat) p : (i <= length pages)%nat -> is_page p ->
  size_of bm + Z.of_nat (i + 1) * PGSIZE <= FILEMAX ->
  exists s', swapfile_write_page p (Z.of_nat i) s = Ok 0 s' /\ holds s' bm (put_page i p pages).
Proof.
  intros Hi Hp Hfit. pose proof Hh as [(off & Ho & Hs) Hbm Hall Hmax Hbuf]. pose proof (holds_size bm pages Hall) as Hsz.
  assert (0 <= size_of bm) by (unfold size_of; lia). assert (PGSIZE = 4096) as HP by done. assert (FILEMAX = 71680) as HF by done.
  unfold swapfile_write_page. rewrite (kbind_ok _ _ s _ _ (eq_refl (gets bmap_size s))), Hbm, page_offset_val by lia.
  rewrite (seek_k s off _ Hs) by lia. rewrite (write_k _ _ _ (at_open _ _ _ _ _ Hs)) by (rewrite ?Hp; lia).
  rewrite at_twice, page_write, Hp by done. eexists. split; [reflexivity|]. rewrite <- (set_readbuf_self s).
  assert (length (put_page i p pages) = Nat.max (length pages) (i + 1)) as Hlen.
  { unfold put_page. case_decide; [rewrite length_insert|rewrite length_app; simpl]; lia. }
  apply (holds_at bm pages); rewrite ?holds_size, ?Hlen by (by apply put_page_all); try (done || lia).
  by apply put_page_all.
Qed.

Lemma read_page_holds (i : nat) p : pages !! i = Some p ->
  exists s', swapfile_read_page (Z.of_nat i) s = Ok p s' /\ holds s' bm pages.
Proof.
  intros Hp. pose proof Hh as [(off & Ho & Hs) Hbm Hall Hmax Hbuf]. pose proof (holds_size bm pages Hall) as Hsz.
  pose proof (lookup_lt_Some _ _ _ Hp) as Hi. assert (0 <= size_of bm) by (unfold size_of; lia).
  assert (PGSIZE = 4096) as HP by done. assert (FILEMAX = 71680) as HF by done.
  unfold swapfile_read_page. rewrite (kbind_ok _ _ s _ _ (eq_refl (gets bmap_size s))), (kbind_ok _ _ s _ _ (eq_refl (gets sw_f s))), Hbm.
  assert (lift (fl <- getf (sw_f s) ;; ino (ii_size (f_ip fl))) s = Ok (size_of (bm ++ concat pages)) s) as Hg.
  { destruct (getf_run _ _ _ _ Hs) as (f & Hf & _). unfold lift. simpl. rewrite (kbind_ok _ _ _ _ _ Hf).
    unfold ino, lift. simpl. rewrite (oa_bytes _ _ _ _ Hs). destruct s as [[] ? ? ?]. unfold set_files, set_inodes. simpl.
    by rewrite <- (oa_bytes _ _ _ _ Hs). }
  rewrite (kbind_ok _ _ s _ _ Hg), Hsz, (u32_id (Z.of_nat i + 1)), (u32_id (_ * PGSIZE)), u32_id by lia. rewrite (proj2 (Z.ltb_ge _ _)) by lia.
  unfold kbind at 1, kret at 1. rewrite page_offset_val by lia. rewrite (seek_k s off _ Hs) by lia.
  rewrite (read_k _ _ _ (at_open _ _ _ _ _ Hs)) by lia. rewrite page_read with (p := p) by done. rewrite at_twice.
  eexists. split; [reflexivity|]. rewrite <- (set_readbuf_self s).
  assert (size_of p = PGSIZE) as -> by (exact (Forall_lookup_1 _ _ _ _ Hall Hp)).
  apply (holds_at bm pages); rewrite ?holds_size by done; done || lia.
Qed.
End PageOps.

(** ** The swap file as a store of pages *)

(** The pages in use, by number; a free page has no content of interest. *)
Definition stores (s : sfile) (σ : gmap nat (list Z)) : Prop :=
  exists bm pages, holds s bm pages /\
    (forall i, Z.of_nat i < 8 * size_of bm -> (bit bm (Z.of_nat i) = true <-> is_Some (σ !! i))) /\
    (forall i p, σ !! i = Some p -> pages !! i = Some p /\ Z.of_nat i < 8 * size_of bm).

(** How many pages fit in the largest file, and have a bit. *)
Definition capacity {S} (s : swapfile S) : Z := Z.min ((FILEMAX - bmap_size s) / PGSIZE) (8 * bmap_size s).

Lemma least_free (σ : gmap nat (list Z)) :
  exists r, (r <= size σ)%nat /\ σ !! r = None /\ forall j, (j < r)%nat -> is_Some (σ !! j).
Proof.
  assert (forall n, (forall j, (j < n)%nat -> is_Some (σ !! j)) \/
    exists r, (r < n)%nat /\ σ !! r = None /\ forall j, (j < r)%nat -> is_Some (σ !! j)) as Hn.
  { induction n as [|n [IH|(r & Hr & Hrest)]]; [left; lia| |right; exists r; split; [lia|done]].
    destruct (σ !! n) eqn:E; [left|right; exists n; split_and!; [lia|done|done]].
    intros j Hj. destruct (decide (j = n)) as [->|]; [by eexists|apply IH; lia]. }
  destruct (Hn (S (size σ))) as [Hall|(r & Hr & Hrest)]; [exfalso|exists r; split; [lia|done]].
  assert (set_seq 0 (S (size σ)) ⊆ dom σ) as Hsub.
  { intros j Hj%elem_of_set_seq. apply elem_of_dom, Hall. lia. }
  apply subseteq_size in Hsub. rewrite size_dom, size_set_seq in Hsub. lia.
Qed.

Lemma store_page_ok s σ p :
  stores s σ -> is_page p -> Z.of_nat (size σ) < capacity s ->
  exists r s', σ !! r = None /\ store_page p s = Ok (Z.of_nat r) s' /\ stores s' (<[r := p]> σ) /\ capacity s' = capacity s.
Proof.
  intros (bm & pages & Hh & Hbits & Hpg) Hp Hcap. destruct (least_free σ) as (r & Hr & Hnone & Hbelow).
  unfold capacity in *. rewrite (h_bmap _ _ _ Hh) in Hcap.
  assert (FILEMAX - size_of bm >= (FILEMAX - size_of bm) / PGSIZE * PGSIZE) as Hfit.
  { pose proof (Z.mul_div_le (FILEMAX - size_of bm) PGSIZE). unfold PGSIZE in *. lia. }
  destruct (get_free_page_holds s bm pages Hh (Z.of_nat r)) as (s1 & E1 & H1); [lia| | |].
  { intros j Hj. replace j with (Z.of_nat (Z.to_nat j)) by lia. apply Hbits; [lia|]. apply Hbelow. lia. }
  { destruct (bit bm (Z.of_nat r)) eqn:E; [|done]. apply Hbits in E; [|lia]. rewrite Hnone in E. by destruct E. }
  assert (r <= length pages)%nat as Hrp.
  { destruct r as [|r]; [lia|]. destruct (Hbelow r) as [q Hq]; [lia|]. apply Hpg in Hq as [Hq _].
    apply lookup_lt_Some in Hq. lia. }
  destruct (write_page_holds s1 _ pages H1 r p Hrp Hp) as (s2 & E2 & H2).
  { rewrite size_with_bit. unfold PGSIZE in *. lia. }
  exists r, s2. split; [done|]. split; [|split].
  - unfold store_page. by rewrite (kbind_ok _ _ _ _ _ E1), (kbind_ok _ _ _ _ _ E2).
  - exists (with_bit true (Z.of_nat r) bm), (put_page r p pages). split; [done|]. rewrite size_with_bit. split.
    + intros i Hi. rewrite with_bit_bit by lia. destruct (decide (i = r)) as [->|Hne].
      * rewrite decide_True, lookup_insert_eq by done. done.
      * rewrite decide_False, lookup_insert_ne by (done || lia). by apply Hbits.
    + intros i q. destruct (decide (i = r)) as [->|Hne].
      * rewrite lookup_insert_eq. intros [= <-]. rewrite put_page_same by done. split; [done|lia].
      * rewrite lookup_insert_ne by done. intros [Hq ?]%Hpg. split; [|done]. by apply put_page_other.
  - by rewrite (h_bmap _ _ _ H2), (h_bmap _ _ _ Hh), size_with_bit.
Qed.

Lemma read_page_ok s σ i p :
  stores s σ -> σ !! i = Some p ->
  exists s', swapfile_read_page (Z.of_nat i) s = Ok p s' /\ stores s' σ /\ capacity s' = capacity s.
Proof.
  intros (bm & pages & Hh & Hbits & Hpg) Hp. destruct (Hpg _ _ Hp) as [Hi _].
  destruct (read_page_holds s bm pages Hh i p Hi) as (s' & E & H1). exists s'. split; [done|].
  split; [by exists bm, pages|]. unfold capacity. by rewrite (h_bmap _ _ _ H1), (h_bmap _ _ _ Hh).
Qed.

Lemma free_page_ok s σ i :
  stores s σ -> is_Some (σ !! i) ->
  exists s', swapfile_free_page (Z.of_nat i) s = Ok 0 s' /\ stores s' (delete i σ) /\ capacity s' = capacity s.
Proof.
  intros (bm & pages & Hh & Hbits & Hpg) [p Hp]. destruct (Hpg _ _ Hp) as [Hi Hlt].
  pose proof (lookup_lt_Some _ _ _ Hi) as Hil.
  destruct (bitmap_set_holds s bm pages Hh false (Z.of_nat i)) as (s2 & E2 & H2); [lia|].
  destruct (write_page_holds s2 _ pages H2 i (replicate (Z.to_nat PGSIZE) 0)) as (s3 & E3 & H3); [lia| | |].
  { unfold is_page, size_of. rewrite length_replicate. done. }
  { pose proof (h_max _ _ _ H2) as Hm. rewrite holds_size in Hm by apply (h_pages _ _ _ H2). unfold PGSIZE in *. lia. }
  exists s3. split; [|split].
  - unfold swapfile_free_page. by rewrite (kbind_ok _ _ _ _ _ E2), (kbind_ok _ _ _ _ _ E3).
  - exists (with_bit false (Z.of_nat i) bm), (put_page i (replicate (Z.to_nat PGSIZE) 0) pages). split; [done|].
    rewrite size_with_bit. split.
    + intros j Hj. rewrite with_bit_bit by lia. destruct (decide (j = i)) as [->|Hne].
      * rewrite decide_True, lookup_delete_eq by done. split; [done|by intros []].
      * rewrite decide_False, lookup_delete_ne by (done || lia). by apply Hbits.
    + intros j q. destruct (decide (j = i)) as [->|Hne]; [by rewrite lookup_delete_eq|].
      rewrite lookup_delete_ne by done. intros [Hq ?]%Hpg. split; [|done]. by apply put_page_other.
  - unfold capacity. by rewrite (h_bmap _ _ _ H3), (h_bmap _ _ _ Hh), size_with_bit.
Qed.

Lemma take_page_ok s σ i p :
  stores s σ -> σ !! i = Some p ->
  exists s', take_page (Z.of_nat i) s = Ok p s' /\ stores s' (delete i σ) /\ capacity s' = capacity s.
Proof.
  intros Hs Hp. destruct (read_page_ok s σ i p Hs Hp) as (s1 & E1 & H1 & C1).
  destruct (free_page_ok s1 σ i H1 ltac:(eauto)) as (s2 & E2 & H2 & C2). exists s2. split; [|split; [done|congruence]].
  unfold take_page. by rewrite (kbind_ok _ _ _ _ _ E1), (kbind_ok _ _ _ _ _ E2).
Qed.

(** ** The store over any inode layer *)

Section Over.
Context {S : Type} `{FP : FsStops} `{HI : InodeIO S} (ip : nat) (R : S -> list Z -> Prop) {HB : ByteInode ip R}.

Record srel (s : swapfile S) (t : sfile) : Prop := {
  sr_files : frel ip R (sw_f t) (sw_files s) (sw_files t);
  sr_f : sw_f s = sw_f t;
  sr_bmap : bmap_size s = bmap_size t;
  sr_readbuf : readbuf s = readbuf t
}.

(** [s] keeps the pages of [σ] in inode [ip], with free pages' bits clear. *)
Definition keeps_pages (s : swapfile S) (σ : gmap nat (list Z)) : Prop := exists t, srel s t /\ stores t σ.

Lemma lift_sim {A} (c : M (files S) A) (d : M fstate A) s t :
  sim (frel ip R (sw_f t)) c d -> srel s t ->
  match lift c s with
  | Ok a s' => exists t', lift d t = Ok a t' /\ srel s' t'
  | Block _ => True
  | Panic m => fs_stop m \/ lift d t = Panic m
  | Fault m => fs_stop m \/ lift d t = Fault m
  | NoFuel => lift d t = NoFuel
  end.
Proof.
  intros Hc [Hf Hi Hb Hr]. unfold lift. cbn [sub_get swapfile_sub]. specialize (Hc _ _ Hf).
  destruct (c (sw_files s)) as [a s'|m|m| |]; [|by destruct Hc as [| ->]; auto|by destruct Hc as [| ->]; auto|done|by rewrite Hc].
  destruct Hc as (t' & -> & Hr'). eexists. split; [done|]. by split.
Qed.

Lemma on_file_sim {A} (c : nat -> M (files S) A) (d : nat -> M fstate A) :
  (forall i, sim (frel ip R i) (c i) (d i)) -> sim srel (on_file c) (on_file d).
Proof. intros Hc s t Hs. unfold on_file, kbind, gets. rewrite (sr_f _ _ Hs). by apply lift_sim. Qed.

Ltac store_calls :=
  repeat first
    [ lazymatch goal with
      | |- sim srel (on_file _) _ => apply on_file_sim; intros ?
      | |- sim srel (gets _) _ => apply sim_gets; by intros ? ? []
      | |- sim (frel _ _ _) (fileseek _ _ _) _ => by apply fileseek_sim
      | |- sim (frel _ _ _) (fileread _ _) _ => by apply fileread_sim
      | |- sim (frel _ _ _) (filewrite _ _) _ => by apply filewrite_sim
      | |- sim (frel _ _ _) (filetruncate _ _) _ => by apply filetruncate_sim
      | |- sim srel (modify _) _ => apply sim_modify; intros ? ? []; by split; cbn; try congruence
      end
    | sim_step ].

Lemma bitmap_set_sim bt i : sim srel (swapfile_bitmap_set bt i) (swapfile_bitmap_set bt i).
Proof. unfold swapfile_bitmap_set. store_calls. Qed.

Lemma free_page_loop_sim n i : sim srel (free_page_loop n i) (free_page_loop n i).
Proof. revert i. induction n as [|n IH]; intros i; cbn [free_page_loop]; store_calls; [apply bitmap_set_sim|apply IH]. Qed.

Lemma write_page_sim p i : sim srel (swapfile_write_page p i) (swapfile_write_page p i).
Proof. unfold swapfile_write_page. store_calls. Qed.

Lemma store_page_sim p : sim srel (store_page p) (store_page p).
Proof. unfold store_page, swapfile_get_free_page. store_calls; [apply free_page_loop_sim|apply write_page_sim]. Qed.

Lemma on_file_gets {X A B} (g : nat -> M (files X) A) (k : A -> M (swapfile X) B) :
  (f <- gets sw_f ;; a <- lift (g f) ;; k a) = (a <- on_file g ;; k a).
Proof. reflexivity. Qed.

Lemma read_page_sim i : sim srel (swapfile_read_page i) (swapfile_read_page i).
Proof.
  unfold swapfile_read_page. apply sim_bind; [store_calls|]. intros bm.
  rewrite !(on_file_gets (fun f => fl <- getf f ;; ino (ii_size (f_ip fl)))). apply sim_bind; [apply on_file_sim; intros f; by apply filesize_sim|]. intros size. store_calls.
Qed.

Lemma take_page_sim i : sim srel (take_page i) (take_page i).
Proof. unfold take_page, swapfile_free_page. store_calls; [apply read_page_sim|apply bitmap_set_sim|apply write_page_sim]. Qed.

(** C29: The swap file is a store of pages, over any inode layer whose calls
    on the file's inode either do what they do to a file of bytes, or sleep,
    or stop (the disk is full, for instance).  As long as fewer pages are in
    use than fit in the largest file, [swapfile_get_free_page] followed by
    [swapfile_write_page] puts a page under a number that was free, and
    every page in use keeps its content; [swapfile_read_page] followed by
    [swapfile_free_page] returns exactly the bytes that were stored under the
    number, and frees it; unless they sleep or stop inside the inode layer.
    They never stop with a panic of their own or of file.c. *)
Theorem swapfile_page_store s σ :
  keeps_pages s σ ->
  (forall p, is_page p -> Z.of_nat (size σ) < capacity s ->
     upto (store_page p) (fun i s' => exists r, i = Z.of_nat r /\ σ !! r = None /\ keeps_pages s' (<[r := p]> σ) /\ capacity s' = capacity s) s) /\
  (forall i p, σ !! i = Some p ->
     upto (take_page (Z.of_nat i)) (fun bs s' => bs = p /\ keeps_pages s' (delete i σ) /\ capacity s' = capacity s) s).
Proof.
  intros (t & Hr & Hs). assert (forall s' t', srel s' t' -> capacity s' = capacity t') as Hcap by (intros s' t' []; unfold capacity; congruence).
  rewrite (Hcap _ _ Hr). split.
  - intros p Hp Hc. destruct (store_page_ok t σ p Hs Hp Hc) as (r & t' & Hfree & E & Hs' & Hc').
    eapply upto_mono; [eapply sim_upto; [apply store_page_sim|done|done]|]. intros i s' [-> Hr']. exists r.
    split; [done|]. split; [done|]. split; [by exists t'|]. by rewrite (Hcap _ _ Hr').
  - intros i p Hp. destruct (take_page_ok t σ i p Hs Hp) as (t' & E & Hs' & Hc').
    eapply upto_mono; [eapply sim_upto; [apply take_page_sim|done|done]|]. intros bs s' [-> Hr'].
    split; [done|]. split; [by exists t'|]. by rewrite (Hcap _ _ Hr').
Qed.
End Over.

(** ** Creating the swap file *)

Lemma truncate_loop_run fuel i b (s : fstate) len :
  open_at i (size_of b) b s -> 0 <= len < Z.of_nat fuel -> size_of b + len <= FILEMAX ->
  truncate_loop fuel i len s = Ok 0 (moved i (size_of b + len) (b ++ replicate (Z.to_nat len) 0) s).
Proof.
  revert b s len. induction fuel as [|fuel IH]; intros b s len Hop Hlen Hmax; [lia|]. cbn [truncate_loop].
  destruct (Z.ltb_spec 0 len) as [Hpos|Hz].
  2: { assert (len = 0) as -> by lia. change (replicate (Z.to_nat 0) 0) with (@nil Z).
       rewrite app_nil_r, Z.add_0_r, (moved_self _ _ _ _ Hop). done. }
  cbn [negb]. rewrite write_max_val. set (n := Z.min 1536 len).
  assert (size_of (replicate (Z.to_nat n) 0) = n) as Hn by (unfold size_of; rewrite length_replicate; lia).
  assert (0 <= size_of b) by (unfold size_of; lia).
  rewrite (kbind_ok _ _ _ _ _ (filewrite_run i _ (replicate (Z.to_nat n) 0) b s Hop ltac:(lia) ltac:(lia))).
  unfold written, fits. rewrite Hn, (proj2 (Z.leb_le (size_of b + n) FILEMAX)), (proj2 (Z.ltb_ge _ _)) by lia.
  assert (splice_at (Z.to_nat (size_of b)) (take (Z.to_nat n) (replicate (Z.to_nat n) 0)) b = b ++ replicate (Z.to_nat n) 0) as ->.
  { unfold splice_at, size_of. rewrite Nat2Z.id, firstn_all, take_ge, drop_ge, app_nil_r by (rewrite ?length_replicate; lia). done. }
  pose proof (moved_open i _ (size_of b + n) b (b ++ replicate (Z.to_nat n) 0) s Hop) as Hop'.
  assert (size_of (b ++ replicate (Z.to_nat n) 0) = size_of b + n) as Hsz.
  { unfold size_of in *. rewrite length_app. lia. }
  assert (FILEMAX = 71680) as HF by done. destruct (Z.le_gt_cases len 1536).
  - assert (n = len) as -> by lia. destruct fuel as [|fuel]; [lia|]. cbn [truncate_loop].
    rewrite s32_id, (proj2 (Z.ltb_ge 0 _)) by lia. done.
  - rewrite s32_id by lia. rewrite <- Hsz in Hop' at 1. rewrite (IH _ _ _ Hop') by lia. rewrite moved_twice, Hsz, <- app_assoc.
    rewrite <- replicate_add. replace (Z.to_nat n + Z.to_nat (len - 1536))%nat with (Z.to_nat len) by lia.
    do 2 f_equal. lia.
Qed.

Lemma filetruncate_new i (s : fstate) len :
  open_at i 0 [] s -> 0 < len <= FILEMAX ->
  filetruncate i len s = Ok 0 (moved i len (replicate (Z.to_nat len) 0) s).
Proof.
  intros Hop Hlen. unfold filetruncate. cbn [ii_begin ii_end ii_lock ii_unlock ii_size byte_inode]. rewrite ino_skip.
  destruct (getf_run _ _ _ _ Hop) as (f & Hf & _). rewrite (kbind_ok _ _ _ _ _ Hf), ino_skip.
  assert (ino (gets size_of) s = Ok 0 s) as Hsz.
  { unfold ino, lift, gets. pose proof (oa_bytes _ _ _ _ Hop) as Hb. destruct s. simpl in *. by subst. }
  assert (FILEMAX = 71680) as HF by done.
  rewrite (kbind_ok _ _ _ _ _ Hsz), !ino_skip, u32_id, (proj2 (Z.ltb_ge _ _)), (proj2 (Z.eqb_neq _ _)) by lia.
  change 0 with (size_of []) in Hop at 1.
  rewrite (truncate_loop_run _ i [] s len Hop) by (change (size_of []) with 0; lia). done.
Qed.

Section Init.
Context {KI : KernelImage}.

Lemma swap_bmap_size_range : 1 <= swap_bmap_size <= 7168.
Proof.
  pose proof kimage_ok as [Hi He]. unfold swap_bmap_size. rewrite P2V_val by (unfold PHYSTOP, KERNBASE; lia).
  unfold KERNLINK, KERNBASE, EXTMEM, PHYSTOP, PGSIZE in *.
  rewrite (u32_id (_ - kend)), (u32_id (_ - kend - 1)) by lia. set (q := _ / 4096).
  assert (0 <= q <= 57343) as Hq by (split; [apply Z.div_pos; lia|apply Z.lt_succ_r, Z.div_lt_upper_bound; lia]).
  rewrite (u32_id (q + 1)), (u32_id (q + 1 - 1)) by lia. replace (q + 1 - 1) with q by lia.
  assert (0 <= q / 8 <= 7167) by (split; [apply Z.div_pos; lia|apply Z.lt_succ_r, Z.div_lt_upper_bound; lia]).
  rewrite u32_id; lia.
Qed.

Lemma zero_bits n i : 0 <= i < 8 * Z.of_nat n -> bit (replicate n 0) i = false.
Proof.
  intros Hi. unfold bit, byte.
  assert (0 <= i / 8 < Z.of_nat n) by (split; [apply Z.div_pos; lia|apply Z.div_lt_upper_bound; lia]).
  rewrite lookup_total_replicate_2 by lia. apply Z.bits_0.
Qed.

(** A new swap file stores nothing, and has room for fifteen pages. *)
Lemma swapinit_stores ip f fl (s : sfile) :
  fl_table (sw_files s) !! f = Some fl -> fl_inodes (sw_files s) = [] -> "ftable" ∉ fl_held (sw_files s) ->
  size_of (readbuf s) = PGSIZE ->
  exists s', swapinit_file ip f s = Ok 0 s' /\ stores s' ∅ /\ bmap_size s' = swap_bmap_size.
Proof.
  intros Hf Hi Hl Hbuf. pose proof swap_bmap_size_range as Hr. unfold swapinit_file.
  set (g := fun fl => mk_file FD_INODE (f_ref fl) true true (f_pipe fl) ip 0).
  set (fs1 := set_table (alter g f (fl_table (sw_files s))) (sw_files s)).
  assert (lift (putf f g) s = Ok tt (set_files fs1 s)) as Hp by (unfold lift; simpl; by rewrite (putf_table _ _ _ _ Hf)).
  rewrite (kbind_ok _ _ _ _ _ Hp). unfold kbind at 1, modify. unfold kbind at 1, gets. cbn [bmap_size].
  rewrite s32_id by lia.
  assert (open_at f 0 [] fs1) as Hop.
  { split; [|done|done]. exists (g fl). simpl. by rewrite list_lookup_alter_eq, Hf. }
  erewrite on_file_ok by (apply (filetruncate_new f fs1 swap_bmap_size Hop); unfold FILEMAX; lia).
  eexists. split; [reflexivity|]. split; [|done].
  assert (size_of (replicate (Z.to_nat swap_bmap_size) 0) = swap_bmap_size) as Hsz by (unfold size_of; rewrite length_replicate; lia).
  exists (replicate (Z.to_nat swap_bmap_size) 0), []. split; [|split; [|done]].
  - split; try done; simpl concat; rewrite ?app_nil_r, ?Hsz; [|unfold FILEMAX; lia].
    exists swap_bmap_size. split; [lia|]. apply (moved_open f 0 swap_bmap_size [] _ fs1 Hop).
  - intros i Hb. rewrite Hsz in Hb. rewrite zero_bits, lookup_empty by lia. split; [done|by intros []].
Qed.
End Init.

(** ** Examples *)

#[local] Program Instance swap_image : KernelImage := {| kend := 0x80120000; kdata := 0x80110000 |}.
Solve All Obligations with (vm_compute; intuition discriminate).

Definition swap_demo : sfile :=
  mk_swapfile (mk_files [mk_file FD_NONE 1 false false 0 0 0] [] [] ∅) 0 0 (replicate 4096 0).

Lemma swap_demo_init : exists s, swapinit_file 0 0 swap_demo = Ok 0 s /\ stores s ∅ /\ bmap_size s = swap_bmap_size.
Proof. apply (swapinit_stores 0 0 (mk_file FD_NONE 1 false false 0 0 0)); [done|done|apply not_elem_of_empty|done]. Qed.

(** A new swap file on a disk with room for a file of [n] bytes. *)
Definition new_swap (n : Z) : swapfile limited :=
  mk_swapfile (mk_files [mk_file FD_INODE 1 true true 0 5 0] [] (mk_limited (replicate (Z.to_nat swap_bmap_size) 0) n) ∅) 0 swap_bmap_size (replicate 4096 0).

Lemma new_swap_empty n : keeps_pages 5 (fun s b => lb_bytes s = b) (new_swap n) ∅.
Proof.
  eexists (mk_swapfile (mk_files [mk_file FD_INODE 1 true true 0 5 0] [] (replicate (Z.to_nat swap_bmap_size) 0) ∅) 0 swap_bmap_size (replicate 4096 0)).
  split; [split; [split; try done; by eexists|done..]|]. assert (size_of (replicate (Z.to_nat swap_bmap_size) 0) = swap_bmap_size) as Hsz by (vm_compute; reflexivity).
  exists (replicate (Z.to_nat swap_bmap_size) 0), []. split; [|split; [|done]].
  - split; try done; simpl concat; rewrite ?app_nil_r, ?Hsz.
    exists 0. split; [vm_compute; split; congruence|]. split; [|done|apply not_elem_of_empty]. by eexists.
  - intros i Hb. rewrite Hsz in Hb. rewrite zero_bits, lookup_empty; [|rewrite Z2Nat.id; [lia|vm_compute; congruence]]. split; [done|by intros []].
Qed.

(** On a disk with room for 16384 bytes a page is stored under the number 0
    and taken out again; on a disk with room for 8192 bytes it is not stored:
    the inode layer panics. *)
Lemma swapfile_page_store_witness :
  (let _ := limited_stops in exists s, store_page (replicate 4096 7) (new_swap 16384) = Ok 0 s /\
    keeps_pages 5 (fun s b => lb_bytes s = b) s {[0%nat := replicate 4096 7]} /\
    upto (take_page 0) (fun bs s' => bs = replicate 4096 7 /\ keeps_pages 5 (fun s b => lb_bytes s = b) s' ∅) s) /\
  store_page (replicate 4096 7) (new_swap 8192) = Panic "balloc: out of blocks".
Proof.
  split; [|vm_compute; reflexivity]. intros st. pose (limited_laws 5) as HB.
  assert (is_page (replicate 4096 7)) as Hp by (vm_compute; reflexivity).
  assert (0 < capacity (new_swap 16384)) as Hc by (vm_compute; reflexivity).
  pose proof (proj1 (swapfile_page_store 5 (fun s b => lb_bytes s = b) (new_swap 16384) ∅ (new_swap_empty _)) _ Hp Hc) as H.
  assert (exists s, store_page (replicate 4096 7) (new_swap 16384) = Ok 0 s) as [s E].
  { assert (match store_page (replicate 4096 7) (new_swap 16384) with Ok a _ => a | _ => 1 end = 0) as Ha by (vm_compute; reflexivity).
    destruct (store_page (replicate 4096 7) (new_swap 16384)) as [a s| | | |]; [|discriminate Ha..]. exists s. by rewrite Ha. }
  unfold upto in H. rewrite E in H. destruct H as (r & Hr & _ & Hs & _). assert (r = 0%nat) as -> by lia.
  exists s. split; [exact E|]. split; [exact Hs|].
  pose proof (proj2 (swapfile_page_store 5 (fun s b => lb_bytes s = b) s _ Hs) 0%nat (replicate 4096 7) (lookup_insert_eq _ _ _)) as H.
  eapply upto_mono; [exact H|]. intros bs s' (Hb & Hs' & _). split; [exact Hb|]. rewrite delete_insert_eq in Hs'. exact Hs'.
Defined.

(** The swap file with its first fifteen pages in use. *)
Definition fifteen : list Z := [255; 127] ++ replicate (Z.to_nat (swap_bmap_size - 2)) 0 ++ replicate (Z.to_nat (15 * PGSIZE)) 1.
Definition swap_full : sfile :=
  mk_swapfile (mk_files [mk_file FD_INODE 1 true true 0 0 0] [] fifteen ∅) 0 swap_bmap_size (replicate 4096 0).

(** The swap file holds fifteen pages: a sixteenth is accepted, although only
    its beginning fits in the file, and [swapfile_read_page] panics when it is
    needed; the seventeenth is written over the bitmap, since seeking behind
    the end of the file fails and the result is ignored. *)
Lemma swapfile_overflow :
  match store_page (replicate 4096 7) swap_full with
  | Ok i s =>
      i = 15 /\ take_page 15 s = Panic "swapfile_read_page: filetruncate" /\
      match store_page (replicate 4096 7) s with
      | Ok j t => j = 16 /\ slice 3 4096 (fl_inodes (sw_files t)) = replicate 4096 7
      | _ => False
      end
  | _ => False
  end.
Proof. vm_compute. repeat split; reflexivity. Qed.
