(* ===== verification/Swap.v ===== *)
(** * Swapping (fs.c, unordered_map.c, vm.c)

    A page that is swapped out is kept in the swap file; a hash map from its
    logical and physical address finds its number there and the page-table
    entries that referred to it.  This file models the map, the iterator over
    the entries of a shared page, the scan for victims, and the three
    operations of [SwapOps] over the state they share: physical memory, the
    swap file, the map and the process table. *)

From S2P Require Import Prelude Layout Mem Kstring Kalloc Vm Uvm Fs Pipe File Bytefile Swapfile Linkedlist.

(** ** Data *)

(** [struct SwapUniqueKey]. *)
Record swkey := mk_swkey { log_a : Z; k_pa : Z }.
#[export] Instance swkey_eq_dec : EqDecision swkey.
Proof. solve_decision. Defined.

(** [struct SwapData]; a node of [PTEs] has an entry's address as its key. *)
Record swdata := mk_swdata { swapfilePageNo : Z; PTEs : llist Z unit }.
Definition set_page_no (n : Z) (d : swdata) : swdata := mk_swdata n (PTEs d).
Definition set_ptes (l : llist Z unit) (d : swdata) : swdata := mk_swdata (swapfilePageNo d) l.

(** What swapping reads of a process. *)
Record pslot := mk_pslot { ps_used : bool; ps_pgdir : Z; ps_sz : Z }.

Notation bin := (llist swkey swdata).

Record swapsys (S : Type) := mk_swapsys {
  sy_kmem : kmem;
  sy_file : swapfile S;
  sy_bins : gmap Z bin;        (* swapMap.bins; an absent bin is a null pointer *)
  sy_procs : list pslot
}.
Arguments mk_swapsys {S}.
Arguments sy_kmem {S}.
Arguments sy_file {S}.
Arguments sy_bins {S}.
Arguments sy_procs {S}.

Section State.
Context {S : Type}.
Implicit Type s : swapsys S.
Definition set_kmem (k : kmem) s : swapsys S := mk_swapsys k (sy_file s) (sy_bins s) (sy_procs s).
Definition set_file (f : swapfile S) s : swapsys S := mk_swapsys (sy_kmem s) f (sy_bins s) (sy_procs s).
Definition set_bins (m : gmap Z bin) s : swapsys S := mk_swapsys (sy_kmem s) (sy_file s) m (sy_procs s).

#[export] Program Instance swap_kmem : Sub kmem (swapsys S) := { sub_get := sy_kmem; sub_put := set_kmem }.
Next Obligation. done. Qed.
Next Obligation. done. Qed.
Next Obligation. by intros []. Qed.

#[export] Program Instance swap_file : Sub (swapfile S) (swapsys S) := { sub_get := sy_file; sub_put := set_file }.
Next Obligation. done. Qed.
Next Obligation. done. Qed.
Next Obligation. by intros []. Qed.
End State.

(** The bytes of the page at [v]. *)
Definition page_bytes (v : Z) (m : mem) : list Z := ld8 m <$> seqZ v PGSIZE.

(** ** The map *)

Definition SWAP_MAP_SIZE : Z := PHYSTOP / PGSIZE.

Section Swap.
Context `{KI : KernelImage} `{NA : NodeAlloc} {S : Type} `{IO : InodeIO S}.
Notation W := (M (swapsys S)).

Definition mm {A} (c : M kmem A) : W A := lift c.
Definition sf {A} (c : M (swapfile S) A) : W A := lift c.

Definition SwapMapHash (k : swkey) : Z :=
  u32 (log_a k / PGSIZE + u32 (k_pa k - V2P kend) / PGSIZE) mod SWAP_MAP_SIZE.

Definition UnorderedMapInit : W unit := modify (set_bins ∅).
Definition SwapMapInit : W unit := UnorderedMapInit.

Definition UnorderedMapGetBin (k : swkey) : W Z :=
  m <- gets sy_bins ;;
  let i := SwapMapHash k in
  (match m !! i with
   | Some _ => kret tt
   | None => modify (fun s => set_bins (<[i := LinkedListAlloc]> (sy_bins s)) s)
   end) ;;;
  kret i.

(** An operation on the list of bin [h]. *)
Definition on_bin {A} (h : Z) (c : M bin A) : W A := fun s =>
  match sy_bins s !! h with
  | None => Fault "null bin"
  | Some b =>
      match c b with
      | Ok a b' => Ok a (set_bins (<[h := b']> (sy_bins s)) s)
      | Panic m => Panic m
      | Fault m => Fault m
      | Block c => Block c
      | NoFuel => NoFuel
      end
  end.

(** An operation on the entries recorded at a node of a bin. *)
Definition on_ptes {A} (node : Z) (c : M (llist Z unit) A) : M bin A :=
  n <- getn node ;;
  match c (PTEs (n_data n)) with
  | Ok a l => putn node (fun n => set_n_data (set_ptes l (n_data n)) n) ;;; kret a
  | Panic m => panic m
  | Fault m => fault m
  | Block c => block c
  | NoFuel => nofuel
  end.

Definition SwapDataCreate : swdata := mk_swdata (u32 (-1)) LinkedListAlloc.

Definition SwapDataAddPTE (parent : option Z) (pte : Z) : M (llist Z unit) bool :=
  ok <- (match parent with
         | None => kret true
         | Some p => n <- LinkedListGet (Some p) ;; kret (negb (n =? NULL))
         end) ;;
  if ok : bool then LinkedListAdd pte tt ;;; kret true else kret false.

Definition SwapDataRemovePTE (pte : Z) : M (llist Z unit) bool :=
  n <- LinkedListGet (Some pte) ;;
  if negb (n =? NULL) then LinkedListNodeRemoveNextMatching n None ;;; kret true else kret false.

(** [SwapMapAdd] and [SwapMapRemove]; [fuel] bounds their loops. *)
Definition add_node (k : swkey) (pte : Z) : M bin unit :=
  LinkedListAdd k SwapDataCreate ;;;
  node <- gets ll_end ;;
  on_ptes node (SwapDataAddPTE None pte) ;;;
  kret tt.

Fixpoint map_add_loop (fuel : nat) (k : swkey) (node : Z) (ppte : option Z) (pte : Z) : M bin unit :=
  match fuel with
  | O => nofuel
  | Datatypes.S fuel' =>
      ok <- on_ptes node (SwapDataAddPTE ppte pte) ;;
      if ok : bool then kret tt
      else
        node' <- LinkedListNodeGetNextMatching node (Some k) ;;
        if node' =? NULL then add_node k pte
        else map_add_loop fuel' k node' ppte pte
  end.

Definition SwapMapAdd (fuel : nat) (k : swkey) (ppte : option Z) (pte : Z) : W unit :=
  mm (acquire "unordered_map") ;;;
  h <- UnorderedMapGetBin k ;;
  node <- on_bin h (LinkedListGet (Some k)) ;;
  (if node =? NULL then on_bin h (add_node k pte)
   else on_bin h (map_add_loop fuel k node ppte pte)) ;;;
  mm (release "unordered_map").

Fixpoint map_remove_loop (fuel : nat) (k : swkey) (node pte : Z) : M bin Z :=
  match fuel with
  | O => nofuel
  | Datatypes.S fuel' =>
      ok <- on_ptes node (SwapDataRemovePTE pte) ;;
      if ok : bool then kret node
      else
        node' <- LinkedListNodeGetNextMatching node (Some k) ;;
        map_remove_loop fuel' k node' pte
  end.

Definition SwapMapRemove (fuel : nat) (k : swkey) (pte : Z) : W unit :=
  mm (acquire "unordered_map") ;;;
  h <- UnorderedMapGetBin k ;;
  node <- on_bin h (LinkedListGet (Some k)) ;;
  node <- on_bin h (map_remove_loop fuel k node pte) ;;
  len <- on_bin h (on_ptes node (gets ll_length)) ;;
  (when len =? 0 do (on_bin h (LinkedListNodeRemoveNextMatching node None) ;;; kret tt)) ;;;
  mm (release "unordered_map").

(** ** The entries of a shared page *)

Definition NPROC : nat := 64.

(** [pa_pte_iterator]: the next process, what is left of the reference count,
    and the addresses looked for. *)
Record pa_pte_iterator := mk_iterator { it_next : nat; it_count : Z; it_la : Z; it_pa : Z }.

Definition pa_pte_iterator_init (d : page_data) (pa : Z) : pa_pte_iterator :=
  mk_iterator 0 (ref_count d) (la d) pa.
(** The end is one process past the table. *)
Definition pa_pte_iterator_has_next (it : pa_pte_iterator) : bool :=
  negb (it_count it =? 0) && negb (it_next it =? NPROC + 1)%nat.

(** The loop of [pa_pte_iterator_get_next], with [n] processes left. *)
Fixpoint next_pte (n : nat) (p : nat) (it : pa_pte_iterator) : W (Z * pa_pte_iterator) :=
  match n with
  | O => kret (NULL, it)
  | Datatypes.S n' =>
      ps <- gets sy_procs ;;
      match ps !! p with
      | None => fault "ptable.proc: index out of range"
      | Some q =>
          if negb (ps_used q) then next_pte n' (p + 1) it
          else
            pte <- mm (walkpgdir (ps_pgdir q) (it_la it) false) ;;
            if pte =? NULL then next_pte n' (p + 1) it
            else
              v <- load pte ;;
              if negb (flag PTE_S v) && (V2P (PTE_ADDR v) =? it_pa it)
              then kret (pte, mk_iterator (p + 1) (s32 (it_count it - 1)) (it_la it) (it_pa it))
              else next_pte n' (p + 1) it
      end
  end.
Definition pa_pte_iterator_get_next (it : pa_pte_iterator) : W (Z * pa_pte_iterator) :=
  next_pte (NPROC + 1 - it_next it) (it_next it) it.

(** ** Swapping out *)

(** [*pte |= PTE_S; *pte &= ~PTE_P]; page 0 is not mapped in the kernel. *)
Definition mark_swapped (pte : Z) : W unit :=
  if pte =? NULL then fault "null page-table entry"
  else
    v <- load pte ;;
    store pte (Z.lor v PTE_S) ;;;
    v <- load pte ;;
    store pte (clear_flag PTE_P v).

(** The loop over the entries of a shared page; each round advances the
    iterator, so one round for each process and one more are enough. *)
Fixpoint write_ptes (fuel : nat) (h node : Z) (it : pa_pte_iterator) : W unit :=
  match fuel with
  | O => nofuel
  | Datatypes.S fuel' =>
      if negb (pa_pte_iterator_has_next it) then kret tt
      else
        r <- pa_pte_iterator_get_next it ;;
        let '(pte, it') := r in
        on_bin h (on_ptes node (LinkedListAdd pte tt)) ;;;
        mark_swapped pte ;;;
        write_ptes fuel' h node it'
  end.

Definition swapwrite_file (buf la buf_pte : Z) : W unit :=
  pageNo <- sf swapfile_get_free_page ;;
  m <- mm (gets memory) ;;
  sf (swapfile_write_page (page_bytes buf m) pageNo) ;;;
  let key := mk_swkey la (V2P buf) in
  mm (acquire "unordered_map") ;;;
  h <- UnorderedMapGetBin key ;;
  on_bin h (LinkedListAdd key SwapDataCreate) ;;;
  node <- on_bin h (gets ll_end) ;;
  on_bin h (putn node (fun n => set_n_data (set_page_no pageNo (n_data n)) n)) ;;;
  i <- mm (get_pd (V2P buf)) ;;
  pd <- mm (pd_index i) ;;
  (if ref_count pd =? 1 then
     on_bin h (on_ptes node (LinkedListAdd buf_pte tt)) ;;;
     mark_swapped buf_pte
   else write_ptes (NPROC + 2) h node (pa_pte_iterator_init pd (V2P buf))) ;;;
  mm (release "unordered_map") ;;;
  mm (reset_and_free_pa_pd (V2P buf)).

(** ** Swapping in *)

(** The first node from [node] on, among those with the key, that records
    [pte]; 0 when there is none. *)
Fixpoint find_node (fuel : nat) (k : swkey) (node pte : Z) : M bin Z :=
  match fuel with
  | O => nofuel
  | Datatypes.S fuel' =>
      entry <- on_ptes node (LinkedListGet (Some pte)) ;;
      if entry =? NULL then
        n <- getn node ;;
        node' <- LinkedListNodeGetNextMatching (n_next n) (Some k) ;;
        if node' =? NULL then kret NULL else find_node fuel' k node' pte
      else kret node
  end.
(** Each round moves to a later node. *)
Definition find_node_from (k : swkey) (node pte : Z) : M bin Z :=
  b <- kget ;; find_node (fuel_of b) k node pte.

(** The inner loop: every recorded entry, from [e] on, is mapped to the new
    page. *)
Fixpoint remap_ptes (fuel : nat) (h node e la new_va : Z) : W unit :=
  match fuel with
  | O => nofuel
  | Datatypes.S fuel' =>
      n <- on_bin h (on_ptes node (getn e)) ;;
      let pte := n_key n in
      v <- load pte ;;
      store pte (clear_flag PTE_S v) ;;;
      v <- load pte ;;
      mm (mappage la pte (V2P new_va) (PTE_FLAGS v)) ;;;
      if n_next n =? NULL then kret tt
      else remap_ptes fuel' h node (n_next n) la new_va
  end.

Definition swapread_file (la buf_pte : Z) : W unit :=
  v <- load buf_pte ;;
  let key := mk_swkey la (PTE_ADDR v) in
  mm (acquire "unordered_map") ;;;
  h <- UnorderedMapGetBin key ;;
  node <- on_bin h (LinkedListGet (Some key)) ;;
  if node =? NULL then panic "swapread_file: swapmap: key not found" else
  new_va <- mm kalloc ;;
  i <- mm (get_pd (V2P new_va)) ;;
  node <- on_bin h (find_node_from key node buf_pte) ;;
  if node =? NULL then panic "swapread_file: did not find pte" else
  n <- on_bin h (getn node) ;;
  let l := PTEs (n_data n) in
  d <- mm (pd_index i) ;;
  mm (pd_store i (mk_page_data (s32 (ll_length l)) (Kalloc.la d))) ;;;
  remap_ptes (fuel_of l) h node (ll_start l) la new_va ;;;
  n <- on_bin h (getn node) ;;
  let pageNo := swapfilePageNo (n_data n) in
  on_bin h (LinkedListNodeRemoveNextMatching node None) ;;;
  mm (release "unordered_map") ;;;
  bs <- sf (swapfile_read_page pageNo) ;;
  mm (mem_do (store_bytes new_va bs)) ;;;
  sf (swapfile_free_page pageNo) ;;;
  kret tt.

(** ** Releasing a page that is swapped out *)

Definition swapfree_file (va la pte : Z) : W unit :=
  let key := mk_swkey la (V2P va) in
  mm (acquire "unordered_map") ;;;
  h <- UnorderedMapGetBin key ;;
  node <- on_bin h (LinkedListGet (Some key)) ;;
  if node =? NULL then panic "swapfree: swapmap: key not found" else
  node <- on_bin h (find_node_from key node pte) ;;
  if node =? NULL then panic "swapfree: did not find pte" else
  entry <- on_bin h (on_ptes node (LinkedListGet (Some pte))) ;;
  on_bin h (on_ptes node (LinkedListNodeRemoveNextMatching entry None)) ;;;
  n <- on_bin h (getn node) ;;
  let pageNo := swapfilePageNo (n_data n) in
  if ll_length (PTEs (n_data n)) =? 0 then
    on_bin h (LinkedListNodeRemoveNextMatching node None) ;;;
    mm (release "unordered_map") ;;;
    mm (release "ptable") ;;;
    sf (swapfile_free_page pageNo) ;;;
    mm (acquire "ptable")
  else mm (release "unordered_map").

#[export] Instance swap_ops : SwapOps (swapsys S) := {|
  Uvm.swapread_file := swapread_file;
  Uvm.swapfree_file := swapfree_file
|}.

(** ** Choosing pages (vm.c) *)

(** The pages of a process below its size, from [a] on. *)
Fixpoint swap_pages (fuel : nat) (pgdir a top : Z) : W unit :=
  match fuel with
  | O => nofuel
  | Datatypes.S fuel' =>
      if negb (a <? top) then kret tt
      else
        pte <- mm (walkpgdir pgdir a false) ;;
        (if pte =? NULL then kret tt
         else
           v <- load pte ;;
           if flag PTE_P v && negb (flag PTE_C v) then
             if flag PTE_A v then store pte (clear_flag PTE_A v)
             else swapwrite_file (P2V (PTE_ADDR v)) a pte
           else kret tt) ;;;
        swap_pages fuel' pgdir (u32 (a + PGSIZE)) top
  end.

Fixpoint swap_procs (ps : list pslot) : W unit :=
  match ps with
  | [] => kret tt
  | q :: ps' =>
      (when ps_used q do
         (let top := PGROUNDUP (ps_sz q) in
          swap_pages (Datatypes.S (Z.to_nat (top / PGSIZE))) (ps_pgdir q) 0 top)) ;;;
      swap_procs ps'
  end.
Definition swap : W Z := ps <- gets sy_procs ;; swap_procs ps ;;; kret 0.
End Swap.

(** ** Lists of a bin *)

Notation sentry := (Z * swkey * swdata)%type.

Section Bins.
Context `{NA : NodeAlloc}.
Implicit Types (b : bin) (l : list sentry) (e : sentry).

(** The node [e] records exactly the page-table entry [p]. *)
Definition single e (p : Z) : Prop := exists a, ll_ok (PTEs (snd e)) [(a, p, tt)].

Lemma alloc_ok {K D} `{EqDecision K} : ll_ok (LinkedListAlloc : llist K D) [].
Proof. split; try done; [by apply NoDup_nil_2|]. intros a. simpl. rewrite lookup_empty, elem_of_nil. split; [by intros []|done]. Qed.

Lemma single_get e p q : single e p ->
  exists a, a <> NULL /\ LinkedListGet (Some q) (PTEs (snd e)) = Ok (if decide (p = q) then a else NULL) (PTEs (snd e)).
Proof.
  intros [a Hok]. exists a. destruct (lk_seg _ _ Hok) as (Ha & _). split; [exact Ha|]. unfold LinkedListGet.
  rewrite (kbind_ok _ _ _ _ _ (eq_refl (gets ll_start _))), (lk_start _ _ Hok).
  rewrite (get_next_spec (PTEs (snd e)) [] [(a, p, tt)] (Some q) Hok). simpl. unfold hit, matches, key. simpl.
  by repeat case_decide || case_bool_decide.
Qed.

(** Replacing the data of a node. *)
Lemma data_ok b l1 e l2 d n :
  ll_ok b (l1 ++ e :: l2) -> ll_nodes b !! addr e = Some n ->
  n = mk_node (key e) (snd e) (first NULL l2) (final NULL l1) /\
  ll_ok (set_nodes (<[addr e := set_n_data d n]> (ll_nodes b)) b) (l1 ++ (addr e, key e, d) :: l2).
Proof.
  intros [Hs Hst Hen Hnd Hdom Hlen] Hn. apply nodes_app in Hs as [Hs1 (Ha & Hn' & Hs2)].
  rewrite Hn in Hn'. injection Hn' as ->. split; [done|].
  rewrite fmap_app, fmap_cons in Hnd. pose proof Hnd as Hnd'. apply list.NoDup_app in Hnd as (_ & Hd & Hnd2).
  apply list.NoDup_cons in Hnd2 as [Hni _].
  split; simpl.
  - apply nodes_app. split; [|split_and!].
    + simpl. apply (lseg_ext (ll_nodes b)); [|exact Hs1]. intros a Hi. apply lookup_insert_ne. intros <-. apply (Hd _ Hi). apply list_elem_of_here.
    + exact Ha.
    + simpl. by rewrite lookup_insert_eq.
    + apply (lseg_ext (ll_nodes b)); [|exact Hs2]. intros a Hi. apply lookup_insert_ne. by intros <-.
  - rewrite Hst, !first_app. by destruct l1.
  - by rewrite Hen, !final_app.
  - rewrite fmap_app, fmap_cons. done.
  - intros a. rewrite fmap_app, fmap_cons. change (addr (addr e, key e, d)) with (addr e). rewrite <- fmap_cons, <- fmap_app, <- Hdom.
    destruct (decide (a = addr e)) as [->|Hne]; [rewrite lookup_insert_eq, Hn|rewrite lookup_insert_ne by done; done].
    split; by eexists.
  - rewrite Hlen, !length_app. done.
Qed.

Lemma node_lookup {K D} `{EqDecision K} (b : llist K D) (l1 : list (Z * K * D)) (e : Z * K * D) (l2 : list (Z * K * D)) : ll_ok b (l1 ++ e :: l2) ->
  addr e <> NULL /\ ll_nodes b !! addr e = Some (mk_node (key e) (snd e) (first NULL l2) (final NULL l1)).
Proof. intros Hok. pose proof (lk_seg _ _ Hok) as Hs. apply nodes_app in Hs as [_ (Ha & Hn & _)]. done. Qed.

Lemma on_ptes_ok {A} b l1 e l2 (c : M (llist Z unit) A) x p' :
  ll_ok b (l1 ++ e :: l2) -> c (PTEs (snd e)) = Ok x p' ->
  exists b', on_ptes (addr e) c b = Ok x b' /\ ll_ok b' (l1 ++ (addr e, key e, set_ptes p' (snd e)) :: l2).
Proof.
  intros Hok Hc. destruct (node_lookup _ _ _ _ Hok) as [_ Hn]. unfold on_ptes. rewrite (kbind_ok _ _ _ _ _ (getn_eq _ _ _ Hn)).
  cbn [n_data]. rewrite Hc, (kbind_ok _ _ _ _ _ (putn_eq _ _ _ _ Hn)). eexists. split; [reflexivity|].
  apply (data_ok b l1 e l2 _ _ Hok Hn).
Qed.

(** Reading the entries leaves the bin as it is. *)
Lemma on_ptes_read {A} b l1 e l2 (c : M (llist Z unit) A) x :
  ll_ok b (l1 ++ e :: l2) -> c (PTEs (snd e)) = Ok x (PTEs (snd e)) ->
  exists b', on_ptes (addr e) c b = Ok x b' /\ ll_ok b' (l1 ++ e :: l2).
Proof.
  intros Hok Hc. destruct (on_ptes_ok b l1 e l2 c x _ Hok Hc) as (b' & E & Hok'). exists b'. split; [done|].
  destruct e as [[a k] [n p]]. done.
Qed.

Lemma find_first_split (o : option swkey) l t : t ∈ l -> hit o t = true ->
  exists q1 e' q2, l = q1 ++ e' :: q2 /\ find_first o l = addr e' /\ hit o e' = true /\ Forall (fun e => hit o e = false) q1.
Proof.
  intros Hin Ht. induction l as [|e l IH]; [by apply elem_of_nil in Hin|]. simpl. destruct (hit o e) eqn:He.
  - exists [], e, l. done.
  - apply elem_of_cons in Hin as [->|Hin]; [congruence|]. destruct (IH Hin) as (q1 & e' & q2 & -> & Hf & He' & Hq).
    exists (e :: q1), e', q2. split_and!; [done|done|done|by constructor].
Qed.

(** The search finds the one node that records the entry. *)
Lemma find_node_spec fuel b l1 e l2 k t pte :
  ll_ok b (l1 ++ e :: l2) -> (length l2 < fuel)%nat ->
  t ∈ e :: l2 -> key t = k -> single t pte ->
  (forall e', e' ∈ e :: l2 -> e' <> t -> exists p, single e' p /\ p <> pte) ->
  exists b', find_node fuel k (addr e) pte b = Ok (addr t) b' /\ ll_ok b' (l1 ++ e :: l2).
Proof.
  revert b l1 e l2. induction fuel as [|fuel IH]; intros b l1 e l2 Hok Hf Hin Hk Ht Hoth; [lia|]. cbn [find_node].
  destruct (single_get t pte pte Ht) as (a & Ha & Hg). rewrite decide_True in Hg by done.
  assert (e = t \/ exists p, single e p /\ p <> pte) as [->|(p & Hp & Hpne)].
  { destruct (decide (addr e = addr t)) as [Heq|Hne]; [left|right; apply Hoth; [apply list_elem_of_here|congruence]].
    apply elem_of_cons in Hin as [->|Hin]; [done|exfalso]. pose proof (lk_nodup _ _ Hok) as Hnd.
    rewrite fmap_app, fmap_cons in Hnd. apply list.NoDup_app in Hnd as (_ & _ & Hnd). apply list.NoDup_cons in Hnd as [Hni _].
    apply Hni. rewrite Heq. apply list_elem_of_fmap. by exists t. }
  - destruct (on_ptes_read b l1 t l2 _ _ Hok Hg) as (b' & E & Hok'). rewrite (kbind_ok _ _ _ _ _ E).
    rewrite (proj2 (Z.eqb_neq _ _) Ha). by exists b'.
  - destruct (single_get e p pte Hp) as (a' & _ & Hg'). rewrite decide_False in Hg' by done.
    destruct (on_ptes_read b l1 e l2 _ _ Hok Hg') as (b1 & E1 & Hok1). rewrite (kbind_ok _ _ _ _ _ E1), Z.eqb_refl.
    destruct (node_lookup _ _ _ _ Hok1) as [_ Hn]. rewrite (kbind_ok _ _ _ _ _ (getn_eq _ _ _ Hn)). cbn [n_next].
    assert (e <> t) as Hne.
    { intros ->. destruct (single_get t p pte Hp) as (? & _ & E). rewrite Hg, decide_False in E by done. by injection E. }
    assert (t ∈ l2) as Hin2 by (apply elem_of_cons in Hin as [->|?]; done).
    assert (ll_ok b1 ((l1 ++ [e]) ++ l2)) as Hok2 by (by rewrite <- app_assoc).
    destruct (find_first_split (Some k) l2 t Hin2) as (q1 & e' & q2 & -> & Hff & He' & Hq1).
    { unfold hit, matches. by apply bool_decide_eq_true. }
    rewrite (kbind_ok _ _ _ _ _ (get_next_spec b1 _ _ (Some k) Hok2)), Hff.
    assert (ll_ok b1 ((l1 ++ e :: q1) ++ e' :: q2)) as Hok3 by (by rewrite <- app_assoc).
    destruct (node_lookup _ _ _ _ Hok3) as [Ha2 _]. rewrite (proj2 (Z.eqb_neq _ _) Ha2).
    assert (t ∈ e' :: q2) as Hin3.
    { apply elem_of_app in Hin2 as [Hq|?]; [exfalso|done]. rewrite list.Forall_forall in Hq1. specialize (Hq1 _ Hq).
      unfold hit, matches in Hq1. apply bool_decide_eq_false in Hq1. done. }
    destruct (IH b1 (l1 ++ e :: q1) e' q2) as (b2 & E2 & Hok4); [done| |done|done|done| |].
    + rewrite length_app in Hf. simpl in Hf. lia.
    + intros e2 Hi2 Hne2. apply Hoth; [|done]. apply list_elem_of_further, elem_of_app. by right.
    + exists b2. split; [done|]. by rewrite <- app_assoc in Hok4.
Qed.
End Bins.
