(* ===== verification/Swapspec.v ===== *)
(** * Swapping preserves pages

    What the swap operations promise: a page that is swapped out and swapped
    in again has the same content, whatever happens to its frame meanwhile
    and whatever other pages are swapped.  The pages swapped out are a map
    from the address of their page-table entry to their addresses and content. *)

From S2P Require Import Prelude Layout Mem Kstring Kalloc Vm Uvm Fs Pipe File Bytefile Swapfile Linkedlist Swap.

Notation sys := (swapsys (list Z)).

(** ** Physical memory *)

Section Memory.
Context `{KI : KernelImage}.

(** The word at [pte] is in none of the pages. *)
Definition word_outside (pgs : list Z) (pte : Z) : Prop := forall x, pte <= x < pte + 4 -> ~ in_pages pgs x.

Definition swapped_word (w : Z) : Z := clear_flag PTE_P (Z.lor w PTE_S).
Definition marked (pte : Z) (m : mem) : mem := 
  st32 pte (clear_flag PTE_P (ld32 (st32 pte (Z.lor (ld32 m pte) PTE_S) m) pte)) (st32 pte (Z.lor (ld32 m pte) PTE_S) m).

Lemma lor_S_range w : 0 <= w < 2 ^ 32 -> 0 <= Z.lor w PTE_S < 2 ^ 32.
Proof. intros Hw. apply (lor_range _ _ 32); unfold PTE_S; lia. Qed.

Lemma clear_flag_range f w : 0 <= w < 2 ^ 32 -> 0 <= clear_flag f w < 2 ^ 32.
Proof.
  intros Hw. unfold clear_flag. pose proof (u32_range (Z.lnot f)). split; [apply Z.land_nonneg; lia|].
  destruct (Z.eq_dec (Z.land w (u32 (Z.lnot f))) 0) as [->|Hne]; [lia|].
  apply Z.log2_lt_pow2; [pose proof (Z.land_nonneg w (u32 (Z.lnot f))); lia|].
  eapply Z.le_lt_trans; [apply Z.log2_land; lia|]. destruct (Z.eq_dec w 0) as [->|?].
  - rewrite Z.log2_nonpos by lia. pose proof (Z.log2_nonneg (u32 (Z.lnot f))). lia.
  - apply Z.min_lt_iff. left. apply Z.log2_lt_pow2; lia.
Qed.

Lemma marked_word pte m : ld32 (marked pte m) pte = swapped_word (ld32 m pte).
Proof.
  unfold marked. pose proof (ld32_range m pte) as Hw. rewrite !ld32_st32_eq.
  rewrite (u32_id (Z.lor _ _)) by (by apply lor_S_range). rewrite u32_id; [done|].
  by apply clear_flag_range, lor_S_range.
Qed.

Lemma marked_other pte m a : ~ pte <= a < pte + 4 -> ld8 (marked pte m) a = ld8 m a.
Proof. intros Ha. unfold marked. rewrite !ld8_st32, !decide_False by done. done. Qed.

Lemma kinv_klocks fl k h : kinv fl k -> "kmem" ∉ h -> "phys_page_data" ∉ h -> kinv fl (set_klocks h k).
Proof. intros [Hc Hnd Hv Hf Hl] H1 H2. by split. Qed.

Lemma out_kmem fl k buf pte :
  kinv fl k -> valid_page buf -> buf ∉ fl -> word_outside (buf :: fl) pte ->
  exists k', reset_and_free_pa_pd (V2P buf) (set_memory (marked pte (memory k)) k) = Ok tt k' /\
    kinv (buf :: fl) k' /\ klocks k' = klocks k /\ ld32 (memory k') pte = swapped_word (ld32 (memory k) pte) /\
    (forall a, ~ pte <= a < pte + 4 -> ~ buf <= a < buf + PGSIZE -> ld8 (memory k') a = ld8 (memory k) a) /\
    (forall u, valid_page u -> u <> buf -> refs k' u = refs k u).
Proof.
  intros Hk Hv Hni Hw. destruct (valid_page_pa buf Hv) as [EV Hpa]. destruct (ki_locks _ _ Hk) as [Hl1 Hl2].
  set (k1 := set_memory (marked pte (memory k)) k).
  assert (kinv fl k1) as Hk1.
  { apply kinv_set_memory; [done|]. intros a Hin. apply marked_other. intros Hp. apply (Hw a Hp).
    destruct Hin as (v & Hi & Hr). exists v. split; [by apply list_elem_of_further|done]. }
  set (k2 := set_pdata (<[V2P buf / PGSIZE := mk_page_data 1 NULL]> (pdata k)) k1).
  assert (refs k2 buf = 1) as Hr2 by (unfold refs, page_entry, k2; simpl; by rewrite lookup_insert_eq).
  assert (forall u, valid_page u -> u <> buf -> refs k2 u = refs k u) as Hoth.
  { intros u Hu Hne. unfold refs, page_entry, k2. simpl. rewrite lookup_insert_ne; [done|].
    intros E. apply Hne. symmetry. by apply page_index_inj. }
  assert (kinv fl k2) as Hk2.
  { destruct Hk1 as [Hc Hnd Hvs Hf Hl]. split; try done. rewrite list.Forall_forall in Hf, Hvs |- *. intros u Hu.
    rewrite Hoth; [by apply (Hf u Hu)|by apply Hvs|by intros ->]. }
  assert (reset_and_free_pa_pd (V2P buf) k1 = kfree buf k2) as ->.
  { unfold reset_and_free_pa_pd, pd_index, pd_store. rewrite pd_in_range by done. unfold kbind, gets, modify. cbv beta iota.
    rewrite P2V_V2P by (destruct Hv as (_ & ? & ?); destruct kimage_ok as [? ?]; unfold KERNLINK, EXTMEM, KERNBASE, PHYSTOP in *; lia).
    f_equal. unfold k2, set_pdata, page_entry. simpl. f_equal. by rewrite lookup_insert_eq, insert_insert_eq. }
  exists (kfree_state buf k2). rewrite kfree_eq by (done || lia). split; [done|].
  assert (forall a, ~ buf <= a < buf + PGSIZE -> ld8 (memory (kfree_state buf k2)) a = ld8 (memory k1) a) as Hfr.
  { intros a Ha. rewrite kfree_state_frame by done. done. }
  split_and!.
  - apply kfree_inv_last; [done|done|done|lia].
  - unfold kfree_state. rewrite Hr2. done.
  - rewrite <- marked_word. apply ld32_ext. intros x Hx. apply Hfr. intros Hb. apply (Hw x Hx). exists buf. split; [apply list_elem_of_here|done].
  - intros a Hp Hb. rewrite Hfr by done. by apply marked_other.
  - intros u Hu Hne. rewrite refs_kfree_state, decide_False by (done || lia || by intros ->). by apply Hoth.
Qed.

(** Storing the bytes of a page. *)
Lemma store_bytes_ld8 bs v m a :
  ld8 (store_bytes v bs m) a = if decide (v <= a < v + size_of bs) then u8 (bs !!! Z.to_nat (a - v)) else ld8 m a.
Proof. apply ld8_store_bytes. Qed.

Definition is_byte (x : Z) : Prop := 0 <= x < 256.

Lemma page_bytes_store v bs m : size_of bs = PGSIZE -> Forall is_byte bs -> page_bytes v (store_bytes v bs m) = bs.
Proof.
  intros Hl Hb. unfold page_bytes. apply list_eq. intros i. rewrite list_lookup_fmap.
  destruct (decide (i < length bs)%nat) as [Hi|Hi].
  - rewrite lookup_seqZ_lt by (unfold size_of in *; lia). simpl. rewrite store_bytes_ld8, decide_True by (unfold size_of in *; lia).
    replace (Z.to_nat (v + Z.of_nat i - v)) with i by lia. rewrite (list_lookup_lookup_total_lt bs i Hi). f_equal.
    rewrite list.Forall_forall in Hb. unfold u8. apply Z.mod_small. apply Hb.
    eapply list_elem_of_lookup_2, list_lookup_lookup_total_lt, Hi.
  - rewrite lookup_seqZ_ge, lookup_ge_None_2 by (unfold size_of in *; lia). done.
Qed.

Lemma page_bytes_byte v m : Forall is_byte (page_bytes v m).
Proof. apply list.Forall_fmap, list.Forall_forall. intros a _. apply ld8_range. Qed.
Lemma page_bytes_size v m : size_of (page_bytes v m) = PGSIZE.
Proof. unfold page_bytes, size_of. rewrite length_fmap, length_seqZ. done. Qed.

Definition restored_word (p w : Z) : Z := Z.lor (Z.lor (V2P p) (PTE_FLAGS (clear_flag PTE_S w))) PTE_P.

(** The memory after swapping in: a page is allocated, the entry mapped to it
    and the content copied. *)
Definition alloc_state (p : Z) (k : kmem) : kmem :=
  let k1 := pd_set (set_freelist (ld32 (memory k) p) k) (V2P p) 1 in
  set_pdata (<[V2P p / PGSIZE := mk_page_data 1 (la (page_entry k1 (V2P p / PGSIZE)))]> (pdata k1)) k1.
Definition clear_state (pte : Z) (k : kmem) : kmem :=
  set_memory (st32 pte (clear_flag PTE_S (ld32 (memory k) pte)) (memory k)) k.
Definition in_state (p la pte : Z) (bs : list Z) (k : kmem) : kmem :=
  let k1 := clear_state pte (alloc_state p k) in
  let k2 := mapped_state la pte (V2P p) (PTE_FLAGS (ld32 (memory k1) pte)) k1 in
  set_memory (store_bytes p bs (memory k2)) k2.

Lemma alloc_state_facts p fl k : kinv (p :: fl) k ->
  kinv fl (alloc_state p k) /\ refs (alloc_state p k) p = 1 /\ memory (alloc_state p k) = memory k /\
  klocks (alloc_state p k) = klocks k /\ (forall u, valid_page u -> u <> p -> refs (alloc_state p k) u = refs k u).
Proof.
  intros Hk. pose proof (kalloc_inv _ _ _ Hk) as Hk1. pose proof (ki_valid _ _ Hk) as Hv. apply list.Forall_cons in Hv as [Hp Hv].
  pose proof (ki_nodup _ _ Hk) as Hnd. apply list.NoDup_cons in Hnd as [Hni _].
  set (k1 := pd_set _ _ _) in Hk1.
  assert (alloc_state p k = pd_set k1 (V2P p) 1) as -> by done.
  split_and!; [|by rewrite refs_pd_set, decide_True by done|done|done|].
  - destruct Hk1 as [Hc Hnd Hvs Hf Hl]. split; try done. rewrite list.Forall_forall in Hf, Hvs |- *. intros u Hu.
    rewrite refs_pd_set, decide_False; [by apply Hf| |done|by apply Hvs]. by intros ->.
  - intros u Hu Hne. unfold k1. by rewrite !refs_pd_set, !decide_False by (done || by intros ->).
Qed.

Lemma in_kmem p fl k la pte bs :
  kinv (p :: fl) k -> word_outside (p :: fl) pte -> size_of bs = PGSIZE -> Forall is_byte bs ->
  let k' := in_state p la pte bs k in
  kinv fl k' /\ klocks k' = klocks k /\ refs k' p = 1 /\ page_bytes p (memory k') = bs /\
  ld32 (memory k') pte = restored_word p (ld32 (memory k) pte) /\
  (forall a, ~ pte <= a < pte + 4 -> ~ p <= a < p + PGSIZE -> ld8 (memory k') a = ld8 (memory k) a) /\
  (forall u, valid_page u -> u <> p -> refs k' u = refs k u).
Proof.
  intros Hk Hw Hsz Hby k'. destruct (alloc_state_facts p fl k Hk) as (Hk1 & Hr1 & Hm1 & Hl1 & Ho1).
  pose proof (ki_valid _ _ Hk) as Hv. apply list.Forall_cons in Hv as [Hp Hv]. destruct (valid_page_pa p Hp) as [_ Hpa].
  set (k1 := alloc_state p k) in *. set (w := ld32 (memory k) pte).
  set (e := Z.lor (Z.lor (V2P p) (PTE_FLAGS (ld32 (st32 pte (clear_flag PTE_S w) (memory k)) pte))) PTE_P).
  set (m2 := st32 pte e (st32 pte (clear_flag PTE_S w) (memory k))).
  assert (memory k' = store_bytes p bs m2) as Hmem.
  { unfold k', in_state, mapped_state, clear_state. by destruct (la <? KERNBASE). }
  assert (e = restored_word p w) as He.
  { unfold e, restored_word. rewrite ld32_st32_eq, u32_id; [done|]. apply clear_flag_range, ld32_range. }
  assert (klocks k' = klocks k1 /\ freelist k' = freelist k1) as [Hlk Hfl].
  { unfold k', in_state, mapped_state, clear_state. fold k1. simpl. by destruct (la <? KERNBASE). }
  assert (forall u, refs k' u = refs k1 u) as Href.
  { intros u. unfold k', in_state, mapped_state, clear_state. fold k1. destruct (la <? KERNBASE); [|done].
    change (refs (set_memory ?m ?x) u) with (refs x u). by rewrite refs_la_set. }
  assert (forall a, ~ p <= a < p + PGSIZE -> ld8 (memory k') a = ld8 m2 a) as Hfr.
  { intros a Ha. rewrite Hmem, store_bytes_ld8, decide_False by (by rewrite Hsz). done. }
  assert (forall a, ~ pte <= a < pte + 4 -> ld8 m2 a = ld8 (memory k) a) as Hfr2.
  { intros a Ha. unfold m2. rewrite !ld8_st32, !decide_False by done. done. }
  split_and!.
  - destruct Hk1 as [Hc Hnd Hvs Hf Hl]. split; [|done|done| |by rewrite Hlk].
    + rewrite Hfl. eapply chain_ext; [|exact Hc]. intros v Hi. rewrite Hm1. symmetry. apply ld32_ext. intros x Hx.
      assert (v <> p) as Hne by (intros ->; pose proof (ki_nodup _ _ Hk) as Hn; apply list.NoDup_cons in Hn as [Hn _]; done).
      assert (valid_page v) as Hvv by (by eapply list.Forall_forall in Hv).
      destruct (page_disjoint v p (proj1 Hvv) (proj1 Hp) Hne); rewrite Hfr by (unfold PGSIZE in *; lia); apply Hfr2;
        intros Hpt; apply (Hw x Hpt); exists v; (split; [by apply list_elem_of_further|unfold PGSIZE; lia]).
    + rewrite list.Forall_forall in Hf |- *. intros u Hu. rewrite Href. by apply Hf.
  - by rewrite Hlk.
  - by rewrite Href.
  - rewrite Hmem. by apply page_bytes_store.
  - rewrite <- He. transitivity (ld32 m2 pte).
    + apply ld32_ext. intros x Hx. apply Hfr. intros Hpx. apply (Hw x Hx). exists p. split; [apply list_elem_of_here|done].
    + unfold m2. rewrite ld32_st32_eq, u32_id; [done|]. unfold e. apply entry_range; [unfold PHYSTOP in *; lia|].
      unfold PTE_FLAGS. change 0xFFF with (Z.ones 12). rewrite Z.land_ones by lia. by apply Z.mod_pos_bound.
  - intros a Hpt Hpg. by rewrite Hfr, Hfr2.
  - intros u Hu Hne. rewrite Href. by apply Ho1.
Qed.
End Memory.

(** ** The pages swapped out *)

Record slot := mk_slot { sl_la : Z; sl_pa : Z; sl_bytes : list Z }.

Section Rep.
Context `{KI : KernelImage} `{NA : NodeAlloc}.
Implicit Types (s : sys) (τ : gmap Z slot) (pg : Z -> nat) (b : bin).

Definition slot_key (x : slot) : swkey := mk_swkey (sl_la x) (sl_pa x).
Definition slot_hash (x : slot) : Z := SwapMapHash (slot_key x).

(** The node [e] is that of the page whose entry is at [p]. *)
Definition entry_rel τ pg (h : Z) (e : sentry) (p : Z) : Prop :=
  single e p /\ exists x, τ !! p = Some x /\ key e = slot_key x /\ slot_hash x = h /\ swapfilePageNo (snd e) = Z.of_nat (pg p).

(** The bin [h] holds exactly the pages that hash to it. *)
Definition bin_rep τ pg (h : Z) b : Prop :=
  exists l ps, ll_ok b l /\ Forall2 (entry_rel τ pg h) l ps /\ NoDup ps /\
    forall p, p ∈ ps <-> exists x, τ !! p = Some x /\ slot_hash x = h.

Definition bin_of (h : Z) s : bin := default LinkedListAlloc (sy_bins s !! h).

Record swap_ok s τ : Prop := {
  so_rep : exists σ pg, stores (sy_file s) σ /\
    (forall p x, τ !! p = Some x -> σ !! pg p = Some (sl_bytes x)) /\
    (forall p q, is_Some (τ !! p) -> is_Some (τ !! q) -> pg p = pg q -> p = q) /\
    (forall n, is_Some (σ !! n) -> exists p, is_Some (τ !! p) /\ pg p = n) /\
    (forall h, bin_rep τ pg h (bin_of h s));
  so_bytes : forall p x, τ !! p = Some x -> size_of (sl_bytes x) = PGSIZE /\ Forall is_byte (sl_bytes x);
  so_lock : "unordered_map" ∉ klocks (sy_kmem s)
}.

(** ** Running the parts *)

Definition with_bin (h : Z) b s : sys := set_bins (<[h := b]> (sy_bins s)) s.

Lemma getbin_run {A} k (f : Z -> M sys A) s :
  kbind (UnorderedMapGetBin k) f s = f (SwapMapHash k) (with_bin (SwapMapHash k) (bin_of (SwapMapHash k) s) s).
Proof.
  unfold UnorderedMapGetBin, kbind, gets, kret, with_bin, bin_of, modify. destruct (sy_bins s !! SwapMapHash k) eqn:E; [|done].
  simpl. rewrite insert_id by done. by destruct s.
Qed.

Lemma on_bin_run {A B} h (c : M bin A) (f : A -> M sys B) b a b' s :
  c b = Ok a b' -> kbind (on_bin h c) f (with_bin h b s) = f a (with_bin h b' s).
Proof.
  intros E. unfold kbind, on_bin, with_bin. cbn [sy_bins set_bins]. rewrite lookup_insert_eq, E. f_equal.
  unfold set_bins. simpl. by rewrite insert_insert_eq.
Qed.

Lemma mm_run {A B} (c : M kmem A) (f : A -> M sys B) s a k :
  c (sy_kmem s) = Ok a k -> kbind (mm c) f s = f a (set_kmem k s).
Proof. intros E. unfold kbind, mm, lift. simpl. by rewrite E. Qed.
Lemma sf_run {A B} (c : M (swapfile (list Z)) A) (f : A -> M sys B) s a t :
  c (sy_file s) = Ok a t -> kbind (sf c) f s = f a (set_file t s).
Proof. intros E. unfold kbind, sf, lift. simpl. by rewrite E. Qed.

Lemma mark_run s pte {A} (f : unit -> M sys A) : pte <> NULL ->
  kbind (mark_swapped pte) f s = f tt (set_kmem (set_memory (marked pte (memory (sy_kmem s))) (sy_kmem s)) s).
Proof. intros Hne. unfold mark_swapped. rewrite (proj2 (Z.eqb_neq _ _) Hne). by destruct s as [[] ? ? ?]. Qed.

(** ** The map of pages *)

Lemma bin_rep_ext τ τ' pg pg' h b :
  (forall p x, slot_hash x = h -> (τ !! p = Some x <-> τ' !! p = Some x)) ->
  (forall p x, τ !! p = Some x -> slot_hash x = h -> pg' p = pg p) ->
  bin_rep τ pg h b -> bin_rep τ' pg' h b.
Proof.
  intros Hτ Hpg (l & ps & Hok & Hall & Hnd & Hps). exists l, ps. split; [done|]. split; [|split; [done|]].
  - eapply list.Forall2_impl; [exact Hall|]. intros e p (Hs & x & Hx & Hk & Hh & Hn). split; [done|]. exists x.
    split; [by apply Hτ|]. split; [done|]. split; [done|]. by rewrite (Hpg p x).
  - intros p. rewrite Hps. split; intros (x & Hx & Hh); exists x; (split; [by apply (Hτ p x Hh)|done]).
Qed.

Lemma entry_rel_ext τ τ' pg pg' h l ps :
  (forall p, p ∈ ps -> τ' !! p = τ !! p /\ pg' p = pg p) ->
  Forall2 (entry_rel τ pg h) l ps -> Forall2 (entry_rel τ' pg' h) l ps.
Proof.
  intros Hext Hall. induction Hall as [|e p l ps (Hs & x & Hx & Hrest) Hall IH]; [constructor|]. constructor.
  - destruct (Hext p) as [Ht Hp]; [apply list_elem_of_here|]. split; [done|]. exists x. rewrite Ht, Hp. done.
  - apply IH. intros q Hq. apply Hext. by apply list_elem_of_further.
Qed.

Definition put_pg (p : Z) (n : nat) pg : Z -> nat := fun q => if decide (q = p) then n else pg q.

(** A page is added at the end of its bin. *)
Lemma bin_add τ pg h l ps b' a p x n ptes c :
  τ !! p = None -> slot_hash x = h -> Forall2 (entry_rel τ pg h) l ps -> NoDup ps ->
  (forall q, q ∈ ps <-> exists y, τ !! q = Some y /\ slot_hash y = h) ->
  ll_ok b' (l ++ [(a, slot_key x, mk_swdata (Z.of_nat n) ptes)]) -> ll_ok ptes [(c, p, tt)] ->
  bin_rep (<[p := x]> τ) (put_pg p n pg) h b'.
Proof.
  intros Hp Hh Hall Hnd Hps Hok Hpt. assert (p ∉ ps) as Hni by (intros (y & Hy & _)%Hps; congruence).
  exists (l ++ [(a, slot_key x, mk_swdata (Z.of_nat n) ptes)]), (ps ++ [p]). split; [done|]. split; [|split].
  - apply List.Forall2_app.
    + eapply entry_rel_ext; [|exact Hall]. intros q Hq. assert (q <> p) by (by intros ->). unfold put_pg.
      by rewrite lookup_insert_ne, decide_False.
    + constructor; [|constructor]. split; [by exists c|]. exists x. unfold put_pg. rewrite lookup_insert_eq, decide_True by done. done.
  - apply list.NoDup_app. split; [done|]. split; [|apply NoDup_singleton]. intros q Hq ->%list_elem_of_singleton. done.
  - intros q. rewrite elem_of_app, list_elem_of_singleton, Hps. destruct (decide (q = p)) as [->|Hne].
    + split; [intros _; exists x; by rewrite lookup_insert_eq|by right].
    + rewrite lookup_insert_ne by done. split; [intros [?|?]; done|by left].
Qed.

(** The page of [p] is taken out of its bin. *)
Lemma bin_remove τ pg h l1 e l2 ps1 p ps2 b' :
  Forall2 (entry_rel τ pg h) (l1 ++ e :: l2) (ps1 ++ p :: ps2) -> length l1 = length ps1 -> NoDup (ps1 ++ p :: ps2) ->
  (forall q, q ∈ ps1 ++ p :: ps2 <-> exists y, τ !! q = Some y /\ slot_hash y = h) ->
  ll_ok b' (l1 ++ l2) -> bin_rep (delete p τ) pg h b'.
Proof.
  intros Hall Hlen Hnd Hps Hok. apply list.Forall2_app_inv in Hall as [H1 H2]; [|done]. apply list.Forall2_cons_1 in H2 as [_ H2].
  apply list.NoDup_app in Hnd as (Hnd1 & Hd & Hnd2). apply list.NoDup_cons in Hnd2 as [Hni Hnd2].
  assert (forall q, q ∈ ps1 ++ ps2 -> q <> p) as Hne.
  { intros q [Hq|Hq]%elem_of_app ->; [|done]. apply (Hd p Hq). apply list_elem_of_here. }
  exists (l1 ++ l2), (ps1 ++ ps2). split; [done|]. split; [|split].
  - apply (entry_rel_ext τ _ pg); [|by apply List.Forall2_app]. intros q Hq. split; [|done]. apply lookup_delete_ne.
    intros <-. by apply (Hne p).
  - apply list.NoDup_app. split; [done|]. split; [|done]. intros q Hq Hq2. apply (Hd q Hq). by apply list_elem_of_further.
  - intros q. destruct (decide (q = p)) as [->|Hqp].
    + rewrite lookup_delete_eq. split; [by intros ?%Hne|by intros (? & ? & _)].
    + rewrite lookup_delete_ne, <- Hps, !elem_of_app, elem_of_cons by done. tauto.
Qed.

(** The other bins do not change. *)
Lemma bins_other τ τ' pg pg' h b s x p :
  slot_hash x = h -> (forall q, q <> p -> τ' !! q = τ !! q /\ pg' q = pg q) ->
  (forall y, τ !! p = Some y \/ τ' !! p = Some y -> y = x) ->
  (forall h', bin_rep τ pg h' (bin_of h' s)) -> bin_rep τ' pg' h b ->
  forall h', bin_rep τ' pg' h' (bin_of h' (with_bin h b s)).
Proof.
  intros Hh Hext Hp Hall Hb h'. unfold bin_of, with_bin. simpl. destruct (decide (h = h')) as [<-|Hne].
  - by rewrite lookup_insert_eq.
  - rewrite lookup_insert_ne by done. apply (bin_rep_ext τ _ pg); [| |apply (Hall h')].
    + intros q y Hy. destruct (decide (q = p)) as [->|Hq]; [|by rewrite (proj1 (Hext q Hq))].
      split; intros E; rewrite (Hp y) in Hy by tauto; congruence.
    + intros q y Hq Hy. destruct (decide (q = p)) as [->|Hqp]; [|by apply Hext]. rewrite (Hp y) in Hy by tauto. congruence.
Qed.

(** As many pages are in the swap file as are swapped out. *)
Lemma pages_size τ pg (σ : gmap nat (list Z)) :
  (forall p q, is_Some (τ !! p) -> is_Some (τ !! q) -> pg p = pg q -> p = q) ->
  (forall n, is_Some (σ !! n) -> exists p, is_Some (τ !! p) /\ pg p = n) -> (size σ <= size τ)%nat.
Proof.
  intros Hinj Hsur. rewrite <- !size_dom. assert (NoDup (pg <$> elements (dom τ))) as Hnd.
  { apply NoDup_fmap_2_strong; [|apply NoDup_elements]. intros p q Hp Hq. rewrite elem_of_elements, elem_of_dom in Hp, Hq. by apply Hinj. }
  transitivity (size (list_to_set (pg <$> elements (dom τ)) : gset nat)).
  - apply subseteq_size. intros n Hn%elem_of_dom%Hsur. destruct Hn as (p & Hp & <-). apply elem_of_list_to_set, list_elem_of_fmap.
    exists p. split; [done|]. by rewrite elem_of_elements, elem_of_dom.
  - by rewrite size_list_to_set, length_fmap.
Qed.

(** States in normal form: the bin, then memory, then the file. *)
Lemma kmem_bin k h b s : set_kmem k (with_bin h b s) = with_bin h b (set_kmem k s).
Proof. done. Qed.
Lemma kmem_kmem k k' s : set_kmem k (set_kmem k' s) = set_kmem k s.
Proof. done. Qed.
Lemma file_bin f h b s : set_file f (with_bin h b s) = with_bin h b (set_file f s).
Proof. done. Qed.
Lemma file_kmem f k s : set_file f (set_kmem k s) = set_kmem k (set_file f s).
Proof. done. Qed.
Lemma file_file f f' s : set_file f (set_file f' s) = set_file f s.
Proof. done. Qed.
Hint Rewrite kmem_bin kmem_kmem file_bin file_kmem file_file : swapst.

Lemma acquire_map k : "unordered_map" ∉ klocks k ->
  acquire "unordered_map" k = Ok tt (set_klocks ({["unordered_map"]} ∪ klocks k) k).
Proof. intros Hl. unfold acquire. by rewrite decide_False. Qed.
Lemma release_map k h : "unordered_map" ∉ h -> klocks k = {["unordered_map"]} ∪ h ->
  release "unordered_map" k = Ok tt (set_klocks h k).
Proof. intros Hl E. unfold release. simpl. rewrite E, decide_True by set_solver. by rewrite held_cycle. Qed.

Lemma pd_lookup k i : (0 <=? i) && (i <? NPDATAMAP) = true -> pd_index i k = Ok (page_entry k i) k.
Proof. intros E. unfold pd_index. by rewrite E. Qed.

Lemma get_pd_run k pa : 0 <= pa < PHYSTOP -> get_pd pa k = Ok (pa / PGSIZE) k.
Proof. intros Hpa. unfold get_pd. by rewrite (proj2 (Z.ltb_ge _ _)) by lia. Qed.

Section Fresh.
(** The kernel heap does not run out. *)
Context (Hfresh : forall used, fresh used <> NULL).

(** The nodes that [swapwrite_file] builds. *)
Lemma add_nodes b l k n pte : ll_ok b l ->
  exists b1 b2 b3 a ptes c,
    LinkedListAdd k SwapDataCreate b = Ok tt b1 /\ gets ll_end b1 = Ok a b1 /\
    putn a (fun x => set_n_data (set_page_no n (n_data x)) x) b1 = Ok tt b2 /\
    on_ptes a (LinkedListAdd pte tt) b2 = Ok tt b3 /\
    ll_ok b3 (l ++ [(a, k, mk_swdata n ptes)]) /\ ll_ok ptes [(c, pte, tt)].
Proof.
  intros Hok. destruct (add_spec b l k SwapDataCreate Hok (Hfresh _)) as (b1 & E1 & H1).
  set (a := fresh _) in H1. destruct (node_lookup b1 l (a, k, SwapDataCreate) [] H1) as [Ha Hn]. change (addr _) with a in *.
  destruct (data_ok b1 l _ [] (set_page_no n SwapDataCreate) _ H1 Hn) as [_ H2].
  change (addr _) with a in H2. change (key _) with k in H2.
  destruct (add_spec (LinkedListAlloc : llist Z unit) [] pte tt alloc_ok (Hfresh _)) as (ptes & E3 & H3).
  destruct (on_ptes_ok _ l (a, k, set_page_no n SwapDataCreate) [] _ _ _ H2 E3) as (b3 & E4 & H4).
  eexists b1, _, b3, a, ptes, _. split_and!; [done| | | | |].
  - unfold gets. by rewrite (lk_end _ _ H1), final_app.
  - by rewrite (putn_eq _ _ _ _ Hn).
  - exact E4.
  - exact H4.
  - exact H3.
Qed.

Lemma swapwrite_run s τ buf la pte fl :
  swap_ok s τ -> τ !! pte = None -> pte <> NULL -> Z.of_nat (size τ) < capacity (sy_file s) ->
  kinv fl (sy_kmem s) -> valid_page buf -> buf ∉ fl -> refs (sy_kmem s) buf = 1 -> word_outside (buf :: fl) pte ->
  exists s', swapwrite_file buf la pte s = Ok tt s' /\
    swap_ok s' (<[pte := mk_slot la (V2P buf) (page_bytes buf (memory (sy_kmem s)))]> τ) /\
    capacity (sy_file s') = capacity (sy_file s) /\
    kinv (buf :: fl) (sy_kmem s') /\ klocks (sy_kmem s') = klocks (sy_kmem s) /\
    ld32 (memory (sy_kmem s')) pte = swapped_word (ld32 (memory (sy_kmem s)) pte) /\
    (forall a, ~ pte <= a < pte + 4 -> ~ buf <= a < buf + PGSIZE ->
       ld8 (memory (sy_kmem s')) a = ld8 (memory (sy_kmem s)) a) /\
    (forall u, valid_page u -> u <> buf -> refs (sy_kmem s') u = refs (sy_kmem s) u).
Proof.
  intros [(σ & pg & Hst & Hc & Hinj & Hsur & Hbins) Hby Hlk] Hnone Hpte Hcap Hk Hv Hni Hr Hw.
  set (bs := page_bytes buf (memory (sy_kmem s))). set (x := mk_slot la (V2P buf) bs).
  pose proof (pages_size τ pg σ Hinj Hsur) as Hsz.
  destruct (store_page_ok (sy_file s) σ bs Hst (page_bytes_size _ _) ltac:(lia)) as (n & f' & Hfree & E & Hst' & Hcap').
  apply kbind_ok_inv in E as (r & f1 & E1 & E). apply kbind_ok_inv in E as (z & f2 & E2 & E). injection E as -> ->.
  destruct (Hbins (slot_hash x)) as (l & ps & Hok & Hall & Hnd & Hps).
  destruct (add_nodes _ l (slot_key x) (Z.of_nat n) pte Hok) as (b1 & b2 & b3 & a & ptes & c & A1 & A2 & A3 & A4 & Hok' & Hpt).
  destruct (valid_page_pa buf Hv) as [_ Hpa].
  destruct (out_kmem fl (sy_kmem s) buf pte Hk Hv Hni Hw) as (k' & E5 & K1 & K2 & K3 & K4 & K5).
  exists (with_bin (slot_hash x) b3 (set_kmem k' (set_file f' s))). split.
  - unfold swapwrite_file. erewrite sf_run by exact E1. erewrite mm_run by reflexivity.
    erewrite sf_run by exact E2. cbv zeta. erewrite mm_run by exact (acquire_map (sy_kmem s) Hlk). rewrite getbin_run.
    autorewrite with swapst.
    change (SwapMapHash _) with (slot_hash x). change (bin_of _ (set_kmem _ _)) with (bin_of (slot_hash x) s).
    erewrite on_bin_run by exact A1. erewrite on_bin_run by exact A2. erewrite on_bin_run by exact A3.
    set (h1 := {["unordered_map"]} ∪ klocks (sy_kmem s)). set (k1 := set_klocks h1 (sy_kmem s)).
    erewrite mm_run by exact (get_pd_run k1 (V2P buf) Hpa). erewrite mm_run by exact (pd_lookup k1 _ (pd_in_range _ Hpa)).
    autorewrite with swapst.
    change (ref_count (page_entry k1 (V2P buf / PGSIZE)) =? 1) with (refs (sy_kmem s) buf =? 1). rewrite Hr, Z.eqb_refl.
    rewrite kbind_assoc. erewrite on_bin_run by exact A4. rewrite mark_run by done. autorewrite with swapst.
    erewrite mm_run by exact (release_map (set_memory (marked pte (memory (sy_kmem s))) k1) _ Hlk eq_refl).
    autorewrite with swapst. unfold mm, lift. cbn [sub_get swap_kmem sub_put].
    change (sy_kmem (with_bin _ _ (set_kmem ?k _))) with k.
    replace (set_klocks (klocks (sy_kmem s)) (set_memory (marked pte (memory (sy_kmem s))) k1))
      with (set_memory (marked pte (memory (sy_kmem s))) (sy_kmem s)) by (by destruct (sy_kmem s)).
    by rewrite E5.
  - split; [|by split_and!]. split.
    + exists (<[n := bs]> σ), (put_pg pte n pg). split; [exact Hst'|]. unfold put_pg. split_and!.
      * intros p y. destruct (decide (p = pte)) as [->|Hne]; [rewrite !lookup_insert_eq; by intros [= <-]|].
        rewrite lookup_insert_ne by done. intros Hy. rewrite lookup_insert_ne; [by apply Hc|].
        intros ->. apply Hc in Hy. congruence.
      * intros p q Hp Hq. repeat case_decide; subst; try done; try rewrite lookup_insert_ne in Hp by done; try rewrite lookup_insert_ne in Hq by done.
        -- intros ->. destruct Hq as [y Hy]. apply Hc in Hy. congruence.
        -- intros <-. destruct Hp as [y Hy]. apply Hc in Hy. congruence.
        -- by apply Hinj.
      * intros m Hm. destruct (decide (m = n)) as [->|Hne].
        -- exists pte. rewrite lookup_insert_eq, decide_True by done. by eauto.
        -- rewrite lookup_insert_ne in Hm by done. destruct (Hsur m Hm) as (p & Hp & <-). exists p.
           assert (p <> pte) by (intros ->; rewrite Hnone in Hp; by destruct Hp). by rewrite lookup_insert_ne, decide_False.
      * apply (bins_other τ _ pg _ (slot_hash x) b3 (set_kmem k' (set_file f' s)) x pte); [done| | |exact Hbins|].
        -- intros q Hq. by rewrite lookup_insert_ne, decide_False.
        -- intros y. rewrite Hnone, lookup_insert_eq. by intros [?|[= <-]].
        -- by eapply (bin_add τ pg (slot_hash x) l ps b3 a pte x n ptes c).
    + intros p y. destruct (decide (p = pte)) as [->|Hne]; [|rewrite lookup_insert_ne by done; apply Hby].
      rewrite lookup_insert_eq. intros [= <-]. split; [apply page_bytes_size|apply page_bytes_byte].
    + simpl. by rewrite K2.
Qed.
End Fresh.

Lemma load_run {A} a (f : Z -> M sys A) s : kbind (load a) f s = f (ld32 (memory (sy_kmem s)) a) s.
Proof. by destruct s. Qed.
Lemma store_run {A} a v (f : unit -> M sys A) s :
  kbind (store a v) f s = f tt (set_kmem (set_memory (st32 a v (memory (sy_kmem s))) (sy_kmem s)) s).
Proof. done. Qed.

(** The node of a page in its bin. *)
Lemma bin_split τ pg b x p :
  bin_rep τ pg (slot_hash x) b -> τ !! p = Some x ->
  exists l1 e l2 ps1 ps2, ll_ok b (l1 ++ e :: l2) /\
    Forall2 (entry_rel τ pg (slot_hash x)) (l1 ++ e :: l2) (ps1 ++ p :: ps2) /\ length l1 = length ps1 /\ NoDup (ps1 ++ p :: ps2) /\
    (forall q, q ∈ ps1 ++ p :: ps2 <-> exists y, τ !! q = Some y /\ slot_hash y = slot_hash x) /\
    key e = slot_key x /\ single e p /\ swapfilePageNo (snd e) = Z.of_nat (pg p) /\
    (forall e', e' ∈ l1 ++ e :: l2 -> e' <> e -> exists q, single e' q /\ q <> p).
Proof.
  intros (l & ps & Hok & Hall & Hnd & Hps) Hx. assert (p ∈ ps) as Hin by (apply Hps; by exists x).
  apply list_elem_of_split in Hin as (ps1 & ps2 & ->). pose proof Hall as Hall'.
  apply list.Forall2_app_inv_r in Hall as (l1 & l' & H1 & H2 & ->).
  apply list.Forall2_cons_inv_r in H2 as (e & l2 & He & H2 & ->). pose proof He as (Hs & y & Hy & Hk & _ & Hn).
  rewrite Hx in Hy. injection Hy as <-.
  exists l1, e, l2, ps1, ps2. split_and!; try done; [by eapply Forall2_length|].
  intros e' He' Hne. apply list_elem_of_lookup in He' as [i Hi].
  destruct (list.Forall2_lookup_l _ _ _ _ _ Hall' Hi) as (q & Hq & (Hs' & _)). exists q. split; [done|]. intros ->.
  assert (i = length ps1) as -> by (eapply NoDup_lookup; [exact Hnd|exact Hq|apply list_lookup_middle; done]).
  rewrite <- (Forall2_length H1), list_lookup_middle in Hi by done. congruence.
Qed.

(** Looking up the key, and then the node that records the entry. *)
Lemma lookup_node b x p l1 e l2 :
  ll_ok b (l1 ++ e :: l2) -> key e = slot_key x -> single e p ->
  (forall e', e' ∈ l1 ++ e :: l2 -> e' <> e -> exists q, single e' q /\ q <> p) ->
  exists a b', a <> NULL /\ LinkedListGet (Some (slot_key x)) b = Ok a b /\
    find_node_from (slot_key x) a p b = Ok (addr e) b' /\ ll_ok b' (l1 ++ e :: l2).
Proof.
  intros Hok Hk Hs Hoth. assert (e ∈ l1 ++ e :: l2) as Hin by (apply elem_of_app; right; apply list_elem_of_here).
  destruct (find_first_split (Some (slot_key x)) _ e Hin) as (q1 & e0 & q2 & Heq & Hff & He0 & Hq1).
  { unfold hit, matches. by apply bool_decide_eq_true. }
  assert (e ∈ e0 :: q2) as Hin2.
  { rewrite Heq in Hin. apply elem_of_app in Hin as [Hq|?]; [exfalso|done]. rewrite list.Forall_forall in Hq1. specialize (Hq1 _ Hq).
    unfold hit, matches in Hq1. by apply bool_decide_eq_false in Hq1. }
  assert (ll_ok b (q1 ++ e0 :: q2)) as Hok' by (by rewrite <- Heq).
  destruct (find_node_spec (fuel_of b) b q1 e0 q2 (slot_key x) e p Hok') as (b' & E & Hb'); [|done|done|done| |].
  { unfold fuel_of. rewrite (nodes_size _ _ Hok'), length_app. simpl. lia. }
  { intros e' He' Hne. apply Hoth; [|done]. rewrite Heq. apply elem_of_app. by right. }
  exists (addr e0), b'. split; [apply (node_lookup _ _ _ _ Hok')|]. split; [|split].
  - unfold LinkedListGet. rewrite (kbind_ok _ _ _ _ _ (eq_refl (gets ll_start b))), (lk_start _ _ Hok).
    by rewrite (get_next_spec b [] _ (Some (slot_key x)) Hok), Hff.
  - unfold find_node_from. by rewrite (kbind_ok _ _ _ _ _ (eq_refl (kget b))).
  - by rewrite Heq.
Qed.

(** Removing the node. *)
Lemma drop_node b l1 e l2 : ll_ok b (l1 ++ e :: l2) ->
  exists b' r, LinkedListNodeRemoveNextMatching (addr e) None b = Ok r b' /\ ll_ok b' (l1 ++ l2).
Proof. intros Hok. destruct (remove_next_spec b l1 (e :: l2) None Hok) as (b' & E & Hb'). by eexists b', _. Qed.

(** The store without the page of [p]. *)
Lemma drop_page s τ σ pg x p h b f' k' :
  τ !! p = Some x -> h = slot_hash x -> stores f' (delete (pg p) σ) ->
  (forall q y, τ !! q = Some y -> σ !! pg q = Some (sl_bytes y)) ->
  (forall q r, is_Some (τ !! q) -> is_Some (τ !! r) -> pg q = pg r -> q = r) ->
  (forall n, is_Some (σ !! n) -> exists q, is_Some (τ !! q) /\ pg q = n) ->
  (forall h', bin_rep τ pg h' (bin_of h' s)) -> bin_rep (delete p τ) pg h b ->
  (forall q y, τ !! q = Some y -> size_of (sl_bytes y) = PGSIZE /\ Forall is_byte (sl_bytes y)) ->
  "unordered_map" ∉ klocks k' ->
  swap_ok (with_bin h b (set_kmem k' (set_file f' s))) (delete p τ).
Proof.
  intros Hx -> Hst Hc Hinj Hsur Hbins Hb Hby Hlk. split; [|intros q y [_ Hq]%lookup_delete_Some; by eapply Hby|done].
  exists (delete (pg p) σ), pg. split; [done|]. split_and!.
  - intros q y [Hne Hq]%lookup_delete_Some. rewrite lookup_delete_ne; [by apply Hc|]. intros E. apply Hne, Hinj; eauto.
  - intros q r [y [_ Hq]%lookup_delete_Some] [z [_ Hr]%lookup_delete_Some]. apply Hinj; eauto.
  - intros n [c [Hne Hn]%lookup_delete_Some]. destruct (Hsur n ltac:(eauto)) as (q & Hq & <-). exists q. split; [|done].
    rewrite lookup_delete_ne; [done|]. by intros ->.
  - apply (bins_other τ _ pg _ (slot_hash x) b (set_kmem k' (set_file f' s)) x p); [done| | |exact Hbins|done].
    + intros q Hq. by rewrite lookup_delete_ne.
    + intros y. rewrite lookup_delete_eq, Hx. by intros [[= <-]|?].
Qed.

(** The kernel memory of [swapread_file], while it holds the lock of the map. *)
Lemma locked_in_state p la pte bs k h :
  let k1 := clear_state pte (alloc_state p (set_klocks h k)) in
  let k2 := mapped_state la pte (V2P p) (PTE_FLAGS (ld32 (memory k1) pte)) k1 in
  klocks k2 = h /\
  set_memory (store_bytes p bs (memory (set_klocks (klocks k) k2))) (set_klocks (klocks k) k2) = in_state p la pte bs k.
Proof.
  intros k1 k2. unfold k2, mapped_state, in_state, mapped_state. destruct k. destruct (la <? KERNBASE); done.
Qed.

Lemma flag_P_clear_S w : flag PTE_P w = false -> flag PTE_P (clear_flag PTE_S w) = false.
Proof.
  change PTE_P with (2 ^ 0). rewrite !flag_testbit by lia. unfold clear_flag. rewrite Z.land_spec. by intros ->.
Qed.

(** One round of the inner loop is enough for the one entry of a node. *)
Lemma remap_run h b l1 e l2 p la v s :
  ll_ok b (l1 ++ e :: l2) -> single e p -> flag PTE_P (ld32 (memory (sy_kmem s)) p) = false -> 0 <= V2P v < PHYSTOP ->
  exists b', ll_ok b' (l1 ++ e :: l2) /\ forall A (f : unit -> M sys A),
    kbind (remap_ptes (fuel_of (PTEs (snd e))) h (addr e) (ll_start (PTEs (snd e))) la v) f (with_bin h b s) =
    f tt (let k1 := clear_state p (sy_kmem s) in
          with_bin h b' (set_kmem (mapped_state la p (V2P v) (PTE_FLAGS (ld32 (memory k1) p)) k1) s)).
Proof.
  intros Hok [a Hp] Hw Hv. destruct (node_lookup _ [] (a, p, tt) [] Hp) as [_ Hn]. change (addr (a, p, ())) with a in Hn.
  destruct (on_ptes_read b l1 e l2 _ _ Hok (getn_eq a _ _ Hn)) as (b' & E & Hb'). exists b'. split; [done|]. intros A f.
  rewrite (lk_start _ _ Hp). change (first NULL [(a, p, ())]) with a. unfold fuel_of. cbn [remap_ptes].
  rewrite kbind_assoc. erewrite on_bin_run by exact E. cbv zeta. cbn [n_key n_next]. change (key (a, p, ())) with p.
  rewrite kbind_assoc, load_run, kbind_assoc, store_run, kbind_assoc, load_run. autorewrite with swapst.
  rewrite kbind_assoc. erewrite mm_run; [done|]. apply (mappage_eq la p (V2P v) _ (clear_state p (sy_kmem s))); [|done].
  unfold clear_state. cbn [memory set_memory]. rewrite ld32_st32_eq, u32_id by apply clear_flag_range, ld32_range.
  by rewrite flag_P_clear_S.
Qed.

Lemma swapread_run s τ la pte x p fl :
  swap_ok s τ -> τ !! pte = Some x -> sl_la x = la -> PTE_ADDR (ld32 (memory (sy_kmem s)) pte) = sl_pa x ->
  flag PTE_P (ld32 (memory (sy_kmem s)) pte) = false -> kinv (p :: fl) (sy_kmem s) -> word_outside (p :: fl) pte ->
  exists s', swapread_file la pte s = Ok tt s' /\ swap_ok s' (delete pte τ) /\
    capacity (sy_file s') = capacity (sy_file s) /\ sy_kmem s' = in_state p la pte (sl_bytes x) (sy_kmem s).
Proof.
  intros [(σ & pg & Hst & Hc & Hinj & Hsur & Hbins) Hby Hlk] Hx <- Hpa Hw Hk Hout.
  destruct (bin_split τ pg _ x pte (Hbins _) Hx) as (l1 & e & l2 & ps1 & ps2 & Hok & Hall & Hlen & Hnd & Hps & Hke & Hsg & Hpn & Hoth).
  destruct (lookup_node _ x pte l1 e l2 Hok Hke Hsg Hoth) as (a & b1 & Ha & G1 & G2 & Hok1).
  destruct (take_page_ok (sy_file s) σ (pg pte) (sl_bytes x) Hst (Hc _ _ Hx)) as (f' & E & Hst' & Hcap).
  apply kbind_ok_inv in E as (bs & f1 & E1 & E). apply kbind_ok_inv in E as (z & f2 & E2 & E). injection E as -> ->.
  pose proof (ki_valid _ _ Hk) as Hv. apply list.Forall_cons in Hv as [Hp _]. destruct (valid_page_pa p Hp) as [_ Hpv].
  set (k := sy_kmem s) in *. set (h1 := {["unordered_map"]} ∪ klocks k).
  assert (kinv (p :: fl) (set_klocks h1 k)) as Hk1.
  { destruct (ki_locks _ _ Hk). apply kinv_klocks; [done|set_solver..]. }
  set (kA := pd_set (set_freelist (ld32 (memory k) p) (set_klocks h1 k)) (V2P p) 1).
  destruct (node_lookup _ _ _ _ Hok1) as [Hae Hn1].
  assert (ll_length (PTEs (snd e)) = 1) as Hl1 by (destruct Hsg as [c Hs]; by rewrite (lk_len _ _ Hs)).
  set (kB := alloc_state p (set_klocks h1 k)).
  destruct (remap_run (slot_hash x) b1 l1 e l2 pte (sl_la x) p (set_kmem kB (set_file (sy_file s) s)) Hok1 Hsg Hw Hpv) as (b2 & Hok2 & R).
  destruct (node_lookup _ _ _ _ Hok2) as [_ Hn2]. destruct (drop_node b2 l1 e l2 Hok2) as (b3 & r & G3 & Hok3).
  destruct (locked_in_state p (sl_la x) pte (sl_bytes x) k h1) as [L1 L2].
  set (kC := mapped_state _ _ _ _ _) in L1, L2.
  exists (with_bin (slot_hash x) b3 (set_kmem (in_state p (sl_la x) pte (sl_bytes x) k) (set_file f' s))). split; [|split; [|done]].
  - unfold swapread_file. rewrite load_run. fold k. rewrite Hpa. cbv zeta. erewrite mm_run by exact (acquire_map k Hlk). rewrite getbin_run.
    change (SwapMapHash _) with (slot_hash x). change (bin_of _ (set_kmem _ _)) with (bin_of (slot_hash x) s).
    erewrite on_bin_run by exact G1. rewrite (proj2 (Z.eqb_neq _ _) Ha).
    erewrite mm_run by exact (kalloc_cons_eq p fl _ Hk1). erewrite mm_run by exact (get_pd_run kA (V2P p) Hpv). autorewrite with swapst.
    erewrite on_bin_run by exact G2. rewrite (proj2 (Z.eqb_neq _ _) Hae).
    erewrite on_bin_run by exact (getn_eq _ _ _ Hn1). cbn [n_data].
    erewrite mm_run by exact (pd_lookup kA _ (pd_in_range _ Hpv)). rewrite Hl1.
    erewrite mm_run by (unfold pd_store; rewrite pd_in_range by done; reflexivity). autorewrite with swapst.
    change (set_pdata _ kA) with kB. change (set_kmem kB s) with (set_kmem kB (set_file (sy_file s) s)). rewrite R. cbv zeta.
    erewrite on_bin_run by exact (getn_eq _ _ _ Hn2). cbn [n_data]. rewrite Hpn.
    erewrite on_bin_run by exact G3. autorewrite with swapst.
    erewrite mm_run by exact (release_map kC (klocks k) Hlk L1). autorewrite with swapst.
    erewrite sf_run by exact E1. autorewrite with swapst. erewrite mm_run by reflexivity. autorewrite with swapst.
    erewrite sf_run by exact E2. autorewrite with swapst. by rewrite <- L2.
  - apply (drop_page s τ σ pg x pte); try done.
    + eapply bin_remove; [exact Hall|done|exact Hnd|exact Hps|exact Hok3].
    + rewrite <- L2. done.
Qed.

(** [swapfree_file] up to the release of the process table's lock. *)
Lemma swapfree_upto s τ pg va pte x :
  (forall h, bin_rep τ pg h (bin_of h s)) -> "unordered_map" ∉ klocks (sy_kmem s) -> τ !! pte = Some x -> V2P va = sl_pa x ->
  exists b, bin_rep (delete pte τ) pg (slot_hash x) b /\
    swapfree_file va (sl_la x) pte s =
    (mm (release "ptable") ;;; sf (swapfile_free_page (Z.of_nat (pg pte))) ;;; mm (acquire "ptable")) (with_bin (slot_hash x) b s).
Proof.
  intros Hbins Hlk Hx Hpa.
  destruct (bin_split τ pg _ x pte (Hbins _) Hx) as (l1 & e & l2 & ps1 & ps2 & Hok & Hall & Hlen & Hnd & Hps & Hke & Hsg & Hpn & Hoth).
  destruct (lookup_node _ x pte l1 e l2 Hok Hke Hsg Hoth) as (a & b1 & Ha & G1 & G2 & Hok1).
  destruct (node_lookup _ _ _ _ Hok1) as [Hae _]. set (k := sy_kmem s) in *. set (h1 := {["unordered_map"]} ∪ klocks k).
  destruct Hsg as [c Hsg].
  assert (LinkedListGet (Some pte) (PTEs (snd e)) = Ok c (PTEs (snd e))) as G3.
  { unfold LinkedListGet. rewrite (kbind_ok _ _ _ _ _ (eq_refl (gets ll_start _))), (lk_start _ _ Hsg).
    rewrite (get_next_spec (PTEs (snd e)) [] [(c, pte, tt)] (Some pte) Hsg). simpl. unfold hit, matches, key. simpl. by rewrite bool_decide_true. }
  destruct (on_ptes_read b1 l1 e l2 _ _ Hok1 G3) as (b2 & G4 & Hok2).
  destruct (remove_next_spec (PTEs (snd e)) [] [(c, pte, tt)] None Hsg) as (ptes & G5 & Hpts). simpl in G5, Hpts.
  change (addr (c, pte, ())) with c in G5. destruct (on_ptes_ok b2 l1 e l2 _ _ _ Hok2 G5) as (b3 & G6 & Hok3).
  destruct (node_lookup _ _ _ _ Hok3) as [_ Hn3]. destruct (drop_node b3 l1 _ l2 Hok3) as (b4 & r & G7 & Hok4).
  change (addr (addr e, key e, set_ptes ptes (snd e))) with (addr e) in Hn3, G7.
  exists b4. split; [eapply bin_remove; [exact Hall|done|exact Hnd|exact Hps|exact Hok4]|].
  unfold swapfree_file. rewrite Hpa. cbv zeta. erewrite mm_run by exact (acquire_map k Hlk). rewrite getbin_run.
  change (SwapMapHash _) with (slot_hash x). change (bin_of _ (set_kmem _ _)) with (bin_of (slot_hash x) s).
  erewrite on_bin_run by exact G1. rewrite (proj2 (Z.eqb_neq _ _) Ha). erewrite on_bin_run by exact G2.
  rewrite (proj2 (Z.eqb_neq _ _) Hae). erewrite on_bin_run by exact G4. erewrite on_bin_run by exact G6.
  erewrite on_bin_run by exact (getn_eq _ _ _ Hn3). cbn [n_data set_ptes swapfilePageNo PTEs snd].
  rewrite (lk_len _ _ Hpts), Hpn. change (u32 (Z.of_nat (length [])) =? 0) with true. cbv iota.
  erewrite on_bin_run by exact G7. erewrite mm_run by exact (release_map (set_klocks h1 k) (klocks k) Hlk eq_refl).
  autorewrite with swapst. subst k. by destruct s as [[] ? ? ?].
Qed.

Lemma swapfree_run s τ va la pte x :
  swap_ok s τ -> τ !! pte = Some x -> sl_la x = la -> V2P va = sl_pa x -> "ptable" ∈ klocks (sy_kmem s) ->
  exists s', swapfree_file va la pte s = Ok tt s' /\ swap_ok s' (delete pte τ) /\
    capacity (sy_file s') = capacity (sy_file s) /\ sy_kmem s' = sy_kmem s.
Proof.
  intros [(σ & pg & Hst & Hc & Hinj & Hsur & Hbins) Hby Hlk] Hx <- Hpa Hpt.
  destruct (swapfree_upto s τ pg va pte x Hbins Hlk Hx Hpa) as (b & Hb & ->).
  destruct (free_page_ok (sy_file s) σ (pg pte) Hst ltac:(eauto)) as (f' & E & Hst' & Hcap). set (k := sy_kmem s) in *.
  exists (with_bin (slot_hash x) b (set_kmem k (set_file f' s))). split; [|split; [|done]].
  - erewrite mm_run by (unfold release; simpl; rewrite decide_True by done; reflexivity). autorewrite with swapst.
    erewrite sf_run by exact E. autorewrite with swapst. unfold mm, lift, acquire. simpl. rewrite decide_False by set_solver.
    assert ({["ptable"]} ∪ klocks k ∖ {["ptable"]} = klocks k) as Hh.
    { apply set_eq. intros y. destruct (decide (y = "ptable")); set_solver. }
    unfold set_klocks. simpl. fold k. rewrite Hh. subst k. by destruct (sy_kmem s).
  - by apply (drop_page s τ σ pg x pte).
Qed.
End Rep.

(** ** The entry after a round trip *)

Lemma flag_bit n w : 0 <= n -> flag (2 ^ n) w = Z.testbit w n.
Proof. apply flag_testbit. Qed.

Lemma clear_flag_bit n f w : 0 <= n < 32 -> Z.testbit (clear_flag f w) n = Z.testbit w n && negb (Z.testbit f n).
Proof.
  intros Hn. unfold clear_flag. rewrite Z.land_spec. unfold u32. rewrite Z.mod_pow2_bits_low, Z.lnot_spec by lia. done.
Qed.

Lemma page_low_bits p n : p mod PGSIZE = 0 -> 0 <= n < 12 -> Z.testbit p n = false.
Proof.
  intros Hp Hn. apply Z.div_exact in Hp; [|done]. rewrite Hp. change PGSIZE with (2 ^ 12). rewrite Z.mul_comm.
  by rewrite Z.mul_pow2_bits_low by lia.
Qed.

Lemma restored_flags p w : V2P p mod PGSIZE = 0 -> flag PTE_P w = true -> flag PTE_S w = false ->
  PTE_FLAGS (restored_word p (swapped_word w)) = PTE_FLAGS w.
Proof.
  change PTE_P with (2 ^ 0). change PTE_S with (2 ^ 10). rewrite !flag_bit by lia. intros Hp H0 H10.
  unfold PTE_FLAGS. change 0xFFF with (Z.ones 12). apply Z.bits_inj'. intros n Hn. rewrite !Z.land_spec.
  destruct (Z.lt_ge_cases n 12) as [Hlt|Hge]; [|rewrite Z.ones_spec_high by lia; by rewrite !andb_false_r].
  rewrite Z.ones_spec_low, !andb_true_r by lia. unfold restored_word, swapped_word, PTE_FLAGS. change 0xFFF with (Z.ones 12).
  rewrite !Z.lor_spec, Z.land_spec, Z.ones_spec_low, page_low_bits, !clear_flag_bit, Z.lor_spec by (done || lia).
  change PTE_P with (2 ^ 0). change PTE_S with (2 ^ 10). rewrite !Z.pow2_bits_eqb by lia.
  destruct (Z.eqb_spec 0 n) as [<-|]; [by rewrite H0, !orb_true_r|]. destruct (Z.eqb_spec 10 n) as [<-|].
  - rewrite H10. by rewrite !andb_false_r.
  - by rewrite !orb_false_r, !andb_true_r.
Qed.

Lemma restored_addr p w : 0 <= V2P p < 2 ^ 32 -> V2P p mod PGSIZE = 0 -> PTE_ADDR (restored_word p w) = V2P p.
Proof.
  intros Hr Hp. unfold PTE_ADDR, restored_word, PTE_FLAGS. apply Z.bits_inj'. intros n Hn.
  change 0xFFF with (Z.ones 12). rewrite Z.land_spec, !Z.lor_spec, Z.land_spec. change PTE_P with (2 ^ 0). rewrite Z.pow2_bits_eqb by lia.
  destruct (Z.lt_ge_cases n 12) as [Hlt|Hge].
  - rewrite (page_low_bits (V2P p)) by (done || lia). unfold u32.
    rewrite Z.mod_pow2_bits_low, Z.lnot_spec, Z.ones_spec_low by lia. apply andb_false_r.
  - rewrite Z.ones_spec_high, andb_false_r, (proj2 (Z.eqb_neq 0 n)), !orb_false_r by lia.
    destruct (Z.lt_ge_cases n 32).
    + unfold u32. rewrite Z.mod_pow2_bits_low, Z.lnot_spec, Z.ones_spec_high by lia. apply andb_true_r.
    + enough (Z.testbit (V2P p) n = false) as -> by done.
      destruct (Z.eq_dec (V2P p) 0) as [->|]; [apply Z.bits_0|]. apply Z.bits_above_log2; [lia|].
      apply Z.lt_le_trans with 32; [|lia]. apply Z.log2_lt_pow2; lia.
Qed.

Lemma swapped_addr w : 0 <= w < 2 ^ 32 -> PTE_ADDR (swapped_word w) = PTE_ADDR w.
Proof.
  intros Hw. unfold PTE_ADDR. apply Z.bits_inj'. intros n Hn. rewrite !Z.land_spec.
  assert (12 <= n < 32 -> Z.testbit (swapped_word w) n = Z.testbit w n) as Hmid.
  { intros Hr. unfold swapped_word. rewrite clear_flag_bit, Z.lor_spec by lia. change PTE_P with (2 ^ 0). change PTE_S with (2 ^ 10).
    rewrite !Z.pow2_bits_eqb by lia. rewrite (proj2 (Z.eqb_neq 10 n)), (proj2 (Z.eqb_neq 0 n)) by lia. by rewrite orb_false_r, andb_true_r. }
  change 0xFFF with (Z.ones 12). unfold u32. destruct (Z.lt_ge_cases n 32).
  - rewrite Z.mod_pow2_bits_low, Z.lnot_spec by lia. destruct (Z.lt_ge_cases n 12); [|by rewrite Hmid].
    rewrite Z.ones_spec_low by lia. by rewrite !andb_false_r.
  - rewrite Z.mod_pow2_bits_high by lia. by rewrite !andb_false_r.
Qed.

Lemma swapped_not_present w : flag PTE_P (swapped_word w) = false.
Proof.
  change PTE_P with (2 ^ 0). rewrite flag_bit by lia. unfold swapped_word. rewrite clear_flag_bit by lia. apply andb_false_r.
Qed.

(** C6: Swapping preserves pages.  The table [τ] gives, for every entry that
    is swapped out, the content its page had.  While the swap file has room,
    [swapwrite_file] of a page with exactly one reference adds its content to
    the table under its entry, marks the entry and frees the frame.  When a
    frame is free, [swapread_file] of an entry of the table takes that frame,
    fills it with exactly the recorded content, restores the entry's flags
    and removes the entry from the table.  [swapfree_file], called with the
    process table's lock held as in [wait], drops the entry.  Each operation
    leaves the other entries of the table and all memory outside the frame
    and the page-table entry alone, so operations within these conditions
    compose: a page that goes out and comes back reads as before, whatever
    pages went out or came back in between and whatever its old frame has
    become.  The swap file is the byte file of [Bytefile], which does not run
    out of disk space, and the map's nodes come from an allocator that does
    not return 0. *)
Theorem swap_preserves_pages `{KI : KernelImage} `{NA : NodeAlloc} (s : sys) (τ : gmap Z slot) :
  (forall used, fresh used <> NULL) -> swap_ok s τ ->
  (forall buf la pte fl,
     τ !! pte = None -> pte <> NULL -> Z.of_nat (size τ) < capacity (sy_file s) ->
     kinv fl (sy_kmem s) -> valid_page buf -> buf ∉ fl -> refs (sy_kmem s) buf = 1 -> word_outside (buf :: fl) pte ->
     exists s', swapwrite_file buf la pte s = Ok tt s' /\
       swap_ok s' (<[pte := mk_slot la (V2P buf) (page_bytes buf (memory (sy_kmem s)))]> τ) /\
       capacity (sy_file s') = capacity (sy_file s) /\ kinv (buf :: fl) (sy_kmem s') /\
       ld32 (memory (sy_kmem s')) pte = swapped_word (ld32 (memory (sy_kmem s)) pte) /\
       (forall a, ~ pte <= a < pte + 4 -> ~ buf <= a < buf + PGSIZE ->
          ld8 (memory (sy_kmem s')) a = ld8 (memory (sy_kmem s)) a)) /\
  (forall la pte x w p fl,
     τ !! pte = Some x -> sl_la x = la -> 0 <= w < 2 ^ 32 -> flag PTE_P w = true -> flag PTE_S w = false ->
     PTE_ADDR w = sl_pa x -> ld32 (memory (sy_kmem s)) pte = swapped_word w ->
     kinv (p :: fl) (sy_kmem s) -> word_outside (p :: fl) pte ->
     exists s', swapread_file la pte s = Ok tt s' /\ swap_ok s' (delete pte τ) /\
       capacity (sy_file s') = capacity (sy_file s) /\ kinv fl (sy_kmem s') /\ refs (sy_kmem s') p = 1 /\
       page_bytes p (memory (sy_kmem s')) = sl_bytes x /\
       PTE_ADDR (ld32 (memory (sy_kmem s')) pte) = V2P p /\ PTE_FLAGS (ld32 (memory (sy_kmem s')) pte) = PTE_FLAGS w /\
       (forall a, ~ pte <= a < pte + 4 -> ~ p <= a < p + PGSIZE ->
          ld8 (memory (sy_kmem s')) a = ld8 (memory (sy_kmem s)) a)) /\
  (forall va la pte x,
     τ !! pte = Some x -> sl_la x = la -> V2P va = sl_pa x -> "ptable" ∈ klocks (sy_kmem s) ->
     exists s', swapfree_file va la pte s = Ok tt s' /\ swap_ok s' (delete pte τ) /\
       capacity (sy_file s') = capacity (sy_file s) /\ sy_kmem s' = sy_kmem s).
Proof.
  intros Hfr Hs. split; [|split].
  - intros buf la pte fl H1 H2 H3 H4 H5 H6 H7 H8.
    destruct (swapwrite_run Hfr s τ buf la pte fl Hs H1 H2 H3 H4 H5 H6 H7 H8) as (s' & ? & ? & ? & ? & _ & ? & ? & _). by exists s'.
  - intros la pte x w p fl Hx Hla Hw HP HS Hpa Hld Hk Hout.
    destruct (swapread_run s τ la pte x p fl Hs Hx Hla) as (s' & E & Hs' & Hc & Hkm); [| |done|done|].
    { rewrite Hld. by rewrite swapped_addr. } { rewrite Hld. apply swapped_not_present. }
    destruct (so_bytes _ _ Hs pte x Hx) as [Hsz Hby].
    destruct (in_kmem p fl (sy_kmem s) la pte (sl_bytes x) Hk Hout Hsz Hby) as (K1 & _ & K3 & K4 & K5 & K6 & _).
    pose proof (ki_valid _ _ Hk) as Hv. apply list.Forall_cons in Hv as [Hp _]. destruct (valid_page_pa p Hp) as [EV Hpv].
    assert (V2P p mod PGSIZE = 0) as Hal.
    { rewrite EV. destruct Hp as [Hp _]. change KERNBASE with (524288 * PGSIZE). rewrite Zminus_mod, Hp, Z.mod_mul; done. }
    exists s'. rewrite Hkm, K5, Hld. split_and!; try done.
    + apply restored_addr; [unfold PHYSTOP in *; lia|done].
    + by apply restored_flags.
  - intros va la pte x Hx Hla Hpa Hpt. by apply (swapfree_run s τ va la pte x).
Qed.

(** ** Where the operations fail *)

Section Failures.
Context `{KI : KernelImage} `{NA : NodeAlloc}.

(** Swapping in when no frame is free panics instead of failing. *)
Lemma swapread_no_memory (s : sys) τ la pte x :
  swap_ok s τ -> τ !! pte = Some x -> sl_la x = la -> PTE_ADDR (ld32 (memory (sy_kmem s)) pte) = sl_pa x ->
  kinv [] (sy_kmem s) -> swapread_file la pte s = Panic "get_ref_pa: above PHYSTOP".
Proof.
  intros [(σ & pg & _ & _ & _ & _ & Hbins) _ Hlk] Hx <- Hpa Hk.
  destruct (bin_split τ pg _ x pte (Hbins _) Hx) as (l1 & e & l2 & ps1 & ps2 & Hok & _ & _ & _ & _ & Hke & Hsg & _ & Hoth).
  destruct (lookup_node _ x pte l1 e l2 Hok Hke Hsg Hoth) as (a & _ & Ha & G1 & _). set (k := sy_kmem s) in *.
  assert (kinv [] (set_klocks ({["unordered_map"]} ∪ klocks k) k)) as Hk1 by (destruct (ki_locks _ _ Hk); apply kinv_klocks; [done|set_solver..]).
  unfold swapread_file. rewrite load_run. fold k. rewrite Hpa. cbv zeta. erewrite mm_run by exact (acquire_map k Hlk). rewrite getbin_run.
  change (SwapMapHash _) with (slot_hash x). change (bin_of _ (set_kmem _ _)) with (bin_of (slot_hash x) s).
  erewrite on_bin_run by exact G1. rewrite (proj2 (Z.eqb_neq _ _) Ha). erewrite mm_run by exact (kalloc_nil_eq _ Hk1). reflexivity.
Qed.

(** Dropping the last reference releases the lock of the process table, which
    only the callers in [wait] hold. *)
Lemma swapfree_without_lock (s : sys) τ va la pte x :
  swap_ok s τ -> τ !! pte = Some x -> sl_la x = la -> V2P va = sl_pa x -> "ptable" ∉ klocks (sy_kmem s) ->
  swapfree_file va la pte s = Panic "release".
Proof.
  intros [(σ & pg & _ & _ & _ & _ & Hbins) _ Hlk] Hx <- Hpa Hpt.
  destruct (swapfree_upto s τ pg va pte x Hbins Hlk Hx Hpa) as (b & _ & ->).
  unfold kbind at 1, mm, lift, release. simpl. by rewrite decide_False.
Qed.
End Failures.

(** ** Examples *)

#[local] Existing Instance swap_image.
#[local] Existing Instance demo_alloc.

(** Nothing is swapped out at the start. *)
Lemma swap_empty_ok `{KI : KernelImage} `{NA : NodeAlloc} k f ps :
  stores f ∅ -> "unordered_map" ∉ klocks k -> swap_ok (mk_swapsys k f ∅ ps : sys) ∅.
Proof.
  intros Hf Hl. split; [|done|done]. exists ∅, (fun _ => 0%nat). split_and!; [done|done|by intros p q []| |].
  - intros n []. done.
  - intros h. exists [], []. split; [apply alloc_ok|]. split; [constructor|]. split; [by apply NoDup_nil_2|].
    intros p. rewrite elem_of_nil. split; [done|]. by intros (x & Hx & _).
Qed.

(** One page in use, at 0x80300000, with a byte 42 in it, and its entry at
    0x80200000. *)
Definition one_page : kmem :=
  mk_kmem (st8 0x80300010 42 (st32 0x80200000 0x300007 ∅)) 0 false false {[768 := mk_page_data 1 0]} ∅.

Lemma one_page_inv : kinv [] one_page.
Proof. split; [done|by apply NoDup_nil_2|constructor|constructor|split; apply not_elem_of_empty]. Qed.

(** The page goes out, its frame is freed and taken again, and it comes back. *)
Lemma swap_preserves_pages_witness : exists s s' s'' : sys, swap_ok s ∅ /\
  swapwrite_file 0x80300000 0x5000 0x80200000 s = Ok tt s' /\ flag PTE_S (ld32 (memory (sy_kmem s')) 0x80200000) = true /\
  swapread_file 0x5000 0x80200000 s' = Ok tt s'' /\
  page_bytes 0x80300000 (memory (sy_kmem s'')) = page_bytes 0x80300000 (memory (sy_kmem s)) /\
  PTE_FLAGS (ld32 (memory (sy_kmem s'')) 0x80200000) = 7.
Proof.
  destruct swap_demo_init as (f & _ & Hf & Hb).
  assert (0 < capacity f) as Hc by (unfold capacity; rewrite Hb; vm_compute; reflexivity).
  assert (swap_ok (mk_swapsys one_page f ∅ []) ∅) as Hs by (apply swap_empty_ok; [exact Hf|apply not_elem_of_empty]).
  assert (forall used, fresh used <> NULL) as Hfr by (intros used; pose proof (above_pos used) as Hpos; change (fresh used) with (above used); unfold NULL; lia).
  assert (valid_page 0x80300000) as Hv by (vm_compute; intuition discriminate).
  assert (word_outside [0x80300000] 0x80200000) as Hw.
  { intros x Hx (v & Hv' & Hr). apply list_elem_of_singleton in Hv' as ->. lia. }
  destruct (proj1 (swap_preserves_pages (mk_swapsys one_page f ∅ []) ∅ Hfr Hs) 0x80300000 0x5000 0x80200000 []
    eq_refl ltac:(discriminate) Hc one_page_inv Hv (not_elem_of_nil _) eq_refl Hw) as (s' & E & Hs' & _ & Hk' & Hld & _).
  assert (ld32 (memory one_page) 0x80200000 = 0x300007) as Eld by (vm_compute; reflexivity).
  cbn [sy_kmem] in Hld. rewrite Eld in Hld.
  destruct (proj1 (proj2 (swap_preserves_pages s' _ Hfr Hs')) 0x5000 0x80200000 _ 0x300007 0x80300000 []
    (lookup_insert_eq _ _ _) eq_refl ltac:(lia) eq_refl eq_refl eq_refl Hld Hk' Hw)
    as (s'' & E' & _ & _ & _ & _ & Hbytes & _ & Hfl & _).
  exists (mk_swapsys one_page f ∅ []), s', s''. rewrite Hld, Hfl, Hbytes.
  split; [exact Hs|split; [exact E|split; [reflexivity|split; [exact E'|split; reflexivity]]]].
Defined.

(** A page shared by two processes: both map 0x300000 at 0x5000, copy on write. *)
Definition shared_page : kmem :=
  mk_kmem (st32 0x80202014 0x300205 (st32 0x80201014 0x300205 (st32 0x80206000 0x202007 (st32 0x80205000 0x201007 ∅))))
    0 false false {[768 := mk_page_data 2 0x5000]} ∅.
Definition shared_procs : list pslot :=
  mk_pslot true 0x80205000 0x8000 :: mk_pslot true 0x80206000 0x8000 :: replicate 62 (mk_pslot false 0 0).

(** The iterator compares the physical address with a converted one, so it
    never finds an entry: it runs past the end of the process table. *)
Lemma swapwrite_shared_faults :
  match swapinit_file 0 0 swap_demo with
  | Ok _ f => swapwrite_file 0x80300000 0x5000 0x80201014 (mk_swapsys shared_page f ∅ shared_procs) =
              Fault "ptable.proc: index out of range"
  | _ => False
  end.
Proof. vm_compute. reflexivity. Qed.

(** A bin with one node, which records the entry 1. *)
Definition one_node : bin :=
  mk_llist {[8 := mk_node (mk_swkey 0 0) (mk_swdata 0 (mk_llist {[4 := mk_node 1 tt 0 0]} 1 4 4)) 0 0]} 1 8 8.

Lemma one_node_round fuel :
  map_add_loop (S fuel) (mk_swkey 0 0) 8 (Some 2) 3 one_node = map_add_loop fuel (mk_swkey 0 0) 8 (Some 2) 3 one_node.
Proof. reflexivity. Qed.

(** [SwapMapAdd] never ends when the first node with the key does not record
    the parent's entry: the search for the next one starts at the node itself. *)
Lemma swapmap_add_diverges fuel : map_add_loop fuel (mk_swkey 0 0) 8 (Some 2) 3 one_node = NoFuel.
Proof. induction fuel as [|fuel IH]; [reflexivity|]. by rewrite one_node_round. Qed.
