(* ===== verification/Digits.v ===== *)
(** * Writing numbers

    The loop that printint of printf.c and of console.c share, which stores the
    digits of a number in a buffer, the last digit first, and what a sequence
    of digits stands for. *)

From S2P Require Import Prelude.

(** [do { buf[i++] = digits[x % base]; } while ((x /= base) != 0)]: the digits
    in the order in which they are stored. *)
Fixpoint digit_loop (fuel : nat) (base x : Z) : option (list Z) :=
  match fuel with
  | O => None
  | S fuel' =>
      if x / base =? 0 then Some [x mod base]
      else l ← digit_loop fuel' base (x / base); Some (x mod base :: l)
  end.

(** A 32-bit number has at most 32 digits, whatever the base. *)
Definition digits_of (base x : Z) : option (list Z) := digit_loop 32 base x.

(** The number that digits stand for, the last digit first. *)
Fixpoint value (base : Z) (l : list Z) : Z :=
  match l with
  | [] => 0
  | d :: l' => d + base * value base l'
  end.

Lemma digit_loop_spec fuel base x n : 2 <= base -> 0 <= x < base ^ Z.of_nat n -> (1 <= n <= fuel)%nat ->
  exists l, digit_loop fuel base x = Some l /\ value base l = x /\ (1 <= length l <= n)%nat /\ Forall (fun d => 0 <= d < base) l.
Proof.
  intros Hb. revert x n. induction fuel as [|fuel IH]; intros x n Hx Hn; [lia|]. simpl.
  pose proof (Z.mod_pos_bound x base ltac:(lia)) as Hm. pose proof (Z.div_mod x base ltac:(lia)) as Hdm.
  pose proof (Z.div_pos x base ltac:(lia) ltac:(lia)) as Hd.
  destruct (Z.eqb_spec (x / base) 0) as [H0|H0].
  - exists [x mod base]. simpl. split; [done|]. split; [lia|]. split; [lia|]. constructor; [done|constructor].
  - destruct n as [|[|n]]; [lia| |].
    { exfalso. apply H0. apply Z.div_small. change (Z.of_nat 1) with 1 in Hx. lia. }
    destruct (IH (x / base) (S n)) as (l & E & Hv & Hl & Hf); [|lia|].
    { split; [done|]. apply Z.div_lt_upper_bound; [lia|].
      rewrite <- Z.pow_succ_r by lia. replace (Z.succ (Z.of_nat (S n))) with (Z.of_nat (S (S n))) by lia. lia. }
    exists (x mod base :: l). rewrite E. simpl. rewrite Hv. split; [done|]. split; [lia|]. split; [lia|]. by constructor.
Qed.

(** The digits of a 32-bit number: what they stand for, and how many there are. *)
Lemma digits_of_spec base x n : 2 <= base -> 0 <= x < base ^ Z.of_nat n -> (1 <= n <= 32)%nat ->
  exists l, digits_of base x = Some l /\ value base l = x /\ (1 <= length l <= n)%nat /\ Forall (fun d => 0 <= d < base) l.
Proof. apply digit_loop_spec. Qed.

(** A number that needs more digits gets them. *)
Lemma digit_loop_long fuel base x n l : 2 <= base -> base ^ Z.of_nat n <= x -> digit_loop fuel base x = Some l -> (n < length l)%nat.
Proof.
  intros Hb. revert x n l. induction fuel as [|fuel IH]; intros x n l Hx E; [done|]. simpl in E.
  pose proof (Z.pow_pos_nonneg base (Z.of_nat n) ltac:(lia) ltac:(lia)) as Hp.
  destruct (Z.eqb_spec (x / base) 0) as [H0|H0].
  - injection E as <-. destruct n as [|n]; [simpl; lia|]. exfalso.
    apply Z.div_small_iff in H0; [|lia]. assert (base ^ 1 <= base ^ Z.of_nat (S n)) as Hle by (apply Z.pow_le_mono_r; lia). rewrite Z.pow_1_r in Hle. lia.
  - destruct (digit_loop fuel base (x / base)) as [l'|] eqn:E'; [|done]. injection E as <-. destruct n as [|n]; [simpl; lia|].
    specialize (IH (x / base) n l'). simpl. enough (n < length l')%nat by lia. apply IH; [|done].
    apply Z.div_le_lower_bound; [lia|]. rewrite <- Z.pow_succ_r by lia.
    replace (Z.succ (Z.of_nat n)) with (Z.of_nat (S n)) by lia. done.
Qed.

(** No leading zeros. *)
Lemma digit_loop_lead fuel base x l : 2 <= base -> 0 < x -> digit_loop fuel base x = Some l -> list.last l <> Some 0.
Proof.
  intros Hb. revert x l. induction fuel as [|fuel IH]; intros x l Hx E; [done|]. simpl in E.
  destruct (Z.eqb_spec (x / base) 0) as [H0|H0].
  - injection E as <-. simpl. apply Z.div_small_iff in H0; [|lia]. rewrite Z.mod_small by lia. intros [=]. lia.
  - destruct (digit_loop fuel base (x / base)) as [l'|] eqn:E'; [|done]. injection E as <-.
    pose proof (Z.div_pos x base ltac:(lia) ltac:(lia)). specialize (IH (x / base) l' ltac:(lia) E').
    destruct l' as [|d l']; [|done]. destruct fuel as [|fuel]; [done|]. simpl in E'. case_match; [done|].
    by destruct (digit_loop fuel base (x / base / base)).
Qed.
