(* ===== verification/Printf.v ===== *)
(** * Formatted output and number parsing of user programs (printf.c, ulib.c)

    [printf] is a function from the format, the argument words and the strings
    that pointers among them point at to the characters it passes to [putc];
    [None] is a call that reads an argument it was not given or writes past
    the buffer of [printint]. *)

From S2P Require Import Prelude Digits.

Definition PERCENT : Z := 37.
Definition MINUS : Z := 45.
Definition ZERO : Z := 48.
Definition SPACE : Z := 32.

(** [digits[d]] *)
Definition digit_char (d : Z) : Z := if d <? 10 then ZERO + d else 55 + d.

Definition printint (xx base : Z) (sgn : bool) (pad pad_char : Z) : option (list Z) :=
  let neg := sgn && (s32 xx <? 0) in
  let x := if neg then u32 (- s32 xx) else u32 xx in
  ds ← digits_of base x;
  let buf := (digit_char <$> ds) ++ (if neg then [MINUS] else []) in
  if (16 <? length buf)%nat then None
  else
    let i := Z.of_nat (length buf) in
    Some ((if i <? pad then replicate (Z.to_nat (pad - i)) pad_char else []) ++ reverse buf).

Definition isdigit (c : Z) : bool := (ZERO <=? c) && (c <=? 57).
Definition toInt (c : Z) : Z := c - ZERO.

(** The string ["(null)"]. *)
Definition nullstr : list Z := [40; 110; 117; 108; 108; 41].

(** What a directive prints, and the arguments that remain. *)
Definition directive (str : Z -> list Z) (c pad pad_char : Z) (ap : list Z) : option (list Z * list Z) :=
  if c =? 100 (* d *) then
    match ap with a :: ap' => out ← printint a 10 true pad pad_char; Some (out, ap') | [] => None end
  else if c =? 117 (* u *) then
    match ap with a :: ap' => out ← printint a 10 false pad pad_char; Some (out, ap') | [] => None end
  else if (c =? 120) || (c =? 112) (* x, p *) then
    match ap with a :: ap' => out ← printint a 16 false pad pad_char; Some (out, ap') | [] => None end
  else if c =? 115 (* s *) then
    match ap with
    | a :: ap' =>
        Some ((if negb (pad =? 0) then replicate (Z.to_nat pad) pad_char else []) ++
              (if a =? 0 then nullstr else str a), ap')
    | [] => None
    end
  else if c =? 99 (* c *) then
    match ap with a :: ap' => Some ([u8 a], ap') | [] => None end
  else if c =? PERCENT then Some ([c], ap)
  else Some ([PERCENT; c], ap).

(** The loop over the format; [state] is true after a [%]. *)
Fixpoint printf_loop (str : Z -> list Z) (fmt : list Z) (state : bool) (pad : Z) (readding_padding : bool)
    (pad_char : Z) (ap : list Z) : option (list Z) :=
  match fmt with
  | [] => Some []
  | c :: fmt' =>
      if negb state then
        if c =? PERCENT then printf_loop str fmt' true pad readding_padding pad_char ap
        else out ← printf_loop str fmt' false pad readding_padding pad_char ap; Some (c :: out)
      else if (c =? ZERO) && negb readding_padding then printf_loop str fmt' true pad true c ap
      else if isdigit c then printf_loop str fmt' true (toInt c) false pad_char ap
      else
        d ← directive str c pad pad_char ap;
        rest ← (if negb readding_padding then printf_loop str fmt' false 0 readding_padding SPACE d.2
                else printf_loop str fmt' false pad readding_padding pad_char d.2);
        Some (d.1 ++ rest)
  end.
Definition printf (str : Z -> list Z) (fmt ap : list Z) : option (list Z) :=
  printf_loop str fmt false 0 false SPACE ap.

(** ** ulib.c *)

Fixpoint atoi_loop (n : Z) (s : list Z) : Z :=
  match s with
  | c :: s' => if (ZERO <=? c) && (c <=? 57) then atoi_loop (s32 (n * 10 + c - ZERO)) s' else n
  | [] => n
  end.
Definition atoi (s : list Z) : Z := atoi_loop 0 s.

(** [strcmp] of strings without their final 0; characters compare unsigned. *)
Fixpoint strcmp (p q : list Z) : Z :=
  match p, q with
  | [], [] => 0
  | [], b :: _ => 0 - u8 b
  | a :: _, [] => u8 a - 0
  | a :: p', b :: q' => if a =? b then strcmp p' q' else u8 a - u8 b
  end.

(** [gets]: the input is the characters that [read] returns one by one; the
    rest of the input is left. *)
Fixpoint gets_loop (room : nat) (input : list Z) : list Z * list Z :=
  match room, input with
  | S room', c :: input' =>
      if (c =? 10) || (c =? 13) then ([c], input')
      else let '(s, rest) := gets_loop room' input' in (c :: s, rest)
  | _, _ => ([], input)
  end.
Definition gets_ (max : nat) (input : list Z) : list Z * list Z := gets_loop (max - 1) input.

(** ** Numbers are read back *)

Lemma s32_mod x y : x mod 2 ^ 32 = y mod 2 ^ 32 -> s32 x = s32 y.
Proof. unfold s32. by intros ->. Qed.

Lemma s32_cong x : s32 x mod 2 ^ 32 = x mod 2 ^ 32.
Proof.
  unfold s32. case_match; [by rewrite Z.mod_mod|].
  rewrite <- (Z.mod_add (x mod 2 ^ 32 - 2 ^ 32) 1) by done. rewrite Z.mul_1_l, Z.sub_add. by rewrite Z.mod_mod.
Qed.

Lemma s32_step n d : s32 (s32 n * 10 + d) = s32 (n * 10 + d).
Proof.
  apply s32_mod. rewrite Zplus_mod, Zmult_mod, s32_cong, <- Zmult_mod, <- Zplus_mod. done.
Qed.

Definition digit (c : Z) : Prop := ZERO <= c <= 57.

Lemma atoi_app n s t : Forall digit s -> atoi_loop n (s ++ t) = atoi_loop (atoi_loop n s) t.
Proof.
  intros Hs. revert n. induction Hs as [|c s [H1 H2] _ IH]; intros n; [done|]. simpl.
  rewrite (proj2 (Z.leb_le _ _) H1), (proj2 (Z.leb_le _ _) H2). simpl. apply IH.
Qed.

Lemma digit_chars l : Forall (fun d => 0 <= d < 10) l -> Forall digit (reverse (digit_char <$> l)).
Proof.
  intros Hl. apply list.Forall_reverse, list.Forall_fmap. eapply list.Forall_impl; [exact Hl|]. intros d Hd. cbv beta in Hd.
  unfold compose, digit_char, digit, ZERO. rewrite (proj2 (Z.ltb_lt d 10)) by lia. lia.
Qed.

Lemma atoi_digits l : l <> [] -> Forall (fun d => 0 <= d < 10) l -> atoi (reverse (digit_char <$> l)) = s32 (value 10 l).
Proof.
  unfold atoi. intros Hne Hl. induction Hl as [|d l Hd Hl IH]; [done|]. rewrite fmap_cons, reverse_cons, atoi_app by by apply digit_chars.
  assert (atoi_loop 0 (reverse (digit_char <$> l)) = s32 (value 10 l)) as ->.
  { destruct l as [|d' l]; [done|]. by apply IH. }
  unfold digit_char. rewrite (proj2 (Z.ltb_lt d 10)) by lia. cbn [atoi_loop value].
  rewrite (proj2 (Z.leb_le ZERO _)), (proj2 (Z.leb_le _ 57)) by (unfold ZERO; lia). cbn [andb].
  replace (s32 (value 10 l) * 10 + (ZERO + d) - ZERO) with (s32 (value 10 l) * 10 + d) by lia. rewrite s32_step. f_equal. lia.
Qed.

(** ** What printf prints *)

(** The numeral of [x] in a base, without leading zeros. *)
Definition numeral (base x : Z) (s : list Z) : Prop :=
  exists ds, s = reverse (digit_char <$> ds) /\ value base ds = x /\ ds <> [] /\
    Forall (fun d => 0 <= d < base) ds /\ (x = 0 \/ list.last ds <> Some 0).

(** [s] filled up on the left to [w] characters. *)
Definition padded (w pc : Z) (s : list Z) : list Z := replicate (Z.to_nat w - length s) pc ++ s.

(** The parts of a format: a character that stands for itself, or a directive
    with the digits between the % and the conversion, and the argument the
    conversion takes. *)
Inductive conv := Dec (x : Z) | Uns (x : Z) | Hex (ptr : bool) (x : Z) | Str (a : Z) | Chr (a : Z) | Pct | Unk (c : Z).
Inductive item := Lit (c : Z) | Dir (ds : list Z) (c : conv).

Definition conv_char (c : conv) : Z :=
  match c with
  | Dec _ => 100 | Uns _ => 117 | Hex p _ => if p then 112 else 120 | Str _ => 115 | Chr _ => 99 | Pct => PERCENT | Unk c => c
  end.
Definition fmt_of (i : item) : list Z :=
  match i with Lit c => [c] | Dir ds c => PERCENT :: ds ++ [conv_char c] end.
Definition args_of (i : item) : list Z :=
  match i with
  | Dir _ (Dec x) | Dir _ (Uns x) | Dir _ (Hex _ x) | Dir _ (Str x) | Dir _ (Chr x) => [x]
  | _ => []
  end.

Definition item_ok (i : item) : Prop :=
  match i with
  | Lit c => c <> PERCENT
  | Dir ds c => Forall digit ds /\
      match c with Unk c => isdigit c = false /\ c ∉ [100; 117; 120; 112; 115; 99; PERCENT] | _ => True end
  end.

(** The width and the filler that the digits of a directive ask for: a zero asks for zeros
    and waits for a width, any other digit is the width.  A directive whose
    last zero still waits leaves its options to the next one. *)
Record options := mk_options { o_width : Z; o_zero : bool; o_fill : Z }.
Definition no_options : options := mk_options 0 false SPACE.
Definition read_digit (o : options) (d : Z) : options :=
  if (d =? ZERO) && negb (o_zero o) then mk_options (o_width o) true ZERO else mk_options (d - ZERO) false (o_fill o).
Definition read_digits (o : options) (ds : list Z) : options := foldl read_digit o ds.
Definition leaves (o : options) : options := if o_zero o then o else no_options.

(** What a conversion prints under options. *)
Definition prints (str : Z -> list Z) (o : options) (c : conv) (out : list Z) : Prop :=
  match c with
  | Dec x => exists s, numeral 10 (Z.abs (s32 x)) s /\ out = padded (o_width o) (o_fill o) ((if s32 x <? 0 then [MINUS] else []) ++ s)
  | Uns x => exists s, numeral 10 (u32 x) s /\ out = padded (o_width o) (o_fill o) s
  | Hex _ x => exists s, numeral 16 (u32 x) s /\ out = padded (o_width o) (o_fill o) s
  | Str a => out = replicate (Z.to_nat (o_width o)) (o_fill o) ++ (if a =? 0 then nullstr else str a)
  | Chr a => out = [u8 a]
  | Pct => out = [PERCENT]
  | Unk c => out = [PERCENT; c]
  end.

(** What a list of parts prints, one output for each. *)
Fixpoint prints_all (str : Z -> list Z) (o : options) (items : list item) (outs : list (list Z)) : Prop :=
  match items, outs with
  | [], [] => True
  | Lit c :: items, out :: outs => out = [c] /\ prints_all str o items outs
  | Dir ds c :: items, out :: outs =>
      prints str (read_digits o ds) c out /\ prints_all str (leaves (read_digits o ds)) items outs
  | _, _ => False
  end.

(** The usual directives: no digits, a width, or a zero and a width. *)
Definition usual (i : item) : Prop :=
  match i with
  | Lit _ => True
  | Dir ds _ => ds = [] \/ (exists w, 0 < w <= 9 /\ (ds = [ZERO + w] \/ ds = [ZERO; ZERO + w]))
  end.
(** What such a part prints on its own. *)
Definition prints_alone (str : Z -> list Z) (i : item) (out : list Z) : Prop :=
  match i with Lit c => out = [c] | Dir ds c => prints str (read_digits no_options ds) c out end.

Lemma numeral_exists base x n : 2 <= base -> 0 <= x < base ^ Z.of_nat n -> (1 <= n <= 32)%nat ->
  exists ds, digits_of base x = Some ds /\ numeral base x (reverse (digit_char <$> ds)) /\ (length ds <= n)%nat.
Proof.
  intros Hb Hx Hn. destruct (digits_of_spec base x n Hb Hx Hn) as (ds & E & Hv & Hl & Hf). exists ds. split; [done|]. split; [|lia].
  exists ds. split; [done|]. split; [done|]. split; [by destruct ds; simpl in *; [lia|]|]. split; [done|].
  destruct (decide (x = 0)); [by left|right]. apply (digit_loop_lead 32 base x); [done|lia|done].
Qed.

Lemma printint_spec xx base sgn w pc : base = 10 \/ base = 16 -> 0 <= w ->
  let neg := sgn && (s32 xx <? 0) in
  let x := if neg then - s32 xx else u32 xx in
  exists s, numeral base x s /\ printint xx base sgn w pc = Some (padded w pc ((if neg then [MINUS] else []) ++ s)).
Proof.
  intros Hb Hw neg x. assert (0 <= x < 2 ^ 32 /\ (if neg then u32 (- s32 xx) else u32 xx) = x) as [Hx Ex].
  { subst x neg. pose proof (s32_range xx) as Hr. destruct sgn; simpl; [destruct (Z.ltb_spec (s32 xx) 0)|]; [|split; [apply u32_range|done]..].
    split; [lia|]. apply u32_id. lia. }
  destruct (numeral_exists base x 10) as (ds & E & Hnum & Hl); [lia| |lia|].
  { split; [lia|]. destruct Hb as [-> | ->]; change (Z.of_nat 10) with 10; lia. }
  exists (reverse (digit_char <$> ds)). split; [done|]. unfold printint. fold neg. rewrite Ex, E. simpl.
  set (buf := (digit_char <$> ds) ++ (if neg then [MINUS] else [])).
  assert (length buf <= 11)%nat as Hlen by (unfold buf; rewrite length_app, length_fmap; destruct neg; simpl; lia).
  rewrite (proj2 (Nat.ltb_ge _ _)) by lia. f_equal.
  assert ((if neg then [MINUS] else []) ++ reverse (digit_char <$> ds) = reverse buf) as ->.
  { unfold buf. rewrite reverse_app. by destruct neg. }
  unfold padded. rewrite length_reverse. f_equal. destruct (Z.ltb_spec (Z.of_nat (length buf)) w).
  - f_equal. lia.
  - by replace (Z.to_nat w - length buf)%nat with 0%nat by lia.
Qed.

Definition loop (str : Z -> list Z) (fmt : list Z) (state : bool) (o : options) (ap : list Z) : option (list Z) :=
  printf_loop str fmt state (o_width o) (o_zero o) (o_fill o) ap.

Lemma is_digit c : isdigit c = true <-> digit c.
Proof. unfold isdigit, digit. rewrite andb_true_iff, !Z.leb_le. done. Qed.

(** The digits of a directive are read, and then its conversion. *)
Lemma digits_run str ds : forall o t ap, Forall digit ds -> loop str (ds ++ t) true o ap = loop str t true (read_digits o ds) ap.
Proof.
  induction ds as [|d ds IH]; intros o t ap Hds; [done|]. apply list.Forall_cons in Hds as [Hd Hds].
  cbn [app read_digits foldl]. fold (read_digits (read_digit o d) ds). rewrite <- IH by done.
  unfold loop at 1. cbn [printf_loop negb]. unfold read_digit. apply is_digit in Hd as ->.
  destruct ((d =? ZERO) && negb (o_zero o)) eqn:E; [|done]. boolify. by subst.
Qed.

Lemma directive_run str o c t ap : isdigit c = false ->
  loop str (c :: t) true o ap =
    d ← directive str c (o_width o) (o_fill o) ap; rest ← loop str t false (leaves o) d.2; Some (d.1 ++ rest).
Proof.
  intros Hc. unfold loop at 1. cbn [printf_loop negb]. rewrite Hc.
  assert ((c =? ZERO) = false) as -> by (apply Z.eqb_neq; by intros ->). cbn [andb].
  unfold leaves. destruct o as [w z f]. cbn [o_width o_zero o_fill]. by destruct z.
Qed.

Lemma widths o ds : 0 <= o_width o -> Forall digit ds -> 0 <= o_width (read_digits o ds).
Proof.
  revert o. induction ds as [|d ds IH]; intros o Ho Hds; [done|]. apply list.Forall_cons in Hds as [Hd Hds].
  apply IH; [|done]. unfold read_digit, digit in *. destruct (_ && _); [done|]. cbn. lia.
Qed.

#[local] Arguments printint : simpl never.

Lemma conv_run str o c ap : 0 <= o_width o -> (match c with Unk c => c ∉ [100; 117; 120; 112; 115; 99; PERCENT] | _ => True end) ->
  exists out, prints str o c out /\ directive str (conv_char c) (o_width o) (o_fill o) (args_of (Dir [] c) ++ ap) = Some (out, ap).
Proof.
  intros Ho Hc. destruct c as [x|x|p x|a|a| |c]; cbn [conv_char args_of prints app] in *; unfold directive.
  - destruct (printint_spec x 10 true (o_width o) (o_fill o) ltac:(by left) Ho) as (s & Hs & E). simpl in Hs, E.
    eexists. split; [exists s; split; [|reflexivity]|cbn; rewrite E; done].
    destruct (Z.ltb_spec (s32 x) 0) as [Hneg|Hpos]; [by rewrite Z.abs_neq by lia|].
    rewrite Z.abs_eq by lia. replace (s32 x) with (u32 x); [done|]. clear -Hpos. unfold u32, s32 in *.
    by destruct (_ <? _); [|pose proof (Z.mod_pos_bound x (2 ^ 32)); lia].
  - destruct (printint_spec x 10 false (o_width o) (o_fill o) ltac:(by left) Ho) as (s & Hs & E). simpl in Hs, E.
    eexists. split; [exists s; split; [done|reflexivity]|]. cbn. rewrite E. done.
  - destruct (printint_spec x 16 false (o_width o) (o_fill o) ltac:(by right) Ho) as (s & Hs & E). simpl in Hs, E.
    eexists. split; [exists s; split; [done|reflexivity]|]. destruct p; cbn; rewrite E; done.
  - eexists. split; [reflexivity|]. cbn. by destruct (Z.eqb_spec (o_width o) 0) as [-> |].
  - by eexists.
  - by eexists.
  - eexists. split; [reflexivity|]. rewrite !elem_of_cons, elem_of_nil in Hc. repeat (rewrite (proj2 (Z.eqb_neq c _)) by tauto). done.
Qed.

Lemma loop_prints str items : forall o tail ap, Forall item_ok items -> 0 <= o_width o ->
  (forall o', loop str tail false o' ap = Some []) ->
  exists outs, loop str ((items ≫= fmt_of) ++ tail) false o ((items ≫= args_of) ++ ap) = Some (concat outs) /\ prints_all str o items outs.
Proof.
  induction items as [|i items IH]; intros o tail ap Hok Ho Htail; [exists []; by rewrite Htail|].
  apply list.Forall_cons in Hok as [Hi Hok]. cbn [mbind list_bind]. rewrite <- !app_assoc. destruct i as [c|ds c]; cbn [item_ok fmt_of] in *.
  - destruct (IH o tail ap Hok Ho Htail) as (outs & E & Hp). exists ([c] :: outs). split; [|by split].
    unfold loop. cbn [app printf_loop negb args_of]. rewrite (proj2 (Z.eqb_neq _ _) Hi). unfold loop in E. by rewrite E.
  - destruct Hi as [Hds Hc]. pose proof (widths o ds Ho Hds) as Hw. set (o' := read_digits o ds) in *.
    assert (isdigit (conv_char c) = false) as Hcd by (destruct c as [| |[]| | | |]; by try destruct Hc).
    destruct (conv_run str o' c ((items ≫= args_of) ++ ap) Hw) as (out & Hout & E1); [by destruct c; try destruct Hc|].
    destruct (IH (leaves o') tail ap Hok) as (outs & E2 & Hp); [unfold leaves; by destruct (o_zero o')|done|].
    exists (out :: outs). split; [|by split]. unfold loop at 1. cbn [app printf_loop negb]. change (PERCENT =? PERCENT) with true. cbv iota.
    fold (loop str ((ds ++ [conv_char c]) ++ (items ≫= fmt_of) ++ tail) true o (args_of (Dir ds c) ++ (items ≫= args_of) ++ ap)).
    rewrite <- app_assoc, digits_run by done. fold o'. cbn [app]. rewrite directive_run by done.
    replace (args_of (Dir ds c)) with (args_of (Dir [] c)) by (by destruct c). rewrite E1. cbn. rewrite E2. done.
Qed.

(** Every format is a list of parts, and possibly a directive cut short. *)
Lemma format_items fmt : exists items tail, Forall item_ok items /\ fmt = (items ≫= fmt_of) ++ tail /\
  (tail = [] \/ exists ds, tail = PERCENT :: ds /\ Forall digit ds).
Proof.
  remember (length fmt) as n eqn:Hn. revert fmt Hn. induction n as [n IH] using lt_wf_ind. intros [|c fmt] Hn.
  { exists [], []. split; [constructor|]. auto. }
  destruct (decide (c = PERCENT)) as [->|Hc].
  2: { destruct (IH (length fmt) ltac:(simpl in Hn; lia) fmt eq_refl) as (items & tail & Hok & -> & Ht). exists (Lit c :: items), tail. by split; [constructor|]. }
  assert (exists ds rest, fmt = ds ++ rest /\ Forall digit ds /\ (rest = [] \/ exists d r, rest = d :: r /\ isdigit d = false)) as (ds & rest & -> & Hds & Hrest).
  { clear. induction fmt as [|d fmt (ds & rest & -> & Hds & Hr)]; [exists [], []; by auto|]. destruct (isdigit d) eqn:Hd.
    - exists (d :: ds), rest. split; [done|]. split; [|done]. constructor; [by apply is_digit|done].
    - exists [], (d :: ds ++ rest). split; [done|]. split; [constructor|]. right. eauto. }
  destruct Hrest as [->|(d & r & -> & Hd)].
  { exists [], (PERCENT :: ds). split; [constructor|]. rewrite app_nil_r. eauto. }
  destruct (IH (length r) ltac:(simpl in Hn; rewrite length_app in Hn; simpl in Hn; lia) r eq_refl) as (items & tail & Hok & -> & Ht).
  assert (exists c, conv_char c = d /\ match c with Unk c => isdigit c = false /\ c ∉ [100; 117; 120; 112; 115; 99; PERCENT] | _ => True end) as (c & Ec & Hc).
  { destruct (decide (d ∈ [100; 117; 120; 112; 115; 99; PERCENT])) as [Hin|Hin]; [|by exists (Unk d)].
    rewrite !elem_of_cons, elem_of_nil in Hin.
    destruct Hin as [->|[->|[->|[->|[->|[->|[->|[]]]]]]]];
      [by exists (Dec 0)|by exists (Uns 0)|by exists (Hex false 0)|by exists (Hex true 0)|by exists (Str 0)|by exists (Chr 0)|by exists Pct]. }
  exists (Dir ds c :: items), tail. split; [by constructor|]. split; [|done]. cbn [mbind list_bind fmt_of]. rewrite Ec. cbn. by rewrite <- !app_assoc.
Qed.

Lemma usual_alone str items outs : Forall usual items -> prints_all str no_options items outs -> Forall2 (prints_alone str) items outs.
Proof.
  intros Hu. revert outs. induction Hu as [|i items Hi _ IH]; intros [|out outs]; cbn [prints_all]; try done; [by destruct i|].
  destruct i as [c|ds c]; intros [Ho Hr]; [by constructor; [|apply IH]|]. constructor; [done|]. apply IH.
  assert (leaves (read_digits no_options ds) = no_options) as E; [|by rewrite E in Hr].
  destruct Hi as [->|(w & Hw & [-> | ->])]; [done|..]; unfold read_digits, read_digit, leaves; cbn [foldl o_zero no_options];
    rewrite ?(proj2 (Z.eqb_neq (ZERO + w) ZERO)) by (unfold ZERO; lia); try done.
Qed.


(** [printf("n=%03d|%x", -7, 255)] *)
Definition demo_items : list item := [Lit 110; Lit 61; Dir [ZERO; ZERO + 3] (Dec (2 ^ 32 - 7)); Lit 124; Dir [] (Hex false 255)].


(** A zero flag without a width sticks: [printf("%0d%3d", 1, 2)] prints the
    second number with zeros, and a width of two digits is taken for a zero
    flag behind a width of one. *)
Lemma printf_sticky_zero :
  printf (fun _ => []) [37; 48; 100; 37; 51; 100] [1; 2] = Some [49; 48; 48; 50] /\
  printf (fun _ => []) [37; 49; 48; 100; 37; 51; 100] [1; 2] = Some [49; 48; 48; 50].
Proof. split; vm_compute; reflexivity. Qed.

(** Strings of non-zero bytes compare equal exactly when they are. *)
Lemma strcmp_zero p q : Forall (fun c => 0 < c < 256) p -> Forall (fun c => 0 < c < 256) q -> strcmp p q = 0 <-> p = q.
Proof.
  assert (forall c, 0 < c < 256 -> u8 c = c) as Hid by (intros c Hc; apply Z.mod_small; simpl; lia).
  intros Hp. revert q. induction Hp as [|a p Ha _ IH]; intros q Hq; (destruct Hq as [|b q Hb Hq]; simpl).
  - done.
  - rewrite (Hid b Hb). split; [lia|done].
  - rewrite (Hid a Ha). split; [lia|done].
  - rewrite (Hid a Ha), (Hid b Hb). destruct (Z.eqb_spec a b) as [->|Hne]; [|split; [lia|congruence]].
    rewrite IH by done. split; congruence.
Qed.

(** [gets] takes a prefix of the input that fits with its 0 and ends at the
    first end of line. *)
Lemma gets_prefix max input s rest : gets_ max input = (s, rest) ->
  input = s ++ rest /\ (length s <= max - 1)%nat /\
  (forall s' c t, s = s' ++ c :: t -> c = 10 \/ c = 13 -> t = []).
Proof.
  unfold gets_. generalize (max - 1)%nat as room. intros room. revert input s rest.
  induction room as [|room IH]; intros [|c input] s rest; simpl; intros E; try (injection E as <- <-; split; [done|]; split; [simpl; lia|]; by intros [|? ?]).
  destruct ((c =? 10) || (c =? 13)) eqn:Hc.
  - injection E as <- <-. split; [done|]. split; [simpl; lia|]. intros [|? [|? ?]] ? ? [=]; by subst.
  - destruct (gets_loop room input) as [s1 r1] eqn:E1. injection E as <- <-. destruct (IH _ _ _ E1) as (-> & Hl & Hend).
    split; [done|]. split; [simpl; lia|]. intros [|c' s'] d t [=] Hd; subst; [|by eapply Hend].
    apply orb_false_iff in Hc as [H1 H2]. boolify. lia.
Qed.
