(* ===== verification/Console.v ===== *)
(** * The console (console.c)

    Formatted kernel messages, the screen, and the line discipline of the
    keyboard.  Code that holds [cons.lock] runs as one step; the characters
    that the functions pass to [consputc] go to the serial port and to the
    memory of the display.  The processor ports of the display's cursor are the
    two registers they address. *)

From stdpp Require Import functions.
From S2P Require Import Prelude Digits.

Definition NL : Z := 10.
Definition PERCENT : Z := 37.
Definition BACKSPACE : Z := 0x100.

(** ** Messages *)

Definition digit_char (d : Z) : Z := if d <? 10 then 48 + d else 87 + d.

(** [None] is a write past [buf[16]]. *)
Definition printint (xx base : Z) (sign : bool) : option (list Z) :=
  let sign := sign && (s32 xx <? 0) in
  let x := if sign then u32 (- s32 xx) else u32 xx in
  ds ← digits_of base x;
  let buf := (digit_char <$> ds) ++ (if sign then [45] else []) in
  if (16 <? length buf)%nat then None else Some (reverse buf).

Definition nullstr : list Z := [40; 110; 117; 108; 108; 41].

(** What [cprintf] passes to [consputc]; [str] gives the string at a pointer. *)
Fixpoint cprintf (str : Z -> list Z) (fmt argp : list Z) : option (list Z) :=
  match fmt with
  | [] => Some []
  | c :: fmt1 =>
      if negb (c =? PERCENT) then out ← cprintf str fmt1 argp; Some (c :: out)
      else
        match fmt1 with
        | [] => Some []
        | c :: fmt2 =>
            let number base sign :=
              match argp with
              | a :: argp' => n ← printint a base sign; out ← cprintf str fmt2 argp'; Some (n ++ out)
              | [] => None
              end in
            if c =? 100 (* d *) then number 10 true
            else if c =? 98 (* b *) then number 2 false
            else if (c =? 120) || (c =? 112) (* x, p *) then number 16 false
            else if c =? 115 (* s *) then
              match argp with
              | a :: argp' => out ← cprintf str fmt2 argp'; Some ((if a =? 0 then nullstr else str a) ++ out)
              | [] => None
              end
            else if c =? PERCENT then out ← cprintf str fmt2 argp; Some (PERCENT :: out)
            else out ← cprintf str fmt2 argp; Some (PERCENT :: c :: out)
        end
  end.

(** ** The screen *)

Record cga := mk_cga {
  crt : list Z;                 (* the cells of the display memory *)
  cur_hi : Z;                   (* registers 14 and 15 of the controller *)
  cur_lo : Z
}.

Definition cell (c : Z) : Z := Z.lor (Z.land c 0xff) 0x0700.
Definition BLANK : Z := cell 32.

Definition poke (pos v : Z) : M cga unit :=
  s <- kget ;;
  if (0 <=? pos) && (pos <? Z.of_nat (length (crt s))) then
    kput (mk_cga (<[Z.to_nat pos := v]> (crt s)) (cur_hi s) (cur_lo s))
  else fault "display memory".

(** [memmove(crt, crt+80, ...)] and [memset(crt+pos, 0, ...)] *)
Definition scroll_up (l : list Z) : list Z := take (23 * 80) (drop 80 l) ++ drop (23 * 80) l.
Definition clear_from (pos : nat) (l : list Z) : list Z := take pos l ++ replicate (24 * 80 - pos) 0 ++ drop (24 * 80) l.

(** The second half of [cgaputc]: the cursor goes to [pos]. *)
Definition settle (pos : Z) : M cga unit :=
  if (pos <? 0) || (25 * 80 <? pos) then panic "pos under/overflow"
  else
    pos <- (if 24 <=? pos / 80 then
              modify (fun s => mk_cga (clear_from (Z.to_nat (pos - 80)) (scroll_up (crt s))) (cur_hi s) (cur_lo s)) ;;;
              kret (pos - 80)
            else kret pos) ;;
    modify (fun s => mk_cga (crt s) (u8 (Z.shiftr pos 8)) (u8 pos)) ;;;
    poke pos BLANK.

Definition cgaputc (c : Z) : M cga unit :=
  s <- kget ;;
  let pos := Z.lor (Z.shiftl (cur_hi s) 8) (cur_lo s) in
  pos <- (if c =? NL then kret (pos + (80 - pos mod 80))
          else if c =? BACKSPACE then kret (if 0 <? pos then pos - 1 else pos)
          else poke pos (cell c) ;;; kret (pos + 1)) ;;
  settle pos.

(** ** Keyboard input *)

Definition INPUT_BUF : Z := 128.

Record input := mk_input {
  buf : list Z;                 (* buf[INPUT_BUF] *)
  r_ : Z;
  w_ : Z;
  e_ : Z
}.

(** [C('P')], [C('U')], [C('H')], [C('D')] *)
Definition CTRL_P : Z := 16.
Definition CTRL_U : Z := 21.
Definition CTRL_H : Z := 8.
Definition CTRL_D : Z := 4.
Definition DEL : Z := 0x7f.
Definition CR : Z := 13.

Definition at_ (i : input) (k : Z) : Z := buf i !!! Z.to_nat (k mod INPUT_BUF).
Definition set_e (e : Z) (i : input) : input := mk_input (buf i) (r_ i) (w_ i) e.

(** The loop of [C('U')]; the result lists what goes to [consputc]. *)
Fixpoint kill_loop (n : nat) (i : input) : input * list Z :=
  match n with
  | O => (i, [])
  | S n' =>
      if negb (e_ i =? w_ i) && negb (at_ i (u32 (e_ i - 1)) =? NL) then
        let '(i', out) := kill_loop n' (set_e (u32 (e_ i - 1)) i) in (i', BACKSPACE :: out)
      else (i, [])
  end.

(** One character of [consoleintr]: the new input, what is passed to
    [consputc], and whether the readers are woken. *)
Definition key (c : Z) (i : input) : input * list Z * bool :=
  if c =? CTRL_P then (i, [], false)
  else if c =? CTRL_U then (kill_loop (Z.to_nat (u32 (e_ i - w_ i))) i, false)
  else if (c =? CTRL_H) || (c =? DEL) then
    if negb (e_ i =? w_ i) then (set_e (u32 (e_ i - 1)) i, [BACKSPACE], false) else (i, [], false)
  else if negb (c =? 0) && (u32 (e_ i - r_ i) <? INPUT_BUF) then
    let c := if c =? CR then NL else c in
    let b' := <[Z.to_nat (e_ i mod INPUT_BUF) := s8 c]> (buf i) in
    let e' := u32 (e_ i + 1) in
    if (c =? NL) || (c =? CTRL_D) || (e' =? u32 (r_ i + INPUT_BUF)) then
      (mk_input b' (r_ i) e' e', [c], true)
    else (mk_input b' (r_ i) (w_ i) e', [c], false)
  else (i, [], false).

(** [consoleintr] on the characters that [getc] returns before it returns a
    negative number; the last flag asks for the process listing. *)
Fixpoint consoleintr (cs : list Z) (i : input) : input * list Z * bool * bool :=
  match cs with
  | [] => (i, [], false, false)
  | c :: cs' =>
      let '(i1, out, wake) := key c i in
      let '(i2, out', wake', dump) := consoleintr cs' i1 in
      (i2, out ++ out', wake || wake', (c =? CTRL_P) || dump)
  end.

(** How a call of [consoleread] ends: it returns, fails because the process
    was killed, or sleeps with [n] characters still to read. *)
Inductive cresult := CRet | CErr | CSleep (n : nat).

(** [consoleread], from its start or from the return of [sleep], with [n] of
    [target] characters left: the characters it stores, and how it ends. *)
Fixpoint consoleread (killed : bool) (target n : nat) (i : input) : input * list Z * cresult :=
  match n with
  | O => (i, [], CRet)
  | S n' =>
      if r_ i =? w_ i then (i, [], if killed then CErr else CSleep n)
      else
        let c := at_ i (r_ i) in
        let i' := mk_input (buf i) (u32 (r_ i + 1)) (w_ i) (e_ i) in
        if c =? CTRL_D then
          (if (n <? target)%nat then mk_input (buf i) (u32 (r_ i' - 1)) (w_ i) (e_ i) else i', [], CRet)
        else if c =? NL then (i', [c], CRet)
        else let '(i2, cs, res) := consoleread killed target n' i' in (i2, c :: cs, res)
  end.

(** ** Output *)

Record console := mk_console {
  c_cga : cga;
  c_uart : bool;                (* the serial port is there *)
  c_sent : list Z;              (* the bytes it was given *)
  c_panicked : bool
}.

#[export] Program Instance console_cga : Sub cga console := {
  sub_get := c_cga;
  sub_put := fun g s => mk_console g (c_uart s) (c_sent s) (c_panicked s)
}.
Solve Obligations with (by try intros []).

Definition uartputc (c : Z) : M console unit :=
  modify (fun s => if c_uart s then mk_console (c_cga s) (c_uart s) (c_sent s ++ [u8 c]) (c_panicked s) else s).

(** After a panic the other CPUs stop here. *)
Definition consputc (c : Z) : M console unit :=
  s <- kget ;;
  if c_panicked s then block "panicked"
  else
    (if c =? BACKSPACE then uartputc 8 ;;; uartputc 32 ;;; uartputc 8 else uartputc c) ;;;
    lift (cgaputc c).

Fixpoint consputcs (cs : list Z) : M console unit :=
  match cs with
  | [] => kret tt
  | c :: cs' => consputc c ;;; consputcs cs'
  end.

Definition consolewrite (bs : list Z) : M console Z :=
  consputcs ((fun b => Z.land b 0xff) <$> bs) ;;;
  kret (Z.of_nat (length bs)).

(** ** The specification of the line discipline

    Lines that are ready to be read, and the line being edited. *)

Record tty := mk_tty { ready : list Z; edit : list Z }.

Definition t_key (c : Z) (t : tty) : tty * list Z * bool :=
  if c =? CTRL_P then (t, [], false)
  else if c =? CTRL_U then (mk_tty (ready t) [], replicate (length (edit t)) BACKSPACE, false)
  else if (c =? CTRL_H) || (c =? DEL) then
    (mk_tty (ready t) (take (length (edit t) - 1) (edit t)), if edit t then [] else [BACKSPACE], false)
  else if negb (c =? 0) && (length (ready t ++ edit t) <? 128)%nat then
    let c := if c =? CR then NL else c in
    let line := edit t ++ [s8 c] in
    if (c =? NL) || (c =? CTRL_D) || (length (ready t ++ line) =? 128)%nat then (mk_tty (ready t ++ line) [], [c], true)
    else (mk_tty (ready t) line, [c], false)
  else (t, [], false).

Fixpoint t_read (killed : bool) (target n : nat) (l : list Z) : list Z * list Z * cresult :=
  match n with
  | O => (l, [], CRet)
  | S n' =>
      match l with
      | [] => ([], [], if killed then CErr else CSleep n)
      | c :: l' =>
          if c =? CTRL_D then (if (n <? target)%nat then l else l', [], CRet)
          else if c =? NL then (l', [c], CRet)
          else let '(l2, cs, res) := t_read killed target n' l' in (l2, c :: cs, res)
      end
  end.

(** The [k] characters of the buffer from counter [a] on. *)
Definition slice (i : input) (a k : Z) : list Z := (fun j => at_ i (a + j)) <$> seqZ 0 k.

Record shows (i : input) (t : tty) : Prop := {
  sh_buf : length (buf i) = 128%nat;
  sh_r : 0 <= r_ i < 2 ^ 32;
  sh_w : w_ i = u32 (r_ i + Z.of_nat (length (ready t)));
  sh_e : e_ i = u32 (r_ i + Z.of_nat (length (ready t ++ edit t)));
  sh_len : (length (ready t ++ edit t) <= 128)%nat;
  sh_all : ready t ++ edit t = slice i (r_ i) (Z.of_nat (length (ready t ++ edit t)));
  sh_line : NL ∉ edit t
}.

Lemma u32_same a d : 0 <= d < 2 ^ 32 -> (u32 (a + d) =? u32 a) = (d =? 0).
Proof.
  intros Hd. unfold u32. destruct (Z.eqb_spec d 0) as [->|Hne]; [rewrite Z.add_0_r; apply Z.eqb_refl|].
  apply Z.eqb_neq. intros E. assert (d mod 2 ^ 32 = 0) as H0; [|rewrite Z.mod_small in H0; lia].
  replace d with (a + d - a) by lia. by rewrite Zminus_mod, E, Z.sub_diag.
Qed.

Lemma at_u32 i x : at_ i (u32 x) = at_ i x.
Proof.
  unfold at_. do 2 f_equal. unfold u32, INPUT_BUF. replace (2 ^ 32) with (128 * 33554432) by done.
  rewrite Z.rem_mul_r by done. rewrite (Z.mul_comm 128), Z.mod_add by done. by rewrite Z.mod_mod.
Qed.

Lemma ring_slice_length i a k : length (slice i a k) = Z.to_nat k.
Proof. unfold slice. by rewrite length_fmap, length_seqZ. Qed.

Lemma slice_u32 i a k : slice i (u32 a) k = slice i a k.
Proof.
  unfold slice. apply list_fmap_ext. intros ? j _. rewrite <- (at_u32 i (u32 a + j)), <- (at_u32 i (a + j)). by rewrite u32_add_l.
Qed.

Lemma slice_cons i a k : 0 < k -> slice i a k = at_ i a :: slice i (a + 1) (k - 1).
Proof.
  intros Hk. unfold slice. rewrite seqZ_cons by done. rewrite fmap_cons, Z.add_0_r. f_equal.
  replace (Z.pred k) with (k - 1) by lia. change (Z.succ 0) with (1 + 0). rewrite <- fmap_add_seqZ, <- list_fmap_compose.
  apply list_fmap_ext. intros ? j _. unfold compose. f_equal. lia.
Qed.

Lemma slice_snoc i a k : 0 <= k -> slice i a (k + 1) = slice i a k ++ [at_ i (a + k)].
Proof. intros Hk. unfold slice. rewrite seqZ_app, fmap_app by lia. done. Qed.

Lemma slice_take i a k j : 0 <= j <= k -> take (Z.to_nat j) (slice i a k) = slice i a j.
Proof.
  intros Hj. unfold slice. replace k with (j + (k - j)) by lia. rewrite seqZ_app, fmap_app by lia.
  apply take_app_length'. by rewrite length_fmap, length_seqZ.
Qed.

Lemma slice_put i k v r w e : length (buf i) = 128%nat -> 0 <= k < 128 ->
  slice (mk_input (<[Z.to_nat ((r_ i + k) mod INPUT_BUF) := v]> (buf i)) r w e) (r_ i) (k + 1) = slice i (r_ i) k ++ [v].
Proof.
  intros Hb Hk. rewrite slice_snoc by lia. f_equal.
  - unfold slice. apply list_fmap_ext. intros n j [-> Hj]%lookup_seqZ. unfold at_. cbn [buf]. apply list_lookup_total_insert_ne.
    intros E. unfold INPUT_BUF in *. apply Z2Nat.inj in E; try (apply Z.mod_pos_bound; done).
    assert ((k - (0 + Z.of_nat n)) mod 128 = 0) as H0; [|rewrite Z.mod_small in H0; lia].
    replace (k - (0 + Z.of_nat n)) with (r_ i + k - (r_ i + (0 + Z.of_nat n))) by lia. by rewrite Zminus_mod, E, Z.sub_diag.
  - unfold at_. cbn [buf]. f_equal. apply list_lookup_total_insert_eq. rewrite Hb. unfold INPUT_BUF.
    pose proof (Z.mod_pos_bound (r_ i + k) 128). lia.
Qed.

Section Refine.
Context (i : input) (t : tty) (Hs : shows i t).
Notation n1 := (length (ready t)).
Notation n2 := (length (edit t)).

Lemma sh_total : length (ready t ++ edit t) = (n1 + n2)%nat.
Proof. apply length_app. Qed.

Lemma editing : (e_ i =? w_ i) = bool_decide (edit t = []).
Proof.
  rewrite (sh_e _ _ Hs), (sh_w _ _ Hs), sh_total. pose proof (sh_len _ _ Hs) as Hl. rewrite sh_total in Hl.
  replace (r_ i + Z.of_nat (n1 + n2)) with (r_ i + Z.of_nat n1 + Z.of_nat n2) by lia. rewrite u32_same by lia.
  case_bool_decide as H; [by rewrite H|]. apply Z.eqb_neq. destruct (edit t); [done|simpl; lia].
Qed.

Lemma edited : u32 (e_ i - w_ i) = Z.of_nat n2.
Proof.
  rewrite (sh_e _ _ Hs), (sh_w _ _ Hs), sh_total. pose proof (sh_len _ _ Hs) as Hl. rewrite sh_total in Hl.
  rewrite u32_sub_l, u32_sub_r. replace (r_ i + Z.of_nat (n1 + n2) - (r_ i + Z.of_nat n1)) with (Z.of_nat n2) by lia.
  apply u32_id. lia.
Qed.

Lemma stored : u32 (e_ i - r_ i) = Z.of_nat (n1 + n2).
Proof.
  rewrite (sh_e _ _ Hs), sh_total. pose proof (sh_len _ _ Hs) as Hl. rewrite sh_total in Hl.
  rewrite u32_sub_l. rewrite Z.add_simpl_l. apply u32_id. lia.
Qed.

(** The last character of the line being edited, and the line without it. *)
Lemma erase_last l c : edit t = l ++ [c] ->
  at_ i (u32 (e_ i - 1)) = c /\ shows (set_e (u32 (e_ i - 1)) i) (mk_tty (ready t) l).
Proof.
  intros E. destruct Hs as [Hb Hr Hw He Hl Ha Hn]. rewrite E in *. rewrite app_assoc, length_app in *. cbn [length] in *.
  set (k := length (ready t ++ l)) in *. replace (Z.of_nat (k + 1)) with (Z.of_nat k + 1) in * by lia.
  assert (u32 (e_ i - 1) = u32 (r_ i + Z.of_nat k)) as -> by (rewrite He, u32_sub_l; f_equal; lia).
  rewrite slice_snoc in Ha by lia. apply app_inj_2 in Ha as [Ha Hc]; [|done]. injection Hc as Hc. split; [by rewrite at_u32|].
  split; cbn; try done; [lia|]. intros ?. apply Hn, elem_of_app. by left.
Qed.
End Refine.

Lemma kill_shows n i t : shows i t -> length (edit t) = n ->
  exists i', kill_loop n i = (i', replicate n BACKSPACE) /\ shows i' (mk_tty (ready t) []) /\ r_ i' = r_ i.
Proof.
  revert i t. induction n as [|n IH]; intros i t Hs Hn; cbn [kill_loop].
  - exists i. split; [done|]. destruct t as [rd [|]]; done.
  - rewrite (editing i t Hs). destruct (edit t) as [|c0 l0] eqn:E0 using rev_ind; [done|]. clear IHl0.
    rewrite bool_decide_eq_false_2 by (by destruct l0). destruct (erase_last i t Hs l0 c0 E0) as [-> Hs'].
    assert (c0 <> NL) as Hc by (intros ->; apply (sh_line _ _ Hs); rewrite E0; apply elem_of_app; right; by left).
    rewrite (proj2 (Z.eqb_neq _ _) Hc). cbn [negb andb].
    destruct (IH _ _ Hs') as (i' & -> & Hi'); [cbn; rewrite length_app in Hn; simpl in Hn; lia|]. exists i'. done.
Qed.

Lemma s8_nl c : s8 c = NL -> 0 <= c < 256 -> c = NL.
Proof. unfold s8, NL. intros E Hc. rewrite Z.mod_small in E by (simpl; lia). destruct (c <? 2 ^ 7); lia. Qed.

Lemma put_shows i t c w : shows i t -> (length (ready t ++ edit t) < 128)%nat ->
  let b' := <[Z.to_nat (e_ i mod INPUT_BUF) := c]> (buf i) in
  slice (mk_input b' (r_ i) w (u32 (e_ i + 1))) (r_ i) (Z.of_nat (length (ready t ++ edit t ++ [c]))) = ready t ++ edit t ++ [c] /\
  u32 (e_ i + 1) = u32 (r_ i + Z.of_nat (length (ready t ++ edit t ++ [c]))).
Proof.
  intros [Hb Hr Hw He Hl Ha Hn] Hlt b'. rewrite !app_assoc, length_app. cbn [length].
  set (k := length (ready t ++ edit t)) in *. replace (Z.of_nat (k + 1)) with (Z.of_nat k + 1) by lia. split.
  - subst b'. assert (e_ i mod INPUT_BUF = (r_ i + Z.of_nat k) mod INPUT_BUF) as ->.
    { rewrite He. unfold u32, INPUT_BUF. replace (2 ^ 32) with (128 * 33554432) by done.
      rewrite Z.rem_mul_r by done. rewrite (Z.mul_comm 128), Z.mod_add by done. by rewrite Z.mod_mod. }
    rewrite slice_put by (done || lia). by rewrite <- Ha.
  - rewrite He, u32_add_l. f_equal. lia.
Qed.

(** One key. *)
Lemma key_refines c i t : shows i t -> 0 <= c < 256 ->
  exists i' t' out wake, key c i = (i', out, wake) /\ t_key c t = (t', out, wake) /\ shows i' t' /\ r_ i' = r_ i.
Proof.
  intros Hs Hc. unfold key, t_key. pose proof (sh_total t) as Htot. pose proof (sh_len i t Hs) as Hlen.
  destruct (c =? CTRL_P); [by exists i, t, [], false|].
  destruct (c =? CTRL_U).
  { rewrite (edited i t Hs), Nat2Z.id. destruct (kill_shows _ i t Hs eq_refl) as (i' & E & Hi' & Hr). rewrite E.
    by eexists _, _, _, _. }
  destruct (_ || _).
  { rewrite (editing i t Hs). destruct (edit t) as [|c0 l0] eqn:E0 using rev_ind.
    - exists i, t, [], false. destruct t as [rd ed]. cbn in *. subst ed. done.
    - clear IHl0. rewrite bool_decide_eq_false_2 by (by destruct l0). destruct (erase_last i t Hs l0 c0 E0) as [_ Hs'].
      rewrite length_app. cbn [length]. rewrite Nat.add_sub, take_app_length. eexists _, _, _, _. split_and!; [done| |done|done].
      by destruct l0. }
  rewrite (stored i t Hs). unfold INPUT_BUF.
  assert ((Z.of_nat (length (ready t) + length (edit t)) <? 128) = (length (ready t ++ edit t) <? 128)%nat) as ->.
  { rewrite Htot. destruct (Nat.ltb_spec (length (ready t) + length (edit t)) 128); [apply Z.ltb_lt|apply Z.ltb_ge]; lia. }
  destruct (_ && _) eqn:Hroom; [|by exists i, t, [], false].
  apply andb_true_iff in Hroom as [_ Hroom%Nat.ltb_lt].
  set (c' := if c =? CR then NL else c). assert (0 <= c' < 256) as Hc' by (subst c'; unfold NL; case_match; lia).
  assert (forall w, _) as Hput by (intros w; exact (put_shows i t (s8 c') w Hs Hroom)). cbv zeta in Hput.
  assert ((u32 (e_ i + 1) =? u32 (r_ i + 128)) = (length (ready t ++ edit t ++ [s8 c']) =? 128)%nat) as ->.
  { rewrite (proj2 (Hput 0)). set (k := length (ready t ++ edit t ++ [s8 c'])).
    assert (k <= 128)%nat by (subst k; rewrite app_assoc, length_app; simpl; lia).
    replace (r_ i + 128) with (r_ i + Z.of_nat k + (128 - Z.of_nat k)) by lia. rewrite Z.eqb_sym, u32_same by lia.
    destruct (Nat.eqb_spec k 128); [apply Z.eqb_eq|apply Z.eqb_neq]; lia. }
  assert (length (ready t ++ edit t ++ [s8 c']) <= 128)%nat as Hle by (rewrite app_assoc, length_app; simpl; lia).
  destruct Hs as [Hb Hr Hw He Hl Ha Hn]. destruct (_ || _) eqn:Hend.
  - eexists _, _, _, _. split_and!; [done|done| |done]. split; cbn [buf r_ w_ e_ ready edit]; rewrite ?app_nil_r;
      [by rewrite length_insert|done|apply (Hput 0)|apply (Hput 0)|done|symmetry; apply Hput|by intros ?%elem_of_nil].
  - eexists _, _, _, _. split_and!; [done|done| |done]. split; cbn [buf r_ w_ e_ ready edit];
      [by rewrite length_insert|done|done|apply (Hput 0)|done|symmetry; apply Hput|].
    rewrite elem_of_app, list_elem_of_singleton. intros [?|E]; [done|]. symmetry in E. apply s8_nl in E; [|done].
    rewrite E in Hend. done.
Qed.

(** One read. *)
Lemma take_first i t c l : shows i t -> ready t = c :: l ->
  (r_ i =? w_ i) = false /\ at_ i (r_ i) = c /\ shows (mk_input (buf i) (u32 (r_ i + 1)) (w_ i) (e_ i)) (mk_tty l (edit t)).
Proof.
  intros [Hb Hr Hw He Hl Ha Hn] E. rewrite E in *. cbn [app length] in *.
  split; [|split].
  - rewrite Hw. rewrite <- (u32_id (r_ i)) at 1 by done. rewrite Z.eqb_sym, u32_same by (rewrite length_app in Hl; lia).
    apply Z.eqb_neq. lia.
  - rewrite slice_cons in Ha by lia. by injection Ha.
  - rewrite slice_cons in Ha by lia. injection Ha as _ Ha. split; cbn [buf r_ w_ e_ ready edit]; try done.
    + apply u32_range.
    + rewrite Hw, u32_add_l. f_equal. lia.
    + rewrite He, u32_add_l. f_equal. lia.
    + lia.
    + rewrite slice_u32. rewrite Ha at 1. f_equal. lia.
Qed.

Lemma none_left i t : shows i t -> ready t = [] -> (r_ i =? w_ i) = true.
Proof. intros [Hb Hr Hw He Hl Ha Hn] E. rewrite Hw, E. simpl. rewrite Z.add_0_r, u32_id by done. apply Z.eqb_refl. Qed.

Lemma read_refines killed target n i t : shows i t ->
  exists i' l cs res, consoleread killed target n i = (i', cs, res) /\ t_read killed target n (ready t) = (l, cs, res) /\
    shows i' (mk_tty l (edit t)).
Proof.
  revert i t. induction n as [|n IH]; intros i t Hs; cbn [consoleread t_read]; [destruct t; by eexists _, _, _, _|].
  destruct (ready t) as [|c l] eqn:E.
  { rewrite (none_left i t Hs E). eexists _, _, _, _. split_and!; [done|done|]. destruct t; cbn in *; by subst. }
  destruct (take_first i t c l Hs E) as (-> & -> & Hs'). cbv zeta. cbn [r_].
  destruct (c =? CTRL_D).
  { eexists _, _, _, _. split_and!; [done|done|]. destruct (_ <? _)%nat; [|done].
    rewrite u32_sub_l, Z.add_simpl_r, u32_id by apply (sh_r _ _ Hs). destruct i, t; cbn in *; by subst. }
  destruct (c =? NL); [by eexists _, _, _, _|].
  destruct (IH _ _ Hs') as (i' & l' & cs & res & E1 & E2 & Hs2). rewrite E1. cbn [ready] in E2. rewrite E2. by eexists _, _, _, _.
Qed.

(** What a read takes from the lines that are ready: a part of one line; the
    end-of-file character is taken only by a read that returns nothing. *)
Ltac takes := split_and!; try first [done | by left | simpl; lia | by intros ?%elem_of_nil | by intros [|]].

Lemma t_read_takes killed target n l l' cs res : (n <= target)%nat -> t_read killed target n l = (l', cs, res) ->
  exists eof, l = cs ++ eof ++ l' /\ (eof = [] \/ eof = [CTRL_D] /\ cs = [] /\ n = target) /\
    (length cs <= n)%nat /\ CTRL_D ∉ cs /\ (forall cs' t, cs = cs' ++ NL :: t -> t = []) /\
    match res with CSleep m => l' = [] /\ (m + length cs = n)%nat /\ (0 < m)%nat /\ NL ∉ cs | CErr => killed = true /\ l' = [] | CRet => True end.
Proof.
  revert l l' cs. induction n as [|n IH]; intros l l' cs Hn E; cbn [t_read] in E.
  { injection E as <- <- <-. exists []. takes. }
  destruct l as [|c l].
  { injection E as <- <- <-. exists []. takes.
    destruct killed; takes. }
  destruct (Z.eqb_spec c CTRL_D) as [->|HD].
  { injection E as E <- <-. destruct (Nat.ltb_spec (S n) target); subst l'.
    - exists []. takes.
    - exists [CTRL_D]. takes. right. takes. }
  destruct (Z.eqb_spec c NL) as [->|HN].
  { injection E as <- <- <-. exists []. takes.
    - rewrite list_elem_of_singleton. done.
    - intros [|? [|]] t [=]; done. }
  destruct (t_read killed target n l) as [[l2 cs2] res2] eqn:E2. injection E as <- <- <-.
  destruct (IH l l2 cs2 ltac:(lia) E2) as (eof & -> & Heof & Hlen & HnD & Hnl & Hres). exists eof.
  destruct Heof as [->|(-> & _ & ?)]; [|lia]. takes.
  - rewrite elem_of_cons. intros [?|?]; [congruence|done].
  - intros [|c' cs'] t [=]; [congruence|]. subst. by eapply Hnl.
  - destruct res2 as [| |m]; [done|done|]. destruct Hres as (-> & Hm & H0 & Hn2). takes.
    rewrite elem_of_cons. intros [?|?]; [congruence|done].
Qed.

Fixpoint t_intr (cs : list Z) (t : tty) : tty * list Z * bool :=
  match cs with
  | [] => (t, [], false)
  | c :: cs' =>
      let '(t1, out, wake) := t_key c t in
      let '(t2, out', wake') := t_intr cs' t1 in
      (t2, out ++ out', wake || wake')
  end.

(** Typing only appends to what is ready, and wakes the readers when it does. *)
Lemma t_intr_ready cs t t' out wake : t_intr cs t = (t', out, wake) ->
  exists x, ready t' = ready t ++ x /\ (x = [] \/ wake = true).
Proof.
  assert (forall c t t' out wake, t_key c t = (t', out, wake) -> exists x, ready t' = ready t ++ x /\ (x = [] \/ wake = true)) as Hkey.
  { clear. intros c t t' out wake. unfold t_key. repeat case_match; intros [= <- <- <-]; cbn [ready];
      first [exists []; rewrite app_nil_r; split; [reflexivity|by left] | eexists; split; [reflexivity|by right]]. }
  revert t out wake. induction cs as [|c cs IH]; intros t out wake; cbn [t_intr].
  - intros [= <- <- <-]. exists []. rewrite app_nil_r. split; [done|by left].
  - destruct (t_key c t) as [[t1 out1] wake1] eqn:E1. destruct (t_intr cs t1) as [[t2 out2] wake2] eqn:E2. intros [= <- <- <-].
    destruct (Hkey _ _ _ _ _ E1) as (x & Hx & Hw). destruct (IH _ _ _ E2) as (y & -> & Hw'). exists (x ++ y). rewrite Hx, app_assoc. split; [done|].
    destruct Hw as [-> | ->]; [|by right]. destruct Hw' as [-> | ->]; [by left|right]. apply orb_true_r.
Qed.

Lemma intr_refines cs i t : shows i t -> Forall (fun c => 0 <= c < 256) cs ->
  exists i' t' out wake dump, consoleintr cs i = (i', out, wake, dump) /\ t_intr cs t = (t', out, wake) /\ shows i' t' /\ r_ i' = r_ i.
Proof.
  intros Hs Hcs. revert i t Hs. induction Hcs as [|c cs Hc _ IH]; intros i t Hs; cbn [consoleintr t_intr]; [by eexists _, _, _, _, _|].
  destruct (key_refines c i t Hs Hc) as (i1 & t1 & out & wake & -> & -> & Hs1 & Hr1).
  destruct (IH i1 t1 Hs1) as (i2 & t2 & out' & wake' & dump & -> & -> & Hs2 & Hr2). eexists _, _, _, _, _. split_and!; [done..|congruence].
Qed.

(** ** What was typed

    The text that a history of key presses and reads amounts to, without
    buffer and counters: the lines completed so far, the line under the
    cursor, and how much of the text the reads have taken. *)

Inductive event := Key (c : Z) | Reads (target n : nat).

Record typing := mk_typing { text : list Z; line : list Z; taken : nat }.

Definition pending (y : typing) : list Z := drop (taken y) (text y).

(** A key: the process listing and zero are ignored, [C('U')] empties the
    line, backspace and delete take its last character; another character is
    lost when 128 characters wait, and else joins the line, which is complete
    at a newline, an end-of-file mark or the 128th waiting character. *)
Definition type_key (c : Z) (y : typing) : typing :=
  if bool_decide (c = CTRL_P \/ c = 0) then y
  else if bool_decide (c = CTRL_U) then mk_typing (text y) [] (taken y)
  else if bool_decide (c = CTRL_H \/ c = DEL) then mk_typing (text y) (take (length (line y) - 1) (line y)) (taken y)
  else if bool_decide (128 <= length (pending y) + length (line y))%nat then y
  else
    let c := if bool_decide (c = CR) then NL else c in
    let l := line y ++ [s8 c] in
    if bool_decide (c = NL \/ c = CTRL_D \/ length (pending y) + length l = 128)%nat then mk_typing (text y ++ l) [] (taken y)
    else mk_typing (text y) l (taken y).

(** What a read of [n] characters stores: it stops after a newline and
    before an end-of-file mark. *)
Fixpoint line_prefix (n : nat) (l : list Z) : list Z :=
  match n, l with
  | S n', c :: l' => if c =? CTRL_D then [] else if c =? NL then [c] else c :: line_prefix n' l'
  | _, _ => []
  end.

(** How many characters it takes: a read that has stored nothing takes the mark. *)
Definition read_span (target n : nat) (l : list Z) : nat :=
  match n, l with
  | S _, c :: _ => if (c =? CTRL_D) && (target <=? n)%nat then 1 else length (line_prefix n l)
  | _, _ => 0
  end.

Definition type_event (y : typing) (e : event) : typing :=
  match e with
  | Key c => type_key c y
  | Reads target n => mk_typing (text y) (line y) (taken y + read_span target n (pending y))
  end.
Definition typing_of (h : list event) : typing := foldl type_event (mk_typing [] [] 0) h.

Definition tty_of (y : typing) : tty := mk_tty (pending y) (line y).

Lemma pending_app t l l' k : (k <= length t)%nat -> pending (mk_typing (t ++ l) l' k) = drop k t ++ l.
Proof. intros Hk. unfold pending. cbn [taken text]. by apply drop_app_le. Qed.

Lemma type_key_tty c y : (taken y <= length (text y))%nat ->
  (t_key c (tty_of y)).1.1 = tty_of (type_key c y) /\ taken (type_key c y) = taken y /\
  exists x, text (type_key c y) = text y ++ x.
Proof.
  intros Hk. unfold t_key, type_key, tty_of. cbn [ready edit].
  assert (forall t, text t = text y -> exists x, text t = text y ++ x) as Hid by (intros t E; exists []; by rewrite app_nil_r).
  destruct (Z.eqb_spec c CTRL_P) as [->|HP]; [rewrite bool_decide_true by auto; auto|].
  destruct (Z.eqb_spec c CTRL_U) as [->|HU]; [rewrite bool_decide_false by (intros [|]; done); rewrite bool_decide_true by done; auto|].
  destruct (Z.eqb_spec c CTRL_H) as [->|HH]; [rewrite !bool_decide_false by (try intros [|]; done); rewrite bool_decide_true by auto; auto|].
  destruct (Z.eqb_spec c DEL) as [->|HL]; [rewrite !bool_decide_false by (try intros [|]; done); rewrite bool_decide_true by auto; auto|].
  cbn [orb]. destruct (Z.eqb_spec c 0) as [->|H0]; [rewrite bool_decide_true by auto; auto|].
  rewrite (bool_decide_false (c = CTRL_P \/ _)), (bool_decide_false (c = CTRL_U)), (bool_decide_false (c = CTRL_H \/ _)) by tauto. cbn [negb andb].
  rewrite length_app. destruct (Nat.ltb_spec (length (pending y) + length (line y)) 128) as [Hlt|Hge]; [|rewrite bool_decide_true by lia; auto].
  rewrite bool_decide_false by lia. replace (bool_decide (c = CR)) with (c =? CR) by (destruct (Z.eqb_spec c CR); case_bool_decide; done).
  set (c' := if c =? CR then NL else c). rewrite (length_app (pending y)).
  destruct (Z.eqb_spec c' NL) as [E1|E1]; [rewrite bool_decide_true by auto|destruct (Z.eqb_spec c' CTRL_D) as [E2|E2]; [rewrite bool_decide_true by auto|
    destruct (Nat.eqb_spec (length (pending y) + length (line y ++ [s8 c'])) 128) as [E3|E3]; [rewrite bool_decide_true by auto|rewrite bool_decide_false by tauto]]];
    cbn [orb fst]; rewrite ?pending_app by done; cbn [taken line text]; eauto.
Qed.

Lemma t_read_span killed target n l l' cs res : (n <= target)%nat -> t_read killed target n l = (l', cs, res) ->
  cs = line_prefix n l /\ l' = drop (read_span target n l) l /\ (read_span target n l <= length l)%nat.
Proof.
  revert l l' cs res. induction n as [|n IH]; intros l l' cs res Hn E; [injection E as <- <- <-; cbn; split_and!; [done|done|lia]|].
  destruct l as [|c l]; [injection E as <- <- <-; done|]. cbn [t_read] in E. cbn [line_prefix read_span].
  destruct (c =? CTRL_D) eqn:HD.
  { injection E as <- <- <-. cbn [andb]. destruct (Nat.ltb_spec (S n) target), (Nat.leb_spec target (S n)); cbn; split_and!; try done; lia. }
  cbn [andb]. destruct (c =? NL) eqn:HN; [injection E as <- <- <-; cbn; split_and!; [done|done|lia]|].
  destruct (t_read killed target n l) as [[l2 cs2] res2] eqn:E2. injection E as <- <- <-.
  destruct (IH _ _ _ _ ltac:(lia) E2) as (-> & -> & Hle). cbn [length drop].
  assert (read_span target n l = length (line_prefix n l)) as <-; [|split_and!; [done|done|lia]].
  destruct n as [|n], l as [|d l]; try done. cbn [read_span]. by rewrite (proj2 (Nat.leb_gt target (S n))), andb_false_r by lia.
Qed.

(** ** Readers and the keyboard

    Processes read the console while keys arrive.  The history records the
    keys and the reads in their order, and what the reads stored. *)

Inductive cthread :=
| CIdle
| CRead (asleep : bool) (target n : nat) (got : list Z).

Record csys := mk_csys {
  cs_in : input;
  cs_thr : nat -> cthread;
  cs_killed : nat -> bool;
  cs_hist : list event;
  cs_recv : list Z;
  cs_done : list (nat * list Z)       (* the reads that returned: their size and result *)
}.

(** [wakeup(&input.r)] *)
Definition c_wake (x : cthread) : cthread := match x with CRead _ g n got => CRead false g n got | CIdle => CIdle end.

Definition run_intr (cs : list Z) (s : csys) : csys :=
  let '(i', _, wake, _) := consoleintr cs (cs_in s) in
  mk_csys i' (if wake then c_wake ∘ cs_thr s else cs_thr s) (cs_killed s) (cs_hist s ++ (Key <$> cs)) (cs_recv s) (cs_done s).

Definition run_consoleread (th target n : nat) (got : list Z) (s : csys) : csys :=
  let '(i', cs, res) := consoleread (cs_killed s th) target n (cs_in s) in
  mk_csys i'
    (<[th := match res with CSleep m => CRead true target m (got ++ cs) | _ => CIdle end]> (cs_thr s))
    (cs_killed s) (cs_hist s ++ [Reads target n]) (cs_recv s ++ cs)
    (cs_done s ++ match res with CRet => [(target, got ++ cs)] | _ => [] end).

Definition run_ckill (th : nat) (s : csys) : csys :=
  mk_csys (cs_in s) (<[th := c_wake (cs_thr s th)]> (cs_thr s)) (<[th := true]> (cs_killed s))
    (cs_hist s) (cs_recv s) (cs_done s).

Inductive cstep : csys -> csys -> Prop :=
| cs_intr cs s : Forall (fun c => 0 <= c < 256) cs -> cstep s (run_intr cs s)
| cs_read th n s : cs_thr s th = CIdle -> cstep s (run_consoleread th n n [] s)
| cs_resume th target n got s : cs_thr s th = CRead false target n got -> cstep s (run_consoleread th target n got s)
| cs_kill th s : cstep s (run_ckill th s).

(** The console at any value of its counters. *)
Definition cs_start (b : list Z) (r0 : Z) : csys :=
  mk_csys (mk_input b r0 r0 r0) (fun _ => CIdle) (fun _ => false) [] [] [].

(** A read is a part of one line, without end-of-file characters. *)
Definition one_line (target : nat) (bs : list Z) : Prop :=
  (length bs <= target)%nat /\ CTRL_D ∉ bs /\ (forall bs' t, bs = bs' ++ NL :: t -> t = []).

Definition thread_inv (l : list Z) (killed : bool) (x : cthread) : Prop :=
  match x with
  | CIdle => True
  | CRead asleep target n got =>
      (n + length got = target)%nat /\ CTRL_D ∉ got /\ NL ∉ got /\ (asleep = true -> l = [] /\ killed = false)
  end.

Record csys_inv (s : csys) (y : typing) : Prop := {
  ci_hist : typing_of (cs_hist s) = y;
  ci_shows : shows (cs_in s) (tty_of y);
  ci_taken : (taken y <= length (text y))%nat;
  ci_recv : cs_recv s = filter (fun c => c <> CTRL_D) (take (taken y) (text y));
  ci_thr : forall th, thread_inv (pending y) (cs_killed s th) (cs_thr s th);
  ci_done : Forall (fun d => one_line d.1 d.2) (cs_done s)
}.

Lemma filter_plain (cs : list Z) : CTRL_D ∉ cs -> filter (fun c => c <> CTRL_D) cs = cs.
Proof.
  induction cs as [|c cs IH]; intros H; [done|]. rewrite elem_of_cons in H. rewrite filter_cons_True by (intros ->; tauto).
  f_equal. apply IH. tauto.
Qed.

Lemma type_keys_tty cs y : (taken y <= length (text y))%nat ->
  let y' := foldl type_event y (Key <$> cs) in
  (t_intr cs (tty_of y)).1.1 = tty_of y' /\ taken y' = taken y /\ exists x, text y' = text y ++ x.
Proof.
  revert y. induction cs as [|c cs IH]; intros y Hk; cbn [t_intr fmap list_fmap foldl type_event]; [split_and!; [done|done|]; exists []; by rewrite app_nil_r|].
  destruct (type_key_tty c y Hk) as (E & Ht & x & Hx). destruct (t_key c (tty_of y)) as [[t1 out] wake] eqn:Ek. cbn [fst] in E. subst t1.
  destruct (IH (type_key c y)) as (E2 & Ht2 & x2 & Hx2); [rewrite Ht, Hx, length_app; lia|].
  destruct (t_intr cs (tty_of (type_key c y))) as [[t2 out2] wake2] eqn:Ei. cbn [fst] in *. split; [done|]. split; [congruence|].
  exists (x ++ x2). by rewrite app_assoc, <- Hx.
Qed.

Lemma cons_intr_inv cs s y : csys_inv s y -> Forall (fun c => 0 <= c < 256) cs -> exists y', csys_inv (run_intr cs s) y'.
Proof.
  intros [Hy Hs Ht Hr Hth Hd] Hcs. destruct (intr_refines cs (cs_in s) (tty_of y) Hs Hcs) as (i' & t' & out & wake & dump & E & Et & Hs' & Hr').
  destruct (t_intr_ready _ _ _ _ _ Et) as (x & Hx & Hw). destruct (type_keys_tty cs y Ht) as (E' & Htk & z & Hz).
  unfold run_intr. rewrite E. rewrite Et in E'. cbn [fst] in E'. subst t'. set (y' := foldl type_event y (Key <$> cs)) in *. exists y'. split; cbn.
  - unfold typing_of in *. by rewrite foldl_app, Hy.
  - done.
  - rewrite Htk, Hz, length_app. lia.
  - by rewrite Htk, Hz, take_app_le.
  - intros th. specialize (Hth th). destruct wake.
    + unfold compose. destruct (cs_thr s th) as [|[] g n got]; simpl in *; naive_solver.
    + destruct Hw as [->|]; [|done]. rewrite app_nil_r in Hx. cbn [ready tty_of] in Hx. by rewrite Hx.
  - done.
Qed.

Lemma t_read_killed target n l l' cs m : t_read true target n l <> (l', cs, CSleep m).
Proof.
  revert l l' cs. induction n as [|n IH]; intros l l' cs; cbn [t_read]; [done|].
  destruct l as [|c l]; [done|]. case_match; [done|]. case_match; [done|].
  destruct (t_read true target n l) as [[l2 cs2] res2] eqn:E. intros [= _ _ ->]. by apply IH in E.
Qed.

Lemma read_inv th target n got s y : csys_inv s y -> (n + length got = target)%nat -> CTRL_D ∉ got -> NL ∉ got ->
  exists y', csys_inv (run_consoleread th target n got s) y'.
Proof.
  intros [Hy Hs Ht Hr Hth Hd] Hn HD HN. set (k := cs_killed s th).
  destruct (read_refines k target n (cs_in s) _ Hs) as (i' & l & cs & res & E & Et & Hs'). cbn [ready edit tty_of] in Et, Hs'.
  destruct (t_read_takes k target n _ l cs res ltac:(lia) Et) as (eof & Hl & Heof & Hlen & HnD & Hnl & Hres).
  destruct (t_read_span k target n _ l cs res ltac:(lia) Et) as (_ & Hdrop & Hspan). set (sp := read_span target n (pending y)) in *.
  assert (take sp (pending y) = cs ++ eof) as Htake.
  { apply (app_inv_tail l). rewrite Hdrop at 1. by rewrite take_drop, <- app_assoc. }
  unfold run_consoleread. fold k. rewrite E. unfold pending in Hspan. rewrite length_drop in Hspan.
  assert (pending (type_event y (Reads target n)) = l) as Hp by (rewrite Hdrop; unfold pending at 1; cbn; fold sp; by rewrite <- drop_drop).
  exists (type_event y (Reads target n)). split; cbn [cs_in cs_hist cs_recv cs_thr cs_killed cs_done]; rewrite ?Hp.
  - unfold typing_of in *. by rewrite foldl_app, Hy.
  - unfold tty_of. by rewrite Hp.
  - cbn. fold sp. lia.
  - cbn. fold sp. rewrite <- take_take_drop, list_basics.list.filter_app, Hr. f_equal. change (drop (taken y) (text y)) with (pending y).
    rewrite Htake, list_basics.list.filter_app, filter_plain by done. destruct Heof as [->|(-> & _)]; by rewrite app_nil_r.
  - intros th'. destruct (decide (th' = th)) as [->|Hne].
    + rewrite fn_lookup_insert. destruct res as [| |m]; [done|done|]. destruct Hres as (-> & Hm & H0 & HnN). cbn.
      rewrite length_app, !elem_of_app. split_and!; [lia|tauto|tauto|]. intros _. split; [done|].
      fold k. destruct k eqn:Ek; [|done]. by apply t_read_killed in Et.
    + rewrite fn_lookup_insert_ne by done. specialize (Hth th'). destruct (cs_thr s th') as [|a g m got']; [done|]. simpl in *.
      split_and!; try apply Hth. intros Ha. destruct Hth as (_ & _ & _ & Hsl). destruct (Hsl Ha) as [Hnil Hk']. split; [|done].
      rewrite Hnil in Hl. symmetry in Hl. apply app_eq_nil in Hl as [_ Hl]. by apply app_eq_nil in Hl as [_ ?].
  - apply list.Forall_app. split; [done|]. destruct res; [|constructor..]. constructor; [|constructor]. cbn. split; [rewrite length_app; lia|].
    rewrite elem_of_app. split; [tauto|]. intros bs' u Hsplit. destruct (app_eq_inv _ _ _ _ Hsplit) as [(z & -> & Hz)|(z & -> & Hz)].
    + destruct z as [|c z]; [by eapply (Hnl [])|]. injection Hz as <- _. exfalso. apply HN, elem_of_app. right. by left.
    + by eapply Hnl.
Qed.

Lemma cons_kill_inv th s y : csys_inv s y -> csys_inv (run_ckill th s) y.
Proof.
  intros [Hy Hs Ht Hr Hth Hd]. split; cbn; try done. intros th'. specialize (Hth th'). destruct (decide (th' = th)) as [->|Hne].
  - rewrite !fn_lookup_insert. destruct (cs_thr s th); simpl in *; [done|]. naive_solver.
  - by rewrite !fn_lookup_insert_ne.
Qed.

Lemma cons_start_inv b r0 : length b = 128%nat -> 0 <= r0 < 2 ^ 32 -> csys_inv (cs_start b r0) (mk_typing [] [] 0).
Proof.
  intros Hb Hr. split; cbn; try done. split; cbn; try done; try (by rewrite Z.add_0_r, u32_id); [lia|by intros ?%elem_of_nil].
Qed.

(** C30: The console delivers what was typed, line by line.  However key
    presses, reads by any number of processes and kills interleave, and
    whatever the values of the 32-bit counters: the ring buffer holds exactly
    the text that the history of keys and reads amounts to, the complete
    lines that no read has taken followed by the line under the cursor; the
    reads together have stored the text they took, in order, but for
    end-of-file marks; a read that returned got a part of a single line; and
    no process sleeps in a read while characters wait or after it was killed. *)
Theorem console_lines b r0 s :
  length b = 128%nat -> 0 <= r0 < 2 ^ 32 -> rtc cstep (cs_start b r0) s ->
  let y := typing_of (cs_hist s) in
  shows (cs_in s) (mk_tty (drop (taken y) (text y)) (line y)) /\ (taken y <= length (text y))%nat /\
  cs_recv s = filter (fun c => c <> CTRL_D) (take (taken y) (text y)) /\
  (forall target bs, (target, bs) ∈ cs_done s -> one_line target bs) /\
  (forall th target n got, cs_thr s th = CRead true target n got -> drop (taken y) (text y) = [] /\ cs_killed s th = false).
Proof.
  intros Hb Hr Hreach y. assert (exists y, csys_inv s y) as [y' [Hy Hs Ht Hrecv Hth Hd]].
  { revert Hreach. apply (rtc_ind_r (fun s => exists y, csys_inv s y)); [eexists; by apply cons_start_inv|].
    intros s1 s2 _ Hstep (t & Hi). destruct Hstep as [cs s1 Hcs|th n s1 E|th g n got s1 E|th s1].
    - by eapply cons_intr_inv.
    - eapply read_inv; [done|simpl; lia|by intros ?%elem_of_nil|by intros ?%elem_of_nil].
    - pose proof (ci_thr _ _ Hi th) as Hx. rewrite E in Hx. destruct Hx as (? & ? & ? & _). by eapply read_inv.
    - eexists. by apply cons_kill_inv. }
  subst y'. split_and!; [done..| |].
  - intros target bs Hin. rewrite list.Forall_forall in Hd. exact (Hd _ Hin).
  - intros th target n got E. specialize (Hth th). rewrite E in Hth. by apply Hth.
Qed.

(** A process reads, three keys are typed at counters that wrap around, the
    read returns the line. *)
Definition demo_start : csys := cs_start (replicate 128 0) (2 ^ 32 - 2).
Definition demo_end : csys :=
  run_consoleread 0 10 10 [] (run_intr [97; 98; 127; 99; 13] (run_consoleread 0 10 10 [] demo_start)).

Lemma console_lines_witness :
  typing_of [Reads 10 10; Key 97; Key 98; Key 127; Key 99; Key 13; Reads 10 10] = mk_typing [97; 99; 10] [] 3 /\
  cs_done demo_end = [(10%nat, [97; 99; 10])] /\ r_ (cs_in demo_end) = 1 /\ cs_recv demo_end = [97; 99; 10].
Proof.
  assert (typing_of [Reads 10 10; Key 97; Key 98; Key 127; Key 99; Key 13; Reads 10 10] = mk_typing [97; 99; 10] [] 3) as Hy by (vm_compute; reflexivity).
  split; [exact Hy|]. split; [vm_compute; reflexivity|]. split; [vm_compute; reflexivity|].
  refine (eq_trans (proj1 (proj2 (proj2 (console_lines (replicate 128 0) (2 ^ 32 - 2) demo_end _ _ _)))) _); [apply length_replicate|lia| |].
  - eapply rtc_l; [apply (cs_read 0 10); reflexivity|].
    eapply rtc_l; [apply (cs_intr [97; 98; 127; 99; 13]); repeat constructor; lia|].
    eapply rtc_l; [|apply rtc_refl]. apply (cs_resume 0 10 10 []). reflexivity.
  - change (cs_hist demo_end) with [Reads 10 10; Key 97; Key 98; Key 127; Key 99; Key 13; Reads 10 10]. rewrite Hy. reflexivity.
Defined.

(** ** The screen is a window on a roll of paper

    The paper has rows of 80 cells without end; the screen shows the 24 rows
    from [top] on. *)

Record paper := mk_paper {
  ink : Z -> Z;                 (* the cells, 0 where nothing was ever printed *)
  top : Z;
  here : Z                      (* the cell of the cursor *)
}.

Definition p_put (p : paper) (c : Z) : paper :=
  let '(i1, h1) :=
    if c =? NL then (ink p, here p + (80 - here p mod 80))
    else if c =? BACKSPACE then (ink p, if 80 * top p <? here p then here p - 1 else here p)
    else (<[here p := cell c]> (ink p), here p + 1) in
  mk_paper (<[h1 := BLANK]> i1) (if 80 * (top p + 24) <=? h1 then top p + 1 else top p) h1.

Definition cursor (g : cga) : Z := Z.lor (Z.shiftl (cur_hi g) 8) (cur_lo g).

Record window (g : cga) (p : paper) : Prop := {
  wi_cells : forall i, 0 <= i < 1920 -> crt g !! Z.to_nat i = Some (ink p (80 * top p + i));
  wi_fresh : forall j, 80 * (top p + 24) <= j -> ink p j = 0;
  wi_cursor : cursor g = here p - 80 * top p;
  wi_range : 0 <= cursor g < 1920
}.

Lemma cursor_registers pos : 0 <= pos < 2 ^ 16 -> Z.lor (Z.shiftl (u8 (Z.shiftr pos 8)) 8) (u8 pos) = pos.
Proof.
  intros Hp. unfold u8. rewrite (Z.mod_small (Z.shiftr pos 8)).
  2: { rewrite Z.shiftr_div_pow2 by lia. split; [apply Z.div_pos; lia|]. apply Z.div_lt_upper_bound; lia. }
  apply lor_low_byte.
Qed.

Lemma poke_run pos v g : 0 <= pos < Z.of_nat (length (crt g)) ->
  poke pos v g = Ok tt (mk_cga (<[Z.to_nat pos := v]> (crt g)) (cur_hi g) (cur_lo g)).
Proof. intros Hp. unfold poke, kbind, kget. by rewrite (proj2 (Z.leb_le _ _)), (proj2 (Z.ltb_lt _ _)) by lia. Qed.

Lemma window_size g p : window g p -> 1920 <= Z.of_nat (length (crt g)).
Proof. intros H. pose proof (lookup_lt_Some _ _ _ (wi_cells g p H 1919 ltac:(lia))). lia. Qed.

(** A cell that the window shows. *)
Lemma window_poke l (k : Z -> Z) o i a v : a = o + i -> 0 <= i < 1920 -> 1920 <= Z.of_nat (length l) ->
  (forall j, 0 <= j < 1920 -> l !! Z.to_nat j = Some (k (o + j))) ->
  forall j, 0 <= j < 1920 -> <[Z.to_nat i := v]> l !! Z.to_nat j = Some (<[a := v]> k (o + j)).
Proof.
  intros -> Hi Hl Hk j Hj. destruct (decide (i = j)) as [->|Hne].
  - rewrite list_lookup_insert_eq by lia. by rewrite fn_lookup_insert.
  - rewrite list_lookup_insert_ne by lia. rewrite fn_lookup_insert_ne by lia. by apply Hk.
Qed.

(** Scrolling: one more row, the fresh one cleared. *)
Lemma window_scroll l (k : Z -> Z) t : 1920 <= Z.of_nat (length l) ->
  (forall j, 0 <= j < 1920 -> l !! Z.to_nat j = Some (k (80 * t + j))) -> (forall j, 80 * (t + 24) <= j -> k j = 0) ->
  forall j, 0 <= j < 1920 -> clear_from (Z.to_nat (1920 - 80)) (scroll_up l) !! Z.to_nat j = Some (k (80 * (t + 1) + j)).
Proof.
  intros Hl Hk Hf j Hj. change (Z.to_nat (1920 - 80)) with (23 * 80)%nat. unfold clear_from, scroll_up.
  assert (length (take (23 * 80) (drop 80 l)) = (23 * 80)%nat) as H1 by (rewrite length_take, length_drop; lia).
  rewrite take_app_length' by done. destruct (Z.lt_ge_cases j 1840).
  - rewrite lookup_app_l by lia. rewrite lookup_take_lt by lia. rewrite lookup_drop.
    replace (80 + Z.to_nat j)%nat with (Z.to_nat (80 + j)) by lia. rewrite Hk by lia. f_equal. f_equal. lia.
  - rewrite lookup_app_r by lia. rewrite H1. rewrite lookup_app_l by (rewrite length_replicate; lia).
    rewrite lookup_replicate_2 by lia. by rewrite Hf by lia.
Qed.

Lemma settle_run g (k : Z -> Z) t h : 1920 <= Z.of_nat (length (crt g)) ->
  (forall j, 0 <= j < 1920 -> crt g !! Z.to_nat j = Some (k (80 * t + j))) -> (forall j, 80 * (t + 24) <= j -> k j = 0) ->
  0 <= h - 80 * t <= 1920 ->
  exists g', settle (h - 80 * t) g = Ok tt g' /\
    window g' (mk_paper (<[h := BLANK]> k) (if 80 * (t + 24) <=? h then t + 1 else t) h).
Proof.
  intros Hl Hk Hf Hh. unfold settle. rewrite (proj2 (Z.ltb_ge (h - 80 * t) 0)), (proj2 (Z.ltb_ge 2000 _)) by lia. cbn [orb].
  destruct (Z.leb_spec (80 * (t + 24)) h) as [Hsc|Hno].
  - assert (h - 80 * t = 1920) as Eh by lia. rewrite Eh. change (24 <=? 1920 / 80) with true. cbv iota.
    set (l' := clear_from (Z.to_nat (1920 - 80)) (scroll_up (crt g))).
    assert (forall j, 0 <= j < 1920 -> l' !! Z.to_nat j = Some (k (80 * (t + 1) + j))) as Hk' by (by apply window_scroll).
    assert (1920 <= Z.of_nat (length l')) as Hl' by (pose proof (lookup_lt_Some _ _ _ (Hk' 1919 ltac:(lia))); lia).
    unfold kbind at 1 2, modify at 1, kret. unfold kbind, modify. cbn [crt]. fold l'. rewrite poke_run by (cbn [crt]; lia). eexists. split; [done|].
    split; cbn [crt cur_hi cur_lo ink top here].
    + apply window_poke; [lia|lia|done|done].
    + intros j Hj. rewrite fn_lookup_insert_ne by lia. apply Hf. lia.
    + unfold cursor. cbn [cur_hi cur_lo]. rewrite cursor_registers by lia. lia.
    + unfold cursor. cbn [cur_hi cur_lo]. rewrite cursor_registers; lia.
  - assert ((24 <=? (h - 80 * t) / 80) = false) as ->.
    { apply Z.leb_gt. apply Z.div_lt_upper_bound; lia. }
    unfold kbind at 1, kret. unfold kbind, modify. rewrite poke_run by (cbn [crt]; lia). eexists. split; [done|].
    split; cbn [crt cur_hi cur_lo ink top here].
    + apply window_poke; [lia|lia|done|done].
    + intros j Hj. rewrite fn_lookup_insert_ne by lia. by apply Hf.
    + unfold cursor. cbn [cur_hi cur_lo]. rewrite cursor_registers; lia.
    + unfold cursor. cbn [cur_hi cur_lo]. rewrite cursor_registers; lia.
Qed.

Lemma cgaputc_run c g p : window g p -> exists g', cgaputc c g = Ok tt g' /\ window g' (p_put p c).
Proof.
  intros Hw. pose proof (window_size g p Hw) as Hl. destruct Hw as [Hk Hf Hc Hr]. rewrite Hc in Hr.
  unfold cgaputc. unfold kbind at 1, kget. change (Z.lor (Z.shiftl (cur_hi g) 8) (cur_lo g)) with (cursor g). rewrite Hc. unfold p_put.
  destruct (c =? NL); [|destruct (c =? BACKSPACE)]; unfold kbind at 1, kret.
  - assert ((here p - 80 * top p) mod 80 = here p mod 80) as Em.
    { replace (here p - 80 * top p) with (here p + (- top p) * 80) by lia. apply Z.mod_add. done. }
    rewrite Em. replace (here p - 80 * top p + (80 - here p mod 80)) with (here p + (80 - here p mod 80) - 80 * top p) by lia.
    apply settle_run; try done. rewrite <- Em. pose proof (Z.mod_pos_bound (here p - 80 * top p) 80).
    pose proof (Z.div_mod (here p - 80 * top p) 80). assert ((here p - 80 * top p) / 80 < 24) by (apply Z.div_lt_upper_bound; lia). lia.
  - destruct (Z.ltb_spec 0 (here p - 80 * top p)).
    + rewrite (proj2 (Z.ltb_lt _ _)) by lia. replace (here p - 80 * top p - 1) with (here p - 1 - 80 * top p) by lia. apply settle_run; try done. lia.
    + rewrite (proj2 (Z.ltb_ge _ _)) by lia. apply settle_run; try done. lia.
  - unfold kbind at 1. rewrite poke_run by lia. replace (here p - 80 * top p + 1) with (here p + 1 - 80 * top p) by lia.
    apply settle_run; cbn [crt]; [by rewrite length_insert| | |lia].
    + apply window_poke; [lia|lia|done|done].
    + intros j Hj. rewrite fn_lookup_insert_ne by lia. by apply Hf.
Qed.

(** What the serial port is sent for a character. *)
Definition serial (c : Z) : list Z := if c =? BACKSPACE then [8; 32; 8] else [u8 c].

#[local] Arguments cgaputc : simpl never.

Lemma consputc_run c s p : window (c_cga s) p -> c_panicked s = false ->
  exists g', consputc c s = Ok tt (mk_console g' (c_uart s) (c_sent s ++ if c_uart s then serial c else []) false) /\
    window g' (p_put p c).
Proof.
  intros Hw Hp. destruct s as [g u l pk]. cbn in *. subst pk. destruct (cgaputc_run c g p Hw) as (g' & E & Hw'). exists g'. split; [|done].
  unfold consputc, serial, uartputc, lift, kbind, kget, modify. cbn [c_panicked].
  destruct (c =? BACKSPACE), u; cbn; rewrite E; cbn; rewrite <- ?app_assoc, ?app_nil_r; done.
Qed.

(** C31: Output never stops the kernel and is shown faithfully.  As long as no
    CPU has panicked, any sequence of characters can be printed: [cgaputc]
    never panics and stays inside the 24 rows of the display memory, the
    screen shows the last rows of an endless roll of paper on which the
    characters were printed in order, with newlines, backspaces up to the top
    of the screen and scrolling by whole rows, and the serial port is sent
    the same characters. *)
Theorem screen_shows_paper cs s p :
  window (c_cga s) p -> c_panicked s = false ->
  exists g', consputcs cs s =
      Ok tt (mk_console g' (c_uart s) (c_sent s ++ if c_uart s then cs ≫= serial else []) false) /\
    window g' (foldl p_put p cs).
Proof.
  revert s p. induction cs as [|c cs IH]; intros s p Hw Hp.
  - exists (c_cga s). split; [|done]. destruct s as [g u l pk]. cbn in *. subst. by destruct u; rewrite app_nil_r.
  - destruct (consputc_run c s p Hw Hp) as (g1 & E & Hw1). cbn [consputcs foldl]. rewrite (kbind_ok _ _ _ _ _ E).
    destruct (IH (mk_console g1 (c_uart s) (c_sent s ++ if c_uart s then serial c else []) false) _ Hw1 eq_refl) as (g' & E' & Hw'). exists g'. split; [|done]. rewrite E'. cbn [c_uart c_sent]. do 2 f_equal.
    rewrite <- app_assoc. f_equal. by destruct (c_uart s).
Qed.

(** The cleared screen with the cursor in the last row; a character, a newline
    that scrolls, another character. *)
Definition demo_console : console := mk_console (mk_cga (replicate 1920 0) 7 48) true [] false.

Lemma screen_shows_paper_witness :
  window (c_cga demo_console) (mk_paper (fun _ => 0) 0 1840) /\
  top (foldl p_put (mk_paper (fun _ => 0) 0 1840) [97; NL; 98]) = 1 /\
  exists g', consputcs [97; NL; 98] demo_console =
      Ok tt (mk_console g' (c_uart demo_console)
        (c_sent demo_console ++ if c_uart demo_console then [97; NL; 98] ≫= serial else []) false) /\
    window g' (foldl p_put (mk_paper (fun _ => 0) 0 1840) [97; NL; 98]).
Proof.
  assert (window (c_cga demo_console) (mk_paper (fun _ => 0) 0 1840)) as Hw.
  { split; cbn [c_cga demo_console crt ink top here]; [|done|vm_compute; reflexivity|vm_compute; split; congruence].
    intros i Hi. rewrite lookup_replicate_2; [done|lia]. }
  split; [exact Hw|]. split; [vm_compute; reflexivity|]. apply (screen_shows_paper [97; NL; 98]); [exact Hw|reflexivity].
Defined.

(** ** Numbers in kernel messages *)

(** Decimal and hexadecimal numbers fit in the buffer of [printint]. *)
Lemma printint_fits xx base sign : base = 10 \/ base = 16 -> exists s, printint xx base sign = Some s /\ (length s <= 11)%nat.
Proof.
  intros Hb. unfold printint. set (neg := sign && (s32 xx <? 0)).
  assert (0 <= (if neg then u32 (- s32 xx) else u32 xx) < 2 ^ 32) as Hx by (destruct neg; apply u32_range).
  destruct (digits_of_spec base (if neg then u32 (- s32 xx) else u32 xx) 10) as (l & -> & _ & Hl & _); [lia| |lia|].
  { split; [lia|]. destruct Hb as [-> | ->]; change (Z.of_nat 10) with 10; lia. }
  cbn [mbind option_bind]. set (b := (digit_char <$> l) ++ (if neg then [45] else [])).
  assert (length b <= 11)%nat as Hlen by (unfold b; rewrite length_app, length_fmap; destruct neg; simpl; lia).
  rewrite (proj2 (Nat.ltb_ge _ _)) by lia. eexists. split; [done|]. by rewrite length_reverse.
Qed.

(** Binary numbers do not: [%b] of any number with more than 16 binary digits
    writes behind the buffer. *)
Lemma printint_binary_overflow xx : 2 ^ 16 <= xx < 2 ^ 32 -> printint xx 2 false = None.
Proof.
  intros Hx. unfold printint. cbn [andb]. rewrite u32_id by lia. destruct (digits_of 2 xx) as [l|] eqn:E; [|done]. cbn [mbind option_bind].
  pose proof (digit_loop_long 32 2 xx 16 l ltac:(lia) ltac:(lia) E) as Hl. rewrite app_nil_r, length_fmap.
  by rewrite (proj2 (Nat.ltb_lt _ _)) by lia.
Qed.
