(* ===== verification/Syscall.v ===== *)
(** * System-call arguments (syscall.c, and sys_exec and sys_sleep)

    What the kernel reads of a process in a system call: its memory, its size,
    its stack pointer.  The first page of a process is never mapped, so a read
    there is a page fault in the kernel, which [trap] turns into a panic; the
    pages above it that are not mapped yet are supplied by the page-fault
    handler ([Pagefault]) and read as they should.  The log of system calls is
    kept as the flag that switches it; its output is left out. *)

From S2P Require Import Prelude Layout.

Record ucall := mk_ucall {
  u_mem : Z -> Z;               (* the bytes of the process *)
  u_sz : Z;                     (* curproc->sz *)
  u_esp : Z;                    (* curproc->tf->esp *)
  u_log : bool                  (* LOG_SYSCALLS *)
}.
Definition set_log (b : bool) (u : ucall) : ucall := mk_ucall (u_mem u) (u_sz u) (u_esp u) b.
Definition set_umem (m : Z -> Z) (u : ucall) : ucall := mk_ucall m (u_sz u) (u_esp u) (u_log u).

Notation U := (M ucall).

Definition user_byte (a : Z) : U Z :=
  if a <? PGSIZE then panic "trap" else gets (fun u => u_mem u a).

(** [*(int* )addr] *)
Definition user_int (a : Z) : U Z :=
  b0 <- user_byte a ;;
  b1 <- user_byte (u32 (a + 1)) ;;
  b2 <- user_byte (u32 (a + 2)) ;;
  b3 <- user_byte (u32 (a + 3)) ;;
  kret (s32 (b0 + 2 ^ 8 * b1 + 2 ^ 16 * b2 + 2 ^ 24 * b3)).

(** [None] is the result -1. *)
Definition fetchint (addr : Z) : U (option Z) :=
  sz <- gets u_sz ;;
  if (sz <=? addr) || (sz <? u32 (addr + 4)) then kret None
  else x <- user_int addr ;; kret (Some x).

Fixpoint fetchstr_loop (n : nat) (s len : Z) : U (option Z) :=
  match n with
  | O => kret None
  | S n' =>
      c <- user_byte s ;;
      if c =? 0 then kret (Some len) else fetchstr_loop n' (s + 1) (len + 1)
  end.
(** The address and the length of the string. *)
Definition fetchstr (addr : Z) : U (option (Z * Z)) :=
  sz <- gets u_sz ;;
  if sz <=? addr then kret None
  else
    r <- fetchstr_loop (Z.to_nat (sz - addr)) addr 0 ;;
    match r with
    | Some len => kret (Some (addr, len))
    | None => kret None
    end.

Definition argint (n : Z) : U (option Z) :=
  esp <- gets u_esp ;;
  fetchint (u32 (esp + 4 + 4 * n)).

(** The errors are -1 and -2. *)
Definition argptr (n size : Z) : U (Z + Z) :=
  old <- gets u_log ;;
  modify (set_log false) ;;;
  i <- argint n ;;
  match i with
  | None => kret (inl (-1))
  | Some i =>
      if i <? PGSIZE then kret (inl (-2))
      else
        modify (set_log old) ;;;
        sz <- gets u_sz ;;
        if (size <? 0) || (sz <=? u32 i) || (sz <? u32 (u32 i + size)) then kret (inl (-1))
        else kret (inr (u32 i))
  end.

Definition argstr (n : Z) : U (option (Z * Z)) :=
  a <- argint n ;;
  match a with
  | None => kret None
  | Some addr => fetchstr (u32 addr)
  end.

(** ** The arguments of exec *)

Definition MAXARG : nat := 32.

Fixpoint exec_args (n : nat) (uargv i : Z) (argv : list (Z * Z)) : U (option (list (Z * Z))) :=
  match n with
  | O => kret None
  | S n' =>
      uarg <- fetchint (u32 (uargv + 4 * i)) ;;
      match uarg with
      | None => kret None
      | Some x =>
          if u32 x =? 0 then kret (Some argv)
          else
            s <- fetchstr (u32 x) ;;
            match s with
            | None => kret None
            | Some a => exec_args n' uargv (i + 1) (argv ++ [a])
            end
      end
  end.
(** The path and the strings that sys_exec passes to exec, or -1. *)
Definition sys_exec_args : U (option ((Z * Z) * list (Z * Z))) :=
  path <- argstr 0 ;;
  match path with
  | None => kret None
  | Some path =>
      uargv <- argint 1 ;;
      match uargv with
      | None => kret None
      | Some uargv =>
          argv <- exec_args MAXARG (u32 uargv) 0 [] ;;
          match argv with
          | None => kret None
          | Some argv => kret (Some (path, argv))
          end
      end
  end.

(** ** sys_sleep

    One turn of its loop: it returns, or sleeps until the next tick. *)
Inductive slept := SRet (r : Z) | SWait.
Definition sys_sleep_turn (killed : bool) (ticks ticks0 n : Z) : slept :=
  if u32 (ticks - ticks0) <? u32 n then if killed then SRet (-1) else SWait
  else SRet 0.

(** ** What the checks guarantee *)

(** The 32-bit word at an address. *)
Definition word_at (m : Z -> Z) (a : Z) : Z := s32 (m a + 2 ^ 8 * m (a + 1) + 2 ^ 16 * m (a + 2) + 2 ^ 24 * m (a + 3)).

(** The string at [a]: [len] bytes before a 0, all of them below [sz]. *)
Definition string_at (u : ucall) (a len : Z) : Prop :=
  0 <= len /\ a + len < u_sz u /\ u_mem u (a + len) = 0 /\ forall i, 0 <= i < len -> u_mem u (a + i) <> 0.

(** The size of a process, at which the address of a word does not wrap. *)
Definition space_ok (u : ucall) : Prop := 0 <= u_sz u <= 2 ^ 32 - 4.

Lemma user_byte_run a u : PGSIZE <= a -> user_byte a u = Ok (u_mem u a) u.
Proof. intros Ha. unfold user_byte. by rewrite (proj2 (Z.ltb_ge _ _) Ha). Qed.

Lemma user_byte_low a u : a < PGSIZE -> user_byte a u = Panic "trap".
Proof. intros Ha. unfold user_byte. by rewrite (proj2 (Z.ltb_lt _ _) Ha). Qed.

(** The word at [a], -1 outside the process, and a page fault in the first page. *)
Definition word_result (u : ucall) (a : Z) : outcome ucall (option Z) :=
  if decide (a + 4 <= u_sz u) then if decide (a < PGSIZE) then Panic "trap" else Ok (Some (word_at (u_mem u) a)) u else Ok None u.

Lemma fetchint_run a u : space_ok u -> 0 <= a < 2 ^ 32 -> fetchint a u = word_result u a.
Proof.
  unfold space_ok, word_result. intros Hs Ha. unfold fetchint, kbind at 1, gets. destruct (decide (a + 4 <= u_sz u)) as [Hin|Hout].
  - rewrite (proj2 (Z.leb_gt _ _)) by lia. rewrite (u32_id (a + 4)) by lia. rewrite (proj2 (Z.ltb_ge _ _)) by lia. cbn [orb].
    unfold user_int. destruct (decide (a < PGSIZE)) as [Hlow|Hok]; [unfold kbind; by rewrite user_byte_low|].
    unfold PGSIZE in *. rewrite !(u32_id (a + _)) by lia. unfold kbind. rewrite !user_byte_run by (unfold PGSIZE; lia). done.
  - destruct (Z.leb_spec (u_sz u) a); [done|]. rewrite (u32_id (a + 4)) by lia. by rewrite (proj2 (Z.ltb_lt _ _)) by lia.
Qed.

Lemma fetchstr_loop_run u n s len : PGSIZE <= s ->
  (exists k, 0 <= k < Z.of_nat n /\ u_mem u (s + k) = 0 /\ (forall i, 0 <= i < k -> u_mem u (s + i) <> 0) /\
     fetchstr_loop n s len u = Ok (Some (len + k)) u) \/
  ((forall i, 0 <= i < Z.of_nat n -> u_mem u (s + i) <> 0) /\ fetchstr_loop n s len u = Ok None u).
Proof.
  revert s len. induction n as [|n IH]; intros s len Hs; cbn [fetchstr_loop]; [right; split; [lia|done]|].
  unfold kbind. rewrite user_byte_run by done. destruct (Z.eqb_spec (u_mem u s) 0) as [H0|H0].
  - left. exists 0. rewrite !Z.add_0_r. split_and!; [lia|lia|done|lia|done].
  - destruct (IH (s + 1) (len + 1) ltac:(lia)) as [(k & Hk & Hz & Hnz & E)|[Hnz E]]; [left|right].
    + exists (k + 1). rewrite E. split_and!; [lia|lia|by replace (s + (k + 1)) with (s + 1 + k) by lia| |do 2 f_equal; lia].
      intros i Hi. destruct (decide (i = 0)) as [->|]; [by rewrite Z.add_0_r|]. replace (s + i) with (s + 1 + (i - 1)) by lia. apply Hnz. lia.
    + split; [|done]. intros i Hi. destruct (decide (i = 0)) as [->|]; [by rewrite Z.add_0_r|].
      replace (s + i) with (s + 1 + (i - 1)) by lia. apply Hnz. lia.
Qed.

Lemma fetchstr_eq a u : fetchstr a u =
  if u_sz u <=? a then Ok None u
  else match fetchstr_loop (Z.to_nat (u_sz u - a)) a 0 u with
       | Ok (Some len) u' => Ok (Some (a, len)) u'
       | Ok None u' => Ok None u'
       | Panic m => Panic m | Fault m => Fault m | Block c => Block c | NoFuel => NoFuel
       end.
Proof. unfold fetchstr, kbind, gets. destruct (_ <=? _); [done|]. by destruct (fetchstr_loop _ _ _ _) as [[] | | | |]. Qed.

Lemma fetchstr_run a u : PGSIZE <= a ->
  (exists len, string_at u a len /\ fetchstr a u = Ok (Some (a, len)) u) \/
  ((forall len, ~ string_at u a len) /\ fetchstr a u = Ok None u).
Proof.
  intros Ha. rewrite fetchstr_eq. destruct (Z.leb_spec (u_sz u) a) as [Hout|Hin].
  - right. split; [|done]. intros len (H0 & Hlt & _). lia.
  - destruct (fetchstr_loop_run u (Z.to_nat (u_sz u - a)) a 0 Ha) as [(k & Hk & Hz & Hnz & ->)|[Hnz ->]]; [left|right].
    + exists k. rewrite Z.add_0_l. split; [|done]. split_and!; [lia|lia|done|done].
    + split; [|done]. intros len (H0 & Hlt & Hz & _). apply (Hnz len); [lia|done].
Qed.

(** The address of argument [n] on the user's stack. *)
Definition arg_addr (u : ucall) (n : Z) : Z := u32 (u_esp u + 4 + 4 * n).

Lemma argint_run n u : space_ok u -> argint n u = word_result u (arg_addr u n).
Proof. intros Hs. unfold argint, kbind, gets. apply fetchint_run; [done|]. apply u32_range. Qed.

Lemma argptr_run n size u : space_ok u -> - 2 ^ 31 <= size < 2 ^ 31 ->
  let a := arg_addr u n in let x := word_at (u_mem u) a in
  match argptr n size u with
  | Ok (inr p) u' => u' = u /\ p = x /\ PGSIZE <= p /\ 0 <= size /\ p + size <= u_sz u
  | Ok (inl e) _ => (e = -1 /\ (u_sz u < a + 4 \/ size < 0 \/ u_sz u <= x \/ u_sz u < x + size)) \/ (e = -2 /\ x < PGSIZE)
  | Panic m => m = "trap"%string /\ a < PGSIZE
  | _ => False
  end.
Proof.
  intros Hs Hsize a x. assert (- 2 ^ 31 <= x < 2 ^ 31) as Hx by apply s32_range.
  pose proof (argint_run n (set_log false u) Hs) as Hai. change (arg_addr (set_log false u) n) with a in Hai.
  unfold argptr. unfold kbind at 1, gets at 1. unfold kbind at 1, modify at 1. unfold kbind at 1. rewrite Hai. unfold word_result. cbn [u_sz u_mem set_log].
  destruct (decide (a + 4 <= u_sz u)) as [Hin|Hout]; [|cbn; left; split; [done|lia]]. destruct (decide (a < PGSIZE)) as [Hlow|Hok]; [done|]. fold x.
  destruct (Z.ltb_spec x PGSIZE) as [Hxl|Hxh]; [cbn; by right|]. unfold kbind, modify, gets. cbn [u_sz set_log].
  unfold PGSIZE, space_ok in *. rewrite (u32_id x) by lia.
  destruct (Z.ltb_spec size 0) as [H0|H0]; [cbn; left; split; [done|lia]|]. rewrite (u32_id (x + size)) by lia.
  destruct (Z.leb_spec (u_sz u) x) as [H1|H1]; [cbn; left; split; [done|lia]|].
  destruct (Z.ltb_spec (u_sz u) (x + size)) as [H2|H2]; [cbn; left; split; [done|lia]|].
  cbn. split; [by destruct u|]. split_and!; done.
Qed.

Lemma argstr_run n u : space_ok u ->
  let a := arg_addr u n in let x := u32 (word_at (u_mem u) a) in
  match argstr n u with
  | Ok (Some (p, len)) u' => u' = u /\ p = x /\ PGSIZE <= p /\ string_at u p len
  | Ok None u' => u' = u /\ (u_sz u < a + 4 \/ u_sz u <= x \/ forall len, ~ string_at u x len)
  | Panic m => m = "trap"%string /\ (a < PGSIZE \/ x < PGSIZE)
  | _ => False
  end.
Proof.
  intros Hs a x. unfold argstr, kbind. rewrite (argint_run n u Hs). unfold word_result. fold a.
  destruct (decide (a + 4 <= u_sz u)) as [Hin|Hout]; [|split; [done|lia]]. destruct (decide (a < PGSIZE)) as [Hlow|Hok]; [by auto|]. fold x.
  destruct (Z.lt_ge_cases x PGSIZE) as [Hxl|Hxh].
  - rewrite fetchstr_eq. destruct (Z.leb_spec (u_sz u) x) as [Hs'|Hs']; [by auto|].
    replace (Z.to_nat (u_sz u - x)) with (S (Z.to_nat (u_sz u - x - 1))) by lia.
    cbn [fetchstr_loop]. unfold kbind. rewrite user_byte_low by done. auto.
  - destruct (fetchstr_run x u Hxh) as [(len & Hstr & ->)|[Hno ->]]; [done|]. auto.
Qed.


(** A process that has grown by [sbrk(0x7fffe000)] to 0x80001000 bytes: a
    pointer to two pages, the second in the kernel's memory, is accepted. *)
Lemma argptr_accepts_kernel m : m 0x1f04 = 0 -> m 0x1f05 = 0xf0 -> m 0x1f06 = 0xff -> m 0x1f07 = 0x7f ->
  argptr 0 0x2000 (mk_ucall m 0x80001000 0x1f00 false) = Ok (inr 0x7ffff000) (mk_ucall m 0x80001000 0x1f00 false).
Proof.
  intros H0 H1 H2 H3. pose proof (argptr_run 0 0x2000 (mk_ucall m 0x80001000 0x1f00 false) ltac:(split; cbn; lia) ltac:(lia)) as H.
  assert (word_at m 0x1f04 = 0x7ffff000) as E.
  { unfold word_at. change (0x1f04 + 1) with 0x1f05. change (0x1f04 + 2) with 0x1f06. change (0x1f04 + 3) with 0x1f07. by rewrite H0, H1, H2, H3. }
  cbv zeta in H. cbn [u_mem u_sz] in H. change (arg_addr (mk_ucall m 0x80001000 0x1f00 false) 0) with 0x1f04 in H. rewrite E in H.
  destruct (argptr _ _ _) as [[e|p] u'| | | |]; [|destruct H as (-> & -> & _); done|..]; exfalso; unfold PGSIZE in H; try lia; naive_solver lia.
Qed.

(** A process of two pages that calls [write(1, "hi", 2)]: the string is at
    0x1800, the stack pointer at 0x1f00. *)
Definition demo_mem (a : Z) : Z :=
  if a =? 0x1800 then 104 else if a =? 0x1801 then 105
  else if a =? 0x1f04 then 1 else if a =? 0x1f09 then 0x18 else if a =? 0x1f0c then 2 else 0.
Definition demo_call : ucall := mk_ucall demo_mem 0x2000 0x1f00 false.


(** A null pointer as a path: the kernel reads it and panics. *)
Lemma argstr_null_panics : argstr 0 (mk_ucall (fun _ => 0) 0x2000 0x1f00 false) = Panic "trap".
Proof. vm_compute. reflexivity. Qed.

(** A pointer that [argptr] refuses with -2 leaves the log switched off. *)
Lemma argptr_loses_log : argptr 0 4 (mk_ucall (fun _ => 0) 0x2000 0x1f00 true) = Ok (inl (-2)) (mk_ucall (fun _ => 0) 0x2000 0x1f00 false).
Proof. vm_compute. reflexivity. Qed.

(** ** The strings passed to exec *)

Lemma fetchstr_some a u p len u' : space_ok u -> fetchstr a u = Ok (Some (p, len)) u' -> p = a /\ u' = u /\ PGSIZE <= a /\ string_at u a len.
Proof.
  intros Hs E. destruct (Z.lt_ge_cases a PGSIZE) as [Hlow|Hok].
  - exfalso. rewrite fetchstr_eq in E. destruct (Z.leb_spec (u_sz u) a) as [|Hlt]; [done|].
    replace (Z.to_nat (u_sz u - a)) with (S (Z.to_nat (u_sz u - a - 1))) in E by lia.
    cbn [fetchstr_loop] in E. unfold kbind, user_byte in E. by rewrite (proj2 (Z.ltb_lt _ _) Hlow) in E.
  - destruct (fetchstr_run a u Hok) as [(l & Hstr & E')|[_ E']]; rewrite E' in E; [|done]. injection E as <- <- <-. done.
Qed.

Lemma fetchint_state a u x u' : fetchint a u = Ok x u' -> u' = u.
Proof.
  unfold fetchint, user_int, user_byte, kbind, gets. destruct (_ || _); [by intros [= _ <-]|]. repeat (destruct (_ <? PGSIZE); [done|]). by intros [= _ <-].
Qed.

Lemma exec_args_checked n uargv i argv u argv' u' : space_ok u -> exec_args n uargv i argv u = Ok (Some argv') u' ->
  Forall (fun a => PGSIZE <= a.1 /\ string_at u a.1 a.2) argv ->
  u' = u /\ (length argv' < length argv + n)%nat /\ Forall (fun a => PGSIZE <= a.1 /\ string_at u a.1 a.2) argv'.
Proof.
  intros Hs. revert i argv. induction n as [|n IH]; intros i argv E Hall; cbn [exec_args] in E; [done|].
  apply kbind_ok_inv in E as ([x|] & u1 & E1 & E); [|done]. apply fetchint_state in E1 as ->.
  destruct (u32 x =? 0); [injection E as <- <-; split; [done|]; split; [lia|done]|].
  apply kbind_ok_inv in E as ([[p len]|] & u2 & E2 & E); [|done]. apply fetchstr_some in E2 as (-> & -> & Hp & Hstr); [|done].
  apply IH in E as (-> & Hl & Hall'); [|apply list.Forall_app; split; [done|constructor; [done|constructor]]].
  rewrite length_app in Hl. simpl in Hl. split; [done|]. split; [lia|done].
Qed.

(** ** Sleeping

    [sys_sleep(n)] returns after [n] ticks, also when the tick counter wraps
    around; a negative [n] counts as nearly 2^32 ticks. *)
Lemma sys_sleep_ticks t0 n d : 0 <= n < 2 ^ 31 -> 0 <= d < 2 ^ 32 ->
  sys_sleep_turn false (u32 (t0 + d)) t0 n = if d <? n then SWait else SRet 0.
Proof.
  intros Hn Hd. unfold sys_sleep_turn. rewrite u32_sub_l, Z.add_simpl_l, !u32_id by lia. done.
Qed.
Lemma sys_sleep_negative t0 d : 0 <= d < 2 ^ 32 - 1 -> sys_sleep_turn false (u32 (t0 + d)) t0 (-1) = SWait.
Proof.
  intros Hd. unfold sys_sleep_turn. rewrite u32_sub_l, Z.add_simpl_l, u32_id by lia.
  change (u32 (-1)) with (2 ^ 32 - 1). by rewrite (proj2 (Z.ltb_lt _ _)) by lia.
Qed.
