(* ===== verification/Sysfile.v ===== *)
(** * File descriptors and the system calls on them (sysfile.c)

    Each process has a table of descriptors that refer to entries of the file
    table of [File].  The handlers fetch their arguments as in [Syscall].
    Paths are looked up by the operations of [NameIO]; inodes are those of
    [InodeIO]. *)

From S2P Require Import Prelude Layout Fs Pipe File Bytefile Syscall.

Definition NOFILE : nat := 16.
Definition NPROC : nat := 64.
Definition O_RDONLY : Z := 0x000.
Definition O_WRONLY : Z := 0x001.
Definition O_RDWR : Z := 0x002.
Definition O_CREATE : Z := 0x200.

(** namei, and create(path, T_FILE, 0, 0), which returns its inode locked; and
    whether a locked inode is a directory. *)
Class NameIO (S : Type) := {
  nm_namei : list Z -> M S (option nat);
  nm_create : list Z -> M S (option nat);
  nm_isdir : nat -> M S bool
}.

Record sfs (S : Type) := mk_sfs {
  sf_files : files S;
  sf_procs : list (list (option nat));    (* proc[p].ofile[NOFILE] *)
  sf_user : ucall                         (* the memory and registers of the caller *)
}.
Arguments mk_sfs {S}.
Arguments sf_files {S}.
Arguments sf_procs {S}.
Arguments sf_user {S}.

#[export] Program Instance sfs_files {S} : Sub (files S) (sfs S) := {
  sub_get := sf_files; sub_put := fun f s => mk_sfs f (sf_procs s) (sf_user s) }.
Solve Obligations with (by try intros ? []).
#[export] Program Instance sfs_user {S} : Sub ucall (sfs S) := {
  sub_get := sf_user; sub_put := fun u s => mk_sfs (sf_files s) (sf_procs s) u }.
Solve Obligations with (by try intros ? []).

Section Calls.
Context {S : Type} `{InodeIO S} `{NameIO S}.
Notation T := (M (sfs S)).
Definition uc {A} (c : U A) : T A := lift c.
Definition fl {A} (c : M (files S) A) : T A := lift c.
Definition io {A} (c : M S A) : T A := fl (ino c).

Definition ofile (cur : nat) (s : sfs S) : list (option nat) := default [] (sf_procs s !! cur).
Definition set_ofile (cur fd : nat) (f : option nat) (s : sfs S) : sfs S :=
  mk_sfs (sf_files s) (alter (fun l => <[fd := f]> l) cur (sf_procs s)) (sf_user s).

(** The descriptor and the file. *)
Definition argfd (cur : nat) (n : Z) : T (option (nat * nat)) :=
  fd <- uc (argint n) ;;
  match fd with
  | None => kret None
  | Some fd =>
      s <- kget ;;
      if (fd <? 0) || (Z.of_nat NOFILE <=? fd) then kret None
      else match ofile cur s !! Z.to_nat fd with
           | Some (Some f) => kret (Some (Z.to_nat fd, f))
           | _ => kret None
           end
  end.

Fixpoint find_fd (fd : nat) (l : list (option nat)) : option nat :=
  match l with
  | [] => None
  | None :: _ => Some fd
  | Some _ :: l' => find_fd (Datatypes.S fd) l'
  end.
Definition fdalloc (cur f : nat) : T (option nat) :=
  s <- kget ;;
  match find_fd 0 (ofile cur s) with
  | Some fd => modify (set_ofile cur fd (Some f)) ;;; kret (Some fd)
  | None => kret None
  end.

Definition sys_dup (cur : nat) : T Z :=
  a <- argfd cur 0 ;;
  match a with
  | None => kret (-1)
  | Some (_, f) =>
      fd <- fdalloc cur f ;;
      match fd with
      | None => kret (-1)
      | Some fd => fl (filedup f) ;;; kret (Z.of_nat fd)
      end
  end.

(** The bytes of the caller's memory, and storing bytes there. *)
Definition user_bytes (u : ucall) (p n : Z) : list Z := (fun k => u_mem u (p + k)) <$> seqZ 0 n.
Definition store_user (p : Z) (bs : list Z) (u : ucall) : ucall :=
  set_umem (fun a => if decide (p <= a < p + Z.of_nat (length bs)) then bs !!! Z.to_nat (a - p) else u_mem u a) u.

(** [argfd(0, 0, &f) < 0 || argint(2, &n) < 0 || argptr(1, &p, n) < 0] *)
Definition rw_args (cur : nat) : T (option (nat * Z * Z)) :=
  a <- argfd cur 0 ;;
  match a with
  | None => kret None
  | Some (_, f) =>
      n <- uc (argint 2) ;;
      match n with
      | None => kret None
      | Some n =>
          p <- uc (argptr 1 n) ;;
          match p with
          | inl _ => kret None
          | inr p => kret (Some (f, p, n))
          end
      end
  end.

Definition sys_read (cur : nat) : T Z :=
  a <- rw_args cur ;;
  match a with
  | None => kret (-1)
  | Some (f, p, n) =>
      r <- fl (fileread f n) ;;
      match r with
      | None => kret (-1)
      | Some bs => uc (modify (store_user p bs)) ;;; kret (Z.of_nat (length bs))
      end
  end.

Definition sys_write (cur : nat) : T Z :=
  a <- rw_args cur ;;
  match a with
  | None => kret (-1)
  | Some (f, p, n) => s <- kget ;; fl (filewrite f (user_bytes (sf_user s) p n))
  end.

Definition sys_close (cur : nat) : T Z :=
  a <- argfd cur 0 ;;
  match a with
  | None => kret (-1)
  | Some (fd, f) => modify (set_ofile cur fd None) ;;; fl (fileclose f) ;;; kret 0
  end.

(** [struct stat]: the fields at offsets 0, 4, 8, 12 and 16. *)
Definition le (n : nat) (x : Z) : list Z := (fun k => Z.shiftr x (8 * k) mod 2 ^ 8) <$> seqZ 0 (Z.of_nat n).
Definition store_stat (p : Z) (st : stat) (u : ucall) : ucall :=
  store_user (p + 16) (le 4 (st_size st)) (store_user (p + 12) (le 2 (st_nlink st))
    (store_user (p + 8) (le 4 (st_ino st)) (store_user (p + 4) (le 4 (st_dev st)) (store_user p (le 2 (st_type st)) u)))).

Definition sys_fstat (cur : nat) : T Z :=
  a <- argfd cur 0 ;;
  match a with
  | None => kret (-1)
  | Some (_, f) =>
      p <- uc (argptr 1 20) ;;
      match p with
      | inl _ => kret (-1)
      | inr p =>
          st <- fl (filestat f) ;;
          match st with
          | None => kret (-1)
          | Some st => uc (modify (store_stat p st)) ;;; kret 0
          end
      end
  end.

Definition iunlockput_ (ip : nat) : T unit := io (ii_unlock ip) ;;; io (ii_put ip).

(** The inode that sys_open opens, locked; or nothing, the transaction ended. *)
Definition open_inode (path : list Z) (omode : Z) : T (option nat) :=
  io ii_begin ;;;
  if negb (Z.land omode O_CREATE =? 0) then
    ip <- io (nm_create path) ;;
    match ip with
    | None => io ii_end ;;; kret None
    | Some ip => kret (Some ip)
    end
  else
    ip <- io (nm_namei path) ;;
    match ip with
    | None => io ii_end ;;; kret None
    | Some ip =>
        io (ii_lock ip) ;;;
        d <- io (nm_isdir ip) ;;
        if d && negb (omode =? O_RDONLY) then iunlockput_ ip ;;; io ii_end ;;; kret None
        else kret (Some ip)
    end.

Definition sys_open (cur : nat) : T Z :=
  a <- uc (argstr 0) ;;
  match a with
  | None => kret (-1)
  | Some (p, len) =>
      m <- uc (argint 1) ;;
      match m with
      | None => kret (-1)
      | Some omode =>
          s <- kget ;;
          i <- open_inode (user_bytes (sf_user s) p len) omode ;;
          match i with
          | None => kret (-1)
          | Some ip =>
              f <- fl filealloc ;;
              match f with
              | None => iunlockput_ ip ;;; io ii_end ;;; kret (-1)
              | Some f =>
                  fd <- fdalloc cur f ;;
                  match fd with
                  | None => fl (fileclose f) ;;; iunlockput_ ip ;;; io ii_end ;;; kret (-1)
                  | Some fd =>
                      io (ii_unlock ip) ;;;
                      io ii_end ;;;
                      fl (putf f (fun x => mk_file FD_INODE (f_ref x) (Z.land omode O_WRONLY =? 0)
                                    (negb (Z.land omode O_WRONLY =? 0) || negb (Z.land omode O_RDWR =? 0))
                                    (f_pipe x) ip 0)) ;;;
                      kret (Z.of_nat fd)
                  end
              end
          end
      end
  end.

Definition sys_pipe (cur : nat) : T Z :=
  p <- uc (argptr 0 8) ;;
  match p with
  | inl _ => kret (-1)
  | inr p =>
      r <- fl pipealloc ;;
      match r with
      | None => kret (-1)
      | Some (rf, wf) =>
          fd0 <- fdalloc cur rf ;;
          match fd0 with
          | None => fl (fileclose rf) ;;; fl (fileclose wf) ;;; kret (-1)
          | Some fd0 =>
              fd1 <- fdalloc cur wf ;;
              match fd1 with
              | None =>
                  modify (set_ofile cur fd0 None) ;;;
                  fl (fileclose rf) ;;; fl (fileclose wf) ;;; kret (-1)
              | Some fd1 =>
                  uc (modify (store_user p (le 4 (Z.of_nat fd0) ++ le 4 (Z.of_nat fd1)))) ;;;
                  kret 0
              end
          end
      end
  end.

(** The loops of fork and of exit over the descriptors. *)
Fixpoint dup_fds (k : nat) (cur child : nat) (i : nat) : T unit :=
  match k with
  | O => kret tt
  | Datatypes.S k' =>
      s <- kget ;;
      (match ofile cur s !! i with
       | Some (Some f) => g <- fl (filedup f) ;; modify (set_ofile child i (Some g))
       | _ => kret tt
       end) ;;;
      dup_fds k' cur child (Datatypes.S i)
  end.
Definition fork_fds (cur child : nat) : T unit := dup_fds NOFILE cur child 0.

Fixpoint close_fds (k : nat) (cur : nat) (fd : nat) : T unit :=
  match k with
  | O => kret tt
  | Datatypes.S k' =>
      s <- kget ;;
      (match ofile cur s !! fd with
       | Some (Some f) => fl (fileclose f) ;;; modify (set_ofile cur fd None)
       | _ => kret tt
       end) ;;;
      close_fds k' cur (Datatypes.S fd)
  end.
Definition exit_fds (cur : nat) : T unit := close_fds NOFILE cur 0.
End Calls.
