(* ===== verification/Fdspec.v ===== *)
(** * Descriptors and reference counts (sysfile.c, file.c)

    The file table counts the descriptors that refer to each open file; a file,
    and the end of a pipe behind it, is closed exactly when its last
    descriptor goes away.  The inode layer below is any that keeps the
    promises of [InodeLaws]; its calls may sleep and may panic. *)

From stdpp Require Import functions.
From S2P Require Import Prelude Layout Fs Pipe File Bytefile Filesim Syscall Sysfile.

(** The panics of file.c and of its locks. *)
Definition file_panics : list string :=
  ["filedup"; "fileclose"; "fileread"; "filewrite"; "short filewrite"; "acquire"; "release"]%string.

(** [may c Q s]: from [s], [c] returns with [Q], or sleeps, or stops in the
    inode layer, or stops at a bad pointer of the caller. *)
Definition may `{FsStops} {S A : Type} (c : M S A) (Q : A -> S -> Prop) (s : S) : Prop :=
  match c s with
  | Ok a s' => Q a s'
  | Block _ => True
  | Panic m => m = "trap"%string \/ fs_stop m
  | Fault m => fs_stop m
  | NoFuel => False
  end.

(** What is assumed of the inode layer: from a state that satisfies [J], a call
    that returns does so in such a state, and a write is refused or complete.
    The calls may sleep, and may panic or fault, but not with file.c's own
    messages. *)
Class InodeLaws {S : Type} `{FsStops} `{InodeIO S} `{NameIO S} (J : S -> Prop) := {
  il_own : forall m, fs_stop m -> m ∉ file_panics;
  il_begin : forall s, J s -> may ii_begin (fun _ => J) s;
  il_end : forall s, J s -> may ii_end (fun _ => J) s;
  il_lock : forall i s, J s -> may (ii_lock i) (fun _ => J) s;
  il_unlock : forall i s, J s -> may (ii_unlock i) (fun _ => J) s;
  il_stat : forall i s, J s -> may (ii_stat i) (fun _ => J) s;
  il_read : forall i o n s, J s -> may (ii_read i o n) (fun _ => J) s;
  il_write : forall i bs o s, J s -> may (ii_write i bs o) (fun r s' => J s' /\ (r = None \/ r = Some (Z.of_nat (length bs)))) s;
  il_put : forall i s, J s -> may (ii_put i) (fun _ => J) s;
  il_kalloc : forall s, J s -> may ii_kalloc (fun _ => J) s;
  il_kfree : forall s, J s -> may ii_kfree (fun _ => J) s;
  il_namei : forall p s, J s -> may (nm_namei p) (fun _ => J) s;
  il_create : forall p s, J s -> may (nm_create p) (fun _ => J) s;
  il_isdir : forall i s, J s -> may (nm_isdir i) (fun _ => J) s
}.

Section May.
Context `{FsStops} {S A : Type}.
Lemma wp_may (c : M S A) Q s : wp c Q s -> may c Q s.
Proof. unfold wp, may. by destruct (c s). Qed.
Lemma may_mono (c : M S A) (Q Q' : A -> S -> Prop) s : may c Q s -> (forall a s', Q a s' -> Q' a s') -> may c Q' s.
Proof. unfold may. destruct (c s); auto. Qed.
Lemma may_bind_wp {B} (c : M S A) (f : A -> M S B) Q s : wp c (fun a s' => may (f a) Q s') s -> may (kbind c f) Q s.
Proof. unfold wp, may, kbind. by destruct (c s). Qed.
Lemma may_bind {B} (c : M S A) (f : A -> M S B) Q s : may c (fun a s' => may (f a) Q s') s -> may (kbind c f) Q s.
Proof. unfold may, kbind. by destruct (c s). Qed.
Lemma may_ret (a : A) (Q : A -> S -> Prop) s : Q a s -> may (kret a) Q s.
Proof. done. Qed.
Lemma may_lift {T} `{Sub S T} (c : M S A) (Q : A -> T -> Prop) t :
  may c (fun a s => Q a (sub_put s t)) (sub_get t) -> may (lift c) Q t.
Proof. unfold may, lift. by destruct (c (sub_get t)). Qed.
End May.

(** ** The file table *)

(** The ends of pipes: each belongs to one file, which is open exactly as long
    as the pipe says. *)
Record pipes_ok (tb : list file) (ps : list pipe) : Prop := {
  pp_open : forall i f, tb !! i = Some f -> f_type f = FD_PIPE ->
    exists p, ps !! f_pipe f = Some p /\ (if f_writable f then writeopen p else readopen p) = true;
  pp_one : forall i j f g, tb !! i = Some f -> tb !! j = Some g -> f_type f = FD_PIPE -> f_type g = FD_PIPE ->
    f_pipe f = f_pipe g -> f_writable f = f_writable g -> i = j;
  pp_end : forall k p (w : bool), ps !! k = Some p -> (if w then writeopen p else readopen p) = true ->
    exists i f, tb !! i = Some f /\ f_type f = FD_PIPE /\ f_pipe f = k /\ f_writable f = w
}.

(** [n i] references to file [i]; [R] are files that have been allocated and
    not yet set up. *)
Record files_ok {S : Type} (J : S -> Prop) (n : nat -> nat) (R : list nat) (s : files S) : Prop := {
  fo_ref : forall i f, fl_table s !! i = Some f -> f_ref f = Z.of_nat (n i);
  fo_free : forall i f, fl_table s !! i = Some f -> n i = 0%nat -> f_type f = FD_NONE;
  fo_raw : forall i f, fl_table s !! i = Some f -> n i <> 0%nat -> f_type f = FD_NONE -> i ∈ R;
  fo_set : forall i f, fl_table s !! i = Some f -> i ∈ R -> f_type f = FD_NONE;
  fo_used : forall i, i ∈ R -> n i <> 0%nat;
  fo_in : forall i, n i <> 0%nat -> (i < length (fl_table s))%nat;
  fo_bound : forall i, (n i <= 2000)%nat;
  fo_pipes : pipes_ok (fl_table s) (fl_pipes s);
  fo_lock : "ftable" ∉ fl_held s;
  fo_inodes : J (fl_inodes s)
}.

Section Files.
Context {S : Type} `{FP : FsStops} `{HI : InodeIO S} `{HN : NameIO S} (J : S -> Prop) {HL : InodeLaws J}.
Implicit Types (s : files S) (n : nat -> nat) (R : list nat).

(** Inode operations leave the table alone. *)
Lemma may_ino {A} (c : M S A) (P : A -> S -> Prop) (Q : A -> files S -> Prop) s n R :
  files_ok J n R s -> (forall x, J x -> may c P x) -> (forall a x, P a x -> J x) ->
  (forall a s', P a (fl_inodes s') -> files_ok J n R s' -> fl_table s' = fl_table s -> fl_pipes s' = fl_pipes s -> Q a s') ->
  may (ino c) Q s.
Proof.
  intros Hok Hc HJ HQ. unfold ino. apply may_lift. specialize (Hc (fl_inodes s) (fo_inodes _ _ _ _ Hok)).
  unfold may in *. cbn [sub_get files_sub]. destruct (c (fl_inodes s)) as [a x| | | |]; try done. apply HQ; try done.
  destruct Hok; split; try done. cbn. by eapply HJ.
Qed.

Lemma may_inoJ {A} (c : M S A) (Q : A -> files S -> Prop) s n R :
  files_ok J n R s -> (forall x, J x -> may c (fun _ => J) x) ->
  (forall a s', files_ok J n R s' -> fl_table s' = fl_table s -> fl_pipes s' = fl_pipes s -> Q a s') -> may (ino c) Q s.
Proof. intros Hok Hc HQ. eapply may_ino; [done|exact Hc|done|]. intros a s' _. apply HQ. Qed.

Lemma wp_getf i f (Q : file -> files S -> Prop) s : fl_table s !! i = Some f -> Q f s -> wp (getf i) Q s.
Proof. intros Hf HQ. unfold getf, wp, kbind, kget, deref. by rewrite Hf. Qed.

Lemma wp_putf i g f (Q : unit -> files S -> Prop) s : fl_table s !! i = Some f ->
  Q tt (set_table (<[i := g f]> (fl_table s)) s) -> wp (putf i g) Q s.
Proof. intros Hf HQ. unfold putf. apply wp_bind. eapply wp_getf; [exact Hf|]. done. Qed.

(** Between acquire and release of the table's lock. *)
Lemma wp_ftable {A} (c : M (files S) A) (Q : A -> files S -> Prop) s : "ftable" ∉ fl_held s ->
  wp c Q (set_fl_held ({["ftable"]} ∪ fl_held s) s) -> wp (acquire "ftable" ;;; c) Q s.
Proof. intros Hh Hc. apply wp_bind, wp_acquire; [done|]. exact Hc. Qed.

Lemma may_ftable {A} (c : M (files S) A) (Q : A -> files S -> Prop) s : "ftable" ∉ fl_held s ->
  may c Q (set_fl_held ({["ftable"]} ∪ fl_held s) s) -> may (acquire "ftable" ;;; c) Q s.
Proof. intros Hh Hc. apply may_bind_wp, wp_acquire; [done|]. exact Hc. Qed.

Lemma wp_unlock (Q : unit -> files S -> Prop) s h : fl_held s = {["ftable"]} ∪ h -> "ftable" ∉ h ->
  Q tt (set_fl_held h s) -> wp (release "ftable") Q s.
Proof.
  intros Hs Hh HQ. apply wp_release; cbn; [rewrite Hs; set_solver|]. rewrite Hs, held_cycle by done. exact HQ.
Qed.

(** Replacing one entry of the table, and the number of its references. *)
Lemma files_ok_put n R R' s i f f' k ps' h : files_ok J n R s -> fl_table s !! i = Some f ->
  f_ref f' = Z.of_nat k -> (k <= 2000)%nat -> (k = 0%nat -> f_type f' = FD_NONE) ->
  (k <> 0%nat -> f_type f' = FD_NONE -> i ∈ R') -> (i ∈ R' -> f_type f' = FD_NONE /\ k <> 0%nat) -> (forall j, j <> i -> j ∈ R' <-> j ∈ R) ->
  pipes_ok (<[i := f']> (fl_table s)) ps' -> "ftable" ∉ h ->
  files_ok J (<[i := k]> n) R' (mk_files (<[i := f']> (fl_table s)) ps' (fl_inodes s) h).
Proof.
  intros [Hr Hf Hraw Hset Hus Hin Hb Hp Hl Hj] Hi Href Hk Hk0 Hk1 HR Hother Hp' Hh.
  assert (forall j g, <[i := f']> (fl_table s) !! j = Some g -> (j = i /\ g = f') \/ (j <> i /\ fl_table s !! j = Some g)) as Hlook.
  { intros j g. destruct (decide (i = j)) as [<-|Hne]; [|rewrite list_lookup_insert_ne by done; by right].
    rewrite list_lookup_insert_eq by (by eapply lookup_lt_Some). intros [= <-]. by left. }
  split; cbn [fl_table fl_pipes fl_held fl_inodes]; try done.
  - intros j g [[-> ->]|[Hne Hg]]%Hlook; [by rewrite fn_lookup_insert|]. rewrite fn_lookup_insert_ne by done. by apply Hr.
  - intros j g [[-> ->]|[Hne Hg]]%Hlook; [by rewrite fn_lookup_insert|]. rewrite fn_lookup_insert_ne by done. by apply Hf.
  - intros j g [[-> ->]|[Hne Hg]]%Hlook; [by rewrite fn_lookup_insert|]. rewrite fn_lookup_insert_ne by done.
    intros H1 H2. apply Hother; [done|]. by eapply Hraw.
  - intros j g [[-> ->]|[Hne Hg]]%Hlook; [by intros [? _]%HR|]. intros Hj'. eapply Hset; [done|]. by apply Hother.
  - intros j Hj'. destruct (decide (i = j)) as [<-|Hne]; [rewrite fn_lookup_insert; by apply HR|]. rewrite fn_lookup_insert_ne by done.
    apply Hus. by apply Hother.
  - intros j. rewrite length_insert. destruct (decide (i = j)) as [<-|Hne]; [intros _; by eapply lookup_lt_Some|].
    rewrite fn_lookup_insert_ne by done. apply Hin.
  - intros j. destruct (decide (i = j)) as [<-|Hne]; [by rewrite fn_lookup_insert|]. rewrite fn_lookup_insert_ne by done. apply Hb.
Qed.

(** The pipes do not see a change of an entry that keeps its type, pipe and
    direction, or of an entry that is no end of a pipe. *)
Lemma pipes_same tb ps i f f' : pipes_ok tb ps -> tb !! i = Some f ->
  (f_type f' = f_type f /\ f_pipe f' = f_pipe f /\ f_writable f' = f_writable f) \/ (f_type f <> FD_PIPE /\ f_type f' <> FD_PIPE) ->
  pipes_ok (<[i := f']> tb) ps.
Proof.
  intros [Ho H1 He] Hi Hsame.
  assert (forall j g, <[i := f']> tb !! j = Some g -> f_type g = FD_PIPE ->
    exists g', tb !! j = Some g' /\ f_type g' = FD_PIPE /\ f_pipe g' = f_pipe g /\ f_writable g' = f_writable g) as Hback.
  { intros j g. destruct (decide (i = j)) as [<-|Hne]; [|rewrite list_lookup_insert_ne by done; by eauto].
    rewrite list_lookup_insert_eq by (by eapply lookup_lt_Some). intros [= <-] Ht. exists f. destruct Hsame as [(E1 & E2 & E3)|[_ ?]]; [|done].
    split_and!; congruence. }
  split.
  - intros j g Hg Ht. destruct (Hback j g Hg Ht) as (g' & Hg' & Ht' & <- & <-). by eapply Ho.
  - intros j j' g g' Hg Hg' Ht Ht' Ep Ew. destruct (Hback j g Hg Ht) as (x & Hx & Tx & Px & Wx), (Hback j' g' Hg' Ht') as (y & Hy & Ty & Py & Wy).
    eapply (H1 j j' x y); try done; congruence.
  - intros k p w Hk Hw. destruct (He k p w Hk Hw) as (j & g & Hg & Ht & Ep & Ew). destruct (decide (i = j)) as [<-|Hne].
    + assert (g = f) as -> by congruence. destruct Hsame as [(E1 & E2 & E3)|[? _]]; [|done]. exists i, f'.
      rewrite list_lookup_insert_eq by (by eapply lookup_lt_Some). split_and!; congruence.
    + exists j, g. by rewrite list_lookup_insert_ne.
Qed.

Lemma fo_lookup n R s i : files_ok J n R s -> n i <> 0%nat -> exists f, fl_table s !! i = Some f /\ f_ref f = Z.of_nat (n i).
Proof.
  intros Hok Hi. destruct (lookup_lt_is_Some_2 (fl_table s) i) as [f Hf]; [by eapply fo_in|]. exists f. split; [done|by eapply fo_ref].
Qed.

Lemma find_free_spec k l i : find_free k l = Some i -> exists f, l !! (i - k)%nat = Some f /\ f_ref f = 0 /\ (k <= i)%nat.
Proof.
  revert k. induction l as [|f l IH]; intros k; simpl; [done|]. destruct (Z.eqb_spec (f_ref f) 0) as [H0|_].
  - intros [= <-]. exists f. rewrite Nat.sub_diag. done.
  - intros (g & Hg & H0 & Hk)%IH. exists g. replace (i - k)%nat with (Datatypes.S (i - Datatypes.S k)) by lia. split_and!; [done|done|lia].
Qed.

Lemma filealloc_wp n R s (Q : option nat -> files S -> Prop) : files_ok J n R s -> Q None s ->
  (forall i s', n i = 0%nat -> i ∉ R -> (i < length (fl_table s))%nat -> files_ok J (<[i := 1%nat]> n) (i :: R) s' -> fl_pipes s' = fl_pipes s -> Q (Some i) s') ->
  wp filealloc Q s.
Proof.
  intros Hok HN' HQ. unfold filealloc. apply wp_ftable; [apply (fo_lock _ _ _ _ Hok)|].
  apply wp_bind, wp_gets. cbn [fl_table set_fl_held]. destruct (find_free 0 (fl_table s)) as [i|] eqn:E.
  - apply find_free_spec in E as (f & Hf & H0 & _). rewrite Nat.sub_0_r in Hf.
    assert (n i = 0%nat) as Hn by (pose proof (fo_ref _ _ _ _ Hok i f Hf); lia).
    apply wp_bind. eapply wp_putf; [exact Hf|]. apply wp_bind. eapply wp_unlock; [done|apply (fo_lock _ _ _ _ Hok)|]. apply wp_ret.
    pose proof (fo_free _ _ _ _ Hok i f Hf Hn) as Ht.
    apply HQ; [done|by intros ?%(fo_used _ _ _ _ Hok)|by eapply lookup_lt_Some| |done].
    eapply (files_ok_put n R (i :: R) s i f (set_f_ref 1 f) 1 (fl_pipes s) (fl_held s)); try done.
    + lia.
    + intros _ _. by left.
    + intros j Hj. rewrite elem_of_cons. naive_solver.
    + eapply pipes_same; [apply (fo_pipes _ _ _ _ Hok)|exact Hf|]. by left.
    + apply (fo_lock _ _ _ _ Hok).
  - apply wp_bind. eapply wp_unlock; [done|apply (fo_lock _ _ _ _ Hok)|]. apply wp_ret. by destruct s.
Qed.

Lemma filedup_wp n R s i (Q : nat -> files S -> Prop) : files_ok J n R s -> n i <> 0%nat -> (n i < 2000)%nat ->
  (forall s', files_ok J (<[i := Datatypes.S (n i)]> n) R s' -> fl_pipes s' = fl_pipes s -> Q i s') -> wp (filedup i) Q s.
Proof.
  intros Hok Hi Hb HQ. destruct (fo_lookup n R s i Hok Hi) as (f & Hf & Hr). unfold filedup. apply wp_ftable; [apply (fo_lock _ _ _ _ Hok)|].
  apply wp_bind. eapply wp_getf; [exact Hf|]. rewrite (proj2 (Z.ltb_ge _ _)) by lia.
  apply wp_bind. eapply wp_putf; [exact Hf|]. apply wp_bind. eapply wp_unlock; [done|apply (fo_lock _ _ _ _ Hok)|]. apply wp_ret.
  apply HQ; [|done]. eapply (files_ok_put n R R s i f _ _ (fl_pipes s) (fl_held s)); try done.
  - cbn. rewrite Hr, s32_id by lia. lia.
  - intros _ Ht. exact (fo_raw _ _ _ _ Hok i f Hf Hi Ht).
  - intros HR. split; [exact (fo_set _ _ _ _ Hok i f Hf HR)|done].
  - eapply pipes_same; [apply (fo_pipes _ _ _ _ Hok)|exact Hf|]. by left.
  - apply (fo_lock _ _ _ _ Hok).
Qed.

(** The table and the pipes after the last reference to an end of a pipe. *)
Lemma pipes_close tb ps i f f' p : pipes_ok tb ps -> tb !! i = Some f -> f_type f = FD_PIPE -> f_type f' = FD_NONE ->
  ps !! f_pipe f = Some p -> pipes_ok (<[i := f']> tb) (<[f_pipe f := fst (pipeclose (f_writable f) p)]> ps).
Proof.
  intros [Ho H1 He] Hi Ht Ht' Hp. assert (forall j g, <[i := f']> tb !! j = Some g -> f_type g = FD_PIPE -> j <> i /\ tb !! j = Some g) as Hback.
  { intros j g. destruct (decide (i = j)) as [<-|Hne]; [|rewrite list_lookup_insert_ne by done; done].
    rewrite list_lookup_insert_eq by (by eapply lookup_lt_Some). intros [= <-]. congruence. }
  assert (forall w : bool, w <> f_writable f -> (if w then writeopen (fst (pipeclose (f_writable f) p)) else readopen (fst (pipeclose (f_writable f) p))) =
    if w then writeopen p else readopen p) as Hother by (intros [] Hw; destruct (f_writable f); done).
  split.
  - intros j g Hg Htg. destruct (Hback j g Hg Htg) as [Hne Hg']. destruct (Ho j g Hg' Htg) as (q & Hq & Hopen).
    destruct (decide (f_pipe f = f_pipe g)) as [Ep|Hnp]; [|exists q; by rewrite list_lookup_insert_ne].
    exists (fst (pipeclose (f_writable f) p)). rewrite <- Ep, list_lookup_insert_eq by (by eapply lookup_lt_Some). split; [done|].
    assert (q = p) as -> by congruence. rewrite Hother; [done|]. intros Ew. apply Hne. by eapply (H1 j i g f).
  - intros j j' g g' Hg Hg' Htg Htg'. destruct (Hback j g Hg Htg) as [_ Hx], (Hback j' g' Hg' Htg') as [_ Hy]. by eapply H1.
  - intros k q w Hk Hw. destruct (decide (k = f_pipe f)) as [->|Hnk].
    + rewrite list_lookup_insert_eq in Hk by (by eapply lookup_lt_Some). injection Hk as <-.
      assert (w <> f_writable f) as Hne by (intros ->; by destruct (f_writable f)). rewrite Hother in Hw by done.
      destruct (He _ p w Hp Hw) as (j & g & Hg & Htg & Ep & Ew). exists j, g. rewrite list_lookup_insert_ne; [done|]. intros <-. congruence.
    + rewrite list_lookup_insert_ne in Hk by done. destruct (He _ q w Hk Hw) as (j & g & Hg & Htg & Ep & Ew). exists j, g.
      rewrite list_lookup_insert_ne; [done|]. intros <-. congruence.
Qed.

Definition drop_raw (n : nat -> nat) (i : nat) (R : list nat) : list nat :=
  if decide (n i = 1%nat) then filter (fun j => j <> i) R else R.

Lemma drop_raw_nil n i : drop_raw n i [] = [].
Proof. unfold drop_raw. by destruct (decide _). Qed.

Lemma fileclose_may n R s i (Q : unit -> files S -> Prop) : files_ok J n R s -> n i <> 0%nat ->
  (forall s', files_ok J (<[i := pred (n i)]> n) (drop_raw n i R) s' -> Q tt s') -> may (fileclose i) Q s.
Proof.
  intros Hok Hi HQ. destruct (fo_lookup n R s i Hok Hi) as (f & Hf & Hr). pose proof (fo_bound _ _ _ _ Hok i) as Hb.
  unfold fileclose. apply may_ftable; [apply (fo_lock _ _ _ _ Hok)|]. apply may_bind_wp. eapply wp_getf; [exact Hf|].
  rewrite (proj2 (Z.ltb_ge _ _)) by lia. apply may_bind_wp. eapply wp_putf; [exact Hf|].
  destruct (Z.ltb_spec 0 (f_ref f - 1)) as [Hmore|Hlast].
  - apply wp_may. eapply wp_unlock; [done|apply (fo_lock _ _ _ _ Hok)|]. apply HQ. unfold drop_raw. rewrite decide_False by lia.
    eapply (files_ok_put n R R s i f _ _ (fl_pipes s) (fl_held s)); try done.
    + cbn. lia.
    + lia.
    + cbn. lia.
    + intros _ Ht. exact (fo_raw _ _ _ _ Hok i f Hf Hi Ht).
    + intros HR. split; [exact (fo_set _ _ _ _ Hok i f Hf HR)|lia].
    + eapply pipes_same; [apply (fo_pipes _ _ _ _ Hok)|exact Hf|]. by left.
    + apply (fo_lock _ _ _ _ Hok).
  - assert (n i = 1%nat) as H1 by lia. cbn [set_table fl_table].
    set (ff := set_f_ref (f_ref f - 1) f). assert (forall x, <[i := x]> (fl_table s) !! i = Some x) as Hlook
      by (intros x; apply list_lookup_insert_eq; by eapply lookup_lt_Some).
    apply may_bind_wp. eapply (wp_getf i ff); [apply Hlook|]. apply may_bind_wp. eapply wp_putf; [apply Hlook|]. cbn [set_table fl_table]. rewrite list_insert_insert_eq.
    apply may_bind_wp. eapply wp_putf; [apply Hlook|]. cbn [set_table fl_table]. rewrite list_insert_insert_eq.
    apply may_bind_wp. eapply wp_unlock; [done|apply (fo_lock _ _ _ _ Hok)|].
    set (f' := set_f_type FD_NONE (set_f_ref 0 ff)). change (f_type ff) with (f_type f). change (f_pipe ff) with (f_pipe f).
    change (f_writable ff) with (f_writable f). change (f_ip ff) with (f_ip f).
    assert (forall ps', pipes_ok (<[i := f']> (fl_table s)) ps' ->
      files_ok J (<[i := pred (n i)]> n) (drop_raw n i R) (mk_files (<[i := f']> (fl_table s)) ps' (fl_inodes s) (fl_held s))) as Hdone.
    { intros ps' Hps. unfold drop_raw. rewrite decide_True by done. rewrite H1. eapply (files_ok_put n R _ s i f f' 0 ps'); try done.
      - lia.
      - by intros [? _]%list_elem_of_filter.
      - intros j Hj. rewrite list_elem_of_filter. naive_solver.
      - apply (fo_lock _ _ _ _ Hok). }
    destruct (f_type f) eqn:Ht.
    + apply may_ret, HQ, Hdone. eapply pipes_same; [apply (fo_pipes _ _ _ _ Hok)|exact Hf|]. right. by rewrite Ht.
    + destruct (pp_open _ _ (fo_pipes _ _ _ _ Hok) i f Hf Ht) as (p & Hp & _).
      pose proof (pipes_close _ _ i f f' p (fo_pipes _ _ _ _ Hok) Hf Ht eq_refl Hp) as Hps. specialize (Hdone _ Hps).
      unfold close_pipe. apply may_bind_wp. unfold getpipe. apply wp_bind, wp_get. eapply wp_deref; [exact Hp|].
      destruct (pipeclose (f_writable f) p) as [q freed]. cbn [fst] in Hdone. apply may_bind_wp, wp_modify. destruct freed.
      * eapply may_inoJ; [exact Hdone|apply il_kfree|]. intros [] s' Hs' _ _. by apply HQ.
      * apply may_ret, HQ. exact Hdone.
    + assert (files_ok J (<[i := pred (n i)]> n) (drop_raw n i R) (mk_files (<[i := f']> (fl_table s)) (fl_pipes s) (fl_inodes s) (fl_held s))) as Hd1.
      { apply Hdone. eapply pipes_same; [apply (fo_pipes _ _ _ _ Hok)|exact Hf|]. right. by rewrite Ht. }
      apply may_bind. eapply may_inoJ; [exact Hd1|apply il_begin|]. intros [] s1 Hs1 _ _.
      apply may_bind. eapply may_inoJ; [exact Hs1|apply il_put|]. intros [] s2 Hs2 _ _.
      eapply may_inoJ; [exact Hs2|apply il_end|]. intros [] s3 Hs3 _ _. by apply HQ.
Qed.

(** A pipe whose ends stay open or closed. *)
Lemma pipes_flags tb ps k p p' : pipes_ok tb ps -> ps !! k = Some p -> readopen p' = readopen p -> writeopen p' = writeopen p ->
  pipes_ok tb (<[k := p']> ps).
Proof.
  intros [Ho H1 He] Hk Hr Hw. assert (forall j q, <[k := p']> ps !! j = Some q ->
    exists q', ps !! j = Some q' /\ readopen q = readopen q' /\ writeopen q = writeopen q') as Hback.
  { intros j q. destruct (decide (k = j)) as [<-|Hne]; [|rewrite list_lookup_insert_ne by done; by eauto].
    rewrite list_lookup_insert_eq by (by eapply lookup_lt_Some). intros [= <-]. by eauto. }
  split; [|done|].
  - intros i f Hf Ht. destruct (Ho i f Hf Ht) as (q & Hq & Hopen). destruct (decide (k = f_pipe f)) as [->|Hne].
    + exists p'. rewrite list_lookup_insert_eq by (by eapply lookup_lt_Some). split; [done|]. assert (q = p) as -> by congruence. destruct (f_writable f); congruence.
    + exists q. by rewrite list_lookup_insert_ne.
  - intros j q w Hq Hopen. destruct (Hback j q Hq) as (q' & Hq' & E1 & E2). apply (He j q' w Hq'). destruct w; congruence.
Qed.

Lemma piperead_flags killed k p : readopen (fst (piperead killed k p)) = readopen p /\ writeopen (fst (piperead killed k p)) = writeopen p.
Proof.
  unfold piperead. destruct (_ && _); [by destruct killed|].
  assert (forall k p, readopen (fst (piperead_loop k p)) = readopen p /\ writeopen (fst (piperead_loop k p)) = writeopen p) as Hl.
  { clear. intros k. induction k as [|k IH]; intros p; simpl; [done|]. destruct (_ =? _); [done|].
    specialize (IH (drop_byte p)). by destruct (piperead_loop k (drop_byte p)). }
  specialize (Hl k p). by destruct (piperead_loop k p).
Qed.

Lemma pipewrite_flags killed bs p : readopen (fst (pipewrite killed bs p)) = readopen p /\ writeopen (fst (pipewrite killed bs p)) = writeopen p.
Proof.
  unfold pipewrite. generalize (Z.of_nat (length bs)) as m. intros m. revert p. induction bs as [|b bs IH]; intros p; simpl; [done|].
  destruct (_ =? _); [by destruct (_ || _)|]. exact (IH (put_byte b p)).
Qed.

Lemma files_ok_pipe n R s k p p' : files_ok J n R s -> fl_pipes s !! k = Some p -> readopen p' = readopen p -> writeopen p' = writeopen p ->
  files_ok J n R (set_pipes (<[k := p']> (fl_pipes s)) s).
Proof. intros [] Hk Hr Hw. split; try done. by eapply pipes_flags. Qed.

(** Moving the offset. *)
Lemma files_ok_off n R s i f o : files_ok J n R s -> fl_table s !! i = Some f -> files_ok J n R (set_table (<[i := set_f_off o f]> (fl_table s)) s).
Proof.
  intros Hok Hf. pose proof (fo_ref _ _ _ _ Hok i f Hf) as Hr.
  assert (files_ok J (<[i := n i]> n) R (set_table (<[i := set_f_off o f]> (fl_table s)) s)) as Hput.
  { eapply (files_ok_put n R R s i f _ _ (fl_pipes s) (fl_held s)); try done.
    - apply (fo_bound _ _ _ _ Hok).
    - intros H0. exact (fo_free _ _ _ _ Hok i f Hf H0).
    - intros H0 Ht. exact (fo_raw _ _ _ _ Hok i f Hf H0 Ht).
    - intros HR. split; [exact (fo_set _ _ _ _ Hok i f Hf HR)|exact (fo_used _ _ _ _ Hok i HR)].
    - eapply pipes_same; [apply (fo_pipes _ _ _ _ Hok)|exact Hf|]. by left.
    - apply (fo_lock _ _ _ _ Hok). }
  assert (forall j, (<[i := n i]> n) j = n j) as E by (intros j; destruct (decide (i = j)) as [<-|]; [by rewrite fn_lookup_insert|by rewrite fn_lookup_insert_ne]).
  destruct Hput as [A1 A2 A3 A4 A5 A6 A7 A8 A9 A10]. split; try done.
  - intros j g Hg. rewrite <- (E j). by apply A1.
  - intros j g Hg. rewrite <- (E j). by apply A2.
  - intros j g Hg. rewrite <- (E j). by apply A3.
  - intros j Hj. rewrite <- (E j). by apply A5.
  - intros j. rewrite <- (E j). apply A6.
  - intros j. rewrite <- (E j). apply A7.
Qed.

Section Io.
Context (n : nat -> nat) (R : list nat) (i : nat) (Hi : n i <> 0%nat) (HiR : i ∉ R).

Lemma open_type s f : files_ok J n R s -> fl_table s !! i = Some f -> f_type f <> FD_NONE.
Proof. intros Hok Hf Ht. by apply HiR, (fo_raw _ _ _ _ Hok i f). Qed.

Lemma filestat_may s : files_ok J n R s -> may (filestat i) (fun _ => files_ok J n R) s.
Proof.
  intros Hok. destruct (fo_lookup n R s i Hok Hi) as (f & Hf & _). unfold filestat. apply may_bind_wp. eapply wp_getf; [exact Hf|].
  destruct (decide _); [|by apply may_ret]. apply may_bind. eapply may_inoJ; [exact Hok|apply il_lock|]. intros [] s1 Hs1 _ _.
  apply may_bind. eapply may_inoJ; [exact Hs1|apply il_stat|]. intros st s2 Hs2 _ _.
  apply may_bind. eapply may_inoJ; [exact Hs2|apply il_unlock|]. intros [] s3 Hs3 _ _. by apply may_ret.
Qed.

Lemma fileread_may k s : files_ok J n R s -> may (fileread i k) (fun _ => files_ok J n R) s.
Proof.
  intros Hok. destruct (fo_lookup n R s i Hok Hi) as (f & Hf & _). pose proof (open_type s f Hok Hf) as Ht0. unfold fileread.
  apply may_bind, wp_may. eapply wp_getf; [exact Hf|]. destruct (negb (f_readable f)); [by apply may_ret|].
  destruct (f_type f) eqn:Ht; [done| |].
  - destruct (pp_open _ _ (fo_pipes _ _ _ _ Hok) i f Hf Ht) as (p & Hp & _).
    apply may_bind, wp_may. unfold getpipe. apply wp_bind, wp_get. eapply wp_deref; [exact Hp|].
    destruct (piperead_flags false (Z.to_nat k) p) as [E1 E2]. destruct (piperead false (Z.to_nat k) p) as [p' r]. cbn [fst] in *.
    pose proof (files_ok_pipe n R s (f_pipe f) p p' Hok Hp E1 E2) as Hok'.
    apply may_bind, wp_may, wp_modify. destruct r; [by apply may_ret|by apply may_ret|done].
  - apply may_bind. eapply may_inoJ; [exact Hok|apply il_lock|]. intros [] s1 Hs1 Et1 _.
    apply may_bind. eapply may_inoJ; [exact Hs1|apply il_read|]. intros r s2 Hs2 Et2 _. apply may_bind_wp.
    assert (fl_table s2 !! i = Some f) as Hf2 by congruence.
    assert (wp (match r with Some bs => when 0 <? Z.of_nat (length bs) do putf i (set_f_off (u32 (f_off f + Z.of_nat (length bs)))) | None => kret tt end)
      (fun _ => files_ok J n R) s2) as Hmid.
    { destruct r as [bs|]; [|by apply wp_ret]. destruct (_ <? _); [|by apply wp_ret]. eapply wp_putf; [exact Hf2|]. by apply files_ok_off. }
    eapply wp_mono; [exact Hmid|]. intros [] s3 Hs3. apply may_bind. eapply may_inoJ; [exact Hs3|apply il_unlock|]. intros [] s4 Hs4 _ _. by apply may_ret.
Qed.

Lemma filewrite_loop_may fuel bs s : files_ok J n R s -> (length bs < fuel)%nat -> may (filewrite_loop fuel i bs) (fun _ => files_ok J n R) s.
Proof.
  revert bs s. induction fuel as [|fuel IH]; intros bs s Hok Hfuel; [lia|]. cbn [filewrite_loop]. destruct bs as [|b bs]; [by apply may_ret|].
  set (n1 := Z.to_nat (Z.min (Z.of_nat (length (b :: bs))) write_max)).
  assert (0 < n1 <= length (b :: bs))%nat as Hn1 by (unfold n1; rewrite write_max_val; cbn [length]; lia).
  destruct (fo_lookup n R s i Hok Hi) as (f & Hf & _). apply may_bind_wp. eapply wp_getf; [exact Hf|].
  apply may_bind. eapply may_inoJ; [exact Hok|apply il_begin|]. intros [] s1 Hs1 Et1 _.
  apply may_bind. eapply may_inoJ; [exact Hs1|apply il_lock|]. intros [] s2 Hs2 Et2 _.
  apply may_bind. eapply may_ino; [exact Hs2|apply il_write|by intros ? ? []|]. intros r s3 [_ Hr] Hs3 Et3 _.
  assert (fl_table s3 !! i = Some f) as Hf3 by congruence. apply may_bind_wp.
  assert (wp (match r with Some k => when 0 <? k do putf i (set_f_off (u32 (f_off f + k))) | None => kret tt end) (fun _ => files_ok J n R) s3) as Hmid.
  { destruct r as [k|]; [|by apply wp_ret]. destruct (_ <? _); [|by apply wp_ret]. eapply wp_putf; [exact Hf3|]. by apply files_ok_off. }
  eapply wp_mono; [exact Hmid|]. intros [] s4 Hs4. apply may_bind. eapply may_inoJ; [exact Hs4|apply il_unlock|]. intros [] s5 Hs5 _ _.
  apply may_bind. eapply may_inoJ; [exact Hs5|apply il_end|]. intros [] s6 Hs6 _ _.
  destruct Hr as [-> | ->]; [by apply may_ret|]. rewrite length_take, Nat.min_l by lia. rewrite Z.eqb_refl. cbn [negb]. apply IH; [done|].
  rewrite length_drop. lia.
Qed.

Lemma filewrite_may bs s : files_ok J n R s -> may (filewrite i bs) (fun _ => files_ok J n R) s.
Proof.
  intros Hok. destruct (fo_lookup n R s i Hok Hi) as (f & Hf & _). pose proof (open_type s f Hok Hf) as Ht0. unfold filewrite.
  apply may_bind, wp_may. eapply wp_getf; [exact Hf|]. destruct (negb (f_writable f)); [by apply may_ret|].
  destruct (f_type f) eqn:Ht; [done| |].
  - destruct (pp_open _ _ (fo_pipes _ _ _ _ Hok) i f Hf Ht) as (p & Hp & _).
    apply may_bind, wp_may. unfold getpipe. apply wp_bind, wp_get. eapply wp_deref; [exact Hp|].
    destruct (pipewrite_flags false bs p) as [E1 E2]. destruct (pipewrite false bs p) as [p' r]. cbn [fst] in *.
    pose proof (files_ok_pipe n R s (f_pipe f) p p' Hok Hp E1 E2) as Hok'.
    apply may_bind, wp_may, wp_modify. destruct r; [by apply may_ret|by apply may_ret|done].
  - apply may_bind. eapply may_mono; [apply filewrite_loop_may; [exact Hok|lia]|]. intros ok s1 Hs1. by apply may_ret.
Qed.
End Io.

Lemma files_ok_ext n n' R R' s : (forall i, n i = n' i) -> (forall i, i ∈ R <-> i ∈ R') -> files_ok J n R s -> files_ok J n' R' s.
Proof.
  intros En ER [A1 A2 A3 A4 A5 A6 A7 A8 A9 A10]. split; try done.
  - intros j g Hg. rewrite <- (En j). by apply A1.
  - intros j g Hg. rewrite <- (En j). by apply A2.
  - intros j g Hg. rewrite <- (En j), <- (ER j). by apply A3.
  - intros j g Hg. rewrite <- (ER j). by apply A4.
  - intros j. rewrite <- (En j), <- (ER j). apply A5.
  - intros j. rewrite <- (En j). apply A6.
  - intros j. rewrite <- (En j). apply A7.
Qed.

(** A file that was allocated and is closed again. *)
Lemma close_raw n R s i (Q : unit -> files S -> Prop) : files_ok J (<[i := 1%nat]> n) (i :: R) s -> n i = 0%nat -> i ∉ R ->
  (forall s', files_ok J n R s' -> Q tt s') -> may (fileclose i) Q s.
Proof.
  intros Hok Hn HR HQ. eapply fileclose_may; [exact Hok|by rewrite fn_lookup_insert|]. intros s' Hs'. apply HQ. eapply files_ok_ext; [| |exact Hs'].
  - intros j. destruct (decide (i = j)) as [<-|Hne]; [by rewrite !fn_lookup_insert, Hn|by rewrite !fn_lookup_insert_ne].
  - intros j. unfold drop_raw. rewrite fn_lookup_insert, decide_True by done. rewrite list_elem_of_filter, elem_of_cons. set_solver.
Qed.

(** A file that becomes an end of a pipe: of a new pipe with that end only, or
    the second end of such a pipe. *)
Lemma pipes_read_end tb ps i f g page : pipes_ok tb ps -> tb !! i = Some f -> f_type f = FD_NONE ->
  f_type g = FD_PIPE -> f_pipe g = length ps -> f_writable g = false -> pipes_ok (<[i := g]> tb) (ps ++ [mk_pipe page 0 0 true false]).
Proof.
  intros [Ho H1 He] Hi Hf Hg Hp Hw. assert (forall j x, <[i := g]> tb !! j = Some x -> f_type x = FD_PIPE -> (j = i /\ x = g) \/ (j <> i /\ tb !! j = Some x)) as Hback.
  { intros j x. destruct (decide (i = j)) as [<-|Hne]; [|rewrite list_lookup_insert_ne by done; by right].
    rewrite list_lookup_insert_eq by (by eapply lookup_lt_Some). intros [= <-]. by left. }
  assert (forall j x, tb !! j = Some x -> f_type x = FD_PIPE -> (f_pipe x < length ps)%nat) as Hlt.
  { intros j x Hx Ht. destruct (Ho j x Hx Ht) as (p & Hpp & _). by eapply lookup_lt_Some. }
  split.
  - intros j x Hx Ht. destruct (Hback j x Hx Ht) as [[-> ->]|[Hne Hx']].
    + eexists. rewrite Hp, lookup_app_r, Nat.sub_diag by lia. split; [done|]. by rewrite Hw.
    + destruct (Ho j x Hx' Ht) as (p & Hpp & Hopen). exists p. by rewrite lookup_app_l by (by eapply lookup_lt_Some).
  - intros j j' x y Hx Hy Tx Ty Ep Ew. destruct (Hback j x Hx Tx) as [[-> ->]|[Hn1 Hx']], (Hback j' y Hy Ty) as [[-> ->]|[Hn2 Hy']]; [done| | |by eapply H1].
    + pose proof (Hlt _ _ Hy' Ty). lia.
    + pose proof (Hlt _ _ Hx' Tx). lia.
  - intros k p w Hk Hopen. apply lookup_app_Some in Hk as [Hk|[Hk1 Hk2]].
    + destruct (He k p w Hk Hopen) as (j & x & Hx & Tx & Px & Wx). exists j, x. rewrite list_lookup_insert_ne; [done|]. intros <-. congruence.
    + destruct (k - length ps)%nat eqn:Ek; [|done]. injection Hk2 as <-. exists i, g. rewrite list_lookup_insert_eq by (by eapply lookup_lt_Some).
      split_and!; [done|done|lia|by destruct w].
Qed.

Lemma pipes_write_end tb ps i f g k page : pipes_ok tb ps -> tb !! i = Some f -> f_type f = FD_NONE ->
  ps !! k = Some (mk_pipe page 0 0 true false) -> f_type g = FD_PIPE -> f_pipe g = k -> f_writable g = true ->
  pipes_ok (<[i := g]> tb) (<[k := new_pipe page]> ps).
Proof.
  intros [Ho H1 He] Hi Hf Hk Hg Hp Hw. assert (forall j x, <[i := g]> tb !! j = Some x -> f_type x = FD_PIPE -> (j = i /\ x = g) \/ (j <> i /\ tb !! j = Some x)) as Hback.
  { intros j x. destruct (decide (i = j)) as [<-|Hne]; [|rewrite list_lookup_insert_ne by done; by right].
    rewrite list_lookup_insert_eq by (by eapply lookup_lt_Some). intros [= <-]. by left. }
  assert (forall j x, tb !! j = Some x -> f_type x = FD_PIPE -> f_pipe x = k -> f_writable x = false) as Hread.
  { intros j x Hx Ht Ek. destruct (Ho j x Hx Ht) as (p & Hpp & Hopen). rewrite Ek, Hk in Hpp. injection Hpp as <-. by destruct (f_writable x). }
  assert (forall p, <[k := new_pipe page]> ps !! k = Some p -> p = new_pipe page) as Hnew.
  { intros p. rewrite list_lookup_insert_eq by (by eapply lookup_lt_Some). by intros [= <-]. }
  assert (<[k := new_pipe page]> ps !! k = Some (new_pipe page)) as Hk' by (apply list_lookup_insert_eq; by eapply lookup_lt_Some).
  split.
  - intros j x Hx Ht. destruct (Hback j x Hx Ht) as [[-> ->]|[Hne Hx']]; [exists (new_pipe page); rewrite Hp; split; [done|by rewrite Hw]|].
    destruct (decide (f_pipe x = k)) as [Ek|Hnk]; [exists (new_pipe page); rewrite Ek; split; [done|by destruct (f_writable x)]|].
    destruct (Ho j x Hx' Ht) as (p & Hpp & Hopen). exists p. by rewrite list_lookup_insert_ne.
  - intros j j' x y Hx Hy Tx Ty Ep Ew. destruct (Hback j x Hx Tx) as [[-> ->]|[Hn1 Hx']], (Hback j' y Hy Ty) as [[-> ->]|[Hn2 Hy']]; [done| | |by eapply H1].
    + pose proof (Hread _ _ Hy' Ty ltac:(congruence)). congruence.
    + pose proof (Hread _ _ Hx' Tx ltac:(congruence)). congruence.
  - intros k' p w Hp' Hopen. destruct (decide (k' = k)) as [->|Hnk].
    + apply Hnew in Hp' as ->. destruct w; [exists i, g; rewrite list_lookup_insert_eq by (by eapply lookup_lt_Some); done|].
      destruct (He k _ false Hk eq_refl) as (j & x & Hx & Tx & Px & Wx). exists j, x. rewrite list_lookup_insert_ne; [done|]. intros <-. congruence.
    + rewrite list_lookup_insert_ne in Hp' by done. destruct (He k' p w Hp' Hopen) as (j & x & Hx & Tx & Px & Wx). exists j, x.
      rewrite list_lookup_insert_ne; [done|]. intros <-. congruence.
Qed.

Lemma pipealloc_may n R s (Q : option (nat * nat) -> files S -> Prop) : files_ok J n R s ->
  (forall s', files_ok J n R s' -> Q None s') ->
  (forall i0 i1 s', n i0 = 0%nat -> n i1 = 0%nat -> i0 <> i1 -> files_ok J (<[i1 := 1%nat]> (<[i0 := 1%nat]> n)) R s' -> Q (Some (i0, i1)) s') ->
  may pipealloc Q s.
Proof.
  intros Hok HNone HSome. unfold pipealloc. apply may_bind_wp. eapply filealloc_wp; [exact Hok|by apply may_ret, HNone|].
  intros i0 s1 Hn0 HR0 _ Hok1 _. apply may_bind_wp. eapply filealloc_wp; [exact Hok1| |].
  { apply may_bind. eapply close_raw; [exact Hok1|done|done|]. intros s2 Hs2. by apply may_ret, HNone. }
  intros i1 s2 Hn1 HR1 _ Hok2 _. assert (i1 <> i0) as Hne by (intros ->; apply HR1; by left).
  rewrite fn_lookup_insert_ne in Hn1 by done. apply may_bind. eapply may_inoJ; [exact Hok2|apply il_kalloc|].
  intros pg s3 Hok3 _ _. destruct pg as [page|].
  2: { assert (files_ok J (<[i0 := 1%nat]> (<[i1 := 1%nat]> n)) (i0 :: i1 :: R) s3) as Hok3'.
    { eapply files_ok_ext; [| |exact Hok3].
      - intros j. destruct (decide (i0 = j)) as [<-|H0]; [by rewrite fn_lookup_insert, fn_lookup_insert_ne, fn_lookup_insert|].
        rewrite (fn_lookup_insert_ne _ i0 j) by done. destruct (decide (i1 = j)) as [<-|H1]; [by rewrite !fn_lookup_insert|].
        by rewrite !fn_lookup_insert_ne.
      - intros j. rewrite !elem_of_cons. tauto. }
    apply may_bind. eapply close_raw; [exact Hok3'|by rewrite fn_lookup_insert_ne|rewrite elem_of_cons; naive_solver|]. intros s4 Hs4.
    apply may_bind. eapply close_raw; [exact Hs4|done|set_solver|]. intros s5 Hs5. by apply may_ret, HNone. }
  apply may_bind_wp, wp_gets. set (k := length (fl_pipes s3)). apply may_bind_wp, wp_modify.
  destruct (lookup_lt_is_Some_2 (fl_table s3) i0) as [f0 Hf0].
  { eapply fo_in; [exact Hok3|]. rewrite fn_lookup_insert_ne by done. by rewrite fn_lookup_insert. }
  destruct (lookup_lt_is_Some_2 (fl_table s3) i1) as [f1 Hf1]; [eapply fo_in; [exact Hok3|]; by rewrite fn_lookup_insert|].
  assert (f_type f0 = FD_NONE) as Ht0 by (eapply (fo_set _ _ _ _ Hok3); [exact Hf0|]; rewrite !elem_of_cons; tauto).
  assert (f_type f1 = FD_NONE) as Ht1 by (eapply (fo_set _ _ _ _ Hok3); [exact Hf1|]; rewrite !elem_of_cons; tauto).
  pose proof (fo_ref _ _ _ _ Hok3 i0 f0 Hf0) as Hr0. rewrite fn_lookup_insert_ne, fn_lookup_insert in Hr0 by done.
  pose proof (fo_ref _ _ _ _ Hok3 i1 f1 Hf1) as Hr1. rewrite fn_lookup_insert in Hr1.
  set (g0 := mk_file FD_PIPE (f_ref f0) true false k (f_ip f0) (f_off f0)). set (g1 := mk_file FD_PIPE (f_ref f1) false true k (f_ip f1) (f_off f1)).
  apply may_bind_wp. eapply (wp_putf i0 _ f0); [exact Hf0|]. cbn [fl_table set_pipes set_table]. fold g0.
  apply may_bind_wp. eapply (wp_putf i1 _ f1); [cbn [fl_table set_table set_pipes]; by rewrite list_lookup_insert_ne|]. cbn [fl_table set_pipes set_table]. fold g1. apply may_ret.
  apply HSome; [done|done|done|].
  set (fake := fl_pipes s3 ++ [mk_pipe page 0 0 true false]).
  assert (files_ok J (<[i0 := 1%nat]> (<[i1 := 1%nat]> (<[i0 := 1%nat]> n))) (i1 :: R)
    (mk_files (<[i0 := g0]> (fl_table s3)) fake (fl_inodes s3) (fl_held s3))) as Hok4.
  { eapply (files_ok_put _ _ _ s3 i0 f0 g0 1 fake); [exact Hok3|done|done|lia|done|done| | | |apply (fo_lock _ _ _ _ Hok3)].
    - rewrite elem_of_cons. naive_solver.
    - intros j Hj. rewrite !elem_of_cons. naive_solver.
    - by eapply pipes_read_end; [apply (fo_pipes _ _ _ _ Hok3)|exact Hf0|..]. }
  assert (files_ok J (<[i1 := 1%nat]> (<[i0 := 1%nat]> (<[i1 := 1%nat]> (<[i0 := 1%nat]> n)))) R
    (mk_files (<[i1 := g1]> (<[i0 := g0]> (fl_table s3))) (fl_pipes s3 ++ [new_pipe page]) (fl_inodes s3) (fl_held s3))) as Hok5.
  { eapply (files_ok_put _ (i1 :: R) R (mk_files (<[i0 := g0]> (fl_table s3)) fake (fl_inodes s3) (fl_held s3)) i1 f1 g1 1
      (fl_pipes s3 ++ [new_pipe page]) (fl_held s3)); [exact Hok4|transitivity (fl_table s3 !! i1); [by apply list_lookup_insert_ne|done]|done|lia|done|done| | | |apply (fo_lock _ _ _ _ Hok3)].
    - intros Hbad. exfalso. apply HR1. by right.
    - intros j Hj. rewrite elem_of_cons. naive_solver.
    - cbn [fl_table]. assert (fl_pipes s3 ++ [new_pipe page] = <[k := new_pipe page]> fake) as ->.
      { unfold fake, k. rewrite insert_app_r_alt, Nat.sub_diag by lia. done. }
      eapply pipes_write_end; [apply (fo_pipes _ _ _ _ Hok4)|transitivity (fl_table s3 !! i1); [by apply list_lookup_insert_ne|exact Hf1]|done| |done|done|done].
      cbn. unfold fake, k. rewrite lookup_app_r, Nat.sub_diag by lia. done. }
  eapply files_ok_ext; [|done|exact Hok5]. intros j.
  destruct (decide (i1 = j)) as [<-|H1]; [by rewrite !fn_lookup_insert|]. rewrite !(fn_lookup_insert_ne _ i1 j) by done.
  destruct (decide (i0 = j)) as [<-|H0]; [by rewrite !fn_lookup_insert|]. rewrite !(fn_lookup_insert_ne _ i0 j) by done.
  by rewrite fn_lookup_insert_ne, fn_lookup_insert_ne.
Qed.
End Files.

(** ** Counting descriptors *)

Definition refs (procs : list (list (option nat))) (i : nat) : nat := length (filter (fun x => x = Some i) (concat procs)).

Definition is_ref (x : option nat) (i : nat) : nat := if decide (x = Some i) then 1%nat else 0%nat.

Lemma refs_set procs cur row fd old new i : procs !! cur = Some row -> row !! fd = Some old ->
  (refs (alter (fun l => <[fd := new]> l) cur procs) i + is_ref old i = refs procs i + is_ref new i)%nat.
Proof.
  intros Hrow Hold. rewrite <- (take_drop_middle procs cur row Hrow) at 2. unfold refs.
  assert (alter (fun l => <[fd := new]> l) cur procs = take cur procs ++ <[fd := new]> row :: drop (S cur) procs) as ->.
  { rewrite <- (take_drop_middle procs cur row Hrow) at 1. pose proof (lookup_lt_Some _ _ _ Hrow).
    rewrite list_basics.list.alter_app_r_alt by (rewrite length_take; lia). by rewrite length_take, Nat.min_l, Nat.sub_diag by lia. }
  rewrite <- (take_drop_middle row fd old Hold) at 2.
  assert (<[fd := new]> row = take fd row ++ new :: drop (S fd) row) as -> by (apply insert_take_drop; by eapply lookup_lt_Some).
  rewrite !concat_app. cbn [concat]. rewrite !list_basics.list.filter_app, !length_app, !filter_cons.
  unfold is_ref. repeat case_decide; cbn [length]; lia.
Qed.

Lemma refs_bound procs i : Forall (fun row => length row = NOFILE) procs -> (length procs <= NPROC)%nat -> (refs procs i <= 1024)%nat.
Proof.
  intros Hall Hlen. unfold refs. etrans; [apply length_filter|]. enough (length (concat procs) = length procs * 16)%nat by (unfold NPROC in Hlen; lia).
  clear Hlen. induction Hall as [|row procs Hr _ IH]; [done|]. cbn [concat length]. rewrite length_app, IH, Hr. unfold NOFILE. lia.
Qed.

Lemma refs_some procs cur row fd i : procs !! cur = Some row -> row !! fd = Some (Some i) -> refs procs i <> 0%nat.
Proof.
  intros Hrow Hfd. pose proof (refs_set procs cur row fd (Some i) None i Hrow Hfd) as E. unfold is_ref in E.
  rewrite decide_True, decide_False in E by done. lia.
Qed.

(** ** The invariant of the system calls *)

Section Calls.
Context {S : Type} `{FP : FsStops} `{HI : InodeIO S} `{HN : NameIO S} (J : S -> Prop) {HL : InodeLaws J}.
Implicit Types (s : sfs S) (procs : list (list (option nat))).

Definition rows_ok procs : Prop := Forall (fun row => length row = NOFILE) procs /\ (length procs <= NPROC)%nat.

(** Every open file counts exactly the descriptors that refer to it. *)
Definition fds_ok s : Prop := files_ok J (refs (sf_procs s)) [] (sf_files s) /\ rows_ok (sf_procs s).

(** During a call: the counts of the file table, and the descriptors. *)
Definition during (n : nat -> nat) (R : list nat) procs s : Prop := files_ok J n R (sf_files s) /\ sf_procs s = procs.

Lemma fds_done n procs s : during n [] procs s -> (forall i, n i = refs procs i) -> rows_ok procs -> fds_ok s.
Proof.
  intros [Hf <-] Hn Hr. split; [|done]. eapply files_ok_ext; [exact Hn|done|done].
Qed.

Lemma uc_may {A} (c : U A) (P : A -> Prop) n R procs s (Q : A -> sfs S -> Prop) : during n R procs s ->
  may c (fun a _ => P a) (sf_user s) -> (forall a s', P a -> during n R procs s' -> Q a s') -> may (uc c) Q s.
Proof.
  intros [Hf Hp] Hc HQ. unfold uc. apply may_lift. eapply may_mono; [exact Hc|]. intros a u Ha. apply HQ; [done|]. by split.
Qed.

Lemma fl_may {A} (c : M (files S) A) n R procs s (Q : A -> sfs S -> Prop) : during n R procs s ->
  may c (fun a f' => forall s', sf_files s' = f' -> sf_procs s' = procs -> Q a s') (sf_files s) -> may (fl c) Q s.
Proof. intros [Hf Hp] Hc. unfold fl. apply may_lift. eapply may_mono; [exact Hc|]. intros a f' HQ. by apply HQ. Qed.

Lemma io_may {A} (c : M S A) n R procs s (Q : A -> sfs S -> Prop) : during n R procs s -> (forall x, J x -> may c (fun _ => J) x) ->
  (forall a s', during n R procs s' -> Q a s') -> may (io c) Q s.
Proof.
  intros Hd Hc HQ. unfold io. eapply fl_may; [exact Hd|]. eapply may_inoJ; [apply Hd|exact Hc|].
  intros a f' Hf' _ _ s' <- Hs'. by apply HQ.
Qed.

(** Fetching arguments returns, or stops the machine at a bad pointer. *)
Lemma user_byte_may a u : may (user_byte a) (fun _ u' => u' = u) u.
Proof. unfold may, user_byte. destruct (_ <? _); [by left|done]. Qed.

Lemma argint_may n u : may (argint n) (fun _ u' => u' = u) u.
Proof.
  unfold argint. apply may_bind. unfold gets, may at 1. unfold fetchint. apply may_bind. unfold gets, may at 1.
  destruct (_ || _); [done|]. apply may_bind. unfold user_int.
  do 4 (apply may_bind; eapply may_mono; [apply user_byte_may|]; cbv beta; intros ? ? ->). done.
Qed.

Lemma argptr_may n k u : may (argptr n k) (fun r _ => match r with inr _ => 0 <= k | inl _ => True end) u.
Proof.
  unfold argptr. apply may_bind. unfold gets, may at 1. apply may_bind. unfold modify, may at 1. apply may_bind.
  eapply may_mono; [apply argint_may|]. cbv beta. intros [i|] u' ->; [|done]. destruct (_ <? _); [done|]. apply may_bind. unfold may at 1.
  apply may_bind. unfold may at 1. destruct (_ || _) eqn:E; [done|]. boolify. by apply may_ret.
Qed.

Lemma argstr_may n u : may (argstr n) (fun _ u' => u' = u) u.
Proof.
  unfold argstr. apply may_bind. eapply may_mono; [apply argint_may|]. cbv beta. intros [a|] u' ->; [|done].
  unfold may. rewrite fetchstr_eq. destruct (_ <=? _); [done|].
  assert (forall m (q len : Z), may (fetchstr_loop m q len) (fun _ u' => u' = u) u) as Hl.
  { intros m. induction m as [|m IH]; intros q len; cbn [fetchstr_loop]; [done|]. apply may_bind. eapply may_mono; [apply user_byte_may|].
    cbv beta. intros c u' ->. destruct (c =? 0); [done|apply IH]. }
  specialize (Hl (Z.to_nat (u_sz u - u32 a)) (u32 a) 0). unfold may in Hl.
  destruct (fetchstr_loop _ _ _ _) as [[] | | | |]; done.
Qed.

Section Process.
Context (procs : list (list (option nat))) (Hrows : rows_ok procs) (cur : nat) (row : list (option nat)) (Hrow : procs !! cur = Some row).
Notation n := (refs procs).

Lemma argfd_may k s (Q : option (nat * nat) -> sfs S -> Prop) : during n [] procs s ->
  (forall s', during n [] procs s' -> Q None s') ->
  (forall fd f s', during n [] procs s' -> row !! fd = Some (Some f) -> n f <> 0%nat -> Q (Some (fd, f)) s') -> may (argfd cur k) Q s.
Proof.
  intros Hd HNone HSome. unfold argfd. apply may_bind. eapply uc_may; [exact Hd|eapply may_mono; [apply argint_may|]; intros; exact I|].
  intros [fd|] s1 _ Hd1; [|by apply may_ret, HNone]. apply may_bind. unfold may at 1, kget. destruct (_ || _); [by apply may_ret, HNone|].
  unfold ofile. rewrite (proj2 Hd1), Hrow. cbn [default from_option]; unfold id at 1. destruct (row !! Z.to_nat fd) as [[f|]|] eqn:E; [|by apply may_ret, HNone..].
  apply may_ret, HSome; [done|done|by eapply refs_some].
Qed.

Definition with_fd (fd : nat) (f : option nat) : list (list (option nat)) := alter (fun l => <[fd := f]> l) cur procs.

Lemma with_fd_rows fd f : rows_ok (with_fd fd f).
Proof.
  destruct Hrows as [Ha Hl]. split; [|unfold with_fd; by rewrite length_alter]. unfold with_fd. apply list.Forall_alter; [done|].
  intros l _ Hlen. by rewrite length_insert.
Qed.

Lemma with_fd_row fd f : with_fd fd f !! cur = Some (<[fd := f]> row).
Proof. unfold with_fd. by rewrite list_lookup_alter_eq, Hrow. Qed.

Lemma find_fd_spec k l fd : find_fd k l = Some fd -> (k <= fd)%nat /\ l !! (fd - k)%nat = Some None.
Proof.
  revert k. induction l as [|[x|] l IH]; intros k; simpl; [done| |].
  - intros [Hk E]%IH. split; [lia|]. by replace (fd - k)%nat with (Datatypes.S (fd - Datatypes.S k)) by lia.
  - intros [= <-]. by rewrite Nat.sub_diag.
Qed.

Lemma fdalloc_may m R f s (Q : option nat -> sfs S -> Prop) : during m R procs s -> Q None s ->
  (forall fd s', during m R (with_fd fd (Some f)) s' -> row !! fd = Some None -> sf_files s' = sf_files s -> Q (Some fd) s') -> may (fdalloc cur f) Q s.
Proof.
  intros [Hf Hp] HNone HSome. unfold fdalloc. apply may_bind. unfold may at 1, kget. unfold ofile. rewrite Hp, Hrow. cbn [default from_option]; unfold id at 1.
  destruct (find_fd 0 row) as [fd|] eqn:E; [|by apply may_ret]. apply find_fd_spec in E as [_ E]. rewrite Nat.sub_0_r in E.
  apply may_bind. unfold may at 1, modify. apply may_ret, HSome; [|done|done]. split; [done|]. cbn. by rewrite Hp.
Qed.

Lemma refs_taken fd f i : row !! fd = Some None -> refs (with_fd fd (Some f)) i = (<[f := Datatypes.S (n f)]> n) i.
Proof.
  intros E. pose proof (refs_set procs cur row fd None (Some f) i Hrow E) as H. unfold is_ref in H. rewrite decide_False in H by done.
  unfold with_fd. destruct (decide (f = i)) as [<-|Hne]; [rewrite fn_lookup_insert, decide_True in *; [lia|done]|].
  rewrite fn_lookup_insert_ne, decide_False in * by congruence. lia.
Qed.

Lemma refs_dropped fd f i : row !! fd = Some (Some f) -> refs (with_fd fd None) i = (<[f := pred (n f)]> n) i.
Proof.
  intros E. pose proof (refs_set procs cur row fd (Some f) None i Hrow E) as H. unfold is_ref in H.
  rewrite (decide_False (P := None = Some i)) in H by done. unfold with_fd.
  destruct (decide (f = i)) as [<-|Hne]; [rewrite fn_lookup_insert; rewrite decide_True in H by done; lia|].
  rewrite fn_lookup_insert_ne by done. rewrite decide_False in H by congruence. lia.
Qed.

Lemma sys_dup_may s : during n [] procs s -> may (sys_dup cur) (fun _ => fds_ok) s.
Proof.
  intros Hd. pose proof (refs_bound procs) as Hb. unfold sys_dup. apply may_bind. eapply argfd_may; [exact Hd| |].
  - intros s1 Hd1. apply may_ret. by eapply fds_done.
  - intros fd f s1 Hd1 Efd Hf. apply may_bind. eapply fdalloc_may; [exact Hd1|apply may_ret; by eapply fds_done|].
    intros fd' s2 Hd2 E2 _. apply may_bind. eapply fl_may; [exact Hd2|]. apply wp_may. eapply (filedup_wp J); [apply Hd2|done| |].
    { specialize (Hb f (proj1 Hrows) (proj2 Hrows)). lia. }
    intros f' Hf' _ s3 <- Hp3. apply may_ret. eapply (fds_done _ (with_fd fd' (Some f))); [by split| |apply with_fd_rows].
    intros i. by rewrite refs_taken.
Qed.

Lemma sys_close_may s : during n [] procs s -> may (sys_close cur) (fun _ => fds_ok) s.
Proof.
  intros Hd. unfold sys_close. apply may_bind. eapply argfd_may; [exact Hd| |].
  - intros s1 Hd1. apply may_ret. by eapply fds_done.
  - intros fd f s1 Hd1 Efd Hf. apply may_bind. unfold may at 1, modify. apply may_bind.
    assert (during n [] (with_fd fd None) (set_ofile cur fd None s1)) as Hd2.
    { destruct Hd1 as [H1 H2]. split; [done|]. cbn. by rewrite H2. }
    eapply fl_may; [exact Hd2|]. eapply (fileclose_may J); [apply Hd2|done|]. intros f' Hf' s3 <- Hp3. apply may_ret.
    eapply (fds_done _ (with_fd fd None)); [split; [|done]| |apply with_fd_rows].
    + by rewrite drop_raw_nil in Hf'.
    + intros i. by rewrite (refs_dropped fd f).
Qed.

Lemma rw_args_may s (Q : option (nat * Z * Z) -> sfs S -> Prop) : during n [] procs s ->
  (forall s', during n [] procs s' -> Q None s') ->
  (forall f p k s', during n [] procs s' -> n f <> 0%nat -> Q (Some (f, p, k)) s') -> may (rw_args cur) Q s.
Proof.
  intros Hd HNone HSome. unfold rw_args. apply may_bind. eapply argfd_may; [exact Hd|intros s1 Hd1; by apply may_ret, HNone|].
  intros fd f s1 Hd1 _ Hf. apply may_bind. eapply uc_may; [exact Hd1|eapply may_mono; [apply argint_may|]; intros; exact I|].
  intros [k|] s2 _ Hd2; [|by apply may_ret, HNone]. apply may_bind. eapply uc_may; [exact Hd2|eapply may_mono; [apply argptr_may|]; intros; exact I|].
  intros [e|p] s3 _ Hd3; [by apply may_ret, HNone|by apply may_ret, HSome].
Qed.

Lemma sys_read_may s : during n [] procs s -> may (sys_read cur) (fun _ => fds_ok) s.
Proof.
  intros Hd. unfold sys_read. apply may_bind. eapply rw_args_may; [exact Hd|intros s1 Hd1; apply may_ret; by eapply fds_done|].
  intros f p k s1 Hd1 Hf. apply may_bind. eapply fl_may; [exact Hd1|]. eapply may_mono; [apply (fileread_may J n [] f Hf ltac:(by intros ?%elem_of_nil)), Hd1|].
  cbv beta. intros r f' Hf' s2 <- Hp2. assert (during n [] procs s2) as Hd2 by done. destruct r as [bs|]; [|apply may_ret; by eapply fds_done].
  apply may_bind. eapply (uc_may _ (fun _ => True)); [exact Hd2|done|]. intros [] s3 _ Hd3. apply may_ret. by eapply fds_done.
Qed.

Lemma sys_write_may s : during n [] procs s -> may (sys_write cur) (fun _ => fds_ok) s.
Proof.
  intros Hd. unfold sys_write. apply may_bind. eapply rw_args_may; [exact Hd|intros s1 Hd1; apply may_ret; by eapply fds_done|].
  intros f p k s1 Hd1 Hf. apply may_bind. unfold may at 1, kget. eapply fl_may; [exact Hd1|].
  eapply may_mono; [apply (filewrite_may J n [] f Hf ltac:(by intros ?%elem_of_nil)), Hd1|].
  cbv beta. intros r f' Hf' s2 <- Hp2. by eapply fds_done.
Qed.

Lemma sys_fstat_may s : during n [] procs s -> may (sys_fstat cur) (fun _ => fds_ok) s.
Proof.
  intros Hd. unfold sys_fstat. apply may_bind. eapply argfd_may; [exact Hd|intros s1 Hd1; apply may_ret; by eapply fds_done|].
  intros fd f s1 Hd1 _ Hf. apply may_bind. eapply uc_may; [exact Hd1|eapply may_mono; [apply argptr_may|]; intros; exact I|].
  intros [e|p] s2 _ Hd2; [apply may_ret; by eapply fds_done|]. apply may_bind. eapply fl_may; [exact Hd2|].
  eapply may_mono; [apply (filestat_may J n [] f Hf), Hd2|]. intros st f' Hf' s3 <- Hp3. assert (during n [] procs s3) as Hd3 by done.
  destruct st as [st|]; [|apply may_ret; by eapply fds_done].
  apply may_bind. eapply (uc_may _ (fun _ => True)); [exact Hd3|done|]. intros [] s4 _ Hd4. apply may_ret. by eapply fds_done.
Qed.

Lemma iunlockput_may m R ps ip s (Q : unit -> sfs S -> Prop) : during m R ps s -> (forall s', during m R ps s' -> Q tt s') -> may (iunlockput_ ip) Q s.
Proof.
  intros Hd HQ. unfold iunlockput_. apply may_bind. eapply io_may; [exact Hd|apply il_unlock|]. intros [] s1 Hd1.
  eapply io_may; [exact Hd1|apply il_put|]. intros [] s2 Hd2. by apply HQ.
Qed.

Lemma io_end_may {A} m R ps (r : A) s (Q : A -> sfs S -> Prop) : during m R ps s -> (forall s', during m R ps s' -> Q r s') ->
  may (io ii_end ;;; kret r) Q s.
Proof. intros Hd HQ. apply may_bind. eapply io_may; [exact Hd|apply il_end|]. intros [] s1 Hd1. by apply may_ret, HQ. Qed.

Lemma open_inode_may path omode s (Q : option nat -> sfs S -> Prop) : during n [] procs s ->
  (forall r s', during n [] procs s' -> Q r s') -> may (open_inode path omode) Q s.
Proof.
  intros Hd HQ. unfold open_inode. apply may_bind. eapply io_may; [exact Hd|apply il_begin|]. intros [] s1 Hd1.
  destruct (negb _).
  - apply may_bind. eapply io_may; [exact Hd1|apply il_create|]. intros [ip|] s2 Hd2; [by apply may_ret, HQ|].
    eapply io_end_may; [exact Hd2|apply HQ].
  - apply may_bind. eapply io_may; [exact Hd1|apply il_namei|]. intros [ip|] s2 Hd2; [|eapply io_end_may; [exact Hd2|apply HQ]].
    apply may_bind. eapply io_may; [exact Hd2|apply il_lock|]. intros [] s3 Hd3.
    apply may_bind. eapply io_may; [exact Hd3|apply il_isdir|]. intros d s4 Hd4. destruct (_ && _); [|by apply may_ret, HQ].
    apply may_bind. eapply iunlockput_may; [exact Hd4|]. intros s5 Hd5. eapply io_end_may; [exact Hd5|apply HQ].
Qed.

(** The new file of sys_open is set up. *)
Lemma open_setup f r w ip (s : files S) : files_ok J (<[f := 1%nat]> n) [f] s ->
  wp (putf f (fun x => mk_file FD_INODE (f_ref x) r w (f_pipe x) ip 0)) (fun _ => files_ok J (<[f := 1%nat]> n) []) s.
Proof.
  intros Hok. destruct (fo_lookup J _ _ _ f Hok ltac:(by rewrite fn_lookup_insert)) as (x & Hx & Hr). rewrite fn_lookup_insert in Hr.
  eapply wp_putf; [exact Hx|]. eapply files_ok_ext; [| |eapply (files_ok_put J _ [f] [] s f x _ 1 (fl_pipes s) (fl_held s) Hok Hx)].
  - intros i. destruct (decide (f = i)) as [<-|Hne]; [by rewrite !fn_lookup_insert|by rewrite !fn_lookup_insert_ne].
  - done.
  - exact Hr.
  - lia.
  - done.
  - done.
  - by intros ?%elem_of_nil.
  - set_solver.
  - eapply pipes_same; [apply (fo_pipes _ _ _ _ Hok)|exact Hx|]. right. split; [|done].
    rewrite (fo_set _ _ _ _ Hok f x Hx) by (by left). done.
  - apply (fo_lock _ _ _ _ Hok).
Qed.

Lemma sys_open_may s : during n [] procs s -> may (sys_open cur) (fun _ => fds_ok) s.
Proof.
  intros Hd. unfold sys_open. apply may_bind. eapply uc_may; [exact Hd|eapply may_mono; [apply argstr_may|]; intros; exact I|].
  intros [[p len]|] s1 _ Hd1; [|apply may_ret; by eapply fds_done]. apply may_bind.
  eapply uc_may; [exact Hd1|eapply may_mono; [apply argint_may|]; intros; exact I|].
  intros [omode|] s2 _ Hd2; [|apply may_ret; by eapply fds_done]. apply may_bind. unfold may at 1, kget. apply may_bind.
  eapply open_inode_may; [exact Hd2|]. intros [ip|] s3 Hd3; [|apply may_ret; by eapply fds_done]. apply may_bind.
  eapply fl_may; [exact Hd3|]. apply wp_may. eapply (filealloc_wp J); [apply Hd3| |].
  { intros s4 E4 Hp4. assert (during n [] procs s4) as Hd4 by (split; [rewrite E4; apply Hd3|done]).
    apply may_bind. eapply iunlockput_may; [exact Hd4|]. intros s5 Hd5. eapply io_end_may; [exact Hd5|]. intros s6 Hd6. by eapply fds_done. }
  intros f f4 Hf _ _ Hok4 _ s4 <- Hp4. assert (during (<[f := 1%nat]> n) [f] procs s4) as Hd4 by done. apply may_bind.
  eapply fdalloc_may; [exact Hd4| |].
  - apply may_bind. eapply fl_may; [exact Hd4|]. eapply (close_raw J); [exact Hok4|done|by intros ?%elem_of_nil|].
    intros f5 Hok5 s5 <- Hp5. assert (during n [] procs s5) as Hd5 by done.
    apply may_bind. eapply iunlockput_may; [exact Hd5|]. intros s6 Hd6. eapply io_end_may; [exact Hd6|]. intros s7 Hd7. by eapply fds_done.
  - intros fd s5 Hd5 Efd _. apply may_bind. eapply io_may; [exact Hd5|apply il_unlock|]. intros [] s6 Hd6.
    apply may_bind. eapply io_may; [exact Hd6|apply il_end|]. intros [] s7 Hd7.
    apply may_bind. eapply fl_may; [exact Hd7|]. apply wp_may. eapply wp_mono; [apply open_setup, Hd7|]. intros [] f8 Hok8 s8 <- Hp8. apply may_ret.
    eapply (fds_done _ (with_fd fd (Some f))); [by split| |apply with_fd_rows]. intros i. rewrite refs_taken by done. by rewrite Hf.
Qed.
End Process.

(** Two new files with one reference each are closed. *)
Lemma close_two_may {A} n procs rf wf (r : A) s (Q : A -> sfs S -> Prop) : during (<[wf := 1%nat]> (<[rf := 1%nat]> n)) [] procs s ->
  n rf = 0%nat -> n wf = 0%nat -> rf <> wf -> (forall s', during n [] procs s' -> Q r s') ->
  may (fl (fileclose rf) ;;; fl (fileclose wf) ;;; kret r) Q s.
Proof.
  intros Hd Hr Hw Hne HQ. apply may_bind. eapply fl_may; [exact Hd|]. eapply (fileclose_may J); [apply Hd| |].
  { rewrite fn_lookup_insert_ne, fn_lookup_insert; [done|congruence]. }
  intros f1 Hok1 s1 <- Hp1. rewrite (fn_lookup_insert_ne _ wf rf), fn_lookup_insert in Hok1 by congruence.
  apply may_bind. eapply (fl_may _ _ (drop_raw (<[wf:=1%nat]> (<[rf:=1%nat]> n)) rf []) procs); [by split|].
  eapply (fileclose_may J); [exact Hok1|rewrite fn_lookup_insert_ne, fn_lookup_insert by congruence; done|].
  intros f2 Hok2 s2 <- Hp2. apply may_ret, HQ. split; [|done]. eapply files_ok_ext; [| |exact Hok2].
  - intros i. destruct (decide (wf = i)) as [<-|H1]; [rewrite fn_lookup_insert, fn_lookup_insert_ne, fn_lookup_insert by congruence; done|].
    rewrite (fn_lookup_insert_ne _ wf i) by done. destruct (decide (rf = i)) as [<-|H2]; [rewrite fn_lookup_insert; done|].
    by rewrite !fn_lookup_insert_ne.
  - intros i. by rewrite !drop_raw_nil.
Qed.

Lemma sys_pipe_may procs cur row s : rows_ok procs -> procs !! cur = Some row -> during (refs procs) [] procs s ->
  may (sys_pipe cur) (fun _ => fds_ok) s.
Proof.
  intros Hrows Hrow Hd. unfold sys_pipe. apply may_bind. eapply uc_may; [exact Hd|eapply may_mono; [apply argptr_may|]; intros; exact I|].
  intros [e|p] s1 _ Hd1; [apply may_ret; by eapply fds_done|]. apply may_bind. eapply fl_may; [exact Hd1|]. eapply (pipealloc_may J); [apply Hd1|intros f2 Hok2 s2 <- Hp2; apply may_ret; by eapply (fds_done _ procs)|].
  intros rf wf f2 Hr Hw Hne Hok2 s2 <- Hp2. assert (during (<[wf := 1%nat]> (<[rf := 1%nat]> (refs procs))) [] procs s2) as Hd2 by done.
  apply may_bind. eapply fdalloc_may; [exact Hrow|exact Hd2| |].
  { eapply close_two_may; [exact Hd2|done..|]. intros s3 Hd3. by eapply fds_done. }
  intros fd0 s3 Hd3 E0 Ef3. pose proof (with_fd_row procs cur row Hrow fd0 (Some rf)) as Hrow1.
  pose proof (fun fd f => with_fd_rows procs Hrows cur fd f) as Hrows1. set (procs1 := with_fd procs cur fd0 (Some rf)) in *.
  assert (fd0 < length row)%nat as Hfd0 by (by eapply lookup_lt_Some). apply may_bind. eapply fdalloc_may; [exact Hrow1|exact Hd3| |].
  - apply may_bind. unfold may at 1, modify. eapply (close_two_may (refs procs) (with_fd procs1 cur fd0 None)); [|done..|].
    + destruct Hd3 as [H1 H2]. split; [exact H1|]. cbn. by rewrite H2.
    + intros s4 Hd4. eapply fds_done; [exact Hd4| |apply with_fd_rows, Hrows1]. intros i.
      rewrite (refs_dropped procs1 cur _ Hrow1 fd0 rf) by (by apply list_lookup_insert_eq).
      assert (forall j, refs procs1 j = (<[rf := Datatypes.S (refs procs rf)]> (refs procs)) j) as E1 by (intros j; by eapply refs_taken).
      destruct (decide (rf = i)) as [<-|Hri]; [rewrite fn_lookup_insert, E1, fn_lookup_insert; done|].
      by rewrite fn_lookup_insert_ne, E1, fn_lookup_insert_ne.
  - intros fd1 s4 Hd4 E1 _. apply may_bind. eapply (uc_may _ (fun _ => True)); [exact Hd4|done|]. intros [] s5 _ Hd5. apply may_ret.
    eapply fds_done; [exact Hd5| |apply with_fd_rows, Hrows1]. intros i. rewrite (refs_taken procs1 cur _ Hrow1 fd1 wf i E1).
    assert (forall j, refs procs1 j = (<[rf := Datatypes.S (refs procs rf)]> (refs procs)) j) as E2 by (intros j; by eapply refs_taken).
    rewrite E2, (fn_lookup_insert_ne _ rf wf), Hw by done.
    destruct (decide (wf = i)) as [<-|Hwi]; [by rewrite !fn_lookup_insert|]. rewrite !(fn_lookup_insert_ne _ wf i), E2, Hr by done. done.
Qed.

(** The loop of exit. *)
Lemma close_fds_may cur k : forall fd s row, fds_ok s -> sf_procs s !! cur = Some row -> (fd + k = NOFILE)%nat ->
  take fd row = replicate fd None ->
  may (close_fds k cur fd) (fun _ s' => fds_ok s' /\ sf_procs s' !! cur = Some (replicate NOFILE None)) s.
Proof.
  induction k as [|k IH]; intros fd s row Hok Hrow Hk Hnone; cbn [close_fds].
  { apply may_ret. split; [done|]. rewrite Hrow. f_equal. rewrite Nat.add_0_r in Hk. subst fd.
    rewrite <- Hnone, take_ge; [done|]. by rewrite (Forall_lookup_1 _ _ _ _ (proj1 (proj2 Hok)) Hrow). }
  assert (length row = NOFILE) as Hlen by exact (Forall_lookup_1 _ _ _ _ (proj1 (proj2 Hok)) Hrow).
  apply may_bind. unfold may at 1, kget. unfold ofile. rewrite Hrow. cbn [default from_option]. unfold id at 1.
  destruct (lookup_lt_is_Some_2 row fd) as [x Hx]; [lia|]. rewrite Hx. apply may_bind. destruct x as [f|].
  - apply may_bind. assert (during (refs (sf_procs s)) [] (sf_procs s) s) as Hd by (split; [apply Hok|done]).
    eapply fl_may; [exact Hd|]. eapply (fileclose_may J); [apply Hd|by eapply refs_some|].
    intros f1 Hok1 s1 <- Hp1. unfold may at 1, modify. apply (IH _ _ (<[fd := None]> row)).
    + eapply (fds_done _ (with_fd (sf_procs s) cur fd None)); [split; [|cbn; by rewrite Hp1]| |apply with_fd_rows, Hok].
      * by rewrite drop_raw_nil in Hok1.
      * intros i. symmetry. by eapply refs_dropped.
    + cbn. rewrite Hp1. by apply with_fd_row.
    + lia.
    + rewrite (take_S_r _ _ None) by (apply list_lookup_insert_eq; lia). rewrite take_insert by lia. rewrite Hnone, decide_False by lia.
      by rewrite replicate_S_end.
  - apply may_ret. apply (IH _ _ row); [done|done|lia|]. rewrite (take_S_r _ _ None Hx), Hnone. by rewrite replicate_S_end.
Qed.

(** The loop of fork. *)
Lemma dup_fds_may cur child row k : forall i s, fds_ok s -> cur <> child -> sf_procs s !! cur = Some row -> (i + k = NOFILE)%nat ->
  sf_procs s !! child = Some (take i row ++ replicate k None) ->
  may (dup_fds k cur child i) (fun _ s' => fds_ok s' /\ sf_procs s' !! cur = Some row /\ sf_procs s' !! child = Some row) s.
Proof.
  induction k as [|k IH]; intros i s Hok Hne Hrow Hk Hchild; cbn [dup_fds].
  { apply may_ret. split_and!; [done|done|]. rewrite Hchild, app_nil_r, take_ge; [done|].
    rewrite (Forall_lookup_1 _ _ _ _ (proj1 (proj2 Hok)) Hrow). lia. }
  assert (length row = NOFILE) as Hlen by exact (Forall_lookup_1 _ _ _ _ (proj1 (proj2 Hok)) Hrow).
  apply may_bind. unfold may at 1, kget. unfold ofile. rewrite Hrow. cbn [default from_option]. unfold id at 1.
  destruct (lookup_lt_is_Some_2 row i) as [x Hx]; [lia|]. rewrite Hx. apply may_bind.
  assert (length (take i row) = i) as Hti by (rewrite length_take; lia). destruct x as [f|].
  - apply may_bind. assert (during (refs (sf_procs s)) [] (sf_procs s) s) as Hd by (split; [apply Hok|done]).
    pose proof (refs_bound (sf_procs s) f (proj1 (proj2 Hok)) (proj2 (proj2 Hok))) as Hb.
    eapply fl_may; [exact Hd|]. apply wp_may. eapply (filedup_wp J); [apply Hd|exact (refs_some _ _ _ _ _ Hrow Hx)|lia|].
    intros f1 Hok1 _ s1 <- Hp1. unfold may at 1, modify. apply IH; [| done | | lia |].
    + eapply (fds_done _ (with_fd (sf_procs s) child i (Some f))); [split; [exact Hok1|cbn; by rewrite Hp1]| |apply with_fd_rows, Hok].
      intros j. symmetry. eapply refs_taken; [exact Hchild|]. rewrite lookup_app_r by lia. by rewrite Hti, Nat.sub_diag.
    + cbn. rewrite Hp1, list_lookup_alter_ne by congruence. done.
    + cbn. rewrite Hp1, list_lookup_alter_eq, Hchild. cbn. f_equal. rewrite (take_S_r _ _ _ Hx), <- app_assoc.
      rewrite insert_app_r_alt by lia. by rewrite Hti, Nat.sub_diag.
  - apply may_ret. apply IH; [done|done|done|lia|]. rewrite Hchild, (take_S_r _ _ _ Hx), <- app_assoc. done.
Qed.

(** ** The system calls on descriptors, in any order by any process *)

Inductive fdcall := CDup | CClose | CRead | CWrite | CFstat | COpen | CPipe | CFork (child : nat) | CExit.

Definition run_call (cur : nat) (c : fdcall) : M (sfs S) Z :=
  match c with
  | CDup => sys_dup cur
  | CClose => sys_close cur
  | CRead => sys_read cur
  | CWrite => sys_write cur
  | CFstat => sys_fstat cur
  | COpen => sys_open cur
  | CPipe => sys_pipe cur
  | CFork child => fork_fds cur child ;;; kret 0
  | CExit => exit_fds cur ;;; kret 0
  end.

Definition set_user (u : ucall) (s : sfs S) : sfs S := mk_sfs (sf_files s) (sf_procs s) u.

(** The call can be made: by a process of the table; the child that fork has
    allocated is another one, with no descriptors. *)
Definition callable (cur : nat) (c : fdcall) s : Prop :=
  (cur < length (sf_procs s))%nat /\
  match c with CFork child => child <> cur /\ sf_procs s !! child = Some (replicate NOFILE None) | _ => True end.

(** The zeroed kernel. *)
Definition fd_init (x : S) (u : ucall) : sfs S :=
  mk_sfs (mk_files (replicate NFILE (mk_file FD_NONE 0 false false 0 0 0)) [] x ∅) (replicate NPROC (replicate NOFILE None)) u.

(** Each call sees the memory and registers of its caller. *)
Inductive fdreach : sfs S -> Prop :=
  | fd_start x u : J x -> fdreach (fd_init x u)
  | fd_call s u cur c r s' : fdreach s -> callable cur c s -> run_call cur c (set_user u s) = Ok r s' -> fdreach s'.

Lemma run_call_may cur c s : fds_ok s -> callable cur c s -> may (run_call cur c) (fun _ => fds_ok) s.
Proof.
  intros Hok [Hcur Hc]. destruct (lookup_lt_is_Some_2 _ _ Hcur) as [row Hrow]. destruct Hok as [Hf Hr].
  assert (during (refs (sf_procs s)) [] (sf_procs s) s) as Hd by done.
  destruct c; cbn [run_call]; [by eapply sys_dup_may|by eapply sys_close_may|by eapply sys_read_may|by eapply sys_write_may|
    by eapply sys_fstat_may|by eapply sys_open_may|by eapply sys_pipe_may|..]; apply may_bind.
  - destruct Hc as [Hne Hch]. eapply may_mono; [apply (dup_fds_may cur child row NOFILE 0 s)|]; [done|congruence|done|done|done|].
    cbv beta. intros [] s' [Hs' _]. by apply may_ret.
  - eapply may_mono; [apply (close_fds_may cur NOFILE 0 s row)|]; [done..|]. cbv beta. intros [] s' [Hs' _]. by apply may_ret.
Qed.

Lemma fd_init_ok x u : J x -> fds_ok (fd_init x u).
Proof.
  intros Hx. assert (forall i, refs (replicate NPROC (replicate NOFILE None)) i = 0%nat) as H0 by (intros i; vm_compute; reflexivity).
  assert (forall i f, replicate NFILE (mk_file FD_NONE 0 false false 0 0 0) !! i = Some f -> f = mk_file FD_NONE 0 false false 0 0 0) as Hfree
    by (intros i f Hi; by apply lookup_replicate_1 in Hi as [-> _]).
  split; [split; cbn [sf_files sf_procs fd_init fl_table fl_pipes fl_held fl_inodes]|].
  - intros i f ->%Hfree. by rewrite H0.
  - by intros i f ->%Hfree.
  - intros i f _. by rewrite H0.
  - by intros i f _ ?%elem_of_nil.
  - by intros i ?%elem_of_nil.
  - intros i. by rewrite H0.
  - intros i. rewrite H0. lia.
  - split; [by intros i f ->%Hfree|by intros i j f g ->%Hfree|done].
  - set_solver.
  - done.
  - split; cbn [sf_procs fd_init]; [|by rewrite length_replicate]. apply Forall_replicate. by rewrite length_replicate.
Qed.

Lemma fdreach_ok s : fdreach s -> fds_ok s.
Proof.
  induction 1 as [x u Hx|s u cur c r s' _ IH Hc Hrun]; [by apply fd_init_ok|].
  pose proof (run_call_may cur c (set_user u s) IH Hc) as Hm. unfold may in Hm. by rewrite Hrun in Hm.
Qed.

Lemma fdreach_open s i f : fdreach s -> fl_table (sf_files s) !! i = Some f -> f_type f = FD_NONE <-> refs (sf_procs s) i = 0%nat.
Proof.
  intros Hr Hf. destruct (fdreach_ok s Hr) as [Hok _]. split; [|by eapply fo_free]. intros Ht.
  destruct (decide (refs (sf_procs s) i = 0%nat)) as [|Hne]; [done|]. by destruct (proj1 (elem_of_nil _) (fo_raw _ _ _ _ Hok i f Hf Hne Ht)).
Qed.

(** C8: In every state that dup, close, read, write, fstat, open, pipe, fork
    and exit reach in any order, by any processes with any arguments, over any
    inode layer that keeps [InodeLaws]: the count of an open file is the
    number of descriptors that refer to it, and the entry is free exactly when
    there are none; an end of a pipe is open exactly when some descriptor
    refers to it.  From such a state each of these calls returns in such a
    state, or sleeps, or stops: at a bad pointer of the caller (a page fault
    in the kernel), or inside the inode layer (a full disk, say).  It never
    stops with a panic of the file layer, "filedup", "fileclose", "fileread",
    "filewrite", "short filewrite", or of its locks. *)
Theorem descriptors_counted s u cur c : fdreach s -> callable cur c s ->
  (forall i f, fl_table (sf_files s) !! i = Some f ->
    f_ref f = Z.of_nat (refs (sf_procs s) i) /\ (f_type f = FD_NONE <-> refs (sf_procs s) i = 0%nat)) /\
  (forall k p (w : bool), fl_pipes (sf_files s) !! k = Some p ->
    (if w then writeopen p else readopen p) = true <->
    exists i f, fl_table (sf_files s) !! i = Some f /\ f_type f = FD_PIPE /\ f_pipe f = k /\ f_writable f = w /\ refs (sf_procs s) i <> 0%nat) /\
  may (run_call cur c) (fun _ => fdreach) (set_user u s) /\
  (forall m, m ∈ file_panics -> run_call cur c (set_user u s) <> Panic m /\ run_call cur c (set_user u s) <> Fault m).
Proof.
  intros Hr Hc. destruct (fdreach_ok s Hr) as [Hok Hrows]. pose proof (run_call_may cur c (set_user u s) (conj Hok Hrows) Hc) as Hm. split_and!.
  - intros i f Hf. split; [by eapply fo_ref|by apply fdreach_open].
  - intros k p w Hk. split.
    + intros Ho. destruct (pp_end _ _ (fo_pipes _ _ _ _ Hok) k p w Hk Ho) as (i & f & Hf & Ht & Hp & Hw). exists i, f.
      split_and!; try done. rewrite <- (fdreach_open s i f Hr Hf). congruence.
    + intros (i & f & Hf & Ht & <- & <- & _). destruct (pp_open _ _ (fo_pipes _ _ _ _ Hok) i f Hf Ht) as (q & Hq & Ho). assert (q = p) as <- by congruence. done.
  - unfold may in *. destruct (run_call cur c (set_user u s)) as [r s'| | | |] eqn:E; try done. by eapply fd_call.
  - intros m Hin. unfold may in Hm. split; intros E; rewrite E in Hm; [|by apply (il_own m)].
    destruct Hm as [-> |Hm]; [|by apply (il_own m)]. revert Hin. apply (bool_decide_unpack (_ ∉ _)). vm_compute. exact I.
Qed.
End Calls.

(** One file, found under every name. *)
#[export] Instance demo_names : NameIO (list Z) := {|
  nm_namei := fun _ => kret (Some 0%nat);
  nm_create := fun _ => kret (Some 0%nat);
  nm_isdir := fun _ => kret false
|}.

(** This inode layer does not stop. *)
#[export] Instance byte_stops : FsStops := fun _ => False.

#[export] Instance byte_laws : InodeLaws (fun _ : list Z => True).
Proof. split; try done. intros i bs o b _. unfold may. cbn. destruct (bytes_write bs o b); cbn; auto. Qed.

(** open("a", O_RDWR) with the path at 8192 and the arguments above 12288. *)
Definition demo_open : ucall :=
  mk_ucall (fun a => if a =? 8192 then 97 else if a =? 12293 then 32 else if a =? 12296 then 2 else 0) 16384 12288 false.

Lemma descriptors_counted_witness :
  exists s, run_call 3 COpen (fd_init [1; 2; 3] demo_open) = Ok 0 s /\ refs (sf_procs s) 0 = 1%nat /\
    may (run_call 3 (CFork 5)) (fun _ => fdreach (fun _ : list Z => True)) (set_user demo_open s).
Proof.
  pose (init := fd_init [1; 2; 3] demo_open). destruct (run_call 3 COpen init) as [r s| | | |] eqn:E; try (exfalso; vm_compute in E; discriminate E).
  assert (r = 0 /\ refs (sf_procs s) 0 = 1%nat /\ (3 < length (sf_procs s))%nat /\ sf_procs s !! 5%nat = Some (replicate NOFILE None)) as (-> & Hr & Hlen & H5).
  { vm_compute in E. injection E as <- <-. vm_compute. split_and!; try done. lia. }
  exists s. split_and!; [done|done|].
  refine (proj1 (proj2 (proj2 (descriptors_counted (fun _ : list Z => True) s demo_open 3 (CFork 5) _ _)))).
  - apply (fd_call _ init demo_open 3 COpen 0 s); [by constructor|split; [vm_compute; lia|done]|exact E].
  - split; [exact Hlen|]. by split.
Defined.
