(* ===== verification/Exec.v ===== *)
(** * Running a program (exec.c, and loaduvm of vm.c)

    [exec] builds an address space from an ELF file and the argument strings,
    and makes it the address space of the calling process.  Files are those
    of [InodeIO] and [NameIO]; memory is that of [Kalloc].  A [struct elfhdr]
    and a [struct proghdr] are the bytes read from the file. *)

From S2P Require Import Prelude Layout Mem Kstring Kalloc Vm Uvm Block Fs Pipe File Bytefile Syscall Sysfile Proc.

(** ** elf.h *)

Definition ELF_MAGIC : Z := 0x464C457F.
Definition ELF_PROG_LOAD : Z := 1.

Definition ELFHDR : Z := 52.                    (* sizeof(struct elfhdr) *)
Definition e_magic (b : list Z) : Z := get32 b 0.
Definition e_entry (b : list Z) : Z := get32 b 24.
Definition e_phoff (b : list Z) : Z := get32 b 28.
Definition e_phnum (b : list Z) : Z := get16 b 44.

Definition PROGHDR : Z := 32.                   (* sizeof(struct proghdr) *)
Definition ph_type (b : list Z) : Z := get32 b 0.
Definition ph_off (b : list Z) : Z := get32 b 4.
Definition ph_vaddr (b : list Z) : Z := get32 b 8.
Definition ph_filesz (b : list Z) : Z := get32 b 16.
Definition ph_memsz (b : list Z) : Z := get32 b 20.

Section Exec.
Context `{KernelImage} {S : Type} `{Sub kmem S} `{SwapOps S} `{InodeIO S} `{NameIO S}.

(** [readi] into a structure of [n] bytes: the bytes, when all were read. *)
Definition read_struct (ip : nat) (off n : Z) : M S (option (list Z)) :=
  o <- ii_read ip off n ;;
  kret (match o with
        | Some b => if Z.of_nat (length b) =? n then Some b else None
        | None => None
        end).

(** ** loaduvm *)

Fixpoint loaduvm_loop (fuel : nat) (pgdir addr : Z) (ip : nat) (offset sz i : Z) : M S Z :=
  match fuel with
  | O => nofuel
  | Datatypes.S fuel' =>
      if negb (i <? sz) then kret 0
      else
        pte <- lift (walkpgdir pgdir (u32 (addr + i)) false) ;;
        if pte =? NULL then panic "loaduvm: address should exist"
        else
          v <- load pte ;;
          let pa := PTE_ADDR v in
          let n := if u32 (sz - i) <? PGSIZE then u32 (sz - i) else PGSIZE in
          o <- ii_read ip (u32 (offset + i)) n ;;
          match o with
          | None => kret (-1)
          | Some bs =>
              lift (mem_do (store_bytes (P2V pa) bs)) ;;;
              if negb (Z.of_nat (length bs) =? n) then kret (-1)
              else loaduvm_loop fuel' pgdir addr ip offset sz (u32 (i + PGSIZE))
          end
  end.

Definition loaduvm (pgdir addr : Z) (ip : nat) (offset sz : Z) : M S Z :=
  if negb (addr mod PGSIZE =? 0) then panic "loaduvm: addr must be page aligned"
  else loaduvm_loop (Datatypes.S (Z.to_nat (sz / PGSIZE + 1))) pgdir addr ip offset sz 0.

(** ** exec *)

(** [iunlockput(ip); end_op()]. *)
Definition done_with (ip : nat) : M S unit := ii_unlock ip ;;; ii_put ip ;;; ii_end.

(** The label [bad]; the result is always -1. *)
Definition bad {A} (pgdir : Z) (ip : option nat) : M S (option A) :=
  (when negb (pgdir =? NULL) do freevm pgdir) ;;;
  match ip with
  | Some i => done_with i
  | None => kret tt
  end ;;;
  kret None.

(** The loop over the program headers: the size after the [n] headers at
    [off], or the jump to [bad]. *)
Fixpoint load_segments (n : nat) (pgdir : Z) (ip : nat) (off sz : Z) : M S (option Z) :=
  match n with
  | O => kret (Some sz)
  | Datatypes.S n' =>
      o <- read_struct ip off PROGHDR ;;
      match o with
      | None => kret None
      | Some ph =>
          if negb (ph_type ph =? ELF_PROG_LOAD) then load_segments n' pgdir ip (u32 (off + PROGHDR)) sz
          else if ph_memsz ph <? ph_filesz ph then kret None
          else if u32 (ph_vaddr ph + ph_memsz ph) <? ph_vaddr ph then kret None
          else
            sz <- allocuvm pgdir sz (u32 (ph_vaddr ph + ph_memsz ph)) ;;
            if sz =? 0 then kret None
            else if negb (ph_vaddr ph mod PGSIZE =? 0) then kret None
            else
              r <- loaduvm pgdir (ph_vaddr ph) ip (ph_off ph) (ph_filesz ph) ;;
              if r <? 0 then kret None
              else load_segments n' pgdir ip (u32 (off + PROGHDR)) sz
      end
  end.

(** The loop that pushes the argument strings; [ptrs] is ustack[3..]. *)
Fixpoint push_args (pgdir : Z) (argv : list (list Z)) (argc sp : Z) (ptrs : list Z) : M S (option (Z * list Z)) :=
  match argv with
  | [] => kret (Some (sp, ptrs))
  | arg :: argv' =>
      if Z.of_nat MAXARG <=? argc then kret None
      else
        let sp := Z.land (u32 (sp - (Z.of_nat (length arg) + 1))) (u32 (Z.lnot 3)) in
        r <- copyout pgdir sp (arg ++ [0]) ;;
        if r <? 0 then kret None
        else push_args pgdir argv' (argc + 1) sp (ptrs ++ [sp])
  end.

(** The words of ustack, as the bytes copied. *)
Definition ustack (argc sp : Z) (ptrs : list Z) : list Z :=
  concat (le 4 <$> [0xffffffff; argc; u32 (sp - (argc + 1) * 4)] ++ ptrs ++ [NULL]).

(** The stack: its pages, the strings and the words below them. *)
Definition build_stack (pgdir sz : Z) (argv : list (list Z)) : M S (option (Z * Z)) :=
  let sz := PGROUNDUP sz in
  sz <- allocuvm pgdir sz (u32 (sz + 2 * PGSIZE)) ;;
  if sz =? 0 then kret None
  else
    lift (clearpteu pgdir (u32 (sz - 2 * PGSIZE))) ;;;
    o <- push_args pgdir argv 0 sz [] ;;
    match o with
    | None => kret None
    | Some (sp, ptrs) =>
        let argc := Z.of_nat (length ptrs) in
        let bs := ustack argc sp ptrs in
        let sp := u32 (sp - (3 + argc + 1) * 4) in
        r <- copyout pgdir sp bs ;;
        if r <? 0 then kret None else kret (Some (sz, sp))
    end.

(** What [exec] commits to: page directory, size, entry point and stack. *)
Record uimage := mk_uimage { im_pgdir : Z; im_sz : Z; im_entry : Z; im_sp : Z }.

(** [exec] up to the commit.  [argv] holds the strings before their
    terminators. *)
Definition exec_image (path : list Z) (argv : list (list Z)) : M S (option uimage) :=
  ii_begin ;;;
  o <- nm_namei path ;;
  match o with
  | None => ii_end ;;; kret None
  | Some ip =>
      ii_lock ip ;;;
      o <- read_struct ip 0 ELFHDR ;;
      match o with
      | None => bad NULL (Some ip)
      | Some elf =>
          if negb (e_magic elf =? ELF_MAGIC) then bad NULL (Some ip)
          else
            pgdir <- setupkvm ;;
            if pgdir =? NULL then bad NULL (Some ip)
            else
              o <- load_segments (Z.to_nat (e_phnum elf)) pgdir ip (e_phoff elf) PGSIZE ;;
              match o with
              | None => bad pgdir (Some ip)
              | Some sz =>
                  done_with ip ;;;
                  o <- build_stack pgdir sz argv ;;
                  match o with
                  | None => bad pgdir None
                  | Some (sz, sp) => kret (Some (mk_uimage pgdir sz (e_entry elf) sp))
                  end
              end
      end
  end.

(** The last element of a path; [s] is what the loop has still to scan. *)
Fixpoint last_elem (last s : list Z) : list Z :=
  match s with
  | [] => last
  | c :: s' => last_elem (if c =? 47 then s' else last) s'
  end.

(** What follows: the name of the process, its new image, the trap frame, and
    the end of the old address space. *)
Definition exec_commit (cur : nat) (path : list Z) (im : uimage) : M (ptable S) Z :=
  putp cur (fun p => set_p_name (copy_name (last_elem path path) (p_name p)) p) ;;;
  p <- getp cur ;;
  let oldpgdir := p_pgdir p in
  putp cur (set_p_pgdir (im_pgdir im)) ;;;
  putp cur (set_p_sz (im_sz im)) ;;;
  mem_op (st32 (p_tf p + TF_EIP) (im_entry im)) ;;;
  mem_op (st32 (p_tf p + TF_ESP) (im_sp im)) ;;;
  switchuvm cur ;;;
  env (freevm oldpgdir) ;;;
  kret 0.

Definition exec (cur : nat) (path : list Z) (argv : list (list Z)) : M (ptable S) Z :=
  o <- env (exec_image path argv) ;;
  match o with
  | None => kret (-1)
  | Some im => exec_commit cur path im
  end.
End Exec.
