(* ===== verification/Execspec.v ===== *)
(** * What exec promises (exec.c)

    [plan] says what a program file and its arguments describe, without the
    machine.  Over any file system that keeps the laws [ExecLaws], [exec]
    builds exactly the planned image or gives back everything it took. *)

From S2P Require Import Prelude Layout Mem Kstring Kalloc Vm Uvm Space Spaceio Block Fs Pipe File Bytefile Syscall Sysfile Proc Exec.

(** ** Plans *)

(** The segments: size and image after the [n] headers at [off]. *)
Fixpoint plan_segments (c : list Z) (n : nat) (off sz : Z) (img : Z -> Z) : option (Z * (Z -> Z)) :=
  match n with
  | O => Some (sz, img)
  | Datatypes.S n' =>
      match bytes_read off PROGHDR c with
      | Some ph =>
          if negb (Z.of_nat (length ph) =? PROGHDR) then None
          else if negb (ph_type ph =? ELF_PROG_LOAD) then plan_segments c n' (u32 (off + PROGHDR)) sz img
          else if ph_memsz ph <? ph_filesz ph then None
          else if KERNBASE <=? ph_vaddr ph + ph_memsz ph then None
          else if negb (ph_vaddr ph mod PGSIZE =? 0) then None
          else if (0 <? ph_filesz ph) && (size_of c <? ph_off ph + ph_filesz ph) then None
          else plan_segments c n' (u32 (off + PROGHDR)) (Z.max sz (ph_vaddr ph + ph_memsz ph))
                 (img_write img (ph_vaddr ph) (slice (Z.to_nat (ph_off ph)) (Z.to_nat (ph_filesz ph)) c))
      | None => None
      end
  end.

(** The argument strings below [top], within the page under it. *)
Fixpoint plan_args (top : Z) (argv : list (list Z)) (argc sp : Z) (ptrs : list Z) (img : Z -> Z) : option (Z * list Z * (Z -> Z)) :=
  match argv with
  | [] => Some (sp, ptrs, img)
  | arg :: argv' =>
      let sp' := (sp - (Z.of_nat (length arg) + 1)) / 4 * 4 in
      if Z.of_nat MAXARG <=? argc then None
      else if sp' <? top - PGSIZE then None
      else plan_args top argv' (argc + 1) sp' (ptrs ++ [sp']) (img_write img sp' (arg ++ [0]))
  end.

Record program := mk_program { pr_sz : Z; pr_entry : Z; pr_sp : Z; pr_img : Z -> Z }.

(** The stack page above the segments, of size [sz]. *)
Definition plan_stack (argv : list (list Z)) (entry sz : Z) (img : Z -> Z) : option program :=
  let top := PGROUNDUP sz + 2 * PGSIZE in
  if KERNBASE <=? top then None
  else
    match plan_args top argv 0 top [] img with
    | None => None
    | Some (sp, ptrs, img) =>
        let argc := Z.of_nat (length ptrs) in
        let sp' := sp - (argc + 4) * 4 in
        if sp' <? top - PGSIZE then None
        else Some (mk_program top entry sp' (img_write img sp' (ustack argc sp ptrs)))
    end.

Definition plan (c : list Z) (argv : list (list Z)) : option program :=
  match bytes_read 0 ELFHDR c with
  | Some elf =>
      if negb (Z.of_nat (length elf) =? ELFHDR) then None
      else if negb (e_magic elf =? ELF_MAGIC) then None
      else
        match plan_segments c (Z.to_nat (e_phnum elf)) (e_phoff elf) PGSIZE (fun _ => 0) with
        | Some (sz, img) => plan_stack argv (e_entry elf) sz img
        | None => None
        end
  | None => None
  end.

(** A file as the file system keeps it. *)
Definition file_ok (c : list Z) : Prop := size_of c <= FILEMAX /\ Forall (fun x => 0 <= x < 2 ^ 8) c.

(** Whether one of the [n] headers at [off] loads bytes into the first page,
    which [exec] leaves unmapped. *)
Fixpoint null_segment (c : list Z) (n : nat) (off : Z) : bool :=
  match n with
  | O => false
  | Datatypes.S n' =>
      match bytes_read off PROGHDR c with
      | Some ph =>
          (Z.of_nat (length ph) =? PROGHDR) && (ph_type ph =? ELF_PROG_LOAD) && (0 <? ph_filesz ph) && (ph_vaddr ph <? PGSIZE)
            || null_segment c n' (u32 (off + PROGHDR))
      | None => false
      end
  end.
Definition loads_null (c : list Z) : bool :=
  match bytes_read 0 ELFHDR c with
  | Some elf => null_segment c (Z.to_nat (e_phnum elf)) (e_phoff elf)
  | None => false
  end.

(** ** What exec relies on

    [L] says what a path names.  Outside a transaction the file system is
    [xl_idle]; in one it is [xl_tx], [xl_ref] with a reference to inode [i]
    of content [c], [xl_locked] with its lock.  No operation touches the
    memory of [Kalloc], and none depends on it. *)
Class ExecLaws (S : Type) `{Sub kmem S} `{InodeIO S} `{NameIO S} := {
  xl_idle : (list Z -> option (list Z)) -> S -> Prop;
  xl_tx : (list Z -> option (list Z)) -> S -> Prop;
  xl_ref : (list Z -> option (list Z)) -> nat -> list Z -> S -> Prop;
  xl_locked : (list Z -> option (list Z)) -> nat -> list Z -> S -> Prop;
  xl_file : forall L s path c, xl_idle L s -> L path = Some c -> file_ok c;
  xl_idle_put : forall L s k, xl_idle L s -> xl_idle L (sub_put k s);
  xl_locked_put : forall L i c s k, xl_locked L i c s -> xl_locked L i c (sub_put k s);
  xl_begin : forall L s, xl_idle L s -> wp ii_begin (fun _ s' => xl_tx L s' /\ sub_get s' = sub_get s) s;
  xl_end : forall L s, xl_tx L s -> wp ii_end (fun _ s' => xl_idle L s' /\ sub_get s' = sub_get s) s;
  xl_namei : forall L s path, xl_tx L s -> wp (nm_namei path) (fun r s' => sub_get s' = sub_get s /\
    match L path with
    | Some c => exists i, r = Some i /\ xl_ref L i c s'
    | None => r = None /\ xl_tx L s'
    end) s;
  xl_lock : forall L i c s, xl_ref L i c s -> wp (ii_lock i) (fun _ s' => xl_locked L i c s' /\ sub_get s' = sub_get s) s;
  xl_unlock : forall L i c s, xl_locked L i c s -> wp (ii_unlock i) (fun _ s' => xl_ref L i c s' /\ sub_get s' = sub_get s) s;
  xl_put : forall L i c s, xl_ref L i c s -> wp (ii_put i) (fun _ s' => xl_tx L s' /\ sub_get s' = sub_get s) s;
  xl_read : forall L i c s off n, xl_locked L i c s -> 0 <= off < 2 ^ 32 -> 0 <= n < 2 ^ 32 ->
    wp (ii_read i off n) (fun r s' => r = bytes_read off n c /\ xl_locked L i c s' /\ sub_get s' = sub_get s) s
}.

(** ** Reading a file *)

Lemma bytes_read_all off n c : 0 <= off -> 0 <= n -> off + n <= size_of c -> size_of c <= FILEMAX ->
  bytes_read off n c = Some (slice (Z.to_nat off) (Z.to_nat n) c) /\ length (slice (Z.to_nat off) (Z.to_nat n) c) = Z.to_nat n.
Proof.
  intros Ho Hn Hle Hs. unfold bytes_read, slice, FILEMAX, size_of in *. rewrite (u32_id (off + n)) by lia.
  destruct (Z.ltb_spec (Z.of_nat (length c)) off), (Z.ltb_spec (off + n) off), (Z.ltb_spec (Z.of_nat (length c)) (off + n)); try lia. cbn [orb].
  split; [done|]. rewrite length_take, length_drop. lia.
Qed.

Lemma bytes_read_short off n c bs : 0 <= off < 2 ^ 32 -> 0 < n <= PGSIZE -> size_of c < off + n -> size_of c <= FILEMAX ->
  bytes_read off n c = Some bs -> Z.of_nat (length bs) < n.
Proof.
  intros Ho Hn Hlt Hs. unfold bytes_read, PGSIZE, FILEMAX, size_of in *. destruct (Z.ltb_spec (Z.of_nat (length c)) off); [done|].
  rewrite (u32_id (off + n)) by lia. destruct (Z.ltb_spec (off + n) off), (Z.ltb_spec (Z.of_nat (length c)) (off + n)); try lia. cbn [orb].
  intros [= <-]. rewrite length_take, length_drop. lia.
Qed.

(** Writing a file in pages. *)
Lemma img_write_slices img va off i sz m c a : 0 <= off + i -> 0 <= m -> m = Z.min (sz - i) PGSIZE -> off + i + m <= size_of c ->
  img_write (img_write img (va + i) (slice (Z.to_nat (off + i)) (Z.to_nat m) c)) (va + (i + PGSIZE)) (slice (Z.to_nat (off + (i + PGSIZE))) (Z.to_nat (sz - (i + PGSIZE))) c) a =
  img_write img (va + i) (slice (Z.to_nat (off + i)) (Z.to_nat (sz - i)) c) a.
Proof.
  intros Ho Hm Em Hle. unfold size_of in Hle. destruct (Z.le_gt_cases (sz - i) PGSIZE) as [Hs|Hs].
  - replace (Z.to_nat (sz - (i + PGSIZE))) with 0%nat by lia. replace (sz - i) with m by lia. apply img_write_nil.
  - replace m with PGSIZE in * by lia.
    assert (slice (Z.to_nat (off + i)) (Z.to_nat (sz - i)) c = slice (Z.to_nat (off + i)) (Z.to_nat PGSIZE) c ++ slice (Z.to_nat (off + (i + PGSIZE))) (Z.to_nat (sz - (i + PGSIZE))) c) as ->.
    { unfold slice. replace (Z.to_nat (sz - i)) with (Z.to_nat PGSIZE + Z.to_nat (sz - (i + PGSIZE)))%nat by (unfold PGSIZE in *; lia).
      replace (Z.to_nat (off + (i + PGSIZE))) with (Z.to_nat (off + i) + Z.to_nat PGSIZE)%nat by (unfold PGSIZE in *; lia).
      rewrite <- drop_drop. symmetry. apply take_take_drop. }
    rewrite <- img_write_app. f_equal. unfold slice. rewrite length_take, length_drop. unfold PGSIZE in *. lia.
Qed.

Section Execspec.
Context `{KernelImage} {S : Type} `{SK : Sub kmem S} `{SwapOps S} `{IO : InodeIO S} `{NI : NameIO S} {XL : ExecLaws S}.
Context {L : list Z -> option (list Z)} {fl0 : list Z} {k0 : kmem} {d : Z} (Hk0 : kinv fl0 k0).
Implicit Types (s : S) (img : Z -> Z) (c : list Z).
Notation built := (built (fl0 := fl0) (k0 := k0) (d := d)).
Notation partial := (partial (fl0 := fl0) (k0 := k0) (d := d)).

Section Load.
Context {ip : nat} {c : list Z} (Hc : file_ok c).

(** ** loaduvm *)

Lemma loaduvm_loop_correct vaddr off sz N : vaddr mod PGSIZE = 0 -> PGSIZE <= vaddr -> vaddr + sz <= N * PGSIZE -> N <= UPAGES ->
  forall fuel i s img, 0 <= i -> i mod PGSIZE = 0 -> (Z.to_nat ((sz - i + PGSIZE - 1) / PGSIZE) < fuel)%nat -> 0 <= off -> off + i < 2 ^ 32 ->
  xl_locked L ip c s -> built N seven img (sub_get s) ->
  wp (loaduvm_loop fuel d vaddr ip off sz i) (fun r s' => xl_locked L ip c s' /\
    ((r = 0 /\ (i < sz -> off + sz <= size_of c) /\
        built N seven (img_write img (vaddr + i) (slice (Z.to_nat (off + i)) (Z.to_nat (sz - i)) c)) (sub_get s')) \/
     (r = -1 /\ i < sz /\ size_of c < off + sz /\ partial (sub_get s')))) s.
Proof.
  intros Hva Hv1 Hend HU. destruct Hc as [Hsz _]. induction fuel as [|fuel IH]; intros i s img Hi Him Hf Ho Hoi Hl Hb; [lia|]. cbn [loaduvm_loop].
  rewrite UPAGES_eq in HU.
  destruct (Z.ltb_spec i sz) as [Hlt|Hge]; cbn [negb].
  2: { apply wp_ret. split; [done|]. left. split; [done|]. split; [lia|]. replace (Z.to_nat (sz - i)) with 0%nat by lia.
       eapply built_ext; [|exact Hb]. intros a _. apply img_write_nil. }
  destruct Hb as (T & fl & fr & Hsp & Hsh). pose proof (sp_pt _ _ _ _ _ _ _ _ _ Hsp) as Hpt.
  set (n := (vaddr + i) / PGSIZE). assert (vaddr + i = n * PGSIZE /\ 1 <= n < N) as [En Hn] by (unfold n, PGSIZE in *; Z.div_mod_to_equations; lia).
  destruct (page_va n) as (_ & Hua & _); [rewrite UPAGES_eq; lia|]. destruct (space_table _ _ _ _ _ _ n Hsp Hn) as [t Ht].
  rewrite (u32_id (vaddr + i)) by (unfold PGSIZE in *; lia). rewrite En.
  apply wp_bind. eapply wp_lift_eq; [by apply (walkpgdir_hit Hpt _ t)|]. rewrite sub_put_get, (proj2 (Z.eqb_neq _ _) (entry_nonnull Hpt _ t Hua Ht)).
  apply wp_bind, wp_load. rewrite (pte_at Hpt Hua Ht), (sp_in _ _ _ _ _ _ _ _ _ Hsp n Hn). destruct (space_flags Hsp n Hn) as (Hfr & _). unfold frame_of in Hfr. rewrite Hfr.
  rewrite (u32_id (sz - i)), (u32_id (off + i)) by (unfold PGSIZE in *; lia). set (m := if sz - i <? PGSIZE then sz - i else PGSIZE).
  assert (m = Z.min (sz - i) PGSIZE) as Em by (unfold m; destruct (Z.ltb_spec (sz - i) PGSIZE); lia). clearbody m.
  apply wp_bind. eapply wp_mono; [apply (xl_read L ip c s (off + i) m Hl); unfold PGSIZE in *; lia|]. intros r s1 (-> & Hl1 & Es1).
  destruct (Z.le_gt_cases (off + i + m) (size_of c)) as [Hle|Hgt].
  - destruct (bytes_read_all (off + i) m c) as [-> Elen]; [lia|unfold PGSIZE in *; lia|done|done|]. set (bs := slice (Z.to_nat (off + i)) (Z.to_nat m) c) in *.
    apply wp_bind, wp_lift, wp_modify. rewrite Es1. rewrite Elen, Z2Nat.id, Z.eqb_refl by (unfold PGSIZE in *; lia). cbn [negb].
    destruct (space_store T fl (sub_get s) N fr seven img n 0 bs Hsp Hsh Hn) as [Hsp' Hsh']; [lia|rewrite Elen; unfold PGSIZE in *; lia|]. rewrite ?Z.add_0_r in Hsp'. rewrite !Z.add_0_r in Hsh'. rewrite <- En in Hsh'.
    rewrite (u32_id (i + PGSIZE)) by (unfold PGSIZE in *; lia).
    eapply wp_mono; [apply (IH (i + PGSIZE) _ (img_write img (vaddr + i) bs))|].
    + unfold PGSIZE; lia.
    + unfold PGSIZE in *. Z.div_mod_to_equations. lia.
    + unfold PGSIZE in *. Z.div_mod_to_equations. lia.
    + done.
    + unfold PGSIZE, FILEMAX in *. lia.
    + by apply xl_locked_put.
    + rewrite sub_get_put. exists T, fl, fr. split; [exact Hsp'|exact Hsh'].
    + intros r s' [Hl' Hres]. split; [done|]. destruct Hres as [(-> & Hend' & Hb')|(-> & Hlt' & Hgt & Hp)]; [left|right; split; [done|]; split; [lia|done]].
      split; [done|]. split; [intros _; unfold PGSIZE in *; lia|]. eapply built_ext; [|exact Hb']. intros a _. rewrite <- En.
      symmetry. apply img_write_slices; [lia|unfold PGSIZE in *; lia|done|done].
  - assert (size_of c < off + sz) as Hbad by (unfold PGSIZE in *; lia). destruct (bytes_read (off + i) m c) as [bs|] eqn:Ebs.
    + pose proof (bytes_read_short (off + i) m c bs ltac:(lia) ltac:(unfold PGSIZE in *; lia) Hgt Hsz Ebs) as Hlen.
      apply wp_bind, wp_lift, wp_modify. rewrite Es1, (proj2 (Z.eqb_neq _ _)) by lia. cbn [negb]. apply wp_ret. split; [by apply xl_locked_put|]. right.
      do 3 (split; [done|]). destruct (space_store T fl (sub_get s) N fr seven img n 0 bs Hsp Hsh Hn) as [Hsp' _]; [lia|unfold PGSIZE in *; lia|]. rewrite Z.add_0_r in Hsp'.
      rewrite sub_get_put. by exists T, fl, N, fr, seven.
    + apply wp_ret. split; [done|]. right. do 3 (split; [done|]). rewrite Es1. by exists T, fl, N, fr, seven.
Qed.

Lemma loaduvm_correct vaddr off sz N s img : vaddr mod PGSIZE = 0 -> (0 < sz -> PGSIZE <= vaddr) -> 0 <= sz -> vaddr + sz <= N * PGSIZE -> N <= UPAGES ->
  0 <= off < 2 ^ 32 -> xl_locked L ip c s -> built N seven img (sub_get s) ->
  wp (loaduvm d vaddr ip off sz) (fun r s' => xl_locked L ip c s' /\
    ((r = 0 /\ (0 < sz -> off + sz <= size_of c) /\ built N seven (img_write img vaddr (slice (Z.to_nat off) (Z.to_nat sz) c)) (sub_get s')) \/
     (r = -1 /\ 0 < sz /\ size_of c < off + sz /\ partial (sub_get s')))) s.
Proof.
  intros Hva Hv1 Hsz Hend HU Ho Hl Hb. unfold loaduvm. rewrite Hva. cbn [Z.eqb negb]. destruct (decide (sz = 0)) as [->|Hne].
  - cbn [loaduvm_loop]. apply wp_ret. split; [done|]. left. split; [done|]. split; [lia|]. eapply built_ext; [|exact Hb]. intros a _. apply img_write_nil.
  - eapply wp_mono; [apply (loaduvm_loop_correct vaddr off sz N Hva (Hv1 ltac:(lia)) Hend HU _ 0 s img); try done; try lia|].
    + rewrite Z.sub_0_r. unfold PGSIZE. Z.div_mod_to_equations. lia.
    + intros r s' [Hl' Hres]. split; [done|]. by rewrite !Z.sub_0_r, !Z.add_0_r in Hres.
Qed.

(** A segment in the first page goes to physical address 0: the page is not
    mapped, and [loaduvm] takes its empty entry for that of frame 0. *)
Lemma loaduvm_null N s img off : 2 <= N -> 0 <= off < size_of c -> xl_locked L ip c s -> built N seven img (sub_get s) ->
  wp (loaduvm d 0 ip off 1) (fun r s' => r = 0 /\ ld8 (memory (sub_get s')) KERNBASE = u8 (c !!! Z.to_nat off)) s.
Proof.
  intros HN Hoff Hl (T & fl & fr & Hsp & _). destruct Hc as [Hsz _]. pose proof (sp_pt _ _ _ _ _ _ _ _ _ Hsp) as Hpt. assert (uaddr 0) as Hua by (unfold uaddr; lia).
  destruct (space_table _ _ _ _ _ _ 1 Hsp) as [t Ht]; [lia|]. change (PDX (1 * PGSIZE)) with (PDX 0) in Ht.
  assert (pte (memory (sub_get s)) d 0 = 0) as Ep by (apply (sp_out _ _ _ _ _ _ _ _ _ Hsp 0); rewrite ?UPAGES_eq; lia).
  unfold loaduvm. change (0 mod PGSIZE =? 0) with true. cbn [negb]. change (Datatypes.S (Z.to_nat (1 / PGSIZE + 1))) with 2%nat. cbn [loaduvm_loop]. change (0 <? 1) with true. cbn [negb].
  change (u32 (0 + 0)) with 0. change (if u32 (1 - 0) <? PGSIZE then u32 (1 - 0) else PGSIZE) with 1.
  apply wp_bind. eapply wp_lift_eq; [by apply (walkpgdir_hit Hpt _ t)|]. rewrite sub_put_get, (proj2 (Z.eqb_neq _ _) (entry_nonnull Hpt _ t Hua Ht)).
  apply wp_bind, wp_load. rewrite (pte_at Hpt Hua Ht), Ep. rewrite Z.add_0_r, (u32_id off) by (unfold FILEMAX in *; lia).
  apply wp_bind. eapply wp_mono; [apply (xl_read L ip c s off 1 Hl); unfold FILEMAX in *; lia|]. intros r s1 (-> & _ & Es1).
  destruct (bytes_read_all off 1 c) as [-> Elen]; [lia|lia|lia|done|]. apply wp_bind, wp_lift, wp_modify. rewrite Elen. change (Z.of_nat (Z.to_nat 1) =? 1) with true. cbn [negb].
  change (u32 (0 + PGSIZE) <? 1) with false. cbn [negb]. apply wp_ret. split; [done|]. rewrite sub_get_put. cbn [memory set_memory]. change (P2V (PTE_ADDR 0)) with KERNBASE.
  rewrite ld8_store_bytes, decide_True by (rewrite Elen; lia). rewrite Z.sub_diag. change (Z.to_nat 0) with 0%nat. unfold slice, size_of in *.
  rewrite lookup_total_take_lt, lookup_total_drop by lia. f_equal. f_equal. lia.
Qed.

(** ** The segments *)

Lemma pages_mono x y : 0 <= x <= y -> y < KERNBASE -> pages x <= pages y.
Proof.
  intros Hx Hy. destruct (pages_spec x) as (Ex & _), (pages_spec y) as (Ey & _); [lia..|]. destruct (PGROUNDUP_facts x) as (Hrx & _), (PGROUNDUP_facts y) as (Hry & _); [lia..|].
  unfold PGSIZE in *. lia.
Qed.

Lemma plan_segments_size n : forall off sz img sz' img', plan_segments c n off sz img = Some (sz', img') -> sz < KERNBASE -> sz <= sz' < KERNBASE.
Proof.
  induction n as [|n IH]; intros off sz img sz' img' Hp Hk; cbn [plan_segments] in Hp; [injection Hp as -> _; lia|].
  destruct (bytes_read off PROGHDR c) as [ph|]; [|done]. repeat (case_match; try done); [by apply IH in Hp|]. boolify. apply IH in Hp; lia.
Qed.

Lemma bytes8_range b o : Forall (fun x => 0 <= x < 2 ^ 8) b -> 0 <= get8 b o < 2 ^ 8.
Proof.
  intros Hb. unfold get8. destruct (decide (o < length b)%nat) as [Hlt|Hge].
  - destruct (lookup_lt_is_Some_2 b o Hlt) as [x Hx]. rewrite (list_lookup_total_correct b o x Hx). rewrite list.Forall_forall in Hb. apply Hb. by eapply list_elem_of_lookup_2.
  - rewrite list_lookup_total_alt, lookup_ge_None_2 by lia. done.
Qed.
Lemma bytes32_range b o : Forall (fun x => 0 <= x < 2 ^ 8) b -> 0 <= get32 b o < 2 ^ 32.
Proof.
  intros Hb. unfold get32, get16. pose proof (bytes8_range b o Hb). pose proof (bytes8_range b (o + 1) Hb). pose proof (bytes8_range b (o + 2) Hb). pose proof (bytes8_range b (o + 2 + 1) Hb). lia.
Qed.

Lemma read_struct_ok s off n : xl_locked L ip c s -> 0 <= off < 2 ^ 32 -> 0 <= n < 2 ^ 32 ->
  wp (read_struct ip off n) (fun r s' => xl_locked L ip c s' /\ sub_get s' = sub_get s /\
    match r with
    | Some b => bytes_read off n c = Some b /\ Z.of_nat (length b) = n /\ Forall (fun x => 0 <= x < 2 ^ 8) b
    | None => bytes_read off n c = None \/ exists b, bytes_read off n c = Some b /\ Z.of_nat (length b) <> n
    end) s.
Proof.
  intros Hl Ho Hn. unfold read_struct. apply wp_bind. eapply wp_mono; [by apply (xl_read L ip c s off n Hl)|]. intros r s' (-> & Hl' & Es). apply wp_ret.
  split; [done|]. split; [done|]. destruct (bytes_read off n c) as [b|] eqn:E; [|by left]. destruct (Z.eqb_spec (Z.of_nat (length b)) n) as [En|En].
  - split; [done|]. split; [done|]. unfold bytes_read in E. destruct (_ || _); [done|]. injection E as <-. destruct Hc as [_ Hb]. by apply list.Forall_take, list.Forall_drop.
  - right. by exists b.
Qed.

(** The outcome of loading: the planned image, or too little memory for it. *)
Definition loaded (pl : option (Z * (Z -> Z))) (r : option Z) (s' : S) : Prop :=
  xl_locked L ip c s' /\
  match r with
  | Some sz' => exists img', pl = Some (sz', img') /\ built (pages sz') seven img' (sub_get s') /\ PGSIZE <= sz' < KERNBASE /\ forall a, sz' <= a -> img' a = 0
  | None => partial (sub_get s') /\ forall sz' img', pl = Some (sz', img') -> Z.of_nat (length fl0) <= 1024 + pages sz'
  end.

Lemma load_segments_correct n : forall off sz s img, 0 <= off < 2 ^ 32 -> PGSIZE <= sz < KERNBASE -> (forall a, sz <= a -> img a = 0) ->
  null_segment c n off = false -> xl_locked L ip c s -> built (pages sz) seven img (sub_get s) ->
  wp (load_segments n d ip off sz) (loaded (plan_segments c n off sz img)) s.
Proof.
  induction n as [|n IH]; intros off sz s img Ho Hsz Hz Hnn Hl Hb; cbn [load_segments plan_segments null_segment] in *.
  { apply wp_ret. split; [done|]. by exists img. }
  apply wp_bind. eapply wp_mono; [by apply (read_struct_ok s off PROGHDR Hl)|]. intros r s1 (Hl1 & Es1 & Hr). destruct r as [ph|].
  2: { apply wp_ret. split; [done|]. split; [rewrite Es1; by eapply built_partial|]. destruct Hr as [->|(b & -> & Hlen)]; [done|].
       rewrite (proj2 (Z.eqb_neq _ _) Hlen). done. }
  destruct Hr as (Er & Elen & Hbytes). rewrite Er in *. rewrite Elen in *. rewrite Z.eqb_refl in *. cbn [negb andb] in *. rewrite <- Es1 in Hb.
  apply orb_false_iff in Hnn as [Hn1 Hn2].
  assert (0 <= u32 (off + PROGHDR) < 2 ^ 32) as Ho' by apply u32_range.
  destruct (Z.eqb_spec (ph_type ph) ELF_PROG_LOAD) as [Et|Et]; cbn [negb andb] in *; [|by apply IH].
  pose proof (bytes32_range ph 4 Hbytes) as R1. pose proof (bytes32_range ph 8 Hbytes) as R2. pose proof (bytes32_range ph 16 Hbytes) as R3. pose proof (bytes32_range ph 20 Hbytes) as R4.
  fold (ph_off ph) in R1. fold (ph_vaddr ph) in R2. fold (ph_filesz ph) in R3. fold (ph_memsz ph) in R4.
  assert (forall s', xl_locked L ip c s' -> partial (sub_get s') -> loaded None None s') as Hfail by (intros s' ? ?; split; [done|]; split; [done|]; done).
  pose proof (built_partial _ _ _ _ Hb) as Hpart.
  destruct (Z.ltb_spec (ph_memsz ph) (ph_filesz ph)) as [?|Hmf]; [apply wp_ret; by apply Hfail|].
  destruct (Z.lt_ge_cases (ph_vaddr ph + ph_memsz ph) (2 ^ 32)) as [Hnw|Hw].
  2: { assert (u32 (ph_vaddr ph + ph_memsz ph) = ph_vaddr ph + ph_memsz ph - 2 ^ 32) as -> by (unfold u32; symmetry; apply Z.mod_unique with 1; lia).
       rewrite (proj2 (Z.ltb_lt _ _)) by lia. rewrite (proj2 (Z.leb_le KERNBASE _)) by (unfold KERNBASE; lia). apply wp_ret. by apply Hfail. }
  rewrite u32_id by lia. rewrite (proj2 (Z.ltb_ge _ _)) by lia. set (newsz := ph_vaddr ph + ph_memsz ph) in *.
  apply wp_bind. destruct (PGROUNDUP_facts sz) as (Hru & _); [unfold PGSIZE in *; lia|].
  eapply wp_mono; [apply (allocuvm_space s1 sz newsz img Hk0 Hsz); [lia|intros a Ha; apply Hz; lia|done]|].
  intros r s2 (k2 & -> & [(-> & Hwhy & Hp)|(-> & Hlt & Hb2)]).
  { cbn [Z.eqb]. apply wp_ret. split; [by apply xl_locked_put|]. split; [by rewrite sub_get_put|]. intros sz' img' Hpl. destruct Hwhy as [Hbig|[Hlt Hlen]].
    { by rewrite (proj2 (Z.leb_le _ _) Hbig) in Hpl. }
    rewrite (proj2 (Z.leb_gt _ _) Hlt) in Hpl. do 2 (case_match; [done|]). apply plan_segments_size in Hpl; [|lia].
    enough (pages newsz <= pages sz') by lia. apply pages_mono; lia. }
  rewrite (proj2 (Z.leb_gt _ _) Hlt), (proj2 (Z.eqb_neq _ _)) by (unfold PGSIZE in *; lia).
  destruct (Z.eqb_spec (ph_vaddr ph mod PGSIZE) 0) as [Hal|Hal]; cbn [negb]; [|apply wp_ret; apply Hfail; [by apply xl_locked_put|rewrite sub_get_put; by eapply built_partial]].
  assert (0 < ph_filesz ph -> PGSIZE <= ph_vaddr ph) as Hfirst.
  { intros Hpos. rewrite (proj2 (Z.ltb_lt _ _) Hpos) in Hn1. cbn [andb] in Hn1. boolify. lia. }
  destruct (pages_spec (Z.max sz newsz)) as (Hpg & HpU & _); [lia|]. destruct (PGROUNDUP_facts (Z.max sz newsz)) as (Hru' & _); [lia|].
  apply wp_bind. eapply wp_mono; [apply (loaduvm_correct (ph_vaddr ph) (ph_off ph) (ph_filesz ph) (pages (Z.max sz newsz)) _ img Hal Hfirst); [lia|rewrite <- Hpg; lia|lia|lia|by apply xl_locked_put|by rewrite sub_get_put]|].
  intros r s3 (Hl3 & [(-> & Hfit & Hb3)|(-> & Hpos & Hbad & Hp)]); cbv iota.
  - change (0 <? 0) with false. cbv iota.
    assert ((0 <? ph_filesz ph) && (size_of c <? ph_off ph + ph_filesz ph) = false) as ->.
    { destruct (Z.ltb_spec 0 (ph_filesz ph)); [|done]. apply Z.ltb_ge. by apply Hfit. }
    apply IH; try done; [lia|]. intros a Ha. unfold img_write. rewrite decide_False; [apply Hz; lia|]. unfold slice. rewrite length_take. lia.
  - change (-1 <? 0) with true. cbv iota. rewrite (proj2 (Z.ltb_lt _ _) Hpos), (proj2 (Z.ltb_lt _ _) Hbad). apply wp_ret. by apply Hfail.
Qed.
End Load.

(** ** The stack *)

Section Stack.
Context {N : Z} (HN : 3 <= N <= UPAGES).
Notation top := (N * PGSIZE).

(** Copying bytes that end within a word of the stack page: they are written
    exactly when they start in it. *)
Lemma stack_copy s img va data : data <> [] -> - 2 ^ 25 <= va -> va + Z.of_nat (length data) <= top -> top - PGSIZE - 4 < va + Z.of_nat (length data) ->
  built N (guarded (N - 2)) img (sub_get s) ->
  wp (copyout d (u32 va) data) (fun r s' => exists k', s' = sub_put k' s /\
    ((r = 0 /\ top - PGSIZE <= va /\ built N (guarded (N - 2)) (img_write img va data) k') \/ (r = -1 /\ va < top - PGSIZE /\ partial k'))) s.
Proof.
  intros Hne Hva Hend Htouch Hb. pose proof HN as HN'. rewrite UPAGES_eq in HN'. assert (0 < Z.of_nat (length data)) as Hpos by (destruct data; simpl in *; [done|lia]).
  destruct (Z.lt_ge_cases va 0) as [Hneg|Hnn].
  - assert (u32 va = va + 2 ^ 32) as -> by (unfold u32; symmetry; apply Z.mod_unique with (-1); lia).
    eapply wp_mono; [apply (copyout_space (fl0 := fl0) (k0 := k0) s N (guarded (N - 2)) img (va + 2 ^ 32) data); [lia|done|left; split; [unfold DEVSPACE; lia|done]]|].
    intros r s' (k' & -> & [(-> & Hok & _)|(-> & Hp & _)]); exists k'; (split; [done|]).
    + destruct (Hok (va + 2 ^ 32)) as [Hx _]; [lia|]. unfold PGSIZE in *. Z.div_mod_to_equations. lia.
    + right. split; [done|]. split; [unfold PGSIZE; lia|done].
  - rewrite u32_id by (unfold PGSIZE in *; lia).
    eapply wp_mono; [apply (copyout_space (fl0 := fl0) (k0 := k0) s N (guarded (N - 2)) img va data); [lia|done|right; done]|].
    intros r s' (k' & -> & [(-> & Hok & Hb')|(-> & Hp & a & Ha & Hbad)]); exists k'; (split; [done|]); [left|right]; (split; [done|]); (split; [|done]).
    + destruct (Z.le_gt_cases (top - PGSIZE) va) as [?|Hlow]; [done|exfalso]. destruct (Hok (Z.max va ((N - 2) * PGSIZE))) as [_ Hg]; [unfold PGSIZE in *; lia|].
      assert (Z.max va ((N - 2) * PGSIZE) / PGSIZE = N - 2) as E by (unfold PGSIZE in *; Z.div_mod_to_equations; lia). rewrite E in Hg. unfold guarded in Hg. by rewrite at_page_eq in Hg.
    + destruct (Z.le_gt_cases (top - PGSIZE) va) as [Hin|?]; [exfalso|done]. apply Hbad. assert (a / PGSIZE = N - 1) as -> by (unfold PGSIZE in *; Z.div_mod_to_equations; lia).
      split; [lia|]. unfold guarded. by rewrite at_page_ne by lia.
Qed.

(** The argument strings. *)
Lemma push_args_correct argv : forall argc sp ptrs s img, Forall (fun a => Z.of_nat (length a) < 2 ^ 24) argv -> top - PGSIZE <= sp <= top ->
  xl_idle L s -> built N (guarded (N - 2)) img (sub_get s) ->
  wp (push_args d argv argc sp ptrs) (fun r s' => xl_idle L s' /\
    match r with
    | Some (sp', ptrs') => exists img', plan_args top argv argc sp ptrs img = Some (sp', ptrs', img') /\
        built N (guarded (N - 2)) img' (sub_get s') /\ top - PGSIZE <= sp' <= top
    | None => plan_args top argv argc sp ptrs img = None /\ partial (sub_get s')
    end) s.
Proof.
  induction argv as [|arg argv IH]; intros argc sp ptrs s img Hargs Hsp Hi Hb; cbn [push_args plan_args]; [apply wp_ret; split; [done|]; by exists img|].
  inversion Hargs as [|? ? Hlen Hrest]; subst. destruct (Z.leb_spec (Z.of_nat MAXARG) argc); [apply wp_ret; split; [done|]; split; [done|by eapply built_partial]|].
  pose proof HN as HN'. rewrite UPAGES_eq in HN'. set (x := sp - (Z.of_nat (length arg) + 1)) in *. set (va := x / 4 * 4).
  assert (Z.land (u32 x) (u32 (Z.lnot 3)) = u32 va) as ->.
  { rewrite land_word_mask by apply u32_range. unfold va, u32. change (2 ^ 32) with (4 * 2 ^ 30). Z.div_mod_to_equations. lia. }
  assert (x - 4 < va <= x) as Hva by (unfold va; Z.div_mod_to_equations; lia).
  assert (Z.of_nat (length (arg ++ [0])) = Z.of_nat (length arg) + 1) as El by (rewrite length_app; simpl; lia).
  apply wp_bind. eapply wp_mono; [apply (stack_copy s img va (arg ++ [0])); [by intros []%app_eq_nil|unfold PGSIZE in *; lia|lia|lia|done]|].
  intros r s' (k' & -> & [(-> & Hin & Hb')|(-> & Hout & Hp)]).
  - change (0 <? 0) with false. cbv iota. rewrite (proj2 (Z.ltb_ge _ _) Hin).
    assert (u32 va = va) as -> by (apply u32_id; unfold PGSIZE in *; lia). eapply wp_mono; [apply IH; [done|lia|by apply xl_idle_put|by rewrite sub_get_put]|]. done.
  - change (-1 <? 0) with true. cbv iota. rewrite (proj2 (Z.ltb_lt _ _) Hout). apply wp_ret. split; [by apply xl_idle_put|]. split; [done|by rewrite sub_get_put].
Qed.
End Stack.

Lemma length_ustack argc sp ptrs : Z.of_nat (length (ustack argc sp ptrs)) = (Z.of_nat (length ptrs) + 4) * 4.
Proof.
  unfold ustack. assert (forall l : list Z, length (concat (le 4 <$> l)) = 4 * length l)%nat as Hl.
  { induction l as [|w l IHl]; [done|]. rewrite fmap_cons. cbn [concat length]. rewrite length_app, IHl. unfold le. rewrite length_fmap, length_seqZ. lia. }
  rewrite Hl. cbn [app]. rewrite !length_cons, length_app. simpl. lia.
Qed.

Lemma plan_args_length top argv : forall argc sp ptrs img sp' ptrs' img', plan_args top argv argc sp ptrs img = Some (sp', ptrs', img') ->
  argc = Z.of_nat (length ptrs) /\ argc <= 32 -> Z.of_nat (length ptrs') <= 32.
Proof.
  induction argv as [|arg argv IH]; intros argc sp ptrs img sp' ptrs' img' Hp Ha; cbn [plan_args] in Hp; [injection Hp as _ -> _; lia|].
  destruct (Z.leb_spec (Z.of_nat MAXARG) argc) as [|Hlt]; [done|]. case_match; [done|]. change (Z.of_nat MAXARG) with 32 in Hlt. apply IH in Hp; [done|]. rewrite length_app. simpl length. lia.
Qed.

(** The outcome of building the stack. *)
Definition stacked (entry : Z) (pl : option program) (r : option (Z * Z)) (s' : S) : Prop :=
  xl_idle L s' /\
  match r with
  | Some (sz', sp') => exists img', pl = Some (mk_program sz' entry sp' img') /\ 3 <= pages sz' <= UPAGES /\ sz' = pages sz' * PGSIZE /\ 0 <= sp' < 2 ^ 32 /\
      built (pages sz') (guarded (pages sz' - 2)) img' (sub_get s')
  | None => partial (sub_get s') /\ forall pr, pl = Some pr -> Z.of_nat (length fl0) <= 1024 + pages (pr_sz pr)
  end.

Lemma build_stack_correct entry argv sz s img : Forall (fun a => Z.of_nat (length a) < 2 ^ 24) argv -> PGSIZE <= sz < KERNBASE -> (forall a, sz <= a -> img a = 0) ->
  xl_idle L s -> built (pages sz) seven img (sub_get s) -> wp (build_stack d sz argv) (stacked entry (plan_stack argv entry sz img)) s.
Proof.
  intros Hargs Hsz Hz Hi Hb. unfold build_stack, plan_stack. destruct (PGROUNDUP_facts sz) as (Hr & Hm & Hk); [unfold PGSIZE in *; lia|].
  destruct (pages_spec sz) as (Ep & HpU & _); [unfold PGSIZE in *; lia|]. rewrite Ep in *. set (n := pages sz) in *.
  rewrite u32_id by (unfold KERNBASE, PGSIZE in *; lia). apply wp_bind. set (top := n * PGSIZE + 2 * PGSIZE).
  destruct (Z.leb_spec KERNBASE top) as [Hbig|Hfit].
  { unfold allocuvm. rewrite (proj2 (Z.leb_le _ _) Hbig). apply wp_ret. cbn [Z.eqb]. apply wp_ret. split; [done|]. split; [by eapply built_partial|done]. }
  assert (pages (n * PGSIZE) = n /\ PGROUNDUP (n * PGSIZE) = n * PGSIZE) as [En Eru].
  { unfold pages. rewrite PGROUNDUP_spec by (unfold KERNBASE, PGSIZE in *; lia). unfold PGSIZE. Z.div_mod_to_equations. lia. }
  assert (pages top = n + 2) as Et.
  { unfold pages, top. rewrite PGROUNDUP_spec by (unfold KERNBASE, PGSIZE in *; lia). unfold PGSIZE. Z.div_mod_to_equations. lia. }
  eapply wp_mono; [apply (allocuvm_space s (n * PGSIZE) top img Hk0); [unfold top, PGSIZE in *; lia|unfold top, PGSIZE in *; lia|rewrite Eru; intros a Ha; apply Hz; lia|by rewrite En]|].
  intros r s1 (k1 & -> & [(-> & Hwhy & Hp)|(-> & _ & Hb1)]).
  { cbn [Z.eqb]. apply wp_ret. split; [by apply xl_idle_put|]. rewrite sub_get_put. split; [done|]. intros pr Hpl. destruct Hwhy as [?|[_ Hlen]]; [lia|].
    do 3 (case_match; try done). case_match; [done|]. injection Hpl as <-. cbn [pr_sz]. lia. }
  replace (Z.max (n * PGSIZE) top) with top in * by (unfold top, PGSIZE; lia). rewrite (proj2 (Z.eqb_neq _ _)) by (unfold top, PGSIZE in *; lia).
  rewrite Et in Hb1. assert (3 <= n + 2 <= UPAGES) as HN by (rewrite UPAGES_eq; unfold top, KERNBASE, PGSIZE in *; lia).
  replace (u32 (top - 2 * PGSIZE)) with ((n + 2 - 2) * PGSIZE) by (rewrite u32_id; unfold top, KERNBASE, PGSIZE in *; lia).
  apply wp_bind. eapply wp_mono; [apply (clearpteu_space (fl0 := fl0) (k0 := k0) _ (n + 2) img (n + 2 - 2)); [lia|rewrite sub_get_put; exact Hb1]|].
  intros [] s2 (k2 & -> & Hb2). rewrite sub_put_put. assert (top = (n + 2) * PGSIZE) as Etop by (unfold top; lia). rewrite Etop in *.
  apply wp_bind. eapply wp_mono; [apply (push_args_correct HN argv 0 ((n + 2) * PGSIZE) [] _ img Hargs); [unfold PGSIZE; lia|by apply xl_idle_put|by rewrite sub_get_put]|].
  intros [[sp ptrs]|] s3 [Hi3 Hres].
  2: { destruct Hres as [-> Hp]. apply wp_ret. split; [done|]. split; [done|]. done. }
  destruct Hres as (img' & Epl & Hb3 & Hsp). rewrite Epl. pose proof (length_ustack (Z.of_nat (length ptrs)) sp ptrs) as El.
  pose proof (plan_args_length _ _ _ _ _ _ _ _ _ Epl) as Hlen. cbn [length] in Hlen. specialize (Hlen ltac:(lia)).
  replace ((3 + Z.of_nat (length ptrs) + 1) * 4) with ((Z.of_nat (length ptrs) + 4) * 4) by lia. set (va := sp - _) in *.
  apply wp_bind. eapply wp_mono; [apply (stack_copy HN s3 img' va (ustack (Z.of_nat (length ptrs)) sp ptrs)); [intros E; rewrite E in El; simpl in El; lia|unfold va, PGSIZE in *; lia..|done]|].
  intros r s4 (k4 & -> & [(-> & Hin & Hb4)|(-> & Hout & Hp)]).
  - change (0 <? 0) with false. cbv iota. rewrite (proj2 (Z.ltb_ge _ _) Hin). apply wp_ret. split; [by apply xl_idle_put|]. rewrite sub_get_put, Et.
    exists (img_write img' va (ustack (Z.of_nat (length ptrs)) sp ptrs)). assert (u32 va = va) as -> by (apply u32_id; rewrite UPAGES_eq in HN; unfold va, PGSIZE in *; lia).
    do 3 (split; [done|]). split; [|done]. rewrite UPAGES_eq in HN. unfold va, PGSIZE in *. lia.
  - change (-1 <? 0) with true. cbv iota. rewrite (proj2 (Z.ltb_lt _ _) Hout). apply wp_ret. split; [by apply xl_idle_put|]. rewrite sub_get_put. done.
Qed.

(** ** Giving up *)

Lemma done_with_ok ip c s : xl_locked L ip c s -> wp (done_with ip) (fun _ s' => xl_idle L s' /\ sub_get s' = sub_get s) s.
Proof.
  intros Hl. unfold done_with. apply wp_bind. eapply wp_mono; [by apply (xl_unlock L ip c s Hl)|]. intros _ s1 [Hr E1]. apply wp_bind.
  eapply wp_mono; [by apply (xl_put L ip c s1 Hr)|]. intros _ s2 [Ht E2]. eapply wp_mono; [by apply (xl_end L s2 Ht)|]. intros _ s3 [Hi E3]. split; [done|]. congruence.
Qed.

(** Everything is as it was. *)
Definition undone (s' : S) : Prop := xl_idle L s' /\ exists fl2, restored (fl0 := fl0) (k0 := k0) fl2 (sub_get s').

Lemma partial_page : forall k, partial k -> d <> NULL.
Proof. intros k (T & fl & N & fr & fg & Hsp). apply valid_page_nonnull. apply (pt_valid _ _ _ _ (sp_pt _ _ _ _ _ _ _ _ _ Hsp)). by left. Qed.

Lemma freevm_partial s : partial (sub_get s) -> wp (freevm d) (fun _ s' => exists fl2 k2, s' = sub_put k2 s /\ restored (fl0 := fl0) (k0 := k0) fl2 k2) s.
Proof. intros (T & fl & N & fr & fg & Hsp). by eapply freevm_space. Qed.

Lemma bad_file {A} ip c s : xl_locked L ip c s -> partial (sub_get s) -> wp (bad (A := A) d (Some ip)) (fun r s' => r = None /\ undone s') s.
Proof.
  intros Hl Hp. unfold bad. rewrite (proj2 (Z.eqb_neq _ _) (partial_page _ Hp)). cbn [negb]. apply wp_bind. eapply wp_mono; [by apply freevm_partial|].
  intros _ s1 (fl2 & k2 & -> & Hres). apply wp_bind. eapply wp_mono; [by apply (done_with_ok ip c), xl_locked_put|]. intros _ s2 [Hi E]. apply wp_ret.
  split; [done|]. split; [done|]. exists fl2. by rewrite E, sub_get_put.
Qed.

Lemma bad_early {A} ip c s fl2 : xl_locked L ip c s -> restored (fl0 := fl0) (k0 := k0) fl2 (sub_get s) ->
  wp (bad (A := A) NULL (Some ip)) (fun r s' => r = None /\ undone s') s.
Proof.
  intros Hl Hr. unfold bad. cbn [Z.eqb NULL negb]. apply wp_bind, wp_ret, wp_bind. eapply wp_mono; [by apply (done_with_ok ip c)|]. intros _ s2 [Hi E]. apply wp_ret.
  split; [done|]. split; [done|]. exists fl2. by rewrite E.
Qed.

Lemma bad_stack {A} s : xl_idle L s -> partial (sub_get s) -> wp (bad (A := A) d None) (fun r s' => r = None /\ undone s') s.
Proof.
  intros Hi Hp. unfold bad. rewrite (proj2 (Z.eqb_neq _ _) (partial_page _ Hp)). cbn [negb]. apply wp_bind. eapply wp_mono; [by apply freevm_partial|].
  intros _ s1 (fl2 & k2 & -> & Hres). apply wp_bind, wp_ret, wp_ret. split; [done|]. split; [by apply xl_idle_put|]. exists fl2. by rewrite sub_get_put.
Qed.
End Execspec.

(** ** exec up to the commit *)

Section Image.
Context `{KernelImage} {S : Type} `{SK : Sub kmem S} `{SwapOps S} `{IO : InodeIO S} `{NI : NameIO S} {XL : ExecLaws S}.
Implicit Types (s : S) (c path : list Z) (argv : list (list Z)).

Lemma restored_refl fl k : kinv fl k -> restored (fl0 := fl) (k0 := k) fl k.
Proof. intros Hk. split; [done|]. done. Qed.

(** The image [im] is the planned program, in pages taken from [fl]. *)
Definition committed fl (k : kmem) (pr : program) (im : uimage) (k' : kmem) : Prop :=
  im_sz im = pr_sz pr /\ im_entry im = pr_entry pr /\ im_sp im = pr_sp pr /\ 0 <= pr_entry pr < 2 ^ 32 /\ 0 <= pr_sp pr < 2 ^ 32 /\
  3 <= pages (pr_sz pr) <= UPAGES /\ pr_sz pr = pages (pr_sz pr) * PGSIZE /\
  built (fl0 := fl) (k0 := k) (d := im_pgdir im) (pages (pr_sz pr)) (guarded (pages (pr_sz pr) - 2)) (pr_img pr) k'.

(** What [exec_image] promises. *)
Definition image_post L path argv fl (k : kmem) (r : option uimage) (s' : S) : Prop :=
  xl_idle L s' /\
  match r with
  | Some im => exists c pr, L path = Some c /\ plan c argv = Some pr /\ committed fl k pr im (sub_get s')
  | None => (exists fl2, restored (fl0 := fl) (k0 := k) fl2 (sub_get s')) /\
      forall c pr, L path = Some c -> plan c argv = Some pr -> Z.of_nat (length fl) <= 1024 + pages (pr_sz pr)
  end.

Lemma undone_post L path argv fl k c s' : L path = Some c -> undone (L := L) (fl0 := fl) (k0 := k) s' ->
  (forall pr, plan c argv = Some pr -> Z.of_nat (length fl) <= 1024 + pages (pr_sz pr)) -> image_post L path argv fl k None s'.
Proof. intros EL [Hi Hr] Hwhy. split; [done|]. split; [done|]. intros c' pr Hc' Hpl. assert (c' = c) as -> by congruence. by apply Hwhy. Qed.

Lemma plan_stack_pages argv entry sz img pr : 0 <= sz < KERNBASE -> plan_stack argv entry sz img = Some pr -> pages sz <= pages (pr_sz pr).
Proof.
  intros Hsz Hp. unfold plan_stack in Hp. destruct (PGROUNDUP_facts sz) as (Hr & _); [lia|]. destruct (Z.leb_spec KERNBASE (PGROUNDUP sz + 2 * PGSIZE)); [done|].
  repeat (case_match; try done). injection Hp as <-. cbn [pr_sz]. apply pages_mono; unfold PGSIZE in *; lia.
Qed.

Lemma plan_pages c argv pr : plan c argv = Some pr -> 1 <= pages (pr_sz pr).
Proof.
  unfold plan. intros Hp. destruct (bytes_read 0 ELFHDR c) as [elf|]; [|done]. do 2 (case_match; [done|]). destruct (plan_segments _ _ _ _ _) as [[sz img]|] eqn:Es; [|done].
  apply plan_segments_size in Es; [|done]. apply plan_stack_pages in Hp; [|unfold PGSIZE in *; lia]. enough (pages PGSIZE <= pages sz) by (change (pages PGSIZE) with 1 in *; lia).
  apply pages_mono; unfold PGSIZE in *; lia.
Qed.

(** From the new page directory on. *)
Lemma build_program_correct L path argv fl k c elf ip d s : kinv fl k -> L path = Some c -> file_ok c -> Forall (fun a => Z.of_nat (length a) < 2 ^ 24) argv ->
  bytes_read 0 ELFHDR c = Some elf -> Z.of_nat (length elf) = ELFHDR -> Forall (fun x => 0 <= x < 2 ^ 8) elf -> e_magic elf = ELF_MAGIC ->
  null_segment c (Z.to_nat (e_phnum elf)) (e_phoff elf) = false -> xl_locked L ip c s -> built (fl0 := fl) (k0 := k) (d := d) 1 seven (fun _ => 0) (sub_get s) ->
  wp (o <- load_segments (Z.to_nat (e_phnum elf)) d ip (e_phoff elf) PGSIZE ;;
      match o with
      | None => bad d (Some ip)
      | Some sz =>
          done_with ip ;;;
          o <- build_stack d sz argv ;;
          match o with
          | None => bad d None
          | Some (sz, sp) => kret (Some (mk_uimage d sz (e_entry elf) sp))
          end
      end) (image_post L path argv fl k) s.
Proof.
  intros Hk EL Hc Hargs Eelf Elen Hbytes Hmagic Hnull Hl Hb.
  assert (plan c argv = match plan_segments c (Z.to_nat (e_phnum elf)) (e_phoff elf) PGSIZE (fun _ => 0) with Some (sz, img) => plan_stack argv (e_entry elf) sz img | None => None end) as Epl.
  { unfold plan. rewrite Eelf, Elen, Hmagic, !Z.eqb_refl. done. }
  apply wp_bind. eapply wp_mono; [apply (load_segments_correct (L := L) (ip := ip) (fl0 := fl) (k0 := k) (d := d) Hk Hc _ (e_phoff elf) PGSIZE s (fun _ => 0)); try done; apply (bytes32_range elf 28 Hbytes)|].
  intros [sz|] s1 [Hl1 Hr].
  2: { destruct Hr as [Hp Hwhy]. eapply wp_mono; [by apply (bad_file (L := L) (fl0 := fl) (k0 := k) (d := d) Hk ip c)|]. intros r s' [-> Hu]. eapply undone_post; [done|done|]. intros pr Hpl. rewrite Epl in Hpl.
       destruct (plan_segments _ _ _ _ _) as [[sz' img']|] eqn:Es; [|done]. specialize (Hwhy sz' img' eq_refl). apply plan_segments_size in Es; [|done].
       apply plan_stack_pages in Hpl; [lia|unfold PGSIZE in *; lia]. }
  destruct Hr as (img & Eseg & Hb1 & Hsz & Hz). rewrite Eseg in Epl. apply wp_bind. eapply wp_mono; [by apply (done_with_ok (L := L) ip c)|]. intros _ s2 [Hi2 E2].
  apply wp_bind. eapply wp_mono; [apply (build_stack_correct (L := L) (fl0 := fl) (k0 := k) (d := d) Hk (e_entry elf) argv sz s2 img Hargs Hsz Hz Hi2); by rewrite E2|].
  intros [[sz' sp]|] s3 [Hi3 Hr].
  - destruct Hr as (img' & Epr & HN & Esz & Hsp & Hb3). apply wp_ret. split; [done|]. exists c, (mk_program sz' (e_entry elf) sp img'). split; [done|]. split; [congruence|]. do 3 (split; [done|]).
    split; [apply (bytes32_range elf 24 Hbytes)|]. done.
  - destruct Hr as [Hp Hwhy]. eapply wp_mono; [by apply (bad_stack (L := L) (fl0 := fl) (k0 := k) (d := d) Hk)|]. intros r s' [-> Hu]. eapply undone_post; [done|done|]. intros pr Hpl. apply Hwhy. congruence.
Qed.

Lemma exec_image_correct L path argv fl s : kinv fl (sub_get s) -> xl_idle L s -> Forall (fun a => Z.of_nat (length a) < 2 ^ 24) argv ->
  (forall c, L path = Some c -> loads_null c = false) -> wp (exec_image path argv) (image_post L path argv fl (sub_get s)) s.
Proof.
  intros Hk Hi Hargs Hnull. unfold exec_image. apply wp_bind. eapply wp_mono; [by apply (xl_begin L s Hi)|]. intros _ s1 [Ht E1].
  apply wp_bind. eapply wp_mono; [by apply (xl_namei L s1 path Ht)|]. intros r s2 [E2 Hr]. destruct (L path) as [c|] eqn:EL.
  2: { destruct Hr as [-> Ht2]. apply wp_bind. eapply wp_mono; [by apply (xl_end L s2 Ht2)|]. intros _ s3 [Hi3 E3]. apply wp_ret. split; [done|].
       split; [|intros c pr; by rewrite EL]. exists fl. rewrite E3, E2, E1. by apply restored_refl. }
  destruct Hr as (ip & -> & Href). pose proof (xl_file L s path c Hi EL) as Hc. specialize (Hnull c eq_refl). unfold loads_null in Hnull.
  apply wp_bind. eapply wp_mono; [by apply (xl_lock L ip c s2 Href)|]. intros _ s3 [Hl E3].
  apply wp_bind. eapply wp_mono; [by apply (read_struct_ok (L := L) (ip := ip) Hc s3 0 ELFHDR Hl)|]. intros r s4 (Hl4 & E4 & Hr). assert (sub_get s4 = sub_get s) as E by congruence. clear E1 E2 E3 E4.
  destruct r as [elf|].
  2: { eapply wp_mono; [apply (bad_early (L := L) (fl0 := fl) (k0 := sub_get s) ip c s4 fl Hl4); rewrite E; by apply restored_refl|]. intros r s' [-> Hu].
       eapply undone_post; [done|done|]. intros pr. unfold plan. destruct Hr as [->|(b & -> & Hlen)]; [done|]. by rewrite (proj2 (Z.eqb_neq _ _) Hlen). }
  destruct Hr as (Eelf & Elen & Hbytes). rewrite Eelf in Hnull. destruct (Z.eqb_spec (e_magic elf) ELF_MAGIC) as [Em|Em]; cbn [negb].
  2: { eapply wp_mono; [apply (bad_early (L := L) (fl0 := fl) (k0 := sub_get s) ip c s4 fl Hl4); rewrite E; by apply restored_refl|]. intros r s' [-> Hu].
       eapply undone_post; [done|done|]. intros pr. unfold plan. by rewrite Eelf, Elen, (proj2 (Z.eqb_neq _ _) Em). }
  apply wp_bind. eapply wp_mono; [apply (setupkvm_spec fl s4); by rewrite E|]. rewrite E. intros d s5 (k5 & -> & [(-> & fl2 & R1 & R2 & R3 & R4 & Hlen)|(Hd & fl2 & T2 & Hkv & Hcov)]).
  - cbn [Z.eqb NULL]. eapply wp_mono; [apply (bad_early (L := L) (fl0 := fl) (k0 := sub_get s) ip c _ fl2); [by apply xl_locked_put|by rewrite sub_get_put]|]. intros r s' [-> Hu].
    eapply undone_post; [done|done|]. intros pr Hpl%plan_pages. lia.
  - change (d <> NULL) in Hd. rewrite (proj2 (Z.eqb_neq _ _) Hd). apply (build_program_correct L path argv fl (sub_get s) c elf ip d); try done; [by apply xl_locked_put|].
    rewrite sub_get_put. eexists T2, fl2, _. split; [by apply space_start|]. intros n o Hn. lia.
Qed.
End Image.
