(* ===== verification/Execrun.v ===== *)
(** * Committing to the new image (exec.c)

    After [exec_image] has built the planned program ([Execspec]), [exec]
    enters it in the process and the trap frame and frees the old address
    space.  The theorem of this file follows a call of [exec] as a whole. *)

From S2P Require Import Prelude Layout Mem Kstring Kalloc Vm Uvm Space Spaceio Block Fs Pipe File Bytefile Syscall Sysfile Proc Exec Execspec.

Section Commit.
Context `{KernelImage} {S : Type} `{SK : Sub kmem S} `{SW : SwapOps S}.
Implicit Types (fl : list Z) (k : kmem) (T : gmap Z Z) (fr fg img : Z -> Z) (m : mem) (s : S).

(** ** The trap frame *)

(** A change outside the pages of the construction. *)
Lemma space_outside fl0 k0 d T fl k N fr fg m0 m : space fl0 k0 d T fl k N fr fg ->
  (forall a, in_pages fl0 a -> ld8 m a = ld8 (memory k) a) -> (forall a, ~ in_pages fl0 a -> ld8 m a = ld8 m0 a) ->
  space fl0 (set_memory m0 k0) d T fl (set_memory m k) N fr fg.
Proof.
  intros Hsp Hin Hout. pose proof Hsp as [S1 S2 S3 S4 S5 S6 S7 S8 S9 S10 S11 S12].
  assert (forall a, pt_bytes d T a -> ld8 m a = ld8 (memory k) a) as Hpb by (intros a (v & Hv & Ha); apply Hin; exists v; split; [apply S9; by right; left|done]).
  assert (forall va, uaddr va -> pte m d va = pte (memory k) d va) as Hpte by (intros va Hva; by apply (pte_frame S1)).
  split; try done; cbn [memory set_memory].
  - apply (pt_inv_frame S1); [|intros v Hv; by apply (pt_valid _ _ _ _ S1)|done]. apply kinv_set_memory; [by eapply pt_kinv|].
    intros a (v & Hv & Ha). apply Hin. exists v. split; [apply S9; by left|done].
  - intros n Hn. rewrite Hpte by (apply page_va; lia). by apply S3.
  - intros n Hn Hno. rewrite Hpte by (apply page_va; lia). by apply S7.
  - intros e n va He Hva Hr. rewrite Hpte by done. by eapply S8.
Qed.

(** The stores into the trap frame at [tf]. *)
Definition set_frame (tf entry sp : Z) m : mem := st32 (tf + TF_ESP) sp (st32 (tf + TF_EIP) entry m).

Lemma ld8_set_frame tf entry sp m a : ~ tf <= a < tf + TFSIZE -> ld8 (set_frame tf entry sp m) a = ld8 m a.
Proof. intros Ha. unfold set_frame, TFSIZE, TF_ESP, TF_EIP in *. rewrite !ld8_st32, !decide_False by lia. done. Qed.

Lemma ld8_set_frame_ext tf entry sp m m' a : ld8 m a = ld8 m' a -> ld8 (set_frame tf entry sp m) a = ld8 (set_frame tf entry sp m') a.
Proof. intros E. unfold set_frame. rewrite !ld8_st32. by repeat case_decide. Qed.

Lemma ld32_set_frame tf entry sp m : 0 <= entry < 2 ^ 32 -> 0 <= sp < 2 ^ 32 ->
  ld32 (set_frame tf entry sp m) (tf + TF_EIP) = entry /\ ld32 (set_frame tf entry sp m) (tf + TF_ESP) = sp.
Proof.
  intros He Hs. unfold set_frame. split; [rewrite ld32_st32_ne by (unfold TF_ESP, TF_EIP; lia)|]; rewrite ld32_st32_eq; by apply u32_id.
Qed.

(** ** The process before the call *)

(** Its address space can be freed; its kernel stack at [K] is a page of its
    own, with the trap frame. *)
Record ready fl k (D : Z) T (K tf : Z) : Prop := {
  rd_free : freeable fl D T k (upages 0 KERNBASE);
  rd_one : forall v, pt_page D T v -> refs k v = 1;
  rd_stack : valid_page K /\ K ∉ fl /\ ~ pt_page D T K /\ K ∉ frames (memory k) D (upages 0 KERNBASE);
  rd_frame : K <= tf /\ tf + TFSIZE <= K + PGSIZE
}.

(** ** The process after the call

    The address space at [d] with the program [pr]: what every user address
    reads, the kernel's part, the registers the program starts with; and what
    became of every other page. *)
Record running fl k (D : Z) T0 (tf : Z) (pr : program) (d : Z) fl' T k' : Prop := {
  rn_as : as_inv fl' d T k';
  rn_view : forall va, user_va va -> uread (memory k') d va =
    if decide (PGSIZE <= va < pr_sz pr /\ ~ pr_sz pr - 2 * PGSIZE <= va < pr_sz pr - PGSIZE) then Some (pr_img pr va) else None;
  rn_kern : forall e n va, (e, n) ∈ kregions -> uaddr va -> in_region e n va -> pte (memory k') d va = region_pte e va;
  rn_eip : ld32 (memory k') (tf + TF_EIP) = pr_entry pr;
  rn_esp : ld32 (memory k') (tf + TF_ESP) = pr_sp pr;
  rn_free : forall v, v ∈ fl' <->
    (v ∈ fl /\ ~ pt_page d T v /\ (forall va, user_va va -> flag PTE_P (pte (memory k') d va) = true -> frame_of (pte (memory k') d va) <> v)) \/
    pt_page D T0 v \/ (v ∈ frames (memory k) D (upages 0 KERNBASE) /\ refs k v = occ v (frames (memory k) D (upages 0 KERNBASE)));
  rn_refs : forall v, valid_page v -> v ∉ fl -> ~ pt_page D T0 v -> refs k' v = refs k v - occ v (frames (memory k) D (upages 0 KERNBASE));
  rn_frame : forall a, ~ in_pages fl a -> (forall v, v ∈ fl' -> ~ v <= a < v + PGSIZE) -> ~ tf <= a < tf + TFSIZE ->
    ld8 (memory k') a = ld8 (memory k) a
}.

Section Run.
Context {fl0 : list Z} {k0 : kmem} {D : Z} {T0 : gmap Z Z} {K tf : Z} (Hk0 : kinv fl0 k0) (Hrd : ready fl0 k0 D T0 K tf).
Context {d : Z} {T : gmap Z Z} {fl : list Z} {k : kmem} {N : Z} {fr fg : Z -> Z} {img : Z -> Z} {entry sp : Z}.
Context (Hsp : space fl0 k0 d T fl k N fr fg) (Hsh : shows (memory k) N fr img).
Notation F := (frames (memory k0) D (upages 0 KERNBASE)).
Notation k2 := (set_memory (set_frame tf entry sp (memory k)) k).
Notation k0' := (set_memory (set_frame tf entry sp (memory k0)) k0).

(** The old pages are not among the free ones. *)
Lemma old_not_free v : pt_page D T0 v \/ v ∈ F \/ v = K -> valid_page v /\ v ∉ fl0.
Proof.
  destruct Hrd as [Hf _ (HK1 & HK2 & _) _]. intros [Hv|[Hv| ->]]; [by apply (pt_valid _ _ _ _ (fr_pt _ _ _ _ _ Hf))| |done].
  by destruct (fr_frames _ _ _ _ _ Hf v Hv) as (? & ? & _).
Qed.

Lemma old_bytes v a : valid_page v -> v ∉ fl0 -> v <= a < v + PGSIZE -> ~ in_pages fl0 a.
Proof.
  intros Hv Hn Ha (u & Hu & Hau). pose proof (ki_valid _ _ Hk0) as Hval. rewrite list.Forall_forall in Hval.
  apply (pages_apart u v a (Hval u Hu) Hv); [by intros ->|done|done].
Qed.

Lemma tf_outside a : tf <= a < tf + TFSIZE -> K <= a < K + PGSIZE.
Proof. destruct (rd_frame _ _ _ _ _ _ Hrd). lia. Qed.

Lemma frame_entered : space fl0 k0' d T fl k2 N fr fg /\ shows (memory k2) N fr img.
Proof.
  destruct (old_not_free K) as [HK1 HK2]; [by right; right|].
  assert (forall a, in_pages fl0 a -> ~ tf <= a < tf + TFSIZE) as Hno.
  { intros a Ha Hin. apply tf_outside in Hin. by apply (old_bytes K a HK1 HK2). }
  split.
  - apply (space_outside _ _ _ _ _ _ _ _ _ _ _ Hsp).
    + intros a Ha. by apply ld8_set_frame, Hno.
    + intros a Ha. apply ld8_set_frame_ext. by apply (sp_frame _ _ _ _ _ _ _ _ _ Hsp).
  - intros n o Hn Ho. cbn [memory set_memory]. rewrite ld8_set_frame; [by apply Hsh|]. apply Hno, (frame_taken Hsp). exists n. split; [done|lia].
Qed.

(** The old address space is as it was. *)
Lemma old_memory v a : pt_page D T0 v -> v <= a < v + PGSIZE -> ld8 (memory k2) a = ld8 (memory k0) a.
Proof.
  intros Hv Ha. destruct (old_not_free v) as [Hvv Hvn]; [by left|]. cbn [memory set_memory]. rewrite ld8_set_frame.
  - apply (sp_frame _ _ _ _ _ _ _ _ _ Hsp). by apply (old_bytes v).
  - intros Hin%tf_outside. destruct (rd_stack _ _ _ _ _ _ Hrd) as (HK & _ & Hnp & _). apply (pages_apart v K a Hvv HK); [by intros ->|done|done].
Qed.

Lemma old_freeable : freeable fl D T0 k2 (upages 0 KERNBASE) /\ frames (memory k2) D (upages 0 KERNBASE) = F /\ forall v, pt_page D T0 v -> refs k2 v = 1.
Proof.
  pose proof (rd_free _ _ _ _ _ _ Hrd) as [P1 P2 P3 P4]. pose proof (sp_pages _ _ _ _ _ _ _ _ _ Hsp) as Hpg.
  assert (forall a, pt_bytes D T0 a -> ld8 (memory k2) a = ld8 (memory k0) a) as Hb by (intros a (v & Hv & Ha); by apply (old_memory v)).
  assert (forall v, v ∉ fl0 -> v ∉ fl) as Hsub by (intros v Hn Hin; apply Hn, Hpg; by left).
  assert (pt_inv fl D T0 k2) as Hpt.
  { apply (pt_inv_frame P1); [apply (pt_kinv _ _ _ _ (sp_pt _ _ _ _ _ _ _ _ _ (proj1 frame_entered)))| |done]. intros v Hv. by apply Hsub, (pt_valid _ _ _ _ P1). }
  assert (forall va, va ∈ upages 0 KERNBASE -> pte (memory k2) D va = pte (memory k0) D va) as Hpte.
  { intros va Hva. destruct (P2 va Hva) as [Hu _]. apply (pte_frame P1); [by apply user_va_addr|done]. }
  assert (frames (memory k2) D (upages 0 KERNBASE) = F) as EF by by apply frames_ext.
  assert (forall v, valid_page v -> v ∉ fl0 -> refs k2 v = refs k0 v) as Hr by (intros v Hv Hn; by apply (sp_refs _ _ _ _ _ _ _ _ _ Hsp)).
  split; [split; [done|done| |]|split; [done|]].
  - rewrite EF. intros q Hq. destruct (P3 q Hq) as (Q1 & Q2 & Q3 & Q4). rewrite Hr by done. split; [done|]. split; [by apply Hsub|done].
  - intros va Hva. rewrite Hpte by done. by apply P4.
  - intros v Hv. destruct (old_not_free v) as [? ?]; [by left|]. rewrite Hr by done. by apply (rd_one _ _ _ _ _ _ Hrd).
Qed.

Section Freed.
Context {fl3 : list Z} {k3 : kmem} (Hvf : vm_freed fl D T0 k2 F fl3 k3).

Lemma new_page v : v ∈ fl0 -> v ∉ fl -> v ∉ fl3.
Proof.
  intros Hin Hn Hv. apply (vf_free _ _ _ _ _ _ _ Hvf) in Hv as [?|[Hv|[Hv _]]]; [done|destruct (old_not_free v) as [_ ?]; [by left|done]|].
  destruct (old_not_free v) as [_ ?]; [by right; left|done].
Qed.

(** Pages that were not freed keep their bytes. *)
Lemma kept_bytes v a : valid_page v -> v ∉ fl3 -> v <= a < v + PGSIZE -> ld8 (memory k3) a = ld8 (memory k2) a.
Proof.
  intros Hv Hn Ha. apply (vf_frame _ _ _ _ _ _ _ Hvf). intros u Hu _ Hau. pose proof (ki_valid _ _ (vf_kinv _ _ _ _ _ _ _ Hvf)) as Hval. rewrite list.Forall_forall in Hval.
  apply (pages_apart u v a (Hval u Hu) Hv); [by intros ->|done|done].
Qed.

Lemma kept_table v : pt_page d T v -> valid_page v /\ v ∈ fl0 /\ v ∉ fl /\ v ∉ fl3.
Proof.
  intros Hv. destruct (pt_valid _ _ _ _ (sp_pt _ _ _ _ _ _ _ _ _ Hsp) v Hv) as [Hvv Hn]. assert (v ∈ fl0) as Hin by (apply (sp_pages _ _ _ _ _ _ _ _ _ Hsp); by right; left).
  split; [done|]. split; [done|]. split; [done|by apply new_page].
Qed.

Lemma kept_frame n : 1 <= n < N -> valid_page (fr n) /\ fr n ∈ fl0 /\ fr n ∉ fl3 /\ ~ pt_page d T (fr n) /\ refs k3 (fr n) = 1.
Proof.
  intros Hn. destruct (sp_fr _ _ _ _ _ _ _ _ _ Hsp n Hn) as (Hv & Hf & Hp & Hr). assert (fr n ∈ fl0) as Hin by (apply (sp_pages _ _ _ _ _ _ _ _ _ Hsp); right; right; by exists n).
  split; [done|]. split; [done|]. split; [by apply new_page|]. split; [done|]. rewrite (vf_refs _ _ _ _ _ _ _ Hvf); [|done|intros Hx; destruct (old_not_free (fr n)) as [_ ?]; [by left|done]].
  rewrite (proj2 (occ_zero (fr n) F)); [change (refs k2 (fr n)) with (refs k (fr n)); lia|]. intros Hx. destruct (old_not_free (fr n)) as [_ ?]; [by right; left|done].
Qed.

Lemma kept_pte va : uaddr va -> pte (memory k3) d va = pte (memory k2) d va.
Proof.
  intros Hva. apply (pte_frame (sp_pt _ _ _ _ _ _ _ _ _ (proj1 frame_entered))); [done|]. intros a (v & Hv & Ha). destruct (kept_table v Hv) as (? & _ & _ & ?). by apply (kept_bytes v).
Qed.

Lemma new_as : as_inv fl3 d T k3.
Proof.
  destruct frame_entered as [Hsp2 _]. split.
  - apply (pt_inv_frame (sp_pt _ _ _ _ _ _ _ _ _ Hsp2)); [by apply (vf_kinv _ _ _ _ _ _ _ Hvf)|intros v Hv; by apply kept_table|].
    intros a (v & Hv & Ha). destruct (kept_table v Hv) as (? & _ & _ & ?). by apply (kept_bytes v).
  - intros va Hva Hu. rewrite kept_pte by done. rewrite (space_pte Hsp2) by (unfold user_va, uaddr in *; lia). case_decide as Dn; [|done]. intros _.
    destruct (space_flags Hsp2 _ Dn) as (Ef & _). cbv zeta. rewrite Ef. destruct (kept_frame _ Dn) as (? & _ & ? & ? & Er). rewrite Er. done.
Qed.

Lemma new_view va : user_va va -> uread (memory k3) d va = if decide (1 <= va / PGSIZE < N /\ fg (va / PGSIZE) = 7) then Some (img va) else None.
Proof.
  intros Hu. destruct frame_entered as [Hsp2 Hsh2]. unfold uread. rewrite kept_pte, (space_pte Hsp2) by (done || by apply user_va_addr). destruct (decide (1 <= va / PGSIZE < N)) as [Dn|Dn].
  - destruct (space_flags Hsp2 _ Dn) as (Ef & -> & _ & _ & ->). cbn [andb]. case_bool_decide as Hg; [rewrite decide_True by done|by rewrite decide_False by tauto].
    unfold frame_of in Ef. rewrite Ef. destruct (kept_frame _ Dn) as (Hv & _ & Hn & _). f_equal. pose proof (page_offset va) as Ho. rewrite (kept_bytes _ _ Hv Hn) by lia.
    rewrite (Hsh2 _ _ Dn Ho). f_equal. unfold PGSIZE. Z.div_mod_to_equations. lia.
  - rewrite decide_False by tauto. done.
Qed.

Lemma new_frames v : (exists n, 1 <= n < N /\ fr n = v) <-> exists va, user_va va /\ flag PTE_P (pte (memory k3) d va) = true /\ frame_of (pte (memory k3) d va) = v.
Proof.
  destruct frame_entered as [Hsp2 _]. pose proof (sp_N _ _ _ _ _ _ _ _ _ Hsp) as HN. split.
  - intros (n & Hn & <-). exists (n * PGSIZE). destruct (page_va n) as (Hu & Hua & _ & Ed); [lia|]. split; [done|]. rewrite kept_pte, (sp_in _ _ _ _ _ _ _ _ _ Hsp2 n Hn) by done.
    by destruct (space_flags Hsp2 n Hn) as (-> & -> & _).
  - intros (va & Hu & Hp & <-). rewrite kept_pte, (space_pte Hsp2) in * by (done || by apply user_va_addr). case_decide as Dn; [|done]. exists (va / PGSIZE). split; [done|].
    by destruct (space_flags Hsp2 _ Dn) as (-> & _).
Qed.

Lemma new_free v : v ∈ fl3 <->
    (v ∈ fl0 /\ ~ pt_page d T v /\ (forall va, user_va va -> flag PTE_P (pte (memory k3) d va) = true -> frame_of (pte (memory k3) d va) <> v)) \/
    pt_page D T0 v \/ (v ∈ F /\ refs k0 v = occ v F).
Proof.
  pose proof (sp_pages _ _ _ _ _ _ _ _ _ Hsp) as Hpg. rewrite (vf_free _ _ _ _ _ _ _ Hvf).
  assert (v ∈ F -> refs k2 v = refs k0 v) as Hr by (intros Hv; apply (sp_refs _ _ _ _ _ _ _ _ _ Hsp); apply old_not_free; by right; left).
  split; (intros [Hv|[Hv|[Hv Ho]]]; [left|by right; left|right; right; split; [done|specialize (Hr Hv); congruence]]).
  - split; [apply Hpg; by left|]. split; [intros Hp; by apply (pt_valid _ _ _ _ (sp_pt _ _ _ _ _ _ _ _ _ Hsp) v Hp)|]. intros va Hu Hp E.
    destruct (proj2 (new_frames v)) as (n & Hn & En); [by exists va|]. destruct (sp_fr _ _ _ _ _ _ _ _ _ Hsp n Hn) as (_ & Hnf & _). by rewrite En in Hnf.
  - destruct Hv as (Hin & Hnp & Hnf). apply Hpg in Hin as [?|[?|Hn]]; [done|done|]. apply new_frames in Hn as (va & Hu & Hp & E). by destruct (Hnf va Hu Hp).
Qed.

Lemma now_running pr : img = pr_img pr -> entry = pr_entry pr -> sp = pr_sp pr -> 0 <= entry < 2 ^ 32 -> 0 <= sp < 2 ^ 32 ->
  pr_sz pr = N * PGSIZE -> 3 <= N -> (forall n, fg n = guarded (N - 2) n) -> running fl0 k0 D T0 tf pr d fl3 T k3.
Proof.
  intros Ei Ee Es He Hs Esz HN Hg. destruct frame_entered as [Hsp2 _]. destruct (old_not_free K) as [HK1 HK2]; [by right; right|].
  assert (K ∉ fl3) as HK3.
  { intros Hin. destruct (rd_stack _ _ _ _ _ _ Hrd) as (_ & _ & Hnp & HnF). apply (vf_free _ _ _ _ _ _ _ Hvf) in Hin as [Hin|[?|[? _]]]; [|done|done].
    apply HK2, (sp_pages _ _ _ _ _ _ _ _ _ Hsp). by left. }
  assert (forall a, tf <= a < tf + TFSIZE -> ld8 (memory k3) a = ld8 (memory k2) a) as Htf by (intros a Ha%tf_outside; by apply (kept_bytes K)).
  destruct (ld32_set_frame tf entry sp (memory k) He Hs) as [E1 E2]. split.
  - apply new_as.
  - intros va Hu. rewrite new_view, <- Ei by done. assert (1 <= va / PGSIZE < N /\ fg (va / PGSIZE) = 7 <-> PGSIZE <= va < pr_sz pr /\ ~ pr_sz pr - 2 * PGSIZE <= va < pr_sz pr - PGSIZE) as Hiff.
    { rewrite Hg, Esz. unfold guarded, at_page, seven. pose proof (Z.div_mod va PGSIZE ltac:(done)). pose proof (page_offset va). case_decide; unfold PGSIZE in *; lia. }
    destruct (decide (PGSIZE <= va < pr_sz pr /\ _)); [by rewrite decide_True by tauto|by rewrite decide_False by tauto].
  - intros e n va He' Hva Hr. rewrite kept_pte by done. by apply (sp_kern _ _ _ _ _ _ _ _ _ Hsp2 e n).
  - rewrite <- Ee, <- E1. apply ld32_ext. intros b Hb. apply Htf. unfold TF_EIP, TFSIZE in *. lia.
  - rewrite <- Es, <- E2. apply ld32_ext. intros b Hb. apply Htf. unfold TF_ESP, TFSIZE in *. lia.
  - apply new_free.
  - intros v Hv Hn Hnp. rewrite (vf_refs _ _ _ _ _ _ _ Hvf) by done. f_equal. by apply (sp_refs _ _ _ _ _ _ _ _ _ Hsp).
  - intros a Ha Hf Hna. rewrite (vf_frame _ _ _ _ _ _ _ Hvf) by (intros v Hv _; by apply Hf). cbn [memory set_memory]. rewrite ld8_set_frame by done. by apply (sp_frame _ _ _ _ _ _ _ _ _ Hsp).
Qed.
End Freed.
End Run.
End Commit.

(** ** exec *)

Section Call.
Context `{KI : KernelImage} {S : Type} `{SK : Sub kmem S} `{SW : SwapOps S} `{IO : InodeIO S} `{NI : NameIO S} {XL : ExecLaws S}.
Implicit Types (ps : ptable S) (p : proc).

Lemma wp_putp i g ps p (Q : unit -> ptable S -> Prop) : pt_proc ps !! i = Some p ->
  Q tt (set_procs (<[i := g p]> (pt_proc ps)) ps) -> wp (putp i g) Q ps.
Proof. intros Hp HQ. unfold putp. apply wp_bind, wp_get. by rewrite Hp. Qed.

Lemma wp_getp i ps p (Q : proc -> ptable S -> Prop) : pt_proc ps !! i = Some p -> Q p ps -> wp (getp i) Q ps.
Proof. intros Hp HQ. unfold getp. apply wp_bind, wp_get. by rewrite Hp. Qed.

Lemma wp_mem_op f ps (Q : unit -> ptable S -> Prop) :
  Q tt (set_env (sub_put (set_memory (f (memory (sub_get (pt_env ps)))) (sub_get (pt_env ps))) (pt_env ps)) ps) -> wp (mem_op f) Q ps.
Proof. intros HQ. apply wp_lift, wp_lift, wp_modify. exact HQ. Qed.

(** The process with its new program. *)
Definition replaced (path : list Z) (pr : program) (d : Z) (p : proc) : proc :=
  set_p_sz (pr_sz pr) (set_p_pgdir d (set_p_name (copy_name (last_elem path path) (p_name p)) p)).

Lemma commit_correct fl k cur path p T0 pr im ps : kinv fl k -> pt_proc ps !! cur = Some p -> ready fl k (p_pgdir p) T0 (p_kstack p) (p_tf p) ->
  committed fl k pr im (sub_get (pt_env ps)) ->
  wp (exec_commit cur path im) (fun r ps' => r = 0 /\ exists k' fl' T', 
    ps' = set_procs (<[cur := replaced path pr (im_pgdir im) p]> (pt_proc ps)) (set_env (sub_put k' (pt_env ps)) ps) /\
    running fl k (p_pgdir p) T0 (p_tf p) pr (im_pgdir im) fl' T' k') ps.
Proof.
  intros Hk Hp Hrd (Esz & Ee & Es & He & Hs & HN & Epg & T & fl1 & fr & Hsp & Hsh). pose proof (lookup_lt_Some _ _ _ Hp) as Hlt.
  set (f := fun q => set_p_name (copy_name (last_elem path path) (p_name q)) q). unfold exec_commit. fold f.
  apply wp_bind. eapply wp_putp; [done|]. apply wp_bind. eapply (wp_getp _ _ (f p)); [by apply list_lookup_insert_eq|].
  apply wp_bind. eapply (wp_putp _ _ _ (f p)); [by apply list_lookup_insert_eq|]. cbn [pt_proc set_procs]. rewrite list_insert_insert_eq.
  apply wp_bind. eapply wp_putp; [by apply list_lookup_insert_eq|]. cbn [pt_proc set_procs]. rewrite list_insert_insert_eq.
  apply wp_bind, wp_mem_op, wp_bind, wp_mem_op. cbn [pt_env set_env set_procs]. rewrite !sub_get_put, sub_put_put.
  set (q := set_p_sz (im_sz im) (set_p_pgdir (im_pgdir im) (f p))). assert (q = replaced path pr (im_pgdir im) p) as Eq by (unfold q, replaced; by rewrite Esz).
  apply wp_bind. unfold switchuvm. apply wp_bind. eapply (wp_getp _ _ q); [by apply list_lookup_insert_eq|].
  assert (p_kstack q <> 0) as Hks by (apply valid_page_nonnull, (rd_stack _ _ _ _ _ _ Hrd)).
  assert (p_pgdir q <> 0) as Hpd by (apply valid_page_nonnull, (pt_valid _ _ _ _ (sp_pt _ _ _ _ _ _ _ _ _ Hsp)); by left).
  rewrite (proj2 (Z.eqb_neq _ _) Hks), (proj2 (Z.eqb_neq _ _) Hpd). apply wp_ret.
  apply wp_bind, wp_lift. cbn [sub_get pt_sub pt_env set_env set_procs].
  change (p_tf (f p)) with (p_tf p). change (p_pgdir (f p)) with (p_pgdir p). change (st32 _ _ (memory (set_memory _ _))) with (set_frame (p_tf p) (im_entry im) (im_sp im) (memory (sub_get (pt_env ps)))).
  change (set_memory _ (set_memory _ ?k1)) with (set_memory (set_frame (p_tf p) (im_entry im) (im_sp im) (memory k1)) k1).
  destruct (old_freeable Hk Hrd (entry := im_entry im) (sp := im_sp im) Hsp Hsh) as (Hf & EF & Hone).
  eapply wp_mono; [apply (freevm_spec fl1 (p_pgdir p) T0); rewrite sub_get_put; [exact Hf|exact Hone]|].
  intros [] s' (fl3 & k3 & -> & Hvf). rewrite sub_get_put, EF in Hvf. rewrite sub_put_put. apply wp_ret. split; [done|]. exists k3, fl3, T. rewrite <- Eq. split; [done|].
  apply (now_running Hk Hrd Hsp Hsh Hvf); (done || by rewrite ?Ee, ?Es || lia).
Qed.

End Call.

(** ** A run

    One program, "/a", in a file system that never changes; 1100 free pages;
    a process whose address space is empty. *)

Definition demo_elf : list Z :=
  le 4 ELF_MAGIC ++ replicate 12 0 ++ le 2 2 ++ le 2 3 ++ le 4 1 ++ le 4 0x1000 ++ le 4 52 ++ le 4 0 ++ le 4 0 ++
  le 2 52 ++ le 2 32 ++ le 2 1 ++ le 2 0 ++ le 2 0 ++ le 2 0 ++
  le 4 ELF_PROG_LOAD ++ le 4 84 ++ le 4 0x1000 ++ le 4 0x1000 ++ le 4 4 ++ le 4 8 ++ le 4 7 ++ le 4 0x1000 ++
  [0x90; 0x90; 0xeb; 0xfe].
Definition demo_path : list Z := [47; 97].
Definition demo_L (path : list Z) : option (list Z) := if decide (path = demo_path) then Some demo_elf else None.

Definition demo_inodes : InodeIO kmem := {|
  ii_begin := kret tt; ii_end := kret tt; ii_lock := fun _ => kret tt; ii_unlock := fun _ => kret tt;
  ii_size := fun _ => kret (size_of demo_elf); ii_stat := fun _ => kret (mk_stat 2 1 0 1 (size_of demo_elf));
  ii_read := fun _ off n => kret (bytes_read off n demo_elf); ii_write := fun _ _ _ => kret None; ii_put := fun _ => kret tt;
  ii_kalloc := kret None; ii_kfree := kret tt |}.
Definition demo_paths : NameIO kmem := {|
  nm_namei := fun path => kret (if decide (path = demo_path) then Some 0%nat else None);
  nm_create := fun _ => kret None; nm_isdir := fun _ => kret false |}.

Lemma demo_elf_ok : file_ok demo_elf.
Proof. split; compute_done. Qed.

Program Definition demo_laws : @ExecLaws kmem (sub_refl kmem) demo_inodes demo_paths := {|
  xl_idle := fun L _ => forall path, L path = demo_L path;
  xl_tx := fun L _ => forall path, L path = demo_L path;
  xl_ref := fun L _ c _ => (forall path, L path = demo_L path) /\ c = demo_elf;
  xl_locked := fun L _ c _ => (forall path, L path = demo_L path) /\ c = demo_elf |}.
Next Obligation. intros L s path c HL Hp. rewrite HL in Hp. unfold demo_L in Hp. case_decide; [|done]. injection Hp as <-. apply demo_elf_ok. Qed.
Next Obligation. done. Qed.
Next Obligation. done. Qed.
Next Obligation. done. Qed.
Next Obligation. done. Qed.
Next Obligation. intros L s path HL. apply wp_ret. split; [done|]. rewrite HL. unfold demo_L. case_decide; [by exists 0%nat|done]. Qed.
Next Obligation. done. Qed.
Next Obligation. done. Qed.
Next Obligation. by intros L i c s [HL _]. Qed.
Next Obligation. intros L i c s off n [HL ->] _ _. by apply wp_ret. Qed.

Lemma demo_ready : @ready demo_image demo_free demo_machine demo_dir ∅ demo_stack (demo_stack + PGSIZE - TFSIZE).
Proof.
  destruct demo_machine_freeable as (H1 & H2 & H3 & H4 & H5 & H6 & H7).
  split; [exact H1|exact H2|exact (conj H3 (conj H4 (conj H5 H6)))|unfold TFSIZE, PGSIZE; lia].
Qed.

Definition demo_proc : proc :=
  mk_proc PGSIZE demo_dir demo_stack RUNNING 1 None (demo_stack + PGSIZE - TFSIZE) 0 None false (replicate NOFILE None) None (replicate 16 0).
Definition demo_table : ptable kmem := mk_ptable demo_machine [demo_proc] (Some 0%nat) 2 ∅.
Definition demo_argv : list (list Z) := [[97]; [98; 99]].

Lemma demo_plan : exists pr, plan demo_elf demo_argv = Some pr /\ pr_sz pr = 0x4000.
Proof.
  assert (match plan demo_elf demo_argv with Some pr => pr_sz pr =? 0x4000 | None => false end = true) as Hp by (vm_compute; reflexivity).
  destruct (plan demo_elf demo_argv) as [pr|]; [|done]. exists pr. split; [done|]. by apply Z.eqb_eq.
Qed.

