(* ===== verification/Names.v ===== *)
(** * The calls on names (sysfile.c)

    link, unlink, create, mkdir, mknod and chdir, and the walk over a path
    (namex of fs.c), written against the operations on inodes and directories
    that they use, [NameFs].  The instance [fs_names] is the file system of
    [Fs]; [Nametree] has the tree of names that it stands for. *)

From S2P Require Import Prelude Layout Block Blockio Fs Syscall Sysfile.

Lemma kbind_ext {S A B} (c : M S A) (f g : A -> M S B) s : (forall a s', f a s' = g a s') -> kbind c f s = kbind c g s.
Proof. intros E. unfold kbind. destruct (c s); auto. Qed.
Lemma kbind_ret {S A B} (a : A) (f : A -> M S B) s : kbind (kret a) f s = f a s.
Proof. done. Qed.

(** The fields of a locked inode. *)
Record iview := mk_iview { v_dev : Z; v_inum : Z; v_type : Z; v_nlink : Z; v_size : Z }.

(** A [struct inode *] is a number. *)
Class NameFs (S : Type) := {
  nf_begin : M S unit;
  nf_end : M S unit;
  nf_root : M S nat;                              (* iget(ROOTDEV, ROOTINO) *)
  nf_cwd : M S nat;                               (* myproc()->cwd *)
  nf_set_cwd : nat -> M S unit;
  nf_idup : nat -> M S nat;
  nf_lock : nat -> M S unit;
  nf_unlock : nat -> M S unit;
  nf_put : nat -> M S unit;
  nf_get : nat -> M S iview;
  nf_set_nlink : nat -> Z -> M S unit;            (* ip->nlink = n *)
  nf_set_devno : nat -> Z -> Z -> M S unit;       (* ip->major, ip->minor *)
  nf_update : nat -> M S unit;
  nf_alloc : Z -> Z -> M S nat;
  nf_lookup : nat -> bytes -> M S (option (nat * Z));
  nf_link : nat -> bytes -> Z -> M S Z;
  nf_readi : nat -> Z -> Z -> M S (Z * bytes);
  nf_writei : nat -> bytes -> Z -> Z -> M S Z
}.

Section Paths.
Context {S : Type} `{NameFs S}.

Definition nf_unlockput (i : nat) : M S unit := nf_unlock i ;;; nf_put i.

(** [namex] and its callers, as in [Fs]. *)
Fixpoint walk_path (fuel : nat) (ip : nat) (path : bytes) (parent : bool) (name : bytes) : M S (option nat * bytes) :=
  match fuel with
  | O => nofuel
  | Datatypes.S fuel' =>
      match skipelem path name with
      | None => if parent then nf_put ip ;;; kret (None, name) else kret (Some ip, name)
      | Some (path, name) =>
          nf_lock ip ;;;
          n <- nf_get ip ;;
          if negb (v_type n =? T_DIR) then nf_unlockput ip ;;; kret (None, name)
          else if parent && bool_decide (path = []) then nf_unlock ip ;;; kret (Some ip, name)
          else
            next <- nf_lookup ip name ;;
            match next with
            | None => nf_unlockput ip ;;; kret (None, name)
            | Some (next, _) => nf_unlockput ip ;;; walk_path fuel' next path parent name
            end
      end
  end.
Definition nf_namex (path : bytes) (parent : bool) (name : bytes) : M S (option nat * bytes) :=
  ip <- (if bool_decide (head path = Some SLASH) then nf_root else cwd <- nf_cwd ;; nf_idup cwd) ;;
  walk_path (Datatypes.S (length path)) ip path parent name.
Definition nf_namei (path : bytes) : M S (option nat) := r <- nf_namex path false (replicate DIRSIZ 0) ;; kret r.1.
(** The buffer [name] of the callers is not initialised; namex fills it. *)
Definition nf_nameiparent (path : bytes) : M S (option nat * bytes) := nf_namex path true (replicate DIRSIZ 0).

(** ** The bodies of the calls, on paths *)

Definition link_bad (ip : nat) : M S Z :=
  nf_lock ip ;;;
  n <- nf_get ip ;;
  nf_set_nlink ip (s16 (v_nlink n - 1)) ;;;
  nf_update ip ;;;
  nf_unlockput ip ;;;
  nf_end ;;;
  kret (-1).

Definition link_paths (old new : bytes) : M S Z :=
  nf_begin ;;;
  r <- nf_namei old ;;
  match r with
  | None => nf_end ;;; kret (-1)
  | Some ip =>
      nf_lock ip ;;;
      n <- nf_get ip ;;
      if v_type n =? T_DIR then nf_unlockput ip ;;; nf_end ;;; kret (-1)
      else
        nf_set_nlink ip (s16 (v_nlink n + 1)) ;;;
        nf_update ip ;;;
        nf_unlock ip ;;;
        r <- nf_nameiparent new ;;
        match r with
        | (None, _) => link_bad ip
        | (Some dp, name) =>
            nf_lock dp ;;;
            d <- nf_get dp ;;
            if negb (v_dev d =? v_dev n) then nf_unlockput dp ;;; link_bad ip
            else
              r <- nf_link dp name (v_inum n) ;;
              if r <? 0 then nf_unlockput dp ;;; link_bad ip
              else nf_unlockput dp ;;; nf_put ip ;;; nf_end ;;; kret 0
        end
  end.

Fixpoint isdirempty_loop (fuel : nat) (dp : nat) (off : Z) : M S bool :=
  match fuel with
  | O => nofuel
  | Datatypes.S fuel' =>
      n <- nf_get dp ;;
      if off <? v_size n then
        r <- nf_readi dp off DESIZE ;;
        if negb (r.1 =? DESIZE) then panic "isdirempty: readi"
        else if negb (de_inum r.2 =? 0) then kret false
        else isdirempty_loop fuel' dp (off + DESIZE)
      else kret true
  end.
Definition isdirempty (dp : nat) : M S bool :=
  n <- nf_get dp ;;
  isdirempty_loop (Datatypes.S (Z.to_nat (v_size n / DESIZE))) dp (2 * DESIZE).

Definition DOT : bytes := [46].
Definition DOTDOT : bytes := [46; 46].

Definition unlink_bad (dp : nat) : M S Z := nf_unlockput dp ;;; nf_end ;;; kret (-1).

Definition unlink_path (path : bytes) : M S Z :=
  nf_begin ;;;
  r <- nf_nameiparent path ;;
  match r with
  | (None, _) => nf_end ;;; kret (-1)
  | (Some dp, name) =>
      nf_lock dp ;;;
      if (namecmp name DOT =? 0) || (namecmp name DOTDOT =? 0) then unlink_bad dp
      else
        r <- nf_lookup dp name ;;
        match r with
        | None => unlink_bad dp
        | Some (ip, off) =>
            nf_lock ip ;;;
            n <- nf_get ip ;;
            if v_nlink n <? 1 then panic "unlink: nlink < 1"
            else
              full <- (if v_type n =? T_DIR then e <- isdirempty ip ;; kret (negb e) else kret false) ;;
              if full : bool then nf_unlockput ip ;;; unlink_bad dp
              else
                w <- nf_writei dp (replicate 16 0) off DESIZE ;;
                if negb (w =? DESIZE) then panic "unlink: writei"
                else
                  (when v_type n =? T_DIR do
                     (d <- nf_get dp ;;
                      nf_set_nlink dp (s16 (v_nlink d - 1)) ;;;
                      nf_update dp)) ;;;
                  nf_unlockput dp ;;;
                  nf_set_nlink ip (s16 (v_nlink n - 1)) ;;;
                  nf_update ip ;;;
                  nf_unlockput ip ;;;
                  nf_end ;;;
                  kret 0
        end
  end.

(** [ialloc] returns an inode or panics, so its result is never NULL. *)
Definition create (path : bytes) (type major minor : Z) : M S (option nat) :=
  r <- nf_nameiparent path ;;
  match r with
  | (None, _) => kret None
  | (Some dp, name) =>
      nf_lock dp ;;;
      r <- nf_lookup dp name ;;
      match r with
      | Some (ip, _) =>
          nf_unlockput dp ;;;
          nf_lock ip ;;;
          n <- nf_get ip ;;
          if (type =? T_FILE) && (v_type n =? T_FILE) then kret (Some ip)
          else nf_unlockput ip ;;; kret None
      | None =>
          d <- nf_get dp ;;
          ip <- nf_alloc (v_dev d) type ;;
          nf_lock ip ;;;
          nf_set_devno ip major minor ;;;
          nf_set_nlink ip 1 ;;;
          nf_update ip ;;;
          n <- nf_get ip ;;
          (when type =? T_DIR do
             (d <- nf_get dp ;;
              nf_set_nlink dp (s16 (v_nlink d + 1)) ;;;
              nf_update dp ;;;
              a <- nf_link ip DOT (v_inum n) ;;
              if a <? 0 then panic "create dots"
              else
                b <- nf_link ip DOTDOT (v_inum d) ;;
                when b <? 0 do panic "create dots")) ;;;
          r <- nf_link dp name (v_inum n) ;;
          if r <? 0 then panic "create: dirlink"
          else nf_unlockput dp ;;; kret (Some ip)
      end
  end.

(** mkdir and mknod, once their arguments are fetched. *)
Definition make_path (path : bytes) (type major minor : Z) : M S Z :=
  r <- create path type major minor ;;
  match r with
  | None => nf_end ;;; kret (-1)
  | Some ip => nf_unlockput ip ;;; nf_end ;;; kret 0
  end.

Definition chdir_path (path : bytes) : M S Z :=
  r <- nf_namei path ;;
  match r with
  | None => nf_end ;;; kret (-1)
  | Some ip =>
      nf_lock ip ;;;
      n <- nf_get ip ;;
      if negb (v_type n =? T_DIR) then nf_unlockput ip ;;; nf_end ;;; kret (-1)
      else
        nf_unlock ip ;;;
        cwd <- nf_cwd ;;
        nf_put cwd ;;;
        nf_end ;;;
        nf_set_cwd ip ;;;
        kret 0
  end.
End Paths.

(** ** The system calls *)

Record ncall (S : Type) := mk_ncall { nc_fs : S; nc_user : ucall }.
Arguments mk_ncall {S}.
Arguments nc_fs {S}.
Arguments nc_user {S}.

#[export] Program Instance ncall_fs {S} : Sub S (ncall S) := {
  sub_get := nc_fs; sub_put := fun f s => mk_ncall f (nc_user s) }.
Solve Obligations with (by try intros ? []).
#[export] Program Instance ncall_user {S} : Sub ucall (ncall S) := {
  sub_get := nc_user; sub_put := fun u s => mk_ncall (nc_fs s) u }.
Solve Obligations with (by try intros ? []).

Section Calls.
Context {S : Type} `{NameFs S}.
Notation T := (M (ncall S)).
Definition nfs {A} (c : M S A) : T A := lift c.
Definition arg_int (n : Z) : T (option Z) := lift (argint n).
(** The bytes of the string that [argstr] accepts. *)
Definition arg_path (n : Z) : T (option bytes) :=
  a <- lift (argstr n) ;;
  match a with
  | None => kret None
  | Some (p, len) => s <- kget ;; kret (Some (user_bytes (nc_user s) p len))
  end.

Definition sys_link : T Z :=
  old <- arg_path 0 ;;
  match old with
  | None => kret (-1)
  | Some old =>
      new <- arg_path 1 ;;
      match new with
      | None => kret (-1)
      | Some new => nfs (link_paths old new)
      end
  end.

Definition sys_unlink : T Z :=
  path <- arg_path 0 ;;
  match path with
  | None => kret (-1)
  | Some path => nfs (unlink_path path)
  end.

Definition end_bad : T Z := nfs nf_end ;;; kret (-1).

Definition sys_mkdir : T Z :=
  nfs nf_begin ;;;
  path <- arg_path 0 ;;
  match path with
  | None => end_bad
  | Some path => nfs (make_path path T_DIR 0 0)
  end.

(** [create] takes shorts. *)
Definition sys_mknod : T Z :=
  nfs nf_begin ;;;
  path <- arg_path 0 ;;
  match path with
  | None => end_bad
  | Some path =>
      ma <- arg_int 1 ;;
      match ma with
      | None => end_bad
      | Some ma =>
          mi <- arg_int 2 ;;
          match mi with
          | None => end_bad
          | Some mi => nfs (make_path path T_DEV (s16 ma) (s16 mi))
          end
      end
  end.

Definition sys_chdir : T Z :=
  nfs nf_begin ;;;
  path <- arg_path 0 ;;
  match path with
  | None => end_bad
  | Some path => nfs (chdir_path path)
  end.
End Calls.

(** ** The file system of [Fs] *)

Section Instance_.
Context {S : Type} `{BlockIO S} (begin_op end_op : M S unit).
Context (dev_read : Z -> option (nat -> Z -> M (fs S) (Z * bytes))) (dev_write : Z -> option (nat -> bytes -> Z -> M (fs S) Z)).

Definition set_fs_cwd (i : nat) (f : fs S) : fs S := mk_fs (fs_dev f) (fs_sb f) (fs_inodes f) (fs_pid f) i (fs_held f).

Definition fs_names : NameFs (fs S) := {|
  nf_begin := lift begin_op;
  nf_end := lift end_op;
  nf_root := iget ROOTDEV ROOTINO;
  nf_cwd := gets fs_cwd;
  nf_set_cwd := fun i => modify (set_fs_cwd i);
  nf_idup := idup;
  nf_lock := ilock;
  nf_unlock := iunlock;
  nf_put := iput;
  nf_get := fun i => ip <- geti i ;; kret (mk_iview (i_dev ip) (i_inum ip) (i_type ip) (i_nlink ip) (i_size ip));
  nf_set_nlink := fun i n => puti i (set_i_nlink n);
  nf_set_devno := fun i ma mi => puti i (set_i_devno ma mi);
  nf_update := iupdate;
  nf_alloc := ialloc;
  nf_lookup := dirlookup dev_read;
  nf_link := dirlink dev_read dev_write;
  nf_readi := readi dev_read;
  nf_writei := writei dev_write
|}.

(** Over it the walk is namex of fs.c. *)
Lemma namex_fs path parent name s : nf_namex (H := fs_names) path parent name s = namex dev_read path parent name s.
Proof.
  enough (forall fuel ip path name s, walk_path (H := fs_names) fuel ip path parent name s = namex_loop dev_read fuel ip path parent name s) as Hl.
  { unfold nf_namex, namex. apply kbind_ext. intros ip s'. apply Hl. }
  clear. intros fuel. induction fuel as [|fuel IH]; intros ip path name s; [done|]. cbn [walk_path namex_loop].
  destruct (skipelem path name) as [[path' name']|]; [|done]. apply kbind_ext. intros [] s1.
  unfold nf_get, fs_names. rewrite kbind_assoc. apply kbind_ext. intros n s2. rewrite kbind_ret. cbn [v_type].
  destruct (negb _); [done|]. destruct (_ && _); [done|]. apply kbind_ext. intros [[next off]|] s3; [|done].
  apply kbind_ext. intros [] s4. apply IH.
Qed.
End Instance_.
