(* ===== verification/Nametree.v ===== *)
(** * The tree of names (the directories of fs.c as sysfile.c sees them)

    A file system whose inodes are kept in a map by their numbers, a directory
    as the list of its entries.  Lookups and links act on the entries as
    [Fsdir] proves of dirlookup and dirlink.  The in-memory inodes are the
    multiset of references to them and the set of locked ones; fields of an
    inode may be used only while it is locked, and [tf_dirty] are the inodes
    changed and not yet written by iupdate.  Every name operation of [Names]
    runs over it. *)

From stdpp Require Import gmultiset.
From S2P Require Import Prelude Layout Block Blockio Fs Fsfile Fsdir Syscall Sysfile Names.

Record tnode := mk_tnode { t_type : Z; t_major : Z; t_minor : Z; t_nlink : Z; t_slots : list bytes }.
Definition set_t_nlink (x : Z) (n : tnode) : tnode := mk_tnode (t_type n) (t_major n) (t_minor n) x (t_slots n).
Definition set_t_devno (ma mi : Z) (n : tnode) : tnode := mk_tnode (t_type n) ma mi (t_nlink n) (t_slots n).
Definition set_t_slots (l : list bytes) (n : tnode) : tnode := mk_tnode (t_type n) (t_major n) (t_minor n) (t_nlink n) l.

Record tfs := mk_tfs {
  tf_nodes : gmap nat tnode;              (* the inodes with a type *)
  tf_refs : gmultiset nat;                (* the references to in-memory inodes *)
  tf_locked : gset nat;
  tf_dirty : gset nat;
  tf_cwd : nat;
  tf_ops : nat                            (* operations between begin_op and end_op *)
}.
Definition set_nodes (N : gmap nat tnode) (s : tfs) : tfs := mk_tfs N (tf_refs s) (tf_locked s) (tf_dirty s) (tf_cwd s) (tf_ops s).
Definition set_refs (R : gmultiset nat) (s : tfs) : tfs := mk_tfs (tf_nodes s) R (tf_locked s) (tf_dirty s) (tf_cwd s) (tf_ops s).
Definition set_locked (L : gset nat) (s : tfs) : tfs := mk_tfs (tf_nodes s) (tf_refs s) L (tf_dirty s) (tf_cwd s) (tf_ops s).
Definition set_dirty (D : gset nat) (s : tfs) : tfs := mk_tfs (tf_nodes s) (tf_refs s) (tf_locked s) D (tf_cwd s) (tf_ops s).
Definition set_cwd (c : nat) (s : tfs) : tfs := mk_tfs (tf_nodes s) (tf_refs s) (tf_locked s) (tf_dirty s) c (tf_ops s).
Definition set_ops (o : nat) (s : tfs) : tfs := mk_tfs (tf_nodes s) (tf_refs s) (tf_locked s) (tf_dirty s) (tf_cwd s) o.

Definition NINODES : nat := 200.          (* of the disks that mkfs makes *)
Definition MAXENTS : nat := 4480.         (* MAXFILE * BSIZE / sizeof(struct dirent) *)
Definition ROOT : nat := 1.

Notation K := (M tfs).

Definition t_begin : K unit := modify (fun s => set_ops (S (tf_ops s)) s).
Definition t_end : K unit :=
  s <- kget ;;
  match tf_ops s with
  | O => fault "end_op"
  | S o => kput (set_ops o s)
  end.

Definition t_iget (i : nat) : K nat :=
  s <- kget ;;
  if decide (i ∈ tf_refs s \/ (size (dom (tf_refs s)) < NINODE)%nat) then
    kput (set_refs ({[+ i +]} ⊎ tf_refs s) s) ;;; kret i
  else panic "iget: no inodes".
Definition t_idup (i : nat) : K nat := modify (fun s => set_refs ({[+ i +]} ⊎ tf_refs s) s) ;;; kret i.

Definition t_lock (i : nat) : K unit :=
  s <- kget ;;
  if decide (i ∈ tf_refs s) then
    if decide (i ∈ tf_locked s) then block "inode"
    else match tf_nodes s !! i with
         | None => panic "ilock: no type"
         | Some _ => kput (set_locked ({[i]} ∪ tf_locked s) s)
         end
  else panic "ilock".
Definition t_unlock (i : nat) : K unit :=
  s <- kget ;;
  if decide (i ∈ tf_locked s /\ i ∈ tf_refs s) then kput (set_locked (tf_locked s ∖ {[i]}) s) else panic "iunlock".

(** The last reference to an inode without links frees it. *)
Definition freed (i : nat) (R : gmultiset nat) (N : gmap nat tnode) : gmap nat tnode :=
  match N !! i with
  | Some n => if decide (t_nlink n = 0 /\ multiplicity i R = 1%nat) then delete i N else N
  | None => N
  end.
Definition t_put (i : nat) : K unit :=
  s <- kget ;;
  if decide (i ∈ tf_locked s) then block "inode"
  else if decide (i ∈ tf_refs s) then
    kput (set_refs (tf_refs s ∖ {[+ i +]}) (set_nodes (freed i (tf_refs s) (tf_nodes s)) s))
  else fault "iput".

(** The node of a locked inode, and its update. *)
Definition t_node (i : nat) : K tnode :=
  s <- kget ;;
  if decide (i ∈ tf_locked s) then deref (tf_nodes s !! i) else fault "inode not locked".
Definition t_change (i : nat) (g : tnode -> tnode) : K unit :=
  n <- t_node i ;;
  modify (fun s => set_nodes (<[i := g n]> (tf_nodes s)) s).

Definition t_get (i : nat) : K iview :=
  n <- t_node i ;;
  kret (mk_iview ROOTDEV (Z.of_nat i) (t_type n) (t_nlink n) (16 * Z.of_nat (length (t_slots n)))).
Definition t_field (i : nat) (g : tnode -> tnode) : K unit :=
  t_change i g ;;; modify (fun s => set_dirty ({[i]} ∪ tf_dirty s) s).
Definition t_update (i : nat) : K unit :=
  t_node i ;;; modify (fun s => set_dirty (tf_dirty s ∖ {[i]}) s).

Definition t_alloc (dev type : Z) : K nat :=
  s <- kget ;;
  match list_find (fun i => tf_nodes s !! i = None) (seq 1 (NINODES - 1)) with
  | None => panic "ialloc: no inodes"
  | Some (_, i) => kput (set_nodes (<[i := mk_tnode type 0 0 0 []]> (tf_nodes s)) s) ;;; t_iget i
  end.

Definition t_lookup (i : nat) (name : bytes) : K (option (nat * Z)) :=
  n <- t_node i ;;
  if negb (t_type n =? T_DIR) then panic "dirlookup not DIR"
  else match list_find (is_entry name) (t_slots n) with
       | None => kret None
       | Some (k, e) => j <- t_iget (Z.to_nat (de_inum e)) ;; kret (Some (j, 16 * Z.of_nat k))
       end.

(** The entry goes to the first free slot, or to the end. *)
Definition free_slot (l : list bytes) : nat :=
  match list_find is_free l with Some (k, _) => k | None => length l end.
Definition add_slot (e : bytes) (l : list bytes) : list bytes :=
  if decide (free_slot l < length l)%nat then <[free_slot l := e]> l else l ++ [e].
Definition t_link (i : nat) (name : bytes) (inum : Z) : K Z :=
  r <- t_lookup i name ;;
  match r with
  | Some (j, _) => t_put j ;;; kret (-1)
  | None =>
      n <- t_node i ;;
      if decide (free_slot (t_slots n) < MAXENTS)%nat then
        t_change i (fun n => set_t_slots (add_slot (mk_dirent name inum) (t_slots n)) n) ;;; kret 0
      else panic "dirlink"
  end.

(** One entry is read or overwritten. *)
Definition t_readi (i : nat) (off n : Z) : K (Z * bytes) :=
  x <- t_node i ;;
  if (n =? DESIZE) && (off mod DESIZE =? 0) then
    match t_slots x !! Z.to_nat (off / DESIZE) with
    | Some e => kret (DESIZE, e)
    | None => kret (-1, [])
    end
  else kret (-1, []).
Definition t_writei (i : nat) (bs : bytes) (off n : Z) : K Z :=
  x <- t_node i ;;
  if (n =? DESIZE) && (off mod DESIZE =? 0) && bool_decide (Z.to_nat (off / DESIZE) < length (t_slots x))%nat then
    t_change i (fun x => set_t_slots (<[Z.to_nat (off / DESIZE) := bs]> (t_slots x)) x) ;;; kret DESIZE
  else kret (-1).

#[export] Instance tree_names : NameFs tfs := {|
  nf_begin := t_begin;
  nf_end := t_end;
  nf_root := t_iget ROOT;
  nf_cwd := gets tf_cwd;
  nf_set_cwd := fun i => modify (set_cwd i);
  nf_idup := t_idup;
  nf_lock := t_lock;
  nf_unlock := t_unlock;
  nf_put := t_put;
  nf_get := t_get;
  nf_set_nlink := fun i x => t_field i (set_t_nlink x);
  nf_set_devno := fun i ma mi => t_field i (set_t_devno ma mi);
  nf_update := t_update;
  nf_alloc := t_alloc;
  nf_lookup := t_lookup;
  nf_link := t_link;
  nf_readi := t_readi;
  nf_writei := t_writei
|}.

(** The root directory that mkfs makes, in which [ROOT] is both . and .. *)
Definition tree_init : tfs :=
  mk_tfs {[ROOT := mk_tnode T_DIR 0 0 1 [mk_dirent DOT 1; mk_dirent DOTDOT 1]]} {[+ ROOT +]} ∅ ∅ ROOT 0.
