(* ===== verification/Namewf.v ===== *)
(** * The invariant of the tree of names

    Which inode an entry of a directory may refer to, and how many entries refer
    to each inode.  Entering a file or a directory, removing an entry and
    freeing an inode keep the invariant; the calls of [Names] are made of
    these. *)

From S2P Require Import Prelude Layout Block Blockio Fs Fsfile Fsdir Names Nametree.

Implicit Types (N : gmap nat tnode) (n : tnode) (i d : nat).

(** ** Looking names up *)

Definition e_num (e : bytes) : nat := Z.to_nat (de_inum e).

(** The slot and the inode of a name. *)
Definition found N d (name : bytes) : option (nat * nat) :=
  match N !! d with
  | Some n => match list_find (is_entry name) (t_slots n) with Some (k, e) => Some (k, e_num e) | None => None end
  | None => None
  end.

Definition linked_node N i : Prop := exists n, N !! i = Some n /\ 0 < t_nlink n.
Definition live_dir N d : Prop := exists n, N !! d = Some n /\ 0 < t_nlink n /\ t_type n = T_DIR.

(** What the entries of linked directories name is linked. *)
Definition closed N : Prop := forall d name k i, live_dir N d -> found N d name = Some (k, i) -> linked_node N i.

(** ** The entries of the linked directories *)

Definition cn (name : bytes) : bytes := strncpy_b DIRSIZ name.

Lemma strncmp_strncpy_eq m p q : strncmp_b m p q = 0 <-> strncpy_b m p = strncpy_b m q.
Proof.
  revert p q. induction m as [|m IH]; intros p q; [done|]. cbn [strncmp_b strncpy_b].
  destruct (Z.eqb_spec (hd0 p) 0) as [E|E]; cbn [negb andb].
  - rewrite E. destruct (Z.eqb_spec (hd0 q) 0) as [->|Hq]; [done|]. split; [lia|]. intros [= E' _]. congruence.
  - destruct (Z.eqb_spec (hd0 p) (hd0 q)) as [Eq|Hne]; cbn [andb].
    + rewrite <- Eq, (proj2 (Z.eqb_neq _ _) E). rewrite IH. split; congruence.
    + destruct (Z.eqb_spec (hd0 q) 0) as [Hq|Hq]; (split; [lia|]); intros [= E']; congruence.
Qed.

Lemma is_entry_iff name e : is_entry name e <-> de_inum e <> 0 /\ cn (de_name e) = cn name.
Proof. unfold is_entry, namecmp. rewrite strncmp_strncpy_eq. unfold cn. split; intros [? ?]; split; congruence. Qed.

Lemma cn_idemp name : cn (cn name) = cn name.
Proof. unfold cn. symmetry. apply strncmp_strncpy_eq, strncmp_strncpy. Qed.

Definition ent1 n (k : nat) (nm : bytes) i : Prop :=
  t_type n = T_DIR /\ 0 < t_nlink n /\ exists e, t_slots n !! k = Some e /\ de_inum e <> 0 /\ cn (de_name e) = nm /\ e_num e = i.
(** Slot [k] of the linked directory [d] names inode [i] by [nm]. *)
Definition ent N d (k : nat) (nm : bytes) i : Prop := exists n, N !! d = Some n /\ ent1 n k nm i.

(** The entries as a map from directory and slot to name and inode. *)
Notation entmap := (gmap (nat * nat) (bytes * nat)).
Implicit Type E : entmap.

(** The entries that count as links: all but the names . *)
Definition links E i : nat := size (filter (fun x : (nat * nat) * (bytes * nat) => x.2.2 = i /\ x.1.2 <> 0%nat) E).

Record wf N E : Prop := {
  w_ent : forall d k nm i, E !! (d, k) = Some (nm, i) <-> ent N d k nm i;
  w_root : live_dir N ROOT;
  w_num : forall i n, N !! i = Some n -> (0 < i < NINODES)%nat /\ 0 <= t_nlink n;
  w_type : forall i n, N !! i = Some n -> t_type n = T_DIR \/ ((t_type n = T_FILE \/ t_type n = T_DEV) /\ t_slots n = []);
  w_dots : forall d, live_dir N d -> E !! (d, 0%nat) = Some (cn DOT, d) /\ exists p, E !! (d, 1%nat) = Some (cn DOTDOT, p) /\
    live_dir N p /\ if decide (d = ROOT) then p = ROOT else exists k nm, (2 <= k)%nat /\ E !! (p, k) = Some (nm, d);
  w_names : forall d k k' nm i i', E !! (d, k) = Some (nm, i) -> E !! (d, k') = Some (nm, i') -> k = k';
  w_target : forall d k nm i, E !! (d, k) = Some (nm, i) -> linked_node N i;
  w_dir : forall d k nm i, E !! (d, k) = Some (nm, i) -> (2 <= k)%nat -> live_dir N i ->
    i <> ROOT /\ i <> d /\ E !! (i, 1%nat) = Some (cn DOTDOT, d);
  w_once : forall d k k' nm nm' i, E !! (d, k) = Some (nm, i) -> E !! (d, k') = Some (nm', i) -> (2 <= k)%nat -> (2 <= k')%nat ->
    live_dir N i -> k = k';
  w_orphan : forall i n k e, N !! i = Some n -> t_type n = T_DIR -> t_nlink n = 0 -> (2 <= k)%nat -> t_slots n !! k = Some e -> de_inum e = 0;
  w_links : forall i n, N !! i = Some n -> t_nlink n = Z.of_nat (links E i)
}.

Section Links.
Lemma links_insert E d k nm j i : E !! (d, k) = None -> k <> 0%nat ->
  links (<[(d, k) := (nm, j)]> E) i = (links E i + if decide (j = i) then 1 else 0)%nat.
Proof.
  intros H0 Hk. unfold links. destruct (decide (j = i)) as [->|Hne].
  - rewrite map_filter_insert_True by done. rewrite map_size_insert_None; [lia|]. by apply map_lookup_filter_None_2; left.
  - rewrite map_filter_insert_False by (cbn; tauto). rewrite delete_id by done. lia.
Qed.
Lemma links_dot E d nm j i : E !! (d, 0%nat) = None -> links (<[(d, 0%nat) := (nm, j)]> E) i = links E i.
Proof. intros H0. unfold links. rewrite map_filter_insert_False by (cbn; tauto). by rewrite delete_id. Qed.
Lemma links_delete E d k nm j i : E !! (d, k) = Some (nm, j) -> k <> 0%nat ->
  links E i = (links (delete (d, k) E) i + if decide (j = i) then 1 else 0)%nat.
Proof.
  intros H0 Hk. rewrite <- (insert_delete_id E (d, k) (nm, j)) at 1 by done. apply links_insert; [apply lookup_delete_eq|done].
Qed.
Lemma links_delete_dot E d nm j i : E !! (d, 0%nat) = Some (nm, j) -> links (delete (d, 0%nat) E) i = links E i.
Proof. intros H0. rewrite <- (insert_delete_id E (d, 0%nat) (nm, j)) at 2 by done. symmetry. apply links_dot, lookup_delete_eq. Qed.
Lemma links_zero E i : (forall d k nm, E !! (d, k) <> Some (nm, i)) -> links E i = 0%nat.
Proof.
  intros H0. unfold links. apply map_size_empty_iff, map_eq. intros [d k]. rewrite lookup_empty. apply map_lookup_filter_None_2.
  destruct (E !! (d, k)) as [[nm j]|] eqn:Ed; [right|by left]. intros x [= <-] [Hj _]. cbn in Hj. subst j. by eapply H0.
Qed.
Lemma links_pos E d k nm i : E !! (d, k) = Some (nm, i) -> k <> 0%nat -> (0 < links E i)%nat.
Proof. intros H0 Hk. rewrite (links_delete E d k nm i i H0 Hk), decide_True by done. lia. Qed.
End Links.

Section Entries.
Lemma ent_live N d k nm i : ent N d k nm i -> live_dir N d.
Proof. intros (n & Hn & Ht & Hz & _). by exists n. Qed.

Lemma found_some N E d name k i : wf N E -> live_dir N d -> found N d name = Some (k, i) -> E !! (d, k) = Some (cn name, i).
Proof.
  intros W (n & Hn & Hz & Ht). unfold found. rewrite Hn. destruct (list_find _ _) as [[k0 e]|] eqn:Ef; [|done]. intros [= -> <-].
  apply list_find_Some in Ef as (Hk & [Hi Hnm]%is_entry_iff & _). apply (w_ent _ _ W). exists n. split; [done|]. split; [done|]. split; [done|]. by exists e.
Qed.
Lemma found_none N E d name k i : wf N E -> found N d name = None -> E !! (d, k) <> Some (cn name, i).
Proof.
  intros W Hf (n & Hn & _ & _ & e & Hk & Hi & Hnm & _)%(w_ent _ _ W). unfold found in Hf. rewrite Hn in Hf.
  destruct (list_find _ _) as [[k0 e0]|] eqn:Ef; [done|]. rewrite list_find_None, list.Forall_forall in Ef.
  apply (Ef e); [by eapply list_elem_of_lookup_2|]. by apply is_entry_iff.
Qed.
Lemma found_iff N E d name k i : wf N E -> live_dir N d -> found N d name = Some (k, i) <-> E !! (d, k) = Some (cn name, i).
Proof.
  intros W Hd. split; [by apply found_some|]. intros He. destruct (found N d name) as [[k' i']|] eqn:Ef.
  - pose proof (found_some N E d name k' i' W Hd Ef) as He'. pose proof (w_names _ _ W _ _ _ _ _ _ He He') as ->. congruence.
  - by apply (found_none N E d name k i W) in Ef.
Qed.

Lemma wf_closed N E : wf N E -> closed N.
Proof. intros W d name k i Hd Hf. eapply (w_target _ _ W). by eapply found_some. Qed.

Lemma free_slot_spec l k : add_slot k l !! free_slot l = Some k /\ (forall j, j <> free_slot l -> add_slot k l !! j = l !! j) /\
  (forall e, l !! free_slot l = Some e -> de_inum e = 0).
Proof.
  unfold add_slot, free_slot. destruct (list_find is_free l) as [[j e]|] eqn:E.
  - apply list_find_Some in E as (Hj & He & _). pose proof (lookup_lt_Some _ _ _ Hj). rewrite decide_True by done. split_and!.
    + by apply list_lookup_insert_eq.
    + intros j' Hne. by apply list_lookup_insert_ne.
    + intros e' He'. unfold is_free in He. congruence.
  - rewrite decide_False by lia. split_and!.
    + rewrite lookup_app_r, Nat.sub_diag by lia. done.
    + intros j Hj. destruct (decide (j < length l)%nat) as [Hlt|Hge]; [by rewrite lookup_app_l|].
      rewrite (lookup_ge_None_2 l) by lia. apply lookup_ge_None_2. rewrite length_app. cbn. lia.
    + intros e He. apply lookup_lt_Some in He. lia.
Qed.

Lemma num_dirent name i : (0 < i < NINODES)%nat -> de_inum (mk_dirent name (Z.of_nat i)) <> 0 /\ e_num (mk_dirent name (Z.of_nat i)) = i /\
  cn (de_name (mk_dirent name (Z.of_nat i))) = cn name.
Proof.
  intros Hi. destruct (dirent_fields name (Z.of_nat i)) as (_ & E1 & E2). unfold e_num. rewrite E1, E2. unfold NINODES in Hi.
  unfold u16. rewrite Z.mod_small by lia. split_and!; [lia|lia|apply cn_idemp].
Qed.

(** Adding an entry to a directory. *)
Lemma ent1_add n name i x k nm j : (0 < i < NINODES)%nat -> 0 < t_nlink n -> 0 < x -> t_type n = T_DIR ->
  ent1 (mk_tnode (t_type n) (t_major n) (t_minor n) x (add_slot (mk_dirent name (Z.of_nat i)) (t_slots n))) k nm j <->
  if decide (k = free_slot (t_slots n)) then nm = cn name /\ j = i else ent1 n k nm j.
Proof.
  intros Hi Hz Hx Ht. destruct (free_slot_spec (t_slots n) (mk_dirent name (Z.of_nat i))) as (H1 & H2 & H3).
  destruct (num_dirent name i Hi) as (N1 & N2 & N3). unfold ent1. cbn [t_type t_nlink t_slots]. destruct (decide (k = _)) as [->|Hne].
  - rewrite H1. split; [intros (_ & _ & e & [= <-] & _ & <- & <-); by rewrite N3, N2|]. intros [-> ->]. split_and!; [done|done|].
    eexists. split; [done|]. by rewrite N3, N2.
  - rewrite H2 by done. split; intros (_ & _ & He); done.
Qed.
Lemma ent1_free n nm j : ent1 n (free_slot (t_slots n)) nm j -> False.
Proof.
  intros (_ & _ & e & He & Hi & _). destruct (free_slot_spec (t_slots n) []) as (_ & _ & H3). by apply Hi, H3.
Qed.
(** Clearing a slot. *)
Lemma ent1_clear n x k0 k nm j : 0 < t_nlink n -> 0 < x -> t_type n = T_DIR -> (k0 < length (t_slots n))%nat ->
  ent1 (mk_tnode (t_type n) (t_major n) (t_minor n) x (<[k0 := replicate 16 0]> (t_slots n))) k nm j <-> k <> k0 /\ ent1 n k nm j.
Proof.
  intros Hz Hx Ht Hk. unfold ent1. cbn [t_type t_nlink t_slots]. destruct (decide (k0 = k)) as [<-|Hne].
  - rewrite list_lookup_insert_eq by done. split; [intros (_ & _ & e & [= <-] & Hi & _); by destruct Hi|]. by intros [? _].
  - rewrite list_lookup_insert_ne by done. split; [intros (_ & _ & He); split; [done|]; done|]. intros [_ (_ & _ & He)]. done.
Qed.
End Entries.

(** ** The operations on the tree keep the invariant *)

#[local] Arguments mk_dirent : simpl never.

Section Preserve.
Context {N : gmap nat tnode} {E : entmap} (W : wf N E).

Lemma ent_at d k nm i n : N !! d = Some n -> E !! (d, k) = Some (nm, i) <-> ent1 n k nm i.
Proof. intros Hn. rewrite (w_ent _ _ W). split; [intros (m & Hm & He); congruence|]. intros He. by exists n. Qed.

Lemma ent_none d k nm i n : N !! d = Some n -> t_type n <> T_DIR -> E !! (d, k) <> Some (nm, i).
Proof. intros Hn Ht (H1 & _)%(ent_at d k nm i n Hn). done. Qed.

Lemma ent_absent d k nm i : N !! d = None -> E !! (d, k) <> Some (nm, i).
Proof. intros Hn (m & Hm & _)%(w_ent _ _ W). congruence. Qed.

Lemma ent_dir d k nm i : E !! (d, k) = Some (nm, i) -> live_dir N d.
Proof. intros He%(w_ent _ _ W). by eapply ent_live. Qed.

Lemma no_links i : N !! i = None -> links E i = 0%nat.
Proof. intros Hi. apply links_zero. intros d k nm (m & Hm & _)%(w_target _ _ W). congruence. Qed.

Section Add.
Context (d : nat) (dn : tnode) (Hd : N !! d = Some dn) (Htd : t_type dn = T_DIR) (Hzd : 0 < t_nlink dn).
Context (name : bytes) (Hfree : forall k j, E !! (d, k) <> Some (cn name, j)).
Context (i : nat) (Hi : (0 < i < NINODES)%nat).
Notation k0 := (free_slot (t_slots dn)).
Notation grown x := (mk_tnode (t_type dn) (t_major dn) (t_minor dn) x (add_slot (mk_dirent name (Z.of_nat i)) (t_slots dn))).

Lemma slot_free : E !! (d, k0) = None.
Proof.
  destruct (E !! (d, k0)) as [[nm j]|] eqn:He; [|done]. apply (ent_at _ _ _ _ dn Hd) in He. by apply ent1_free in He.
Qed.
Lemma dir_live : live_dir N d.
Proof. by exists dn. Qed.
Lemma slot_ge2 : (2 <= k0)%nat.
Proof.
  destruct (w_dots _ _ W d dir_live) as (H0 & p & H1 & _). pose proof slot_free as Hf.
  destruct k0 as [|[|k]]; [congruence|congruence|lia].
Qed.

(** A file is entered: a new one, or one with a link more. *)
Lemma wf_add_file f N' : d <> i -> t_type f = T_FILE \/ t_type f = T_DEV -> t_slots f = [] ->
  t_nlink f = Z.of_nat (links E i) + 1 -> (forall m, N !! i = Some m -> t_type m <> T_DIR) ->
  (forall j, N' !! j = if decide (j = d) then Some (grown (t_nlink dn)) else if decide (j = i) then Some f else N !! j) ->
  wf N' (<[(d, k0) := (cn name, i)]> E).
Proof.
  intros Hdi Htf Hsf Hnf Hnd HN'. pose proof slot_free as Hs. pose proof slot_ge2 as Hk.
  assert (t_type f <> T_DIR) as Hfd by (destruct Htf as [-> | ->]; done).
  assert (forall j, live_dir N' j <-> live_dir N j) as Hlive.
  { intros j. unfold live_dir. rewrite HN'. destruct (decide (j = d)) as [->|]; [|destruct (decide (j = i)) as [->|]; [|done]].
    - split; [by exists dn|]. intros _. by eexists.
    - split; [intros (m & [= <-] & _ & ?); done|]. intros (m & Hm & _ & Ht). by destruct (Hnd m Hm). }
  assert (forall j, linked_node N j -> linked_node N' j) as Hlink.
  { intros j (m & Hm & Hz). unfold linked_node. rewrite HN'. destruct (decide (j = d)) as [->|]; [by eexists|].
    destruct (decide (j = i)); [eexists; split; [done|lia]|by exists m]. }
  assert (linked_node N' i) as Hli by (exists f; rewrite HN', decide_False, decide_True by done; split; [done|lia]).
  assert (forall d' k nm j, <[(d, k0) := (cn name, i)]> E !! (d', k) = Some (nm, j) <->
    (d' = d /\ k = k0 /\ nm = cn name /\ j = i) \/ ((d', k) <> (d, k0) /\ E !! (d', k) = Some (nm, j))) as HE.
  { intros d' k nm j. rewrite lookup_insert_Some. naive_solver. }
  split.
  - intros d' k nm j. rewrite HE. unfold ent. rewrite HN'. destruct (decide (d' = d)) as [->|Hne].
    + rewrite (ent_at d k nm j dn Hd). split.
      * intros Hx. eexists. split; [done|]. apply ent1_add; try done. destruct Hx as [(_ & -> & -> & ->)|[Hx Hy]]; [by rewrite decide_True|].
        rewrite decide_False; [done|congruence].
      * intros (m & [= <-] & Hx). apply ent1_add in Hx; try done. destruct (decide (k = k0)) as [->|]; [left; naive_solver|right; split; [congruence|done]].
    + destruct (decide (d' = i)) as [->|Hni].
      * split; [|intros (m & [= <-] & ? & _); done]. intros [(-> & _)|[_ Hx]]; [done|]. destruct (N !! i) as [m|] eqn:Hm; [|by apply ent_absent in Hx].
        exfalso. eapply (ent_none i k nm j m); [done|by apply Hnd|done].
      * rewrite (w_ent _ _ W). unfold ent. split; [intros [(-> & _)|[_ Hx]]; done|]. intros Hx. right. split; [congruence|done].
  - apply Hlive, (w_root _ _ W).
  - intros j m. rewrite HN'. destruct (decide (j = d)) as [->|]; [intros [= <-]; split; [eapply (w_num _ _ W); done|cbn; lia]|].
    destruct (decide (j = i)) as [->|]; [intros [= <-]; split; [done|lia]|]. apply (w_num _ _ W).
  - intros j m. rewrite HN'. destruct (decide (j = d)) as [->|]; [intros [= <-]; by left|].
    destruct (decide (j = i)) as [->|]; [intros [= <-]; by right|]. apply (w_type _ _ W).
  - intros d' Hd'%Hlive. destruct (w_dots _ _ W d' Hd') as (H0 & p & H1 & Hp & Hup). split; [apply HE; right; split; [intros [= _ ?]; lia|done]|].
    exists p. split; [apply HE; right; split; [intros [= _ ?]; lia|done]|]. split; [by apply Hlive|]. destruct (decide (d' = ROOT)); [done|].
    destruct Hup as (k & nm & Hk2 & He). exists k, nm. split; [done|]. apply HE. right. split; [intros [= -> ->]; congruence|done].
  - intros d' k k' nm j j' [(-> & -> & -> & ->)|[Hx Hy]]%HE [(He & -> & He' & ->)|[Hx' Hy']]%HE; [done| | |by eapply (w_names _ _ W)].
    + by destruct (Hfree _ _ Hy').
    + subst. by destruct (Hfree _ _ Hy).
  - intros d' k nm j [(_ & _ & _ & ->)|[_ Hy]]%HE; [done|]. apply Hlink. by eapply (w_target _ _ W).
  - intros d' k nm j [(_ & _ & _ & ->)|[_ Hy]]%HE Hk2 Hlv%Hlive.
    { destruct Hlv as (m & Hm & _ & Ht). by destruct (Hnd m Hm). }
    destruct (w_dir _ _ W _ _ _ _ Hy Hk2 Hlv) as (H1 & H2 & H3). split_and!; [done..|]. apply HE. right. split; [intros [= _ ?]; lia|done].
  - intros d' k k' nm nm' j [(_ & _ & _ & Ej)|[_ Hy]]%HE [(_ & _ & _ & Ej')|[_ Hy']]%HE Hk2 Hk2' Hlv%Hlive;
      [subst j; destruct Hlv as (m & Hm & _ & Ht); by destruct (Hnd m Hm)..|]. by eapply (w_once _ _ W).
  - intros j m k e. rewrite HN'. destruct (decide (j = d)) as [->|]; [intros [= <-] _; cbn; lia|].
    destruct (decide (j = i)) as [->|]; [intros [= <-]; done|]. apply (w_orphan _ _ W).
  - intros j m. rewrite HN', links_insert by (done || lia). destruct (decide (j = d)) as [->|]; [intros [= <-]|].
    + rewrite decide_False by done. cbn. rewrite (w_links _ _ W d dn Hd). lia.
    + destruct (decide (j = i)) as [->|]; [intros [= <-]; rewrite decide_True by done; lia|].
      intros Hm. rewrite decide_False by done. rewrite (w_links _ _ W j m Hm). lia.
Qed.

Lemma dots_ne : cn DOT <> cn DOTDOT.
Proof. by vm_compute. Qed.

Lemma ent1_dots ma mi k nm j : (0 < d < NINODES)%nat ->
  ent1 (mk_tnode T_DIR ma mi 1 [mk_dirent DOT (Z.of_nat i); mk_dirent DOTDOT (Z.of_nat d)]) k nm j <->
  (k = 0%nat /\ nm = cn DOT /\ j = i) \/ (k = 1%nat /\ nm = cn DOTDOT /\ j = d).
Proof.
  intros Hdn. destruct (num_dirent DOT i Hi) as (A1 & A2 & A3), (num_dirent DOTDOT d Hdn) as (B1 & B2 & B3).
  unfold ent1. cbn [t_type t_nlink t_slots]. split.
  - intros (_ & _ & e & He & _ & <- & <-). destruct k as [|[|k]]; cbn in He; [injection He as <-; left; by rewrite A2, A3|injection He as <-; right; by rewrite B2, B3|done].
  - intros [(-> & -> & ->)|(-> & -> & ->)]; (split_and!; [done|done|]); eexists; (split; [reflexivity|]); [by rewrite A2, A3|by rewrite B2, B3].
Qed.

(** A new directory is entered. *)
Lemma wf_add_dir ma mi N' : N !! i = None ->
  (forall j, N' !! j = if decide (j = d) then Some (grown (t_nlink dn + 1)) else if decide (j = i)
    then Some (mk_tnode T_DIR ma mi 1 [mk_dirent DOT (Z.of_nat i); mk_dirent DOTDOT (Z.of_nat d)]) else N !! j) ->
  wf N' (<[(d, k0) := (cn name, i)]> (<[(i, 1%nat) := (cn DOTDOT, d)]> (<[(i, 0%nat) := (cn DOT, i)]> E))).
Proof.
  intros Hni HN'. pose proof slot_free as Hs. pose proof slot_ge2 as Hk. assert (d <> i) as Hdi by congruence.
  destruct (w_num _ _ W d dn Hd) as [Hdn _].
  assert (forall k nm j, E !! (i, k) <> Some (nm, j)) as Hno by (intros; by apply ent_absent).
  assert (forall k, E !! (i, k) = None) as Hno' by (intros k; destruct (E !! (i, k)) as [[]|] eqn:Ei; [by apply Hno in Ei|done]).
  assert (forall d' k nm, E !! (d', k) <> Some (nm, i)) as Hnt by (intros d' k nm (m & Hm & _)%(w_target _ _ W); congruence).
  assert (forall j, live_dir N' j <-> j = i \/ live_dir N j) as Hlive.
  { intros j. unfold live_dir. rewrite HN'. destruct (decide (j = d)) as [->|]; [|destruct (decide (j = i)) as [->|]; [|naive_solver]].
    - split; [intros _; right; by exists dn|]. intros _. eexists. split; [done|]. cbn. split; [lia|done].
    - split; [by left|]. intros _. by eexists. }
  assert (forall j, linked_node N j \/ j = i -> linked_node N' j) as Hlink.
  { intros j Hj. unfold linked_node. rewrite HN'. destruct (decide (j = d)) as [->|]; [eexists; split; [done|cbn; lia]|].
    destruct (decide (j = i)); [by eexists|]. by destruct Hj as [Hj| ->]. }
  assert (forall d' k nm j, <[(d, k0) := (cn name, i)]> (<[(i, 1%nat) := (cn DOTDOT, d)]> (<[(i, 0%nat) := (cn DOT, i)]> E)) !! (d', k) = Some (nm, j) <->
    (d' = d /\ k = k0 /\ nm = cn name /\ j = i) \/ (d' = i /\ k = 1%nat /\ nm = cn DOTDOT /\ j = d) \/
    (d' = i /\ k = 0%nat /\ nm = cn DOT /\ j = i) \/ (d' <> i /\ (d', k) <> (d, k0) /\ E !! (d', k) = Some (nm, j))) as HE.
  { intros d' k nm j. rewrite !lookup_insert_Some. specialize (Hno k nm j). split.
    - intros [[[= -> ->] [= -> ->]]|[H1 [[[= -> ->] [= -> ->]]|[H2 [[[= -> ->] [= -> ->]]|[H3 H4]]]]]]; [by left|by right; left|by do 2 right; left|].
      do 3 right. split_and!; [|congruence|done]. by intros ->.
    - intros [(-> & -> & -> & ->)|[(-> & -> & -> & ->)|[(-> & -> & -> & ->)|(H1 & H2 & H3)]]].
      + by left.
      + right. split; [congruence|by left].
      + right. split; [congruence|]. right. split; [congruence|by left].
      + do 3 (right; split; [congruence|]). done. }
  split.
  - intros d' k nm j. rewrite HE. unfold ent. rewrite HN'. destruct (decide (d' = d)) as [->|Hne].
    + rewrite (ent_at d k nm j dn Hd). split.
      * intros Hx. eexists. split; [done|]. apply ent1_add; try done; [lia|]. destruct Hx as [(_ & -> & -> & ->)|[(? & _)|[(? & _)|(_ & Hx & Hy)]]]; [by rewrite decide_True|done..|].
        rewrite decide_False; [done|congruence].
      * intros (m & [= <-] & Hx). apply ent1_add in Hx; try done; [|lia].
        destruct (decide (k = k0)) as [->|]; [left; naive_solver|do 3 right; split_and!; [done|congruence|done]].
    + destruct (decide (d' = i)) as [->|Hni'].
      * split.
        -- intros Hx. eexists. split; [done|]. apply ent1_dots; [done|]. naive_solver.
        -- intros (m & [= <-] & Hx). apply ent1_dots in Hx; [|done]. naive_solver.
      * rewrite (w_ent _ _ W). unfold ent. split; [naive_solver|]. intros Hx. do 3 right. split_and!; [done|congruence|done].
  - apply Hlive. right. apply (w_root _ _ W).
  - intros j m. rewrite HN'. destruct (decide (j = d)) as [->|]; [intros [= <-]; split; [done|cbn; lia]|].
    destruct (decide (j = i)) as [->|]; [intros [= <-]; split; [done|cbn; lia]|]. apply (w_num _ _ W).
  - intros j m. rewrite HN'. destruct (decide (j = d)) as [->|]; [intros [= <-]; by left|].
    destruct (decide (j = i)) as [->|]; [intros [= <-]; by left|]. apply (w_type _ _ W).
  - intros d' [->|Hd']%Hlive.
    { split; [apply HE; naive_solver|]. exists d. split; [apply HE; naive_solver|]. split; [apply Hlive; right; apply dir_live|].
      rewrite decide_False. { exists k0, (cn name). split; [done|]. apply HE. by left. }
      intros ->. destruct (w_root _ _ W) as (m & Hm & _). congruence. }
    assert (d' <> i) as Hd'i by (intros ->; destruct Hd' as (m & Hm & _); congruence).
    destruct (w_dots _ _ W d' Hd') as (H0 & p & H1 & Hp & Hup). split; [apply HE; do 3 right; split_and!; [done|intros [= _ ?]; lia|done]|].
    exists p. split; [apply HE; do 3 right; split_and!; [done|intros [= _ ?]; lia|done]|]. split; [apply Hlive; by right|]. destruct (decide (d' = ROOT)); [done|].
    destruct Hup as (k & nm & Hk2 & He). exists k, nm. split; [done|]. apply HE. do 3 right. split_and!; [|intros [= -> ->]; congruence|done].
    intros ->. by apply Hno in He.
  - intros d' k k' nm j j' Hx%HE Hy%HE. pose proof dots_ne.
    destruct Hx as [(-> & -> & -> & ->)|[(-> & -> & -> & ->)|[(-> & -> & -> & ->)|(Hx1 & Hx2 & Hx3)]]],
      Hy as [(? & ? & ? & ?)|[(? & ? & ? & ?)|[(? & ? & ? & ?)|(Hy1 & Hy2 & Hy3)]]]; subst; try done; try congruence.
    + by destruct (Hfree _ _ Hy3).
    + by destruct (Hfree _ _ Hx3).
    + by eapply (w_names _ _ W).
  - intros d' k nm j [(_ & _ & _ & ->)|[(_ & _ & _ & ->)|[(_ & _ & _ & ->)|(_ & _ & Hx)]]]%HE; apply Hlink; [by right| |by right|left; by eapply (w_target _ _ W)].
    left. by exists dn.
  - intros d' k nm j [(-> & _ & _ & ->)|[(_ & -> & _ & _)|[(_ & -> & _ & _)|(H1 & _ & Hx)]]]%HE Hk2 Hlv%Hlive; [|lia|lia|].
    + split_and!; [|done|apply HE; naive_solver]. intros ->. destruct (w_root _ _ W) as (m & Hm & _). congruence.
    + assert (j <> i) as Hji by (intros ->; by apply Hnt in Hx). destruct Hlv as [|Hlv]; [done|].
      destruct (w_dir _ _ W _ _ _ _ Hx Hk2 Hlv) as (H2 & H3 & H4). split_and!; [done..|]. apply HE. do 3 right. split_and!; [done|intros [= _ ?]; lia|done].
  - intros d' k k' nm nm' j Hx%HE Hy%HE Hk2 Hk2' Hlv%Hlive.
    destruct Hx as [(? & ? & ? & ?)|[(_ & ? & _)|[(_ & ? & _)|(Hx1 & Hx2 & Hx3)]]]; [|lia|lia|];
      (destruct Hy as [(? & ? & ? & ?)|[(_ & ? & _)|[(_ & ? & _)|(Hy1 & Hy2 & Hy3)]]]; [|lia|lia|]); subst; [done|by apply Hnt in Hy3|by apply Hnt in Hx3|].
    destruct Hlv as [->|Hlv]; [by apply Hnt in Hx3|]. by eapply (w_once _ _ W).
  - intros j m k e. rewrite HN'. destruct (decide (j = d)) as [->|]; [intros [= <-] _; cbn; lia|].
    destruct (decide (j = i)) as [->|]; [intros [= <-]; done|]. apply (w_orphan _ _ W).
  - intros j m. rewrite HN'. rewrite links_insert by (rewrite ?lookup_insert_ne by congruence; done || lia).
    rewrite links_insert by (rewrite ?lookup_insert_ne by congruence; done). rewrite links_dot by done.
    destruct (decide (j = d)) as [->|]; [intros [= <-]|].
    + cbn [t_nlink]. rewrite (w_links _ _ W d dn Hd). repeat case_decide; try congruence. lia.
    + destruct (decide (j = i)) as [->|]; [intros [= <-]; rewrite no_links by done; cbn [t_nlink]; repeat case_decide; try congruence; lia|].
      intros Hm. rewrite !decide_False by done. rewrite (w_links _ _ W j m Hm). lia.
Qed.
End Add.

(** *** Removing an entry *)

Section Remove.
Context (d k i : nat) (dn n : tnode) (nm : bytes).
Context (Hd : N !! d = Some dn) (He : E !! (d, k) = Some (nm, i)) (Hk : (2 <= k)%nat) (Hn : N !! i = Some n).
Notation shrunk x := (mk_tnode (t_type dn) (t_major dn) (t_minor dn) x (<[k := replicate 16 0]> (t_slots dn))).

Lemma rm_dir : t_type dn = T_DIR /\ 0 < t_nlink dn /\ (k < length (t_slots dn))%nat.
Proof. destruct (proj1 (ent_at d k nm i dn Hd) He) as (H1 & H2 & e & H3 & _). split_and!; [done|done|by eapply lookup_lt_Some]. Qed.

Lemma dot_only d' nm' i' : E !! (d', 0%nat) = Some (nm', i') -> i' = d' /\ live_dir N d'.
Proof.
  intros H0. assert (live_dir N d') as Hl by (by eapply ent_dir). destruct (w_dots _ _ W d' Hl) as [H1 _]. split; [congruence|done].
Qed.

Lemma ent_shrunk x d' k' nm' j : 0 < x -> ent (<[d := shrunk x]> N) d' k' nm' j <-> (d', k') <> (d, k) /\ ent N d' k' nm' j.
Proof.
  intros Hx. destruct rm_dir as (Ht & Hz & Hlt). unfold ent. destruct (decide (d' = d)) as [->|Hne].
  - rewrite lookup_insert_eq. split.
    + intros (m & [= <-] & H1). apply ent1_clear in H1; [|done..]. destruct H1 as [Hkk H1]. split; [congruence|by exists dn].
    + intros [Hkk (m & Hm & H1)]. eexists. split; [done|]. apply ent1_clear; [done..|]. split; [congruence|]. congruence.
  - rewrite lookup_insert_ne by done. split; [intros H1; split; [congruence|done]|by intros [_ H1]].
Qed.

(** An entry of a file is removed. *)
Lemma wf_rm_file N' : t_type n <> T_DIR ->
  (forall j, N' !! j = if decide (j = i) then Some (set_t_nlink (t_nlink n - 1) n) else if decide (j = d) then Some (shrunk (t_nlink dn)) else N !! j) ->
  wf N' (delete (d, k) E).
Proof.
  intros Hnt HN'. destruct rm_dir as (Ht & Hz & Hlt). assert (d <> i) as Hdi by congruence.
  assert (forall j, live_dir N' j <-> live_dir N j) as Hlive.
  { intros j. unfold live_dir. rewrite HN'. destruct (decide (j = i)) as [->|]; [|destruct (decide (j = d)) as [->|]; [|done]].
    - split; [by intros (m & [= <-] & _ & ?)|]. intros (m & Hm & _ & ?). congruence.
    - split; [by exists dn|]. intros _. by eexists. }
  assert (forall d' k' nm' j, delete (d, k) E !! (d', k') = Some (nm', j) <-> (d', k') <> (d, k) /\ E !! (d', k') = Some (nm', j)) as HE
    by (intros; rewrite lookup_delete_Some; naive_solver).
  assert (t_nlink n = Z.of_nat (links (delete (d, k) E) i) + 1) as Hln.
  { rewrite (w_links _ _ W i n Hn), (links_delete E d k nm i i He), decide_True by (done || lia). lia. }
  split.
  - intros d' k' nm' j. rewrite HE, (w_ent _ _ W), <- (ent_shrunk (t_nlink dn)) by done. unfold ent. rewrite HN'.
    destruct (decide (d' = i)) as [->|]; [|destruct (decide (d' = d)) as [->|]; [by rewrite lookup_insert_eq|by rewrite lookup_insert_ne]].
    rewrite lookup_insert_ne, Hn by done. split; intros (m & [= <-] & H1 & _); done.
  - apply Hlive, (w_root _ _ W).
  - intros j m. rewrite HN'. destruct (decide (j = i)) as [->|]; [intros [= <-]; split; [exact (proj1 (w_num _ _ W _ _ Hn))|cbn; lia]|].
    destruct (decide (j = d)) as [->|]; [intros [= <-]; split; [exact (proj1 (w_num _ _ W _ _ Hd))|cbn; lia]|]. apply (w_num _ _ W).
  - intros j m. rewrite HN'. destruct (decide (j = i)) as [->|]; [intros [= <-]; exact (w_type _ _ W _ _ Hn)|].
    destruct (decide (j = d)) as [->|]; [intros [= <-]; by left|]. apply (w_type _ _ W).
  - intros d' Hd'%Hlive. destruct (w_dots _ _ W d' Hd') as (H0 & p & H1 & Hp & Hup). split; [apply HE; split; [intros [= _ ?]; lia|done]|].
    exists p. split; [apply HE; split; [intros [= _ ?]; lia|done]|]. split; [by apply Hlive|]. destruct (decide (d' = ROOT)); [done|].
    destruct Hup as (k' & nm' & Hk2 & He'). exists k', nm'. split; [done|]. apply HE. split; [|done]. intros [= -> ->].
    rewrite He in He'. injection He' as <- <-. destruct Hd' as (m & Hm & _ & ?). congruence.
  - intros d' k1 k2 nm' j j' [_ H1]%HE [_ H2]%HE. by eapply (w_names _ _ W).
  - intros d' k' nm' j [Hne H1]%HE. destruct (w_target _ _ W _ _ _ _ H1) as (m & Hm & Hzm). unfold linked_node. rewrite HN'.
    destruct (decide (j = i)) as [->|]; [|destruct (decide (j = d)) as [->|]; [by eexists|by exists m]].
    eexists. split; [done|]. cbn. assert (0 < links (delete (d, k) E) i)%nat; [|lia]. eapply (links_pos _ d' k' nm'); [by apply HE|]. intros ->.
    apply dot_only in H1 as [-> (m' & Hm' & _ & ?)]. congruence.
  - intros d' k' nm' j [_ H1]%HE Hk2 Hlv%Hlive. destruct (w_dir _ _ W _ _ _ _ H1 Hk2 Hlv) as (H2 & H3 & H4). split_and!; [done..|].
    apply HE. split; [intros [= _ ?]; lia|done].
  - intros d' k1 k2 nm1 nm2 j [_ H1]%HE [_ H2]%HE Hk1 Hk2 Hlv%Hlive. by eapply (w_once _ _ W).
  - intros j m k' e. rewrite HN'. destruct (decide (j = i)) as [->|]; [intros [= <-]; done|].
    destruct (decide (j = d)) as [->|]; [intros [= <-] _; cbn; lia|]. apply (w_orphan _ _ W).
  - intros j m. rewrite HN'. pose proof (links_delete E d k nm i j He ltac:(lia)) as Hl. destruct (decide (j = i)) as [->|Hji]; [intros [= <-]; cbn; lia|].
    rewrite decide_False in Hl by done. destruct (decide (j = d)) as [->|]; [intros [= <-]; cbn; rewrite (w_links _ _ W d dn Hd)|intros Hm; rewrite (w_links _ _ W j m Hm)]; lia.
Qed.
(** The facts about an empty directory that is entered in [d]. *)
Section Empty.
Context (Htn : t_type n = T_DIR) (Hzn : 0 < t_nlink n) (Hempty : forall k' e, (2 <= k')%nat -> t_slots n !! k' = Some e -> de_inum e = 0).
Notation E' := (delete (d, k) (delete (i, 1%nat) (delete (i, 0%nat) E))).

Lemma rm_live : live_dir N i.
Proof. by exists n. Qed.
Lemma rm_parent : i <> ROOT /\ i <> d /\ E !! (i, 1%nat) = Some (cn DOTDOT, d) /\ E !! (i, 0%nat) = Some (cn DOT, i).
Proof. destruct (w_dir _ _ W _ _ _ _ He Hk rm_live) as (H1 & H2 & H3). split_and!; [done..|]. apply (w_dots _ _ W i rm_live). Qed.
Lemma rm_no_child k' nm' j : (2 <= k')%nat -> E !! (i, k') <> Some (nm', j).
Proof. intros H2 (_ & _ & e & H3 & H4 & _)%(ent_at i k' nm' j n Hn). by apply H4, (Hempty k'). Qed.

Lemma rm_E d' k' nm' j : E' !! (d', k') = Some (nm', j) <-> d' <> i /\ (d', k') <> (d, k) /\ E !! (d', k') = Some (nm', j).
Proof.
  rewrite !lookup_delete_Some. split.
  - intros (H1 & H2 & H3 & H4). split_and!; [|congruence|done]. intros ->. destruct k' as [|[|k']]; [done|done|]. by apply (rm_no_child (S (S k')) nm' j); [lia|].
  - intros (H1 & H2 & H3). split_and!; congruence.
Qed.
(** No other entry names it, and no linked directory has it as parent. *)
Lemma rm_target d' k' nm' : E' !! (d', k') <> Some (nm', i).
Proof.
  intros (H1 & H2 & H3)%rm_E. destruct rm_parent as (P1 & P2 & P3 & P4). destruct k' as [|[|k']].
  - by apply dot_only in H3 as [-> _].
  - assert (live_dir N d') as Hl by (by eapply ent_dir). destruct (w_dots _ _ W d' Hl) as (_ & p & H4 & _ & H5).
    rewrite H3 in H4. injection H4 as _ <-. destruct (decide (d' = ROOT)); [done|]. destruct H5 as (k2 & nm2 & H6 & H7). by apply (rm_no_child k2 nm2 d').
  - destruct (w_dir _ _ W _ _ _ _ H3 ltac:(lia) rm_live) as (_ & _ & H4). rewrite P3 in H4. injection H4 as <-.
    apply H2. f_equal. by eapply (w_once _ _ W _ _ _ _ _ i H3 He); [lia|lia|apply rm_live].
Qed.
Lemma rm_links j : links E j = (links E' j + (if decide (i = j) then 1 else 0) + (if decide (d = j) then 1 else 0))%nat.
Proof.
  destruct rm_parent as (P1 & P2 & P3 & P4). rewrite <- (links_delete_dot E i (cn DOT) i j P4).
  rewrite (links_delete (delete (i, 0%nat) E) i 1 (cn DOTDOT) d j) by (rewrite ?lookup_delete_ne by congruence; done).
  rewrite (links_delete (delete (i, 1%nat) (delete (i, 0%nat) E)) d k nm i j) by (rewrite ?lookup_delete_ne by congruence; done || lia). lia.
Qed.
Lemma rm_count : t_nlink n = 1.
Proof.
  rewrite (w_links _ _ W i n Hn), rm_links, decide_True, decide_False by (done || destruct rm_parent; congruence || naive_solver).
  rewrite links_zero; [done|]. apply rm_target.
Qed.
(** The parent keeps a link: its own entry, or the .. of the root. *)
Lemma rm_parent_count : 1 < t_nlink dn.
Proof.
  destruct rm_parent as (P1 & P2 & P3 & P4). rewrite (w_links _ _ W d dn Hd), rm_links, decide_False, decide_True by done.
  enough (0 < links E' d)%nat by lia. assert (live_dir N d) as Hl by (by eapply ent_dir). destruct (w_dots _ _ W d Hl) as (_ & p & H4 & _ & H5).
  destruct (decide (d = ROOT)) as [Er|].
  - apply (links_pos _ d 1 (cn DOTDOT)); [|done]. apply rm_E. split_and!; [done|intros [= ?]; lia|congruence].
  - destruct H5 as (k2 & nm2 & H6 & H7). apply (links_pos _ p k2 nm2); [|lia]. apply rm_E. split_and!; [|congruence|done].
    intros ->. by apply (rm_no_child k2 nm2 d).
Qed.

Lemma wf_rm_dir N' :
  (forall j, N' !! j = if decide (j = i) then Some (set_t_nlink (t_nlink n - 1) n) else if decide (j = d) then Some (shrunk (t_nlink dn - 1)) else N !! j) ->
  wf N' E'.
Proof.
  intros HN'. destruct rm_dir as (Ht & Hz & Hlt). pose proof rm_count as Hn1. pose proof rm_parent_count as Hd1. destruct rm_parent as (P1 & P2 & P3 & P4).
  assert (forall j, live_dir N' j <-> j <> i /\ live_dir N j) as Hlive.
  { intros j. unfold live_dir. rewrite HN'. destruct (decide (j = i)) as [->|]; [|destruct (decide (j = d)) as [->|]; [|naive_solver]].
    - split; [intros (m & [= <-] & ? & _); cbn in *; lia|naive_solver].
    - split; [intros _; split; [done|by exists dn]|]. intros _. eexists. split; [done|]. cbn. split; [lia|done]. }
  split.
  - intros d' k' nm' j. rewrite rm_E. unfold ent. rewrite HN'. destruct (decide (d' = i)) as [->|Hne].
    { split; [naive_solver|]. intros (m & [= <-] & _ & ? & _). cbn in *. lia. }
    transitivity (ent (<[d := shrunk (t_nlink dn - 1)]> N) d' k' nm' j).
    + rewrite ent_shrunk by lia. rewrite (w_ent _ _ W). naive_solver.
    + unfold ent. destruct (decide (d' = d)) as [->|]; [by rewrite lookup_insert_eq|by rewrite lookup_insert_ne].
  - apply Hlive. split; [done|apply (w_root _ _ W)].
  - intros j m. rewrite HN'. destruct (decide (j = i)) as [->|]; [intros [= <-]; split; [exact (proj1 (w_num _ _ W _ _ Hn))|cbn; lia]|].
    destruct (decide (j = d)) as [->|]; [intros [= <-]; split; [exact (proj1 (w_num _ _ W _ _ Hd))|cbn; lia]|]. apply (w_num _ _ W).
  - intros j m. rewrite HN'. destruct (decide (j = i)) as [->|]; [intros [= <-]; by left|].
    destruct (decide (j = d)) as [->|]; [intros [= <-]; by left|]. apply (w_type _ _ W).
  - intros d' [Hd'i Hd']%Hlive. destruct (w_dots _ _ W d' Hd') as (H0 & p & H1 & Hp & Hup). split; [apply rm_E; split_and!; [done|intros [= _ ?]; lia|done]|].
    assert (E' !! (d', 1%nat) = Some (cn DOTDOT, p)) as H1' by (apply rm_E; split_and!; [done|intros [= _ ?]; lia|done]).
    exists p. split; [done|]. split; [apply Hlive; split; [|done]; intros ->; by apply rm_target in H1'|]. destruct (decide (d' = ROOT)); [done|].
    destruct Hup as (k' & nm' & Hk2 & He'). exists k', nm'. split; [done|]. apply rm_E. split_and!; [|congruence|done].
    intros ->. by apply (rm_no_child k' nm' d').
  - intros d' k1 k2 nm' j j' (_ & _ & H1)%rm_E (_ & _ & H2)%rm_E. by eapply (w_names _ _ W).
  - intros d' k' nm' j H0. pose proof H0 as (H1 & H2 & H3)%rm_E. destruct (w_target _ _ W _ _ _ _ H3) as (m & Hm & Hzm). unfold linked_node. rewrite HN'.
    destruct (decide (j = i)) as [->|]; [by apply rm_target in H0|]. destruct (decide (j = d)) as [->|]; [eexists; split; [done|cbn; lia]|by exists m].
  - intros d' k' nm' j (H1 & H2 & H3)%rm_E Hk2 [Hji Hlv]%Hlive. destruct (w_dir _ _ W _ _ _ _ H3 Hk2 Hlv) as (H4 & H5 & H6). split_and!; [done..|].
    apply rm_E. split_and!; [done|intros [= _ ?]; lia|done].
  - intros d' k1 k2 nm1 nm2 j (_ & _ & H1)%rm_E (_ & _ & H2)%rm_E Hk1 Hk2 [_ Hlv]%Hlive. by eapply (w_once _ _ W).
  - intros j m k' e. rewrite HN'. destruct (decide (j = i)) as [->|]; [intros [= <-] _ _; apply Hempty|].
    destruct (decide (j = d)) as [->|]; [intros [= <-] _; cbn; lia|]. apply (w_orphan _ _ W).
  - intros j m. rewrite HN'. pose proof (rm_links j) as Hl. destruct (decide (j = i)) as [->|Hji]; [intros [= <-]; cbn; rewrite links_zero; [lia|apply rm_target]|].
    rewrite decide_False in Hl by done. destruct (decide (j = d)) as [->|]; [intros [= <-]; cbn; rewrite decide_True in Hl by done; rewrite (w_links _ _ W d dn Hd); lia|].
    intros Hm. rewrite decide_False in Hl by done. rewrite (w_links _ _ W j m Hm). lia.
Qed.
End Empty.
End Remove.

(** The last reference to an inode without links goes away. *)
Lemma wf_free i n N' : N !! i = Some n -> t_nlink n = 0 -> (forall j, N' !! j = if decide (j = i) then None else N !! j) -> wf N' E.
Proof.
  intros Hn Hz HN'.
  assert (forall j, live_dir N' j <-> live_dir N j) as Hlive.
  { intros j. unfold live_dir. rewrite HN'. destruct (decide (j = i)) as [->|]; [|done]. split; [by intros (m & ? & _)|]. intros (m & Hm & ? & _). assert (m = n) by congruence. subst m. lia. }
  split.
  - intros d' k nm j. rewrite (w_ent _ _ W). unfold ent. rewrite HN'. destruct (decide (d' = i)) as [->|]; [|done].
    split; [|by intros (m & ? & _)]. intros (m & Hm & _ & ? & _). assert (m = n) by congruence. subst m. lia.
  - apply Hlive, (w_root _ _ W).
  - intros j m. rewrite HN'. destruct (decide (j = i)); [done|]. apply (w_num _ _ W).
  - intros j m. rewrite HN'. destruct (decide (j = i)); [done|]. apply (w_type _ _ W).
  - intros d' Hd'%Hlive. destruct (w_dots _ _ W d' Hd') as (H0 & p & H1 & Hp & Hup). split; [done|]. exists p. split_and!; [done|by apply Hlive|done].
  - apply (w_names _ _ W).
  - intros d' k nm j Hj%(w_target _ _ W). destruct Hj as (m & Hm & Hzm). exists m. split; [|done]. rewrite HN', decide_False; [done|].
    intros ->. assert (m = n) by congruence. subst m. lia.
  - intros d' k nm j H1 H2 Hlv%Hlive. by eapply (w_dir _ _ W).
  - intros d' k1 k2 nm1 nm2 j H1 H2 H3 H4 Hlv%Hlive. by eapply (w_once _ _ W).
  - intros j m k e. rewrite HN'. destruct (decide (j = i)); [done|]. apply (w_orphan _ _ W).
  - intros j m. rewrite HN'. destruct (decide (j = i)); [done|]. apply (w_links _ _ W).
Qed.
End Preserve.
