(* ===== verification/Namespec.v ===== *)
(** * Names, links and references (sysfile.c)

    link, unlink, mkdir, mknod, create and chdir keep the invariant of the tree
    of names and the references to in-memory inodes, in every case of failure
    too; what each of them does to the names. *)

From stdpp Require Import gmultiset.
From S2P Require Import Prelude Layout Block Blockio Fs Fsfile Fsdir Syscall Sysfile Names Nametree Namewf.

(** ** Running the operations

    [runs c Q s]: [c] returns with [Q], or panics because the inode cache, the
    inodes of the disk or the entries of a directory are used up. *)
Definition exhausted : list string := ["iget: no inodes"; "ialloc: no inodes"; "dirlink"]%string.
Definition runs {S A : Type} (c : M S A) (Q : A -> S -> Prop) (s : S) : Prop :=
  match c s with
  | Ok a s' => Q a s'
  | Panic m => m ∈ exhausted
  | _ => False
  end.

Section Runs.
Context {S A : Type}.
Lemma runs_bind {B} (c : M S A) (f : A -> M S B) Q s : runs c (fun a s' => runs (f a) Q s') s -> runs (kbind c f) Q s.
Proof. unfold runs, kbind. by destruct (c s). Qed.
Lemma runs_ret (a : A) (Q : A -> S -> Prop) s : Q a s -> runs (kret a) Q s.
Proof. done. Qed.
Lemma runs_mono (c : M S A) (Q Q' : A -> S -> Prop) s : runs c Q s -> (forall a s', Q a s' -> Q' a s') -> runs c Q' s.
Proof. unfold runs. destruct (c s); auto. Qed.
End Runs.

Implicit Types (N : gmap nat tnode) (R : gmultiset nat) (L D : gset nat) (n : tnode) (i d : nat).

Section Prim.
Context (c o : nat).

Lemma runs_begin N R L D (Q : unit -> tfs -> Prop) : Q tt (mk_tfs N R L D c (S o)) -> runs nf_begin Q (mk_tfs N R L D c o).
Proof. done. Qed.
Lemma runs_end N R L D (Q : unit -> tfs -> Prop) : Q tt (mk_tfs N R L D c o) -> runs nf_end Q (mk_tfs N R L D c (S o)).
Proof. done. Qed.

Lemma runs_iget i N R L D (Q : nat -> tfs -> Prop) : Q i (mk_tfs N ({[+ i +]} ⊎ R) L D c o) -> runs (t_iget i) Q (mk_tfs N R L D c o).
Proof. intros HQ. unfold runs, t_iget, kbind, kget. cbn. destruct (decide _); [done|]. cbn. unfold exhausted. set_solver. Qed.
Lemma runs_idup i N R L D (Q : nat -> tfs -> Prop) : Q i (mk_tfs N ({[+ i +]} ⊎ R) L D c o) -> runs (nf_idup i) Q (mk_tfs N R L D c o).
Proof. done. Qed.

Lemma runs_lock i n N R L D (Q : unit -> tfs -> Prop) : N !! i = Some n -> i ∈ R -> i ∉ L ->
  Q tt (mk_tfs N R ({[i]} ∪ L) D c o) -> runs (nf_lock i) Q (mk_tfs N R L D c o).
Proof. intros Hn Hr Hl HQ. unfold runs. cbn. unfold t_lock, kbind, kget. cbn. by rewrite decide_True, decide_False, Hn. Qed.
Lemma runs_unlock i N R L D (Q : unit -> tfs -> Prop) : i ∈ R -> i ∈ L ->
  Q tt (mk_tfs N R (L ∖ {[i]}) D c o) -> runs (nf_unlock i) Q (mk_tfs N R L D c o).
Proof. intros Hr Hl HQ. unfold runs. cbn. unfold t_unlock, kbind, kget. cbn. by rewrite decide_True. Qed.
Lemma runs_put i N R L D (Q : unit -> tfs -> Prop) : i ∈ R -> i ∉ L ->
  Q tt (mk_tfs (freed i R N) (R ∖ {[+ i +]}) L D c o) -> runs (nf_put i) Q (mk_tfs N R L D c o).
Proof. intros Hr Hl HQ. unfold runs. cbn. unfold t_put, kbind, kget. cbn. by rewrite decide_False, decide_True. Qed.

Lemma runs_node i n N R L D (Q : tnode -> tfs -> Prop) : N !! i = Some n -> i ∈ L ->
  Q n (mk_tfs N R L D c o) -> runs (t_node i) Q (mk_tfs N R L D c o).
Proof. intros Hn Hl HQ. unfold runs, t_node, kbind, kget. cbn. by rewrite decide_True, Hn. Qed.
Lemma runs_change i g n N R L D (Q : unit -> tfs -> Prop) : N !! i = Some n -> i ∈ L ->
  Q tt (mk_tfs (<[i := g n]> N) R L D c o) -> runs (t_change i g) Q (mk_tfs N R L D c o).
Proof. intros Hn Hl HQ. unfold t_change. apply runs_bind. by eapply runs_node. Qed.
Lemma runs_get i n N R L D (Q : iview -> tfs -> Prop) : N !! i = Some n -> i ∈ L ->
  Q (mk_iview ROOTDEV (Z.of_nat i) (t_type n) (t_nlink n) (16 * Z.of_nat (length (t_slots n)))) (mk_tfs N R L D c o) ->
  runs (nf_get i) Q (mk_tfs N R L D c o).
Proof. intros Hn Hl HQ. cbn. unfold t_get. apply runs_bind. by eapply runs_node. Qed.

(** A field is set and the inode written back. *)
Lemma runs_field0 i g n N R L (Q : unit -> tfs -> Prop) : N !! i = Some n -> i ∈ L ->
  Q tt (mk_tfs (<[i := g n]> N) R L ∅ c o) -> runs (t_field i g ;;; nf_update i) Q (mk_tfs N R L ∅ c o).
Proof.
  intros Hn Hl HQ. apply runs_bind. unfold t_field. apply runs_bind. eapply runs_change; [done..|].
  unfold runs at 1, modify. cbn [set_dirty tf_dirty nf_update tree_names]. unfold t_update. apply runs_bind.
  eapply runs_node; [apply lookup_insert_eq|done|]. unfold runs at 1, modify. cbn.
  replace (({[i]} ∪ ∅) ∖ {[i]}) with (∅ : gset nat) by set_solver. done.
Qed.
Lemma runs_field {A} i g n N R L (f : M tfs A) (Q : A -> tfs -> Prop) : N !! i = Some n -> i ∈ L ->
  runs f Q (mk_tfs (<[i := g n]> N) R L ∅ c o) -> runs (t_field i g ;;; nf_update i ;;; f) Q (mk_tfs N R L ∅ c o).
Proof.
  intros Hn Hl HQ. unfold runs. rewrite <- kbind_assoc. apply runs_bind. by eapply runs_field0.
Qed.

(** A reference that keeps a linked inode is dropped. *)
Lemma freed_linked i n R N : N !! i = Some n -> t_nlink n <> 0 -> freed i R N = N.
Proof. intros Hn Hl. unfold freed. rewrite Hn, decide_False; [done|tauto]. Qed.

Lemma runs_unlockput i n N R L D (Q : unit -> tfs -> Prop) : N !! i = Some n -> t_nlink n <> 0 -> i ∈ L -> i ∈ R ->
  Q tt (mk_tfs N (R ∖ {[+ i +]}) (L ∖ {[i]}) D c o) -> runs (nf_unlockput i) Q (mk_tfs N R L D c o).
Proof.
  intros Hn Hz Hl Hr HQ. unfold nf_unlockput. apply runs_bind. apply runs_unlock; [done|done|].
  apply runs_put; [done|set_solver|]. by rewrite (freed_linked i n).
Qed.
(** The inode may be freed. *)
Lemma runs_unlockput_free i N R L D (Q : unit -> tfs -> Prop) : i ∈ L -> i ∈ R ->
  Q tt (mk_tfs (freed i R N) (R ∖ {[+ i +]}) (L ∖ {[i]}) D c o) -> runs (nf_unlockput i) Q (mk_tfs N R L D c o).
Proof.
  intros Hl Hr HQ. unfold nf_unlockput. apply runs_bind. apply runs_unlock; [done|done|]. by apply runs_put; [|set_solver|].
Qed.
End Prim.

(** ** Walking a path *)

Definition dir_at N d : bool := match N !! d with Some n => t_type n =? T_DIR | None => false end.

(** The walk as a function of the tree. *)
Fixpoint walk (fuel : nat) N (ip : nat) (path : bytes) (parent : bool) (name : bytes) : option nat * bytes :=
  match fuel with
  | O => (None, name)
  | S fuel' =>
      match skipelem path name with
      | None => (if parent then None else Some ip, name)
      | Some (path, name) =>
          if negb (dir_at N ip) then (None, name)
          else if parent && bool_decide (path = []) then (Some ip, name)
          else match found N ip name with
               | None => (None, name)
               | Some (_, next) => walk fuel' N next path parent name
               end
      end
  end.

Section Lookup.
Context (c o : nat).

Lemma runs_lookup i n name N R L D (Q : option (nat * Z) -> tfs -> Prop) : N !! i = Some n -> t_type n = T_DIR -> i ∈ L ->
  (found N i name = None -> Q None (mk_tfs N R L D c o)) ->
  (forall k j, found N i name = Some (k, j) -> Q (Some (j, 16 * Z.of_nat k)) (mk_tfs N ({[+ j +]} ⊎ R) L D c o)) ->
  runs (nf_lookup i name) Q (mk_tfs N R L D c o).
Proof.
  intros Hn Ht Hl. unfold found. rewrite Hn. intros HNone HSome. cbn. unfold t_lookup. apply runs_bind. eapply runs_node; [done..|].
  rewrite Ht. cbn [negb Z.eqb T_DIR Pos.eqb]. destruct (list_find _ _) as [[k e]|]; [|by apply runs_ret, HNone].
  apply runs_bind. apply runs_iget. apply runs_ret. by apply HSome.
Qed.

Lemma skipelem_shorter path name path' name' : skipelem path name = Some (path', name') -> (length path' < length path)%nat.
Proof.
  unfold skipelem. pose proof (skip_slashes_length path) as H1. pose proof (skip_slashes_head path) as H2.
  destruct (skip_slashes path) as [|x l] eqn:E; [done|]. intros [= <- _].
  pose proof (skip_slashes_length (drop (elem_len (x :: l)) (x :: l))) as H3. rewrite length_drop in H3.
  pose proof (elem_len_pos x l H2). change (if x =? SLASH then 0%nat else S (elem_len l)) with (elem_len (x :: l)). cbn [length] in *. lia.
Qed.

Lemma walk_runs N D fuel : closed N -> forall ip path parent name R (Q : option nat * bytes -> tfs -> Prop),
  linked_node N ip -> (length path < fuel)%nat ->
  (let r := walk fuel N ip path parent name in
   (forall j, r.1 = Some j -> linked_node N j /\ (parent = true -> live_dir N j)) ->
   Q r (mk_tfs N (match r.1 with Some j => {[+ j +]} ⊎ R | None => R end) ∅ D c o)) ->
  runs (walk_path fuel ip path parent name) Q (mk_tfs N ({[+ ip +]} ⊎ R) ∅ D c o).
Proof.
  intros Hc. induction fuel as [|fuel IH]; intros ip path parent name R Q Hip Hlen HQ; [lia|].
  destruct (Hip) as (n & Hn & Hz). cbn [walk_path walk] in *. unfold dir_at in HQ. rewrite Hn in HQ.
  destruct (skipelem path name) as [[path' name']|] eqn:Es.
  2: { destruct parent; [apply runs_bind, runs_put; [multiset_solver|set_solver|]|]; apply runs_ret.
    - rewrite (freed_linked ip n) by (done || lia). replace (({[+ ip +]} ⊎ R) ∖ {[+ ip +]}) with R by multiset_solver. by apply HQ.
    - apply HQ. intros j [= <-]. done. }
  apply skipelem_shorter in Es. apply runs_bind. eapply runs_lock; [done|multiset_solver|set_solver|].
  apply runs_bind. eapply runs_get; [done|set_solver|]. cbn [v_type].
  assert (({[ip]} ∪ ∅) ∖ {[ip]} = (∅ : gset nat)) as EL by set_solver.
  assert (forall (f : M tfs (option nat * bytes)) R0, runs f Q (mk_tfs N R0 ∅ D c o) ->
    runs (nf_unlockput ip ;;; f) Q (mk_tfs N ({[+ ip +]} ⊎ R0) ({[ip]} ∪ ∅) D c o)) as Hput.
  { intros f R0 Hf. apply runs_bind. eapply runs_unlockput; [done|lia|set_solver|multiset_solver|]. rewrite EL.
    by replace (({[+ ip +]} ⊎ R0) ∖ {[+ ip +]}) with R0 by multiset_solver. }
  destruct (Z.eqb_spec (t_type n) T_DIR) as [Et|Et]; cbn [negb] in *; [|by apply Hput, runs_ret, HQ].
  assert (live_dir N ip) as Hlive by (exists n; done).
  destruct (parent && bool_decide (path' = [])) eqn:Ep.
  - apply runs_bind, runs_unlock; [multiset_solver|set_solver|]. rewrite EL. apply runs_ret, HQ. by intros j [= <-].
  - apply runs_bind. eapply (runs_lookup ip n name'); [done|done|set_solver| |].
    + intros E. rewrite E in HQ. by apply Hput, runs_ret, HQ.
    + intros k j E. rewrite E in HQ. replace ({[+ j +]} ⊎ ({[+ ip +]} ⊎ R)) with ({[+ ip +]} ⊎ ({[+ j +]} ⊎ R)) by multiset_solver.
      apply Hput. apply IH; [by eapply Hc|lia|done].
Qed.

(** Where a path starts. *)
Definition start_of (path : bytes) : nat := if bool_decide (head path = Some SLASH) then ROOT else c.

Definition resolve N (path : bytes) (parent : bool) : option nat * bytes :=
  walk (S (length path)) N (start_of path) path parent (replicate DIRSIZ 0).

Lemma namex_runs N D path parent R (Q : option nat * bytes -> tfs -> Prop) : closed N -> linked_node N (start_of path) ->
  (let r := resolve N path parent in
   (forall j, r.1 = Some j -> linked_node N j /\ (parent = true -> live_dir N j)) ->
   Q r (mk_tfs N (match r.1 with Some j => {[+ j +]} ⊎ R | None => R end) ∅ D c o)) ->
  runs (nf_namex path parent (replicate DIRSIZ 0)) Q (mk_tfs N R ∅ D c o).
Proof.
  intros Hc Hs HQ. unfold nf_namex. unfold resolve, start_of in *. apply runs_bind. destruct (bool_decide _).
  - apply runs_iget. apply walk_runs; [done|done|lia|done].
  - apply runs_bind. unfold runs at 1. cbn [nf_cwd tree_names gets tf_cwd]. apply runs_idup. apply walk_runs; [done|done|lia|done].
Qed.

Lemma namei_runs N D path R (Q : option nat -> tfs -> Prop) : closed N -> linked_node N (start_of path) ->
  ((resolve N path false).1 = None -> Q None (mk_tfs N R ∅ D c o)) ->
  (forall j, (resolve N path false).1 = Some j -> linked_node N j -> Q (Some j) (mk_tfs N ({[+ j +]} ⊎ R) ∅ D c o)) ->
  runs (nf_namei path) Q (mk_tfs N R ∅ D c o).
Proof.
  intros Hc Hs HN HS. unfold nf_namei. apply runs_bind. apply namex_runs; [done|done|]. intros r Hr. apply runs_ret. subst r.
  destruct (resolve N path false) as [[j|] nm] eqn:E; cbn in *; [|by apply HN]. apply HS; [done|]. by apply Hr.
Qed.

Lemma nameiparent_runs N D path R (Q : option nat * bytes -> tfs -> Prop) : closed N -> linked_node N (start_of path) ->
  (forall nm, resolve N path true = (None, nm) -> Q (None, nm) (mk_tfs N R ∅ D c o)) ->
  (forall d nm, resolve N path true = (Some d, nm) -> live_dir N d -> Q (Some d, nm) (mk_tfs N ({[+ d +]} ⊎ R) ∅ D c o)) ->
  runs (nf_nameiparent path) Q (mk_tfs N R ∅ D c o).
Proof.
  intros Hc Hs HN HS. unfold nf_nameiparent. apply namex_runs; [done|done|]. intros r Hr. subst r.
  destruct (resolve N path true) as [[j|] nm] eqn:E; cbn in *; [|by apply HN]. apply HS; [done|]. by apply Hr.
Qed.
End Lookup.


(** ** Directories *)

Section Dirs.
Context (c o : nat).

(** [dirlink]: refused, or the entry is added. *)
Lemma runs_link i n name inum N R L D (Q : Z -> tfs -> Prop) : N !! i = Some n -> t_type n = T_DIR -> i ∈ L ->
  (forall k j, found N i name = Some (k, j) -> j ∉ L /\ linked_node N j /\ Q (-1) (mk_tfs N R L D c o)) ->
  (found N i name = None -> Q 0 (mk_tfs (<[i := set_t_slots (add_slot (mk_dirent name inum) (t_slots n)) n]> N) R L D c o)) ->
  runs (nf_link i name inum) Q (mk_tfs N R L D c o).
Proof.
  intros Hn Ht Hl HS HN. cbn. unfold t_link. apply runs_bind. eapply runs_lookup; [done..| |].
  - intros Hf. apply runs_bind. eapply runs_node; [done..|]. destruct (decide _); [|cbn; unfold exhausted; set_solver].
    apply runs_bind. eapply runs_change; [done..|]. apply runs_ret. by apply HN.
  - intros k j Hf. destruct (HS k j Hf) as (Hj & (m & Hm & Hz) & HQ). apply runs_bind.
    apply runs_put; [multiset_solver|done|]. rewrite (freed_linked j m) by (done || lia).
    replace (({[+ j +]} ⊎ R) ∖ {[+ j +]}) with R by multiset_solver. done.
Qed.

Lemma isdirempty_loop_runs i n N R L D fuel : forall j (Q : bool -> tfs -> Prop), N !! i = Some n -> i ∈ L -> (length (t_slots n) - j < fuel)%nat ->
  Q (forallb (fun e => de_inum e =? 0) (drop j (t_slots n))) (mk_tfs N R L D c o) ->
  runs (isdirempty_loop fuel i (16 * Z.of_nat j)) Q (mk_tfs N R L D c o).
Proof.
  induction fuel as [|fuel IH]; intros j Q Hn Hl Hf HQ; [lia|]. cbn [isdirempty_loop]. apply runs_bind. eapply runs_get; [done..|]. cbn [v_size].
  destruct (Z.ltb_spec (16 * Z.of_nat j) (16 * Z.of_nat (length (t_slots n)))) as [Hlt|Hge].
  2: { rewrite drop_ge in HQ by lia. by apply runs_ret. }
  destruct (lookup_lt_is_Some_2 (t_slots n) j) as [e He]; [lia|]. apply runs_bind. cbn [nf_readi tree_names]. unfold t_readi. apply runs_bind.
  eapply runs_node; [done..|]. unfold DESIZE. rewrite (Z.mul_comm 16), Z.mod_mul, Z.div_mul by lia. cbn [Z.eqb Pos.eqb andb]. rewrite Nat2Z.id, He.
  apply runs_ret. cbn [fst snd negb Z.eqb Pos.eqb]. rewrite (drop_S _ e) in HQ by done. cbn [forallb] in HQ. destruct (de_inum e =? 0); cbn [negb andb] in *.
  - replace (Z.of_nat j * 16 + 16) with (16 * Z.of_nat (S j)) by lia. apply IH; [done|done|lia|done].
  - by apply runs_ret.
Qed.
Lemma isdirempty_runs i n N R L D (Q : bool -> tfs -> Prop) : N !! i = Some n -> i ∈ L ->
  Q (forallb (fun e => de_inum e =? 0) (drop 2 (t_slots n))) (mk_tfs N R L D c o) -> runs (isdirempty i) Q (mk_tfs N R L D c o).
Proof.
  intros Hn Hl HQ. unfold isdirempty. apply runs_bind. eapply runs_get; [done..|]. cbn [v_size]. unfold DESIZE.
  rewrite (Z.mul_comm 16), Z.div_mul, Nat2Z.id by lia. apply (isdirempty_loop_runs i n N R L D _ 2); [done|done|lia|done].
Qed.

(** The entry at a slot is cleared. *)
Lemma runs_clear i n k N R L D (Q : Z -> tfs -> Prop) : N !! i = Some n -> i ∈ L -> (k < length (t_slots n))%nat ->
  Q DESIZE (mk_tfs (<[i := set_t_slots (<[k := replicate 16 0]> (t_slots n)) n]> N) R L D c o) ->
  runs (nf_writei i (replicate 16 0) (16 * Z.of_nat k) DESIZE) Q (mk_tfs N R L D c o).
Proof.
  intros Hn Hl Hk HQ. cbn [nf_writei tree_names]. unfold t_writei. apply runs_bind. eapply runs_node; [done..|]. unfold DESIZE.
  rewrite (Z.mul_comm 16), Z.mod_mul, Z.div_mul, Nat2Z.id by lia. rewrite bool_decide_true by done. cbn [Z.eqb Pos.eqb andb].
  apply runs_bind. eapply runs_change; [done..|]. by apply runs_ret.
Qed.

Lemma exhausted_ialloc (Q : nat -> tfs -> Prop) s : runs (panic "ialloc: no inodes") Q s.
Proof. unfold runs, panic, exhausted. set_solver. Qed.
Lemma runs_alloc dev type N R L D (Q : nat -> tfs -> Prop) :
  (forall i, (0 < i < NINODES)%nat -> N !! i = None -> Q i (mk_tfs (<[i := mk_tnode type 0 0 0 []]> N) ({[+ i +]} ⊎ R) L D c o)) ->
  runs (nf_alloc dev type) Q (mk_tfs N R L D c o).
Proof.
  intros HQ. cbn [nf_alloc tree_names]. unfold t_alloc. apply runs_bind. unfold runs at 1, kget. cbn [tf_nodes].
  set (l := seq 1 (NINODES - 1)). destruct (list_find _ l) as [[x i]|] eqn:E; [|apply exhausted_ialloc].
  apply list_find_Some in E as (Hx & Hi & _). subst l. apply lookup_seq in Hx as [-> Hx]. apply runs_bind. unfold runs at 1, kput. apply runs_iget.
  apply HQ; [unfold NINODES in *; lia|done].
Qed.
End Dirs.

(** ** The calls *)

(** Inodes without links are kept by a reference, references are to inodes. *)
Definition held N R : Prop := forall i n, N !! i = Some n -> t_nlink n = 0 -> i ∈ R.
Definition present N R : Prop := forall i, i ∈ R -> is_Some (N !! i).
(** No link count is at its limit. *)
Definition small N : Prop := forall i n, N !! i = Some n -> t_nlink n < 2 ^ 15 - 1.

(** Between calls: nothing is locked or unwritten. *)
Definition rests (c o : nat) R N (E : entmap) (s : tfs) : Prop := s = mk_tfs N R ∅ ∅ c o /\ wf N E /\ held N R /\ present N R.

(** Inodes keep their types. *)
Definition keeps N N' : Prop := forall j n n', N !! j = Some n -> N' !! j = Some n' -> t_type n' = t_type n.
Lemma keeps_refl N : keeps N N.
Proof. intros j n n' Hn Hn'. congruence. Qed.
Lemma keeps_freed N N' i R : keeps N N' -> keeps N (freed i R N').
Proof.
  intros Hk j n n' Hn Hn'. eapply Hk; [done|]. unfold freed in Hn'. destruct (N' !! i); [|done]. destruct (decide _); [|done].
  by apply lookup_delete_Some in Hn' as [_ Hn'].
Qed.
Lemma keeps_insert N N' i m : keeps N N' -> (forall n, N !! i = Some n -> t_type m = t_type n) -> keeps N (<[i := m]> N').
Proof. intros Hk Hm j n n' Hn [[<- <-]|[_ Hn']]%lookup_insert_Some; [by apply Hm|by eapply Hk]. Qed.
#[local] Hint Resolve keeps_refl : core.

Lemma freed_ok N E R i : wf N E -> (forall j n, N !! j = Some n -> t_nlink n = 0 -> j = i \/ j ∈ R) -> present N ({[+ i +]} ⊎ R) ->
  wf (freed i ({[+ i +]} ⊎ R) N) E /\ held (freed i ({[+ i +]} ⊎ R) N) R /\ present (freed i ({[+ i +]} ⊎ R) N) R.
Proof.
  intros W Hh Hp. destruct (Hp i) as [n Hn]; [multiset_solver|]. unfold freed. rewrite Hn.
  assert (multiplicity i ({[+ i +]} ⊎ R) = 1%nat <-> i ∉ R) as Hm.
  { rewrite multiplicity_disj_union, multiplicity_singleton. rewrite decide_True, elem_of_multiplicity by done. lia. }
  destruct (decide _) as [[Hz H1]|Hno].
  - rewrite Hm in H1. split_and!.
    + eapply (wf_free W i n); [done|done|]. intros j. destruct (decide (j = i)) as [->|]; [by rewrite lookup_delete_eq|by rewrite lookup_delete_ne].
    + intros j m [Hne Hj]%lookup_delete_Some Hzm. destruct (Hh j m Hj Hzm); congruence.
    + intros j Hj. rewrite lookup_delete_ne by (intros ->; done). apply Hp. multiset_solver.
  - split_and!; [done| |intros j Hj; apply Hp; multiset_solver]. intros j m Hj Hzm. destruct (Hh j m Hj Hzm) as [->|]; [|done].
    destruct (decide (i ∈ R)); [done|]. exfalso. apply Hno. split; [congruence|tauto].
Qed.

Lemma s16_small x : - 2 ^ 15 <= x < 2 ^ 15 -> s16 x = x.
Proof. intros Hx. unfold s16. destruct (Z.ltb_spec (x mod 2 ^ 16) (2 ^ 15)); Z.div_mod_to_equations; lia. Qed.

(** The entries of unlink. *)
Definition removes (E : entmap) d (k : nat) (nm : bytes) i (E' : entmap) : Prop := (2 <= k)%nat /\ E !! (d, k) = Some (cn nm, i) /\
  (E' = delete (d, k) E \/ E' = delete (d, k) (delete (i, 1%nat) (delete (i, 0%nat) E))).

Section Unlink.
Context (c o : nat) (N : gmap nat tnode) (E : entmap) (R : gmultiset nat).
Context (W : wf N E) (Hheld : held N R) (Hpres : present N R) (Hsmall : small N).

Definition unlink_post (path : bytes) (r : Z) (s' : tfs) : Prop := exists N' E', rests c o R N' E' s' /\ keeps N N' /\
  ((r = -1 /\ N' = N /\ E' = E) \/ (r = 0 /\ exists d nm k i, resolve c N path true = (Some d, nm) /\ removes E d k nm i E')).

Lemma unlink_fail path : unlink_post path (-1) (mk_tfs N R ∅ ∅ c o).
Proof. exists N, E. split; [by split_and!|]. split; [done|]. by left. Qed.

Lemma unlink_bad_runs path d dn R' L : N !! d = Some dn -> 0 < t_nlink dn -> R' = {[+ d +]} ⊎ R -> L = {[d]} ->
  runs (unlink_bad d) (unlink_post path) (mk_tfs N R' L ∅ c (S o)).
Proof.
  intros Hd Hz -> ->. unfold unlink_bad. apply runs_bind. eapply runs_unlockput; [done|lia|set_solver|multiset_solver|].
  apply runs_bind, runs_end, runs_ret. replace (({[+ d +]} ⊎ R) ∖ {[+ d +]}) with R by multiset_solver.
  replace ({[d]} ∖ {[d]}) with (∅ : gset nat) by set_solver. apply unlink_fail.
Qed.

(** The end of unlink, with the entry cleared and the parent released. *)
Lemma unlink_done path d nm k i n N1 E1 : resolve c N path true = (Some d, nm) -> removes E d k nm i E1 ->
  N1 !! i = Some n -> (forall j, j <> i -> is_Some (N !! j) <-> is_Some (N1 !! j)) -> is_Some (N !! i) ->
  (forall j m, j <> i -> N1 !! j = Some m -> t_nlink m = 0 -> j ∈ R) ->
  wf (<[i := set_t_nlink (s16 (t_nlink n - 1)) n]> N1) E1 -> keeps N N1 -> (forall m, N !! i = Some m -> m = n) ->
  runs (nf_set_nlink i (s16 (t_nlink n - 1)) ;;; nf_update i ;;; nf_unlockput i ;;; nf_end ;;; kret 0) (unlink_post path)
    (mk_tfs N1 ({[+ i +]} ⊎ R) {[i]} ∅ c (S o)).
Proof.
  intros Hres Hrm Hn Hsome Hsi Hh W1 Hkp Hmn. eapply runs_field; [done|set_solver|]. apply runs_bind, runs_unlockput_free; [set_solver|multiset_solver|].
  apply runs_bind, runs_end, runs_ret. set (N2 := <[i := _]> N1) in *.
  destruct (freed_ok N2 E1 R i W1) as (F1 & F2 & F3).
  - intros j m. unfold N2. destruct (decide (j = i)) as [->|]; [by left|]. rewrite lookup_insert_ne by done. intros Hj Hz. right. by eapply Hh.
  - intros j Hj. unfold N2. destruct (decide (j = i)) as [->|]; [by rewrite lookup_insert_eq|]. rewrite lookup_insert_ne by done.
    apply Hsome; [done|]. apply Hpres. multiset_solver.
  - exists (freed i ({[+ i +]} ⊎ R) N2), E1. split; [split; [|done]; f_equal; [multiset_solver|set_solver]|].
    split; [|right; split; [done|]; by exists d, nm, k, i]. apply keeps_freed, keeps_insert; [done|]. intros m Hm. by rewrite (Hmn m Hm).
Qed.

Lemma not_dots d k name i : E !! (d, k) = Some (cn name, i) -> (namecmp name DOT =? 0) || (namecmp name DOTDOT =? 0) = false -> (2 <= k)%nat.
Proof.
  intros He [H1 H2]%orb_false_iff. rewrite Z.eqb_neq in H1, H2. unfold namecmp in H1, H2. rewrite strncmp_strncpy_eq in H1, H2.
  assert (live_dir N d) as Hl by (by eapply (ent_dir W)). destruct (w_dots _ _ W d Hl) as (D0 & p & D1 & _).
  destruct k as [|[|k]]; [|rewrite D1 in He; by injection He as He _; destruct H2|lia].
  rewrite D0 in He. injection He as He _. by destruct H1.
Qed.

(** An entry names another inode than its directory. *)
Lemma entry_other d k nm i : E !! (d, k) = Some (nm, i) -> (2 <= k)%nat -> i <> d.
Proof.
  intros He Hk ->. assert (live_dir N d) as Hl by (by eapply (ent_dir W)). by destruct (w_dir _ _ W _ _ _ _ He Hk Hl) as (_ & H & _).
Qed.

Lemma unlink_runs path : linked_node N (start_of c path) -> runs (unlink_path path) (unlink_post path) (mk_tfs N R ∅ ∅ c o).
Proof.
  intros Hstart. unfold unlink_path. apply runs_bind, runs_begin, runs_bind. pose proof (wf_closed _ _ W) as Hc.
  apply nameiparent_runs; [done|done|intros nm _; apply runs_bind, runs_end, runs_ret, unlink_fail|].
  intros d nm Hres Hlive. pose proof Hlive as (dn & Hd & Hzd & Htd). apply runs_bind. eapply runs_lock; [done|multiset_solver|set_solver|].
  assert (({[d]} ∪ ∅ : gset nat) = {[d]}) as -> by set_solver.
  destruct ((namecmp nm DOT =? 0) || (namecmp nm DOTDOT =? 0)) eqn:Edots; [by eapply unlink_bad_runs|].
  apply runs_bind. eapply runs_lookup; [done|done|set_solver|intros _; by eapply unlink_bad_runs|]. intros k i Hf.
  pose proof (found_some _ _ _ _ _ _ W Hlive Hf) as He. pose proof (not_dots _ _ _ _ He Edots) as Hk. pose proof (entry_other _ _ _ _ He Hk) as Hid.
  destruct (w_target _ _ W _ _ _ _ He) as (n & Hn & Hzn). apply runs_bind. eapply runs_lock; [done|multiset_solver|set_solver|].
  apply runs_bind. eapply runs_get; [done|set_solver|]. cbn [v_nlink v_type]. rewrite (proj2 (Z.ltb_ge _ _)) by lia.
  destruct (proj1 (ent_at W d k _ i dn Hd) He) as (_ & _ & e & Hslot & _). apply lookup_lt_Some in Hslot.
  assert (s16 (t_nlink n - 1) = t_nlink n - 1) as Es by (specialize (Hsmall i n Hn); apply s16_small; lia).
  assert (forall dn', forall j, j <> i -> is_Some (N !! j) <-> is_Some (<[d := dn']> N !! j)) as Hsome.
  { intros dn' j _. destruct (decide (j = d)) as [->|]; [rewrite lookup_insert_eq, Hd; by split|by rewrite lookup_insert_ne]. }
  apply runs_bind. destruct (Z.eqb_spec (t_type n) T_DIR) as [Ht|Ht].
  - apply runs_bind. eapply isdirempty_runs; [done|set_solver|]. apply runs_ret. destruct (forallb _ _) eqn:Eempty; cbn [negb].
    2: { apply runs_bind. eapply runs_unlockput; [done|lia|set_solver|multiset_solver|]. eapply unlink_bad_runs; [done|done|multiset_solver|set_solver]. }
    assert (forall k' e', (2 <= k')%nat -> t_slots n !! k' = Some e' -> de_inum e' = 0) as Hempty.
    { intros k' e' Hk' Hl. rewrite forallb_forall in Eempty. apply Z.eqb_eq, Eempty. apply list_elem_of_In, list_elem_of_lookup_2 with (k' - 2)%nat.
      rewrite lookup_drop. by replace (2 + (k' - 2))%nat with k' by lia. }
    pose proof (rm_parent_count W d k i dn n _ Hd He Hk Hn Ht Hzn Hempty) as Hcnt. assert (s16 (t_nlink dn - 1) = t_nlink dn - 1) as Esd.
    { specialize (Hsmall d dn Hd). apply s16_small. lia. }
    apply runs_bind. eapply (runs_clear _ _ d dn k); [done|set_solver|done|]. cbn [Z.eqb DESIZE Pos.eqb negb]. apply runs_bind. cbn [Z.eqb T_DIR Pos.eqb].
    apply runs_bind. eapply runs_get; [apply lookup_insert_eq|set_solver|]. cbn [v_nlink set_t_slots t_nlink]. rewrite Esd.
    eapply runs_field0; [apply lookup_insert_eq|set_solver|]. rewrite insert_insert_eq. apply runs_bind.
    eapply runs_unlockput; [apply lookup_insert_eq|cbn; lia|set_solver|multiset_solver|].
    replace (({[+ i +]} ⊎ ({[+ d +]} ⊎ R)) ∖ {[+ d +]}) with ({[+ i +]} ⊎ R) by multiset_solver.
    replace (({[i]} ∪ {[d]}) ∖ {[d]}) with ({[i]} : gset nat) by set_solver.
    eapply (unlink_done path d nm k i n); [done|split_and!; [done|done|by right]|by rewrite lookup_insert_ne|by apply Hsome|by exists n| | |apply keeps_insert; [done|]; intros m Hm; cbn; congruence|congruence].
    + intros j m Hj. destruct (decide (j = d)) as [->|]; [rewrite lookup_insert_eq; intros [= <-]; cbn; lia|]. rewrite lookup_insert_ne by done. apply Hheld.
    + rewrite Es. eapply (wf_rm_dir W d k i dn n _ Hd He Hk Hn Ht Hzn Hempty). intros j. destruct (decide (j = i)) as [->|]; [by rewrite lookup_insert_eq|].
      rewrite lookup_insert_ne by done. destruct (decide (j = d)) as [->|]; [by rewrite lookup_insert_eq|by rewrite lookup_insert_ne].
  - apply runs_ret. apply runs_bind. eapply (runs_clear _ _ d dn k); [done|set_solver|done|]. cbn [Z.eqb DESIZE Pos.eqb negb]. apply runs_bind, runs_ret.
    apply runs_bind. eapply runs_unlockput; [apply lookup_insert_eq|cbn; lia|set_solver|multiset_solver|].
    replace (({[+ i +]} ⊎ ({[+ d +]} ⊎ R)) ∖ {[+ d +]}) with ({[+ i +]} ⊎ R) by multiset_solver.
    replace (({[i]} ∪ {[d]}) ∖ {[d]}) with ({[i]} : gset nat) by set_solver.
    eapply (unlink_done path d nm k i n); [done|split_and!; [done|done|by left]|by rewrite lookup_insert_ne|by apply Hsome|by exists n| | |apply keeps_insert; [done|]; intros m Hm; cbn; congruence|congruence].
    + intros j m Hj. destruct (decide (j = d)) as [->|]; [rewrite lookup_insert_eq; intros [= <-]; cbn; lia|]. rewrite lookup_insert_ne by done. apply Hheld.
    + rewrite Es. eapply (wf_rm_file W d k i dn n _ Hd He Hk Hn); [done|]. intros j. destruct (decide (j = i)) as [->|]; [by rewrite lookup_insert_eq|].
      rewrite lookup_insert_ne by done. destruct (decide (j = d)) as [->|]; [by rewrite lookup_insert_eq|by rewrite lookup_insert_ne].
Qed.
End Unlink.

(** The entries of create. *)
Definition adds (E : entmap) d (nm : bytes) i (type : Z) (E' : entmap) : Prop := exists k, (2 <= k)%nat /\ E !! (d, k) = None /\
  E' = if type =? T_DIR then <[(d, k) := (cn nm, i)]> (<[(i, 1%nat) := (cn DOTDOT, d)]> (<[(i, 0%nat) := (cn DOT, i)]> E))
       else <[(d, k) := (cn nm, i)]> E.

Lemma found_slots N N' d d' n n' name : N !! d = Some n -> N' !! d' = Some n' -> t_slots n' = t_slots n -> found N' d' name = found N d name.
Proof. intros Hn Hn' Es. unfold found. by rewrite Hn, Hn', Es. Qed.

Lemma add_slot_nil e : add_slot e [] = [e].
Proof. done. Qed.
Lemma add_slot_one e x : de_inum x <> 0 -> add_slot e [x] = [x; e].
Proof. intros Hx. unfold add_slot, free_slot. cbn [list_find length]. rewrite (decide_False (P := is_free x)) by exact Hx. cbn [fmap option_fmap option_map length]. case_decide; [lia|done]. Qed.

Section Create.
Context (c o : nat) (N : gmap nat tnode) (E : entmap) (R : gmultiset nat).
Context (W : wf N E) (Hheld : held N R) (Hpres : present N R) (Hsmall : small N).
Context (path : bytes) (type major minor : Z) (Htype : type = T_FILE \/ type = T_DEV \/ type = T_DIR).

Lemma runs_two_fields {A} i g h n N' R' L (f : M tfs A) (Q : A -> tfs -> Prop) : N' !! i = Some n -> i ∈ L ->
  runs f Q (mk_tfs (<[i := h (g n)]> N') R' L ∅ c o) -> runs (t_field i g ;;; t_field i h ;;; nf_update i ;;; f) Q (mk_tfs N' R' L ∅ c o).
Proof.
  intros Hn Hl HQ. apply runs_bind. unfold t_field at 1. apply runs_bind. eapply runs_change; [done..|]. unfold runs at 1, modify. cbn [set_dirty tf_nodes tf_refs tf_locked tf_dirty tf_cwd tf_ops].
  apply runs_bind. unfold t_field. apply runs_bind. eapply (runs_change _ _ i h); [apply lookup_insert_eq|done|]. unfold runs at 1, modify. cbn [set_dirty tf_nodes tf_refs tf_locked tf_dirty tf_cwd tf_ops].
  apply runs_bind. cbn [nf_update tree_names]. unfold t_update. apply runs_bind. rewrite insert_insert_eq. eapply runs_node; [apply lookup_insert_eq|done|].
  unfold runs at 1, modify. cbn. by replace (({[i]} ∪ ({[i]} ∪ ∅)) ∖ {[i]}) with (∅ : gset nat) by set_solver.
Qed.

(** What create returns: nothing; an existing file; a new inode. *)
Definition create_post (r : option nat) (s' : tfs) : Prop :=
  match r with
  | None => s' = mk_tfs N R ∅ ∅ c o
  | Some i => exists N' E' d nm, s' = mk_tfs N' ({[+ i +]} ⊎ R) {[i]} ∅ c o /\ wf N' E' /\ held N' R /\ present N' R /\ linked_node N' i /\ keeps N N' /\
      resolve c N path true = (Some d, nm) /\
      ((N' = N /\ E' = E /\ type = T_FILE /\ exists k n, E !! (d, k) = Some (cn nm, i) /\ N !! i = Some n /\ t_type n = T_FILE) \/
       (N !! i = None /\ (forall k j, E !! (d, k) <> Some (cn nm, j)) /\ adds E d nm i type E' /\
        exists n, N' !! i = Some n /\ t_type n = type /\ t_major n = major /\ t_minor n = minor))
  end.

Lemma create_new d dn nm i n N' E' : resolve c N path true = (Some d, nm) -> N !! d = Some dn -> N !! i = None ->
  (forall k j, E !! (d, k) <> Some (cn nm, j)) -> N' !! i = Some n -> t_type n = type -> t_major n = major -> t_minor n = minor -> t_nlink n = 1 ->
  is_Some (N' !! d) -> (forall m, N' !! d = Some m -> t_nlink m <> 0) -> (forall j, j <> d -> j <> i -> N' !! j = N !! j) ->
  (forall m, N' !! d = Some m -> t_type m = t_type dn) ->
  wf N' E' -> adds E d nm i type E' -> create_post (Some i) (mk_tfs N' ({[+ i +]} ⊎ R) {[i]} ∅ c o).
Proof.
  intros Hres Hd Hi Hno Hn Ht Hma Hmi Hl Hsd Hzd Hoth Htd W' Ha. exists N', E', d, nm. split_and!; [done|done| | |by exists n; split; [|lia]| |done|].
  - intros j m Hj Hz. destruct (decide (j = d)) as [->|]; [by destruct (Hzd m Hj)|]. destruct (decide (j = i)) as [->|]; [assert (m = n) by congruence; subst; lia|].
    rewrite Hoth in Hj by done. by eapply Hheld.
  - intros j Hj. destruct (decide (j = d)) as [->|]; [done|]. destruct (decide (j = i)) as [->|]; [by exists n|]. rewrite Hoth by done. by apply Hpres.
  - intros j m m' Hm Hm'. destruct (decide (j = d)) as [->|]; [rewrite (Htd m' Hm'); congruence|]. destruct (decide (j = i)) as [->|]; [congruence|].
    rewrite Hoth in Hm' by done. congruence.
  - right. split_and!; [done|done|done|by exists n].
Qed.

(** The entries . and .. of a new directory. *)
Lemma make_dots i ma mi (inum up : Z) N' R' L (Q : unit -> tfs -> Prop) : N' !! i = Some (mk_tnode T_DIR ma mi 1 []) -> i ∈ L ->
  (0 < i < NINODES)%nat -> inum = Z.of_nat i ->
  Q tt (mk_tfs (<[i := mk_tnode T_DIR ma mi 1 [mk_dirent DOT (Z.of_nat i); mk_dirent DOTDOT up]]> N') R' L ∅ c o) ->
  runs (a <- nf_link i DOT inum ;; if a <? 0 then panic "create dots"
        else b <- nf_link i DOTDOT up ;; when b <? 0 do panic "create dots") Q (mk_tfs N' R' L ∅ c o).
Proof.
  intros Hn Hl Hi -> HQ. destruct (num_dirent DOT i Hi) as (A1 & A2 & A3).
  apply runs_bind. eapply runs_link; [done|done|done| |intros _].
  { intros k j. unfold found. by rewrite Hn. }
  cbn [Z.ltb Z.compare]. apply runs_bind. cbn [t_slots set_t_slots t_type t_major t_minor t_nlink]. rewrite add_slot_nil.
  eapply runs_link; [apply lookup_insert_eq|done|done| |intros _].
  { intros k j. unfold found. rewrite lookup_insert_eq. cbn [t_slots]. rewrite (proj2 (list_find_None _ _)); [done|].
    constructor; [|constructor]. rewrite is_entry_iff. intros [_ E1]. rewrite A3 in E1. by vm_compute in E1. }
  cbn [Z.ltb Z.compare]. apply runs_ret. rewrite insert_insert_eq. cbn [t_slots set_t_slots t_type t_major t_minor t_nlink]. by rewrite add_slot_one.
Qed.

Lemma create_runs : linked_node N (start_of c path) -> runs (create path type major minor) create_post (mk_tfs N R ∅ ∅ c o).
Proof.
  intros Hstart. unfold create. apply runs_bind. apply nameiparent_runs; [by eapply wf_closed|done|intros nm _; by apply runs_ret|].
  intros d nm Hres Hlive. pose proof Hlive as (dn & Hd & Hzd & Htd). apply runs_bind. eapply runs_lock; [done|multiset_solver|set_solver|].
  assert (({[d]} ∪ ∅ : gset nat) = {[d]}) as -> by set_solver. apply runs_bind. eapply runs_lookup; [done|done|set_solver| |].
  2: { intros k i Hf. pose proof (found_some _ _ _ _ _ _ W Hlive Hf) as He. destruct (w_target _ _ W _ _ _ _ He) as (n & Hn & Hzn).
    apply runs_bind. eapply runs_unlockput; [done|lia|set_solver|multiset_solver|].
    replace (({[+ i +]} ⊎ ({[+ d +]} ⊎ R)) ∖ {[+ d +]}) with ({[+ i +]} ⊎ R) by multiset_solver.
    replace ({[d]} ∖ {[d]}) with (∅ : gset nat) by set_solver. apply runs_bind. eapply runs_lock; [done|multiset_solver|set_solver|].
    apply runs_bind. eapply runs_get; [done|set_solver|]. cbn [v_type]. assert (({[i]} ∪ ∅ : gset nat) = {[i]}) as -> by set_solver.
    destruct (Z.eqb_spec type T_FILE) as [E1|]; [destruct (Z.eqb_spec (t_type n) T_FILE) as [E2|]|]; cbn [andb].
    - apply runs_ret. exists N, E, d, nm. split_and!; [done..|by exists n|done|done|]. left. split_and!; [done..|]. by exists k, n.
    - apply runs_bind. eapply runs_unlockput; [done|lia|set_solver|multiset_solver|]. apply runs_ret. unfold create_post. f_equal; [multiset_solver|set_solver].
    - apply runs_bind. eapply runs_unlockput; [done|lia|set_solver|multiset_solver|]. apply runs_ret. unfold create_post. f_equal; [multiset_solver|set_solver]. }
  intros Hf. assert (forall k j, E !! (d, k) <> Some (cn nm, j)) as Hno by (intros k j; by eapply found_none).
  apply runs_bind. eapply runs_get; [done|set_solver|]. apply runs_bind, runs_alloc. intros i Hi Hni. assert (i <> d) as Hid by congruence.
  apply runs_bind. eapply runs_lock; [apply lookup_insert_eq|multiset_solver|set_solver|]. cbn [v_dev v_inum v_nlink].
  eapply runs_two_fields; [apply lookup_insert_eq|set_solver|]. rewrite insert_insert_eq.
  change (set_t_nlink 1 (set_t_devno major minor (mk_tnode type 0 0 0 []))) with (mk_tnode type major minor 1 []). apply runs_bind. eapply runs_get; [apply lookup_insert_eq|set_solver|]. cbn [v_inum].
  assert (s16 (t_nlink dn + 1) = t_nlink dn + 1) as Esd by (specialize (Hsmall d dn Hd); apply s16_small; lia).
  assert (({[+ i +]} ⊎ ({[+ d +]} ⊎ R)) ∖ {[+ d +]} = {[+ i +]} ⊎ R) as ER by multiset_solver.
  assert (({[i]} ∪ {[d]}) ∖ {[d]} = ({[i]} : gset nat)) as EL by set_solver.
  pose proof (slot_free W d dn Hd) as Hs. pose proof (slot_ge2 W d dn Hd Htd Hzd i Hi) as Hk2.
  set (N1 := <[i := mk_tnode type major minor 1 []]> N). assert (N1 !! d = Some dn) as Hd1 by (unfold N1; by rewrite lookup_insert_ne).
  assert (N1 !! i = Some (mk_tnode type major minor 1 [])) as Hi1 by apply lookup_insert_eq. assert (forall j, j <> d -> j <> i -> N1 !! j = N !! j) as Hj1
    by (intros j _ Hj; unfold N1; by rewrite lookup_insert_ne). clearbody N1.
  apply runs_bind. destruct (Z.eqb_spec type T_DIR) as [Ety|Hnd].
  - apply runs_bind. eapply runs_get; [done|set_solver|]. cbn [v_inum v_nlink]. rewrite Esd. eapply runs_field; [done|set_solver|]. rewrite Ety in Hi1.
    eapply make_dots; [by rewrite lookup_insert_ne|set_solver|done|done|]. apply runs_bind.
    eapply (runs_link _ _ d); [by rewrite lookup_insert_ne, lookup_insert_eq|done|set_solver| |intros _; cbn [Z.ltb Z.compare]].
    { intros k j. erewrite (found_slots N _ d d dn); [|exact Hd|by rewrite lookup_insert_ne, lookup_insert_eq|done]. by rewrite Hf. }
    apply runs_bind. eapply runs_unlockput; [apply lookup_insert_eq|cbn; lia|set_solver|multiset_solver|]. rewrite ER, EL. apply runs_ret.
    eapply (create_new d dn nm i _ _ (<[(d, free_slot (t_slots dn)) := (cn nm, i)]> (<[(i, 1%nat) := (cn DOTDOT, d)]> (<[(i, 0%nat) := (cn DOT, i)]> E))));
      [done|done|done|done|by rewrite lookup_insert_ne, lookup_insert_eq|done..| | | | | |].
    + rewrite lookup_insert_eq. by eexists.
    + rewrite lookup_insert_eq. intros m [= <-]. cbn. lia.
    + intros j H1 H2. by rewrite !lookup_insert_ne, Hj1 by done.
    + rewrite lookup_insert_eq. by intros m [= <-].
    + eapply (wf_add_dir W d dn Hd Htd Hzd nm Hno i Hi major minor); [done|]. intros j. destruct (decide (j = d)) as [->|]; [by rewrite lookup_insert_eq|].
      rewrite lookup_insert_ne by done. destruct (decide (j = i)) as [->|]; [by rewrite lookup_insert_eq|]. by rewrite !lookup_insert_ne, Hj1 by done.
    + exists (free_slot (t_slots dn)). split_and!; [done|done|]. by rewrite Ety.
  - apply runs_ret, runs_bind. eapply (runs_link _ _ d); [done|done|set_solver| |intros _; cbn [Z.ltb Z.compare]].
    { intros k j. rewrite (found_slots N N1 d d dn dn nm Hd Hd1 eq_refl). by rewrite Hf. }
    apply runs_bind. eapply runs_unlockput; [apply lookup_insert_eq|cbn; lia|set_solver|multiset_solver|]. rewrite ER, EL. apply runs_ret.
    eapply (create_new d dn nm i _ _ (<[(d, free_slot (t_slots dn)) := (cn nm, i)]> E)); [done|done|done|done|by rewrite lookup_insert_ne|done..| | | | | |].
    + rewrite lookup_insert_eq. by eexists.
    + rewrite lookup_insert_eq. intros m [= <-]. cbn. lia.
    + intros j H1 H2. by rewrite lookup_insert_ne, Hj1 by done.
    + rewrite lookup_insert_eq. by intros m [= <-].
    + eapply (wf_add_file W d dn Hd Htd Hzd nm Hno i Hi (mk_tnode type major minor 1 [])); [done|cbn; tauto|done| | |].
      * rewrite (no_links W) by done. done.
      * intros m. by rewrite Hni.
      * intros j. destruct (decide (j = d)) as [->|]; [by rewrite lookup_insert_eq|]. rewrite lookup_insert_ne by done.
        destruct (decide (j = i)) as [->|]; [done|by apply Hj1].
    + exists (free_slot (t_slots dn)). split_and!; [done|done|]. by rewrite (proj2 (Z.eqb_neq _ _) Hnd).
Qed.
End Create.

(** The walk sees only types and entries. *)
Lemma walk_ext N N' fuel : (forall j, dir_at N' j = dir_at N j) -> (forall j nm, found N' j nm = found N j nm) ->
  forall ip path parent name, walk fuel N' ip path parent name = walk fuel N ip path parent name.
Proof.
  intros Hd Hf. induction fuel as [|fuel IH]; intros ip path parent name; [done|]. cbn [walk]. destruct (skipelem path name) as [[path' name']|]; [|done].
  rewrite Hd, Hf. destruct (negb _); [done|]. destruct (_ && _); [done|]. destruct (found N ip name') as [[k j]|]; [apply IH|done].
Qed.

(** The last element of the path names its directory, as . does. *)
Definition names_self (c : nat) N (path : bytes) : Prop :=
  exists d nm k, resolve c N path true = (Some d, nm) /\ found N d nm = Some (k, d).

Section Link.
Context (c o : nat) (N : gmap nat tnode) (E : entmap) (R : gmultiset nat).
Context (W : wf N E) (Hheld : held N R) (Hpres : present N R) (Hsmall : small N).

Definition link_post (old new : bytes) (r : Z) (s' : tfs) : Prop := exists N' E', rests c o R N' E' s' /\ keeps N N' /\
  ((r = -1 /\ N' = N /\ E' = E) \/
   (r = 0 /\ exists i n d nm k, (resolve c N old false).1 = Some i /\ N !! i = Some n /\ t_type n <> T_DIR /\
      resolve c N new true = (Some d, nm) /\ (forall k' j, E !! (d, k') <> Some (cn nm, j)) /\
      (2 <= k)%nat /\ E !! (d, k) = None /\ E' = <[(d, k) := (cn nm, i)]> E)).

Lemma link_fail old new : link_post old new (-1) (mk_tfs N R ∅ ∅ c o).
Proof. exists N, E. split; [by split_and!|]. split; [done|]. by left. Qed.

(** One link more on a file changes no path. *)
Section Bump.
Context (i : nat) (n : tnode) (Hn : N !! i = Some n) (Ht : t_type n <> T_DIR) (Hz : 0 < t_nlink n).
Notation n1 := (set_t_nlink (t_nlink n + 1) n).
Notation N1 := (<[i := n1]> N).

Lemma bump_at j : dir_at N1 j = dir_at N j.
Proof. unfold dir_at. destruct (decide (j = i)) as [->|]; [by rewrite lookup_insert_eq, Hn|by rewrite lookup_insert_ne]. Qed.
Lemma bump_found j nm : found N1 j nm = found N j nm.
Proof. unfold found. destruct (decide (j = i)) as [->|]; [by rewrite lookup_insert_eq, Hn|by rewrite lookup_insert_ne]. Qed.
Lemma bump_resolve path parent : resolve c N1 path parent = resolve c N path parent.
Proof. unfold resolve. apply walk_ext; [apply bump_at|apply bump_found]. Qed.
Lemma bump_linked j : linked_node N j -> linked_node N1 j.
Proof.
  intros (m & Hm & Hzm). unfold linked_node. destruct (decide (j = i)) as [->|]; [rewrite lookup_insert_eq; eexists; split; [done|cbn; lia]|].
  rewrite lookup_insert_ne by done. by exists m.
Qed.
Lemma bump_live j : live_dir N1 j -> j <> i /\ live_dir N j.
Proof.
  intros (m & Hm & Hzm & Htm). destruct (decide (j = i)) as [->|]; [rewrite lookup_insert_eq in Hm; by injection Hm as <-|].
  rewrite lookup_insert_ne in Hm by done. split; [done|by exists m].
Qed.
Lemma bump_closed : closed N1.
Proof. intros d nm k j [_ Hd]%bump_live. rewrite bump_found. intros Hf. apply bump_linked. by eapply (wf_closed _ _ W). Qed.

Lemma link_bad_runs old new R' L : R' = {[+ i +]} ⊎ R -> L = ∅ -> runs (link_bad i) (link_post old new) (mk_tfs N1 R' L ∅ c (S o)).
Proof.
  intros -> ->. unfold link_bad. apply runs_bind. eapply runs_lock; [apply lookup_insert_eq|multiset_solver|set_solver|].
  apply runs_bind. eapply runs_get; [apply lookup_insert_eq|set_solver|]. cbn [v_nlink]. eapply runs_field; [apply lookup_insert_eq|set_solver|].
  rewrite insert_insert_eq. specialize (Hsmall i n Hn). cbn [set_t_nlink t_nlink]. rewrite s16_small by lia.
  assert (set_t_nlink (t_nlink n + 1 - 1) n1 = n) as -> by (destruct n; unfold set_t_nlink; cbn; f_equal; lia). rewrite insert_id by done.
  apply runs_bind. eapply runs_unlockput; [done|lia|set_solver|multiset_solver|]. apply runs_bind, runs_end, runs_ret.
  replace (({[+ i +]} ⊎ R) ∖ {[+ i +]}) with R by multiset_solver. replace (({[i]} ∪ ∅) ∖ {[i]}) with (∅ : gset nat) by set_solver. apply link_fail.
Qed.
End Bump.

Lemma link_runs old new : linked_node N (start_of c old) -> linked_node N (start_of c new) -> ~ names_self c N new ->
  runs (link_paths old new) (link_post old new) (mk_tfs N R ∅ ∅ c o).
Proof.
  intros Hso Hsn Hself. unfold link_paths. apply runs_bind, runs_begin, runs_bind. pose proof (wf_closed _ _ W) as Hc.
  apply namei_runs; [done|done|intros _; apply runs_bind, runs_end, runs_ret, link_fail|]. intros i Hres (n & Hn & Hz).
  apply runs_bind. eapply runs_lock; [done|multiset_solver|set_solver|]. assert (({[i]} ∪ ∅ : gset nat) = {[i]}) as -> by set_solver.
  assert ({[i]} ∖ {[i]} = (∅ : gset nat)) as EL by set_solver. assert (({[+ i +]} ⊎ R) ∖ {[+ i +]} = R) as ER by multiset_solver.
  apply runs_bind. eapply runs_get; [done|set_solver|]. cbn [v_type v_nlink v_dev v_inum]. destruct (Z.eqb_spec (t_type n) T_DIR) as [Ht|Ht].
  { apply runs_bind. eapply runs_unlockput; [done|lia|set_solver|multiset_solver|]. rewrite EL, ER. apply runs_bind, runs_end, runs_ret, link_fail. }
  pose proof (Hsmall i n Hn) as Hsm. rewrite s16_small by lia. eapply runs_field; [done|set_solver|]. apply runs_bind, runs_unlock; [multiset_solver|set_solver|].
  rewrite EL. apply runs_bind. apply nameiparent_runs; [by apply bump_closed|by apply bump_linked| |]; setoid_rewrite (bump_resolve i n Hn).
  { intros nm _. by apply link_bad_runs. }
  intros d nm Hresn [Hdi Hlive]%bump_live; [|done]. pose proof Hlive as (dn & Hd & Hzd & Htd). set (N1 := <[i := _]> N).
  assert (N1 !! d = Some dn) as Hd1 by (unfold N1; by rewrite lookup_insert_ne).
  apply runs_bind. eapply runs_lock; [done|multiset_solver|set_solver|]. assert (({[d]} ∪ ∅ : gset nat) = {[d]}) as -> by set_solver.
  assert ({[d]} ∖ {[d]} = (∅ : gset nat)) as EL' by set_solver.
  apply runs_bind. eapply runs_get; [done|set_solver|]. cbn [v_dev]. rewrite Z.eqb_refl. cbn [negb]. apply runs_bind.
  eapply runs_link; [done|done|set_solver| |]; unfold N1 at 1; rewrite (bump_found i n Hn).
  - intros k j Hf. assert (j <> d) as Hjd by (intros ->; apply Hself; by exists d, nm, k).
    split; [set_solver|]. split; [apply bump_linked; [done|]; by eapply Hc|]. cbn [Z.ltb Z.compare].
    apply runs_bind. eapply runs_unlockput; [done|lia|set_solver|multiset_solver|]. rewrite EL'. apply link_bad_runs; [done|done|done|multiset_solver|done].
  - intros Hf. cbn [Z.ltb Z.compare]. assert (forall k j, E !! (d, k) <> Some (cn nm, j)) as Hno by (intros k j; by eapply found_none).
    apply runs_bind. eapply runs_unlockput; [apply lookup_insert_eq|cbn; lia|set_solver|multiset_solver|]. rewrite EL'.
    set (N2 := <[d := _]> N1). assert (N2 !! i = Some (set_t_nlink (t_nlink n + 1) n)) as Hi2 by (unfold N2, N1; rewrite lookup_insert_ne by done; apply lookup_insert_eq).
    apply runs_bind. apply runs_put; [multiset_solver|set_solver|]. rewrite (freed_linked i _ _ _ Hi2) by (cbn; lia). apply runs_bind, runs_end, runs_ret.
    assert (forall j, j <> d -> j <> i -> N2 !! j = N !! j) as Hoth by (intros j H1 H2; unfold N2, N1; by rewrite !lookup_insert_ne).
    destruct (w_num _ _ W i n Hn) as [Hi _]. exists N2, (<[(d, free_slot (t_slots dn)) := (cn nm, i)]> E). split; [split; [|split_and!]|].
    + f_equal. multiset_solver.
    + eapply (wf_add_file W d dn Hd Htd Hzd nm Hno i Hi (set_t_nlink (t_nlink n + 1) n)); [done| | | | |].
      * destruct (w_type _ _ W i n Hn) as [|[H1 H2]]; done.
      * destruct (w_type _ _ W i n Hn) as [|[H1 H2]]; done.
      * cbn. by rewrite (w_links _ _ W i n Hn).
      * intros m Hm. congruence.
      * intros j. destruct (decide (j = d)) as [->|]; [apply lookup_insert_eq|]. destruct (decide (j = i)) as [->|]; [done|by apply Hoth].
    + intros j m Hj Hzm. destruct (decide (j = d)) as [->|]; [unfold N2 in Hj; rewrite lookup_insert_eq in Hj; injection Hj as <-; cbn in Hzm; lia|].
      destruct (decide (j = i)) as [->|]; [rewrite Hi2 in Hj; injection Hj as <-; cbn in Hzm; lia|]. rewrite Hoth in Hj by done. by eapply Hheld.
    + intros j Hj. destruct (decide (j = d)) as [->|]; [unfold N2; rewrite lookup_insert_eq; by eexists|].
      destruct (decide (j = i)) as [->|]; [by eexists|]. rewrite Hoth by done. by apply Hpres.
    + split; [apply keeps_insert; [apply keeps_insert; [done|]|]; cbn; congruence|]. right. split; [done|]. exists i, n, d, nm, (free_slot (t_slots dn)). split_and!; try done; [by eapply (slot_ge2 W)|by apply (slot_free W)].
Qed.
End Link.
