(* ===== verification/Namesys.v ===== *)
(** * The calls on names in any order (sysfile.c)

    The states that link, unlink, mkdir, mknod, open with O_CREATE, chdir, fork
    and close reach from a new file system, and what each call does to the
    names of the tree. *)

From stdpp Require Import gmultiset.
From S2P Require Import Prelude Layout Block Blockio Fs Fsfile Fsdir Syscall Sysfile Names Nametree Namewf Namespec.

Implicit Types (N : gmap nat tnode) (R : gmultiset nat) (n : tnode) (i d : nat).

(** ** The remaining calls *)

(** open(path, O_CREATE), when a file and a descriptor are free. *)
Definition open_create {S} `{NameFs S} (path : bytes) : M S Z :=
  nf_begin ;;;
  r <- create path T_FILE 0 0 ;;
  match r with
  | None => nf_end ;;; kret (-1)
  | Some ip => nf_unlock ip ;;; nf_end ;;; kret (Z.of_nat ip)
  end.

(** fileclose of an inode, and exit for the current directory. *)
Definition close_inode {S} `{NameFs S} (ip : nat) : M S Z := nf_begin ;;; nf_put ip ;;; nf_end ;;; kret 0.

Inductive nop :=
  | OLink (old new : bytes) | OUnlink (path : bytes) | OMkdir (path : bytes) | OMknod (path : bytes) (ma mi : Z)
  | OCreate (path : bytes) | OChdir (path : bytes) | OFork | OClose (ip : nat) | OSwitch (cwd : nat).

Definition run_nop (x : nop) : M tfs Z :=
  match x with
  | OLink old new => link_paths old new
  | OUnlink path => unlink_path path
  | OMkdir path => nf_begin ;;; make_path path T_DIR 0 0
  | OMknod path ma mi => nf_begin ;;; make_path path T_DEV ma mi
  | OCreate path => open_create path
  | OChdir path => nf_begin ;;; chdir_path path
  | OFork => cwd <- nf_cwd ;; nf_idup cwd ;;; kret 0
  | OClose ip => close_inode ip
  | OSwitch cwd => nf_set_cwd cwd ;;; kret 0
  end.

(** A path starts at the root, or in a directory that still has a name. *)
Definition path_ok (s : tfs) (path : bytes) : Prop := head path = Some SLASH \/ live_dir (tf_nodes s) (tf_cwd s).

(** The calls as processes can make them: a path as above, no link count at its
    limit, a link not to the name . of a directory; a close of a reference
    that is not the current directory; another process is scheduled. *)
Definition guard (x : nop) (s : tfs) : Prop :=
  match x with
  | OLink old new => small (tf_nodes s) /\ path_ok s old /\ path_ok s new /\ ~ names_self (tf_cwd s) (tf_nodes s) new
  | OUnlink path | OMkdir path | OMknod path _ _ | OCreate path | OChdir path => small (tf_nodes s) /\ path_ok s path
  | OFork => True
  | OClose ip => ip ∈ tf_refs s ∖ {[+ tf_cwd s +]}
  | OSwitch cwd => cwd ∈ tf_refs s /\ dir_at (tf_nodes s) cwd = true
  end.

Inductive nreach : tfs -> Prop :=
  | nr_init : nreach tree_init
  | nr_step x s r s' : nreach s -> guard x s -> run_nop x s = Ok r s' -> nreach s'.

(** ** The names of the linked directories *)

Definition named N d (nm : bytes) i : Prop := live_dir N d /\ exists k, found N d nm = Some (k, i).

Lemma named_iff N E d nm i : wf N E -> named N d nm i <-> exists k, E !! (d, k) = Some (cn nm, i).
Proof.
  intros W. split.
  - intros [Hd [k Hf]]. exists k. by eapply found_some.
  - intros [k He]. assert (live_dir N d) as Hd by (by eapply (ent_dir W)). split; [done|]. exists k. by eapply found_iff.
Qed.

(** What a call does to the names. *)
Definition same_names N N' : Prop := forall d nm i, named N' d nm i <-> named N d nm i.
Definition name_removed N N' d0 (nm0 : bytes) i0 : Prop := named N d0 nm0 i0 /\
  forall d nm i, named N' d nm i <-> named N d nm i /\ ~ (d = d0 /\ cn nm = cn nm0) /\ d <> i0.
Definition name_added N N' d0 (nm0 : bytes) i0 : Prop := (forall i, ~ named N d0 nm0 i) /\
  forall d nm i, named N' d nm i <-> named N d nm i \/ (d = d0 /\ cn nm = cn nm0 /\ i = i0).
Definition dir_added N N' d0 (nm0 : bytes) i0 : Prop := (forall i, ~ named N d0 nm0 i) /\
  forall d nm i, named N' d nm i <-> named N d nm i \/ (d = d0 /\ cn nm = cn nm0 /\ i = i0) \/
    (d = i0 /\ cn nm = cn DOT /\ i = i0) \/ (d = i0 /\ cn nm = cn DOTDOT /\ i = d0).

Definition effect (x : nop) (s : tfs) (r : Z) (s' : tfs) : Prop :=
  let N := tf_nodes s in let N' := tf_nodes s' in let c := tf_cwd s in
  match x with
  | OUnlink path => (r = -1 /\ N' = N) \/ (r = 0 /\ exists d nm i, resolve c N path true = (Some d, nm) /\ name_removed N N' d nm i)
  | OLink old new => (r = -1 /\ N' = N) \/ (r = 0 /\ exists i d nm, (resolve c N old false).1 = Some i /\ dir_at N i = false /\
      resolve c N new true = (Some d, nm) /\ name_added N N' d nm i)
  | OMkdir path => (r = -1 /\ N' = N) \/ (r = 0 /\ exists i d nm, N !! i = None /\ resolve c N path true = (Some d, nm) /\ dir_added N N' d nm i)
  | OMknod path ma mi => (r = -1 /\ N' = N) \/ (r = 0 /\ exists i d nm, N !! i = None /\ resolve c N path true = (Some d, nm) /\ name_added N N' d nm i)
  | OCreate path => (r = -1 /\ N' = N) \/ (0 <= r /\ exists d nm, resolve c N path true = (Some d, nm) /\
      (N' = N /\ named N d nm (Z.to_nat r) \/ N !! Z.to_nat r = None /\ name_added N N' d nm (Z.to_nat r)))
  | OChdir path => same_names N N' /\ ((r = -1 /\ s' = s) \/ (r = 0 /\ (resolve c N path false).1 = Some (tf_cwd s') /\ live_dir N (tf_cwd s')))
  | OFork | OClose _ | OSwitch _ => same_names N N'
  end.

Lemma same_names_wf N N' E : wf N E -> wf N' E -> same_names N N'.
Proof. intros W W' d nm i. by rewrite (named_iff N' E), (named_iff N E). Qed.

Lemma removes_names N N' E E' d k nm i : wf N E -> wf N' E' -> removes E d k nm i E' -> name_removed N N' d nm i.
Proof.
  intros W W' (Hk & He & Hrm). split; [apply (named_iff N E); [done|by exists k]|]. intros d' nm' j. rewrite (named_iff N' E'), (named_iff N E) by done.
  assert (forall k', E !! (d, k') = Some (cn nm, i) -> k' = k) as Hu by (intros k' Hk'; by eapply (w_names _ _ W)).
  assert (forall k' x, E' !! (d', k') = Some x -> (d', k') <> (d, k) /\ E !! (d', k') = Some x) as Hsub.
  { intros k' x Hx. destruct Hrm as [-> | ->]; rewrite !lookup_delete_Some in Hx; naive_solver. }
  split.
  - intros [k' Hk']. destruct (Hsub k' _ Hk') as [Hne He']. split_and!; [by exists k'| |].
    + intros [-> E1]. apply Hne. f_equal. eapply (w_names _ _ W); [exact He'|]. rewrite E1. exact He.
    + intros ->. destruct Hrm as [-> | ->].
      * assert (live_dir N' i) as Hl by (by eapply (ent_dir W')). assert (live_dir N i) as Hl' by (by eapply (ent_dir W)).
        destruct (w_dir _ _ W _ _ _ _ He Hk Hl') as (H1 & H2 & H3).
        destruct (w_dots _ _ W' i Hl) as (_ & p' & _ & _ & Hup). rewrite decide_False in Hup by done. destruct Hup as (k2 & nm2 & Hk2 & He2).
        apply lookup_delete_Some in He2 as [Hne2 He2]. destruct (w_dir _ _ W _ _ _ _ He2 Hk2 Hl') as (_ & _ & H4). assert (p' = d) as -> by congruence.
        apply Hne2. f_equal. symmetry. by eapply (w_once _ _ W).
      * assert (live_dir N' i) as Hl by (by eapply (ent_dir W')).
        destruct (w_dots _ _ W' i Hl) as (D0 & _). rewrite !lookup_delete_Some in D0. naive_solver.
  - intros ([k' He'] & Hne & Hdi). exists k'. assert ((d', k') <> (d, k)) as Hkk.
    { intros [= -> ->]. apply Hne. split; [done|]. congruence. }
    destruct Hrm as [-> | ->]; rewrite !lookup_delete_Some; split_and!; congruence.
Qed.

Lemma adds_file_names N N' E E' d nm i type : wf N E -> wf N' E' -> type <> T_DIR -> (forall k j, E !! (d, k) <> Some (cn nm, j)) ->
  adds E d nm i type E' -> name_added N N' d nm i.
Proof.
  intros W W' Ht Hno (k & Hk & Hs & ->). rewrite (proj2 (Z.eqb_neq _ _) Ht) in W'. split.
  - intros j. rewrite (named_iff N E) by done. intros [k' He]. by apply Hno in He.
  - intros d' nm' j. rewrite (named_iff N' _ _ _ _ W'), (named_iff N E) by done. split.
    + intros [k' [[[= <- <-] [= <- <-]]|[_ He]]%lookup_insert_Some]; [by right|left; by exists k'].
    + intros [[k' He]|(-> & E1 & ->)]; [|exists k; rewrite lookup_insert_eq; congruence]. exists k'. rewrite lookup_insert_ne; [done|congruence].
Qed.

Lemma adds_dir_names N N' E E' d nm i : wf N E -> wf N' E' -> N !! i = None -> (forall k j, E !! (d, k) <> Some (cn nm, j)) ->
  adds E d nm i T_DIR E' -> dir_added N N' d nm i.
Proof.
  intros W W' Hi Hno (k & Hk & Hs & ->). cbn [Z.eqb T_DIR Pos.eqb] in W'. split.
  { intros j. rewrite (named_iff N E) by done. intros [k' He]. by apply Hno in He. }
  assert (forall k' x, E !! (i, k') <> Some x) as Hfresh by (intros k' [] He; by apply (ent_absent W) in He).
  intros d' nm' j. rewrite (named_iff N' _ _ _ _ W'), (named_iff N E) by done. split.
  - intros [k' He]. rewrite !lookup_insert_Some in He. destruct He as [[[= <- <-] [= <- <-]]|[_ [[[= <- <-] [= <- <-]]|[_ [[[= <- <-] [= <- <-]]|[_ He]]]]]];
      [by right; left|by do 3 right|by do 2 right; left|left; by exists k'].
  - assert (forall d'' k'', k'' <> k -> (d'', k'') <> (d, k)) as Hne by congruence.
    intros [[k' He]|[(-> & E1 & ->)|[(-> & E1 & ->)|(-> & E1 & ->)]]].
    + exists k'. rewrite !lookup_insert_ne; [done|..]; intros [= <- <-]; [by apply Hfresh in He..|congruence].
    + exists k. rewrite lookup_insert_eq. congruence.
    + exists 0%nat. rewrite lookup_insert_ne by (intros [= _ ?]; lia). rewrite lookup_insert_ne by congruence. rewrite lookup_insert_eq. congruence.
    + exists 1%nat. rewrite lookup_insert_ne by (intros [= _ ?]; lia). rewrite lookup_insert_eq. congruence.
Qed.

(** ** The invariant *)

Definition ninv (s : tfs) : Prop := exists N E R c, rests c 0 R N E s /\ c ∈ R /\ dir_at N c = true.

Lemma keeps_dir N N' c R : keeps N N' -> present N' R -> c ∈ R -> dir_at N c = true -> dir_at N' c = true.
Proof.
  intros Hk Hp Hc. unfold dir_at. destruct (N !! c) as [n|] eqn:Hn; [|done]. destruct (Hp c Hc) as [n' Hn']. rewrite Hn', (Hk c n n') by done. done.
Qed.

Section Step.
Context (N : gmap nat tnode) (E : entmap) (R : gmultiset nat) (c : nat).
Context (W : wf N E) (Hheld : held N R) (Hpres : present N R) (Hcwd : c ∈ R) (Hdir : dir_at N c = true).
Notation s := (mk_tfs N R ∅ ∅ c 0).

Lemma start_linked path : path_ok s path -> linked_node N (start_of c path).
Proof.
  unfold path_ok, start_of. cbn [tf_nodes tf_cwd]. intros Hp. destruct (bool_decide_reflect (head path = Some SLASH)) as [|Hno].
  - destruct (w_root _ _ W) as (n & Hn & Hz & _). by exists n.
  - destruct Hp as [|(n & Hn & Hz & _)]; [done|]. by exists n.
Qed.

Lemma ninv_same : ninv s.
Proof. exists N, E, R, c. by split_and!. Qed.

Lemma make_runs path type ma mi : small N -> path_ok s path -> type = T_DEV \/ type = T_DIR ->
  runs (nf_begin ;;; make_path path type ma mi) (fun r s' => ninv s' /\
    ((r = -1 /\ tf_nodes s' = N) \/ (r = 0 /\ exists i d nm, N !! i = None /\ resolve c N path true = (Some d, nm) /\
       if type =? T_DIR then dir_added N (tf_nodes s') d nm i else name_added N (tf_nodes s') d nm i))) s.
Proof.
  intros Hsm Hp Ht. apply runs_bind, runs_begin. unfold make_path. apply runs_bind. eapply runs_mono.
  { apply (create_runs c 1 N E R W Hheld Hpres Hsm path type ma mi); [tauto|by apply start_linked]. }
  intros [i|] s1; cbn [create_post].
  - intros (N' & E' & d & nm & -> & W' & Hh' & Hp' & (n & Hn & Hz) & Hk & Hres & Hcase). apply runs_bind.
    eapply runs_unlockput; [done|lia|set_solver|multiset_solver|]. apply runs_bind, runs_end, runs_ret.
    replace (({[+ i +]} ⊎ R) ∖ {[+ i +]}) with R by multiset_solver. replace ({[i]} ∖ {[i]}) with (∅ : gset nat) by set_solver.
    split; [exists N', E', R, c; split_and!; [by split_and!|done|by eapply keeps_dir]|]. destruct Hcase as [(_ & _ & -> & _)|(Hi & Hno & Ha & _)]; [by destruct Ht|].
    right. split; [done|]. exists i, d, nm. split_and!; [done|done|]. cbn [tf_nodes]. destruct (Z.eqb_spec type T_DIR) as [->|Hnd].
    + by eapply adds_dir_names.
    + by eapply adds_file_names.
  - intros ->. apply runs_bind, runs_end, runs_ret. split; [apply ninv_same|by left].
Qed.

Lemma open_create_runs path : small N -> path_ok s path -> runs (open_create path) (fun r s' => ninv s' /\ effect (OCreate path) s r s') s.
Proof.
  intros Hsm Hp. unfold open_create. apply runs_bind, runs_begin, runs_bind. eapply runs_mono.
  { apply (create_runs c 1 N E R W Hheld Hpres Hsm path T_FILE 0 0); [tauto|by apply start_linked]. }
  intros [i|] s1; cbn [create_post].
  - intros (N' & E' & d & nm & -> & W' & Hh' & Hp' & (n & Hn & Hz) & Hk & Hres & Hcase). apply runs_bind, runs_unlock; [multiset_solver|set_solver|].
    apply runs_bind, runs_end, runs_ret. replace ({[i]} ∖ {[i]}) with (∅ : gset nat) by set_solver. split.
    + exists N', E', ({[+ i +]} ⊎ R), c. split_and!; [split_and!; [done|done| |]|multiset_solver|by eapply keeps_dir].
      * intros j m Hj Hzm. specialize (Hh' j m Hj Hzm). multiset_solver.
      * intros j Hj. destruct (decide (j = i)) as [->|]; [by exists n|]. apply Hp'. multiset_solver.
    + right. split; [lia|]. exists d, nm. split; [done|]. rewrite Nat2Z.id. cbn [tf_nodes]. destruct Hcase as [(-> & -> & _ & k & m & He & _)|(Hi & Hno & Ha & _)].
      * left. split; [done|]. apply (named_iff N E); [done|by exists k].
      * right. split; [done|]. by apply (adds_file_names N N' E E' d nm i T_FILE W W').
  - intros ->. apply runs_bind, runs_end, runs_ret. split; [apply ninv_same|by left].
Qed.

(** Dropping one of the references. *)
Lemma drop_inv i R' : R = {[+ i +]} ⊎ R' -> wf (freed i R N) E /\ held (freed i R N) R' /\ present (freed i R N) R'.
Proof.
  intros ->. apply freed_ok; [done| |done]. intros j m Hj Hz. specialize (Hheld j m Hj Hz). destruct (decide (j = i)) as [->|]; [by left|right; multiset_solver].
Qed.

Lemma close_runs i : i ∈ R ∖ {[+ c +]} -> runs (close_inode i) (fun r s' => ninv s' /\ same_names N (tf_nodes s')) s.
Proof.
  intros Hi. assert (i ∈ R) as HiR by multiset_solver. unfold close_inode. apply runs_bind, runs_begin, runs_bind, runs_put; [done|set_solver|]. apply runs_bind, runs_end, runs_ret.
  assert (R = {[+ i +]} ⊎ (R ∖ {[+ i +]})) as HR by multiset_solver. destruct (drop_inv i _ HR) as (W' & Hh' & Hp').
  assert (c ∈ R ∖ {[+ i +]}) as Hc by multiset_solver.
  split; [|by eapply same_names_wf]. exists (freed i R N), E, (R ∖ {[+ i +]}), c. split_and!; [by split_and!|done|].
  eapply keeps_dir; [apply keeps_freed, keeps_refl|exact Hp'|done|done].
Qed.

Lemma chdir_runs path : small N -> path_ok s path -> runs (nf_begin ;;; chdir_path path) (fun r s' => ninv s' /\ effect (OChdir path) s r s') s.
Proof.
  intros Hsm Hp. apply runs_bind, runs_begin. unfold chdir_path. apply runs_bind.
  assert (ninv s /\ effect (OChdir path) s (-1) s) as Hfail by (split; [apply ninv_same|split; [done|by left]]).
  apply namei_runs; [by eapply wf_closed|by apply start_linked|intros _; apply runs_bind, runs_end, runs_ret, Hfail|].
  intros i Hres (n & Hn & Hz). apply runs_bind. eapply runs_lock; [done|multiset_solver|set_solver|]. assert (({[i]} ∪ ∅ : gset nat) = {[i]}) as -> by set_solver.
  assert ({[i]} ∖ {[i]} = (∅ : gset nat)) as EL by set_solver. apply runs_bind. eapply runs_get; [done|set_solver|]. cbn [v_type].
  destruct (Z.eqb_spec (t_type n) T_DIR) as [Ht|Ht]; cbn [negb].
  2: { apply runs_bind. eapply runs_unlockput; [done|lia|set_solver|multiset_solver|]. rewrite EL.
    replace (({[+ i +]} ⊎ R) ∖ {[+ i +]}) with R by multiset_solver. apply runs_bind, runs_end, runs_ret, Hfail. }
  apply runs_bind, runs_unlock; [multiset_solver|set_solver|]. rewrite EL. apply runs_bind. unfold runs at 1. cbn [nf_cwd tree_names gets tf_cwd].
  apply runs_bind, runs_put; [multiset_solver|set_solver|]. apply runs_bind, runs_end, runs_bind. unfold runs at 1. cbn [nf_set_cwd tree_names modify set_cwd tf_nodes tf_refs tf_locked tf_dirty tf_ops].
  apply runs_ret. set (R' := ({[+ i +]} ⊎ R) ∖ {[+ c +]}). assert ({[+ i +]} ⊎ R = {[+ c +]} ⊎ R') as HR by (unfold R'; multiset_solver).
  assert (i ∈ R') as HiR by (unfold R'; destruct (decide (i = c)); multiset_solver). rewrite HR.
  destruct (freed_ok N E R' c W) as (W' & Hh' & Hp').
  { intros j m Hj Hzm. specialize (Hheld j m Hj Hzm). destruct (decide (j = c)); [by left|right; unfold R'; multiset_solver]. }
  { rewrite <- HR. intros j Hj. destruct (decide (j = i)) as [->|]; [by exists n|]. apply Hpres. multiset_solver. }
  split; [|split; [by eapply same_names_wf|right; split_and!; [done|done|by exists n]]].
  exists (freed c ({[+ c +]} ⊎ R') N), E, R', i. split_and!; [by split_and!|done|].
  eapply keeps_dir; [apply keeps_freed, keeps_refl|exact Hp'|done|]. unfold dir_at. rewrite Hn. by apply Z.eqb_eq.
Qed.

Lemma op_runs x : guard x s -> runs (run_nop x) (fun r s' => ninv s' /\ effect x s r s') s.
Proof.
  destruct x as [old new|path|path|path ma mi|path|path| |i|c']; cbn [guard run_nop tf_nodes tf_cwd tf_refs].
  - intros (Hsm & Ho & Hn & Hself). eapply runs_mono; [apply (link_runs c 0 N E R W Hheld Hpres Hsm old new); [by apply start_linked..|done]|].
    intros r s' (N' & E' & (-> & W' & Hh' & Hp') & Hk & Hcase). split; [exists N', E', R, c; split_and!; [by split_and!|done|by eapply keeps_dir]|].
    destruct Hcase as [(-> & -> & ->)|(-> & i & n & d & nm & k & Hi & Hn' & Ht & Hd & Hno & Hk2 & Hs & ->)]; [by left|right]. split; [done|].
    exists i, d, nm. split_and!; [done| |done|]. { unfold dir_at. cbn. rewrite Hn'. by apply Z.eqb_neq. }
    apply (adds_file_names N N' E _ d nm i T_FILE W W'); [done|done|]. by exists k.
  - intros (Hsm & Hp). eapply runs_mono; [apply (unlink_runs c 0 N E R W Hheld Hpres Hsm path); by apply start_linked|].
    intros r s' (N' & E' & (-> & W' & Hh' & Hp') & Hk & Hcase). split; [exists N', E', R, c; split_and!; [by split_and!|done|by eapply keeps_dir]|].
    destruct Hcase as [(-> & -> & ->)|(-> & d & nm & k & i & Hd & Hrm)]; [by left|right]. split; [done|]. exists d, nm, i. split; [done|]. by eapply removes_names.
  - intros (Hsm & Hp). eapply runs_mono; [apply make_runs; [done|done|by right]|]. cbn [Z.eqb T_DIR Pos.eqb]. done.
  - intros (Hsm & Hp). eapply runs_mono; [apply make_runs; [done|done|by left]|]. cbn [Z.eqb T_DIR T_DEV Pos.eqb]. done.
  - intros (Hsm & Hp). by apply open_create_runs.
  - intros (Hsm & Hp). by apply chdir_runs.
  - intros _. apply runs_bind. unfold runs at 1. cbn [nf_cwd tree_names gets tf_cwd]. apply runs_bind, runs_idup, runs_ret. split; [|done].
    exists N, E, ({[+ c +]} ⊎ R), c. split_and!; [split_and!; [done|done| |]|multiset_solver|done].
    + intros j m Hj Hz. specialize (Hheld j m Hj Hz). multiset_solver.
    + intros j Hj. apply Hpres. destruct (decide (j = c)) as [->|]; [done|multiset_solver].
  - apply close_runs.
  - intros [Hc' Hd']. apply runs_bind. unfold runs at 1. cbn [nf_set_cwd tree_names modify set_cwd tf_nodes tf_refs tf_locked tf_dirty tf_ops]. apply runs_ret.
    split; [|done]. exists N, E, R, c'. by split_and!.
Qed.
End Step.

(** *** The new file system *)

Definition init_ents : entmap := <[(ROOT, 1%nat) := (cn DOTDOT, ROOT)]> {[(ROOT, 0%nat) := (cn DOT, ROOT)]}.

Lemma init_ent d k nm i : init_ents !! (d, k) = Some (nm, i) <-> d = ROOT /\ i = ROOT /\ ((k = 0%nat /\ nm = cn DOT) \/ (k = 1%nat /\ nm = cn DOTDOT)).
Proof.
  unfold init_ents. rewrite lookup_insert_Some, lookup_singleton_Some. split.
  - intros [[[= <- <-] [= <- <-]]|[_ [[= <- <-] [= <- <-]]]]; naive_solver.
  - intros (-> & -> & [[-> ->]|[-> ->]]); [right|left]; by split.
Qed.

Lemma init_wf : wf (tf_nodes tree_init) init_ents.
Proof.
  assert (tf_nodes tree_init = {[ROOT := mk_tnode T_DIR 0 0 1 [mk_dirent DOT 1; mk_dirent DOTDOT 1]]}) as -> by done.
  assert (forall d, live_dir {[ROOT := mk_tnode T_DIR 0 0 1 [mk_dirent DOT 1; mk_dirent DOTDOT 1]]} d <-> d = ROOT) as Hl.
  { intros d. split; [by intros (n & [<- _]%lookup_singleton_Some & _)|]. intros ->. eexists. by rewrite lookup_singleton_eq. }
  split.
  - intros d k nm i. rewrite init_ent. unfold ent. pose proof (ent1_dots ROOT ROOT ltac:(unfold ROOT, NINODES; lia) 0 0 k nm i ltac:(unfold ROOT, NINODES; lia)) as H.
    split.
    + intros (-> & -> & Hk). eexists. rewrite lookup_singleton_eq. split; [done|]. apply H. tauto.
    + intros (n & [<- <-]%lookup_singleton_Some & Hx). apply H in Hx. tauto.
  - by apply Hl.
  - intros i n [<- <-]%lookup_singleton_Some. unfold ROOT, NINODES. cbn. lia.
  - intros i n [<- <-]%lookup_singleton_Some. by left.
  - intros d ->%Hl. split; [by apply init_ent; tauto|]. exists ROOT. split; [apply init_ent; tauto|]. split; [by apply Hl|]. by rewrite decide_True.
  - intros d k k' nm i i' (_ & _ & H1)%init_ent (_ & _ & H2)%init_ent. pose proof dots_ne. destruct H1 as [[-> ->]|[-> ->]], H2 as [[-> ?]|[-> ?]]; congruence.
  - intros d k nm i (_ & -> & _)%init_ent. eexists. by rewrite lookup_singleton_eq.
  - intros d k nm i (_ & _ & H1)%init_ent. lia.
  - intros d k k' nm nm' i (_ & _ & H1)%init_ent. lia.
  - intros i n k e [<- <-]%lookup_singleton_Some _. cbn. lia.
  - intros i n [<- <-]%lookup_singleton_Some. by vm_compute.
Qed.

Lemma nreach_inv s : nreach s -> ninv s.
Proof.
  induction 1 as [|x s r s' _ (N & E & R & c & (-> & W & Hh & Hp) & Hc & Hd) Hg Hrun].
  - exists (tf_nodes tree_init), init_ents, {[+ ROOT +]}, ROOT. split_and!; [split_and!; [done|apply init_wf| |]|set_solver|done].
    + intros i n Hi. change (tf_nodes tree_init) with ({[ROOT := mk_tnode T_DIR 0 0 1 [mk_dirent DOT 1; mk_dirent DOTDOT 1]]} : gmap nat tnode) in Hi.
      by apply lookup_singleton_Some in Hi as [<- <-].
    + intros i ->%gmultiset_elem_of_singleton. by eexists.
  - pose proof (op_runs N E R c W Hh Hp Hc Hd x Hg) as Hr. unfold runs in Hr. rewrite Hrun in Hr. apply Hr.
Qed.

(** ** Theorems *)




Definition chars (t : string) : bytes := (fun a => Z.of_nat (Ascii.nat_of_ascii a)) <$> String.list_ascii_of_string t.

(** The tree after mkdir("/a"). *)
Definition demo_tree : tfs := match run_nop (OMkdir (chars "/a")) tree_init with Ok _ s => s | _ => tree_init end.

Lemma demo_tree_reach : nreach demo_tree.
Proof.
  apply (nr_step (OMkdir (chars "/a")) tree_init 0); [constructor| |vm_compute; reflexivity].
  split; [change (map_Forall (fun (_ : nat) n => t_nlink n < 2 ^ 15 - 1) (tf_nodes tree_init)); compute_done|by left].
Qed.
Lemma demo_small : small (tf_nodes demo_tree).
Proof. change (map_Forall (fun (_ : nat) n => t_nlink n < 2 ^ 15 - 1) (tf_nodes demo_tree)). compute_done. Qed.




(** A process that removes its current directory and then the parent of it is
    left with a .. that names a freed inode: the next path through .. stops
    the kernel. *)
Lemma orphan_dotdot_panics :
  (run_nop (OMkdir (chars "/a")) ;;; run_nop (OMkdir (chars "/a/b")) ;;; run_nop (OChdir (chars "/a/b")) ;;;
   run_nop (OUnlink (chars "/a/b")) ;;; run_nop (OUnlink (chars "/a")) ;;; run_nop (OUnlink (chars "../x"))) tree_init = Panic "ilock: no type".
Proof. by vm_compute. Qed.

(** link(f, ".") waits for the lock of the directory that it holds itself. *)
Lemma link_dot_deadlocks : (run_nop (OCreate (chars "/f")) ;;; run_nop (OLink (chars "/f") (chars "."))) tree_init = Block "inode".
Proof. by vm_compute. Qed.
