(* ===== verification/Mkfs.v ===== *)
(** * Building the disk image (mkfs.c)

    The program that lays out the file system and copies the user programs
    into it.  The image file is a function from sector numbers to contents,
    the empty contents past its end.  A failed assertion and [exit(1)] are
    panics.  What the host's [open] and [read] deliver is part of the input;
    the host is little-endian, so [xint] and [xshort] compute numbers.

    The lemmas follow one file while bytes are appended to it. *)

From S2P Require Import Prelude Layout Block Blockio Log Fs Fsblock Fsfile Proc.

(** ** Data *)

Definition NINODES : Z := 200.
Definition nbitmap : Z := FSSIZE / (Z.of_nat BSIZE * 8) + 1.
Definition ninodeblocks : Z := NINODES / IPB + 1.
Definition nlog : Z := LOGSIZE.
Definition nswap : Z := PGSIZE / Z.of_nat BSIZE * Z.of_nat NPROC.
Definition nmeta : Z := 2 + nlog + ninodeblocks + nbitmap + nswap.
Definition nblocks : Z := FSSIZE - nmeta.

(** The image file and the two counters. *)
Record image := mk_image { sect : Z -> bytes; freeinode : Z; freeblock : Z }.

Definition set_sect (V : Z -> bytes) (s : image) : image := mk_image V (freeinode s) (freeblock s).
Definition set_freeinode (n : Z) (s : image) : image := mk_image (sect s) n (freeblock s).
Definition set_freeblock (n : Z) (s : image) : image := mk_image (sect s) (freeinode s) n.

Definition xshort (x : Z) : Z := u8 x + 2 ^ 8 * u8 (x / 2 ^ 8).
Definition xint (x : Z) : Z :=
  u8 x + 2 ^ 8 * u8 (x / 2 ^ 8) + 2 ^ 16 * u8 (x / 2 ^ 16) + 2 ^ 24 * u8 (x / 2 ^ 24).

(** The superblock [main] fills in. *)
Definition mksb : superblock :=
  mk_sb (xint FSSIZE) (xint nblocks) (xint NINODES) (xint nlog) (xint nswap) (xint 2)
    (xint (2 + nlog)) (xint (2 + nlog + ninodeblocks)) (xint (2 + nlog + ninodeblocks + nbitmap)).

(** [memmove(buf, &sb, sizeof(sb))]. *)
Definition put_sb (sb : superblock) (b : bytes) : bytes :=
  put32 32 (sb_swapstart sb) (put32 28 (sb_bmapstart sb) (put32 24 (sb_inodestart sb)
    (put32 20 (sb_logstart sb) (put32 16 (sb_nswap sb) (put32 12 (sb_nlog sb) (put32 8 (sb_ninodes sb)
      (put32 4 (sb_nblocks sb) (put32 0 (sb_size sb) b)))))))).

(** ** Operations *)

Definition wsect (sec : Z) (buf : bytes) : M image unit := modify (fun s => set_sect (zupd (sect s) sec buf) s).
Definition rsect (sec : Z) : M image bytes :=
  b <- gets (fun s => sect s sec) ;;
  if (length b =? BSIZE)%nat then kret b else panic "read".

Definition winode (inum : Z) (ip : dinode) : M image unit :=
  let bn := IBLOCK inum mksb in
  buf <- rsect bn ;;
  wsect bn (put_dinode (Z.to_nat (inum mod IPB * DSIZE)) ip buf).
Definition rinode (inum : Z) : M image dinode :=
  buf <- rsect (IBLOCK inum mksb) ;;
  kret (get_dinode buf (Z.to_nat (inum mod IPB * DSIZE))).

Definition mkfs_ialloc (type : Z) : M image Z :=
  inum <- gets freeinode ;;
  modify (set_freeinode (u32 (inum + 1))) ;;;
  winode inum (mk_dinode (s16 (xshort type)) 0 0 (s16 (xshort 1)) (xint 0) (replicate 13 0)) ;;;
  kret inum.

(** The loop of [balloc]: bits [i] to [i + k - 1]. *)
Fixpoint balloc_bits (k : nat) (i : Z) (buf : bytes) : bytes :=
  match k with
  | O => buf
  | S k' => balloc_bits k' (i + 1)
      (put8 (Z.to_nat (i / 8)) (Z.lor (get8 buf (Z.to_nat (i / 8))) (Z.shiftl 1 (i mod 8))) buf)
  end.
Definition mkfs_balloc (used : Z) : M image unit :=
  if negb (used <? Z.of_nat BSIZE * 8) then panic "assert"
  else wsect (sb_bmapstart mksb) (balloc_bits (Z.to_nat used) 0 zero_block).

(** [xint(freeblock++)]. *)
Definition next_block : M image Z :=
  b <- gets freeblock ;;
  modify (set_freeblock (u32 (b + 1))) ;;;
  kret (xint b).

(** The block of the file for file block [fbn], allocated when it is missing,
    and the inode's addresses after that. *)
Definition iappend_block (addrs : list Z) (fbn : Z) : M image (list Z * Z) :=
  if fbn <? NDIRECT then
    addrs <- (if xint (addrs !!! Z.to_nat fbn) =? 0 then
                b <- next_block ;; kret (<[Z.to_nat fbn := b]> addrs)
              else kret addrs) ;;
    kret (addrs, xint (addrs !!! Z.to_nat fbn))
  else
    addrs <- (if xint (addrs !!! Z.to_nat NDIRECT) =? 0 then
                b <- next_block ;; kret (<[Z.to_nat NDIRECT := b]> addrs)
              else kret addrs) ;;
    let o := (4 * Z.to_nat (fbn - NDIRECT))%nat in
    indirect <- rsect (xint (addrs !!! Z.to_nat NDIRECT)) ;;
    indirect <- (if get32 indirect o =? 0 then
                   b <- next_block ;;
                   let indirect := put32 o b indirect in
                   wsect (xint (addrs !!! Z.to_nat NDIRECT)) indirect ;;;
                   kret indirect
                 else kret indirect) ;;
    kret (addrs, xint (get32 indirect o)).

(** The loop of [iappend]; a round copies at least one byte, so the number of
    bytes bounds the rounds. *)
Fixpoint iappend_loop (fuel : nat) (addrs : list Z) (off : Z) (p : bytes) : M image (list Z * Z) :=
  match p, fuel with
  | [], _ => kret (addrs, off)
  | _, O => nofuel
  | _, S fuel' =>
      let fbn := off / Z.of_nat BSIZE in
      if negb (fbn <? MAXFILE) then panic "assert" else
      r <- iappend_block addrs fbn ;;
      let n1 := Z.min (Z.of_nat (length p)) ((fbn + 1) * Z.of_nat BSIZE - off) in
      buf <- rsect r.2 ;;
      wsect r.2 (splice (Z.to_nat (off - fbn * Z.of_nat BSIZE)) (take (Z.to_nat n1) p) buf) ;;;
      iappend_loop fuel' r.1 (u32 (off + n1)) (drop (Z.to_nat n1) p)
  end.
Definition iappend (inum : Z) (p : bytes) : M image unit :=
  din <- rinode inum ;;
  r <- iappend_loop (length p) (d_addrs din) (xint (d_size din)) p ;;
  winode inum (mk_dinode (d_type din) (d_major din) (d_minor din) (d_nlink din) (xint r.2) r.1).

(** A file of the command line: its name, and the results of [read] until it
    returns 0; [None] when it cannot be opened. *)
Definition infile : Type := bytes * option (list bytes).

(** [if(argv[i][0] == '_') ++argv[i]]. *)
Definition strip_name (name : bytes) : bytes :=
  match name with
  | c :: t => if c =? 95 then t else name
  | [] => name
  end.

Fixpoint copy (inum : Z) (chunks : list bytes) : M image unit :=
  match chunks with
  | [] => kret tt
  | buf :: chunks' => iappend inum buf ;;; copy inum chunks'
  end.

(** The loop of [main] over its arguments. *)
Fixpoint add_files (rootino : Z) (files : list infile) : M image unit :=
  match files with
  | [] => kret tt
  | (name, data) :: files' =>
      if bool_decide (47 ∈ name) then panic "assert" else
      match data with
      | None => panic "open"
      | Some chunks =>
          inum <- mkfs_ialloc T_FILE ;;
          iappend rootino (mk_dirent (strip_name name) (xshort inum)) ;;;
          copy inum chunks ;;;
          add_files rootino files'
      end
  end.

(** [for(i = 0; i < FSSIZE; i++) wsect(i, zeroes)]. *)
Fixpoint zero_sects (k : nat) (i : Z) : M image unit :=
  match k with
  | O => kret tt
  | S k' => wsect i zero_block ;;; zero_sects k' (i + 1)
  end.

(** [main], up to the loop over the arguments. *)
Definition mkfs_files (files : list infile) : M image Z :=
  modify (set_freeblock nmeta) ;;;
  zero_sects (Z.to_nat FSSIZE) 0 ;;;
  wsect 1 (put_sb mksb zero_block) ;;;
  rootino <- mkfs_ialloc T_DIR ;;
  if negb (rootino =? ROOTINO) then panic "assert" else
  iappend rootino (mk_dirent [46] (xshort rootino)) ;;;
  iappend rootino (mk_dirent [46; 46] (xshort rootino)) ;;;
  add_files rootino files ;;;
  kret rootino.

Definition mkfs (files : list infile) : M image unit :=
  rootino <- mkfs_files files ;;
  din <- rinode rootino ;;
  let off := xint (d_size din) in
  let off := u32 ((off / Z.of_nat BSIZE + 1) * Z.of_nat BSIZE) in
  winode rootino (mk_dinode (d_type din) (d_major din) (d_minor din) (d_nlink din) (xint off) (d_addrs din)) ;;;
  n <- gets freeblock ;;
  mkfs_balloc (s32 n).

(** The image file just opened with O_TRUNC, [freeinode] 1. *)
Definition fresh : image := mk_image (fun _ => []) 1 0.

(** ** Numbers *)

Lemma xshort_id x : 0 <= x < 2 ^ 16 -> xshort x = x.
Proof. intros H. unfold xshort, u8. change (2 ^ 8) with 256. change (2 ^ 16) with 65536 in H. Z.to_euclidean_division_equations. lia. Qed.
Lemma xint_id x : 0 <= x < 2 ^ 32 -> xint x = x.
Proof.
  intros H. unfold xint, u8. change (2 ^ 8) with 256. change (2 ^ 16) with 65536. change (2 ^ 24) with 16777216. change (2 ^ 32) with 4294967296 in H.
  Z.to_euclidean_division_equations. lia.
Qed.

#[local] Notation B := (Z.of_nat BSIZE).
Lemma B_eq : B = 512.
Proof. done. Qed.
Lemma nmeta_eq : nmeta = 575.
Proof. done. Qed.
Lemma mksb_eq : mksb = mk_sb 16384 15809 200 30 512 2 32 58 63.
Proof. done. Qed.

(** Blocks of [n] bytes, and the blocks a file with [nb] of them takes. *)
Definition blocks (n : Z) : Z := (n + B - 1) / B.
Definition cost (nb : Z) : Z := nb + bool2Z (NDIRECT <? nb).

(** ** One file

    [laid V fb a nb c]: in the sectors [V] of which those from [fb] on are not
    in use, the addresses [a] map the first [nb] blocks of a file that starts
    with the bytes [c]. *)

Implicit Types (V : Z -> bytes) (a : list Z) (c : bytes) (s : image).

Record laid V (fb : Z) a (nb : Z) c : Prop := {
  la_len : length a = 13%nat;
  la_nb : 0 <= nb <= MAXFILE;
  la_map : forall bn, 0 <= bn < MAXFILE -> blk V a bn <> 0 <-> bn < nb;
  la_ind : ind a <> 0 <-> NDIRECT < nb;
  la_own : forall b, own V a b -> nmeta <= b < fb;
  la_nind : forall bn, 0 <= bn < MAXFILE -> blk V a bn <> 0 -> blk V a bn <> ind a;
  la_inj : forall bn bn', 0 <= bn < MAXFILE -> 0 <= bn' < MAXFILE -> blk V a bn <> 0 -> blk V a bn = blk V a bn' -> bn = bn';
  la_size : Z.of_nat (length c) <= B * nb;
  la_data : forall x, 0 <= x < Z.of_nat (length c) -> fbyte V a x = c !!! Z.to_nat x;
  la_tail : forall x, Z.of_nat (length c) <= x < B * nb -> fbyte V a x = 0
}.

Lemma own_ind V a : ind a <> 0 -> own V a (ind a).
Proof. intros H. split; [done|by left]. Qed.
Lemma own_at V a bn : 0 <= bn < MAXFILE -> blk V a bn <> 0 -> own V a (blk V a bn).
Proof. intros Hb H. split; [done|]. right. by exists bn. Qed.

Lemma blk_frame V V' a bn : (ind a <> 0 -> V' (ind a) = V (ind a)) -> blk V' a bn = blk V a bn.
Proof. intros H. unfold blk. destruct (bn <? NDIRECT); [done|]. destruct (ind a =? 0) eqn:E; [done|]. boolify. by rewrite H. Qed.

Lemma own_frame V V' a b : (ind a <> 0 -> V' (ind a) = V (ind a)) -> own V' a b <-> own V a b.
Proof.
  intros H. unfold own. split; intros [H0 [E|(bn & Hbn & E)]]; (split; [done|]); try (by left); right; exists bn;
    (split; [done|]); by rewrite (blk_frame V V') in *.
Qed.

Lemma file_index x nb : 0 <= x < B * nb -> 0 <= x / B < nb.
Proof. intros H. rewrite B_eq in *. split; [apply Z.div_pos; lia|apply Z.div_lt_upper_bound; lia]. Qed.

Lemma laid_frame V V' fb fb' a nb c : laid V fb a nb c -> fb <= fb' -> (forall b, own V a b -> V' b = V b) -> laid V' fb' a nb c.
Proof.
  intros [L1 L2 L3 L4 L5 L6 L7 L8 L9 L10] Hfb HV. assert (ind a <> 0 -> V' (ind a) = V (ind a)) as Hi by (intros H; by apply HV, own_ind).
  assert (forall bn, blk V' a bn = blk V a bn) as Hb by (intros bn; by apply blk_frame).
  assert (forall x, 0 <= x < B * nb -> fbyte V' a x = fbyte V a x) as Hbyte.
  { intros x Hx. unfold fbyte, fdata. rewrite Hb. destruct (blk V a (x / B) =? 0) eqn:E; [done|]. boolify.
    rewrite HV; [done|]. apply own_at; [|done]. assert (0 <= x / B < nb) by (by apply file_index). lia. }
  split; try done.
  - intros bn. by rewrite Hb; apply L3.
  - intros b Hb'. apply (own_frame V V') in Hb'; [|done]. apply L5 in Hb'. lia.
  - intros bn. rewrite Hb. apply L6.
  - intros bn bn'. rewrite !Hb. apply L7.
  - intros x Hx. rewrite <- L9 by done. apply Hbyte. lia.
  - intros x Hx. rewrite <- (L10 x) by done. apply Hbyte. lia.
Qed.

(** Mapping one more block, empty. *)
Lemma laid_more V V' fb fb' a a' nb c y :
  laid V fb a nb c -> nb < MAXFILE -> length a' = 13%nat -> nmeta <= fb <= fb' ->
  (ind a' <> 0 <-> NDIRECT < nb + 1) -> (ind a' = ind a \/ fb <= ind a' < fb') ->
  (forall bn, 0 <= bn < MAXFILE -> blk V' a' bn = if decide (bn = nb) then y else blk V a bn) ->
  fb <= y < fb' -> y <> ind a' -> V' y = zero_block -> (forall b, own V a b -> b <> ind a -> V' b = V b) ->
  laid V' fb' a' (nb + 1) c /\ forall b, own V' a' b -> own V a b \/ fb <= b < fb'.
Proof.
  intros [L1 L2 L3 L4 L5 L6 L7 L8 L9 L10] Hnb Hl Hfb Hi Hia Hb Hy Hyi Hz HV. rewrite nmeta_eq in *.
  assert (forall b, own V' a' b -> own V a b \/ fb <= b < fb') as Ho.
  { intros b [H0 [->|(bn & Hbn & ->)]].
    - destruct Hia as [E|E]; [|by right]. left. rewrite E in *. by apply own_ind.
    - rewrite Hb in H0 |- * by done. case_decide; [by right|]. left. by apply own_at. }
  assert (forall bn, 0 <= bn < MAXFILE -> blk V a bn <> 0 -> blk V a bn < fb) as Hlt by (intros bn Hbn H0; by apply L5, own_at).
  assert (forall x, 0 <= x < B * nb -> fbyte V' a' x = fbyte V a x) as Hbyte.
  { intros x Hx. assert (0 <= x / B < nb) as Hxb by (by apply file_index). assert (blk V a (x / B) <> 0) as H0 by (apply L3; lia).
    unfold fbyte, fdata. rewrite Hb, decide_False by lia. rewrite (proj2 (Z.eqb_neq _ _)) by done. rewrite HV; [done|apply own_at; [lia|done]|].
    apply L6; [lia|done]. }
  split; [|done]. split; try done.
  - lia.
  - intros bn Hbn. rewrite Hb by done. case_decide as E; [split; lia|]. rewrite L3 by done. lia.
  - intros b [H|H]%Ho; [apply L5 in H|]; rewrite ?nmeta_eq in *; lia.
  - intros bn Hbn. rewrite Hb by done. case_decide; [done|]. intros H0. destruct Hia as [->|Hia]; [by apply L6|].
    specialize (Hlt bn Hbn H0). lia.
  - intros bn bn' Hbn Hbn'. rewrite !Hb by done. case_decide as E; case_decide as E'; subst; try done.
    + intros H0 E2. assert (blk V a bn' <> 0) by (rewrite <- E2; lia). specialize (Hlt bn' Hbn' ltac:(done)). lia.
    + intros H0 E2. specialize (Hlt bn Hbn H0). lia.
    + by apply L7.
  - lia.
  - intros x Hx. rewrite <- L9 by done. apply Hbyte. lia.
  - intros x Hx. destruct (decide (x < B * nb)) as [Hxl|Hxg]; [rewrite <- (L10 x) by lia; apply Hbyte; lia|].
    assert (x / B = nb) as E by (rewrite B_eq in *; symmetry; apply (Z.div_unique_pos _ _ _ (x - 512 * nb)); lia).
    unfold fbyte, fdata. rewrite E, Hb, decide_True by (done || lia). rewrite (proj2 (Z.eqb_neq _ _)), Hz by lia. apply get8_zero.
    pose proof (Z.mod_pos_bound x B ltac:(done)). lia.
Qed.

(** Writing at the end of the file, inside a mapped block. *)
Lemma laid_write V fb a nb c q : let off := Z.of_nat (length c) in let x := blk V a (off / B) in
  laid V fb a nb c -> off < B * nb -> Z.of_nat (length q) <= B - off mod B -> length (V x) = BSIZE ->
  let V' := zupd V x (splice (Z.to_nat (off mod B)) q (V x)) in
  laid V' fb a nb (c ++ q) /\ forall b, own V' a b <-> own V a b.
Proof.
  intros off x Hla Hoff Hq Hx V'. pose proof Hla as [L1 L2 L3 L4 L5 L6 L7 L8 L9 L10]. pose proof (Z.mod_pos_bound off B ltac:(done)) as Hm.
  assert (0 <= off / B < nb) as Hbn by (apply file_index; lia).
  assert (x <> 0) as Hx0 by (apply L3; lia). assert (x <> ind a) as Hxi by (apply L6; [lia|done]).
  assert (ind a <> 0 -> V' (ind a) = V (ind a)) as Hi by (intros _; by apply zupd_ne).
  assert (forall bn, blk V' a bn = blk V a bn) as Hb by (intros bn; by apply blk_frame).
  assert (forall b, own V' a b <-> own V a b) as Ho by (intros b; by apply own_frame).
  assert (off + Z.of_nat (length q) <= B * nb) as Hend.
  { pose proof (Z.div_mod off B ltac:(done)). rewrite B_eq in *. nia. }
  split; [|done]. split; try done.
  - intros bn. rewrite Hb. apply L3.
  - intros b Hb'. by apply L5, Ho.
  - intros bn. rewrite Hb. apply L6.
  - intros bn bn'. rewrite !Hb. apply L7.
  - rewrite length_app. lia.
  - intros y Hy. rewrite length_app in Hy. assert (0 <= y / B < nb) as Hyb by (apply file_index; lia).
    pose proof (Z.mod_pos_bound y B ltac:(done)) as Hmy. pose proof (Z.div_mod y B ltac:(done)). pose proof (Z.div_mod off B ltac:(done)).
    assert (blk V a (y / B) <> 0) as Hy0 by (apply L3; lia).
    unfold fbyte, fdata. rewrite Hb, (proj2 (Z.eqb_neq _ _)) by done. destruct (decide (y / B = off / B)) as [E|E].
    + rewrite E. fold x. unfold V'. rewrite zupd_eq, get8_splice by lia. rewrite B_eq in *. case_decide as Hd.
      * rewrite list_lookup_total_alt, (list_lookup_total_alt (c ++ q)), lookup_app_r by lia. do 2 f_equal. lia.
      * rewrite list_lookup_total_alt, lookup_app_l, <- list_lookup_total_alt by lia. rewrite <- L9 by lia. unfold fbyte, fdata. fold B. rewrite B_eq, E.
        fold x. by rewrite (proj2 (Z.eqb_neq _ _)).
    + unfold V'. rewrite zupd_ne.
      * destruct (decide (y < off)) as [Hlt|Hge].
        -- rewrite list_lookup_total_alt, lookup_app_l, <- list_lookup_total_alt by lia. rewrite <- L9 by lia. unfold fbyte, fdata. by rewrite (proj2 (Z.eqb_neq _ _)).
        -- exfalso. apply E. rewrite B_eq in *. symmetry. apply (Z.div_unique_pos _ _ _ (y - 512 * (off / 512))); lia.
      * intros E2. apply E. eapply L7; [lia|lia|done|done].
  - intros y Hy. rewrite length_app in Hy. assert (0 <= y / B < nb) as Hyb by (apply file_index; lia).
    pose proof (Z.mod_pos_bound y B ltac:(done)) as Hmy. pose proof (Z.div_mod y B ltac:(done)). pose proof (Z.div_mod off B ltac:(done)).
    assert (blk V a (y / B) <> 0) as Hy0 by (apply L3; lia). rewrite <- (L10 y) by lia.
    unfold fbyte, fdata. rewrite Hb, (proj2 (Z.eqb_neq _ _)) by done. unfold V', zupd. case_decide as E; [|done].
    assert (y / B = off / B) as E2 by (eapply L7; [lia|lia|done|done]). rewrite E, get8_splice by lia. rewrite B_eq in *. rewrite decide_False by lia. done.
Qed.

(** ** Allocation *)

(** Sectors are whole, and those not in use yet are zero. *)
Record clean s : Prop := {
  cl_block : forall b, 0 <= b < FSSIZE -> is_block (sect s b);
  cl_zero : forall b, freeblock s <= b < FSSIZE -> sect s b = zero_block;
  cl_fb : nmeta <= freeblock s <= FSSIZE
}.

(** The file with addresses [a] grew, and nothing else changed. *)
Record extends s a s' a' : Prop := {
  ex_fi : freeinode s' = freeinode s;
  ex_fb : freeblock s <= freeblock s';
  ex_frame : forall b, b < freeblock s -> ~ own (sect s) a b -> sect s' b = sect s b;
  ex_own : forall b, own (sect s') a' b -> own (sect s) a b \/ freeblock s <= b < freeblock s'
}.

Lemma extends_refl s a : extends s a s a.
Proof. split; auto. lia. Qed.

Lemma extends_trans s a s1 a1 s2 a2 : extends s a s1 a1 -> extends s1 a1 s2 a2 -> extends s a s2 a2.
Proof.
  intros [A1 A2 A3 A4] [B1 B2 B3 B4]. split; [congruence|lia|..].
  - intros b Hb Ho. rewrite B3; [by apply A3|lia|]. intros [?|?]%A4; [done|lia].
  - intros b [H|H]%B4; [apply A4 in H as [?|?]; [by left|]|]; right; lia.
Qed.

Lemma rsect_eq s b : clean s -> 0 <= b < FSSIZE -> rsect b s = Ok (sect s b) s.
Proof. intros Hc Hb. unfold rsect, kbind, gets. destruct (cl_block _ Hc b Hb) as [-> _]. by rewrite Nat.eqb_refl. Qed.
Lemma rsect_wp s b (Q : bytes -> image -> Prop) : clean s -> 0 <= b < FSSIZE -> Q (sect s b) s -> wp (rsect b) Q s.
Proof. intros Hc Hb HQ. by eapply wp_eq; [apply rsect_eq|]. Qed.

Lemma next_block_wp s (Q : Z -> image -> Prop) : clean s -> freeblock s < FSSIZE ->
  Q (freeblock s) (set_freeblock (freeblock s + 1) s) -> wp next_block Q s.
Proof.
  intros Hc Hlt HQ. pose proof (cl_fb _ Hc) as Hfb. rewrite nmeta_eq in *. unfold FSSIZE in *. unfold next_block. apply wp_bind, wp_gets, wp_bind, wp_modify, wp_ret.
  rewrite u32_id, xint_id by lia. done.
Qed.

Lemma clean_more s : clean s -> freeblock s < FSSIZE -> clean (set_freeblock (freeblock s + 1) s).
Proof. intros [C1 C2 C3] Hlt. split; cbn; [done| |lia]. intros b Hb. apply C2. lia. Qed.
Lemma clean_write s b v : clean s -> b < freeblock s -> is_block v -> clean (set_sect (zupd (sect s) b v) s).
Proof.
  intros [C1 C2 C3] Hlt Hv. split; cbn; [| |done].
  - intros x Hx. unfold zupd. case_decide; [done|auto].
  - intros x Hx. rewrite zupd_ne by lia. by apply C2.
Qed.

Lemma laid_addr V fb a nb c k : laid V fb a nb c -> fb <= FSSIZE -> (k < 13)%nat ->
  0 <= a !!! k < 2 ^ 32 /\ (a !!! k <> 0 -> nmeta <= a !!! k < fb).
Proof.
  intros Hla Hfb Hk. rewrite nmeta_eq. assert (a !!! k <> 0 -> 575 <= a !!! k < fb) as H.
  { intros H0. rewrite <- nmeta_eq. apply (la_own _ _ _ _ _ Hla). split; [done|]. destruct (decide (k = 12%nat)) as [->|Hk12]; [by left|].
    right. exists (Z.of_nat k). unfold MAXFILE, NDIRECT, NINDIRECT. split; [lia|]. unfold blk, NDIRECT.
    rewrite (proj2 (Z.ltb_lt _ _)) by lia. by rewrite Nat2Z.id. }
  split; [|done]. unfold FSSIZE in Hfb. destruct (decide (a !!! k = 0)) as [->|H0]; [lia|]. specialize (H H0). lia.
Qed.

(** What the allocation of file block [bn] does. *)
Definition allocated s a nb c (bn : Z) (r : list Z * Z) s' : Prop :=
  let nb' := Z.max nb (bn + 1) in
  clean s' /\ laid (sect s') (freeblock s') r.1 nb' c /\ extends s a s' r.1 /\
  r.2 = blk (sect s') r.1 bn /\ freeblock s' = freeblock s + cost nb' - cost nb.

Lemma blk_direct V a k y bn : length a = 13%nat -> 0 <= k < NDIRECT -> 0 <= bn ->
  blk V (<[Z.to_nat k := y]> a) bn = if decide (bn = k) then y else blk V a bn.
Proof.
  intros Hl Hk Hb. unfold blk, ind, IND_BLOCK, NDIRECT in *. rewrite (list_lookup_total_insert_ne _ _ (Z.to_nat 12)) by lia. destruct (bn <? 12) eqn:E; boolify.
  - case_decide as D; [subst; apply list_lookup_total_insert_eq; lia|]. rewrite list_lookup_total_insert_ne by lia. done.
  - rewrite decide_False by lia. done.
Qed.
(** An entry of the indirect block. *)
Lemma blk_entry V a w y k bn : ind a <> 0 -> length w = BSIZE -> NDIRECT <= k < MAXFILE -> 0 <= y < 2 ^ 32 -> 0 <= bn < MAXFILE ->
  blk (zupd V (ind a) (put32 (4 * Z.to_nat (k - NDIRECT)) y w)) a bn =
  if decide (bn = k) then y else if bn <? NDIRECT then a !!! Z.to_nat bn else get32 w (4 * Z.to_nat (bn - NDIRECT)).
Proof.
  intros Hi Hw Hk Hy Hb. unfold blk, MAXFILE, NDIRECT, NINDIRECT, BSIZE in *. destruct (bn <? 12) eqn:E; boolify.
  - by rewrite decide_False by lia.
  - rewrite (proj2 (Z.eqb_neq _ _)), zupd_eq by done. case_decide as D.
    + subst. rewrite get32_put32_eq by lia. by apply u32_id.
    + by rewrite get32_put32_ne by lia.
Qed.

Section Block.
Context {s : image} {a : list Z} {nb : Z} {c : bytes} {bn : Z}.
Context (Hc : clean s) (Hla : laid (sect s) (freeblock s) a nb c) (Hbn : 0 <= bn < MAXFILE) (Hroom : freeblock s + 2 <= FSSIZE).

Lemma addr_id (k : nat) : (k < 13)%nat -> xint (a !!! k) = a !!! k.
Proof. intros Hk. apply xint_id. pose proof (cl_fb _ Hc). apply (laid_addr _ _ _ _ _ k Hla); [lia|done]. Qed.

Lemma ind_used : NDIRECT < nb -> nmeta <= ind a < freeblock s.
Proof. intros H. apply (la_own _ _ _ _ _ Hla), own_ind, (la_ind _ _ _ _ _ Hla), H. Qed.

Lemma iappend_block_old : bn < nb -> wp (iappend_block a bn) (allocated s a nb c bn) s.
Proof.
  intros Hlt. assert (blk (sect s) a bn <> 0) as H0 by (by apply (la_map _ _ _ _ _ Hla)).
  assert (blk (sect s) a bn < freeblock s) as Hr by (by apply (la_own _ _ _ _ _ Hla), own_at).
  assert (allocated s a nb c bn (a, blk (sect s) a bn) s) as Hal.
  { unfold allocated. rewrite Z.max_l by lia. split_and!; [done|done|apply extends_refl|done|lia]. }
  pose proof ind_used as Hi. pose proof (cl_fb _ Hc) as Hfb. rewrite nmeta_eq in *.
  unfold iappend_block. unfold blk in H0. destruct (bn <? NDIRECT) eqn:E; boolify.
  - assert (Z.to_nat bn < 13)%nat as Hk by (unfold NDIRECT in E; lia).
    rewrite addr_id by done. rewrite (proj2 (Z.eqb_neq _ _)) by done. apply wp_bind, wp_ret, wp_ret. rewrite addr_id by done. unfold blk in Hal. by rewrite (proj2 (Z.ltb_lt _ _)) in Hal.
  - fold (ind a). change (a !!! Z.to_nat NDIRECT) with (ind a). specialize (Hi ltac:(lia)). change (ind a) with (a !!! 12%nat). rewrite addr_id by lia. fold (ind a).
    change (a !!! 12%nat) with (ind a). rewrite (proj2 (Z.eqb_neq (ind a) _)) in H0 |- * by lia. apply wp_bind, wp_ret, wp_bind.
    change (xint (a !!! Z.to_nat NDIRECT)) with (xint (a !!! 12%nat)). rewrite addr_id by lia. change (a !!! 12%nat) with (ind a).
    apply rsect_wp; [done|lia|]. rewrite (proj2 (Z.eqb_neq _ _)) by done. apply wp_bind, wp_ret, wp_ret.
    unfold blk in Hal, Hr. rewrite (proj2 (Z.ltb_ge _ _)), (proj2 (Z.eqb_neq (ind a) _)) in Hal, Hr by lia. rewrite xint_id; [done|].
    apply get32_range. apply (cl_block _ Hc). lia.
Qed.

Context (Hnb : bn = nb).

Lemma cost_step : cost (Z.max nb (bn + 1)) = cost nb + 1 + bool2Z (nb =? NDIRECT).
Proof. rewrite Z.max_r by lia. unfold cost. rewrite Hnb. destruct (Z.ltb_spec NDIRECT (nb + 1)), (Z.ltb_spec NDIRECT nb), (Z.eqb_spec nb NDIRECT); cbn; lia. Qed.

Lemma blk_new : blk (sect s) a bn = 0.
Proof. destruct (decide (blk (sect s) a bn = 0)) as [|H]; [done|]. apply (la_map _ _ _ _ _ Hla) in H; [lia|done]. Qed.

Lemma iappend_block_direct : nb < NDIRECT -> wp (iappend_block a bn) (allocated s a nb c bn) s.
Proof.
  intros Hlt. pose proof blk_new as H0. pose proof (la_len _ _ _ _ _ Hla) as Hl. pose proof (cl_fb _ Hc) as Hfb. pose proof (la_ind _ _ _ _ _ Hla) as Hi.
  assert (Z.to_nat bn < 13)%nat as Hk by (unfold NDIRECT in Hlt; lia). rewrite nmeta_eq in Hfb. pose proof (eq_refl : FSSIZE = 16384) as HF.
  unfold iappend_block. rewrite (proj2 (Z.ltb_lt _ _)) by lia. rewrite addr_id by done. unfold blk in H0. rewrite (proj2 (Z.ltb_lt _ _)) in H0 by lia. rewrite H0.
  cbn [Z.eqb]. apply wp_bind, wp_bind, next_block_wp; [done|lia|]. apply wp_ret, wp_ret.
  rewrite list_lookup_total_insert_eq, xint_id by lia.
  destruct (laid_more (sect s) (sect s) (freeblock s) (freeblock s + 1) a (<[Z.to_nat bn := freeblock s]> a) nb c (freeblock s)) as [L Ho]; try done; try lia.
  - by rewrite length_insert.
  - rewrite nmeta_eq. lia.
  - unfold ind in *. unfold IND_BLOCK, NDIRECT in *. rewrite list_lookup_total_insert_ne by lia. rewrite Hi. lia.
  - left. unfold ind, IND_BLOCK, NDIRECT in *. by rewrite list_lookup_total_insert_ne by lia.
  - intros x Hx. subst. apply blk_direct; [done| |]; lia.
  - unfold ind in *. unfold IND_BLOCK, NDIRECT in *. rewrite list_lookup_total_insert_ne by lia. lia.
  - apply (cl_zero _ Hc). lia.
  - unfold allocated. rewrite cost_step, (proj2 (Z.eqb_neq _ _)) by lia. rewrite Z.max_r, Hnb by lia. cbn [fst snd sect freeblock set_freeblock bool2Z].
    rewrite Hnb in L, Ho. split_and!; [apply clean_more; [done|lia]|done|split; cbn; auto; lia| |lia].
    rewrite blk_direct by lia. by rewrite decide_True.
Qed.

(** The indirect block exists. *)
Lemma iappend_block_entry : NDIRECT < nb -> wp (iappend_block a bn) (allocated s a nb c bn) s.
Proof.
  intros Hlt. pose proof blk_new as H0. pose proof (ind_used Hlt) as Hir. pose proof (cl_fb _ Hc) as Hfb.
  pose proof (la_len _ _ _ _ _ Hla) as Hl. pose proof (cl_block _ Hc (ind a)) as Hw. pose proof (eq_refl : FSSIZE = 16384) as HF. rewrite nmeta_eq in *.
  specialize (Hw ltac:(lia)). unfold iappend_block. rewrite (proj2 (Z.ltb_ge _ _)) by lia.
  change (a !!! Z.to_nat NDIRECT) with (ind a). rewrite (xint_id (ind a)), (proj2 (Z.eqb_neq (ind a) _)) by lia. apply wp_bind, wp_ret, wp_bind.
  change (a !!! Z.to_nat NDIRECT) with (ind a). rewrite (xint_id (ind a)) by lia. apply rsect_wp; [done|lia|].
  unfold blk in H0. rewrite (proj2 (Z.ltb_ge _ _)), (proj2 (Z.eqb_neq (ind a) _)) in H0 by lia. rewrite H0. cbn [Z.eqb].
  apply wp_bind, wp_bind, next_block_wp; [done|lia|]. apply wp_bind, wp_modify, wp_ret, wp_ret.
  rewrite get32_put32_eq, u32_id, xint_id by (try lia; destruct Hw as [-> _]; unfold MAXFILE, NDIRECT, NINDIRECT, BSIZE in *; lia).
  set (V' := zupd (sect s) (ind a) (put32 (4 * Z.to_nat (bn - NDIRECT)) (freeblock s) (sect s (ind a)))).
  assert (forall x, 0 <= x < MAXFILE -> blk V' a x = if decide (x = nb) then freeblock s else blk (sect s) a x) as Hblk.
  { intros x Hx. unfold V'. rewrite Hnb, blk_entry; try done; try lia; [|apply Hw]. unfold blk. by rewrite (proj2 (Z.eqb_neq (ind a) _)) by lia. }
  destruct (laid_more (sect s) V' (freeblock s) (freeblock s + 1) a a nb c (freeblock s)) as [L Ho]; try done; try lia.
  - rewrite nmeta_eq. lia.
  - unfold V'. rewrite zupd_ne by lia. apply (cl_zero _ Hc). lia.
  - intros b Hb Hbi. unfold V'. by apply zupd_ne.
  - unfold allocated. rewrite cost_step, (proj2 (Z.eqb_neq _ _)) by lia. rewrite Z.max_r by lia. cbn [fst snd sect freeblock set_freeblock set_sect bool2Z].
    fold V'. split_and!; [|by rewrite Hnb|split; cbn; auto; [lia|]| |lia].
    + apply (clean_write (set_freeblock (freeblock s + 1) s)); [apply clean_more; [done|lia]|cbn; lia|by apply put32_block].
    + intros b Hb Hob. apply zupd_ne. intros ->. apply Hob, own_ind. lia.
    + rewrite Hblk, decide_True by done. done.
Qed.

(** The indirect block is allocated, and in it the first entry. *)
Lemma iappend_block_indirect : nb = NDIRECT -> wp (iappend_block a bn) (allocated s a nb c bn) s.
Proof.
  intros Heq. pose proof (la_ind _ _ _ _ _ Hla) as Hi. pose proof (cl_fb _ Hc) as Hfb. assert (ind a = 0) as Hi0 by (destruct (decide (ind a = 0)); [done|lia]).
  pose proof (la_len _ _ _ _ _ Hla) as Hl. pose proof (eq_refl : FSSIZE = 16384) as HF. rewrite nmeta_eq in *.
  unfold iappend_block. rewrite (proj2 (Z.ltb_ge _ _)) by lia.
  change (a !!! Z.to_nat NDIRECT) with (ind a). rewrite Hi0. change (xint 0 =? 0) with true. cbn beta iota.
  apply wp_bind, wp_bind, next_block_wp; [done|lia|]. apply wp_ret, wp_bind.
  set (a1 := <[Z.to_nat NDIRECT := freeblock s]> a). set (s1 := set_freeblock (freeblock s + 1) s).
  assert (ind a1 = freeblock s) as Ei by (apply list_lookup_total_insert_eq; rewrite Hl; change (Z.to_nat NDIRECT) with 12%nat; lia).
  assert (clean s1) as Hc1 by (apply clean_more; [done|lia]).
  change (a1 !!! Z.to_nat NDIRECT) with (ind a1). rewrite Ei, xint_id by lia. apply rsect_wp; [done|lia|]. cbn [sect s1 set_freeblock].
  rewrite (cl_zero _ Hc) by lia. rewrite get32_zero by (unfold MAXFILE, NDIRECT, NINDIRECT, BSIZE in *; lia). cbn [Z.eqb].
  apply wp_bind, wp_bind, next_block_wp; [done|cbn; lia|]. apply wp_bind, wp_modify, wp_ret, wp_ret. cbn [freeblock s1 set_freeblock sect set_sect].
  rewrite get32_put32_eq, u32_id, xint_id by (try lia; unfold zero_block; rewrite length_replicate; unfold MAXFILE, NDIRECT, NINDIRECT, BSIZE in *; lia).
  set (V' := zupd (sect s) (freeblock s) (put32 (4 * Z.to_nat (bn - NDIRECT)) (freeblock s + 1) zero_block)).
  assert (forall x, 0 <= x < MAXFILE -> blk V' a1 x = if decide (x = nb) then freeblock s + 1 else blk (sect s) a x) as Hblk.
  { intros x Hx. unfold V'. rewrite <- Ei at 1. rewrite Hnb, blk_entry; try done; try lia. case_decide; [done|]. unfold blk. rewrite Hi0. cbn [Z.eqb].
    destruct (x <? NDIRECT) eqn:E; boolify; [|apply get32_zero; unfold MAXFILE, NDIRECT, NINDIRECT, BSIZE in *; lia].
    unfold a1. apply list_lookup_total_insert_ne. unfold NDIRECT in *. lia. }
  destruct (laid_more (sect s) V' (freeblock s) (freeblock s + 2) a a1 nb c (freeblock s + 1)) as [L Ho]; try done; try lia.
  - unfold a1. by rewrite length_insert.
  - rewrite nmeta_eq. lia.
  - unfold V'. rewrite zupd_ne by lia. apply (cl_zero _ Hc). lia.
  - intros b Hb _. apply (la_own _ _ _ _ _ Hla) in Hb. apply zupd_ne. lia.
  - unfold allocated. rewrite cost_step, Heq, Z.eqb_refl, Z.max_r by lia. cbn [fst snd sect freeblock set_freeblock set_sect bool2Z].
    fold V'. rewrite <- Z.add_assoc. change (1 + 1) with 2. split_and!; [|by rewrite Hnb|split; cbn; auto; [lia|]| |lia].
    + apply (clean_write (set_freeblock (freeblock s + 2) s)); [|cbn; lia|by apply put32_block, zero_is_block].
      replace (set_freeblock (freeblock s + 2) s) with (set_freeblock (freeblock s1 + 1) s1) by (unfold s1, set_freeblock; cbn; f_equal; lia).
      apply clean_more; [done|cbn; lia].
    + intros b Hb Hob. apply zupd_ne. lia.
    + rewrite Hblk, decide_True by done. done.
Qed.
End Block.

Lemma iappend_block_wp s a nb c bn : clean s -> laid (sect s) (freeblock s) a nb c -> 0 <= bn <= nb -> bn < MAXFILE ->
  freeblock s + 2 <= FSSIZE -> wp (iappend_block a bn) (allocated s a nb c bn) s.
Proof.
  intros Hc Hla Hbn Hm Hroom. destruct (decide (bn < nb)); [apply iappend_block_old; auto; lia|]. destruct (Z.lt_trichotomy nb NDIRECT) as [?|[?|?]].
  - apply iappend_block_direct; auto; lia.
  - apply iappend_block_indirect; auto; lia.
  - apply iappend_block_entry; auto; lia.
Qed.

(** ** Appending *)

Lemma blocks_step n m : 0 <= n -> 0 < m -> m <= B - n mod B ->
  Z.max (blocks n) (n / B + 1) = n / B + 1 /\ blocks (n + m) = n / B + 1 /\ n / B <= blocks n.
Proof.
  intros Hn Hm Hle. unfold blocks. rewrite B_eq in *. Z.to_euclidean_division_equations. lia.
Qed.
Lemma cost_mono n m : 0 <= n <= m -> cost (blocks n) <= cost (blocks m).
Proof.
  intros H. unfold cost, blocks. rewrite B_eq. assert ((n + 512 - 1) / 512 <= (m + 512 - 1) / 512) by (apply Z.div_le_mono; lia).
  destruct (Z.ltb_spec NDIRECT ((n + 512 - 1) / 512)), (Z.ltb_spec NDIRECT ((m + 512 - 1) / 512)); cbn [bool2Z]; lia.
Qed.

Definition is_bytes (p : bytes) : Prop := Forall (fun x => 0 <= x < 2 ^ 8) p.

#[local] Notation len p := (Z.of_nat (length p)).

(** The file with addresses [a] and contents [c] got [p] appended. *)
Definition appended s a c p s' a' : Prop :=
  clean s' /\ laid (sect s') (freeblock s') a' (blocks (len c + len p)) (c ++ p) /\ extends s a s' a' /\
  freeblock s' = freeblock s + cost (blocks (len c + len p)) - cost (blocks (len c)).

Lemma iappend_loop_wp fuel s a c p :
  clean s -> laid (sect s) (freeblock s) a (blocks (len c)) c -> len c + len p <= MAXFILE * B -> (length p <= fuel)%nat -> is_bytes p ->
  freeblock s + cost (blocks (len c + len p)) - cost (blocks (len c)) + 2 <= FSSIZE ->
  wp (iappend_loop fuel a (len c) p) (fun r s' => r.2 = len c + len p /\ appended s a c p s' r.1) s.
Proof.
  revert s a c p. induction fuel as [|fuel IH]; intros s a c p Hc Hla Hmax Hf Hp Hroom.
  1: destruct p; [|cbn in Hf; lia]. 2: destruct (decide (p = [])) as [->|Hne].
  1, 2: apply wp_ret; cbn; rewrite Z.add_0_r; unfold appended; cbn; rewrite Z.add_0_r, app_nil_r;
    split_and!; [done|done|done|apply extends_refl|lia].
  assert (0 < len p) as Hpos by (destruct p; [done|cbn; lia]).
  cbn [iappend_loop]. destruct p as [|p0 p']; [done|]. set (p := p0 :: p') in *. clearbody p. clear p0 p'.
  pose proof (Z.mod_pos_bound (len c) B ltac:(done)) as Hm. pose proof (Z.div_mod (len c) B ltac:(done)) as Hd.
  assert (0 <= len c / B < MAXFILE) as Hbn by (apply file_index; lia). rewrite (proj2 (Z.ltb_lt _ _)) by lia. cbn [negb].
  replace ((len c / B + 1) * B - len c) with (B - len c mod B) by lia. replace (len c - len c / B * B) with (len c mod B) by lia.
  set (n1 := Z.min (len p) (B - len c mod B)). assert (0 < n1 <= len p /\ n1 <= B - len c mod B) as Hn1 by lia.
  destruct (blocks_step (len c) n1) as (E1 & E2 & E3); try lia.
  pose proof (cost_mono (len c) (len c + n1) ltac:(lia)) as Hc1. pose proof (cost_mono (len c + n1) (len c + len p) ltac:(lia)) as Hc2.
  apply wp_bind. eapply wp_mono; [apply (iappend_block_wp s a (blocks (len c)) c (len c / B)); try done; lia|].
  intros [a1 x] s1 (C1 & L1 & X1 & Hx & F1). cbn [fst snd] in *. rewrite E1 in L1, F1. rewrite <- E2 in F1.
  assert (nmeta <= x < freeblock s1) as Hxr. { rewrite Hx. apply (la_own _ _ _ _ _ L1), own_at; [done|]. apply (la_map _ _ _ _ _ L1); [done|lia]. }
  pose proof (cl_fb _ C1) as Hfb1. rewrite nmeta_eq in Hxr, Hfb1. apply wp_bind, rsect_wp; [done|lia|]. apply wp_bind, wp_modify.
  set (q := take (Z.to_nat n1) p). assert (len q = n1) as Hq by (unfold q; rewrite length_take; lia).
  assert (is_block (sect s1 x)) as Hblk by (apply (cl_block _ C1); lia).
  destruct (laid_write (sect s1) (freeblock s1) a1 (len c / B + 1) c q) as [L2 Ho]; [done|lia|lia|rewrite <- Hx; apply Hblk|].
  rewrite <- Hx in L2, Ho. set (s2 := set_sect (zupd (sect s1) x (splice (Z.to_nat (len c mod B)) q (sect s1 x))) s1).
  assert (clean s2) as C2. { apply clean_write; [done|lia|]. apply splice_block; [|done|by apply Forall_take]. rewrite B_eq in *. unfold BSIZE. lia. }
  assert (extends s1 a1 s2 a1) as X2.
  { split; cbn; [done|lia| |intros b Hb; left; by apply Ho]. intros b Hb Hno. apply zupd_ne. intros ->. apply Hno. rewrite Hx. apply own_at; [done|].
    rewrite <- Hx. lia. }
  rewrite u32_id by (change (MAXFILE * B) with 71680 in Hmax; lia). replace (len c + n1) with (len (c ++ q)) by (rewrite length_app; lia).
  assert (len (drop (Z.to_nat n1) p) = len p - n1) as Hdr by (rewrite length_drop; lia).
  assert (len (c ++ q) = len c + n1) as Hcq by (rewrite length_app; lia).
  eapply wp_mono; [apply IH; [done| |lia|lia|by apply Forall_drop|]|].
  - cbn [sect freeblock s2 set_sect]. rewrite Hcq, E2. done.
  - rewrite Hcq, Hdr. cbn [freeblock s2 set_sect]. replace (len c + n1 + (len p - n1)) with (len c + len p) by lia. lia.
  - intros r s' [Hr (C3 & L3 & X3 & F3)]. rewrite Hcq, Hdr in *. replace (len c + n1 + (len p - n1)) with (len c + len p) in * by lia. split; [done|].
    unfold q in L3. rewrite <- app_assoc, take_drop in L3. split_and!; [done|done| |cbn [freeblock s2 set_sect] in F3; lia].
    eapply extends_trans; [exact X1|]. by eapply extends_trans.
Qed.
