(* ===== verification/Mkfsspec.v ===== *)
(** * The image mkfs builds is the one the kernel reads

    [good] says which files the image holds while mkfs.c is running; the
    theorems say that the finished image is a file system of fs.c with the
    given files, and that [readi] returns their bytes. *)

From S2P Require Import Prelude Layout Block Blockio Bio Log Fs Fsblock Fsfile Fsinode Fstrunc Fsdir Namewf Mkfs.

Implicit Types (V : Z -> bytes) (a : list Z) (c : bytes) (s : image).

#[local] Notation B := (Z.of_nat BSIZE).
#[local] Notation len p := (Z.of_nat (length p)).

(** ** The image

    [good s F]: the inodes from 1 on are the files [F], each a type and
    contents, with blocks of their own. *)

#[local] Notation inode_of := (disk_inode (sb := mksb)).
#[local] Notation addrs_of V i := (d_addrs (inode_of V i)).

Record good s (F : list (Z * bytes)) : Prop := {
  gd_clean : clean s;
  gd_fi : freeinode s = 1 + Z.of_nat (length F);
  gd_sb : sect s 1 = put_sb mksb zero_block;
  gd_free : forall i, freeinode s <= i < 208 -> d_type (inode_of (sect s) i) = 0;
  gd_zero : forall b, 2 <= b < nmeta -> ~ sb_inodestart mksb <= b < sb_bmapstart mksb -> sect s b = zero_block;
  gd_file : forall j t c, F !! j = Some (t, c) -> let a := addrs_of (sect s) (1 + Z.of_nat j) in
    inode_of (sect s) (1 + Z.of_nat j) = mk_dinode t 0 0 1 (len c) a /\ laid (sect s) (freeblock s) a (blocks (len c)) c;
  gd_disj : forall j k b, (j < length F)%nat -> (k < length F)%nat -> own (sect s) (addrs_of (sect s) (1 + Z.of_nat j)) b ->
    own (sect s) (addrs_of (sect s) (1 + Z.of_nat k)) b -> j = k
}.

Lemma iblk_eq inum : 0 <= inum < 208 -> IBLOCK inum mksb = iblk (sb := mksb) inum /\ 32 <= iblk (sb := mksb) inum < 58.
Proof.
  intros H. unfold IBLOCK, iblk. rewrite mksb_eq. cbn [sb_inodestart]. assert (0 <= inum / IPB < 26) by (unfold IPB; split; [apply Z.div_pos|apply Z.div_lt_upper_bound]; lia).
  rewrite u32_id by lia. lia.
Qed.

Lemma winode_eq s inum d : clean s -> 0 <= inum < 208 ->
  winode inum d s = Ok tt (set_sect (put_inode (sb := mksb) (sect s) inum d) s).
Proof.
  intros Hc Hi. destruct (iblk_eq inum Hi) as [E Hr]. unfold winode. rewrite E. by erewrite kbind_ok; [|apply (rsect_eq _ _ Hc); unfold FSSIZE; lia].
Qed.
Lemma rinode_eq s inum : clean s -> 0 <= inum < 208 -> rinode inum s = Ok (inode_of (sect s) inum) s.
Proof.
  intros Hc Hi. destruct (iblk_eq inum Hi) as [E Hr]. unfold rinode. rewrite E. by erewrite kbind_ok; [|apply (rsect_eq _ _ Hc); unfold FSSIZE; lia].
Qed.

Lemma clean_inode s inum d : clean s -> 0 <= inum < 208 -> clean (set_sect (put_inode (sb := mksb) (sect s) inum d) s).
Proof.
  intros Hc Hi. destruct (iblk_eq inum Hi) as [_ Hr]. pose proof (cl_fb _ Hc) as Hfb. rewrite nmeta_eq in Hfb.
  apply clean_write; [done|lia|]. apply put_dinode_block, (cl_block _ Hc). unfold FSSIZE. lia.
Qed.

(** Writing an inode changes no block of a file. *)
Lemma put_inode_data V inum d b : 0 <= inum < 208 -> nmeta <= b -> put_inode (sb := mksb) V inum d b = V b.
Proof. intros Hi Hb. destruct (iblk_eq inum Hi) as [_ Hr]. rewrite nmeta_eq in Hb. apply zupd_ne. lia. Qed.

(** Only sectors below the data area differ. *)
Section Tail.
Context {V V' : Z -> bytes}.
Context (HV : forall b, nmeta <= b -> V' b = V b).

Lemma laid_meta fb a nb c : laid V fb a nb c -> laid V' fb a nb c /\ forall b, own V' a b <-> own V a b.
Proof.
  intros Hla. split.
  - apply (laid_frame V _ fb); [done|lia|]. intros b Hb. apply HV. by apply (la_own _ _ _ _ _ Hla).
  - intros b. apply own_frame. intros H. apply HV. by apply (la_own _ _ _ _ _ Hla), own_ind.
Qed.
End Tail.

Lemma laid_inode V fb a nb c inum d : 0 <= inum < 208 -> laid V fb a nb c ->
  laid (put_inode (sb := mksb) V inum d) fb a nb c /\ forall b, own (put_inode (sb := mksb) V inum d) a b <-> own V a b.
Proof. intros Hi. apply laid_meta. intros b. by apply put_inode_data. Qed.

Lemma dinode_laid t n V fb a nb c : - 2 ^ 15 <= t < 2 ^ 15 -> 0 <= n < 2 ^ 32 -> laid V fb a nb c -> fb <= FSSIZE -> dinode_ok (mk_dinode t 0 0 1 n a).
Proof.
  intros Ht Hn Hla Hfb. split; cbn; [|done|apply (la_len _ _ _ _ _ Hla)|].
  - intros z Hz. assert (z = t \/ z = 0 \/ z = 1) by set_solver. lia.
  - apply list.Forall_forall. intros z [k Hk]%list_elem_of_lookup. apply list_lookup_total_correct in Hk as E. rewrite <- E.
    apply (laid_addr _ _ _ _ _ k Hla Hfb). apply lookup_lt_Some in Hk. by rewrite (la_len _ _ _ _ _ Hla) in Hk.
Qed.

Section Append.
Context {s s1 : image} {F : list (Z * bytes)} {j : nat} {t : Z} {c p : bytes} {a1 : list Z}.
Context (Hg : good s F) (Hj : F !! j = Some (t, c)) (Hlen : (length F < 207)%nat) (Ht : - 2 ^ 15 <= t < 2 ^ 15).
Context (Hmax : len c + len p <= MAXFILE * B).
Let inum := 1 + Z.of_nat j.
Context (Hap : appended s (addrs_of (sect s) inum) c p s1 a1).
Let d2 := mk_dinode t 0 0 1 (len (c ++ p)) a1.
Let V2 := put_inode (sb := mksb) (sect s1) inum d2.

Lemma ap_inum : 0 <= inum < 208.
Proof. apply lookup_lt_Some in Hj. unfold inum. lia. Qed.

Lemma ap_laid : laid (sect s) (freeblock s) (addrs_of (sect s) inum) (blocks (len c)) c.
Proof. by apply (gd_file _ _ Hg j t c). Qed.

Lemma ap_meta b : b < nmeta -> sect s1 b = sect s b.
Proof.
  intros Hb. destruct Hap as (_ & _ & X & _). apply (ex_frame _ _ _ _ X); [pose proof (cl_fb _ (gd_clean _ _ Hg)); lia|].
  intros Ho. apply (la_own _ _ _ _ _ ap_laid) in Ho. lia.
Qed.

Lemma ap_inode k : k <> j -> (k < length F)%nat -> inode_of V2 (1 + Z.of_nat k) = inode_of (sect s) (1 + Z.of_nat k).
Proof.
  intros Hk Hkl. unfold V2. rewrite disk_inode_other by (unfold inum; lia). unfold disk_inode. rewrite ap_meta; [done|].
  destruct (iblk_eq (1 + Z.of_nat k)) as [_ Hr]; [lia|]. rewrite nmeta_eq. lia.
Qed.

Lemma ap_self : inode_of V2 inum = d2.
Proof.
  destruct Hap as (C1 & L1 & _). unfold V2. apply disk_inode_put.
  - destruct (iblk_eq _ ap_inum) as [_ Hr]. apply (cl_block _ C1). unfold FSSIZE. lia.
  - unfold d2. eapply dinode_laid; [done| |exact L1|apply (cl_fb _ C1)]. rewrite length_app. change (MAXFILE * B) with 71680 in Hmax. lia.
Qed.

(** The blocks of another file. *)
Lemma ap_other k b : k <> j -> (k < length F)%nat -> own (sect s) (addrs_of (sect s) (1 + Z.of_nat k)) b -> V2 b = sect s b /\ nmeta <= b < freeblock s.
Proof.
  intros Hk Hkl Ho. destruct (lookup_lt_is_Some_2 F k Hkl) as [[t' c'] Hk']. destruct (gd_file _ _ Hg _ _ _ Hk') as [_ Hla].
  assert (nmeta <= b < freeblock s) as Hb by (by apply (la_own _ _ _ _ _ Hla)). split; [|done]. unfold V2. rewrite put_inode_data; [|exact ap_inum|lia].
  destruct Hap as (_ & _ & X & _). apply (ex_frame _ _ _ _ X); [lia|]. intros Ho'. apply Hk.
  eapply (gd_disj _ _ Hg k j b); [done|by apply lookup_lt_Some in Hj|done|done].
Qed.

Lemma ap_own k b : k <> j -> (k < length F)%nat ->
  own V2 (addrs_of V2 (1 + Z.of_nat k)) b <-> own (sect s) (addrs_of (sect s) (1 + Z.of_nat k)) b.
Proof. intros Hk Hkl. rewrite ap_inode by done. apply own_frame. intros H. by apply (ap_other k); [..|apply own_ind]. Qed.

Lemma ap_own_self b : own V2 (addrs_of V2 inum) b -> own (sect s) (addrs_of (sect s) inum) b \/ freeblock s <= b.
Proof.
  rewrite ap_self. cbn [d_addrs d2]. destruct Hap as (C1 & L1 & X & _). intros Ho. apply (laid_inode _ _ _ _ _ inum d2 ap_inum L1) in Ho.
  apply (ex_own _ _ _ _ X) in Ho as [?|?]; [by left|right; lia].
Qed.

Lemma good_append : good (set_sect V2 s1) (<[j := (t, c ++ p)]> F).
Proof.
  pose proof Hap as (C1 & L1 & X & Hfb). pose proof (cl_fb _ C1) as Hr. pose proof (ex_fb _ _ _ _ X) as Hmono. pose proof ap_inum as Hin.
  destruct (iblk_eq _ Hin) as [_ Hib]. split; cbn [sect set_sect freeinode freeblock].
  - by apply clean_inode.
  - rewrite length_insert, (ex_fi _ _ _ _ X). apply Hg.
  - unfold V2, put_inode. rewrite zupd_ne by lia. rewrite ap_meta by (rewrite nmeta_eq; lia). apply Hg.
  - rewrite (ex_fi _ _ _ _ X), (gd_fi _ _ Hg). intros i Hi. apply lookup_lt_Some in Hj as Hjl. rewrite <- (gd_free _ _ Hg i) by (rewrite (gd_fi _ _ Hg); lia).
    f_equal. unfold V2. rewrite disk_inode_other by (unfold inum; lia). unfold disk_inode. rewrite ap_meta; [done|].
    destruct (iblk_eq i) as [_ Hr']; [lia|]. rewrite nmeta_eq. lia.
  - intros b Hb Hni. rewrite <- (gd_zero _ _ Hg b) by done. rewrite mksb_eq in Hni. cbn [sb_inodestart sb_bmapstart] in Hni. unfold V2, put_inode.
    rewrite zupd_ne by lia. apply ap_meta. lia.
  - intros k t' c' Hk. destruct (decide (k = j)) as [->|Hne].
    + rewrite list_lookup_insert_eq in Hk by (by eapply lookup_lt_Some). injection Hk as <- <-. fold inum. rewrite ap_self. split; [done|].
      cbn [d_addrs d2]. rewrite length_app, Nat2Z.inj_add. by apply laid_inode.
    + rewrite list_lookup_insert_ne in Hk by done. assert (k < length F)%nat as Hkl by (by eapply lookup_lt_Some).
      destruct (gd_file _ _ Hg _ _ _ Hk) as [E Hla]. rewrite ap_inode by done. split; [done|].
      eapply laid_frame; [exact Hla|done|]. intros b Hb. by apply (ap_other k).
  - rewrite length_insert. assert (forall k b, k <> j -> (k < length F)%nat -> own V2 (addrs_of V2 inum) b -> own V2 (addrs_of V2 (1 + Z.of_nat k)) b -> False) as Hx.
    { intros k b Hk Hkl Ho Hk'. apply (ap_own k) in Hk'; [|done..]. pose proof (ap_other k b Hk Hkl Hk') as [_ Hb]. apply ap_own_self in Ho as [Ho|?]; [|lia].
      apply Hk. eapply (gd_disj _ _ Hg k j b); [done|by apply lookup_lt_Some in Hj|done|done]. }
    intros k l b Hk Hl Ok Ol. destruct (decide (k = j)) as [->|Hkj], (decide (l = j)) as [->|Hlj]; [done|exfalso; by eapply (Hx l)|exfalso; by eapply (Hx k)|].
    apply (gd_disj _ _ Hg k l b Hk Hl); [by apply (ap_own k b Hkj Hk)|by apply (ap_own l b Hlj Hl)].
Qed.
End Append.

(** ** The operations *)

(** Blocks taken by the files. *)
Definition usage (F : list (Z * bytes)) : Z := foldr (fun f n => cost (blocks (len f.2)) + n) 0 F.

Lemma usage_cons f F : usage (f :: F) = cost (blocks (len f.2)) + usage F.
Proof. done. Qed.
Lemma usage_app F G : usage (F ++ G) = usage F + usage G.
Proof. induction F as [|f F IH]; [done|]. cbn [app]. rewrite !usage_cons. lia. Qed.
Lemma usage_insert F j f f' : F !! j = Some f -> usage (<[j := f']> F) = usage F + cost (blocks (len f'.2)) - cost (blocks (len f.2)).
Proof.
  revert j. induction F as [|g F IH]; intros [|j] Hj; try done; cbn in Hj.
  - injection Hj as ->. change (<[0%nat := f']> (f :: F)) with (f' :: F). rewrite !usage_cons. lia.
  - change (<[S j := f']> (g :: F)) with (g :: <[j := f']> F). rewrite !usage_cons, (IH j Hj). lia.
Qed.
Lemma cost_nonneg n : 0 <= n -> 0 <= cost (blocks n).
Proof. intros H. pose proof (cost_mono 0 n ltac:(lia)). change (cost (blocks 0)) with 0 in *. done. Qed.
Lemma usage_nonneg F : 0 <= usage F.
Proof. induction F as [|f F IH]; [done|]. rewrite usage_cons. pose proof (cost_nonneg (len f.2)). lia. Qed.

(** The image holds [F] and nothing else is in use. *)
Definition full s (F : list (Z * bytes)) : Prop := good s F /\ freeblock s = nmeta + usage F.

(** There is room for [F]. *)
Definition fits (F : list (Z * bytes)) : Prop := nmeta + usage F + 2 <= FSSIZE.

Lemma iappend_wp s F j t c p : let F' := <[j := (t, c ++ p)]> F in
  full s F -> F !! j = Some (t, c) -> (length F < 207)%nat -> - 2 ^ 15 <= t < 2 ^ 15 -> len c + len p <= MAXFILE * B -> is_bytes p -> fits F' ->
  wp (iappend (1 + Z.of_nat j) p) (fun _ s' => full s' F') s.
Proof.
  intros F' [Hg Hfb] Hj Hlen Ht Hmax Hp Hfit. destruct (gd_file _ _ Hg _ _ _ Hj) as [E Hla]. pose proof (gd_clean _ _ Hg) as Hc.
  apply lookup_lt_Some in Hj as Hjl. unfold fits, F' in Hfit. rewrite (usage_insert _ _ _ _ Hj) in Hfit. cbn [snd] in Hfit. rewrite length_app, Nat2Z.inj_add in Hfit.
  pose proof (eq_refl : MAXFILE * B = 71680) as HM. unfold iappend. apply wp_bind. eapply wp_eq; [apply rinode_eq; [done|lia]|]. rewrite E. cbn [d_type d_major d_minor d_nlink d_size d_addrs].
  rewrite xint_id by lia. apply wp_bind. eapply wp_mono; [apply iappend_loop_wp; try done; lia|].
  intros [a1 n] s1 [Hn Hap]. cbn [fst snd] in *. subst n. rewrite xint_id by lia. destruct Hap as (C1 & L1 & X1 & F1). eapply wp_eq; [apply winode_eq; [done|lia]|].
  replace (len c + len p) with (len (c ++ p)) at 1 by (rewrite length_app; lia). split.
  - by apply (good_append (s := s)).
  - cbn [freeblock set_sect]. unfold F'. rewrite (usage_insert _ _ _ _ Hj). cbn [snd]. rewrite length_app, Nat2Z.inj_add. lia.
Qed.

Lemma blk_empty V bn : 0 <= bn -> blk V (replicate 13 0) bn = 0.
Proof.
  intros Hb. unfold blk, NDIRECT. destruct (bn <? 12) eqn:E; boolify; [|done].
  rewrite list_lookup_total_alt, lookup_replicate_2 by lia. done.
Qed.
Lemma own_empty V b : ~ own V (replicate 13 0) b.
Proof. intros [H0 [E|(bn & Hbn & E)]]; [done|]. by rewrite blk_empty in E by lia. Qed.
Lemma laid_empty V fb : laid V fb (replicate 13 0) 0 [].
Proof.
  split; try done.
  - intros bn Hbn. rewrite blk_empty by lia. lia.
  - intros b []%own_empty.
  - intros bn bn' Hbn. by rewrite blk_empty by lia.
  - cbn. lia.
  - cbn. lia.
Qed.

Lemma dinode_empty t : - 2 ^ 15 <= t < 2 ^ 15 -> dinode_ok (mk_dinode t 0 0 1 0 (replicate 13 0)).
Proof. intros Ht. eapply (dinode_laid t 0 (fun _ => []) 0); [done|done|apply laid_empty|done]. Qed.

Section Ialloc.
Context {s : image} {F : list (Z * bytes)} {t : Z}.
Context (Hg : good s F) (Hlen : (length F < 206)%nat) (Ht : 0 <= t < 2 ^ 15).
Let inum := 1 + Z.of_nat (length F).
Let V' := put_inode (sb := mksb) (sect s) inum (mk_dinode t 0 0 1 0 (replicate 13 0)).

Lemma ia_new : inode_of V' inum = mk_dinode t 0 0 1 0 (replicate 13 0).
Proof.
  apply disk_inode_put; [|apply dinode_empty; lia]. destruct (iblk_eq inum) as [_ Hr]; [unfold inum; lia|].
  apply (cl_block _ (gd_clean _ _ Hg)). unfold FSSIZE. lia.
Qed.
Lemma ia_old i : 0 <= i -> i <> inum -> inode_of V' i = inode_of (sect s) i.
Proof. intros Hi Hne. unfold V'. apply disk_inode_other; unfold inum in *; lia. Qed.

Lemma ia_own k b : (k < length F)%nat -> own V' (addrs_of V' (1 + Z.of_nat k)) b <-> own (sect s) (addrs_of (sect s) (1 + Z.of_nat k)) b.
Proof.
  intros Hk. rewrite ia_old by (unfold inum; lia). destruct (lookup_lt_is_Some_2 F k Hk) as [[t' c'] Hk'].
  destruct (gd_file _ _ Hg _ _ _ Hk') as [_ Hla]. apply (laid_inode _ _ _ _ _ inum _ ltac:(unfold inum; lia) Hla).
Qed.

Lemma good_ialloc : good (set_sect V' (set_freeinode (inum + 1) s)) (F ++ [(t, [])]).
Proof.
  destruct (iblk_eq inum) as [_ Hr]; [unfold inum; lia|].
  assert (forall k, (k < length (F ++ [(t, [])]))%nat -> (k < length F)%nat \/ k = length F) as Hcase by (intros k; rewrite length_app; cbn; lia).
  split; cbn [sect set_sect set_freeinode freeinode freeblock].
  - apply (clean_inode (set_freeinode (inum + 1) s)); [destruct (gd_clean _ _ Hg); by split|unfold inum; lia].
  - rewrite length_app. cbn. unfold inum. lia.
  - unfold V', put_inode. rewrite zupd_ne by lia. apply Hg.
  - intros i Hi. rewrite ia_old by (unfold inum in *; lia). apply (gd_free _ _ Hg). rewrite (gd_fi _ _ Hg). unfold inum in Hi. lia.
  - intros b Hb Hni. unfold V', put_inode. rewrite zupd_ne by (rewrite mksb_eq in Hni; cbn in Hni; lia). by apply (gd_zero _ _ Hg).
  - intros k t' c' Hk. destruct (Hcase k) as [Hkl| ->]; [by eapply lookup_lt_Some|..].
    + rewrite lookup_app_l in Hk by done. destruct (gd_file _ _ Hg _ _ _ Hk) as [E Hla]. rewrite ia_old by (unfold inum; lia). split; [done|].
      by apply laid_inode; [unfold inum; lia|].
    + rewrite lookup_app_r, Nat.sub_diag in Hk by done. cbn in Hk. injection Hk as <- <-. fold inum. rewrite ia_new. split; [done|]. apply laid_empty.
  - intros k l b Hk Hl Ok Ol. destruct (Hcase k Hk) as [Hkl| ->]; [|exfalso; fold inum in Ok; rewrite ia_new in Ok; by apply own_empty in Ok].
    destruct (Hcase l Hl) as [Hll| ->]; [|exfalso; fold inum in Ol; rewrite ia_new in Ol; by apply own_empty in Ol].
    apply (gd_disj _ _ Hg k l b Hkl Hll); [by apply (ia_own k b Hkl)|by apply (ia_own l b Hll)].
Qed.
End Ialloc.

Lemma mkfs_ialloc_wp s F t : full s F -> (length F < 206)%nat -> 0 <= t < 2 ^ 15 ->
  wp (mkfs_ialloc t) (fun r s' => r = 1 + Z.of_nat (length F) /\ full s' (F ++ [(t, [])])) s.
Proof.
  intros [Hg Hfb] Hlen Ht. unfold mkfs_ialloc. apply wp_bind, wp_gets, wp_bind, wp_modify, wp_bind. rewrite (gd_fi _ _ Hg).
  rewrite u32_id by lia. change (s16 (xshort 1)) with 1. change (xint 0) with 0. rewrite xshort_id by lia.
  assert (s16 t = t) as -> by (unfold s16; rewrite Z.mod_small by lia; case_cond; boolify; lia).
  eapply wp_eq; [apply winode_eq; [destruct (gd_clean _ _ Hg); by split|lia]|]. apply wp_ret. split; [done|]. split; [by apply (good_ialloc Hg)|].
  cbn [freeblock set_sect set_freeinode]. rewrite Hfb, usage_app. change (usage [(t, [])]) with 0. lia.
Qed.

Lemma copy_wp s F j t c chunks : let F' := <[j := (t, c ++ concat chunks)]> F in
  full s F -> F !! j = Some (t, c) -> (length F < 207)%nat -> - 2 ^ 15 <= t < 2 ^ 15 -> len c + len (concat chunks) <= MAXFILE * B ->
  Forall is_bytes chunks -> fits F' -> wp (copy (1 + Z.of_nat j) chunks) (fun _ s' => full s' F') s.
Proof.
  revert s F c. induction chunks as [|p chunks IH]; intros s F c F' Hf Hj Hlen Ht Hmax Hb Hfit.
  - apply wp_ret. unfold F'. cbn. by rewrite app_nil_r, list_insert_id.
  - apply list.Forall_cons in Hb as [Hp Hb]. cbn [concat] in *. rewrite length_app in Hmax. apply wp_bind. eapply wp_mono.
    + apply (iappend_wp s F j t c p); try done; [lia|]. unfold fits in *. unfold F' in Hfit. rewrite (usage_insert _ _ _ _ Hj). rewrite (usage_insert _ _ _ _ Hj) in Hfit. cbn [snd] in *.
      pose proof (cost_mono (len (c ++ p)) (len (c ++ p ++ concat chunks))) as Hm. rewrite !length_app in *. lia.
    + intros [] s' Hf'. apply lookup_lt_Some in Hj as Hjl. assert (F' = <[j := (t, (c ++ p) ++ concat chunks)]> (<[j := (t, c ++ p)]> F)) as EF.
      { unfold F'. by rewrite list_insert_insert_eq, <- app_assoc. }
      rewrite EF. apply IH; try done; [by apply list_lookup_insert_eq|by rewrite length_insert|rewrite length_app; lia|by rewrite <- EF].
Qed.

(** ** The files of the command line *)

Definition contents (f : infile) : bytes := concat (default [] f.2).

(** A file that exists, of a name without a slash, and that is not too long. *)
Record file_arg (f : infile) : Prop := {
  fa_name : 47 ∉ f.1 /\ is_bytes f.1;
  fa_data : exists chunks, f.2 = Some chunks /\ Forall is_bytes chunks;
  fa_size : len (contents f) <= MAXFILE * B
}.

(** The directory entries of the files, for inode numbers from [n] on. *)
Fixpoint dir_entries (n : Z) (files : list infile) : bytes :=
  match files with
  | [] => []
  | f :: files' => mk_dirent (strip_name f.1) n ++ dir_entries (n + 1) files'
  end.
Definition copies (files : list infile) : list (Z * bytes) := (fun f => (T_FILE, contents f)) <$> files.

Definition root_data (files : list infile) : bytes := mk_dirent [46] ROOTINO ++ mk_dirent [46; 46] ROOTINO ++ dir_entries 2 files.
Definition all_files (files : list infile) : list (Z * bytes) := (T_DIR, root_data files) :: copies files.

Lemma length_mk_dirent nm n : length (mk_dirent nm n) = 16%nat.
Proof. apply dirent_fields. Qed.
Lemma dir_entries_length n files : len (dir_entries n files) = 16 * len files.
Proof. revert n. induction files as [|f files IH]; intros n; [done|]. cbn [dir_entries]. rewrite length_app, Nat2Z.inj_add, IH, length_mk_dirent. cbn [length]. lia. Qed.

Lemma is_bytes_dirent nm n : is_bytes nm -> is_bytes (mk_dirent nm n).
Proof.
  intros H. unfold mk_dirent, is_bytes, u8. apply Forall_app. split; [by repeat constructor; apply Z.mod_pos_bound|]. by apply strncpy_bytes.
Qed.
Lemma is_bytes_strip nm : is_bytes nm -> is_bytes (strip_name nm).
Proof. intros H. destruct H as [|x nm Hx H]; [constructor|]. cbn. case_cond; [done|]. by constructor. Qed.

Lemma add_files_wp files : forall s rc G,
  let F' := (T_DIR, rc ++ dir_entries (2 + len G) files) :: G ++ copies files in
  full s ((T_DIR, rc) :: G) -> Forall file_arg files -> (length F' < 206)%nat -> len rc + 16 * len files <= MAXFILE * B -> fits F' ->
  wp (add_files ROOTINO files) (fun _ s' => full s' F') s.
Proof.
  induction files as [|f files IH]; intros s rc G F' Hf Hall Hlen Hrc Hfit.
  { apply wp_ret. unfold F', copies. cbn. by rewrite !app_nil_r. }
  apply list.Forall_cons in Hall as [Hfa Hall]. destruct Hfa as [[Hsl Hnm] (chunks & Ed & Hch) Hsz]. destruct f as [name data]. cbn [fst snd] in *. subst data.
  cbn [add_files]. rewrite bool_decide_eq_false_2 by done. unfold contents in Hsz. cbn in Hsz. fold (concat chunks) in Hsz.
  set (de := mk_dirent (strip_name name) (2 + len G)).
  assert (F' = (T_DIR, (rc ++ de) ++ dir_entries (2 + len (G ++ [(T_FILE, concat chunks)])) files) :: (G ++ [(T_FILE, concat chunks)]) ++ copies files) as EF.
  { replace (2 + len (G ++ [(T_FILE, concat chunks)])) with (2 + len G + 1) by (rewrite length_app; cbn [length]; lia).
    unfold F'. cbn [dir_entries copies fmap list_fmap fst]. rewrite <- !app_assoc. done. }
  assert (len de = 16) as Hde by (unfold de; by rewrite length_mk_dirent).
  unfold F', copies in Hlen. cbn [length] in Hlen. rewrite length_app, length_fmap in Hlen. cbn [length] in Hlen, Hrc.
  assert (fits ((T_DIR, rc ++ de) :: G ++ [(T_FILE, concat chunks)])) as Hfit2.
  { unfold fits in *. rewrite EF in Hfit. rewrite usage_cons, usage_app in Hfit |- *. rewrite usage_app in Hfit. pose proof (usage_nonneg (copies files)). cbn [snd] in *.
    rewrite (length_app (rc ++ de)) in Hfit. pose proof (cost_mono (len (rc ++ de)) (len (rc ++ de) + len (dir_entries (2 + len (G ++ [(T_FILE, concat chunks)])) files)) ltac:(lia)).
    rewrite Nat2Z.inj_add in Hfit. lia. }
  apply wp_bind. eapply wp_mono; [apply (mkfs_ialloc_wp _ _ _ Hf); [cbn; lia|done]|]. intros inum s1 [-> Hf1]. cbn [length].
  rewrite xshort_id by lia. replace (1 + Z.of_nat (S (length G))) with (2 + len G) by lia. fold de.
  apply wp_bind. eapply wp_mono; [apply (iappend_wp s1 _ 0 T_DIR rc de Hf1); [done|cbn; rewrite length_app; cbn; lia|done|lia|by apply is_bytes_dirent, is_bytes_strip|]|].
  { unfold fits in *. cbn [app list_insert insert]. rewrite usage_cons, usage_app in *. change (usage [(T_FILE, [])]) with 0. rewrite usage_cons in Hfit2. cbn [snd] in *.
    pose proof (cost_nonneg (len (concat chunks)) ltac:(lia)). change (usage []) with 0 in Hfit2. lia. }
  intros [] s2 Hf2. cbn [app list_insert insert] in Hf2. apply wp_bind. replace (2 + len G) with (1 + Z.of_nat (S (length G))) by lia.
  eapply wp_mono; [apply (copy_wp s2 _ (S (length G)) T_FILE [] chunks Hf2); [|cbn; rewrite length_app; cbn; lia|done|done|done|]|].
  - by apply (list_lookup_middle G []).
  - change (<[S (length G) := (T_FILE, [] ++ concat chunks)]> ((T_DIR, rc ++ de) :: G ++ [(T_FILE, [])])) with
      ((T_DIR, rc ++ de) :: <[length G := (T_FILE, concat chunks)]> (G ++ [(T_FILE, [])])).
    rewrite insert_app_r_alt, Nat.sub_diag by done. exact Hfit2.
  - intros [] s3 Hf3. change (<[S (length G) := (T_FILE, [] ++ concat chunks)]> ((T_DIR, rc ++ de) :: G ++ [(T_FILE, [])])) with
      ((T_DIR, rc ++ de) :: <[length G := (T_FILE, concat chunks)]> (G ++ [(T_FILE, [])])) in Hf3.
    rewrite insert_app_r_alt, Nat.sub_diag in Hf3 by done. rewrite EF. apply IH; [exact Hf3|done| | |by rewrite <- EF].
    + unfold copies. cbn [length]. rewrite !length_app, length_fmap. cbn. lia.
    + rewrite length_app. lia.
Qed.

(** ** The whole program *)

Lemma zero_sects_wp k : forall s i, 0 <= i -> wp (zero_sects k i) (fun _ s' => freeinode s' = freeinode s /\ freeblock s' = freeblock s /\
  forall b, sect s' b = if decide (i <= b < i + Z.of_nat k) then zero_block else sect s b) s.
Proof.
  induction k as [|k IH]; intros s i Hi; cbn [zero_sects].
  - apply wp_ret. split_and!; [done..|]. intros b. by rewrite decide_False by lia.
  - apply wp_bind, wp_modify. eapply wp_mono; [apply IH; lia|]. cbn. intros _ s' (-> & -> & E). split_and!; [done..|].
    intros b. rewrite E. unfold zupd. repeat case_decide; try done; lia.
Qed.

Lemma sb_roundtrip : sb_of (put_sb mksb zero_block) = mksb /\ is_block (put_sb mksb zero_block).
Proof. split; [by vm_compute|]. unfold put_sb. repeat apply put32_block. apply zero_is_block. Qed.

Lemma zero_inode o : (o + 64 <= BSIZE)%nat -> d_type (get_dinode zero_block o) = 0.
Proof. intros H. unfold get_dinode, get16. cbn [d_type]. by rewrite !get8_zero by lia. Qed.

(** The empty file system. *)
Lemma full_start s : freeinode s = 1 -> freeblock s = nmeta ->
  (forall b, sect s b = if decide (b = 1) then put_sb mksb zero_block else if decide (0 <= b < FSSIZE) then zero_block else []) -> full s [].
Proof.
  intros Hi Hf HV. assert (forall b, b <> 1 -> 0 <= b < FSSIZE -> sect s b = zero_block) as Hz by (intros b H1 Hb; by rewrite HV, decide_False, decide_True).
  pose proof (eq_refl : FSSIZE = 16384) as HF. pose proof nmeta_eq. split; [|rewrite Hf; change (usage []) with 0; lia]. split; try done.
  - split; [|intros b Hb; apply Hz; lia|lia]. intros b Hb. rewrite HV. case_decide; [apply sb_roundtrip|]. rewrite decide_True by done. apply zero_is_block.
  - intros i Hi'. destruct (iblk_eq i) as [_ Hr]; [lia|]. unfold disk_inode. rewrite Hz by lia. apply zero_inode, ioff_range.
  - intros b Hb _. apply Hz; lia.
  - intros j k b Hj. cbn in Hj. lia.
Qed.

Definition arguments (files : list infile) : Prop :=
  Forall file_arg files /\ 2 + len files <= NINODES /\ fits (all_files files).

Lemma fits_root files d rest : arguments files -> root_data files = d ++ rest -> fits [(T_DIR, d)].
Proof.
  intros (_ & _ & Hu) E. unfold fits, all_files in *. rewrite usage_cons in *. cbn [snd] in *. rewrite E, length_app in Hu. pose proof (usage_nonneg (copies files)).
  pose proof (cost_mono (len d) (len d + len rest) ltac:(lia)). rewrite Nat2Z.inj_add in Hu. change (usage []) with 0. lia.
Qed.

Lemma mkfs_files_wp files : arguments files -> wp (mkfs_files files) (fun r s => r = ROOTINO /\ full s (all_files files)) fresh.
Proof.
  intros Ha. pose proof Ha as (Hall & Hn & Hu). unfold mkfs_files. apply wp_bind, wp_modify, wp_bind.
  eapply wp_mono; [apply zero_sects_wp; done|]. intros _ s1 (E1 & E2 & E3). cbn [set_freeblock freeinode freeblock sect fresh] in *. apply wp_bind, wp_modify, wp_bind.
  set (s2 := set_sect _ s1). assert (full s2 []) as H2.
  { apply full_start; [done|done|]. intros b. cbn [s2 sect set_sect]. unfold zupd. case_decide; [done|]. rewrite E3. by rewrite Z2Nat.id by done. }
  pose proof (eq_refl : MAXFILE * B = 71680) as HM. unfold NINODES in Hn.
  eapply wp_mono; [apply (mkfs_ialloc_wp _ _ _ H2); [cbn; lia|done]|]. intros r s3 [-> H3]. cbn [length]. change (1 + Z.of_nat 0) with ROOTINO. rewrite Z.eqb_refl. cbn [negb].
  change (xshort ROOTINO) with ROOTINO. apply wp_bind.
  eapply wp_mono; [apply (iappend_wp s3 _ 0 T_DIR [] (mk_dirent [46] ROOTINO) H3); [done|cbn; lia|done|rewrite length_mk_dirent; cbn; lia|apply is_bytes_dirent; by repeat constructor|]|].
  { by apply (fits_root files _ (mk_dirent [46; 46] ROOTINO ++ dir_entries 2 files)). }
  intros [] s4 H4. apply wp_bind.
  eapply wp_mono; [apply (iappend_wp s4 _ 0 T_DIR (mk_dirent [46] ROOTINO) (mk_dirent [46; 46] ROOTINO) H4); [done|cbn; lia|done|rewrite !length_mk_dirent; cbn; lia|apply is_bytes_dirent; by repeat constructor|]|].
  { apply (fits_root files _ (dir_entries 2 files)); [done|]. unfold root_data. by rewrite app_assoc. }
  intros [] s5 H5. assert (all_files files = (T_DIR, (mk_dirent [46] ROOTINO ++ mk_dirent [46; 46] ROOTINO) ++ dir_entries (2 + len (@nil (Z * bytes))) files) :: [] ++ copies files) as EF.
  { unfold all_files, root_data. by rewrite <- app_assoc. }
  rewrite EF. apply wp_bind. eapply wp_mono; [apply add_files_wp|intros [] s6 H6; by apply wp_ret]; [exact H5|done|unfold copies; cbn [length app]; rewrite length_fmap; lia|rewrite length_app, !length_mk_dirent; lia|].
  by rewrite <- EF.
Qed.

Lemma balloc_bits_used k : forall i buf b, 0 <= i -> i + Z.of_nat k <= BPB -> 0 <= b < BPB -> is_block buf ->
  is_block (balloc_bits k i buf) /\ bit_used (balloc_bits k i buf) b = bool_decide (i <= b < i + Z.of_nat k) || bit_used buf b.
Proof.
  induction k as [|k IH]; intros i buf b Hi Hk Hb Hbuf; cbn [balloc_bits].
  - by rewrite bool_decide_eq_false_2 by lia.
  - destruct (IH (i + 1) (bit_set i buf) b) as [H1 H2]; [lia|lia|done|by apply bit_set_block|]. split; [done|].
    change (balloc_bits k (i + 1) _) with (balloc_bits k (i + 1) (bit_set i buf)). rewrite H2, bit_used_set by (done || lia). rewrite orb_assoc. f_equal.
    repeat case_bool_decide; try done; lia.
Qed.

Lemma bit_zero b : 0 <= b < BPB -> bit_used zero_block b = false.
Proof.
  intros Hb. rewrite bit_used_testbit by lia. rewrite get8_zero; [apply Z.testbit_0_l|]. unfold BPB, BSIZE in *.
  assert (0 <= b / 8 < 512) by (split; [apply Z.div_pos|apply Z.div_lt_upper_bound]; lia). lia.
Qed.

(** The bitmap says which blocks are in use. *)
Lemma bitmap_used V n b : sb_bmapstart mksb = 58 -> V 58 = balloc_bits (Z.to_nat n) 0 zero_block ->
  (forall b, 59 <= b < 62 -> V b = zero_block) -> 0 <= n < BPB -> 0 <= b < FSSIZE -> used mksb V b = bool_decide (b < n).
Proof.
  intros Hs H58 Hz Hn Hb. unfold used, bmblock. rewrite Hs. pose proof (Z.mod_pos_bound b BPB ltac:(done)) as Hm. pose proof (Z.div_mod b BPB ltac:(done)) as Hd.
  unfold BPB, FSSIZE in *. assert (0 <= b / 4096 < 4) as Hq by (split; [apply Z.div_pos|apply Z.div_lt_upper_bound]; lia). destruct (decide (b / 4096 = 0)) as [E|E].
  - rewrite E, Z.add_0_r, H58. destruct (balloc_bits_used (Z.to_nat n) 0 zero_block (b mod 4096)) as [_ ->]; [lia|unfold BPB; lia|done|apply zero_is_block|].
    rewrite bit_zero, orb_false_r by done. apply bool_decide_ext. lia.
  - rewrite Hz by lia. rewrite bit_zero by done. by rewrite bool_decide_eq_false_2 by lia.
Qed.

(** ** The finished image *)

(** The blocks of inode [i], and the file as fs.c sees it. *)
Record holds V (i : Z) (d : dinode) c : Prop := {
  ho_inode : inode_of V i = d;
  ho_file : file_ok (sb := mksb) (ds := nmeta) V (d_addrs d);
  ho_mapped : mapped V (d_addrs d) 0 (len c);
  ho_bytes : bytes_at V (d_addrs d) 0 (len c) = c
}.

Record image_of V (files : list infile) : Prop := {
  im_block : forall b, 0 <= b < FSSIZE -> is_block (V b);
  im_sb : sb_of (V 1) = mksb;
  im_log : hdr_n (V (sb_logstart mksb)) = 0;
  im_used : forall b, 0 <= b < FSSIZE -> used mksb V b = bool_decide (b < nmeta + usage (all_files files));
  im_root : exists a, let n := len (root_data files) in
    holds V ROOTINO (mk_dinode T_DIR 0 0 1 ((n / B + 1) * B) a) (root_data files) /\
    (forall bn, 0 <= bn < MAXFILE -> blk V a bn <> 0 <-> bn < blocks n) /\
    (forall x, n <= x < B * blocks n -> fbyte V a x = 0);
  im_file : forall i f, files !! i = Some f -> exists a,
    holds V (2 + Z.of_nat i) (mk_dinode T_FILE 0 0 1 (len (contents f)) a) (contents f);
  im_free : forall i, 2 + len files <= i < NINODES -> d_type (inode_of V i) = 0;
  im_disj : forall i j b, ROOTINO <= i < 2 + len files -> ROOTINO <= j < 2 + len files ->
    own V (addrs_of V i) b -> own V (addrs_of V j) b -> i = j
}.

Lemma laid_holds V fb i d c : inode_of V i = d -> laid V fb (d_addrs d) (blocks (len c)) c -> nmeta <= fb <= FSSIZE ->
  (forall b, 0 <= b < FSSIZE -> used mksb V b = bool_decide (b < fb)) -> holds V i d c.
Proof.
  intros Hi Hla Hfb Hu. pose proof Hla as [L1 L2 L3 L4 L5 L6 L7 L8 L9 L10]. split; [done|..].
  - split; [done| |done|done]. intros b Hb. apply L5 in Hb. change (sb_size mksb) with FSSIZE. rewrite nmeta_eq in *. split; [lia|].
    rewrite Hu by lia. apply bool_decide_eq_true_2. lia.
  - intros x Hx. assert (0 <= x / B < blocks (len c)) by (apply file_index; lia). apply L3; lia.
  - apply list_eq. intros k. destruct (decide (k < length c)%nat) as [Hk|Hk].
    + rewrite bytes_at_Some by lia. rewrite L9 by lia. rewrite Z.add_0_l, Nat2Z.id. symmetry. by apply list_lookup_lookup_total_lt.
    + rewrite !lookup_ge_None_2; [done|lia|rewrite bytes_at_length; lia].
Qed.

Section Finish.
Context {s : image} {files : list infile}.
Context (Ha : arguments files) (Hu : nmeta + usage (all_files files) < B * 8) (Hs : full s (all_files files)).
Let n := len (root_data files).
Let d0 := inode_of (sect s) ROOTINO.
Let d1 := mk_dinode T_DIR 0 0 1 ((n / B + 1) * B) (d_addrs d0).
Let fb := nmeta + usage (all_files files).
Let V1 := put_inode (sb := mksb) (sect s) ROOTINO d1.
Let V2 := zupd V1 (sb_bmapstart mksb) (balloc_bits (Z.to_nat fb) 0 zero_block).

Lemma fin_fb : nmeta <= fb < BPB.
Proof. pose proof (usage_nonneg (all_files files)). unfold fb. change BPB with (B * 8). lia. Qed.
Lemma fin_root : n = 32 + 16 * len files /\ len files <= 198.
Proof.
  destruct Ha as (_ & H & _). unfold NINODES in H. unfold n, root_data. rewrite !length_app, !length_mk_dirent, !Nat2Z.inj_add, dir_entries_length. lia.
Qed.
Lemma fin_inodes : length (all_files files) = S (length files).
Proof. unfold all_files, copies. cbn [length]. by rewrite length_fmap. Qed.

Lemma fin_data b : nmeta <= b -> V2 b = sect s b.
Proof.
  intros Hb. destruct (iblk_eq ROOTINO) as [_ Hr]; [done|]. rewrite nmeta_eq in Hb. unfold V2, V1, put_inode.
  rewrite !zupd_ne; [done|lia|rewrite mksb_eq; cbn; lia].
Qed.
Lemma fin_meta b : b <> 58 -> b < 32 \/ 58 <= b -> V2 b = sect s b.
Proof.
  intros Hb H. destruct (iblk_eq ROOTINO) as [_ Hr]; [done|]. unfold V2, V1, put_inode. change (sb_bmapstart mksb) with 58. by rewrite !zupd_ne by lia.
Qed.
Lemma fin_inode i : 0 <= i < 208 -> inode_of V2 i = inode_of V1 i.
Proof. intros Hi. destruct (iblk_eq i Hi) as [_ Hr]. unfold disk_inode, V2. rewrite zupd_ne; [done|]. change (sb_bmapstart mksb) with 58. lia. Qed.
Lemma fin_other i : 0 <= i < 208 -> i <> ROOTINO -> inode_of V2 i = inode_of (sect s) i.
Proof. intros Hi Hne. rewrite fin_inode by done. by apply disk_inode_other; [|lia|]. Qed.

Lemma fin_self : inode_of V2 ROOTINO = d1.
Proof.
  destruct Hs as [Hg Hf]. rewrite fin_inode by done. destruct (iblk_eq ROOTINO) as [_ Hr]; [done|]. apply disk_inode_put.
  - apply (cl_block _ (gd_clean _ _ Hg)). unfold FSSIZE. lia.
  - destruct (gd_file _ _ Hg 0 T_DIR _ eq_refl) as [E Hla]. pose proof fin_root. eapply dinode_laid; [done| |exact Hla|apply (cl_fb _ (gd_clean _ _ Hg))].
    assert (0 <= n / B < 2 ^ 20) by (rewrite B_eq; split; [apply Z.div_pos|apply Z.div_lt_upper_bound]; lia). rewrite B_eq in *. lia.
Qed.

Lemma fin_addrs i : 0 <= i < 208 -> addrs_of V2 i = addrs_of (sect s) i.
Proof. intros Hi. destruct (decide (i = ROOTINO)) as [->|Hne]; [by rewrite fin_self|]. by rewrite fin_other. Qed.

Lemma fin_used b : 0 <= b < FSSIZE -> used mksb V2 b = bool_decide (b < fb).
Proof.
  intros Hb. apply bitmap_used; [done| | |pose proof fin_fb; rewrite nmeta_eq in *; lia|done].
  - unfold V2. change (sb_bmapstart mksb) with 58. apply zupd_eq.
  - intros x Hx. rewrite fin_meta by lia. apply (gd_zero _ _ (proj1 Hs)); [rewrite nmeta_eq; lia|]. rewrite mksb_eq. cbn. lia.
Qed.

Lemma fin_laid j t c : all_files files !! j = Some (t, c) -> laid V2 fb (addrs_of (sect s) (1 + Z.of_nat j)) (blocks (len c)) c.
Proof.
  intros Hj. destruct Hs as [Hg Hf]. destruct (gd_file _ _ Hg _ _ _ Hj) as [_ Hla]. unfold fb. rewrite <- Hf. eapply laid_meta; [|exact Hla].
  exact fin_data.
Qed.
Lemma fin_own i b : ROOTINO <= i < 2 + len files -> own V2 (addrs_of V2 i) b <-> own (sect s) (addrs_of (sect s) i) b.
Proof.
  intros Hi. pose proof fin_root. pose proof fin_inodes as Hl. unfold ROOTINO in Hi. rewrite fin_addrs by lia. destruct Hs as [Hg Hf].
  destruct (lookup_lt_is_Some_2 (all_files files) (Z.to_nat (i - 1))) as [[t c] Hj]; [rewrite Hl; lia|].
  destruct (gd_file _ _ Hg _ _ _ Hj) as [_ Hla]. replace (1 + Z.of_nat (Z.to_nat (i - 1))) with i in Hla by lia.
  eapply laid_meta; [exact fin_data|exact Hla].
Qed.

Lemma fin_image : image_of V2 files.
Proof.
  pose proof fin_root as [Hn Hlen]. pose proof fin_fb as Hfb. pose proof (proj1 Hs) as Hg. pose proof nmeta_eq as Hnm. pose proof fin_inodes as Hl.
  assert (nmeta <= fb <= FSSIZE) as Hfb' by (unfold BPB, FSSIZE in *; lia). split.
  - intros b Hb. unfold V2, zupd. case_decide; [apply (balloc_bits_used _ _ _ 0); [done|unfold BPB in *; lia|done|apply zero_is_block]|].
    by apply (clean_inode s ROOTINO d1 (gd_clean _ _ Hg)).
  - rewrite fin_meta, (gd_sb _ _ Hg) by lia. apply sb_roundtrip.
  - change (sb_logstart mksb) with 2. rewrite fin_meta, (gd_zero _ _ Hg); [by vm_compute|lia|rewrite mksb_eq; cbn; lia|lia|lia].
  - apply fin_used.
  - exists (d_addrs d0). pose proof (fin_laid 0 T_DIR _ eq_refl) as Hla. split; [|split; [apply (la_map _ _ _ _ _ Hla)|apply (la_tail _ _ _ _ _ Hla)]].
    apply (laid_holds _ fb); [apply fin_self|exact Hla|done|exact fin_used].
  - intros i f Hf. assert (all_files files !! S i = Some (T_FILE, contents f)) as Hi by (change (copies files !! i = Some (T_FILE, contents f)); unfold copies; by rewrite list_lookup_fmap, Hf).
    pose proof (fin_laid _ _ _ Hi) as Hla. destruct (gd_file _ _ Hg _ _ _ Hi) as [E _]. apply lookup_lt_Some in Hf.
    replace (1 + Z.of_nat (S i)) with (2 + Z.of_nat i) in * by lia. exists (addrs_of (sect s) (2 + Z.of_nat i)).
    apply (laid_holds _ fb); [|exact Hla|done|exact fin_used]. rewrite fin_other by (unfold ROOTINO; lia). done.
  - intros i Hi. unfold NINODES in Hi. rewrite fin_other by (unfold ROOTINO; lia). apply (gd_free _ _ Hg). rewrite (gd_fi _ _ Hg), Hl. lia.
  - intros i j b Hi Hj Oi Oj. apply (proj1 (fin_own i b Hi)) in Oi. apply (proj1 (fin_own j b Hj)) in Oj. unfold ROOTINO in Hi, Hj.
    assert (Z.to_nat (i - 1) = Z.to_nat (j - 1)) as E; [|lia]. apply (gd_disj _ _ Hg _ _ b); [rewrite Hl; lia|rewrite Hl; lia|..].
    + by replace (1 + Z.of_nat (Z.to_nat (i - 1))) with i by lia.
    + by replace (1 + Z.of_nat (Z.to_nat (j - 1))) with j by lia.
Qed.
End Finish.

Lemma mkfs_runs files : arguments files ->
  if decide (nmeta + usage (all_files files) < B * 8) then wp (mkfs files) (fun _ s => image_of (sect s) files) fresh
  else mkfs files fresh = Panic "assert".
Proof.
  intros Ha. destruct (wp_elim _ _ _ (mkfs_files_wp files Ha)) as (r & s & E & -> & Hs).
  destruct (gd_file _ _ (proj1 Hs) 0 T_DIR _ eq_refl) as [Ed Hla]. change (1 + Z.of_nat 0) with ROOTINO in *. pose proof (gd_clean _ _ (proj1 Hs)) as Hc.
  set (n := len (root_data files)). assert (n = 32 + 16 * len files /\ len files <= 198) as [Hn Hlen] by exact (fin_root Ha).
  assert (0 <= n / B < 2 ^ 20) as Hq by (rewrite B_eq; split; [apply Z.div_pos|apply Z.div_lt_upper_bound]; lia). pose proof B_eq as HB. pose proof nmeta_eq as Hnm.
  pose proof Ha as (Hall & Hi & Hfit). unfold fits in Hfit. pose proof (usage_nonneg (all_files files)) as Hus. pose proof (proj2 Hs) as Hfb. pose proof (eq_refl : FSSIZE = 16384) as HF.
  set (d1 := mk_dinode T_DIR 0 0 1 ((n / B + 1) * B) (addrs_of (sect s) ROOTINO)).
  pose proof (rinode_eq s ROOTINO Hc ltac:(unfold ROOTINO; lia)) as E1. pose proof (winode_eq s ROOTINO d1 Hc ltac:(unfold ROOTINO; lia)) as E2.
  assert (mkfs files fresh = mkfs_balloc (nmeta + usage (all_files files)) (set_sect (put_inode (sb := mksb) (sect s) ROOTINO d1) s)) as Er.
  { unfold mkfs. rewrite (kbind_ok _ _ _ _ _ E). rewrite (kbind_ok _ _ _ _ _ E1).
    rewrite Ed. cbn [d_type d_major d_minor d_nlink d_size d_addrs]. fold n. rewrite (xint_id n), u32_id, xint_id by lia.
    fold d1. rewrite (kbind_ok _ _ _ _ _ E2). unfold kbind, gets. cbn [freeblock set_sect].
    rewrite Hfb, s32_id by lia. reflexivity. }
  clear E E1 E2.
  case_decide as D.
  - unfold wp. rewrite Er. unfold mkfs_balloc. rewrite (proj2 (Z.ltb_lt _ _) D). cbn [negb]. unfold wsect, modify. cbn [sect set_sect].
    exact (fin_image Ha D Hs).
  - rewrite Er. unfold mkfs_balloc. rewrite (proj2 (Z.ltb_ge _ _)) by lia. reflexivity.
Qed.

(** ** The kernel reads the image *)

(** [W] is what the kernel finds on a disk that holds the image [V]. *)
Section Agree.
Context {V W : Z -> bytes} {a : list Z}.
Context (HW : forall b, 0 <= b < FSSIZE -> W b = V b) (Hok : file_ok (sb := mksb) (ds := nmeta) V a).

Lemma ag_own b : own V a b -> W b = V b.
Proof. intros H. apply HW. destruct (fo_own _ _ Hok b H) as [Hr _]. change (sb_size mksb) with FSSIZE in Hr. rewrite nmeta_eq in Hr. lia. Qed.
Lemma ag_blk bn : blk W a bn = blk V a bn.
Proof. apply blk_frame. intros H. by apply ag_own, own_ind. Qed.
Lemma ag_used b : 0 <= b < FSSIZE -> used mksb W b = used mksb V b.
Proof.
  intros Hb. unfold used, bmblock. rewrite HW; [done|]. change (sb_bmapstart mksb) with 58. unfold BPB, FSSIZE in *.
  assert (0 <= b / 4096 < 4) by (split; [apply Z.div_pos|apply Z.div_lt_upper_bound]; lia). lia.
Qed.
Lemma ag_ok : file_ok (sb := mksb) (ds := nmeta) W a.
Proof.
  pose proof Hok as [K1 K2 K3 K4]. split; [done|..].
  - intros b Hb. apply (own_frame V W) in Hb; [|intros Hn; by apply ag_own, own_ind]. destruct (K2 b Hb) as [Hr Hu]. split; [done|]. rewrite ag_used; [done|].
    change (sb_size mksb) with FSSIZE in Hr. rewrite nmeta_eq in Hr. lia.
  - intros bn. rewrite ag_blk. apply K3.
  - intros bn bn'. rewrite !ag_blk. apply K4.
Qed.
Lemma ag_mapped n : mapped V a 0 n -> mapped W a 0 n.
Proof. intros H x Hx. rewrite ag_blk. by apply H. Qed.
Lemma ag_byte x : 0 <= x < MAXFILE * B -> fbyte W a x = fbyte V a x.
Proof.
  intros Hx. unfold fbyte, fdata. rewrite ag_blk. destruct (blk V a (x / B) =? 0) eqn:E; [done|]. boolify. rewrite ag_own; [done|].
  apply own_at; [by apply block_index|done].
Qed.
Lemma ag_bytes off n : 0 <= off -> off + n <= MAXFILE * B -> bytes_at W a off n = bytes_at V a off n.
Proof.
  intros Ho Hn. unfold bytes_at. apply list_fmap_ext. intros k x Hk. apply lookup_seq in Hk as [-> Hk]. apply ag_byte. lia.
Qed.
End Agree.

Lemma bytes_at_slice V a n c off m : bytes_at V a 0 n = c -> 0 <= off -> 0 <= m -> off + m <= n -> bytes_at V a off m = slice (Z.to_nat off) (Z.to_nat m) c.
Proof.
  intros <- Ho Hm Hn. unfold slice. rewrite (bytes_at_app V a 0 off n) by lia. rewrite drop_app_length' by (by rewrite bytes_at_length).
  rewrite Z.add_0_l, (bytes_at_app V a off m (n - off)) by lia. by rewrite take_app_length' by (by rewrite bytes_at_length).
Qed.

Section Kernel.
Context {S : Type} {HIO : BlockIO S} {HL : BlockLaws S}.
Context (dev_read : Z -> option (nat -> Z -> M (fs S) (Z * bytes))).

(** What a read of [n] bytes from [off] on in a file [c] returns. *)
Definition read_result c (off n : Z) : Z * bytes :=
  if len c <? off then (-1, []) else let m := Z.min n (len c - off) in (m, slice (Z.to_nat off) (Z.to_nat m) c).

Lemma image_readi V files i f (g : fs S) k ip W X off n :
  image_of V files -> Forall file_arg files -> files !! i = Some f -> geom mksb nmeta -> ist (sb := mksb) (ds := nmeta) g k ip W X ->
  (forall b, 0 <= b < FSSIZE -> W b = V b) -> dinode_of ip = inode_of V (2 + Z.of_nat i) ->
  0 <= off -> 0 <= n -> off + n < 2 ^ 32 -> (length X < IO_BUFS)%nat ->
  wp (readi dev_read k off n) (fun r _ => r = read_result (contents f) off n) g.
Proof.
  intros HI Hall Hi G Hist HW Hd Ho Hn Hov HX. destruct (im_file _ _ HI i f Hi) as [a [E Hok Hm Hb]]. rewrite E in Hd. cbn [d_addrs] in *.
  rewrite list.Forall_lookup in Hall. destruct (Hall i f Hi) as [_ _ Hsz]. unfold dinode_of in Hd. injection Hd as Ht _ _ _ Es Ea.
  assert (file_inode (sb := mksb) (ds := nmeta) W ip) as Hfi.
  { split; [rewrite Ea; by apply (ag_ok HW)|by rewrite Ht|rewrite Es; lia|rewrite Es, Ea; by apply (ag_mapped HW)]. }
  eapply wp_mono; [by apply (readi_wp G dev_read g k ip W X off n)|]. intros r g' (d & -> & _ & Hr). unfold read_result. rewrite <- Es.
  destruct (i_size ip <? off) eqn:El; boolify; [done|]. rewrite Hr. f_equal. rewrite Ea, (ag_bytes HW Hok) by lia. apply bytes_at_slice with (len (contents f)); [done|lia..].
Qed.
End Kernel.

(** The slots of the root directory: names and inode numbers. *)
Fixpoint file_slots (n : Z) (files : list infile) : list (bytes * Z) :=
  match files with
  | [] => []
  | f :: files' => (strip_name f.1, n) :: file_slots (n + 1) files'
  end.
Definition root_slots (files : list infile) : list (bytes * Z) := ([46], ROOTINO) :: ([46; 46], ROOTINO) :: file_slots 2 files.

Lemma root_concat files : root_data files = concat ((fun e => mk_dirent e.1 e.2) <$> root_slots files).
Proof.
  unfold root_data, root_slots. rewrite !fmap_cons. cbn [concat fst snd]. do 2 f_equal. generalize 2. induction files as [|f files IH]; intros n; [done|].
  cbn [file_slots dir_entries]. rewrite fmap_cons. cbn [concat]. by rewrite IH.
Qed.
Lemma concat_slice (L : list bytes) k e : (forall x, x ∈ L -> length x = 16%nat) -> L !! k = Some e -> slice (16 * k) 16 (concat L) = e.
Proof.
  revert k. induction L as [|x L IH]; intros k HL Hk; [done|]. assert (length x = 16%nat) as Hx by (apply HL, list_elem_of_here). cbn [concat]. unfold slice. destruct k as [|k].
  - injection Hk as ->. rewrite Nat.mul_0_r, drop_0, take_app_length' by done. done.
  - replace (16 * S k)%nat with (length x + 16 * k)%nat by lia. rewrite <- drop_drop, drop_app_length. apply IH; [|done]. intros y Hy. apply HL. by apply list_elem_of_further.
Qed.
Lemma file_slots_length n files : length (file_slots n files) = length files.
Proof. revert n. induction files as [|f files IH]; intros n; [done|]. cbn. by rewrite IH. Qed.
Lemma file_slots_lookup files : forall n i f, files !! i = Some f -> file_slots n files !! i = Some (strip_name f.1, n + Z.of_nat i).
Proof.
  induction files as [|g files IH]; intros n [|i] f Hi; try done; cbn in Hi |- *.
  - injection Hi as ->. by rewrite Z.add_0_r.
  - etrans; [exact (IH (n + 1) i f Hi)|]. do 2 f_equal. lia.
Qed.

Section Root.
Context {V W : Z -> bytes} {files : list infile} {ip : inode}.
Context (HI : image_of V files) (Hlen : 2 + len files <= NINODES) (Hpart : (2 + len files) mod 32 <> 0).
Context (HW : forall b, 0 <= b < FSSIZE -> W b = V b) (Hd : dinode_of ip = inode_of V ROOTINO).

Lemma root_length : len (root_data files) = 16 * (2 + len files).
Proof. unfold root_data. rewrite !length_app, !length_mk_dirent, !Nat2Z.inj_add, dir_entries_length. lia. Qed.

Lemma root_size n : n = 16 * (2 + len files) -> (n / B + 1) * B = B * blocks n /\ n < (n / B + 1) * B <= 4096 /\ ((n / B + 1) * B) mod 16 = 0.
Proof. clear - Hlen Hpart. intros ->. unfold blocks, NINODES in *. rewrite B_eq in *. Z.to_euclidean_division_equations. lia. Qed.

Lemma root_dir : dir_inode (sb := mksb) (ds := nmeta) W ip /\ i_size ip > len (root_data files) /\
  forall j e, root_slots files !! j = Some e -> entry W ip j = mk_dirent e.1 e.2.
Proof.
  destruct (im_root _ _ HI) as (a & [E Hok Hm Hb] & Hmap & _). pose proof root_length as Hr. set (n := len (root_data files)) in *. clearbody n.
  rewrite E in Hd. unfold dinode_of in Hd. injection Hd as Ht _ _ _ Es Ea. cbn [d_addrs] in *.
  destruct (root_size n Hr) as (E1 & E2 & E3). split; [split; [split|..]|split].
  - rewrite Ea. by apply (ag_ok HW).
  - by rewrite Ht.
  - rewrite Es. change (MAXFILE * B) with 71680. lia.
  - rewrite Es, Ea. apply (ag_mapped HW Hok). intros x Hx. rewrite E1 in Hx. apply file_index in Hx. apply Hmap; [|lia].
    assert (blocks n <= 8) by (rewrite B_eq in *; lia). unfold MAXFILE, NDIRECT, NINDIRECT. lia.
  - done.
  - by rewrite Es.
  - rewrite Es. lia.
  - intros j e Hj. apply lookup_lt_Some in Hj as Hl. unfold root_slots in Hl. cbn [length] in Hl. rewrite file_slots_length in Hl.
    unfold entry. rewrite Ea, (ag_bytes HW Hok) by (change (MAXFILE * B) with 71680; unfold NINODES in Hlen; lia).
    rewrite (bytes_at_slice V a n (root_data files)) by (done || lia). rewrite root_concat.
    replace (Z.to_nat (16 * Z.of_nat j)) with (16 * j)%nat by lia. apply concat_slice; [|by rewrite list_lookup_fmap, Hj].
    intros x (y & -> & _)%list_elem_of_fmap. apply length_mk_dirent.
Qed.

(** The name of a file leads to its inode. *)
Lemma root_find i f : NoDup (cn <$> (root_slots files).*1) -> files !! i = Some f ->
  list_find (is_entry (strip_name f.1)) (entries W ip) = Some (S (S i), mk_dirent (strip_name f.1) (2 + Z.of_nat i)).
Proof.
  intros Hnd Hi. destruct root_dir as (Hdir & Hsz & He). pose proof (dir_count W ip Hdir) as Hc. pose proof root_length as Hr.
  assert (i < length files)%nat as Hil by (by eapply lookup_lt_Some).
  assert (root_slots files !! S (S i) = Some (strip_name f.1, 2 + Z.of_nat i)) as Hs by (by apply file_slots_lookup).
  assert (forall j e, root_slots files !! j = Some e -> entries W ip !! j = Some (mk_dirent e.1 e.2)) as Hent.
  { intros j e Hj. rewrite entries_lookup; [by rewrite (He _ _ Hj)|]. apply lookup_lt_Some in Hj. unfold root_slots in Hj. cbn [length] in Hj. rewrite file_slots_length in Hj. lia. }
  apply list_find_Some. split; [by apply (Hent _ _ Hs)|]. unfold NINODES in Hlen. split.
  - apply is_entry_iff. destruct (dirent_fields (strip_name f.1) (2 + Z.of_nat i)) as (_ & -> & ->). split; [unfold u16; rewrite Z.mod_small; lia|]. apply cn_idemp.
  - intros j y Hj Hlt. destruct (lookup_lt_is_Some_2 (root_slots files) j) as [e Hje]; [apply lookup_lt_Some in Hs; lia|].
    rewrite (Hent _ _ Hje) in Hj. injection Hj as <-. rewrite is_entry_iff. destruct (dirent_fields e.1 e.2) as (_ & _ & ->). intros [_ Hcn].
    fold (cn e.1) in Hcn. rewrite cn_idemp in Hcn. assert (j = S (S i)); [|lia].
    apply (NoDup_lookup _ j (S (S i)) (cn e.1) Hnd); rewrite !list_lookup_fmap; [by rewrite Hje|by rewrite Hs, Hcn].
Qed.
End Root.

(** ** Properties *)

(** C17: mkfs, given files that exist, with names without a slash and not
    larger than a file can be, stops at its assertion when they do not fit
    the first bitmap block; otherwise it writes an image that the kernel can
    mount: the superblock and an empty log, a bitmap that marks exactly the
    metadata and the blocks of the files, the root directory with an entry
    for every file, and for every file an inode whose blocks, all its own,
    hold the bytes of the file; all other inodes are free. *)
Theorem mkfs_correct files : arguments files ->
  if decide (nmeta + usage (all_files files) < B * 8) then exists s, mkfs files fresh = Ok tt s /\ image_of (sect s) files
  else mkfs files fresh = Panic "assert".
Proof.
  intros Ha. pose proof (mkfs_runs files Ha) as H. case_decide; [|exact H]. destruct (wp_elim _ _ _ H) as ([] & s & E & HI). exists s. split; [exact E|exact HI].
Qed.

Section Mounted.
Context {S : Type} {HIO : BlockIO S} {HL : BlockLaws S}.
Context (dev_read : Z -> option (nat -> Z -> M (fs S) (Z * bytes))).

(** The kernel runs on a disk with the image [V] and has loaded inode [i]
    into entry [k] of its inode cache. *)
Definition loaded V (i : Z) (g : fs S) (k : nat) : Prop := exists ip W X,
  ist (sb := mksb) (ds := nmeta) g k ip W X /\ (forall b, 0 <= b < FSSIZE -> W b = V b) /\ dinode_of ip = inode_of V i /\ (length X < IO_BUFS)%nat.

(** C16: what mkfs stores is what the kernel reads.  On a disk with the image,
    [readi] of the inode of a file returns the bytes the file had on the
    host, and [dirlookup] of its name in the root directory leads to that
    inode, provided that the first fourteen bytes of the names differ and that
    the entries do not exactly fill the last block of the directory. *)
Theorem mkfs_roundtrip files i f : arguments files -> nmeta + usage (all_files files) < B * 8 -> files !! i = Some f -> geom mksb nmeta ->
  exists s, mkfs files fresh = Ok tt s /\
  (forall g k off n, loaded (sect s) (2 + Z.of_nat i) g k -> 0 <= off -> 0 <= n -> off + n < 2 ^ 32 ->
    wp (readi dev_read k off n) (fun r _ => r = read_result (contents f) off n) g) /\
  (forall g k, loaded (sect s) ROOTINO g k -> NoDup (cn <$> (root_slots files).*1) -> (2 + len files) mod 32 <> 0 ->
    exists d, dirlookup dev_read k (strip_name f.1) g =
      (m <- iget ROOTDEV (2 + Z.of_nat i) ;; kret (Some (m, 16 * (2 + Z.of_nat i)))) (set_dev d g)).
Proof.
  intros Ha Hu Hi G. pose proof (mkfs_runs files Ha) as H. rewrite decide_True in H by exact Hu. destruct (wp_elim _ _ _ H) as ([] & s & E & HI).
  exists s. split; [exact E|]. clear H E. destruct Ha as (Hall & Hn & _). split.
  - intros g k off n (ip & W & X & Hist & HW & Hd & HX) Ho Hn0 Hov. by eapply image_readi.
  - intros g k (ip & W & X & Hist & HW & Hd & HX) Hnd Hpart. destruct (root_dir HI Hn Hpart HW Hd) as [Hdir _].
    destruct (dirlookup_eq G dev_read g k ip W X (strip_name f.1) Hist Hdir HX) as (d & _ & E). exists d. rewrite E.
    rewrite (root_find HI Hn Hpart HW Hd i f Hnd Hi). rewrite (is_dev _ _ _ _ _ Hist). assert (i < length files)%nat as Hil by (by eapply lookup_lt_Some).
    destruct (dirent_fields (strip_name f.1) (2 + Z.of_nat i)) as (_ & -> & _). unfold NINODES in Hn. unfold u16. rewrite Z.mod_small by lia.
    by replace (Z.of_nat (Datatypes.S (Datatypes.S i))) with (2 + Z.of_nat i) by lia.
Qed.
End Mounted.

(** ** An example: one file, _a, with the bytes hi *)

Definition demo_arg : infile := ([95; 97], Some [[104; 105]]).

Lemma demo_arguments : arguments [demo_arg] /\ nmeta + usage (all_files [demo_arg]) < B * 8.
Proof.
  assert (file_arg demo_arg) as Hf.
  { split; [split; [by apply (bool_decide_unpack _)|by repeat constructor]|exists [[104; 105]]; split; [done|by repeat constructor]|by vm_compute]. }
  split; [|by vm_compute]. split; [by apply Forall_cons; [exact Hf|apply Forall_nil]|]. split; by vm_compute.
Qed.

Lemma mkfs_geom : geom (HL := fdev_laws 2) mksb nmeta.
Proof.
  split; [by vm_compute|by vm_compute|by vm_compute|]. intros b Hb. rewrite mksb_eq in Hb. cbn in Hb.
  split; [unfold FSSIZE; lia|]. unfold outside, LOGSIZE, MAXOPBLOCKS. lia.
Qed.

(** A disk of [n] blocks with the image [V] in the kernel's model, and the
    kernel with inode [i] in its cache. *)
Definition disk_of V (n : nat) : gmap (Z * Z) bytes := list_to_map ((fun b => ((1, Z.of_nat b), V (Z.of_nat b))) <$> seq 0 n).
Definition cached (i : Z) (d : dinode) : inode :=
  mk_inode ROOTDEV i 1 initsleeplock true (d_type d) (d_major d) (d_minor d) (d_nlink d) (d_size d) (d_addrs d).
Definition mounted V (n : nat) (i : Z) : fs fdev :=
  mk_fs (boot_dev (disk_of V n)) mksb (cached i (inode_of V i) :: replicate 49 (set_i_ref 0 (demo_inode 0))) 1 0 ∅.

Lemma disk_of_lookup V n b : 0 <= b < Z.of_nat n -> disk_of V n !! (1, b) = Some (V b).
Proof.
  intros Hb. unfold disk_of. apply elem_of_list_to_map_1.
  - rewrite <- list_fmap_compose. apply NoDup_fmap; [|apply NoDup_seq]. intros x y E. cbn in E. injection E. lia.
  - apply list_elem_of_fmap. exists (Z.to_nat b). rewrite Z2Nat.id by lia. split; [done|]. apply elem_of_seq. lia.
Qed.
Lemma disk_of_inv V n k x : disk_of V n !! k = Some x -> exists b, 0 <= b < Z.of_nat n /\ x = V b.
Proof.
  intros H. apply elem_of_list_to_map_2, list_elem_of_fmap in H as (m & [= _ ->] & Hm). exists (Z.of_nat m). split; [|done]. apply elem_of_seq in Hm. lia.
Qed.

Lemma image_loaded V files n i : Z.of_nat n = FSSIZE -> image_of V files -> loaded (HL := fdev_laws 2) V i (mounted V n i) 0.
Proof.
  intros Hn HI. set (W := fun b => default zero_block (disk_of V n !! (1, b))).
  assert (forall b, 0 <= b < FSSIZE -> W b = V b) as HW by (intros b Hb; unfold W; rewrite disk_of_lookup by lia; done).
  exists (cached i (inode_of V i)), W, []. split; [|split; [exact HW|split; [by destruct (inode_of V i)|cbn; unfold IO_BUFS; lia]]].
  split; [done|done|done| |].
  - split; [|by intros ? ? ?%elem_of_nil|apply NoDup_nil_2]. exists []. split; [|split; [apply NoDup_nil_2|done]].
    apply boot_in_tx; [|fold (W 2); rewrite HW by done; exact (im_log _ _ HI)].
    intros k x (b & Hb & ->)%disk_of_inv. apply (im_block _ _ HI). lia.
  - intros c Hc. rewrite nmeta_eq in Hc. rewrite (ag_used HW), (im_used _ _ HI) by (unfold FSSIZE; lia).
    apply bool_decide_eq_true_2. pose proof (usage_nonneg (all_files files)). rewrite nmeta_eq. lia.
Qed.

Lemma demo_image : exists s, mkfs [demo_arg] fresh = Ok tt s /\ image_of (sect s) [demo_arg].
Proof.
  pose proof (mkfs_runs [demo_arg] (proj1 demo_arguments)) as H. rewrite decide_True in H by exact (proj2 demo_arguments).
  destruct (wp_elim _ _ _ H) as ([] & s & E & HI). exists s. split; [exact E|exact HI].
Qed.

Lemma mkfs_correct_witness : exists s, mkfs [demo_arg] fresh = Ok tt s /\ image_of (sect s) [demo_arg].
Proof.
  pose proof (mkfs_correct [demo_arg] (proj1 demo_arguments)) as H. rewrite decide_True in H by exact (proj2 demo_arguments). exact H.
Defined.

Lemma demo_roots : NoDup (cn <$> (root_slots [demo_arg]).*1) /\ (2 + len [demo_arg]) mod 32 <> 0.
Proof. split; [apply (bool_decide_unpack _); by vm_compute|by vm_compute]. Qed.

Lemma mkfs_roundtrip_witness : exists s, mkfs [demo_arg] fresh = Ok tt s /\
  (exists g, readi no_read 0 0 100 (mounted (sect s) (Z.to_nat FSSIZE) 2) = Ok (2, [104; 105]) g) /\
  exists d, dirlookup no_read 0 [97] (mounted (sect s) (Z.to_nat FSSIZE) 1) = (m <- iget ROOTDEV 2 ;; kret (Some (m, 32))) (set_dev d (mounted (sect s) (Z.to_nat FSSIZE) 1)).
Proof.
  assert (Z.of_nat (Z.to_nat FSSIZE) = FSSIZE) as Hsz by (apply Z2Nat.id; unfold FSSIZE; lia). destruct demo_image as (s0 & E0 & HI).
  destruct (mkfs_roundtrip (HL := fdev_laws 2) no_read [demo_arg] 0 demo_arg (proj1 demo_arguments) (proj2 demo_arguments) eq_refl mkfs_geom) as (s & E & Hr & Hl).
  assert (s0 = s) as -> by congruence. exists s. split; [exact E|]. clear E E0. split.
  - destruct (wp_elim _ _ _ (Hr (mounted (sect s) (Z.to_nat FSSIZE) 2) 0%nat 0 100 (image_loaded _ _ _ 2 Hsz HI) ltac:(lia) ltac:(lia) ltac:(lia))) as (r & g & E & ->). exists g. exact E.
  - destruct (Hl (mounted (sect s) (Z.to_nat FSSIZE) 1) 0%nat (image_loaded _ _ _ 1 Hsz HI) (proj1 demo_roots) (proj2 demo_roots)) as (d & E). exists d. exact E.
Defined.

(** With thirty files the entries fill one block exactly, and the size that
    mkfs gives the root directory covers a block that does not exist. *)
Lemma mkfs_root_hole V files : image_of V files -> 2 + len files <= NINODES -> (2 + len files) mod 32 = 0 ->
  let d := inode_of V ROOTINO in exists bn, (bn + 1) * B = d_size d /\ blk V (d_addrs d) bn = 0.
Proof.
  intros HI Hn Hm d. destruct (im_root _ _ HI) as (a & [E _ _ _] & Hmap & _). pose proof (root_length (files := files)) as Hr. set (n := len (root_data files)) in *.
  unfold d. rewrite E. cbn [d_size d_addrs]. exists (n / B). split; [done|]. destruct (decide (blk V a (n / B) = 0)) as [|H]; [done|]. exfalso.
  assert (n / B = blocks n /\ 0 <= n / B < 100) as [Eb Hb].
  { clearbody n. subst n. unfold blocks, NINODES in *. rewrite B_eq. Z.to_euclidean_division_equations. lia. }
  apply Hmap in H; [lia|unfold MAXFILE, NDIRECT, NINDIRECT; lia].
Qed.
