(* ===== verification/Grep.v ===== *)
(** * The pattern matcher of grep (grep.c)

    Strings are lists of characters without their terminating 0.  The matcher
    is compared with the usual meaning of the regular expression that the
    pattern denotes; the loop of [grep] over its buffer is run on the pieces
    that the successive calls of [read] return. *)

From S2P Require Import Prelude.

Definition CARET : Z := 94.
Definition STAR : Z := 42.
Definition DOLLAR : Z := 36.
Definition DOT : Z := 46.
Definition NL : Z := 10.

(** ** The matcher *)

(** [matchstar c re text], where [here] is [matchhere re]. *)
Fixpoint matchstar (here : list Z -> bool) (c : Z) (text : list Z) : bool :=
  here text ||
  match text with
  | [] => false
  | t :: text' => if (t =? c) || (c =? DOT) then matchstar here c text' else false
  end.

Fixpoint matchhere (re text : list Z) : bool :=
  match re with
  | [] => true
  | c :: re1 =>
      let plain :=
        if (c =? DOLLAR) && match re1 with [] => true | _ => false end
        then match text with [] => true | _ => false end
        else
          match text with
          | [] => false
          | t :: text' => if (c =? DOT) || (c =? t) then matchhere re1 text' else false
          end in
      match re1 with
      | s :: re2 => if s =? STAR then matchstar (matchhere re2) c text else plain
      | [] => plain
      end
  end.

(** The loop of [match], which tries every position. *)
Fixpoint match_from (re text : list Z) : bool :=
  matchhere re text ||
  match text with
  | [] => false
  | _ :: text' => match_from re text'
  end.

Definition match_ (re text : list Z) : bool :=
  match re with
  | c :: re1 => if c =? CARET then matchhere re1 text else match_from re text
  | [] => match_from re text
  end.

(** ** What patterns mean *)

Inductive regex :=
| Eps
| Lit (c : Z)
| Any
| Seq (r1 r2 : regex)
| Rep (r : regex).

Inductive lang : regex -> list Z -> Prop :=
| lang_eps : lang Eps []
| lang_lit c : lang (Lit c) [c]
| lang_any c : lang Any [c]
| lang_seq r1 r2 w1 w2 : lang r1 w1 -> lang r2 w2 -> lang (Seq r1 r2) (w1 ++ w2)
| lang_rep0 r : lang (Rep r) []
| lang_rep r w1 w2 : lang r w1 -> lang (Rep r) w2 -> lang (Rep r) (w1 ++ w2).

Definition atom (c : Z) : regex := if c =? DOT then Any else Lit c.

(** The expression a pattern denotes, and whether it is anchored at the end. *)
Fixpoint denote (re : list Z) : regex * bool :=
  match re with
  | [] => (Eps, false)
  | c :: re1 =>
      let plain :=
        if (c =? DOLLAR) && match re1 with [] => true | _ => false end then (Eps, true)
        else (Seq (atom c) (fst (denote re1)), snd (denote re1)) in
      match re1 with
      | s :: re2 => if s =? STAR then (Seq (Rep (atom c)) (fst (denote re2)), snd (denote re2)) else plain
      | [] => plain
      end
  end.

(** A prefix of the text is in the language, all of it when the end is anchored. *)
Definition here_spec (re text : list Z) : Prop :=
  exists w rest, text = w ++ rest /\ lang (fst (denote re)) w /\ (snd (denote re) = true -> rest = []).

(** The part of the text that matches, after [pre]. *)
Definition match_spec (re text : list Z) : Prop :=
  exists pre suf, text = pre ++ suf /\
    match re with
    | c :: re1 => if c =? CARET then pre = [] /\ here_spec re1 suf else here_spec re suf
    | [] => here_spec re suf
    end.

(** ** The matcher is right *)

Definition accepts (c t : Z) : bool := (c =? DOT) || (c =? t).

Lemma lang_atom c w : lang (atom c) w <-> exists t, w = [t] /\ accepts c t = true.
Proof.
  unfold atom, accepts. destruct (Z.eqb_spec c DOT) as [->|Hc]; simpl.
  - split; [intros Hl; inversion Hl; by eexists|intros (t & -> & _); constructor].
  - split; [intros Hl; inversion Hl; subst; eexists; split; [done|apply Z.eqb_refl]|].
    intros (t & -> & Ht%Z.eqb_eq). subst. constructor.
Qed.

Lemma lang_seq_inv r1 r2 w : lang (Seq r1 r2) w <-> exists w1 w2, w = w1 ++ w2 /\ lang r1 w1 /\ lang r2 w2.
Proof. split; [intros Hl; inversion Hl; subst; by eauto|intros (? & ? & -> & ? & ?); by constructor]. Qed.

Lemma lang_rep_atom c w : lang (Rep (atom c)) w <-> Forall (fun t => accepts c t = true) w.
Proof.
  split.
  - intros Hl. remember (Rep (atom c)) as r eqn:Er. revert Er.
    induction Hl as [| | | | |r w1 w2 H1 _ H2 IH]; intros Er; try discriminate; [constructor|].
    injection Er as ->. apply lang_atom in H1 as (t & -> & Ht). constructor; [done|by apply IH].
  - induction 1 as [|t w Ht _ IH]; [constructor|]. change (t :: w) with ([t] ++ w). constructor; [|done].
    apply lang_atom. by exists t.
Qed.

(** The loop of [matchstar] skips some of the characters that [c] accepts. *)
Lemma matchstar_spec here c text :
  matchstar here c text = true <->
  exists w rest, text = w ++ rest /\ Forall (fun t => accepts c t = true) w /\ here rest = true.
Proof.
  assert (forall t, (t =? c) || (c =? DOT) = accepts c t) as Hacc by (intros t; unfold accepts; rewrite Z.eqb_sym; apply orb_comm).
  induction text as [|t text IH]; cbn [matchstar]; rewrite orb_true_iff.
  - split; [intros [Hh|?]; [|done]; exists [], []; split; [done|split; [constructor|done]]|].
    intros (w & rest & Hw & _ & Hh). destruct w, rest; try discriminate. by left.
  - rewrite Hacc. split.
    + intros [Hh|Hs]; [exists [], (t :: text); split; [done|split; [constructor|done]]|].
      destruct (accepts c t) eqn:Ht; [|done]. apply IH in Hs as (w & rest & -> & Hw & Hh).
      exists (t :: w), rest. split; [done|]. split; [by constructor|done].
    + intros (w & rest & Heq & Hw & Hh). destruct w as [|t' w]; simpl in Heq; [left; by subst|right].
      injection Heq as <- ->. apply list.Forall_cons in Hw as [-> Hw]. apply IH. by exists w, rest.
Qed.

Lemma here_star c re2 text : here_spec (c :: STAR :: re2) text <->
  exists w rest, text = w ++ rest /\ Forall (fun t => accepts c t = true) w /\ here_spec re2 rest.
Proof.
  unfold here_spec. cbn [denote]. rewrite Z.eqb_refl. cbn [fst snd]. split.
  - intros (w & rest & -> & Hl & He). apply lang_seq_inv in Hl as (w1 & w2 & -> & H1 & H2).
    apply lang_rep_atom in H1. exists w1, (w2 ++ rest). split; [by rewrite app_assoc|]. split; [done|]. by exists w2, rest.
  - intros (w1 & r1 & -> & H1 & w2 & rest & -> & H2 & He). exists (w1 ++ w2), rest. split; [by rewrite app_assoc|].
    split; [|done]. constructor; [by apply lang_rep_atom|done].
Qed.

(** The pattern starts with a plain character. *)
Definition plain (c : Z) (re1 : list Z) : bool :=
  negb ((c =? DOLLAR) && match re1 with [] => true | _ => false end) &&
  match re1 with s :: _ => negb (s =? STAR) | [] => true end.

Lemma here_plain c re1 text : plain c re1 = true ->
  here_spec (c :: re1) text <-> exists t text', text = t :: text' /\ accepts c t = true /\ here_spec re1 text'.
Proof.
  intros [Hd Hs]%andb_true_iff. apply negb_true_iff in Hd.
  assert (denote (c :: re1) = (Seq (atom c) (fst (denote re1)), snd (denote re1))) as Hden.
  { cbn [denote]. rewrite Hd. destruct re1 as [|s re2]; [done|]. apply negb_true_iff in Hs. by rewrite Hs. }
  unfold here_spec. rewrite Hden. cbn [fst snd]. split.
  - intros (w & rest & -> & Hl & He). apply lang_seq_inv in Hl as (w1 & w2 & -> & H1 & H2).
    apply lang_atom in H1 as (t & -> & Ht). exists t, (w2 ++ rest). split; [done|]. split; [done|]. by exists w2, rest.
  - intros (t & text' & -> & Ht & w & rest & -> & Hl & He). exists (t :: w), rest. split; [done|]. split; [|done].
    change (t :: w) with ([t] ++ w). constructor; [|done]. apply lang_atom. by exists t.
Qed.

Lemma matchhere_plain c re1 text : plain c re1 = true ->
  matchhere (c :: re1) text = match text with [] => false | t :: text' => if accepts c t then matchhere re1 text' else false end.
Proof.
  intros [Hd Hs]%andb_true_iff. apply negb_true_iff in Hd. cbn [matchhere]. rewrite Hd. unfold accepts.
  destruct re1 as [|s re2]; [done|]. apply negb_true_iff in Hs. by rewrite Hs.
Qed.

(** Every pattern is empty, a repetition, an anchor, or starts with a character. *)
Lemma pattern_cases re :
  re = [] \/ (exists c re2, re = c :: STAR :: re2) \/ re = [DOLLAR] \/ (exists c re1, re = c :: re1 /\ plain c re1 = true).
Proof.
  destruct re as [|c re1]; [by left|right]. unfold plain. destruct re1 as [|s re2].
  - destruct (Z.eqb_spec c DOLLAR) as [->|Hc]; [right; by left|]. right; right. exists c, []. split; [done|].
    by rewrite (proj2 (Z.eqb_neq _ _) Hc).
  - destruct (Z.eqb_spec s STAR) as [->|Hs]; [left; by eauto|]. right; right. exists c, (s :: re2). split; [done|].
    by rewrite (proj2 (Z.eqb_neq _ _) Hs), andb_false_r.
Qed.

Lemma matchhere_spec re text : matchhere re text = true <-> here_spec re text.
Proof.
  remember (length re) as n eqn:Hn. revert re text Hn. induction n as [n IH] using lt_wf_ind. intros re text ->.
  destruct (pattern_cases re) as [->|[(c & re2 & ->)|[->|(c & re1 & -> & Hp)]]].
  - split; [intros _|done]. exists [], text. split; [done|]. split; [constructor|done].
  - rewrite here_star. cbn [matchhere]. rewrite Z.eqb_refl, matchstar_spec.
    split; intros (w & rest & Ht & Hw & Hh); exists w, rest; (split; [done|]); (split; [done|]);
      (eapply IH; [|reflexivity|exact Hh]; simpl; lia).
  - unfold here_spec. cbn [matchhere denote]. rewrite Z.eqb_refl. cbn [andb fst snd]. split.
    + destruct text; [|done]. intros _. exists [], []. split; [done|]. split; [constructor|done].
    + intros (w & rest & -> & Hl & He). inversion Hl; subst. by rewrite He.
  - rewrite here_plain, matchhere_plain by done. split.
    + destruct text as [|t text']; [done|]. destruct (accepts c t) eqn:Ht; [|done]. intros Hm. exists t, text'.
      split; [done|]. split; [done|]. by apply (IH (length re1)); [simpl; lia| |].
    + intros (t & text' & -> & -> & Hh). by apply (IH (length re1)); [simpl; lia| |].
Qed.

Lemma match_from_spec re text : match_from re text = true <-> exists pre suf, text = pre ++ suf /\ here_spec re suf.
Proof.
  induction text as [|t text IH]; cbn [match_from]; rewrite orb_true_iff, matchhere_spec.
  - split; [intros [Hh|?]; [by exists [], []|done]|]. intros (pre & suf & Heq & Hh). destruct pre, suf; try discriminate. by left.
  - rewrite IH. split.
    + intros [Hh|(pre & suf & -> & Hh)]; [by exists [], (t :: text)|by exists (t :: pre), suf].
    + intros (pre & suf & Heq & Hh). destruct pre as [|t' pre]; simpl in Heq; [left; by subst|right].
      injection Heq as <- ->. by exists pre, suf.
Qed.

(** C34: The matcher of grep decides regular expressions.  Whatever the pattern
    and the text, [match] answers yes exactly when the text contains a part in
    the language of the expression that the pattern denotes, with dot, star
    and the two anchors in their usual sense, at the beginning when the
    pattern starts with ^ and at the end when it ends with $. *)
Theorem match_decides re text : match_ re text = true <-> match_spec re text.
Proof.
  unfold match_, match_spec. destruct re as [|c re1]; [apply match_from_spec|].
  destruct (c =? CARET); [|apply match_from_spec]. rewrite matchhere_spec. split.
  - intros Hh. by exists [], text.
  - intros (pre & suf & -> & -> & Hh). done.
Qed.

(** ** The loop over the buffer *)

(** [strchr(p, '\n')]: how many characters precede the first newline of the
    string, which ends at its first 0. *)
Fixpoint strchr_nl (l : list Z) : option nat :=
  match l with
  | [] => None
  | c :: l' => if c =? 0 then None else if c =? NL then Some 0%nat else S <$> strchr_nl l'
  end.

(** The inner loop from [p]: what it writes, and the characters left. *)
Fixpoint grep_lines (fuel : nat) (pattern p : list Z) : list Z * list Z :=
  match fuel with
  | O => ([], p)
  | S fuel' =>
      match strchr_nl p with
      | None => ([], p)
      | Some q =>
          let '(out, rest) := grep_lines fuel' pattern (drop (q + 1) p) in
          ((if match_ pattern (take q p) then take (q + 1) p else []) ++ out, rest)
      end
  end.

(** The calls of [read] return the [chunks]; [kept] holds the first [m]
    characters of the buffer. *)
Fixpoint grep (pattern kept : list Z) (chunks : list (list Z)) : list Z :=
  match chunks with
  | [] => []
  | chunk :: chunks' =>
      match chunk with
      | [] => []
      | _ =>
          let buf := kept ++ chunk in
          let '(out, p) := grep_lines (S (length buf)) pattern buf in
          let kept' := if (length p =? length buf)%nat then [] else p in
          out ++ grep pattern kept' chunks'
      end
  end.

(** The complete lines of a text, and what follows the last newline. *)
Fixpoint lines (l : list Z) : list (list Z) * list Z :=
  match l with
  | [] => ([], [])
  | c :: l' =>
      let '(ls, r) := lines l' in
      if c =? NL then ([] :: ls, r)
      else match ls with [] => ([], c :: r) | w :: ls' => ((c :: w) :: ls', r) end
  end.
Definition selected (pattern : list Z) (ls : list (list Z)) : list Z :=
  concat ((fun w => if match_ pattern w then w ++ [NL] else []) <$> ls).

Definition text_byte (c : Z) : Prop := c <> 0.

Lemma lines_strchr l : Forall text_byte l ->
  match strchr_nl l with
  | None => lines l = ([], l) /\ NL ∉ l
  | Some q => l = take q l ++ NL :: drop (q + 1) l /\ lines l = (take q l :: fst (lines (drop (q + 1) l)), snd (lines (drop (q + 1) l)))
  end.
Proof.
  induction 1 as [|c l Hc _ IH]; simpl; [split; [done|apply not_elem_of_nil]|]. unfold text_byte in Hc.
  rewrite (proj2 (Z.eqb_neq _ _) Hc). destruct (Z.eqb_spec c NL) as [->|Hn]; simpl.
  - rewrite drop_0. destruct (lines l) as [ls r]. done.
  - destruct (strchr_nl l) as [q|]; simpl.
    + destruct IH as [Hl Hls]. split; [by f_equal|]. rewrite Hls. done.
    + destruct IH as [Hls Hni]. rewrite Hls. split; [done|]. by intros [?|?]%elem_of_cons.
Qed.

Lemma grep_lines_spec fuel pattern l : Forall text_byte l -> (length l < fuel)%nat ->
  grep_lines fuel pattern l = (selected pattern (fst (lines l)), snd (lines l)).
Proof.
  revert l. induction fuel as [|fuel IH]; intros l Hl Hf; [lia|]. cbn [grep_lines]. pose proof (lines_strchr l Hl) as Hs.
  destruct (strchr_nl l) as [q|]; [|destruct Hs as [-> _]; done]. destruct Hs as [Hsplit Hls].
  rewrite IH; [| by apply Forall_drop |]. 
  2: { apply (f_equal length) in Hsplit. rewrite length_app in Hsplit. simpl in Hsplit. lia. }
  rewrite Hls. cbn [fst snd]. f_equal. unfold selected. rewrite fmap_cons. cbn [concat]. f_equal.
  destruct (match_ pattern (take q l)); [|done]. rewrite Hsplit at 1.
  assert (length (take q l) = q) as Hlen.
  { rewrite length_take. apply Nat.min_l. apply (f_equal length) in Hsplit. rewrite length_app, length_take in Hsplit. simpl in Hsplit. lia. }
  rewrite take_app_ge by lia. rewrite Hlen. replace (q + 1 - q)%nat with 1%nat by lia. done.
Qed.

Lemma lines_app a b : lines (a ++ b) =
  (fst (lines a) ++ fst (lines (snd (lines a) ++ b)), snd (lines (snd (lines a) ++ b))).
Proof.
  induction a as [|c a IH]; [simpl; by destruct (lines b)|]. cbn [app lines]. rewrite IH. destruct (lines a) as [ls r]. cbn [fst snd].
  destruct (Z.eqb_spec c NL) as [_|Hc]; [done|]. destruct ls as [|w ls]; [|done].
  cbn [app fst snd lines]. destruct (lines (r ++ b)) as [ls' r']. cbn [fst snd].
  rewrite (proj2 (Z.eqb_neq _ _) Hc). by destruct ls'.
Qed.

Lemma lines_rest_lt l : fst (lines l) <> [] -> (length (snd (lines l)) < length l)%nat.
Proof.
  intros Hne. enough (forall l, length l = (length (concat (fst (lines l))) + length (fst (lines l)) + length (snd (lines l)))%nat) as Hlen.
  { specialize (Hlen l). destruct (fst (lines l)); [done|]. simpl in *. lia. }
  clear. induction l as [|c l IH]; [done|]. cbn [lines length]. rewrite IH. destruct (lines l) as [ls r]. cbn [fst snd].
  destruct (c =? NL); [simpl; lia|]. destruct ls; simpl; rewrite ?length_app; simpl; lia.
Qed.

(** Every round of the outer loop sees the end of a line. *)
Fixpoint rounds_ok (kept : list Z) (chunks : list (list Z)) : Prop :=
  match chunks with
  | [] => True
  | chunk :: chunks' => chunk <> [] /\ NL ∈ kept ++ chunk /\ rounds_ok (snd (lines (kept ++ chunk))) chunks'
  end.

Lemma lines_text l : Forall text_byte l -> Forall text_byte (snd (lines l)).
Proof.
  induction 1 as [|c l Hc _ IH]; [constructor|]. cbn [lines]. destruct (lines l) as [ls r]. destruct (c =? NL); [done|].
  destruct ls; [by constructor|done].
Qed.

Lemma lines_rest l : lines (snd (lines l)) = ([], snd (lines l)).
Proof.
  induction l as [|c l IH]; [done|]. cbn [lines]. destruct (lines l) as [ls r]. cbn [fst snd] in *.
  destruct (c =? NL) eqn:Hc; [done|]. destruct ls; [|done]. cbn [snd lines]. by rewrite IH, Hc.
Qed.

Lemma selected_app pattern l1 l2 : selected pattern (l1 ++ l2) = selected pattern l1 ++ selected pattern l2.
Proof. unfold selected. by rewrite fmap_app, concat_app. Qed.

Lemma lines_some l : Forall text_byte l -> NL ∈ l -> fst (lines l) <> [].
Proof.
  intros Hl Hin. pose proof (lines_strchr l Hl) as Hs. destruct (strchr_nl l); [by destruct Hs as [_ ->]|by destruct Hs].
Qed.

(** The lines written do not depend on how [read] splits the input, as long
    as every round sees the end of a line. *)
Lemma grep_chunks pattern chunks kept :
  lines kept = ([], kept) -> Forall text_byte kept -> Forall (Forall text_byte) chunks -> rounds_ok kept chunks ->
  grep pattern kept chunks = selected pattern (fst (lines (kept ++ concat chunks))).
Proof.
  revert kept. induction chunks as [|chunk chunks IH]; intros kept Hk Hkt Hct Hr.
  - simpl. by rewrite app_nil_r, Hk.
  - destruct Hr as (Hne & Hnl & Hr). apply list.Forall_cons in Hct as [Hc Hct].
    assert (Forall text_byte (kept ++ chunk)) as Hb by (by apply Forall_app_2).
    cbn [grep]. destruct chunk as [|c0 ch]; [done|]. set (chunk := c0 :: ch) in *. rewrite grep_lines_spec by (done || lia).
    pose proof (lines_rest_lt _ (lines_some _ Hb Hnl)) as Hlt. rewrite (proj2 (Nat.eqb_neq _ _)) by lia.
    cbn [concat]. rewrite app_assoc, (lines_app (kept ++ chunk)). cbn [fst]. rewrite selected_app. f_equal.
    apply IH; [apply lines_rest|by apply lines_text|done|done].
Qed.

(** A round that does not see the end of a line throws its characters away:
    when the line reaches [grep] in two pieces, as through a pipe, it is not
    found. *)
Lemma grep_drops_partial_line :
  grep [97] [] [[97; 98; NL]] = [97; 98; NL] /\ grep [97] [] [[97]; [98; NL]] = [].
Proof. split; reflexivity. Qed.
