(* ===== verification/Sh.v ===== *)
(** * The parser of the shell (sh.c)

    The line is the string in the shell's buffer, a pointer into it an index;
    [ps] is the state of the parser.  Words are kept, as in the code, as the
    two ends of their occurrence in the line, and are terminated in place by
    [nulterminate] once the whole line is parsed. *)

From S2P Require Import Prelude.

Definition MAXARGS : nat := 10.
Definition O_RDONLY : Z := 0x000.
Definition O_WRONLY : Z := 0x001.
Definition O_CREATE : Z := 0x200.

(** Characters. *)
Definition AMP : Z := 38.
Definition LPAR : Z := 40.
Definition RPAR : Z := 41.
Definition SEMI : Z := 59.
Definition LT : Z := 60.
Definition GT : Z := 62.
Definition BAR : Z := 124.
Definition whitespace : list Z := [32; 9; 13; 10; 11].
Definition symbols : list Z := [LT; BAR; GT; AMP; SEMI; LPAR; RPAR].

(** [strchr(s, c) != 0]; the string's own 0 is not found. *)
Definition strchr (s : list Z) (c : Z) : bool := bool_decide (c ∈ s).

(** [struct cmd]: a word is its first character and the one behind it. *)
Notation word := (nat * nat)%type.
Inductive cmd :=
| EXEC (argv : list word)
| REDIR (c : cmd) (file : word) (mode fd : Z)
| PIPE (left right : cmd)
| LIST (left right : cmd)
| BACK (c : cmd).

(** A redirection still to be applied to a command. *)
Notation redir := (word * Z * Z)%type.
Definition redircmd (c : cmd) (r : redir) : cmd := REDIR c r.1.1 r.1.2 r.2.
Definition redircmds (c : cmd) (rs : list redir) : cmd := foldl redircmd c rs.

Section Parser.
Context (text : list Z).
Notation P := (M nat).

Definition es : nat := length text.
(** The character at [s]; the line ends with a 0. *)
Definition chr (s : nat) : Z := default 0 (text !! s).

Fixpoint skip_loop (n : nat) (f : Z -> bool) (s : nat) : nat :=
  match n with
  | O => s
  | S n' => if (s <? es)%nat && f (chr s) then skip_loop n' f (s + 1) else s
  end.
(** [while(s < es && f( *s )) s++]. *)
Definition skip (f : Z -> bool) (s : nat) : nat := skip_loop (es - s) f s.

Definition is_space (c : Z) : bool := strchr whitespace c.
Definition is_plain (c : Z) : bool := negb (strchr whitespace c) && negb (strchr symbols c).

(** The token, where it starts and where it ends. *)
Definition gettoken : P (Z * nat * nat) := fun ps =>
  let q := skip is_space ps in
  let c := chr q in
  let '(ret, eq) :=
    if c =? 0 then (c, q)
    else if (c =? BAR) || (c =? LPAR) || (c =? RPAR) || (c =? SEMI) || (c =? AMP) || (c =? LT) then (c, (q + 1)%nat)
    else if c =? GT then
      if chr (q + 1) =? GT then (43, (q + 2)%nat) else (c, (q + 1)%nat)
    else (97, skip is_plain q) in
  Ok (ret, q, eq) (skip is_space eq).

Definition peek (toks : list Z) : P bool := fun ps =>
  let s := skip is_space ps in
  Ok (negb (chr s =? 0) && strchr toks (chr s)) s.

(** Every iteration of a loop consumes a character. *)
Definition rounds : nat := S es.

Fixpoint redirs_loop (n : nat) (rs : list redir) : P (list redir) :=
  match n with
  | O => nofuel
  | S n' =>
      b <- peek [LT; GT] ;;
      if negb b then kret rs
      else
        t <- gettoken ;;
        w <- gettoken ;;
        if negb (w.1.1 =? 97) then panic "missing file for redirection"
        else
          let file := (w.1.2, w.2) in
          if t.1.1 =? LT then redirs_loop n' (rs ++ [(file, O_RDONLY, 0)])
          else if t.1.1 =? GT then redirs_loop n' (rs ++ [(file, Z.lor O_WRONLY O_CREATE, 1)])
          else if t.1.1 =? 43 then redirs_loop n' (rs ++ [(file, Z.lor O_WRONLY O_CREATE, 1)])
          else redirs_loop n' rs
  end.
Definition parseredirs (rs : list redir) : P (list redir) := redirs_loop rounds rs.

(** The loop of [parseexec] over the words, which are added to the command
    that the redirections [rs] wrap. *)
Fixpoint args_loop (n : nat) (argv : list word) (rs : list redir) : P cmd :=
  match n with
  | O => nofuel
  | S n' =>
      b <- peek [BAR; RPAR; AMP; SEMI] ;;
      if b then kret (redircmds (EXEC argv) rs)
      else
        t <- gettoken ;;
        if t.1.1 =? 0 then kret (redircmds (EXEC argv) rs)
        else if negb (t.1.1 =? 97) then panic "syntax"
        else
          let argv' := argv ++ [(t.1.2, t.2)] in
          if (MAXARGS <=? length argv')%nat then panic "too many args"
          else
            rs' <- parseredirs rs ;;
            args_loop n' argv' rs'
  end.

Fixpoint back_loop (n : nat) (c : cmd) : P cmd :=
  match n with
  | O => nofuel
  | S n' =>
      b <- peek [AMP] ;;
      if b then gettoken ;;; back_loop n' (BACK c) else kret c
  end.

Fixpoint parseline (fuel : nat) : P cmd :=
  match fuel with
  | O => nofuel
  | S fuel' =>
      c <- parsepipe fuel' ;;
      c <- back_loop rounds c ;;
      b <- peek [SEMI] ;;
      if b then gettoken ;;; r <- parseline fuel' ;; kret (LIST c r) else kret c
  end
with parsepipe (fuel : nat) : P cmd :=
  match fuel with
  | O => nofuel
  | S fuel' =>
      c <- parseexec fuel' ;;
      b <- peek [BAR] ;;
      if b then gettoken ;;; r <- parsepipe fuel' ;; kret (PIPE c r) else kret c
  end
with parseexec (fuel : nat) : P cmd :=
  match fuel with
  | O => nofuel
  | S fuel' =>
      b <- peek [LPAR] ;;
      if b then parseblock fuel'
      else
        rs <- parseredirs [] ;;
        args_loop rounds [] rs
  end
with parseblock (fuel : nat) : P cmd :=
  match fuel with
  | O => nofuel
  | S fuel' =>
      b <- peek [LPAR] ;;
      if negb b then panic "parseblock"
      else
        gettoken ;;;
        c <- parseline fuel' ;;
        b <- peek [RPAR] ;;
        if negb b then panic "syntax - missing )"
        else
          gettoken ;;;
          rs <- parseredirs [] ;;
          kret (redircmds c rs)
  end.

(** Four calls nest before a character is consumed. *)
Definition parse : P cmd :=
  c <- parseline (4 * rounds) ;;
  peek [] ;;;
  s <- kget ;;
  if negb (s =? es)%nat then panic "syntax" else kret c.
End Parser.

(** [nulterminate]: the buffer with a 0 behind every word. *)
Fixpoint nulterminate (c : cmd) (buf : list Z) : list Z :=
  match c with
  | EXEC argv => foldl (fun b w => <[w.2 := 0]> b) buf argv
  | REDIR c' file _ _ => <[file.2 := 0]> (nulterminate c' buf)
  | PIPE l r => nulterminate r (nulterminate l buf)
  | LIST l r => nulterminate r (nulterminate l buf)
  | BACK c' => nulterminate c' buf
  end.

(** [parsecmd] on the string [text]: the command, and the buffer with the words
    terminated. *)
Definition parsecmd (text : list Z) : M nat (cmd * list Z) :=
  c <- parse text ;;
  kret (c, nulterminate c (text ++ [0])).

(** ** Termination, and the words of a command

    [ends c Q s]: from [s] the parser returns or reports a syntax error; what
    it returns satisfies [Q]. *)
Definition ends {S A} (c : M S A) (Q : A -> S -> Prop) (s : S) : Prop :=
  match c s with
  | Ok a s' => Q a s'
  | Panic _ => True
  | _ => False
  end.

Lemma ends_bind {S A B} (c : M S A) (f : A -> M S B) Q s :
  ends c (fun a s' => ends (f a) Q s') s -> ends (kbind c f) Q s.
Proof. unfold ends, kbind. by destruct (c s). Qed.

Lemma ends_mono {S A} (c : M S A) (Q Q' : A -> S -> Prop) s :
  ends c Q s -> (forall a s', Q a s' -> Q' a s') -> ends c Q' s.
Proof. unfold ends. destruct (c s); naive_solver. Qed.

Lemma ends_panic {S A} msg (Q : A -> S -> Prop) s : ends (panic msg) Q s.
Proof. done. Qed.
Lemma ends_ret {S A} (a : A) (Q : A -> S -> Prop) s : Q a s -> ends (kret a) Q s.
Proof. done. Qed.

Section Words.
Context (text : list Z) (Htext : Forall (fun c => c <> 0) text).
Notation es := (es text).
Notation chr := (chr text).
Notation skip := (skip text).

Lemma skip_loop_spec n f s : (s <= es)%nat ->
  let s' := skip_loop text n f s in
  (s <= s' <= es)%nat /\ (forall i, (s <= i < s')%nat -> f (chr i) = true) /\
  ((es - s <= n)%nat -> s' = es \/ f (chr s') = false).
Proof.
  revert s. induction n as [|n IH]; intros s Hs; simpl; [split; [lia|]; split; [lia|]; intros ?; left; lia|].
  destruct (Nat.ltb_spec s es) as [Hlt|Hge]; simpl; [|split; [lia|]; split; [lia|]; intros ?; left; lia].
  destruct (f (chr s)) eqn:Hf; [|split; [lia|]; split; [lia|]; intros ?; by right].
  destruct (IH (s + 1)%nat ltac:(lia)) as (H1 & H2 & H3). split; [lia|]. split; [|intros Hn; apply H3; lia].
  intros i Hi. destruct (decide (i = s)) as [->|]; [done|]. apply H2. lia.
Qed.

Lemma skip_spec f s : (s <= es)%nat ->
  (s <= skip f s <= es)%nat /\ (forall i, (s <= i < skip f s)%nat -> f (chr i) = true) /\
  (skip f s = es \/ f (chr (skip f s)) = false).
Proof. intros Hs. unfold Sh.skip. destruct (skip_loop_spec (es - s) f s Hs) as (H1 & H2 & H3). split_and!; [lia|lia|done|by apply H3]. Qed.

Lemma chr_end s : (s <= es)%nat -> chr s = 0 <-> s = es.
Proof.
  intros Hs. unfold Sh.chr, Sh.es in *. destruct (text !! s) as [c|] eqn:E; simpl.
  - pose proof (lookup_lt_Some _ _ _ E). rewrite list.Forall_forall in Htext.
    pose proof (Htext c (list_elem_of_lookup_2 _ _ _ E)). split; [done|lia].
  - apply lookup_ge_None_1 in E. split; [lia|done].
Qed.

(** The word [w] is a maximal run of plain characters. *)
Definition word_ok (w : word) : Prop :=
  (w.1 < w.2 <= es)%nat /\ (forall i, (w.1 <= i < w.2)%nat -> is_plain (chr i) = true) /\
  (w.2 = es \/ is_plain (chr w.2) = false).

(** What a token is, from a position where something is left. *)
Lemma gettoken_spec s : (s <= es)%nat ->
  ends (gettoken text) (fun t s' => (s <= s' <= es)%nat /\
    (t.1.1 = 0 \/ (s < s')%nat) /\ (chr (skip is_space s) <> 0 -> (s < s')%nat) /\
    (t.1.1 = 97 -> word_ok (t.1.2, t.2))) s.
Proof.
  intros Hs. unfold ends, gettoken. destruct (skip_spec is_space s Hs) as (Hq & _ & Hstop). set (q := skip is_space s) in *.
  pose proof (chr_end q (proj2 Hq)) as Hend.
  assert (forall e, (q < e <= es)%nat -> (s <= skip is_space e <= es)%nat /\ (s < skip is_space e)%nat) as Hafter.
  { intros e He. destruct (skip_spec is_space e (proj2 He)) as (H1 & _). lia. }
  destruct (Z.eqb_spec (chr q) 0) as [H0|H0].
  { destruct (skip_spec is_space q (proj2 Hq)) as (H1 & _). simpl. split; [lia|]. split; [by left|]. split; [done|]. rewrite H0. lia. }
  assert (q < es)%nat as Hlt by (destruct (decide (q = es)); [tauto|lia]).
  destruct (_ || _) eqn:Hsym; [|destruct (Z.eqb_spec (chr q) GT) as [Hgt|Hgt]].
  - destruct (Hafter (q + 1)%nat ltac:(lia)). cbn [fst snd]. split; [done|]. split; [by right|]. split; [done|].
    intros E. rewrite E in Hsym. by vm_compute in Hsym.
  - destruct (Z.eqb_spec (chr (q + 1)) GT) as [H2|H2].
    + assert (q + 1 < es)%nat as Hlt2.
      { destruct (decide (q + 1 = es)%nat) as [E|]; [|lia]. apply (chr_end (q + 1)) in E; [|lia]. rewrite E in H2. done. }
      destruct (Hafter (q + 2)%nat ltac:(lia)). cbn [fst snd]. split; [done|]. split; [by right|]. split; [done|]. done.
    + destruct (Hafter (q + 1)%nat ltac:(lia)). cbn [fst snd]. split; [done|]. split; [by right|]. split; [done|].
      rewrite Hgt. done.
  - destruct (skip_spec is_plain q (proj2 Hq)) as (H1 & H2 & H3). set (e := skip is_plain q) in *.
    assert (is_plain (chr q) = true) as Hpl.
    { unfold is_plain. destruct Hstop as [?|Hsp]; [lia|]. unfold is_space in Hsp. rewrite Hsp. simpl.
      unfold strchr. apply negb_true_iff, bool_decide_eq_false. unfold symbols.
      repeat setoid_rewrite orb_false_iff in Hsym. destruct Hsym as [[[[[E1 E2] E3] E4] E5] E6]. boolify.
      rewrite !elem_of_cons, elem_of_nil. naive_solver. }
    assert (q < e)%nat as Hqe.
    { destruct (decide (e = q)) as [E|]; [|lia]. rewrite E in H3. destruct H3 as [?|H3]; [lia|]. congruence. }
    destruct (Hafter e ltac:(lia)). cbn [fst snd]. split; [done|]. split; [by right|]. split; [done|]. intros _.
    split; [simpl; lia|]. done.
Qed.

Lemma peek_spec toks s : (s <= es)%nat ->
  ends (peek text toks) (fun b s' => s' = skip is_space s /\ (s <= s' <= es)%nat /\
    b = negb (chr s' =? 0) && strchr toks (chr s')) s.
Proof. intros Hs. unfold ends, peek. destruct (skip_spec is_space s Hs) as (H1 & _). done. Qed.

(** Skipping spaces twice is skipping them once. *)
Lemma skip_again f s : (s <= es)%nat -> skip f (skip f s) = skip f s.
Proof.
  intros Hs. destruct (skip_spec f s Hs) as (H1 & _ & H3). set (t := skip f s) in *. unfold Sh.skip.
  destruct (es - t)%nat eqn:E; [done|]. simpl. destruct H3 as [-> | ->]; [by rewrite Nat.ltb_irrefl|]. by rewrite andb_false_r.
Qed.

(** Once [peek] has seen a token, [gettoken] makes progress. *)
Lemma token_after_peek toks s (Q : Z * nat * nat -> nat -> Prop) : (s <= es)%nat -> s = skip is_space s ->
  negb (chr s =? 0) && strchr toks (chr s) = true ->
  (forall t s', (s < s' <= es)%nat -> (t.1.1 = 97 -> word_ok (t.1.2, t.2)) -> Q t s') -> ends (gettoken text) Q s.
Proof.
  intros Hs Hsk Hb HQ. apply andb_true_iff in Hb as [Hb _]. apply negb_true_iff, Z.eqb_neq in Hb.
  eapply ends_mono; [by apply gettoken_spec|]. intros t s' (H1 & _ & H3 & H4). apply HQ; [|done]. rewrite <- Hsk in H3. specialize (H3 Hb). lia.
Qed.

(** ** The commands that the parser builds *)

Fixpoint cmd_ok (c : cmd) : Prop :=
  match c with
  | EXEC argv => Forall word_ok argv /\ (length argv < MAXARGS)%nat
  | REDIR c' file mode fd => cmd_ok c' /\ word_ok file /\ ((mode = O_RDONLY /\ fd = 0) \/ (mode = Z.lor O_WRONLY O_CREATE /\ fd = 1))
  | PIPE l r => cmd_ok l /\ cmd_ok r
  | LIST l r => cmd_ok l /\ cmd_ok r
  | BACK c' => cmd_ok c'
  end.
Definition redir_ok (r : redir) : Prop :=
  word_ok r.1.1 /\ ((r.1.2 = O_RDONLY /\ r.2 = 0) \/ (r.1.2 = Z.lor O_WRONLY O_CREATE /\ r.2 = 1)).

Lemma redircmds_ok c rs : cmd_ok c -> Forall redir_ok rs -> cmd_ok (redircmds c rs).
Proof.
  intros Hc Hrs. revert c Hc. induction Hrs as [|r rs [Hw Hm] _ IH]; intros c Hc; [done|]. apply IH. simpl. done.
Qed.

Lemma redirs_spec n rs s : (s <= es)%nat -> (es - s < n)%nat -> Forall redir_ok rs ->
  ends (redirs_loop text n rs) (fun rs' s' => (s <= s' <= es)%nat /\ Forall redir_ok rs') s.
Proof.
  revert rs s. induction n as [|n IH]; intros rs s Hs Hn Hrs; [lia|]. cbn [redirs_loop].
  apply ends_bind. eapply ends_mono; [by apply peek_spec|]. cbv beta. intros b s1 (E1 & H1 & Hb).
  destruct b; simpl; [|by split]. symmetry in Hb.
  apply ends_bind. eapply token_after_peek; [lia|subst; by rewrite skip_again|exact Hb|]. intros t s2 H2 _.
  apply ends_bind. eapply ends_mono; [apply gettoken_spec; lia|]. cbv beta. intros w s3 (H3 & _ & _ & Hw).
  destruct (Z.eqb_spec w.1.1 97) as [Ha|Ha]; simpl; [|apply ends_panic].
  assert (forall rs', Forall redir_ok rs' -> ends (redirs_loop text n rs') (fun rs'' s' => (s <= s' <= es)%nat /\ Forall redir_ok rs'') s3) as Hloop.
  { intros rs' Hrs'. eapply ends_mono; [apply IH; [lia|lia|done]|]. cbv beta. intros rs'' s' [? ?]. split; [lia|done]. }
  repeat case_cond; apply Hloop; try done; (apply Forall_app_2; [done|]); (constructor; [|constructor]);
    (split; [by apply Hw|simpl; tauto]).
Qed.

Lemma args_spec n argv rs s : (s <= es)%nat -> (es - s < n)%nat -> Forall word_ok argv -> (length argv < MAXARGS)%nat -> Forall redir_ok rs ->
  ends (args_loop text n argv rs) (fun c s' => (s <= s' <= es)%nat /\ cmd_ok c) s.
Proof.
  revert argv rs s. induction n as [|n IH]; intros argv rs s Hs Hn Hargv Hlen Hrs; [lia|]. cbn [args_loop].
  assert (cmd_ok (redircmds (EXEC argv) rs)) as Hok by (by apply redircmds_ok).
  apply ends_bind. eapply ends_mono; [by apply peek_spec|]. cbv beta. intros b s1 (E1 & H1 & Hb). destruct b; [by apply ends_ret|].
  apply ends_bind. eapply ends_mono; [apply gettoken_spec; lia|]. cbv beta. intros t s2 (H2 & Hprog & _ & Hw).
  destruct (Z.eqb_spec t.1.1 0) as [H0|H0]; [apply ends_ret; split; [lia|done]|].
  destruct (Z.eqb_spec t.1.1 97) as [Ha|Ha]; cbn [negb]; [|apply ends_panic].
  destruct (Nat.leb_spec MAXARGS (length (argv ++ [(t.1.2, t.2)]))) as [Hmax|Hmax]; [apply ends_panic|].
  apply ends_bind. eapply ends_mono; [apply redirs_spec; [lia|unfold rounds; lia|done]|]. cbv beta. intros rs' s3 [H3 Hrs'].
  eapply ends_mono; [apply IH; [lia|lia| |done|done]|]. { apply Forall_app_2; [done|]. constructor; [by apply Hw|constructor]. }
  cbv beta. intros c s' [? ?]. split; [lia|done].
Qed.

Lemma back_spec n c s : (s <= es)%nat -> (es - s < n)%nat -> cmd_ok c ->
  ends (back_loop text n c) (fun c' s' => (s <= s' <= es)%nat /\ cmd_ok c') s.
Proof.
  revert c s. induction n as [|n IH]; intros c s Hs Hn Hc; [lia|]. cbn [back_loop].
  apply ends_bind. eapply ends_mono; [by apply peek_spec|]. cbv beta. intros b s1 (E1 & H1 & Hb). destruct b; [|by apply ends_ret]. symmetry in Hb.
  apply ends_bind. eapply token_after_peek; [lia|subst; by rewrite skip_again|exact Hb|]. intros t s2 H2 _.
  eapply ends_mono; [apply IH; [lia|lia|done]|]. cbv beta. intros c' s' [? ?]. split; [lia|done].
Qed.

Definition parsed (s : nat) (c : cmd) (s' : nat) : Prop := (s <= s' <= es)%nat /\ cmd_ok c.

Lemma parsed_later (p : M nat cmd) s s1 : (s <= s1)%nat -> ends p (parsed s1) s1 -> ends p (parsed s) s1.
Proof. intros Hs Hp. eapply ends_mono; [exact Hp|]. intros c s' [? ?]. split; [lia|done]. Qed.

(** A symbol that [peek] has seen, and what follows it. *)
Lemma after_symbol {A} toks s1 s (k : M nat A) Q :
  (s <= s1 <= es)%nat -> s1 = skip is_space s -> true = negb (chr s1 =? 0) && strchr toks (chr s1) -> (s <= es)%nat ->
  (forall s2, (s1 < s2 <= es)%nat -> ends k Q s2) -> ends (gettoken text ;;; k) Q s1.
Proof.
  intros H1 E1 Hb Hs Hk. apply ends_bind. eapply token_after_peek; [lia|subst; by rewrite skip_again|by symmetry|].
  intros t s2 H2 _. by apply Hk.
Qed.

Lemma parse_ends fuel s : (s <= es)%nat ->
  ((4 * (es - s) + 4 <= fuel)%nat -> ends (parseline text fuel) (parsed s) s) /\
  ((4 * (es - s) + 3 <= fuel)%nat -> ends (parsepipe text fuel) (parsed s) s) /\
  ((4 * (es - s) + 2 <= fuel)%nat -> ends (parseexec text fuel) (parsed s) s) /\
  ((4 * (es - s) + 1 <= fuel)%nat -> ends (parseblock text fuel) (parsed s) s).
Proof.
  revert s. induction fuel as [|fuel IH]; intros s Hs; [split_and!; lia|].
  assert (forall s1, (s <= s1 <= es)%nat -> (4 * (es - s1) + 4 <= fuel)%nat -> ends (parseline text fuel) (parsed s) s1) as Hline.
  { intros s1 H1 Hf. apply parsed_later; [lia|]. by apply IH; [lia|]. }
  split_and!; intros Hf; cbn [parseline parsepipe parseexec parseblock].
  - apply ends_bind. eapply ends_mono; [apply (IH s Hs); lia|]. cbv beta. intros c s1 [H1 Hc].
    apply ends_bind. eapply ends_mono; [apply back_spec; [lia|unfold rounds; lia|done]|]. cbv beta. intros c' s2 [H2 Hc'].
    apply ends_bind. eapply ends_mono; [apply peek_spec; lia|]. cbv beta. intros b s3 (E3 & H3 & Hb). destruct b; [|apply ends_ret; split; [lia|done]].
    eapply after_symbol; [exact H3|exact E3|exact Hb|lia|]. intros s4 H4. apply ends_bind.
    eapply ends_mono; [apply Hline; lia|]. cbv beta. intros r s5 [H5 Hr]. apply ends_ret. by split.
  - apply ends_bind. eapply ends_mono; [apply (IH s Hs); lia|]. cbv beta. intros c s1 [H1 Hc].
    apply ends_bind. eapply ends_mono; [apply peek_spec; lia|]. cbv beta. intros b s3 (E3 & H3 & Hb). destruct b; [|apply ends_ret; split; [lia|done]].
    eapply after_symbol; [exact H3|exact E3|exact Hb|lia|]. intros s4 H4. apply ends_bind.
    eapply ends_mono; [apply (parsed_later _ s); [lia|]; apply (IH s4); lia|]. cbv beta. intros r s5 [H5 Hr]. apply ends_ret. by split.
  - apply ends_bind. eapply ends_mono; [apply peek_spec; lia|]. cbv beta. intros b s1 (E1 & H1 & Hb). destruct b.
    + apply parsed_later; [lia|]. apply (IH s1); lia.
    + apply ends_bind. eapply ends_mono; [apply redirs_spec; [lia|unfold rounds; lia|constructor]|]. cbv beta. intros rs s2 [H2 Hrs].
      apply parsed_later; [lia|]. apply args_spec; [lia|unfold rounds; lia|constructor|simpl; unfold MAXARGS; lia|done].
  - apply ends_bind. eapply ends_mono; [apply peek_spec; lia|]. cbv beta. intros b s1 (E1 & H1 & Hb).
    destruct b; cbn [negb]; [|apply ends_panic].
    eapply after_symbol; [exact H1|exact E1|exact Hb|lia|]. intros s2 H2. apply ends_bind.
    eapply ends_mono; [apply Hline; lia|]. cbv beta. intros c s3 [H3 Hc].
    apply ends_bind. eapply ends_mono; [apply peek_spec; lia|]. cbv beta. intros b s4 (E4 & H4 & Hb4). destruct b; cbn [negb]; [|apply ends_panic].
    eapply after_symbol; [exact H4|exact E4|exact Hb4|lia|]. intros s5 H5. apply ends_bind.
    eapply ends_mono; [apply redirs_spec; [lia|unfold rounds; lia|constructor]|]. cbv beta. intros rs s6 [H6 Hrs].
    apply ends_ret. split; [lia|]. by apply redircmds_ok.
Qed.

Lemma parse_total : ends (parse text) (fun c s => s = es /\ cmd_ok c) 0%nat.
Proof.
  unfold parse. apply ends_bind. eapply ends_mono; [apply (parse_ends (4 * rounds text) 0); unfold rounds; lia|]. cbv beta.
  intros c s [Hs Hc]. apply ends_bind. eapply ends_mono; [apply peek_spec; lia|]. cbv beta. intros b s1 (_ & H1 & _).
  apply ends_bind. unfold ends at 1, kget. destruct (Nat.eqb_spec s1 es); cbn [negb]; [by apply ends_ret|apply ends_panic].
Qed.

(** ** Terminating the words in place *)

Fixpoint words (c : cmd) : list word :=
  match c with
  | EXEC argv => argv
  | REDIR c' file _ _ => words c' ++ [file]
  | PIPE l r | LIST l r => words l ++ words r
  | BACK c' => words c'
  end.

Lemma cmd_words c : cmd_ok c -> Forall word_ok (words c).
Proof.
  induction c as [argv|c IH f m d|l IHl r IHr|l IHl r IHr|c IH]; simpl; [tauto| | | |done].
  - intros (Hc & Hf & _). apply Forall_app_2; [by apply IH|by constructor].
  - intros [? ?]. apply Forall_app_2; [by apply IHl|by apply IHr].
  - intros [? ?]. apply Forall_app_2; [by apply IHl|by apply IHr].
Qed.

Lemma nulterminate_foldl c b : nulterminate c b = foldl (fun b w => <[w.2 := 0]> b) b (words c).
Proof.
  revert b. induction c as [argv|c IH f m d|l IHl r IHr|l IHl r IHr|c IH]; intros b; simpl; [done| | | |done];
    rewrite foldl_app; [by rewrite IH|by rewrite IHl, IHr|by rewrite IHl, IHr].
Qed.

Lemma zeros_lookup (ws : list word) (b : list Z) i :
  foldl (fun b w => <[w.2 := 0]> b) b ws !! i = if decide (i ∈ snd <$> ws) then (fun _ => 0) <$> b !! i else b !! i.
Proof.
  revert b. induction ws as [|w ws IH]; intros b; [done|]. rewrite fmap_cons. cbn [foldl]. rewrite IH.
  destruct (decide (i = w.2)) as [->|Hne].
  - rewrite (decide_True (P := w.2 ∈ w.2 :: (snd <$> ws))) by apply list_elem_of_here.
    destruct (decide (w.2 < length b)%nat) as [Hlt|Hge].
    + rewrite list_lookup_insert_eq by done. destruct (lookup_lt_is_Some_2 _ _ Hlt) as [c ->]. by case_decide.
    + rewrite list_insert_ge by lia. rewrite lookup_ge_None_2 by lia. by case_decide.
  - rewrite list_lookup_insert_ne by done. destruct (decide (i ∈ snd <$> ws)).
    + rewrite decide_True; [done|]. by apply list_elem_of_further.
    + rewrite decide_False; [done|]. by intros [?|?]%elem_of_cons.
Qed.

(** The string at [q]: the characters up to the first 0. *)
Fixpoint cstr (l : list Z) : list Z :=
  match l with
  | [] => []
  | c :: l' => if c =? 0 then [] else c :: cstr l'
  end.

Lemma cstr_word (b : list Z) q e : (q <= e)%nat ->
  (forall i, (q <= i < e)%nat -> exists c, text !! i = Some c /\ b !! i = Some c /\ c <> 0) -> b !! e = Some 0 ->
  cstr (drop q b) = take (e - q) (drop q text).
Proof.
  remember (e - q)%nat as n eqn:Hn. revert q Hn. induction n as [|n IH]; intros q Hn Hqe Hch He.
  - replace q with e by lia. by rewrite (drop_S b 0 e He).
  - destruct (Hch q ltac:(lia)) as (c & Ht & Hb & Hc). rewrite (drop_S b c q Hb), (drop_S text c q Ht). simpl.
    rewrite (proj2 (Z.eqb_neq _ _) Hc). f_equal. apply IH; [lia|lia| |done]. intros i Hi. apply Hch. lia.
Qed.

(** No terminator falls into a word. *)
Lemma terminated c w : cmd_ok c -> w ∈ words c ->
  cstr (drop w.1 (nulterminate c (text ++ [0]))) = take (w.2 - w.1) (drop w.1 text).
Proof.
  intros Hc Hw. pose proof (cmd_words c Hc) as Hall. rewrite list.Forall_forall in Hall.
  destruct (Hall w Hw) as (Hle & Hpl & Hend). rewrite nulterminate_foldl. apply cstr_word; [lia| |].
  - intros i Hi. assert (i < length text)%nat as Hlt by (unfold Sh.es in *; lia).
    destruct (lookup_lt_is_Some_2 _ _ Hlt) as [a Ha]. exists a. split; [done|]. split.
    + rewrite zeros_lookup, decide_False; [by rewrite lookup_app_l|]. intros (v & -> & Hv)%list_elem_of_fmap.
      destruct (Hall v Hv) as (Hvle & _ & [He|He]); [unfold Sh.es in *; lia|]. rewrite (Hpl v.2) in He by done. done.
    + rewrite list.Forall_forall in Htext. apply Htext. by eapply list_elem_of_lookup_2.
  - rewrite zeros_lookup, decide_True by (apply list_elem_of_fmap; by exists w).
    destruct (lookup_lt_is_Some_2 (text ++ [0]) w.2) as [a ->]; [|done]. rewrite length_app. simpl. unfold Sh.es in *. lia.
Qed.
End Words.

(** C33: The shell's parser always comes to an end, with a command or with a
    syntax error.  A command it returns covers the whole line; its words are
    the maximal runs of plain characters where the code says they are, at
    most nine for a program, with the modes of the redirections as given; and
    once [nulterminate] has written its zeros into the line, every word
    reads as exactly those characters, although all zeros are written into
    the one buffer. *)
Theorem parsecmd_total text :
  Forall (fun c => c <> 0) text ->
  match parsecmd text 0%nat with
  | Ok (c, buf) s =>
      s = length text /\ cmd_ok text c /\ length buf = S (length text) /\
      (forall w, w ∈ words c -> (w.1 < w.2)%nat /\ cstr (drop w.1 buf) = take (w.2 - w.1) (drop w.1 text))
  | Panic _ => True
  | _ => False
  end.
Proof.
  intros Ht. pose proof (parse_total text Ht) as Hp. unfold ends in Hp. unfold parsecmd, kbind.
  destruct (parse text 0%nat) as [c s| | | |]; try done. destruct Hp as [-> Hc]. cbn [kret]. split; [done|]. split; [done|]. split.
  - rewrite nulterminate_foldl. clear. assert (forall (ws : list word) (b : list Z), length (foldl (fun b w => <[w.2 := 0]> b) b ws) = length b) as Hlen.
    { intros ws. induction ws as [|w ws IH]; intros b; simpl; [done|]. by rewrite IH, length_insert. }
    rewrite Hlen, length_app. simpl. lia.
  - intros w Hw. split; [|by apply terminated]. pose proof (cmd_words text c Hc) as Hall. rewrite list.Forall_forall in Hall.
    destruct (Hall w Hw) as [? _]. lia.
Qed.

(** The line [a >f]. *)
Lemma parsecmd_total_witness :
  parsecmd [97; 32; 62; 102] 0%nat = Ok (REDIR (EXEC [(0, 1)%nat]) (3, 4)%nat (Z.lor O_WRONLY O_CREATE) 1, [97; 0; 62; 102; 0]) 4%nat /\
  match parsecmd [97; 32; 62; 102] 0%nat with
  | Ok (c, buf) s =>
      s = length [97; 32; 62; 102] /\ cmd_ok [97; 32; 62; 102] c /\ length buf = S (length [97; 32; 62; 102]) /\
      (forall w, w ∈ words c -> (w.1 < w.2)%nat /\ cstr (drop w.1 buf) = take (w.2 - w.1) (drop w.1 [97; 32; 62; 102]))
  | Panic _ => True
  | _ => False
  end.
Proof.
  split; [vm_compute; reflexivity|]. apply (parsecmd_total [97; 32; 62; 102]). by repeat constructor.
Defined.
