(* ===== verification/Shprint.v ===== *)
(** * Printing and parsing shell commands (sh.c)

    Commands whose words are strings, a printer for them, and the proof that
    the parser of [Sh] reads what is printed. *)

From S2P Require Import Prelude Sh.

Inductive tree :=
| TExec (argv : list (list Z))
| TRedir (c : tree) (file : list Z) (out : bool)
| TPipe (l r : tree)
| TList (l r : tree)
| TBack (c : tree).

(** The words of a parsed command, in the line. *)
Definition sub (text : list Z) (w : word) : list Z := take (w.2 - w.1) (drop w.1 text).

Fixpoint tree_of (text : list Z) (c : cmd) : tree :=
  match c with
  | EXEC argv => TExec (sub text <$> argv)
  | REDIR c' f mode fd => TRedir (tree_of text c') (sub text f) (fd =? 1)
  | PIPE l r => TPipe (tree_of text l) (tree_of text r)
  | LIST l r => TList (tree_of text l) (tree_of text r)
  | BACK c' => TBack (tree_of text c')
  end.

(** ** The printer

    Every token is followed by a space.  The level says what the context can
    take without parentheses: 0 a program with its redirections, 1 a
    pipeline, 2 pipelines in the background, 3 a list. *)
Definition tok (w : list Z) : list Z := w ++ [32].
Definition rd (r : list Z * bool) : list Z := tok [if r.2 : bool then GT else LT] ++ tok r.1.
Definition rds (rs : list (list Z * bool)) : list Z := concat (rd <$> rs).
Definition paren (b : bool) (l : list Z) : list Z := if b then tok [LPAR] ++ l ++ tok [RPAR] else l.

Fixpoint pr (lvl : nat) (c : tree) : list Z :=
  match c with
  | TExec argv => concat (tok <$> argv)
  | TRedir c' f o => pr 0 c' ++ rd (f, o)
  | TPipe l r => paren (lvl <? 1)%nat (pr 0 l ++ tok [BAR] ++ pr 1 r)
  | TBack c' => paren (lvl <? 2)%nat (pr 2 c' ++ tok [AMP])
  | TList l r => paren (lvl <? 3)%nat (pr 2 l ++ tok [SEMI] ++ pr 3 r)
  end.

(** Words that the shell can read back. *)
Definition str_ok (w : list Z) : Prop := w <> [] /\ Forall (fun c => c <> 0 /\ is_plain c = true) w.
Fixpoint tree_ok (c : tree) : Prop :=
  match c with
  | TExec argv => Forall str_ok argv /\ (length argv < MAXARGS)%nat
  | TRedir c' f _ => tree_ok c' /\ str_ok f
  | TPipe l r | TList l r => tree_ok l /\ tree_ok r
  | TBack c' => tree_ok c'
  end.

Definition wrap (c : tree) (rs : list (list Z * bool)) : tree := foldl (fun c r => TRedir c r.1 r.2) c rs.
Definition amps (k : nat) : list Z := concat (replicate k (tok [AMP])).

(** What follows: nothing, or a character that satisfies [Q]. *)
Definition begins (Q : Z -> Prop) (t : list Z) : Prop := match t with [] => True | c :: _ => Q c end.
Definition stops (syms : list Z) : list Z -> Prop := begins (fun c => c ∈ syms).

Section Tokens.
Context (text : list Z) (Htext : Forall (fun c => c <> 0) text).
Notation es := (es text).
Notation rest p := (drop p text).

Lemma chr_rest p i : chr text (p + i) = default 0 (drop p text !! i).
Proof. unfold chr. by rewrite lookup_drop. Qed.

Lemma rest_len p u : rest p = u -> (p <= es)%nat -> length u = (es - p)%nat.
Proof. intros <- Hp. rewrite length_drop. done. Qed.

Lemma skip_rest f p sp r : (p <= es)%nat -> rest p = sp ++ r -> Forall (fun c => f c = true) sp ->
  match r with [] => True | c :: _ => f c = false end -> skip text f p = (p + length sp)%nat.
Proof.
  intros Hp Hr Hsp Hstop. destruct (skip_spec text f p Hp) as (H1 & H2 & H3). set (s := skip text f p) in *.
  pose proof (rest_len _ _ Hr Hp) as Hlen. rewrite length_app in Hlen.
  destruct (Nat.lt_trichotomy s (p + length sp)) as [Hlt|[?|Hgt]]; [exfalso|done|exfalso].
  - destruct H3 as [?|H3]; [lia|]. replace s with (p + (s - p))%nat in H3 by lia.
    rewrite chr_rest, Hr, lookup_app_l in H3 by lia. destruct (lookup_lt_is_Some_2 sp (s - p)) as [c Hc]; [lia|].
    rewrite Hc in H3. simpl in H3. rewrite list.Forall_forall in Hsp. rewrite (Hsp c) in H3; [done|by eapply list_elem_of_lookup_2].
  - destruct r as [|c r]; [simpl in Hlen; lia|]. specialize (H2 (p + length sp)%nat ltac:(lia)).
    rewrite chr_rest, Hr, lookup_app_r, Nat.sub_diag in H2 by lia. simpl in H2. congruence.
Qed.

(** The text from here on starts with a token. *)
Definition lead : list Z -> Prop := begins (fun c => is_space c = false).

Lemma skip_lead p t : (p <= es)%nat -> rest p = t -> lead t -> skip text is_space p = p.
Proof. intros Hp Hr Hl. rewrite (skip_rest is_space p [] t) by done. simpl. lia. Qed.

Lemma skip_space p t : (p <= es)%nat -> rest p = 32 :: t -> lead t -> skip text is_space p = (p + 1)%nat.
Proof. intros Hp Hr Hl. by rewrite (skip_rest is_space p [32] t) by (done || by constructor). Qed.

Lemma rest_drop p u t : rest p = u ++ t -> rest (p + length u) = t.
Proof. intros Hr. by rewrite <- drop_drop, Hr, drop_app_length. Qed.

Lemma rest_bound p u t : (p <= es)%nat -> rest p = u ++ t -> (p + length u <= es)%nat.
Proof. intros Hp Hr. pose proof (rest_len _ _ Hr Hp) as Hlen. rewrite length_app in Hlen. lia. Qed.

Lemma chr_head p c t : rest p = c :: t -> chr text p = c.
Proof. intros Hr. pose proof (chr_rest p 0) as Hc. rewrite Nat.add_0_r, Hr in Hc. done. Qed.

Lemma rest_nonzero p c t : rest p = c :: t -> c <> 0.
Proof.
  intros Hr. pose proof (list.Forall_drop _ p _ Htext) as Hd. rewrite Hr in Hd. by apply list.Forall_cons in Hd as [? _].
Qed.

Lemma peek_run toks p t : (p <= es)%nat -> rest p = t -> lead t ->
  peek text toks p = Ok (match t with [] => false | c :: _ => strchr toks c end) p.
Proof.
  intros Hp Hr Hl. unfold peek. rewrite (skip_lead p t) by done. f_equal. destruct t as [|c t].
  - unfold chr. rewrite <- (Nat.add_0_r p), <- lookup_drop, Hr. done.
  - rewrite (chr_head p c t Hr), (proj2 (Z.eqb_neq _ _) (rest_nonzero _ _ _ Hr)). done.
Qed.

Definition syms1 : list Z := [BAR; LPAR; RPAR; SEMI; AMP; LT; GT].

Lemma sym_run c p t : c ∈ syms1 -> (p <= es)%nat -> rest p = tok [c] ++ t -> lead t ->
  gettoken text p = Ok (c, p, (p + 1)%nat) (p + 2)%nat /\ rest (p + 2) = t /\ (p + 2 <= es)%nat.
Proof.
  intros Hc Hp Hr Hl. change (tok [c] ++ t) with (c :: 32 :: t) in Hr.
  assert (rest (p + 1) = 32 :: t) as Hr1 by (by apply (rest_drop p [c])).
  assert (rest (p + 2) = t) as Hr2 by (by apply (rest_drop p [c; 32])).
  pose proof (rest_bound p [c; 32] t Hp Hr) as Hb. simpl in Hb. split; [|split; [done|lia]].
  assert (is_space c = false) as Hsp.
  { unfold syms1 in Hc. rewrite !elem_of_cons, elem_of_nil in Hc. destruct Hc as [->|[->|[->|[->|[->|[->|[->|[]]]]]]]]; reflexivity. }
  unfold gettoken. rewrite (skip_lead p (c :: 32 :: t)), (chr_head p c _ Hr), (chr_head (p + 1) 32 _ Hr1) by done.
  rewrite (proj2 (Z.eqb_neq _ _) (rest_nonzero _ _ _ Hr)).
  assert (skip text is_space (p + 1) = (p + 2)%nat) as Hs by (rewrite (skip_space (p + 1) t) by (done || lia); lia).
  unfold syms1 in Hc. rewrite !elem_of_cons, elem_of_nil in Hc.
  destruct Hc as [->|[->|[->|[->|[->|[->|[->|[]]]]]]]]; cbn; by rewrite Hs.
Qed.

Lemma word_run w p t : str_ok w -> (p <= es)%nat -> rest p = tok w ++ t -> lead t ->
  gettoken text p = Ok (97, p, (p + length w)%nat) (p + length w + 1)%nat /\ rest (p + length w + 1) = t /\
  (p + length w + 1 <= es)%nat /\ sub text (p, (p + length w)%nat) = w.
Proof.
  intros [Hne Hw] Hp Hr Hl. unfold tok in Hr. rewrite <- app_assoc in Hr. change ([32] ++ t) with (32 :: t) in Hr.
  pose proof (rest_drop p w _ Hr) as Hr1. pose proof (rest_bound p w _ Hp Hr) as Hb1.
  pose proof (rest_drop _ [32] _ Hr1) as Hr2. pose proof (rest_bound _ [32] _ Hb1 Hr1) as Hb2. cbn [length] in Hr2, Hb2.
  split; [|split; [done|]; split; [done|]]; [|unfold sub; cbn [fst snd]; replace (p + length w - p)%nat with (length w) by lia; rewrite Hr; apply take_app_length].
  destruct w as [|c w]; [done|]. pose proof Hw as Hw'. apply list.Forall_cons in Hw' as [[Hc0 Hc] _].
  assert (is_space c = false) as Hsp by (unfold is_plain in Hc; apply andb_true_iff in Hc as [Hc _]; by apply negb_true_iff in Hc).
  unfold gettoken. rewrite (skip_lead p ((c :: w) ++ 32 :: t)) by done. rewrite (chr_head p c (w ++ 32 :: t) Hr), (proj2 (Z.eqb_neq _ _) Hc0).
  assert (forall x, x ∈ symbols -> (c =? x) = false) as Hsym.
  { intros x Hx. apply Z.eqb_neq. intros ->. unfold is_plain in Hc. apply andb_true_iff in Hc as [_ Hc].
    apply negb_true_iff, bool_decide_eq_false in Hc. done. }
  unfold symbols in Hsym. rewrite !Hsym by (rewrite !elem_of_cons; tauto). cbn [orb].
  rewrite (skip_rest is_plain p (c :: w) (32 :: t)); [|done|done| |reflexivity].
  2: { eapply list.Forall_impl; [exact Hw|]. by intros x [_ ?]. }
  cbn [fst snd]. rewrite (skip_space (p + length (c :: w)) t) by done. done.
Qed.

Lemma peek_false toks p t : (p <= es)%nat -> rest p = t -> lead t -> begins (fun c => c ∉ toks) t ->
  peek text toks p = Ok false p.
Proof.
  intros Hp Hr Hl Hn. rewrite (peek_run toks p t) by done. destruct t as [|c t]; [done|].
  unfold strchr. by rewrite bool_decide_eq_false_2.
Qed.

Lemma peek_true toks p c t : (p <= es)%nat -> rest p = tok [c] ++ t -> c ∈ toks -> is_space c = false ->
  peek text toks p = Ok true p.
Proof. intros Hp Hr Hc Hl. rewrite (peek_run toks p (tok [c] ++ t)) by done. simpl. unfold strchr. by rewrite bool_decide_eq_true_2. Qed.

Lemma end_run p : p = es -> gettoken text p = Ok (0, p, p) p.
Proof.
  intros ->. assert (rest es = []) as Hr by (by apply drop_ge). unfold gettoken. rewrite (skip_lead es []) by done.
  assert (chr text es = 0) as -> by (apply chr_end; done). cbn. by rewrite (skip_lead es []) by done.
Qed.
End Tokens.

Lemma begins_impl (Q R : Z -> Prop) t : begins Q t -> (forall c, Q c -> R c) -> begins R t.
Proof. destruct t; simpl; auto. Qed.

Definition EXECSTOP : list Z := [BAR; RPAR; AMP; SEMI].
Definition PIPESTOP : list Z := [RPAR; AMP; SEMI].
Definition BACKSTOP : list Z := [RPAR; SEMI].
Definition LINESTOP : list Z := [RPAR].

(** Inclusion and disjointness of concrete sets of characters. *)
Ltac chars :=
  intros ?c ?Hc; try intros ?Hd;
  unfold syms1, symbols, EXECSTOP, PIPESTOP, BACKSTOP, LINESTOP in *; rewrite ?elem_of_cons, ?elem_of_nil in *;
  destruct_or?; subst; try done; tauto.

Lemma str_ok_lead w t : str_ok w -> begins (fun c => is_plain c = true) (tok w ++ t).
Proof. intros [Hne Hw]. destruct w as [|c w]; [done|]. by apply list.Forall_cons in Hw as [[_ ?] _]. Qed.

Lemma plain_lead c : is_plain c = true -> is_space c = false.
Proof. unfold is_plain, is_space. intros [H _]%andb_true_iff. by apply negb_true_iff. Qed.

Lemma plain_nosym c toks : is_plain c = true -> toks ⊆ symbols -> c ∉ toks.
Proof.
  unfold is_plain, strchr. intros [_ H]%andb_true_iff Hs Hc. apply negb_true_iff, bool_decide_eq_false in H. by apply H, Hs.
Qed.

Lemma plain_begins toks t : begins (fun c => is_plain c = true) t -> toks ⊆ symbols -> begins (fun c => c ∉ toks) t.
Proof. intros Ht Hs. eapply begins_impl; [exact Ht|]. intros c Hc. by eapply plain_nosym. Qed.

Lemma stops_lead syms t : syms ⊆ symbols -> stops syms t -> lead t.
Proof.
  intros Hs Ht. eapply begins_impl; [exact Ht|]. intros c Hc. apply Hs in Hc. unfold symbols in Hc.
  rewrite !elem_of_cons, elem_of_nil in Hc. destruct_or?; subst; done.
Qed.

Lemma stops_not syms toks t : stops syms t -> syms ## toks -> begins (fun c => c ∉ toks) t.
Proof. intros Ht Hd. eapply begins_impl; [exact Ht|]. intros c Hc ?. by apply (Hd c). Qed.

Lemma rds_begins rs t syms : LT ∈ syms -> GT ∈ syms -> stops syms t -> stops syms (rds rs ++ t).
Proof. intros HL HG Ht. destruct rs as [|[f []] rs]; simpl; done. Qed.

Section Runs.
Context (text : list Z) (Htext : Forall (fun c => c <> 0) text).
Notation es := (es text).
Notation rest p := (drop p text).

Definition redir_is (r' : redir) (r : list Z * bool) : Prop := sub text r'.1.1 = r.1 /\ (r'.2 =? 1) = r.2.

Lemma redirs_run rs n acc p t : Forall (fun r => str_ok r.1) rs -> (p <= es)%nat -> rest p = rds rs ++ t -> lead t ->
  begins (fun c => c ∉ [LT; GT]) t -> (es - p < n)%nat ->
  exists rs' p', redirs_loop text n acc p = Ok (acc ++ rs') p' /\ rest p' = t /\ (p <= p' <= es)%nat /\ Forall2 redir_is rs' rs.
Proof.
  intros Hrs. revert n acc p. induction Hrs as [|[f o] rs Hf _ IH]; intros n acc p Hp Hr Hl Hn Hfuel;
    (destruct n as [|n]; [lia|]); cbn [redirs_loop].
  { rewrite (kbind_ok _ _ _ _ _ (peek_false text Htext _ p t Hp Hr Hl Hn)). exists [], p. rewrite app_nil_r.
    split_and!; [done|done|lia|done|constructor]. }
  set (c := if o then GT else LT).
  assert (rest p = tok [c] ++ tok f ++ rds rs ++ t) as Hr' by (rewrite Hr; unfold rds; cbn [fmap list_fmap concat]; unfold rd; cbn [fst snd]; by rewrite <- !app_assoc).
  assert (c ∈ [LT; GT]) as Hc by (subst c; destruct o; rewrite !elem_of_cons; tauto).
  rewrite (kbind_ok _ _ _ _ _ (peek_true text Htext _ p c _ Hp Hr' Hc ltac:(by subst c; destruct o))). cbn [negb].
  destruct (sym_run text Htext c p _ ltac:(revert Hc; generalize c; clear; chars) Hp Hr'
    ltac:(eapply begins_impl; [by apply str_ok_lead|apply plain_lead])) as (Ht & Hr1 & Hp1).
  rewrite (kbind_ok _ _ _ _ _ Ht). assert (lead (rds rs ++ t)) as Hl1 by (destruct rs as [|[? []] ?]; done).
  destruct (word_run text f (p + 2) _ Hf Hp1 Hr1 Hl1) as (Hw & Hr2 & Hp2 & Hsub).
  rewrite (kbind_ok _ _ _ _ _ Hw). cbn [fst snd]. change (negb (97 =? 97)) with false. cbv iota.
  set (r' := ((p + 2, p + 2 + length f)%nat, if o then Z.lor O_WRONLY O_CREATE else O_RDONLY, if o then 1 else 0) : redir).
  destruct (IH n (acc ++ [r']) _ Hp2 Hr2 Hl Hn ltac:(lia)) as (rs' & p' & E & Hr3 & Hp3 & HF).
  exists (r' :: rs'), p'. split; [|split; [done|]; split; [lia|]].
  - rewrite <- app_assoc in E. subst c r'. destruct o; exact E.
  - constructor; [|done]. split; [done|]. by destruct o.
Qed.

Lemma parseredirs_run rs p t : Forall (fun r => str_ok r.1) rs -> (p <= es)%nat -> rest p = rds rs ++ t -> lead t ->
  begins (fun c => c ∉ [LT; GT]) t -> forall acc,
  exists rs' p', parseredirs text acc p = Ok (acc ++ rs') p' /\ rest p' = t /\ (p <= p' <= es)%nat /\ Forall2 redir_is rs' rs.
Proof. intros. eapply redirs_run; try done. unfold rounds. lia. Qed.

Lemma tree_of_redircmds c rs' rs : Forall2 redir_is rs' rs -> tree_of text (redircmds c rs') = wrap (tree_of text c) rs.
Proof.
  intros H. revert c. induction H as [|r' r rs' rs [H1 H2] _ IH]; intros c; [done|].
  unfold redircmds, wrap in *. cbn [foldl]. rewrite IH. unfold redircmd. cbn [tree_of]. by rewrite H1, H2.
Qed.

(** The end of a program: nothing left, or a symbol that stops it. *)
Lemma args_stop n argv rs p t : (p <= es)%nat -> rest p = t -> stops EXECSTOP t ->
  args_loop text (S n) argv rs p = Ok (redircmds (EXEC argv) rs) p.
Proof.
  intros Hp Hr Ht. cbn [args_loop].
  assert (lead t) as Hl by (eapply stops_lead; [|exact Ht]; chars).
  rewrite (kbind_ok _ _ _ _ _ (peek_run text Htext _ p t Hp Hr Hl)). destruct t as [|c t].
  - assert (p = es) as -> by (pose proof (rest_len text _ _ Hr Hp); simpl in *; lia).
    cbv iota. by rewrite (kbind_ok _ _ _ _ _ (end_run text Htext _ eq_refl)).
  - unfold strchr. rewrite bool_decide_eq_true_2 by exact Ht. done.
Qed.

(** The words, and behind the last one the redirections. *)
Lemma args_run ws n argv acc rs p t : ws <> [] -> Forall str_ok ws -> Forall (fun r => str_ok r.1) rs ->
  (length argv + length ws < MAXARGS)%nat -> (p <= es)%nat -> rest p = concat (tok <$> ws) ++ rds rs ++ t ->
  stops EXECSTOP t -> (es - p < n)%nat ->
  exists argv' rs' p', args_loop text n argv acc p = Ok (redircmds (EXEC (argv ++ argv')) (acc ++ rs')) p' /\ rest p' = t /\
    (p <= p' <= es)%nat /\ sub text <$> argv' = ws /\ Forall2 redir_is rs' rs.
Proof.
  intros Hne Hws Hrs. revert n argv p Hne acc. induction Hws as [|w ws Hw Hws IH]; intros n argv p Hne acc Hmax Hp Hr Ht Hn; [done|].
  destruct n as [|n]; [lia|]. cbn [args_loop]. cbn [fmap list_fmap concat length] in Hr, Hmax. rewrite <- app_assoc in Hr.
  assert (lead t) as Hlt by (eapply stops_lead; [|exact Ht]; chars).
  assert (begins (fun c => c ∉ [LT; GT]) t) as Hnt by (eapply stops_not; [exact Ht|]; chars).
  pose proof (str_ok_lead w (concat (tok <$> ws) ++ rds rs ++ t) Hw) as Hpl.
  rewrite (kbind_ok _ _ _ _ _ (peek_false text Htext _ p _ Hp Hr (begins_impl _ _ _ Hpl plain_lead)
    (plain_begins EXECSTOP _ Hpl ltac:(chars)))). cbv iota.
  assert (lead (concat (tok <$> ws) ++ rds rs ++ t)) as Hl1.
  { destruct Hws as [|w' ws Hw' Hws]; [destruct rs as [|[? []] ?]; done|]. cbn [fmap list_fmap concat]. rewrite <- app_assoc.
    eapply begins_impl; [by apply str_ok_lead|apply plain_lead]. }
  destruct (word_run text w p _ Hw Hp Hr Hl1) as (Et & Hr1 & Hp1 & Hsub).
  rewrite (kbind_ok _ _ _ _ _ Et). cbn [fst snd]. change (97 =? 0) with false. change (negb (97 =? 97)) with false. cbv iota.
  rewrite (proj2 (Nat.leb_gt _ _)) by (rewrite length_app; simpl; lia). cbv iota.
  destruct (decide (ws = [])) as [->|Hne'].
  - destruct (parseredirs_run rs _ t Hrs Hp1 Hr1 Hlt Hnt acc) as (rs' & p' & E & Hr2 & Hp2 & HF).
    rewrite (kbind_ok _ _ _ _ _ E). destruct n as [|n]; [lia|]. rewrite (args_stop n _ _ p' t) by (done || lia).
    exists [(p, (p + length w)%nat)], rs', p'. split_and!; [done|done|lia|lia| |done]. cbn [fmap list_fmap]. by rewrite Hsub.
  - destruct ws as [|w' ws]; [done|]. apply list.Forall_cons in Hws as Hws'. destruct Hws' as [Hw' _].
    pose proof (str_ok_lead w' (concat (tok <$> ws) ++ rds rs ++ t) Hw') as Hpl'.
    assert (rest (p + length w + 1) = rds [] ++ tok w' ++ concat (tok <$> ws) ++ rds rs ++ t) as Hr1'
      by (rewrite Hr1; cbn [fmap list_fmap concat]; by rewrite <- app_assoc).
    destruct (parseredirs_run [] _ _ ltac:(constructor) Hp1 Hr1' (begins_impl _ _ _ Hpl' plain_lead)
      (plain_begins [LT; GT] _ Hpl' ltac:(chars)) acc) as (rs0 & p1 & E & Hr2 & Hp2 & HF0).
    apply list.Forall2_nil_inv_r in HF0 as ->. rewrite app_nil_r in E. rewrite (kbind_ok _ _ _ _ _ E).
    edestruct (IH n (argv ++ [(p, (p + length w)%nat)]) p1 ltac:(done) acc) as (argv' & rs' & p' & E' & Hr3 & Hp3 & HA & HF).
    { rewrite length_app. cbn [length] in *. lia. } { lia. } { rewrite Hr2. cbn [fmap list_fmap concat]. by rewrite <- app_assoc. } { done. } { lia. }
    exists ((p, (p + length w)%nat) :: argv'), rs', p'. rewrite <- app_assoc in E'. split_and!; [done|done|lia|lia| |done].
    cbn [fmap list_fmap]. rewrite Hsub. f_equal. exact HA.
Qed.

Lemma amps_stops k t : stops BACKSTOP t -> stops PIPESTOP (amps k ++ t).
Proof. intros Ht. destruct k; [|simpl; unfold PIPESTOP; rewrite !elem_of_cons; tauto]. eapply begins_impl; [exact Ht|]. chars. Qed.

Lemma back_run k n c p t : (p <= es)%nat -> rest p = amps k ++ t -> stops BACKSTOP t -> (es - p < n)%nat ->
  exists p', back_loop text n c p = Ok (Nat.iter k BACK c) p' /\ rest p' = t /\ (p <= p' <= es)%nat.
Proof.
  revert n c p. induction k as [|k IH]; intros n c p Hp Hr Ht Hn; (destruct n as [|n]; [lia|]); cbn [back_loop].
  - rewrite (kbind_ok _ _ _ _ _ (peek_false text Htext _ p t Hp Hr (stops_lead BACKSTOP _ ltac:(chars) Ht) (stops_not BACKSTOP [AMP] _ Ht ltac:(chars)))).
    exists p. done.
  - assert (rest p = tok [AMP] ++ amps k ++ t) as Hr' by (rewrite Hr; unfold amps; cbn [replicate concat]; by rewrite <- app_assoc).
    rewrite (kbind_ok _ _ _ _ _ (peek_true text Htext [AMP] p AMP _ Hp Hr' ltac:(by left) eq_refl)).
    pose proof (amps_stops k t Ht) as Hs.
    destruct (sym_run text Htext AMP p _ ltac:(unfold syms1; rewrite !elem_of_cons; tauto) Hp Hr' (stops_lead PIPESTOP _ ltac:(chars) Hs)) as (E & Hr1 & Hp1).
    rewrite (kbind_ok _ _ _ _ _ E). destruct (IH n (BACK c) _ Hp1 Hr1 Ht ltac:(lia)) as (p' & E' & Hr2 & Hp2).
    exists p'. rewrite E'. rewrite <- Nat.iter_succ_r. split_and!; [done|done|lia|lia].
Qed.

(** ** What is printed at each level is read back at that level *)

Definition reads (m : M nat cmd) (p : nat) (c : tree) (t : list Z) : Prop :=
  exists c' p', m p = Ok c' p' /\ rest p' = t /\ (p <= p' <= es)%nat /\ tree_of text c' = c.

Definition L0 (c : tree) : Prop := forall p fuel rs t, (p <= es)%nat -> Forall (fun r => str_ok r.1) rs ->
  rest p = pr 0 c ++ rds rs ++ t -> stops EXECSTOP t -> (4 * (es - p) + 2 <= fuel)%nat ->
  reads (parseexec text fuel) p (wrap c rs) t.
Definition L1 (c : tree) : Prop := forall p fuel t, (p <= es)%nat ->
  rest p = pr 1 c ++ t -> stops PIPESTOP t -> (4 * (es - p) + 3 <= fuel)%nat -> reads (parsepipe text fuel) p c t.
Definition L2 (c : tree) : Prop := forall p fuel k t, (p <= es)%nat ->
  rest p = pr 2 c ++ amps k ++ t -> stops BACKSTOP t -> (4 * (es - p) + 3 <= fuel)%nat ->
  reads (c1 <- parsepipe text fuel ;; back_loop text (rounds text) c1) p (Nat.iter k TBack c) t.
Definition L3 (c : tree) : Prop := forall p fuel t, (p <= es)%nat ->
  rest p = pr 3 c ++ t -> stops LINESTOP t -> (4 * (es - p) + 4 <= fuel)%nat -> reads (parseline text fuel) p c t.

Lemma L1_of_L0 c : L0 c -> pr 1 c = pr 0 c -> L1 c.
Proof.
  intros H E p fuel t Hp Hr Ht Hf. destruct fuel as [|fuel]; [lia|].
  destruct (H p fuel [] t Hp ltac:(constructor) ltac:(by rewrite Hr, E) ltac:(eapply begins_impl; [exact Ht|chars]) ltac:(lia))
    as (c' & p' & E1 & Hr1 & Hp1 & Hc).
  exists c', p'. split_and!; [|done|lia|lia|done]. cbn [parsepipe]. rewrite (kbind_ok _ _ _ _ _ E1).
  by rewrite (kbind_ok _ _ _ _ _ (peek_false text Htext [BAR] p' t ltac:(lia) Hr1 (stops_lead PIPESTOP _ ltac:(chars) Ht) (stops_not PIPESTOP [BAR] _ Ht ltac:(chars)))).
Qed.

Lemma tree_of_back k c : tree_of text (Nat.iter k BACK c) = Nat.iter k TBack (tree_of text c).
Proof. induction k as [|k IH]; [done|]. cbn [Nat.iter nat_rect tree_of]. f_equal. exact IH. Qed.

Lemma L2_of_L1 c : L1 c -> pr 2 c = pr 1 c -> L2 c.
Proof.
  intros H E p fuel k t Hp Hr Ht Hf.
  destruct (H p fuel _ Hp ltac:(by rewrite Hr, E) (amps_stops k t Ht) Hf) as (c1 & p1 & E1 & Hr1 & Hp1 & Hc).
  destruct (back_run k (rounds text) c1 p1 t ltac:(lia) Hr1 Ht ltac:(unfold rounds; lia)) as (p' & E2 & Hr2 & Hp2).
  exists (Nat.iter k BACK c1), p'. rewrite (kbind_ok _ _ _ _ _ E1), tree_of_back, Hc. split_and!; [done|done|lia|lia|done].
Qed.

Lemma L3_of_L2 c : L2 c -> pr 3 c = pr 2 c -> L3 c.
Proof.
  intros H E p fuel t Hp Hr Ht Hf. destruct fuel as [|fuel]; [lia|].
  destruct (H p fuel 0%nat t Hp ltac:(by rewrite Hr, E) ltac:(eapply begins_impl; [exact Ht|chars]) ltac:(lia))
    as (c' & p' & E1 & Hr1 & Hp1 & Hc).
  exists c', p'. split_and!; [|done|lia|lia|done]. cbn [parseline]. rewrite <- kbind_assoc, (kbind_ok _ _ _ _ _ E1).
  by rewrite (kbind_ok _ _ _ _ _ (peek_false text Htext [SEMI] p' t ltac:(lia) Hr1 (stops_lead LINESTOP _ ltac:(chars) Ht) (stops_not LINESTOP [SEMI] _ Ht ltac:(chars)))).
Qed.

Lemma lead_pr c lvl t : tree_ok c -> lead t -> lead (pr lvl c ++ t).
Proof.
  revert lvl t. induction c as [argv|c IH f o|l IHl r IHr|l IHl r IHr|c IH]; intros lvl t Hok Hl.
  - destruct Hok as [Hw _]. destruct Hw as [|w ws Hw _]; [done|]. cbn [pr fmap list_fmap concat]. rewrite <- app_assoc.
    eapply begins_impl; [by apply str_ok_lead|apply plain_lead].
  - cbn [pr]. rewrite <- app_assoc. apply IH; [apply Hok|]. by destruct o.
  - cbn [pr]. destruct (_ <? _)%nat; cbn [paren]; [done|]. rewrite <- app_assoc. apply IHl; [apply Hok|done].
  - cbn [pr]. destruct (_ <? _)%nat; cbn [paren]; [done|]. rewrite <- app_assoc. apply IHl; [apply Hok|done].
  - cbn [pr]. destruct (_ <? _)%nat; cbn [paren]; [done|]. rewrite <- app_assoc. by apply IH.
Qed.

Lemma L0_exec argv : tree_ok (TExec argv) -> L0 (TExec argv).
Proof.
  intros [Hw Hlen] p fuel rs t Hp Hrs Hr Ht Hf. destruct fuel as [|fuel]; [lia|]. cbn [pr] in Hr.
  assert (lead t) as Hlt by (eapply stops_lead; [|exact Ht]; chars).
  assert (begins (fun c => c ∉ [LT; GT]) t) as Hnt by (eapply stops_not; [exact Ht|]; chars).
  destruct (decide (argv = [])) as [->|Hne].
  - assert (stops (LT :: GT :: EXECSTOP) (rds rs ++ t)) as Hs.
    { apply rds_begins; [by left|by right; left|]. eapply begins_impl; [exact Ht|]. intros c Hc. by do 2 right. }
    destruct (parseredirs_run rs p t Hrs Hp Hr Hlt Hnt []) as (rs' & p' & E & Hr1 & Hp1 & HF).
    exists (redircmds (EXEC []) rs'), p'. rewrite (tree_of_redircmds _ _ rs HF). split_and!; [|done|lia|lia|done].
    cbn [parseexec]. rewrite (kbind_ok _ _ _ _ _ (peek_false text Htext [LPAR] p _ Hp Hr
      (stops_lead (LT :: GT :: EXECSTOP) _ ltac:(chars) Hs) (stops_not (LT :: GT :: EXECSTOP) [LPAR] _ Hs ltac:(chars)))).
    cbv iota. rewrite (kbind_ok _ _ _ _ _ E). unfold rounds. apply (args_stop _ _ _ _ t); [lia|done|done].
  - assert (begins (fun c => is_plain c = true) (concat (tok <$> argv) ++ rds rs ++ t)) as Hpl.
    { destruct Hw as [|w ws Hw _]; [done|]. cbn [fmap list_fmap concat]. rewrite <- app_assoc. by apply str_ok_lead. }
    destruct (parseredirs_run [] p _ ltac:(constructor) Hp Hr (begins_impl _ _ _ Hpl plain_lead)
      (plain_begins [LT; GT] _ Hpl ltac:(chars)) []) as (rs0 & p1 & E & Hr1 & Hp1 & HF0).
    apply list.Forall2_nil_inv_r in HF0 as ->.
    destruct (args_run argv (rounds text) [] [] rs p1 t Hne Hw Hrs Hlen ltac:(lia) Hr1 Ht ltac:(unfold rounds; lia))
      as (argv' & rs' & p' & E' & Hr2 & Hp2 & HA & HF).
    exists (redircmds (EXEC argv') rs'), p'. rewrite (tree_of_redircmds _ _ rs HF). cbn [tree_of]. rewrite HA. split_and!; [|done|lia|lia|done].
    cbn [parseexec]. rewrite (kbind_ok _ _ _ _ _ (peek_false text Htext [LPAR] p _ Hp Hr (begins_impl _ _ _ Hpl plain_lead)
      (plain_begins [LPAR] _ Hpl ltac:(chars)))). cbv iota. rewrite (kbind_ok _ _ _ _ _ E). exact E'.
Qed.

Lemma L0_redir c f o : str_ok f -> L0 c -> L0 (TRedir c f o).
Proof.
  intros Hf H p fuel rs t Hp Hrs Hr Ht Hfuel. change (wrap (TRedir c f o) rs) with (wrap c ((f, o) :: rs)).
  apply H; [done|by constructor| |done|done]. rewrite Hr. cbn [pr]. unfold rds. cbn [fmap list_fmap concat]. by rewrite <- !app_assoc.
Qed.

Lemma L0_of_L3 c : tree_ok c -> L3 c -> pr 0 c = paren true (pr 3 c) -> L0 c.
Proof.
  intros Hok H E p fuel rs t Hp Hrs Hr Ht Hf. destruct fuel as [|[|fuel]]; [lia|lia|].
  rewrite E in Hr. cbn [paren] in Hr. rewrite <- !app_assoc in Hr.
  assert (lead t) as Hlt by (eapply stops_lead; [|exact Ht]; chars).
  assert (begins (fun c => c ∉ [LT; GT]) t) as Hnt by (eapply stops_not; [exact Ht|]; chars).
  pose proof (peek_true text Htext [LPAR] p LPAR _ Hp Hr ltac:(by left) eq_refl) as Epk.
  destruct (sym_run text Htext LPAR p _ ltac:(unfold syms1; rewrite !elem_of_cons; tauto) Hp Hr ltac:(by apply lead_pr)) as (E1 & Hr1 & Hp1).
  destruct (H _ fuel _ Hp1 Hr1 ltac:(by left) ltac:(lia)) as (c' & p2 & E2 & Hr2 & Hp2 & Hc).
  pose proof (peek_true text Htext [RPAR] p2 RPAR _ (proj2 Hp2) Hr2 ltac:(by left) eq_refl) as Epk2.
  destruct (sym_run text Htext RPAR p2 _ ltac:(unfold syms1; rewrite !elem_of_cons; tauto) (proj2 Hp2) Hr2 ltac:(by destruct rs as [|[? []] ?])) as (E3 & Hr3 & Hp3).
  destruct (parseredirs_run rs _ t Hrs Hp3 Hr3 Hlt Hnt []) as (rs' & p' & E4 & Hr4 & Hp4 & HF).
  exists (redircmds c' rs'), p'. rewrite (tree_of_redircmds _ _ rs HF), Hc. split_and!; [|done|lia|lia|done].
  cbn [parseexec]. rewrite (kbind_ok _ _ _ _ _ Epk). cbn [parseblock].
  rewrite (kbind_ok _ _ _ _ _ Epk). cbn [negb]. rewrite (kbind_ok _ _ _ _ _ E1), (kbind_ok _ _ _ _ _ E2), (kbind_ok _ _ _ _ _ Epk2).
  cbn [negb]. rewrite (kbind_ok _ _ _ _ _ E3), (kbind_ok _ _ _ _ _ E4). done.
Qed.

Lemma L1_pipe l r : tree_ok r -> L0 l -> L1 r -> L1 (TPipe l r).
Proof.
  intros Hok Hl Hr p fuel t Hp Hrest Ht Hf. destruct fuel as [|fuel]; [lia|].
  cbn [pr paren Nat.ltb Nat.leb] in Hrest. rewrite <- !app_assoc in Hrest.
  destruct (Hl p fuel [] _ Hp ltac:(constructor) Hrest ltac:(by left) ltac:(lia)) as (cl & p1 & E1 & Hr1 & Hp1 & Hcl).
  pose proof (peek_true text Htext [BAR] p1 BAR _ (proj2 Hp1) Hr1 ltac:(by left) eq_refl) as Epk.
  destruct (sym_run text Htext BAR p1 _ ltac:(unfold syms1; rewrite !elem_of_cons; tauto) (proj2 Hp1) Hr1
    ltac:(apply lead_pr; [done|]; exact (stops_lead PIPESTOP _ ltac:(chars) Ht))) as (E2 & Hr2 & Hp2).
  destruct (Hr _ fuel t Hp2 Hr2 Ht ltac:(lia)) as (cr & p' & E3 & Hr3 & Hp3 & Hcr).
  exists (PIPE cl cr), p'. cbn [tree_of]. rewrite Hcl, Hcr. split_and!; [|done|lia|lia|done].
  cbn [parsepipe]. rewrite (kbind_ok _ _ _ _ _ E1), (kbind_ok _ _ _ _ _ Epk). cbv iota.
  by rewrite (kbind_ok _ _ _ _ _ E2), (kbind_ok _ _ _ _ _ E3).
Qed.

Lemma L2_back c : L2 c -> L2 (TBack c).
Proof.
  intros H p fuel k t Hp Hr Ht Hf. rewrite <- Nat.iter_succ_r. apply H; [done| |done|done].
  rewrite Hr. cbn [pr paren Nat.ltb Nat.leb]. unfold amps. cbn [replicate concat]. by rewrite <- !app_assoc.
Qed.

Lemma L3_list l r : tree_ok r -> L2 l -> L3 r -> L3 (TList l r).
Proof.
  intros Hok Hl Hr p fuel t Hp Hrest Ht Hf. destruct fuel as [|fuel]; [lia|].
  cbn [pr paren Nat.ltb Nat.leb] in Hrest. rewrite <- !app_assoc in Hrest.
  destruct (Hl p fuel 0%nat _ Hp Hrest ltac:(by right; left) ltac:(lia)) as (cl & p1 & E1 & Hr1 & Hp1 & Hcl).
  pose proof (peek_true text Htext [SEMI] p1 SEMI _ (proj2 Hp1) Hr1 ltac:(by left) eq_refl) as Epk.
  destruct (sym_run text Htext SEMI p1 _ ltac:(unfold syms1; rewrite !elem_of_cons; tauto) (proj2 Hp1) Hr1
    ltac:(apply lead_pr; [done|]; exact (stops_lead LINESTOP _ ltac:(chars) Ht))) as (E2 & Hr2 & Hp2).
  destruct (Hr _ fuel t Hp2 Hr2 Ht ltac:(lia)) as (cr & p' & E3 & Hr3 & Hp3 & Hcr).
  exists (LIST cl cr), p'. cbn [tree_of]. rewrite Hcl, Hcr. split_and!; [|done|lia|lia|done].
  cbn [parseline]. rewrite <- kbind_assoc, (kbind_ok _ _ _ _ _ E1), (kbind_ok _ _ _ _ _ Epk). cbv iota.
  by rewrite (kbind_ok _ _ _ _ _ E2), (kbind_ok _ _ _ _ _ E3).
Qed.

Lemma levels c : tree_ok c -> L0 c /\ L1 c /\ L2 c /\ L3 c.
Proof.
  induction c as [argv|c IH f o|l IHl r IHr|l IHl r IHr|c IH]; intros Hok.
  - assert (L0 (TExec argv)) as H0 by (by apply L0_exec).
    assert (L1 (TExec argv)) as H1 by (by apply L1_of_L0). assert (L2 (TExec argv)) as H2 by (by apply L2_of_L1).
    split_and!; [done|done|done|by apply L3_of_L2].
  - destruct Hok as [Hc Hf]. destruct (IH Hc) as (H0' & _). assert (L0 (TRedir c f o)) as H0 by (by apply L0_redir).
    assert (L1 (TRedir c f o)) as H1 by (by apply L1_of_L0). assert (L2 (TRedir c f o)) as H2 by (by apply L2_of_L1).
    split_and!; [done|done|done|by apply L3_of_L2].
  - pose proof Hok as [Hl Hr]. assert (L1 (TPipe l r)) as H1 by (apply L1_pipe; [done|apply IHl, Hl|apply IHr, Hr]).
    assert (L2 (TPipe l r)) as H2 by (by apply L2_of_L1). assert (L3 (TPipe l r)) as H3 by (by apply L3_of_L2).
    split_and!; [by apply L0_of_L3|done|done|done].
  - pose proof Hok as [Hl Hr]. assert (L3 (TList l r)) as H3 by (apply L3_list; [done|apply IHl, Hl|apply IHr, Hr]).
    assert (L0 (TList l r)) as H0 by (by apply L0_of_L3). assert (L1 (TList l r)) as H1 by (by apply L1_of_L0).
    split_and!; [done|done|by apply L2_of_L1|done].
  - assert (L2 (TBack c)) as H2 by (apply L2_back, IH, Hok). assert (L3 (TBack c)) as H3 by (by apply L3_of_L2).
    assert (L0 (TBack c)) as H0 by (by apply L0_of_L3). split_and!; [done|by apply L1_of_L0|done|done].
Qed.
End Runs.

(** The command as [runcmd] finds it: the strings that the pointers of the
    structure point at, in the buffer. *)
Fixpoint as_run (buf : list Z) (c : cmd) : tree :=
  match c with
  | EXEC argv => TExec ((fun w => cstr (drop w.1 buf)) <$> argv)
  | REDIR c' f mode fd => TRedir (as_run buf c') (cstr (drop f.1 buf)) (fd =? 1)
  | PIPE l r => TPipe (as_run buf l) (as_run buf r)
  | LIST l r => TList (as_run buf l) (as_run buf r)
  | BACK c' => TBack (as_run buf c')
  end.

Lemma as_run_words text buf c : (forall w, w ∈ words c -> cstr (drop w.1 buf) = sub text w) -> as_run buf c = tree_of text c.
Proof.
  induction c as [argv|c IH f m d|l IHl r IHr|l IHl r IHr|c IH]; cbn [words as_run tree_of]; intros H.
  - f_equal. apply list_fmap_ext. intros i w Hw. apply H. by eapply list_elem_of_lookup_2.
  - rewrite IH by (intros w Hw; apply H, elem_of_app; by left). f_equal. apply H, elem_of_app. right. by left.
  - by rewrite IHl, IHr by (intros w Hw; apply H, elem_of_app; tauto).
  - by rewrite IHl, IHr by (intros w Hw; apply H, elem_of_app; tauto).
  - by rewrite IH.
Qed.

Lemma str_ok_nonzero w : str_ok w -> Forall (fun c => c <> 0) (tok w).
Proof.
  intros [_ H]. unfold tok. apply list.Forall_app. split; [|by repeat constructor].
  eapply list.Forall_impl; [exact H|]. by intros c [? _].
Qed.

Lemma paren_nonzero b l : Forall (fun c => c <> 0) l -> Forall (fun c => c <> 0) (paren b l).
Proof. intros H. destruct b; [|done]. unfold paren, tok. rewrite !list.Forall_app. split; [|split; [done|]]; by repeat constructor. Qed.

Lemma pr_nonzero c lvl : tree_ok c -> Forall (fun c => c <> 0) (pr lvl c).
Proof.
  revert lvl. induction c as [argv|c IH f o|l IHl r IHr|l IHl r IHr|c IH]; intros lvl Hok; cbn [pr].
  - destruct Hok as [Hw _]. induction Hw as [|w ws Hw _ IH]; [constructor|]. cbn [fmap list_fmap concat].
    apply list.Forall_app. split; [by apply str_ok_nonzero|done].
  - destruct Hok as [Hc Hf]. apply list.Forall_app. split; [by apply IH|]. unfold rd. apply list.Forall_app.
    split; [destruct o; by repeat constructor|by apply str_ok_nonzero].
  - apply paren_nonzero. rewrite !list.Forall_app. split; [apply IHl, Hok|]. split; [by repeat constructor|apply IHr, Hok].
  - apply paren_nonzero. rewrite !list.Forall_app. split; [apply IHl, Hok|]. split; [by repeat constructor|apply IHr, Hok].
  - apply paren_nonzero. rewrite !list.Forall_app. split; [by apply IH|by repeat constructor].
Qed.

Lemma parse_pr c : tree_ok c -> exists c', parse (pr 3 c) 0%nat = Ok c' (length (pr 3 c)) /\ tree_of (pr 3 c) c' = c.
Proof.
  intros Hok. set (text := pr 3 c). pose proof (pr_nonzero c 3 Hok) as Htext. fold text in Htext.
  destruct (levels text Htext c Hok) as (_ & _ & _ & H3).
  destruct (H3 0%nat (4 * rounds text)%nat [] ltac:(lia) ltac:(by rewrite app_nil_r) I ltac:(unfold rounds; lia)) as (c' & p' & E & Hr & Hp & Hc).
  assert (p' = es text) as -> by (pose proof (rest_len text _ _ Hr (proj2 Hp)); simpl in *; lia).
  exists c'. split; [|done]. unfold parse. rewrite (kbind_ok _ _ _ _ _ E).
  rewrite (kbind_ok _ _ _ _ _ (peek_run text Htext [] (es text) [] ltac:(done) Hr I)). unfold kbind, kget. by rewrite Nat.eqb_refl.
Qed.

(** C32: The shell reads back every command that can be written down: for any
    nesting of programs, redirections, pipelines, background commands and
    lists, with words of plain characters and at most nine words for a program,
    [parsecmd] applied to the printed command returns a well-formed command
    whose strings, as [runcmd] reads them from the buffer after
    [nulterminate], make up the command that was printed. *)
Theorem parsecmd_print c :
  tree_ok c ->
  exists c' buf, parsecmd (pr 3 c) 0%nat = Ok (c', buf) (length (pr 3 c)) /\ cmd_ok (pr 3 c) c' /\ as_run buf c' = c.
Proof.
  intros Hok. destruct (parse_pr c Hok) as (c' & E & Hc). set (text := pr 3 c) in *.
  pose proof (pr_nonzero c 3 Hok) as Htext. fold text in Htext. pose proof (parse_total text Htext) as Hp. unfold ends in Hp. rewrite E in Hp.
  exists c', (nulterminate c' (text ++ [0])). unfold parsecmd. rewrite (kbind_ok _ _ _ _ _ E). split; [done|]. split; [apply Hp|].
  rewrite (as_run_words text); [done|]. intros w Hw. apply terminated; [done|apply Hp|done].
Qed.

(** [( ls -l | wc ) > f & ; a] *)
Definition sample : tree :=
  TList (TBack (TRedir (TPipe (TExec [[108; 115]; [45; 108]]) (TExec [[119; 99]])) [102] true)) (TExec [[97]]).

Lemma parsecmd_print_witness :
  pr 3 sample = [40; 32; 108; 115; 32; 45; 108; 32; 124; 32; 119; 99; 32; 41; 32; 62; 32; 102; 32; 38; 32; 59; 32; 97; 32] /\
  exists c' buf, parsecmd (pr 3 sample) 0%nat = Ok (c', buf) (length (pr 3 sample)) /\ cmd_ok (pr 3 sample) c' /\ as_run buf c' = sample.
Proof.
  split; [reflexivity|]. apply (parsecmd_print sample). simpl. unfold str_ok, MAXARGS. cbn [length].
  repeat first [done | lia | constructor].
Defined.
